(* ===== verification/_CoqProject ===== *)
-Q . S2P
Prelude.v
GoStrings.v
Utf8.v
Hex.v
Errors.v
Crypto.v
Types.v
Codec.v
Notify.v
Sa.v
Keys.v
Sk.v
Dh.v
World.v
Session.v
Fragments.v
EapAka.v
EapKeys.v
EapMac.v
EapCrypt.v
EapReauth.v
EapChallenge.v
ChildSa.v
Init.v
Auth.v
AuthSpec.v
Esp.v
Informational.v
Liveness.v
EapState.v
Mobike.v
Control.v
Natt.v
Rekey.v
PacketSession.v
PacketPump.v
SmsTables.v
Gsm7.v
SmsUdh.v
SmsText.v
SmsTime.v
SmsAddress.v
SmsRp.v
SmsTpdu.v
SmsSubmit.v
SmsSubmitSpec.v
SmsReassembly.v
Tlv.v
Apdu.v
SimAka.v
SimIdentity.v
RtpDtmf.v
RtpStats.v
SipTransaction.v
SipMessage.v
SipText.v
SipFields.v
SipWire.v
SipTargets.v
SipFlow.v
SipAnswer.v
SipFailover.v
