(* ===== verification/Prelude.v ===== *)
(** * Verification of the vowifi-go protocol engine and its host

    vowifi-go connects a phone's SIM to an operator's ePDG over Wi-Fi.  The code
    under [src/engine/swu] speaks the untrusted-access protocols: IKEv2 (package
    [ikev2]) with EAP-AKA authentication (package [eapaka]), the ESP data path
    (package [esp]), and the timers that keep the tunnel alive.  The code under
    [src/runtimehost] runs on top of it: it asks the SIM card for identities and
    authentications (package [simauth]), sends and receives text messages
    (package [messaging]), speaks SIP to the operator (package [voiceclient]) and
    handles the media of a call (package [voicehost]).  This library models these parts and proves that
    their codecs are inverse and total, that the cryptographic framing protects
    what it carries, that the exchanges accept only what the peer may answer,
    and that the state machines keep their invariants.

    ** How a file reads

    A Go function is a Rocq function of the same name; a method [M] of a type [T]
    is [T_M], or [M] when that is unambiguous.  A [[]byte] is a list of integers
    with the invariant [bytes_ok]; fixed-width integers are [Z] with the ranges
    [is_u8] ... [is_u64], and every conversion that may wrap is written
    ([to_u8] ... [to_u64], [to_i64]).  A call ends in an [outcome]: [Ok], [Err]
    (the chain of errors it wraps, which is what [errors.Is] and [errors.As]
    observe), a run-time panic (an index or slice out of range) or [OutOfFuel].
    Indexing and slicing ([at_], [sub], [slice]) can panic, so a theorem that a
    function is [safe] or total says the code's bounds checks suffice.  A method
    that changes its receiver takes the state and returns the new one next to the
    outcome; a nil pointer is [None].  Code that talks to the peer, to the SIM or
    to a random source many times runs in a small state monad of its file ([M] of
    [World], [act] of [Apdu]).  A loop over input that is consumed is a
    [_loop] fixpoint with fuel just above the length of the input (each turn takes at least
    one octet, or one element), and the totality theorems prove that the fuel
    never runs out; a loop over a list is a structural fixpoint.  The loops with
    a bound of their own (retries, EAP rounds, GET RESPONSE) use that bound.  The theorem
    doc comments that start with a claim number are the properties of the
    development; the other lemmas serve them.

    ** What is a parameter

    Code that is not under [src]: the hash functions, HMAC, AES and GCM of the
    Go standard library are the operations of the class [Crypto] ([Crypto.v]),
    with their documented laws in [CryptoLaws] (output lengths, decryption
    inverts encryption, opening inverts sealing); [toy_crypto] is an instance
    that satisfies the laws and evaluates the witnesses.  The curves of
    [crypto/ecdh] are the class [Ecdh] ([Dh.v]) with the law that both sides
    agree.  The case tables of package [unicode] are the class [UnicodeCase]
    ([Utf8.v]), its case folding and the dates of [time.Parse] the class
    [TextTables] ([SipMessage.v]), the text forms of addresses the class [NetText] ([Mobike.v]),
    what [uint32] makes of a float beyond its range the class [FloatConversion]
    ([RtpStats.v]; the floats themselves are those of [SpecFloat]), what [strconv.ParseFloat]
    makes of a text the class [FloatText] ([SipTargets.v]), and
    the store of re-authentication states the class [EAPReauthenticationStore]
    with [StoreLaws] ([EapState.v]).  A [Source] is the random source and a transport, a peer, a SIM
    provider or a card ([LogicalChannelTransport]) a function of what is asked
    or sent and of a state of its own, that may fail, and about whose answers
    nothing is assumed unless stated.  The order in which Go ranges over a map
    is an argument where it can be observed ([SmsReassembly]; any order in the
    class [RangeOrder] of [SipMessage]), and the schedule
    of goroutines is a list of events ([Natt]); what a network does to a SIP client is an argument of each
    call ([attempt] of [SipFlow]: the results of dialling and writing, datagrams with their times).  The clock is an
    argument: an instant is a count of nanoseconds ([Liveness],
    [SmsReassembly]), or a calendar date with its offset where the code takes it
    apart ([SmsTime]).

    ** The files, in the order they depend on each other

    Shared:

    - [Prelude]: values, outcomes and their bind, bounds-checked slices, big-endian
      integers, the tactics ([go_if], [go_case], [safe_call], ...) and the lemmas on lists
      and integers that everything shares.
    - [GoStrings]: what the code uses of package [strings] on ASCII text, decimal numbers.
    - [Utf8]: UTF-8 and UTF-16 as Go decodes and encodes them, the case-folding functions of
      [strings].
    - [Hex]: hexadecimal text.
    - [Errors]: the sentinel errors, wrapping, [errors.Is] and [errors.As].
    - [Crypto]: the class of cryptographic operations, its laws and the toy instance;
      addresses of package [net].

    IKEv2 and the tunnel ([engine/swu]):

    - [Types] ([ikev2/types.go]): header, payloads, message; the next-payload chain. Round
      trip of messages, totality of [ParseMessage].
    - [Codec]: the interface of a payload codec, a class whose laws are the round trip, the
      soundness of the parser and (for [ExactCodec]) that only encodings are accepted; the
      payload files below are instances of it.
    - [Notify] ([ikev2/payloads.go]): Notify, Delete, KE and Nonce payloads and the
      classification of notify errors.
    - [Sa] ([ikev2/sa.go]): proposals, transforms and attributes; their codec; the
      comparison of transforms as multisets of attributes; which selected proposals
      [ValidateSelectedSA] accepts.
    - [Keys] ([ikev2/keys.go], [ikev2/crypto.go]): prf+, the key material profile of a
      selected proposal, the split into the seven keys.
    - [Sk] ([ikev2/sk.go]): the Encrypted payload: round trip, authenticity of what is
      accepted, and that negotiated keys are always usable.
    - [Dh] ([ikev2/dh.go]): MODP group 14 computed, the curves through their class; both
      sides agree on the secret.
    - [World]: the monad of the exchanges: a random source and a peer with a state, the log
      of what was sent, and the logic to reason about it.
    - [Session] ([ikev2/session_payloads.go], [ikev2/auth_payload.go]): identification,
      configuration and traffic selectors, narrowing (as containment of sets of packets),
      the shared-key AUTH value.
    - [Fragments] ([ikev2/fragments.go]): the Encrypted Fragment body.
    - [EapAka] ([eapaka/eapaka.go]): packets, attributes and their values, AUTS, checkcodes,
      and the recovery decision of a failed authentication.
    - [EapKeys], [EapMac], [EapCrypt], [EapReauth] ([eapaka/crypto.go]): the FIPS 186-2
      generator and the key hierarchies, AT_MAC, the encrypted attributes, fast re-
      authentication.
    - [EapChallenge] ([eapaka/eapaka.go], [eapaka/crypto.go]): challenges and the client
      that answers them, failures of the SIM included.
    - [ChildSa] ([ikev2/childsa.go], [ikev2/create_child.go],
      [ikev2/create_child_rekey.go]): the keys of a child SA, the whole CREATE_CHILD_SA
      exchange over any transport, the rekey plan.
    - [Init] ([ikev2/init.go]): IKE_SA_INIT with its cookie retry, NAT detection; agreement
      with a responder.
    - [Auth], [AuthSpec] ([ikev2/auth.go]): the EAP rounds of IKE_AUTH and their loop over a
      peer that answers as it likes; what a resulting child SA rests on, which exchanges
      were made, termination.
    - [Esp] ([esp/esp.go]): sealing and opening packets; sequence numbers and the 64-bit
      replay window, refined, for a window greater than 0, by the finite set of accepted
      numbers.
    - [Informational] ([ikev2/informational.go] and the two files next to it): the exchange,
      what a Delete asks for, and the recovery plan, specified as the first request of the
      highest priority.
    - [Liveness] ([ike_liveness.go]): keepalives and dead-peer detection as a transition
      system over calls of the methods; reachability, the invariant, no early verdict, and a
      verdict on every silent peer.
    - [EapState] ([eap_reauth.go], [ike_tunnel_manager.go]): what is kept between two
      authentications: its invariant, the counter that only grows over runs of IKE_AUTH, and
      the manager over any store, refined by a finite map.
    - [Mobike] ([mobike_state.go], [ike_control.go]): the observed addresses of the tunnel
      and the reports of their changes; the payloads of an update.
    - [Control] ([ike_tunnel_manager.go], [ike_control.go]): the control object of a tunnel:
      over any history of probes, updates, rekeys and the close, the message ids of its
      requests.
    - [Natt] ([natt_shared_transport.go], [udp_esp_transport.go]): the socket that IKE and
      ESP share, its reader goroutine and the callers as interleaved steps: nothing is
      mixed, reordered or duplicated.
    - [Rekey], [PacketSession] ([packet_session.go]): when a child SA is rekeyed; the
      session that seals, opens, counts, rekeys, updates and probes, as a machine of
      critical sections with its pending calls. Under every interleaving no number is used
      twice, the close is final, the counters are exact, and the tunnel between two sessions
      is the abstract replay window.
    - [PacketPump] ([packet_pump.go]): the goroutines between the device and the session:
      what is read is passed on, and the pump stops.

    Text messages ([runtimehost/messaging]):

    - [SmsTables], [Gsm7] ([sms_gsm7_nli.go], [sms_pdu.go]): the GSM alphabet with the
      national tables, septet packing; round trip of text.
    - [SmsUdh], [SmsText], [SmsTime], [SmsAddress], [SmsRp] ([sms_pdu.go], [messaging.go]):
      data coding schemes and user data headers (read as the elements that stand in them
      say), user data, time stamps and validity periods, addresses, RPDUs.
    - [SmsTpdu] ([sms_pdu.go]): SMS-DELIVER and SMS-STATUS-REPORT.
    - [SmsSubmit], [SmsSubmitSpec] ([messaging.go], [sms_pdu.go]): segmentation of long
      texts and SMS-SUBMIT, refined by a reader of the standard.
    - [SmsReassembly] ([ims_inbound_sms.go]): the store of incomplete segmented messages,
      with its expiry and eviction.

    The SIM card ([runtimehost/simauth]):

    - [Tlv] ([tlv.go]): BER-TLV, the search of nested objects, file sizes of an FCP.
    - [Apdu] ([apdu.go]): commands and responses of the card, the two-step answers, reading
      of files.
    - [SimAka] ([aka.go]): authentication on a logical channel, its answer and its retries.
    - [SimIdentity] ([identity.go]): IMSI and ISIM files, permanent identities of EAP-AKA.

    SIP ([runtimehost/voiceclient]):

    - [SipTransaction] ([sip_transaction.go]): the client and server transactions with their
      timers, refined by the state machines of RFC 3261 with two additions (the number of
      retransmissions, the ACK handed to the user); client and server over a network that
      loses, repeats and reorders.
    - [SipMessage] ([wire_transport.go]): requests and responses: writing, parsing, reading
      from a stream, the matching of a response with its request, Retry-After.
    - [SipText], [SipFields], [SipWire]: what is written is read back: lines, names and
      numbers; the header sections, for every order of the maps; whole exchanges and
      streams, and that no input makes the readers panic but for a declared length beyond
      the address space.
    - [SipTargets] ([sip_resolver.go], [wire_transport.go]): the end point a URI names, the
      servers it resolves to, the targets of a redirect in the order of their q.
    - [SipFlow] ([wire_flow.go], [wire_transport.go]): the flow of a client: its connection
      and targets, the loops that wait for a response, retries and redirects, the plans for
      recovery from failures.
    - [SipAnswer], [SipFailover]: on a connection of its own, with a context that is never
      done and writes that succeed, the answer taken is the same for all timers, and what is
      sent while waiting is bounded; every call keeps the list of targets and its index in
      order; round trips end, panic only for three named reasons, and without redirects try
      every target once before they give up.

    Voice ([runtimehost/voicehost]):

    - [RtpDtmf] ([rtp_dtmf.go], [dtmf.go]): RTP packets and telephone events: the packets of
      an event, their reading, and their rewriting to the payload types of the other side.
    - [RtpStats] ([rtp_stream_stats.go], [rtcp_reports.go]): what a receiver counts of each
      source since its first packet, refined by the set of the numbers that came; extended
      sequence numbers over any number of wrap-arounds; jitter, delays, diagnosis.

    [Types] and the payload codecs meet in [Codec]; [Sk] protects the chains of
    [Types] with the keys of [Keys], which come from the proposals of [Sa];
    [ChildSa], [Informational], [Init] and [Auth] run their exchanges through
    them; [Auth] takes its answers from [EapChallenge] and [EapReauth]; [Esp] takes
    the keys that [ChildSa] derives.  The [Sms] files build up to the parts that
    [SmsSubmit] makes and [SmsReassembly] joins; [Tlv] reads what the card of
    [Apdu] answers, for [SimAka] and [SimIdentity].  [SipTransaction] decides when the
    messages of [SipMessage] are sent, and [SipWire] that they arrive as they were sent;
    [SipFlow] runs both for a request, at the servers that [SipTargets] finds.

    ** What is left out

    Error texts and [String] methods; the mutexes (a call is one step); the
    monotonic clock; aliasing of slices, since every function modelled here
    copies what it stores ([append] to nil, [clone] functions, which are
    proved to be the identity on values).  [segmentSMS] computes a quotient of
    small integers in float64 and rounds it up: the model divides integers.
    Not modelled: sockets, kernel interfaces and goroutines (the tunnel managers, the
    [messaging] Service, the SIM transports), and the HTTP, MIME and SDP text of
    [runtimehost]; of SIP the registration, dialogs and authentication. *)
From stdpp Require Export base tactics list numbers strings sets.
From Stdlib Require Export ZArith Lia.
#[global] Open Scope Z_scope.

(** ** Go values

    A Go [[]byte] is a list of integers; the type invariant of its elements
    is [bytes_ok].  Go's [len] is an [int]. *)
Abbreviation byte := Z (only parsing).
Abbreviation bytes := (list Z) (only parsing).

Definition len {A} (l : list A) : Z := Z.of_nat (length l).

Definition in_range (hi v : Z) : Prop := 0 <= v < hi.
Abbreviation is_u8 := (in_range 256).
Abbreviation is_u16 := (in_range 65536).
Abbreviation is_u32 := (in_range 4294967296).
Abbreviation is_u64 := (in_range 18446744073709551616).
Definition bytes_ok (l : bytes) : Prop := Forall is_u8 l.

#[export] Instance in_range_dec hi v : Decision (in_range hi v).
Proof. unfold in_range. apply _. Defined.
#[export] Instance bytes_ok_dec l : Decision (bytes_ok l).
Proof. unfold bytes_ok. apply _. Defined.

(** Conversions [uint8(x)], [uint16(x)], [uint32(x)], [uint64(x)]. *)
Definition to_u8 (x : Z) : Z := x mod 256.
Definition to_u16 (x : Z) : Z := x mod 65536.
Definition to_u32 (x : Z) : Z := x mod 4294967296.
Definition to_u64 (x : Z) : Z := x mod 18446744073709551616.
(** [int64(x)], and [int(x)] where an [int] has 64 bits. *)
Definition to_i64 (x : Z) : Z := (x + 2 ^ 63) mod 2 ^ 64 - 2 ^ 63.

(** ** Outcomes of a Go call

    [Ok] and [Err] are the two returns of a [(T, error)] function; [Panic] is
    a run-time panic (an index or a slice bound out of range); [OutOfFuel]
    stands for a loop that has not ended within the fuel of its model, and is
    shown unreachable. *)
Inductive outcome (E A : Type) :=
| Ok (a : A)
| Err (e : E)
| Panic
| OutOfFuel.
Arguments Ok {E A} a.
Arguments Err {E A} e.
Arguments Panic {E A}.
Arguments OutOfFuel {E A}.

Definition bind {E A B} (m : outcome E A) (k : A -> outcome E B) : outcome E B :=
  match m with
  | Ok a => k a
  | Err e => Err e
  | Panic => Panic
  | OutOfFuel => OutOfFuel
  end.

(** [m.mapErr f] rewrites the error of a call: [fmt.Errorf("%w: %w", X, err)]. *)
Definition map_err {E A} (f : E -> E) (m : outcome E A) : outcome E A :=
  match m with Err e => Err (f e) | _ => m end.

Declare Scope go_scope.
Delimit Scope go_scope with go.
Notation "'let!' x ':=' m 'in' k" := (bind m (fun x => k))
  (at level 10, x binder, m at level 200, k at level 200) : go_scope.
#[global] Open Scope go_scope.

(** ** Slices

    [s[i]], [s[i:j]].  Bounds are checked against [len(s)], which is stricter
    than Go (a slice may be re-sliced up to its capacity): a model that does
    not panic neither panics nor reads past the length in Go. *)
Definition at_ {E} (l : bytes) (i : Z) : outcome E Z :=
  if i <? 0 then Panic else
  match l !! Z.to_nat i with Some b => Ok b | None => Panic end.

Definition sub (l : bytes) (i j : Z) : bytes :=
  take (Z.to_nat (j - i)) (drop (Z.to_nat i) l).

Definition slice {E} (l : bytes) (i j : Z) : outcome E bytes :=
  if (0 <=? i) && (i <=? j) && (j <=? len l) then Ok (sub l i j) else Panic.

(** [s[i:]] *)
Definition slice_from {E} (l : bytes) (i : Z) : outcome E bytes := slice l i (len l).

(** ** encoding/binary.BigEndian *)
Fixpoint be_bytes (n : nat) (v : Z) : bytes :=
  match n with
  | O => []
  | S n' => (v / 256 ^ Z.of_nat n') mod 256 :: be_bytes n' v
  end.

Definition be_decode (l : bytes) : Z := fold_left (fun a b => a * 256 + b) l 0.

Definition BE_Uint {E} (n : Z) (l : bytes) : outcome E Z :=
  let! s := slice l 0 n in Ok (be_decode s).
Definition Uint16 {E} (l : bytes) : outcome E Z := BE_Uint 2 l.
Definition Uint32 {E} (l : bytes) : outcome E Z := BE_Uint 4 l.
Definition Uint64 {E} (l : bytes) : outcome E Z := BE_Uint 8 l.

(** [binary.BigEndian.UintN(s[i:j])]: a field of a message. *)
Definition u16_at {E} (l : bytes) (i j : Z) : outcome E Z :=
  let! s := slice l i j in Uint16 s.
Definition u32_at {E} (l : bytes) (i j : Z) : outcome E Z :=
  let! s := slice l i j in Uint32 s.
Definition u64_at {E} (l : bytes) (i j : Z) : outcome E Z :=
  let! s := slice l i j in Uint64 s.

Definition bytesEqual (a b : bytes) : bool := bool_decide (a = b).

(** [bytes.Compare(a, b) <= 0] is [bytes_le a b]. *)
Fixpoint bytes_compare (a b : bytes) : comparison :=
  match a, b with
  | [], [] => Eq
  | [], _ :: _ => Lt
  | _ :: _, [] => Gt
  | x :: a', y :: b' =>
      match x ?= y with Eq => bytes_compare a' b' | c => c end
  end.
Definition bytes_le (a b : bytes) : bool :=
  match bytes_compare a b with Gt => false | _ => true end.

(** ** Lengths *)
Lemma len_nil {A} : len (@nil A) = 0.
Proof. reflexivity. Qed.
Lemma len_cons {A} (x : A) l : len (x :: l) = 1 + len l.
Proof. unfold len. simpl length. lia. Qed.
Lemma len_app {A} (l k : list A) : len (l ++ k) = len l + len k.
Proof. unfold len. rewrite length_app. lia. Qed.
Lemma len_nonneg {A} (l : list A) : 0 <= len l.
Proof. unfold len. lia. Qed.
Lemma len_zero {A} (l : list A) : len l = 0 -> l = [].
Proof. destruct l; [done|]. rewrite len_cons. pose proof (len_nonneg l). lia. Qed.
Lemma length_be_bytes n v : length (be_bytes n v) = n.
Proof. induction n; simpl; congruence. Qed.
Lemma len_be_bytes n v : len (be_bytes n v) = Z.of_nat n.
Proof. unfold len. by rewrite length_be_bytes. Qed.
Lemma len_be_bytes_2 v : len (be_bytes 2 v) = 2.
Proof. reflexivity. Qed.
Lemma len_be_bytes_4 v : len (be_bytes 4 v) = 4.
Proof. reflexivity. Qed.
Lemma len_be_bytes_8 v : len (be_bytes 8 v) = 8.
Proof. reflexivity. Qed.
Lemma len_replicate {A} n (x : A) : len (replicate n x) = Z.of_nat n.
Proof. unfold len. by rewrite length_replicate. Qed.
Lemma len_fmap {A B} (f : A -> B) l : len (f <$> l) = len l.
Proof. unfold len. by rewrite length_fmap. Qed.

Create Rewrite HintDb golen.
#[export] Hint Rewrite @len_nil @len_cons @len_app @len_be_bytes_2 @len_be_bytes_4 @len_be_bytes_8 @len_replicate @len_fmap : golen.

(** [len_lia] decides linear facts about lengths. *)
Ltac len_facts :=
  repeat match goal with
  | |- context [len ?l] =>
      lazymatch goal with H : 0 <= len l |- _ => fail | _ => pose proof (len_nonneg l) end
  | _ : context [len ?l] |- _ =>
      lazymatch goal with H : 0 <= len l |- _ => fail | _ => pose proof (len_nonneg l) end
  end.
Ltac len_simpl := autorewrite with golen in *.
(** Constants of the program unfold in arithmetic. *)
Create HintDb goconst.
Ltac len_lia := try autounfold with goconst in *; unfold in_range in *; len_simpl; len_facts; lia.

(** ** Weakest preconditions of outcomes

    [safe r Q]: the call [r] returns, and when it returns [Ok a] then [Q a].
    [safe r (fun _ => True)] says that the code neither panics nor loops. *)
Definition safe {E A} (r : outcome E A) (Q : A -> Prop) : Prop :=
  match r with
  | Ok a => Q a
  | Err _ => True
  | Panic | OutOfFuel => False
  end.
Definition returns {E A} (r : outcome E A) : Prop := safe r (fun _ => True).

Definition returns_b {E A} (r : outcome E A) : bool :=
  match r with Ok _ | Err _ => true | _ => false end.
#[export] Instance returns_dec {E A} (r : outcome E A) : Decision (returns r).
Proof. destruct r; simpl; apply _. Defined.

Section safe.
Context {E : Type}.

Lemma safe_bind {A B} (m : outcome E A) (k : A -> outcome E B) Q :
  safe m (fun a => safe (k a) Q) -> safe (bind m k) Q.
Proof. by destruct m. Qed.

Lemma safe_mono {A} (m : outcome E A) (P Q : A -> Prop) :
  safe m P -> (forall a, P a -> Q a) -> safe m Q.
Proof. destruct m; simpl; auto. Qed.

(** Running a loop or a callee whose contract is known. *)
Lemma safe_call {A B} (m : outcome E A) (k : A -> outcome E B) P Q :
  safe m P -> (forall a, P a -> safe (k a) Q) -> safe (bind m k) Q.
Proof. destruct m; simpl; auto. Qed.

Lemma safe_map_err {A} f (m : outcome E A) Q : safe m Q -> safe (map_err f m) Q.
Proof. by destruct m. Qed.

Lemma safe_ok {A} (m : outcome E A) a Q : safe m Q -> m = Ok a -> Q a.
Proof. intros H ->. exact H. Qed.

Lemma safe_returns {A} (m : outcome E A) Q : safe m Q -> returns m.
Proof. unfold returns. by destruct m. Qed.

Lemma bind_ok {A B} (m : outcome E A) (k : A -> outcome E B) b :
  bind m k = Ok b -> exists a, m = Ok a /\ k a = Ok b.
Proof. destruct m; simpl; try discriminate. eauto. Qed.
End safe.

(** ** Bytes *)
Lemma bytes_ok_app l k : bytes_ok (l ++ k) <-> bytes_ok l /\ bytes_ok k.
Proof. apply Forall_app. Qed.
Lemma bytes_ok_cons b l : bytes_ok (b :: l) <-> is_u8 b /\ bytes_ok l.
Proof. apply Forall_cons. Qed.
Lemma bytes_ok_take n l : bytes_ok l -> bytes_ok (take n l).
Proof. apply Forall_take. Qed.
Lemma bytes_ok_drop n l : bytes_ok l -> bytes_ok (drop n l).
Proof. apply Forall_drop. Qed.
Lemma bytes_ok_nil : bytes_ok [].
Proof. constructor. Qed.
Lemma to_u8_range x : is_u8 (to_u8 x).
Proof. apply Z.mod_pos_bound. lia. Qed.
Lemma to_u16_range x : is_u16 (to_u16 x).
Proof. apply Z.mod_pos_bound. lia. Qed.
Lemma to_u32_range x : is_u32 (to_u32 x).
Proof. apply Z.mod_pos_bound. lia. Qed.
Lemma bytes_ok_be_bytes n v : bytes_ok (be_bytes n v).
Proof.
  induction n; simpl; constructor; [|done]. apply Z.mod_pos_bound. lia.
Qed.
Lemma bytes_ok_app_2 l k : bytes_ok l -> bytes_ok k -> bytes_ok (l ++ k).
Proof. intros. by apply bytes_ok_app. Qed.
Lemma bytes_ok_cons_2 b l : is_u8 b -> bytes_ok l -> bytes_ok (b :: l).
Proof. intros. by apply bytes_ok_cons. Qed.
Lemma bytes_ok_replicate n b : is_u8 b -> bytes_ok (replicate n b).
Proof. intros. by apply Forall_replicate. Qed.
Lemma bytes_ok_lookup l i b : bytes_ok l -> l !! i = Some b -> is_u8 b.
Proof. intros H. by apply Forall_lookup_1. Qed.

Create HintDb gobytes.
#[export] Hint Resolve bytes_ok_nil bytes_ok_app_2 bytes_ok_cons_2 bytes_ok_take
  bytes_ok_drop bytes_ok_be_bytes to_u8_range to_u16_range bytes_ok_replicate : gobytes.

(** ** Slice equations *)
Section slices.
Context {E : Type}.

Lemma slice_Ok (l : bytes) i j :
  0 <= i <= j -> j <= len l -> slice (E := E) l i j = Ok (sub l i j).
Proof.
  intros. unfold slice.
  by replace ((0 <=? i) && (i <=? j) && (j <=? len l)) with true by lia.
Qed.

Lemma sub_len l i j : 0 <= i <= j -> j <= len l -> len (sub l i j) = j - i.
Proof. unfold sub, len. intros. rewrite length_take, length_drop. lia. Qed.

Lemma bytes_ok_sub l i j : bytes_ok l -> bytes_ok (sub l i j).
Proof. intros. by apply bytes_ok_take, bytes_ok_drop. Qed.

(** The slice that a framed message [p ++ m ++ q] was built from. *)
Lemma slice_eq (l p m q : bytes) i j :
  l = p ++ m ++ q -> i = len p -> j = i + len m -> slice (E := E) l i j = Ok m.
Proof.
  intros -> -> ->. rewrite slice_Ok by len_lia. f_equal. unfold sub, len.
  rewrite Nat2Z.id, drop_app_length.
  replace (Z.to_nat _) with (length m) by lia. apply take_app_length.
Qed.

Lemma slice_from_eq (l p q : bytes) i :
  l = p ++ q -> i = len p -> slice_from (E := E) l i = Ok q.
Proof.
  intros -> ->. unfold slice_from.
  apply (slice_eq _ p q []); [by rewrite app_nil_r | done | len_lia].
Qed.

Lemma slice_app3 l i j :
  0 <= i <= j -> j <= len l ->
  exists p q, l = p ++ sub l i j ++ q /\ len p = i /\ len q = len l - j.
Proof.
  intros Hi Hj. exists (take (Z.to_nat i) l), (drop (Z.to_nat j) l). split_and!.
  - unfold sub. rewrite <- (take_drop (Z.to_nat i) l) at 1. f_equal.
    rewrite <- (take_drop (Z.to_nat (j - i)) (drop (Z.to_nat i) l)) at 1. f_equal.
    rewrite drop_drop. f_equal. lia.
  - unfold len in *. rewrite length_take. lia.
  - unfold len in *. rewrite length_drop. lia.
Qed.

Lemma sub_split (l : bytes) i j k :
  0 <= i <= j -> j <= k <= len l -> sub l i j ++ sub l j k = sub l i k.
Proof.
  intros Hij Hjk. unfold sub.
  replace (Z.to_nat (k - i)) with (Z.to_nat (j - i) + Z.to_nat (k - j))%nat by lia.
  rewrite <- take_take_drop, drop_drop. do 2 f_equal. f_equal. lia.
Qed.
Lemma sub_to_end (l : bytes) i : 0 <= i <= len l -> sub l i (len l) = drop (Z.to_nat i) l.
Proof. intros. unfold sub. apply firstn_all2. rewrite length_drop. unfold len. lia. Qed.

Lemma at_Ok l i b : l !! Z.to_nat i = Some b -> 0 <= i -> at_ (E := E) l i = Ok b.
Proof. intros H ?. unfold at_. replace (i <? 0) with false by lia. by rewrite H. Qed.

Lemma at_app_r (p q : bytes) b i :
  i = len p -> at_ (E := E) (p ++ b :: q) i = Ok b.
Proof.
  intros ->. apply at_Ok; [|len_lia]. unfold len. rewrite Nat2Z.id.
  by apply list_lookup_middle.
Qed.

Lemma safe_slice l i j Q :
  0 <= i <= j -> j <= len l ->
  (bytes_ok l -> bytes_ok (sub l i j)) ->
  (len (sub l i j) = j - i -> Q (sub l i j)) ->
  safe (slice (E := E) l i j) Q.
Proof.
  intros Hi Hj _ HQ. rewrite slice_Ok by done. apply HQ. by apply sub_len.
Qed.

Lemma safe_at l i Q :
  bytes_ok l -> 0 <= i < len l -> (forall b, is_u8 b -> l !! Z.to_nat i = Some b -> Q b) ->
  safe (at_ (E := E) l i) Q.
Proof.
  intros Hl Hi HQ. unfold at_. replace (i <? 0) with false by lia.
  unfold len in Hi.
  destruct (lookup_lt_is_Some_2 l (Z.to_nat i)) as [b Hb]; [lia|].
  rewrite Hb. apply HQ; [|done]. by eapply bytes_ok_lookup.
Qed.
End slices.

(** ** Big-endian integers *)
Lemma be_decode_app l k : be_decode (l ++ k) = be_decode l * 256 ^ len k + be_decode k.
Proof.
  unfold be_decode. rewrite fold_left_app. generalize (fold_left (fun a b => a * 256 + b) l 0).
  induction k as [|b k IH] using rev_ind; intros a; [simpl; rewrite len_nil; lia|].
  rewrite !fold_left_app. simpl. rewrite IH, len_app.
  replace (len [b]) with 1 by done. rewrite Z.pow_add_r by len_lia. lia.
Qed.

Lemma be_decode_cons b l : be_decode (b :: l) = b * 256 ^ len l + be_decode l.
Proof. apply (be_decode_app [b] l). Qed.

Lemma be_decode_range l : bytes_ok l -> 0 <= be_decode l < 256 ^ len l.
Proof.
  induction l as [|b l IH]; intros H; [done|].
  apply bytes_ok_cons in H as [Hb Hl]. specialize (IH Hl).
  rewrite be_decode_cons, len_cons, Z.pow_add_r by len_lia.
  unfold in_range in Hb. nia.
Qed.

Lemma be_decode_snoc l x : be_decode (l ++ [x]) = be_decode l * 256 + x.
Proof. unfold be_decode. by rewrite fold_left_app. Qed.

(** [PutUintN] then [UintN]: the value modulo the width. *)
Lemma be_decode_be_bytes n v : 0 <= v < 256 ^ Z.of_nat n -> be_decode (be_bytes n v) = v.
Proof.
  intros Hv. enough (H : forall v, be_decode (be_bytes n v) = v mod 256 ^ Z.of_nat n)
    by (rewrite H; by apply Z.mod_small).
  clear v Hv. induction n as [|n IH]; intros v; [by rewrite Z.mod_1_r|].
  simpl be_bytes. rewrite be_decode_cons, len_be_bytes, IH.
  rewrite Nat2Z.inj_succ, Z.pow_succ_r by lia.
  rewrite (Z.mul_comm 256), Z.rem_mul_r by lia. lia.
Qed.

Lemma be_bytes_mod n v : be_bytes n (v mod 256 ^ Z.of_nat n) = be_bytes n v.
Proof.
  enough (H : forall k, (n <= k)%nat -> be_bytes n (v mod 256 ^ Z.of_nat k) = be_bytes n v) by auto.
  induction n as [|n IH]; intros k Hk; [done|]. simpl. f_equal; [|apply IH; lia].
  replace (256 ^ Z.of_nat k) with (256 ^ Z.of_nat n * (256 * 256 ^ (Z.of_nat (k - S n)))).
  2: { rewrite <- Z.pow_succ_r, <- Z.pow_add_r by lia. f_equal. lia. }
  rewrite Z.rem_mul_r by lia.
  rewrite (Z.mul_comm (256 ^ Z.of_nat n)), Z.div_add by lia.
  rewrite (Z.div_small (_ mod _)) by (apply Z.mod_pos_bound; lia).
  rewrite Z.add_0_l, Z.rem_mul_r by lia. rewrite Z.mul_comm, Z.mod_add by lia.
  apply Z.mod_mod. lia.
Qed.

Lemma be_bytes_be_decode l : bytes_ok l -> be_bytes (length l) (be_decode l) = l.
Proof.
  induction l as [|b l IH]; intros H; [done|].
  apply bytes_ok_cons in H as [Hb Hl]. simpl length. simpl be_bytes.
  pose proof (be_decode_range l Hl) as Hr. rewrite be_decode_cons.
  unfold len in *. f_equal.
  - rewrite Z.add_comm, Z.div_add by lia. rewrite (Z.div_small (be_decode l)) by lia.
    apply Z.mod_small. unfold in_range in Hb. lia.
  - rewrite <- be_bytes_mod, Z.add_comm, Z.mod_add by lia.
    rewrite Z.mod_small by lia. by apply IH.
Qed.

(** ** Reading fields *)
Section fields.
Context {E : Type}.

Lemma safe_slice_ok (l : bytes) i j Q :
  bytes_ok l -> 0 <= i <= j -> j <= len l ->
  (forall s, s = sub l i j -> len s = j - i -> bytes_ok s -> Q s) ->
  safe (slice (E := E) l i j) Q.
Proof.
  intros Hl Hi Hj HQ. rewrite slice_Ok by done. cbn.
  apply HQ; [done | by apply sub_len | by apply bytes_ok_sub].
Qed.

Lemma safe_slice_from (l : bytes) i Q :
  bytes_ok l -> 0 <= i <= len l ->
  (forall s, s = sub l i (len l) -> len s = len l - i -> bytes_ok s -> Q s) ->
  safe (slice_from (E := E) l i) Q.
Proof. intros. unfold slice_from. apply safe_slice_ok; auto; lia. Qed.

Lemma safe_BE_Uint n (l : bytes) Q :
  bytes_ok l -> 0 <= n <= len l -> (forall v, in_range (256 ^ n) v -> Q v) ->
  safe (BE_Uint (E := E) n l) Q.
Proof.
  intros Hl Hn HQ. apply safe_bind, safe_slice_ok; [done | lia | lia |].
  intros s _ Hs Hok. apply HQ. pose proof (be_decode_range s Hok) as Hr.
  rewrite Hs, Z.sub_0_r in Hr. exact Hr.
Qed.

Lemma safe_Uint16 (l : bytes) Q :
  bytes_ok l -> 2 <= len l -> (forall v, is_u16 v -> Q v) -> safe (Uint16 (E := E) l) Q.
Proof. intros. apply safe_BE_Uint; auto. lia. Qed.

Lemma safe_u16_at (l : bytes) i j Q :
  bytes_ok l -> 0 <= i -> j = i + 2 -> j <= len l ->
  (forall v, is_u16 v -> Q v) -> safe (u16_at (E := E) l i j) Q.
Proof.
  intros. apply safe_bind, safe_slice_ok; [done | lia | lia |].
  intros. apply safe_BE_Uint; auto; lia.
Qed.
Lemma safe_u32_at (l : bytes) i j Q :
  bytes_ok l -> 0 <= i -> j = i + 4 -> j <= len l ->
  (forall v, is_u32 v -> Q v) -> safe (u32_at (E := E) l i j) Q.
Proof.
  intros. apply safe_bind, safe_slice_ok; [done | lia | lia |].
  intros. apply safe_BE_Uint; auto; lia.
Qed.
Lemma safe_u64_at (l : bytes) i j Q :
  bytes_ok l -> 0 <= i -> j = i + 8 -> j <= len l ->
  (forall v, is_u64 v -> Q v) -> safe (u64_at (E := E) l i j) Q.
Proof.
  intros. apply safe_bind, safe_slice_ok; [done | lia | lia |].
  intros. apply safe_BE_Uint; auto; lia.
Qed.

(** The field of a framed message, [PutUintN] read back. *)
Lemma BE_Uint_be_bytes n v (q : bytes) :
  0 <= v < 256 ^ Z.of_nat n -> BE_Uint (E := E) (Z.of_nat n) (be_bytes n v ++ q) = Ok v.
Proof.
  intros. unfold BE_Uint. rewrite (slice_eq _ [] (be_bytes n v) q)
    by (rewrite ?len_be_bytes; lia || done).
  cbn [bind]. by rewrite be_decode_be_bytes.
Qed.

Lemma u16_at_eq (l p q : bytes) v i j :
  l = p ++ be_bytes 2 v ++ q -> i = len p -> j = i + 2 -> is_u16 v ->
  u16_at (E := E) l i j = Ok v.
Proof.
  intros -> -> -> Hv. unfold u16_at. rewrite (slice_eq _ p (be_bytes 2 v) q) by done.
  cbn [bind]. rewrite <- (app_nil_r (be_bytes 2 v)). by apply (BE_Uint_be_bytes 2).
Qed.
Lemma u32_at_eq (l p q : bytes) v i j :
  l = p ++ be_bytes 4 v ++ q -> i = len p -> j = i + 4 -> is_u32 v ->
  u32_at (E := E) l i j = Ok v.
Proof.
  intros -> -> -> Hv. unfold u32_at. rewrite (slice_eq _ p (be_bytes 4 v) q) by done.
  cbn [bind]. rewrite <- (app_nil_r (be_bytes 4 v)). by apply (BE_Uint_be_bytes 4).
Qed.
Lemma u64_at_eq (l p q : bytes) v i j :
  l = p ++ be_bytes 8 v ++ q -> i = len p -> j = i + 8 -> is_u64 v ->
  u64_at (E := E) l i j = Ok v.
Proof.
  intros -> -> -> Hv. unfold u64_at. rewrite (slice_eq _ p (be_bytes 8 v) q) by done.
  cbn [bind]. rewrite <- (app_nil_r (be_bytes 8 v)). by apply (BE_Uint_be_bytes 8).
Qed.
End fields.

(** [go_safe] walks through a body: every index, slice and field access
    leaves its bound to [len_lia], every branch is visited. *)
Ltac go_bytes := solve [eauto 6 with gobytes].
Ltac go_step :=
  lazymatch goal with
  | |- safe (bind _ _) _ => apply safe_bind
  | |- safe (map_err _ _) _ => apply safe_map_err
  | |- safe (Err _) _ => exact I
  | |- safe (Ok _) _ => cbn [safe]
  | |- safe (if ?b then _ else _) _ => destruct b eqn:?
  | |- safe (at_ _ _) _ => apply safe_at; [go_bytes | len_lia | intros ? ? ?; cbv beta]
  | |- safe (slice _ _ _) _ =>
      apply safe_slice_ok; [go_bytes | len_lia | len_lia | intros ? ? ? ?; cbv beta]
  | |- safe (slice_from _ _) _ =>
      apply safe_slice_from; [go_bytes | len_lia | intros ? ? ? ?; cbv beta]
  | |- safe (Uint16 _) _ => apply safe_Uint16; [go_bytes | len_lia | intros ? ?; cbv beta]
  | |- safe (u16_at _ _ _) _ =>
      apply safe_u16_at; [go_bytes | len_lia | len_lia | len_lia | intros ? ?; cbv beta]
  | |- safe (u32_at _ _ _) _ =>
      apply safe_u32_at; [go_bytes | len_lia | len_lia | len_lia | intros ? ?; cbv beta]
  | |- safe (u64_at _ _ _) _ =>
      apply safe_u64_at; [go_bytes | len_lia | len_lia | len_lia | intros ? ?; cbv beta]
  | |- safe (match ?x with _ => _ end) _ => destruct x eqn:?
  end.
Ltac go_safe := repeat (go_step; cbv beta zeta).

(** [go_if] decides the conditions a hypothesis or arithmetic settles. *)
Ltac go_if :=
  match goal with
  | |- context [if ?b then _ else _] =>
      first [ replace b with true by (symmetry; len_lia)
            | replace b with false by (symmetry; len_lia) ]
  end; cbv iota.

(** [go_case H] splits on the first condition of the goal. *)
Ltac go_case H := match goal with |- context [if ?b then _ else _] => destruct b eqn:H end.
Ltac go_case_in H := match type of H with context [if ?b then _ else _] => destruct b eqn:? end.

#[global] Opaque be_bytes.
#[global] Arguments be_decode : simpl never.
#[global] Arguments len : simpl never.

(** Decide a closed proposition by evaluation. *)
Ltac by_decide :=
  lazymatch goal with |- ?P => refine (bool_decide_unpack P _); vm_compute; exact I end.

(** ** The errors a body can return *)
Definition errs {E A} (P : E -> Prop) (r : outcome E A) : Prop :=
  match r with Err e => P e | _ => True end.

Section errs.
Context {E : Type} (P : E -> Prop).
Lemma errs_bind {A B} (m : outcome E A) (k : A -> outcome E B) :
  errs P m -> (forall a, m = Ok a -> errs P (k a)) -> errs P (bind m k).
Proof. destruct m; simpl; auto. Qed.
Lemma errs_slice l i j : errs P (slice l i j).
Proof. unfold slice. by case_match. Qed.
Lemma errs_slice_from l i : errs P (slice_from l i).
Proof. apply errs_slice. Qed.
Lemma errs_at l i : errs P (at_ l i).
Proof. unfold at_. by repeat case_match. Qed.
Lemma errs_BE_Uint n l : errs P (BE_Uint n l).
Proof. apply errs_bind; [apply errs_slice|done]. Qed.
Lemma errs_u16_at l i j : errs P (u16_at l i j).
Proof. apply errs_bind; [apply errs_slice|]. intros. apply errs_BE_Uint. Qed.
Lemma errs_u32_at l i j : errs P (u32_at l i j).
Proof. apply errs_bind; [apply errs_slice|]. intros. apply errs_BE_Uint. Qed.
Lemma errs_u64_at l i j : errs P (u64_at l i j).
Proof. apply errs_bind; [apply errs_slice|]. intros. apply errs_BE_Uint. Qed.
End errs.
Create HintDb goerrs.
#[export] Hint Resolve errs_slice errs_slice_from errs_at errs_BE_Uint errs_u16_at errs_u32_at
  errs_u64_at : goerrs.
Ltac go_errs :=
  repeat (lazymatch goal with
  | |- errs _ (bind _ _) => apply errs_bind; [auto with goerrs|intros ? _; cbv beta zeta]
  | |- errs _ (if ?b then _ else _) => destruct b
  | |- errs _ (Ok _) => exact I
  | |- errs _ (Err _) => cbn [errs]; auto
  | |- errs _ (match ?x with _ => _ end) => destruct x
  end).

(** ** Single bits: flags and masks *)
Lemma land_pow2 x k : 0 <= k -> Z.land x (2 ^ k) = if Z.testbit x k then 2 ^ k else 0.
Proof.
  intros Hk. apply Z.bits_inj'. intros n Hn. rewrite Z.land_spec, Z.pow2_bits_eqb by lia.
  destruct (Z.eqb_spec k n) as [->|Hne].
  - rewrite andb_true_r. destruct (Z.testbit x n) eqn:Hb;
      [by rewrite Z.pow2_bits_true by lia|by rewrite Z.bits_0].
  - rewrite andb_false_r. destruct (Z.testbit x k); [|by rewrite Z.bits_0].
    rewrite Z.pow2_bits_eqb by lia. symmetry. by apply Z.eqb_neq.
Qed.
Lemma testbit_small x k n : 0 <= x < 2 ^ k -> 0 <= k <= n -> Z.testbit x n = false.
Proof.
  intros Hx Hk. rewrite <- (Z.mod_small x (2 ^ k)) by done. apply Z.mod_pow2_bits_high. lia.
Qed.
Lemma lor_pow2 x k : 0 <= k -> 0 <= x < 2 ^ k -> Z.lor x (2 ^ k) = x + 2 ^ k.
Proof.
  intros Hk Hx. pose proof (Z.add_lor_land x (2 ^ k)) as H.
  rewrite land_pow2, (testbit_small x k k) in H by lia. lia.
Qed.
Lemma land_pow2_eqb x k : 0 <= k -> (Z.land x (2 ^ k) =? 0) = negb (Z.testbit x k).
Proof.
  intros Hk. rewrite land_pow2 by done. destruct (Z.testbit x k); [|done].
  apply Z.eqb_neq. pose proof (Z.pow_pos_nonneg 2 k). lia.
Qed.
Lemma testbit_clear x k :
  0 <= k -> 0 <= x < 2 ^ (k + 1) -> Z.testbit x k = false -> 0 <= x < 2 ^ k.
Proof.
  intros Hk Hx Hb. enough (x mod 2 ^ k = x) as <- by (apply Z.mod_pos_bound; lia).
  apply Z.bits_inj'. intros n Hn. destruct (decide (n < k)).
  - by rewrite Z.mod_pow2_bits_low by lia.
  - rewrite Z.mod_pow2_bits_high by lia. destruct (decide (n = k)) as [->|]; [done|].
    symmetry. apply (testbit_small _ (k + 1)); lia.
Qed.
Lemma Forall_snoc_2 {A} (P : A -> Prop) l x : Forall P l -> P x -> Forall P (l ++ [x]).
Proof. intros. apply Forall_app_2; [done|]. by apply Forall_singleton. Qed.

(** A field that was read is the octets it was read from. *)
Lemma u16_at_sub {E} (l : bytes) i j :
  bytes_ok l -> 0 <= i -> j = i + 2 -> j <= len l ->
  exists v, u16_at (E := E) l i j = Ok v /\ is_u16 v /\ be_bytes 2 v = sub l i j.
Proof.
  intros Hl Hi -> Hj. exists (be_decode (sub l i (i + 2))).
  assert (Hs : len (sub l i (i + 2)) = 2) by (rewrite sub_len by lia; lia).
  assert (Hok : bytes_ok (sub l i (i + 2))) by by apply bytes_ok_sub.
  unfold u16_at, Uint16, BE_Uint. rewrite slice_Ok by lia. cbn [bind].
  set (s := sub l i (i + 2)) in *. rewrite slice_Ok by lia. cbn [bind].
  replace (sub s 0 2) with s.
  2: { unfold sub. rewrite drop_0. symmetry. apply firstn_all2. unfold len in Hs. lia. }
  split; [done|]. split; [pose proof (be_decode_range s Hok) as Hr; by rewrite Hs in Hr|].
  rewrite <- (be_bytes_be_decode s Hok) at 2. by replace (length s) with 2%nat by (unfold len in Hs; lia).
Qed.

(** An octet shifted in from the right. *)
Lemma lor_shiftl_8 x b : is_u8 b -> Z.lor (Z.shiftl x 8) b = x * 256 + b.
Proof.
  intros Hb. rewrite Z.shiftl_mul_pow2 by lia. change (2 ^ 8) with 256. pose proof (Z.add_lor_land (x * 256) b) as H.
  enough (Hl : Z.land (x * 256) b = 0) by lia. apply Z.bits_inj'. intros n Hn. rewrite Z.land_spec, Z.bits_0. change 256 with (2 ^ 8).
  destruct (decide (n < 8)); [by rewrite Z.mul_pow2_bits_low by lia|]. rewrite (testbit_small b 8 n) by (unfold in_range in Hb; lia). apply andb_false_r.
Qed.
Lemma to_i64_small x : - 2 ^ 63 <= x < 2 ^ 63 -> to_i64 x = x.
Proof. intros H. unfold to_i64. rewrite Z.mod_small by lia. lia. Qed.
