(* ===== verification/GoStrings.v ===== *)
(** * Octet strings

    Go's [strings.TrimSpace] on the octets of a string: the white space of
    [unicode.IsSpace] in UTF-8, cut from both ends. *)
From S2P Require Import Prelude.

(** U+0009..U+000D, U+0020, U+0085, U+00A0, U+1680, U+2000..U+200A, U+2028,
    U+2029, U+202F, U+205F and U+3000. *)
Definition space_runes : list bytes :=
  [[9]; [10]; [11]; [12]; [13]; [32]; [194; 133]; [194; 160]; [225; 154; 128];
   [226; 128; 128]; [226; 128; 129]; [226; 128; 130]; [226; 128; 131]; [226; 128; 132]; [226; 128; 133];
   [226; 128; 134]; [226; 128; 135]; [226; 128; 136]; [226; 128; 137]; [226; 128; 138];
   [226; 128; 168]; [226; 128; 169]; [226; 128; 175]; [226; 129; 159]; [227; 128; 128]].

(** The first rune of [rs] that [s] starts with, cut off. *)
Fixpoint cut_rune (rs : list bytes) (s : bytes) : option bytes :=
  match rs with
  | [] => None
  | r :: rs' => if bytesEqual (take (length r) s) r then Some (drop (length r) s) else cut_rune rs' s
  end.
Fixpoint trim_left (fuel : nat) (rs : list bytes) (s : bytes) : bytes :=
  match fuel with
  | O => s
  | S fuel' => match cut_rune rs s with Some s' => trim_left fuel' rs s' | None => s end
  end.
Definition TrimLeftSpace (s : bytes) : bytes := trim_left (length s) space_runes s.
Definition TrimRightSpace (s : bytes) : bytes := rev (trim_left (length s) (map (@rev Z) space_runes) (rev s)).
Definition TrimSpace (s : bytes) : bytes := TrimRightSpace (TrimLeftSpace s).

Example trim_example : TrimSpace [32; 194; 160; 65; 32; 66; 226; 128; 137; 10] = [65; 32; 66].
Proof. vm_compute. reflexivity. Qed.

Lemma cut_rune_suffix rs s s' : cut_rune rs s = Some s' -> exists r, r ∈ rs /\ s = r ++ s'.
Proof.
  induction rs as [|r rs IH]; [done|]. cbn [cut_rune]. unfold bytesEqual. case_bool_decide as H.
  - intros [= <-]. exists r. split; [left|]. rewrite <- H at 1. by rewrite take_drop.
  - intros (r' & Hr & ->)%IH. exists r'. split; [by right|done].
Qed.
Lemma cut_rune_ok rs s s' : bytes_ok s -> cut_rune rs s = Some s' -> bytes_ok s'.
Proof. intros Hs (r & _ & ->)%cut_rune_suffix. by apply Forall_app in Hs as [_ ?]. Qed.
Lemma trim_left_ok fuel rs s : bytes_ok s -> bytes_ok (trim_left fuel rs s).
Proof.
  revert s. induction fuel as [|fuel IH]; intros s Hs; [done|]. cbn [trim_left].
  destruct (cut_rune rs s) eqn:E; [|done]. apply IH. by eapply cut_rune_ok.
Qed.
Lemma trim_left_stops fuel rs s :
  (forall r, r ∈ rs -> r <> []) -> (length s <= fuel)%nat -> cut_rune rs (trim_left fuel rs s) = None.
Proof.
  intros Hr. revert s. induction fuel as [|fuel IH]; intros s Hf.
  - destruct s; [|cbn in Hf; lia]. cbn [trim_left]. destruct (cut_rune rs []) eqn:E; [|done].
    apply cut_rune_suffix in E as (r & Hin & E). symmetry in E. apply app_nil in E as [-> ->]. by apply Hr in Hin.
  - cbn [trim_left]. destruct (cut_rune rs s) as [s'|] eqn:E; [|done]. apply IH.
    apply cut_rune_suffix in E as (r & Hin & ->). apply Hr in Hin. rewrite length_app in Hf. destruct r; [done|]. cbn in Hf. lia.
Qed.
Lemma TrimSpace_ok s : bytes_ok s -> bytes_ok (TrimSpace s).
Proof.
  intros Hs. unfold TrimSpace, TrimRightSpace, TrimLeftSpace, bytes_ok.
  apply Forall_rev, trim_left_ok, Forall_rev, trim_left_ok, Hs.
Qed.

(** Text of visible ASCII characters has no white space to trim. *)
Definition visible (b : Z) : bool := (33 <=? b) && (b <=? 126).
Lemma cut_rune_visible rs b s : Forall (fun r => match r with [] => False | x :: _ => visible x = false end) rs -> visible b = true -> cut_rune rs (b :: s) = None.
Proof.
  intros Hrs Hb. induction Hrs as [|r rs Hr Hrs IH]; [done|]. cbn [cut_rune]. destruct r as [|x r]; [done|]. cbn [length take].
  unfold bytesEqual. rewrite bool_decide_eq_false_2; [done|]. intros [= E _]. congruence.
Qed.
Lemma trim_left_visible fuel rs b s : Forall (fun r => match r with [] => False | x :: _ => visible x = false end) rs -> visible b = true ->
  trim_left fuel rs (b :: s) = b :: s.
Proof. intros Hrs Hb. destruct fuel; [done|]. cbn [trim_left]. by rewrite cut_rune_visible. Qed.
Lemma space_runes_invisible : Forall (fun r => match r with [] => False | x :: _ => visible x = false end) space_runes /\
  Forall (fun r => match r with [] => False | x :: _ => visible x = false end) (map (@rev Z) space_runes).
Proof. split; repeat constructor. Qed.
Lemma TrimSpace_visible s : Forall (fun b => visible b = true) s -> TrimSpace s = s.
Proof.
  intros Hs. destruct space_runes_invisible as [H1 H2]. unfold TrimSpace, TrimLeftSpace, TrimRightSpace. destruct s as [|b s]; [done|].
  rewrite (trim_left_visible _ _ b s H1) by (by apply Forall_cons in Hs as [? _]). assert (Hr : Forall (fun b => visible b = true) (rev (b :: s))) by by apply Forall_rev.
  destruct (rev (b :: s)) as [|c r] eqn:E.
  - apply (f_equal (@length Z)) in E. by rewrite length_rev in E.
  - rewrite trim_left_visible by (try done; by apply Forall_cons in Hr as [? _]). by rewrite <- E, rev_involutive.
Qed.

(** Trimmed text is trimmed. *)
Lemma cut_rune_prefix rs p q : cut_rune rs (p ++ q) = None -> cut_rune rs p = None.
Proof.
  induction rs as [|r rs IH]; [done|]. cbn [cut_rune]. unfold bytesEqual. case_bool_decide as H; [done|]. intros Hq. rewrite bool_decide_eq_false_2; [by apply IH|].
  intros Hp. apply H. rewrite take_app. assert (length r <= length p)%nat by (rewrite <- Hp, length_take; lia).
  replace (length r - length p)%nat with 0%nat by lia. by rewrite take_0, app_nil_r.
Qed.
Lemma trim_left_split fuel rs s : exists cut, s = cut ++ trim_left fuel rs s.
Proof.
  revert s. induction fuel as [|fuel IH]; intros s; [by exists []|]. cbn [trim_left]. destruct (cut_rune rs s) as [s'|] eqn:E; [|by exists []].
  apply cut_rune_suffix in E as (r & _ & ->). destruct (IH s') as [c E]. exists (r ++ c). rewrite <- app_assoc. by rewrite <- E.
Qed.
Lemma trim_left_none fuel rs s : cut_rune rs s = None -> trim_left fuel rs s = s.
Proof. intros H. destruct fuel; [done|]. cbn [trim_left]. by rewrite H. Qed.
Lemma space_runes_nonempty r : r ∈ space_runes \/ r ∈ map (@rev Z) space_runes -> r <> [].
Proof. intros [H|H] ->; revert H; by_decide. Qed.
Lemma TrimSpace_ends s : cut_rune space_runes (TrimSpace s) = None /\ cut_rune (map (@rev Z) space_runes) (rev (TrimSpace s)) = None.
Proof.
  unfold TrimSpace, TrimRightSpace. set (l := TrimLeftSpace s).
  assert (Hl : cut_rune space_runes l = None) by (apply trim_left_stops; [intros; apply space_runes_nonempty; by left|done]).
  rewrite rev_involutive. split; [|apply trim_left_stops; [intros; apply space_runes_nonempty; by right|by rewrite length_rev]].
  destruct (trim_left_split (length l) (map (@rev Z) space_runes) (rev l)) as [c E]. apply (f_equal (@rev Z)) in E. rewrite rev_involutive, rev_app_distr in E.
  rewrite E in Hl. by apply cut_rune_prefix in Hl.
Qed.
Lemma TrimSpace_idem s : TrimSpace (TrimSpace s) = TrimSpace s.
Proof.
  destruct (TrimSpace_ends s) as [H1 H2]. set (t := TrimSpace s) in *. unfold TrimSpace, TrimLeftSpace, TrimRightSpace. rewrite (trim_left_none _ _ t) by done.
  rewrite trim_left_none by done. apply rev_involutive.
Qed.
