(* ===== verification/Utf8.v ===== *)
(** * Text

    Go strings are octet strings; a [range] over one decodes UTF-8 as
    [utf8.DecodeRuneInString] does (an invalid sequence gives U+FFFD and
    advances by one octet), and [WriteRune], [string([]rune)] encode it.
    [utf16.Encode] and [utf16.Decode] are those of the standard library. *)
From S2P Require Import Prelude.

(** Code points that UTF-8 and UTF-16 can carry. *)
Definition scalar (r : Z) : Prop := 0 <= r < 0xD800 \/ 0xE000 <= r <= 0x10FFFF.
#[export] Instance scalar_dec r : Decision (scalar r).
Proof. unfold scalar. apply _. Defined.
Definition RuneError := 0xFFFD.

Definition in_tail (lo hi b : Z) : bool := (lo <=? b) && (b <=? hi).
Definition cont (b : Z) : bool := in_tail 0x80 0xBF b.
Definition low6 (b : Z) : Z := b - 0x80.

(** [utf8.DecodeRuneInString]: the rune and its width. *)
Definition decode_rune (s : bytes) : Z * Z :=
  match s with
  | [] => (RuneError, 0)
  | b0 :: t =>
      if b0 <? 0x80 then (b0, 1) else
      if in_tail 0xC2 0xDF b0 then
        match t with
        | b1 :: _ => if cont b1 then ((b0 - 0xC0) * 64 + low6 b1, 2) else (RuneError, 1)
        | _ => (RuneError, 1)
        end
      else if in_tail 0xE0 0xEF b0 then
        match t with
        | b1 :: b2 :: _ =>
            if in_tail (if b0 =? 0xE0 then 0xA0 else 0x80) (if b0 =? 0xED then 0x9F else 0xBF) b1 && cont b2
            then ((b0 - 0xE0) * 4096 + low6 b1 * 64 + low6 b2, 3) else (RuneError, 1)
        | _ => (RuneError, 1)
        end
      else if in_tail 0xF0 0xF4 b0 then
        match t with
        | b1 :: b2 :: b3 :: _ =>
            if in_tail (if b0 =? 0xF0 then 0x90 else 0x80) (if b0 =? 0xF4 then 0x8F else 0xBF) b1 && cont b2 && cont b3
            then ((b0 - 0xF0) * 262144 + low6 b1 * 4096 + low6 b2 * 64 + low6 b3, 4) else (RuneError, 1)
        | _ => (RuneError, 1)
        end
      else (RuneError, 1)
  end.
(** [utf8.AppendRune(nil, r)] *)
Definition encode_rune (r : Z) : bytes :=
  let r := if bool_decide (scalar r) then r else RuneError in
  if r <? 0x80 then [r]
  else if r <? 0x800 then [0xC0 + r / 64; 0x80 + r mod 64]
  else if r <? 0x10000 then [0xE0 + r / 4096; 0x80 + r / 64 mod 64; 0x80 + r mod 64]
  else [0xF0 + r / 262144; 0x80 + r / 4096 mod 64; 0x80 + r / 64 mod 64; 0x80 + r mod 64].

Definition string_of (rs : list Z) : bytes := concat (encode_rune <$> rs).
(** [for _, r := range s]: the runes with their widths. *)
Fixpoint range_loop (fuel : nat) (s : bytes) : list (Z * Z) :=
  match fuel, s with
  | _, [] => []
  | O, _ => []
  | S fuel', _ :: _ => let '(r, size) := decode_rune s in (r, size) :: range_loop fuel' (drop (Z.to_nat size) s)
  end.
Definition range_string (s : bytes) : list (Z * Z) := range_loop (length s) s.
(** [[]rune(s)] *)
Definition runes (s : bytes) : list Z := (range_string s).*1.
Definition RuneCountInString (s : bytes) : Z := len (range_string s).

(** [strings.ToValidUTF8(s, "")]: runs of invalid octets are removed. *)
Fixpoint to_valid_loop (fuel : nat) (s : bytes) : bytes :=
  match fuel, s with
  | _, [] => []
  | O, _ => []
  | S fuel', b :: _ =>
      let '(r, size) := decode_rune s in
      (if (r =? RuneError) && (size =? 1) then [] else take (Z.to_nat size) s) ++ to_valid_loop fuel' (drop (Z.to_nat size) s)
  end.
Definition ToValidUTF8 (s : bytes) : bytes := to_valid_loop (length s) s.

(** [utf16.Encode] and [utf16.Decode] *)
Definition utf16_unit (r : Z) : list Z :=
  if negb (bool_decide (scalar r)) then [RuneError]
  else if r <? 0x10000 then [r]
  else [0xD800 + (r - 0x10000) / 1024; 0xDC00 + (r - 0x10000) mod 1024].
Definition utf16_Encode (rs : list Z) : list Z := concat (utf16_unit <$> rs).
Fixpoint utf16_Decode (us : list Z) : list Z :=
  match us with
  | [] => []
  | u :: rest =>
      if negb (in_tail 0xD800 0xDFFF u) then u :: utf16_Decode rest else
      match rest with
      | v :: rest' =>
          if in_tail 0xD800 0xDBFF u && in_tail 0xDC00 0xDFFF v
          then (u - 0xD800) * 1024 + (v - 0xDC00) + 0x10000 :: utf16_Decode rest'
          else RuneError :: utf16_Decode rest
      | [] => [RuneError]
      end
  end.

(** ** Case, prefixes, cutting *)
(** [unicode.ToLower] where the result is ASCII: besides the capital letters only
    U+0130 and U+212A have an ASCII lower case.  The other code points stay
    outside ASCII, which is all that a comparison with an ASCII prefix sees. *)
Definition lower_rune (r : Z) : Z :=
  if (65 <=? r) && (r <=? 90) then r + 32 else if r =? 0x130 then 105 else if r =? 0x212A then 107 else r.
(** [strings.HasPrefix(strings.ToLower(value), prefix)] for an ASCII prefix. *)
Definition lower_has_prefix (value prefix : bytes) : bool := bool_decide (take (length prefix) (lower_rune <$> runes value) = prefix).
(** [strings.Cut(value, sep)] for one octet. *)
Fixpoint cut_at (value : bytes) (sep : Z) : option (bytes * bytes) :=
  match value with
  | [] => None
  | b :: rest => if b =? sep then Some ([], rest) else match cut_at rest sep with Some (before, after) => Some (b :: before, after) | None => None end
  end.
(** [strings.Trim(value, "<>")] *)
Fixpoint trim_left_of (cutset value : bytes) : bytes :=
  match value with [] => [] | b :: rest => if bool_decide (b ∈ cutset) then trim_left_of cutset rest else value end.
Definition strings_Trim (value cutset : bytes) : bytes := reverse (trim_left_of cutset (reverse (trim_left_of cutset value))).
(** The octets of a string. *)
Fixpoint go_bytes (s : string) : bytes :=
  match s with EmptyString => [] | String c rest => Z.of_nat (Ascii.nat_of_ascii c) :: go_bytes rest end.
(** [strings.ToLower(value) == name] for an ASCII name. *)
Definition lower_equal (value : bytes) (name : string) : bool := bool_decide (lower_rune <$> runes value = go_bytes name).
(** [strings.ToUpper] and [strings.ToLower].  The case tables of Unicode beyond
    ASCII are a parameter. *)
Class UnicodeCase := { unicode_ToUpper : Z -> Z; unicode_ToLower : Z -> Z }.
Definition upper_rune `{UnicodeCase} (r : Z) : Z :=
  if r <? 0x80 then if (97 <=? r) && (r <=? 122) then r - 32 else r else unicode_ToUpper r.
Definition strings_ToUpper `{UnicodeCase} (s : bytes) : bytes := string_of (upper_rune <$> runes s).
Definition lower_case_rune `{UnicodeCase} (r : Z) : Z :=
  if r <? 0x80 then if (65 <=? r) && (r <=? 90) then r + 32 else r else unicode_ToLower r.
Definition strings_ToLower `{UnicodeCase} (s : bytes) : bytes := string_of (lower_case_rune <$> runes s).
(** [strings.HasPrefix(s, prefix)] and [strings.TrimPrefix], [strings.TrimSuffix] *)
Definition strings_HasPrefix (s prefix : bytes) : bool := bool_decide (take (length prefix) s = prefix).
Definition strings_TrimPrefix (s prefix : bytes) : bytes := if strings_HasPrefix s prefix then drop (length prefix) s else s.
Definition strings_TrimSuffix (s suffix : bytes) : bytes :=
  if strings_HasPrefix (reverse s) (reverse suffix) then take (length s - length suffix) s else s.
(** [strings.Split(s, sep)] for one octet. *)
Fixpoint strings_Split (s : bytes) (sep : Z) : list bytes :=
  match s with
  | [] => [[]]
  | b :: rest =>
      if b =? sep then [] :: strings_Split rest sep else
      match strings_Split rest sep with [] => [[b]] | part :: parts => (b :: part) :: parts end
  end.

(** [strings.EqualFold(s, name)] for an ASCII name: the code points outside ASCII that
    fold to an ASCII letter are U+017F (s) and U+212A (k). *)
Definition fold_rune (r : Z) : Z :=
  if (65 <=? r) && (r <=? 90) then r + 32 else if r =? 0x17F then 115 else if r =? 0x212A then 107 else r.
Definition equal_fold (s : bytes) (name : string) : bool := bool_decide (fold_rune <$> runes s = fold_rune <$> go_bytes name).

(** ** Round trips *)
Ltac tails := unfold cont, low6, in_tail in *;
  repeat match goal with
  | |- context [?a <=? ?b] => first [rewrite (proj2 (Z.leb_le a b)) by lia | rewrite (proj2 (Z.leb_gt a b)) by lia]
  | |- context [?a <? ?b] => first [rewrite (proj2 (Z.ltb_lt a b)) by lia | rewrite (proj2 (Z.ltb_ge a b)) by lia]
  end; cbn [andb].

Lemma encode_rune_width r : 1 <= len (encode_rune r) <= 4.
Proof. unfold encode_rune. repeat case_match; len_lia. Qed.

Lemma decode_encode r s : scalar r -> decode_rune (encode_rune r ++ s) = (r, len (encode_rune r)).
Proof.
  intros Hr. unfold encode_rune. rewrite bool_decide_eq_true_2 by done. unfold scalar in Hr.
  destruct (Z.ltb_spec r 0x80) as [H1|H1]; [cbn; by tails|].
  destruct (Z.ltb_spec r 0x800) as [H2|H2].
  { cbn [decode_rune app]. pose proof (Z.mod_pos_bound r 64 ltac:(lia)). assert (2 <= r / 64 < 32) by (Z.div_mod_to_equations; lia).
    pose proof (Z.div_mod r 64 ltac:(lia)) as E. set (a := r / 64) in *. set (b := r mod 64) in *. clearbody a b. tails. f_equal. lia. }
  destruct (Z.ltb_spec r 0x10000) as [H3|H3].
  { cbn [decode_rune app]. pose proof (Z.mod_pos_bound r 64 ltac:(lia)). pose proof (Z.mod_pos_bound (r / 64) 64 ltac:(lia)).
    assert (0 <= r / 4096 < 16) by (Z.div_mod_to_equations; lia).
    assert (E : r = r / 4096 * 4096 + (r / 64) mod 64 * 64 + r mod 64) by (Z.div_mod_to_equations; lia). tails.
    set (a := r / 4096) in *. set (b := (r / 64) mod 64) in *. set (c := r mod 64) in *. clearbody a b c.
    destruct (Z.eqb_spec (0xE0 + a) 0xE0); destruct (Z.eqb_spec (0xE0 + a) 0xED); tails; f_equal; lia. }
  cbn [decode_rune app]. pose proof (Z.mod_pos_bound r 64 ltac:(lia)). pose proof (Z.mod_pos_bound (r / 64) 64 ltac:(lia)).
  pose proof (Z.mod_pos_bound (r / 4096) 64 ltac:(lia)). assert (0 <= r / 262144 < 5) by (Z.div_mod_to_equations; lia).
  assert (E : r = r / 262144 * 262144 + (r / 4096) mod 64 * 4096 + (r / 64) mod 64 * 64 + r mod 64) by (Z.div_mod_to_equations; lia). tails.
  set (a := r / 262144) in *. set (b := (r / 4096) mod 64) in *. set (c := (r / 64) mod 64) in *. set (d := r mod 64) in *. clearbody a b c d.
  destruct (Z.eqb_spec (0xF0 + a) 0xF0); destruct (Z.eqb_spec (0xF0 + a) 0xF4); tails; f_equal; lia.
Qed.

Lemma string_of_cons r rs : string_of (r :: rs) = encode_rune r ++ string_of rs.
Proof. done. Qed.
Lemma string_of_app a b : string_of (a ++ b) = string_of a ++ string_of b.
Proof. unfold string_of. by rewrite fmap_app, concat_app. Qed.
Lemma encode_rune_cons r : exists b t, encode_rune r = b :: t.
Proof. unfold encode_rune. repeat case_match; eauto. Qed.
Lemma range_loop_cons fuel r s : scalar r -> (length (encode_rune r ++ s) <= fuel)%nat ->
  range_loop fuel (encode_rune r ++ s) = (r, len (encode_rune r)) :: range_loop (pred fuel) s.
Proof.
  intros Hr Hf. pose proof (encode_rune_width r) as Hw. destruct fuel as [|fuel]; [rewrite length_app in Hf; unfold len in Hw; lia|].
  destruct (encode_rune_cons r) as (b & t & E). pose proof (decode_encode r s Hr) as D.
  cbn [range_loop pred]. replace (match encode_rune r ++ s with [] => _ | _ :: _ => _ end) with
    (let '(r', size) := decode_rune (encode_rune r ++ s) in (r', size) :: range_loop fuel (drop (Z.to_nat size) (encode_rune r ++ s))) by (by rewrite E).
  rewrite D. unfold len at 2. by rewrite Nat2Z.id, drop_app_length.
Qed.
(** The fuel of a longer string gives the same runes. *)
Lemma range_loop_fuel fuel s : (length s <= fuel)%nat -> range_loop fuel s = range_loop (length s) s.
Proof.
  revert s. induction fuel as [fuel IH] using (well_founded_induction lt_wf). intros s Hf.
  destruct fuel as [|fuel]; [destruct s; [done|cbn in Hf; lia]|]. destruct s as [|b s]; [done|]. cbn [length] in *. cbn [range_loop].
  destruct (decode_rune (b :: s)) as [r size] eqn:E. f_equal.
  assert (Hs : (1 <= Z.to_nat size)%nat).
  { unfold decode_rune in E. repeat case_match; simplify_eq; lia. }
  assert (Hd : (length (drop (Z.to_nat size) (b :: s)) <= length s)%nat) by (rewrite length_drop; cbn; lia).
  rewrite (IH fuel) by lia. symmetry. apply IH; lia.
Qed.
Lemma range_string_cons r s : scalar r -> range_string (encode_rune r ++ s) = (r, len (encode_rune r)) :: range_string s.
Proof.
  intros Hr. unfold range_string. rewrite range_loop_cons by done. f_equal. apply range_loop_fuel.
  rewrite length_app. pose proof (encode_rune_width r). unfold len in *. lia.
Qed.
Lemma range_string_of rs : Forall scalar rs -> range_string (string_of rs) = (fun r => (r, len (encode_rune r))) <$> rs.
Proof.
  induction 1 as [|r rs Hr _ IH]; [done|]. rewrite string_of_cons, range_string_cons by done. cbn [fmap list_fmap]. by rewrite IH.
Qed.
Lemma runes_string_of rs : Forall scalar rs -> runes (string_of rs) = rs.
Proof.
  intros H. unfold runes. rewrite range_string_of by done. rewrite <- list_fmap_compose. cbn. apply list_fmap_id.
Qed.
Lemma to_valid_string_of rs : Forall scalar rs -> ToValidUTF8 (string_of rs) = string_of rs.
Proof.
  assert (Hg : forall fuel rs, Forall scalar rs -> (length (string_of rs) <= fuel)%nat -> to_valid_loop fuel (string_of rs) = string_of rs).
  { intros fuel rs' H. revert fuel. induction H as [|r rs' Hr _ IH]; intros fuel Hf; [by destruct fuel|].
    rewrite string_of_cons in *. pose proof (encode_rune_width r) as Hw. rewrite length_app in Hf. unfold len in Hw.
    destruct fuel as [|fuel]; [lia|]. cbn [to_valid_loop]. destruct (encode_rune_cons r) as (b & t & E).
    pose proof (decode_encode r (string_of rs') Hr) as D. rewrite E in D |- *. cbn [app] in *. rewrite D. rewrite <- E. cbn [app].
    change (b :: t ++ string_of rs') with ((b :: t) ++ string_of rs'). rewrite <- E.
    assert ((r =? RuneError) && (len (encode_rune r) =? 1) = false) as ->.
    { destruct (Z.eqb_spec r RuneError) as [->|]; [reflexivity|done]. }
    unfold len. rewrite Nat2Z.id, take_app_length, drop_app_length, IH; [done|lia]. }
  intros H. by apply Hg.
Qed.
Lemma utf16_round_trip rs : Forall scalar rs -> utf16_Decode (utf16_Encode rs) = rs.
Proof.
  induction 1 as [|r rs Hr _ IH]; [done|]. unfold utf16_Encode in *. cbn [fmap list_fmap concat]. unfold utf16_unit at 1.
  rewrite bool_decide_eq_true_2 by done. cbn [negb]. unfold scalar in Hr.
  destruct (Z.ltb_spec r 0x10000) as [H1|H1]; cbn [app utf16_Decode].
  - replace (in_tail 0xD800 0xDFFF r) with false by (unfold in_tail; lia). cbn [negb]. by rewrite IH.
  - pose proof (Z.mod_pos_bound (r - 0x10000) 1024 ltac:(lia)). assert (0 <= (r - 0x10000) / 1024 < 1024) by (Z.div_mod_to_equations; lia).
    pose proof (Z.div_mod (r - 0x10000) 1024 ltac:(lia)). set (a := (r - 0x10000) / 1024) in *. set (b := (r - 0x10000) mod 1024) in *. clearbody a b.
    replace (in_tail 0xD800 0xDFFF (0xD800 + a)) with true by (unfold in_tail; lia). cbn [negb]. tails. f_equal; [lia|exact IH].
Qed.
Lemma encode_rune_ok r : bytes_ok (encode_rune r).
Proof.
  unfold encode_rune. set (r' := if bool_decide (scalar r) then r else RuneError). assert (Hr : scalar r') by (subst r'; case_bool_decide; [done|by_decide]). unfold scalar in Hr.
  clearbody r'. repeat case_match; repeat (apply bytes_ok_cons_2; [unfold is_u8, in_range; Z.div_mod_to_equations; lia|]); constructor.
Qed.
Lemma string_of_ok rs : bytes_ok (string_of rs).
Proof. unfold string_of. induction rs as [|r rs IH]; [constructor|]. cbn. apply bytes_ok_app_2; [apply encode_rune_ok|exact IH]. Qed.
(** A decoded rune is always one that can be encoded. *)
Lemma decode_rune_scalar s : bytes_ok s -> scalar (decode_rune s).1.
Proof.
  intros Hs. unfold decode_rune. destruct s as [|b0 t]; [by_decide|]. apply Forall_cons in Hs as [H0 Ht]. unfold is_u8, in_range in H0.
  assert (He : scalar RuneError) by by_decide.
  destruct (Z.ltb_spec b0 0x80); [unfold scalar; cbn; lia|]. unfold in_tail, cont, low6, in_tail.
  repeat case_match; cbn [fst]; try exact He; unfold scalar; lia.
Qed.
Lemma ToValidUTF8_ok s : bytes_ok s -> bytes_ok (ToValidUTF8 s).
Proof.
  unfold ToValidUTF8. generalize (length s) as fuel. intros fuel. revert s. induction fuel as [|fuel IH]; intros s Hs; [destruct s; constructor|].
  destruct s as [|b s]; [constructor|]. cbn [to_valid_loop]. destruct (decode_rune (b :: s)) as [r size].
  apply bytes_ok_app_2; [destruct (_ && _); [constructor|by apply bytes_ok_take]|by apply IH, bytes_ok_drop].
Qed.

(** *** ASCII *)
Lemma decode_rune_ascii s r size : decode_rune s = (r, size) -> r < 0x80 -> exists t, s = r :: t /\ size = 1.
Proof.
  unfold decode_rune. destruct s as [|b0 t]; [by intros [= <- <-]|].
  destruct (Z.ltb_spec b0 0x80); [intros [= <- <-]; eauto|]. unfold in_tail, cont, low6, in_tail, RuneError.
  intros E Hr. exfalso. revert E.
  repeat match goal with
  | |- context [match ?l with [] => _ | _ :: _ => _ end] => destruct l
  | |- context [if ?c then (?a, ?b) else ?d] => destruct c eqn:?
  | |- context [if ?c then _ else (RuneError, 1)] => destruct c eqn:?
  | |- (if ?c then _ else _) = _ -> _ => destruct c eqn:?
  end; intros [= <- <-]; repeat case_match; lia.
Qed.
Lemma runes_ascii s : Forall (fun r => r < 0x80) (runes s) -> runes s = s.
Proof.
  unfold runes, range_string. assert (Hg : forall fuel s, (length s <= fuel)%nat -> Forall (fun r => r < 0x80) (range_loop fuel s).*1 -> (range_loop fuel s).*1 = s).
  { intros fuel. induction fuel as [|fuel IH]; intros [|b t] Hf H; [done|cbn in Hf; lia|done|]. revert H. cbn [range_loop].
    destruct (decode_rune (b :: t)) as [r size] eqn:E. cbn [fmap list_fmap fst]. intros [Hr H]%Forall_cons.
    destruct (decode_rune_ascii _ _ _ E Hr) as (t' & [= <- <-] & ->). change (drop (Z.to_nat 1) (b :: t)) with t in *. f_equal. apply IH; [cbn in Hf; lia|done]. }
  apply Hg. done.
Qed.
Lemma encode_rune_ascii r : 0 <= r < 0x80 -> encode_rune r = [r].
Proof. intros Hr. unfold encode_rune. rewrite bool_decide_eq_true_2 by (left; lia). by replace (r <? 0x80) with true by lia. Qed.
Lemma string_of_ascii s : Forall (fun b => 0 <= b < 0x80) s -> string_of s = s.
Proof. induction 1 as [|b s Hb Hs IH]; [done|]. rewrite string_of_cons, encode_rune_ascii, IH by done. done. Qed.
Lemma runes_of_ascii s : Forall (fun b => 0 <= b < 0x80) s -> runes s = s.
Proof.
  intros Hs. rewrite <- (string_of_ascii s Hs) at 1. apply runes_string_of. eapply Forall_impl; [exact Hs|]. intros b Hb. cbv beta in Hb. left. lia.
Qed.

(** *** Cutting *)
Lemma split_app a sep rest : sep ∉ a -> strings_Split (a ++ sep :: rest) sep = a :: strings_Split rest sep.
Proof.
  induction a as [|b a IH]; intros Ha; [cbn [app strings_Split]; by rewrite Z.eqb_refl|]. apply not_elem_of_cons in Ha as [Hb Ha]. cbn [app strings_Split].
  replace (b =? sep) with false by lia. by rewrite IH.
Qed.
Lemma split_last a sep : sep ∉ a -> strings_Split a sep = [a].
Proof.
  induction a as [|b a IH]; intros Ha; [done|]. apply not_elem_of_cons in Ha as [Hb Ha]. cbn [strings_Split]. replace (b =? sep) with false by lia. by rewrite IH.
Qed.
Lemma cut_at_app a sep rest : sep ∉ a -> cut_at (a ++ sep :: rest) sep = Some (a, rest).
Proof.
  induction a as [|b a IH]; intros Ha; [cbn [app cut_at]; by rewrite Z.eqb_refl|]. apply not_elem_of_cons in Ha as [Hb Ha]. cbn [app cut_at].
  replace (b =? sep) with false by lia. by rewrite IH.
Qed.
