(* ===== verification/Hex.v ===== *)
(** * Hexadecimal text

    What the code uses of package [encoding/hex]: the lower-case text of octets
    and its decoder, which reads both cases; decoding inverts encoding. *)
From S2P Require Import Prelude GoStrings.

Definition hex_lower_digit (d : Z) : Z := if d <? 10 then 48 + d else 87 + d.
Definition hex_EncodeToString (data : bytes) : bytes := concat ((fun b => [hex_lower_digit (Z.shiftr b 4); hex_lower_digit (Z.land b 0x0f)]) <$> data).
Definition hex_nibble (c : Z) : option Z :=
  if (48 <=? c) && (c <=? 57) then Some (c - 48)
  else if (97 <=? c) && (c <=? 102) then Some (c - 87)
  else if (65 <=? c) && (c <=? 70) then Some (c - 55)
  else None.
Fixpoint hex_DecodeString (s : bytes) : option bytes :=
  match s with
  | [] => Some []
  | [_] => None
  | a :: b :: rest =>
      match hex_nibble a, hex_nibble b, hex_DecodeString rest with
      | Some hi, Some lo, Some out => Some (Z.lor (Z.shiftl hi 4) lo :: out)
      | _, _, _ => None
      end
  end.

Lemma hex_digit_facts d : 0 <= d < 16 ->
  hex_nibble (hex_lower_digit d) = Some d /\ visible (hex_lower_digit d) = true /\
  hex_nibble (let r := hex_lower_digit d in if (97 <=? r) && (r <=? 122) then r - 32 else r) = Some d.
Proof.
  intros Hd. assert (Hall : Forall (fun d => hex_nibble (hex_lower_digit d) = Some d /\ visible (hex_lower_digit d) = true /\
    hex_nibble (let r := hex_lower_digit d in if (97 <=? r) && (r <=? 122) then r - 32 else r) = Some d) (seqZ 0 16)) by by_decide.
  rewrite Forall_forall in Hall. apply Hall, elem_of_seqZ. lia.
Qed.
Lemma octet_nibbles b : is_u8 b -> 0 <= Z.shiftr b 4 < 16 /\ 0 <= Z.land b 0x0f < 16 /\ Z.lor (Z.shiftl (Z.shiftr b 4) 4) (Z.land b 0x0f) = b.
Proof.
  unfold in_range. intros Hb. change 0x0f with (Z.ones 4). rewrite Z.land_ones, Z.shiftr_div_pow2 by lia. change (2 ^ 4) with 16.
  split; [Z.div_mod_to_equations; lia|]. split; [apply Z.mod_pos_bound; lia|].
  pose proof (Z.add_lor_land (Z.shiftl (b / 16) 4) (b mod 16)) as H. rewrite Z.shiftl_mul_pow2 in * by lia. change (2 ^ 4) with 16 in *.
  enough (Z.land (b / 16 * 16) (b mod 16) = 0) by (rewrite (Z.div_mod b 16) at 3 by lia; lia).
  apply Z.bits_inj'. intros n Hn. rewrite Z.land_spec, Z.bits_0. change 16 with (2 ^ 4).
  destruct (decide (n < 4)); [by rewrite Z.mul_pow2_bits_low by lia|]. by rewrite Z.mod_pow2_bits_high, andb_false_r by lia.
Qed.
Lemma hex_encode_cons b data : hex_EncodeToString (b :: data) = hex_lower_digit (Z.shiftr b 4) :: hex_lower_digit (Z.land b 0x0f) :: hex_EncodeToString data.
Proof. done. Qed.
Lemma hex_encode_visible data : bytes_ok data -> Forall (fun c => visible c = true) (hex_EncodeToString data).
Proof.
  induction 1 as [|b data Hb Hd IH]; [done|]. rewrite hex_encode_cons. destruct (octet_nibbles b Hb) as (H1 & H2 & _).
  constructor; [by apply hex_digit_facts|]. constructor; [by apply hex_digit_facts|done].
Qed.
Lemma hex_decode_encode data : bytes_ok data -> hex_DecodeString (hex_EncodeToString data) = Some data.
Proof.
  induction 1 as [|b data Hb Hd IH]; [done|]. rewrite hex_encode_cons. cbn [hex_DecodeString]. destruct (octet_nibbles b Hb) as (H1 & H2 & H3).
  destruct (hex_digit_facts _ H1) as [-> _]. destruct (hex_digit_facts _ H2) as [-> _]. rewrite IH. by rewrite H3.
Qed.
Lemma visible_ascii s : Forall (fun c => visible c = true) s -> Forall (fun c => 0 <= c < 0x80) s.
Proof. intros H. eapply Forall_impl; [exact H|]. cbv beta. unfold visible. intros c Hc. lia. Qed.
Lemma hex_decode_ok s data : hex_DecodeString s = Some data -> bytes_ok data.
Proof.
  enough (H : forall n s data, (length s <= n)%nat -> hex_DecodeString s = Some data -> bytes_ok data) by by apply (H (length s)).
  clear s data. induction n as [|n IH]; intros [|a [|b s]] data Hl; try (intros [= <-]; constructor); try done; [cbn in Hl; lia|].
  cbn [hex_DecodeString]. destruct (hex_nibble a) as [hi|] eqn:Ha; [|done]. destruct (hex_nibble b) as [lo|] eqn:Hb; [|done].
  destruct (hex_DecodeString s) as [out|] eqn:Hs; [|done]. intros [= <-]. constructor; [|apply (IH s); [cbn in Hl; lia|done]].
  assert (Hn : forall c d, hex_nibble c = Some d -> 0 <= d < 16) by (intros c d; unfold hex_nibble; repeat case_match; intros [= <-]; lia).
  apply Hn in Ha, Hb. pose proof (Z.add_lor_land (Z.shiftl hi 4) lo) as H. rewrite Z.shiftl_mul_pow2 in * by lia. change (2 ^ 4) with 16 in *.
  assert (0 <= Z.land (hi * 16) lo) by (apply Z.land_nonneg; left; lia). assert (0 <= Z.lor (hi * 16) lo) by (apply Z.lor_nonneg; lia). unfold in_range. lia.
Qed.
