(* ===== verification/Errors.v ===== *)
(** * Errors of the packages

    Every sentinel of [errors.New] that a caller can test with [errors.Is],
    and the three shapes an error value takes: a sentinel wrapped with a
    message ([fmt.Errorf("%w: ...", ErrX)]; the text of the message is not
    modelled), two errors joined by [fmt.Errorf("%w: %w", ErrX, err)], and the
    structured [NotifyError] of [ikev2/payloads.go], [SyncFailureError] of
    [sim/sim.go] and [StatusError] of [simauth/apdu.go]. *)
From S2P Require Import Prelude.

(** [ikev2.Notify] (payloads.go). *)
Record Notify := mkNotify {
  n_ProtocolID : Z;
  n_NotifyType : Z;
  n_SPI : bytes;
  n_NotificationData : bytes
}.

Inductive sentinel :=
(* ikev2/types.go *)
| ErrShortHeader | ErrShortPayload | ErrInvalidLength
(* ikev2/payloads.go *)
| ErrInvalidNotify | ErrIKEv2NotifyError
| ErrNotifyUnsupportedCriticalPayload | ErrNotifyInvalidIKESPI
| ErrNotifyInvalidMajorVersion | ErrNotifyInvalidSyntax | ErrNotifyInvalidMessageID
| ErrNotifyInvalidSPI | ErrNotifyNoProposalChosen | ErrNotifyInvalidKEPayload
| ErrNotifyAuthenticationFailed | ErrNotifySinglePairRequired | ErrNotifyNoAdditionalSAs
| ErrNotifyInternalAddressFailure | ErrNotifyFailedCPRequired | ErrNotifyTSUnacceptable
| ErrNotifyInvalidSelectors | ErrNotifyUnacceptableAddresses | ErrNotifyUnexpectedNATDetected
| ErrInvalidDelete | ErrInvalidAddress
(* ikev2/sa.go, fragments.go, keys.go, crypto.go *)
| ErrInvalidSA | ErrUnsupportedSASelection | ErrInvalidEncryptedFragment
| ErrUnsupportedTransform | ErrUnsupportedPRF
(* ikev2/session_payloads.go, auth_payload.go, sk.go *)
| ErrInvalidIdentity | ErrInvalidConfiguration | ErrInvalidTrafficSelector
| ErrInvalidAuthenticationPayload | ErrInvalidSKPayload
(* ikev2/init.go, childsa.go, create_child.go, informational.go *)
| ErrInvalidInitConfig | ErrInvalidInitResponse | ErrInvalidChildSA | ErrInvalidCreateChild | ErrInvalidInformational
(* esp/esp.go *)
| Esp_ErrInvalidSA | Esp_ErrInvalidPacket | ErrReplay
(* eapaka/eapaka.go *)
| Eap_ErrInvalidPacket | Eap_ErrInvalidAttribute | Eap_ErrInvalidCheckcode
(* eapaka/crypto.go *)
| ErrInvalidAKAChallenge | ErrInvalidEncryptedData | ErrInvalidMAC | ErrInvalidKeyMaterial | ErrInvalidReauth
| ErrBiddingDown | ErrUnsupportedKDF
(* sim/sim.go *)
| ErrSyncFailure | ErrAuthFailure | ErrAKAUnsupported | ErrAKATemporaryFailure
(* ikev2/auth.go *)
| ErrInvalidAuthConfig | ErrInvalidAuthResponse
(* swu/ike_liveness.go *)
| ErrInvalidIKELiveness
(* swu/eap_reauth.go, ike_control.go, ike_tunnel_manager.go, packet_session.go, swu.go *)
| ErrInvalidEAPReauthenticationState | ErrInvalidIKEControl | ErrMOBIKEUpdateRejected | ErrInvalidIKETunnelManager
| ErrInvalidPacketPump | ErrInvalidPacketTunnel | ErrPacketTunnelClosed | ErrUnsupportedInnerPacket | ErrInvalidChildSARekeyPolicy
| ErrInvalidTunnelConfig | ErrTunnelNotReady
(* voicehost/rtp_stream_stats.go, dtmf.go, srtp_media.go *)
| ErrRTPStreamStats | ErrInvalidDTMF | ErrSRTPMediaConfig
(* voiceclient/wire_transport.go, dialog.go *)
| ErrInvalidSIPMessage | ErrSIPFinalResponseTimeout
(* errors of the Go standard library: the end of a context or a file, a key or nonce size, an AEAD failure, a read, a curve key *)
| ErrContextCanceled | ErrContextDeadlineExceeded | ErrEOF | ErrUnexpectedEOF
| ErrCipherKeySize | ErrAEADOpen | ErrRandomRead | ErrECDHKey.

Inductive error :=
| Sentinel (s : sentinel)
| Wrap (outer : sentinel) (inner : error)
| NotifyError (n : Notify) (class : sentinel)
| SyncFailureError (auts : bytes)
| StatusError (sw1 sw2 : Z)
| ErrText (msg : string).
Coercion Sentinel : sentinel >-> error.

Abbreviation result := (outcome error).
Abbreviation Errorf s := (Err (Sentinel s)).

#[export] Instance Notify_eq_dec : EqDecision Notify.
Proof. solve_decision. Defined.
#[export] Instance sentinel_eq_dec : EqDecision sentinel.
Proof. solve_decision. Defined.
#[export] Instance error_eq_dec : EqDecision error.
Proof. unfold EqDecision, Decision. decide equality; apply (decide (_ = _)). Defined.

(** [errors.Is(err, target)], with the [Is] and [Unwrap] methods of NotifyError. *)
Fixpoint errors_Is (e : error) (target : sentinel) : bool :=
  match e with
  | Sentinel s => bool_decide (s = target)
  | Wrap o i => bool_decide (o = target) || errors_Is i target
  | NotifyError _ c => bool_decide (target = ErrIKEv2NotifyError) || bool_decide (target = c)
  | SyncFailureError _ => bool_decide (target = ErrSyncFailure)
  | StatusError _ _ | ErrText _ => false
  end.

(** [errors.As(err, &notifyErr)]. *)
Fixpoint errors_As_NotifyError (e : error) : option (Notify * sentinel) :=
  match e with
  | Sentinel _ | SyncFailureError _ | StatusError _ _ | ErrText _ => None
  | Wrap _ i => errors_As_NotifyError i
  | NotifyError n c => Some (n, c)
  end.

(** [errors.As(err, &carrier)] for the interface of an [AUTS() []byte] method. *)
Fixpoint errors_As_AUTS (e : error) : option bytes :=
  match e with
  | SyncFailureError auts => Some auts
  | Wrap _ i => errors_As_AUTS i
  | Sentinel _ | NotifyError _ _ | StatusError _ _ | ErrText _ => None
  end.

(** [errors.As(err, &carrier)] for the interface of a [Status() uint16] method. *)
Fixpoint errors_As_Status (e : error) : option (Z * Z) :=
  match e with
  | StatusError sw1 sw2 => Some (sw1, sw2)
  | Wrap _ i => errors_As_Status i
  | Sentinel _ | NotifyError _ _ | SyncFailureError _ | ErrText _ => None
  end.

Lemma errors_Is_Wrap o e s : errors_Is e s = true -> errors_Is (Wrap o e) s = true.
Proof. simpl. intros ->. apply orb_true_r. Qed.
