(* ===== verification/Crypto.v ===== *)
(** * The Go standard library's cryptography and [net.IP]

    Hash functions, HMAC, AES-CBC and AES-GCM are operations of the class
    [Crypto]: the development is independent of what they compute.  The class
    [CryptoLaws] states what the code relies on: output lengths, and that
    decryption inverts encryption under the same key, nonce and associated
    data.  [toy_crypto] is a concrete instance that satisfies the laws. *)
From S2P Require Import Prelude Errors.

(** [crypto.Hash]; [HashNone] is the zero value, which is no hash. *)
Inductive hash := HashNone | SHA1 | SHA256 | SHA384 | SHA512.
#[export] Instance hash_eq_dec : EqDecision hash.
Proof. solve_decision. Defined.

Definition hash_size (h : hash) : Z :=
  match h with HashNone => 0 | SHA1 => 20 | SHA256 => 32 | SHA384 => 48 | SHA512 => 64 end.

(** [h.Size()] panics on the zero value; [h.Available()] is false on it. *)
Definition Hash_Size (h : hash) : result Z :=
  match h with HashNone => Panic | _ => Ok (hash_size h) end.
Definition Hash_Available (h : hash) : bool := bool_decide (h <> HashNone).

Class Crypto := {
  sha1_Sum : bytes -> bytes;
  (** [mac := hmac.New(h.New, key); mac.Write(data); mac.Sum(nil)] *)
  hmac_Sum : hash -> bytes -> bytes -> bytes;
  cbc_CryptBlocks_enc : bytes -> bytes -> bytes -> bytes;
  cbc_CryptBlocks_dec : bytes -> bytes -> bytes -> bytes;
  (** [gcm_Seal key tagLen nonce plain aad], without the [dst] prefix *)
  gcm_Seal : bytes -> Z -> bytes -> bytes -> bytes -> bytes;
  gcm_Open : bytes -> Z -> bytes -> bytes -> bytes -> option bytes
}.

Class CryptoLaws (C : Crypto) : Prop := {
  sha1_len d : len (sha1_Sum d) = 20;
  sha1_ok d : bytes_ok (sha1_Sum d);
  hmac_len h k d : h <> HashNone -> len (hmac_Sum h k d) = hash_size h;
  hmac_ok h k d : bytes_ok (hmac_Sum h k d);
  cbc_enc_len k iv p : len (cbc_CryptBlocks_enc k iv p) = len p;
  cbc_dec_len k iv c : len (cbc_CryptBlocks_dec k iv c) = len c;
  cbc_enc_ok k iv p : bytes_ok p -> bytes_ok (cbc_CryptBlocks_enc k iv p);
  cbc_dec_ok k iv c : bytes_ok c -> bytes_ok (cbc_CryptBlocks_dec k iv c);
  cbc_dec_enc k iv p :
    bytes_ok p -> cbc_CryptBlocks_dec k iv (cbc_CryptBlocks_enc k iv p) = p;
  gcm_seal_len k t n p a : 0 <= t -> len (gcm_Seal k t n p a) = len p + t;
  gcm_seal_ok k t n p a : bytes_ok p -> bytes_ok (gcm_Seal k t n p a);
  gcm_open_seal k t n p a : bytes_ok p -> gcm_Open k t n (gcm_Seal k t n p a) a = Some p;
  gcm_open_len k t n c a p : 0 <= t -> gcm_Open k t n c a = Some p -> len p = len c - t;
  gcm_open_ok k t n c a p : bytes_ok c -> gcm_Open k t n c a = Some p -> bytes_ok p
}.

(** [aes.NewCipher(key)] fails unless the key has 16, 24 or 32 bytes. *)
Definition aes_NewCipher (key : bytes) : result unit :=
  if (len key =? 16) || (len key =? 24) || (len key =? 32) then Ok tt
  else Errorf ErrCipherKeySize.
Definition aes_BlockSize : Z := 16.

(** [cipher.NewGCMWithTagSize(block, tagSize)] *)
Definition NewGCMWithTagSize (tagSize : Z) : result unit :=
  if (tagSize <? 12) || (16 <? tagSize) then Errorf ErrAEADOpen else Ok tt.

(** [aead.Seal(nil, nonce, plaintext, aad)] and [aead.Open] of a GCM: both panic on
    a nonce that is not 12 octets. *)
Definition aead_Seal `{Crypto} (key : bytes) (tagSize : Z) (nonce plain aad : bytes) : result bytes :=
  if negb (len nonce =? 12) then Panic else Ok (gcm_Seal key tagSize nonce plain aad).
Definition aead_Open `{Crypto} (key : bytes) (tagSize : Z) (nonce sealed aad : bytes) : result bytes :=
  if negb (len nonce =? 12) then Panic else
  if len sealed <? tagSize then Errorf ErrAEADOpen else
  match gcm_Open key tagSize nonce sealed aad with
  | Some plain => Ok plain
  | None => Errorf ErrAEADOpen
  end.

(** [io.Reader]: what [io.ReadFull(r, b)] gives for a buffer of [n] octets. *)
Abbreviation Reader := (Z -> result bytes).
Definition reader_ok (r : Reader) : Prop := forall n, 0 < n -> safe (r n) (fun b => len b = n /\ bytes_ok b).
Definition zero_reader : Reader := fun n => Ok (replicate (Z.to_nat n) 0).
Lemma zero_reader_ok : reader_ok zero_reader.
Proof. intros n Hn. cbn. rewrite len_replicate. split; [lia|by apply bytes_ok_replicate]. Qed.

Lemma reader_bytes r n : reader_ok r -> 0 < n -> safe (r n) bytes_ok.
Proof. intros Hr Hn. eapply safe_mono; [by apply Hr|]. by intros b [_ ?]. Qed.

(** [copy(dst[i:], src)] *)
Definition copy_from (dst : bytes) (i : Z) (src : bytes) : result bytes :=
  let! tail := slice_from dst i in
  Ok (take (Z.to_nat i) dst ++ take (length tail) src ++ drop (length src) tail).

Lemma copy_from_app (p q src : bytes) i :
  i = len p -> len q = len src -> copy_from (p ++ q) i src = Ok (p ++ src).
Proof.
  intros -> Hl. unfold copy_from. rewrite (slice_from_eq _ p q) by done. cbn [bind].
  unfold len in *. rewrite Nat2Z.id, take_app_length, firstn_all2, skipn_all2 by lia.
  by rewrite app_nil_r.
Qed.

(** ** net.IP

    A [nil] address is the empty list. *)
Definition v4InV6Prefix : bytes := [0;0;0;0; 0;0;0;0; 0;0; 0xff;0xff].

Definition IP_To4 (ip : bytes) : option bytes :=
  if len ip =? 4 then Some ip
  else if (len ip =? 16) && bytesEqual (take 12 ip) v4InV6Prefix then Some (drop 12 ip)
  else None.

Definition IP_To16 (ip : bytes) : option bytes :=
  if len ip =? 4 then Some (v4InV6Prefix ++ ip)
  else if len ip =? 16 then Some ip
  else None.

(** [net.IPv4(a, b, c, d)] is the 16-byte form. *)
Definition net_IPv4 (a b c d : Z) : bytes := v4InV6Prefix ++ [a; b; c; d].

(** [ip.Equal(x)]: an IPv4 address and its IPv6 form are equal. *)
Definition IP_Equal (ip x : bytes) : bool :=
  if len ip =? len x then bytesEqual ip x
  else if (len ip =? 4) && (len x =? 16) then
    bytesEqual (take 12 x) v4InV6Prefix && bytesEqual ip (drop 12 x)
  else if (len ip =? 16) && (len x =? 4) then
    bytesEqual (take 12 ip) v4InV6Prefix && bytesEqual (drop 12 ip) x
  else false.

Lemma IP_To4_len ip v : IP_To4 ip = Some v -> len v = 4.
Proof.
  unfold IP_To4. intros H. repeat case_match; simplify_eq; [lia|].
  unfold len in *. rewrite length_drop. lia.
Qed.
Lemma IP_To4_idem ip v : IP_To4 ip = Some v -> IP_To4 v = Some v.
Proof. intros H%IP_To4_len. unfold IP_To4. by rewrite H. Qed.
Lemma IP_To16_len ip v : IP_To16 ip = Some v -> len v = 16.
Proof.
  unfold IP_To16. intros H. repeat case_match; simplify_eq; [|lia].
  rewrite len_app. unfold v4InV6Prefix. len_lia.
Qed.
Lemma IP_To4_ok ip v : bytes_ok ip -> IP_To4 ip = Some v -> bytes_ok v.
Proof. unfold IP_To4. intros. repeat case_match; simplify_eq; auto with gobytes. Qed.
Lemma IP_To16_ok ip v : bytes_ok ip -> IP_To16 ip = Some v -> bytes_ok v.
Proof.
  unfold IP_To16. intros. repeat case_match; simplify_eq; auto with gobytes.
  apply bytes_ok_app_2; [by_decide|done].
Qed.

(** ** A concrete instance

    The checksum of the data stands for the hash; encryption adds one to every
    byte modulo 256; the AEAD appends a checksum of the nonce, the plaintext
    and the associated data. *)
Definition toy_sum (d : bytes) : Z := to_u8 (foldr Z.add 0 d).
Definition toy_tag (n : Z) (d : bytes) : bytes := replicate (Z.to_nat n) (toy_sum d).

#[export] Instance toy_crypto : Crypto := {|
  sha1_Sum d := toy_tag 20 d;
  hmac_Sum h k d := toy_tag (hash_size h) (k ++ d);
  cbc_CryptBlocks_enc k iv p := (fun b => to_u8 (b + 1)) <$> p;
  cbc_CryptBlocks_dec k iv c := (fun b => to_u8 (b + 255)) <$> c;
  gcm_Seal k t n p a := p ++ toy_tag t (k ++ n ++ p ++ a);
  gcm_Open k t n c a :=
    let p := take (Z.to_nat (len c - t)) c in
    if t <? 0 then Some c
    else if (t <=? len c) &&
            bytesEqual (drop (Z.to_nat (len c - t)) c) (toy_tag t (k ++ n ++ p ++ a))
    then Some p else None
|}.

Lemma toy_tag_len n d : 0 <= n -> len (toy_tag n d) = n.
Proof. intros. unfold toy_tag. rewrite len_replicate. lia. Qed.
Lemma toy_tag_ok n d : bytes_ok (toy_tag n d).
Proof. apply bytes_ok_replicate, to_u8_range. Qed.
Lemma toy_shift_ok k (p : bytes) : bytes_ok ((fun b => to_u8 (b + k)) <$> p).
Proof. apply Forall_fmap, Forall_true. intros b. apply to_u8_range. Qed.
Lemma toy_shift_inv (p : bytes) :
  bytes_ok p -> (fun b => to_u8 (b + 255)) <$> ((fun b => to_u8 (b + 1)) <$> p) = p.
Proof.
  induction 1 as [|b p Hb _ IH]; [done|]. cbn. rewrite IH. f_equal.
  unfold to_u8. rewrite Zplus_mod_idemp_l, <- Z.add_assoc, (Z.add_mod b), Z.mod_same by lia.
  rewrite Z.add_0_r, Z.mod_mod by lia. by apply Z.mod_small.
Qed.
Lemma take_drop_tag (p q : bytes) t :
  0 <= t -> len q = t ->
  take (Z.to_nat (len (p ++ q) - t)) (p ++ q) = p /\ drop (Z.to_nat (len (p ++ q) - t)) (p ++ q) = q.
Proof.
  intros Ht Hq. replace (Z.to_nat _) with (length p) by (rewrite len_app; unfold len in *; lia).
  by rewrite take_app_length, drop_app_length.
Qed.

#[export] Instance toy_crypto_laws : CryptoLaws toy_crypto.
Proof.
  constructor; cbn; intros.
  - by apply toy_tag_len.
  - apply toy_tag_ok.
  - apply toy_tag_len. by destruct h.
  - apply toy_tag_ok.
  - apply len_fmap.
  - apply len_fmap.
  - apply toy_shift_ok.
  - apply toy_shift_ok.
  - by apply toy_shift_inv.
  - rewrite len_app, toy_tag_len; lia.
  - apply bytes_ok_app_2; [done|apply toy_tag_ok].
  - destruct (t <? 0) eqn:Ht.
    { replace (toy_tag t _) with (@nil Z); [by rewrite app_nil_r|].
      unfold toy_tag. by replace (Z.to_nat t) with 0%nat by lia. }
    set (q := toy_tag t (k ++ n ++ p ++ a)).
    destruct (take_drop_tag p q t) as [-> ->]; [lia|apply toy_tag_len; lia|].
    replace (t <=? _) with true by (rewrite len_app; unfold q; rewrite toy_tag_len by lia; len_lia).
    unfold bytesEqual. by rewrite bool_decide_eq_true_2.
  - repeat case_match; simplify_eq; [lia|].
    unfold len in *. rewrite length_take. lia.
  - repeat case_match; simplify_eq; auto with gobytes.
Qed.
