(* ===== verification/Types.v ===== *)
(** * IKEv2 header, payload chain and message (engine/swu/ikev2/types.go) *)
From S2P Require Import Prelude Errors.

Definition PayloadNoNext := 0.
Definition PayloadSA := 33.
Definition PayloadKE := 34.
Definition PayloadIDi := 35.
Definition PayloadIDr := 36.
Definition PayloadAUTH := 39.
Definition PayloadNonce := 40.
Definition PayloadNotify := 41.
Definition PayloadDelete := 42.
Definition PayloadTSi := 44.
Definition PayloadTSr := 45.
Definition PayloadSK := 46.
Definition PayloadCP := 47.
Definition PayloadEAP := 48.
Definition PayloadSKF := 53.

Definition ExchangeIKE_SA_INIT := 34.
Definition ExchangeIKE_AUTH := 35.
Definition ExchangeCREATE_CHILD_SA := 36.
Definition ExchangeINFORMATIONAL := 37.

Definition FlagInitiator := 0x08.
Definition FlagVersion := 0x10.
Definition FlagResponse := 0x20.

Definition HeaderLength := 28.

#[export] Hint Unfold PayloadNoNext PayloadSA PayloadKE PayloadIDi PayloadIDr PayloadAUTH
  PayloadNonce PayloadNotify PayloadDelete PayloadTSi PayloadTSr PayloadSK PayloadCP PayloadEAP
  PayloadSKF HeaderLength : goconst.

Record Header := mkHeader {
  h_InitiatorSPI : Z;
  h_ResponderSPI : Z;
  h_NextPayload : Z;
  h_Version : Z;
  h_ExchangeType : Z;
  h_Flags : Z;
  h_MessageID : Z;
  h_Length : Z
}.

(** The value ranges of the struct's Go types. *)
Definition Header_ok (h : Header) : Prop :=
  is_u64 (h_InitiatorSPI h) /\ is_u64 (h_ResponderSPI h) /\ is_u8 (h_NextPayload h) /\
  is_u8 (h_Version h) /\ is_u8 (h_ExchangeType h) /\ is_u8 (h_Flags h) /\
  is_u32 (h_MessageID h) /\ is_u32 (h_Length h).

Definition Header_MarshalBinary (h : Header) : result bytes :=
  let version := if h_Version h =? 0 then 0x20 else h_Version h in
  let length := if h_Length h =? 0 then HeaderLength else h_Length h in
  if length <? HeaderLength then Errorf ErrInvalidLength else
  Ok (be_bytes 8 (h_InitiatorSPI h) ++ be_bytes 8 (h_ResponderSPI h) ++
      [h_NextPayload h; version; h_ExchangeType h; h_Flags h] ++
      be_bytes 4 (h_MessageID h) ++ be_bytes 4 length).

Definition ParseHeader (data : bytes) : result Header :=
  if len data <? HeaderLength then Errorf ErrShortHeader else
  let! ispi := u64_at data 0 8 in
  let! rspi := u64_at data 8 16 in
  let! next := at_ data 16 in
  let! version := at_ data 17 in
  let! exchange := at_ data 18 in
  let! flags := at_ data 19 in
  let! mid := u32_at data 20 24 in
  let! length := u32_at data 24 28 in
  if length <? HeaderLength then Errorf ErrInvalidLength else
  if len data <? length then Errorf ErrInvalidLength else
  Ok (mkHeader ispi rspi next version exchange flags mid length).

Record Payload := mkPayload {
  p_Type : Z;
  p_NextPayload : Z;
  p_Critical : bool;
  p_Body : bytes
}.

#[export] Instance Header_eq_dec : EqDecision Header.
Proof. solve_decision. Defined.
#[export] Instance Payload_eq_dec : EqDecision Payload.
Proof. solve_decision. Defined.

Definition Payload_ok (p : Payload) : Prop :=
  is_u8 (p_Type p) /\ is_u8 (p_NextPayload p) /\ bytes_ok (p_Body p).

Definition isEncryptedPayload (t : Z) : bool := (t =? PayloadSK) || (t =? PayloadSKF).

(** The loop body of [MarshalPayloads] for the payload [p] followed by [rest]. *)
Fixpoint marshal_payloads_loop (payloads : list Payload) (data : bytes) : result bytes :=
  match payloads with
  | [] => Ok data
  | p :: rest =>
      let! next :=
        (if isEncryptedPayload (p_Type p) then
           if 0 <? len rest then Errorf ErrInvalidLength else
           Ok (if negb (p_NextPayload p =? PayloadNoNext) then p_NextPayload p
               else PayloadNoNext)
         else match rest with
              | q :: _ => Ok (p_Type q)
              | [] => Ok PayloadNoNext
              end) in
      if 0xffff <? len (p_Body p) + 4 then Errorf ErrInvalidLength else
      let flags := if p_Critical p then 0x80 else 0 in
      let hdr := [next; flags] ++ be_bytes 2 (to_u16 (len (p_Body p) + 4)) in
      marshal_payloads_loop rest (data ++ hdr ++ p_Body p)
  end.

Definition MarshalPayloads (payloads : list Payload) : result (Z * bytes) :=
  match payloads with
  | [] => Ok (PayloadNoNext, [])
  | p :: _ =>
      let! data := marshal_payloads_loop payloads [] in
      Ok (p_Type p, data)
  end.

(** The loop of [ParsePayloads]: [next] and [rest] are its variables. *)
Fixpoint parse_payloads_loop (fuel : nat) (next : Z) (rest : bytes) (out : list Payload)
  : result (list Payload) :=
  match fuel with
  | O => OutOfFuel
  | S fuel' =>
      if next =? PayloadNoNext then
        if negb (len rest =? 0) then Errorf ErrInvalidLength else Ok out
      else
        if len rest <? 4 then Errorf ErrShortPayload else
        let! length := u16_at rest 2 4 in
        if (length <? 4) || (len rest <? length) then Errorf ErrInvalidLength else
        let current := next in
        let! r0 := at_ rest 0 in
        let next := if isEncryptedPayload current then PayloadNoNext else r0 in
        let! r1 := at_ rest 1 in
        let! body := slice rest 4 length in
        let out := out ++ [mkPayload current r0 (negb (Z.land r1 0x80 =? 0)) body] in
        let! rest := slice_from rest length in
        parse_payloads_loop fuel' next rest out
  end.

Definition ParsePayloads (first : Z) (data : bytes) : result (list Payload) :=
  parse_payloads_loop (S (length data)) first data [].

Record Message := mkMessage {
  m_Header : Header;
  m_Payloads : list Payload
}.

Definition Message_MarshalBinary (m : Message) : result bytes :=
  let! fp := MarshalPayloads (m_Payloads m) in
  let '(first, payloadBytes) := fp in
  let h := m_Header m in
  let h := mkHeader (h_InitiatorSPI h) (h_ResponderSPI h) first (h_Version h)
             (h_ExchangeType h) (h_Flags h) (h_MessageID h)
             (to_u32 (HeaderLength + len payloadBytes)) in
  let! headerBytes := Header_MarshalBinary h in
  Ok (headerBytes ++ payloadBytes).

Definition ParseMessage (data : bytes) : result Message :=
  let! h := ParseHeader data in
  let! body := slice data HeaderLength (h_Length h) in
  let! payloads := ParsePayloads (h_NextPayload h) body in
  Ok (mkMessage h payloads).

(** ** The encoding the loop writes

    [enc_payloads] is the byte string of a chain, [payloads_valid] the
    condition under which it is written, [link_next] the chain as a receiver
    sees it: the next-payload octets are filled in. *)
Definition next_of (p : Payload) (rest : list Payload) : Z :=
  if isEncryptedPayload (p_Type p) then p_NextPayload p
  else match rest with q :: _ => p_Type q | [] => PayloadNoNext end.

Definition enc_payload (next : Z) (p : Payload) : bytes :=
  [next; if p_Critical p then 0x80 else 0] ++ be_bytes 2 (len (p_Body p) + 4) ++ p_Body p.

Fixpoint enc_payloads (ps : list Payload) : bytes :=
  match ps with
  | [] => []
  | p :: rest => enc_payload (next_of p rest) p ++ enc_payloads rest
  end.

Fixpoint payloads_valid (ps : list Payload) : bool :=
  match ps with
  | [] => true
  | p :: rest =>
      negb (isEncryptedPayload (p_Type p) && (0 <? len rest)) &&
      (len (p_Body p) + 4 <=? 0xffff) && payloads_valid rest
  end.

Fixpoint link_next (ps : list Payload) : list Payload :=
  match ps with
  | [] => []
  | p :: rest =>
      mkPayload (p_Type p) (next_of p rest) (p_Critical p) (p_Body p) :: link_next rest
  end.

Definition first_of (ps : list Payload) : Z :=
  match ps with [] => PayloadNoNext | p :: _ => p_Type p end.

Definition chain_ok (ps : list Payload) : Prop :=
  Forall (fun p => Payload_ok p /\ p_Type p <> PayloadNoNext) ps.

#[export] Instance Payload_ok_dec p : Decision (Payload_ok p).
Proof. unfold Payload_ok. apply _. Defined.
#[export] Instance chain_ok_dec ps : Decision (chain_ok ps).
Proof. unfold chain_ok. apply _. Defined.
#[export] Instance Header_ok_dec h : Decision (Header_ok h).
Proof. unfold Header_ok. apply _. Defined.

Lemma marshal_payloads_loop_eq ps acc :
  marshal_payloads_loop ps acc =
  if payloads_valid ps then Ok (acc ++ enc_payloads ps) else Errorf ErrInvalidLength.
Proof.
  revert acc. induction ps as [|p rest IH]; intros acc; [by rewrite app_nil_r|].
  simpl. pose proof (len_nonneg (p_Body p)) as Hb.
  destruct (isEncryptedPayload (p_Type p)) eqn:He; simpl.
  - destruct (0 <? len rest) eqn:Hr; [done|]. simpl.
    destruct (len (p_Body p) + 4 <=? 65535) eqn:Hl; simpl;
      [|by replace (65535 <? len (p_Body p) + 4) with true by lia].
    replace (65535 <? len (p_Body p) + 4) with false by lia.
    rewrite IH. destruct (payloads_valid rest); [|done].
    unfold to_u16. rewrite Z.mod_small by lia.
    rewrite <- !app_assoc. unfold enc_payload, next_of. rewrite He.
    do 3 f_equal. destruct (p_NextPayload p =? PayloadNoNext) eqn:Hn; [|done].
    apply Z.eqb_eq in Hn. by rewrite Hn.
  - assert (Hif : (match rest with q :: _ => Ok (p_Type q) | [] => Ok PayloadNoNext end)
      = Ok (E := error) (next_of p rest)).
    { unfold next_of. rewrite He. by destruct rest. }
    rewrite Hif. simpl. destruct (len (p_Body p) + 4 <=? 65535) eqn:Hl; simpl;
      [|by replace (65535 <? len (p_Body p) + 4) with true by lia].
    replace (65535 <? len (p_Body p) + 4) with false by lia.
    rewrite IH. destruct (payloads_valid rest); [|done].
    unfold to_u16. rewrite Z.mod_small by lia.
    by rewrite <- !app_assoc.
Qed.

Lemma MarshalPayloads_eq ps :
  MarshalPayloads ps =
  if payloads_valid ps then Ok (first_of ps, enc_payloads ps) else Errorf ErrInvalidLength.
Proof.
  destruct ps as [|p rest]; [done|]. unfold MarshalPayloads.
  rewrite marshal_payloads_loop_eq. by destruct (payloads_valid _).
Qed.

Lemma len_enc_payload next p : len (enc_payload next p) = 4 + len (p_Body p).
Proof. unfold enc_payload. len_lia. Qed.

Lemma length_enc_payloads ps : (length ps <= length (enc_payloads ps))%nat.
Proof.
  induction ps as [|p rest IH]; cbn [enc_payloads length]; [lia|].
  pose proof (len_enc_payload (next_of p rest) p). unfold len in *.
  rewrite length_app. lia.
Qed.

Lemma bytes_ok_enc_payloads ps : chain_ok ps -> bytes_ok (enc_payloads ps).
Proof.
  induction ps as [|p rest IH]; intros H; cbn [enc_payloads]; [by constructor|].
  apply Forall_cons in H as [[(Ht & Hn & Hb) _] Hrest].
  apply bytes_ok_app_2; [|by apply IH].
  unfold enc_payload. apply bytes_ok_cons_2; [|apply bytes_ok_cons_2].
  - unfold next_of. destruct (isEncryptedPayload _); [done|]. destruct rest as [|q ?]; [done|].
    by apply Forall_cons in Hrest as [[(? & _) _] _].
  - by destruct (p_Critical p).
  - auto with gobytes.
Qed.

(** One turn of the parser's loop on a chain the marshaller wrote. *)
Lemma parse_payloads_loop_enc fuel ps out :
  (length ps < fuel)%nat -> payloads_valid ps = true ->
  Forall (fun p => p_Type p <> PayloadNoNext) ps ->
  parse_payloads_loop fuel (first_of ps) (enc_payloads ps) out = Ok (out ++ link_next ps).
Proof.
  revert fuel out. induction ps as [|p rest IH]; intros fuel out Hf Hv Ht.
  - destruct fuel; [simpl in Hf; lia|]. simpl. by rewrite app_nil_r.
  - destruct fuel as [|fuel]; [simpl in Hf; lia|]. simpl in Hf.
    simpl in Hv. apply andb_true_iff in Hv as [Hv Hvr]. apply andb_true_iff in Hv as [He Hl].
    apply Forall_cons in Ht as [Hp Ht]. simpl.
    replace (p_Type p =? PayloadNoNext) with false by (symmetry; by apply Z.eqb_neq).
    set (flag := if p_Critical p then 0x80 else 0). set (nx := next_of p rest).
    set (b := p_Body p) in *. set (tl := enc_payloads rest).
    change (enc_payload nx p ++ tl) with ([nx; flag] ++ (be_bytes 2 (len b + 4) ++ b) ++ tl).
    go_if. rewrite (u16_at_eq _ [nx; flag] (b ++ tl) (len b + 4)) by (rewrite <- ?app_assoc; len_lia || done).
    cbn [bind]. go_if.
    rewrite (slice_eq _ ([nx; flag] ++ be_bytes 2 (len b + 4)) b tl)
      by (rewrite <- ?app_assoc; len_lia || done).
    cbn [bind].
    rewrite (slice_from_eq _ ([nx; flag] ++ be_bytes 2 (len b + 4) ++ b) tl)
      by (rewrite <- ?app_assoc; len_lia || done).
    cbn [bind].
    assert (Hnext : (if isEncryptedPayload (p_Type p) then PayloadNoNext else nx) = first_of rest).
    { subst nx. unfold next_of. destruct (isEncryptedPayload (p_Type p)); simpl in He.
      - destruct rest; [done|]. rewrite len_cons in He. len_facts. lia.
      - by destruct rest. }
    rewrite Hnext, IH by (done || lia).
    rewrite <- app_assoc. do 3 f_equal. unfold flag. by destruct (p_Critical p).
Qed.

(** ** Headers *)
Definition header_normal (h : Header) : Header :=
  mkHeader (h_InitiatorSPI h) (h_ResponderSPI h) (h_NextPayload h)
    (if h_Version h =? 0 then 0x20 else h_Version h) (h_ExchangeType h) (h_Flags h)
    (h_MessageID h) (if h_Length h =? 0 then HeaderLength else h_Length h).

Lemma Header_MarshalBinary_len h b :
  Header_MarshalBinary h = Ok b -> len b = HeaderLength.
Proof.
  unfold Header_MarshalBinary. intros H. repeat case_match; simplify_eq; len_lia.
Qed.

Lemma ParseHeader_marshal h b q :
  Header_ok h -> Header_MarshalBinary h = Ok b ->
  h_Length (header_normal h) <= HeaderLength + len q ->
  ParseHeader (b ++ q) = Ok (header_normal h).
Proof.
  intros (Hi & Hr & Hn & Hv & He & Hf & Hm & Hl) Hb Hq.
  unfold Header_MarshalBinary in Hb. unfold header_normal in *. cbn [h_Length] in Hq.
  set (version := if h_Version h =? 0 then 32 else h_Version h) in *.
  set (length := if h_Length h =? 0 then HeaderLength else h_Length h) in *.
  assert (is_u32 length) by (unfold length, HeaderLength; destruct (h_Length h =? 0); len_lia).
  destruct (length <? HeaderLength) eqn:Hlen; simplify_eq.
  unfold ParseHeader. set (I := be_bytes 8 _). set (R := be_bytes 8 _).
  set (M := be_bytes 4 (h_MessageID h)). set (L := be_bytes 4 length).
  assert (len I = 8 /\ len R = 8 /\ len M = 4 /\ len L = 4) as (? & ? & ? & ?)
    by (subst I R M L; rewrite !len_be_bytes; done).
  rewrite <- !app_assoc. set (d := I ++ _).
  assert (Hd : len d = 28 + len q) by (subst d; len_lia).
  unfold HeaderLength in *. go_if.
  rewrite (u64_at_eq d [] _ (h_InitiatorSPI h)) by done. cbn [bind].
  rewrite (u64_at_eq d I _ (h_ResponderSPI h)) by (done || len_lia). cbn [bind].
  rewrite (at_Ok d 16 (h_NextPayload h)) by (done || subst d I R; reflexivity). cbn [bind].
  rewrite (at_Ok d 17 version) by (done || subst d I R; reflexivity). cbn [bind].
  rewrite (at_Ok d 18 (h_ExchangeType h)) by (done || subst d I R; reflexivity). cbn [bind].
  rewrite (at_Ok d 19 (h_Flags h)) by (done || subst d I R; reflexivity). cbn [bind].
  rewrite (u32_at_eq d (I ++ R ++ [h_NextPayload h; version; h_ExchangeType h; h_Flags h])
    (L ++ q) (h_MessageID h)) by (rewrite <- ?app_assoc; done || len_lia). cbn [bind].
  rewrite (u32_at_eq d (I ++ R ++ [h_NextPayload h; version; h_ExchangeType h; h_Flags h] ++ M)
    q length) by (rewrite <- ?app_assoc; done || len_lia). cbn [bind].
  rewrite Hlen. by go_if.
Qed.

Lemma ParseHeader_safe data :
  bytes_ok data ->
  safe (ParseHeader data) (fun h => Header_ok h /\ HeaderLength <= h_Length h <= len data).
Proof.
  intros Hd. unfold ParseHeader, HeaderLength. go_safe.
  split; [|cbn; lia]. unfold Header_ok. cbn. split_and!; done.
Qed.

(** ** The parser's loop: progress, results and well-formedness *)
Definition chain_state_ok (first : Z) (data : bytes) (ps : list Payload) : Prop :=
  chain_ok ps /\ first_of ps = first /\ link_next ps = ps /\ payloads_valid ps = true /\
  len (enc_payloads ps) = len data.

Lemma parse_payloads_loop_safe fuel next rest out :
  bytes_ok rest -> is_u8 next -> (length rest < fuel)%nat ->
  safe (parse_payloads_loop fuel next rest out)
    (fun r => exists ps, r = out ++ ps /\ chain_state_ok next rest ps).
Proof.
  revert next rest out. induction fuel as [|fuel IH]; intros next rest out Hr Hn Hf; [lia|].
  cbn [parse_payloads_loop].
  destruct (next =? PayloadNoNext) eqn:Hz.
  - destruct (len rest =? 0) eqn:Hl; [|exact I]. exists []. rewrite app_nil_r.
    apply Z.eqb_eq in Hz. apply Z.eqb_eq in Hl. unfold chain_state_ok. simpl.
    split_and!; done || constructor.
  - go_safe. eapply safe_mono.
    { apply IH; [done | by destruct (isEncryptedPayload next) |].
      unfold len in *. lia. }
    intros r (ps & -> & Hok & Hfirst & Hlink & Hvalid & Hlen).
    rewrite <- app_assoc. eexists (_ :: ps). split; [reflexivity|].
    assert (Hnx : next_of (mkPayload next b (negb (Z.land b0 128 =? 0)) s) ps = b).
    { unfold next_of. cbn. destruct (isEncryptedPayload next); [done|].
      rewrite <- Hfirst. by destruct ps. }
    unfold chain_state_ok. cbn [link_next payloads_valid enc_payloads p_Body p_Type]. split_and!.
    + apply Forall_cons. split; [|done]. split; [|by apply Z.eqb_neq].
      unfold Payload_ok. by cbn.
    + done.
    + rewrite Hnx, Hlink. done.
    + rewrite Hvalid. destruct (isEncryptedPayload next) eqn:He.
      * destruct ps; [|cbn in Hfirst; apply Forall_cons in Hok as [[_ ?] _]; done].
        simpl. len_lia.
      * simpl. len_lia.
    + rewrite len_app, len_enc_payload, Hlen. cbn [p_Body]. len_lia.
Qed.

Lemma ParsePayloads_safe first data :
  bytes_ok data -> is_u8 first ->
  safe (ParsePayloads first data) (chain_state_ok first data).
Proof.
  intros. eapply safe_mono; [apply parse_payloads_loop_safe; auto; lia|].
  by intros r (ps & -> & ?).
Qed.

Lemma ParsePayloads_enc ps :
  payloads_valid ps = true -> chain_ok ps ->
  ParsePayloads (first_of ps) (enc_payloads ps) = Ok (link_next ps).
Proof.
  intros Hv Hok. apply (parse_payloads_loop_enc _ _ []); [|done|].
  - pose proof (length_enc_payloads ps). lia.
  - eapply Forall_impl; [exact Hok|]. by intros p [_ ?].
Qed.

(** ** Messages *)
Lemma Message_MarshalBinary_len m raw :
  Message_MarshalBinary m = Ok raw ->
  payloads_valid (m_Payloads m) = true /\ len raw = HeaderLength + len (enc_payloads (m_Payloads m)).
Proof.
  unfold Message_MarshalBinary. rewrite MarshalPayloads_eq.
  destruct (payloads_valid _) eqn:Hv; [|done]. cbn [bind].
  intros (hb & Hb & Hraw)%bind_ok. injection Hraw as <-.
  apply Header_MarshalBinary_len in Hb. split; [done|]. len_lia.
Qed.

Definition message_normal (m : Message) : Message :=
  let h := m_Header m in
  mkMessage
    (mkHeader (h_InitiatorSPI h) (h_ResponderSPI h) (first_of (m_Payloads m))
       (if h_Version h =? 0 then 0x20 else h_Version h) (h_ExchangeType h) (h_Flags h)
       (h_MessageID h) (HeaderLength + len (enc_payloads (m_Payloads m))))
    (link_next (m_Payloads m)).

Definition Message_ok (m : Message) : Prop := Header_ok (m_Header m) /\ chain_ok (m_Payloads m).
#[export] Instance Message_ok_dec m : Decision (Message_ok m).
Proof. unfold Message_ok. apply _. Defined.

Lemma first_of_ok ps : chain_ok ps -> is_u8 (first_of ps).
Proof. destruct 1 as [|p ps [(? & _) _] _]; done. Qed.

Lemma ParseMessage_marshal m raw :
  Message_ok m -> Message_MarshalBinary m = Ok raw -> len raw < 4294967296 ->
  ParseMessage raw = Ok (message_normal m).
Proof.
  intros [Hh Hc] Hm Hlen. pose proof (Message_MarshalBinary_len _ _ Hm) as [Hv Hl].
  revert Hm. unfold Message_MarshalBinary. rewrite MarshalPayloads_eq, Hv. cbn [bind].
  intros (hb & Hb & Hraw)%bind_ok. injection Hraw as <-.
  set (body := enc_payloads (m_Payloads m)) in *.
  assert (Hsz : to_u32 (HeaderLength + len body) = HeaderLength + len body).
  { unfold to_u32. apply Z.mod_small. rewrite Hl in Hlen. len_lia. }
  rewrite Hsz in Hb.
  assert (HL : HeaderLength + len body <> 0) by len_lia. apply Z.eqb_neq in HL.
  assert (Hbl : len hb = HeaderLength) by (by eapply Header_MarshalBinary_len).
  unfold ParseMessage. erewrite ParseHeader_marshal; [| |exact Hb|].
  - cbn [bind header_normal h_Length h_NextPayload h_InitiatorSPI h_ResponderSPI h_Version
      h_ExchangeType h_Flags h_MessageID]. rewrite HL.
    rewrite (slice_eq _ hb body [])
      by (rewrite ?app_nil_r; done || len_lia).
    cbn [bind]. unfold body. rewrite ParsePayloads_enc by done.
    unfold header_normal, message_normal. cbn. fold body. by rewrite HL.
  - destruct Hh as (? & ? & ? & ? & ? & ? & ? & ?). unfold Header_ok. cbn.
    split_and!; try done; [by apply first_of_ok|]. rewrite Hl in Hlen. len_lia.
  - cbn. rewrite HL. len_lia.
Qed.

Lemma ParseMessage_safe raw :
  bytes_ok raw ->
  safe (ParseMessage raw) (fun m => Message_ok m /\ HeaderLength <= h_Length (m_Header m) <= len raw /\
    chain_state_ok (h_NextPayload (m_Header m))
      (sub raw HeaderLength (h_Length (m_Header m))) (m_Payloads m)).
Proof.
  intros Hraw. unfold ParseMessage. eapply safe_call; [by apply ParseHeader_safe|].
  intros h [Hh Hl]. apply safe_bind, safe_slice_ok; [done|len_lia|lia|].
  intros s -> Hs Hok. eapply safe_call; [apply ParsePayloads_safe; [done|]|].
  { by destruct Hh as (_ & _ & ? & _). }
  intros ps Hps. cbn. split_and!; [split; [done|apply Hps]|lia|lia|done].
Qed.

(** ** Properties *)

(** A payload chain survives the wire: whatever [MarshalPayloads] writes,
    [ParsePayloads] reads back, with the next-payload octets filled in. *)
Theorem payload_chain_roundtrip ps first data :
  chain_ok ps -> MarshalPayloads ps = Ok (first, data) ->
  ParsePayloads first data = Ok (link_next ps).
Proof.
  intros Hok. rewrite MarshalPayloads_eq. destruct (payloads_valid ps) eqn:Hv; [|done].
  intros [= <- <-]. by apply ParsePayloads_enc.
Qed.

Definition sample_chain : list Payload :=
  [mkPayload PayloadNonce 0 false [1; 2; 3]; mkPayload PayloadNotify 0 true [0; 0; 64; 14];
   mkPayload PayloadSK PayloadAUTH false [9; 9]].

(** [ParsePayloads] is total on every received byte string: it neither
    indexes out of range nor loops, and the chain it accepts is a normal form:
    marshalling it again gives a string of the same length that parses to the
    same chain. *)
Theorem ParsePayloads_total first data :
  bytes_ok data -> is_u8 first ->
  returns (ParsePayloads first data) /\
  forall ps, ParsePayloads first data = Ok ps ->
    exists data', MarshalPayloads ps = Ok (first, data') /\ len data' = len data /\
      ParsePayloads first data' = Ok ps.
Proof.
  intros Hd Hf. pose proof (ParsePayloads_safe first data Hd Hf) as Hs. split.
  - by eapply safe_returns.
  - intros ps Hps. rewrite Hps in Hs. destruct Hs as (Hok & <- & Hl & Hv & Hlen).
    exists (enc_payloads ps). rewrite MarshalPayloads_eq, Hv. split_and!; [done..|].
    rewrite ParsePayloads_enc by done. by rewrite Hl.
Qed.

(** C12: an IKE message round-trips: what [Message.MarshalBinary] writes,
    [ParseMessage] reads back as the same message with the version default, the
    total length and the next-payload chain filled in. *)
Theorem message_roundtrip m raw :
  Message_ok m -> Message_MarshalBinary m = Ok raw -> len raw < 4294967296 ->
  ParseMessage raw = Ok (message_normal m).
Proof. apply ParseMessage_marshal. Qed.

Definition sample_message : Message :=
  mkMessage (mkHeader 0x1122334455667788 2 0 0 ExchangeIKE_SA_INIT FlagInitiator 7 0) sample_chain.

Lemma message_roundtrip_witness :
  exists raw, Message_MarshalBinary sample_message = Ok raw /\ len raw = 49 /\
    ParseMessage raw = Ok (message_normal sample_message).
Proof.
  eexists. split; [vm_compute; reflexivity|]. split; [reflexivity|].
  apply (message_roundtrip sample_message);
    [by_decide | reflexivity | reflexivity].
Defined.

(** [ParseMessage] never panics: for every datagram it returns an error, or
    a well-formed message whose header length lies within the datagram. *)
Theorem ParseMessage_total raw :
  bytes_ok raw ->
  returns (ParseMessage raw) /\
  forall m, ParseMessage raw = Ok m ->
    Message_ok m /\ HeaderLength <= h_Length (m_Header m) <= len raw /\
    link_next (m_Payloads m) = m_Payloads m /\
    first_of (m_Payloads m) = h_NextPayload (m_Header m) /\
    HeaderLength + len (enc_payloads (m_Payloads m)) = h_Length (m_Header m).
Proof.
  intros Hraw. split; [eapply safe_returns, ParseMessage_safe; done|].
  intros m Hm. pose proof (ParseMessage_safe raw Hraw) as Hs.
  rewrite Hm in Hs. destruct Hs as (Hok & Hl & _ & Hf & Hk & _ & Hlen).
  split_and!; try done; try lia. rewrite Hlen, sub_len by len_lia. lia.
Qed.

Lemma ParseMessage_total_witness : returns (ParseMessage (replicate 28 255)).
Proof. apply (ParseMessage_total (replicate 28 255)). apply bytes_ok_replicate. split; lia. Defined.
