(* ===== verification/Codec.v ===== *)
(** * The interface of a wire format

    Every payload body of the program has a marshaller and a parser.  [Codec]
    packages the two with the type invariant of the Go values, [CodecLaws] is
    what one component promises to the others: the parser is total on received
    bytes, yields well-formed values, and inverts the marshaller. *)
From S2P Require Import Prelude Errors Types.

Class Codec (A : Type) := {
  enc : A -> result bytes;
  dec : bytes -> result A;
  val_ok : A -> Prop
}.

Class CodecLaws (A : Type) `{C : Codec A} : Prop := {
  enc_bytes_ok a b : val_ok a -> enc a = Ok b -> bytes_ok b;
  dec_safe b : bytes_ok b -> safe (dec b) val_ok;
  dec_enc a b : val_ok a -> enc a = Ok b -> dec b = Ok a
}.

(** A format with one representation per value. *)
Class ExactCodec (A : Type) `{C : Codec A} : Prop := {
  exact_laws :: CodecLaws A;
  enc_dec a b : bytes_ok b -> dec b = Ok a -> enc a = Ok b
}.

Section codec.
Context {A : Type} `{CodecLaws A}.

Lemma enc_inj a a' b : val_ok a -> val_ok a' -> enc a = Ok b -> enc a' = Ok b -> a = a'.
Proof. intros Ha Ha' He He'. apply dec_enc in He, He'; try done. congruence. Qed.

Lemma dec_returns b : bytes_ok b -> returns (dec b).
Proof. intros. by eapply safe_returns, dec_safe. Qed.

(** [XPayload(x)]: the body of a payload of type [t]. *)
Definition wrap (t : Z) (a : A) : result Payload :=
  let! body := enc a in Ok (mkPayload t 0 false body).

Lemma wrap_dec t a p : val_ok a -> wrap t a = Ok p -> p_Type p = t /\ dec (p_Body p) = Ok a.
Proof.
  intros Ha (b & Hb & [= <-])%bind_ok. split; [done|]. by apply dec_enc.
Qed.

Lemma wrap_ok t a p : is_u8 t -> val_ok a -> wrap t a = Ok p -> Payload_ok p.
Proof.
  intros Ht Ha (b & Hb & [= <-])%bind_ok. split_and!; [done..|]. by eapply enc_bytes_ok.
Qed.
End codec.
