(* ===== verification/Notify.v ===== *)
(** * IKEv2 notify, delete, key-exchange and NAT payloads (engine/swu/ikev2/payloads.go)

    The record [Notify] itself is declared in [Errors], because the error value
    [NotifyError] carries one. *)
From S2P Require Import Prelude Errors Crypto Types Codec.
From stdpp Require Import pretty.
#[local] Open Scope Z_scope.

Definition ProtocolIKE := 1.
Definition ProtocolAH := 2.
Definition ProtocolESP := 3.

Definition NotifyUnsupportedCriticalPayload := 1.
Definition NotifyInvalidIKESPI := 4.
Definition NotifyInvalidMajorVersion := 5.
Definition NotifyInvalidSyntax := 7.
Definition NotifyInvalidMessageID := 9.
Definition NotifyInvalidSPI := 11.
Definition NotifyNoProposalChosen := 14.
Definition NotifyInvalidKEPayload := 17.
Definition NotifyAuthenticationFailed := 24.
Definition NotifySinglePairRequired := 34.
Definition NotifyNoAdditionalSAs := 35.
Definition NotifyInternalAddressFailure := 36.
Definition NotifyFailedCPRequired := 37.
Definition NotifyTSUnacceptable := 38.
Definition NotifyInvalidSelectors := 39.
Definition NotifyUnacceptableAddresses := 40.
Definition NotifyUnexpectedNATDetected := 41.
Definition NotifyNATDetectionSourceIP := 16388.
Definition NotifyNATDetectionDestinationIP := 16389.
Definition NotifyCookie := 16390.
Definition NotifyRekeySA := 16393.
Definition NotifyMOBIKESupported := 16396.
Definition NotifyAdditionalIPv4Address := 16397.
Definition NotifyAdditionalIPv6Address := 16398.
Definition NotifyNoAdditionalAddresses := 16399.
Definition NotifyUpdateSAAddresses := 16400.
Definition NotifyCookie2 := 16401.
Definition NotifyNoNATsAllowed := 16402.

Definition MaxIKECookieLength := 64.
Definition DHGroup2048BitMODP := 14.
Definition DHGroup256BitECP := 19.
Definition DHGroup384BitECP := 20.
Definition DHGroup521BitECP := 21.
Definition DHGroupCurve25519 := 31.

#[export] Hint Unfold ProtocolIKE ProtocolAH ProtocolESP MaxIKECookieLength
  NotifyUnsupportedCriticalPayload NotifyInvalidIKESPI NotifyInvalidMajorVersion
  NotifyInvalidSyntax NotifyInvalidMessageID NotifyInvalidSPI NotifyNoProposalChosen
  NotifyInvalidKEPayload NotifyAuthenticationFailed NotifySinglePairRequired
  NotifyNoAdditionalSAs NotifyInternalAddressFailure NotifyFailedCPRequired
  NotifyTSUnacceptable NotifyInvalidSelectors NotifyUnacceptableAddresses
  NotifyUnexpectedNATDetected NotifyNATDetectionSourceIP NotifyNATDetectionDestinationIP
  NotifyCookie NotifyRekeySA NotifyMOBIKESupported NotifyAdditionalIPv4Address
  NotifyAdditionalIPv6Address NotifyNoAdditionalAddresses NotifyUpdateSAAddresses
  NotifyCookie2 NotifyNoNATsAllowed : goconst.

Definition Notify_ok (n : Notify) : Prop :=
  is_u8 (n_ProtocolID n) /\ is_u16 (n_NotifyType n) /\ bytes_ok (n_SPI n) /\
  bytes_ok (n_NotificationData n).
#[export] Instance Notify_ok_dec n : Decision (Notify_ok n).
Proof. unfold Notify_ok. apply _. Defined.

Definition emptyNotify : Notify := mkNotify 0 0 [] [].

Record InvalidSelectorReport := mkInvalidSelectorReport {
  isr_ProtocolID : Z;
  isr_SPI : bytes;
  isr_PacketPrefix : bytes
}.
#[export] Instance InvalidSelectorReport_eq_dec : EqDecision InvalidSelectorReport.
Proof. solve_decision. Defined.

(** Go's [(T, bool, error)]: the boolean is meaningful together with the error. *)
Definition Notify_InvalidKEPayloadAlternativeGroup (n : Notify) : Z * bool * option error :=
  if negb (n_NotifyType n =? NotifyInvalidKEPayload) then (0, false, None)
  else match n_NotificationData n with
       | [b0; b1] => (be_decode [b0; b1], true, None)
       | _ => (0, true, Some (Sentinel ErrInvalidNotify))
       end.

Definition InvalidKEPayloadAlternativeGroupFromError (err : option error) : Z * bool * option error :=
  match err with
  | None => (0, false, None)
  | Some e =>
      match errors_As_NotifyError e with
      | None => (0, false, None)
      | Some (n, _) => Notify_InvalidKEPayloadAlternativeGroup n
      end
  end.

Definition Notify_InvalidSelectorReport (n : Notify)
  : option InvalidSelectorReport * bool * option error :=
  if negb (n_NotifyType n =? NotifyInvalidSelectors) then (None, false, None)
  else if negb (n_ProtocolID n =? ProtocolAH) && negb (n_ProtocolID n =? ProtocolESP) then
    (None, true, Some (Sentinel ErrInvalidNotify))
  else if negb (len (n_SPI n) =? 4) then (None, true, Some (Sentinel ErrInvalidNotify))
  else if len (n_NotificationData n) =? 0 then (None, true, Some (Sentinel ErrInvalidNotify))
  else (Some (mkInvalidSelectorReport (n_ProtocolID n) (n_SPI n) (n_NotificationData n)), true, None).

Definition InvalidSelectorReportFromError (err : option error)
  : option InvalidSelectorReport * bool * option error :=
  match err with
  | None => (None, false, None)
  | Some e =>
      match errors_As_NotifyError e with
      | None => (None, false, None)
      | Some (n, _) => Notify_InvalidSelectorReport n
      end
  end.

Definition Notify_Cookie (n : Notify) : option bytes * bool * option error :=
  if negb (n_NotifyType n =? NotifyCookie) then (None, false, None)
  else if negb (len (n_SPI n) =? 0) then (None, true, Some (Sentinel ErrInvalidNotify))
  else if (len (n_NotificationData n) =? 0) || (MaxIKECookieLength <? len (n_NotificationData n))
  then (None, true, Some (Sentinel ErrInvalidNotify))
  else (Some (n_NotificationData n), true, None).

Definition Notify_MarshalBinary (n : Notify) : result bytes :=
  if 0xff <? len (n_SPI n) then Errorf ErrInvalidNotify else
  Ok ([n_ProtocolID n; to_u8 (len (n_SPI n))] ++ be_bytes 2 (n_NotifyType n) ++
      n_SPI n ++ n_NotificationData n).

Definition ParseNotify (data : bytes) : result Notify :=
  if len data <? 4 then Errorf ErrInvalidNotify else
  let! spiSize := at_ data 1 in
  if len data <? 4 + spiSize then Errorf ErrInvalidNotify else
  let! protocolID := at_ data 0 in
  let! notifyType := u16_at data 2 4 in
  let! spi := slice data 4 (4 + spiSize) in
  let! nd := slice_from data (4 + spiSize) in
  Ok (mkNotify protocolID notifyType spi nd).

Definition NotifyPayload (n : Notify) : result Payload :=
  let! body := Notify_MarshalBinary n in
  Ok (mkPayload PayloadNotify 0 false body).

Definition NotifyTypeName (notifyType : Z) : string :=
  if notifyType =? NotifyUnsupportedCriticalPayload then "UNSUPPORTED_CRITICAL_PAYLOAD"
  else if notifyType =? NotifyInvalidIKESPI then "INVALID_IKE_SPI"
  else if notifyType =? NotifyInvalidMajorVersion then "INVALID_MAJOR_VERSION"
  else if notifyType =? NotifyInvalidSyntax then "INVALID_SYNTAX"
  else if notifyType =? NotifyInvalidMessageID then "INVALID_MESSAGE_ID"
  else if notifyType =? NotifyInvalidSPI then "INVALID_SPI"
  else if notifyType =? NotifyNoProposalChosen then "NO_PROPOSAL_CHOSEN"
  else if notifyType =? NotifyInvalidKEPayload then "INVALID_KE_PAYLOAD"
  else if notifyType =? NotifyAuthenticationFailed then "AUTHENTICATION_FAILED"
  else if notifyType =? NotifySinglePairRequired then "SINGLE_PAIR_REQUIRED"
  else if notifyType =? NotifyNoAdditionalSAs then "NO_ADDITIONAL_SAS"
  else if notifyType =? NotifyInternalAddressFailure then "INTERNAL_ADDRESS_FAILURE"
  else if notifyType =? NotifyFailedCPRequired then "FAILED_CP_REQUIRED"
  else if notifyType =? NotifyTSUnacceptable then "TS_UNACCEPTABLE"
  else if notifyType =? NotifyInvalidSelectors then "INVALID_SELECTORS"
  else if notifyType =? NotifyUnacceptableAddresses then "UNACCEPTABLE_ADDRESSES"
  else if notifyType =? NotifyUnexpectedNATDetected then "UNEXPECTED_NAT_DETECTED"
  else if notifyType =? NotifyNATDetectionSourceIP then "NAT_DETECTION_SOURCE_IP"
  else if notifyType =? NotifyNATDetectionDestinationIP then "NAT_DETECTION_DESTINATION_IP"
  else if notifyType =? NotifyCookie then "COOKIE"
  else if notifyType =? NotifyRekeySA then "REKEY_SA"
  else if notifyType =? NotifyMOBIKESupported then "MOBIKE_SUPPORTED"
  else if notifyType =? NotifyAdditionalIPv4Address then "ADDITIONAL_IP4_ADDRESS"
  else if notifyType =? NotifyAdditionalIPv6Address then "ADDITIONAL_IP6_ADDRESS"
  else if notifyType =? NotifyNoAdditionalAddresses then "NO_ADDITIONAL_ADDRESSES"
  else if notifyType =? NotifyUpdateSAAddresses then "UPDATE_SA_ADDRESSES"
  else if notifyType =? NotifyCookie2 then "COOKIE2"
  else if notifyType =? NotifyNoNATsAllowed then "NO_NATS_ALLOWED"
  else ("notify " ++ pretty notifyType)%string.

(** The class of an error notification; [None] is Go's [nil]: a status type. *)
Definition notifyErrorClass (notifyType : Z) : option sentinel :=
  if notifyType =? NotifyUnsupportedCriticalPayload then Some ErrNotifyUnsupportedCriticalPayload
  else if notifyType =? NotifyInvalidIKESPI then Some ErrNotifyInvalidIKESPI
  else if notifyType =? NotifyInvalidMajorVersion then Some ErrNotifyInvalidMajorVersion
  else if notifyType =? NotifyInvalidSyntax then Some ErrNotifyInvalidSyntax
  else if notifyType =? NotifyInvalidMessageID then Some ErrNotifyInvalidMessageID
  else if notifyType =? NotifyInvalidSPI then Some ErrNotifyInvalidSPI
  else if notifyType =? NotifyNoProposalChosen then Some ErrNotifyNoProposalChosen
  else if notifyType =? NotifyInvalidKEPayload then Some ErrNotifyInvalidKEPayload
  else if notifyType =? NotifyAuthenticationFailed then Some ErrNotifyAuthenticationFailed
  else if notifyType =? NotifySinglePairRequired then Some ErrNotifySinglePairRequired
  else if notifyType =? NotifyNoAdditionalSAs then Some ErrNotifyNoAdditionalSAs
  else if notifyType =? NotifyInternalAddressFailure then Some ErrNotifyInternalAddressFailure
  else if notifyType =? NotifyFailedCPRequired then Some ErrNotifyFailedCPRequired
  else if notifyType =? NotifyTSUnacceptable then Some ErrNotifyTSUnacceptable
  else if notifyType =? NotifyInvalidSelectors then Some ErrNotifyInvalidSelectors
  else if notifyType =? NotifyUnacceptableAddresses then Some ErrNotifyUnacceptableAddresses
  else if notifyType =? NotifyUnexpectedNATDetected then Some ErrNotifyUnexpectedNATDetected
  else if notifyType <? 16384 then Some ErrIKEv2NotifyError
  else None.

Definition cloneNotify (n : Notify) : Notify :=
  mkNotify (n_ProtocolID n) (n_NotifyType n) (n_SPI n) (n_NotificationData n).

Definition NotifyErrorFor (n : Notify) : option error :=
  match notifyErrorClass (n_NotifyType n) with
  | None => None
  | Some err => Some (NotifyError (cloneNotify n) err)
  end.

(** [Ok tt] is a [nil] error. *)
Fixpoint FirstNotifyError (payloads : list Payload) : result unit :=
  match payloads with
  | [] => Ok tt
  | payload :: rest =>
      if negb (p_Type payload =? PayloadNotify) then FirstNotifyError rest else
      let! notify := ParseNotify (p_Body payload) in
      match NotifyErrorFor notify with
      | Some err => Err err
      | None => FirstNotifyError rest
      end
  end.

Fixpoint FirstNotify (payloads : list Payload) (notifyType : Z) : result (option Notify) :=
  match payloads with
  | [] => Ok None
  | payload :: rest =>
      if negb (p_Type payload =? PayloadNotify) then FirstNotify rest notifyType else
      let! notify := ParseNotify (p_Body payload) in
      if n_NotifyType notify =? notifyType then Ok (Some notify)
      else FirstNotify rest notifyType
  end.

(** ** Delete *)
Record Delete := mkDelete {
  d_ProtocolID : Z;
  d_SPIs : list bytes
}.
#[export] Instance Delete_eq_dec : EqDecision Delete.
Proof. solve_decision. Defined.

Definition validateDelete (d : Delete) : result unit :=
  if d_ProtocolID d =? ProtocolIKE then
    if negb (len (d_SPIs d) =? 0) then Errorf ErrInvalidDelete else Ok tt
  else if negb ((d_ProtocolID d =? ProtocolAH) || (d_ProtocolID d =? ProtocolESP)) then
    Errorf ErrInvalidDelete
  else match d_SPIs d with
  | [] => Errorf ErrInvalidDelete
  | spi0 :: _ =>
      if 0xffff <? len (d_SPIs d) then Errorf ErrInvalidDelete else
      let spiSize := len spi0 in
      if negb (spiSize =? 4) then Errorf ErrInvalidDelete else
      if forallb (fun spi => len spi =? spiSize) (d_SPIs d) then Ok tt
      else Errorf ErrInvalidDelete
  end.

Definition Delete_MarshalBinary (d : Delete) : result bytes :=
  let! _ := validateDelete d in
  let spiSize := match d_SPIs d with [] => 0 | spi0 :: _ => len spi0 end in
  Ok ([d_ProtocolID d; to_u8 spiSize] ++ be_bytes 2 (to_u16 (len (d_SPIs d))) ++ concat (d_SPIs d)).

(** [for i := 0; i < spiCount; i++ { ... }] *)
Fixpoint parse_delete_loop (n : nat) (spiSize : Z) (rest : bytes) (spis : list bytes)
  : result (list bytes) :=
  match n with
  | O => Ok spis
  | S n' =>
      let! spi := slice rest 0 spiSize in
      let! rest := slice_from rest spiSize in
      parse_delete_loop n' spiSize rest (spis ++ [spi])
  end.

Definition ParseDelete (data : bytes) : result Delete :=
  if len data <? 4 then Errorf ErrInvalidDelete else
  let! spiSize := at_ data 1 in
  let! spiCount := u16_at data 2 4 in
  let want := 4 + spiSize * spiCount in
  if negb (want =? len data) then Errorf ErrInvalidDelete else
  let! protocolID := at_ data 0 in
  let! rest := slice_from data 4 in
  let! spis := parse_delete_loop (Z.to_nat spiCount) spiSize rest [] in
  let d := mkDelete protocolID spis in
  let! _ := validateDelete d in
  Ok d.

Definition DeletePayload (d : Delete) : result Payload :=
  let! body := Delete_MarshalBinary d in
  Ok (mkPayload PayloadDelete 0 false body).

Definition IKEDeletePayload : Payload := mkPayload PayloadDelete 0 false [ProtocolIKE; 0; 0; 0].

Definition ESPDeletePayload (spis : list bytes) : result Payload :=
  DeletePayload (mkDelete ProtocolESP spis).

(** ** Key exchange, nonce and EAP *)
Record KeyExchange := mkKeyExchange {
  ke_DHGroup : Z;
  ke_KeyData : bytes
}.

Definition KeyExchange_MarshalBinary (k : KeyExchange) : bytes :=
  be_bytes 2 (ke_DHGroup k) ++ [0; 0] ++ ke_KeyData k.

Definition ParseKeyExchange (data : bytes) : result KeyExchange :=
  if len data <? 4 then Errorf ErrShortPayload else
  let! group := u16_at data 0 2 in
  let! keyData := slice_from data 4 in
  Ok (mkKeyExchange group keyData).

Definition KeyExchangePayload (group : Z) (keyData : bytes) : Payload :=
  mkPayload PayloadKE 0 false (KeyExchange_MarshalBinary (mkKeyExchange group keyData)).
Definition NoncePayload (nonce : bytes) : Payload := mkPayload PayloadNonce 0 false nonce.
Definition EAPPayload (packet : bytes) : Payload := mkPayload PayloadEAP 0 false packet.

(** ** NAT detection and MOBIKE notifies *)
Definition appendUint64 (dst : bytes) (v : Z) : bytes := dst ++ be_bytes 8 v.

Section nat_detection.
Context `{Crypto}.

Definition NATDetectionHash (spiI spiR : Z) (ip : bytes) (port : Z) : result bytes :=
  match (match IP_To4 ip with Some v4 => Some v4 | None => IP_To16 ip end) with
  | None => Errorf ErrInvalidAddress
  | Some normalized =>
      let data := appendUint64 (appendUint64 [] spiI) spiR in
      let data := data ++ normalized in
      let data := data ++ [to_u8 (Z.shiftr port 8); to_u8 port] in
      Ok (sha1_Sum data)
  end.

Definition NATDetectionNotify (notifyType spiI spiR : Z) (ip : bytes) (port : Z) : result Payload :=
  if negb (notifyType =? NotifyNATDetectionSourceIP) &&
     negb (notifyType =? NotifyNATDetectionDestinationIP) then Errorf ErrInvalidNotify else
  let! h := NATDetectionHash spiI spiR ip port in
  NotifyPayload (mkNotify ProtocolIKE notifyType [] h).
End nat_detection.

(** [body, _ := n.MarshalBinary()]: the error is dropped. *)
Definition notify_body (n : Notify) : bytes :=
  match Notify_MarshalBinary n with Ok b => b | _ => [] end.
Definition NotifyWithZeroSPI (notifyType : Z) (data : bytes) : Payload :=
  mkPayload PayloadNotify 0 false (notify_body (mkNotify 0 notifyType [] data)).
Definition MOBIKESupportedNotify : Payload :=
  mkPayload PayloadNotify 0 false (notify_body (mkNotify 0 NotifyMOBIKESupported [] [])).
Definition UpdateSAAddressesNotify : Payload :=
  mkPayload PayloadNotify 0 false (notify_body (mkNotify 0 NotifyUpdateSAAddresses [] [])).
Definition NoAdditionalAddressesNotify : Payload :=
  mkPayload PayloadNotify 0 false (notify_body (mkNotify 0 NotifyNoAdditionalAddresses [] [])).

Definition AdditionalIPAddressNotify (ip : bytes) : result Payload :=
  match IP_To4 ip with
  | Some v4 => Ok (NotifyWithZeroSPI NotifyAdditionalIPv4Address v4)
  | None =>
      match IP_To16 ip with
      | Some v6 => Ok (NotifyWithZeroSPI NotifyAdditionalIPv6Address v6)
      | None => Errorf ErrInvalidAddress
      end
  end.

Definition Cookie2Notify (cookie : bytes) : result Payload :=
  if (len cookie <? 8) || (64 <? len cookie) then Errorf ErrInvalidNotify else
  let! body := Notify_MarshalBinary (mkNotify 0 NotifyCookie2 [] cookie) in
  Ok (mkPayload PayloadNotify 0 false body).

Definition CookieNotify (cookie : bytes) : result Payload :=
  let notify := mkNotify 0 NotifyCookie [] cookie in
  match Notify_Cookie notify with
  | (_, _, Some err) => Err err
  | _ =>
      let! body := Notify_MarshalBinary notify in
      Ok (mkPayload PayloadNotify 0 false body)
  end.

(** ** Notify: the codec laws *)
#[export] Instance notify_codec : Codec Notify :=
  {| enc := Notify_MarshalBinary; dec := ParseNotify; val_ok := Notify_ok |}.

Lemma ParseNotify_marshal n b : Notify_ok n -> Notify_MarshalBinary n = Ok b -> ParseNotify b = Ok n.
Proof.
  intros (Hp & Ht & Hs & Hd) Hm. unfold Notify_MarshalBinary in Hm. pose proof (len_nonneg (n_SPI n)).
  destruct (255 <? len (n_SPI n)) eqn:Hl; [done|]. injection Hm as <-.
  unfold to_u8. rewrite Z.mod_small by lia. destruct n as [pid t spi nd]. cbn in *.
  unfold ParseNotify. set (T := be_bytes 2 t). assert (len T = 2) by apply len_be_bytes_2.
  set (data := pid :: len spi :: T ++ spi ++ nd).
  assert (Hdata : len data = 4 + len spi + len nd) by (subst data; len_lia). pose proof (len_nonneg nd).
  go_if. rewrite (at_Ok data 1 (len spi)) by done. cbn [bind]. go_if.
  rewrite (at_Ok data 0 pid) by done. cbn [bind].
  rewrite (u16_at_eq data [pid; len spi] (spi ++ nd) t) by done. cbn [bind].
  rewrite (slice_eq data ([pid; len spi] ++ T) spi nd) by (rewrite <- ?app_assoc; done || len_lia).
  cbn [bind].
  by rewrite (slice_from_eq data ([pid; len spi] ++ T ++ spi) nd)
    by (rewrite <- ?app_assoc; done || len_lia).
Qed.

Lemma ParseNotify_safe b : bytes_ok b -> safe (ParseNotify b) Notify_ok.
Proof. intros. unfold ParseNotify. go_safe. unfold Notify_ok. by cbn. Qed.

Lemma ParseNotify_err b e : ParseNotify b = Err e -> e = ErrInvalidNotify.
Proof.
  intros H. change (errs (fun e => e = Sentinel ErrInvalidNotify) (Err (A := Notify) e)).
  rewrite <- H. unfold ParseNotify. go_errs.
Qed.

(** A 16-bit field rebuilt from its two octets. *)
Lemma be_bytes_2_octets b0 b1 : is_u8 b0 -> is_u8 b1 -> be_bytes 2 (be_decode [b0; b1]) = [b0; b1].
Proof. intros. apply (be_bytes_be_decode [b0; b1]). auto with gobytes. Qed.
Lemma be_decode_2_range b0 b1 : is_u8 b0 -> is_u8 b1 -> is_u16 (be_decode [b0; b1]).
Proof. intros. apply (be_decode_range [b0; b1]). auto with gobytes. Qed.

Lemma marshal_ParseNotify n b : bytes_ok b -> ParseNotify b = Ok n -> Notify_MarshalBinary n = Ok b.
Proof.
  intros Hb Hp. unfold ParseNotify in Hp.
  destruct (len b <? 4) eqn:Hl; [done|].
  destruct b as [|pid [|sz [|t0 [|t1 rest]]]]; try (len_simpl; lia).
  apply bytes_ok_cons in Hb as [? Hb]. apply bytes_ok_cons in Hb as [Hsz Hb].
  apply bytes_ok_cons in Hb as [? Hb]. apply bytes_ok_cons in Hb as [? Hb].
  rewrite (at_Ok _ 1 sz) in Hp by done. cbn [bind] in Hp.
  destruct (len _ <? 4 + sz) eqn:Hl2; [done|].
  rewrite (at_Ok _ 0 pid) in Hp by done. cbn [bind] in Hp.
  rewrite (u16_at_eq _ [pid; sz] rest (be_decode [t0; t1])) in Hp.
  2: { rewrite be_bytes_2_octets by done. done. } 2-3: done.
  2: by apply be_decode_2_range.
  cbn [bind] in Hp.
  rewrite slice_Ok in Hp by len_lia. cbn [bind] in Hp.
  unfold slice_from in Hp. rewrite slice_Ok in Hp by len_lia. cbn [bind] in Hp. injection Hp as <-.
  unfold Notify_MarshalBinary. cbn [n_SPI n_ProtocolID n_NotifyType n_NotificationData].
  rewrite sub_len by len_lia. replace (4 + sz - 4) with sz by lia.
  replace (255 <? sz) with false by len_lia.
  rewrite be_bytes_2_octets by done. unfold to_u8. rewrite Z.mod_small by done.
  rewrite sub_split, sub_to_end by len_lia. done.
Qed.

#[export] Instance notify_exact : ExactCodec Notify.
Proof.
  split; [split|].
  - intros n b (? & ? & ? & ?) Hm. cbn in Hm. unfold Notify_MarshalBinary in Hm.
    case_match; [done|]. injection Hm as <-. auto 10 with gobytes.
  - apply ParseNotify_safe.
  - apply ParseNotify_marshal.
  - intros a b. apply marshal_ParseNotify.
Qed.

(** ** Delete: the codec laws *)
Definition Delete_ok (d : Delete) : Prop := is_u8 (d_ProtocolID d) /\ Forall bytes_ok (d_SPIs d).
#[export] Instance Delete_ok_dec d : Decision (Delete_ok d).
Proof. unfold Delete_ok. apply _. Defined.

(** What a delete payload may name. *)
Definition delete_valid (d : Delete) : Prop :=
  (d_ProtocolID d = ProtocolIKE /\ d_SPIs d = []) \/
  ((d_ProtocolID d = ProtocolAH \/ d_ProtocolID d = ProtocolESP) /\ d_SPIs d <> [] /\
   len (d_SPIs d) <= 0xffff /\ Forall (fun spi => len spi = 4) (d_SPIs d)).

Lemma validateDelete_spec d : validateDelete d = Ok tt <-> delete_valid d.
Proof.
  unfold validateDelete, delete_valid. destruct d as [pid spis]. cbn [d_ProtocolID d_SPIs].
  destruct (pid =? ProtocolIKE) eqn:Hi.
  - apply Z.eqb_eq in Hi as ->. destruct (len spis =? 0) eqn:Hl; cbn.
    + apply Z.eqb_eq, len_zero in Hl as ->. split; [by left|done].
    + split; [done|]. intros [[_ ->]|[[|] _]]; done.
  - destruct ((pid =? ProtocolAH) || (pid =? ProtocolESP)) eqn:Hp; cbn.
    2: { split; [done|]. intros [[-> _]|[[->| ->] _]]; done. }
    destruct spis as [|spi0 spis]; [split; [done|]; intros [[-> _]|(_ & ? & _)]; done|].
    destruct (65535 <? len (spi0 :: spis)) eqn:Hl.
    { split; [done|]. intros [[_ ?]|(_ & _ & ? & _)]; [done|lia]. }
    destruct (len spi0 =? 4) eqn:H4; cbn [negb].
    2: { split; [done|]. intros [[_ ?]|(_ & _ & _ & Hf)]; [done|].
         apply Forall_cons in Hf as [? _]. lia. }
    apply Z.eqb_eq in H4. rewrite H4.
    destruct (forallb _ _) eqn:Hf.
    + split; [intros _; right|done]. split_and!; [len_lia|done|lia|].
      apply Forall_forall. intros spi Hin. rewrite forallb_forall in Hf.
      apply Z.eqb_eq, Hf. by apply list_elem_of_In.
    + split; [done|]. intros [[_ ?]|(_ & _ & _ & Ha)]; [done|].
      enough (forallb (fun spi : bytes => len spi =? 4) (spi0 :: spis) = true) by congruence.
      apply forallb_forall. intros spi Hin. apply Z.eqb_eq.
      rewrite Forall_forall in Ha. apply Ha. by apply list_elem_of_In.
Qed.

Lemma validateDelete_safe d Q : (validateDelete d = Ok tt -> Q tt) -> safe (validateDelete d) Q.
Proof.
  unfold validateDelete. intros HQ. repeat case_match; simpl; try done; by apply HQ.
Qed.

Lemma parse_delete_loop_concat n sz spis out q :
  length spis = n -> Forall (fun spi : bytes => len spi = sz) spis ->
  parse_delete_loop n sz (concat spis ++ q) out = Ok (out ++ spis).
Proof.
  revert spis out. induction n as [|n IH]; intros spis out Hn Hf; destruct spis as [|spi spis];
    try done; [by rewrite app_nil_r|].
  apply Forall_cons in Hf as [Hsz Hf]. cbn [parse_delete_loop concat].
  rewrite (slice_eq _ [] spi (concat spis ++ q)) by (rewrite <- ?app_assoc; done || len_lia).
  cbn [bind].
  rewrite (slice_from_eq _ spi (concat spis ++ q)) by (rewrite <- ?app_assoc; done || len_lia).
  cbn [bind]. rewrite IH by (done || by injection Hn). by rewrite <- app_assoc.
Qed.

Lemma parse_delete_loop_safe n sz rest out :
  bytes_ok rest -> 0 <= sz -> len rest = sz * Z.of_nat n ->
  safe (parse_delete_loop n sz rest out) (fun r => exists spis, r = out ++ spis /\
    length spis = n /\ Forall (fun spi : bytes => len spi = sz) spis /\ concat spis = rest).
Proof.
  revert rest out. induction n as [|n IH]; intros rest out Hr Hsz Hl.
  - exists []. split_and!; [by rewrite app_nil_r|done|done|]. symmetry. apply len_zero. lia.
  - cbn [parse_delete_loop]. pose proof (len_nonneg rest).
    apply safe_bind, safe_slice_ok; [done|lia|lia|]. intros spi -> Hspi Hok.
    apply safe_bind, safe_slice_from; [done|lia|]. intros r' -> Hr' Hok'.
    eapply safe_mono; [apply IH; [done|lia|lia]|].
    intros r (spis & -> & Hn & Hf & Hc). exists (sub rest 0 sz :: spis). split_and!.
    + by rewrite <- app_assoc.
    + simpl. by f_equal.
    + apply Forall_cons. split; [lia|done].
    + cbn. rewrite Hc, sub_split by lia. by rewrite sub_to_end by lia.
Qed.

#[export] Instance delete_codec : Codec Delete :=
  {| enc := Delete_MarshalBinary; dec := ParseDelete; val_ok := Delete_ok |}.

Lemma Delete_MarshalBinary_Ok d b :
  Delete_MarshalBinary d = Ok b <->
  delete_valid d /\
  b = [d_ProtocolID d; if len (d_SPIs d) =? 0 then 0 else 4] ++
      be_bytes 2 (len (d_SPIs d)) ++ concat (d_SPIs d).
Proof.
  rewrite <- validateDelete_spec. unfold Delete_MarshalBinary.
  assert (Hs : validateDelete d = Ok tt ->
    to_u8 (match d_SPIs d with [] => 0 | spi0 :: _ => len spi0 end) =
      (if len (d_SPIs d) =? 0 then 0 else 4) /\
    to_u16 (len (d_SPIs d)) = len (d_SPIs d)).
  { rewrite validateDelete_spec. intros [[_ ->]|(_ & Hne & Hl & Hf)]; [done|].
    unfold to_u16. rewrite Z.mod_small by len_lia.
    destruct (d_SPIs d) as [|spi0 ?]; [done|]. apply Forall_cons in Hf as [-> _].
    split; [|done]. by replace (len (spi0 :: l) =? 0) with false by len_lia. }
  destruct (validateDelete d) as [[]| | |] eqn:Hv; cbn [bind]; try (split; [done|by intros []]).
  destruct Hs as [-> ->]; [done|]. split; [by intros [= <-]|by intros [_ ->]].
Qed.

Lemma len_concat_4 (l : list bytes) : Forall (fun spi => len spi = 4) l -> len (concat l) = 4 * len l.
Proof. induction 1; [done|]. cbn [concat]. len_lia. Qed.
Lemma bytes_ok_concat (l : list bytes) : bytes_ok (concat l) <-> Forall bytes_ok l.
Proof.
  induction l as [|x l IH]; [split; intros; constructor|].
  cbn. by rewrite bytes_ok_app, Forall_cons, IH.
Qed.

Lemma ParseDelete_marshal d b : Delete_ok d -> Delete_MarshalBinary d = Ok b -> ParseDelete b = Ok d.
Proof.
  intros [Hp Hs] [Hv ->]%Delete_MarshalBinary_Ok. pose proof Hv as Hval.
  apply validateDelete_spec in Hval. destruct d as [pid spis]. cbn [d_ProtocolID d_SPIs] in *.
  set (sz := if len spis =? 0 then 0 else 4).
  assert (Hsz : 0 <= sz < 256 /\ Forall (fun spi : bytes => len spi = sz) spis /\
    len (concat spis) = sz * len spis /\ len spis <= 65535).
  { destruct Hv as [[_ Hn]|(_ & Hne & Hl & Hf)]; cbn in *; [by subst|].
    destruct spis; [done|]. subst sz. replace (len (_ :: _) =? 0) with false by len_lia.
    split_and!; [lia|lia|done|by apply len_concat_4|lia]. }
  destruct Hsz as (Hsz & Hf & Hc & Hn). pose proof (len_nonneg spis).
  unfold ParseDelete. set (N := be_bytes 2 (len spis)). assert (len N = 2) by apply len_be_bytes_2.
  set (data := [pid; sz] ++ N ++ concat spis).
  assert (Hdata : len data = 4 + sz * len spis) by (subst data; len_lia).
  rewrite Hdata. replace (4 + sz * len spis <? 4) with false by (symmetry; apply Z.ltb_ge; nia).
  rewrite (at_Ok data 1 sz) by done. cbn [bind].
  rewrite (u16_at_eq data [pid; sz] (concat spis) (len spis)) by (done || len_lia). cbn [bind].
  rewrite Z.eqb_refl. cbn [negb].
  rewrite (at_Ok data 0 pid) by done. cbn [bind].
  rewrite (slice_from_eq data ([pid; sz] ++ N) (concat spis)) by (rewrite <- ?app_assoc; done || len_lia).
  cbn [bind]. rewrite <- (app_nil_r (concat spis)).
  rewrite (parse_delete_loop_concat _ sz spis [] []) by (done || unfold len; lia).
  cbn [bind app]. by rewrite Hval.
Qed.

Lemma ParseDelete_safe b :
  bytes_ok b -> safe (ParseDelete b) (fun d => Delete_ok d /\ delete_valid d /\
    (d_ProtocolID d <> ProtocolIKE -> Delete_MarshalBinary d = Ok b)).
Proof.
  intros Hb. unfold ParseDelete. destruct (len b <? 4) eqn:Hl; [exact I|].
  destruct b as [|pid [|sz [|t0 [|t1 rest]]]]; try (len_simpl; lia).
  pose proof Hb as Hb'. apply bytes_ok_cons in Hb as [? Hb]. apply bytes_ok_cons in Hb as [Hsz Hb].
  apply bytes_ok_cons in Hb as [? Hb]. apply bytes_ok_cons in Hb as [? Hb].
  rewrite (at_Ok _ 1 sz) by done. cbn [bind].
  pose proof (be_decode_2_range t0 t1) as Hn. specialize (Hn ltac:(done) ltac:(done)).
  rewrite (u16_at_eq _ [pid; sz] rest (be_decode [t0; t1]))
    by (rewrite ?be_bytes_2_octets by done; done). cbn [bind].
  destruct (_ =? _) eqn:Hw; [|exact I]. cbn [negb].
  rewrite (at_Ok _ 0 pid) by done. cbn [bind].
  rewrite (slice_from_eq _ [pid; sz; t0; t1] rest) by done. cbn [bind].
  eapply safe_call.
  { apply parse_delete_loop_safe; [done|by destruct Hsz|].
    rewrite Z2Nat.id by apply Hn. len_lia. }
  intros spis' (spis & -> & Hlen & Hf & Hc). cbn [app].
  apply safe_bind, validateDelete_safe. rewrite validateDelete_spec. intros Hv. cbn [safe].
  split_and!; [split; cbn; [done|by apply bytes_ok_concat; rewrite Hc]|done|].
  intros Hne. apply Delete_MarshalBinary_Ok. split; [done|]. cbn in *.
  destruct Hv as [[? _]|(_ & Hnil & _ & H4)]; [done|]. cbn in Hnil, H4.
  assert (Hlz : len spis = be_decode [t0; t1]) by (unfold len; rewrite Hlen; apply Z2Nat.id, Hn).
  rewrite Hlz, be_bytes_2_octets, Hc by done.
  destruct spis as [|s0 ?]; [done|]. apply Forall_cons in Hf as [Hs0 _].
  apply Forall_cons in H4 as [H4 _]. replace (be_decode [t0; t1] =? 0) with false by (rewrite <- Hlz; len_lia).
  cbn. do 3 f_equal. lia.
Qed.

#[export] Instance delete_laws : CodecLaws Delete.
Proof.
  split.
  - intros d b [? ?] [_ ->]%Delete_MarshalBinary_Ok. apply bytes_ok_cons_2; [done|].
    apply bytes_ok_cons_2; [by case_match|]. apply bytes_ok_app_2; [auto with gobytes|].
    by apply bytes_ok_concat.
  - intros b Hb. eapply safe_mono; [by apply ParseDelete_safe|]. by intros d [? _].
  - apply ParseDelete_marshal.
Qed.

(** ** Key exchange *)
Definition KeyExchange_ok (k : KeyExchange) : Prop := is_u16 (ke_DHGroup k) /\ bytes_ok (ke_KeyData k).

#[export] Instance ke_codec : Codec KeyExchange :=
  {| enc k := Ok (KeyExchange_MarshalBinary k); dec := ParseKeyExchange; val_ok := KeyExchange_ok |}.

#[export] Instance ke_laws : CodecLaws KeyExchange.
Proof.
  split.
  - intros k b [? ?] [= <-]. unfold KeyExchange_MarshalBinary. apply bytes_ok_app_2; auto with gobytes.
    repeat apply bytes_ok_cons_2; done.
  - intros b Hb. cbn. unfold ParseKeyExchange. go_safe. by split.
  - intros [g kd] b [Hg Hk] [= <-]. cbn [dec ke_codec]. unfold KeyExchange_MarshalBinary, ParseKeyExchange.
    cbn [ke_DHGroup ke_KeyData] in *. set (G := be_bytes 2 g). assert (len G = 2) by apply len_be_bytes_2.
    go_if. rewrite (u16_at_eq _ [] ([0; 0] ++ kd) g) by done. cbn [bind].
    by rewrite (slice_from_eq _ (G ++ [0; 0]) kd) by (rewrite <- ?app_assoc; done || len_lia).
Qed.

(** ** Notify errors *)

(** Notify types below 16384 report errors, the others status (RFC 7296, 3.10.1). *)
Lemma notifyErrorClass_None t : 0 <= t -> notifyErrorClass t = None <-> 16384 <= t.
Proof.
  intros Ht. unfold notifyErrorClass. split; intros H.
  - repeat case_match; try done. lia.
  - repeat case_match; try done; len_lia.
Qed.

Lemma NotifyErrorFor_None n : is_u16 (n_NotifyType n) ->
  NotifyErrorFor n = None <-> 16384 <= n_NotifyType n.
Proof.
  intros [? _]. unfold NotifyErrorFor. rewrite <- (notifyErrorClass_None (n_NotifyType n)) by done.
  by destruct (notifyErrorClass _).
Qed.

Lemma cloneNotify_id n : cloneNotify n = n.
Proof. by destruct n. Qed.

Lemma FirstNotifyError_safe ps : Forall Payload_ok ps -> returns (FirstNotifyError ps).
Proof.
  induction 1 as [|p ps (_ & _ & Hb) _ IH]; [exact I|]. cbn [FirstNotifyError].
  destruct (p_Type p =? PayloadNotify); cbn [negb]; [|done].
  apply safe_bind. eapply safe_mono; [by apply ParseNotify_safe|]. intros n _. by case_match.
Qed.

(** ** Properties *)

(** The Notify codec is exact and total: [ParseNotify] accepts precisely the
    strings [Notify.MarshalBinary] writes for well-formed values, and never
    panics. *)
Theorem notify_codec_exact data :
  bytes_ok data ->
  returns (ParseNotify data) /\
  forall n, ParseNotify data = Ok n <-> Notify_ok n /\ Notify_MarshalBinary n = Ok data.
Proof.
  intros Hd. split; [by eapply safe_returns, ParseNotify_safe|]. intros n. split.
  - intros Hp. split; [|by apply marshal_ParseNotify].
    by eapply safe_ok, Hp; apply ParseNotify_safe.
  - intros [? ?]. by apply ParseNotify_marshal.
Qed.

Lemma notify_codec_exact_witness :
  ParseNotify [3; 4; 64; 9; 1; 2; 3; 4; 99] =
    Ok (mkNotify ProtocolESP NotifyRekeySA [1; 2; 3; 4] [99]).
Proof.
  apply (notify_codec_exact [3; 4; 64; 9; 1; 2; 3; 4; 99]); [by_decide|].
  split; [by_decide | reflexivity].
Defined.

(** The Delete codec: [ParseDelete] never panics; it accepts only valid
    deletes (an IKE delete names no SPI, an AH or ESP delete names between 1
    and 65535 SPIs of four octets); marshalling a valid delete and parsing it
    gives it back, and for AH and ESP the bytes are the ones that were parsed. *)
Theorem delete_codec_correct :
  (forall d, Delete_ok d ->
     delete_valid d <-> exists b, Delete_MarshalBinary d = Ok b /\ ParseDelete b = Ok d) /\
  (forall data, bytes_ok data -> safe (ParseDelete data) (fun d =>
     Delete_ok d /\ delete_valid d /\
     (d_ProtocolID d <> ProtocolIKE -> Delete_MarshalBinary d = Ok data))).
Proof.
  split; [|exact ParseDelete_safe]. intros d Hd. split.
  - intros Hv. pose proof (proj2 (Delete_MarshalBinary_Ok d _) (conj Hv eq_refl)) as Hm. eexists.
    split; [exact Hm|]. by apply ParseDelete_marshal.
  - by intros (b & [Hv _]%Delete_MarshalBinary_Ok & _).
Qed.

(** [FirstNotifyError] over well-formed payloads returns without panicking;
    it reports no error exactly when every Notify payload parses and carries a
    status type (at least 16384), and an error [NotifyError n class] it reports
    is the one of a Notify payload of the list whose class is [class]. *)
Theorem FirstNotifyError_correct ps :
  Forall Payload_ok ps ->
  returns (FirstNotifyError ps) /\
  (FirstNotifyError ps = Ok tt <->
     Forall (fun p => p_Type p = PayloadNotify ->
       exists n, ParseNotify (p_Body p) = Ok n /\ 16384 <= n_NotifyType n) ps) /\
  (forall n c, FirstNotifyError ps = Err (NotifyError n c) ->
     exists p, p ∈ ps /\ p_Type p = PayloadNotify /\ ParseNotify (p_Body p) = Ok n /\
       notifyErrorClass (n_NotifyType n) = Some c).
Proof.
  intros Hok. split; [by apply FirstNotifyError_safe|].
  induction Hok as [|p ps (_ & _ & Hb) _ [IH1 IH2]]; [split; [split; done|done]|].
  cbn [FirstNotifyError]. rewrite Forall_cons.
  destruct (p_Type p =? PayloadNotify) eqn:Ht; cbn [negb].
  2: { apply Z.eqb_neq in Ht. rewrite IH1. split; [naive_solver|].
       intros n c (q & ? & ?)%IH2. exists q. by rewrite elem_of_cons; auto. }
  apply Z.eqb_eq in Ht. pose proof (ParseNotify_safe _ Hb) as Hs.
  destruct (ParseNotify (p_Body p)) as [n|e| |] eqn:Hp; cbn [bind] in *; try done.
  2: { split; [split; [done|]; intros [Hx _]; by destruct (Hx Ht) as (? & ? & _)|].
       intros n c [= ->]. by apply ParseNotify_err in Hp. }
  destruct Hs as (_ & Hr & _). pose proof (NotifyErrorFor_None n Hr) as Hn.
  unfold NotifyErrorFor in *. rewrite cloneNotify_id in *.
  destruct (notifyErrorClass (n_NotifyType n)) as [cl|] eqn:Hc.
  - split; [split; [done|]; intros [Hx _]|].
    + destruct (Hx Ht) as (n' & [= <-] & Hge). by apply Hn in Hge.
    + intros n' c [= <- <-]. exists p. rewrite elem_of_cons. eauto.
  - split.
    + rewrite IH1. split; [|by intros [_ ?]]. intros ?. split; [|done].
      intros _. exists n. split; [done|]. by apply Hn.
    + intros n' c (q & ? & ?)%IH2. exists q. by rewrite elem_of_cons; auto.
Qed.

Lemma FirstNotifyError_correct_witness :
  returns (FirstNotifyError [mkPayload PayloadNotify 0 false [0; 0; 0; 24]]) /\
  FirstNotifyError [mkPayload PayloadNotify 0 false [0; 0; 0; 24]] =
    Err (NotifyError (mkNotify 0 24 [] []) ErrNotifyAuthenticationFailed).
Proof.
  split; [|reflexivity].
  apply (FirstNotifyError_correct [mkPayload PayloadNotify 0 false [0; 0; 0; 24]]); by_decide.
Defined.
