(* ===== verification/Sa.v ===== *)
(** * IKEv2 security-association payload (engine/swu/ikev2/sa.go)

    Proposals, transforms and transform attributes: encoding, parsing, and the
    check that the responder's selection is one the initiator offered. *)
From S2P Require Import Prelude Errors Types Codec Notify.

Definition TransformENCR := 1.
Definition TransformPRF := 2.
Definition TransformINTEG := 3.
Definition TransformDHRGroup := 4.
Definition TransformESN := 5.
Definition ENCR_AES_CBC := 12.
Definition ENCR_AES_GCM_16 := 20.
Definition PRF_HMAC_SHA1 := 2.
Definition PRF_HMAC_SHA2_256 := 5.
Definition PRF_HMAC_SHA2_384 := 6.
Definition PRF_HMAC_SHA2_512 := 7.
Definition INTEG_HMAC_SHA1_96 := 2.
Definition INTEG_HMAC_SHA2_256_128 := 12.
Definition INTEG_HMAC_SHA2_384_192 := 13.
Definition INTEG_HMAC_SHA2_512_256 := 14.
Definition ESNNo := 0.
Definition ESNYes := 1.
Definition AttributeKeyLength := 14.

Record TransformAttribute := mkAttr { at_Type : Z; at_Value : bytes }.
Record Transform := mkTransform {
  t_Type : Z;
  t_ID : Z;
  t_Attributes : list TransformAttribute
}.
Record Proposal := mkProposal {
  pr_Number : Z;
  pr_ProtocolID : Z;
  pr_SPI : bytes;
  pr_Transforms : list Transform
}.
Record SecurityAssociation := mkSA { sa_Proposals : list Proposal }.

#[export] Instance TransformAttribute_eq_dec : EqDecision TransformAttribute.
Proof. solve_decision. Defined.
#[export] Instance Transform_eq_dec : EqDecision Transform.
Proof. solve_decision. Defined.
#[export] Instance Proposal_eq_dec : EqDecision Proposal.
Proof. solve_decision. Defined.
#[export] Instance SecurityAssociation_eq_dec : EqDecision SecurityAssociation.
Proof. solve_decision. Defined.

Definition KeyLengthAttribute (bits : Z) : TransformAttribute := mkAttr AttributeKeyLength (be_bytes 2 bits).

Definition DefaultIKEProposal : SecurityAssociation := mkSA [mkProposal 1 ProtocolIKE []
  [mkTransform TransformENCR ENCR_AES_CBC [KeyLengthAttribute 128];
   mkTransform TransformPRF PRF_HMAC_SHA2_256 [];
   mkTransform TransformINTEG INTEG_HMAC_SHA2_256_128 [];
   mkTransform TransformDHRGroup DHGroupCurve25519 []]].

Definition Default3GPPIKEProposal : SecurityAssociation := mkSA [mkProposal 1 ProtocolIKE []
  [mkTransform TransformENCR ENCR_AES_CBC [KeyLengthAttribute 128];
   mkTransform TransformPRF PRF_HMAC_SHA2_256 [];
   mkTransform TransformPRF PRF_HMAC_SHA1 [];
   mkTransform TransformINTEG INTEG_HMAC_SHA2_256_128 [];
   mkTransform TransformINTEG INTEG_HMAC_SHA1_96 [];
   mkTransform TransformDHRGroup DHGroup2048BitMODP []]].

Definition DefaultESPProposal (spi : bytes) : SecurityAssociation := mkSA [mkProposal 1 ProtocolESP spi
  [mkTransform TransformENCR ENCR_AES_CBC [KeyLengthAttribute 128];
   mkTransform TransformINTEG INTEG_HMAC_SHA2_256_128 [];
   mkTransform TransformESN ESNNo []]].

Definition Default3GPPESPProposal (spi : bytes) : SecurityAssociation := mkSA [mkProposal 1 ProtocolESP spi
  [mkTransform TransformENCR ENCR_AES_CBC [KeyLengthAttribute 128];
   mkTransform TransformINTEG INTEG_HMAC_SHA2_256_128 [];
   mkTransform TransformINTEG INTEG_HMAC_SHA1_96 [];
   mkTransform TransformESN ESNNo []]].

(** ** Marshalling *)
Fixpoint marshalTransformAttributes_loop (attrs : list TransformAttribute) (out : bytes) : result bytes :=
  match attrs with
  | [] => Ok out
  | attr :: attrs =>
      if len (at_Value attr) =? 2 then
        marshalTransformAttributes_loop attrs
          (out ++ be_bytes 2 (Z.lor (at_Type attr) 0x8000) ++ at_Value attr)
      else if 0xffff <? len (at_Value attr) then Errorf ErrInvalidSA
      else
        marshalTransformAttributes_loop attrs
          (out ++ be_bytes 2 (at_Type attr) ++ be_bytes 2 (to_u16 (len (at_Value attr))) ++ at_Value attr)
  end.
Definition marshalTransformAttributes attrs := marshalTransformAttributes_loop attrs [].

Definition Transform_marshal (t : Transform) (more : bool) : result bytes :=
  let! attrs := marshalTransformAttributes (t_Attributes t) in
  if 0xffff <? 8 + len attrs then Errorf ErrInvalidSA else
  Ok ([if more then 3 else 0; 0] ++ be_bytes 2 (to_u16 (8 + len attrs)) ++
      [t_Type t; 0] ++ be_bytes 2 (t_ID t) ++ attrs).

Fixpoint marshal_transforms_loop (ts : list Transform) (body : bytes) : result bytes :=
  match ts with
  | [] => Ok body
  | tr :: rest =>
      let! encoded := Transform_marshal tr (0 <? len rest) in
      marshal_transforms_loop rest (body ++ encoded)
  end.

Definition Proposal_marshalBody (p : Proposal) : result bytes :=
  if len (pr_Transforms p) =? 0 then Errorf ErrInvalidSA else
  if (0xff <? len (pr_SPI p)) || (0xff <? len (pr_Transforms p)) then Errorf ErrInvalidSA else
  let body := [pr_Number p; pr_ProtocolID p; to_u8 (len (pr_SPI p)); to_u8 (len (pr_Transforms p))] in
  marshal_transforms_loop (pr_Transforms p) (body ++ pr_SPI p).

Fixpoint marshal_proposals_loop (ps : list Proposal) (out : bytes) : result bytes :=
  match ps with
  | [] => Ok out
  | p :: rest =>
      let! body := Proposal_marshalBody p in
      if 0xffff <? len body + 4 then Errorf ErrInvalidSA else
      let last := if 0 <? len rest then 2 else 0 in
      marshal_proposals_loop rest (out ++ [last; 0] ++ be_bytes 2 (to_u16 (len body + 4)) ++ body)
  end.

Definition SA_MarshalBinary (sa : SecurityAssociation) : result bytes :=
  if len (sa_Proposals sa) =? 0 then Errorf ErrInvalidSA else
  marshal_proposals_loop (sa_Proposals sa) [].

Definition SecurityAssociationPayload (sa : SecurityAssociation) : result Payload :=
  let! body := SA_MarshalBinary sa in Ok (mkPayload PayloadSA 0 false body).

(** ** Parsing *)
Fixpoint parse_attributes_loop (fuel : nat) (data : bytes) (out : list TransformAttribute)
  : result (list TransformAttribute) :=
  match fuel with
  | O => OutOfFuel
  | S fuel' =>
      if negb (0 <? len data) then Ok out else
      if len data <? 4 then Errorf ErrInvalidSA else
      let! attrType := u16_at data 0 2 in
      if negb (Z.land attrType 0x8000 =? 0) then
        let! value := slice data 2 4 in
        let! data := slice_from data 4 in
        parse_attributes_loop fuel' data (out ++ [mkAttr (Z.land attrType 0x7fff) value])
      else
        let! length := u16_at data 2 4 in
        if len data <? 4 + length then Errorf ErrInvalidSA else
        let! value := slice data 4 (4 + length) in
        let! data := slice_from data (4 + length) in
        parse_attributes_loop fuel' data (out ++ [mkAttr attrType value])
  end.
Definition parseTransformAttributes (data : bytes) := parse_attributes_loop (S (length data)) data [].

Definition parseTransform (data : bytes) : result (Transform * bool * Z) :=
  if len data <? 8 then Errorf ErrInvalidSA else
  let! moreFlag := at_ data 0 in
  let! length := u16_at data 2 4 in
  if (length <? 8) || (len data <? length) then Errorf ErrInvalidSA else
  let! ty := at_ data 4 in
  let! id := u16_at data 6 8 in
  let! raw := slice data 8 length in
  let! attrs := parseTransformAttributes raw in
  let t := mkTransform ty id attrs in
  if moreFlag =? 0 then Ok (t, false, length)
  else if moreFlag =? 3 then Ok (t, true, length)
  else Errorf ErrInvalidSA.

Fixpoint parse_transforms_loop (fuel : nat) (rest : bytes) (out : list Transform)
  : result (list Transform) :=
  match fuel with
  | O => OutOfFuel
  | S fuel' =>
      if negb (0 <? len rest) then Ok out else
      let! r := parseTransform rest in
      let '(tr, more, length) := r in
      let out := out ++ [tr] in
      let! rest := slice_from rest length in
      if negb more then
        if negb (len rest =? 0) then Errorf ErrInvalidSA else Ok out
      else parse_transforms_loop fuel' rest out
  end.

Definition parseProposalBody (data : bytes) : result Proposal :=
  if len data <? 4 then Errorf ErrInvalidSA else
  let! spiSize := at_ data 2 in
  let! transformCount := at_ data 3 in
  if len data <? 4 + spiSize then Errorf ErrInvalidSA else
  let! number := at_ data 0 in
  let! protocolID := at_ data 1 in
  let! spi := slice data 4 (4 + spiSize) in
  let! rest := slice_from data (4 + spiSize) in
  let! transforms := parse_transforms_loop (S (length rest)) rest [] in
  if negb (len transforms =? transformCount) then Errorf ErrInvalidSA else
  Ok (mkProposal number protocolID spi transforms).

Fixpoint parse_proposals_loop (fuel : nat) (rest : bytes) (out : list Proposal) : result (list Proposal) :=
  match fuel with
  | O => OutOfFuel
  | S fuel' =>
      if negb (0 <? len rest) then Ok out else
      if len rest <? 4 then Errorf ErrInvalidSA else
      let! more := at_ rest 0 in
      let! length := u16_at rest 2 4 in
      if (length <? 8) || (len rest <? length) then Errorf ErrInvalidSA else
      let! body := slice rest 4 length in
      let! p := parseProposalBody body in
      let out := out ++ [p] in
      let! rest := slice_from rest length in
      if more =? 0 then
        if negb (len rest =? 0) then Errorf ErrInvalidSA else Ok out
      else if negb (more =? 2) then Errorf ErrInvalidSA
      else parse_proposals_loop fuel' rest out
  end.

Definition ParseSecurityAssociation (data : bytes) : result SecurityAssociation :=
  let! ps := parse_proposals_loop (S (length data)) data [] in
  if len ps =? 0 then Errorf ErrInvalidSA else Ok (mkSA ps).

(** ** Selection *)
Fixpoint findTransform (ts : list Transform) (transformType : Z) : option Transform :=
  match ts with
  | [] => None
  | tr :: ts => if t_Type tr =? transformType then Some tr else findTransform ts transformType
  end.

Definition isCombinedModeEncryption (id : Z) : bool := id =? ENCR_AES_GCM_16.

Definition proposalHasTransformType (p : Proposal) (transformType : Z) : bool :=
  existsb (fun tr => t_Type tr =? transformType) (pr_Transforms p).

Definition validateSelectedProposalRequiredTransforms (p : Proposal) : result unit :=
  let encr := findTransform (pr_Transforms p) TransformENCR in
  let! required :=
    (if pr_ProtocolID p =? ProtocolIKE then Ok [TransformENCR; TransformPRF; TransformDHRGroup]
     else if pr_ProtocolID p =? ProtocolESP then Ok [TransformENCR; TransformESN]
     else Errorf ErrUnsupportedSASelection) in
  let combined := match encr with Some e => isCombinedModeEncryption (t_ID e) | None => false end in
  let! required :=
    (if negb combined then Ok (required ++ [TransformINTEG])
     else if proposalHasTransformType p TransformINTEG then Errorf ErrUnsupportedSASelection
     else Ok required) in
  if forallb (proposalHasTransformType p) required then Ok tt
  else Errorf ErrUnsupportedSASelection.

(** The inner loop over [b] with its [used] flags: the flags after the first
    unused equal attribute was marked, or [None] when there is none. *)
Fixpoint mark_first_unused (a : TransformAttribute) (b : list TransformAttribute) (used : list bool)
  : option (list bool) :=
  match b, used with
  | attrB :: b', u :: used' =>
      if u || negb (at_Type a =? at_Type attrB) || negb (bytesEqual (at_Value a) (at_Value attrB))
      then cons u <$> mark_first_unused a b' used'
      else Some (true :: used')
  | _, _ => None
  end.

Fixpoint attributes_equal_loop (a b : list TransformAttribute) (used : list bool) : bool :=
  match a with
  | [] => true
  | attrA :: a' =>
      match mark_first_unused attrA b used with
      | Some used' => attributes_equal_loop a' b used'
      | None => false
      end
  end.

Definition transformAttributesEqual (a b : list TransformAttribute) : bool :=
  if negb (len a =? len b) then false
  else attributes_equal_loop a b (replicate (length b) false).

Definition transformsEqual (a b : Transform) : bool :=
  (t_Type a =? t_Type b) && (t_ID a =? t_ID b) &&
  transformAttributesEqual (t_Attributes a) (t_Attributes b).

Definition proposalHasTransform (p : Proposal) (target : Transform) : bool :=
  existsb (fun tr => transformsEqual tr target) (pr_Transforms p).

Definition proposalSupportsSelection (offered selected : Proposal) : bool :=
  if negb (pr_ProtocolID offered =? pr_ProtocolID selected) then false
  else forallb (proposalHasTransform offered) (pr_Transforms selected).

Definition ValidateSelectedSA (offered selected : SecurityAssociation) : result unit :=
  if len (sa_Proposals offered) =? 0 then Errorf ErrUnsupportedSASelection else
  match sa_Proposals selected with
  | [] => Errorf ErrUnsupportedSASelection
  | selectedProposal :: others =>
      if negb (len (selectedProposal :: others) =? 1) then Errorf ErrUnsupportedSASelection else
      if len (pr_Transforms selectedProposal) =? 0 then Errorf ErrUnsupportedSASelection else
      let! _ := validateSelectedProposalRequiredTransforms selectedProposal in
      if existsb (fun offeredProposal => proposalSupportsSelection offeredProposal selectedProposal)
           (sa_Proposals offered)
      then Ok tt else Errorf ErrUnsupportedSASelection
  end.

(** ** Well-formed values *)
Definition Attr_ok (a : TransformAttribute) : Prop := in_range 0x8000 (at_Type a) /\ bytes_ok (at_Value a).
Definition Transform_ok (t : Transform) : Prop :=
  is_u8 (t_Type t) /\ is_u16 (t_ID t) /\ Forall Attr_ok (t_Attributes t).
Definition Proposal_ok (p : Proposal) : Prop :=
  is_u8 (pr_Number p) /\ is_u8 (pr_ProtocolID p) /\ bytes_ok (pr_SPI p) /\
  Forall Transform_ok (pr_Transforms p).
Definition SA_ok (sa : SecurityAssociation) : Prop := Forall Proposal_ok (sa_Proposals sa).
#[export] Instance Attr_ok_dec a : Decision (Attr_ok a).
Proof. unfold Attr_ok. apply _. Defined.
#[export] Instance Transform_ok_dec t : Decision (Transform_ok t).
Proof. unfold Transform_ok. apply _. Defined.
#[export] Instance Proposal_ok_dec p : Decision (Proposal_ok p).
Proof. unfold Proposal_ok. apply _. Defined.
#[export] Instance SA_ok_dec sa : Decision (SA_ok sa).
Proof. unfold SA_ok. apply _. Defined.

(** ** The encodings the marshallers write *)
Definition enc_attr (a : TransformAttribute) : bytes :=
  if len (at_Value a) =? 2 then be_bytes 2 (at_Type a + 0x8000) ++ at_Value a
  else be_bytes 2 (at_Type a) ++ be_bytes 2 (len (at_Value a)) ++ at_Value a.
Definition enc_attrs (attrs : list TransformAttribute) : bytes := concat (enc_attr <$> attrs).
Definition enc_transform (more : bool) (t : Transform) : bytes :=
  [if more then 3 else 0; 0] ++ be_bytes 2 (8 + len (enc_attrs (t_Attributes t))) ++
  [t_Type t; 0] ++ be_bytes 2 (t_ID t) ++ enc_attrs (t_Attributes t).
Fixpoint enc_transforms (ts : list Transform) : bytes :=
  match ts with [] => [] | t :: rest => enc_transform (0 <? len rest) t ++ enc_transforms rest end.
Definition enc_proposal_body (p : Proposal) : bytes :=
  [pr_Number p; pr_ProtocolID p; len (pr_SPI p); len (pr_Transforms p)] ++ pr_SPI p ++
  enc_transforms (pr_Transforms p).
Fixpoint enc_proposals (ps : list Proposal) : bytes :=
  match ps with
  | [] => []
  | p :: rest =>
      [if 0 <? len rest then 2 else 0; 0] ++ be_bytes 2 (len (enc_proposal_body p) + 4) ++
      enc_proposal_body p ++ enc_proposals rest
  end.

(** What the marshallers check of the lengths. *)
Definition attr_fits (a : TransformAttribute) : Prop := len (at_Value a) <= 0xffff.
Definition transform_fits (t : Transform) : Prop :=
  Forall attr_fits (t_Attributes t) /\ 8 + len (enc_attrs (t_Attributes t)) <= 0xffff.
Definition proposal_fits (p : Proposal) : Prop :=
  pr_Transforms p <> [] /\ len (pr_SPI p) <= 0xff /\ len (pr_Transforms p) <= 0xff /\
  Forall transform_fits (pr_Transforms p) /\ len (enc_proposal_body p) + 4 <= 0xffff.

Lemma lor_8000 t : in_range 0x8000 t -> Z.lor t 0x8000 = t + 0x8000.
Proof. intros. by apply (lor_pow2 t 15). Qed.

Lemma marshal_attributes_Ok attrs out b :
  Forall Attr_ok attrs -> marshalTransformAttributes_loop attrs out = Ok b ->
  b = out ++ enc_attrs attrs /\ Forall attr_fits attrs.
Proof.
  revert out. induction attrs as [|a attrs IH]; intros out Hok Hm.
  - injection Hm as <-. by rewrite app_nil_r.
  - apply Forall_cons in Hok as [[Ht Hv] Hok]. cbn [marshalTransformAttributes_loop] in Hm.
    rewrite Forall_cons. unfold enc_attrs, attr_fits. cbn. unfold enc_attr.
    destruct (len (at_Value a) =? 2) eqn:H2.
    + apply IH in Hm as [-> ?]; [|done]. rewrite lor_8000, <- !app_assoc by done.
      split; [done|]. split; [lia|done].
    + destruct (65535 <? len (at_Value a)) eqn:Hl; [done|].
      apply IH in Hm as [-> ?]; [|done]. unfold to_u16. rewrite Z.mod_small by len_lia.
      rewrite <- !app_assoc. split; [done|]. split; [lia|done].
Qed.

Lemma marshal_transform_Ok t more b :
  Transform_ok t -> Transform_marshal t more = Ok b -> b = enc_transform more t /\ transform_fits t.
Proof.
  intros (_ & _ & Hok). unfold Transform_marshal. intros (attrs & Ha & Hm)%bind_ok.
  apply marshal_attributes_Ok in Ha as [-> Hf]; [|done]. cbn [app] in Hm.
  destruct (65535 <? 8 + len (enc_attrs (t_Attributes t))) eqn:Hl; [done|].
  unfold to_u16 in Hm. rewrite Z.mod_small in Hm by len_lia. injection Hm as <-.
  split; [done|]. split; [done|lia].
Qed.

Lemma marshal_transforms_Ok ts body b :
  Forall Transform_ok ts -> marshal_transforms_loop ts body = Ok b ->
  b = body ++ enc_transforms ts /\ Forall transform_fits ts.
Proof.
  revert body. induction ts as [|t ts IH]; intros body Hok Hm.
  - injection Hm as <-. by rewrite app_nil_r.
  - apply Forall_cons in Hok as [Ht Hok]. cbn [marshal_transforms_loop] in Hm.
    apply bind_ok in Hm as (e & He & Hm). apply marshal_transform_Ok in He as [-> Hf]; [|done].
    apply IH in Hm as [-> ?]; [|done]. rewrite Forall_cons, <- app_assoc. done.
Qed.

Lemma marshal_proposal_Ok p b :
  Proposal_ok p -> Proposal_marshalBody p = Ok b -> b = enc_proposal_body p /\
  (len (enc_proposal_body p) + 4 <= 0xffff -> proposal_fits p).
Proof.
  intros (_ & _ & _ & Hok). unfold Proposal_marshalBody. intros Hm.
  destruct (len (pr_Transforms p) =? 0) eqn:H0; [done|].
  destruct ((255 <? len (pr_SPI p)) || (255 <? len (pr_Transforms p))) eqn:H1; [done|].
  apply marshal_transforms_Ok in Hm as [-> Hf]; [|done].
  unfold to_u8. rewrite !Z.mod_small by len_lia. rewrite <- app_assoc.
  split; [done|]. intros. split_and!; try done; try lia.
  intros Hn. rewrite Hn in H0. done.
Qed.

Lemma marshal_proposals_Ok ps out b :
  Forall Proposal_ok ps -> marshal_proposals_loop ps out = Ok b ->
  b = out ++ enc_proposals ps /\ Forall proposal_fits ps.
Proof.
  revert out. induction ps as [|p ps IH]; intros out Hok Hm.
  - injection Hm as <-. by rewrite app_nil_r.
  - apply Forall_cons in Hok as [Hp Hok]. cbn [marshal_proposals_loop] in Hm.
    apply bind_ok in Hm as (e & He & Hm). apply marshal_proposal_Ok in He as [-> Hf]; [|done].
    destruct (65535 <? _) eqn:Hl; [done|]. apply IH in Hm as [-> ?]; [|done].
    unfold to_u16. rewrite Z.mod_small by len_lia. rewrite Forall_cons, <- !app_assoc.
    split; [done|]. split; [apply Hf; lia|done].
Qed.

Lemma marshal_attributes_complete attrs out :
  Forall Attr_ok attrs -> Forall attr_fits attrs ->
  marshalTransformAttributes_loop attrs out = Ok (out ++ enc_attrs attrs).
Proof.
  intros Hok Hf. assert (exists b, marshalTransformAttributes_loop attrs out = Ok b) as [b Hb].
  { clear Hok. revert out. induction Hf as [|a attrs Ha _ IH]; intros out; [by eexists|].
    cbn [marshalTransformAttributes_loop]. unfold attr_fits in Ha.
    destruct (len (at_Value a) =? 2); [apply IH|]. go_if. apply IH. }
  rewrite Hb. by apply marshal_attributes_Ok in Hb as [-> _].
Qed.
Lemma marshal_transforms_complete ts body :
  Forall Transform_ok ts -> Forall transform_fits ts ->
  marshal_transforms_loop ts body = Ok (body ++ enc_transforms ts).
Proof.
  intros Hok Hf. assert (exists b, marshal_transforms_loop ts body = Ok b) as [b Hb].
  { revert body Hok. induction Hf as [|t ts [Ha Hl] _ IH]; intros body Hok; [by eexists|].
    apply Forall_cons in Hok as [(_ & _ & Ht) Hok]. cbn [marshal_transforms_loop].
    unfold Transform_marshal, marshalTransformAttributes. rewrite marshal_attributes_complete by done.
    cbn [bind app]. go_if. cbn [bind]. by apply IH. }
  rewrite Hb. by apply marshal_transforms_Ok in Hb as [-> _].
Qed.
Lemma marshal_proposals_complete ps out :
  Forall Proposal_ok ps -> Forall proposal_fits ps ->
  marshal_proposals_loop ps out = Ok (out ++ enc_proposals ps).
Proof.
  intros Hok Hf. assert (exists b, marshal_proposals_loop ps out = Ok b) as [b Hb].
  { revert out Hok. induction Hf as [|p ps (Hne & Hs & Ht & Hfit & Hl) _ IH]; intros out Hok; [by eexists|].
    apply Forall_cons in Hok as [Hp Hok]. cbn [marshal_proposals_loop].
    unfold Proposal_marshalBody. assert (len (pr_Transforms p) <> 0) by (by intros ?%len_zero).
    do 2 go_if. rewrite marshal_transforms_complete by (done || apply Hp).
    cbn [bind]. unfold to_u8. rewrite !Z.mod_small by len_lia. rewrite <- app_assoc.
    fold (enc_proposal_body p). go_if. by apply IH. }
  rewrite Hb. by apply marshal_proposals_Ok in Hb as [-> _].
Qed.

Lemma marshal_attributes_returns attrs out : returns (marshalTransformAttributes_loop attrs out).
Proof.
  revert out. induction attrs; intros out; cbn [marshalTransformAttributes_loop]; [done|].
  repeat case_match; done || apply IHattrs.
Qed.
Lemma marshal_transforms_returns ts body : returns (marshal_transforms_loop ts body).
Proof.
  revert body. induction ts as [|t ts IH]; intros body; cbn [marshal_transforms_loop]; [done|].
  apply safe_bind. eapply safe_call; [apply marshal_attributes_returns|]. intros attrs _.
  case_match; [done|]. apply IH.
Qed.
Lemma marshal_proposals_returns ps out : returns (marshal_proposals_loop ps out).
Proof.
  revert out. induction ps as [|p ps IH]; intros out; cbn [marshal_proposals_loop]; [done|].
  eapply safe_call with (fun _ => True); [|intros b _; case_match; [done|apply IH]].
  unfold Proposal_marshalBody. do 2 (case_match; [done|]). apply marshal_transforms_returns.
Qed.

(** ** Parsing what was written *)
Lemma len_enc_attr a : 4 <= len (enc_attr a).
Proof. unfold enc_attr. pose proof (len_nonneg (at_Value a)). destruct (_ =? 2) eqn:?; len_lia. Qed.
Lemma enc_attrs_cons a attrs : enc_attrs (a :: attrs) = enc_attr a ++ enc_attrs attrs.
Proof. reflexivity. Qed.

Lemma parse_attributes_enc fuel attrs out :
  (length (enc_attrs attrs) < fuel)%nat -> Forall Attr_ok attrs -> Forall attr_fits attrs ->
  parse_attributes_loop fuel (enc_attrs attrs) out = Ok (out ++ attrs).
Proof.
  revert fuel out. induction attrs as [|a attrs IH]; intros fuel out Hfu Hok Hfit;
    (destruct fuel as [|fuel]; [lia|]); cbn [parse_attributes_loop].
  - by rewrite app_nil_r.
  - apply Forall_cons in Hok as [[Ht Hv] Hok]. apply Forall_cons in Hfit as [Hl Hfit].
    unfold attr_fits in Hl. rewrite enc_attrs_cons in *. pose proof (len_enc_attr a) as Hla.
    set (tl := enc_attrs attrs) in *.
    assert (Hfu' : (length tl < fuel)%nat) by (rewrite length_app in Hfu; unfold len in Hla; lia).
    do 2 go_if. cbn [negb]. unfold enc_attr in *. destruct a as [t v]. cbn [at_Type at_Value] in *.
    pose proof (len_nonneg v). destruct (len v =? 2) eqn:H2.
    + rewrite (u16_at_eq _ [] (v ++ tl) (t + 32768)) by (rewrite <- ?app_assoc; done || len_lia).
      cbn [bind]. change 0x8000 with (2 ^ 15). rewrite land_pow2_eqb by lia.
      rewrite <- lor_pow2 by (done || len_lia). rewrite Z.lor_spec, Z.pow2_bits_true by lia.
      rewrite orb_true_r. cbn [negb].
      rewrite (slice_eq _ (be_bytes 2 (Z.lor t (2 ^ 15))) v tl) by (rewrite <- ?app_assoc; done || len_lia).
      cbn [bind].
      rewrite (slice_from_eq _ (be_bytes 2 (Z.lor t (2 ^ 15)) ++ v) tl) by (done || len_lia).
      cbn [bind]. rewrite IH by done. rewrite lor_pow2 by (done || len_lia).
      change 32767 with (Z.ones 15). rewrite Z.land_ones by lia.
      rewrite <- (Z.mul_1_l (2 ^ 15)) at 1. rewrite Z.mod_add, Z.mod_small by (done || len_lia).
      by rewrite <- app_assoc.
    + rewrite (u16_at_eq _ [] (be_bytes 2 (len v) ++ v ++ tl) t) by (rewrite <- ?app_assoc; done || len_lia).
      cbn [bind]. change 0x8000 with (2 ^ 15). rewrite land_pow2_eqb by lia.
      rewrite (testbit_small t 15) by (done || lia). cbn [negb].
      rewrite (u16_at_eq _ (be_bytes 2 t) (v ++ tl) (len v)) by (rewrite <- ?app_assoc; done || len_lia).
      cbn [bind]. go_if.
      rewrite (slice_eq _ (be_bytes 2 t ++ be_bytes 2 (len v)) v tl)
        by (rewrite <- ?app_assoc; done || len_lia). cbn [bind].
      rewrite (slice_from_eq _ (be_bytes 2 t ++ be_bytes 2 (len v) ++ v) tl)
        by (rewrite <- ?app_assoc; done || len_lia). cbn [bind].
      rewrite IH by done. by rewrite <- app_assoc.
Qed.

Lemma parse_transform_enc t more q :
  Transform_ok t -> transform_fits t ->
  parseTransform (enc_transform more t ++ q) = Ok (t, more, 8 + len (enc_attrs (t_Attributes t))).
Proof.
  intros (Hty & Hid & Hok) [Hfit Hlen]. destruct t as [ty id attrs].
  cbn [t_Attributes t_Type t_ID] in *. unfold enc_transform. cbn [t_Attributes t_Type t_ID].
  set (A := enc_attrs attrs) in *. pose proof (len_nonneg A).
  set (m := if more then 3 else 0). set (L := be_bytes 2 (8 + len A)). set (I := be_bytes 2 id).
  assert (len L = 2 /\ len I = 2) as [HL HI] by done.
  rewrite <- !app_assoc. set (data := [m; 0] ++ L ++ [ty; 0] ++ I ++ A ++ q).
  assert (Hd : len data = 8 + len A + len q) by (subst data; len_lia). pose proof (len_nonneg q).
  unfold parseTransform. go_if. rewrite (at_Ok data 0 m) by done. cbn [bind].
  rewrite (u16_at_eq data [m; 0] ([ty; 0] ++ I ++ A ++ q) (8 + len A)) by (done || len_lia). cbn [bind].
  go_if. rewrite (at_Ok data 4 ty) by done. cbn [bind].
  rewrite (u16_at_eq data ([m; 0] ++ L ++ [ty; 0]) (A ++ q) id) by (rewrite <- ?app_assoc; done || len_lia).
  cbn [bind].
  rewrite (slice_eq data ([m; 0] ++ L ++ [ty; 0] ++ I) A q) by (rewrite <- ?app_assoc; done || len_lia).
  cbn [bind]. unfold parseTransformAttributes, A. rewrite parse_attributes_enc by (done || lia).
  cbn [bind app]. subst m. by destruct more.
Qed.

Lemma len_enc_transform more t : len (enc_transform more t) = 8 + len (enc_attrs (t_Attributes t)).
Proof. unfold enc_transform. len_lia. Qed.
Lemma enc_transforms_nonempty ts : ts <> [] -> 8 <= len (enc_transforms ts).
Proof.
  destruct ts as [|t ts]; [done|]. intros _. cbn [enc_transforms]. pose proof (len_enc_transform (0 <? len ts) t).
  pose proof (len_nonneg (enc_attrs (t_Attributes t))). len_lia.
Qed.

Lemma parse_transforms_enc fuel ts out :
  (length (enc_transforms ts) < fuel)%nat -> Forall Transform_ok ts -> Forall transform_fits ts ->
  parse_transforms_loop fuel (enc_transforms ts) out = Ok (out ++ ts).
Proof.
  revert fuel out. induction ts as [|t ts IH]; intros fuel out Hfu Hok Hfit;
    (destruct fuel as [|fuel]; [lia|]); cbn [parse_transforms_loop].
  - by rewrite app_nil_r.
  - apply Forall_cons in Hok as [Ht Hok]. apply Forall_cons in Hfit as [Hl Hfit].
    cbn [enc_transforms] in *. pose proof (len_enc_transform (0 <? len ts) t) as Hlt.
    pose proof (len_nonneg (enc_attrs (t_Attributes t))).
    assert (Hfu' : (length (enc_transforms ts) < fuel)%nat)
      by (rewrite length_app in Hfu; unfold len in *; lia).
    go_if. cbn [negb]. rewrite parse_transform_enc by done. cbn [bind].
    rewrite (slice_from_eq _ (enc_transform (0 <? len ts) t) (enc_transforms ts)) by (done || lia).
    cbn [bind]. destruct ts as [|t' ts]; [done|].
    replace (0 <? len (t' :: ts)) with true by (symmetry; len_lia). cbn [negb].
    rewrite IH by done. by rewrite <- app_assoc.
Qed.

Lemma parse_proposal_enc p :
  Proposal_ok p -> proposal_fits p -> parseProposalBody (enc_proposal_body p) = Ok p.
Proof.
  intros (Hn & Hpr & Hspi & Hok) (_ & Hsl & Htl & Hfit & _). destruct p as [n pr spi ts].
  unfold enc_proposal_body. cbn [pr_Number pr_ProtocolID pr_SPI pr_Transforms] in *.
  set (T := enc_transforms ts). set (data := [n; pr; len spi; len ts] ++ spi ++ T).
  pose proof (len_nonneg spi). pose proof (len_nonneg T).
  assert (Hd : len data = 4 + len spi + len T) by (subst data; len_lia).
  unfold parseProposalBody. go_if.
  rewrite (at_Ok data 2 (len spi)), (at_Ok data 3 (len ts)) by done. cbn [bind]. go_if.
  rewrite (at_Ok data 0 n), (at_Ok data 1 pr) by done. cbn [bind].
  rewrite (slice_eq data [n; pr; len spi; len ts] spi T) by (done || len_lia). cbn [bind].
  rewrite (slice_from_eq data ([n; pr; len spi; len ts] ++ spi) T)
    by (rewrite <- ?app_assoc; done || len_lia). cbn [bind].
  unfold T. rewrite parse_transforms_enc by (done || lia). cbn [bind app].
  by rewrite Z.eqb_refl.
Qed.

Lemma len_enc_proposals_cons p ps :
  len (enc_proposals (p :: ps)) = 4 + len (enc_proposal_body p) + len (enc_proposals ps).
Proof. cbn [enc_proposals]. len_lia. Qed.
Lemma len_enc_proposal_body p : pr_Transforms p <> [] -> 12 <= len (enc_proposal_body p).
Proof.
  intros H%enc_transforms_nonempty. unfold enc_proposal_body. pose proof (len_nonneg (pr_SPI p)). len_lia.
Qed.

Lemma parse_proposals_enc fuel ps out :
  (length (enc_proposals ps) < fuel)%nat -> Forall Proposal_ok ps -> Forall proposal_fits ps ->
  parse_proposals_loop fuel (enc_proposals ps) out = Ok (out ++ ps).
Proof.
  revert fuel out. induction ps as [|p ps IH]; intros fuel out Hfu Hok Hfit;
    (destruct fuel as [|fuel]; [lia|]); cbn [parse_proposals_loop].
  - by rewrite app_nil_r.
  - apply Forall_cons in Hok as [Hp Hok]. apply Forall_cons in Hfit as [Hf Hfit].
    pose proof (len_enc_proposals_cons p ps) as Hlen.
    pose proof (len_enc_proposal_body p (proj1 Hf)) as Hb.
    assert (len (enc_proposal_body p) + 4 <= 65535) as Hmax by apply Hf.
    assert (Hfu' : (length (enc_proposals ps) < fuel)%nat) by (unfold len in *; lia).
    cbn [enc_proposals] in *. set (B := enc_proposal_body p) in *. set (R := enc_proposals ps) in *.
    pose proof (len_nonneg R). set (m := if 0 <? len ps then 2 else 0) in *.
    set (data := [m; 0] ++ be_bytes 2 (len B + 4) ++ B ++ R) in *.
    do 2 go_if. cbn [negb]. rewrite (at_Ok data 0 m) by done. cbn [bind].
    rewrite (u16_at_eq data [m; 0] (B ++ R) (len B + 4)) by (done || len_lia). cbn [bind]. go_if.
    rewrite (slice_eq data ([m; 0] ++ be_bytes 2 (len B + 4)) B R)
      by (rewrite <- ?app_assoc; done || len_lia). cbn [bind].
    unfold B at 1. rewrite parse_proposal_enc by done. cbn [bind].
    rewrite (slice_from_eq data ([m; 0] ++ be_bytes 2 (len B + 4) ++ B) R)
      by (rewrite <- ?app_assoc; done || len_lia). cbn [bind].
    subst m R. destruct ps as [|p' ps]; [done|].
    replace (0 <? len (p' :: ps)) with true by (symmetry; len_lia).
    cbn [Z.eqb negb]. rewrite IH by done. by rewrite <- app_assoc.
Qed.

Lemma parse_SA_enc sa b : SA_ok sa -> SA_MarshalBinary sa = Ok b -> ParseSecurityAssociation b = Ok sa.
Proof.
  unfold SA_MarshalBinary. intros Hok Hm. destruct (len (sa_Proposals sa) =? 0) eqn:H0; [done|].
  apply marshal_proposals_Ok in Hm as [-> Hf]; [|done]. unfold ParseSecurityAssociation.
  cbn [app]. rewrite parse_proposals_enc by (done || lia). cbn [bind app]. rewrite H0. by destruct sa.
Qed.

(** ** The parsers are total *)
Lemma parse_attributes_safe fuel data out :
  bytes_ok data -> (length data < fuel)%nat -> Forall Attr_ok out ->
  safe (parse_attributes_loop fuel data out) (Forall Attr_ok).
Proof.
  revert data out. induction fuel as [|fuel IH]; intros data out Hd Hf Hout; [lia|].
  cbn [parse_attributes_loop]. go_safe; try done.
  - apply IH; [done|unfold len in *; lia|]. apply Forall_snoc_2; [done|]. split; [|done].
    cbn. change 0x7fff with (Z.ones 15). rewrite Z.land_ones by lia. by apply Z.mod_pos_bound.
  - apply IH; [done|unfold len in *; lia|]. apply Forall_snoc_2; [done|]. split; [|done].
    apply (testbit_clear _ 15); [done|done|].
    match goal with H : negb (Z.land _ _ =? 0) = false |- _ => rename H into Hb end.
    change 0x8000 with (2 ^ 15) in Hb. rewrite land_pow2_eqb in Hb by lia.
    by apply negb_false_iff, negb_true_iff in Hb.
Qed.

Lemma parseTransform_safe data :
  bytes_ok data ->
  safe (parseTransform data) (fun r => Transform_ok (r.1.1) /\ 8 <= r.2 <= len data).
Proof.
  intros Hd. unfold parseTransform. go_safe.
  eapply safe_mono; [apply parse_attributes_safe; [done|lia|constructor]|].
  intros attrs Ha. unfold Transform_ok. go_safe; cbn; repeat split; done || lia || len_lia.
Qed.

Lemma parse_transforms_safe fuel rest out :
  bytes_ok rest -> (length rest < fuel)%nat -> Forall Transform_ok out ->
  safe (parse_transforms_loop fuel rest out) (Forall Transform_ok).
Proof.
  revert rest out. induction fuel as [|fuel IH]; intros rest out Hd Hf Hout; [lia|].
  cbn [parse_transforms_loop]. destruct (negb (0 <? len rest)) eqn:?; [done|].
  eapply safe_call; [by apply parseTransform_safe|]. intros [[tr more] length] [Htr Hl]. cbn in Htr, Hl.
  go_safe; [by apply Forall_snoc_2..|].
  apply IH; [done|unfold len in *; lia|by apply Forall_snoc_2].
Qed.

Lemma parseProposalBody_safe data : bytes_ok data -> safe (parseProposalBody data) Proposal_ok.
Proof.
  intros Hd. unfold parseProposalBody. go_safe.
  eapply safe_mono; [apply parse_transforms_safe; [done|lia|constructor]|].
  intros ts Hts. go_safe. by split_and!.
Qed.

Lemma parse_proposals_safe fuel rest out :
  bytes_ok rest -> (length rest < fuel)%nat -> Forall Proposal_ok out ->
  safe (parse_proposals_loop fuel rest out) (Forall Proposal_ok).
Proof.
  revert rest out. induction fuel as [|fuel IH]; intros rest out Hd Hf Hout; [lia|].
  cbn [parse_proposals_loop]. go_safe; [done|].
  eapply safe_mono; [by apply parseProposalBody_safe|]. intros p Hp. cbv beta. go_safe.
  - by apply Forall_snoc_2.
  - apply IH; [done|unfold len in *; lia|by apply Forall_snoc_2].
Qed.

Lemma ParseSecurityAssociation_safe b :
  bytes_ok b -> safe (ParseSecurityAssociation b) (fun sa => SA_ok sa /\ sa_Proposals sa <> []).
Proof.
  intros Hb. unfold ParseSecurityAssociation.
  eapply safe_call; [apply parse_proposals_safe; [done|lia|constructor]|].
  intros ps Hps. destruct ps as [|p ps]; [done|]. go_safe. by split.
Qed.

Lemma enc_attrs_ok attrs : Forall Attr_ok attrs -> bytes_ok (enc_attrs attrs).
Proof.
  induction 1 as [|a attrs [? ?] _ IH]; [apply bytes_ok_nil|]. rewrite enc_attrs_cons.
  apply bytes_ok_app_2; [|done]. unfold enc_attr. case_match; auto 6 with gobytes.
Qed.
Lemma enc_transforms_ok ts : Forall Transform_ok ts -> bytes_ok (enc_transforms ts).
Proof.
  induction 1 as [|t ts (? & ? & ?%enc_attrs_ok) _ IH]; [apply bytes_ok_nil|]. cbn [enc_transforms].
  apply bytes_ok_app_2; [|done]. unfold enc_transform.
  assert (is_u8 0) by done. assert (is_u8 (if 0 <? len ts then 3 else 0)) by by case_match.
  auto 12 with gobytes.
Qed.
Lemma enc_proposal_body_ok p : Proposal_ok p -> proposal_fits p -> bytes_ok (enc_proposal_body p).
Proof.
  intros (? & ? & ? & ?%enc_transforms_ok) (_ & ? & ? & _). unfold enc_proposal_body.
  assert (is_u8 (len (pr_SPI p)) /\ is_u8 (len (pr_Transforms p))) as [? ?] by len_lia.
  auto 12 with gobytes.
Qed.
Lemma enc_proposals_ok ps : Forall Proposal_ok ps -> Forall proposal_fits ps -> bytes_ok (enc_proposals ps).
Proof.
  induction 1 as [|p ps Hp _ IH]; intros Hf; [apply bytes_ok_nil|].
  apply Forall_cons in Hf as [Hf Hfs]. cbn [enc_proposals].
  pose proof (enc_proposal_body_ok p Hp Hf). assert (is_u8 0) by done.
  assert (is_u8 (if 0 <? len ps then 2 else 0)) by by case_match. specialize (IH Hfs).
  auto 12 with gobytes.
Qed.

#[export] Instance sa_codec : Codec SecurityAssociation :=
  {| enc := SA_MarshalBinary; dec := ParseSecurityAssociation; val_ok := SA_ok |}.
#[export] Instance sa_laws : CodecLaws SecurityAssociation.
Proof.
  constructor; cbn.
  - intros sa b Hok. unfold SA_MarshalBinary. case_match; [done|]. intros Hm.
    apply marshal_proposals_Ok in Hm as [-> Hf]; [|done]. by apply enc_proposals_ok.
  - intros b Hb. eapply safe_mono; [by apply ParseSecurityAssociation_safe|]. by intros sa [? _].
  - apply parse_SA_enc.
Qed.

(** ** Selection *)

(** Attributes are a multiset. *)
Definition Transform_equiv (a b : Transform) : Prop :=
  t_Type a = t_Type b /\ t_ID a = t_ID b /\ t_Attributes a ≡ₚ t_Attributes b.
#[export] Instance Transform_equivalence : Equivalence Transform_equiv.
Proof.
  unfold Transform_equiv. split.
  - done.
  - intros a b (? & ? & ?). by split_and!.
  - intros a b c (? & ? & ?) (? & ? & ?). split_and!; by etrans.
Qed.

(** The elements of [b] that no flag marks. *)
Fixpoint unused (b : list TransformAttribute) (used : list bool) : list TransformAttribute :=
  match b, used with
  | x :: b', u :: used' => if u then unused b' used' else x :: unused b' used'
  | _, _ => []
  end.

Lemma mark_first_unused_spec a b used :
  length used = length b ->
  match mark_first_unused a b used with
  | Some used' => length used' = length b /\ unused b used ≡ₚ a :: unused b used'
  | None => a ∉ unused b used
  end.
Proof.
  revert used. induction b as [|x b IH]; intros [|u used] Hl; try done; [by intros ?%elem_of_nil|].
  cbn [mark_first_unused unused]. injection Hl as Hl. specialize (IH used Hl).
  destruct (u || negb (at_Type a =? at_Type x) || negb (bytesEqual (at_Value a) (at_Value x))) eqn:Hc.
  - assert (u = false -> x <> a) as Hx.
    { intros -> ->. rewrite Z.eqb_refl in Hc. unfold bytesEqual in Hc.
      by rewrite bool_decide_eq_true_2 in Hc. }
    destruct (mark_first_unused a b used) as [used'|]; cbn.
    + destruct IH as [IHl IH]. split; [by rewrite IHl|]. destruct u; [done|].
      rewrite IH. constructor.
    + destruct u; [done|]. rewrite elem_of_cons. intros [->|?]; [by apply Hx|done].
  - apply orb_false_iff in Hc as [[-> Ht]%orb_false_iff Hv].
    apply negb_false_iff, Z.eqb_eq in Ht. apply negb_false_iff, bool_decide_eq_true in Hv.
    split; [cbn; congruence|]. destruct a, x. cbn in *. by subst.
Qed.

Lemma attributes_equal_loop_spec a b used :
  length used = length b -> length a = length (unused b used) ->
  attributes_equal_loop a b used = true <-> a ≡ₚ unused b used.
Proof.
  revert used. induction a as [|x a IH]; intros used Hl Hlen; cbn [attributes_equal_loop].
  - by destruct (unused b used).
  - pose proof (mark_first_unused_spec x b used Hl) as Hm.
    destruct (mark_first_unused x b used) as [used'|].
    + destruct Hm as [Hl' Hp]. rewrite Hp in Hlen. injection Hlen as Hlen.
      rewrite (IH used' Hl' Hlen), Hp. split; [by intros ->|apply Permutation_cons_inv].
    + split; [done|]. intros Hp. destruct Hm. rewrite <- Hp. by left.
Qed.

Lemma unused_none b : unused b (replicate (length b) false) = b.
Proof. induction b as [|x b IH]; [done|]. cbn. by rewrite IH. Qed.

Lemma transformAttributesEqual_spec a b : transformAttributesEqual a b = true <-> a ≡ₚ b.
Proof.
  unfold transformAttributesEqual. destruct (negb (len a =? len b)) eqn:Hl.
  - split; [done|]. intros Hp%Permutation_length. unfold len in Hl. rewrite Hp, Z.eqb_refl in Hl. done.
  - rewrite attributes_equal_loop_spec by
      (rewrite ?unused_none, ?length_replicate; unfold len in Hl; done || lia).
    by rewrite unused_none.
Qed.

Lemma transformsEqual_spec a b : transformsEqual a b = true <-> Transform_equiv a b.
Proof.
  unfold transformsEqual, Transform_equiv.
  rewrite !andb_true_iff, !Z.eqb_eq, transformAttributesEqual_spec. tauto.
Qed.

(** Every selected transform is one of the offered proposal. *)
Definition supports (o s : Proposal) : Prop :=
  pr_ProtocolID o = pr_ProtocolID s /\
  forall t, t ∈ pr_Transforms s -> exists t', t' ∈ pr_Transforms o /\ Transform_equiv t' t.

Lemma existsb_spec {A} (f : A -> bool) l : existsb f l = true <-> exists x, x ∈ l /\ f x = true.
Proof. rewrite existsb_exists. by setoid_rewrite list_elem_of_In. Qed.
Lemma forallb_spec {A} (f : A -> bool) l : forallb f l = true <-> forall x, x ∈ l -> f x = true.
Proof. rewrite forallb_forall. by setoid_rewrite list_elem_of_In. Qed.

Lemma proposalSupportsSelection_spec o s : proposalSupportsSelection o s = true <-> supports o s.
Proof.
  unfold proposalSupportsSelection, supports. destruct (Z.eqb_spec (pr_ProtocolID o) (pr_ProtocolID s)); cbn [negb].
  - rewrite forallb_spec. unfold proposalHasTransform. setoid_rewrite existsb_spec.
    setoid_rewrite transformsEqual_spec. tauto.
  - tauto || (split; [done|tauto]).
Qed.

Definition has_type (p : Proposal) (ty : Z) : Prop := exists t, t ∈ pr_Transforms p /\ t_Type t = ty.
Definition first_of_type (p : Proposal) (ty : Z) (t : Transform) : Prop :=
  exists pre post, pr_Transforms p = pre ++ t :: post /\ t_Type t = ty /\
  Forall (fun t => t_Type t <> ty) pre.

(** The transform types a usable proposal must have: integrity protection is
    separate exactly when the cipher does not combine it. *)
Definition required_present (p : Proposal) : Prop :=
  exists e, first_of_type p TransformENCR e /\
  (has_type p TransformINTEG <-> t_ID e <> ENCR_AES_GCM_16) /\
  ((pr_ProtocolID p = ProtocolIKE /\ has_type p TransformPRF /\ has_type p TransformDHRGroup) \/
   (pr_ProtocolID p = ProtocolESP /\ has_type p TransformESN)).

Definition selection_spec (offered selected : SecurityAssociation) : Prop :=
  exists p, sa_Proposals selected = [p] /\ required_present p /\
  exists o, o ∈ sa_Proposals offered /\ supports o p.

Lemma findTransform_spec p ty :
  match findTransform (pr_Transforms p) ty with
  | Some t => first_of_type p ty t
  | None => ~ has_type p ty
  end.
Proof.
  unfold first_of_type, has_type. induction (pr_Transforms p) as [|x ts IH]; cbn [findTransform].
  - intros (t & Ht%elem_of_nil & _). done.
  - destruct (Z.eqb_spec (t_Type x) ty) as [Hx|Hx]; [by exists [], ts|].
    destruct (findTransform ts ty) as [t|].
    + destruct IH as (pre & post & -> & Ht & Hpre). exists (x :: pre), post. by repeat constructor.
    + intros (t & [->|Ht]%elem_of_cons & Hty); [done|]. apply IH. eauto.
Qed.
Lemma first_of_type_unique p ty t t' : first_of_type p ty t -> first_of_type p ty t' -> t = t'.
Proof.
  intros (a & b & Hp & Ht & Ha) (a' & b' & Hp' & Ht' & Ha'). rewrite Hp in Hp'. clear Hp.
  revert a' Hp' Ha'. induction a as [|x a IH]; intros [|x' a'] Hp Ha';
    cbn in Hp; simplify_eq; [done| | |].
  - apply Forall_cons in Ha' as [? _]. done.
  - apply Forall_cons in Ha as [? _]. done.
  - apply Forall_cons in Ha as [_ Ha], Ha' as [_ Ha']. by eapply IH.
Qed.
Lemma first_has_type p ty t : first_of_type p ty t -> has_type p ty.
Proof. intros (a & b & Hp & Ht & _). exists t. rewrite Hp. split; [set_solver|done]. Qed.
Lemma proposalHasTransformType_spec p ty : proposalHasTransformType p ty = true <-> has_type p ty.
Proof.
  unfold proposalHasTransformType, has_type. rewrite existsb_spec. by setoid_rewrite Z.eqb_eq.
Qed.

Lemma required_transforms_Ok p :
  validateSelectedProposalRequiredTransforms p = Ok tt <-> required_present p.
Proof.
  unfold validateSelectedProposalRequiredTransforms, required_present.
  pose proof (findTransform_spec p TransformENCR) as He. pose proof (proposalHasTransformType_spec p) as Hs.
  destruct (findTransform (pr_Transforms p) TransformENCR) as [e|].
  2: { split; [|by intros (e & ?%first_has_type & _)]. intros (req & Hr & Hk)%bind_ok.
       cbn [negb] in Hk. cbn [bind] in Hk. case_match; [|done]. destruct He. apply Hs.
       eapply forallb_spec; [done|]. destruct (pr_ProtocolID p =? ProtocolIKE), (pr_ProtocolID p =? ProtocolESP);
         simplify_eq; left. }
  assert (Hspec : required_present p <->
    (has_type p TransformINTEG <-> t_ID e <> ENCR_AES_GCM_16) /\
    ((pr_ProtocolID p = ProtocolIKE /\ has_type p TransformPRF /\ has_type p TransformDHRGroup) \/
     (pr_ProtocolID p = ProtocolESP /\ has_type p TransformESN))).
  { unfold required_present. split; [|eauto]. intros (e' & He' & H).
    by rewrite (first_of_type_unique _ _ _ _ He He'). }
  fold (required_present p). rewrite Hspec. clear Hspec. apply first_has_type, Hs in He.
  unfold isCombinedModeEncryption. rewrite <- !Hs.
  destruct (Z.eqb_spec (pr_ProtocolID p) ProtocolIKE) as [HI|HI],
    (Z.eqb_spec (pr_ProtocolID p) ProtocolESP) as [HE|HE],
    (Z.eqb_spec (t_ID e) ENCR_AES_GCM_16) as [HG|HG],
    (proposalHasTransformType p TransformINTEG) eqn:HN; try (unfold ProtocolIKE, ProtocolESP in *; lia);
    cbn [bind negb app forallb]; rewrite ?He, ?HN;
    destruct (proposalHasTransformType p TransformPRF), (proposalHasTransformType p TransformDHRGroup),
      (proposalHasTransformType p TransformESN); cbn [andb]; clear Hs He HN; naive_solver.
Qed.

Lemma required_transforms_errs p :
  errs (fun e => e = Sentinel ErrUnsupportedSASelection) (validateSelectedProposalRequiredTransforms p) /\
  returns (validateSelectedProposalRequiredTransforms p).
Proof.
  unfold validateSelectedProposalRequiredTransforms.
  repeat (case_match; cbn [bind errs]; try done).
Qed.

Lemma first_in_transforms p : required_present p -> pr_Transforms p <> [].
Proof. intros (e & (pre & post & -> & _) & _). by destruct pre. Qed.

Lemma ValidateSelectedSA_spec offered selected :
  (ValidateSelectedSA offered selected = Ok tt <-> selection_spec offered selected) /\
  (ValidateSelectedSA offered selected = Ok tt \/
   ValidateSelectedSA offered selected = Errorf ErrUnsupportedSASelection).
Proof.
  unfold ValidateSelectedSA, selection_spec.
  destruct (len (sa_Proposals offered) =? 0) eqn:H0.
  { apply Z.eqb_eq, len_zero in H0. rewrite H0. split; [|by right]. split; [done|].
    by intros (p & _ & _ & o & ?%elem_of_nil & _). }
  destruct (sa_Proposals selected) as [|p others].
  { split; [|by right]. split; [done|]. by intros (p & ? & _). }
  destruct others as [|q others].
  2: { replace (negb (len (p :: q :: others) =? 1)) with true by (symmetry; len_lia).
       split; [|by right]. split; [done|]. by intros (p' & ? & _). }
  cbn [len length negb Z.eqb]. change (len [p] =? 1) with true. cbn [negb].
  destruct (len (pr_Transforms p) =? 0) eqn:Ht.
  { apply Z.eqb_eq, len_zero in Ht. split; [|by right]. split; [done|].
    intros (p' & [= <-] & ?%first_in_transforms & _). done. }
  pose proof (required_transforms_Ok p) as Hr. pose proof (required_transforms_errs p) as [He Hn].
  destruct (validateSelectedProposalRequiredTransforms p) as [[]|e| |]; cbn [bind]; try done.
  2: { cbn in He. subst e. split; [|by right]. split; [done|].
       intros (p' & [= <-] & H%Hr & _). done. }
  pose proof (existsb_spec (fun o => proposalSupportsSelection o p) (sa_Proposals offered)) as Hs.
  setoid_rewrite proposalSupportsSelection_spec in Hs.
  destruct (existsb _ _); (split; [|by auto]); split; try done.
  - intros _. exists p. split; [done|]. split; [by apply Hr|]. by apply Hs.
  - intros (p' & [= <-] & _ & Ho). by apply Hs in Ho.
Qed.

(** ** Properties *)

(** The security-association codec: parsing never panics and runs out its
    input (each loop ends), yields well-formed proposals, at least one of them,
    and inverts [SecurityAssociation.MarshalBinary] on every well-formed value
    it encodes, so that the encoding is injective. *)
Theorem sa_codec_correct :
  (forall data, bytes_ok data ->
     safe (ParseSecurityAssociation data) (fun sa => SA_ok sa /\ sa_Proposals sa <> [])) /\
  (forall sa b, SA_ok sa -> SA_MarshalBinary sa = Ok b ->
     bytes_ok b /\ ParseSecurityAssociation b = Ok sa) /\
  (forall sa sa' b, SA_ok sa -> SA_ok sa' ->
     SA_MarshalBinary sa = Ok b -> SA_MarshalBinary sa' = Ok b -> sa = sa').
Proof.
  split_and!.
  - exact ParseSecurityAssociation_safe.
  - intros sa b Hok Hm. split; [by apply (enc_bytes_ok (A := SecurityAssociation) sa b)|by apply parse_SA_enc].
  - intros sa sa' b. exact (enc_inj (C := sa_codec) sa sa' b).
Qed.

(** [SecurityAssociation.MarshalBinary] never panics; it succeeds exactly on
    non-empty proposal lists that fit the length fields of the format
    (SPI and transform count in one octet, lengths in two) and then
    writes the reference encoding [enc_proposals]. *)
Theorem SA_MarshalBinary_exact sa :
  SA_ok sa ->
  returns (SA_MarshalBinary sa) /\
  forall b, SA_MarshalBinary sa = Ok b <->
    sa_Proposals sa <> [] /\ Forall proposal_fits (sa_Proposals sa) /\
    b = enc_proposals (sa_Proposals sa).
Proof.
  intros Hok. unfold SA_MarshalBinary. destruct (len (sa_Proposals sa) =? 0) eqn:H0.
  { apply Z.eqb_eq, len_zero in H0. split; [done|]. intros b. split; [done|by intros (? & _)]. }
  split; [apply marshal_proposals_returns|]. intros b. split.
  - intros [-> ?]%marshal_proposals_Ok; [|done]. split; [|done]. intros Hn. by rewrite Hn in H0.
  - intros (_ & Hf & ->). by apply marshal_proposals_complete.
Qed.

(** [transformAttributesEqual], the greedy matching with [used] flags,
    decides equality of the attribute lists as multisets, so [transformsEqual]
    is an equivalence relation. *)
Theorem transformsEqual_correct :
  (forall a b, transformAttributesEqual a b = true <-> a ≡ₚ b) /\
  (forall a b, transformsEqual a b = true <-> Transform_equiv a b) /\
  Equivalence Transform_equiv.
Proof.
  split_and!; [exact transformAttributesEqual_spec|exact transformsEqual_spec|apply _].
Qed.

(** C13: [ValidateSelectedSA] accepts exactly the selections the initiator
    offered: one proposal, of the protocol of an offered proposal all of whose
    transforms that proposal contains, complete for its protocol, with integrity
    protection exactly when the cipher is not AES-GCM; every other selection is
    rejected with [ErrUnsupportedSASelection]. *)
Theorem ValidateSelectedSA_correct offered selected :
  (ValidateSelectedSA offered selected = Ok tt <-> selection_spec offered selected) /\
  (ValidateSelectedSA offered selected = Ok tt \/
   ValidateSelectedSA offered selected = Errorf ErrUnsupportedSASelection).
Proof. apply ValidateSelectedSA_spec. Qed.

Example ValidateSelectedSA_default :
  ValidateSelectedSA DefaultIKEProposal DefaultIKEProposal = Ok tt /\
  ValidateSelectedSA DefaultIKEProposal Default3GPPIKEProposal = Errorf ErrUnsupportedSASelection.
Proof. vm_compute. split; reflexivity. Qed.
