(* ===== verification/Keys.v ===== *)
(** * IKEv2 key material (engine/swu/ikev2/keys.go, crypto.go)

    From the accepted proposal to the profile of key lengths, the PRF+
    expansion of RFC 7296 and the split of the key material into the seven
    keys of the IKE SA. *)
From S2P Require Import Prelude Errors Crypto Types Codec Notify Sa.

Definition aesGCMSaltLength := 4.
Definition aesGCMExplicitIVLength := 8.
Definition aesGCM16ChecksumLength := 16.
#[export] Hint Unfold aesGCMSaltLength aesGCMExplicitIVLength aesGCM16ChecksumLength : goconst.

Record KeyMaterialProfile := mkProfile {
  kp_PRF : hash;
  kp_EncryptionID : Z;
  kp_EncryptionKeyLength : Z;
  kp_EncryptionBlockSize : Z;
  kp_IntegrityID : Z;
  kp_IntegrityKeyLength : Z;
  kp_IntegrityChecksumLength : Z;
  kp_PRFKeyLength : Z
}.

Definition RequiredLength (p : KeyMaterialProfile) : Z :=
  kp_PRFKeyLength p + kp_IntegrityKeyLength p * 2 + kp_EncryptionKeyLength p * 2 + kp_PRFKeyLength p * 2.

Record IKEKeys := mkIKEKeys {
  k_Profile : KeyMaterialProfile;
  k_SKD : bytes;
  k_SKAi : bytes;
  k_SKAr : bytes;
  k_SKEi : bytes;
  k_SKEr : bytes;
  k_SKPi : bytes;
  k_SKPr : bytes
}.

Definition PRFHashForTransform (id : Z) : result hash :=
  if id =? PRF_HMAC_SHA1 then Ok SHA1
  else if id =? PRF_HMAC_SHA2_256 then Ok SHA256
  else if id =? PRF_HMAC_SHA2_384 then Ok SHA384
  else if id =? PRF_HMAC_SHA2_512 then Ok SHA512
  else Errorf ErrUnsupportedTransform.

Fixpoint transformKeyLength_loop (attrs : list TransformAttribute) : result Z :=
  match attrs with
  | [] => Ok 0
  | attr :: rest =>
      if (at_Type attr =? AttributeKeyLength) && (2 <=? len (at_Value attr))
      then u16_at (at_Value attr) 0 2
      else transformKeyLength_loop rest
  end.
Definition transformKeyLength (t : Transform) : result Z := transformKeyLength_loop (t_Attributes t).

Definition encryptionProfile (t : Transform) : result (Z * Z) :=
  if t_ID t =? ENCR_AES_CBC then
    let! bits := transformKeyLength t in
    let bits := if bits =? 0 then 128 else bits in
    if negb (bits =? 128) && negb (bits =? 192) && negb (bits =? 256)
    then Errorf ErrUnsupportedTransform else Ok (bits / 8, 16)
  else if t_ID t =? ENCR_AES_GCM_16 then
    let! bits := transformKeyLength t in
    let bits := if bits =? 0 then 128 else bits in
    if negb (bits =? 128) && negb (bits =? 192) && negb (bits =? 256)
    then Errorf ErrUnsupportedTransform
    else Ok (bits / 8 + aesGCMSaltLength, aesGCMExplicitIVLength)
  else Errorf ErrUnsupportedTransform.

Definition combinedModeChecksumLength (id : Z) : result Z :=
  if id =? ENCR_AES_GCM_16 then Ok aesGCM16ChecksumLength else Errorf ErrUnsupportedTransform.

Definition integrityProfile (id : Z) : result (Z * Z) :=
  if id =? INTEG_HMAC_SHA1_96 then let! n := Hash_Size SHA1 in Ok (n, 12)
  else if id =? INTEG_HMAC_SHA2_256_128 then let! n := Hash_Size SHA256 in Ok (n, 16)
  else if id =? INTEG_HMAC_SHA2_384_192 then let! n := Hash_Size SHA384 in Ok (n, 24)
  else if id =? INTEG_HMAC_SHA2_512_256 then let! n := Hash_Size SHA512 in Ok (n, 32)
  else Errorf ErrUnsupportedTransform.

Definition KeyMaterialProfileFromSA (sa : SecurityAssociation) : result KeyMaterialProfile :=
  match sa_Proposals sa with
  | [] => Errorf ErrInvalidSA
  | p :: _ =>
      match findTransform (pr_Transforms p) TransformENCR with
      | None => Errorf ErrUnsupportedTransform
      | Some encr =>
      match findTransform (pr_Transforms p) TransformPRF with
      | None => Errorf ErrUnsupportedTransform
      | Some prf =>
      let! prfHash := PRFHashForTransform (t_ID prf) in
      let! r := encryptionProfile encr in
      let '(encrKeyLen, blockSize) := r in
      let! r :=
        (if isCombinedModeEncryption (t_ID encr) then
           match findTransform (pr_Transforms p) TransformINTEG with
           | Some _ => Errorf ErrUnsupportedTransform
           | None => let! checksumLen := combinedModeChecksumLength (t_ID encr) in Ok (0, 0, checksumLen)
           end
         else
           match findTransform (pr_Transforms p) TransformINTEG with
           | None => Errorf ErrUnsupportedTransform
           | Some integ =>
               let! r := integrityProfile (t_ID integ) in
               let '(integKeyLen, checksumLen) := r in Ok (t_ID integ, integKeyLen, checksumLen)
           end) in
      let '(integID, integKeyLen, checksumLen) := r in
      let! prfKeyLen := Hash_Size prfHash in
      Ok (mkProfile prfHash (t_ID encr) encrKeyLen blockSize integID integKeyLen checksumLen prfKeyLen)
      end
      end
  end.

(** The closure [take] of [SplitIKEKeys]: the next [n] octets and the rest. *)
Definition take_key (rest : bytes) (n : Z) : result (bytes * bytes) :=
  let! out := slice rest 0 n in
  let! rest := slice_from rest n in
  Ok (out, rest).

Definition SplitIKEKeys (profile : KeyMaterialProfile) (keyMaterial : bytes) : result IKEKeys :=
  let need := RequiredLength profile in
  if need <=? 0 then Errorf ErrUnsupportedTransform else
  if len keyMaterial <? need then Errorf ErrInvalidLength else
  let! r := take_key keyMaterial (kp_PRFKeyLength profile) in let '(skd, rest) := r in
  let! r := take_key rest (kp_IntegrityKeyLength profile) in let '(skai, rest) := r in
  let! r := take_key rest (kp_IntegrityKeyLength profile) in let '(skar, rest) := r in
  let! r := take_key rest (kp_EncryptionKeyLength profile) in let '(skei, rest) := r in
  let! r := take_key rest (kp_EncryptionKeyLength profile) in let '(sker, rest) := r in
  let! r := take_key rest (kp_PRFKeyLength profile) in let '(skpi, rest) := r in
  let! r := take_key rest (kp_PRFKeyLength profile) in let '(skpr, rest) := r in
  Ok (mkIKEKeys profile skd skai skar skei sker skpi skpr).

Section crypto.
Context {C : Crypto}.

Definition PRF (h : hash) (key data : bytes) : result bytes :=
  if negb (Hash_Available h) then Errorf ErrUnsupportedPRF else Ok (hmac_Sum h key data).

(** [for counter := byte(1); len(out) < length; counter++]; the counter is an octet. *)
Fixpoint PRFPlus_loop (fuel : nat) (h : hash) (key seed : bytes) (length : Z)
    (counter : Z) (out previous : bytes) : result bytes :=
  match fuel with
  | O => OutOfFuel
  | S fuel' =>
      if len out <? length then
        let input := previous ++ seed ++ [counter] in
        let! block := PRF h key input in
        PRFPlus_loop fuel' h key seed length (to_u8 (counter + 1)) (out ++ block) block
      else slice out 0 length
  end.

Definition PRFPlus (h : hash) (key seed : bytes) (length : Z) : result bytes :=
  if length <? 0 then Errorf ErrInvalidLength else
  if length =? 0 then Ok [] else
  let! size := Hash_Size h in
  if 255 * size <? length then Errorf ErrInvalidLength else
  PRFPlus_loop (S (Z.to_nat length)) h key seed length 1 [] [].

Definition SKEYSEED (h : hash) (nonceI nonceR sharedSecret : bytes) : result bytes :=
  PRF h (nonceI ++ nonceR) sharedSecret.

Definition DeriveIKESAKeyMaterial (h : hash) (skeyseed nonceI nonceR : bytes) (spiI spiR length : Z)
  : result bytes :=
  PRFPlus h skeyseed (nonceI ++ nonceR ++ be_bytes 8 spiI ++ be_bytes 8 spiR) length.

(** ** The expansion of RFC 7296, section 2.13 *)

(** [prf_T h key seed n] is [T1 | T2 | ... | Tn]: [T(i) = prf(K, T(i-1) | S | i)]. *)
Fixpoint prf_block (h : hash) (key seed : bytes) (n : nat) : bytes :=
  match n with
  | O => []
  | S m => hmac_Sum h key (prf_block h key seed m ++ seed ++ [Z.of_nat n])
  end.
Definition prf_stream (h : hash) (key seed : bytes) (n : nat) : bytes :=
  concat (prf_block h key seed <$> seq 1 n).

Context `{!CryptoLaws C}.

Lemma len_prf_block h key seed n : h <> HashNone -> len (prf_block h key seed (S n)) = hash_size h.
Proof. intros. cbn [prf_block]. by apply hmac_len. Qed.
Lemma prf_stream_S h key seed n :
  prf_stream h key seed (S n) = prf_stream h key seed n ++ prf_block h key seed (S n).
Proof.
  unfold prf_stream. rewrite seq_S, fmap_app, concat_app. cbn [fmap list_fmap concat Nat.add].
  by rewrite app_nil_r.
Qed.
Lemma len_prf_stream h key seed n : h <> HashNone -> len (prf_stream h key seed n) = Z.of_nat n * hash_size h.
Proof.
  intros Hh. induction n as [|n IH]; [done|]. rewrite prf_stream_S, len_app, IH, len_prf_block by done. lia.
Qed.
Lemma prf_stream_prefix h key seed n m :
  (n <= m)%nat -> exists q, prf_stream h key seed m = prf_stream h key seed n ++ q.
Proof.
  induction 1 as [|m Hle [q IH]]; [exists []; by rewrite app_nil_r|].
  rewrite prf_stream_S, IH, <- app_assoc. eauto.
Qed.

Lemma PRFPlus_loop_spec h key seed length n fuel :
  h <> HashNone -> 0 < length <= 255 * hash_size h ->
  (n <= 255)%nat -> (n = 0%nat \/ (Z.of_nat n - 1) * hash_size h < length) ->
  (Z.to_nat length < fuel + n)%nat ->
  PRFPlus_loop fuel h key seed length (to_u8 (Z.of_nat n + 1)) (prf_stream h key seed n) (prf_block h key seed n)
    = Ok (take (Z.to_nat length) (prf_stream h key seed 255)).
Proof.
  intros Hh Hlen. revert n. induction fuel as [|fuel IH]; intros n Hn Hprev Hf.
  { exfalso. assert (20 <= hash_size h) by by destruct h. destruct Hprev; nia. }
  assert (20 <= hash_size h) by by destruct h.
  cbn [PRFPlus_loop]. rewrite len_prf_stream by done. destruct (Z.of_nat n * hash_size h <? length) eqn:Hlt.
  - unfold PRF, Hash_Available. rewrite bool_decide_eq_true_2 by done. cbn [negb bind].
    assert (n < 255)%nat by nia. replace (to_u8 (Z.of_nat n + 1)) with (Z.of_nat (S n))
      by (unfold to_u8; rewrite Z.mod_small; lia).
    change (hmac_Sum h key _) with (prf_block h key seed (S n)). rewrite <- prf_stream_S.
    apply IH; [lia| |lia]. right. replace (Z.of_nat (S n) - 1) with (Z.of_nat n) by lia. lia.
  - rewrite slice_Ok by (rewrite ?len_prf_stream by done; lia). f_equal. unfold sub.
    rewrite drop_0, Z.sub_0_r. destruct (prf_stream_prefix h key seed n 255) as [q ->]; [lia|].
    rewrite take_app_le; [done|]. pose proof (len_prf_stream h key seed n Hh). unfold len in *. lia.
Qed.

Lemma PRFPlus_spec h key seed length :
  h <> HashNone -> 0 <= length <= 255 * hash_size h ->
  PRFPlus h key seed length = Ok (take (Z.to_nat length) (prf_stream h key seed 255)).
Proof.
  intros Hh Hl. unfold PRFPlus. go_if. destruct (Z.eqb_spec length 0) as [->|]; [done|].
  replace (Hash_Size h) with (Ok (E := error) (hash_size h)) by by destruct h. cbn [bind]. go_if.
  apply (PRFPlus_loop_spec h key seed length 0); [done|lia|lia|by left|lia].
Qed.

Lemma prf_block_ok h key seed n : bytes_ok (prf_block h key seed n).
Proof. destruct n; [constructor|]. apply hmac_ok. Qed.
Lemma prf_stream_ok h key seed n : bytes_ok (prf_stream h key seed n).
Proof.
  induction n; [constructor|]. rewrite prf_stream_S. by apply bytes_ok_app_2, prf_block_ok.
Qed.
End crypto.

(** ** Usable profiles *)
Definition integrity_lengths (id keyLen checksumLen : Z) : Prop :=
  (id, keyLen, checksumLen) ∈
    [(INTEG_HMAC_SHA1_96, 20, 12); (INTEG_HMAC_SHA2_256_128, 32, 16);
     (INTEG_HMAC_SHA2_384_192, 48, 24); (INTEG_HMAC_SHA2_512_256, 64, 32)].
Definition profile_ok (p : KeyMaterialProfile) : Prop :=
  kp_PRF p <> HashNone /\ kp_PRFKeyLength p = hash_size (kp_PRF p) /\
  ((kp_EncryptionID p = ENCR_AES_CBC /\ kp_EncryptionKeyLength p ∈ [16; 24; 32] /\
    kp_EncryptionBlockSize p = 16 /\
    integrity_lengths (kp_IntegrityID p) (kp_IntegrityKeyLength p) (kp_IntegrityChecksumLength p)) \/
   (kp_EncryptionID p = ENCR_AES_GCM_16 /\ kp_EncryptionKeyLength p ∈ [20; 28; 36] /\
    kp_EncryptionBlockSize p = 8 /\ kp_IntegrityID p = 0 /\ kp_IntegrityKeyLength p = 0 /\
    kp_IntegrityChecksumLength p = 16)).
#[export] Instance profile_ok_dec p : Decision (profile_ok p).
Proof. unfold profile_ok, integrity_lengths. apply _. Defined.

Lemma transformKeyLength_safe t : Transform_ok t -> safe (transformKeyLength t) is_u16.
Proof.
  intros (_ & _ & Ha). unfold transformKeyLength. induction Ha as [|a attrs [_ Hv] _ IH]; [done|].
  cbn [transformKeyLength_loop].
  destruct (_ && _) eqn:Hb; [|done]. go_safe. done.
Qed.

Lemma key_bits_cases bits k :
  (let b := if bits =? 0 then 128 else bits in
   negb (b =? 128) && negb (b =? 192) && negb (b =? 256) = false -> (b / 8 + k) ∈ [16 + k; 24 + k; 32 + k]).
Proof.
  cbv zeta. set (b := if bits =? 0 then 128 else bits). intros H.
  rewrite !andb_false_iff, !negb_false_iff, !Z.eqb_eq in H.
  destruct H as [[->| ->]| ->]; set_solver.
Qed.

Lemma encryptionProfile_safe t :
  Transform_ok t -> safe (encryptionProfile t) (fun r =>
    (t_ID t = ENCR_AES_CBC /\ r.1 ∈ [16; 24; 32] /\ r.2 = 16) \/
    (t_ID t = ENCR_AES_GCM_16 /\ r.1 ∈ [20; 28; 36] /\ r.2 = 8)).
Proof.
  intros Ht. unfold encryptionProfile. destruct (Z.eqb_spec (t_ID t) ENCR_AES_CBC).
  - eapply safe_call; [by apply transformKeyLength_safe|]. intros bits _.
    pose proof (key_bits_cases bits 0) as Hb. go_safe. left. split; [done|]. split; [|done].
    specialize (Hb Heqb). by rewrite Z.add_0_r in Hb.
  - destruct (Z.eqb_spec (t_ID t) ENCR_AES_GCM_16); [|done].
    eapply safe_call; [by apply transformKeyLength_safe|]. intros bits _.
    pose proof (key_bits_cases bits 4) as Hb. go_safe. right. split; [done|]. split; [|done].
    by apply Hb.
Qed.

Lemma integrityProfile_safe id : safe (integrityProfile id) (fun r => integrity_lengths id r.1 r.2).
Proof.
  unfold integrityProfile, integrity_lengths. go_safe; cbn;
    match goal with H : (_ =? _) = true |- _ => apply Z.eqb_eq in H; subst id end; set_solver.
Qed.

Lemma PRFHashForTransform_safe id : safe (PRFHashForTransform id) (fun h => h <> HashNone).
Proof. unfold PRFHashForTransform. go_safe; done. Qed.

Lemma findTransform_ok ts ty t : Forall Transform_ok ts -> findTransform ts ty = Some t -> Transform_ok t.
Proof.
  induction 1 as [|x ts Hx _ IH]; cbn [findTransform]; [done|]. case_match; [by intros [= <-]|done].
Qed.

Lemma KeyMaterialProfileFromSA_safe sa : SA_ok sa -> safe (KeyMaterialProfileFromSA sa) profile_ok.
Proof.
  intros Hok. unfold KeyMaterialProfileFromSA. destruct (sa_Proposals sa) as [|p ps] eqn:Hp; [done|].
  assert (Forall Transform_ok (pr_Transforms p)) as Hts.
  { unfold SA_ok in Hok. rewrite Hp in Hok. apply Forall_cons in Hok as [(_ & _ & _ & ?) _]. done. }
  destruct (findTransform (pr_Transforms p) TransformENCR) as [encr|] eqn:He; [|done].
  destruct (findTransform (pr_Transforms p) TransformPRF) as [prf|]; [|done].
  eapply safe_call; [apply PRFHashForTransform_safe|]. intros h Hh.
  eapply safe_call; [eapply encryptionProfile_safe, findTransform_ok; done|]. intros [kl bs] Hr.
  cbn [fst snd] in Hr.
  assert (Hsz : Hash_Size h = Ok (hash_size h)) by by destruct h.
  unfold isCombinedModeEncryption, combinedModeChecksumLength.
  destruct (Z.eqb_spec (t_ID encr) ENCR_AES_GCM_16) as [HG|HG].
  - destruct (findTransform _ TransformINTEG); [done|]. cbn [bind]. rewrite Hsz. cbn [bind safe].
    destruct Hr as [[HC _]|(_ & Hk & Hb)]; [rewrite HC in HG; discriminate HG|].
    split; [done|]. split; [done|]. right. cbn. by split_and!.
  - destruct (findTransform _ TransformINTEG) as [integ|]; [|done].
    eapply safe_call.
    { eapply safe_call; [apply integrityProfile_safe|]. intros [ik cl] Hi.
      instantiate (1 := fun r => integrity_lengths r.1.1 r.1.2 r.2). exact Hi. }
    intros [[ii ik] cl] Hi. rewrite Hsz. cbn [bind safe fst snd] in *.
    destruct Hr as [(HC & Hk & Hb)|[? _]]; [|done].
    split; [done|]. split; [done|]. left. by split_and!.
Qed.

Lemma hash_size_pos h : h <> HashNone -> 20 <= hash_size h <= 64.
Proof. by destruct h. Qed.

Lemma profile_lengths p :
  profile_ok p -> 20 <= kp_PRFKeyLength p <= 64 /\ 0 <= kp_IntegrityKeyLength p <= 64 /\
  16 <= kp_EncryptionKeyLength p <= 36 /\ 0 < kp_IntegrityChecksumLength p.
Proof.
  intros (Hh & -> & H). pose proof (hash_size_pos _ Hh). split; [lia|].
  unfold integrity_lengths in H. rewrite !elem_of_cons, !elem_of_nil in H.
  destruct H as [(_ & Hk & _ & Hi)|(_ & Hk & _ & _ & Hi)]; [|lia].
  split_and!; try lia; destruct Hi as [[= _ ? ?]|[[= _ ? ?]|[[= _ ? ?]|[[= _ ? ?]|[]]]]]; lia.
Qed.

Lemma take_key_Ok rest n :
  0 <= n <= len rest -> take_key rest n = Ok (take (Z.to_nat n) rest, drop (Z.to_nat n) rest).
Proof.
  intros. unfold take_key. rewrite slice_Ok by lia. unfold slice_from. cbn [bind].
  rewrite slice_Ok by lia. cbn [bind]. rewrite sub_to_end by lia. unfold sub.
  by rewrite drop_0, Z.sub_0_r.
Qed.
Lemma len_take_le (l : bytes) n : 0 <= n <= len l -> len (take (Z.to_nat n) l) = n.
Proof. unfold len. intros. rewrite length_take. lia. Qed.
Lemma len_drop_le (l : bytes) n : 0 <= n <= len l -> len (drop (Z.to_nat n) l) = len l - n.
Proof. unfold len. intros. rewrite length_drop. lia. Qed.

Lemma take_key_split rest n :
  0 <= n <= len rest -> exists out rest', take_key rest n = Ok (out, rest') /\
    rest = out ++ rest' /\ len out = n /\ len rest' = len rest - n.
Proof.
  intros. do 2 eexists. split; [by apply take_key_Ok|].
  by rewrite take_drop, len_take_le, len_drop_le.
Qed.

(** The seven keys, in the order of RFC 7296 section 2.14. *)
Definition key_lengths (p : KeyMaterialProfile) (k : IKEKeys) : Prop :=
  len (k_SKD k) = kp_PRFKeyLength p /\
  len (k_SKAi k) = kp_IntegrityKeyLength p /\ len (k_SKAr k) = kp_IntegrityKeyLength p /\
  len (k_SKEi k) = kp_EncryptionKeyLength p /\ len (k_SKEr k) = kp_EncryptionKeyLength p /\
  len (k_SKPi k) = kp_PRFKeyLength p /\ len (k_SKPr k) = kp_PRFKeyLength p.

(** Cuts the next key. *)
Ltac take_step :=
  match goal with |- context [take_key ?l ?n] =>
    let o := fresh "o" in let r := fresh "r" in let H := fresh "Hs" in
    destruct (take_key_split l n) as (o & r & H & ? & ? & ?); [lia|rewrite H; clear H; cbn [bind]]
  end.

Lemma SplitIKEKeys_spec p km :
  profile_ok p -> RequiredLength p <= len km ->
  exists k, SplitIKEKeys p km = Ok k /\ k_Profile k = p /\ key_lengths p k /\
    k_SKD k ++ k_SKAi k ++ k_SKAr k ++ k_SKEi k ++ k_SKEr k ++ k_SKPi k ++ k_SKPr k
      = take (Z.to_nat (RequiredLength p)) km.
Proof.
  intros Hp Hl. pose proof (profile_lengths p Hp) as (? & ? & ? & _).
  unfold SplitIKEKeys. unfold RequiredLength in *. do 2 go_if.
  do 7 take_step. eexists. split; [done|]. split; [done|]. unfold key_lengths. cbn.
  split; [by split_and!|]. subst. rewrite !app_assoc. symmetry.
  match goal with |- take _ (?a ++ ?b) = _ => rewrite (take_app_length' a b); [done|] end.
  unfold len in *. rewrite !length_app. lia.
Qed.

(** ** Properties *)

(** [PRFPlus] is the expansion of RFC 7296 for every hash, key and seed: a
    request of [length] octets up to 255 blocks is the prefix of that length of
    [T1 | T2 | ... | T255] (so the octet counter never wraps and the loop ends),
    a longer or negative request is [ErrInvalidLength], and only the zero hash
    panics. *)
Theorem PRFPlus_correct (C : Crypto) (L : CryptoLaws C) h key seed length :
  (h <> HashNone -> 0 <= length <= 255 * hash_size h ->
     PRFPlus h key seed length = Ok (take (Z.to_nat length) (prf_stream h key seed 255)) /\
     len (take (Z.to_nat length) (prf_stream h key seed 255)) = length) /\
  (length < 0 \/ (h <> HashNone /\ 255 * hash_size h < length) ->
     PRFPlus h key seed length = Errorf ErrInvalidLength) /\
  (h = HashNone -> 0 < length -> PRFPlus h key seed length = Panic).
Proof.
  split_and!.
  - intros Hh Hl. split; [by apply PRFPlus_spec|]. apply len_take_le. rewrite len_prf_stream by done. lia.
  - unfold PRFPlus. intros [H|[Hh H]]; [by go_if|]. pose proof (hash_size_pos h Hh). do 2 go_if.
    replace (Hash_Size h) with (Ok (E := error) (hash_size h)) by by destruct h. cbn [bind]. by go_if.
  - intros -> ?. unfold PRFPlus. by do 2 go_if.
Qed.

Lemma PRFPlus_correct_witness :
  PRFPlus (C := toy_crypto) SHA1 [1; 2] [3] 45 =
    Ok (take 45 (prf_stream (C := toy_crypto) SHA1 [1; 2] [3] 255)).
Proof.
  apply (PRFPlus_correct toy_crypto toy_crypto_laws SHA1 [1; 2] [3] 45); [discriminate|].
  cbn. lia.
Defined.

(** [KeyMaterialProfileFromSA] never panics on a well-formed SA, and a profile
    it returns is usable: the cipher is AES-CBC with a MAC of matching key and
    checksum lengths or AES-GCM without one, the key length is one AES has
    (plus the salt for GCM), and the PRF key is as long as the hash. *)
Theorem KeyMaterialProfileFromSA_usable sa :
  SA_ok sa ->
  returns (KeyMaterialProfileFromSA sa) /\
  forall p, KeyMaterialProfileFromSA sa = Ok p -> profile_ok p.
Proof.
  intros Hok%KeyMaterialProfileFromSA_safe. split; [by eapply safe_returns|].
  intros p Hp. by eapply safe_ok.
Qed.

Lemma KeyMaterialProfileFromSA_usable_witness :
  profile_ok (mkProfile SHA256 ENCR_AES_CBC 16 16 INTEG_HMAC_SHA2_256_128 32 16 32).
Proof.
  apply (KeyMaterialProfileFromSA_usable DefaultIKEProposal); [by_decide|]. vm_compute. reflexivity.
Defined.

(** [SplitIKEKeys] with a usable profile: key material that is too short is
    [ErrInvalidLength]; otherwise the seven keys have the lengths of the profile
    and are, concatenated in the order SK_d, SK_ai, SK_ar, SK_ei, SK_er, SK_pi,
    SK_pr, the first [RequiredLength] octets of the material. *)
Theorem SplitIKEKeys_correct p km :
  profile_ok p ->
  (len km < RequiredLength p -> SplitIKEKeys p km = Errorf ErrInvalidLength) /\
  (RequiredLength p <= len km ->
     exists k, SplitIKEKeys p km = Ok k /\ k_Profile k = p /\ key_lengths p k /\
     k_SKD k ++ k_SKAi k ++ k_SKAr k ++ k_SKEi k ++ k_SKEr k ++ k_SKPi k ++ k_SKPr k
       = take (Z.to_nat (RequiredLength p)) km).
Proof.
  intros Hp. split; [|by apply SplitIKEKeys_spec]. intros Hl.
  pose proof (profile_lengths p Hp). unfold SplitIKEKeys. unfold RequiredLength in *. by do 2 go_if.
Qed.

Definition sample_profile := mkProfile SHA1 ENCR_AES_CBC 16 16 INTEG_HMAC_SHA1_96 20 12 20.
Lemma SplitIKEKeys_correct_witness :
  exists k, SplitIKEKeys sample_profile (replicate 132 7) = Ok k /\
    k_SKD k ++ k_SKAi k ++ k_SKAr k ++ k_SKEi k ++ k_SKEr k ++ k_SKPi k ++ k_SKPr k = replicate 132 7.
Proof.
  destruct (proj2 (SplitIKEKeys_correct sample_profile (replicate 132 7) ltac:(by_decide)) ltac:(by_decide))
    as (k & Hk & _ & _ & Hc).
  exists k. split; [exact Hk|exact Hc].
Defined.
