(* ===== verification/Sk.v ===== *)
(** * The Encrypted payload (engine/swu/ikev2/sk.go) and [randomBytes] of init.go

    [ProtectMessage] encrypts a chain of inner payloads into a message with a
    single SK payload, [UnprotectMessage] checks and decrypts one, each under
    AES-CBC with a MAC or under AES-GCM. *)
From S2P Require Import Prelude Errors Crypto Types Codec Notify Sa Keys.

Definition randomBytes (random : Reader) (n : Z) : result bytes :=
  if n <=? 0 then Errorf ErrInvalidInitConfig else random n.

Lemma randomBytes_safe r n : reader_ok r -> safe (randomBytes r n) bytes_ok.
Proof. intros Hr. unfold randomBytes. go_case H0; [done|]. apply reader_bytes; [done|lia]. Qed.

Definition validAESGCMIKEKeyLength (n : Z) : bool :=
  (n =? 16 + aesGCMSaltLength) || (n =? 24 + aesGCMSaltLength) || (n =? 32 + aesGCMSaltLength).

Definition validateKeySet (keys : IKEKeys) : result unit :=
  let p := k_Profile keys in
  if kp_EncryptionID p =? ENCR_AES_CBC then
    if negb (kp_EncryptionBlockSize p =? aes_BlockSize) || (kp_EncryptionKeyLength p <=? 0) ||
       (kp_IntegrityKeyLength p <=? 0) || (kp_IntegrityChecksumLength p <=? 0)
    then Errorf ErrInvalidSKPayload else
    if negb (len (k_SKEi keys) =? kp_EncryptionKeyLength p) ||
       negb (len (k_SKEr keys) =? kp_EncryptionKeyLength p) ||
       negb (len (k_SKAi keys) =? kp_IntegrityKeyLength p) ||
       negb (len (k_SKAr keys) =? kp_IntegrityKeyLength p)
    then Errorf ErrInvalidSKPayload else Ok tt
  else if kp_EncryptionID p =? ENCR_AES_GCM_16 then
    if negb (kp_EncryptionBlockSize p =? aesGCMExplicitIVLength) ||
       negb (validAESGCMIKEKeyLength (kp_EncryptionKeyLength p)) ||
       negb (kp_IntegrityID p =? 0) || negb (kp_IntegrityKeyLength p =? 0) ||
       negb (kp_IntegrityChecksumLength p =? aesGCM16ChecksumLength)
    then Errorf ErrInvalidSKPayload else
    if negb (len (k_SKEi keys) =? kp_EncryptionKeyLength p) ||
       negb (len (k_SKEr keys) =? kp_EncryptionKeyLength p) ||
       negb (len (k_SKAi keys) =? 0) || negb (len (k_SKAr keys) =? 0)
    then Errorf ErrInvalidSKPayload else Ok tt
  else Errorf ErrUnsupportedTransform.

Definition keysForDirection (keys : IKEKeys) (fromInitiator : bool) : bytes * bytes :=
  if fromInitiator then (k_SKEi keys, k_SKAi keys) else (k_SKEr keys, k_SKAr keys).

(** The integer remainder of Go; a zero divisor panics. *)
Definition go_rem (a b : Z) : result Z := if b =? 0 then Panic else Ok (Z.rem a b).

Definition padIKEPlaintext (data : bytes) (blockSize : Z) : result bytes :=
  let! r := go_rem (len data + 1) blockSize in
  let! padLen := go_rem (blockSize - r) blockSize in
  Ok (data ++ ((fun i => to_u8 (Z.of_nat i + 1)) <$> seq 0 (Z.to_nat padLen)) ++ [to_u8 padLen]).

Definition unpadIKEPlaintext (data : bytes) : result bytes :=
  if len data =? 0 then Errorf ErrInvalidSKPayload else
  let! padLen := at_ data (len data - 1) in
  if len data <? padLen + 1 then Errorf ErrInvalidSKPayload else
  slice data 0 (len data - padLen - 1).

Definition aesGCMIKENonce (salt iv : bytes) : bytes := salt ++ iv.

Definition ikeSKAssociatedData (raw : bytes) : result bytes :=
  if len raw <? HeaderLength + 4 then Errorf ErrInvalidSKPayload else
  slice raw 0 (HeaderLength + 4).

Definition integrityHash (id : Z) : result hash :=
  if id =? INTEG_HMAC_SHA1_96 then Ok SHA1
  else if id =? INTEG_HMAC_SHA2_256_128 then Ok SHA256
  else if id =? INTEG_HMAC_SHA2_384_192 then Ok SHA384
  else if id =? INTEG_HMAC_SHA2_512_256 then Ok SHA512
  else Errorf ErrUnsupportedTransform.

Section sk.
Context {C : Crypto} (rand_Reader : Reader).

Definition IntegrityChecksum (profile : KeyMaterialProfile) (key data : bytes) : result bytes :=
  let! h := integrityHash (kp_IntegrityID profile) in
  if negb (Hash_Available h) then Errorf ErrUnsupportedPRF else
  let sum := hmac_Sum h key data in
  if (kp_IntegrityChecksumLength profile <=? 0) || (len sum <? kp_IntegrityChecksumLength profile)
  then Errorf ErrInvalidSKPayload else
  slice sum 0 (kp_IntegrityChecksumLength profile).

Definition RandomIV (random : option Reader) (profile : KeyMaterialProfile) : result bytes :=
  let random := match random with None => rand_Reader | Some r => r end in
  randomBytes random (kp_EncryptionBlockSize profile).

Definition encryptAESCBC (key iv plain : bytes) : result bytes :=
  let! _ := aes_NewCipher key in
  if negb (len iv =? aes_BlockSize) || negb (Z.rem (len plain) aes_BlockSize =? 0)
  then Errorf ErrInvalidSKPayload else
  Ok (cbc_CryptBlocks_enc key iv plain).

Definition decryptAESCBC (key iv ciphertext : bytes) : result bytes :=
  let! _ := aes_NewCipher key in
  if negb (len iv =? aes_BlockSize) || (len ciphertext =? 0) ||
     negb (Z.rem (len ciphertext) aes_BlockSize =? 0)
  then Errorf ErrInvalidSKPayload else
  Ok (cbc_CryptBlocks_dec key iv ciphertext).

(** The AEAD is its key and its tag size. *)
Definition aesGCMIKEAEAD (key : bytes) (tagLen : Z) : result (bytes * Z * bytes) :=
  if negb (validAESGCMIKEKeyLength (len key)) then Errorf ErrInvalidSKPayload else
  let aesKeyLen := len key - aesGCMSaltLength in
  let! aesKey := slice key 0 aesKeyLen in
  let! _ := aes_NewCipher aesKey in
  let! _ := NewGCMWithTagSize tagLen in
  let! salt := slice_from key aesKeyLen in
  Ok (aesKey, tagLen, salt).

Definition make (n : Z) : bytes := replicate (Z.to_nat n) 0.

Definition protectMessageAESCBC (header : Header) (keys : IKEKeys) (fromInitiator : bool)
    (firstInner : Z) (innerBytes iv : bytes) : result (Message * bytes) :=
  let blockSize := kp_EncryptionBlockSize (k_Profile keys) in
  let! iv := (if len iv =? 0 then randomBytes rand_Reader blockSize else Ok iv) in
  if negb (len iv =? blockSize) then Errorf ErrInvalidSKPayload else
  let! plain := padIKEPlaintext innerBytes blockSize in
  let '(encrKey, integKey) := keysForDirection keys fromInitiator in
  let! ciphertext := encryptAESCBC encrKey iv plain in
  let bodyNoICV := iv ++ ciphertext in
  let icvLen := kp_IntegrityChecksumLength (k_Profile keys) in
  let body := bodyNoICV ++ make icvLen in
  let! rawWithZeros :=
    Message_MarshalBinary (mkMessage header [mkPayload PayloadSK firstInner false body]) in
  let! authenticated := slice rawWithZeros 0 (len rawWithZeros - icvLen) in
  let! checksum := IntegrityChecksum (k_Profile keys) integKey authenticated in
  let! body := copy_from body (len bodyNoICV) checksum in
  let msg := mkMessage header [mkPayload PayloadSK firstInner false body] in
  let! raw := copy_from rawWithZeros (len rawWithZeros - icvLen) checksum in
  Ok (msg, raw).

Definition protectMessageAESGCM (header : Header) (keys : IKEKeys) (fromInitiator : bool)
    (firstInner : Z) (innerBytes iv : bytes) : result (Message * bytes) :=
  let ivLen := kp_EncryptionBlockSize (k_Profile keys) in
  let! iv := (if len iv =? 0 then randomBytes rand_Reader ivLen else Ok iv) in
  if negb (len iv =? ivLen) then Errorf ErrInvalidSKPayload else
  let '(encrKey, _) := keysForDirection keys fromInitiator in
  let! a := aesGCMIKEAEAD encrKey (kp_IntegrityChecksumLength (k_Profile keys)) in
  let '(aesKey, overhead, salt) := a in
  let! plain := padIKEPlaintext innerBytes 1 in
  let body := iv ++ make (len plain + overhead) in
  let! rawWithZeros :=
    Message_MarshalBinary (mkMessage header [mkPayload PayloadSK firstInner false body]) in
  let! aad := ikeSKAssociatedData rawWithZeros in
  let! sealed := aead_Seal aesKey overhead (aesGCMIKENonce salt iv) plain aad in
  let! body := copy_from body (len iv) sealed in
  let msg := mkMessage header [mkPayload PayloadSK firstInner false body] in
  let! raw := copy_from rawWithZeros (HeaderLength + 4) body in
  Ok (msg, raw).

Definition ProtectMessage (header : Header) (keys : IKEKeys) (fromInitiator : bool)
    (inner : list Payload) (iv : bytes) : result (Message * bytes) :=
  if (len inner =? 0) && negb (h_ExchangeType header =? ExchangeINFORMATIONAL)
  then Errorf ErrInvalidSKPayload else
  let! _ := validateKeySet keys in
  let! r := MarshalPayloads inner in
  let '(firstInner, innerBytes) := r in
  if kp_EncryptionID (k_Profile keys) =? ENCR_AES_CBC then
    protectMessageAESCBC header keys fromInitiator firstInner innerBytes iv
  else if kp_EncryptionID (k_Profile keys) =? ENCR_AES_GCM_16 then
    protectMessageAESGCM header keys fromInitiator firstInner innerBytes iv
  else Errorf ErrUnsupportedTransform.

Definition unprotectMessageAESCBC (raw : bytes) (msg : Message) (sk : Payload) (keys : IKEKeys)
    (fromInitiator : bool) : result (Message * list Payload) :=
  let blockSize := kp_EncryptionBlockSize (k_Profile keys) in
  let icvLen := kp_IntegrityChecksumLength (k_Profile keys) in
  if (len (p_Body sk) <? blockSize + icvLen) || (len raw <? icvLen)
  then Errorf ErrInvalidSKPayload else
  let! bodyNoICV := slice (p_Body sk) 0 (len (p_Body sk) - icvLen) in
  let! gotICV := slice_from (p_Body sk) (len (p_Body sk) - icvLen) in
  let '(encrKey, integKey) := keysForDirection keys fromInitiator in
  let! authenticated := slice raw 0 (len raw - icvLen) in
  let! expected := IntegrityChecksum (k_Profile keys) integKey authenticated in
  if negb (bytesEqual gotICV expected) then Errorf ErrInvalidSKPayload else
  let! iv := slice bodyNoICV 0 blockSize in
  let! ciphertext := slice_from bodyNoICV blockSize in
  let! plain := decryptAESCBC encrKey iv ciphertext in
  let! innerBytes := unpadIKEPlaintext plain in
  let! inner := ParsePayloads (p_NextPayload sk) innerBytes in
  Ok (msg, inner).

Definition unprotectMessageAESGCM (raw : bytes) (msg : Message) (sk : Payload) (keys : IKEKeys)
    (fromInitiator : bool) : result (Message * list Payload) :=
  let ivLen := kp_EncryptionBlockSize (k_Profile keys) in
  let tagLen := kp_IntegrityChecksumLength (k_Profile keys) in
  if len (p_Body sk) <? ivLen + tagLen + 1 then Errorf ErrInvalidSKPayload else
  let! iv := slice (p_Body sk) 0 ivLen in
  let! ciphertext := slice_from (p_Body sk) ivLen in
  let '(encrKey, _) := keysForDirection keys fromInitiator in
  let! a := aesGCMIKEAEAD encrKey tagLen in
  let '(aesKey, tagLen, salt) := a in
  let! aad := ikeSKAssociatedData raw in
  let! plain := map_err (fun _ => Sentinel ErrInvalidSKPayload)
    (aead_Open aesKey tagLen (aesGCMIKENonce salt iv) ciphertext aad) in
  let! innerBytes := unpadIKEPlaintext plain in
  let! inner := ParsePayloads (p_NextPayload sk) innerBytes in
  Ok (msg, inner).

Definition UnprotectMessage (raw : bytes) (keys : IKEKeys) (fromInitiator : bool)
  : result (Message * list Payload) :=
  let! _ := validateKeySet keys in
  let! msg := ParseMessage raw in
  match m_Payloads msg with
  | [sk] =>
      if negb (p_Type sk =? PayloadSK) then Errorf ErrInvalidSKPayload else
      if kp_EncryptionID (k_Profile keys) =? ENCR_AES_CBC then
        unprotectMessageAESCBC raw msg sk keys fromInitiator
      else if kp_EncryptionID (k_Profile keys) =? ENCR_AES_GCM_16 then
        unprotectMessageAESGCM raw msg sk keys fromInitiator
      else Errorf ErrUnsupportedTransform
  | _ => Errorf ErrInvalidSKPayload
  end.
End sk.

(** ** Padding *)
Definition pad_of (n : Z) : bytes := ((fun i => to_u8 (Z.of_nat i + 1)) <$> seq 0 (Z.to_nat n)) ++ [n].

Lemma len_pad_of n : 0 <= n -> len (pad_of n) = n + 1.
Proof. intros. unfold pad_of. rewrite len_app, len_fmap. unfold len at 1. rewrite length_seq. len_lia. Qed.
Lemma pad_of_ok n : is_u8 n -> bytes_ok (pad_of n).
Proof.
  intros. apply bytes_ok_app_2; [|auto with gobytes]. apply Forall_fmap, Forall_true.
  intros i. apply to_u8_range.
Qed.

(** The number of padding octets: it completes the last block. *)
Lemma pad_amount m bs :
  0 <= m -> 0 < bs -> let n := Z.rem (bs - Z.rem m bs) bs in 0 <= n < bs /\ Z.rem (m + n) bs = 0.
Proof.
  intros Hm Hbs. rewrite (Z.rem_mod_nonneg m) by lia. assert (0 <= m mod bs < bs) by (apply Z.mod_pos_bound; lia).
  rewrite Z.rem_mod_nonneg by lia. assert (0 <= (bs - m mod bs) mod bs < bs) by (apply Z.mod_pos_bound; lia).
  cbv zeta. split; [done|]. rewrite Z.rem_mod_nonneg by lia. rewrite Z.add_mod_idemp_r by lia.
  replace (m + (bs - m mod bs)) with ((m / bs + 1) * bs) by (rewrite (Z.mod_eq m bs) by lia; ring).
  apply Z.mod_mul. lia.
Qed.

Lemma padIKEPlaintext_spec data bs :
  0 < bs <= 256 -> exists n, padIKEPlaintext data bs = Ok (data ++ pad_of n) /\ is_u8 n /\
    n < bs /\ Z.rem (len (data ++ pad_of n)) bs = 0.
Proof.
  intros Hbs. pose proof (len_nonneg data). unfold padIKEPlaintext, go_rem.
  replace (bs =? 0) with false by lia. cbn [bind]. destruct (pad_amount (len data + 1) bs) as [Hn Hr]; [lia..|].
  set (n := Z.rem (bs - _) bs) in *. exists n. assert (to_u8 n = n) as -> by (apply Z.mod_small; lia).
  split; [done|]. split; [unfold in_range; lia|]. split; [lia|].
  rewrite len_app, len_pad_of by lia. rewrite <- Hr. f_equal. lia.
Qed.

Lemma unpad_pad data n : is_u8 n -> unpadIKEPlaintext (data ++ pad_of n) = Ok data.
Proof.
  intros Hn. unfold in_range in Hn. pose proof (len_pad_of n ltac:(lia)) as Hp. pose proof (len_nonneg data).
  unfold unpadIKEPlaintext. rewrite len_app, Hp. go_if.
  unfold pad_of at 1. rewrite app_assoc.
  rewrite (at_app_r _ [] n).
  2: { rewrite len_app, len_fmap. unfold len at 3. rewrite length_seq. lia. }
  cbn [bind]. go_if. apply (slice_eq _ [] data (pad_of n)); [done|done|lia].
Qed.

Lemma unpad_safe data : bytes_ok data -> safe (unpadIKEPlaintext data) bytes_ok.
Proof. intros. unfold unpadIKEPlaintext. go_safe. done. Qed.

(** ** A message with one SK payload *)

(** The header, the SK payload's own header, for a body of [n] octets. *)
Definition sk_prefix (h : Header) (next n : Z) : bytes :=
  be_bytes 8 (h_InitiatorSPI h) ++ be_bytes 8 (h_ResponderSPI h) ++
  [PayloadSK; if h_Version h =? 0 then 0x20 else h_Version h; h_ExchangeType h; h_Flags h] ++
  be_bytes 4 (h_MessageID h) ++ be_bytes 4 (HeaderLength + 4 + n) ++
  [next; 0] ++ be_bytes 2 (n + 4).

Lemma len_sk_prefix h next n : len (sk_prefix h next n) = HeaderLength + 4.
Proof. reflexivity. Qed.

Lemma marshal_sk h next body raw :
  Message_MarshalBinary (mkMessage h [mkPayload PayloadSK next false body]) = Ok raw <->
  len body + 4 <= 0xffff /\ raw = sk_prefix h next (len body) ++ body.
Proof.
  pose proof (len_nonneg body).
  unfold Message_MarshalBinary. cbn [m_Payloads m_Header]. rewrite MarshalPayloads_eq.
  cbn [payloads_valid isEncryptedPayload p_Type p_Body].
  destruct (len body + 4 <=? 65535) eqn:Hl.
  2: { cbn. split; [done|lia]. }
  change (negb (isEncryptedPayload PayloadSK && (0 <? len (@nil Payload)))) with true. cbn [andb bind].
  set (E := enc_payloads _). assert (HE : E = [next; 0] ++ be_bytes 2 (len body + 4) ++ body ++ []) by done.
  assert (HlE : len E = 4 + len body) by (rewrite HE; len_lia).
  assert (Ht : to_u32 (HeaderLength + len E) = HeaderLength + 4 + len body)
    by (unfold to_u32; rewrite Z.mod_small; len_lia).
  unfold Header_MarshalBinary. cbn [h_Length h_Version h_InitiatorSPI h_ResponderSPI h_NextPayload
    h_ExchangeType h_Flags h_MessageID first_of p_Type].
  rewrite Ht. assert (HL : HeaderLength + 4 + len body <> 0) by len_lia. apply Z.eqb_neq in HL.
  rewrite HL. replace (_ <? HeaderLength) with false by len_lia. cbn [bind].
  rewrite HE, app_nil_r. unfold sk_prefix. rewrite <- !app_assoc. split.
  - intros [= <-]. split; [lia|done].
  - intros [_ ->]. done.
Qed.

Lemma marshal_sk_Ok h next body :
  len body + 4 <= 0xffff ->
  Message_MarshalBinary (mkMessage h [mkPayload PayloadSK next false body]) =
    Ok (sk_prefix h next (len body) ++ body).
Proof. intros. by apply marshal_sk. Qed.

Lemma marshal_sk_safe h next body :
  safe (Message_MarshalBinary (mkMessage h [mkPayload PayloadSK next false body]))
    (fun raw => raw = sk_prefix h next (len body) ++ body).
Proof.
  pose proof (marshal_sk h next body) as Hm.
  destruct (decide (len body + 4 <= 0xffff)) as [Hl|Hl]; [by rewrite marshal_sk_Ok|].
  unfold Message_MarshalBinary in *. cbn [m_Payloads m_Header] in *. rewrite MarshalPayloads_eq in *.
  cbn [payloads_valid isEncryptedPayload p_Type p_Body] in *.
  by replace (len body + 4 <=? 65535) with false in * by lia.
Qed.

(** ** What [validateKeySet] guarantees *)
Definition keyset_ok (keys : IKEKeys) : Prop :=
  let p := k_Profile keys in
  len (k_SKEi keys) = kp_EncryptionKeyLength p /\ len (k_SKEr keys) = kp_EncryptionKeyLength p /\
  len (k_SKAi keys) = kp_IntegrityKeyLength p /\ len (k_SKAr keys) = kp_IntegrityKeyLength p /\
  ((kp_EncryptionID p = ENCR_AES_CBC /\ kp_EncryptionBlockSize p = 16 /\ 0 < kp_EncryptionKeyLength p /\
    0 < kp_IntegrityKeyLength p /\ 0 < kp_IntegrityChecksumLength p) \/
   (kp_EncryptionID p = ENCR_AES_GCM_16 /\ kp_EncryptionBlockSize p = 8 /\
    kp_EncryptionKeyLength p ∈ [20; 28; 36] /\ kp_IntegrityID p = 0 /\ kp_IntegrityKeyLength p = 0 /\
    kp_IntegrityChecksumLength p = 16)).

Lemma validAESGCMIKEKeyLength_spec n : validAESGCMIKEKeyLength n = true <-> n ∈ [20; 28; 36].
Proof.
  unfold validAESGCMIKEKeyLength, aesGCMSaltLength. rewrite !orb_true_iff, !Z.eqb_eq.
  rewrite !elem_of_cons, elem_of_nil. lia.
Qed.

Lemma validateKeySet_spec keys : validateKeySet keys = Ok tt <-> keyset_ok keys.
Proof.
  unfold validateKeySet, keyset_ok, aes_BlockSize, aesGCMExplicitIVLength, aesGCM16ChecksumLength.
  destruct (Z.eqb_spec (kp_EncryptionID (k_Profile keys)) ENCR_AES_CBC) as [HC|HC].
  - go_case H1; [split; [done|]|go_case H2; split; try done].
    + intros (_ & _ & _ & _ & [H|[H _]]); [lia|rewrite HC in H; done].
    + intros (? & ? & ? & ? & [H|[H _]]); [lia|rewrite HC in H; done].
    + intros _. split_and!; try lia.
  - destruct (Z.eqb_spec (kp_EncryptionID (k_Profile keys)) ENCR_AES_GCM_16) as [HG|HG].
    2: { split; [done|]. intros (_ & _ & _ & _ & [(? & _)|(? & _)]); done. }
    rewrite <- validAESGCMIKEKeyLength_spec.
    go_case H1; [split; [done|]|go_case H2; split; try done].
    + intros (_ & _ & _ & _ & [[? _]|(_ & ? & Hv & ?)]); [done|]. rewrite Hv in H1. lia.
    + intros (? & ? & ? & ? & [[? _]|(_ & ? & Hv & ?)]); [done|]. lia.
    + intros _. destruct (validAESGCMIKEKeyLength _); [|exfalso; lia].
      split_and!; lia.
Qed.

Lemma validateKeySet_returns keys : returns (validateKeySet keys).
Proof. unfold returns, validateKeySet. go_safe; done. Qed.

Section sk_proofs.
Context {C : Crypto} `{!CryptoLaws C} (rand_Reader : Reader).

Lemma integrityHash_safe id : safe (integrityHash id) (fun h => h <> HashNone).
Proof. unfold integrityHash. go_safe; done. Qed.

Lemma IntegrityChecksum_safe profile key data :
  safe (IntegrityChecksum profile key data) (fun cs =>
    len cs = kp_IntegrityChecksumLength profile /\ bytes_ok cs /\
    exists h, integrityHash (kp_IntegrityID profile) = Ok h /\ kp_IntegrityChecksumLength profile <= hash_size h /\
      cs = take (Z.to_nat (kp_IntegrityChecksumLength profile)) (hmac_Sum h key data)).
Proof.
  unfold IntegrityChecksum. pose proof (integrityHash_safe (kp_IntegrityID profile)) as Hs.
  destruct (integrityHash _) as [h| | |]; try done. cbn [bind]. cbn in Hs.
  pose proof (hmac_len h key data Hs) as Hl. pose proof (hmac_ok h key data).
  destruct (negb _); [done|]. destruct (_ || _) eqn:Hb; [done|].
  apply safe_slice_ok; [done|lia|lia|]. intros s Hs' Hls Hok. split; [lia|]. split; [done|].
  exists h. split; [done|]. split; [lia|]. rewrite Hs'. unfold sub. by rewrite drop_0, Z.sub_0_r.
Qed.

Lemma aesGCMIKEAEAD_spec key :
  len key ∈ [20; 28; 36] -> exists aesKey salt, aesGCMIKEAEAD key 16 = Ok (aesKey, 16, salt) /\
    key = aesKey ++ salt /\ len salt = 4.
Proof.
  intros Hk. unfold aesGCMIKEAEAD. pose proof Hk as Hv. apply validAESGCMIKEKeyLength_spec in Hv. rewrite Hv.
  rewrite !elem_of_cons, elem_of_nil in Hk. cbn [negb]. unfold aesGCMSaltLength.
  rewrite slice_Ok by lia. cbn [bind]. unfold slice_from, aes_NewCipher. rewrite sub_len by lia.
  go_if. cbn [bind NewGCMWithTagSize]. change (NewGCMWithTagSize 16) with (Ok (E := error) tt). cbn [bind].
  rewrite slice_Ok by lia. cbn [bind]. do 2 eexists. split; [done|].
  rewrite sub_split by lia. rewrite sub_len by lia. split; [|lia].
  rewrite sub_to_end by lia. by rewrite drop_0.
Qed.

Lemma encryptAESCBC_Ok key iv plain ct :
  encryptAESCBC key iv plain = Ok ct ->
  ct = cbc_CryptBlocks_enc key iv plain /\ len iv = 16 /\ len ct = len plain /\ Z.rem (len plain) 16 = 0 /\
  (bytes_ok plain -> plain <> [] -> decryptAESCBC key iv ct = Ok plain).
Proof.
  unfold encryptAESCBC, decryptAESCBC, aes_BlockSize. intros ([] & Hk & He)%bind_ok.
  destruct (_ || _) eqn:Hb; [done|]. injection He as <-. rewrite cbc_enc_len.
  split_and!; try done; try lia. intros Hp Hne. rewrite Hk. cbn [bind].
  assert (len plain <> 0) by (by intros ?%len_zero). go_if. by rewrite cbc_dec_enc.
Qed.

Lemma keyset_direction keys dir :
  keyset_ok keys -> len (keysForDirection keys dir).1 = kp_EncryptionKeyLength (k_Profile keys).
Proof. intros (? & ? & _). by destruct dir. Qed.

(** The initialisation vector that is used: the given one, or a random one. *)
Lemma iv_ok (iv iv' : bytes) n :
  reader_ok rand_Reader -> bytes_ok iv ->
  (if len iv =? 0 then randomBytes rand_Reader n else Ok iv) = Ok iv' -> bytes_ok iv'.
Proof.
  intros Hr Hiv. destruct (len iv =? 0); [|by intros [= <-]]. unfold randomBytes.
  destruct (n <=? 0) eqn:Hn; [done|]. intros H. pose proof (Hr n ltac:(lia)) as Hs.
  rewrite H in Hs. apply Hs.
Qed.

(** What a protect function hands to the unprotect function of the peer. *)
Definition protects (unprotect : bytes -> Message -> Payload -> IKEKeys -> bool -> result (Message * list Payload))
    (h : Header) (keys : IKEKeys) (dir : bool) (first : Z) (ib : bytes) (msg : Message) (raw : bytes) : Prop :=
  exists body, msg = mkMessage h [mkPayload PayloadSK first false body] /\ bytes_ok body /\
    Message_MarshalBinary msg = Ok raw /\
    forall m cr, unprotect raw m (mkPayload PayloadSK first cr body) keys dir =
      (let! inner := ParsePayloads first ib in Ok (m, inner)).

Lemma protectMessageAESCBC_spec h keys dir first ib iv msg raw :
  reader_ok rand_Reader -> kp_EncryptionBlockSize (k_Profile keys) = 16 ->
  0 < kp_IntegrityChecksumLength (k_Profile keys) -> bytes_ok ib -> bytes_ok iv ->
  protectMessageAESCBC rand_Reader h keys dir first ib iv = Ok (msg, raw) ->
  protects unprotectMessageAESCBC h keys dir first ib msg raw.
Proof.
  intros Hr Hbs Hicv Hib Hivok. unfold protectMessageAESCBC, protects, unprotectMessageAESCBC. rewrite Hbs.
  intros (iv' & Hiv' & H)%bind_ok. apply iv_ok in Hiv'; [|done..].
  destruct (negb (len iv' =? 16)) eqn:Hl; [done|].
  destruct (padIKEPlaintext_spec ib 16) as (n & Hpad & Hn & _ & Hrem); [lia|]. rewrite Hpad in H.
  cbn [bind] in H. destruct (keysForDirection keys dir) as [ek ik]. set (icv := kp_IntegrityChecksumLength _) in *.
  apply bind_ok in H as (ct & Hct & H). apply encryptAESCBC_Ok in Hct as (Hcte & _ & Hctl & _ & Hdec).
  set (plain := ib ++ pad_of n) in *. assert (Hpl : bytes_ok plain) by (apply bytes_ok_app_2; [done|by apply pad_of_ok]).
  assert (Hplen : 0 < len plain) by (unfold plain; rewrite len_app, len_pad_of by (unfold in_range in Hn; lia);
    pose proof (len_nonneg ib); unfold in_range in Hn; lia).
  apply bind_ok in H as (raw0 & Hraw0 & H). apply marshal_sk in Hraw0 as [Hmax ->].
  assert (Hmk : len (make icv) = icv) by (unfold make; rewrite len_replicate; lia).
  set (P := sk_prefix h first (len ((iv' ++ ct) ++ make icv))) in *.
  assert (HP : len P = 32) by apply len_sk_prefix.
  assert (Hiv16 : len iv' = 16) by lia. pose proof (len_nonneg ct).
  rewrite (slice_eq _ [] (P ++ iv' ++ ct) (make icv)) in H by (rewrite <- ?app_assoc; done || len_lia).
  cbn [bind] in H. apply bind_ok in H as (cs & Hcs & H).
  pose proof (IntegrityChecksum_safe (k_Profile keys) ik (P ++ iv' ++ ct)) as Hs. rewrite Hcs in Hs.
  destruct Hs as (Hcsl & Hcsok & _). fold icv in Hcsl.
  rewrite copy_from_app in H by (done || lia). cbn [bind] in H.
  replace (P ++ (iv' ++ ct) ++ make icv) with ((P ++ iv' ++ ct) ++ make icv) in H by (by rewrite <- !app_assoc).
  rewrite copy_from_app in H by (done || len_lia).
  cbn [bind] in H. injection H as <- <-. exists ((iv' ++ ct) ++ cs). split; [done|]. split.
  { subst ct. auto 6 using bytes_ok_app_2, cbc_enc_ok. }
  assert (Hsame : len ((iv' ++ ct) ++ cs) = len ((iv' ++ ct) ++ make icv)) by (rewrite !(len_app (iv' ++ ct)); lia).
  split; [apply marshal_sk; rewrite Hsame; split; [done|]; fold P; by rewrite <- !app_assoc|].
  intros m cr. cbn [p_Body p_NextPayload].
  set (B := (iv' ++ ct) ++ cs) in *. set (R := (P ++ iv' ++ ct) ++ cs).
  assert (HB : len B = 16 + len ct + icv) by (subst B; len_lia).
  assert (HR : len R = 48 + len ct + icv) by (subst R; len_lia). go_if.
  rewrite (slice_eq B [] (iv' ++ ct) cs) by (done || len_lia). cbn [bind].
  rewrite (slice_from_eq B (iv' ++ ct) cs) by (done || len_lia). cbn [bind].
  rewrite (slice_eq R [] (P ++ iv' ++ ct) cs) by (done || len_lia). cbn [bind]. rewrite Hcs. cbn [bind].
  unfold bytesEqual. rewrite bool_decide_eq_true_2 by done. cbn [negb].
  rewrite (slice_eq _ [] iv' ct) by (done || len_lia). cbn [bind].
  rewrite (slice_from_eq _ iv' ct) by (done || len_lia). cbn [bind].
  rewrite Hdec by (try done; intros Hnil; by rewrite Hnil in Hplen). cbn [bind].
  unfold plain. by rewrite unpad_pad by done.
Qed.

Lemma protectMessageAESGCM_spec h keys dir first ib iv msg raw :
  reader_ok rand_Reader -> kp_EncryptionBlockSize (k_Profile keys) = 8 ->
  kp_IntegrityChecksumLength (k_Profile keys) = 16 ->
  len (keysForDirection keys dir).1 ∈ [20; 28; 36] -> bytes_ok ib -> bytes_ok iv ->
  protectMessageAESGCM rand_Reader h keys dir first ib iv = Ok (msg, raw) ->
  protects unprotectMessageAESGCM h keys dir first ib msg raw.
Proof.
  intros Hr Hbs Hicv Hkl Hib Hivok. unfold protectMessageAESGCM, protects, unprotectMessageAESGCM.
  rewrite Hbs, Hicv. intros (iv' & Hiv' & H)%bind_ok. apply iv_ok in Hiv'; [|done..].
  destruct (negb (len iv' =? 8)) eqn:Hl; [done|].
  destruct (keysForDirection keys dir) as [ek ik]. cbn [fst] in Hkl.
  destruct (aesGCMIKEAEAD_spec ek Hkl) as (ak & salt & Hak & _ & Hsalt). rewrite Hak in *. cbn [bind] in H.
  destruct (padIKEPlaintext_spec ib 1) as (n & Hpad & Hn & _ & _); [lia|]. rewrite Hpad in H. cbn [bind] in H.
  set (plain := ib ++ pad_of n) in *. assert (Hpl : bytes_ok plain) by (apply bytes_ok_app_2; [done|by apply pad_of_ok]).
  assert (Hplen : 0 < len plain) by (unfold plain; rewrite len_app, len_pad_of by (unfold in_range in Hn; lia);
    pose proof (len_nonneg ib); unfold in_range in Hn; lia).
  apply bind_ok in H as (raw0 & Hraw0 & H). apply marshal_sk in Hraw0 as [Hmax ->].
  set (Z0 := make (len plain + 16)) in *.
  assert (Hmk : len Z0 = len plain + 16) by (unfold Z0, make; rewrite len_replicate; lia).
  set (P := sk_prefix h first (len (iv' ++ Z0))) in *.
  assert (HP : len P = HeaderLength + 4) by apply len_sk_prefix.
  assert (Haad : forall q, ikeSKAssociatedData (P ++ q) = Ok P).
  { intros q. unfold ikeSKAssociatedData. pose proof (len_nonneg q). rewrite len_app, HP. go_if.
    apply (slice_eq _ [] P q); [done|done|]. by rewrite HP. }
  rewrite Haad in H. cbn [bind] in H.
  unfold aead_Seal, aead_Open, aesGCMIKENonce in *. assert (Hnl : len (salt ++ iv') = 12) by len_lia.
  rewrite Hnl in *. cbn [Z.eqb Pos.eqb negb bind] in H.
  set (sealed := gcm_Seal ak 16 (salt ++ iv') plain P) in *.
  assert (Hsl : len sealed = len plain + 16) by (by apply gcm_seal_len).
  rewrite copy_from_app in H by (done || lia). cbn [bind] in H.
  rewrite copy_from_app in H by (rewrite ?HP, ?(len_app iv'); done || lia). cbn [bind] in H.
  injection H as <- <-. exists (iv' ++ sealed). split; [done|]. split.
  { apply bytes_ok_app_2; [done|]. by apply gcm_seal_ok. }
  assert (Hsame : len (iv' ++ sealed) = len (iv' ++ Z0)) by (rewrite !(len_app iv'); lia).
  split; [apply marshal_sk; rewrite Hsame; split; [done|]; by fold P|].
  intros m cr. cbn [p_Body p_NextPayload]. set (B := iv' ++ sealed).
  assert (HB : len B = 24 + len plain) by (subst B; len_lia). go_if.
  rewrite (slice_eq B [] iv' sealed) by (done || len_lia). cbn [bind].
  rewrite (slice_from_eq B iv' sealed) by (done || len_lia). cbn [bind].
  rewrite Haad. cbn [bind]. rewrite Hnl. cbn [Z.eqb Pos.eqb negb]. go_if.
  unfold sealed. rewrite gcm_open_seal by done. cbn [map_err bind].
  unfold plain. by rewrite unpad_pad by done.
Qed.

(** The two protect functions and the dispatch on the cipher. *)
Lemma ProtectMessage_spec h keys dir inner iv msg raw :
  reader_ok rand_Reader -> chain_ok inner -> bytes_ok iv ->
  ProtectMessage rand_Reader h keys dir inner iv = Ok (msg, raw) ->
  keyset_ok keys /\ payloads_valid inner = true /\
  exists body, msg = mkMessage h [mkPayload PayloadSK (first_of inner) false body] /\ bytes_ok body /\
    Message_MarshalBinary msg = Ok raw /\
    forall m sk, m_Payloads m = [sk] -> p_Type sk = PayloadSK -> p_NextPayload sk = first_of inner ->
      p_Body sk = body -> ParseMessage raw = Ok m -> UnprotectMessage raw keys dir = Ok (m, link_next inner).
Proof.
  intros Hr Hin Hiv. unfold ProtectMessage. destruct (_ && _); [done|].
  intros ([] & Hk%validateKeySet_spec & H)%bind_ok. split; [done|].
  rewrite MarshalPayloads_eq in H. destruct (payloads_valid inner) eqn:Hv; [|done]. split; [done|].
  cbn [bind] in H. pose proof (bytes_ok_enc_payloads inner Hin) as Hib.
  pose proof (keyset_direction keys dir Hk) as Hdir. pose proof Hk as Hk'.
  assert (Hp : forall unp, protects unp h keys dir (first_of inner) (enc_payloads inner) msg raw ->
    (forall m sk, m_Payloads m = [sk] -> p_Type sk = PayloadSK -> ParseMessage raw = Ok m ->
       UnprotectMessage raw keys dir = unp raw m sk keys dir) ->
    exists body, msg = mkMessage h [mkPayload PayloadSK (first_of inner) false body] /\ bytes_ok body /\
    Message_MarshalBinary msg = Ok raw /\
    forall m sk, m_Payloads m = [sk] -> p_Type sk = PayloadSK -> p_NextPayload sk = first_of inner ->
      p_Body sk = body -> ParseMessage raw = Ok m -> UnprotectMessage raw keys dir = Ok (m, link_next inner)).
  { intros unp (body & Hm & Hb & Hmar & Hun) Hdisp. exists body. split_and!; try done.
    intros m sk Hps Ht Hn Hbd Hparse. rewrite (Hdisp m sk) by done.
    destruct sk as [ty nx cr bd]. specialize (Hun m cr). cbn [p_Type p_NextPayload p_Body] in *. subst.
    rewrite ParsePayloads_enc in Hun by done. exact Hun. }
  assert (Hdispatch : forall m sk, m_Payloads m = [sk] -> p_Type sk = PayloadSK -> ParseMessage raw = Ok m ->
    UnprotectMessage raw keys dir =
      if kp_EncryptionID (k_Profile keys) =? ENCR_AES_CBC then unprotectMessageAESCBC raw m sk keys dir
      else if kp_EncryptionID (k_Profile keys) =? ENCR_AES_GCM_16 then unprotectMessageAESGCM raw m sk keys dir
      else Errorf ErrUnsupportedTransform).
  { intros m sk Hps Ht Hparse. unfold UnprotectMessage.
    rewrite (proj2 (validateKeySet_spec keys) Hk), Hparse. cbn [bind]. by rewrite Hps, Ht. }
  destruct Hk as (_ & _ & _ & _ & [(HC & Hbs & _ & _ & Hicv)|(HG & Hbs & Hkl & _ & _ & Hicv)]).
  - rewrite HC in *. apply (Hp unprotectMessageAESCBC); [|exact Hdispatch].
    eapply protectMessageAESCBC_spec; [..|exact H]; done.
  - rewrite HG in *. apply (Hp unprotectMessageAESGCM); [|exact Hdispatch].
    eapply protectMessageAESGCM_spec; [..|exact H]; try done. by rewrite Hdir.
Qed.
End sk_proofs.

Section sk_safety.
Context {C : Crypto} `{!CryptoLaws C}.

Lemma ParsePayloads_returns_inner (m : Message) next ib :
  bytes_ok ib -> is_u8 next ->
  safe (let! inner := ParsePayloads next ib in Ok (E := error) (m, inner)) (fun r => r.1 = m /\ chain_ok r.2).
Proof.
  intros. eapply safe_call; [by apply ParsePayloads_safe|]. intros ps (Hok & _). by split.
Qed.

(** What an accepted message is known to carry: the MAC of the direction's key
    over everything before it, or a sealed text whose associated data is the
    header. *)
Definition authentic (raw : bytes) (body : bytes) (keys : IKEKeys) (dir : bool) : Prop :=
  let p := k_Profile keys in
  let '(ek, ik) := keysForDirection keys dir in
  let t := kp_IntegrityChecksumLength p in
  (kp_EncryptionID p = ENCR_AES_CBC /\ exists h, integrityHash (kp_IntegrityID p) = Ok h /\
     drop (Z.to_nat (len body - t)) body =
       take (Z.to_nat t) (hmac_Sum h ik (take (Z.to_nat (len raw - t)) raw))) \/
  (kp_EncryptionID p = ENCR_AES_GCM_16 /\ exists plain,
     gcm_Open (take (Z.to_nat (len ek - 4)) ek) 16
       (drop (Z.to_nat (len ek - 4)) ek ++ take 8 body) (drop 8 body) (take 32 raw) = Some plain).

Lemma slice_prefix (l : bytes) n : 0 <= n <= len l -> slice (E := error) l 0 n = Ok (take (Z.to_nat n) l).
Proof. intros. rewrite slice_Ok by lia. unfold sub. by rewrite drop_0, Z.sub_0_r. Qed.
Lemma slice_from_drop (l : bytes) n : 0 <= n <= len l -> slice_from (E := error) l n = Ok (drop (Z.to_nat n) l).
Proof. intros. unfold slice_from. rewrite slice_Ok by lia. by rewrite sub_to_end. Qed.

Lemma unprotectMessageAESCBC_safe raw m sk keys dir :
  bytes_ok raw -> Payload_ok sk -> keyset_ok keys -> kp_EncryptionID (k_Profile keys) = ENCR_AES_CBC ->
  safe (unprotectMessageAESCBC raw m sk keys dir)
    (fun r => r.1 = m /\ chain_ok r.2 /\ authentic raw (p_Body sk) keys dir).
Proof.
  intros Hraw (_ & Hn & Hb) (_ & _ & _ & _ & [(HC & Hbs & _ & _ & Hicv)|[HG _]]) HC'; [|rewrite HG in HC'; done].
  unfold unprotectMessageAESCBC, authentic. rewrite Hbs.
  set (t := kp_IntegrityChecksumLength (k_Profile keys)) in *.
  destruct (keysForDirection keys dir) as [ek ik]. go_case Hc; [done|]. apply orb_false_iff in Hc as [H1 H2].
  rewrite slice_prefix by lia. cbn [bind]. rewrite slice_from_drop by lia. cbn [bind].
  rewrite slice_prefix by lia. cbn [bind].
  eapply safe_call; [apply IntegrityChecksum_safe|]. intros cs (Hcl & _ & h & Hh & _ & Hcs).
  unfold bytesEqual. go_case He; [done|]. apply negb_false_iff, bool_decide_eq_true in He.
  assert (Hbn : bytes_ok (take (Z.to_nat (len (p_Body sk) - t)) (p_Body sk))) by auto with gobytes.
  assert (Hln : len (take (Z.to_nat (len (p_Body sk) - t)) (p_Body sk)) = len (p_Body sk) - t)
    by (apply len_take_le; lia).
  rewrite slice_prefix by lia. cbn [bind]. rewrite slice_from_drop by lia. cbn [bind].
  set (iv := take _ (take _ _)). set (ct := drop _ (take _ _)).
  assert (bytes_ok ct) by (subst ct; auto with gobytes).
  eapply (safe_call _ _ bytes_ok).
  { unfold decryptAESCBC, aes_NewCipher. go_safe. by apply cbc_dec_ok. }
  intros plain Hp. eapply safe_call; [by apply unpad_safe|]. intros ib Hib.
  eapply safe_mono; [by apply ParsePayloads_returns_inner|]. intros r [? ?]. split_and!; [done..|].
  left. split; [done|]. exists h. split; [done|]. by rewrite He.
Qed.

Lemma unprotectMessageAESGCM_safe raw m sk keys dir :
  bytes_ok raw -> Payload_ok sk -> keyset_ok keys -> kp_EncryptionID (k_Profile keys) = ENCR_AES_GCM_16 ->
  HeaderLength + 4 <= len raw ->
  safe (unprotectMessageAESGCM raw m sk keys dir)
    (fun r => r.1 = m /\ chain_ok r.2 /\ authentic raw (p_Body sk) keys dir).
Proof.
  intros Hraw (_ & Hn & Hb) Hk HG Hlen. pose proof (keyset_direction keys dir Hk) as Hdir.
  destruct Hk as (_ & _ & _ & _ & [[HC _]|(_ & Hbs & Hkl & _ & _ & Hicv)]); [rewrite HC in HG; done|].
  unfold unprotectMessageAESGCM, authentic. rewrite Hbs, Hicv.
  destruct (keysForDirection keys dir) as [ek ik]. cbn [fst] in Hdir. rewrite <- Hdir in Hkl.
  go_case Hc; [done|]. rewrite slice_prefix by lia. cbn [bind]. rewrite slice_from_drop by lia. cbn [bind].
  destruct (aesGCMIKEAEAD_spec ek Hkl) as (ak & salt & Hak & Hek & Hsalt). rewrite Hak. cbn [bind].
  unfold ikeSKAssociatedData. go_if. rewrite slice_prefix by len_lia. cbn [bind].
  unfold aead_Open, aesGCMIKENonce. rewrite len_app, Hsalt, len_take_le by lia.
  change (negb (4 + 8 =? 12)) with false. cbv iota.
  rewrite len_drop_le by lia. go_if.
  destruct (gcm_Open ak 16 _ _ _) as [plain|] eqn:Ho; [|done]. cbn [map_err bind].
  eapply safe_call.
  { apply unpad_safe. eapply gcm_open_ok, Ho. auto with gobytes. }
  intros ib Hib. eapply safe_mono; [by apply ParsePayloads_returns_inner|].
  intros r [? ?]. split_and!; [done..|]. right. split; [done|]. exists plain.
  assert (Hakl : len ek - 4 = len ak) by (rewrite Hek, len_app; lia). rewrite Hakl, Hek.
  unfold len. rewrite Nat2Z.id, take_app_length, drop_app_length. exact Ho.
Qed.

Lemma UnprotectMessage_safe raw keys dir :
  bytes_ok raw ->
  safe (UnprotectMessage raw keys dir) (fun r =>
    keyset_ok keys /\ ParseMessage raw = Ok r.1 /\ chain_ok r.2 /\
    exists sk, m_Payloads r.1 = [sk] /\ p_Type sk = PayloadSK /\ authentic raw (p_Body sk) keys dir).
Proof.
  intros Hraw. unfold UnprotectMessage. destruct (validateKeySet keys) as [[]|e| |] eqn:Hv;
    try (pose proof (validateKeySet_returns keys) as Hr; by rewrite Hv in Hr).
  apply validateKeySet_spec in Hv. cbn [bind].
  pose proof (ParseMessage_safe raw Hraw) as Hs. destruct (ParseMessage raw) as [m|e| |]; try done. cbn [bind].
  destruct Hs as ([_ Hok] & Hle & _ & _ & _ & _ & Hlen).
  destruct (m_Payloads m) as [|sk [|? ?]] eqn:Hps; try done.
  apply Forall_cons in Hok as [[Hsk _] _]. go_case Ht; [done|]. apply negb_false_iff, Z.eqb_eq in Ht.
  assert (Hq : forall r, r.1 = m /\ chain_ok r.2 /\ authentic raw (p_Body sk) keys dir ->
    keyset_ok keys /\ Ok (E := error) m = Ok r.1 /\ chain_ok r.2 /\
    exists sk, m_Payloads r.1 = [sk] /\ p_Type sk = PayloadSK /\ authentic raw (p_Body sk) keys dir).
  { intros r (-> & Hc & Ha). split_and!; [done..|]. by exists sk. }
  destruct (Z.eqb_spec (kp_EncryptionID (k_Profile keys)) ENCR_AES_CBC) as [HC|HC].
  - eapply safe_mono; [by apply unprotectMessageAESCBC_safe|exact Hq].
  - destruct (Z.eqb_spec (kp_EncryptionID (k_Profile keys)) ENCR_AES_GCM_16) as [HG|HG]; [|done].
    eapply safe_mono; [apply unprotectMessageAESGCM_safe; try done|exact Hq].
    cbn [enc_payloads] in Hlen. rewrite len_app, len_enc_payload in Hlen. pose proof (len_nonneg (p_Body sk)).
    rewrite sub_len in Hlen.
    + cbn in Hlen. rewrite len_nil in Hlen. len_lia.
    + len_lia.
    + lia.
Qed.
End sk_safety.

(** ** Keys of a negotiated SA can be used *)
Lemma negotiated_keyset_ok p k :
  profile_ok p -> k_Profile k = p -> key_lengths p k -> keyset_ok k.
Proof.
  intros Hp Hk (_ & ? & ? & ? & ? & _). pose proof (profile_lengths p Hp) as (_ & _ & ? & ?).
  destruct Hp as (_ & _ & [(HC & Hl & Hb & Hi)|(HG & Hl & Hb & ? & ? & ?)]);
    unfold keyset_ok; rewrite Hk; split_and!; try done.
  - left. unfold integrity_lengths in Hi. rewrite !elem_of_cons, elem_of_nil in Hi.
    split_and!; try done; try lia.
    destruct Hi as [[= _ ? ?]|[[= _ ? ?]|[[= _ ? ?]|[[= _ ? ?]|[]]]]]; lia.
  - right. by split_and!.
Qed.

Section sk_available.
Context {C : Crypto} `{!CryptoLaws C} (rand_Reader : Reader).

(** The initialisation vector is the caller's, or the reader has one. *)
Definition iv_available (iv : bytes) (n : Z) : Prop :=
  bytes_ok iv /\ (len iv = n \/ (iv = [] /\ exists b, rand_Reader n = Ok b /\ len b = n)).

Lemma iv_available_Ok iv n :
  0 < n -> iv_available iv n ->
  exists iv', (if len iv =? 0 then randomBytes rand_Reader n else Ok iv) = Ok iv' /\ len iv' = n.
Proof.
  intros Hn (_ & [Hl|[-> (b & Hb & Hl)]]).
  - exists iv. by go_if.
  - exists b. unfold randomBytes. change (len [] =? 0) with true. cbv iota. by go_if.
Qed.

Lemma IntegrityChecksum_available p key data :
  integrity_lengths (kp_IntegrityID p) (kp_IntegrityKeyLength p) (kp_IntegrityChecksumLength p) ->
  exists cs, IntegrityChecksum p key data = Ok cs /\ len cs = kp_IntegrityChecksumLength p.
Proof.
  intros Hi. unfold IntegrityChecksum. unfold integrity_lengths in Hi. rewrite !elem_of_cons, elem_of_nil in Hi.
  assert (exists h, integrityHash (kp_IntegrityID p) = Ok h /\ h <> HashNone /\
    0 < kp_IntegrityChecksumLength p <= hash_size h) as (h & -> & Hh & Hl).
  { destruct Hi as [[= -> _ ->]|[[= -> _ ->]|[[= -> _ ->]|[[= -> _ ->]|[]]]]]; eexists; split_and!; done. }
  cbn [bind]. unfold Hash_Available. rewrite bool_decide_eq_true_2 by done. cbn [negb].
  rewrite hmac_len by done. go_if. rewrite slice_prefix by (rewrite hmac_len by done; lia).
  eexists. split; [done|]. apply len_take_le. rewrite hmac_len by done. lia.
Qed.

Lemma copy_from_Ok dst i src : 0 <= i <= len dst -> exists b, copy_from dst i src = Ok b.
Proof. intros. unfold copy_from, slice_from. rewrite slice_Ok by lia. cbn [bind]. eauto. Qed.

Lemma protectMessageAESCBC_available h keys dir first ib iv :
  bytes_ok ib -> profile_ok (k_Profile keys) -> keyset_ok keys ->
  kp_EncryptionID (k_Profile keys) = ENCR_AES_CBC -> iv_available iv 16 -> len ib <= 65000 ->
  exists r, protectMessageAESCBC rand_Reader h keys dir first ib iv = Ok r.
Proof.
  intros Hib Hp Hk HC Hiv Hlen. pose proof (keyset_direction keys dir Hk) as Hdir.
  destruct Hp as (_ & _ & [(_ & Hkl & Hbs & Hil)|[HG _]]); [|rewrite HG in HC; done].
  assert (0 < kp_IntegrityChecksumLength (k_Profile keys) <= 32) as Hicv.
  { unfold integrity_lengths in Hil. rewrite !elem_of_cons, elem_of_nil in Hil.
    destruct Hil as [[= _ _ ->]|[[= _ _ ->]|[[= _ _ ->]|[[= _ _ ->]|[]]]]]; lia. }
  unfold protectMessageAESCBC. rewrite Hbs.
  destruct (iv_available_Ok iv 16 ltac:(lia) Hiv) as (iv' & -> & Hl). cbn [bind]. rewrite Hl. go_if.
  destruct (padIKEPlaintext_spec ib 16) as (n & Hpad & Hn & Hn16 & Hrem); [lia|]. rewrite Hpad. cbn [bind].
  assert (Hpl : len (ib ++ pad_of n) <= 65016) by (rewrite len_app, len_pad_of by len_lia; len_lia).
  set (plain := ib ++ pad_of n) in *. destruct (keysForDirection keys dir) as [ek ik]. cbn [fst] in Hdir.
  rewrite <- Hdir, !elem_of_cons, elem_of_nil in Hkl.
  unfold encryptAESCBC, aes_NewCipher, aes_BlockSize. go_if. cbn [bind]. rewrite Hl. go_if. cbn [bind].
  set (ct := cbc_CryptBlocks_enc ek iv' plain). assert (Hct : len ct = len plain) by apply cbc_enc_len.
  set (icv := kp_IntegrityChecksumLength (k_Profile keys)) in *.
  assert (Hmk : len (make icv) = icv) by (unfold make; rewrite len_replicate; lia).
  set (body := (iv' ++ ct) ++ make icv).
  assert (Hbody : len body = 16 + len ct + icv) by (subst body; len_lia).
  rewrite marshal_sk_Ok by lia. cbn [bind].
  pose proof (len_sk_prefix h first (len body)) as HP. set (P := sk_prefix h first (len body)) in *.
  assert (HR : len (P ++ body) = 48 + len ct + icv) by (rewrite len_app, HP; len_lia).
  pose proof (len_nonneg ct). rewrite slice_prefix by lia. cbn [bind].
  destruct (IntegrityChecksum_available (k_Profile keys) ik (take (Z.to_nat (len (P ++ body) - icv)) (P ++ body)))
    as (cs & -> & Hcs); [done|]. cbn [bind].
  destruct (copy_from_Ok body (len (iv' ++ ct)) cs) as [b1 ->]; [len_lia|]. cbn [bind].
  destruct (copy_from_Ok (P ++ body) (len (P ++ body) - icv) cs) as [b2 ->]; [len_lia|]. cbn [bind]. eauto.
Qed.

Lemma protectMessageAESGCM_available h keys dir first ib iv :
  bytes_ok ib -> keyset_ok keys ->
  kp_EncryptionID (k_Profile keys) = ENCR_AES_GCM_16 -> iv_available iv 8 -> len ib <= 65000 ->
  exists r, protectMessageAESGCM rand_Reader h keys dir first ib iv = Ok r.
Proof.
  intros Hib Hk HG Hiv Hlen. pose proof (keyset_direction keys dir Hk) as Hdir.
  destruct Hk as (_ & _ & _ & _ & [[HC _]|(_ & Hbs & Hkl & _ & _ & Hicv)]); [rewrite HC in HG; done|].
  unfold protectMessageAESGCM. rewrite Hbs, Hicv.
  destruct (iv_available_Ok iv 8 ltac:(lia) Hiv) as (iv' & -> & Hl). cbn [bind]. rewrite Hl. go_if.
  destruct (keysForDirection keys dir) as [ek ik]. cbn [fst] in Hdir. rewrite <- Hdir in Hkl.
  destruct (aesGCMIKEAEAD_spec ek Hkl) as (ak & salt & -> & _ & Hsalt). cbn [bind].
  destruct (padIKEPlaintext_spec ib 1) as (n & -> & Hn & Hn16 & _); [lia|]. cbn [bind].
  assert (Hpl : 0 <= len (ib ++ pad_of n) <= 65016) by (rewrite len_app, len_pad_of by len_lia; len_lia).
  set (plain := ib ++ pad_of n) in *. set (body := iv' ++ make (len plain + 16)).
  assert (Hbody : len body = 24 + len plain)
    by (subst body; unfold make; rewrite len_app, len_replicate; lia).
  rewrite marshal_sk_Ok by lia. cbn [bind].
  pose proof (len_sk_prefix h first (len body)) as HP. set (P := sk_prefix h first (len body)) in *.
  assert (HR : len (P ++ body) = 56 + len plain) by (rewrite len_app, HP; len_lia).
  unfold ikeSKAssociatedData, aead_Seal, aesGCMIKENonce. rewrite HR, len_app, Hsalt, Hl. go_if.
  rewrite slice_prefix by len_lia. cbn [bind]. change (negb (4 + 8 =? 12)) with false. cbn [bind].
  edestruct (copy_from_Ok body 8) as [b1 ->]; [len_lia|]. cbn [bind].
  edestruct (copy_from_Ok (P ++ body) (HeaderLength + 4)) as [b2 ->]; [len_lia|]. cbn [bind]. eauto.
Qed.

Lemma iv_safe (iv : bytes) n :
  reader_ok rand_Reader -> bytes_ok iv ->
  safe (if len iv =? 0 then randomBytes rand_Reader n else Ok iv) bytes_ok.
Proof.
  intros Hr Hiv. go_case H0; [|done]. by apply randomBytes_safe.
Qed.

(** [ProtectMessage] never panics, whatever the keys and the chain. *)
Lemma ProtectMessage_returns h keys dir inner iv :
  reader_ok rand_Reader -> chain_ok inner -> bytes_ok iv -> returns (ProtectMessage rand_Reader h keys dir inner iv).
Proof.
  intros Hr Hin Hiv. unfold ProtectMessage. go_case H0; [done|].
  destruct (validateKeySet keys) as [[]| | |] eqn:Hk; try (pose proof (validateKeySet_returns keys) as H; by rewrite Hk in H).
  apply validateKeySet_spec in Hk. cbn [bind]. rewrite MarshalPayloads_eq. go_case Hv; [|done]. cbn [bind].
  pose proof (keyset_direction keys dir Hk) as Hdir. destruct Hk as (_ & _ & _ & _ & [(-> & Hbs & _ & _ & Hicv)|(-> & Hbs & Hkl & _ & _ & Hicv)]).
  - change (ENCR_AES_CBC =? ENCR_AES_CBC) with true. unfold protectMessageAESCBC. rewrite Hbs. cbv iota zeta.
    eapply safe_call; [by apply iv_safe|]. intros iv' _. go_case H1; [done|].
    destruct (padIKEPlaintext_spec (enc_payloads inner) 16) as (n & -> & _); [lia|]. cbn [bind].
    destruct (keysForDirection keys dir) as [ek ik]. set (icv := kp_IntegrityChecksumLength (k_Profile keys)) in *.
    eapply (safe_call _ _ (fun _ => True)); [unfold encryptAESCBC, aes_NewCipher; by go_safe|]. intros ct _.
    eapply safe_call; [apply marshal_sk_safe|]. intros raw ->.
    assert (Hmk : len (make icv) = icv) by (unfold make; rewrite len_replicate; lia).
    set (body := (iv' ++ ct) ++ make icv). set (P := sk_prefix h (first_of inner) (len body)).
    assert (Hb : len body = len (iv' ++ ct) + icv) by (subst body; rewrite len_app; lia).
    pose proof (len_nonneg (iv' ++ ct)). assert (HP : len (P ++ body) = HeaderLength + 4 + len body) by (by rewrite len_app).
    unfold HeaderLength in HP. rewrite slice_prefix by lia. cbn [bind]. eapply safe_call; [apply IntegrityChecksum_safe|].
    intros cs _. edestruct (copy_from_Ok body (len (iv' ++ ct)) cs) as [b1 ->]; [lia|]. cbn [bind].
    edestruct (copy_from_Ok (P ++ body) (len (P ++ body) - icv) cs) as [b2 ->]; [lia|]. done.
  - change (ENCR_AES_GCM_16 =? ENCR_AES_CBC) with false. change (ENCR_AES_GCM_16 =? ENCR_AES_GCM_16) with true.
    unfold protectMessageAESGCM. rewrite Hbs, Hicv. cbv iota zeta. eapply safe_call; [by apply iv_safe|]. intros iv' _.
    go_case H1; [done|]. apply negb_false_iff, Z.eqb_eq in H1. destruct (keysForDirection keys dir) as [ek ik]. cbn [fst] in Hdir. rewrite <- Hdir in Hkl.
    destruct (aesGCMIKEAEAD_spec ek Hkl) as (ak & salt & -> & _ & Hsalt). cbn [bind].
    destruct (padIKEPlaintext_spec (enc_payloads inner) 1) as (n & -> & _); [lia|]. cbn [bind].
    set (plain := enc_payloads inner ++ pad_of n). eapply safe_call; [apply marshal_sk_safe|]. intros raw ->.
    set (body := iv' ++ make (len plain + 16)). set (P := sk_prefix h (first_of inner) (len body)).
    assert (HP : len (P ++ body) = HeaderLength + 4 + len body) by (by rewrite len_app).
    pose proof (len_nonneg body). assert (len iv' <= len body) by (subst body; rewrite len_app; pose proof (len_nonneg (make (len plain + 16))); lia).
    unfold ikeSKAssociatedData. replace (len (P ++ body) <? HeaderLength + 4) with false by lia.
    rewrite slice_prefix by (unfold HeaderLength in *; lia). cbn [bind].
    unfold aead_Seal, aesGCMIKENonce. rewrite len_app, Hsalt, H1. change (negb (4 + 8 =? 12)) with false. cbn [bind].
    edestruct (copy_from_Ok body 8) as [b1 ->]; [lia|]. cbn [bind].
    edestruct (copy_from_Ok (P ++ body) (HeaderLength + 4)) as [b2 ->]; [unfold HeaderLength in *; lia|]. done.
Qed.

Lemma ProtectMessage_available_lemma h keys dir inner iv :
  profile_ok (k_Profile keys) -> keyset_ok keys -> chain_ok inner -> payloads_valid inner = true ->
  (inner <> [] \/ h_ExchangeType h = ExchangeINFORMATIONAL) ->
  iv_available iv (kp_EncryptionBlockSize (k_Profile keys)) -> len (enc_payloads inner) <= 65000 ->
  exists r, ProtectMessage rand_Reader h keys dir inner iv = Ok r.
Proof.
  intros Hp Hk Hin Hv Hne Hiv Hlen. unfold ProtectMessage.
  replace (_ && _) with false.
  2: { symmetry. apply andb_false_iff. destruct Hne as [Hne| ->]; [left|by right].
       apply Z.eqb_neq. by intros ?%len_zero. }
  rewrite (proj2 (validateKeySet_spec keys) Hk), MarshalPayloads_eq, Hv. cbn [bind].
  pose proof (bytes_ok_enc_payloads inner Hin) as Hib.
  pose proof Hk as (_ & _ & _ & _ & [(HC & Hbs & _)|(HG & Hbs & _)]); rewrite Hbs in Hiv.
  - rewrite HC. by apply protectMessageAESCBC_available.
  - rewrite HG. by apply protectMessageAESGCM_available.
Qed.
End sk_available.

(** The peer reads what was protected. *)
Lemma ProtectMessage_readable {C : Crypto} `{!CryptoLaws C} rand h keys dir inner iv msg raw :
  reader_ok rand -> Header_ok h -> chain_ok inner -> bytes_ok iv ->
  ProtectMessage rand h keys dir inner iv = Ok (msg, raw) ->
  UnprotectMessage raw keys dir = Ok (message_normal msg, link_next inner) /\ m_Header msg = h.
Proof.
  intros Hr Hh Hin Hiv H. apply ProtectMessage_spec in H as (_ & _ & body & -> & Hb & Hm & Hun); try done.
  pose proof (proj1 (marshal_sk _ _ _ _) Hm) as [Hmax Hraw]. split; [|done].
  eapply Hun; [reflexivity|done|done|done|]. apply ParseMessage_marshal; [|done|].
  - split; [done|]. constructor; [|constructor]. split; [|done]. split; [done|]. split; [by apply first_of_ok|done].
  - rewrite Hraw, len_app, len_sk_prefix. len_lia.
Qed.

(** ** Properties *)

(** C1: protecting and unprotecting an IKE message are inverse, under AES-CBC
    with any MAC and under AES-GCM, in either direction, with a given or a
    random IV: the receiver that holds the same keys gets the message (with the
    header fields the encoder fills in) and the inner payload chain. *)
Theorem ProtectMessage_roundtrip (C : Crypto) (L : CryptoLaws C) rand h keys dir inner iv msg raw :
  reader_ok rand -> Header_ok h -> chain_ok inner -> bytes_ok iv ->
  ProtectMessage rand h keys dir inner iv = Ok (msg, raw) ->
  UnprotectMessage raw keys dir = Ok (message_normal msg, link_next inner).
Proof. intros. by eapply ProtectMessage_readable. Qed.

Definition sample_keys (p : KeyMaterialProfile) : IKEKeys :=
  let k n b := replicate (Z.to_nat n) b in
  mkIKEKeys p (k (kp_PRFKeyLength p) 1) (k (kp_IntegrityKeyLength p) 2) (k (kp_IntegrityKeyLength p) 3)
    (k (kp_EncryptionKeyLength p) 4) (k (kp_EncryptionKeyLength p) 5)
    (k (kp_PRFKeyLength p) 6) (k (kp_PRFKeyLength p) 7).
Definition sample_gcm_profile := mkProfile SHA256 ENCR_AES_GCM_16 20 8 0 0 16 32.
Definition sample_header := mkHeader 0x1122334455667788 2 0 0 ExchangeIKE_AUTH FlagInitiator 1 0.
Definition sample_inner : list Payload := [mkPayload PayloadNonce 0 false [1; 2; 3]].

Lemma ProtectMessage_roundtrip_witness :
  exists m1 r1 m2 r2,
  ProtectMessage zero_reader sample_header (sample_keys sample_profile) true sample_inner [] = Ok (m1, r1) /\
  UnprotectMessage r1 (sample_keys sample_profile) true = Ok (message_normal m1, link_next sample_inner) /\
  ProtectMessage zero_reader sample_header (sample_keys sample_gcm_profile) false sample_inner [] = Ok (m2, r2) /\
  UnprotectMessage r2 (sample_keys sample_gcm_profile) false = Ok (message_normal m2, link_next sample_inner).
Proof.
  do 4 eexists. split; [vm_compute; reflexivity|]. split.
  { apply (ProtectMessage_roundtrip toy_crypto toy_crypto_laws zero_reader sample_header _ true sample_inner []);
      [exact zero_reader_ok|by_decide|by_decide|by_decide|vm_compute; reflexivity]. }
  split; [vm_compute; reflexivity|].
  apply (ProtectMessage_roundtrip toy_crypto toy_crypto_laws zero_reader sample_header _ false sample_inner []);
    [exact zero_reader_ok|by_decide|by_decide|by_decide|vm_compute; reflexivity].
Defined.

(** C4: [UnprotectMessage] is total on every datagram and key set (no panic, no
    unbounded loop), and accepts only authentic messages: the key set is
    complete, the datagram is one SK payload, and either the MAC of the
    direction's integrity key over everything before the checksum is the
    checksum, or the AEAD opened with the header as associated data. *)
Theorem UnprotectMessage_authentic (C : Crypto) (L : CryptoLaws C) raw keys dir :
  bytes_ok raw ->
  returns (UnprotectMessage raw keys dir) /\
  forall m inner, UnprotectMessage raw keys dir = Ok (m, inner) ->
    keyset_ok keys /\ ParseMessage raw = Ok m /\ chain_ok inner /\
    exists sk, m_Payloads m = [sk] /\ p_Type sk = PayloadSK /\ authentic raw (p_Body sk) keys dir.
Proof.
  intros Hraw. pose proof (UnprotectMessage_safe raw keys dir Hraw) as Hs. split; [by eapply safe_returns|].
  intros m inner H. by rewrite H in Hs.
Qed.

Lemma UnprotectMessage_authentic_witness :
  returns (UnprotectMessage (C := toy_crypto) (replicate 60 46) (sample_keys sample_profile) true).
Proof.
  apply (UnprotectMessage_authentic toy_crypto toy_crypto_laws). by_decide.
Defined.

(** C10: the keys of a negotiated SA can always be used: for a profile that
    [KeyMaterialProfileFromSA] derives and the keys [SplitIKEKeys] cuts from the
    key material, [ProtectMessage] succeeds on every valid inner chain of at
    most 65000 octets, unless the random source fails. *)
Theorem negotiated_keys_protect (C : Crypto) (L : CryptoLaws C) rand sa p km keys h dir inner iv :
  SA_ok sa -> KeyMaterialProfileFromSA sa = Ok p -> SplitIKEKeys p km = Ok keys ->
  chain_ok inner -> payloads_valid inner = true ->
  (inner <> [] \/ h_ExchangeType h = ExchangeINFORMATIONAL) ->
  iv_available rand iv (kp_EncryptionBlockSize p) -> len (enc_payloads inner) <= 65000 ->
  exists msg raw, ProtectMessage rand h keys dir inner iv = Ok (msg, raw).
Proof.
  intros Hsa Hp Hkeys Hin Hv Hne Hiv Hlen.
  pose proof (safe_ok _ _ _ (KeyMaterialProfileFromSA_safe sa Hsa) Hp) as Hpok.
  destruct (decide (RequiredLength p <= len km)) as [Hkm|Hkm].
  2: { exfalso. revert Hkeys. unfold SplitIKEKeys. pose proof (profile_lengths p Hpok). unfold RequiredLength in *.
       by do 2 go_if. }
  destruct (SplitIKEKeys_spec p km Hpok Hkm) as (k & Hk & Hkp & Hkl & _).
  rewrite Hk in Hkeys. injection Hkeys as <-.
  edestruct (ProtectMessage_available_lemma rand h k dir inner iv) as [[msg raw] Hr]; rewrite ?Hkp; try done.
  { by eapply negotiated_keyset_ok. }
  eauto.
Qed.


Definition sample_negotiated := mkProfile SHA256 ENCR_AES_CBC 16 16 INTEG_HMAC_SHA2_256_128 32 16 32.
Definition sample_split := mkIKEKeys sample_negotiated (replicate 32 9) (replicate 32 9) (replicate 32 9)
  (replicate 16 9) (replicate 16 9) (replicate 32 9) (replicate 32 9).

Lemma negotiated_keys_protect_witness :
  KeyMaterialProfileFromSA DefaultIKEProposal = Ok sample_negotiated /\
  SplitIKEKeys sample_negotiated (replicate 200 9) = Ok sample_split /\
  exists msg raw, ProtectMessage (C := toy_crypto) zero_reader sample_header sample_split true sample_inner [] = Ok (msg, raw).
Proof.
  split; [vm_compute; reflexivity|]. split; [vm_compute; reflexivity|].
  apply (negotiated_keys_protect toy_crypto toy_crypto_laws zero_reader DefaultIKEProposal sample_negotiated
    (replicate 200 9) sample_split sample_header true sample_inner []);
    [by_decide|vm_compute; reflexivity|vm_compute; reflexivity|by_decide|reflexivity|left; discriminate
    | |by_decide].
  split; [by_decide|]. right. split; [reflexivity|]. eexists. split; [reflexivity|reflexivity].
Defined.
