(* ===== verification/Dh.v ===== *)
(** * Diffie-Hellman key exchange (engine/swu/ikev2/dh.go)

    The 2048-bit MODP group is modelled in full, its arithmetic included; the
    Curve25519 group is the operations of [crypto/ecdh], a class with the laws
    the package documents.  A random source is a sequence of reads
    ([Source]): the [i]-th [io.ReadFull] of a run answers [random i]. *)
From Stdlib Require Import Zpow_facts Ascii.
From S2P Require Import Prelude Errors Crypto Types Codec Notify Sa Keys Sk.
#[local] Open Scope Z_scope.

Abbreviation Source := (nat -> Reader).
Definition source_ok (random : Source) : Prop := forall i, reader_ok (random i).

(** ** crypto/ecdh

    A private key is its octets. *)
Class Ecdh := {
  X25519_GenerateKey : Reader -> result bytes;
  X25519_NewPrivateKey : bytes -> result bytes;
  X25519_PublicKey : bytes -> bytes;
  X25519_NewPublicKey : bytes -> result bytes;
  X25519_ECDH : bytes -> bytes -> result bytes
}.
Class EcdhLaws (D : Ecdh) : Prop := {
  generate_returns r : reader_ok r -> returns (X25519_GenerateKey r);
  private_returns b : returns (X25519_NewPrivateKey b);
  public_len k : len (X25519_PublicKey k) = 32;
  public_ok k : bytes_ok (X25519_PublicKey k);
  new_public_returns b : returns (X25519_NewPublicKey b);
  new_public_key k : X25519_NewPublicKey (X25519_PublicKey k) = Ok (X25519_PublicKey k);
  ecdh_safe k p : safe (X25519_ECDH k p) (fun s => len s = 32 /\ bytes_ok s);
  ecdh_agree a b : X25519_ECDH a (X25519_PublicKey b) = X25519_ECDH b (X25519_PublicKey a)
}.

(** ** math/big: a natural number of any size is a [Z] *)
Definition big_SetBytes (b : bytes) : Z := be_decode b.
Definition big_Exp (x y m : Z) : Z := Zpow_mod x y m.
Definition big_BitLen (x : Z) : Z := if x =? 0 then 0 else Z.log2 x + 1.
(** [value.FillBytes(buf)] panics when the value does not fit. *)
Definition big_FillBytes (value size : Z) : result bytes :=
  if 256 ^ size <=? value then Panic else Ok (be_bytes (Z.to_nat size) value).

Definition hex_digit (c : ascii) : option Z :=
  let n := Z.of_nat (nat_of_ascii c) in
  if (48 <=? n) && (n <=? 57) then Some (n - 48)
  else if (65 <=? n) && (n <=? 70) then Some (n - 55)
  else if (97 <=? n) && (n <=? 102) then Some (n - 87)
  else None.
Fixpoint hex_digits (s : string) (acc : Z) : option Z :=
  match s with
  | EmptyString => Some acc
  | String c s' => match hex_digit c with Some d => hex_digits s' (acc * 16 + d) | None => None end
  end.
(** [new(big.Int).SetString(s, 16)] of a string without a sign. *)
Definition big_SetString16 (s : string) : option Z :=
  match s with EmptyString => None | _ => hex_digits s 0 end.

(** [strings.ReplaceAll(s, " ", "")] *)
Fixpoint remove_spaces (s : string) : string :=
  match s with
  | EmptyString => EmptyString
  | String c s' => if Ascii.eqb c " "%char then remove_spaces s' else String c (remove_spaces s')
  end.

(** ** The key exchange *)
Definition modpPrivateExponentBytes : Z := 32.
Definition modp2048PrimeHex : string :=
  ("FFFFFFFFFFFFFFFFC90FDAA22168C234C4C6628B80DC1CD1" ++
   "29024E088A67CC74020BBEA63B139B22514A08798E3404DD" ++
   "EF9519B3CD3A431B302B0A6DF25F14374FE1356D6D51C245" ++
   "E485B576625E7EC6F44C42E9A637ED6B0BFF5CB6F406B7ED" ++
   "EE386BFB5A899FA5AE9F24117C4B1FE649286651ECE45B3D" ++
   "C2007CB8A163BF0598DA48361C55D39A69163FA8FD24CF5F" ++
   "83655D23DCA3AD961C62F356208552BB9ED529077096966D" ++
   "670C354E4ABC9804F1746C08CA18217C32905E462E36CE3B" ++
   "E39E772C180E86039B2783A2EC07A28FB5C55DF06F4C52C" ++
   "9DE2BCBF6955817183995497CEA956AE515D2261898FA0510" ++
   "15728E5A8AACAA68FFFFFFFFFFFFFFFF")%string.

Record dhKeyExchange := mkDH {
  dh_public : bytes;
  dh_shared : bytes -> result bytes
}.

Definition modpGroup (group : Z) : result (Z * Z) :=
  if negb (group =? DHGroup2048BitMODP) then Errorf ErrInvalidInitConfig else
  match big_SetString16 (remove_spaces modp2048PrimeHex) with
  | None => Errorf ErrInvalidInitConfig
  | Some prime => Ok (prime, (big_BitLen prime + 7) / 8)
  end.

Definition leftPadBigInt (value size : Z) : result bytes := big_FillBytes value size.

(** The [shared] function of a MODP exchange with exponent [private]. *)
Definition modp_shared (prime size private : Z) (peer : bytes) : result bytes :=
  if (len peer =? 0) || (size <? len peer) then Errorf ErrInvalidInitResponse else
  let peerPublic := big_SetBytes peer in
  let maxPeer := prime - 2 in
  if (peerPublic <? 2) || (maxPeer <? peerPublic) then Errorf ErrInvalidInitResponse else
  leftPadBigInt (big_Exp peerPublic private prime) size.

Definition newMODPKeyExchange (group : Z) (rawPrivate : bytes) (random : Reader) : result dhKeyExchange :=
  let! g := modpGroup group in
  let '(prime, size) := g in
  let! privateBytes :=
    (if len rawPrivate =? 0 then randomBytes random modpPrivateExponentBytes else Ok rawPrivate) in
  let private := big_SetBytes privateBytes in
  let upper := prime - 3 in
  let private := private mod upper in
  let private := private + 2 in
  let public := big_Exp 2 private prime in
  let! publicBytes := leftPadBigInt public size in
  Ok (mkDH publicBytes (modp_shared prime size private)).

Section ecdh.
Context `{Ecdh}.

Definition x25519PrivateKey (raw : bytes) (random : Reader) : result bytes :=
  if 0 <? len raw then X25519_NewPrivateKey raw else X25519_GenerateKey random.

(** The [shared] function of a Curve25519 exchange. *)
Definition x25519_shared (priv peer : bytes) : result bytes :=
  let! pub := map_err (Wrap ErrInvalidInitResponse) (X25519_NewPublicKey peer) in
  map_err (Wrap ErrInvalidInitResponse) (X25519_ECDH priv pub).

Definition newDHKeyExchange (group : Z) (rawPrivate : bytes) (random : Reader) : result dhKeyExchange :=
  if group =? DHGroupCurve25519 then
    let! priv := x25519PrivateKey rawPrivate random in
    Ok (mkDH (X25519_PublicKey priv) (x25519_shared priv))
  else if group =? DHGroup2048BitMODP then newMODPKeyExchange group rawPrivate random
  else Errorf ErrInvalidInitConfig.
End ecdh.

(** The first DH transform of any proposal. *)
Fixpoint dh_transform (transforms : list Transform) : option Z :=
  match transforms with
  | [] => None
  | transform :: rest => if t_Type transform =? TransformDHRGroup then Some (t_ID transform) else dh_transform rest
  end.
Fixpoint dhGroup_loop (proposals : list Proposal) : result Z :=
  match proposals with
  | [] => Errorf ErrInvalidInitConfig
  | proposal :: rest =>
      match dh_transform (pr_Transforms proposal) with Some id => Ok id | None => dhGroup_loop rest end
  end.
Definition dhGroupFromSA (sa : SecurityAssociation) : result Z := dhGroup_loop (sa_Proposals sa).

(** ** The MODP group *)
Definition modp_prime : Z := Eval vm_compute in
  match big_SetString16 (remove_spaces modp2048PrimeHex) with Some p => p | None => 0 end.

Lemma modpGroup_14 : modpGroup DHGroup2048BitMODP = Ok (modp_prime, 256).
Proof. by vm_compute. Qed.
Lemma modp_prime_bounds : 256 ^ 255 < modp_prime < 256 ^ 256.
Proof. by vm_compute. Qed.

(** The public keys a peer may send: 1 to 256 octets, a number in [2, p-2]. *)
Definition modp_valid (peer : bytes) : Prop := 1 <= len peer <= 256 /\ 2 <= be_decode peer <= modp_prime - 2.
#[export] Instance modp_valid_dec peer : Decision (modp_valid peer).
Proof. unfold modp_valid. apply _. Defined.

(** An exchange with exponent [x]. *)
Definition modp_exchange (x : Z) (dh : dhKeyExchange) : Prop :=
  2 <= x <= modp_prime - 2 /\ dh_public dh = be_bytes 256 (2 ^ x mod modp_prime) /\
  forall peer, bytes_ok peer ->
    dh_shared dh peer = if decide (modp_valid peer) then Ok (be_bytes 256 (be_decode peer ^ x mod modp_prime))
                        else Errorf ErrInvalidInitResponse.

#[local] Opaque modp_prime.

Lemma big_Exp_spec x y m : 1 < m -> 0 <= y -> big_Exp x y m = x ^ y mod m.
Proof. intros. unfold big_Exp. apply Zpow_mod_correct; lia. Qed.

Lemma leftPad_mod v : leftPadBigInt (v mod modp_prime) 256 = Ok (be_bytes 256 (v mod modp_prime)).
Proof.
  unfold leftPadBigInt, big_FillBytes. pose proof modp_prime_bounds.
  pose proof (Z.mod_pos_bound v modp_prime ltac:(lia)). by replace (_ <=? _) with false by lia.
Qed.

Lemma newMODP_spec raw random :
  reader_ok random -> bytes_ok raw ->
  safe (newMODPKeyExchange DHGroup2048BitMODP raw random) (fun dh => exists x, modp_exchange x dh /\
    (raw <> [] -> x = be_decode raw mod (modp_prime - 3) + 2)).
Proof.
  intros Hr Hraw. unfold newMODPKeyExchange. rewrite modpGroup_14. cbn [bind]. pose proof modp_prime_bounds as Hp.
  assert (2 ^ 64 < modp_prime) by (transitivity (256 ^ 255); [by vm_compute|lia]).
  eapply (safe_call _ _ (fun b => raw <> [] -> b = raw)).
  { go_case H0; [|done]. apply Z.eqb_eq, len_zero in H0. subst raw. by eapply safe_mono; [apply randomBytes_safe|]. }
  intros b Hb. unfold big_SetBytes. set (x := be_decode b mod (modp_prime - 3) + 2).
  assert (Hx : 2 <= x <= modp_prime - 2) by (pose proof (Z.mod_pos_bound (be_decode b) (modp_prime - 3) ltac:(lia)); lia).
  rewrite big_Exp_spec, leftPad_mod by lia. cbn [bind safe]. exists x. split; [split; [done|split; [done|]]|].
  - intros peer Hpeer. cbn [dh_shared]. unfold modp_shared, big_SetBytes. rewrite big_Exp_spec, leftPad_mod by lia.
    pose proof (len_nonneg peer). unfold modp_valid. go_case H1; [rewrite decide_False by lia; done|].
    go_case H2; [rewrite decide_False by lia; done|]. by rewrite decide_True by lia.
  - intros Hne. subst x. by rewrite (Hb Hne).
Qed.

Lemma pow_mod_l a n m : 0 < m -> (a mod m) ^ n mod m = a ^ n mod m.
Proof. intros Hm. symmetry. by apply Zpower_mod. Qed.

Lemma modp_public_ok x dh : modp_exchange x dh -> bytes_ok (dh_public dh) /\ len (dh_public dh) = 256.
Proof. intros (_ & -> & _). split; [apply bytes_ok_be_bytes|by rewrite len_be_bytes]. Qed.

Lemma modp_agree x y a b s s' :
  modp_exchange x a -> modp_exchange y b -> dh_shared a (dh_public b) = Ok s -> dh_shared b (dh_public a) = Ok s' -> s = s'.
Proof.
  intros Ha Hb. pose proof (modp_public_ok _ _ Ha) as [Hpa _]. pose proof (modp_public_ok _ _ Hb) as [Hpb _].
  destruct Ha as (Hx & Ea & Sa), Hb as (Hy & Eb & Sb). rewrite (Sa _ Hpb), (Sb _ Hpa). do 2 case_decide; try done.
  intros [= <-] [= <-]. pose proof modp_prime_bounds as Hp. rewrite Ea, Eb.
  assert (0 < modp_prime) by (transitivity (256 ^ 255); [by vm_compute|lia]).
  assert (Hd : forall v, be_decode (be_bytes 256 (v mod modp_prime)) = v mod modp_prime).
  { intros v. apply be_decode_be_bytes. pose proof (Z.mod_pos_bound v modp_prime ltac:(lia)).
    change (256 ^ Z.of_nat 256) with (256 ^ 256). lia. }
  rewrite !Hd, !pow_mod_l by lia. rewrite <- !Z.pow_mul_r by lia. by rewrite Z.mul_comm.
Qed.

(** ** Properties *)
Section exchange.
Context `{EcdhLaws}.

Lemma newDHKeyExchange_safe group raw random :
  reader_ok random -> bytes_ok raw ->
  safe (newDHKeyExchange group raw random) (fun dh =>
    (group = DHGroupCurve25519 /\ (exists k, dh = mkDH (X25519_PublicKey k) (x25519_shared k)) \/
     group = DHGroup2048BitMODP /\ exists x, modp_exchange x dh) /\
    bytes_ok (dh_public dh) /\ len (dh_public dh) = (if group =? DHGroupCurve25519 then 32 else 256)).
Proof.
  intros Hr Hraw. unfold newDHKeyExchange. go_case H1; [|go_case H2; [|done]].
  - eapply (safe_call _ _ (fun _ => True)).
    { unfold x25519PrivateKey. go_case H2; [apply private_returns|by apply generate_returns]. }
    intros k _. cbn [safe dh_public]. split; [left; split; [lia|by exists k]|]. split; [apply public_ok|apply public_len].
  - apply Z.eqb_eq in H2 as ->. eapply safe_mono; [by apply newMODP_spec|]. intros dh (x & Hx & _).
    split; [right; split; [done|by exists x]|]. apply (modp_public_ok x), Hx.
Qed.

Lemma x25519_agree a b s s' :
  x25519_shared a (X25519_PublicKey b) = Ok s -> x25519_shared b (X25519_PublicKey a) = Ok s' -> s = s'.
Proof. unfold x25519_shared. rewrite !new_public_key. cbn [map_err bind]. rewrite ecdh_agree. by intros -> [= <-]. Qed.

Lemma dh_shared_safe group raw random dh peer :
  reader_ok random -> bytes_ok raw -> newDHKeyExchange group raw random = Ok dh -> bytes_ok peer ->
  safe (dh_shared dh peer) bytes_ok.
Proof.
  intros Hr Hraw Hdh Hpeer. pose proof (newDHKeyExchange_safe group raw random Hr Hraw) as Hs. rewrite Hdh in Hs.
  destruct Hs as [[[_ (k & ->)]|[_ (x & _ & _ & ->)]] _]; [|by case_decide; [apply bytes_ok_be_bytes|]|done].
  cbn [dh_shared]. unfold x25519_shared. eapply (safe_call _ _ (fun _ => True)); [apply safe_map_err, new_public_returns|].
  intros pub _. apply safe_map_err. eapply safe_mono; [apply ecdh_safe|]. by intros ? [_ ?].
Qed.

Lemma dh_agree group rawA rawB randomA randomB a b s s' :
  reader_ok randomA -> reader_ok randomB -> bytes_ok rawA -> bytes_ok rawB ->
  newDHKeyExchange group rawA randomA = Ok a -> newDHKeyExchange group rawB randomB = Ok b ->
  dh_shared a (dh_public b) = Ok s -> dh_shared b (dh_public a) = Ok s' -> s = s'.
Proof.
  intros HrA HrB HA HB Ea Eb. pose proof (newDHKeyExchange_safe group rawA randomA HrA HA) as Sa.
  pose proof (newDHKeyExchange_safe group rawB randomB HrB HB) as Sb. rewrite Ea in Sa. rewrite Eb in Sb.
  destruct Sa as [Ka _], Sb as [Kb _].
  destruct Ka as [[-> (k & ->)]|[-> (x & Hx)]], Kb as [[Hg (k' & ->)]|[Hg (y & Hy)]]; try done.
  - by apply x25519_agree.
  - by apply (modp_agree x y).
Qed.
End exchange.

(** Diffie-Hellman agreement.  For either group and any private keys and
    random sources, building a key exchange never panics and its public key has
    the length of the group; and when two exchanges of the same group accept
    each other's public key they compute the same shared secret. *)
Theorem dh_agreement (D : Ecdh) (L : EcdhLaws D) group rawA rawB randomA randomB :
  reader_ok randomA -> reader_ok randomB -> bytes_ok rawA -> bytes_ok rawB ->
  returns (newDHKeyExchange group rawA randomA) /\
  forall a b, newDHKeyExchange group rawA randomA = Ok a -> newDHKeyExchange group rawB randomB = Ok b ->
    len (dh_public a) = (if group =? DHGroupCurve25519 then 32 else 256) /\
    returns (dh_shared a (dh_public b)) /\
    forall s s', dh_shared a (dh_public b) = Ok s -> dh_shared b (dh_public a) = Ok s' -> s = s'.
Proof.
  intros HrA HrB HA HB. pose proof (newDHKeyExchange_safe group rawA randomA HrA HA) as Sa.
  split; [by eapply safe_returns|]. intros a b Ea Eb.
  pose proof (newDHKeyExchange_safe group rawB randomB HrB HB) as Sb. rewrite Ea in Sa. rewrite Eb in Sb.
  destruct Sa as (_ & _ & La), Sb as (_ & Ob & _). split; [done|].
  split; [eapply safe_returns, (dh_shared_safe group rawA randomA); done|]. intros s s'.
  by apply (dh_agree group rawA rawB randomA randomB).
Qed.

(** The 2048-bit MODP group.  [newMODPKeyExchange] returns for every private
    key and random source; the exponent lies in [2, p-2] (the private octets
    reduced, when given), the public key is [2^x mod p] in 256 octets, and the
    shared secret of a peer's key is [peer^x mod p] in 256 octets exactly when
    the key has 1 to 256 octets and lies in [2, p-2], an error otherwise. *)
Theorem newMODPKeyExchange_correct raw random :
  reader_ok random -> bytes_ok raw ->
  returns (newMODPKeyExchange DHGroup2048BitMODP raw random) /\
  forall dh, newMODPKeyExchange DHGroup2048BitMODP raw random = Ok dh ->
    exists x, 2 <= x <= modp_prime - 2 /\ (raw <> [] -> x = be_decode raw mod (modp_prime - 3) + 2) /\
      dh_public dh = be_bytes 256 (2 ^ x mod modp_prime) /\
      forall peer, bytes_ok peer ->
        dh_shared dh peer = if decide (modp_valid peer) then Ok (be_bytes 256 (be_decode peer ^ x mod modp_prime))
                            else Errorf ErrInvalidInitResponse.
Proof.
  intros Hr Hraw. pose proof (newMODP_spec raw random Hr Hraw) as Hs. split; [by eapply safe_returns|].
  intros dh Hdh. rewrite Hdh in Hs. destruct Hs as (x & (? & ? & ?) & ?). by exists x.
Qed.

(** ** A curve for the witnesses: multiplication of 256-bit numbers *)
Definition toy_mul (a b : bytes) : bytes := be_bytes 32 (be_decode a * be_decode b mod 256 ^ 32).
#[export] Instance toy_ecdh : Ecdh := {|
  X25519_GenerateKey r := r 32;
  X25519_NewPrivateKey b := if len b =? 32 then Ok b else Errorf ErrECDHKey;
  X25519_PublicKey k := toy_mul k [9];
  X25519_NewPublicKey b := if len b =? 32 then Ok b else Errorf ErrECDHKey;
  X25519_ECDH k p := Ok (toy_mul k p)
|}.
Lemma toy_mul_mod a b c : toy_mul a (toy_mul b c) = be_bytes 32 (be_decode a * (be_decode b * be_decode c) mod 256 ^ 32).
Proof.
  unfold toy_mul at 1, toy_mul. rewrite be_decode_be_bytes by (apply Z.mod_pos_bound; done). by rewrite Zmult_mod_idemp_r.
Qed.
#[export] Instance toy_ecdh_laws : EcdhLaws toy_ecdh.
Proof.
  split; cbn.
  - intros r Hr. by eapply safe_returns, Hr.
  - intros b. by case_match.
  - intros k. apply len_be_bytes.
  - intros k. apply bytes_ok_be_bytes.
  - intros b. by case_match.
  - done.
  - intros k p. split; [apply len_be_bytes|apply bytes_ok_be_bytes].
  - intros a b. f_equal. rewrite !toy_mul_mod. by rewrite !Z.mul_assoc, (Z.mul_comm (be_decode a)).
Qed.

(** The secret that the owner of [rawA] computes from the public key of [rawB]. *)
Definition sample_secret (rawA rawB : bytes) : result bytes :=
  let! a := newDHKeyExchange DHGroup2048BitMODP rawA zero_reader in
  let! b := newDHKeyExchange DHGroup2048BitMODP rawB zero_reader in
  dh_shared a (dh_public b).
Lemma sample_secret_12 : sample_secret [1] [2] = Ok (be_bytes 256 4096).
Proof. vm_compute. reflexivity. Qed.
Lemma sample_secret_inv rawA rawB s : sample_secret rawA rawB = Ok s ->
  exists a b, newDHKeyExchange DHGroup2048BitMODP rawA zero_reader = Ok a /\
    newDHKeyExchange DHGroup2048BitMODP rawB zero_reader = Ok b /\ dh_shared a (dh_public b) = Ok s.
Proof. unfold sample_secret. intros (a & Ea & (b & Eb & H)%bind_ok)%bind_ok. eauto. Qed.
Lemma newDH_modp raw random :
  newDHKeyExchange DHGroup2048BitMODP raw random = newMODPKeyExchange DHGroup2048BitMODP raw random.
Proof. reflexivity. Qed.

Lemma dh_agreement_witness :
  exists a b, newDHKeyExchange DHGroup2048BitMODP [1] zero_reader = Ok a /\
    newDHKeyExchange DHGroup2048BitMODP [2] zero_reader = Ok b /\ len (dh_public a) = 256 /\
    forall s s', dh_shared a (dh_public b) = Ok s -> dh_shared b (dh_public a) = Ok s' -> s = s'.
Proof.
  destruct (dh_agreement toy_ecdh toy_ecdh_laws DHGroup2048BitMODP [1] [2] zero_reader zero_reader) as (_ & H);
    [exact zero_reader_ok..|by_decide|by_decide|].
  destruct (sample_secret_inv _ _ _ sample_secret_12) as (a & b & Ea & Eb & _). exists a, b.
  destruct (H a b Ea Eb) as (Hl & _ & Hs). split; [exact Ea|]. split; [exact Eb|]. split; [exact Hl|exact Hs].
Defined.

Lemma newMODPKeyExchange_correct_witness :
  exists dh x, newMODPKeyExchange DHGroup2048BitMODP [1] zero_reader = Ok dh /\ x = be_decode [1] mod (modp_prime - 3) + 2 /\
    dh_public dh = be_bytes 256 (2 ^ x mod modp_prime).
Proof.
  destruct (newMODPKeyExchange_correct [1] zero_reader zero_reader_ok ltac:(by_decide)) as (_ & H).
  destruct (sample_secret_inv _ _ _ sample_secret_12) as (a & b & Ea & _). rewrite newDH_modp in Ea.
  destruct (H a Ea) as (x & _ & Hx & Hp & _). exists a, x. split; [exact Ea|]. split; [apply Hx; discriminate|exact Hp].
Defined.
