(* ===== verification/World.v ===== *)
(** * Exchanges as effects

    Code that talks to a peer several times runs in the monad [M]: the world
    counts the reads of the random source and logs the exchanges, and the
    answer of the peer to a request may depend on the whole log.  [holds m w
    Q] is the total-correctness triple of a run from world [w]: the run
    neither panics nor runs out of fuel, and a value it gives satisfies [Q] in
    the world it leaves. *)
From S2P Require Import Prelude Errors Crypto Dh.

Record World := mkWorld { w_reads : nat; w_log : list (bytes * bytes) }.
Definition M (A : Type) : Type := World -> result (A * World).

(** [InitTransport.ExchangeIKE]: the answer to a request after a log. *)
Abbreviation Peer := (list (bytes * bytes) -> bytes -> result bytes).
Definition peer_ok (peer : Peer) : Prop := forall log req, safe (peer log req) bytes_ok.

Definition mret {A} (a : A) : M A := fun w => Ok (a, w).
Definition mbind {A B} (m : M A) (k : A -> M B) : M B := fun w => let! r := m w in k r.1 r.2.
Definition mlift {A} (r : result A) : M A := fun w => let! a := r in Ok (a, w).
Definition mfail {A} (s : sentinel) : M A := mlift (Errorf s).
(** One read of the source. *)
Definition mread {A} (random : Source) (use : Reader -> result A) : M A :=
  fun w => let! a := use (random (w_reads w)) in Ok (a, mkWorld (S (w_reads w)) (w_log w)).
(** One exchange; the log grows when the peer answered. *)
Definition mexchange (peer : Peer) (req : bytes) : M bytes :=
  fun w => let! resp := peer (w_log w) req in Ok (resp, mkWorld (w_reads w) (w_log w ++ [(req, resp)])).
(** Something that depends on the log, such as a SIM that counts its uses. *)
Definition mlog {A} (f : list (bytes * bytes) -> A) : M A := fun w => Ok (f (w_log w), w).

Declare Scope world_scope.
Notation "'let*' x ':=' m 'in' k" := (mbind m (fun x => k))
  (at level 10, x binder, m at level 200, k at level 200) : world_scope.
Notation "'do?' x ':=' m 'in' k" := (mbind (mlift m) (fun x => k))
  (at level 10, x binder, m at level 200, k at level 200) : world_scope.

Definition holds {A} (m : M A) (w : World) (Q : A -> World -> Prop) : Prop := safe (m w) (fun r => Q r.1 r.2).

Lemma holds_ret {A} (a : A) w (Q : A -> World -> Prop) : Q a w -> holds (mret a) w Q.
Proof. done. Qed.
Lemma holds_bind {A B} (m : M A) (k : A -> M B) w P (Q : B -> World -> Prop) :
  holds m w P -> (forall a w', P a w' -> holds (k a) w' Q) -> holds (mbind m k) w Q.
Proof. unfold holds, mbind. intros Hm Hk. eapply safe_call; [exact Hm|]. intros [a w'] HP. by apply Hk. Qed.
Lemma holds_mono {A} (m : M A) w (P Q : A -> World -> Prop) :
  holds m w P -> (forall a w', P a w' -> Q a w') -> holds m w Q.
Proof. unfold holds. intros Hm HQ. eapply safe_mono; [exact Hm|]. intros [a w']. apply HQ. Qed.
Lemma holds_lift {A} (r : result A) w (P : A -> Prop) (Q : A -> World -> Prop) :
  safe r P -> (forall a, P a -> Q a w) -> holds (mlift r) w Q.
Proof. unfold holds, mlift. intros Hr HQ. eapply safe_call; [exact Hr|]. intros a Ha. by apply HQ. Qed.
Lemma holds_do {A B} (r : result A) (k : A -> M B) w (P : A -> Prop) (Q : B -> World -> Prop) :
  safe r P -> (forall a, P a -> holds (k a) w Q) -> holds (mbind (mlift r) k) w Q.
Proof. intros Hr Hk. eapply holds_bind; [apply (holds_lift r w P (fun a w' => P a /\ w' = w)); [exact Hr|done]|]. intros a w' [Ha ->]. by apply Hk. Qed.
Lemma holds_fail {A} s w (Q : A -> World -> Prop) : holds (mfail s) w Q.
Proof. done. Qed.
Lemma holds_exchange peer req w (Q : bytes -> World -> Prop) :
  peer_ok peer -> (forall resp, bytes_ok resp -> peer (w_log w) req = Ok resp ->
    Q resp (mkWorld (w_reads w) (w_log w ++ [(req, resp)]))) -> holds (mexchange peer req) w Q.
Proof.
  intros Hp HQ. unfold holds, mexchange. specialize (Hp (w_log w) req).
  destruct (peer (w_log w) req) as [resp| | |] eqn:E; try done. cbn in *. by apply HQ.
Qed.
Lemma holds_read {A} random (use : Reader -> result A) w P (Q : A -> World -> Prop) :
  source_ok random -> (forall r, reader_ok r -> safe (use r) P) ->
  (forall a n, P a -> Q a (mkWorld n (w_log w))) -> holds (mread random use) w Q.
Proof.
  intros Hs Hu HQ. unfold holds, mread. eapply safe_call; [apply Hu, Hs|]. intros a Ha. by apply HQ.
Qed.
Lemma holds_log {A} (f : list (bytes * bytes) -> A) w (Q : A -> World -> Prop) : Q (f (w_log w)) w -> holds (mlog f) w Q.
Proof. done. Qed.
Lemma holds_returns {A} (m : M A) w Q : holds m w Q -> returns (m w).
Proof. unfold holds. by destruct (m w). Qed.
Lemma holds_Ok {A} (m : M A) w Q a w' : holds m w Q -> m w = Ok (a, w') -> Q a w'.
Proof. unfold holds. by intros H E; rewrite E in H. Qed.

(** [gives m Q]: a value that a run gives, from any world, satisfies [Q]; the
    partial-correctness side, for what does not depend on the world. *)
Definition gives {A} (m : M A) (Q : A -> Prop) : Prop := forall w a w', m w = Ok (a, w') -> Q a.
Lemma gives_ret {A} (a : A) (Q : A -> Prop) : Q a -> gives (mret a) Q.
Proof. intros HQ w b w' [= <- _]. exact HQ. Qed.
Lemma gives_fail {A} s (Q : A -> Prop) : gives (mfail s) Q.
Proof. intros w b w' E. discriminate E. Qed.
Lemma gives_bind {A B} (m : M A) (k : A -> M B) P (Q : B -> Prop) : gives m P -> (forall a, P a -> gives (k a) Q) -> gives (mbind m k) Q.
Proof.
  intros Hm Hk w b w' E. unfold mbind in E. destruct (m w) as [[a w1]| | |] eqn:Em; try discriminate E. by apply (Hk a (Hm _ _ _ Em) w1 b w').
Qed.
Lemma gives_any {A} (m : M A) : gives m (fun _ => True).
Proof. done. Qed.
Lemma gives_then {A B} (m : M A) (k : A -> M B) (Q : B -> Prop) : (forall a, gives (k a) Q) -> gives (mbind m k) Q.
Proof. intros Hk. eapply gives_bind; [apply gives_any|]. intros a _. apply Hk. Qed.

(** The same for a call without effects. *)
Definition yields {A} (r : result A) (Q : A -> Prop) : Prop := forall a, r = Ok a -> Q a.
Lemma yields_Ok {A} (a : A) (Q : A -> Prop) : Q a -> yields (Ok a) Q.
Proof. by intros HQ b [= <-]. Qed.
Lemma yields_bind {A B} (r : result A) (k : A -> result B) P (Q : B -> Prop) : yields r P -> (forall a, P a -> yields (k a) Q) -> yields (bind r k) Q.
Proof. intros Hr Hk b (a & Ha & Hb)%bind_ok. by apply (Hk a (Hr a Ha)). Qed.
Lemma yields_then {A B} (r : result A) (k : A -> result B) (Q : B -> Prop) : (forall a, yields (k a) Q) -> yields (bind r k) Q.
Proof. intros Hk. eapply (yields_bind _ _ (fun _ => True)); [done|]. intros a _. apply Hk. Qed.
Lemma yields_mono {A} (r : result A) (P Q : A -> Prop) : yields r P -> (forall a, P a -> Q a) -> yields r Q.
Proof. intros Hr HPQ a Ha. by apply HPQ, Hr. Qed.
Lemma gives_lift {A} (r : result A) Q : yields r Q -> gives (mlift r) Q.
Proof. intros Hr w a w' E. unfold mlift in E. destruct r as [b| | |]; try discriminate E. injection E as <- _. by apply Hr. Qed.
