(* ===== verification/Session.v ===== *)
(** * IKE_AUTH payloads (engine/swu/ikev2/session_payloads.go, auth_payload.go)

    Identities, configuration attributes, traffic selectors with the check that
    the responder only narrowed what was offered, and the AUTH payload keyed by
    the EAP master session key. *)
From S2P Require Import Prelude Errors Crypto Types Codec Notify Sa Keys.

Definition IDIPv4Addr := 1.
Definition IDFQDN := 2.
Definition IDRFC822Addr := 3.
Definition IDIPv6Addr := 5.
Definition IDKeyID := 11.
Definition CFGRequest := 1.
Definition CFGReply := 2.
Definition CFGSet := 3.
Definition CFGAck := 4.
Definition ConfigInternalIPv4Address := 1.
Definition ConfigInternalIPv4DNS := 3.
Definition ConfigInternalAddressExpiry := 5.
Definition ConfigInternalIPv6Address := 8.
Definition ConfigInternalIPv6DNS := 10.
Definition ConfigInternalIPv4Subnet := 13.
Definition ConfigSupportedAttributes := 14.
Definition ConfigInternalIPv6Subnet := 15.
Definition ConfigPCSCFIPv4Address := 20.
Definition ConfigPCSCFIPv6Address := 21.
Definition TSIPv4AddressRange := 7.
Definition TSIPv6AddressRange := 8.
Definition AuthMethodSharedKeyMIC := 2.
#[export] Hint Unfold TSIPv4AddressRange TSIPv6AddressRange AuthMethodSharedKeyMIC : goconst.

(** [InitResult] of init.go: what IKE_SA_INIT established. *)
Record InitResult := mkInitResult {
  ir_RequestBytes : bytes;
  ir_ResponseBytes : bytes;
  ir_Request : Message;
  ir_Response : Message;
  ir_SelectedSA : SecurityAssociation;
  ir_InitiatorSPI : Z;
  ir_ResponderSPI : Z;
  ir_NonceI : bytes;
  ir_NonceR : bytes;
  ir_PublicKeyI : bytes;
  ir_PublicKeyR : bytes;
  ir_SharedSecret : bytes;
  ir_PRF : hash;
  ir_SKEYSEED : bytes;
  ir_KeyMaterial : bytes;
  ir_Keys : IKEKeys;
  ir_MOBIKESupported : bool;
  ir_NATDetected : bool
}.

(** ** Identity *)
Record Identity := mkIdentity { id_Type : Z; id_Data : bytes }.

Definition Identity_MarshalBinary (id : Identity) : result bytes :=
  if id_Type id =? 0 then Errorf ErrInvalidIdentity else
  Ok ([id_Type id; 0; 0; 0] ++ id_Data id).

Definition ParseIdentity (data : bytes) : result Identity :=
  if len data <? 4 then Errorf ErrInvalidIdentity else
  let! ty := at_ data 0 in
  if ty =? 0 then Errorf ErrInvalidIdentity else
  let! rest := slice_from data 4 in
  Ok (mkIdentity ty rest).

Definition IdentityPayload (payloadType : Z) (id : Identity) : result Payload :=
  if negb (payloadType =? PayloadIDi) && negb (payloadType =? PayloadIDr)
  then Errorf ErrInvalidIdentity else
  let! body := Identity_MarshalBinary id in
  Ok (mkPayload payloadType 0 false body).

(** ** Configuration *)
Record ConfigurationAttribute := mkConfigAttr { ca_Type : Z; ca_Value : bytes }.
Record Configuration := mkConfig { cf_Type : Z; cf_Attributes : list ConfigurationAttribute }.
#[export] Instance ConfigurationAttribute_eq_dec : EqDecision ConfigurationAttribute.
Proof. solve_decision. Defined.

Fixpoint marshal_config_loop (attrs : list ConfigurationAttribute) (out : bytes) : result bytes :=
  match attrs with
  | [] => Ok out
  | attr :: rest =>
      if 0xffff <? len (ca_Value attr) then Errorf ErrInvalidConfiguration else
      marshal_config_loop rest
        (out ++ be_bytes 2 (ca_Type attr) ++ be_bytes 2 (to_u16 (len (ca_Value attr))) ++ ca_Value attr)
  end.
Definition Configuration_MarshalBinary (c : Configuration) : result bytes :=
  if cf_Type c =? 0 then Errorf ErrInvalidConfiguration else
  marshal_config_loop (cf_Attributes c) [cf_Type c; 0; 0; 0].

Fixpoint parse_config_loop (fuel : nat) (rest : bytes) (out : list ConfigurationAttribute)
  : result (list ConfigurationAttribute) :=
  match fuel with
  | O => OutOfFuel
  | S fuel' =>
      if negb (0 <? len rest) then Ok out else
      if len rest <? 4 then Errorf ErrInvalidConfiguration else
      let! length := u16_at rest 2 4 in
      if len rest <? 4 + length then Errorf ErrInvalidConfiguration else
      let! ty := u16_at rest 0 2 in
      let! value := slice rest 4 (4 + length) in
      let! rest := slice_from rest (4 + length) in
      parse_config_loop fuel' rest (out ++ [mkConfigAttr ty value])
  end.
Definition ParseConfiguration (data : bytes) : result Configuration :=
  if len data <? 4 then Errorf ErrInvalidConfiguration else
  let! ty := at_ data 0 in
  if ty =? 0 then Errorf ErrInvalidConfiguration else
  let! rest := slice_from data 4 in
  let! attrs := parse_config_loop (S (length rest)) rest [] in
  Ok (mkConfig ty attrs).

Definition ConfigurationPayload (c : Configuration) : result Payload :=
  let! body := Configuration_MarshalBinary c in Ok (mkPayload PayloadCP 0 false body).

Definition SWuConfigurationRequest : Configuration := mkConfig CFGRequest
  [mkConfigAttr ConfigInternalIPv4Address []; mkConfigAttr ConfigInternalIPv4DNS [];
   mkConfigAttr ConfigInternalIPv6Address []; mkConfigAttr ConfigInternalIPv6DNS [];
   mkConfigAttr ConfigPCSCFIPv4Address []; mkConfigAttr ConfigPCSCFIPv6Address []].

(** ** Traffic selectors

    [StartAddr] and [EndAddr] are [net.IP] values: 4 or 16 octets, or nil. *)
Record TrafficSelector := mkTS {
  ts_Type : Z;
  ts_IPProtocol : Z;
  ts_StartPort : Z;
  ts_EndPort : Z;
  ts_StartAddr : bytes;
  ts_EndAddr : bytes
}.
Record TrafficSelectors := mkTSs { ts_Selectors : list TrafficSelector }.
#[export] Instance TrafficSelector_eq_dec : EqDecision TrafficSelector.
Proof. solve_decision. Defined.

(** [trafficSelectorRange] has the fields of a selector, with normalised addresses. *)
Record trafficSelectorRange := mkTSRange {
  tr_Type : Z;
  tr_IPProtocol : Z;
  tr_StartPort : Z;
  tr_EndPort : Z;
  tr_StartAddr : bytes;
  tr_EndAddr : bytes
}.

Definition normalizeSelectorAddresses (selectorType : Z) (start end_ : bytes) : result (bytes * bytes) :=
  if selectorType =? TSIPv4AddressRange then
    match IP_To4 start, IP_To4 end_ with
    | Some start4, Some end4 => Ok (start4, end4)
    | _, _ => Errorf ErrInvalidTrafficSelector
    end
  else if selectorType =? TSIPv6AddressRange then
    match IP_To16 start, IP_To16 end_, IP_To4 start, IP_To4 end_ with
    | Some start16, Some end16, None, None => Ok (start16, end16)
    | _, _, _, _ => Errorf ErrInvalidTrafficSelector
    end
  else Errorf ErrInvalidTrafficSelector.

Definition TrafficSelector_MarshalBinary (ts : TrafficSelector) : result bytes :=
  let! r := normalizeSelectorAddresses (ts_Type ts) (ts_StartAddr ts) (ts_EndAddr ts) in
  let '(start, end_) := r in
  let length := 8 + len start + len end_ in
  if 0xffff <? length then Errorf ErrInvalidTrafficSelector else
  Ok ([ts_Type ts; ts_IPProtocol ts] ++ be_bytes 2 (to_u16 length) ++
      be_bytes 2 (ts_StartPort ts) ++ be_bytes 2 (ts_EndPort ts) ++ start ++ end_).

Fixpoint marshal_selectors_loop (selectors : list TrafficSelector) (out : bytes) : result bytes :=
  match selectors with
  | [] => Ok out
  | selector :: rest =>
      let! body := TrafficSelector_MarshalBinary selector in
      marshal_selectors_loop rest (out ++ body)
  end.
Definition TrafficSelectors_MarshalBinary (ts : TrafficSelectors) : result bytes :=
  let n := len (ts_Selectors ts) in
  if (n =? 0) || (0xff <? n) then Errorf ErrInvalidTrafficSelector else
  marshal_selectors_loop (ts_Selectors ts) [to_u8 n; 0; 0; 0].

Definition parseTrafficSelector (data : bytes) : result (TrafficSelector * Z) :=
  if len data <? 8 then Errorf ErrInvalidTrafficSelector else
  let! length := u16_at data 2 4 in
  if (length <? 16) || (len data <? length) then Errorf ErrInvalidTrafficSelector else
  let! ty := at_ data 0 in
  let! addrLen :=
    (if ty =? TSIPv4AddressRange then Ok 4
     else if ty =? TSIPv6AddressRange then Ok 16
     else Errorf ErrInvalidTrafficSelector) in
  if negb (length =? 8 + addrLen * 2) then Errorf ErrInvalidTrafficSelector else
  let! proto := at_ data 1 in
  let! startPort := u16_at data 4 6 in
  let! endPort := u16_at data 6 8 in
  let! startAddr := slice data 8 (8 + addrLen) in
  let! endAddr := slice data (8 + addrLen) length in
  Ok (mkTS ty proto startPort endPort startAddr endAddr, length).

Fixpoint parse_selectors_loop (fuel : nat) (rest : bytes) (out : list TrafficSelector)
  : result (list TrafficSelector) :=
  match fuel with
  | O => OutOfFuel
  | S fuel' =>
      if negb (0 <? len rest) then Ok out else
      let! r := parseTrafficSelector rest in
      let '(selector, length) := r in
      let! rest := slice_from rest length in
      parse_selectors_loop fuel' rest (out ++ [selector])
  end.
Definition ParseTrafficSelectors (data : bytes) : result TrafficSelectors :=
  if len data <? 4 then Errorf ErrInvalidTrafficSelector else
  let! count := at_ data 0 in
  let! rest := slice_from data 4 in
  let! selectors := parse_selectors_loop (S (length rest)) rest [] in
  if negb (len selectors =? count) then Errorf ErrInvalidTrafficSelector else
  Ok (mkTSs selectors).

Definition TrafficSelectorsPayload (payloadType : Z) (ts : TrafficSelectors) : result Payload :=
  if negb (payloadType =? PayloadTSi) && negb (payloadType =? PayloadTSr)
  then Errorf ErrInvalidTrafficSelector else
  let! body := TrafficSelectors_MarshalBinary ts in
  Ok (mkPayload payloadType 0 false body).

Definition IPv4Any : TrafficSelector :=
  mkTS TSIPv4AddressRange 0 0 65535 (net_IPv4 0 0 0 0) (net_IPv4 255 255 255 255).
Definition IPv4AnyTrafficSelectors : TrafficSelectors := mkTSs [IPv4Any].
Definition SWuAnyTrafficSelectors : TrafficSelectors := mkTSs
  [IPv4Any; mkTS TSIPv6AddressRange 0 0 65535 (replicate 16 0) (replicate 16 255)].

Definition trafficSelectorsOrIPv4Any (ts : TrafficSelectors) : TrafficSelectors :=
  if len (ts_Selectors ts) =? 0 then IPv4AnyTrafficSelectors else ts.

Definition normalizeTrafficSelectorRange (selector : TrafficSelector) : result trafficSelectorRange :=
  let! r := normalizeSelectorAddresses (ts_Type selector) (ts_StartAddr selector) (ts_EndAddr selector) in
  let '(start, end_) := r in
  if ts_EndPort selector <? ts_StartPort selector then Errorf ErrInvalidTrafficSelector else
  if negb (bytes_le start end_) then Errorf ErrInvalidTrafficSelector else
  Ok (mkTSRange (ts_Type selector) (ts_IPProtocol selector) (ts_StartPort selector)
        (ts_EndPort selector) start end_).

Definition trafficSelectorCovers (offered selected : trafficSelectorRange) : bool :=
  if negb (tr_Type offered =? tr_Type selected) then false
  else if negb (tr_IPProtocol offered =? 0) && negb (tr_IPProtocol offered =? tr_IPProtocol selected) then false
  else if (tr_IPProtocol selected =? 0) && negb (tr_IPProtocol offered =? 0) then false
  else if (tr_StartPort selected <? tr_StartPort offered) || (tr_EndPort offered <? tr_EndPort selected) then false
  else bytes_le (tr_StartAddr offered) (tr_StartAddr selected) &&
       bytes_le (tr_EndAddr selected) (tr_EndAddr offered).

Definition trafficSelectorCoveredByAny (offered : list trafficSelectorRange) (selected : trafficSelectorRange) : bool :=
  existsb (fun candidate => trafficSelectorCovers candidate selected) offered.

Fixpoint normalize_ranges (selectors : list TrafficSelector) : result (list trafficSelectorRange) :=
  match selectors with
  | [] => Ok []
  | selector :: rest =>
      let! normalized := normalizeTrafficSelectorRange selector in
      let! ranges := normalize_ranges rest in
      Ok (normalized :: ranges)
  end.

Fixpoint check_selected (offeredRanges : list trafficSelectorRange) (selectors : list TrafficSelector) : result unit :=
  match selectors with
  | [] => Ok tt
  | selector :: rest =>
      let! normalized := normalizeTrafficSelectorRange selector in
      if trafficSelectorCoveredByAny offeredRanges normalized
      then check_selected offeredRanges rest
      else Errorf ErrInvalidTrafficSelector
  end.

Definition ValidateTrafficSelectorNarrowing (offered selected : TrafficSelectors) : result unit :=
  if len (ts_Selectors offered) =? 0 then Errorf ErrInvalidTrafficSelector else
  if len (ts_Selectors selected) =? 0 then Errorf ErrInvalidTrafficSelector else
  let! offeredRanges := normalize_ranges (ts_Selectors offered) in
  check_selected offeredRanges (ts_Selectors selected).

(** ** Authentication *)
Record Authentication := mkAuth { au_Method : Z; au_Data : bytes }.

Definition AuthenticationPayload (method : Z) (data : bytes) : result Payload :=
  if (method =? 0) || (len data =? 0) then Errorf ErrInvalidAuthenticationPayload else
  Ok (mkPayload PayloadAUTH 0 false ([method; 0; 0; 0] ++ data)).

Definition ParseAuthentication (data : bytes) : result Authentication :=
  if len data <? 5 then Errorf ErrInvalidAuthenticationPayload else
  let! method := at_ data 0 in
  if method =? 0 then Errorf ErrInvalidAuthenticationPayload else
  let! rest := slice_from data 4 in
  Ok (mkAuth method rest).

(** The octets of "Key Pad for IKEv2". *)
Definition KeyPad : bytes :=
  [75; 101; 121; 32; 80; 97; 100; 32; 102; 111; 114; 32; 73; 75; 69; 118; 50].

Section auth.
Context {C : Crypto}.

Definition eapSharedKeyAUTH (init : InitResult) (keys : IKEKeys) (identity : Identity) (msk : bytes)
    (initiator : bool) : result bytes :=
  if len msk =? 0 then Errorf ErrInvalidAuthenticationPayload else
  let! idBody := Identity_MarshalBinary identity in
  let '(prfKey, message, nonce) :=
    if negb initiator then (k_SKPr keys, ir_ResponseBytes init, ir_NonceI init)
    else (k_SKPi keys, ir_RequestBytes init, ir_NonceR init) in
  let! macID := PRF (kp_PRF (k_Profile keys)) prfKey idBody in
  let signedOctets := message ++ nonce ++ macID in
  let! sharedKey := PRF (kp_PRF (k_Profile keys)) msk KeyPad in
  PRF (kp_PRF (k_Profile keys)) sharedKey signedOctets.

Definition verifyEAPSharedKeyAUTH (init : InitResult) (keys : IKEKeys) (identity : Identity) (msk : bytes)
    (payload : Payload) (initiator : bool) : result unit :=
  if negb (p_Type payload =? PayloadAUTH) then Errorf ErrInvalidAuthenticationPayload else
  let! auth := ParseAuthentication (p_Body payload) in
  if negb (au_Method auth =? AuthMethodSharedKeyMIC) then Errorf ErrInvalidAuthenticationPayload else
  let! expected := eapSharedKeyAUTH init keys identity msk initiator in
  if negb (bytesEqual (au_Data auth) expected) then Errorf ErrInvalidAuthenticationPayload else Ok tt.
End auth.

(** ** Well-formed values *)
Definition Identity_ok (id : Identity) : Prop := is_u8 (id_Type id) /\ bytes_ok (id_Data id).
Definition ConfigAttr_ok (a : ConfigurationAttribute) : Prop := is_u16 (ca_Type a) /\ bytes_ok (ca_Value a).
Definition Configuration_ok (c : Configuration) : Prop :=
  is_u8 (cf_Type c) /\ Forall ConfigAttr_ok (cf_Attributes c).
(** A selector as it is received: addresses of the length of its type. *)
Definition Selector_ok (s : TrafficSelector) : Prop :=
  is_u8 (ts_Type s) /\ is_u8 (ts_IPProtocol s) /\ is_u16 (ts_StartPort s) /\ is_u16 (ts_EndPort s) /\
  bytes_ok (ts_StartAddr s) /\ bytes_ok (ts_EndAddr s) /\
  ((ts_Type s = TSIPv4AddressRange /\ len (ts_StartAddr s) = 4 /\ len (ts_EndAddr s) = 4) \/
   (ts_Type s = TSIPv6AddressRange /\ len (ts_StartAddr s) = 16 /\ len (ts_EndAddr s) = 16)).
Definition Selectors_ok (ts : TrafficSelectors) : Prop := Forall Selector_ok (ts_Selectors ts).
#[export] Instance Identity_ok_dec id : Decision (Identity_ok id).
Proof. unfold Identity_ok. apply _. Defined.
#[export] Instance ConfigAttr_ok_dec a : Decision (ConfigAttr_ok a).
Proof. unfold ConfigAttr_ok. apply _. Defined.
#[export] Instance Configuration_ok_dec c : Decision (Configuration_ok c).
Proof. unfold Configuration_ok. apply _. Defined.
#[export] Instance Selector_ok_dec s : Decision (Selector_ok s).
Proof. unfold Selector_ok. apply _. Defined.
#[export] Instance Selectors_ok_dec ts : Decision (Selectors_ok ts).
Proof. unfold Selectors_ok. apply _. Defined.

(** ** Identities *)
#[export] Instance identity_codec : Codec Identity :=
  {| enc := Identity_MarshalBinary; dec := ParseIdentity; val_ok := Identity_ok |}.
#[export] Instance identity_laws : CodecLaws Identity.
Proof.
  constructor; cbn.
  - intros id b [Ht Hd]. unfold Identity_MarshalBinary. case_match; [done|]. intros [= <-].
    repeat apply bytes_ok_cons_2; done.
  - intros b Hb. unfold ParseIdentity. go_safe. by split.
  - intros [t d] b [Ht Hd]. unfold Identity_MarshalBinary. cbn. destruct (t =? 0) eqn:H0; [done|].
    intros [= <-]. unfold ParseIdentity. pose proof (len_nonneg d). go_if. rewrite (at_Ok _ 0 t) by done. cbn [bind].
    rewrite H0. by rewrite (slice_from_eq _ [t; 0; 0; 0] d).
Qed.

(** ** Configurations *)
Definition enc_config_attr (a : ConfigurationAttribute) : bytes :=
  be_bytes 2 (ca_Type a) ++ be_bytes 2 (len (ca_Value a)) ++ ca_Value a.
Definition config_fits (c : Configuration) : Prop :=
  cf_Type c <> 0 /\ Forall (fun a => len (ca_Value a) <= 0xffff) (cf_Attributes c).

Lemma marshal_config_loop_spec attrs out b :
  marshal_config_loop attrs out = Ok b <->
  Forall (fun a => len (ca_Value a) <= 0xffff) attrs /\ b = out ++ concat (enc_config_attr <$> attrs).
Proof.
  revert out. induction attrs as [|a attrs IH]; intros out; cbn [marshal_config_loop].
  - cbn. rewrite app_nil_r. split; [intros [= <-]; split; [constructor|done]|by intros [_ ->]].
  - rewrite Forall_cons. pose proof (len_nonneg (ca_Value a)). go_case Hl; [split; [done|lia]|].
    rewrite IH. cbn. unfold to_u16. rewrite Z.mod_small by lia.
    unfold enc_config_attr at 2. rewrite <- !app_assoc. intuition lia.
Qed.

Lemma Configuration_MarshalBinary_spec c b :
  Configuration_MarshalBinary c = Ok b <->
  config_fits c /\ b = [cf_Type c; 0; 0; 0] ++ concat (enc_config_attr <$> cf_Attributes c).
Proof.
  unfold Configuration_MarshalBinary, config_fits. go_case H0; [split; [done|lia]|].
  rewrite marshal_config_loop_spec. split; [intros [? ->]; split_and!; done || lia|].
  by intros [[_ ?] ->].
Qed.

Lemma len_enc_config_attr a : len (enc_config_attr a) = 4 + len (ca_Value a).
Proof. unfold enc_config_attr. len_lia. Qed.

Lemma parse_config_loop_enc fuel attrs out :
  (length (concat (enc_config_attr <$> attrs)) < fuel)%nat -> Forall ConfigAttr_ok attrs ->
  Forall (fun a => len (ca_Value a) <= 0xffff) attrs ->
  parse_config_loop fuel (concat (enc_config_attr <$> attrs)) out = Ok (out ++ attrs).
Proof.
  revert fuel out. induction attrs as [|[t v] attrs IH]; intros fuel out Hf Hok Hfit;
    (destruct fuel as [|fuel]; [lia|]); cbn [parse_config_loop].
  - cbn. by rewrite app_nil_r.
  - apply Forall_cons in Hok as [[Ht Hv] Hok]. apply Forall_cons in Hfit as [Hl Hfit].
    cbn in Ht, Hv, Hl. cbn [fmap list_fmap concat] in *. pose proof (len_enc_config_attr (mkConfigAttr t v)) as Hla.
    cbn in Hla. set (tl := concat _) in *. pose proof (len_nonneg v). pose proof (len_nonneg tl).
    assert (length tl < fuel)%nat by (rewrite length_app in Hf; unfold len in *; lia).
    unfold enc_config_attr at 1. unfold enc_config_attr at 1. cbn [ca_Type ca_Value].
    rewrite <- !app_assoc. set (T := be_bytes 2 t). set (L := be_bytes 2 (len v)).
    assert (len T = 2 /\ len L = 2) as [? ?] by done. set (d := T ++ L ++ v ++ tl).
    assert (Hd : len d = 4 + len v + len tl) by (subst d; len_lia). do 2 go_if. cbn [negb].
    rewrite (u16_at_eq d T (v ++ tl) (len v)) by (done || len_lia). cbn [bind]. go_if.
    rewrite (u16_at_eq d [] (L ++ v ++ tl) t) by done. cbn [bind].
    rewrite (slice_eq d (T ++ L) v tl) by (rewrite <- ?app_assoc; done || len_lia). cbn [bind].
    rewrite (slice_from_eq d (T ++ L ++ v) tl) by (rewrite <- ?app_assoc; done || len_lia). cbn [bind].
    rewrite IH by done. by rewrite <- app_assoc.
Qed.

Lemma parse_config_loop_safe fuel rest out :
  bytes_ok rest -> (length rest < fuel)%nat -> Forall ConfigAttr_ok out ->
  safe (parse_config_loop fuel rest out) (Forall ConfigAttr_ok).
Proof.
  revert rest out. induction fuel as [|fuel IH]; intros rest out Hr Hf Hout; [lia|].
  cbn [parse_config_loop]. go_safe; [done|].
  apply IH; [done|unfold len in *; len_lia|]. by apply Forall_snoc_2.
Qed.

#[export] Instance configuration_codec : Codec Configuration :=
  {| enc := Configuration_MarshalBinary; dec := ParseConfiguration; val_ok := Configuration_ok |}.
#[export] Instance configuration_laws : CodecLaws Configuration.
Proof.
  constructor; cbn.
  - intros c b [Ht Ha] [_ ->]%Configuration_MarshalBinary_spec. apply bytes_ok_app_2; [repeat constructor; apply Ht || done|].
    induction Ha as [|a attrs [? ?] _ IH]; [constructor|]. cbn. unfold enc_config_attr at 1.
    auto 6 with gobytes.
  - intros b Hb. unfold ParseConfiguration. go_safe.
    eapply safe_mono; [apply parse_config_loop_safe; [done|lia|constructor]|]. by split.
  - intros c b [Ht Ha] [[Hn Hf] ->]%Configuration_MarshalBinary_spec.
    unfold ParseConfiguration. set (tl := concat _). pose proof (len_nonneg tl). destruct c as [ty attrs].
    cbn [cf_Type cf_Attributes] in *. go_if. rewrite (at_Ok _ 0 ty) by done. cbn [bind]. apply Z.eqb_neq in Hn. rewrite Hn.
    rewrite (slice_from_eq _ [ty; 0; 0; 0] tl) by done. cbn [bind]. subst tl.
    by rewrite parse_config_loop_enc by (done || lia).
Qed.

(** ** Selectors on the wire *)
Definition enc_selector (s : TrafficSelector) : bytes :=
  [ts_Type s; ts_IPProtocol s] ++ be_bytes 2 (8 + len (ts_StartAddr s) + len (ts_EndAddr s)) ++
  be_bytes 2 (ts_StartPort s) ++ be_bytes 2 (ts_EndPort s) ++ ts_StartAddr s ++ ts_EndAddr s.
(** The selector with the addresses the encoder writes. *)
Definition with_addrs (s : TrafficSelector) (start end_ : bytes) : TrafficSelector :=
  mkTS (ts_Type s) (ts_IPProtocol s) (ts_StartPort s) (ts_EndPort s) start end_.

Lemma normalizeSelectorAddresses_Ok ty start end_ s e :
  normalizeSelectorAddresses ty start end_ = Ok (s, e) ->
  (ty = TSIPv4AddressRange /\ len s = 4 /\ len e = 4) \/ (ty = TSIPv6AddressRange /\ len s = 16 /\ len e = 16).
Proof.
  unfold normalizeSelectorAddresses. intros H.
  destruct (Z.eqb_spec ty TSIPv4AddressRange) as [->|].
  - destruct (IP_To4 start) eqn:H1, (IP_To4 end_) eqn:H2; simplify_eq. left. eauto using IP_To4_len.
  - destruct (Z.eqb_spec ty TSIPv6AddressRange) as [->|]; [|done].
    destruct (IP_To16 start) eqn:H1, (IP_To16 end_) eqn:H2, (IP_To4 start), (IP_To4 end_); simplify_eq.
    right. eauto using IP_To16_len.
Qed.

Lemma normalizeSelectorAddresses_returns ty start end_ : returns (normalizeSelectorAddresses ty start end_).
Proof. unfold normalizeSelectorAddresses. by repeat case_match. Qed.

Lemma normalizeSelectorAddresses_ok ty start end_ s e :
  bytes_ok start -> bytes_ok end_ ->
  normalizeSelectorAddresses ty start end_ = Ok (s, e) -> bytes_ok s /\ bytes_ok e.
Proof.
  unfold normalizeSelectorAddresses. intros ? ? H.
  repeat (case_match; simplify_eq); eauto using IP_To4_ok, IP_To16_ok.
Qed.

Lemma selector_marshal_spec s b :
  TrafficSelector_MarshalBinary s = Ok b <->
  exists start end_, normalizeSelectorAddresses (ts_Type s) (ts_StartAddr s) (ts_EndAddr s) = Ok (start, end_) /\
    b = enc_selector (with_addrs s start end_).
Proof.
  unfold TrafficSelector_MarshalBinary.
  destruct (normalizeSelectorAddresses _ _ _) as [[st en]|e| |] eqn:Hn; cbn [bind];
    try (split; [done|by intros (? & ? & ? & _)]).
  assert (len st + len en <= 32 /\ 0 <= len st + len en) as [Hl1 Hl2].
  { apply normalizeSelectorAddresses_Ok in Hn. lia. }
  go_if. unfold to_u16. rewrite Z.mod_small by lia. unfold enc_selector, with_addrs. cbn. split.
  - intros [= <-]. by exists st, en.
  - by intros (? & ? & [= <- <-] & ->).
Qed.

Lemma parseTrafficSelector_enc s q :
  Selector_ok s -> parseTrafficSelector (enc_selector s ++ q) = Ok (s, len (enc_selector s)).
Proof.
  intros (Ht & Hp & Hsp & Hep & Hs & He & Hlen). destruct s as [ty pr sp ep st en]. cbn in *.
  unfold enc_selector. cbn [ts_Type ts_IPProtocol ts_StartPort ts_EndPort ts_StartAddr ts_EndAddr].
  set (L := be_bytes 2 _). set (A := be_bytes 2 sp). set (B := be_bytes 2 ep).
  assert (len L = 2 /\ len A = 2 /\ len B = 2) as (? & ? & ?) by done.
  rewrite <- !app_assoc. set (d := [ty; pr] ++ L ++ A ++ B ++ st ++ en ++ q). pose proof (len_nonneg q).
  assert (Hd : len d = 8 + len st + len en + len q) by (subst d; len_lia).
  assert (Hl : len st = len en /\ 4 <= len st <= 16) by lia.
  unfold parseTrafficSelector. go_if.
  rewrite (u16_at_eq d [ty; pr] (A ++ B ++ st ++ en ++ q) (8 + len st + len en)) by (done || len_lia).
  cbn [bind]. go_if. rewrite (at_Ok d 0 ty) by done. cbn [bind].
  replace (if ty =? TSIPv4AddressRange then _ else _) with (Ok (E := error) (len st)).
  2: { destruct Hlen as [(-> & -> & _)|(-> & -> & _)]; done. }
  cbn [bind]. go_if. rewrite (at_Ok d 1 pr) by done. cbn [bind].
  rewrite (u16_at_eq d ([ty; pr] ++ L) (B ++ st ++ en ++ q) sp) by (rewrite <- ?app_assoc; done || len_lia). cbn [bind].
  rewrite (u16_at_eq d ([ty; pr] ++ L ++ A) (st ++ en ++ q) ep) by (rewrite <- ?app_assoc; done || len_lia). cbn [bind].
  rewrite (slice_eq d ([ty; pr] ++ L ++ A ++ B) st (en ++ q)) by (rewrite <- ?app_assoc; done || len_lia). cbn [bind].
  rewrite (slice_eq d ([ty; pr] ++ L ++ A ++ B ++ st) en q) by (rewrite <- ?app_assoc; done || len_lia). cbn [bind].
  do 3 f_equal. len_lia.
Qed.

Lemma parseTrafficSelector_safe data :
  bytes_ok data -> safe (parseTrafficSelector data) (fun r => Selector_ok r.1 /\ 16 <= r.2 <= len data).
Proof.
  intros Hd. unfold parseTrafficSelector. go_safe; (split; [|cbn; lia]); unfold Selector_ok; cbn;
    split_and!; try done; len_lia.
Qed.

Lemma parse_selectors_loop_safe fuel rest out :
  bytes_ok rest -> (length rest < fuel)%nat -> Forall Selector_ok out ->
  safe (parse_selectors_loop fuel rest out) (Forall Selector_ok).
Proof.
  revert rest out. induction fuel as [|fuel IH]; intros rest out Hr Hf Hout; [lia|].
  cbn [parse_selectors_loop]. go_case H0; [done|].
  eapply safe_call; [by apply parseTrafficSelector_safe|]. intros [s l] [Hs Hl]. cbn in Hs, Hl. go_safe.
  apply IH; [done|unfold len in *; lia|by apply Forall_snoc_2].
Qed.

Lemma parse_selectors_loop_enc fuel ss out :
  (length (concat (enc_selector <$> ss)) < fuel)%nat -> Forall Selector_ok ss ->
  parse_selectors_loop fuel (concat (enc_selector <$> ss)) out = Ok (out ++ ss).
Proof.
  revert fuel out. induction ss as [|s ss IH]; intros fuel out Hf Hok;
    (destruct fuel as [|fuel]; [lia|]); cbn [parse_selectors_loop].
  - cbn. by rewrite app_nil_r.
  - apply Forall_cons in Hok as [Hs Hok]. cbn [fmap list_fmap concat] in *.
    assert (8 <= len (enc_selector s)) by (unfold enc_selector; len_lia).
    set (tl := concat _) in *. pose proof (len_nonneg tl).
    assert (length tl < fuel)%nat by (rewrite length_app in Hf; unfold len in *; lia).
    go_if. cbn [negb]. rewrite parseTrafficSelector_enc by done. cbn [bind].
    rewrite (slice_from_eq _ (enc_selector s) tl) by done. cbn [bind]. rewrite IH by done. by rewrite <- app_assoc.
Qed.

(** Marshalling normalises the addresses; a received selector is normal. *)
Fixpoint normal_selectors (ss : list TrafficSelector) : option (list TrafficSelector) :=
  match ss with
  | [] => Some []
  | s :: rest =>
      match normalizeSelectorAddresses (ts_Type s) (ts_StartAddr s) (ts_EndAddr s), normal_selectors rest with
      | Ok (start, end_), Some rest => Some (with_addrs s start end_ :: rest)
      | _, _ => None
      end
  end.

Lemma marshal_selectors_loop_spec ss out b :
  marshal_selectors_loop ss out = Ok b <->
  exists ns, normal_selectors ss = Some ns /\ b = out ++ concat (enc_selector <$> ns).
Proof.
  revert out. induction ss as [|s ss IH]; intros out; cbn [marshal_selectors_loop normal_selectors].
  - split; [intros [= <-]; exists []; cbn; by rewrite app_nil_r|].
    intros (? & [= <-] & ->). cbn. by rewrite app_nil_r.
  - pose proof (selector_marshal_spec s) as Hs.
    destruct (TrafficSelector_MarshalBinary s) as [body|e| |] eqn:Hm; cbn [bind].
    2,3,4: split; [done|]; intros (ns & Hn & _); destruct (normalizeSelectorAddresses _ _ _) as [[st en]| | |] eqn:Ha; try done;
      by specialize (proj2 (Hs _) (ex_intro _ st (ex_intro _ en (conj eq_refl eq_refl)))).
    destruct (proj1 (Hs body) eq_refl) as (st & en & -> & ->). rewrite IH. destruct (normal_selectors ss) as [ns|].
    + split; [intros (? & [= <-] & ->)|intros (? & [= <-] & ->)]; eexists; (split; [done|]); cbn [fmap list_fmap concat]; by rewrite <- app_assoc.
    + split; by intros (? & ? & _).
Qed.

Lemma normal_selectors_length ss ns : normal_selectors ss = Some ns -> len ns = len ss.
Proof.
  revert ns. induction ss as [|s ss IH]; intros ns; cbn [normal_selectors]; [by intros [= <-]|].
  repeat case_match; try done. intros [= <-]. rewrite !len_cons. f_equal. by apply IH.
Qed.

Definition Selector_typed (s : TrafficSelector) : Prop :=
  is_u8 (ts_Type s) /\ is_u8 (ts_IPProtocol s) /\ is_u16 (ts_StartPort s) /\ is_u16 (ts_EndPort s) /\
  bytes_ok (ts_StartAddr s) /\ bytes_ok (ts_EndAddr s).
#[export] Instance Selector_typed_dec s : Decision (Selector_typed s).
Proof. unfold Selector_typed. apply _. Defined.

Lemma normal_selectors_ok ss ns : Forall Selector_typed ss -> normal_selectors ss = Some ns -> Forall Selector_ok ns.
Proof.
  intros H. revert ns. induction H as [|s ss (? & ? & ? & ? & ? & ?) _ IH]; intros ns; cbn [normal_selectors].
  - intros [= <-]. constructor.
  - destruct (normalizeSelectorAddresses _ _ _) as [[st en]| | |] eqn:Ha; try done.
    destruct (normal_selectors ss) as [ns'|]; [|done]. intros [= <-]. constructor; [|by apply IH].
    pose proof (normalizeSelectorAddresses_ok _ _ _ _ _ H3 H4 Ha) as [? ?].
    apply normalizeSelectorAddresses_Ok in Ha. unfold Selector_ok, with_addrs. cbn. by split_and!.
Qed.

Lemma normal_selectors_id ss ns : Forall Selector_ok ss -> normal_selectors ss = Some ns -> ns = ss.
Proof.
  intros H. revert ns. induction H as [|s ss Hs _ IH]; intros ns; cbn [normal_selectors]; [by intros [= <-]|].
  destruct (normalizeSelectorAddresses _ _ _) as [[st en]| | |] eqn:Ha; try done.
  destruct (normal_selectors ss) as [ns'|]; [|done]. intros [= <-]. f_equal; [|by apply IH].
  destruct Hs as (_ & _ & _ & _ & _ & _ & Hl). destruct s as [ty pr sp ep a b]. cbn in *. unfold with_addrs. cbn.
  unfold normalizeSelectorAddresses, IP_To16, IP_To4 in Ha.
  destruct Hl as [(-> & Hl1 & Hl2)|(-> & Hl1 & Hl2)]; rewrite Hl1, Hl2 in Ha; cbn in Ha; repeat case_match; simplify_eq; done.
Qed.

Lemma TrafficSelectors_MarshalBinary_spec ts b :
  TrafficSelectors_MarshalBinary ts = Ok b <->
  1 <= len (ts_Selectors ts) <= 255 /\ exists ns, normal_selectors (ts_Selectors ts) = Some ns /\
    b = [len ns; 0; 0; 0] ++ concat (enc_selector <$> ns).
Proof.
  unfold TrafficSelectors_MarshalBinary. pose proof (len_nonneg (ts_Selectors ts)). go_case H0; [split; [done|lia]|].
  unfold to_u8. rewrite Z.mod_small by lia. rewrite marshal_selectors_loop_spec. split.
  - intros (ns & Hn & ->). split; [lia|]. exists ns. by rewrite (normal_selectors_length _ _ Hn).
  - intros (_ & ns & Hn & ->). exists ns. by rewrite (normal_selectors_length _ _ Hn).
Qed.

Lemma TrafficSelectors_MarshalBinary_returns ts : returns (TrafficSelectors_MarshalBinary ts).
Proof.
  unfold TrafficSelectors_MarshalBinary. go_case H0; [exact I|]. clear H0. generalize [to_u8 (len (ts_Selectors ts)); 0; 0; 0].
  induction (ts_Selectors ts) as [|s ss IH]; intros out; [exact I|]. cbn [marshal_selectors_loop].
  eapply (safe_call _ _ (fun _ => True)); [|intros; apply IH]. unfold TrafficSelector_MarshalBinary.
  eapply safe_call; [apply normalizeSelectorAddresses_returns|]. intros [st en] _. by case_match.
Qed.

Lemma ParseTrafficSelectors_enc ns :
  len ns <= 255 -> Forall Selector_ok ns ->
  ParseTrafficSelectors ([len ns; 0; 0; 0] ++ concat (enc_selector <$> ns)) = Ok (mkTSs ns).
Proof.
  intros Hl Hok. unfold ParseTrafficSelectors. set (tl := concat _). pose proof (len_nonneg tl).
  go_if. rewrite (at_Ok _ 0 (len ns)) by done. cbn [bind].
  rewrite (slice_from_eq _ [len ns; 0; 0; 0] tl) by done. cbn [bind]. subst tl.
  rewrite parse_selectors_loop_enc by (done || lia). cbn [bind app]. by rewrite Z.eqb_refl.
Qed.

Lemma ParseTrafficSelectors_safe data :
  bytes_ok data -> safe (ParseTrafficSelectors data) Selectors_ok.
Proof.
  intros Hd. unfold ParseTrafficSelectors. go_safe.
  eapply safe_mono; [apply parse_selectors_loop_safe; [done|lia|constructor]|]. intros ss Hss. cbv beta. by go_safe.
Qed.

Lemma enc_selectors_ok ns : Forall Selector_ok ns -> bytes_ok (concat (enc_selector <$> ns)).
Proof.
  induction 1 as [|s ns (? & ? & ? & ? & ? & ? & _) _ IH]; [constructor|]. cbn [fmap list_fmap concat].
  unfold enc_selector at 1. auto 12 with gobytes.
Qed.

#[export] Instance selectors_codec : Codec TrafficSelectors :=
  {| enc := TrafficSelectors_MarshalBinary; dec := ParseTrafficSelectors; val_ok := Selectors_ok |}.
#[export] Instance selectors_laws : CodecLaws TrafficSelectors.
Proof.
  constructor; cbn.
  - intros [ss] b Hok [Hl (ns & Hn & ->)]%TrafficSelectors_MarshalBinary_spec. cbn in *.
    pose proof (normal_selectors_length _ _ Hn). apply normal_selectors_id in Hn; [|done]. subst ns.
    assert (is_u8 (len ss)) by len_lia. assert (is_u8 0) by done. pose proof (enc_selectors_ok ss Hok).
    auto 8 with gobytes.
  - apply ParseTrafficSelectors_safe.
  - intros [ss] b Hok [Hl (ns & Hn & ->)]%TrafficSelectors_MarshalBinary_spec. cbn in *.
    apply normal_selectors_id in Hn; [|done]. subst ns. apply ParseTrafficSelectors_enc; [lia|done].
Qed.

(** ** What a selector means *)

(** A packet as a selector sees it: address family, protocol, port, address. *)
Record packet := mkPkt { pk_Type : Z; pk_Proto : Z; pk_Port : Z; pk_Addr : Z }.
Definition matches (r : trafficSelectorRange) (p : packet) : Prop :=
  pk_Type p = tr_Type r /\ (tr_IPProtocol r = 0 \/ tr_IPProtocol r = pk_Proto p) /\
  tr_StartPort r <= pk_Port p <= tr_EndPort r /\
  be_decode (tr_StartAddr r) <= pk_Addr p <= be_decode (tr_EndAddr r).

Definition range_ok (r : trafficSelectorRange) : Prop :=
  tr_StartPort r <= tr_EndPort r /\ be_decode (tr_StartAddr r) <= be_decode (tr_EndAddr r) /\
  bytes_ok (tr_StartAddr r) /\ bytes_ok (tr_EndAddr r) /\
  ((tr_Type r = TSIPv4AddressRange /\ len (tr_StartAddr r) = 4 /\ len (tr_EndAddr r) = 4) \/
   (tr_Type r = TSIPv6AddressRange /\ len (tr_StartAddr r) = 16 /\ len (tr_EndAddr r) = 16)).

Lemma bytes_le_decode a b :
  bytes_ok a -> bytes_ok b -> len a = len b -> bytes_le a b = true <-> be_decode a <= be_decode b.
Proof.
  unfold bytes_le. revert b. induction a as [|x a IH]; intros [|y b] Ha Hb Hl.
  - by split.
  - rewrite len_nil, len_cons in Hl. pose proof (len_nonneg b). lia.
  - rewrite len_nil, len_cons in Hl. pose proof (len_nonneg a). lia.
  - rewrite !len_cons in Hl. apply bytes_ok_cons in Ha as [Hx Ha]. apply bytes_ok_cons in Hb as [Hy Hb].
    assert (Hl' : len a = len b) by lia. specialize (IH b Ha Hb Hl').
    rewrite !be_decode_cons, Hl'. pose proof (be_decode_range a Ha) as Ra. pose proof (be_decode_range b Hb) as Rb.
    rewrite Hl' in Ra. unfold in_range in *. cbn [bytes_compare].
    destruct (Z.compare_spec x y) as [->|Hlt|Hgt].
    + rewrite IH. lia.
    + split; [intros _|done]. nia.
    + split; [done|nia].
Qed.

Lemma trafficSelectorCovers_spec o s :
  range_ok o -> range_ok s ->
  trafficSelectorCovers o s = true <-> forall p, matches s p -> matches o p.
Proof.
  intros (Hop & Hoa & Ho1 & Ho2 & Hol) (Hsp & Hsa & Hs1 & Hs2 & Hsl). unfold trafficSelectorCovers, matches.
  destruct (Z.eqb_spec (tr_Type o) (tr_Type s)) as [Ht|Ht]; cbn [negb].
  2: { split; [done|]. intros H. destruct Ht. symmetry.
       apply (H (mkPkt (tr_Type s) (tr_IPProtocol s) (tr_StartPort s) (be_decode (tr_StartAddr s)))). cbn. split_and!; lia. }
  assert (Hlen : len (tr_StartAddr o) = len (tr_StartAddr s) /\ len (tr_EndAddr s) = len (tr_EndAddr o)) by len_lia.
  pose proof (bytes_le_decode _ _ Ho1 Hs1 (proj1 Hlen)) as B1.
  pose proof (bytes_le_decode _ _ Hs2 Ho2 (proj2 Hlen)) as B2.
  split.
  - intros Hc [ty pr po ad] (-> & Hpr & Hpo & Had). cbn in *.
    destruct (negb (tr_IPProtocol o =? 0) && _) eqn:H1; [done|].
    destruct ((tr_IPProtocol s =? 0) && _) eqn:H2; [done|].
    destruct (_ || _) eqn:H3; [done|]. apply andb_true_iff in Hc as [C1%B1 C2%B2]. split_and!; lia.
  - intros H.
    assert (P : forall pr po ad, (tr_IPProtocol s = 0 \/ tr_IPProtocol s = pr) ->
      tr_StartPort s <= po <= tr_EndPort s -> be_decode (tr_StartAddr s) <= ad <= be_decode (tr_EndAddr s) ->
      (tr_IPProtocol o = 0 \/ tr_IPProtocol o = pr) /\ tr_StartPort o <= po <= tr_EndPort o /\
      be_decode (tr_StartAddr o) <= ad <= be_decode (tr_EndAddr o)).
    { intros pr po ad ? ? ?. apply (H (mkPkt (tr_Type s) pr po ad)). by cbn. }
    pose proof (P (tr_IPProtocol s) (tr_StartPort s) (be_decode (tr_StartAddr s)) ltac:(auto) ltac:(lia) ltac:(lia)) as P1.
    pose proof (P (tr_IPProtocol s) (tr_EndPort s) (be_decode (tr_EndAddr s)) ltac:(auto) ltac:(lia) ltac:(lia)) as P2.
    destruct (negb (tr_IPProtocol o =? 0) && _) eqn:H1; [lia|].
    destruct ((tr_IPProtocol s =? 0) && _) eqn:H2.
    { pose proof (P (tr_IPProtocol o + 1) (tr_StartPort s) (be_decode (tr_StartAddr s)) ltac:(lia) ltac:(lia) ltac:(lia)). lia. }
    destruct (_ || _) eqn:H3; [lia|]. apply andb_true_iff. rewrite B1, B2. lia.
Qed.

Lemma normalizeTrafficSelectorRange_safe s :
  Selector_typed s -> safe (normalizeTrafficSelectorRange s) range_ok.
Proof.
  intros (? & ? & ? & ? & Hs & He). unfold normalizeTrafficSelectorRange.
  pose proof (normalizeSelectorAddresses_returns (ts_Type s) (ts_StartAddr s) (ts_EndAddr s)) as Hr.
  destruct (normalizeSelectorAddresses _ _ _) as [[st en]| | |] eqn:Ha; try done. cbn [bind].
  pose proof (normalizeSelectorAddresses_ok _ _ _ _ _ Hs He Ha) as [? ?].
  apply normalizeSelectorAddresses_Ok in Ha. go_case H5; [done|]. go_case H6; [done|]. cbn [safe].
  apply negb_false_iff in H6. unfold range_ok. cbn. split_and!; try done; [lia|].
  apply bytes_le_decode in H6; [done|done|done|lia].
Qed.

Lemma normalize_ranges_spec ss rs :
  normalize_ranges ss = Ok rs <-> Forall2 (fun s r => normalizeTrafficSelectorRange s = Ok r) ss rs.
Proof.
  revert rs. induction ss as [|s ss IH]; intros rs; cbn [normalize_ranges].
  - split; [intros [= <-]; constructor|by inversion_clear 1].
  - split.
    + intros (r & Hr & (rs' & Hrs & [= <-])%bind_ok)%bind_ok. constructor; [done|]. by apply IH.
    + inversion_clear 1 as [|? ? ? rs' Hr Hrs]. rewrite Hr. cbn [bind]. apply IH in Hrs. by rewrite Hrs.
Qed.

Lemma check_selected_spec os ss :
  check_selected os ss = Ok tt <->
  exists rs, Forall2 (fun s r => normalizeTrafficSelectorRange s = Ok r) ss rs /\
    Forall (fun r => exists o, o ∈ os /\ trafficSelectorCovers o r = true) rs.
Proof.
  induction ss as [|s ss IH]; cbn [check_selected].
  - split; [intros _; exists []; split; constructor|done].
  - split.
    + intros (r & Hr & H)%bind_ok. destruct (trafficSelectorCoveredByAny os r) eqn:Hc; [|done]. apply existsb_spec in Hc. apply IH in H as (rs & ? & ?).
      exists (r :: rs). by split; constructor.
    + intros (rs & H2 & Hf). inversion H2 as [|? r ? rs' Hr Hrs]; subst. apply Forall_cons in Hf as [Hc Hf].
      rewrite Hr. cbn [bind]. apply existsb_spec in Hc. unfold trafficSelectorCoveredByAny. rewrite Hc.
      apply IH. eauto.
Qed.

Lemma narrowing_returns offered selected :
  Forall Selector_typed (ts_Selectors offered) -> Forall Selector_typed (ts_Selectors selected) ->
  returns (ValidateTrafficSelectorNarrowing offered selected).
Proof.
  intros Ho Hs. unfold ValidateTrafficSelectorNarrowing, returns. do 2 (go_case H0; [done|]; clear H0).
  eapply (safe_call _ _ (fun _ => True)).
  - induction Ho as [|s ss Hs' _ IH]; [done|]. cbn [normalize_ranges].
    eapply safe_call; [by apply normalizeTrafficSelectorRange_safe|]. intros r _. by eapply safe_call; [exact IH|].
  - intros os _. induction Hs as [|s ss Hs' _ IH]; [done|]. cbn [check_selected].
    eapply safe_call; [by apply normalizeTrafficSelectorRange_safe|]. intros r _. by case_match.
Qed.

(** ** The AUTH value of RFC 7296 section 2.16 *)
Section auth_proofs.
Context {C : Crypto} `{!CryptoLaws C}.

(** prf(prf(MSK, "Key Pad for IKEv2"), message | nonce | prf(SK_p, ID)) *)
Definition auth_value (init : InitResult) (keys : IKEKeys) (identity : Identity) (msk : bytes) (initiator : bool) : bytes :=
  let prf := hmac_Sum (kp_PRF (k_Profile keys)) in
  let idBody := [id_Type identity; 0; 0; 0] ++ id_Data identity in
  prf (prf msk KeyPad)
    (if initiator then ir_RequestBytes init ++ ir_NonceR init ++ prf (k_SKPi keys) idBody
     else ir_ResponseBytes init ++ ir_NonceI init ++ prf (k_SKPr keys) idBody).

Lemma eapSharedKeyAUTH_spec init keys identity msk dir :
  kp_PRF (k_Profile keys) <> HashNone ->
  eapSharedKeyAUTH init keys identity msk dir =
    if len msk =? 0 then Errorf ErrInvalidAuthenticationPayload
    else if id_Type identity =? 0 then Errorf ErrInvalidIdentity
    else Ok (auth_value init keys identity msk dir).
Proof.
  intros Hh. unfold eapSharedKeyAUTH, PRF, Hash_Available, Identity_MarshalBinary, auth_value.
  rewrite bool_decide_eq_true_2 by done. go_case H1; [done|]. go_case H2; [done|]. by destruct dir.
Qed.

Lemma ParseAuthentication_safe data :
  bytes_ok data -> safe (ParseAuthentication data) (fun a =>
    au_Method a <> 0 /\ au_Data a = drop 4 data /\ data !! 0%nat = Some (au_Method a) /\ 5 <= len data).
Proof.
  intros Hd. unfold ParseAuthentication. go_safe. cbn. subst s. rewrite sub_to_end by lia.
  split_and!; try done; lia.
Qed.

Lemma verify_spec init keys identity msk p dir :
  kp_PRF (k_Profile keys) <> HashNone -> bytes_ok (p_Body p) ->
  returns (verifyEAPSharedKeyAUTH init keys identity msk p dir) /\
  (verifyEAPSharedKeyAUTH init keys identity msk p dir = Ok tt <->
   p_Type p = PayloadAUTH /\ msk <> [] /\ id_Type identity <> 0 /\ 5 <= len (p_Body p) /\
   p_Body p !! 0%nat = Some AuthMethodSharedKeyMIC /\
   drop 4 (p_Body p) = auth_value init keys identity msk dir).
Proof.
  intros Hh Hb. unfold verifyEAPSharedKeyAUTH. rewrite eapSharedKeyAUTH_spec by done.
  go_case H1; [split; [done|]; split; [done|]; intros (H & _); rewrite H in H1; done|].
  apply negb_false_iff, Z.eqb_eq in H1. pose proof (ParseAuthentication_safe _ Hb) as Hp.
  destruct (ParseAuthentication (p_Body p)) as [a|e| |] eqn:Ha; try done; cbn [bind].
  2: { split; [done|]. split; [done|]. intros (_ & _ & _ & Hl & H0 & _). unfold ParseAuthentication in Ha.
       replace (len (p_Body p) <? 5) with false in Ha by lia. rewrite (at_Ok _ 0 AuthMethodSharedKeyMIC) in Ha by done.
       cbn [bind] in Ha. unfold slice_from in Ha. rewrite slice_Ok in Ha by lia. done. }
  destruct Hp as (Hn & Hd & H0 & Hl).
  destruct (Z.eqb_spec (au_Method a) AuthMethodSharedKeyMIC) as [Hm|Hm]; cbn [negb].
  2: { split; [done|]. split; [done|]. intros (_ & _ & _ & _ & H & _). congruence. }
  destruct (Z.eqb_spec (len msk) 0) as [Hk|Hk].
  { split; [done|]. split; [done|]. intros (_ & Hmsk & _). by apply len_zero in Hk. }
  destruct (Z.eqb_spec (id_Type identity) 0) as [Hi|Hi]; cbn [bind].
  { split; [done|]. split; [done|]. by intros (_ & _ & ? & _). }
  unfold bytesEqual. split; [by case_match|]. go_case He.
  - apply negb_true_iff, bool_decide_eq_false in He. split; [done|]. intros (_ & _ & _ & _ & _ & H). congruence.
  - apply negb_false_iff, bool_decide_eq_true in He. split; [|done]. intros _. split_and!; try congruence; try lia. by intros ->.
Qed.
End auth_proofs.

(** ** Properties *)

(** The IKE_AUTH payload codecs (identity, configuration, traffic selectors):
    each parser is total on received bytes and yields well-formed values, and
    parses what its marshaller writes back to the value. *)
Theorem session_codecs :
  CodecLaws Identity /\ CodecLaws Configuration /\ CodecLaws TrafficSelectors /\
  (forall c b, Configuration_MarshalBinary c = Ok b <->
     config_fits c /\ b = [cf_Type c; 0; 0; 0] ++ concat (enc_config_attr <$> cf_Attributes c)).
Proof. split_and!; [apply _..|exact Configuration_MarshalBinary_spec]. Qed.

(** [TrafficSelectors.MarshalBinary] followed by [ParseTrafficSelectors] gives the
    selectors with their addresses in the form of their type (4 octets for an
    IPv4 range, 16 for an IPv6 range), for any [net.IP] the caller passed. *)
Theorem traffic_selectors_roundtrip ts b :
  Forall Selector_typed (ts_Selectors ts) -> TrafficSelectors_MarshalBinary ts = Ok b ->
  exists ns, normal_selectors (ts_Selectors ts) = Some ns /\ Forall Selector_ok ns /\
    ParseTrafficSelectors b = Ok (mkTSs ns).
Proof.
  intros Ht [Hl (ns & Hn & ->)]%TrafficSelectors_MarshalBinary_spec. exists ns.
  pose proof (normal_selectors_ok _ _ Ht Hn). split_and!; try done. apply ParseTrafficSelectors_enc; [|done].
  rewrite (normal_selectors_length _ _ Hn). lia.
Qed.

Lemma traffic_selectors_roundtrip_witness :
  exists ns, normal_selectors (ts_Selectors SWuAnyTrafficSelectors) = Some ns /\ Forall Selector_ok ns /\
    ParseTrafficSelectors
      ([2; 0; 0; 0] ++ [7; 0; 0; 16; 0; 0; 255; 255; 0; 0; 0; 0; 255; 255; 255; 255] ++
       [8; 0; 0; 40; 0; 0; 255; 255] ++ replicate 16 0 ++ replicate 16 255) = Ok (mkTSs ns).
Proof.
  apply (traffic_selectors_roundtrip SWuAnyTrafficSelectors); [by_decide|vm_compute; reflexivity].
Defined.

(** Narrowing is sound and complete with respect to the traffic it describes:
    [ValidateTrafficSelectorNarrowing] never panics, and accepts exactly when
    every selector of both lists is a non-empty range and every selected range
    lies, packet by packet, within one offered range. *)
Theorem narrowing_correct offered selected :
  Forall Selector_typed (ts_Selectors offered) -> Forall Selector_typed (ts_Selectors selected) ->
  returns (ValidateTrafficSelectorNarrowing offered selected) /\
  (ValidateTrafficSelectorNarrowing offered selected = Ok tt <->
   exists os ss, Forall2 (fun s r => normalizeTrafficSelectorRange s = Ok r) (ts_Selectors offered) os /\
     Forall2 (fun s r => normalizeTrafficSelectorRange s = Ok r) (ts_Selectors selected) ss /\
     os <> [] /\ ss <> [] /\
     forall s, s ∈ ss -> exists o, o ∈ os /\ forall p, matches s p -> matches o p).
Proof.
  intros Ho Hs.
  assert (Hok : forall ss rs, Forall Selector_typed ss ->
    Forall2 (fun s r => normalizeTrafficSelectorRange s = Ok r) ss rs -> Forall range_ok rs).
  { intros ss rs Ht. induction 1 as [|s r ss rs Hr _ IH]; [constructor|]. apply Forall_cons in Ht as [Ht1 Ht2].
    constructor; [|by apply IH]. by eapply safe_ok, Hr; apply normalizeTrafficSelectorRange_safe. }
  split; [by apply narrowing_returns|]. unfold ValidateTrafficSelectorNarrowing. split.
  - intros H. go_case_in H; [done|]. go_case_in H; [done|].
    apply bind_ok in H as (os & Hos%normalize_ranges_spec & (rs & Hrs & Hf)%check_selected_spec).
    exists os, rs. split_and!; try done; [intros ->; apply Forall2_nil_inv_r in Hos; by rewrite Hos in *|intros ->; apply Forall2_nil_inv_r in Hrs; by rewrite Hrs in *|].
    rewrite Forall_forall in Hf. intros r Hr. destruct (Hf r Hr) as (o & Hin & Hc). exists o. split; [done|].
    apply trafficSelectorCovers_spec; [| |done].
    + eapply Forall_forall; [|done]. by eapply Hok; [|done].
    + eapply Forall_forall; [|done]. by eapply Hok, Hrs.
  - intros (os & rs & Hos & Hrs & Hne & Hne' & Hf).
    assert (len (ts_Selectors offered) <> 0) by (intros E%len_zero; rewrite E in Hos; by apply Forall2_nil_inv_l in Hos).
    assert (len (ts_Selectors selected) <> 0) by (intros E%len_zero; rewrite E in Hrs; by apply Forall2_nil_inv_l in Hrs).
    do 2 go_if. rewrite (proj2 (normalize_ranges_spec _ _) Hos). cbn [bind]. apply check_selected_spec.
    exists rs. split; [done|]. apply Forall_forall. intros r Hr. destruct (Hf r Hr) as (o & Hin & Hc). exists o.
    split; [done|]. apply trafficSelectorCovers_spec; [| |done].
    + eapply Forall_forall; [|done]. by eapply Hok; [|done].
    + eapply Forall_forall; [|done]. by eapply Hok, Hrs.
Qed.

Lemma narrowing_correct_witness :
  returns (ValidateTrafficSelectorNarrowing SWuAnyTrafficSelectors IPv4AnyTrafficSelectors).
Proof. apply (narrowing_correct SWuAnyTrafficSelectors IPv4AnyTrafficSelectors); by_decide. Defined.

Example narrowing_samples :
  ValidateTrafficSelectorNarrowing SWuAnyTrafficSelectors IPv4AnyTrafficSelectors = Ok tt /\
  ValidateTrafficSelectorNarrowing IPv4AnyTrafficSelectors SWuAnyTrafficSelectors = Errorf ErrInvalidTrafficSelector.
Proof. vm_compute. split; reflexivity. Qed.

(** [verifyEAPSharedKeyAUTH] never panics and accepts exactly an AUTH payload of
    method 2 whose data is
    prf(prf(MSK, "Key Pad for IKEv2"), message | nonce | prf(SK_p, ID)) with
    the peer's own message, the other side's nonce and the peer's SK_p. *)
Theorem verify_auth_correct (C : Crypto) (L : CryptoLaws C) init keys identity msk p dir :
  kp_PRF (k_Profile keys) <> HashNone -> bytes_ok (p_Body p) ->
  returns (verifyEAPSharedKeyAUTH init keys identity msk p dir) /\
  (verifyEAPSharedKeyAUTH init keys identity msk p dir = Ok tt <->
   p_Type p = PayloadAUTH /\ msk <> [] /\ id_Type identity <> 0 /\ 5 <= len (p_Body p) /\
   p_Body p !! 0%nat = Some AuthMethodSharedKeyMIC /\
   drop 4 (p_Body p) = auth_value init keys identity msk dir).
Proof. apply verify_spec. Qed.

Definition sample_init (k : IKEKeys) : InitResult :=
  let m := mkMessage (mkHeader 1 2 0 0 34 8 0 0) [] in
  mkInitResult [1; 2] [3; 4] m m DefaultIKEProposal 1 2 [5] [6] [] [] [] SHA1 [] [] k false false.
Definition sample_auth_keys : IKEKeys := mkIKEKeys sample_profile [] [] [] [] [] [7] [8].

Lemma verify_auth_correct_witness :
  verifyEAPSharedKeyAUTH (C := toy_crypto) (sample_init sample_auth_keys) sample_auth_keys (mkIdentity IDFQDN [65]) [9; 9]
    (mkPayload PayloadAUTH 0 false ([2; 0; 0; 0] ++
       auth_value (sample_init sample_auth_keys) sample_auth_keys (mkIdentity IDFQDN [65]) [9; 9] false)) false = Ok tt.
Proof.
  apply (verify_auth_correct toy_crypto toy_crypto_laws); [discriminate|by_decide|].
  split_and!; try reflexivity; try discriminate.
Defined.
