(* ===== verification/Fragments.v ===== *)
(** * The Encrypted Fragment payload (engine/swu/ikev2/fragments.go) *)
From S2P Require Import Prelude Errors Types Codec.

Definition encryptedFragmentBodyHeaderLength := 4.
#[export] Hint Unfold encryptedFragmentBodyHeaderLength : goconst.

Record EncryptedFragment := mkFragment {
  f_FragmentNumber : Z;
  f_TotalFragments : Z;
  f_EncryptedData : bytes
}.

Definition EncryptedFragment_MarshalBinary (f : EncryptedFragment) : result bytes :=
  if f_FragmentNumber f =? 0 then Errorf ErrInvalidEncryptedFragment else
  if f_TotalFragments f =? 0 then Errorf ErrInvalidEncryptedFragment else
  if f_TotalFragments f <? f_FragmentNumber f then Errorf ErrInvalidEncryptedFragment else
  if len (f_EncryptedData f) =? 0 then Errorf ErrInvalidEncryptedFragment else
  if 0xffff <? encryptedFragmentBodyHeaderLength + len (f_EncryptedData f) + 4
  then Err (Wrap ErrInvalidEncryptedFragment (Sentinel ErrInvalidLength)) else
  Ok (be_bytes 2 (f_FragmentNumber f) ++ be_bytes 2 (f_TotalFragments f) ++ f_EncryptedData f).

Definition ParseEncryptedFragment (data : bytes) : result EncryptedFragment :=
  if len data <=? encryptedFragmentBodyHeaderLength then Errorf ErrInvalidEncryptedFragment else
  let! fragmentNumber := u16_at data 0 2 in
  let! totalFragments := u16_at data 2 4 in
  if fragmentNumber =? 0 then Errorf ErrInvalidEncryptedFragment else
  if totalFragments =? 0 then Errorf ErrInvalidEncryptedFragment else
  if totalFragments <? fragmentNumber then Errorf ErrInvalidEncryptedFragment else
  let! d := slice_from data encryptedFragmentBodyHeaderLength in
  Ok (mkFragment fragmentNumber totalFragments d).

Definition EncryptedFragmentPayload (nextPayload : Z) (f : EncryptedFragment) : result Payload :=
  let! body := EncryptedFragment_MarshalBinary f in
  Ok (mkPayload PayloadSKF nextPayload false body).

(** ** The format is exact on fragments that fit *)
Definition Fragment_ok (f : EncryptedFragment) : Prop :=
  is_u16 (f_FragmentNumber f) /\ is_u16 (f_TotalFragments f) /\ bytes_ok (f_EncryptedData f).
#[export] Instance Fragment_ok_dec f : Decision (Fragment_ok f).
Proof. unfold Fragment_ok. apply _. Defined.
Definition fragment_valid (f : EncryptedFragment) : Prop :=
  1 <= f_FragmentNumber f <= f_TotalFragments f /\ 1 <= len (f_EncryptedData f) <= 65527.

Lemma fragment_marshal_spec f b :
  Fragment_ok f -> EncryptedFragment_MarshalBinary f = Ok b <->
  fragment_valid f /\
  b = be_bytes 2 (f_FragmentNumber f) ++ be_bytes 2 (f_TotalFragments f) ++ f_EncryptedData f.
Proof.
  intros (Hn & Ht & _). unfold EncryptedFragment_MarshalBinary, fragment_valid, in_range in *.
  unfold encryptedFragmentBodyHeaderLength. pose proof (len_nonneg (f_EncryptedData f)).
  repeat (case_match; [split; [done|lia]|]). split; [intros [= <-]; split; [lia|done]|by intros [_ ->]].
Qed.

Lemma fragment_parse_safe data :
  bytes_ok data -> safe (ParseEncryptedFragment data) (fun f =>
    Fragment_ok f /\ 1 <= f_FragmentNumber f <= f_TotalFragments f /\ 1 <= len (f_EncryptedData f) /\
    data = be_bytes 2 (f_FragmentNumber f) ++ be_bytes 2 (f_TotalFragments f) ++ f_EncryptedData f).
Proof.
  intros Hd. unfold ParseEncryptedFragment, encryptedFragmentBodyHeaderLength. go_case H0; [done|].
  destruct (u16_at_sub (E := error) data 0 2) as (n & -> & Hn & En); [done|lia..|].
  destruct (u16_at_sub (E := error) data 2 4) as (t & -> & Ht & Et); [done|lia..|]. cbn [bind].
  go_case H1; [done|]. go_case H2; [done|]. go_case H3; [done|]. unfold slice_from. rewrite slice_Ok by lia.
  cbn. unfold in_range in *. rewrite sub_len by lia. split_and!; try lia; [split_and!; try done; by apply bytes_ok_sub|].
  rewrite En, Et, !sub_split, sub_to_end by lia. by rewrite drop_0.
Qed.

Lemma fragment_parse_marshal f :
  Fragment_ok f -> fragment_valid f ->
  ParseEncryptedFragment (be_bytes 2 (f_FragmentNumber f) ++ be_bytes 2 (f_TotalFragments f) ++ f_EncryptedData f) = Ok f.
Proof.
  intros (Hn & Ht & Hd) (Hnt & Hl). unfold ParseEncryptedFragment, encryptedFragmentBodyHeaderLength.
  set (N := be_bytes 2 (f_FragmentNumber f)). set (T := be_bytes 2 (f_TotalFragments f)).
  assert (len N = 2 /\ len T = 2) as [? ?] by done. set (d := N ++ T ++ f_EncryptedData f).
  assert (len d = 4 + len (f_EncryptedData f)) by (subst d; len_lia). go_if.
  rewrite (u16_at_eq d [] (T ++ f_EncryptedData f) (f_FragmentNumber f)) by done. cbn [bind].
  rewrite (u16_at_eq d N (f_EncryptedData f) (f_TotalFragments f)) by done. cbn [bind]. do 3 go_if.
  rewrite (slice_from_eq d (N ++ T) (f_EncryptedData f)) by (rewrite <- ?app_assoc; done || len_lia).
  by destruct f.
Qed.

(** ** Property *)

(** The Encrypted Fragment codec is exact: marshalling succeeds exactly on a
    fragment whose number lies between 1 and the total and whose data has 1 to
    65527 octets, parsing gives it back, and every accepted body of at most
    65531 octets is the encoding of the fragment that was parsed; parsing never
    panics. *)
Theorem fragment_codec_exact :
  (forall f, Fragment_ok f -> fragment_valid f <-> exists b, EncryptedFragment_MarshalBinary f = Ok b) /\
  (forall f b, Fragment_ok f -> EncryptedFragment_MarshalBinary f = Ok b -> ParseEncryptedFragment b = Ok f) /\
  (forall data, bytes_ok data -> returns (ParseEncryptedFragment data)) /\
  (forall data f, bytes_ok data -> len data <= 65531 -> ParseEncryptedFragment data = Ok f ->
     Fragment_ok f /\ EncryptedFragment_MarshalBinary f = Ok data).
Proof.
  split_and!.
  - intros f Hf. split; [|by intros (b & [? _]%fragment_marshal_spec)].
    intros Hv. eexists. by apply fragment_marshal_spec.
  - intros f b Hf [Hv ->]%fragment_marshal_spec; [|done]. by apply fragment_parse_marshal.
  - intros data Hd. by eapply safe_returns, fragment_parse_safe.
  - intros data f Hd Hl Hp. pose proof (fragment_parse_safe data Hd) as Hs. rewrite Hp in Hs.
    destruct Hs as (Hf & Hn & He & Hdata). split; [done|]. apply fragment_marshal_spec; [done|]. split; [|done].
    split; [done|]. rewrite Hdata in Hl. len_lia.
Qed.
