(* ===== verification/EapAka.v ===== *)
(** * EAP-AKA packets and attributes (engine/swu/eapaka/eapaka.go)

    The EAP packet with its AKA attributes, the accessors that read the value
    of an attribute, their validation, and the classification of the peer's
    answers for recovery.  A Go [string] is its octets.  A function with
    results [(T, bool, error)] gives the boolean and a [result T]. *)
From S2P Require Import Prelude Errors Crypto Codec.

Definition CodeRequest := 1.
Definition CodeResponse := 2.
Definition CodeSuccess := 3.
Definition CodeFailure := 4.
Definition TypeAKA := 23.
Definition TypeAKAPrime := 50.
Definition SubtypeChallenge := 1.
Definition SubtypeAuthenticationReject := 2.
Definition SubtypeSynchronizationFailure := 4.
Definition SubtypeIdentity := 5.
Definition SubtypeNotification := 12.
Definition SubtypeReauthentication := 13.
Definition SubtypeClientError := 14.
Definition AttributeRAND := 1.
Definition AttributeAUTN := 2.
Definition AttributeRES := 3.
Definition AttributeAUTS := 4.
Definition AttributePadding := 6.
Definition AttributePermanentIDReq := 10.
Definition AttributeMAC := 11.
Definition AttributeNotification := 12.
Definition AttributeAnyIDReq := 13.
Definition AttributeIdentity := 14.
Definition AttributeVersionList := 15.
Definition AttributeSelectedVersion := 16.
Definition AttributeFullAuthIDReq := 17.
Definition AttributeCounter := 19.
Definition AttributeCounterTooSmall := 20.
Definition AttributeNonceS := 21.
Definition AttributeClientErrorCode := 22.
Definition AttributeKDFInput := 23.
Definition AttributeKDF := 24.
Definition AttributeIV := 129.
Definition AttributeEncrData := 130.
Definition AttributeNextPseudonym := 132.
Definition AttributeNextReauthID := 133.
Definition AttributeCheckcode := 134.
Definition AttributeResultInd := 135.
Definition AttributeBidding := 136.
Definition NotificationSuccessBit := 0x8000.
Definition NotificationPBit := 0x4000.
Definition ClientErrorUnableToProcessPacket := 0.
Definition ClientErrorUnsupportedVersion := 1.
Definition ClientErrorInsufficientChallenges := 2.
Definition ClientErrorRANDNotFresh := 3.
Definition RANDLength := 16.
Definition AUTNLength := 16.
Definition AUTSLength := 14.
Definition AKLength := 6.
Definition AMFLength := 2.
Definition AUTNMACLength := 8.
Definition RESMinBits := 32.
Definition RESMaxBits := 128.
#[export] Hint Unfold CodeRequest CodeResponse CodeSuccess CodeFailure TypeAKA TypeAKAPrime
  RANDLength AUTNLength AUTSLength AKLength AMFLength AUTNMACLength RESMinBits RESMaxBits : goconst.

Record Attribute := mkAttribute { a_Type : Z; a_Data : bytes }.
Record Packet := mkPacket {
  pk_Code : Z;
  pk_Identifier : Z;
  pk_EapType : Z;
  pk_Subtype : Z;
  pk_Attributes : list Attribute;
  pk_Data : bytes
}.
Record EncryptedIdentityState := mkIdentityState { es_NextPseudonym : bytes; es_NextReauthID : bytes }.
Record AUTNFields := mkAUTNFields { autn_SQNXorAK : bytes; autn_AMF : bytes; autn_MAC : bytes }.
Record AUTSFields := mkAUTSFields { auts_SQNMSXorAK : bytes; auts_MACS : bytes }.
Record NotificationInfo := mkNotificationInfo {
  ni_Value : Z;
  ni_Code : Z;
  ni_Success : bool;
  ni_BeforeAuthentication : bool
}.
Inductive AKARecoveryAction := AKARecoveryNone | AKARecoveryRetry | AKARecoveryResync | AKARecoveryFail.
Record SynchronizationFailureInfo := mkSyncInfo {
  sf_AUTS : bytes;
  sf_AUTSFields : AUTSFields;
  sf_KDFValues : list Z
}.
Record AKARecoveryDecision := mkDecision {
  rd_Action : AKARecoveryAction;
  rd_SyncFailure : bool;
  rd_AuthFailure : bool;
  rd_ClientError : bool;
  rd_ClientErrorCode : Z;
  rd_SyncInfo : SynchronizationFailureInfo
}.
#[export] Instance Attribute_eq_dec : EqDecision Attribute.
Proof. solve_decision. Defined.
#[export] Instance AUTSFields_eq_dec : EqDecision AUTSFields.
Proof. solve_decision. Defined.
#[export] Instance SynchronizationFailureInfo_eq_dec : EqDecision SynchronizationFailureInfo.
Proof. solve_decision. Defined.
#[export] Instance AKARecoveryAction_eq_dec : EqDecision AKARecoveryAction.
Proof. solve_decision. Defined.

Definition isEAPCode (code : Z) : bool :=
  (code =? CodeRequest) || (code =? CodeResponse) || (code =? CodeSuccess) || (code =? CodeFailure).
Definition isAKAType (t : Z) : bool := (t =? 0) || (t =? TypeAKA) || (t =? TypeAKAPrime).

Definition paddingFor4 (n : Z) : Z := let rem := Z.rem n 4 in if negb (rem =? 0) then 4 - rem else 0.

(** ** Attributes on the wire *)
Definition Attribute_MarshalBinary (a : Attribute) : result bytes :=
  let length := 2 + len (a_Data a) in
  let pad := paddingFor4 length in
  let total := length + pad in
  if (total <? 4) || (0xff * 4 <? total) then Errorf Eap_ErrInvalidAttribute else
  let out := [a_Type a; to_u8 (total / 4)] ++ a_Data a in
  Ok (if 0 <? pad then out ++ replicate (Z.to_nat pad) 0 else out).

Fixpoint marshal_attributes_loop (attrs : list Attribute) (out : bytes) : result bytes :=
  match attrs with
  | [] => Ok out
  | attr :: rest =>
      let! encoded := Attribute_MarshalBinary attr in
      marshal_attributes_loop rest (out ++ encoded)
  end.
Definition MarshalAttributes (attrs : list Attribute) : result bytes := marshal_attributes_loop attrs [].

Fixpoint parse_attrs_loop (fuel : nat) (data : bytes) (out : list Attribute) : result (list Attribute) :=
  match fuel with
  | O => OutOfFuel
  | S fuel' =>
      if negb (0 <? len data) then Ok out else
      if len data <? 4 then Errorf Eap_ErrInvalidAttribute else
      let! l := at_ data 1 in
      let length := l * 4 in
      if (length <? 4) || (len data <? length) then Errorf Eap_ErrInvalidAttribute else
      let! ty := at_ data 0 in
      let! d := slice data 2 length in
      let! data := slice_from data length in
      parse_attrs_loop fuel' data (out ++ [mkAttribute ty d])
  end.
Definition ParseAttributes (data : bytes) : result (list Attribute) :=
  parse_attrs_loop (S (length data)) data [].

(** ** Packets *)
Definition Packet_MarshalBinary (p : Packet) : result bytes :=
  if negb (isEAPCode (pk_Code p)) then Errorf Eap_ErrInvalidPacket else
  if (pk_Code p =? CodeSuccess) || (pk_Code p =? CodeFailure) then
    Ok [pk_Code p; pk_Identifier p; 0; 4]
  else
  let ty := if pk_EapType p =? 0 then TypeAKA else pk_EapType p in
  let! body :=
    (if 0 <? len (pk_Data p) then Ok (ty :: pk_Data p)
     else let! attrs := MarshalAttributes (pk_Attributes p) in Ok ([ty; pk_Subtype p; 0; 0] ++ attrs)) in
  if 0xffff <? len body + 4 then Errorf Eap_ErrInvalidPacket else
  Ok ([pk_Code p; pk_Identifier p] ++ be_bytes 2 (to_u16 (len body + 4)) ++ body).

Definition ParsePacket (data : bytes) : result Packet :=
  if len data <? 4 then Errorf Eap_ErrInvalidPacket else
  let! length := u16_at data 2 4 in
  if (length <? 4) || (len data <? length) then Errorf Eap_ErrInvalidPacket else
  let! code := at_ data 0 in
  let! identifier := at_ data 1 in
  if negb (isEAPCode code) then Errorf Eap_ErrInvalidPacket else
  if (code =? CodeSuccess) || (code =? CodeFailure) then
    if negb (length =? 4) then Errorf Eap_ErrInvalidPacket
    else Ok (mkPacket code identifier 0 0 [] [])
  else
  if length <? 8 then Errorf Eap_ErrInvalidPacket else
  let! ty := at_ data 4 in
  if negb (ty =? TypeAKA) && negb (ty =? TypeAKAPrime) then
    let! d := slice data 5 length in Ok (mkPacket code identifier ty 0 [] d)
  else
  let! subtype := at_ data 5 in
  let! raw := slice data 8 length in
  let! attrs := ParseAttributes raw in
  Ok (mkPacket code identifier ty subtype attrs []).

(** ** Constructors *)
Definition FixedAttribute (t : Z) (value : bytes) : Attribute := mkAttribute t ([0; 0] ++ value).
Definition VariableAttribute (t : Z) (value : bytes) : Attribute :=
  mkAttribute t (be_bytes 2 (to_u16 (len value)) ++ value).
Definition IdentityAttribute (identity : bytes) := VariableAttribute AttributeIdentity identity.
Definition VersionListAttribute (versions : list Z) : Attribute :=
  VariableAttribute AttributeVersionList (concat (be_bytes 2 <$> versions)).
Definition SelectedVersionAttribute (version : Z) := mkAttribute AttributeSelectedVersion (be_bytes 2 version).
Definition BiddingAttribute (preferAKAPrime : bool) : Attribute :=
  mkAttribute AttributeBidding [if preferAKAPrime then 0x80 else 0; 0].
Definition RESAttribute (res : bytes) : Attribute :=
  let bits := len res * 8 in mkAttribute AttributeRES (be_bytes 2 (to_u16 bits) ++ res).
Definition AUTSAttribute (auts : bytes) := FixedAttribute AttributeAUTS auts.
Definition RANDAttribute (rand16 : list bytes) := FixedAttribute AttributeRAND (concat rand16).
Definition AUTNAttribute (autn16 : bytes) := FixedAttribute AttributeAUTN autn16.
Definition PermanentIDReqAttribute := FixedAttribute AttributePermanentIDReq [].
Definition AnyIDReqAttribute := FixedAttribute AttributeAnyIDReq [].
Definition FullAuthIDReqAttribute := FixedAttribute AttributeFullAuthIDReq [].
Definition KDFInputAttribute (networkName : bytes) := VariableAttribute AttributeKDFInput networkName.
Definition KDFAttribute (kdf : Z) := mkAttribute AttributeKDF (be_bytes 2 kdf).
Definition NotificationAttribute (code : Z) := mkAttribute AttributeNotification (be_bytes 2 code).
Definition ClientErrorCodeAttribute (code : Z) := mkAttribute AttributeClientErrorCode (be_bytes 2 code).
Definition CounterAttribute (counter : Z) := mkAttribute AttributeCounter (be_bytes 2 counter).
Definition CounterTooSmallAttribute := FixedAttribute AttributeCounterTooSmall [].
Definition NonceSAttribute (nonce16 : bytes) := FixedAttribute AttributeNonceS nonce16.
Definition IVAttribute (iv16 : bytes) := FixedAttribute AttributeIV iv16.
Definition EncrDataAttribute (ciphertext : bytes) := FixedAttribute AttributeEncrData ciphertext.
Definition NextPseudonymAttribute (identity : bytes) := VariableAttribute AttributeNextPseudonym identity.
Definition NextReauthIDAttribute (identity : bytes) := VariableAttribute AttributeNextReauthID identity.
Definition CheckcodeAttribute (checkcode : bytes) := FixedAttribute AttributeCheckcode checkcode.
Definition ResultIndAttribute := FixedAttribute AttributeResultInd [].
Definition IdentityCheckcode {C : Crypto} (packets : list bytes) : bytes := sha1_Sum (concat packets).
Definition CheckcodeAttributeForPackets {C : Crypto} (packets : list bytes) : Attribute :=
  if len packets =? 0 then CheckcodeAttribute [] else CheckcodeAttribute (IdentityCheckcode packets).

(** ** Reading the value of an attribute *)
Definition requireZeroBytes (data : bytes) : result unit :=
  if forallb (fun b => b =? 0) data then Ok tt else Errorf Eap_ErrInvalidAttribute.
Definition requireReservedZero (data : bytes) : result unit :=
  if len data <? 2 then Errorf Eap_ErrInvalidAttribute else
  let! reserved := slice data 0 2 in requireZeroBytes reserved.

Definition directUint16Value (a : Attribute) : result Z :=
  if negb (len (a_Data a) =? 2) then Errorf Eap_ErrInvalidAttribute else Uint16 (a_Data a).

Definition fixedValueExact (a : Attribute) (size : Z) : result bytes :=
  if (size <? 0) || (len (a_Data a) <? 2) then Errorf Eap_ErrInvalidAttribute else
  let! _ := requireReservedZero (a_Data a) in
  let baseLength := 2 + size in
  let paddedLength := baseLength + paddingFor4 (2 + baseLength) in
  if negb (len (a_Data a) =? baseLength) && negb (len (a_Data a) =? paddedLength)
  then Errorf Eap_ErrInvalidAttribute else
  let! padding := slice_from (a_Data a) baseLength in
  let! _ := requireZeroBytes padding in
  slice (a_Data a) 2 baseLength.

Fixpoint fixed16_loop (fuel : nat) (data : bytes) (offset : Z) (out : list bytes) : result (list bytes) :=
  match fuel with
  | O => OutOfFuel
  | S fuel' =>
      if offset <? len data then
        let! v := slice data offset (offset + 16) in
        fixed16_loop fuel' data (offset + 16) (out ++ [v])
      else if len out =? 0 then Errorf Eap_ErrInvalidAttribute else Ok out
  end.
Definition fixed16Values (a : Attribute) : result (list bytes) :=
  if (len (a_Data a) <? 2) || negb (Z.rem (len (a_Data a) - 2) 16 =? 0)
  then Errorf Eap_ErrInvalidAttribute else
  let! _ := requireReservedZero (a_Data a) in
  fixed16_loop (S (length (a_Data a))) (a_Data a) 2 [].

Definition VariableValue (a : Attribute) : result bytes :=
  if len (a_Data a) <? 2 then Errorf Eap_ErrInvalidAttribute else
  let! length := u16_at (a_Data a) 0 2 in
  if len (a_Data a) - 2 <? length then Errorf Eap_ErrInvalidAttribute else
  let! padding := slice_from (a_Data a) (2 + length) in
  let! _ := requireZeroBytes padding in
  slice (a_Data a) 2 (2 + length).

Definition IdentityValue (a : Attribute) : result bytes := VariableValue a.

Fixpoint version_list_loop (fuel : nat) (value : bytes) (offset : Z) (out : list Z) : result (list Z) :=
  match fuel with
  | O => OutOfFuel
  | S fuel' =>
      if offset <? len value then
        let! v := u16_at value offset (offset + 2) in
        version_list_loop fuel' value (offset + 2) (out ++ [v])
      else Ok out
  end.
Definition VersionListValue (a : Attribute) : result (list Z) :=
  let! value := VariableValue a in
  if (len value =? 0) || negb (Z.rem (len value) 2 =? 0) then Errorf Eap_ErrInvalidAttribute else
  version_list_loop (S (length value)) value 0 [].

Definition SelectedVersionValue (a : Attribute) : result Z := directUint16Value a.

Definition BiddingValue (a : Attribute) : result bool :=
  if negb (len (a_Data a) =? 2) then Errorf Eap_ErrInvalidAttribute else
  let! d0 := at_ (a_Data a) 0 in
  let! d1 := at_ (a_Data a) 1 in
  if negb (Z.land d0 0x7f =? 0) || negb (d1 =? 0) then Errorf Eap_ErrInvalidAttribute else
  Ok (negb (Z.land d0 0x80 =? 0)).

Definition RESValue (a : Attribute) : result (bytes * Z) :=
  if len (a_Data a) <? 2 then Errorf Eap_ErrInvalidAttribute else
  let! bits := u16_at (a_Data a) 0 2 in
  if (bits <? RESMinBits) || (RESMaxBits <? bits) then Errorf Eap_ErrInvalidAttribute else
  let octets := to_u32 (bits + 7) / 8 in
  let baseLength := 2 + octets in
  let paddedLength := baseLength + paddingFor4 (2 + baseLength) in
  if negb (len (a_Data a) =? baseLength) && negb (len (a_Data a) =? paddedLength)
  then Errorf Eap_ErrInvalidAttribute else
  if len (a_Data a) - 2 <? octets then Errorf Eap_ErrInvalidAttribute else
  let! _ :=
    (if negb (bits mod 8 =? 0) then
       let unusedMask := to_u8 (to_u8 (Z.shiftl 1 (8 - bits mod 8)) - 1) in
       let! last := at_ (a_Data a) (1 + octets) in
       if negb (Z.land last unusedMask =? 0) then Errorf Eap_ErrInvalidAttribute else Ok tt
     else Ok tt) in
  let! padding := slice_from (a_Data a) baseLength in
  let! _ := requireZeroBytes padding in
  let! res := slice (a_Data a) 2 (2 + octets) in
  Ok (res, bits).

Definition FixedValue (a : Attribute) (size : Z) : result bytes :=
  if (size <? 0) || (len (a_Data a) <? 2 + size) then Errorf Eap_ErrInvalidAttribute else
  let! _ := requireReservedZero (a_Data a) in
  slice (a_Data a) 2 (2 + size).

Definition RANDValues (a : Attribute) := fixed16Values a.
Definition AUTNValue (a : Attribute) := fixedValueExact a AUTNLength.
Definition AUTNValues (a : Attribute) := fixed16Values a.
Definition AUTSValue (a : Attribute) := fixedValueExact a AUTSLength.
Definition MACValue (a : Attribute) := fixedValueExact a 16.
Definition ResultIndValue (a : Attribute) : result unit :=
  if negb (len (a_Data a) =? 2) then Errorf Eap_ErrInvalidAttribute else requireReservedZero (a_Data a).
Definition KDFInputValue (a : Attribute) : result bytes := VariableValue a.
Definition KDFValue (a : Attribute) : result Z :=
  if len (a_Data a) =? 2 then Uint16 (a_Data a) else
  let! zero :=
    (if 4 <=? len (a_Data a) then
       let! d0 := at_ (a_Data a) 0 in
       if negb (d0 =? 0) then Ok false else
       let! d1 := at_ (a_Data a) 1 in Ok (d1 =? 0)
     else Ok false) in
  if (zero : bool) then u16_at (a_Data a) 2 4 else Errorf Eap_ErrInvalidAttribute.
Definition NotificationValue (a : Attribute) := directUint16Value a.
Definition Attribute_NotificationInfo (a : Attribute) : result NotificationInfo :=
  let! value := NotificationValue a in
  Ok (mkNotificationInfo value
        (Z.ldiff value (Z.lor NotificationSuccessBit NotificationPBit))
        (negb (Z.land value NotificationSuccessBit =? 0))
        (negb (Z.land value NotificationPBit =? 0))).
Definition ClientErrorCodeValue (a : Attribute) := directUint16Value a.
Definition CounterValue (a : Attribute) := directUint16Value a.
Definition CounterTooSmallValue (a : Attribute) : result unit :=
  if negb (len (a_Data a) =? 2) then Errorf Eap_ErrInvalidAttribute else requireReservedZero (a_Data a).
Definition NonceSValue (a : Attribute) := fixedValueExact a RANDLength.
Definition IVValue (a : Attribute) := fixedValueExact a RANDLength.
Definition EncrDataValue (a : Attribute) : result bytes :=
  if len (a_Data a) <? 2 then Errorf Eap_ErrInvalidAttribute else
  let! _ := requireReservedZero (a_Data a) in
  slice_from (a_Data a) 2.
Definition NextPseudonymValue (a : Attribute) := VariableValue a.
Definition NextReauthIDValue (a : Attribute) := VariableValue a.
Definition CheckcodeValue (a : Attribute) : result bytes :=
  if len (a_Data a) =? 2 then
    let! _ := requireReservedZero (a_Data a) in Ok []
  else if len (a_Data a) =? 22 then
    let! _ := requireReservedZero (a_Data a) in slice_from (a_Data a) 2
  else Errorf Eap_ErrInvalidAttribute.

(** ** AUTN and AUTS *)
Definition ParseAUTN (autn16 : bytes) : result AUTNFields :=
  if negb (len autn16 =? AUTNLength) then Errorf Eap_ErrInvalidAttribute else
  let! sqn := slice autn16 0 AKLength in
  let! amf := slice autn16 AKLength (AKLength + AMFLength) in
  let! mac := slice_from autn16 (AKLength + AMFLength) in
  Ok (mkAUTNFields sqn amf mac).
Definition ParseAUTS (auts14 : bytes) : result AUTSFields :=
  if negb (len auts14 =? AUTSLength) then Errorf Eap_ErrInvalidAttribute else
  let! sqn := slice auts14 0 AKLength in
  let! macs := slice_from auts14 AKLength in
  Ok (mkAUTSFields sqn macs).
Definition Attribute_AUTNFields (a : Attribute) : result AUTNFields :=
  let! autn := AUTNValue a in ParseAUTN autn.
Definition Attribute_AUTSFields (a : Attribute) : result AUTSFields :=
  let! auts := AUTSValue a in ParseAUTS auts.

(** [for i := range sqn { sqn[i] = x[i] ^ ak[i] }], both of length 6. *)
Definition xor_bytes (x ak : bytes) : bytes := zip_with Z.lxor x ak.
Definition AUTNFields_SQN (a : AUTNFields) (ak : bytes) : result bytes :=
  if negb (len (autn_SQNXorAK a) =? AKLength) then Errorf Eap_ErrInvalidAttribute else
  if negb (len ak =? AKLength) then Errorf Eap_ErrInvalidAttribute else
  Ok (xor_bytes (autn_SQNXorAK a) ak).
Definition AUTSFields_Bytes (a : AUTSFields) : result bytes :=
  if negb (len (auts_SQNMSXorAK a) =? AKLength) then Errorf Eap_ErrInvalidAttribute else
  if negb (len (auts_MACS a) =? AUTNMACLength) then Errorf Eap_ErrInvalidAttribute else
  Ok (auts_SQNMSXorAK a ++ auts_MACS a).
Definition AUTSFields_SQNMS (a : AUTSFields) (ak : bytes) : result bytes :=
  if negb (len (auts_SQNMSXorAK a) =? AKLength) then Errorf Eap_ErrInvalidAttribute else
  if negb (len ak =? AKLength) then Errorf Eap_ErrInvalidAttribute else
  Ok (xor_bytes (auts_SQNMSXorAK a) ak).

(** ** Finding attributes *)
Fixpoint FindAttribute (attrs : list Attribute) (t : Z) : option Attribute :=
  match attrs with
  | [] => None
  | attr :: rest => if a_Type attr =? t then Some attr else FindAttribute rest t
  end.

(** The loop keeps the last match and counts the matches. *)
Fixpoint find_single_loop (attrs : list Attribute) (t : Z) (out : Attribute) (count : Z) : Attribute * Z :=
  match attrs with
  | [] => (out, count)
  | attr :: rest =>
      if negb (a_Type attr =? t) then find_single_loop rest t out count
      else find_single_loop rest t attr (count + 1)
  end.
Definition zeroAttribute : Attribute := mkAttribute 0 [].
Definition FindSingleAttribute (attrs : list Attribute) (t : Z) : bool * result Attribute :=
  let '(out, count) := find_single_loop attrs t zeroAttribute 0 in
  if count =? 0 then (false, Ok zeroAttribute)
  else if count =? 1 then (true, Ok out)
  else (true, Errorf Eap_ErrInvalidAttribute).

(** [if err != nil || !ok { return zero, ok, err }; v, err := get(attr); ...]: the
    common body of the [XFromAttributes] functions. *)
Definition single_value {A} (attrs : list Attribute) (t : Z) (zero : A) (get : Attribute -> result A)
  : bool * result A :=
  match FindSingleAttribute attrs t with
  | (ok, Ok attr) => if negb ok then (false, Ok zero) else (true, get attr)
  | (ok, Err e) => (ok, Err e)
  | (ok, Panic) => (ok, Panic)
  | (ok, OutOfFuel) => (ok, OutOfFuel)
  end.

Definition NotificationFromAttributes attrs : bool * result NotificationInfo :=
  single_value attrs AttributeNotification (mkNotificationInfo 0 0 false false) Attribute_NotificationInfo.
Definition ClientErrorCodeFromAttributes attrs : bool * result Z :=
  single_value attrs AttributeClientErrorCode 0 ClientErrorCodeValue.
Definition CounterFromAttributes attrs : bool * result Z :=
  single_value attrs AttributeCounter 0 CounterValue.
Definition CounterTooSmallFromAttributes attrs : bool * result unit :=
  single_value attrs AttributeCounterTooSmall tt CounterTooSmallValue.
Definition NonceSFromAttributes attrs : bool * result bytes :=
  single_value attrs AttributeNonceS [] NonceSValue.
Definition CheckcodeFromAttributes attrs : bool * result bytes :=
  single_value attrs AttributeCheckcode [] CheckcodeValue.
Definition ResultIndFromAttributes attrs : bool * result unit :=
  single_value attrs AttributeResultInd tt ResultIndValue.

(** [v, ok, err := F(attrs); if err != nil { return err }; if !ok { return missing }] *)
Definition required {A} (r : bool * result A) : result A :=
  let '(ok, r) := r in let! v := r in if negb ok then Errorf Eap_ErrInvalidAttribute else Ok v.

Definition ParseNotificationRequest (request : Packet) : result NotificationInfo :=
  if negb (pk_Code request =? CodeRequest) || negb (pk_Subtype request =? SubtypeNotification)
  then Errorf Eap_ErrInvalidPacket else
  if negb (isAKAType (pk_EapType request)) then Errorf Eap_ErrInvalidPacket else
  required (NotificationFromAttributes (pk_Attributes request)).

Definition ParseClientErrorResponse (response : Packet) : result Z :=
  if negb (pk_Code response =? CodeResponse) || negb (pk_Subtype response =? SubtypeClientError)
  then Errorf Eap_ErrInvalidPacket else
  if negb (isAKAType (pk_EapType response)) then Errorf Eap_ErrInvalidPacket else
  required (ClientErrorCodeFromAttributes (pk_Attributes response)).

(** [kdfValues] (crypto.go) *)
Fixpoint kdfValues_loop (attrs : list Attribute) (values : list Z) : result (list Z) :=
  match attrs with
  | [] => Ok values
  | attr :: rest =>
      if negb (a_Type attr =? AttributeKDF) then kdfValues_loop rest values else
      let! value := KDFValue attr in
      kdfValues_loop rest (values ++ [value])
  end.
Definition kdfValues (attrs : list Attribute) : result (list Z) := kdfValues_loop attrs [].

Definition ParseSynchronizationFailureResponse (response : Packet) : result SynchronizationFailureInfo :=
  if negb (pk_Code response =? CodeResponse) || negb (pk_Subtype response =? SubtypeSynchronizationFailure)
  then Errorf Eap_ErrInvalidPacket else
  if negb (isAKAType (pk_EapType response)) then Errorf Eap_ErrInvalidPacket else
  let! attr := required (FindSingleAttribute (pk_Attributes response) AttributeAUTS) in
  let! auts := AUTSValue attr in
  let! fields := ParseAUTS auts in
  let! kdfs := kdfValues (pk_Attributes response) in
  if (pk_EapType response =? TypeAKAPrime) && (len kdfs =? 0) then Errorf Eap_ErrInvalidAttribute else
  Ok (mkSyncInfo auts fields kdfs).

Definition clientErrorRecoveryAction (code : Z) : AKARecoveryAction :=
  if (code =? ClientErrorInsufficientChallenges) || (code =? ClientErrorRANDNotFresh)
  then AKARecoveryRetry else AKARecoveryFail.

Definition zeroSyncInfo := mkSyncInfo [] (mkAUTSFields [] []) [].
Definition zeroDecision := mkDecision AKARecoveryNone false false false 0 zeroSyncInfo.

Definition ClassifyAKARecoveryPacket (packet : Packet) : bool * result AKARecoveryDecision :=
  if pk_Code packet =? CodeFailure then
    (true, Ok (mkDecision AKARecoveryFail false false false 0 zeroSyncInfo))
  else if negb (pk_Code packet =? CodeResponse) then (false, Ok zeroDecision)
  else if pk_Subtype packet =? SubtypeSynchronizationFailure then
    (true, let! info := ParseSynchronizationFailureResponse packet in
           Ok (mkDecision AKARecoveryResync true false false 0 info))
  else if pk_Subtype packet =? SubtypeAuthenticationReject then
    if negb (isAKAType (pk_EapType packet)) then (true, Errorf Eap_ErrInvalidPacket)
    else (true, Ok (mkDecision AKARecoveryFail false true false 0 zeroSyncInfo))
  else if pk_Subtype packet =? SubtypeClientError then
    (true, let! code := ParseClientErrorResponse packet in
           Ok (mkDecision (clientErrorRecoveryAction code) false false true code zeroSyncInfo))
  else (false, Ok zeroDecision).

Definition ValidateAttribute (a : Attribute) : result unit :=
  let ignore {A} (r : result A) : result unit := let! _ := r in Ok tt in
  let t := a_Type a in
  if t =? AttributeRAND then ignore (RANDValues a)
  else if t =? AttributeAUTN then ignore (AUTNValues a)
  else if t =? AttributeRES then ignore (RESValue a)
  else if t =? AttributeAUTS then ignore (AUTSValue a)
  else if t =? AttributePadding then
    let totalLength := len (a_Data a) + 2 in
    if negb (totalLength =? 4) && negb (totalLength =? 8) && negb (totalLength =? 12)
    then Errorf Eap_ErrInvalidAttribute else requireZeroBytes (a_Data a)
  else if (t =? AttributePermanentIDReq) || (t =? AttributeAnyIDReq) || (t =? AttributeFullAuthIDReq)
  then ignore (fixedValueExact a 0)
  else if t =? AttributeMAC then ignore (MACValue a)
  else if t =? AttributeNotification then ignore (NotificationValue a)
  else if t =? AttributeIdentity then ignore (IdentityValue a)
  else if t =? AttributeVersionList then ignore (VersionListValue a)
  else if t =? AttributeSelectedVersion then ignore (SelectedVersionValue a)
  else if t =? AttributeCounter then ignore (CounterValue a)
  else if t =? AttributeCounterTooSmall then CounterTooSmallValue a
  else if t =? AttributeNonceS then ignore (NonceSValue a)
  else if t =? AttributeClientErrorCode then ignore (ClientErrorCodeValue a)
  else if t =? AttributeKDFInput then ignore (KDFInputValue a)
  else if t =? AttributeKDF then ignore (KDFValue a)
  else if t =? AttributeIV then ignore (IVValue a)
  else if t =? AttributeEncrData then ignore (EncrDataValue a)
  else if t =? AttributeNextPseudonym then ignore (NextPseudonymValue a)
  else if t =? AttributeNextReauthID then ignore (NextReauthIDValue a)
  else if t =? AttributeCheckcode then ignore (CheckcodeValue a)
  else if t =? AttributeResultInd then ResultIndValue a
  else if t =? AttributeBidding then ignore (BiddingValue a)
  else Ok tt.

(** The message "attribute %d: " put before the error is text. *)
Fixpoint ValidateAttributes (attrs : list Attribute) : result unit :=
  match attrs with
  | [] => Ok tt
  | attr :: rest => let! _ := ValidateAttribute attr in ValidateAttributes rest
  end.

Fixpoint identity_state_loop (attrs : list Attribute) (out : EncryptedIdentityState) : result EncryptedIdentityState :=
  match attrs with
  | [] => Ok out
  | attr :: rest =>
      if a_Type attr =? AttributeNextPseudonym then
        let! value := NextPseudonymValue attr in
        identity_state_loop rest (mkIdentityState value (es_NextReauthID out))
      else if a_Type attr =? AttributeNextReauthID then
        let! value := NextReauthIDValue attr in
        identity_state_loop rest (mkIdentityState (es_NextPseudonym out) value)
      else identity_state_loop rest out
  end.
Definition IdentityStateFromAttributes (attrs : list Attribute) := identity_state_loop attrs (mkIdentityState [] []).

Definition VerifyCheckcodeAttribute {C : Crypto} (attr : Attribute) (packets : list bytes) : result unit :=
  let! value := CheckcodeValue attr in
  if len value =? 0 then
    if len packets =? 0 then Ok tt else Errorf Eap_ErrInvalidCheckcode
  else if negb (bytesEqual value (IdentityCheckcode packets)) then Errorf Eap_ErrInvalidCheckcode
  else Ok tt.

(** ** Well-formed values and the wire form *)
Definition Attribute_ok (a : Attribute) : Prop := is_u8 (a_Type a) /\ bytes_ok (a_Data a).
#[export] Instance Attribute_ok_dec a : Decision (Attribute_ok a).
Proof. unfold Attribute_ok. apply _. Defined.
Definition Packet_ok (p : Packet) : Prop :=
  is_u8 (pk_Code p) /\ is_u8 (pk_Identifier p) /\ is_u8 (pk_EapType p) /\ is_u8 (pk_Subtype p) /\
  Forall Attribute_ok (pk_Attributes p) /\ bytes_ok (pk_Data p).
#[export] Instance Packet_ok_dec p : Decision (Packet_ok p).
Proof. unfold Packet_ok. apply _. Defined.

(** The padding the marshaller appends, and the attribute as a receiver sees it. *)
Definition pad_len (n : Z) : Z := (4 - n mod 4) mod 4.
Definition zeros (n : Z) : bytes := replicate (Z.to_nat n) 0.
Definition wire (a : Attribute) : Attribute := mkAttribute (a_Type a) (a_Data a ++ zeros (pad_len (2 + len (a_Data a)))).
Definition enc_attribute (a : Attribute) : bytes :=
  [a_Type a; (2 + len (a_Data (wire a))) / 4] ++ a_Data (wire a).
Definition attribute_fits (a : Attribute) : Prop := len (a_Data a) <= 1018.

Lemma pad_len_spec n : 0 <= n -> 0 <= pad_len n < 4 /\ (n + pad_len n) mod 4 = 0 /\ paddingFor4 n = pad_len n.
Proof.
  intros Hn. unfold pad_len, paddingFor4. rewrite Z.rem_mod_nonneg by lia.
  pose proof (Z.mod_pos_bound n 4 ltac:(lia)). pose proof (Z.div_mod n 4 ltac:(lia)).
  assert (n mod 4 = 0 \/ n mod 4 = 1 \/ n mod 4 = 2 \/ n mod 4 = 3) as [E|[E|[E|E]]] by lia; rewrite E;
    (split; [done|]); (split; [|done]);
    match goal with |- (n + ?k) mod 4 = 0 => let v := eval vm_compute in k in change k with v end;
    Z.div_mod_to_equations; lia.
Qed.
Lemma len_zeros n : 0 <= n -> len (zeros n) = n.
Proof. intros. unfold zeros. rewrite len_replicate. lia. Qed.
Lemma zeros_ok n : bytes_ok (zeros n).
Proof. by apply bytes_ok_replicate. Qed.
#[export] Hint Resolve zeros_ok : gobytes.

Lemma wire_len a : len (a_Data (wire a)) = len (a_Data a) + pad_len (2 + len (a_Data a)) /\
  (2 + len (a_Data (wire a))) mod 4 = 0 /\ 0 <= pad_len (2 + len (a_Data a)) < 4.
Proof.
  pose proof (len_nonneg (a_Data a)). destruct (pad_len_spec (2 + len (a_Data a))) as (? & H2 & _); [lia|].
  unfold wire. cbn. rewrite len_app, len_zeros by lia. split_and!; try done; [|lia..].
  by rewrite Z.add_assoc.
Qed.

Lemma wire_idem a : (2 + len (a_Data a)) mod 4 = 0 -> wire a = a.
Proof.
  intros H. destruct a as [t d]. unfold wire. cbn in *. unfold pad_len. rewrite H. cbn. by rewrite app_nil_r.
Qed.
Lemma wire_wire a : wire (wire a) = wire a.
Proof. apply wire_idem. apply wire_len. Qed.

Lemma attribute_marshal_spec a b :
  Attribute_MarshalBinary a = Ok b <-> attribute_fits a /\ b = enc_attribute a.
Proof.
  unfold Attribute_MarshalBinary, attribute_fits, enc_attribute. pose proof (len_nonneg (a_Data a)).
  destruct (wire_len a) as (Hwl & Hwm & Hp). destruct (pad_len_spec (2 + len (a_Data a))) as (_ & _ & ->); [lia|].
  set (pad := pad_len (2 + len (a_Data a))) in *.
  replace (2 + len (a_Data a) + pad) with (2 + len (a_Data (wire a))) by lia.
  set (total := 2 + len (a_Data (wire a))) in *.
  assert (Htot : total = 4 * (total / 4)) by (pose proof (Z.div_mod total 4); lia).
  go_case Hc.
  - split; [done|]. intros [Hf _]. exfalso. lia.
  - unfold to_u8. rewrite Z.mod_small by lia.
    assert (Hdata : (if 0 <? pad then ([a_Type a; total / 4] ++ a_Data a) ++ replicate (Z.to_nat pad) 0
      else [a_Type a; total / 4] ++ a_Data a) = [a_Type a; total / 4] ++ a_Data (wire a)).
    { unfold wire. cbn [a_Data]. fold pad. destruct (0 <? pad) eqn:H0; [by rewrite <- app_assoc|].
      replace pad with 0 by lia. unfold zeros. cbn. by rewrite app_nil_r. }
    rewrite Hdata. split; [intros [= <-]|intros [_ ->]]; [|done]. split; [|done]. lia.
Qed.

Lemma marshal_attrs_loop_spec attrs out b :
  marshal_attributes_loop attrs out = Ok b <->
  Forall attribute_fits attrs /\ b = out ++ concat (enc_attribute <$> attrs).
Proof.
  revert out. induction attrs as [|a attrs IH]; intros out; cbn [marshal_attributes_loop].
  - cbn. rewrite app_nil_r. split; [intros [= <-]; by split|by intros [_ ->]].
  - rewrite Forall_cons. pose proof (attribute_marshal_spec a) as Ha.
    destruct (Attribute_MarshalBinary a) as [e| | |]; cbn [bind].
    2,3,4: split; [done|]; intros [[Hf _] _]; by pose proof (proj2 (Ha _) (conj Hf eq_refl)).
    destruct (proj1 (Ha e) eq_refl) as [Hf ->]. rewrite IH. cbn [fmap list_fmap concat]. rewrite <- app_assoc. tauto.
Qed.

Lemma attribute_marshal_returns a : returns (Attribute_MarshalBinary a).
Proof. unfold Attribute_MarshalBinary. by case_match. Qed.

Lemma parse_attrs_loop_enc fuel attrs out :
  (length (concat (enc_attribute <$> attrs)) < fuel)%nat -> Forall attribute_fits attrs ->
  parse_attrs_loop fuel (concat (enc_attribute <$> attrs)) out = Ok (out ++ (wire <$> attrs)).
Proof.
  revert fuel out. induction attrs as [|a attrs IH]; intros fuel out Hf Hfit;
    (destruct fuel as [|fuel]; [lia|]); cbn [parse_attrs_loop].
  - cbn. by rewrite app_nil_r.
  - apply Forall_cons in Hfit as [Ha Hfit]. cbn [fmap list_fmap concat] in *.
    destruct (wire_len a) as (Hwl & Hwm & Hp). unfold attribute_fits in Ha.
    pose proof (len_nonneg (a_Data a)). set (W := a_Data (wire a)) in *. set (q := (2 + len W) / 4).
    assert (Hq : 2 + len W = 4 * q) by (unfold q; pose proof (Z.div_mod (2 + len W) 4); lia).
    assert (1 <= q <= 255) by lia.
    assert (He : enc_attribute a = [a_Type a; q] ++ W) by done. rewrite He in *. clear He. set (tl := concat _) in *. pose proof (len_nonneg tl).
    assert (length tl < fuel)%nat by (cbn in Hf; rewrite length_app in Hf; lia).
    rewrite <- app_assoc. set (d := [a_Type a; q] ++ W ++ tl).
    assert (Hd : len d = 4 * q + len tl) by (subst d; len_lia).
    do 2 go_if. cbn [negb]. rewrite (at_Ok d 1 q) by done. cbn [bind]. go_if.
    rewrite (at_Ok d 0 (a_Type a)) by done. cbn [bind].
    rewrite (slice_eq d [a_Type a; q] W tl) by (done || len_lia). cbn [bind].
    rewrite (slice_from_eq d ([a_Type a; q] ++ W) tl) by (rewrite <- ?app_assoc; done || len_lia). cbn [bind].
    rewrite IH by done. rewrite <- app_assoc. done.
Qed.

Lemma parse_attrs_loop_safe fuel data out :
  bytes_ok data -> (length data < fuel)%nat ->
  safe (parse_attrs_loop fuel data out) (fun r => exists attrs, r = out ++ attrs /\ Forall Attribute_ok attrs /\
    Forall attribute_fits attrs /\ wire <$> attrs = attrs /\ concat (enc_attribute <$> attrs) = data).
Proof.
  revert data out. induction fuel as [|fuel IH]; intros data out Hd Hf; [lia|].
  cbn [parse_attrs_loop]. go_case H0.
  { exists []. rewrite app_nil_r. split; [done|]. split; [done|]. split; [done|]. split; [done|].
    assert (len data = 0) as ->%len_zero by len_lia. done. }
  go_case H4; [done|]. apply safe_bind, safe_at; [done|lia|]. intros l Hl Hlk. go_case Hr; [done|].
  apply safe_bind, safe_at; [done|lia|]. intros ty Hty Htk.
  apply safe_bind, safe_slice_ok; [done|lia|lia|]. intros d -> Hdl Hdok.
  apply safe_bind, safe_slice_from; [done|lia|]. intros rest -> Hrl Hrok.
  eapply safe_mono; [apply IH; [done|unfold len in *; lia]|].
  intros r (attrs & -> & Hok & Hfit & Hw & Henc). rewrite <- app_assoc. eexists (_ :: attrs). split; [done|].
  set (D := sub data 2 (l * 4)) in *.
  assert (Hwire : wire (mkAttribute ty D) = mkAttribute ty D).
  { apply wire_idem. cbn. rewrite Hdl. replace (2 + (l * 4 - 2)) with (l * 4) by lia. by apply Z.mod_mul. }
  unfold in_range in Hl. split_and!.
  - constructor; [by split|done].
  - constructor; [|done]. unfold attribute_fits. cbn. lia.
  - cbn. by rewrite Hwire, Hw.
  - cbn [fmap list_fmap concat]. rewrite Henc. unfold enc_attribute. rewrite Hwire. cbn [a_Type a_Data].
    rewrite Hdl. replace ((2 + (l * 4 - 2)) / 4) with l by (replace (2 + (l * 4 - 2)) with (l * 4) by lia; by rewrite Z.div_mul).
    rewrite <- app_assoc. unfold D. rewrite sub_split by lia. rewrite sub_to_end by lia.
    rewrite <- (take_drop 2 data) at 2. f_equal.
    destruct data as [|x [|y data]]; [len_simpl; lia..|].
    change (Some x = Some ty) in Htk. change (Some y = Some l) in Hlk. by simplify_eq.
Qed.

Lemma ParseAttributes_safe data :
  bytes_ok data -> safe (ParseAttributes data) (fun attrs => Forall Attribute_ok attrs /\
    Forall attribute_fits attrs /\ wire <$> attrs = attrs /\ concat (enc_attribute <$> attrs) = data).
Proof.
  intros. eapply safe_mono; [apply parse_attrs_loop_safe; [done|lia]|]. intros r (attrs & -> & H'). done.
Qed.

(** ** Packets *)

(** The packets the format can carry: a terminal packet, an AKA packet with
    attributes, or another EAP method with at least three octets of data. *)
Definition eap_type (p : Packet) : Z := if pk_EapType p =? 0 then TypeAKA else pk_EapType p.
Definition carried (p : Packet) : Prop :=
  pk_Code p = CodeSuccess \/ pk_Code p = CodeFailure \/
  ((eap_type p = TypeAKA \/ eap_type p = TypeAKAPrime) /\ pk_Data p = []) \/
  ((eap_type p <> TypeAKA /\ eap_type p <> TypeAKAPrime) /\ 3 <= len (pk_Data p)).
(** What the receiver gets. *)
Definition received (p : Packet) : Packet :=
  if (pk_Code p =? CodeSuccess) || (pk_Code p =? CodeFailure) then mkPacket (pk_Code p) (pk_Identifier p) 0 0 [] []
  else if (eap_type p =? TypeAKA) || (eap_type p =? TypeAKAPrime) then
    mkPacket (pk_Code p) (pk_Identifier p) (eap_type p) (pk_Subtype p) (wire <$> pk_Attributes p) []
  else mkPacket (pk_Code p) (pk_Identifier p) (eap_type p) 0 [] (pk_Data p).

Lemma ParseAttributes_enc attrs :
  Forall attribute_fits attrs -> ParseAttributes (concat (enc_attribute <$> attrs)) = Ok (wire <$> attrs).
Proof. intros. unfold ParseAttributes. rewrite parse_attrs_loop_enc by (done || lia). done. Qed.

Lemma ParsePacket_framed code id body :
  isEAPCode code = true -> code <> CodeSuccess -> code <> CodeFailure -> 4 <= len body -> len body + 4 <= 0xffff ->
  ParsePacket ([code; id] ++ be_bytes 2 (len body + 4) ++ body) =
    (let! ty := at_ body 0 in
     if negb (ty =? TypeAKA) && negb (ty =? TypeAKAPrime) then
       let! d := slice body 1 (len body) in Ok (mkPacket code id ty 0 [] d)
     else
       let! subtype := at_ body 1 in
       let! raw := slice body 4 (len body) in
       let! attrs := ParseAttributes raw in
       Ok (mkPacket code id ty subtype attrs [])).
Proof.
  intros Hc Hs Hf Hl Hm. set (L := be_bytes 2 (len body + 4)). assert (len L = 2) by done.
  set (d := [code; id] ++ L ++ body). assert (Hd : len d = 4 + len body) by (subst d; len_lia).
  unfold ParsePacket. go_if. rewrite (u16_at_eq d [code; id] body (len body + 4)) by (done || len_lia).
  cbn [bind]. go_if. rewrite (at_Ok d 0 code), (at_Ok d 1 id) by done. cbn [bind]. rewrite Hc. cbn [negb].
  replace ((code =? CodeSuccess) || (code =? CodeFailure)) with false by lia. go_if.
  assert (Hat : forall j, 4 <= j < len d -> at_ (E := error) d j = at_ body (j - 4)).
  { intros j Hj. unfold at_. replace (j <? 0) with false by lia. replace (j - 4 <? 0) with false by lia.
    by replace (Z.to_nat j) with (4 + Z.to_nat (j - 4))%nat by lia. }
  assert (Hsl : forall j, 4 <= j <= len d -> slice (E := error) d j (len body + 4) = slice body (j - 4) (len body)).
  { intros j Hj. rewrite !slice_Ok by lia. f_equal. unfold sub.
    replace (Z.to_nat j) with (4 + Z.to_nat (j - 4))%nat by lia.
    by replace (len body + 4 - j) with (len body - (j - 4)) by lia. }
  rewrite (Hat 4), (Hat 5), (Hsl 5), (Hsl 8) by lia. done.
Qed.

Lemma len_enc_attributes attrs : 0 <= len (concat (enc_attribute <$> attrs)).
Proof. apply len_nonneg. Qed.

Lemma Packet_roundtrip p b :
  Packet_ok p -> carried p -> Packet_MarshalBinary p = Ok b -> ParsePacket b = Ok (received p).
Proof.
  intros (Hc & Hi & Hty & Hst & Ha & Hd) Hcar. unfold Packet_MarshalBinary, received.
  destruct (isEAPCode (pk_Code p)) eqn:Hcode; [|done]. cbn [negb].
  destruct ((pk_Code p =? CodeSuccess) || (pk_Code p =? CodeFailure)) eqn:Hterm.
  { intros [= <-]. unfold ParsePacket. set (d := [pk_Code p; pk_Identifier p; 0; 4]).
    assert (len d = 4) as Hl by done. rewrite Hl. go_if.
    replace (u16_at d 2 4) with (Ok (E := error) 4) by done. cbn [bind]. go_if.
    rewrite (at_Ok d 0 (pk_Code p)), (at_Ok d 1 (pk_Identifier p)) by done. cbn [bind].
    rewrite Hcode. cbn [negb]. by rewrite Hterm. }
  fold (eap_type p). set (ty := eap_type p) in *.
  assert (Hfr : forall body, 4 <= len body ->
    (if 0xffff <? len body + 4 then Errorf Eap_ErrInvalidPacket
     else Ok ([pk_Code p; pk_Identifier p] ++ be_bytes 2 (to_u16 (len body + 4)) ++ body)) = Ok b ->
    b = [pk_Code p; pk_Identifier p] ++ be_bytes 2 (len body + 4) ++ body /\ len body + 4 <= 0xffff).
  { intros body Hl. go_case Hm; [done|]. unfold to_u16. rewrite Z.mod_small by lia. intros [= <-]. split; [done|lia]. }
  destruct Hcar as [Hx|[Hx|[[Htype Hdata]|[[Hn1 Hn2] Hdata]]]]; [rewrite Hx in Hterm; done..| |].
  - rewrite Hdata. cbn [len length]. change (0 <? len []) with false. cbv iota.
    intros (body & (raw & Hraw & [= <-])%bind_ok & Hb)%bind_ok.
    apply marshal_attrs_loop_spec in Hraw as [Hfit ->]. rewrite app_nil_l in Hb.
    set (R := concat _) in *. pose proof (len_enc_attributes (pk_Attributes p)) as Hrl. fold R in Hrl.
    apply Hfr in Hb as [-> Hm]; [|len_lia]. rewrite ParsePacket_framed by (done || lia || len_lia).
    rewrite (at_Ok _ 0 ty) by done. cbn [bind].
    replace ((ty =? TypeAKA) || (ty =? TypeAKAPrime)) with true by (symmetry; len_lia).
    replace (negb (ty =? TypeAKA) && negb (ty =? TypeAKAPrime)) with false by (symmetry; len_lia).
    rewrite (at_Ok _ 1 (pk_Subtype p)) by done. cbn [bind].
    rewrite (slice_eq _ [ty; pk_Subtype p; 0; 0] R []) by (rewrite ?app_nil_r; done || len_lia). cbn [bind].
    unfold R. by rewrite ParseAttributes_enc.
  - replace (0 <? len (pk_Data p)) with true by (symmetry; lia). cbn [bind]. intros Hb.
    apply Hfr in Hb as [-> Hm]; [|len_lia]. rewrite ParsePacket_framed by (done || lia || len_lia).
    rewrite (at_Ok _ 0 ty) by done. cbn [bind].
    replace ((ty =? TypeAKA) || (ty =? TypeAKAPrime)) with false by (symmetry; len_lia).
    replace (negb (ty =? TypeAKA) && negb (ty =? TypeAKAPrime)) with true by (symmetry; len_lia).
    rewrite (slice_eq _ [ty] (pk_Data p) []) by (rewrite ?app_nil_r; done || len_lia). done.
Qed.

Lemma ParsePacket_safe data :
  bytes_ok data -> safe (ParsePacket data) (fun p => Packet_ok p /\ isEAPCode (pk_Code p) = true /\
    Forall attribute_fits (pk_Attributes p) /\ wire <$> pk_Attributes p = pk_Attributes p).
Proof.
  intros Hd. unfold ParsePacket. go_case H0; [done|].
  apply safe_bind, safe_u16_at; [done|lia|lia|lia|]. intros length Hlen. go_case H1; [done|].
  apply safe_bind, safe_at; [done|lia|]. intros code Hcode _.
  apply safe_bind, safe_at; [done|lia|]. intros id Hid _.
  destruct (isEAPCode code) eqn:Hc; [|done]. cbn [negb]. unfold Packet_ok.
  destruct ((code =? CodeSuccess) || (code =? CodeFailure)) eqn:Ht.
  { go_case H2; [done|]. cbn. split_and!; done || constructor. }
  go_case H2; [done|]. apply safe_bind, safe_at; [done|lia|]. intros ty Hty _.
  destruct (negb (ty =? TypeAKA) && negb (ty =? TypeAKAPrime)) eqn:Ha.
  - apply safe_bind, safe_slice_ok; [done|lia|lia|]. intros s _ _ Hs. cbn. split_and!; done || constructor.
  - apply safe_bind, safe_at; [done|lia|]. intros st Hst _.
    apply safe_bind, safe_slice_ok; [done|lia|lia|]. intros raw _ _ Hraw.
    eapply safe_call; [by apply ParseAttributes_safe|]. intros attrs (Hok & Hfit & Hw & _).
    cbn. split_and!; done || constructor.
Qed.

(** ** Values of attributes *)
Lemma requireZeroBytes_Ok data : requireZeroBytes data = Ok tt <-> data = zeros (len data).
Proof.
  unfold requireZeroBytes. rewrite <- (andb_true_r (forallb _ _)). 
  assert (H : forallb (fun b => b =? 0) data = true <-> data = zeros (len data)).
  { unfold zeros, len. rewrite Nat2Z.id. induction data as [|b data IH]; [done|]. cbn.
    rewrite andb_true_iff, IH, Z.eqb_eq. split; [intros [-> H]; by f_equal|by intros [= -> H]]. }
  destruct (forallb _ _); cbn; rewrite <- H; split; done.
Qed.
Lemma requireZeroBytes_zeros n : requireZeroBytes (zeros n) = Ok tt.
Proof. apply requireZeroBytes_Ok. unfold zeros. rewrite len_replicate. by rewrite Nat2Z.id. Qed.
Lemma requireZeroBytes_returns data : returns (requireZeroBytes data).
Proof. unfold requireZeroBytes. by case_match. Qed.
Lemma requireReservedZero_safe data : bytes_ok data -> returns (requireReservedZero data).
Proof.
  intros. unfold returns, requireReservedZero. go_safe. apply requireZeroBytes_returns.
Qed.
Lemma requireReservedZero_framed rest : requireReservedZero ([0; 0] ++ rest) = Ok tt.
Proof.
  unfold requireReservedZero. pose proof (len_nonneg rest). go_if.
  by rewrite (slice_eq _ [] [0; 0] rest) by (done || len_lia).
Qed.

Lemma fixedValueExact_wire t v :
  fixedValueExact (wire (FixedAttribute t v)) (len v) = Ok v.
Proof.
  unfold fixedValueExact, FixedAttribute, wire. cbn [a_Data a_Type]. pose proof (len_nonneg v).
  replace (2 + len ([0; 0] ++ v)) with (2 + (2 + len v)) by len_lia.
  destruct (pad_len_spec (2 + (2 + len v))) as (Hp & _ & Hpad); [lia|]. rewrite Hpad.
  set (k := pad_len (2 + (2 + len v))) in *. rewrite <- app_assoc.
  pose proof (len_zeros k ltac:(lia)) as Hz. set (z := zeros k) in *.
  assert (Hd : len ([0; 0] ++ v ++ z) = 2 + len v + k) by len_lia. rewrite Hd. go_if.
  rewrite requireReservedZero_framed. cbn [bind]. rewrite Z.eqb_refl, andb_false_r.
  rewrite (slice_from_eq _ ([0; 0] ++ v) z) by (rewrite <- ?app_assoc; done || len_lia). cbn [bind].
  unfold z. rewrite requireZeroBytes_zeros. cbn [bind].
  by apply (slice_eq _ [0; 0] v (zeros k)).
Qed.

Lemma VariableValue_wire t v : len v <= 0xffff -> VariableValue (wire (VariableAttribute t v)) = Ok v.
Proof.
  intros Hv. unfold VariableValue, VariableAttribute, wire. cbn [a_Data a_Type]. pose proof (len_nonneg v).
  unfold to_u16. rewrite Z.mod_small by lia.
  set (L := be_bytes 2 (len v)). assert (HL : len L = 2) by done.
  destruct (pad_len_spec (2 + len (L ++ v))) as (Hp & _ & _); [len_lia|].
  set (k := pad_len _) in *. pose proof (len_zeros k ltac:(lia)) as Hz. rewrite <- app_assoc.
  assert (Hd : len (L ++ v ++ zeros k) = 2 + len v + k) by len_lia. rewrite Hd. go_if.
  rewrite (u16_at_eq _ [] (v ++ zeros k) (len v)) by (done || len_lia). cbn [bind]. go_if.
  rewrite (slice_from_eq _ (L ++ v) (zeros k)) by (rewrite <- ?app_assoc; done || len_lia). cbn [bind].
  rewrite requireZeroBytes_zeros. cbn [bind]. by apply (slice_eq _ L v (zeros k)).
Qed.

Lemma RESValue_wire res :
  4 <= len res <= 16 -> RESValue (wire (RESAttribute res)) = Ok (res, 8 * len res).
Proof.
  intros Hr. unfold RESValue, RESAttribute, wire. cbn [a_Data a_Type].
  unfold to_u16. rewrite Z.mod_small by lia.
  set (L := be_bytes 2 (len res * 8)). assert (HL : len L = 2) by done.
  replace (2 + len (L ++ res)) with (2 + (2 + len res)) by len_lia.
  destruct (pad_len_spec (2 + (2 + len res))) as (Hp & _ & Hpad); [lia|].
  set (k := pad_len _) in *. pose proof (len_zeros k ltac:(lia)) as Hz. rewrite <- app_assoc.
  assert (Hd : len (L ++ res ++ zeros k) = 2 + len res + k) by len_lia. rewrite Hd. go_if.
  rewrite (u16_at_eq _ [] (res ++ zeros k) (len res * 8)) by (done || len_lia). cbn [bind]. go_if.
  replace (to_u32 (len res * 8 + 7) / 8) with (len res).
  2: { unfold to_u32. rewrite Z.mod_small by lia. Z.div_mod_to_equations. lia. }
  rewrite Hpad. fold k. rewrite Z.eqb_refl, andb_false_r. go_if.
  rewrite Z.mod_mul by lia. cbn [Z.eqb negb bind].
  rewrite (slice_from_eq _ (L ++ res) (zeros k)) by (rewrite <- ?app_assoc; done || len_lia). cbn [bind].
  rewrite requireZeroBytes_zeros. cbn [bind].
  rewrite (slice_eq _ L res (zeros k)) by (done || len_lia). cbn [bind]. do 2 f_equal. lia.
Qed.

Lemma Uint16_be_bytes v : is_u16 v -> Uint16 (E := error) (be_bytes 2 v) = Ok v.
Proof. intros. unfold Uint16. rewrite <- (app_nil_r (be_bytes 2 v)). by apply (BE_Uint_be_bytes 2). Qed.
Lemma directUint16_wire t v : is_u16 v -> directUint16Value (wire (mkAttribute t (be_bytes 2 v))) = Ok v.
Proof. intros. rewrite wire_idem by done. unfold directUint16Value. cbn [a_Data]. by rewrite Uint16_be_bytes. Qed.

Lemma fixed16_loop_spec fuel p rs out :
  Forall (fun r => len r = 16) rs -> (length rs < fuel)%nat -> out ++ rs <> [] ->
  fixed16_loop fuel (p ++ concat rs) (len p) out = Ok (out ++ rs).
Proof.
  revert p rs out. induction fuel as [|fuel IH]; intros p rs out Hr Hf Hne; [lia|]. cbn [fixed16_loop].
  destruct Hr as [|r rs Hr Hrs].
  - cbn [concat]. rewrite !app_nil_r in *. replace (len p <? len p) with false by lia.
    destruct (len out =? 0) eqn:H0; [|done]. apply Z.eqb_eq, len_zero in H0. done.
  - cbn [concat length] in *. pose proof (len_nonneg (concat rs)). rewrite len_app, (len_app r).
    go_if. rewrite (slice_eq _ p r (concat rs)) by (done || lia). cbn [bind].
    replace (len p + 16) with (len (p ++ r)) by len_lia. rewrite app_assoc.
    rewrite IH by (done || lia || (intros E; by destruct out)). by rewrite <- app_assoc.
Qed.

Lemma len_concat_16 (rs : list bytes) : Forall (fun r => len r = 16) rs -> len (concat rs) = 16 * len rs.
Proof. induction 1 as [|r rs Hr _ IH]; [done|]. cbn [concat]. rewrite len_app, len_cons. lia. Qed.

Lemma fixed16Values_wire t (rs : list bytes) :
  Forall (fun r => len r = 16) rs -> rs <> [] ->
  fixed16Values (wire (FixedAttribute t (concat rs))) = Ok rs.
Proof.
  intros Hr Hne. pose proof (len_concat_16 rs Hr) as Hl. pose proof (len_nonneg rs).
  unfold FixedAttribute. rewrite wire_idem.
  2: { cbn [a_Data]. rewrite len_app, Hl. replace (2 + (len [0; 0] + 16 * len rs)) with ((4 * len rs + 1) * 4) by len_lia.
       by apply Z.mod_mul. }
  unfold fixed16Values. cbn [a_Data].
  assert (Hd : len ([0; 0] ++ concat rs) = 2 + 16 * len rs) by len_lia. rewrite Hd.
  replace (2 + 16 * len rs - 2) with (len rs * 16) by lia. rewrite Z.rem_mul by lia.
  replace ((2 + 16 * len rs <? 2) || negb (0 =? 0)) with false by (symmetry; lia).
  rewrite requireReservedZero_framed. cbn [bind]. apply (fixed16_loop_spec _ [0; 0] rs []); [done| |done].
  unfold len in *. lia.
Qed.

Lemma version_list_loop_spec fuel p vs out :
  Forall is_u16 vs -> (length vs < fuel)%nat ->
  version_list_loop fuel (p ++ concat (be_bytes 2 <$> vs)) (len p) out = Ok (out ++ vs).
Proof.
  revert p vs out. induction fuel as [|fuel IH]; intros p vs out Hv Hf; [lia|]. cbn [version_list_loop].
  destruct Hv as [|v vs Hv Hvs].
  - cbn [fmap list_fmap concat]. rewrite !app_nil_r. by replace (len p <? len p) with false by lia.
  - cbn [fmap list_fmap concat length] in *. set (tl := concat _). pose proof (len_nonneg tl).
    replace (len p <? _) with true by (symmetry; len_lia).
    rewrite (u16_at_eq _ p tl v) by done. cbn [bind].
    replace (len p + 2) with (len (p ++ be_bytes 2 v)) by len_lia. rewrite app_assoc.
    unfold tl. rewrite IH by (done || lia). by rewrite <- app_assoc.
Qed.
Lemma len_concat_be2 (vs : list Z) : len (concat (be_bytes 2 <$> vs)) = 2 * len vs.
Proof. induction vs as [|v vs IH]; [done|]. cbn [fmap list_fmap concat]. len_lia. Qed.

Lemma VersionListValue_wire vs :
  Forall is_u16 vs -> 1 <= len vs <= 32767 -> VersionListValue (wire (VersionListAttribute vs)) = Ok vs.
Proof.
  intros Hv Hl. unfold VersionListValue, VersionListAttribute. pose proof (len_concat_be2 vs) as Hc.
  rewrite VariableValue_wire by lia. cbn [bind]. rewrite Hc, Z.mul_comm, Z.rem_mul by lia.
  replace ((len vs * 2 =? 0) || negb (0 =? 0)) with false by (symmetry; lia).
  apply (version_list_loop_spec _ [] vs []); [done|]. unfold len in *. lia.
Qed.

(** ** Every accessor is total *)
Lemma fixedValueExact_safe a n : bytes_ok (a_Data a) -> safe (fixedValueExact a n) (fun v => len v = n /\ bytes_ok v).
Proof.
  intros Hd. unfold fixedValueExact. go_case H0; [done|].
  eapply safe_call; [by apply requireReservedZero_safe|]. intros _ _.
  destruct (pad_len_spec (2 + (2 + n))) as (Hp & _ & Hpad); [lia|]. rewrite Hpad. go_case H1; [done|].
  apply safe_bind, safe_slice_from; [done|lia|]. intros s _ _ _. eapply safe_call; [apply requireZeroBytes_returns|].
  intros _ _. apply safe_slice_ok; [done|lia|lia|]. intros v _ Hl Hv. split; [lia|done].
Qed.
Lemma VariableValue_safe a : bytes_ok (a_Data a) -> safe (VariableValue a) bytes_ok.
Proof.
  intros Hd. unfold VariableValue. go_case H0; [done|].
  apply safe_bind, safe_u16_at; [done|lia|lia|lia|]. intros n Hn. unfold in_range in Hn. go_case H1; [done|].
  apply safe_bind, safe_slice_from; [done|lia|]. intros s _ _ _. eapply safe_call; [apply requireZeroBytes_returns|].
  intros _ _. apply safe_slice_ok; [done|lia|lia|done].
Qed.
Lemma directUint16Value_safe a : bytes_ok (a_Data a) -> safe (directUint16Value a) is_u16.
Proof. intros. unfold directUint16Value. go_safe. done. Qed.
Lemma fixed16_loop_safe fuel data offset out :
  bytes_ok data -> 0 <= offset -> (exists k, 0 <= k /\ len data = offset + 16 * k /\ k < Z.of_nat fuel) ->
  returns (fixed16_loop fuel data offset out).
Proof.
  intros Hd. revert offset out. induction fuel as [|fuel IH]; intros offset out Ho (k & Hk & Hl & Hf); [lia|].
  cbn [fixed16_loop]. go_case H0; [|by case_match].
  apply safe_bind, safe_slice_ok; [done|lia|lia|]. intros s _ _ _. apply IH; [lia|]. exists (k - 1). lia.
Qed.
Lemma fixed16Values_safe a : bytes_ok (a_Data a) -> returns (fixed16Values a).
Proof.
  intros Hd. unfold returns, fixed16Values. go_case H0; [done|].
  eapply safe_call; [by apply requireReservedZero_safe|]. intros _ _. apply fixed16_loop_safe; [done|lia|].
  exists ((len (a_Data a) - 2) / 16). rewrite Z.rem_mod_nonneg in H0 by lia.
  pose proof (Z.div_mod (len (a_Data a) - 2) 16 ltac:(lia)).
  assert (0 <= (len (a_Data a) - 2) / 16) by (apply Z.div_pos; lia).
  split_and!; [lia|lia|]. rewrite Nat2Z.inj_succ. fold (len (a_Data a)). lia.
Qed.
Lemma version_list_loop_safe fuel value offset out :
  bytes_ok value -> 0 <= offset -> (exists k, 0 <= k /\ len value = offset + 2 * k /\ k < Z.of_nat fuel) ->
  returns (version_list_loop fuel value offset out).
Proof.
  intros Hd. revert offset out. induction fuel as [|fuel IH]; intros offset out Ho (k & Hk & Hl & Hf); [lia|].
  cbn [version_list_loop]. go_case H0; [|done].
  apply safe_bind, safe_u16_at; [done|lia|lia|lia|]. intros v _. apply IH; [lia|]. exists (k - 1). lia.
Qed.
Lemma VersionListValue_safe a : bytes_ok (a_Data a) -> returns (VersionListValue a).
Proof.
  intros Hd. eapply safe_call; [by apply VariableValue_safe|]. intros v Hv. go_case H0; [done|].
  apply version_list_loop_safe; [done|lia|]. exists (len v / 2). rewrite Z.rem_mod_nonneg in H0 by len_lia.
  pose proof (Z.div_mod (len v) 2 ltac:(lia)). pose proof (len_nonneg v).
  assert (0 <= len v / 2) by (apply Z.div_pos; lia).
  split_and!; [lia|lia|]. rewrite Nat2Z.inj_succ. fold (len v). lia.
Qed.

(** The value of AT_RES: its bit length is between 32 and 128, the octets are
    the ones the bits need, the rest is padding. *)
Lemma RESValue_safe a :
  bytes_ok (a_Data a) -> safe (RESValue a) (fun r =>
    32 <= r.2 <= 128 /\ len r.1 = (r.2 + 7) / 8 /\ bytes_ok r.1 /\
    a_Data a = be_bytes 2 r.2 ++ r.1 ++ zeros (len (a_Data a) - 2 - len r.1)).
Proof.
  intros Hd. unfold RESValue, RESMinBits, RESMaxBits. go_case H0; [done|]. unfold u16_at, Uint16, BE_Uint.
  rewrite slice_Ok by lia. cbn [bind]. set (s := sub (a_Data a) 0 2).
  assert (Hs : len s = 2) by (apply sub_len; lia). assert (Hsok : bytes_ok s) by by apply bytes_ok_sub.
  rewrite slice_Ok by lia. cbn [bind]. replace (sub s 0 2) with s.
  2: { unfold sub. rewrite drop_0. symmetry. apply firstn_all2. unfold len in Hs. lia. }
  set (bits := be_decode s). go_case H1; [done|].
  replace (to_u32 (bits + 7)) with (bits + 7) by (unfold to_u32; rewrite Z.mod_small; lia).
  set (octets := (bits + 7) / 8). assert (4 <= octets <= 16) by (unfold octets; Z.div_mod_to_equations; lia).
  destruct (pad_len_spec (2 + (2 + octets))) as (Hp & _ & Hpad); [lia|]. rewrite Hpad. go_case H2; [done|].
  go_case H3; [done|]. eapply (safe_call _ _ (fun _ => True)).
  { go_case H4; [|done]. apply safe_bind, safe_at; [done|lia|]. intros b _ _. by case_match. }
  intros _ _. unfold slice_from. rewrite slice_Ok by lia. cbn [bind].
  set (pad := sub (a_Data a) (2 + octets) (len (a_Data a))).
  pose proof (requireZeroBytes_Ok pad) as Hz. pose proof (requireZeroBytes_returns pad) as Hzr.
  destruct (requireZeroBytes pad) as [[]| | |]; try done. cbn [bind]. rewrite slice_Ok by lia. cbn [bind safe fst snd].
  assert (Hpl : len pad = len (a_Data a) - (2 + octets)) by (apply sub_len; lia).
  rewrite sub_len by lia. split_and!; [lia|lia|unfold octets; lia|by apply bytes_ok_sub|].
  replace (len (a_Data a) - 2 - (2 + octets - 2)) with (len pad) by lia. rewrite <- (proj1 Hz eq_refl).
  replace (be_bytes 2 bits) with s.
  2: { rewrite <- (be_bytes_be_decode s Hsok) at 1. by replace (length s) with 2%nat by (unfold len in Hs; lia). }
  unfold s, pad. rewrite !sub_split by lia. rewrite sub_to_end by lia. by rewrite drop_0.
Qed.

Lemma KDFValue_safe a : bytes_ok (a_Data a) -> safe (KDFValue a) is_u16.
Proof. intros Hd. unfold KDFValue. go_safe; done. Qed.
Lemma BiddingValue_safe a : bytes_ok (a_Data a) -> returns (BiddingValue a).
Proof. intros Hd. unfold returns, BiddingValue. go_safe; done. Qed.
Lemma reserved2_safe a :
  bytes_ok (a_Data a) ->
  returns (if negb (len (a_Data a) =? 2) then Errorf Eap_ErrInvalidAttribute else requireReservedZero (a_Data a)).
Proof. intros. case_match; [done|]. by apply requireReservedZero_safe. Qed.
Lemma EncrDataValue_safe a : bytes_ok (a_Data a) -> returns (EncrDataValue a).
Proof.
  intros Hd. unfold returns, EncrDataValue. go_case H0; [done|].
  eapply safe_call; [by apply requireReservedZero_safe|]. intros _ _. apply safe_slice_from; [done|lia|done].
Qed.
Lemma CheckcodeValue_safe a :
  bytes_ok (a_Data a) -> safe (CheckcodeValue a) (fun v =>
    (v = [] /\ a_Data a = [0; 0]) \/ (len v = 20 /\ a_Data a = [0; 0] ++ v)).
Proof.
  intros Hd. unfold CheckcodeValue.
  assert (Hr : (len (a_Data a) =? 2) = true \/ (len (a_Data a) =? 22) = true ->
    safe (requireReservedZero (a_Data a)) (fun _ => exists q, a_Data a = [0; 0] ++ q)).
  { intros Hl. unfold requireReservedZero. go_case H0; [lia|]. rewrite slice_Ok by lia. cbn [bind].
    pose proof (requireZeroBytes_Ok (sub (a_Data a) 0 2)) as Hz.
    pose proof (requireZeroBytes_returns (sub (a_Data a) 0 2)) as Hzr.
    destruct (requireZeroBytes _) as [[]| | |]; try done. cbn [safe].
    exists (drop 2 (a_Data a)). specialize (proj1 Hz eq_refl) as E. rewrite sub_len in E by lia.
    unfold sub in E. rewrite drop_0 in E. rewrite <- (take_drop 2 (a_Data a)) at 1. change (take 2 (a_Data a)) with (take (Z.to_nat (2 - 0)) (a_Data a)).
    by rewrite E. }
  go_case H2.
  - eapply safe_call; [apply Hr; by left|]. intros _ [q Hq]. cbn [safe]. left. split; [done|].
    assert (len q = 0) as ->%len_zero by (rewrite Hq, len_app in H2; len_lia). by rewrite Hq.
  - go_case H22; [|done]. eapply safe_call; [apply Hr; by right|]. intros _ [q Hq].
    rewrite Hq in *. rewrite (slice_from_eq _ [0; 0] q) by done. cbn [safe]. right. split; [len_lia|done].
Qed.

Lemma ValidateAttribute_returns a : bytes_ok (a_Data a) -> returns (ValidateAttribute a).
Proof.
  intros Hd. unfold ValidateAttribute.
  assert (Hig : forall A (r : result A) Q, safe r Q -> returns (let! _ := r in Ok (E := error) tt)).
  { intros A r Q Hs. eapply safe_call; [exact Hs|done]. }
  repeat case_match; first [done | by apply requireZeroBytes_returns | by apply reserved2_safe
    | eapply Hig; first [by apply fixed16Values_safe | by apply RESValue_safe | by apply fixedValueExact_safe
        | by apply directUint16Value_safe | by apply VersionListValue_safe | by apply KDFValue_safe
        | by apply EncrDataValue_safe | by apply CheckcodeValue_safe | by apply BiddingValue_safe
        | by apply VariableValue_safe]].
Qed.

Lemma ValidateAttributes_returns attrs : Forall Attribute_ok attrs -> returns (ValidateAttributes attrs).
Proof.
  induction 1 as [|a attrs [_ Hd] _ IH]; [done|]. cbn [ValidateAttributes].
  eapply safe_call; [by apply ValidateAttribute_returns|]. by intros.
Qed.

(** ** Finding and classifying *)
Definition of_type (t : Z) (attrs : list Attribute) : list Attribute := filter (fun a => a_Type a = t) attrs.

Lemma find_single_loop_spec attrs t out n :
  find_single_loop attrs t out n = (List.last (of_type t attrs) out, n + len (of_type t attrs)).
Proof.
  revert out n. induction attrs as [|a attrs IH]; intros out n; cbn [find_single_loop].
  - cbn. by rewrite Z.add_0_r.
  - unfold of_type. rewrite filter_cons. fold (of_type t attrs).
    destruct (Z.eqb_spec (a_Type a) t) as [Ha|Ha]; cbn [negb].
    + rewrite decide_True by done. rewrite IH, len_cons, Z.add_assoc. f_equal.
      destruct (of_type t attrs) as [|x l] eqn:Hl; [done|]. cbn. clear. revert x. induction l; intros; [done|]. apply IHl.
    + by rewrite decide_False.
Qed.

Lemma FindSingleAttribute_spec attrs t :
  FindSingleAttribute attrs t =
  match of_type t attrs with
  | [] => (false, Ok zeroAttribute)
  | [a] => (true, Ok a)
  | _ => (true, Errorf Eap_ErrInvalidAttribute)
  end.
Proof.
  unfold FindSingleAttribute. rewrite find_single_loop_spec.
  destruct (of_type t attrs) as [|a [|b l]]; [done..|]. rewrite !len_cons. pose proof (len_nonneg l).
  by do 2 go_if.
Qed.

Lemma single_value_spec {A} attrs t (zero : A) get :
  single_value attrs t zero get =
  match of_type t attrs with
  | [] => (false, Ok zero)
  | [a] => (true, get a)
  | _ => (true, Errorf Eap_ErrInvalidAttribute)
  end.
Proof. unfold single_value. rewrite FindSingleAttribute_spec. by destruct (of_type t attrs) as [|? [|? ?]]. Qed.

Lemma of_type_ok t attrs : Forall Attribute_ok attrs -> Forall Attribute_ok (of_type t attrs).
Proof. intros H. apply Forall_forall. intros a [_ Ha]%list_elem_of_filter. by eapply Forall_forall in H. Qed.

(** [required] of a single value: exactly one attribute of the type. *)
Lemma required_single_spec {A} attrs t (zero : A) get v :
  required (single_value attrs t zero get) = Ok v <-> exists a, of_type t attrs = [a] /\ get a = Ok v.
Proof.
  unfold required. rewrite single_value_spec. destruct (of_type t attrs) as [|a [|b l]]; cbn.
  - split; [done|by intros (? & ? & _)].
  - destruct (get a) eqn:Hg; cbn; split; [intros [= <-]; eauto|intros (? & [= <-] & ?); congruence|done|
      intros (? & [= <-] & ?); congruence|done|intros (? & [= <-] & ?); congruence|done|intros (? & [= <-] & ?); congruence].
  - split; [done|by intros (? & ? & _)].
Qed.
Lemma required_single_returns {A} attrs t (zero : A) get :
  Forall Attribute_ok attrs -> (forall a, bytes_ok (a_Data a) -> returns (get a)) ->
  returns (required (single_value attrs t zero get)).
Proof.
  intros Hok%(of_type_ok t) Hg. unfold required. rewrite single_value_spec.
  destruct (of_type t attrs) as [|a [|b l]]; try done. apply Forall_cons in Hok as [[_ Ha] _].
  eapply safe_call; [by apply Hg|]. by intros.
Qed.

Lemma kdfValues_safe attrs values :
  Forall Attribute_ok attrs -> Forall is_u16 values -> safe (kdfValues_loop attrs values) (Forall is_u16).
Proof.
  intros Hok. revert values. induction Hok as [|a attrs [_ Ha] _ IH]; intros values Hv; [done|].
  cbn [kdfValues_loop]. case_match; [by apply IH|]. eapply safe_call; [by apply KDFValue_safe|].
  intros v ?. apply IH. by apply Forall_snoc_2.
Qed.

Lemma ParseAUTS_spec auts fields :
  ParseAUTS auts = Ok fields <-> AUTSFields_Bytes fields = Ok auts.
Proof.
  unfold ParseAUTS, AUTSFields_Bytes, AUTSLength, AKLength, AUTNMACLength. destruct fields as [s m]. cbn. split.
  - go_case Hl; [done|]. unfold slice_from. rewrite !slice_Ok by lia. cbn [bind]. intros [= <- <-].
    rewrite !sub_len by lia. do 2 go_if. rewrite sub_split, sub_to_end by lia. by rewrite drop_0.
  - go_case H1; [done|]. go_case H2; [done|]. intros [= <-]. rewrite len_app. go_if.
    rewrite (slice_eq _ [] s m) by (done || len_lia). cbn [bind].
    by rewrite (slice_from_eq _ s m) by (done || len_lia).
Qed.
Lemma ParseAUTS_returns auts : returns (ParseAUTS auts).
Proof.
  unfold returns, ParseAUTS, AUTSLength, AKLength. go_case Hl; [done|]. unfold slice_from.
  by rewrite !slice_Ok by lia.
Qed.

Lemma sync_single_value attrs :
  required (FindSingleAttribute attrs AttributeAUTS) = required (single_value attrs AttributeAUTS zeroAttribute (fun a => Ok a)).
Proof. rewrite single_value_spec, FindSingleAttribute_spec. by destruct (of_type _ _) as [|? [|? ?]]. Qed.

Lemma ParseSynchronizationFailureResponse_safe p :
  Packet_ok p -> safe (ParseSynchronizationFailureResponse p) (fun info =>
    exists a, of_type AttributeAUTS (pk_Attributes p) = [a] /\ AUTSValue a = Ok (sf_AUTS info) /\
      AUTSFields_Bytes (sf_AUTSFields info) = Ok (sf_AUTS info) /\ len (sf_AUTS info) = 14).
Proof.
  intros (_ & _ & _ & _ & Ha & _). unfold ParseSynchronizationFailureResponse. do 2 (case_match; [done|]).
  rewrite sync_single_value. pose proof (required_single_returns (pk_Attributes p) AttributeAUTS zeroAttribute
    (fun a => Ok a) Ha ltac:(done)) as Hr. pose proof (fun v => required_single_spec (pk_Attributes p) AttributeAUTS
    zeroAttribute (fun a => Ok a) v) as Hs.
  destruct (required _) as [a| | |]; try done. destruct (proj1 (Hs a) eq_refl) as (a' & Hof & [= ->]). cbn [bind].
  assert (Hda : bytes_ok (a_Data a)).
  { apply (of_type_ok AttributeAUTS) in Ha. rewrite Hof in Ha. by apply Forall_cons in Ha as [[_ ?] _]. }
  pose proof (fixedValueExact_safe a AUTSLength Hda) as Hv. unfold AUTSValue in *.
  destruct (fixedValueExact a AUTSLength) as [auts| | |] eqn:He; try done. cbn [bind]. destruct Hv as [Hl _].
  pose proof (ParseAUTS_returns auts) as Hpr. destruct (ParseAUTS auts) as [f| | |] eqn:Hp; try done. cbn [bind].
  eapply safe_call; [by apply (kdfValues_safe _ [])|]. intros kdfs _. case_match; [done|]. cbn.
  exists a. apply ParseAUTS_spec in Hp. by split_and!.
Qed.

Lemma ParseClientErrorResponse_returns p : Packet_ok p -> returns (ParseClientErrorResponse p).
Proof.
  intros (_ & _ & _ & _ & Ha & _). unfold ParseClientErrorResponse. do 2 (case_match; [done|]).
  apply required_single_returns; [done|]. intros a Hd. by eapply safe_returns, directUint16Value_safe.
Qed.

Lemma eap_type_nonzero p : eap_type p <> 0.
Proof. unfold eap_type. by destruct (Z.eqb_spec (pk_EapType p) 0). Qed.
Lemma eap_type_id p : pk_EapType p <> 0 -> eap_type p = pk_EapType p.
Proof. intros H. unfold eap_type. by apply Z.eqb_neq in H as ->. Qed.

Lemma received_idem p : received (received p) = received p.
Proof.
  destruct ((pk_Code p =? CodeSuccess) || (pk_Code p =? CodeFailure)) eqn:Ht.
  - assert (E : received p = mkPacket (pk_Code p) (pk_Identifier p) 0 0 [] []) by (unfold received; by rewrite Ht).
    rewrite E. unfold received. cbn [pk_Code pk_Identifier]. by rewrite Ht.
  - pose proof (eap_type_nonzero p) as Hn. unfold received at 2 3. rewrite Ht.
    destruct ((eap_type p =? TypeAKA) || (eap_type p =? TypeAKAPrime)) eqn:Ha;
      unfold received; rewrite (eap_type_id (mkPacket _ _ (eap_type p) _ _ _)) by exact Hn;
      cbn [pk_Code pk_Identifier pk_EapType pk_Subtype pk_Attributes pk_Data]; rewrite Ht, Ha; [|done].
    f_equal. rewrite <- list_fmap_compose. apply list_fmap_ext. intros. apply wire_wire.
Qed.

(** ** Properties *)

(** The EAP packet codec: for every packet the format carries (a terminal
    packet, an EAP-AKA packet with attributes, another method with data),
    [ParsePacket] reads what [Packet.MarshalBinary] wrote as the packet with its
    type default and the attribute padding filled in; reading again after a
    second trip changes nothing. *)
Theorem eap_packet_roundtrip p b :
  Packet_ok p -> carried p -> Packet_MarshalBinary p = Ok b ->
  ParsePacket b = Ok (received p) /\ received (received p) = received p.
Proof.
  intros Hok Hc Hm. split; [by apply Packet_roundtrip|apply received_idem].
Qed.

Definition sample_packet : Packet :=
  mkPacket CodeResponse 7 0 SubtypeChallenge [RESAttribute [1; 2; 3; 4; 5]; IdentityAttribute [97; 98; 99]] [].

Lemma eap_packet_roundtrip_witness :
  exists b, Packet_MarshalBinary sample_packet = Ok b /\ len b = 28 /\
    ParsePacket b = Ok (received sample_packet) /\ received (received sample_packet) = received sample_packet.
Proof.
  eexists. split; [vm_compute; reflexivity|]. split; [reflexivity|].
  apply eap_packet_roundtrip; [by_decide| |reflexivity]. right. right. left. split; [left|]; reflexivity.
Defined.

(** [ParsePacket] and [ValidateAttributes] are total on every datagram, and an
    accepted packet is well formed: an EAP code, attributes of at most 1018
    octets that are aligned, so that marshalling them gives the octets that were
    parsed. *)
Theorem ParsePacket_total data :
  bytes_ok data ->
  returns (ParsePacket data) /\
  forall p, ParsePacket data = Ok p ->
    Packet_ok p /\ isEAPCode (pk_Code p) = true /\ wire <$> pk_Attributes p = pk_Attributes p /\
    MarshalAttributes (pk_Attributes p) = Ok (concat (enc_attribute <$> pk_Attributes p)) /\
    returns (ValidateAttributes (pk_Attributes p)).
Proof.
  intros Hd. pose proof (ParsePacket_safe data Hd) as Hs. split; [by eapply safe_returns|].
  intros p Hp. rewrite Hp in Hs. destruct Hs as (Hok & Hc & Hf & Hw). split_and!; try done.
  - by apply marshal_attrs_loop_spec.
  - apply ValidateAttributes_returns, Hok.
Qed.

Lemma ParsePacket_total_witness : returns (ParsePacket [1; 9; 0; 12; 23; 1; 0; 0; 134; 1; 0; 0]).
Proof. apply (ParsePacket_total [1; 9; 0; 12; 23; 1; 0; 0; 134; 1; 0; 0]). by_decide. Defined.

(** Every attribute value survives the wire: the accessor reads from the padded
    attribute exactly what the constructor was given (fixed-size values, variable
    values, RES of 4 to 16 octets with its bit count, lists of RAND or AUTN,
    version lists, 16-bit values). *)
Theorem attribute_values_roundtrip :
  (forall t v, fixedValueExact (wire (FixedAttribute t v)) (len v) = Ok v) /\
  (forall t v, len v <= 0xffff -> VariableValue (wire (VariableAttribute t v)) = Ok v) /\
  (forall res, 4 <= len res <= 16 -> RESValue (wire (RESAttribute res)) = Ok (res, 8 * len res)) /\
  (forall t rs, Forall (fun r => len r = 16) rs -> rs <> [] ->
     fixed16Values (wire (FixedAttribute t (concat rs))) = Ok rs) /\
  (forall vs, Forall is_u16 vs -> 1 <= len vs <= 32767 -> VersionListValue (wire (VersionListAttribute vs)) = Ok vs) /\
  (forall t v, is_u16 v -> directUint16Value (wire (mkAttribute t (be_bytes 2 v))) = Ok v).
Proof.
  split_and!; [exact fixedValueExact_wire|exact VariableValue_wire|exact RESValue_wire|exact fixed16Values_wire
    |exact VersionListValue_wire|exact directUint16_wire].
Qed.

(** [RESValue] never panics; what it accepts is a bit count between 32 and 128,
    exactly the octets those bits need, and zero padding. *)
Theorem RESValue_sound a :
  bytes_ok (a_Data a) ->
  returns (RESValue a) /\
  forall res bits, RESValue a = Ok (res, bits) ->
    32 <= bits <= 128 /\ len res = (bits + 7) / 8 /\ bytes_ok res /\
    a_Data a = be_bytes 2 bits ++ res ++ zeros (len (a_Data a) - 2 - len res).
Proof.
  intros Hd%RESValue_safe. split; [by eapply safe_returns|]. intros res bits H. by rewrite H in Hd.
Qed.

Lemma RESValue_sound_witness :
  RESValue (mkAttribute AttributeRES [0; 33; 1; 2; 3; 4; 128; 0]) = Errorf Eap_ErrInvalidAttribute /\
  RESValue (mkAttribute AttributeRES [0; 33; 1; 2; 3; 4; 128; 0; 0; 0]) = Ok ([1; 2; 3; 4; 128], 33) /\
  len [1; 2; 3; 4; 128] = (33 + 7) / 8.
Proof.
  split; [reflexivity|]. split; [reflexivity|].
  apply (RESValue_sound (mkAttribute AttributeRES [0; 33; 1; 2; 3; 4; 128; 0; 0; 0])); [by_decide|reflexivity].
Defined.

(** AUTS splits and joins without loss, and the sequence number is concealed by
    exclusive or: revealing SQN with the same AK gives it back. *)
Theorem auts_correct :
  (forall auts fields, ParseAUTS auts = Ok fields <-> AUTSFields_Bytes fields = Ok auts) /\
  (forall auts, len auts = 14 <-> exists fields, ParseAUTS auts = Ok fields) /\
  (forall sqn ak amf mac, len sqn = 6 -> len ak = 6 ->
     AUTNFields_SQN (mkAUTNFields (xor_bytes sqn ak) amf mac) ak = Ok sqn) /\
  (forall sqn ak macs, len sqn = 6 -> len ak = 6 ->
     AUTSFields_SQNMS (mkAUTSFields (xor_bytes sqn ak) macs) ak = Ok sqn).
Proof.
  assert (Hxl : forall x ak : bytes, len x = 6 -> len ak = 6 -> len (xor_bytes x ak) = 6).
  { intros x ak ? ?. unfold xor_bytes, len in *. rewrite length_zip_with. lia. }
  assert (Hxx : forall x ak : bytes, len x = len ak -> xor_bytes (xor_bytes x ak) ak = x).
  { unfold xor_bytes. induction x as [|b x IH]; intros [|k ak] Hl; try done.
    cbn. rewrite Z.lxor_assoc, Z.lxor_nilpotent, Z.lxor_0_r. f_equal. apply IH. len_lia. }
  split_and!.
  - exact ParseAUTS_spec.
  - intros auts. unfold ParseAUTS, AUTSLength, AKLength. split.
    + intros Hl. go_if. unfold slice_from. rewrite !slice_Ok by lia. by eexists.
    + intros [f Hf]. go_case_in Hf; [done|lia].
  - intros sqn ak amf mac Hs Ha. unfold AUTNFields_SQN. cbn. rewrite Hxl by done. unfold AKLength. rewrite Ha.
    cbn. by rewrite Hxx by lia.
  - intros sqn ak macs Hs Ha. unfold AUTSFields_SQNMS. cbn. rewrite Hxl by done. unfold AKLength. rewrite Ha.
    cbn. by rewrite Hxx by lia.
Qed.

(** [ClassifyAKARecoveryPacket] is total and its decision is the one the packet
    calls for: it recognises exactly EAP-Failure and the synchronisation-failure,
    authentication-reject and client-error responses; it resynchronises only on
    one well-formed AT_AUTS, which it returns, and retries only on the client
    errors "insufficient challenges" and "RAND not fresh". *)
Theorem ClassifyAKARecoveryPacket_correct p :
  Packet_ok p ->
  let '(recognised, r) := ClassifyAKARecoveryPacket p in
  returns r /\
  (recognised = true <-> pk_Code p = CodeFailure \/ (pk_Code p = CodeResponse /\
     (pk_Subtype p = SubtypeSynchronizationFailure \/ pk_Subtype p = SubtypeAuthenticationReject \/
      pk_Subtype p = SubtypeClientError))) /\
  forall d, r = Ok d ->
    match rd_Action d with
    | AKARecoveryNone => recognised = false
    | AKARecoveryResync => pk_Code p = CodeResponse /\ pk_Subtype p = SubtypeSynchronizationFailure /\
        exists a, of_type AttributeAUTS (pk_Attributes p) = [a] /\ AUTSValue a = Ok (sf_AUTS (rd_SyncInfo d)) /\
          AUTSFields_Bytes (sf_AUTSFields (rd_SyncInfo d)) = Ok (sf_AUTS (rd_SyncInfo d)) /\
          len (sf_AUTS (rd_SyncInfo d)) = 14
    | AKARecoveryRetry => pk_Code p = CodeResponse /\ pk_Subtype p = SubtypeClientError /\
        (rd_ClientErrorCode d = ClientErrorInsufficientChallenges \/ rd_ClientErrorCode d = ClientErrorRANDNotFresh)
    | AKARecoveryFail => pk_Code p = CodeFailure \/
        (pk_Code p = CodeResponse /\ pk_Subtype p = SubtypeAuthenticationReject) \/
        (pk_Code p = CodeResponse /\ pk_Subtype p = SubtypeClientError /\
         rd_ClientErrorCode d <> ClientErrorInsufficientChallenges /\ rd_ClientErrorCode d <> ClientErrorRANDNotFresh)
    end.
Proof.
  intros Hok. unfold ClassifyAKARecoveryPacket.
  destruct (Z.eqb_spec (pk_Code p) CodeFailure) as [Hf|Hf].
  { split; [done|]. split; [tauto|]. intros d [= <-]. by left. }
  destruct (Z.eqb_spec (pk_Code p) CodeResponse) as [Hr|Hr]; cbn [negb].
  2: { split; [done|]. split; [split; [done|tauto]|]. by intros d [= <-]. }
  destruct (Z.eqb_spec (pk_Subtype p) SubtypeSynchronizationFailure) as [H1|H1].
  { pose proof (ParseSynchronizationFailureResponse_safe p Hok) as Hs.
    destruct (ParseSynchronizationFailureResponse p) as [info| | |]; try done; cbn [bind];
      (split; [done|]; split; [tauto|]; intros d; first [done | intros [= <-]; by split_and!]). }
  destruct (Z.eqb_spec (pk_Subtype p) SubtypeAuthenticationReject) as [H2|H2].
  { destruct (negb (isAKAType (pk_EapType p))); (split; [done|]; split; [tauto|]; intros d; first [done | intros [= <-]; cbn; tauto]). }
  destruct (Z.eqb_spec (pk_Subtype p) SubtypeClientError) as [H3|H3].
  2: { split; [done|]. split; [split; [done|tauto]|]. by intros d [= <-]. }
  pose proof (ParseClientErrorResponse_returns p Hok) as Hs.
  destruct (ParseClientErrorResponse p) as [code| | |]; try done; cbn [bind];
    (split; [done|]; split; [tauto|]; intros d; first [done | intros [= <-]]).
  cbn [rd_Action rd_ClientErrorCode]. unfold clientErrorRecoveryAction.
  destruct ((code =? _) || _) eqn:Hc; [split_and!; try done; lia|]. right. right. split_and!; try done; lia.
Qed.

Lemma ClassifyAKARecoveryPacket_correct_witness :
  returns (snd (ClassifyAKARecoveryPacket
    (mkPacket CodeResponse 3 TypeAKA SubtypeSynchronizationFailure [AUTSAttribute (replicate 14 5)] []))).
Proof.
  apply (ClassifyAKARecoveryPacket_correct
    (mkPacket CodeResponse 3 TypeAKA SubtypeSynchronizationFailure [AUTSAttribute (replicate 14 5)] [])).
  by_decide.
Defined.

(** [VerifyCheckcodeAttribute] never panics and accepts exactly an empty checkcode
    when no identity packets were exchanged, or a 20-octet checkcode that is the
    SHA-1 of the packets. *)
Theorem VerifyCheckcodeAttribute_correct (C : Crypto) (L : CryptoLaws C) a packets :
  bytes_ok (a_Data a) ->
  returns (VerifyCheckcodeAttribute a packets) /\
  (VerifyCheckcodeAttribute a packets = Ok tt <->
   (packets = [] /\ a_Data a = [0; 0]) \/ a_Data a = [0; 0] ++ IdentityCheckcode packets).
Proof.
  intros Hd. unfold VerifyCheckcodeAttribute.
  assert (Hlen : len (IdentityCheckcode packets) = 20) by apply sha1_len.
  pose proof (CheckcodeValue_safe a Hd) as Hs. destruct (CheckcodeValue a) as [v|e| |] eqn:Hv; try done; cbn [bind].
  - destruct Hs as [[-> Ha]|[Hl Ha]].
    + change (len [] =? 0) with true. cbv iota. destruct (len packets =? 0) eqn:Hp.
      * split; [done|]. split; [|done]. intros _. left. apply Z.eqb_eq, len_zero in Hp. done.
      * split; [done|]. split; [done|]. intros [[-> _]|Hx]; [done|]. rewrite Ha in Hx. injection Hx as Hx.
        rewrite <- Hx in Hlen. done.
    + rewrite Hl. change (20 =? 0) with false. cbv iota. unfold bytesEqual. go_case He.
      * apply negb_true_iff, bool_decide_eq_false in He. split; [done|]. split; [done|].
        rewrite Ha. intros [[_ Hx]|Hx]; [|by injection Hx as Hx]. injection Hx as ->. done.
      * apply negb_false_iff, bool_decide_eq_true in He as ->. split; [done|]. split; [by right|done].
  - split; [done|]. split; [done|]. intros Hx. exfalso. unfold CheckcodeValue in Hv.
    destruct Hx as [[_ Ha]|Ha]; rewrite Ha in Hv; [done|].
    rewrite len_app, Hlen in Hv. cbn [Z.eqb] in Hv.
    replace (len [0; 0] + 20 =? 2) with false in Hv by done. replace (len [0; 0] + 20 =? 22) with true in Hv by done.
    rewrite requireReservedZero_framed in Hv. cbn [bind] in Hv.
    by rewrite (slice_from_eq _ [0; 0] (IdentityCheckcode packets)) in Hv.
Qed.

Lemma VerifyCheckcodeAttribute_correct_witness :
  VerifyCheckcodeAttribute (C := toy_crypto) (CheckcodeAttributeForPackets [[1; 2]; [3]]) [[1; 2]; [3]] = Ok tt.
Proof.
  apply (VerifyCheckcodeAttribute_correct toy_crypto toy_crypto_laws); [by_decide|]. right. reflexivity.
Defined.

(** The five octets of an EAP-Request/Identity, a packet RFC 3748 allows, are
    refused: the check for eight octets comes before the test of the method. *)
Example ParsePacket_refuses_short_methods :
  ParsePacket [1; 7; 0; 5; 1] = Errorf Eap_ErrInvalidPacket.
Proof. reflexivity. Qed.
