(* ===== verification/EapKeys.v ===== *)
(** * The keys of EAP-AKA and EAP-AKA' (engine/swu/eapaka/crypto.go)

    The FIPS 186-2 generator of EAP-AKA with its SHA-1 compression function
    written out, PRF' of EAP-AKA', and the derivation of the full and the fast
    re-authentication keys.  A Go [string] is its octets; [sim.AKAResult] is
    what the SIM computed. *)
From S2P Require Import Prelude Errors Crypto Keys EapAka.

Definition KeyLengthCK := 16.
Definition KeyLengthIK := 16.
Definition KeyLengthKEncr := 16.
Definition KeyLengthKAut := 16.
Definition KeyLengthAKAPrimeKAut := 32.
Definition KeyLengthKRe := 32.
Definition KeyLengthMSK := 64.
Definition KeyLengthEMSK := 64.

(** [sim.AKAResult] *)
Record AKAResult := mkAKAResult { aka_RES : bytes; aka_CK : bytes; aka_IK : bytes; aka_AUTS : bytes }.

Record Keys := mkKeys {
  ks_MK : bytes;
  ks_KEncr : bytes;
  ks_KAut : bytes;
  ks_KRe : bytes;
  ks_MSK : bytes;
  ks_EMSK : bytes;
  ks_CKPrime : bytes;
  ks_IKPrime : bytes
}.

(** ** The FIPS 186-2 generator *)
Definition bitsRotateLeft32 (v n : Z) : Z := Z.lor (to_u32 (Z.shiftl v n)) (Z.shiftr v (32 - n)).

(** [w[i] = rotl(w[i-3]^w[i-8]^w[i-14]^w[i-16], 1)] *)
Definition schedule_step (w : list Z) (i : nat) : list Z :=
  let g k := nth (i - k) w 0 in
  w ++ [bitsRotateLeft32 (Z.lxor (Z.lxor (Z.lxor (g 3%nat) (g 8%nat)) (g 14%nat)) (g 16%nat)) 1].

(** One of the 80 rounds on [(a, b, c, d, e)]. *)
Definition sha1_round (w : list Z) (s : Z * Z * Z * Z * Z) (i : nat) : Z * Z * Z * Z * Z :=
  let '(a, b, c, d, e) := s in
  let '(f, k) :=
    if (i <? 20)%nat then (Z.lor (Z.land b c) (Z.land (Z.lxor b 0xffffffff) d), 0x5A827999)
    else if (i <? 40)%nat then (Z.lxor (Z.lxor b c) d, 0x6ED9EBA1)
    else if (i <? 60)%nat then (Z.lor (Z.lor (Z.land b c) (Z.land b d)) (Z.land c d), 0x8F1BBCDC)
    else (Z.lxor (Z.lxor b c) d, 0xCA62C1D6) in
  let temp := to_u32 (bitsRotateLeft32 a 5 + f + e + k + nth i w 0) in
  (temp, a, bitsRotateLeft32 b 30, c, d).

Definition fips1862G (xval : bytes) : bytes :=
  let block := take 20 xval ++ replicate (64 - length (take 20 xval)) 0 in
  let '(h0, h1, h2, h3, h4) := (0x67452301, 0xEFCDAB89, 0x98BADCFE, 0x10325476, 0xC3D2E1F0) in
  let w := (fun i => be_decode (take 4 (drop (i * 4) block))) <$> seq 0 16 in
  let w := fold_left schedule_step (seq 16 64) w in
  let '(a, b, c, d, e) := fold_left (sha1_round w) (seq 0 80) (h0, h1, h2, h3, h4) in
  be_bytes 4 (to_u32 (h0 + a)) ++ be_bytes 4 (to_u32 (h1 + b)) ++ be_bytes 4 (to_u32 (h2 + c)) ++
  be_bytes 4 (to_u32 (h3 + d)) ++ be_bytes 4 (to_u32 (h4 + e)).

(** The loop over [i] from 19 down; [carry] is a [uint16]. *)
Fixpoint add160_loop (i : nat) (a b : bytes) (carry : Z) (out : bytes) : result bytes :=
  match i with
  | O => Ok out
  | S j =>
      let! x := at_ a (Z.of_nat j) in
      let! y := at_ b (Z.of_nat j) in
      let sum := to_u16 (x + y + carry) in
      add160_loop j a b (Z.shiftr sum 8) (to_u8 sum :: out)
  end.
Definition add160 (a b : bytes) (carry : Z) : result bytes := add160_loop 20 a b carry [].

(** The inner loop, [i] turns left, and the outer loop. *)
Fixpoint fips_inner (i : nat) (length : Z) (xkey out : bytes) : result (bytes * bytes) :=
  match i with
  | O => Ok (xkey, out)
  | S i' =>
      if len out <? length then
        let w := fips1862G xkey in
        let! xkey' := add160 xkey w 1 in
        fips_inner i' length xkey' (out ++ w)
      else Ok (xkey, out)
  end.
Fixpoint fips_outer (fuel : nat) (length : Z) (xkey out : bytes) : result bytes :=
  match fuel with
  | O => OutOfFuel
  | S fuel' =>
      if len out <? length then
        let! r := fips_inner 2 length xkey out in
        let '(xkey, out) := r in
        fips_outer fuel' length xkey out
      else Ok out
  end.
Definition fips1862PRF (seed : bytes) (length : Z) : result bytes :=
  let xkey := take 20 seed ++ replicate (20 - List.length (take 20 seed)) 0 in
  let! out := fips_outer (S (Z.to_nat length)) length xkey [] in
  slice out 0 length.

(** ** PRF' and the key derivations *)
Definition validateCKIK (aka : AKAResult) : result unit :=
  if negb (len (aka_CK aka) =? KeyLengthCK) then Errorf ErrInvalidKeyMaterial else
  if negb (len (aka_IK aka) =? KeyLengthIK) then Errorf ErrInvalidKeyMaterial else Ok tt.

Definition validateRES (res : bytes) : result unit :=
  let bits := len res * 8 in
  if (bits <? RESMinBits) || (RESMaxBits <? bits) then Errorf ErrInvalidKeyMaterial else Ok tt.

Definition kdfInput (fc : Z) (params : list bytes) : bytes :=
  fold_left (fun out param => out ++ param ++ be_bytes 2 (to_u16 (len param))) params [fc].

(** The octets of ["EAP-AKA'"] and of ["EAP-AKA' re-auth"]. *)
Definition eap_aka_prime : bytes := [69; 65; 80; 45; 65; 75; 65; 39].
Definition eap_aka_prime_reauth : bytes := eap_aka_prime ++ [32; 114; 101; 45; 97; 117; 116; 104].

Section derive.
Context {C : Crypto}.

Fixpoint prfPrime_loop (fuel : nat) (key seed : bytes) (length : Z) (counter : Z) (out prev : bytes) : result bytes :=
  match fuel with
  | O => OutOfFuel
  | S fuel' =>
      if len out <? length then
        let prev := hmac_Sum SHA256 key (prev ++ seed ++ [counter]) in
        prfPrime_loop fuel' key seed length (to_u8 (counter + 1)) (out ++ prev) prev
      else slice out 0 length
  end.
Definition prfPrimeSHA256 (key seed : bytes) (length : Z) : result bytes :=
  prfPrime_loop (S (Z.to_nat length)) key seed length 1 [] [].

Definition deriveAKAPrimeCKIK (networkName sqnXorAK : bytes) (aka : AKAResult) : bytes :=
  hmac_Sum SHA256 (aka_CK aka ++ aka_IK aka) (kdfInput 0x20 [networkName; sqnXorAK]).

Definition DeriveKeys (identity : bytes) (aka : AKAResult) : result Keys :=
  let! _ := validateCKIK aka in
  let mkSum := sha1_Sum (identity ++ aka_IK aka ++ aka_CK aka) in
  let! stream := fips1862PRF mkSum (KeyLengthKEncr + KeyLengthKAut + KeyLengthMSK + KeyLengthEMSK) in
  let! kEncr := slice stream 0 KeyLengthKEncr in
  let! kAut := slice stream KeyLengthKEncr (KeyLengthKEncr + KeyLengthKAut) in
  let! msk := slice stream (KeyLengthKEncr + KeyLengthKAut) (KeyLengthKEncr + KeyLengthKAut + KeyLengthMSK) in
  let! emsk := slice_from stream (KeyLengthKEncr + KeyLengthKAut + KeyLengthMSK) in
  Ok (mkKeys mkSum kEncr kAut [] msk emsk [] []).

Definition DeriveAKAPrimeKeys (identity networkName autn16 : bytes) (aka : AKAResult) : result Keys :=
  if len identity =? 0 then Errorf ErrInvalidKeyMaterial else
  if len networkName =? 0 then Errorf ErrInvalidKeyMaterial else
  if negb (len autn16 =? AUTNLength) then Errorf ErrInvalidKeyMaterial else
  let! _ := validateCKIK aka in
  if 0xffff <? len networkName then Errorf ErrInvalidKeyMaterial else
  let! sqn := slice autn16 0 6 in
  let ckPrimeIKPrime := deriveAKAPrimeCKIK networkName sqn aka in
  let! ckPrime := slice ckPrimeIKPrime 0 16 in
  let! ikPrime := slice_from ckPrimeIKPrime 16 in
  let key := ikPrime ++ ckPrime in
  let seed := eap_aka_prime ++ identity in
  let! stream := prfPrimeSHA256 key seed (KeyLengthKEncr + KeyLengthAKAPrimeKAut + KeyLengthKRe + KeyLengthMSK + KeyLengthEMSK) in
  let offset := 0 in
  let! kEncr := slice stream offset (offset + KeyLengthKEncr) in
  let offset := offset + KeyLengthKEncr in
  let! kAut := slice stream offset (offset + KeyLengthAKAPrimeKAut) in
  let offset := offset + KeyLengthAKAPrimeKAut in
  let! kRe := slice stream offset (offset + KeyLengthKRe) in
  let offset := offset + KeyLengthKRe in
  let! msk := slice stream offset (offset + KeyLengthMSK) in
  let offset := offset + KeyLengthMSK in
  let! emsk := slice stream offset (offset + KeyLengthEMSK) in
  Ok (mkKeys stream kEncr kAut kRe msk emsk ckPrime ikPrime).

Definition reauthenticationKeys (previous : Keys) (mk stream : bytes) : result Keys :=
  let! msk := slice stream 0 KeyLengthMSK in
  let! emsk := slice stream KeyLengthMSK (KeyLengthMSK + KeyLengthEMSK) in
  Ok (mkKeys mk (ks_KEncr previous) (ks_KAut previous) (ks_KRe previous) msk emsk (ks_CKPrime previous) (ks_IKPrime previous)).

Definition DeriveReauthenticationKeys (identity : bytes) (previous : Keys) (counter : Z) (nonceS : bytes) : result Keys :=
  if len identity =? 0 then Errorf ErrInvalidKeyMaterial else
  if negb (len (ks_KEncr previous) =? KeyLengthKEncr) then Errorf ErrInvalidKeyMaterial else
  if negb (len nonceS =? 16) then Errorf ErrInvalidReauth else
  let counterBytes := be_bytes 2 counter in
  if 0 <? len (ks_KRe previous) then
    if negb (len (ks_KRe previous) =? KeyLengthKRe) then Errorf ErrInvalidKeyMaterial else
    if negb (len (ks_KAut previous) =? KeyLengthAKAPrimeKAut) then Errorf ErrInvalidKeyMaterial else
    let seed := eap_aka_prime_reauth ++ identity ++ counterBytes ++ nonceS in
    let! stream := prfPrimeSHA256 (ks_KRe previous) seed (KeyLengthMSK + KeyLengthEMSK) in
    reauthenticationKeys previous stream stream
  else
  if negb (len (ks_KAut previous) =? KeyLengthKAut) then Errorf ErrInvalidKeyMaterial else
  if len (ks_MK previous) =? 0 then Errorf ErrInvalidKeyMaterial else
  let seed := sha1_Sum (identity ++ counterBytes ++ nonceS ++ ks_MK previous) in
  let! stream := fips1862PRF seed (KeyLengthMSK + KeyLengthEMSK) in
  reauthenticationKeys previous (ks_MK previous) stream.
End derive.

(** The test vector of FIPS 186-2 (change notice 1), as EAP-AKA uses it. *)
Example fips1862PRF_vector :
  fips1862PRF (be_bytes 20 0xbd029bbe7f51960bcf9edb2b61f06f0feb5a38b6) 40
  = Ok (be_bytes 40 0x2070b3223dba372fde1c0ffc7b2e3b498b2606143c6c18bacb0f6c55babb13788e20d737a3275116).
Proof. vm_compute. reflexivity. Qed.

(** ** Addition modulo 2^160 *)
Lemma be_bytes_snoc n v : be_bytes (S n) v = be_bytes n (v / 256) ++ [v mod 256].
Proof.
  revert v. induction n as [|n IH]; intros v; [change (be_bytes 1 v) with [(v / 256 ^ 0) mod 256]; by rewrite Z.pow_0_r, Z.div_1_r|].
  change (be_bytes (S (S n)) v) with ((v / 256 ^ Z.of_nat (S n)) mod 256 :: be_bytes (S n) v). rewrite IH.
  change (be_bytes (S n) (v / 256)) with ((v / 256 / 256 ^ Z.of_nat n) mod 256 :: be_bytes n (v / 256)).
  rewrite Z.div_div by lia. rewrite <- (Z.pow_succ_r 256 (Z.of_nat n)) by lia. by rewrite Nat2Z.inj_succ.
Qed.

Lemma add160_loop_spec i a b carry out :
  bytes_ok a -> bytes_ok b -> (i <= length a)%nat -> (i <= length b)%nat -> 0 <= carry <= 1 ->
  add160_loop i a b carry out = Ok (be_bytes i (be_decode (take i a) + be_decode (take i b) + carry) ++ out).
Proof.
  intros Ha Hb. revert carry out. induction i as [|i IH]; intros carry out Hla Hlb Hc; [done|]. cbn [add160_loop].
  destruct (lookup_lt_is_Some_2 a i ltac:(lia)) as [x Hx]. destruct (lookup_lt_is_Some_2 b i ltac:(lia)) as [y Hy].
  pose proof (proj1 (Forall_lookup _ _) Ha _ _ Hx) as Hxr. pose proof (proj1 (Forall_lookup _ _) Hb _ _ Hy) as Hyr. unfold in_range in *.
  assert (Hat : forall l z, l !! i = Some z -> at_ (E := error) l (Z.of_nat i) = Ok z).
  { intros l z Hz. unfold at_. replace (Z.of_nat i <? 0) with false by lia. by rewrite Nat2Z.id, Hz. }
  rewrite (Hat _ _ Hx), (Hat _ _ Hy). cbn [bind]. unfold to_u16. rewrite (Z.mod_small (x + y + carry)) by lia.
  rewrite Z.shiftr_div_pow2 by lia. change (2 ^ 8) with 256.
  assert (0 <= (x + y + carry) / 256 <= 1).
  { split; [apply Z.div_pos; lia|]. assert ((x + y + carry) / 256 < 2) by (apply Z.div_lt_upper_bound; lia). lia. }
  rewrite IH by lia. f_equal. rewrite (take_S_r _ _ _ Hx), (take_S_r _ _ _ Hy), !be_decode_snoc, be_bytes_snoc, <- app_assoc.
  set (A := be_decode (take i a)). set (B := be_decode (take i b)). unfold to_u8.
  replace (A * 256 + x + (B * 256 + y) + carry) with ((x + y + carry) + (A + B) * 256) by lia.
  rewrite Z.div_add, Z.mod_add by lia. cbn [app]. f_equal. f_equal. lia.
Qed.

Lemma add160_spec a b carry :
  bytes_ok a -> bytes_ok b -> length a = 20%nat -> length b = 20%nat -> 0 <= carry <= 1 ->
  add160 a b carry = Ok (be_bytes 20 ((be_decode a + be_decode b + carry) mod 2 ^ 160)).
Proof.
  intros. unfold add160. rewrite add160_loop_spec by (done || lia). rewrite !take_ge, app_nil_r by lia.
  change (2 ^ 160) with (256 ^ Z.of_nat 20). by rewrite be_bytes_mod.
Qed.

(** ** The stream of the generator *)

(** The [n]-th key: [XKEY' = (XKEY + G(XKEY) + 1) mod 2^160]. *)
Fixpoint fips_key (x : Z) (n : nat) : Z :=
  match n with
  | O => x
  | S m => (fips_key x m + be_decode (fips1862G (be_bytes 20 (fips_key x m))) + 1) mod 2 ^ 160
  end.
Definition fips_block (x : Z) (n : nat) : bytes := fips1862G (be_bytes 20 (fips_key x n)).
Definition fips_stream (x : Z) (n : nat) : bytes := concat (fips_block x <$> seq 0 n).

Lemma fips1862G_shape x : length (fips1862G x) = 20%nat /\ bytes_ok (fips1862G x).
Proof.
  unfold fips1862G. cbv zeta. destruct (fold_left _ (seq 0 80) _) as [[[[a b] c] d] e].
  split; [by rewrite !length_app, !length_be_bytes|]. repeat apply bytes_ok_app_2; apply bytes_ok_be_bytes.
Qed.
Lemma fips_stream_S x n : fips_stream x (S n) = fips_stream x n ++ fips_block x n.
Proof. unfold fips_stream. rewrite seq_S, fmap_app, concat_app. cbn [fmap list_fmap concat Nat.add]. by rewrite app_nil_r. Qed.
Lemma len_fips_stream x n : len (fips_stream x n) = 20 * Z.of_nat n.
Proof.
  induction n as [|n IH]; [done|]. rewrite fips_stream_S, len_app, IH. unfold fips_block.
  pose proof (fips1862G_shape (be_bytes 20 (fips_key x n))) as [Hl _]. unfold len. lia.
Qed.
Lemma fips_stream_ok x n : bytes_ok (fips_stream x n).
Proof. induction n as [|n IH]; [constructor|]. rewrite fips_stream_S. apply bytes_ok_app_2; [done|]. apply fips1862G_shape. Qed.
Lemma fips_stream_prefix x n m : (n <= m)%nat -> exists q, fips_stream x m = fips_stream x n ++ q.
Proof.
  induction 1 as [|m Hle [q IH]]; [exists []; by rewrite app_nil_r|]. rewrite fips_stream_S, IH, <- app_assoc. eauto.
Qed.
#[local] Opaque fips1862G be_bytes.

Lemma add_mod_first k g m : (k mod m + g + 1) mod m = (k + g + 1) mod m.
Proof. by rewrite <- !Z.add_assoc, Zplus_mod_idemp_l. Qed.
Lemma be_decode_key k : be_decode (be_bytes 20 k) = k mod 2 ^ 160.
Proof.
  rewrite <- (be_bytes_mod 20 k). rewrite be_decode_be_bytes by (apply Z.mod_pos_bound; done). done.
Qed.

Lemma fips_next x n :
  add160 (be_bytes 20 (fips_key x n)) (fips1862G (be_bytes 20 (fips_key x n))) 1 = Ok (be_bytes 20 (fips_key x (S n))).
Proof.
  destruct (fips1862G_shape (be_bytes 20 (fips_key x n))) as [Hl Hb]. cbn [fips_key].
  rewrite (add160_spec _ _ 1 (bytes_ok_be_bytes 20 (fips_key x n)) Hb (length_be_bytes 20 _) Hl ltac:(lia)).
  rewrite be_decode_key, add_mod_first. reflexivity.
Qed.
Lemma fips_block_eq x n : fips1862G (be_bytes 20 (fips_key x n)) = fips_block x n.
Proof. reflexivity. Qed.
#[local] Opaque fips_key fips_stream fips_block.

Lemma fips_inner_spec i length x n :
  exists m, (n <= m <= n + i)%nat /\ (i <> O -> 20 * Z.of_nat n < length -> (n < m)%nat) /\
    (m = n \/ 20 * (Z.of_nat m - 1) < length) /\
    fips_inner i length (be_bytes 20 (fips_key x n)) (fips_stream x n) = Ok (be_bytes 20 (fips_key x m), fips_stream x m).
Proof.
  revert n. induction i as [|i IH]; intros n; (destruct (Z.ltb_spec (20 * Z.of_nat n) length) as [Hlt|Hlt]).
  1-2: exists n; split; [lia|]; split; [intros []; reflexivity|]; split; [by left|reflexivity].
  2: exists n; cbn [fips_inner]; rewrite len_fips_stream, (proj2 (Z.ltb_ge _ _) Hlt);
     split; [lia|]; split; [intros _ ?; lia|]; split; [by left|reflexivity].
  cbn [fips_inner]. rewrite len_fips_stream, (proj2 (Z.ltb_lt _ _) Hlt).
  pose proof (fips_next x n) as Hnext. cbv zeta. rewrite Hnext. cbn [bind].
  rewrite fips_block_eq, <- fips_stream_S.
  destruct (IH (S n)) as (m & Hm & _ & Hprev & E). exists m. rewrite E.
  split; [lia|]. split; [intros _ _; lia|]. split; [|reflexivity]. right. destruct Hprev as [->|]; lia.
Qed.

Lemma fips_outer_spec fuel length x n :
  (Z.to_nat length < fuel + n)%nat -> (n = O \/ 20 * (Z.of_nat n - 1) < length) ->
  exists m, (m = O \/ 20 * (Z.of_nat m - 1) < length) /\ length <= 20 * Z.of_nat m /\
    fips_outer fuel length (be_bytes 20 (fips_key x n)) (fips_stream x n) = Ok (fips_stream x m).
Proof.
  revert n. induction fuel as [|fuel IH]; intros n Hf Hn; [exfalso; lia|]. cbn [fips_outer]. rewrite len_fips_stream.
  destruct (20 * Z.of_nat n <? length) eqn:Hlt; [|exists n; split; [exact Hn|]; split; [lia|reflexivity]].
  destruct (fips_inner_spec 2 length x n) as (m & Hm & Hgt & Hprev & E). rewrite E. cbn [bind]. specialize (Hgt ltac:(discriminate) ltac:(lia)).
  apply IH; [lia|]. right. destruct Hprev as [->|]; lia.
Qed.

(** The first 20 octets of the seed, padded, are the first key. *)
Definition fips_seed (seed : bytes) : Z := be_decode (take 20 seed ++ replicate (20 - length (take 20 seed)) 0).

Lemma fips1862PRF_spec seed length n :
  bytes_ok seed -> 0 <= length <= 20 * Z.of_nat n ->
  fips1862PRF seed length = Ok (take (Z.to_nat length) (fips_stream (fips_seed seed) n)).
Proof.
  intros Hs Hl. unfold fips1862PRF. set (xkey := take 20 seed ++ _).
  assert (Hx : xkey = be_bytes 20 (fips_key (fips_seed seed) 0)).
  { symmetry. cbn [fips_key]. unfold fips_seed. fold xkey.
    assert (List.length xkey = 20%nat) as <- by (subst xkey; rewrite length_app, length_replicate, length_take; lia).
    apply be_bytes_be_decode. subst xkey. apply bytes_ok_app_2; [by apply bytes_ok_take|by apply bytes_ok_replicate]. }
  rewrite Hx. destruct (fips_outer_spec (S (Z.to_nat length)) length (fips_seed seed) 0 ltac:(lia) ltac:(by left)) as (m & Hm & Hml & E).
  change (fips_stream (fips_seed seed) 0) with (@nil Z) in E. rewrite E. cbn [bind].
  rewrite slice_Ok by (rewrite ?len_fips_stream; lia). unfold sub. rewrite drop_0, Z.sub_0_r. f_equal.
  assert (Hmn : (m <= n)%nat) by lia. destruct (fips_stream_prefix (fips_seed seed) m n Hmn) as [q ->].
  rewrite take_app_le; [done|]. pose proof (len_fips_stream (fips_seed seed) m). unfold len in *. lia.
Qed.

Section prf_prime.
Context {C : Crypto} `{!CryptoLaws C}.

(** PRF' is the expansion of IKEv2's prf+ with HMAC-SHA-256. *)
Lemma prfPrime_loop_PRFPlus fuel key seed length c out prev :
  prfPrime_loop fuel key seed length c out prev = PRFPlus_loop fuel SHA256 key seed length c out prev.
Proof. revert c out prev. induction fuel as [|fuel IH]; intros c out prev; [done|]. cbn. case_match; [apply IH|done]. Qed.

Lemma prfPrime_spec key seed length :
  0 <= length <= 255 * 32 -> prfPrimeSHA256 key seed length = Ok (take (Z.to_nat length) (prf_stream SHA256 key seed 255)).
Proof.
  intros Hl. unfold prfPrimeSHA256. rewrite prfPrime_loop_PRFPlus. destruct (decide (length = 0)) as [->|Hne]; [done|].
  apply (PRFPlus_loop_spec SHA256 key seed length 0); [done|cbn; lia|lia|by left|lia].
Qed.
End prf_prime.

(** ** What the derivations compute *)
Definition aka_keys_ok (aka : AKAResult) : Prop := len (aka_CK aka) = KeyLengthCK /\ len (aka_IK aka) = KeyLengthIK.

#[export] Instance aka_keys_ok_dec aka : Decision (aka_keys_ok aka).
Proof. unfold aka_keys_ok. apply _. Defined.
Lemma validateCKIK_spec aka : validateCKIK aka = if decide (aka_keys_ok aka) then Ok tt else Errorf ErrInvalidKeyMaterial.
Proof.
  unfold validateCKIK, aka_keys_ok. destruct (Z.eqb_spec (len (aka_CK aka)) KeyLengthCK); cbn [negb].
  - destruct (Z.eqb_spec (len (aka_IK aka)) KeyLengthIK); cbn [negb]; case_decide; naive_solver.
  - case_decide; naive_solver.
Qed.

Lemma len_pos_ne (l : bytes) : l <> [] -> 0 < len l.
Proof. intros. destruct l; [done|]. rewrite len_cons. pose proof (len_nonneg l). lia. Qed.
(** Cutting a stream at given offsets loses nothing. *)
Lemma slice_from_Ok {E} (s : bytes) i : 0 <= i <= len s -> slice_from (E := E) s i = Ok (sub s i (len s)).
Proof. intros. unfold slice_from. by rewrite slice_Ok by lia. Qed.
Lemma sub_all (s : bytes) n : len s = n -> sub s 0 n = s.
Proof. intros <-. rewrite sub_to_end by (pose proof (len_nonneg s); lia). by rewrite drop_0. Qed.

(** The lengths and the contents of keys cut from a key stream. *)
Definition cut_keys (k : Keys) (stream : bytes) (aut re : Z) : Prop :=
  len (ks_KEncr k) = KeyLengthKEncr /\ len (ks_KAut k) = aut /\ len (ks_KRe k) = re /\
  len (ks_MSK k) = KeyLengthMSK /\ len (ks_EMSK k) = KeyLengthEMSK /\
  ks_KEncr k ++ ks_KAut k ++ ks_KRe k ++ ks_MSK k ++ ks_EMSK k = stream.

(** The first [n] octets of the FIPS 186-2 stream of a 20-octet seed and of the
    PRF' stream. *)
Definition fips_octets (seed : bytes) (n : Z) : bytes :=
  take (Z.to_nat n) (fips_stream (be_decode seed) (S (Z.to_nat n))).
Lemma fips1862PRF_octets seed n :
  bytes_ok seed -> len seed = 20 -> 0 <= n ->
  fips1862PRF seed n = Ok (fips_octets seed n) /\ len (fips_octets seed n) = n.
Proof.
  intros Hs Hl Hn. split.
  - rewrite (fips1862PRF_spec seed _ (S (Z.to_nat n))) by (done || lia). unfold fips_octets, fips_seed.
    rewrite (take_ge seed) by (unfold len in Hl; lia). replace (20 - length seed)%nat with 0%nat by (unfold len in Hl; lia).
    cbn [replicate]. by rewrite app_nil_r.
  - apply len_take_le. rewrite len_fips_stream. lia.
Qed.

(** Cuts a stream of known length into keys, and puts them together again. *)
Ltac cut_steps :=
  unfold KeyLengthKEncr, KeyLengthKAut, KeyLengthAKAPrimeKAut, KeyLengthKRe, KeyLengthMSK, KeyLengthEMSK in *; cbv zeta;
  repeat ((rewrite slice_Ok by lia) || (rewrite slice_from_Ok by lia); cbn [bind]); eexists; (split; [reflexivity|]);
  unfold cut_keys, KeyLengthKEncr, KeyLengthMSK, KeyLengthEMSK; cbn [ks_MK ks_KEncr ks_KAut ks_KRe ks_MSK ks_EMSK ks_CKPrime ks_IKPrime];
  rewrite ?sub_len, ?len_nil, ?app_nil_l, ?sub_split, ?sub_all by lia.

Lemma cut_aka_keys mk stream :
  len stream = 160 ->
  exists k,
    (let! kEncr := slice stream 0 KeyLengthKEncr in
     let! kAut := slice stream KeyLengthKEncr (KeyLengthKEncr + KeyLengthKAut) in
     let! msk := slice stream (KeyLengthKEncr + KeyLengthKAut) (KeyLengthKEncr + KeyLengthKAut + KeyLengthMSK) in
     let! emsk := slice_from stream (KeyLengthKEncr + KeyLengthKAut + KeyLengthMSK) in
     Ok (E := error) (mkKeys mk kEncr kAut [] msk emsk [] [])) = Ok k /\
    (ks_MK k = mk /\ cut_keys k stream KeyLengthKAut 0 /\ ks_CKPrime k = [] /\ ks_IKPrime k = []).
Proof. intros Hl. cut_steps. split_and!; reflexivity || lia. Qed.

Lemma cut_aka_prime_keys ck ik stream :
  len stream = 208 ->
  exists k,
    (let offset := 0 in
     let! kEncr := slice stream offset (offset + KeyLengthKEncr) in
     let offset := offset + KeyLengthKEncr in
     let! kAut := slice stream offset (offset + KeyLengthAKAPrimeKAut) in
     let offset := offset + KeyLengthAKAPrimeKAut in
     let! kRe := slice stream offset (offset + KeyLengthKRe) in
     let offset := offset + KeyLengthKRe in
     let! msk := slice stream offset (offset + KeyLengthMSK) in
     let offset := offset + KeyLengthMSK in
     let! emsk := slice stream offset (offset + KeyLengthEMSK) in
     Ok (E := error) (mkKeys stream kEncr kAut kRe msk emsk ck ik)) = Ok k /\
    (ks_MK k = stream /\ cut_keys k stream KeyLengthAKAPrimeKAut KeyLengthKRe /\ ks_CKPrime k = ck /\ ks_IKPrime k = ik).
Proof. intros Hl. cut_steps. split_and!; reflexivity || lia. Qed.

Lemma reauthenticationKeys_spec previous mk stream :
  len stream = 128 ->
  exists k, reauthenticationKeys previous mk stream = Ok k /\ ks_MK k = mk /\
    ks_KEncr k = ks_KEncr previous /\ ks_KAut k = ks_KAut previous /\ ks_KRe k = ks_KRe previous /\
    ks_CKPrime k = ks_CKPrime previous /\ ks_IKPrime k = ks_IKPrime previous /\
    len (ks_MSK k) = KeyLengthMSK /\ len (ks_EMSK k) = KeyLengthEMSK /\ ks_MSK k ++ ks_EMSK k = stream.
Proof. intros Hl. unfold reauthenticationKeys. cut_steps. split_and!; reflexivity || lia. Qed.

Section derived.
Context {C : Crypto} `{!CryptoLaws C}.

Definition prf_octets (key seed : bytes) (n : Z) : bytes := take (Z.to_nat n) (prf_stream SHA256 key seed 255).
Lemma prfPrime_octets key seed n :
  0 <= n <= 255 * 32 -> prfPrimeSHA256 key seed n = Ok (prf_octets key seed n) /\ len (prf_octets key seed n) = n.
Proof.
  intros Hn. split; [by apply prfPrime_spec|]. apply len_take_le. rewrite len_prf_stream by done.
  change (hash_size SHA256) with 32. lia.
Qed.
#[local] Opaque fips_octets prf_octets.

Lemma deriveAKAPrimeCKIK_len nn sqn aka : len (deriveAKAPrimeCKIK nn sqn aka) = 32.
Proof. unfold deriveAKAPrimeCKIK. by rewrite hmac_len. Qed.

Lemma DeriveKeys_spec identity aka :
  aka_keys_ok aka ->
  exists k, DeriveKeys identity aka = Ok k /\ ks_MK k = sha1_Sum (identity ++ aka_IK aka ++ aka_CK aka) /\
    cut_keys k (fips_octets (ks_MK k) 160) KeyLengthKAut 0 /\ ks_CKPrime k = [] /\ ks_IKPrime k = [].
Proof.
  intros Hok. unfold DeriveKeys. rewrite validateCKIK_spec, decide_True by done. cbn [bind]. cbv zeta.
  generalize (sha1_len (identity ++ aka_IK aka ++ aka_CK aka)) (sha1_ok (identity ++ aka_IK aka ++ aka_CK aka)).
  generalize (sha1_Sum (identity ++ aka_IK aka ++ aka_CK aka)). intros mk Hl Hb.
  destruct (fips1862PRF_octets mk 160) as [E Hs]; [exact Hb|exact Hl|lia|].
  change (KeyLengthKEncr + KeyLengthKAut + KeyLengthMSK + KeyLengthEMSK) with 160. rewrite E. cbn [bind].
  destruct (cut_aka_keys mk _ Hs) as (k & Hk & Hmk & Hc). rewrite Hk. exists k. rewrite Hmk.
  split; [reflexivity|]. split; [reflexivity|exact Hc].
Qed.

Lemma DeriveAKAPrimeKeys_spec identity networkName autn16 aka :
  identity <> [] -> 0 < len networkName <= 0xffff -> len autn16 = AUTNLength -> aka_keys_ok aka ->
  exists k, DeriveAKAPrimeKeys identity networkName autn16 aka = Ok k /\
    ks_CKPrime k ++ ks_IKPrime k = deriveAKAPrimeCKIK networkName (take 6 autn16) aka /\
    len (ks_CKPrime k) = 16 /\ len (ks_IKPrime k) = 16 /\
    ks_MK k = prf_octets (ks_IKPrime k ++ ks_CKPrime k) (eap_aka_prime ++ identity) 208 /\
    cut_keys k (ks_MK k) KeyLengthAKAPrimeKAut KeyLengthKRe.
Proof.
  intros Hid Hnn Hau Hok. unfold DeriveAKAPrimeKeys. pose proof (len_pos_ne identity Hid).
  rewrite Hau. do 3 go_if. rewrite validateCKIK_spec, decide_True by done. cbn [bind]. go_if.
  change AUTNLength with 16 in Hau. rewrite (slice_Ok autn16) by lia. cbn [bind]. cbv zeta.
  change (sub autn16 0 6) with (take 6 autn16).
  generalize (deriveAKAPrimeCKIK_len networkName (take 6 autn16) aka).
  generalize (deriveAKAPrimeCKIK networkName (take 6 autn16) aka). intros ckik Hck.
  rewrite (slice_Ok ckik) by lia. cbn [bind]. rewrite (slice_from_Ok ckik) by lia. cbn [bind].
  destruct (prfPrime_octets (sub ckik 16 (len ckik) ++ sub ckik 0 16) (eap_aka_prime ++ identity) 208) as [E Hs]; [lia|].
  change (KeyLengthKEncr + KeyLengthAKAPrimeKAut + KeyLengthKRe + KeyLengthMSK + KeyLengthEMSK) with 208. rewrite E. cbn [bind].
  destruct (cut_aka_prime_keys (sub ckik 0 16) (sub ckik 16 (len ckik)) _ Hs) as (k & Hk & Hmk & Hc & Hck' & Hik).
  cbv zeta in Hk. rewrite Hk. exists k. rewrite Hmk, Hck', Hik, sub_split, !sub_len by lia.
  split; [reflexivity|]. split; [apply sub_all; lia|]. split; [lia|]. split; [lia|]. split; [reflexivity|exact Hc].
Qed.

(** What fast re-authentication needs of the previous keys: the keys of
    EAP-AKA', or those of EAP-AKA. *)
Definition reauth_ready (k : Keys) : Prop :=
  len (ks_KEncr k) = KeyLengthKEncr /\
  ((len (ks_KRe k) = KeyLengthKRe /\ len (ks_KAut k) = KeyLengthAKAPrimeKAut) \/
   (ks_KRe k = [] /\ len (ks_KAut k) = KeyLengthKAut /\ ks_MK k <> [])).
(** The new key stream. *)
Definition reauth_stream (identity : bytes) (previous : Keys) (counter : Z) (nonceS : bytes) : bytes :=
  if 0 <? len (ks_KRe previous) then
    prf_octets (ks_KRe previous) (eap_aka_prime_reauth ++ identity ++ be_bytes 2 counter ++ nonceS) 128
  else fips_octets (sha1_Sum (identity ++ be_bytes 2 counter ++ nonceS ++ ks_MK previous)) 128.

Lemma DeriveReauthenticationKeys_spec identity previous counter nonceS :
  identity <> [] -> len nonceS = 16 -> reauth_ready previous ->
  exists k, DeriveReauthenticationKeys identity previous counter nonceS = Ok k /\
    ks_MK k = (if 0 <? len (ks_KRe previous) then reauth_stream identity previous counter nonceS else ks_MK previous) /\
    ks_KEncr k = ks_KEncr previous /\ ks_KAut k = ks_KAut previous /\ ks_KRe k = ks_KRe previous /\
    ks_CKPrime k = ks_CKPrime previous /\ ks_IKPrime k = ks_IKPrime previous /\
    len (ks_MSK k) = KeyLengthMSK /\ len (ks_EMSK k) = KeyLengthEMSK /\
    ks_MSK k ++ ks_EMSK k = reauth_stream identity previous counter nonceS.
Proof.
  intros Hid Hn [He Hk]. unfold DeriveReauthenticationKeys, reauth_stream. pose proof (len_pos_ne identity Hid).
  rewrite He, Hn. do 3 go_if. cbv zeta. change (KeyLengthMSK + KeyLengthEMSK) with 128. destruct Hk as [[Hr Ha]|(Hr & Ha & Hm)].
  - rewrite Hr, Ha. change (0 <? KeyLengthKRe) with true. cbv iota. do 2 go_if. set (seed := eap_aka_prime_reauth ++ _).
    destruct (prfPrime_octets (ks_KRe previous) seed 128) as [-> Hl]; [lia|]. cbn [bind]. by apply reauthenticationKeys_spec.
  - replace (0 <? len (ks_KRe previous)) with false by (by rewrite Hr). cbv iota. rewrite Ha. go_if. pose proof (len_pos_ne _ Hm). go_if.
    set (seed := sha1_Sum _).
    destruct (fips1862PRF_octets seed 128) as [-> Hl]; [apply sha1_ok|apply sha1_len|lia|]. cbn [bind].
    by apply reauthenticationKeys_spec.
Qed.
End derived.

Lemma DeriveKeys_refused `{C : Crypto} identity aka :
  ~ aka_keys_ok aka -> DeriveKeys identity aka = Errorf ErrInvalidKeyMaterial.
Proof. intros. unfold DeriveKeys. by rewrite validateCKIK_spec, decide_False. Qed.

Lemma DeriveKeys_returns `{C : Crypto, !CryptoLaws C} identity aka : returns (DeriveKeys identity aka).
Proof.
  destruct (decide (aka_keys_ok aka)) as [H|H]; [|by rewrite DeriveKeys_refused].
  by destruct (DeriveKeys_spec identity aka H) as (k & -> & _).
Qed.
Lemma DeriveAKAPrimeKeys_returns `{C : Crypto, !CryptoLaws C} identity networkName autn16 aka :
  returns (DeriveAKAPrimeKeys identity networkName autn16 aka).
Proof.
  destruct (decide (identity <> [] /\ 0 < len networkName <= 0xffff /\ len autn16 = AUTNLength /\ aka_keys_ok aka)) as [(? & ? & ? & ?)|H].
  { by destruct (DeriveAKAPrimeKeys_spec identity networkName autn16 aka) as (k & -> & _). }
  unfold DeriveAKAPrimeKeys. destruct (Z.eqb_spec (len identity) 0) as [|Hi]; [done|]. destruct (Z.eqb_spec (len networkName) 0) as [|Hn]; [done|].
  destruct (Z.eqb_spec (len autn16) AUTNLength) as [Ha|]; [|done]. cbn [negb]. rewrite validateCKIK_spec.
  case_decide as Hc; [|done]. cbn [bind]. destruct (Z.ltb_spec 0xffff (len networkName)); [done|]. exfalso. apply H.
  split; [by intros ->|]. pose proof (len_nonneg networkName). split_and!; done || lia.
Qed.

(** ** Properties *)

(** [fips1862PRF] is the generator of FIPS 186-2 (change notice 1): asked for
    [n] octets it returns the first [n] octets of [G(XKEY_0) | G(XKEY_1) | ...]
    where [XKEY_0] is the big-endian value of the first 20 octets of the seed,
    zero-padded, and [XKEY_(i+1) = (XKEY_i + G(XKEY_i) + 1) mod 2^160]; its loops
    end and its byte-wise addition never indexes out of range. *)
Theorem fips1862PRF_stream seed length n :
  bytes_ok seed -> 0 <= length <= 20 * Z.of_nat n ->
  fips1862PRF seed length = Ok (take (Z.to_nat length) (fips_stream (fips_seed seed) n)).
Proof. apply fips1862PRF_spec. Qed.

Lemma fips1862PRF_stream_witness :
  fips1862PRF [1; 2; 3] 160 = Ok (take 160 (fips_stream (fips_seed [1; 2; 3]) 8)).
Proof. apply (fips1862PRF_stream [1; 2; 3] 160 8); [by_decide|lia]. Defined.

(** [DeriveKeys] (EAP-AKA) succeeds exactly when CK and IK have 16 octets and
    is [ErrInvalidKeyMaterial] otherwise; the master key is SHA-1 of
    identity|IK|CK and K_encr, K_aut, MSK and EMSK have 16, 16, 64 and 64 octets
    and are together the first 160 octets of the FIPS 186-2 stream of the
    master key. *)
Theorem DeriveKeys_correct (C : Crypto) (L : CryptoLaws C) identity aka :
  (~ aka_keys_ok aka /\ DeriveKeys identity aka = Errorf ErrInvalidKeyMaterial) \/
  (aka_keys_ok aka /\
   exists k, DeriveKeys identity aka = Ok k /\ ks_MK k = sha1_Sum (identity ++ aka_IK aka ++ aka_CK aka) /\
     cut_keys k (fips_octets (ks_MK k) 160) KeyLengthKAut 0 /\ ks_CKPrime k = [] /\ ks_IKPrime k = []).
Proof.
  destruct (decide (aka_keys_ok aka)); [right|left]; (split; [assumption|]).
  - by apply DeriveKeys_spec.
  - by apply DeriveKeys_refused.
Qed.

(** [DeriveAKAPrimeKeys]: with an identity, a network name of 1 to 65535
    octets, a 16-octet AUTN and 16-octet CK and IK, CK'|IK' is HMAC-SHA-256 under
    CK|IK of [0x20 | name | len(name) | SQN^AK | 6] and K_encr, K_aut, K_re, MSK
    and EMSK are, in this order, the 208 octets of PRF'(IK'|CK',
    "EAP-AKA'"|identity). *)
Theorem DeriveAKAPrimeKeys_correct (C : Crypto) (L : CryptoLaws C) identity networkName autn16 aka :
  identity <> [] -> 0 < len networkName <= 0xffff -> len autn16 = AUTNLength -> aka_keys_ok aka ->
  exists k, DeriveAKAPrimeKeys identity networkName autn16 aka = Ok k /\
    ks_CKPrime k ++ ks_IKPrime k
      = hmac_Sum SHA256 (aka_CK aka ++ aka_IK aka)
          (0x20 :: networkName ++ be_bytes 2 (len networkName) ++ take 6 autn16 ++ [0; 6]) /\
    len (ks_CKPrime k) = 16 /\ len (ks_IKPrime k) = 16 /\
    ks_MK k = prf_octets (ks_IKPrime k ++ ks_CKPrime k) (eap_aka_prime ++ identity) 208 /\
    cut_keys k (ks_MK k) KeyLengthAKAPrimeKAut KeyLengthKRe.
Proof.
  intros Hid Hnn Hau Hok. destruct (DeriveAKAPrimeKeys_spec identity networkName autn16 aka) as (k & Hk & Hc & Hrest); [done..|].
  exists k. split; [exact Hk|]. split; [|exact Hrest]. rewrite Hc. unfold deriveAKAPrimeCKIK, kdfInput. cbn [fold_left].
  change AUTNLength with 16 in Hau.
  assert (Hs : len (take 6 autn16) = 6) by (apply (len_take_le autn16 6); lia). rewrite Hs.
  unfold to_u16. rewrite (Z.mod_small (len networkName)) by lia. rewrite <- !app_assoc. reflexivity.
Qed.

Definition sample_aka := mkAKAResult (replicate 8 1) (replicate 16 2) (replicate 16 3) [].
Lemma DeriveAKAPrimeKeys_correct_witness :
  exists k, DeriveAKAPrimeKeys (C := toy_crypto) [48; 49] [87; 76; 65; 78] (replicate 16 9) sample_aka = Ok k /\
    len (ks_CKPrime k) = 16.
Proof.
  destruct (DeriveAKAPrimeKeys_correct toy_crypto toy_crypto_laws [48; 49] [87; 76; 65; 78] (replicate 16 9) sample_aka)
    as (k & Hk & _ & Hl & _); [discriminate|by_decide|reflexivity|by_decide|].
  exists k. split; [exact Hk|exact Hl].
Defined.

(** Fast re-authentication: from full EAP-AKA' keys (K_re of 32 and K_aut of
    32 octets) or full EAP-AKA keys (no K_re, K_aut of 16 octets, a master key),
    with an identity and a 16-octet NONCE_S, [DeriveReauthenticationKeys] keeps
    K_encr, K_aut, K_re, CK' and IK' and sets MSK|EMSK to the 128 octets of
    PRF'(K_re, "EAP-AKA' re-auth"|identity|counter|NONCE_S), or of the FIPS 186-2
    stream of SHA-1(identity|counter|NONCE_S|MK), the counter being two
    big-endian octets. *)
Theorem DeriveReauthenticationKeys_correct (C : Crypto) (L : CryptoLaws C) identity previous counter nonceS :
  identity <> [] -> len nonceS = 16 -> reauth_ready previous ->
  exists k, DeriveReauthenticationKeys identity previous counter nonceS = Ok k /\
    ks_MK k = (if 0 <? len (ks_KRe previous) then reauth_stream identity previous counter nonceS else ks_MK previous) /\
    ks_KEncr k = ks_KEncr previous /\ ks_KAut k = ks_KAut previous /\ ks_KRe k = ks_KRe previous /\
    ks_CKPrime k = ks_CKPrime previous /\ ks_IKPrime k = ks_IKPrime previous /\
    len (ks_MSK k) = KeyLengthMSK /\ len (ks_EMSK k) = KeyLengthEMSK /\
    ks_MSK k ++ ks_EMSK k = reauth_stream identity previous counter nonceS.
Proof. apply DeriveReauthenticationKeys_spec. Qed.

Definition sample_keys := mkKeys [1] (replicate 16 1) (replicate 16 2) [] (replicate 64 3) (replicate 64 4) [] [].
Lemma DeriveReauthenticationKeys_correct_witness :
  exists k, DeriveReauthenticationKeys (C := toy_crypto) [48] sample_keys 7 (replicate 16 9) = Ok k /\ len (ks_MSK k) = 64.
Proof.
  destruct (DeriveReauthenticationKeys_correct toy_crypto toy_crypto_laws [48] sample_keys 7 (replicate 16 9))
    as (k & Hk & _ & _ & _ & _ & _ & _ & Hl & _);
    [discriminate|reflexivity|split; [reflexivity|right; split; [reflexivity|split; [reflexivity|discriminate]]]|].
  exists k. split; [exact Hk|exact Hl].
Defined.
