(* ===== verification/EapMac.v ===== *)
(** * AT_MAC of EAP-AKA packets (engine/swu/eapaka/crypto.go)

    Finding the AT_MAC attribute of a marshalled packet, zeroing it, the MAC
    over the packet (HMAC-SHA-1 for EAP-AKA, HMAC-SHA-256 for EAP-AKA'), its
    verification, and how a response is completed with its MAC. *)
From S2P Require Import Prelude Errors Crypto Keys EapAka EapKeys.

Definition MACAttribute (mac : bytes) : Attribute :=
  FixedAttribute AttributeMAC (take 16 mac ++ replicate (16 - length (take 16 mac)) 0).

(** [for offset := 8; offset < packetLen; { ... }] *)
Fixpoint find_mac_loop (fuel : nat) (packet : bytes) (packetLen offset foundOffset foundLength : Z) : result (Z * Z) :=
  match fuel with
  | O => OutOfFuel
  | S fuel' =>
      if offset <? packetLen then
        if packetLen - offset <? 4 then Errorf Eap_ErrInvalidAttribute else
        let! words := at_ packet (offset + 1) in
        let length := words * 4 in
        if (length <? 4) || (packetLen <? offset + length) then Errorf Eap_ErrInvalidAttribute else
        let! ty := at_ packet offset in
        if ty =? AttributeMAC then
          if 0 <=? foundOffset then Errorf ErrInvalidMAC
          else find_mac_loop fuel' packet packetLen (offset + length) offset length
        else find_mac_loop fuel' packet packetLen (offset + length) foundOffset foundLength
      else if 0 <=? foundOffset then Ok (foundOffset, foundLength)
      else Errorf ErrInvalidMAC
  end.
Definition findMACAttribute (packet : bytes) : result (Z * Z) :=
  if len packet <? 8 then Errorf Eap_ErrInvalidPacket else
  let! packetLen := u16_at packet 2 4 in
  if (packetLen <? 8) || (len packet <? packetLen) then Errorf Eap_ErrInvalidPacket else
  find_mac_loop (S (length packet)) packet packetLen 8 (-1) 0.

Definition packetMAC (packet : bytes) : result bytes :=
  let! r := findMACAttribute packet in
  let '(offset, length) := r in
  if negb (length =? 20) then Errorf ErrInvalidMAC else
  slice packet (offset + 4) (offset + 20).

(** [for i := first; i < first+n; i++ { out[i] = 0 }] *)
Fixpoint zero_loop (n : nat) (i : Z) (out : bytes) : result bytes :=
  match n with
  | O => Ok out
  | S n' =>
      if (0 <=? i) && (i <? len out) then zero_loop n' (i + 1) (<[Z.to_nat i := 0]> out) else Panic
  end.
Definition packetWithZeroedMAC (packet : bytes) : result bytes :=
  let! r := findMACAttribute packet in
  let '(offset, length) := r in
  if negb (length =? 20) then Errorf ErrInvalidMAC else
  zero_loop (Z.to_nat (length - 2)) (offset + 2) packet.

Section mac.
Context {C : Crypto}.

Definition calculateMAC (kAut packet extra : bytes) (h : hash) : result bytes :=
  if len kAut =? 0 then Errorf ErrInvalidKeyMaterial else
  let! zeroed := packetWithZeroedMAC packet in
  let sum := hmac_Sum h kAut (zeroed ++ extra) in
  slice sum 0 16.

Definition CalculateMAC (kAut packet extra : bytes) : result bytes :=
  if negb (len kAut =? KeyLengthKAut) then Errorf ErrInvalidKeyMaterial else
  calculateMAC kAut packet extra SHA1.
Definition CalculateAKAPrimeMAC (kAut packet extra : bytes) : result bytes :=
  if negb (len kAut =? KeyLengthAKAPrimeKAut) then Errorf ErrInvalidKeyMaterial else
  calculateMAC kAut packet extra SHA256.

Definition VerifyMAC (kAut packet extra : bytes) : result unit :=
  let! actual := packetMAC packet in
  let! expected := CalculateMAC kAut packet extra in
  if negb (bytesEqual actual expected) then Errorf ErrInvalidMAC else Ok tt.
Definition VerifyAKAPrimeMAC (kAut packet extra : bytes) : result unit :=
  let! actual := packetMAC packet in
  let! expected := CalculateAKAPrimeMAC kAut packet extra in
  if negb (bytesEqual actual expected) then Errorf ErrInvalidMAC else Ok tt.

Definition verifyPacketMAC (eapType : Z) (kAut raw extra : bytes) : result unit :=
  if eapType =? TypeAKAPrime then VerifyAKAPrimeMAC kAut raw extra else VerifyMAC kAut raw extra.
Definition calculatePacketMAC (eapType : Z) (kAut raw extra : bytes) : result bytes :=
  if eapType =? TypeAKAPrime then CalculateAKAPrimeMAC kAut raw extra else CalculateMAC kAut raw extra.
Definition verifyChallengeMAC (eapType : Z) (kAut raw : bytes) : result unit := verifyPacketMAC eapType kAut raw [].
Definition calculateChallengeMAC (eapType : Z) (kAut raw : bytes) : result bytes := calculatePacketMAC eapType kAut raw [].
End mac.

(** ** Finding the attribute *)
Definition enc_attributes (attrs : list Attribute) : bytes := concat (enc_attribute <$> attrs).
Lemma enc_attributes_cons a attrs : enc_attributes (a :: attrs) = enc_attribute a ++ enc_attributes attrs.
Proof. reflexivity. Qed.
Lemma enc_attributes_app a b : enc_attributes (a ++ b) = enc_attributes a ++ enc_attributes b.
Proof. unfold enc_attributes. by rewrite fmap_app, concat_app. Qed.

Lemma enc_attribute_words a :
  attribute_fits a ->
  exists q, 1 <= q <= 255 /\ len (enc_attribute a) = q * 4 /\ enc_attribute a = a_Type a :: q :: a_Data (wire a).
Proof.
  intros Hf. unfold attribute_fits in Hf. destruct (wire_len a) as (Hl & Hm & Hp). pose proof (len_nonneg (a_Data a)).
  exists ((2 + len (a_Data (wire a))) / 4).
  assert (Hq : 2 + len (a_Data (wire a)) = 4 * ((2 + len (a_Data (wire a))) / 4)) by (pose proof (Z.div_mod (2 + len (a_Data (wire a))) 4); lia).
  split; [|split; [|reflexivity]].
  - lia.
  - unfold enc_attribute. len_lia.
Qed.

(** One turn of the loop over an encoded attribute. *)
Lemma find_mac_step fuel p a rest q packetLen fo fl :
  attribute_fits a -> packetLen = len (p ++ enc_attribute a ++ rest) ->
  find_mac_loop (S fuel) (p ++ enc_attribute a ++ rest ++ q) packetLen (len p) fo fl =
    (if a_Type a =? AttributeMAC then
       if 0 <=? fo then Errorf ErrInvalidMAC
       else find_mac_loop fuel (p ++ enc_attribute a ++ rest ++ q) packetLen (len p + len (enc_attribute a)) (len p) (len (enc_attribute a))
     else find_mac_loop fuel (p ++ enc_attribute a ++ rest ++ q) packetLen (len p + len (enc_attribute a)) fo fl).
Proof.
  intros (w & Hw & Hl & He)%enc_attribute_words ->. cbn [find_mac_loop]. rewrite He in *.
  replace (len p <? _) with true by (symmetry; len_lia). replace (_ - len p <? 4) with false by (symmetry; len_lia).
  rewrite (at_Ok _ (len p + 1) w) by (len_lia || (unfold len; rewrite lookup_app_r by lia;
    by replace (Z.to_nat (Z.of_nat (length p) + 1) - length p)%nat with 1%nat by lia)).
  cbn [bind]. replace ((w * 4 <? 4) || _) with false by (symmetry; len_lia). cbn [app].
  rewrite (at_app_r p) by done. cbn [bind]. rewrite <- Hl. reflexivity.
Qed.

Definition has_mac (a : Attribute) : bool := a_Type a =? AttributeMAC.
Definition no_mac (attrs : list Attribute) : Prop := Forall (fun a => a_Type a <> AttributeMAC) attrs.

Lemma find_mac_skip fuel p attrs rest q packetLen fo fl :
  Forall attribute_fits attrs -> no_mac attrs -> packetLen = len (p ++ enc_attributes attrs ++ rest) ->
  find_mac_loop (length attrs + fuel) (p ++ enc_attributes attrs ++ rest ++ q) packetLen (len p) fo fl =
  find_mac_loop fuel (p ++ enc_attributes attrs ++ rest ++ q) packetLen (len (p ++ enc_attributes attrs)) fo fl.
Proof.
  intros Hfit Hno. revert p. induction attrs as [|a attrs IH]; intros p Hl.
  { cbn. by rewrite app_nil_r. }
  apply Forall_cons in Hfit as [Ha Hfit]. apply Forall_cons in Hno as [Hna Hno].
  rewrite enc_attributes_cons in *. cbn [length Nat.add]. rewrite <- !app_assoc in *.
  rewrite (app_assoc (enc_attributes attrs) rest q), find_mac_step by done.
  replace (a_Type a =? AttributeMAC) with false by lia. rewrite <- !app_assoc.
  rewrite (app_assoc p), (app_assoc p (enc_attribute a) (enc_attributes attrs)), <- (len_app p). apply IH; [done|done|].
  by rewrite <- app_assoc.
Qed.

(** ** Marshalled requests and responses *)
Definition plain_packet (p : Packet) : Prop := (pk_Code p = CodeRequest \/ pk_Code p = CodeResponse) /\ pk_Data p = [].
Definition packet_header (p : Packet) (n : Z) : bytes :=
  [pk_Code p; pk_Identifier p] ++ be_bytes 2 n ++ [eap_type p; pk_Subtype p; 0; 0].
Definition packet_wire (p : Packet) : bytes :=
  packet_header p (8 + len (enc_attributes (pk_Attributes p))) ++ enc_attributes (pk_Attributes p).
Definition packet_fits (p : Packet) : Prop :=
  Forall attribute_fits (pk_Attributes p) /\ 8 + len (enc_attributes (pk_Attributes p)) <= 0xffff.

Lemma len_packet_header p n : len (packet_header p n) = 8.
Proof. reflexivity. Qed.

Lemma marshal_packet p raw :
  plain_packet p -> Packet_MarshalBinary p = Ok raw <-> packet_fits p /\ raw = packet_wire p.
Proof.
  intros [Hc Hd]. unfold Packet_MarshalBinary, packet_wire, packet_fits.
  replace (isEAPCode (pk_Code p)) with true by (unfold isEAPCode; destruct Hc as [-> | ->]; done). cbn [negb].
  replace ((pk_Code p =? CodeSuccess) || (pk_Code p =? CodeFailure)) with false by (destruct Hc as [-> | ->]; done).
  rewrite Hd. change (0 <? len []) with false. cbv iota. fold (eap_type p). set (R := enc_attributes (pk_Attributes p)).
  pose proof (marshal_attrs_loop_spec (pk_Attributes p) []) as Hm. unfold MarshalAttributes. cbn [app] in Hm.
  pose proof (len_nonneg R).
  assert (Hbody : len ([eap_type p; pk_Subtype p; 0; 0] ++ R) = 4 + len R) by len_lia.
  destruct (marshal_attributes_loop (pk_Attributes p) []) as [b| | |]; cbn [bind].
  2-4: split; [done|]; intros [[Hf _] _]; by pose proof (proj2 (Hm _) (conj Hf eq_refl)).
  destruct (proj1 (Hm b) eq_refl) as [Hf ->]. fold (enc_attributes (pk_Attributes p)). fold R. rewrite Hbody.
  destruct (Z.ltb_spec 0xffff (4 + len R + 4)).
  - split; [done|]. intros [[_ ?] _]. lia.
  - unfold to_u16. rewrite Z.mod_small by lia. replace (4 + len R + 4) with (8 + len R) by lia.
    split; [intros [= <-]|intros [_ ->]]; [split; [split; [done|lia]|]|]; unfold packet_header; by rewrite <- !app_assoc.
Qed.

Lemma marshal_packet_returns p : returns (Packet_MarshalBinary p).
Proof.
  unfold Packet_MarshalBinary, MarshalAttributes.
  assert (Hl : forall attrs out, returns (marshal_attributes_loop attrs out)).
  { induction attrs as [|a attrs IH]; intros out; [done|]. cbn [marshal_attributes_loop].
    pose proof (attribute_marshal_returns a). destruct (Attribute_MarshalBinary a); try done. apply IH. }
  specialize (Hl (pk_Attributes p) []). do 2 (case_match; [done|]). case_match; [cbn [bind]; by case_match|].
  destruct (marshal_attributes_loop _ _); try done. cbn [bind]. by case_match.
Qed.

Lemma enc_attributes_ok attrs : Forall Attribute_ok attrs -> Forall attribute_fits attrs -> bytes_ok (enc_attributes attrs).
Proof.
  intros Hok. induction Hok as [|a attrs [Ht Hd] _ IH]; intros Hf; [constructor|]. apply Forall_cons in Hf as [Ha Hf].
  rewrite enc_attributes_cons. apply bytes_ok_app_2; [|by apply IH].
  destruct (enc_attribute_words a Ha) as (q & Hq & _ & ->). apply bytes_ok_cons_2; [exact Ht|].
  apply bytes_ok_cons_2; [unfold is_u8, in_range; lia|]. cbn. apply bytes_ok_app_2; [exact Hd|apply zeros_ok].
Qed.
Lemma marshal_packet_safe p : Packet_ok p -> safe (Packet_MarshalBinary p) bytes_ok.
Proof.
  intros (Hc & Hi & Hty & Hst & Ha & Hd). pose proof (marshal_packet_returns p) as Hr. unfold Packet_MarshalBinary in *.
  case_match; [done|]. case_match; [cbn; do 2 (apply bytes_ok_cons_2; [assumption|]); do 2 (apply bytes_ok_cons_2; [by_decide|]); apply bytes_ok_nil|].
  assert (Ht : is_u8 (if pk_EapType p =? 0 then TypeAKA else pk_EapType p)) by (destruct (pk_EapType p =? 0); [by_decide|assumption]).
  set (ty := if pk_EapType p =? 0 then TypeAKA else pk_EapType p) in *. clearbody ty.
  destruct (0 <? len (pk_Data p)); cbn [bind] in *.
  - case_match; [done|]. cbn. auto 10 with gobytes.
  - destruct (MarshalAttributes (pk_Attributes p)) as [b| | |] eqn:Hm; try done. cbn [bind] in *.
    apply (marshal_attrs_loop_spec (pk_Attributes p) [] b) in Hm as [Hf ->]. rewrite app_nil_l in *.
    case_match; [done|]. cbn. pose proof (enc_attributes_ok _ Ha Hf). do 2 (apply bytes_ok_cons_2; [done|]).
    apply bytes_ok_app_2; [auto with gobytes|]. do 2 (apply bytes_ok_cons_2; [done|]). by do 2 (apply bytes_ok_cons_2; [by_decide|]).
Qed.

Lemma len_packet_wire p : len (packet_wire p) = 8 + len (enc_attributes (pk_Attributes p)).
Proof. unfold packet_wire. by rewrite len_app, len_packet_header. Qed.

Lemma length_enc_attributes attrs : Forall attribute_fits attrs -> (length attrs <= length (enc_attributes attrs))%nat.
Proof.
  induction 1 as [|a attrs Ha _ IH]; [done|]. rewrite enc_attributes_cons, length_app. cbn [length].
  destruct (enc_attribute_words a Ha) as (q & Hq & Hl & _). unfold len in Hl. lia.
Qed.

Lemma findMACAttribute_wire p :
  packet_fits p -> findMACAttribute (packet_wire p) =
    find_mac_loop (S (length (packet_wire p))) (packet_wire p) (len (packet_wire p)) 8 (-1) 0.
Proof.
  intros [Hfit Hlen]. unfold findMACAttribute. rewrite len_packet_wire.
  pose proof (len_nonneg (enc_attributes (pk_Attributes p))). go_if.
  assert (u16_at (packet_wire p) 2 4 = Ok (E := error) (8 + len (enc_attributes (pk_Attributes p)))) as ->.
  { unfold packet_wire, packet_header. set (n := 8 + _) in *. rewrite <- !app_assoc.
    apply (u16_at_eq _ [pk_Code p; pk_Identifier p] ([eap_type p; pk_Subtype p; 0; 0] ++ enc_attributes (pk_Attributes p)) n);
      [reflexivity..|subst n; unfold in_range; lia]. }
  cbn [bind]. by go_if.
Qed.

(** The loop past the last AT_MAC. *)
Lemma find_mac_end fuel p attrs fo fl :
  Forall attribute_fits attrs -> no_mac attrs -> (length attrs < fuel)%nat -> 
  find_mac_loop fuel (p ++ enc_attributes attrs) (len (p ++ enc_attributes attrs)) (len p) fo fl =
    (if 0 <=? fo then Ok (fo, fl) else Errorf ErrInvalidMAC).
Proof.
  intros Hfit Hno Hf. replace fuel with (length attrs + S (fuel - length attrs - 1))%nat by lia.
  pose proof (find_mac_skip (S (fuel - length attrs - 1)) p attrs [] [] (len (p ++ enc_attributes attrs)) fo fl) as H.
  rewrite !app_nil_r in H. rewrite H by done. cbn [find_mac_loop]. by rewrite Z.ltb_irrefl.
Qed.

Lemma findMACAttribute_spec p pre m post :
  packet_fits p -> pk_Attributes p = pre ++ m :: post -> a_Type m = AttributeMAC -> no_mac pre -> no_mac post ->
  findMACAttribute (packet_wire p) = Ok (8 + len (enc_attributes pre), len (enc_attribute m)).
Proof.
  intros Hp Hat Hm Hpre Hpost. rewrite findMACAttribute_wire by done. destruct Hp as [Hfit Hlen].
  set (n := length (packet_wire p)). assert (Hn : (length (pk_Attributes p) < S n)%nat).
  { pose proof (length_enc_attributes _ Hfit). subst n. unfold packet_wire. rewrite length_app. lia. }
  rewrite Hat in Hfit. apply Forall_app in Hfit as [Hfpre Hfit]. apply Forall_cons in Hfit as [Hfm Hfpost].
  assert (Hwire : packet_wire p = packet_header p (8 + len (enc_attributes (pk_Attributes p))) ++ enc_attributes pre ++ (enc_attribute m ++ enc_attributes post) ++ []).
  { rewrite app_nil_r, <- enc_attributes_cons, <- enc_attributes_app, <- Hat. reflexivity. }
  set (H := packet_header p _) in *. assert (HH : len H = 8) by reflexivity. clearbody H n. rewrite Hwire, Hat, length_app in *. cbn [length] in Hn.
  replace (S n) with (length pre + S (n - length pre))%nat by lia. rewrite <- HH at 1.
  rewrite find_mac_skip by (done || by rewrite app_nil_r).
  rewrite app_nil_r, (app_assoc H). set (P := H ++ enc_attributes pre).
  replace (P ++ enc_attribute m ++ enc_attributes post) with (P ++ enc_attribute m ++ enc_attributes post ++ []) by by rewrite app_nil_r.
  rewrite find_mac_step by (done || by rewrite app_nil_r). rewrite Hm. cbv iota.
  change (AttributeMAC =? AttributeMAC) with true. change (0 <=? -1) with false. cbv iota.
  rewrite app_nil_r, (app_assoc P), <- len_app, find_mac_end by (done || lia).
  replace (0 <=? len P) with true by (pose proof (len_nonneg P); lia). f_equal. f_equal. subst P. rewrite len_app. lia.
Qed.

Lemma findMACAttribute_missing p :
  packet_fits p -> no_mac (pk_Attributes p) -> findMACAttribute (packet_wire p) = Errorf ErrInvalidMAC.
Proof.
  intros Hp Hno. rewrite findMACAttribute_wire by done. destruct Hp as [Hfit Hlen].
  pose proof (length_enc_attributes _ Hfit). unfold packet_wire at 2 3.
  replace 8 with (len (packet_header p (8 + len (enc_attributes (pk_Attributes p))))) at 2 by reflexivity.
  rewrite find_mac_end; [done|done|done|]. unfold packet_wire. rewrite length_app. lia.
Qed.

Lemma findMACAttribute_duplicate p pre m mid m' post :
  packet_fits p -> pk_Attributes p = pre ++ m :: mid ++ m' :: post ->
  a_Type m = AttributeMAC -> a_Type m' = AttributeMAC -> no_mac pre -> no_mac mid ->
  findMACAttribute (packet_wire p) = Errorf ErrInvalidMAC.
Proof.
  intros Hp Hat Hm Hm' Hpre Hmid. rewrite findMACAttribute_wire by done. destruct Hp as [Hfit Hlen].
  set (n := length (packet_wire p)). assert (Hn : (length (pk_Attributes p) < S n)%nat).
  { pose proof (length_enc_attributes _ Hfit). subst n. unfold packet_wire. rewrite length_app. lia. }
  rewrite Hat in Hfit. apply Forall_app in Hfit as [Hfpre Hfit]. apply Forall_cons in Hfit as [Hfm Hfit].
  apply Forall_app in Hfit as [Hfmid Hfit]. apply Forall_cons in Hfit as [Hfm' Hfpost].
  set (R := enc_attribute m ++ enc_attributes mid ++ enc_attribute m' ++ enc_attributes post).
  assert (Hwire : packet_wire p = packet_header p (8 + len (enc_attributes (pk_Attributes p))) ++ enc_attributes pre ++ R ++ []).
  { rewrite app_nil_r. unfold R. rewrite <- enc_attributes_cons, <- enc_attributes_app, <- enc_attributes_cons, <- enc_attributes_app, <- Hat. reflexivity. }
  set (H := packet_header p _) in *. assert (HH : len H = 8) by reflexivity. clearbody H n.
  rewrite Hwire, Hat, !length_app in *. cbn [length] in Hn. rewrite length_app in Hn. cbn [length] in Hn.
  replace (S n) with (length pre + S (length mid + S (n - length pre - length mid - 1)))%nat by lia. rewrite <- HH at 1.
  rewrite find_mac_skip by (done || by rewrite app_nil_r). rewrite app_nil_r, (app_assoc H). set (P := H ++ enc_attributes pre).
  unfold R. rewrite <- (app_nil_r (enc_attributes post)) at 1 2. 
  pose proof (find_mac_step (length mid + S (n - length pre - length mid - 1)) P m
    (enc_attributes mid ++ enc_attribute m' ++ enc_attributes post) [] (len (P ++ R)) (-1) 0) as Hs.
  rewrite app_nil_r in Hs. rewrite !app_nil_r. unfold R in Hs. rewrite Hs by done. rewrite Hm.
  change (AttributeMAC =? AttributeMAC) with true. change (0 <=? -1) with false. cbv iota.
  rewrite (app_assoc P), <- len_app. set (P' := P ++ enc_attribute m).
  pose proof (find_mac_skip (S (n - length pre - length mid - 1)) P' mid (enc_attribute m' ++ enc_attributes post) []
    (len (P' ++ enc_attributes mid ++ enc_attribute m' ++ enc_attributes post)) (len P) (len (enc_attribute m))) as Hk.
  rewrite !app_nil_r in Hk. rewrite Hk by done. rewrite (app_assoc P').
  pose proof (find_mac_step (n - length pre - length mid - 1) (P' ++ enc_attributes mid) m' (enc_attributes post) []
    (len ((P' ++ enc_attributes mid) ++ enc_attribute m' ++ enc_attributes post)) (len P) (len (enc_attribute m))) as Hs'.
  rewrite !app_nil_r in Hs'. rewrite Hs' by done. rewrite Hm'.
  change (AttributeMAC =? AttributeMAC) with true. replace (0 <=? len P) with true by (pose proof (len_nonneg P); lia). done.
Qed.

(** ** Zeroing and the MAC *)
Lemma zero_loop_spec p m q :
  zero_loop (length m) (len p) (p ++ m ++ q) = Ok (p ++ replicate (length m) 0 ++ q).
Proof.
  revert p. induction m as [|b m IH]; intros p; [done|]. cbn [length zero_loop replicate app].
  replace ((0 <=? len p) && _) with true by (symmetry; len_lia).
  replace (<[Z.to_nat (len p) := 0]> (p ++ b :: m ++ q)) with ((p ++ [0]) ++ m ++ q).
  2: { unfold len. rewrite Nat2Z.id, insert_app_r_alt, Nat.sub_diag by lia. by rewrite <- app_assoc. }
  replace (len p + 1) with (len (p ++ [0])) by len_lia. rewrite IH. by rewrite <- app_assoc.
Qed.

Lemma MACAttribute_16 mac : len mac = 16 -> MACAttribute mac = FixedAttribute AttributeMAC mac.
Proof.
  intros H. unfold MACAttribute. unfold len in H. rewrite take_ge by lia.
  replace (16 - length mac)%nat with 0%nat by lia. cbn [replicate]. by rewrite app_nil_r.
Qed.
Lemma enc_MACAttribute mac : len mac = 16 -> enc_attribute (MACAttribute mac) = [AttributeMAC; 5; 0; 0] ++ mac.
Proof.
  intros H. rewrite MACAttribute_16 by done. unfold enc_attribute. rewrite wire_idem by (cbn [FixedAttribute a_Data]; rewrite len_app, H; reflexivity).
  cbn [FixedAttribute a_Type a_Data]. rewrite len_app, H. reflexivity.
Qed.
Lemma MACAttribute_fits mac : attribute_fits (MACAttribute mac).
Proof.
  unfold attribute_fits, MACAttribute, FixedAttribute. cbn [a_Data]. rewrite !len_app, len_replicate.
  unfold len. rewrite length_take. cbn [length]. lia.
Qed.

Definition set_attributes (p : Packet) (attrs : list Attribute) : Packet :=
  mkPacket (pk_Code p) (pk_Identifier p) (pk_EapType p) (pk_Subtype p) attrs (pk_Data p).

(** A packet with exactly one AT_MAC, of 16 octets. *)
Record mac_packet (p : Packet) (pre : list Attribute) (mac : bytes) (post : list Attribute) : Prop := {
  mp_fits : packet_fits p;
  mp_attrs : pk_Attributes p = pre ++ MACAttribute mac :: post;
  mp_len : len mac = 16;
  mp_pre : no_mac pre;
  mp_post : no_mac post
}.
(** The octets its MAC is computed over. *)
Definition zeroed_wire (p : Packet) (pre post : list Attribute) : bytes :=
  packet_wire (set_attributes p (pre ++ MACAttribute [] :: post)).

Lemma mac_packet_split p pre mac post :
  mac_packet p pre mac post ->
  exists H, len H = 8 + len (enc_attributes pre) /\
    packet_wire p = H ++ [AttributeMAC; 5; 0; 0] ++ mac ++ enc_attributes post /\
    zeroed_wire p pre post = H ++ [AttributeMAC; 5; 0; 0] ++ replicate 16 0 ++ enc_attributes post.
Proof.
  intros [Hfit Hat Hl Hpre Hpost]. exists (packet_header p (8 + len (enc_attributes (pk_Attributes p))) ++ enc_attributes pre).
  split; [by rewrite len_app, len_packet_header|].
  assert (Hz : enc_attribute (MACAttribute []) = [AttributeMAC; 5; 0; 0] ++ replicate 16 0) by reflexivity.
  assert (Hsame : len (enc_attributes (pre ++ MACAttribute [] :: post)) = len (enc_attributes (pk_Attributes p))).
  { rewrite Hat, !enc_attributes_app, !enc_attributes_cons, !len_app, Hz, enc_MACAttribute by done. rewrite !len_app, Hl. reflexivity. }
  split.
  - unfold packet_wire. rewrite Hat at 2. rewrite enc_attributes_app, enc_attributes_cons, enc_MACAttribute by done. by rewrite <- !app_assoc.
  - unfold zeroed_wire, packet_wire. cbn [set_attributes pk_Attributes]. rewrite Hsame, enc_attributes_app, enc_attributes_cons, Hz.
    rewrite <- !app_assoc. reflexivity.
Qed.

Lemma find_mac_packet p pre mac post :
  mac_packet p pre mac post -> findMACAttribute (packet_wire p) = Ok (8 + len (enc_attributes pre), 20).
Proof.
  intros [Hfit Hat Hl Hpre Hpost]. rewrite (findMACAttribute_spec p pre (MACAttribute mac) post) by done.
  rewrite enc_MACAttribute by done. by rewrite len_app, Hl.
Qed.

Lemma packetMAC_spec p pre mac post : mac_packet p pre mac post -> packetMAC (packet_wire p) = Ok mac.
Proof.
  intros Hp. unfold packetMAC. rewrite (find_mac_packet p pre mac post) by done. cbn [bind]. change (negb (20 =? 20)) with false. cbv iota.
  destruct (mac_packet_split p pre mac post Hp) as (H & HH & -> & _). pose proof (mp_len _ _ _ _ Hp).
  apply (slice_eq _ (H ++ [AttributeMAC; 5; 0; 0]) mac (enc_attributes post)); [by rewrite <- !app_assoc|len_lia|len_lia].
Qed.

Lemma packetWithZeroedMAC_spec p pre mac post :
  mac_packet p pre mac post -> packetWithZeroedMAC (packet_wire p) = Ok (zeroed_wire p pre post).
Proof.
  intros Hp. unfold packetWithZeroedMAC. rewrite (find_mac_packet p pre mac post) by done. cbn [bind]. change (negb (20 =? 20)) with false. cbv iota.
  destruct (mac_packet_split p pre mac post Hp) as (H & HH & -> & ->). pose proof (mp_len _ _ _ _ Hp) as Hl.
  replace (Z.to_nat (20 - 2)) with (length ([0; 0] ++ mac)) by (unfold len in Hl; cbn; lia).
  replace (8 + len (enc_attributes pre) + 2) with (len (H ++ [AttributeMAC; 5])) by len_lia.
  replace (H ++ [AttributeMAC; 5; 0; 0] ++ mac ++ enc_attributes post)
    with ((H ++ [AttributeMAC; 5]) ++ ([0; 0] ++ mac) ++ enc_attributes post) by by rewrite <- !app_assoc.
  rewrite zero_loop_spec. replace (length ([0; 0] ++ mac)) with 18%nat by (unfold len in Hl; cbn; lia).
  by rewrite <- !app_assoc.
Qed.

Section mac_spec.
Context {C : Crypto} `{!CryptoLaws C}.

(** The hash and the K_aut length of the method. *)
Definition mac_hash (eapType : Z) : hash := if eapType =? TypeAKAPrime then SHA256 else SHA1.
Definition mac_key_len (eapType : Z) : Z := if eapType =? TypeAKAPrime then KeyLengthAKAPrimeKAut else KeyLengthKAut.
(** The MAC of RFC 4187: the first 16 octets of the HMAC over the packet with
    a zero MAC and the extra data. *)
Definition mac_of (eapType : Z) (kAut zeroed extra : bytes) : bytes :=
  take 16 (hmac_Sum (mac_hash eapType) kAut (zeroed ++ extra)).

Lemma len_mac_of ty kAut zeroed extra : len (mac_of ty kAut zeroed extra) = 16.
Proof.
  unfold mac_of. apply (len_take_le _ 16). unfold mac_hash. case_match; rewrite hmac_len by done; cbn; lia.
Qed.

Lemma calculatePacketMAC_unfold ty kAut raw extra :
  calculatePacketMAC ty kAut raw extra =
    if len kAut =? mac_key_len ty then
      let! zeroed := packetWithZeroedMAC raw in Ok (mac_of ty kAut zeroed extra)
    else Errorf ErrInvalidKeyMaterial.
Proof.
  unfold calculatePacketMAC, CalculateAKAPrimeMAC, CalculateMAC, calculateMAC, mac_key_len, mac_of, mac_hash.
  destruct (ty =? TypeAKAPrime).
  - destruct (Z.eqb_spec (len kAut) KeyLengthAKAPrimeKAut) as [->|]; [|done]. cbn [negb].
    change (KeyLengthAKAPrimeKAut =? 0) with false. cbv iota. destruct (packetWithZeroedMAC raw); try done. cbn [bind].
    rewrite slice_Ok; [done|lia|]. rewrite hmac_len by done. cbn. lia.
  - destruct (Z.eqb_spec (len kAut) KeyLengthKAut) as [->|]; [|done]. cbn [negb].
    change (KeyLengthKAut =? 0) with false. cbv iota. destruct (packetWithZeroedMAC raw); try done. cbn [bind].
    rewrite slice_Ok; [done|lia|]. rewrite hmac_len by done. cbn. lia.
Qed.

Lemma verifyPacketMAC_unfold ty kAut raw extra :
  verifyPacketMAC ty kAut raw extra =
    let! actual := packetMAC raw in
    let! expected := calculatePacketMAC ty kAut raw extra in
    if negb (bytesEqual actual expected) then Errorf ErrInvalidMAC else Ok tt.
Proof. unfold verifyPacketMAC, calculatePacketMAC. by destruct (ty =? TypeAKAPrime). Qed.

Lemma calculatePacketMAC_spec ty kAut p pre mac post extra :
  mac_packet p pre mac post -> len kAut = mac_key_len ty ->
  calculatePacketMAC ty kAut (packet_wire p) extra = Ok (mac_of ty kAut (zeroed_wire p pre post) extra).
Proof.
  intros Hp Hk. rewrite calculatePacketMAC_unfold, Hk, Z.eqb_refl, (packetWithZeroedMAC_spec p pre mac post) by done. done.
Qed.

Lemma verifyPacketMAC_spec ty kAut p pre mac post extra :
  mac_packet p pre mac post -> len kAut = mac_key_len ty ->
  verifyPacketMAC ty kAut (packet_wire p) extra =
    if decide (mac = mac_of ty kAut (zeroed_wire p pre post) extra) then Ok tt else Errorf ErrInvalidMAC.
Proof.
  intros Hp Hk. rewrite verifyPacketMAC_unfold, (packetMAC_spec p pre mac post) by done. cbn [bind].
  rewrite (calculatePacketMAC_spec ty kAut p pre mac post) by done. cbn [bind].
  unfold bytesEqual. case_decide; case_bool_decide; done.
Qed.

(** A packet whose last attribute is the zero AT_MAC, completed with the
    computed MAC: the result verifies under the same key and extra data. *)
Lemma mac_packet_last p pre mac :
  packet_fits (set_attributes p (pre ++ [MACAttribute []])) -> no_mac pre -> len mac = 16 ->
  mac_packet (set_attributes p (pre ++ [MACAttribute mac])) pre mac [].
Proof.
  intros [Hfit Hlen] Hpre Hl. cbn [set_attributes pk_Attributes] in *. apply Forall_app in Hfit as [Hf1 _].
  constructor; [|done|done|done|constructor]. split; cbn [set_attributes pk_Attributes].
  - apply Forall_app. split; [done|]. constructor; [apply MACAttribute_fits|constructor].
  - assert (Hz : enc_attribute (MACAttribute []) = [AttributeMAC; 5; 0; 0] ++ replicate 16 0) by reflexivity.
    rewrite enc_attributes_app, enc_attributes_cons, len_app, len_app in Hlen |- *. rewrite Hz in Hlen. rewrite enc_MACAttribute by done.
    rewrite len_app in *. rewrite Hl. exact Hlen.
Qed.

Lemma complete_MAC ty kAut p pre extra raw mac :
  plain_packet p -> no_mac pre ->
  Packet_MarshalBinary (set_attributes p (pre ++ [MACAttribute []])) = Ok raw ->
  calculatePacketMAC ty kAut raw extra = Ok mac ->
  len kAut = mac_key_len ty /\ len mac = 16 /\ bytes_ok mac /\
  exists raw', Packet_MarshalBinary (set_attributes p (pre ++ [MACAttribute mac])) = Ok raw' /\
    verifyPacketMAC ty kAut raw' extra = Ok tt.
Proof.
  intros Hplain Hpre Hraw Hmac. apply marshal_packet in Hraw as [Hfit ->]; [|exact Hplain].
  assert (H0 : mac_packet (set_attributes p (pre ++ [MACAttribute []])) pre (replicate 16 0) []).
  { apply (mac_packet_last p pre (replicate 16 0)); done. }
  assert (len kAut = mac_key_len ty) as Hk.
  { rewrite calculatePacketMAC_unfold in Hmac. destruct (Z.eqb_spec (len kAut) (mac_key_len ty)); done. }
  rewrite (calculatePacketMAC_spec ty kAut _ pre (replicate 16 0) []) in Hmac by done.
  injection Hmac as <-. pose proof (len_mac_of ty kAut (zeroed_wire (set_attributes p (pre ++ [MACAttribute []])) pre []) extra) as Hl.
  split; [done|]. split; [done|]. split; [apply bytes_ok_take, hmac_ok|]. set (mac := mac_of _ _ _ _) in *.
  pose proof (mac_packet_last p pre mac Hfit Hpre Hl) as Hm. eexists. split.
  - apply marshal_packet; [exact Hplain|]. split; [apply (mp_fits _ _ _ _ Hm)|reflexivity].
  - rewrite (verifyPacketMAC_spec ty kAut _ pre mac []) by done. rewrite decide_True; [done|]. reflexivity.
Qed.
End mac_spec.

(** The receiver of an AKA response without raw data. *)
Lemma response_roundtrip p raw :
  Packet_ok p -> pk_Code p = CodeResponse -> pk_Data p = [] -> isAKAType (pk_EapType p) = true ->
  Packet_MarshalBinary p = Ok raw ->
  ParsePacket raw = Ok (mkPacket CodeResponse (pk_Identifier p) (eap_type p) (pk_Subtype p) (wire <$> pk_Attributes p) []).
Proof.
  intros Hok Hc Hd Hty Hraw.
  assert (eap_type p = TypeAKA \/ eap_type p = TypeAKAPrime) as Ht.
  { unfold isAKAType in Hty. unfold eap_type. destruct (Z.eqb_spec (pk_EapType p) 0); [by left|]. lia. }
  rewrite (Packet_roundtrip p raw Hok); [|by right; right; left|exact Hraw]. f_equal. unfold received. rewrite Hc.
  change ((CodeResponse =? CodeSuccess) || (CodeResponse =? CodeFailure)) with false. cbv iota.
  by replace ((eap_type p =? TypeAKA) || (eap_type p =? TypeAKAPrime)) with true by (destruct Ht as [-> | ->]; done).
Qed.

(** ** Arbitrary octets *)
Lemma find_mac_loop_safe fuel packet packetLen offset fo fl :
  bytes_ok packet -> packetLen <= len packet -> 0 <= offset -> (Z.to_nat (packetLen - offset) < fuel)%nat ->
  (fo < 0 \/ (8 <= fo /\ 4 <= fl /\ fo + fl <= len packet)) -> 8 <= offset ->
  safe (find_mac_loop fuel packet packetLen offset fo fl) (fun '(o, l) => 8 <= o /\ 4 <= l /\ o + l <= len packet).
Proof.
  intros Hb Hl. revert offset fo fl. induction fuel as [|fuel IH]; intros offset fo fl Ho Hf Hfo H8; [lia|]. cbn [find_mac_loop].
  go_case H1.
  - go_case H2; [done|]. apply safe_bind, safe_at; [done|lia|]. intros w Hw _. go_case H3; [done|].
    apply safe_bind, safe_at; [done|lia|]. intros ty _ _. go_case H4; [go_case H5; [done|]|]; (apply IH; lia).
  - go_case H2; [|done]. cbn. lia.
Qed.
Lemma findMACAttribute_safe packet :
  bytes_ok packet -> safe (findMACAttribute packet) (fun '(o, l) => 8 <= o /\ 4 <= l /\ o + l <= len packet).
Proof.
  intros Hb. unfold findMACAttribute. go_case H0; [done|]. apply safe_bind, safe_u16_at; [done|lia|lia|lia|].
  intros packetLen Hp. go_case H1; [done|]. unfold in_range in Hp.
  apply find_mac_loop_safe; [done|lia|lia|unfold len in *; lia|by left|lia].
Qed.
Lemma zero_loop_safe n i out : 0 <= i -> i + Z.of_nat n <= len out -> returns (zero_loop n i out).
Proof.
  revert i out. induction n as [|n IH]; intros i out Hi Hl; [done|]. cbn [zero_loop]. go_if.
  apply IH; [lia|]. unfold len. rewrite length_insert. unfold len in Hl. lia.
Qed.
Lemma calculatePacketMAC_returns `{C : Crypto, !CryptoLaws C} ty kAut raw extra : bytes_ok raw -> returns (calculatePacketMAC ty kAut raw extra).
Proof.
  intros Hb. rewrite calculatePacketMAC_unfold. case_match; [|done]. unfold packetWithZeroedMAC.
  pose proof (findMACAttribute_safe raw Hb) as Hf. destruct (findMACAttribute raw) as [[o l]| | |]; try done. cbn [bind].
  cbn in Hf. case_match; [done|]. pose proof (zero_loop_safe (Z.to_nat (l - 2)) (o + 2) raw ltac:(lia) ltac:(lia)).
  by destruct (zero_loop _ _ _).
Qed.
Lemma verifyPacketMAC_returns `{C : Crypto, !CryptoLaws C} ty kAut raw extra : bytes_ok raw -> returns (verifyPacketMAC ty kAut raw extra).
Proof.
  intros Hb. rewrite verifyPacketMAC_unfold. unfold packetMAC. pose proof (findMACAttribute_safe raw Hb) as Hf.
  destruct (findMACAttribute raw) as [[o l]| | |]; try done. cbn [bind]. cbn in Hf. case_match; [done|].
  rewrite slice_Ok by lia. cbn [bind]. pose proof (calculatePacketMAC_returns ty kAut raw extra Hb).
  destruct (calculatePacketMAC _ _ _ _); try done. cbn [bind]. by case_match.
Qed.

(** ** Properties *)

(** AT_MAC verification is the check of RFC 4187: on any octets it returns;
    on a marshalled packet with one AT_MAC of 16 octets, and a K_aut of the
    method's length, it accepts exactly when the MAC is the first 16 octets of
    the HMAC (SHA-1 for EAP-AKA, SHA-256 for EAP-AKA') over the same packet
    with a zero MAC and the extra octets, wherever the attribute stands; a
    packet without AT_MAC or with a second one is [ErrInvalidMAC]. *)
Theorem verifyPacketMAC_correct (C : Crypto) (L : CryptoLaws C) ty kAut extra :
  (forall raw, bytes_ok raw -> returns (verifyPacketMAC ty kAut raw extra)) /\
  (forall p pre mac post, mac_packet p pre mac post -> len kAut = mac_key_len ty ->
     verifyPacketMAC ty kAut (packet_wire p) extra =
       if decide (mac = take 16 (hmac_Sum (mac_hash ty) kAut (zeroed_wire p pre post ++ extra)))
       then Ok tt else Errorf ErrInvalidMAC) /\
  (forall p, packet_fits p -> no_mac (pk_Attributes p) ->
     verifyPacketMAC ty kAut (packet_wire p) extra = Errorf ErrInvalidMAC) /\
  (forall p pre m mid m' post, packet_fits p -> pk_Attributes p = pre ++ m :: mid ++ m' :: post ->
     a_Type m = AttributeMAC -> a_Type m' = AttributeMAC -> no_mac pre -> no_mac mid ->
     verifyPacketMAC ty kAut (packet_wire p) extra = Errorf ErrInvalidMAC).
Proof.
  split; [intros; by apply verifyPacketMAC_returns|]. split; [intros; by apply verifyPacketMAC_spec|]. split.
  - intros p Hp Hno. rewrite verifyPacketMAC_unfold. unfold packetMAC. by rewrite findMACAttribute_missing.
  - intros. rewrite verifyPacketMAC_unfold. unfold packetMAC. by rewrite (findMACAttribute_duplicate p pre m mid m' post).
Qed.

Definition sample_mac_packet : Packet :=
  mkPacket CodeResponse 7 TypeAKA SubtypeChallenge [RESAttribute [1; 2; 3; 4]; MACAttribute (replicate 16 0)] [].
Lemma verifyPacketMAC_correct_witness :
  verifyPacketMAC (C := toy_crypto) TypeAKA (replicate 16 7) (packet_wire sample_mac_packet) []
    = Errorf ErrInvalidMAC.
Proof.
  rewrite (proj1 (proj2 (verifyPacketMAC_correct toy_crypto toy_crypto_laws TypeAKA (replicate 16 7) []))
    sample_mac_packet [RESAttribute [1; 2; 3; 4]] (replicate 16 0) []); [|constructor; by_decide|reflexivity].
  vm_compute. reflexivity.
Defined.
