(* ===== verification/EapCrypt.v ===== *)
(** * Encrypted attributes of EAP-AKA (engine/swu/eapaka/crypto.go)

    AT_ENCR_DATA: the AES-CBC encryption of marshalled attributes, padded with
    AT_PADDING to whole blocks, and its decryption with the padding checked
    and stripped. *)
From S2P Require Import Prelude Errors Crypto EapAka EapKeys EapMac.

(** A key of [aes.BlockSize] octets is one [aes.NewCipher] accepts. *)
Definition encryptedDataBlock (kEncr iv : bytes) : result unit :=
  if negb (len kEncr =? aes_BlockSize) then Errorf ErrInvalidKeyMaterial else
  if negb (len iv =? aes_BlockSize) then Errorf ErrInvalidEncryptedData else
  aes_NewCipher kEncr.

Definition encryptedPaddingAttribute (totalLength : Z) : result Attribute :=
  if (totalLength =? 4) || (totalLength =? 8) || (totalLength =? 12)
  then Ok (mkAttribute AttributePadding (replicate (Z.to_nat (totalLength - 2)) 0))
  else Errorf ErrInvalidEncryptedData.

(** [for i, attr := range attrs { ... }]; [before] is [attrs[:i]]. *)
Fixpoint strip_padding_loop (before rest : list Attribute) : result (list Attribute) :=
  match rest with
  | [] => Ok before
  | attr :: rest' =>
      if negb (a_Type attr =? AttributePadding) then strip_padding_loop (before ++ [attr]) rest' else
      if negb (len rest' =? 0) then Errorf ErrInvalidEncryptedData else
      let totalLength := len (a_Data attr) + 2 in
      if negb (totalLength =? 4) && negb (totalLength =? 8) && negb (totalLength =? 12) then Errorf ErrInvalidEncryptedData else
      if existsb (fun b => negb (b =? 0)) (a_Data attr) then Errorf ErrInvalidEncryptedData else
      Ok before
  end.
Definition stripEncryptedPadding (attrs : list Attribute) : result (list Attribute) := strip_padding_loop [] attrs.

Section encrypt.
Context {C : Crypto}.

Definition EncryptAttributes (kEncr iv : bytes) (attrs : list Attribute) : result Attribute :=
  let! _ := encryptedDataBlock kEncr iv in
  let! plaintext := MarshalAttributes attrs in
  let rem := Z.rem (len plaintext) aes_BlockSize in
  let! plaintext :=
    (if negb (rem =? 0) then
       let! padding := encryptedPaddingAttribute (aes_BlockSize - rem) in
       let! rawPadding := Attribute_MarshalBinary padding in
       Ok (plaintext ++ rawPadding)
     else Ok plaintext) in
  let ciphertext := cbc_CryptBlocks_enc kEncr iv plaintext in
  Ok (EncrDataAttribute ciphertext).

(** The error of [ParseAttributes] is formatted with [%v] into [ErrInvalidEncryptedData]. *)
Definition DecryptAttributes (kEncr iv : bytes) (encrypted : Attribute) : result (list Attribute) :=
  if negb (a_Type encrypted =? AttributeEncrData) then Errorf ErrInvalidEncryptedData else
  let! _ := encryptedDataBlock kEncr iv in
  let! ciphertext := EncrDataValue encrypted in
  if (len ciphertext =? 0) || negb (Z.rem (len ciphertext) aes_BlockSize =? 0) then Errorf ErrInvalidEncryptedData else
  let plaintext := cbc_CryptBlocks_dec kEncr iv ciphertext in
  let! attrs := map_err (fun _ => Sentinel ErrInvalidEncryptedData) (ParseAttributes plaintext) in
  stripEncryptedPadding attrs.

Definition DecryptEncryptedAttributes (kEncr : bytes) (ivAttr encrypted : Attribute) : result (list Attribute) :=
  let! iv := IVValue ivAttr in
  DecryptAttributes kEncr iv encrypted.

(** [([]Attribute, bool, error)]: the flag is returned with an error too. *)
Definition DecryptPacketEncryptedAttributes (request : Packet) (keys : Keys) : bool * result (list Attribute) :=
  match FindSingleAttribute (pk_Attributes request) AttributeIV with
  | (hasIV, Ok ivAttr) =>
      match FindSingleAttribute (pk_Attributes request) AttributeEncrData with
      | (hasEncrypted, Ok encryptedAttr) =>
          if negb hasIV && negb hasEncrypted then (false, Ok []) else
          if negb hasIV || negb hasEncrypted then (true, Errorf ErrInvalidEncryptedData) else
          (true, DecryptEncryptedAttributes (ks_KEncr keys) ivAttr encryptedAttr)
      | (_, r) => (true, let! _ := r in Ok [])
      end
  | (_, r) => (true, let! _ := r in Ok [])
  end.
Definition DecryptChallengeEncryptedAttributes (request : Packet) (keys : Keys) : bool * result (list Attribute) :=
  DecryptPacketEncryptedAttributes request keys.
End encrypt.

(** ** The round trip *)
Lemma MarshalAttributes_spec attrs b :
  MarshalAttributes attrs = Ok b <-> Forall attribute_fits attrs /\ b = enc_attributes attrs.
Proof. exact (marshal_attrs_loop_spec attrs [] b). Qed.
Lemma enc_attributes_mod4 attrs : Forall attribute_fits attrs -> len (enc_attributes attrs) mod 4 = 0.
Proof.
  induction 1 as [|a attrs Ha _ IH]; [done|]. rewrite enc_attributes_cons, len_app.
  destruct (enc_attribute_words a Ha) as (q & _ & -> & _). rewrite Z.add_comm, Z.mod_add by lia. exact IH.
Qed.

(** The padding that makes whole blocks. *)
Definition block_padding (n : Z) : list Attribute :=
  if n mod 16 =? 0 then [] else [mkAttribute AttributePadding (zeros (14 - n mod 16))].
Lemma block_padding_cases n :
  n mod 4 = 0 ->
  (block_padding n = [] /\ n mod 16 = 0) \/
  exists k, (k = 4 \/ k = 8 \/ k = 12) /\ n mod 16 = 16 - k /\ block_padding n = [mkAttribute AttributePadding (zeros (k - 2))].
Proof.
  intros Hn. unfold block_padding. pose proof (Z.mod_pos_bound n 16 ltac:(lia)).
  assert ((n mod 16) mod 4 = 0) as H4 by (rewrite <- Hn; apply Z.mod_mod_divide; by exists 4).
  destruct (Z.eqb_spec (n mod 16) 0) as [E|E]; [by left|right]. exists (16 - n mod 16).
  split; [|split; [lia|do 3 f_equal; lia]]. Z.div_mod_to_equations. lia.
Qed.
Lemma enc_padding k :
  k = 4 \/ k = 8 \/ k = 12 ->
  let pad := mkAttribute AttributePadding (zeros (k - 2)) in
  wire pad = pad /\ attribute_fits pad /\ len (enc_attribute pad) = k /\ encryptedPaddingAttribute k = Ok pad.
Proof. by intros [->|[->| ->]]. Qed.

Lemma padded_blocks attrs :
  Forall attribute_fits attrs ->
  len (enc_attributes (attrs ++ block_padding (len (enc_attributes attrs)))) mod 16 = 0.
Proof.
  intros Hf%enc_attributes_mod4. rewrite enc_attributes_app, len_app.
  destruct (block_padding_cases _ Hf) as [[-> ?]|(k & Hk & Hm & ->)]; [by rewrite Z.add_0_r|].
  rewrite enc_attributes_cons, app_nil_r. destruct (enc_padding k Hk) as (_ & _ & -> & _).
  rewrite <- Zplus_mod_idemp_l, Hm. by replace (16 - k + k) with 16 by lia.
Qed.

Lemma strip_padding_spec before attrs tail :
  Forall (fun a => a_Type a <> AttributePadding) attrs ->
  tail = [] \/ (exists k, (k = 4 \/ k = 8 \/ k = 12) /\ tail = [mkAttribute AttributePadding (zeros (k - 2))]) ->
  strip_padding_loop before (attrs ++ tail) = Ok (before ++ attrs).
Proof.
  intros Hno Ht. revert before. induction Hno as [|a attrs Ha _ IH]; intros before; cbn [app strip_padding_loop].
  - rewrite app_nil_r. destruct Ht as [->|(k & Hk & ->)]; [done|]. by destruct Hk as [->|[->| ->]].
  - replace (a_Type a =? AttributePadding) with false by lia. cbn [negb]. by rewrite IH, <- app_assoc.
Qed.
Lemma wire_type a : a_Type (wire a) = a_Type a.
Proof. reflexivity. Qed.

Section roundtrip.
Context {C : Crypto} `{!CryptoLaws C}.

Lemma encryptedDataBlock_Ok kEncr iv : len kEncr = 16 -> len iv = 16 -> encryptedDataBlock kEncr iv = Ok tt.
Proof. intros Hk Hi. unfold encryptedDataBlock, aes_NewCipher. by rewrite Hk, Hi. Qed.

Lemma EncryptAttributes_spec kEncr iv attrs :
  len kEncr = 16 -> len iv = 16 -> Forall attribute_fits attrs ->
  EncryptAttributes kEncr iv attrs =
    Ok (EncrDataAttribute (cbc_CryptBlocks_enc kEncr iv (enc_attributes (attrs ++ block_padding (len (enc_attributes attrs)))))).
Proof.
  intros Hk Hi Hf. unfold EncryptAttributes. rewrite encryptedDataBlock_Ok by done. cbn [bind].
  rewrite (proj2 (MarshalAttributes_spec attrs _) (conj Hf eq_refl)). cbn [bind].
  pose proof (len_nonneg (enc_attributes attrs)). unfold aes_BlockSize. rewrite Z.rem_mod_nonneg by lia.
  destruct (block_padding_cases _ (enc_attributes_mod4 attrs Hf)) as [[-> ->]|(k & Hkk & Hm & ->)].
  - cbn [bind]. by rewrite app_nil_r.
  - rewrite Hm. replace (16 - k =? 0) with false by lia. cbn [negb]. replace (16 - (16 - k)) with k by lia.
    destruct (enc_padding k Hkk) as (_ & Hpf & _ & ->). cbn [bind].
    rewrite (proj2 (attribute_marshal_spec _ _) (conj Hpf eq_refl)). cbn [bind].
    by rewrite enc_attributes_app, enc_attributes_cons, app_nil_r.
Qed.

Lemma DecryptAttributes_spec kEncr iv attrs tail :
  len kEncr = 16 -> len iv = 16 -> Forall attribute_fits (attrs ++ tail) -> Forall Attribute_ok (attrs ++ tail) -> attrs <> [] ->
  Forall (fun a => a_Type a <> AttributePadding) attrs -> len (enc_attributes (attrs ++ tail)) mod 16 = 0 ->
  tail = [] \/ (exists k, (k = 4 \/ k = 8 \/ k = 12) /\ tail = [mkAttribute AttributePadding (zeros (k - 2))]) ->
  DecryptAttributes kEncr iv (EncrDataAttribute (cbc_CryptBlocks_enc kEncr iv (enc_attributes (attrs ++ tail)))) = Ok (wire <$> attrs).
Proof.
  intros Hk Hi Hf Hok Hne Hno Hm Ht. unfold DecryptAttributes, EncrDataAttribute, FixedAttribute. cbn [a_Type].
  change (negb (AttributeEncrData =? AttributeEncrData)) with false. cbv iota. rewrite encryptedDataBlock_Ok by done. cbn [bind].
  unfold EncrDataValue. cbn [a_Data]. set (P := enc_attributes (attrs ++ tail)) in *. set (c := cbc_CryptBlocks_enc kEncr iv P).
  assert (Hc : len c = len P) by apply cbc_enc_len. pose proof (len_nonneg c).
  replace (len ([0; 0] ++ c) <? 2) with false by (symmetry; len_lia).
  rewrite requireReservedZero_framed. cbn [bind]. rewrite (slice_from_eq _ [0; 0] c) by done. cbn [bind].
  assert (len P <> 0) as HP.
  { intros H0%len_zero. destruct attrs as [|a attrs]; [done|]. cbn [app] in Hf. apply Forall_cons in Hf as [Ha _].
    destruct (enc_attribute_words a Ha) as (q & _ & _ & He). unfold P in H0. cbn [app] in H0. rewrite enc_attributes_cons, He in H0. done. }
  rewrite Hc. unfold aes_BlockSize. rewrite Z.rem_mod_nonneg, Hm by lia. replace (len P =? 0) with false by lia. cbn [negb orb Z.eqb].
  unfold c. rewrite cbc_dec_enc by (by apply enc_attributes_ok). unfold P, enc_attributes.
  rewrite ParseAttributes_enc by done. cbn [map_err bind]. rewrite fmap_app. unfold stripEncryptedPadding.
  assert (Htail : wire <$> tail = tail).
  { destruct Ht as [->|(k & Hkk & ->)]; [done|]. cbn [fmap list_fmap]. destruct (enc_padding k Hkk) as (-> & _). done. }
  rewrite Htail, strip_padding_spec; [done| |done]. apply Forall_fmap. exact Hno.
Qed.

Lemma encrypt_decrypt kEncr iv attrs :
  len kEncr = 16 -> len iv = 16 -> Forall attribute_fits attrs -> Forall Attribute_ok attrs -> attrs <> [] ->
  Forall (fun a => a_Type a <> AttributePadding) attrs ->
  exists c, EncryptAttributes kEncr iv attrs = Ok (EncrDataAttribute c) /\ len c mod 16 = 0 /\
    len c <= len (enc_attributes attrs) + 12 /\ bytes_ok c /\
    DecryptAttributes kEncr iv (EncrDataAttribute c) = Ok (wire <$> attrs).
Proof.
  intros Hk Hi Hf Hok Hne Hno. pose proof (padded_blocks attrs Hf) as Hm. pose proof (enc_attributes_mod4 attrs Hf) as H4.
  eexists. split; [by apply EncryptAttributes_spec|]. set (tail := block_padding _) in *.
  assert (Ht : tail = [] \/ (exists k, (k = 4 \/ k = 8 \/ k = 12) /\ tail = [mkAttribute AttributePadding (zeros (k - 2))])).
  { unfold tail. destruct (block_padding_cases _ H4) as [[-> _]|(k & Hkk & _ & ->)]; [by left|right; eauto]. }
  assert (Forall attribute_fits tail /\ Forall Attribute_ok tail /\ len (enc_attributes tail) <= 12) as (Htf & Hto & Htl).
  { destruct Ht as [->|(k & Hkk & ->)]; [split_and!; constructor || done|]. destruct (enc_padding k Hkk) as (_ & ? & Hl & _).
    split; [by repeat constructor|]. split; [constructor; [split; [done|apply zeros_ok]|constructor]|].
    rewrite enc_attributes_cons, len_app, Hl. change (enc_attributes []) with (@nil Z). rewrite len_nil. lia. }
  assert (Forall attribute_fits (attrs ++ tail)) by by apply Forall_app. assert (Forall Attribute_ok (attrs ++ tail)) by by apply Forall_app.
  rewrite cbc_enc_len. split; [exact Hm|]. split; [rewrite enc_attributes_app, len_app; lia|].
  split; [apply cbc_enc_ok; by apply enc_attributes_ok|]. by apply DecryptAttributes_spec.
Qed.
End roundtrip.

(** ** Arbitrary input *)
Lemma all_zeros (l : bytes) : Forall (fun b => b = 0) l -> l = replicate (length l) 0.
Proof. induction 1 as [|b l -> _ IH]; [done|]. cbn [length replicate]. by f_equal. Qed.
Lemma strip_padding_sound before rest out :
  strip_padding_loop before rest = Ok out -> exists kept tail, out = before ++ kept /\ rest = kept ++ tail /\
    Forall (fun a => a_Type a <> AttributePadding) kept /\
    (tail = [] \/ exists pad, tail = [pad] /\ a_Type pad = AttributePadding /\ len (a_Data pad) + 2 <= 12 /\ a_Data pad = zeros (len (a_Data pad))).
Proof.
  revert before. induction rest as [|a rest IH]; intros before; cbn [strip_padding_loop].
  { intros [= <-]. exists [], []. rewrite app_nil_r. split_and!; [done|done|constructor|by left]. }
  destruct (Z.eqb_spec (a_Type a) AttributePadding) as [Ht|Ht]; cbn [negb].
  - destruct (Z.eqb_spec (len rest) 0) as [->%len_zero|]; [|done]. cbn [negb]. go_case Hl; [done|]. go_case Hz; [done|].
    intros [= <-]. exists [], [a]. rewrite app_nil_r. split; [done|]. split; [done|]. split; [constructor|]. right. exists a.
    split; [done|]. split; [done|]. split; [lia|]. unfold zeros, len. rewrite Nat2Z.id.
    assert (Forall (fun b => b = 0) (a_Data a)) as H0.
    { apply Forall_forall. intros b Hb%list_elem_of_In. apply not_true_iff_false in Hz. destruct (Z.eqb_spec b 0); [done|].
      exfalso. apply Hz, existsb_exists. exists b. split; [done|]. by replace (b =? 0) with false by lia. }
    by apply all_zeros.
  - intros (kept & tail & -> & -> & Hk & Htl)%IH. exists (a :: kept), tail. rewrite <- app_assoc. split; [done|]. split; [done|].
    split; [by constructor|done].
Qed.
Lemma strip_padding_returns before rest : returns (strip_padding_loop before rest).
Proof. revert before. induction rest as [|a rest IH]; intros before; cbn [strip_padding_loop]; [done|]. repeat (case_match; try done). Qed.

Lemma identity_state_returns attrs : Forall Attribute_ok attrs -> returns (IdentityStateFromAttributes attrs).
Proof.
  intros Ha. unfold IdentityStateFromAttributes. generalize (mkIdentityState [] []). induction Ha as [|a attrs [_ Hd] _ IH]; intros out; [done|].
  cbn [identity_state_loop]. pose proof (VariableValue_safe a Hd) as Hv. unfold NextPseudonymValue, NextReauthIDValue.
  case_match; [|case_match; [|apply IH]]; (destruct (VariableValue a); try done; cbn [bind]; apply IH).
Qed.

Section total.
Context {C : Crypto} `{!CryptoLaws C}.

Lemma EncrDataValue_bytes a : bytes_ok (a_Data a) -> safe (EncrDataValue a) bytes_ok.
Proof.
  intros Hd. unfold EncrDataValue. go_case H0; [done|].
  eapply safe_call; [by apply requireReservedZero_safe|]. intros _ _. apply safe_slice_from; [done|lia|]. auto.
Qed.

Lemma DecryptAttributes_safe kEncr iv a :
  bytes_ok (a_Data a) -> safe (DecryptAttributes kEncr iv a) (fun attrs =>
    Forall Attribute_ok attrs /\ Forall attribute_fits attrs /\ Forall (fun a => a_Type a <> AttributePadding) attrs).
Proof.
  intros Hd. unfold DecryptAttributes. go_case H0; [done|].
  assert (Hb : returns (encryptedDataBlock kEncr iv)) by (unfold encryptedDataBlock, aes_NewCipher; by repeat case_match).
  destruct (encryptedDataBlock kEncr iv); try done. cbn [bind].
  eapply safe_call; [by apply EncrDataValue_bytes|]. intros c Hc. go_case H1; [done|].
  pose proof (ParseAttributes_safe (cbc_CryptBlocks_dec kEncr iv c) (cbc_dec_ok kEncr iv c Hc)) as Hp.
  destruct (ParseAttributes _) as [attrs| | |]; try done. cbn [map_err bind]. cbn in Hp. destruct Hp as (Hok & Hfit & _ & _).
  unfold stripEncryptedPadding. pose proof (strip_padding_returns [] attrs) as Hr.
  destruct (strip_padding_loop [] attrs) as [out| | |] eqn:Hs; try done.
  destruct (strip_padding_sound _ _ _ Hs) as (kept & tail & -> & -> & Hno & _). cbn.
  apply Forall_app in Hok as [? _]. apply Forall_app in Hfit as [? _]. done.
Qed.

Lemma FindSingleAttribute_ok attrs t a ok :
  Forall Attribute_ok attrs -> FindSingleAttribute attrs t = (ok, Ok a) -> Attribute_ok a.
Proof.
  intros Ha. rewrite FindSingleAttribute_spec. pose proof (of_type_ok t attrs Ha) as Hf.
  destruct (of_type t attrs) as [|x [|y l]]; [|apply Forall_cons in Hf as [Hx _]|]; intros [= <- <-]; [split; [done|constructor]|done].
Qed.
Lemma FindSingleAttribute_returns attrs t : returns (FindSingleAttribute attrs t).2.
Proof. rewrite FindSingleAttribute_spec. by repeat case_match. Qed.

Lemma DecryptPacketEncryptedAttributes_safe p keys :
  Packet_ok p -> safe (DecryptPacketEncryptedAttributes p keys).2 (fun attrs => Forall Attribute_ok attrs).
Proof.
  intros (_ & _ & _ & _ & Ha & _). unfold DecryptPacketEncryptedAttributes.
  destruct (FindSingleAttribute _ AttributeIV) as [hi ri] eqn:Hi. pose proof (FindSingleAttribute_returns (pk_Attributes p) AttributeIV) as Hri. rewrite Hi in Hri.
  destruct ri as [iv| | |]; try done. apply FindSingleAttribute_ok in Hi; [|done].
  destruct (FindSingleAttribute _ AttributeEncrData) as [he re] eqn:He. pose proof (FindSingleAttribute_returns (pk_Attributes p) AttributeEncrData) as Hre. rewrite He in Hre.
  destruct re as [enc| | |]; try done. apply FindSingleAttribute_ok in He; [|done].
  destruct (negb hi && negb he); [constructor|]. destruct (negb hi || negb he); [done|]. cbn [snd].
  unfold DecryptEncryptedAttributes. eapply safe_call; [apply fixedValueExact_safe, Hi|]. intros v _.
  eapply safe_mono; [apply DecryptAttributes_safe, He|]. by intros attrs (? & _).
Qed.
End total.

(** ** Properties *)

(** AT_ENCR_DATA round trip: under a 16-octet K_encr and IV, attributes that fit
    the wire and are no AT_PADDING encrypt to whole AES blocks, at most 12 octets
    longer than their encoding, and the attribute decrypts to the same attributes
    as a receiver sees them (4-octet aligned), the padding stripped; with no
    attribute at all the ciphertext is empty and decryption refuses it. *)
Theorem encrypted_attributes_roundtrip (C : Crypto) (L : CryptoLaws C) kEncr iv attrs :
  len kEncr = 16 -> len iv = 16 -> Forall attribute_fits attrs -> Forall Attribute_ok attrs ->
  Forall (fun a => a_Type a <> AttributePadding) attrs ->
  exists c, EncryptAttributes kEncr iv attrs = Ok (EncrDataAttribute c) /\ len c mod 16 = 0 /\
    len c <= len (enc_attributes attrs) + 12 /\
    DecryptAttributes kEncr iv (EncrDataAttribute c) =
      match attrs with [] => Errorf ErrInvalidEncryptedData | _ => Ok (wire <$> attrs) end.
Proof.
  intros Hk Hi Hf Hok Hno. destruct attrs as [|a attrs].
  - exists []. rewrite EncryptAttributes_spec by done. change (enc_attributes ([] ++ _)) with (@nil Z).
    assert (cbc_CryptBlocks_enc kEncr iv [] = []) as -> by (apply len_zero; by rewrite cbc_enc_len).
    split; [done|]. split; [done|]. split; [rewrite len_nil; pose proof (len_nonneg (enc_attributes [])); lia|].
    unfold DecryptAttributes. cbn [EncrDataAttribute FixedAttribute a_Type]. change (negb (AttributeEncrData =? AttributeEncrData)) with false.
    cbv iota. by rewrite encryptedDataBlock_Ok.
  - destruct (encrypt_decrypt kEncr iv (a :: attrs)) as (c & He & Hm & Hl & _ & Hd); [done..|]. by exists c.
Qed.

Definition sample_counter_attrs := [CounterAttribute 7; NonceSAttribute (replicate 16 1)].
Lemma encrypted_attributes_roundtrip_witness :
  exists c, EncryptAttributes (C := toy_crypto) (replicate 16 1) (replicate 16 2) sample_counter_attrs = Ok (EncrDataAttribute c) /\
    DecryptAttributes (C := toy_crypto) (replicate 16 1) (replicate 16 2) (EncrDataAttribute c) = Ok sample_counter_attrs.
Proof.
  destruct (encrypted_attributes_roundtrip toy_crypto toy_crypto_laws (replicate 16 1) (replicate 16 2) sample_counter_attrs)
    as (c & He & _ & _ & Hd); [reflexivity|reflexivity|repeat constructor; discriminate|by_decide|repeat constructor; discriminate|].
  exists c. split; [exact He|exact Hd].
Defined.
