(* ===== verification/EapReauth.v ===== *)
(** * Fast re-authentication of EAP-AKA (engine/swu/eapaka/crypto.go)

    Parsing of authenticated and encrypted re-authentication requests and
    responses, the response of the peer, the counter check and the
    counter-too-small response. *)
From S2P Require Import Prelude Errors Crypto EapAka EapKeys EapMac EapCrypt.

Record ReauthenticationRequest := mkReauthRequest {
  rq_Counter : Z;
  rq_NonceS : bytes;
  rq_IdentityState : EncryptedIdentityState;
  rq_EncryptedAttributes : list Attribute
}.
Record ReauthenticationResponse := mkReauthResponse {
  rs_Counter : Z;
  rs_CounterTooSmall : bool;
  rs_ResultInd : bool;
  rs_IdentityState : EncryptedIdentityState;
  rs_EncryptedAttributes : list Attribute
}.

Definition validateReauthenticationMethod (eapType : Z) (keys : Keys) : result unit :=
  if negb (len (ks_KEncr keys) =? KeyLengthKEncr) then Errorf ErrInvalidKeyMaterial else
  if eapType =? TypeAKAPrime then
    if negb (len (ks_KRe keys) =? KeyLengthKRe) then Errorf ErrInvalidKeyMaterial else
    if negb (len (ks_KAut keys) =? KeyLengthAKAPrimeKAut) then Errorf ErrInvalidKeyMaterial else Ok tt
  else if (eapType =? 0) || (eapType =? TypeAKA) then
    if 0 <? len (ks_KRe keys) then Errorf ErrInvalidReauth else
    if negb (len (ks_KAut keys) =? 0) && negb (len (ks_KAut keys) =? KeyLengthKAut) then Errorf ErrInvalidKeyMaterial else Ok tt
  else Ok tt.

(** [v, ok, err := f(...); if err != nil { return err }; if !ok { return missing }] *)
Definition present {A} (missing : sentinel) (r : bool * result A) : result A :=
  let! v := r.2 in if negb r.1 then Errorf missing else Ok v.
(** [found, err := f(...)], for a flag attribute. *)
Definition flag (r : bool * result unit) : result bool := let! _ := r.2 in Ok r.1.

Section reauth.
Context {C : Crypto}.

Definition ParseReauthenticationRequest (request : Packet) (keys : Keys) : result ReauthenticationRequest :=
  if negb (pk_Code request =? CodeRequest) || negb (pk_Subtype request =? SubtypeReauthentication) then Errorf ErrInvalidReauth else
  if negb (isAKAType (pk_EapType request)) then Errorf ErrInvalidReauth else
  let! _ := validateReauthenticationMethod (pk_EapType request) keys in
  let! raw := Packet_MarshalBinary request in
  let! _ := verifyChallengeMAC (pk_EapType request) (ks_KAut keys) raw in
  let! attrs := present ErrInvalidReauth (DecryptPacketEncryptedAttributes request keys) in
  let! counter := present ErrInvalidReauth (CounterFromAttributes attrs) in
  let! nonceS := present ErrInvalidReauth (NonceSFromAttributes attrs) in
  let! state := IdentityStateFromAttributes attrs in
  Ok (mkReauthRequest counter nonceS state attrs).

Definition ParseReauthenticationResponse (response : Packet) (keys : Keys) (nonceS : bytes) : result ReauthenticationResponse :=
  if negb (pk_Code response =? CodeResponse) || negb (pk_Subtype response =? SubtypeReauthentication) then Errorf ErrInvalidReauth else
  if negb (isAKAType (pk_EapType response)) then Errorf ErrInvalidReauth else
  if negb (len nonceS =? RANDLength) then Errorf ErrInvalidReauth else
  let! _ := validateReauthenticationMethod (pk_EapType response) keys in
  let! raw := Packet_MarshalBinary response in
  let! _ := verifyPacketMAC (pk_EapType response) (ks_KAut keys) raw nonceS in
  let! attrs := present ErrInvalidReauth (DecryptPacketEncryptedAttributes response keys) in
  let! counter := present ErrInvalidReauth (CounterFromAttributes attrs) in
  let! counterTooSmall := flag (CounterTooSmallFromAttributes attrs) in
  let! resultInd := flag (ResultIndFromAttributes (pk_Attributes response)) in
  let! state := IdentityStateFromAttributes attrs in
  Ok (mkReauthResponse counter counterTooSmall resultInd state attrs).

Definition buildReauthenticationResponsePacket (request : Packet) (keys : Keys) (iv : bytes)
    (parsed : ReauthenticationRequest) (encryptedAttrs : list Attribute) : result Packet :=
  let! encrypted := EncryptAttributes (ks_KEncr keys) iv encryptedAttrs in
  let attrs := [IVAttribute iv; encrypted] in
  let attrs := match FindAttribute (pk_Attributes request) AttributeResultInd with
    | Some _ => attrs ++ [ResultIndAttribute]
    | None => attrs
    end in
  let eapType := if pk_EapType request =? 0 then TypeAKA else pk_EapType request in
  let response := mkPacket CodeResponse (pk_Identifier request) eapType SubtypeReauthentication (attrs ++ [MACAttribute []]) [] in
  let! raw := Packet_MarshalBinary response in
  let! mac := calculatePacketMAC (pk_EapType response) (ks_KAut keys) raw (rq_NonceS parsed) in
  Ok (set_attributes response (attrs ++ [MACAttribute mac])).

Definition buildReauthenticationResponse (identity : bytes) (request : Packet) (keys : Keys) (iv : bytes)
    (parsed : ReauthenticationRequest) : result (Packet * Keys) :=
  let! nextKeys := DeriveReauthenticationKeys identity keys (rq_Counter parsed) (rq_NonceS parsed) in
  let! response := buildReauthenticationResponsePacket request keys iv parsed [CounterAttribute (rq_Counter parsed)] in
  Ok (response, nextKeys).
Definition buildReauthenticationCounterTooSmallResponse (request : Packet) (keys : Keys) (iv : bytes)
    (parsed : ReauthenticationRequest) : result Packet :=
  buildReauthenticationResponsePacket request keys iv parsed [CounterTooSmallAttribute; CounterAttribute (rq_Counter parsed)].

Definition BuildReauthenticationResponse (identity : bytes) (request : Packet) (keys : Keys) (iv : bytes) : result (Packet * Keys) :=
  let! parsed := ParseReauthenticationRequest request keys in
  buildReauthenticationResponse identity request keys iv parsed.
Definition BuildReauthenticationCounterTooSmallResponse (request : Packet) (keys : Keys) (iv : bytes) : result Packet :=
  let! parsed := ParseReauthenticationRequest request keys in
  buildReauthenticationCounterTooSmallResponse request keys iv parsed.
Definition BuildReauthenticationResponseWithCounterCheck (identity : bytes) (request : Packet) (keys : Keys) (iv : bytes)
    (lastCounter : Z) (lastCounterKnown : bool) : result (Packet * Keys * bool) :=
  let! parsed := ParseReauthenticationRequest request keys in
  if lastCounterKnown && (rq_Counter parsed <=? lastCounter) then
    let! response := buildReauthenticationCounterTooSmallResponse request keys iv parsed in
    Ok (response, keys, true)
  else
    let! r := buildReauthenticationResponse identity request keys iv parsed in
    Ok (r.1, r.2, false).
End reauth.

(** ** The response and its receiver *)
Section spec.
Context {C : Crypto} `{!CryptoLaws C}.

(** The clear attributes of a response before its AT_MAC. *)
Definition response_clear (request : Packet) (iv c : bytes) : list Attribute :=
  IVAttribute iv :: EncrDataAttribute c ::
  match FindAttribute (pk_Attributes request) AttributeResultInd with Some _ => [ResultIndAttribute] | None => [] end.
Definition response_packet (request : Packet) (attrs : list Attribute) : Packet :=
  mkPacket CodeResponse (pk_Identifier request) (eap_type request) SubtypeReauthentication attrs [].

Lemma wire_fixed16 t v : len v mod 4 = 0 -> wire (FixedAttribute t v) = FixedAttribute t v.
Proof.
  intros Hv. apply wire_idem. cbn [FixedAttribute a_Data]. rewrite len_app. change (len [0; 0]) with 2.
  rewrite Z.add_assoc. change (2 + 2) with (1 * 4). rewrite Z.add_comm, Z.mod_add by lia. exact Hv.
Qed.

Lemma validateReauthenticationMethod_type request keys :
  validateReauthenticationMethod (eap_type request) keys = validateReauthenticationMethod (pk_EapType request) keys.
Proof. unfold eap_type. destruct (Z.eqb_spec (pk_EapType request) 0) as [->|]; done. Qed.
Lemma isAKAType_eap_type request : isAKAType (pk_EapType request) = true ->
  (eap_type request = TypeAKA \/ eap_type request = TypeAKAPrime).
Proof. unfold isAKAType, eap_type. intros H. destruct (Z.eqb_spec (pk_EapType request) 0); [by left|]. lia. Qed.

Lemma buildReauthenticationResponsePacket_spec request keys iv parsed encryptedAttrs response :
  buildReauthenticationResponsePacket request keys iv parsed encryptedAttrs = Ok response ->
  exists c mac raw,
    EncryptAttributes (ks_KEncr keys) iv encryptedAttrs = Ok (EncrDataAttribute c) /\
    len (ks_KEncr keys) = 16 /\ len iv = 16 /\ len mac = 16 /\ bytes_ok mac /\
    response = response_packet request (response_clear request iv c ++ [MACAttribute mac]) /\
    Packet_MarshalBinary response = Ok raw /\
    verifyPacketMAC (eap_type request) (ks_KAut keys) raw (rq_NonceS parsed) = Ok tt.
Proof.
  unfold buildReauthenticationResponsePacket. intros (enc & He & H)%bind_ok. cbv zeta in H.
  assert (len (ks_KEncr keys) = 16 /\ len iv = 16) as [Hk Hi].
  { unfold EncryptAttributes in He. apply bind_ok in He as ([] & He & _). unfold encryptedDataBlock in He.
    destruct (Z.eqb_spec (len (ks_KEncr keys)) aes_BlockSize); [|done]. by destruct (Z.eqb_spec (len iv) aes_BlockSize). }
  assert (Forall attribute_fits encryptedAttrs) as Hf.
  { unfold EncryptAttributes in He. apply bind_ok in He as ([] & _ & He). apply bind_ok in He as (pl & Hpl & _).
    by apply MarshalAttributes_spec in Hpl as [? _]. }
  pose proof (EncryptAttributes_spec (ks_KEncr keys) iv encryptedAttrs Hk Hi Hf) as He'. set (c := cbc_CryptBlocks_enc _ _ _) in He'.
  assert (enc = EncrDataAttribute c) as -> by congruence.
  replace (match FindAttribute (pk_Attributes request) AttributeResultInd with
    | Some _ => [IVAttribute iv; EncrDataAttribute c] ++ [ResultIndAttribute] | None => [IVAttribute iv; EncrDataAttribute c] end)
    with (response_clear request iv c) in H by (unfold response_clear; by destruct (FindAttribute _ _)).
  fold (eap_type request) in H. apply bind_ok in H as (raw & Hraw & H). apply bind_ok in H as (mac & Hmac & [= <-]).
  destruct (complete_MAC (eap_type request) (ks_KAut keys) (response_packet request []) (response_clear request iv c)
    (rq_NonceS parsed) raw mac) as (Hka & Hml & Hmb & raw' & Hraw' & Hv); [by split; [right|]| |exact Hraw|exact Hmac|].
  { unfold response_clear. constructor; [done|]. constructor; [done|]. destruct (FindAttribute _ _); [by constructor|constructor]. }
  exists c, mac, raw'. split_and!; try done.
Qed.

(** *** What a parsed request guarantees *)
Lemma present_single {A} missing attrs t (zero : A) get Q :
  Forall Attribute_ok attrs -> (forall a, Attribute_ok a -> safe (get a) Q) -> safe (present missing (single_value attrs t zero get)) Q.
Proof.
  intros Ha Hg. rewrite single_value_spec. pose proof (of_type_ok t attrs Ha) as Hf. unfold present.
  destruct (of_type t attrs) as [|a [|b l]]; cbn; [done| |done]. apply Forall_cons in Hf as [Hx _].
  eapply safe_call; [by apply Hg|]. intros v Hv. exact Hv.
Qed.
Lemma flag_single_returns {A} attrs t (zero : A) get :
  Forall Attribute_ok attrs -> (forall a, Attribute_ok a -> returns (get a)) -> returns (single_value attrs t zero get).2.
Proof.
  intros Ha Hg. rewrite single_value_spec. pose proof (of_type_ok t attrs Ha) as Hf.
  destruct (of_type t attrs) as [|a [|b l]]; [done| |done]. apply Forall_cons in Hf as [Hx _]. by apply Hg.
Qed.
Lemma validateReauthenticationMethod_returns ty keys : returns (validateReauthenticationMethod ty keys).
Proof. unfold validateReauthenticationMethod. by repeat case_match. Qed.

(** The request was sent by a holder of K_aut: its AT_MAC verifies, and its
    counter and nonce come from attributes encrypted under K_encr. *)
Definition reauth_authentic (request : Packet) (keys : Keys) (r : ReauthenticationRequest) : Prop :=
  is_u16 (rq_Counter r) /\ len (rq_NonceS r) = 16 /\ bytes_ok (rq_NonceS r) /\
  pk_Code request = CodeRequest /\ pk_Subtype request = SubtypeReauthentication /\ isAKAType (pk_EapType request) = true /\
  validateReauthenticationMethod (pk_EapType request) keys = Ok tt /\
  exists raw, Packet_MarshalBinary request = Ok raw /\ verifyPacketMAC (pk_EapType request) (ks_KAut keys) raw [] = Ok tt.

Lemma ParseReauthenticationRequest_safe request keys :
  Packet_ok request -> safe (ParseReauthenticationRequest request keys) (reauth_authentic request keys).
Proof.
  intros Hp. unfold ParseReauthenticationRequest, reauth_authentic.
  destruct (Z.eqb_spec (pk_Code request) CodeRequest) as [Hc|]; [|done].
  destruct (Z.eqb_spec (pk_Subtype request) SubtypeReauthentication) as [Hs|]; [|done]. cbn [negb orb].
  destruct (isAKAType (pk_EapType request)) eqn:Hty; [|done]. cbn [negb].
  pose proof (validateReauthenticationMethod_returns (pk_EapType request) keys) as Hvr.
  destruct (validateReauthenticationMethod (pk_EapType request) keys) as [[]| | |] eqn:Hv; try done. cbn [bind].
  pose proof (marshal_packet_safe request Hp) as Hm. destruct (Packet_MarshalBinary request) as [raw| | |] eqn:Hraw; try done. cbn in Hm.
  cbn [bind]. pose proof (verifyPacketMAC_returns (pk_EapType request) (ks_KAut keys) raw [] Hm) as Hmr. unfold verifyChallengeMAC.
  destruct (verifyPacketMAC _ _ raw []) as [[]| | |] eqn:Hmac; try done. cbn [bind].
  pose proof (DecryptPacketEncryptedAttributes_safe request keys Hp) as Hd. unfold present at 1.
  destruct (DecryptPacketEncryptedAttributes request keys) as [ok [attrs| | |]]; try done. cbn [fst snd bind] in *. destruct ok; [|done].
  cbn [negb bind]. cbn in Hd.
  eapply safe_call; [apply present_single; [exact Hd|intros a [_ Ha]; by apply directUint16Value_safe]|]. intros counter Hcnt.
  eapply safe_call; [apply present_single; [exact Hd|intros a [_ Ha]; by apply fixedValueExact_safe]|]. intros nonce [Hn Hnb].
  pose proof (identity_state_returns attrs Hd) as Hi. destruct (IdentityStateFromAttributes attrs); try done. cbn.
  split_and!; try done. by exists raw.
Qed.

(** *** The receiver of the response *)
Lemma response_received request iv c mac raw :
  Packet_ok request -> isAKAType (pk_EapType request) = true -> len iv = 16 -> len mac = 16 -> len c mod 16 = 0 ->
  bytes_ok iv -> bytes_ok c -> bytes_ok mac ->
  let response := response_packet request (response_clear request iv c ++ [MACAttribute mac]) in
  Packet_MarshalBinary response = Ok raw -> Packet_ok response /\ ParsePacket raw = Ok response.
Proof.
  intros (_ & Hid & Hty & _) Haka Hi Hm Hc Hib Hcb Hmb response Hraw.
  apply isAKAType_eap_type in Haka.
  assert (Hok : Packet_ok response).
  { unfold Packet_ok, response, response_packet. cbn. split; [done|]. split; [done|].
    split; [destruct Haka as [-> | ->]; by_decide|]. split; [by_decide|]. split; [|constructor].
    assert (Hfix : forall t v, is_u8 t -> bytes_ok v -> Attribute_ok (FixedAttribute t v)).
    { intros t v Ht Hv. split; [exact Ht|]. cbn. apply (bytes_ok_app_2 [0; 0]); [by_decide|exact Hv]. }
    rewrite MACAttribute_16 by done. unfold response_clear, IVAttribute, EncrDataAttribute.
    constructor; [by apply Hfix|]. constructor; [by apply Hfix|].
    destruct (FindAttribute _ _); cbn [app]; repeat (constructor; [apply Hfix; [done|]; assumption || constructor|]); constructor. }
  split; [exact Hok|]. rewrite (Packet_roundtrip response raw Hok); [|right; right; left|exact Hraw].
  - f_equal. assert (Het : eap_type response = eap_type request).
    { unfold response, response_packet, eap_type at 1. cbn [pk_EapType]. destruct Haka as [-> | ->]; reflexivity. }
    unfold received. change (pk_Code response) with CodeResponse. change ((CodeResponse =? CodeSuccess) || (CodeResponse =? CodeFailure)) with false.
    cbv iota. rewrite Het. replace ((eap_type request =? TypeAKA) || (eap_type request =? TypeAKAPrime)) with true by (destruct Haka as [-> | ->]; done).
    unfold response, response_packet. cbn [pk_Identifier pk_Subtype pk_Attributes]. f_equal.
    rewrite MACAttribute_16 by done. unfold response_clear, IVAttribute, EncrDataAttribute. rewrite fmap_app. cbn [fmap list_fmap].
    assert (len c mod 4 = 0) by (rewrite <- (Z.mod_mod_divide (len c) 16 4) by (by exists 4); by rewrite Hc).
    rewrite !wire_fixed16 by (by rewrite ?Hi, ?Hm). by destruct (FindAttribute _ _).
  - assert (Het : eap_type response = eap_type request).
    { unfold response, response_packet, eap_type at 1. cbn [pk_EapType]. destruct Haka as [-> | ->]; reflexivity. }
    rewrite Het. split; [done|reflexivity].
Qed.

Definition response_plain (tooSmall : bool) (counter : Z) : list Attribute :=
  if tooSmall then [CounterTooSmallAttribute; CounterAttribute counter] else [CounterAttribute counter].
Lemma response_plain_spec tooSmall counter :
  is_u16 counter ->
  Forall attribute_fits (response_plain tooSmall counter) /\ Forall Attribute_ok (response_plain tooSmall counter) /\
  response_plain tooSmall counter <> [] /\ Forall (fun a => a_Type a <> AttributePadding) (response_plain tooSmall counter) /\
  wire <$> response_plain tooSmall counter = response_plain tooSmall counter.
Proof.
  intros Hc. assert (Hok : Attribute_ok (CounterAttribute counter)) by (split; [by_decide|apply bytes_ok_be_bytes]).
  assert (Hts : Attribute_ok CounterTooSmallAttribute) by by_decide.
  assert (Hfc : attribute_fits (CounterAttribute counter)) by done. assert (Hft : attribute_fits CounterTooSmallAttribute) by done.
  assert (Hpc : a_Type (CounterAttribute counter) <> AttributePadding) by done.
  assert (Hpt : a_Type CounterTooSmallAttribute <> AttributePadding) by done.
  destruct tooSmall; cbn [response_plain]; rewrite ?Forall_cons, ?Forall_nil; split_and!; done.
Qed.

Definition has_result_ind (request : Packet) : bool :=
  match FindAttribute (pk_Attributes request) AttributeResultInd with Some _ => true | None => false end.

Lemma ParseReauthenticationResponse_spec request keys iv c mac raw nonceS tooSmall counter :
  is_u16 counter -> len nonceS = 16 -> len (ks_KEncr keys) = 16 -> len iv = 16 -> len mac = 16 -> isAKAType (pk_EapType request) = true ->
  validateReauthenticationMethod (pk_EapType request) keys = Ok tt ->
  EncryptAttributes (ks_KEncr keys) iv (response_plain tooSmall counter) = Ok (EncrDataAttribute c) ->
  let response := response_packet request (response_clear request iv c ++ [MACAttribute mac]) in
  Packet_MarshalBinary response = Ok raw -> verifyPacketMAC (eap_type request) (ks_KAut keys) raw nonceS = Ok tt ->
  ParseReauthenticationResponse response keys nonceS
    = Ok (mkReauthResponse counter tooSmall (has_result_ind request) (mkIdentityState [] []) (response_plain tooSmall counter)).
Proof.
  intros Hc Hn Hk Hi Hm Hty Hval He response Hraw Hmac. destruct (response_plain_spec tooSmall counter Hc) as (Hf & Hok & Hne & Hno & Hw).
  destruct (encrypt_decrypt (ks_KEncr keys) iv (response_plain tooSmall counter)) as (c' & He' & _ & _ & _ & Hd); [done..|].
  rewrite He in He'. injection He' as <-. rewrite Hw in Hd.
  assert (Hety : isAKAType (eap_type request) = true) by (destruct (isAKAType_eap_type _ Hty) as [-> | ->]; done).
  unfold ParseReauthenticationResponse. change (pk_Code response) with CodeResponse.
  change (pk_Subtype response) with SubtypeReauthentication. change (pk_EapType response) with (eap_type request).
  change (negb (CodeResponse =? CodeResponse) || negb (SubtypeReauthentication =? SubtypeReauthentication)) with false. cbv iota.
  rewrite Hety, Hn. change (negb true) with false. change (negb (16 =? RANDLength)) with false. cbv iota.
  rewrite validateReauthenticationMethod_type, Hval. cbn [bind]. rewrite Hraw. cbn [bind]. rewrite Hmac. cbn [bind].
  assert (Hdec : DecryptPacketEncryptedAttributes response keys = (true, Ok (response_plain tooSmall counter))).
  { unfold DecryptPacketEncryptedAttributes. rewrite !FindSingleAttribute_spec.
    assert (Hiv : of_type AttributeIV (pk_Attributes response) = [IVAttribute iv]).
    { unfold response, response_clear, has_result_ind. by destruct (FindAttribute (pk_Attributes request) AttributeResultInd). }
    assert (Hen : of_type AttributeEncrData (pk_Attributes response) = [EncrDataAttribute c]).
    { unfold response, response_clear. by destruct (FindAttribute (pk_Attributes request) AttributeResultInd). }
    rewrite Hiv, Hen. cbn [negb andb orb]. f_equal. unfold DecryptEncryptedAttributes.
    assert (IVValue (IVAttribute iv) = Ok iv) as ->.
    { pose proof (fixedValueExact_wire AttributeIV iv) as E. rewrite wire_fixed16, Hi in E by (by rewrite Hi). exact E. }
    cbn [bind]. exact Hd. }
  rewrite Hdec. cbn [present snd fst bind negb].
  assert (Hcv : CounterValue (CounterAttribute counter) = Ok counter) by by apply (directUint16_wire AttributeCounter).
  assert (Hri : ResultIndFromAttributes (pk_Attributes response) = (has_result_ind request, Ok tt)).
  { unfold ResultIndFromAttributes, has_result_ind. rewrite single_value_spec. unfold response, response_clear.
    by destruct (FindAttribute (pk_Attributes request) AttributeResultInd). }
  unfold CounterFromAttributes, CounterTooSmallFromAttributes. rewrite !single_value_spec.
  destruct tooSmall; cbn [response_plain].
  - change (of_type AttributeCounter _) with [CounterAttribute counter]. change (of_type AttributeCounterTooSmall _) with [CounterTooSmallAttribute].
    cbv iota beta. rewrite Hcv, Hri. reflexivity.
  - change (of_type AttributeCounter _) with [CounterAttribute counter]. change (of_type AttributeCounterTooSmall _) with (@nil Attribute).
    cbv iota beta. rewrite Hcv, Hri. reflexivity.
Qed.
End spec.

Section answer.
Context {C : Crypto} `{!CryptoLaws C}.

(** The response built for a parsed request reaches the server: it parses back
    to the same packet, and the server reads the counter, the flag and the
    result indication from it. *)
Definition answered (request : Packet) (keys : Keys) (parsed : ReauthenticationRequest) (tooSmall : bool) (response : Packet) : Prop :=
  exists raw, Packet_MarshalBinary response = Ok raw /\ ParsePacket raw = Ok response /\
    pk_Identifier response = pk_Identifier request /\
    ParseReauthenticationResponse response keys (rq_NonceS parsed)
      = Ok (mkReauthResponse (rq_Counter parsed) tooSmall (has_result_ind request) (mkIdentityState [] [])
              (response_plain tooSmall (rq_Counter parsed))).

Lemma response_packet_answered request keys iv parsed tooSmall response :
  Packet_ok request -> bytes_ok iv -> reauth_authentic request keys parsed ->
  buildReauthenticationResponsePacket request keys iv parsed (response_plain tooSmall (rq_Counter parsed)) = Ok response ->
  answered request keys parsed tooSmall response.
Proof.
  intros Hp Hib (Hc & Hn & Hnb & _ & _ & Hty & Hval & _) Hr.
  destruct (buildReauthenticationResponsePacket_spec _ _ _ _ _ _ Hr) as (c & mac & raw & He & Hk & Hi & Hm & Hmb & -> & Hraw & Hv).
  destruct (response_plain_spec tooSmall (rq_Counter parsed) Hc) as (Hf & Hok & Hne & Hno & _).
  destruct (encrypt_decrypt (ks_KEncr keys) iv (response_plain tooSmall (rq_Counter parsed))) as (c' & He' & Hcm & _ & Hcb & _); [done..|].
  rewrite He in He'. injection He' as <-. exists raw. split; [exact Hraw|]. split.
  - by apply (response_received request iv c mac raw).
  - split; [reflexivity|]. by apply (ParseReauthenticationResponse_spec request keys iv c mac raw).
Qed.
End answer.

Section total.
Context {C : Crypto} `{!CryptoLaws C}.

Lemma EncryptAttributes_returns kEncr iv attrs : returns (EncryptAttributes kEncr iv attrs).
Proof.
  unfold EncryptAttributes. destruct (encryptedDataBlock kEncr iv) as [[]| | |] eqn:Hb; cbn [bind];
    [|done|unfold encryptedDataBlock, aes_NewCipher in Hb; by repeat case_match..].
  assert (Hl : forall l out, returns (marshal_attributes_loop l out)).
  { induction l as [|a l IH]; intros out; [done|]. cbn [marshal_attributes_loop].
    pose proof (attribute_marshal_returns a). destruct (Attribute_MarshalBinary a); try done. apply IH. }
  specialize (Hl attrs []). unfold MarshalAttributes. destruct (marshal_attributes_loop attrs []) as [b| | |]; try done. cbn [bind].
  case_match; [|done]. unfold encryptedPaddingAttribute. case_match; [|done]. cbn [bind].
  pose proof (attribute_marshal_returns (mkAttribute AttributePadding (replicate (Z.to_nat (aes_BlockSize - Z.rem (len b) aes_BlockSize - 2)) 0))) as Hr.
  by destruct (Attribute_MarshalBinary _).
Qed.
Lemma EncryptAttributes_shape kEncr iv attrs enc : EncryptAttributes kEncr iv attrs = Ok enc -> exists c, enc = EncrDataAttribute c.
Proof. unfold EncryptAttributes. intros ([] & _ & H)%bind_ok. apply bind_ok in H as (pl & _ & H). apply bind_ok in H as (pl' & _ & [= <-]). eauto. Qed.
Lemma buildReauthenticationResponsePacket_returns request keys iv parsed attrs :
  returns (buildReauthenticationResponsePacket request keys iv parsed attrs).
Proof.
  unfold buildReauthenticationResponsePacket. pose proof (EncryptAttributes_returns (ks_KEncr keys) iv attrs) as He.
  destruct (EncryptAttributes _ iv attrs) as [enc| | |] eqn:Henc; try done. apply EncryptAttributes_shape in Henc as [c ->].
  cbn [bind]. cbv zeta. set (clear := match FindAttribute _ _ with Some _ => _ | None => _ end).
  set (response := mkPacket _ _ _ _ _ _). pose proof (marshal_packet_returns response) as Hm.
  destruct (Packet_MarshalBinary response) as [raw| | |] eqn:Hraw; try done. cbn [bind].
  apply marshal_packet in Hraw as [Hfit ->]; [|by split; [right|]]. rewrite calculatePacketMAC_unfold.
  destruct (len (ks_KAut keys) =? mac_key_len (pk_EapType response)); [|done]. cbn [bind].
  assert (Hno : no_mac clear).
  { subst clear. destruct (FindAttribute _ _); repeat (constructor; [done|]); constructor. }
  rewrite (packetWithZeroedMAC_spec response clear (replicate 16 0) []); [done|].
  apply (mac_packet_last response clear (replicate 16 0)); done.
Qed.
Lemma DeriveReauthenticationKeys_returns identity previous counter nonceS :
  returns (DeriveReauthenticationKeys identity previous counter nonceS).
Proof.
  unfold DeriveReauthenticationKeys. do 3 (case_match; [done|]). cbv zeta. change (KeyLengthMSK + KeyLengthEMSK) with 128.
  case_match; (do 2 (case_match; [done|])).
  - set (seed := eap_aka_prime_reauth ++ _). destruct (prfPrime_octets (ks_KRe previous) seed 128) as [-> Hl]; [lia|]. cbn [bind].
    by destruct (reauthenticationKeys_spec previous (prf_octets (ks_KRe previous) seed 128) _ Hl) as (k & -> & _).
  - set (seed := sha1_Sum _). destruct (fips1862PRF_octets seed 128) as [-> Hl]; [apply sha1_ok|apply sha1_len|lia|]. cbn [bind].
    by destruct (reauthenticationKeys_spec previous (ks_MK previous) _ Hl) as (k & -> & _).
Qed.
Lemma reauthentication_returns identity request keys iv last known :
  Packet_ok request -> returns (BuildReauthenticationResponseWithCounterCheck identity request keys iv last known).
Proof.
  intros Hp. unfold BuildReauthenticationResponseWithCounterCheck.
  pose proof (ParseReauthenticationRequest_safe request keys Hp) as Ha. destruct (ParseReauthenticationRequest request keys) as [parsed| | |]; try done.
  cbn [bind]. case_match.
  - unfold buildReauthenticationCounterTooSmallResponse. set (plain := [_; _]).
    pose proof (buildReauthenticationResponsePacket_returns request keys iv parsed plain) as Hr. by destruct (buildReauthenticationResponsePacket _ _ _ _ _).
  - unfold buildReauthenticationResponse. pose proof (DeriveReauthenticationKeys_returns identity keys (rq_Counter parsed) (rq_NonceS parsed)) as Hk.
    destruct (DeriveReauthenticationKeys _ _ _ _); try done. cbn [bind]. set (plain := [_]).
    pose proof (buildReauthenticationResponsePacket_returns request keys iv parsed plain) as Hr. by destruct (buildReauthenticationResponsePacket _ _ _ _ _).
Qed.
Lemma ParseReauthenticationResponse_returns response keys nonceS :
  Packet_ok response -> returns (ParseReauthenticationResponse response keys nonceS).
Proof.
  intros Hp. unfold ParseReauthenticationResponse. do 3 (case_match; [done|]).
  pose proof (validateReauthenticationMethod_returns (pk_EapType response) keys) as Hvr.
  destruct (validateReauthenticationMethod _ keys); try done. cbn [bind].
  pose proof (marshal_packet_safe response Hp) as Hm. destruct (Packet_MarshalBinary response) as [raw| | |]; try done. cbn in Hm. cbn [bind].
  pose proof (verifyPacketMAC_returns (pk_EapType response) (ks_KAut keys) raw nonceS Hm) as Hmr.
  destruct (verifyPacketMAC _ _ raw _); try done. cbn [bind].
  pose proof (DecryptPacketEncryptedAttributes_safe response keys Hp) as Hd. unfold present at 1.
  destruct (DecryptPacketEncryptedAttributes response keys) as [ok [attrs| | |]]; try done. cbn [fst snd bind] in *. destruct ok; [|done].
  cbn [negb bind]. cbn in Hd.
  eapply safe_call; [apply present_single; [exact Hd|intros x [_ Hx]; by apply directUint16Value_safe]|]. intros counter _.
  pose proof (flag_single_returns attrs AttributeCounterTooSmall tt CounterTooSmallValue Hd) as Hf. unfold flag at 1, CounterTooSmallFromAttributes.
  destruct (single_value attrs AttributeCounterTooSmall tt CounterTooSmallValue) as [ok r]. cbn [fst snd] in *.
  specialize (Hf ltac:(intros x [_ Hx]; by apply reserved2_safe)). destruct r; try done. cbn [bind].
  destruct Hp as (_ & _ & _ & _ & Hat & _).
  pose proof (flag_single_returns (pk_Attributes response) AttributeResultInd tt ResultIndValue Hat) as Hf'. unfold flag, ResultIndFromAttributes.
  destruct (single_value (pk_Attributes response) AttributeResultInd tt ResultIndValue) as [ok' r']. cbn [fst snd] in *.
  specialize (Hf' ltac:(intros x [_ Hx]; by apply reserved2_safe)). destruct r'; try done. cbn [bind].
  pose proof (identity_state_returns attrs Hd). by destruct (IdentityStateFromAttributes attrs).
Qed.
End total.

(** ** Properties *)

(** Fast re-authentication, composed: on any packet
    [BuildReauthenticationResponseWithCounterCheck] and
    [ParseReauthenticationResponse] return; when the first answers, the
    request's AT_MAC verified under K_aut and its counter and 16-octet nonce were
    decrypted, and the server that parses the response's octets with the same
    keys and the nonce reads back the request's counter.  When a last counter is
    known and the request's is not larger, the answer says counter-too-small and
    the keys do not change; otherwise it does not, and the next keys are those
    [DeriveReauthenticationKeys] gives for this counter and nonce. *)
Theorem reauthentication_answer (C : Crypto) (L : CryptoLaws C) identity request keys iv last known :
  Packet_ok request -> bytes_ok iv ->
  returns (BuildReauthenticationResponseWithCounterCheck identity request keys iv last known) /\
  (forall p nonceS, Packet_ok p -> returns (ParseReauthenticationResponse p keys nonceS)) /\
  forall response next tooSmall,
  BuildReauthenticationResponseWithCounterCheck identity request keys iv last known = Ok (response, next, tooSmall) ->
  exists parsed, ParseReauthenticationRequest request keys = Ok parsed /\ reauth_authentic request keys parsed /\
    answered request keys parsed tooSmall response /\
    tooSmall = known && (rq_Counter parsed <=? last) /\
    (if tooSmall then next = keys
     else DeriveReauthenticationKeys identity keys (rq_Counter parsed) (rq_NonceS parsed) = Ok next).
Proof.
  intros Hp Hib. split; [by apply reauthentication_returns|].
  split; [intros; by apply ParseReauthenticationResponse_returns|]. intros response next tooSmall H. unfold BuildReauthenticationResponseWithCounterCheck in H.
  apply bind_ok in H as (parsed & Hparsed & H). exists parsed. split; [exact Hparsed|].
  pose proof (ParseReauthenticationRequest_safe request keys Hp) as Ha. rewrite Hparsed in Ha. cbn in Ha. split; [exact Ha|].
  destruct (known && (rq_Counter parsed <=? last)) eqn:Hts.
  - apply bind_ok in H as (r & Hr & [= <- <- <-]). split; [|done]. by apply (response_packet_answered request keys iv parsed true).
  - apply bind_ok in H as ([r k] & Hr & H). cbn [fst snd] in H. injection H as <- <- <-.
    unfold buildReauthenticationResponse in Hr. apply bind_ok in Hr as (k' & Hk & Hr). apply bind_ok in Hr as (r' & Hr & [= <- <-]).
    split; [|done]. by apply (response_packet_answered request keys iv parsed false).
Qed.

(** A request for [sample_keys] with counter 7, under the toy cryptography. *)
Definition sample_reauth_iv : bytes := replicate 16 5.
Definition sample_reauth_request : Packet :=
  let attrs mac := [IVAttribute sample_reauth_iv;
    EncrDataAttribute (cbc_CryptBlocks_enc (Crypto := toy_crypto) (ks_KEncr sample_keys) sample_reauth_iv
      (enc_attributes (sample_counter_attrs ++ block_padding (len (enc_attributes sample_counter_attrs)))));
    MACAttribute mac] in
  let p mac := mkPacket CodeRequest 9 TypeAKA SubtypeReauthentication (attrs mac) [] in
  p (mac_of (C := toy_crypto) TypeAKA (ks_KAut sample_keys) (packet_wire (p [])) []).
Lemma reauthentication_answer_witness :
  exists response next parsed,
    BuildReauthenticationResponseWithCounterCheck (C := toy_crypto) [48] sample_reauth_request sample_keys sample_reauth_iv 7 true
      = Ok (response, next, true) /\
    rq_Counter parsed = 7 /\ answered (C := toy_crypto) sample_reauth_request sample_keys parsed true response.
Proof.
  destruct (BuildReauthenticationResponseWithCounterCheck (C := toy_crypto) [48] sample_reauth_request sample_keys sample_reauth_iv 7 true)
    as [[[response next] ts]| | |] eqn:E; [|vm_compute in E; discriminate E..].
  destruct (proj2 (proj2 (reauthentication_answer toy_crypto toy_crypto_laws [48] sample_reauth_request sample_keys sample_reauth_iv 7 true
    ltac:(by_decide) ltac:(by_decide))) response next ts E) as (parsed & Hparsed & _ & Hans & Hts & Hk).
  assert (rq_Counter parsed = 7) as Hc by (vm_compute in Hparsed; injection Hparsed as <-; reflexivity).
  rewrite Hc in Hts. cbn in Hts. subst ts. exists response, next, parsed. split; [reflexivity|]. split; [exact Hc|exact Hans].
Defined.

