(* ===== verification/EapChallenge.v ===== *)
(** * The AKA challenge and the peer's responses (engine/swu/eapaka/crypto.go)

    Parsing of a challenge with and without keys, the challenge response with
    its MAC, the response computed from a SIM ([sim.AKAProvider] is a function
    of RAND and AUTN that gives a result and possibly an error), and the
    responses of the error paths: authentication reject, synchronization
    failure, client error, KDF negotiation, identity and notification. *)
From S2P Require Import Prelude GoStrings Errors Crypto EapAka EapKeys EapMac EapCrypt.

Definition AKAPrimeKDFDefault := 1.
Definition SupportedVersion := 1.

Record ChallengeVector := mkVector { cv_RAND : bytes; cv_AUTN : bytes; cv_AUTNFields : AUTNFields }.
Record Challenge := mkChallenge {
  ch_Packet : Packet;
  ch_Vectors : list ChallengeVector;
  ch_RAND : bytes;
  ch_AUTN : bytes;
  ch_AUTNFields : AUTNFields;
  ch_MAC : bytes;
  ch_HasMAC : bool;
  ch_ResultInd : bool;
  ch_Checkcode : bytes;
  ch_HasCheckcode : bool;
  ch_Bidding : bool;
  ch_HasBidding : bool;
  ch_KDFInput : bytes;
  ch_KDFValues : list Z;
  ch_EncryptedAttributes : list Attribute;
  ch_IdentityState : EncryptedIdentityState
}.
Record ChallengeResponseResult := mkResponseResult {
  cr_Response : Packet;
  cr_Keys : Keys;
  cr_AKA : AKAResult;
  cr_RAND : bytes;
  cr_AUTN : bytes;
  cr_SyncFailure : bool;
  cr_AuthFailure : bool;
  cr_BiddingDown : bool
}.
Definition zeroPacket := mkPacket 0 0 0 0 [] [].
Definition zeroKeys := mkKeys [] [] [] [] [] [] [] [].

Definition findChallengeMACAttribute (attrs : list Attribute) : bool * result Attribute :=
  let '(out, count) := find_single_loop attrs AttributeMAC zeroAttribute 0 in
  if count =? 0 then (false, Ok zeroAttribute) else if count =? 1 then (true, Ok out) else (true, Errorf ErrInvalidMAC).
Definition singleChallengeAttribute (attrs : list Attribute) (typ : Z) : result Attribute :=
  let '(out, count) := find_single_loop attrs typ zeroAttribute 0 in
  if count =? 0 then Errorf ErrInvalidAKAChallenge else if count =? 1 then Ok out else Errorf ErrInvalidAKAChallenge.

(** [for i := range rands { ... autns[i] ... }] over lists of one length. *)
Fixpoint vectors_loop (rands autns : list bytes) : result (list ChallengeVector) :=
  match rands, autns with
  | [], _ => Ok []
  | _ :: _, [] => Panic
  | rand :: rands', autn :: autns' =>
      let! fields := ParseAUTN autn in
      let! rest := vectors_loop rands' autns' in
      Ok (mkVector rand autn fields :: rest)
  end.
Definition challengeVectors (request : Packet) : result (list ChallengeVector) :=
  let! randAttr := singleChallengeAttribute (pk_Attributes request) AttributeRAND in
  let! rands := RANDValues randAttr in
  let! autnAttr := singleChallengeAttribute (pk_Attributes request) AttributeAUTN in
  let! autns := AUTNValues autnAttr in
  if negb (len rands =? len autns) then Errorf ErrInvalidAKAChallenge else
  vectors_loop rands autns.

(** [if a, ok, err := find; err != nil { return err } else if ok { v, err := get(a); ... }] *)
Definition if_found {A} (found : bool * result Attribute) (get : Attribute -> result A) : result (option A) :=
  let! a := found.2 in
  if found.1 then let! v := get a in Ok (Some v) else Ok None.
Definition or_zero {A} (zero : A) (v : option A) : A := match v with Some x => x | None => zero end.
Definition found {A} (v : option A) : bool := match v with Some _ => true | None => false end.

Section parse.
Context {C : Crypto}.

Definition parseChallenge (request : Packet) (keys : option Keys) : result Challenge :=
  if negb (pk_Code request =? CodeRequest) || negb (pk_Subtype request =? SubtypeChallenge) then Errorf ErrInvalidAKAChallenge else
  if negb (isAKAType (pk_EapType request)) then Errorf ErrInvalidAKAChallenge else
  let attrs := pk_Attributes request in
  let! _ := ValidateAttributes attrs in
  let! vectors := challengeVectors request in
  let! first := (match vectors with [] => Panic | v :: _ => Ok v end) in
  let! mac := if_found (findChallengeMACAttribute attrs) MACValue in
  let! resultInd := if_found (FindSingleAttribute attrs AttributeResultInd) ResultIndValue in
  let! checkcode := if_found (FindSingleAttribute attrs AttributeCheckcode) CheckcodeValue in
  let! bidding := if_found (FindSingleAttribute attrs AttributeBidding) BiddingValue in
  let! kdfs := kdfValues attrs in
  let! kdfInput := if_found (FindSingleAttribute attrs AttributeKDFInput) KDFInputValue in
  let! _ := (match keys with
    | None => Ok tt
    | Some keys =>
        let! raw := Packet_MarshalBinary request in
        verifyChallengeMAC (pk_EapType request) (ks_KAut keys) raw
    end) in
  let out := mkChallenge request vectors (cv_RAND first) (cv_AUTN first) (cv_AUTNFields first)
    (or_zero [] mac) (found mac) (found resultInd) (or_zero [] checkcode) (found checkcode)
    (or_zero false bidding) (found bidding) (or_zero [] kdfInput) kdfs in
  let! ivAttr := (FindSingleAttribute attrs AttributeIV).2 in
  let hasIV := (FindSingleAttribute attrs AttributeIV).1 in
  let! encryptedAttr := (FindSingleAttribute attrs AttributeEncrData).2 in
  let hasEncrypted := (FindSingleAttribute attrs AttributeEncrData).1 in
  if hasIV || hasEncrypted then
    if negb hasIV || negb hasEncrypted then Errorf ErrInvalidEncryptedData else
    let! _ := IVValue ivAttr in
    let! _ := EncrDataValue encryptedAttr in
    match keys with
    | None => Ok (out [] (mkIdentityState [] []))
    | Some keys =>
        let! eattrs := DecryptEncryptedAttributes (ks_KEncr keys) ivAttr encryptedAttr in
        let! state := IdentityStateFromAttributes eattrs in
        Ok (out eattrs state)
    end
  else Ok (out [] (mkIdentityState [] [])).
Definition ParseChallenge (request : Packet) : result Challenge := parseChallenge request None.
Definition ParseChallengeWithKeys (request : Packet) (keys : Keys) : result Challenge := parseChallenge request (Some keys).

Definition ChallengeRANDAndAUTN (request : Packet) : result (bytes * bytes) :=
  let! challenge := ParseChallenge request in
  if negb (len (ch_Vectors challenge) =? 1) then Errorf ErrInvalidAKAChallenge else
  Ok (ch_RAND challenge, ch_AUTN challenge).

(** ** Keys of a challenge *)
Definition firstKDFValue (attrs : list Attribute) : result Z :=
  let! values := kdfValues attrs in
  match values with [] => Errorf ErrInvalidAKAChallenge | v :: _ => Ok v end.
Definition challengeKDFInput (attrs : list Attribute) : result bytes :=
  match FindAttribute attrs AttributeKDFInput with
  | None => Errorf ErrInvalidAKAChallenge
  | Some attr =>
      let! value := KDFInputValue attr in
      if len value =? 0 then Errorf ErrInvalidAKAChallenge else Ok value
  end.
Definition challengeKDFAttributes (attrs : list Attribute) : list Attribute :=
  filter (fun attr => a_Type attr = AttributeKDF) attrs.

Definition deriveChallengeKeys (identity : bytes) (request : Packet) (aka : AKAResult) : result (Keys * Z) :=
  if (pk_EapType request =? 0) || (pk_EapType request =? TypeAKA) then
    let! keys := DeriveKeys identity aka in Ok (keys, 0)
  else if pk_EapType request =? TypeAKAPrime then
    let! kdf := firstKDFValue (pk_Attributes request) in
    if negb (kdf =? AKAPrimeKDFDefault) then Errorf ErrUnsupportedKDF else
    let! networkName := challengeKDFInput (pk_Attributes request) in
    let! r := ChallengeRANDAndAUTN request in
    let! keys := DeriveAKAPrimeKeys identity networkName r.2 aka in Ok (keys, kdf)
  else Errorf ErrInvalidAKAChallenge.

Definition challengeBiddingDown (request : Packet) : result bool :=
  if negb (pk_EapType request =? 0) && negb (pk_EapType request =? TypeAKA) then Ok false else
  match FindAttribute (pk_Attributes request) AttributeBidding with
  | None => Ok false
  | Some attr => BiddingValue attr
  end.
Definition verifyChallengeCheckcode (request : Packet) (identityPackets : list bytes) : result bool :=
  match FindAttribute (pk_Attributes request) AttributeCheckcode with
  | None => Ok false
  | Some attr => let! _ := VerifyCheckcodeAttribute attr identityPackets in Ok true
  end.

(** ** Responses *)
Definition BuildChallengeResponseWithCheckcode (identity : bytes) (request : Packet) (aka : AKAResult)
    (identityPackets : list bytes) : result (Packet * Keys) :=
  if negb (pk_Code request =? CodeRequest) || negb (pk_Subtype request =? SubtypeChallenge) then Errorf ErrInvalidAKAChallenge else
  if negb (isAKAType (pk_EapType request)) then Errorf ErrInvalidAKAChallenge else
  let! _ := validateRES (aka_RES aka) in
  let! r := deriveChallengeKeys identity request aka in
  let '(keys, selectedKDF) := r in
  let! _ := ParseChallengeWithKeys request keys in
  let! biddingDown := challengeBiddingDown request in
  if biddingDown then Errorf ErrBiddingDown else
  let! includeCheckcode := verifyChallengeCheckcode request identityPackets in
  let responseAttrs := [RESAttribute (aka_RES aka)] in
  let responseAttrs := if pk_EapType request =? TypeAKAPrime then responseAttrs ++ [KDFAttribute selectedKDF] else responseAttrs in
  let responseAttrs := if includeCheckcode then responseAttrs ++ [CheckcodeAttributeForPackets identityPackets] else responseAttrs in
  let responseAttrs := match FindAttribute (pk_Attributes request) AttributeResultInd with
    | Some _ => responseAttrs ++ [ResultIndAttribute]
    | None => responseAttrs
    end in
  let response := mkPacket CodeResponse (pk_Identifier request) (pk_EapType request) SubtypeChallenge (responseAttrs ++ [MACAttribute []]) [] in
  let! raw := Packet_MarshalBinary response in
  let! mac := calculateChallengeMAC (pk_EapType response) (ks_KAut keys) raw in
  Ok (set_attributes response (responseAttrs ++ [MACAttribute mac]), keys).
Definition BuildChallengeResponse (identity : bytes) (request : Packet) (aka : AKAResult) : result (Packet * Keys) :=
  BuildChallengeResponseWithCheckcode identity request aka [].

(** [(Packet, bool, error)]: the flag is that of a successful return. *)
Definition BuildAKAPrimeKDFNegotiationResponse (request : Packet) : result (option Packet) :=
  if negb (pk_EapType request =? TypeAKAPrime) then Ok None else
  if negb (pk_Code request =? CodeRequest) || negb (pk_Subtype request =? SubtypeChallenge) then Errorf ErrInvalidAKAChallenge else
  let! values := kdfValues (pk_Attributes request) in
  match values with
  | [] => Errorf ErrInvalidAKAChallenge
  | first :: rest =>
      if first =? AKAPrimeKDFDefault then Ok None else
      if existsb (fun value => value =? AKAPrimeKDFDefault) rest then
        Ok (Some (mkPacket CodeResponse (pk_Identifier request) TypeAKAPrime SubtypeChallenge [KDFAttribute AKAPrimeKDFDefault] []))
      else Errorf ErrUnsupportedKDF
  end.

Definition BuildAuthenticationRejectResponse (request : Packet) : result Packet :=
  if negb (pk_Code request =? CodeRequest) || negb (pk_Subtype request =? SubtypeChallenge) then Errorf ErrInvalidAKAChallenge else
  if negb (isAKAType (pk_EapType request)) then Errorf ErrInvalidAKAChallenge else
  Ok (mkPacket CodeResponse (pk_Identifier request) (eap_type request) SubtypeAuthenticationReject [] []).

Definition BuildClientErrorResponse (request : Packet) (code : Z) : result Packet :=
  if negb (pk_Code request =? CodeRequest) then Errorf ErrInvalidAKAChallenge else
  if negb (isAKAType (pk_EapType request)) then Errorf ErrInvalidAKAChallenge else
  Ok (mkPacket CodeResponse (pk_Identifier request) (eap_type request) SubtypeClientError [ClientErrorCodeAttribute code] []).

Definition supportsVersion (versions : list Z) (supported : Z) : bool := existsb (fun version => version =? supported) versions.

Definition BuildIdentityResponse (identity : bytes) (request : Packet) : result Packet :=
  if negb (pk_Code request =? CodeRequest) || negb (pk_Subtype request =? SubtypeIdentity) then Errorf ErrInvalidAKAChallenge else
  if negb (isAKAType (pk_EapType request)) then Errorf ErrInvalidAKAChallenge else
  let identity := TrimSpace identity in
  if len identity =? 0 then Errorf ErrInvalidKeyMaterial else
  let attrs := [IdentityAttribute identity] in
  let response attrs := Ok (mkPacket CodeResponse (pk_Identifier request) (pk_EapType request) SubtypeIdentity attrs []) in
  match FindAttribute (pk_Attributes request) AttributeVersionList with
  | None => response attrs
  | Some versionAttr =>
      match VersionListValue versionAttr with
      | Ok versions =>
          if negb (supportsVersion versions SupportedVersion) then BuildClientErrorResponse request ClientErrorUnsupportedVersion
          else response (attrs ++ [SelectedVersionAttribute SupportedVersion])
      | Err _ => BuildClientErrorResponse request ClientErrorUnableToProcessPacket
      | Panic => Panic
      | OutOfFuel => OutOfFuel
      end
  end.

Definition BuildSynchronizationFailureResponse (request : Packet) (auts : bytes) : result Packet :=
  if negb (pk_Code request =? CodeRequest) || negb (pk_Subtype request =? SubtypeChallenge) then Errorf ErrInvalidAKAChallenge else
  if negb (isAKAType (pk_EapType request)) then Errorf ErrInvalidAKAChallenge else
  if negb (len auts =? AUTSLength) then Errorf ErrInvalidAKAChallenge else
  let attrs := [AUTSAttribute auts] in
  let attrs := if pk_EapType request =? TypeAKAPrime then attrs ++ challengeKDFAttributes (pk_Attributes request) else attrs in
  Ok (mkPacket CodeResponse (pk_Identifier request) (pk_EapType request) SubtypeSynchronizationFailure attrs []).

Definition syncFailureAUTS (aka : AKAResult) (cause : error) : bytes :=
  if 0 <? len (aka_AUTS aka) then aka_AUTS aka else
  if negb (errors_Is cause ErrSyncFailure) then [] else or_zero [] (errors_As_AUTS cause).

Definition BuildAKAFailureResponse (request : Packet) (aka : AKAResult) (cause : option error) : bool * result Packet :=
  match cause with
  | None => (false, Ok zeroPacket)
  | Some cause =>
      if errors_Is cause ErrSyncFailure then (true, BuildSynchronizationFailureResponse request (syncFailureAUTS aka cause))
      else if errors_Is cause ErrAuthFailure then (true, BuildAuthenticationRejectResponse request)
      else (false, Err cause)
  end.

Definition BuildChallengeResponseFromProvider (identity : bytes) (request : Packet)
    (CalculateAKA : bytes -> bytes -> AKAResult * option error) (identityPackets : list bytes) : result ChallengeResponseResult :=
  let! r := ChallengeRANDAndAUTN request in
  let '(rand16, autn16) := r in
  let '(aka, err) := CalculateAKA rand16 autn16 in
  match err with
  | Some err =>
      let '(handled, response) := BuildAKAFailureResponse request aka (Some err) in
      let! response := response in
      if negb handled then Err err else
      let syncFailure := errors_Is err ErrSyncFailure in
      let authFailure := errors_Is err ErrAuthFailure in
      let aka := if syncFailure && (len (aka_AUTS aka) =? 0)
        then mkAKAResult (aka_RES aka) (aka_CK aka) (aka_IK aka) (syncFailureAUTS aka err) else aka in
      Ok (mkResponseResult response zeroKeys aka rand16 autn16 syncFailure authFailure false)
  | None =>
      let identity := TrimSpace identity in
      if len identity =? 0 then Errorf ErrInvalidKeyMaterial else
      match BuildChallengeResponseWithCheckcode identity request aka identityPackets with
      | Err err =>
          if errors_Is err ErrBiddingDown then
            let! response := BuildAuthenticationRejectResponse request in
            Ok (mkResponseResult response zeroKeys aka rand16 autn16 false true true)
          else Err err
      | Ok (response, keys) => Ok (mkResponseResult response keys aka rand16 autn16 false false false)
      | Panic => Panic
      | OutOfFuel => OutOfFuel
      end
  end.

Definition buildNotificationResponse (request : Packet) (kAut : bytes) (authenticated : bool) : bool * result Packet :=
  if negb (pk_Subtype request =? SubtypeNotification) then (false, Ok zeroPacket) else (true,
  if negb (pk_Code request =? CodeRequest) then Errorf ErrInvalidAKAChallenge else
  if negb (isAKAType (pk_EapType request)) then Errorf ErrInvalidAKAChallenge else
  match FindAttribute (pk_Attributes request) AttributeNotification with
  | None => Errorf ErrInvalidAKAChallenge
  | Some attr =>
      let! code := NotificationValue attr in
      let response attrs := mkPacket CodeResponse (pk_Identifier request) (eap_type request) SubtypeNotification attrs [] in
      if Z.land code NotificationPBit =? 0 then
        if negb authenticated then Errorf ErrInvalidKeyMaterial else
        let! raw := Packet_MarshalBinary request in
        let! _ := verifyChallengeMAC (pk_EapType request) kAut raw in
        let! raw := Packet_MarshalBinary (response [MACAttribute []]) in
        let! mac := calculateChallengeMAC (pk_EapType (response [])) kAut raw in
        Ok (response [MACAttribute mac])
      else Ok (response [])
  end).
Definition BuildNotificationResponse (request : Packet) : bool * result Packet := buildNotificationResponse request [] false.
Definition BuildAuthenticatedNotificationResponse (request : Packet) (kAut : bytes) : bool * result Packet :=
  buildNotificationResponse request kAut true.
End parse.

(** ** Totality *)
Lemma FindAttribute_ok attrs t a : Forall Attribute_ok attrs -> FindAttribute attrs t = Some a -> Attribute_ok a /\ a_Type a = t.
Proof.
  induction 1 as [|x attrs Hx _ IH]; [done|]. cbn [FindAttribute]. destruct (Z.eqb_spec (a_Type x) t); [by intros [= <-]|done].
Qed.
Lemma fixed16_loop_nonempty fuel data offset out rs : fixed16_loop fuel data offset out = Ok rs -> rs <> [].
Proof.
  revert offset out. induction fuel as [|fuel IH]; intros offset out; [done|]. cbn [fixed16_loop].
  case_match; [|case_match; [done|]; intros [= <-] ->; done]. intros (v & _ & Hv)%bind_ok. by apply IH in Hv.
Qed.
Lemma fixed16Values_nonempty a rs : fixed16Values a = Ok rs -> rs <> [].
Proof. unfold fixed16Values. case_match; [done|]. intros ([] & _ & Hv)%bind_ok. by apply fixed16_loop_nonempty in Hv. Qed.

Lemma single_challenge_safe attrs typ : Forall Attribute_ok attrs -> safe (singleChallengeAttribute attrs typ) Attribute_ok.
Proof.
  intros Ha. pose proof (of_type_ok typ attrs Ha) as Hf. unfold singleChallengeAttribute. rewrite find_single_loop_spec.
  destruct (of_type typ attrs) as [|a [|b l]]; [done| |].
  - apply Forall_cons in Hf as [Hx _]. exact Hx.
  - rewrite !len_cons. pose proof (len_nonneg l). by do 2 go_if.
Qed.
Lemma findChallengeMACAttribute_spec attrs :
  findChallengeMACAttribute attrs =
  match of_type AttributeMAC attrs with [] => (false, Ok zeroAttribute) | [a] => (true, Ok a) | _ => (true, Errorf ErrInvalidMAC) end.
Proof.
  unfold findChallengeMACAttribute. rewrite find_single_loop_spec.
  destruct (of_type AttributeMAC attrs) as [|a [|b l]]; [done..|]. rewrite !len_cons. pose proof (len_nonneg l). by do 2 go_if.
Qed.
Lemma ParseAUTN_returns autn : returns (ParseAUTN autn).
Proof.
  unfold returns, ParseAUTN, AUTNLength, AKLength, AMFLength. go_case Hl; [done|]. unfold slice_from. by rewrite !slice_Ok by lia.
Qed.
Lemma vectors_loop_safe rands autns :
  length rands = length autns -> safe (vectors_loop rands autns) (fun vs => length vs = length rands /\ cv_RAND <$> vs = rands /\ cv_AUTN <$> vs = autns).
Proof.
  revert autns. induction rands as [|r rands IH]; intros [|a autns]; try done. cbn [length vectors_loop]. intros [= Hl].
  pose proof (ParseAUTN_returns a). destruct (ParseAUTN a); try done. cbn [bind].
  eapply safe_call; [by apply IH|]. intros vs (Hlen & Hr & Ha). cbn. by rewrite Hlen, Hr, Ha.
Qed.
Lemma challengeVectors_safe request :
  Packet_ok request -> safe (challengeVectors request) (fun vs => vs <> []).
Proof.
  intros (_ & _ & _ & _ & Ha & _). unfold challengeVectors.
  eapply safe_call; [by apply single_challenge_safe|]. intros ra [_ Hra]. pose proof (fixed16Values_safe ra Hra) as Hr.
  unfold RANDValues. destruct (fixed16Values ra) as [rands| | |] eqn:Er; try done. cbn [bind]. apply fixed16Values_nonempty in Er.
  eapply safe_call; [by apply single_challenge_safe|]. intros aa [_ Haa]. pose proof (fixed16Values_safe aa Haa) as Hx.
  unfold AUTNValues. destruct (fixed16Values aa) as [autns| | |]; try done. cbn [bind].
  destruct (Z.eqb_spec (len rands) (len autns)) as [Hl|]; [|done]. cbn [negb].
  eapply safe_mono; [apply vectors_loop_safe; unfold len in Hl; lia|]. intros vs (Hlen & _) ->. by destruct rands.
Qed.

Lemma if_found_returns {A} (r : bool * result Attribute) (get : Attribute -> result A) :
  safe r.2 (fun a => r.1 = true -> Attribute_ok a) -> (forall a, bytes_ok (a_Data a) -> returns (get a)) -> returns (if_found r get).
Proof.
  intros Hr Hg. unfold if_found. destruct r as [ok [a| | |]]; try done. cbn in *. destruct ok; [|done].
  specialize (Hr eq_refl). destruct Hr as [_ Hd]. specialize (Hg a Hd). by destruct (get a).
Qed.
Lemma found_single attrs t : Forall Attribute_ok attrs -> safe (FindSingleAttribute attrs t).2 (fun a => (FindSingleAttribute attrs t).1 = true -> Attribute_ok a).
Proof.
  intros Ha. pose proof (of_type_ok t attrs Ha) as Hf. rewrite FindSingleAttribute_spec.
  destruct (of_type t attrs) as [|a [|b l]]; [done| |done]. apply Forall_cons in Hf as [Hx _]. by intros _.
Qed.
Lemma found_mac attrs : Forall Attribute_ok attrs -> safe (findChallengeMACAttribute attrs).2 (fun a => (findChallengeMACAttribute attrs).1 = true -> Attribute_ok a).
Proof.
  intros Ha. pose proof (of_type_ok AttributeMAC attrs Ha) as Hf. rewrite findChallengeMACAttribute_spec.
  destruct (of_type AttributeMAC attrs) as [|a [|b l]]; [done| |done]. apply Forall_cons in Hf as [Hx _]. by intros _.
Qed.
Lemma returns_mono {A} (m : result A) Q : safe m Q -> returns m.
Proof. by destruct m. Qed.

Section total.
Context {C : Crypto} `{!CryptoLaws C}.

(** What a parsed challenge guarantees; with keys, its MAC verified. *)
Definition challenge_authentic (request : Packet) (keys : option Keys) : Prop :=
  pk_Code request = CodeRequest /\ pk_Subtype request = SubtypeChallenge /\ isAKAType (pk_EapType request) = true /\
  match keys with
  | None => True
  | Some keys => exists raw, Packet_MarshalBinary request = Ok raw /\ verifyPacketMAC (pk_EapType request) (ks_KAut keys) raw [] = Ok tt
  end.

Lemma encrypted_part_returns attrs keys out :
  Forall Attribute_ok attrs ->
  returns (let! ivAttr := (FindSingleAttribute attrs AttributeIV).2 in
    let hasIV := (FindSingleAttribute attrs AttributeIV).1 in
    let! encryptedAttr := (FindSingleAttribute attrs AttributeEncrData).2 in
    let hasEncrypted := (FindSingleAttribute attrs AttributeEncrData).1 in
    if hasIV || hasEncrypted then
      if negb hasIV || negb hasEncrypted then Errorf ErrInvalidEncryptedData else
      let! _ := IVValue ivAttr in
      let! _ := EncrDataValue encryptedAttr in
      match keys with
      | None => Ok (out [] (mkIdentityState [] []))
      | Some keys =>
          let! eattrs := DecryptEncryptedAttributes (ks_KEncr keys) ivAttr encryptedAttr in
          let! state := IdentityStateFromAttributes eattrs in
          Ok (E := error) (A := Challenge) (out eattrs state)
      end
    else Ok (out [] (mkIdentityState [] []))).
Proof.
  intros Ha. pose proof (FindSingleAttribute_returns attrs AttributeIV) as Hri. destruct (FindSingleAttribute attrs AttributeIV) as [hi ri] eqn:Hi.
  pose proof (FindSingleAttribute_returns attrs AttributeEncrData) as Hre. destruct (FindSingleAttribute attrs AttributeEncrData) as [he re] eqn:He.
  cbn [fst snd] in *. destruct ri as [iv| | |]; try done. destruct re as [enc| | |]; try done. cbn [bind]. cbv zeta.
  apply FindSingleAttribute_ok in Hi as [_ Hib]; [|done]. apply FindSingleAttribute_ok in He as [_ Heb]; [|done].
  destruct (hi || he); [|done]. destruct (negb hi || negb he); [done|].
  pose proof (fixedValueExact_safe iv RANDLength Hib) as Hv. unfold IVValue at 1. destruct (fixedValueExact iv RANDLength) as [v| | |] eqn:Hiv; try done. cbn [bind].
  pose proof (EncrDataValue_safe enc Heb) as Hev. destruct (EncrDataValue enc); try done. cbn [bind]. destruct keys as [keys|]; [|done].
  unfold DecryptEncryptedAttributes, IVValue. rewrite Hiv. cbn [bind].
  eapply safe_call; [by apply DecryptAttributes_safe|]. intros attrs' (Hok & _).
  pose proof (identity_state_returns attrs' Hok) as Hs. by destruct (IdentityStateFromAttributes attrs').
Qed.

Lemma parseChallenge_safe request keys : Packet_ok request -> safe (parseChallenge request keys) (fun _ => challenge_authentic request keys).
Proof.
  intros Hp. pose proof Hp as (_ & _ & _ & _ & Ha & _). unfold parseChallenge, challenge_authentic.
  destruct (Z.eqb_spec (pk_Code request) CodeRequest) as [Hc|]; [|done].
  destruct (Z.eqb_spec (pk_Subtype request) SubtypeChallenge) as [Hs|]; [|done]. cbn [negb orb].
  destruct (isAKAType (pk_EapType request)) eqn:Hty; [|done]. cbn [negb]. cbv zeta.
  pose proof (ValidateAttributes_returns _ Ha) as Hva. destruct (ValidateAttributes _); try done. cbn [bind].
  eapply safe_call; [by apply challengeVectors_safe|]. intros [|v vs] Hne; [done|]. cbn [bind].
  pose proof (if_found_returns _ MACValue (found_mac _ Ha) (fun a Hd => returns_mono _ _ (fixedValueExact_safe a 16 Hd))) as H1.
  destruct (if_found _ MACValue); try done. cbn [bind].
  pose proof (if_found_returns _ ResultIndValue (found_single _ AttributeResultInd Ha) reserved2_safe) as H2.
  destruct (if_found _ ResultIndValue); try done. cbn [bind].
  pose proof (if_found_returns _ CheckcodeValue (found_single _ AttributeCheckcode Ha) (fun a Hd => returns_mono _ _ (CheckcodeValue_safe a Hd))) as H3.
  destruct (if_found _ CheckcodeValue); try done. cbn [bind].
  pose proof (if_found_returns _ BiddingValue (found_single _ AttributeBidding Ha) BiddingValue_safe) as H4.
  destruct (if_found _ BiddingValue); try done. cbn [bind].
  pose proof (kdfValues_safe _ [] Ha (Forall_nil_2 _)) as H5. unfold kdfValues. destruct (kdfValues_loop _ []); try done. cbn [bind].
  pose proof (if_found_returns _ KDFInputValue (found_single _ AttributeKDFInput Ha) (fun a Hd => returns_mono _ _ (VariableValue_safe a Hd))) as H6.
  destruct (if_found _ KDFInputValue); try done. cbn [bind].
  eapply safe_call with (P := fun _ => match keys with None => True | Some keys =>
    exists raw, Packet_MarshalBinary request = Ok raw /\ verifyPacketMAC (pk_EapType request) (ks_KAut keys) raw [] = Ok tt end).
  { destruct keys as [keys|]; [|done]. pose proof (marshal_packet_safe request Hp) as Hm.
    destruct (Packet_MarshalBinary request) as [raw| | |]; try done. cbn in Hm. cbn [bind].
    unfold verifyChallengeMAC. pose proof (verifyPacketMAC_returns (pk_EapType request) (ks_KAut keys) raw [] Hm) as Hv.
    destruct (verifyPacketMAC _ _ raw []) as [[]| | |] eqn:E; try done. cbn. eauto. }
  intros _ Hmac. set (out := mkChallenge _ _ _ _ _ _ _ _ _ _ _ _ _ _).
  pose proof (encrypted_part_returns (pk_Attributes request) keys out Ha) as Hr. cbv zeta in Hr.
  eapply safe_mono; [exact Hr|]. done.
Qed.

Lemma ChallengeRANDAndAUTN_returns request : Packet_ok request -> returns (ChallengeRANDAndAUTN request).
Proof.
  intros Hp. unfold ChallengeRANDAndAUTN, ParseChallenge. pose proof (parseChallenge_safe request None Hp) as H.
  destruct (parseChallenge request None); try done. cbn [bind]. by case_match.
Qed.
Lemma deriveChallengeKeys_returns identity request aka : Packet_ok request -> returns (deriveChallengeKeys identity request aka).
Proof.
  intros Hp. pose proof Hp as (_ & _ & _ & _ & Ha & _). unfold deriveChallengeKeys. case_match.
  { pose proof (DeriveKeys_returns identity aka). by destruct (DeriveKeys identity aka). }
  case_match; [|done]. unfold firstKDFValue.
  pose proof (kdfValues_safe _ [] Ha (Forall_nil_2 _)) as Hk. unfold kdfValues. destruct (kdfValues_loop _ []) as [[|kdf l]| | |]; try done. cbn [bind].
  case_match; [done|]. unfold challengeKDFInput. destruct (FindAttribute _ _) as [attr|] eqn:Hf; [|done].
  apply FindAttribute_ok in Hf as [[_ Hd] _]; [|done]. pose proof (VariableValue_safe attr Hd) as Hv. unfold KDFInputValue.
  destruct (VariableValue attr) as [nn| | |]; try done. cbn [bind]. case_match; [done|]. cbn [bind].
  pose proof (ChallengeRANDAndAUTN_returns request Hp) as Hr. destruct (ChallengeRANDAndAUTN request) as [[r a]| | |]; try done. cbn [bind snd].
  pose proof (DeriveAKAPrimeKeys_returns identity nn a aka). by destruct (DeriveAKAPrimeKeys _ _ _ _).
Qed.
Lemma challengeBiddingDown_returns request : Packet_ok request -> returns (challengeBiddingDown request).
Proof.
  intros (_ & _ & _ & _ & Ha & _). unfold challengeBiddingDown. case_match; [done|]. destruct (FindAttribute _ _) as [attr|] eqn:Hf; [|done].
  apply FindAttribute_ok in Hf as [[_ Hd] _]; [|done]. by apply BiddingValue_safe.
Qed.
Lemma verifyChallengeCheckcode_returns request packets : Packet_ok request -> returns (verifyChallengeCheckcode request packets).
Proof.
  intros (_ & _ & _ & _ & Ha & _). unfold verifyChallengeCheckcode. destruct (FindAttribute _ _) as [attr|] eqn:Hf; [|done].
  apply FindAttribute_ok in Hf as [[_ Hd] _]; [|done]. unfold VerifyCheckcodeAttribute.
  pose proof (CheckcodeValue_safe attr Hd) as Hc. destruct (CheckcodeValue attr); try done. cbn [bind]. by repeat case_match.
Qed.

Lemma deriveChallengeKeys_AKA identity request aka keys kdf :
  (pk_EapType request =? 0) || (pk_EapType request =? TypeAKA) = true ->
  deriveChallengeKeys identity request aka = Ok (keys, kdf) -> kdf = 0.
Proof. intros Hty. unfold deriveChallengeKeys. rewrite Hty. by intros (k & _ & [= _ <-])%bind_ok. Qed.

(** *** The response *)
Definition response_attrs (request : Packet) (aka : AKAResult) (kdf : Z) (checkcode : bool) (packets : list bytes) : list Attribute :=
  [RESAttribute (aka_RES aka)]
  ++ (if pk_EapType request =? TypeAKAPrime then [KDFAttribute kdf] else [])
  ++ (if checkcode then [CheckcodeAttributeForPackets packets] else [])
  ++ (match FindAttribute (pk_Attributes request) AttributeResultInd with Some _ => [ResultIndAttribute] | None => [] end).
Definition challenge_response (request : Packet) (attrs : list Attribute) : Packet :=
  mkPacket CodeResponse (pk_Identifier request) (pk_EapType request) SubtypeChallenge attrs [].

Lemma response_attrs_no_mac request aka kdf checkcode packets : no_mac (response_attrs request aka kdf checkcode packets).
Proof.
  unfold no_mac, response_attrs. apply Forall_app. split; [by repeat constructor|]. apply Forall_app. split; [case_match; by repeat constructor|].
  apply Forall_app. split.
  - destruct checkcode; [|constructor]. constructor; [|constructor]. unfold CheckcodeAttributeForPackets. by case_match.
  - destruct (FindAttribute _ _); by repeat constructor.
Qed.
Lemma response_attrs_ok request aka kdf checkcode packets :
  bytes_ok (aka_RES aka) -> Forall Attribute_ok (response_attrs request aka kdf checkcode packets).
Proof.
  intros Hr. unfold response_attrs. apply Forall_app. split.
  { constructor; [|constructor]. split; [by_decide|]. apply bytes_ok_app_2; [apply bytes_ok_be_bytes|exact Hr]. }
  apply Forall_app. split.
  { case_match; [|constructor]. constructor; [|constructor]. split; [by_decide|apply bytes_ok_be_bytes]. }
  apply Forall_app. split.
  - destruct checkcode; [|constructor]. constructor; [|constructor]. unfold CheckcodeAttributeForPackets.
    case_match; (split; [by_decide|]); [by_decide|]. apply (bytes_ok_app_2 [0; 0]); [by_decide|apply sha1_ok].
  - destruct (FindAttribute _ _); [|constructor]. constructor; [by_decide|constructor].
Qed.
Lemma MACAttribute_ok mac : bytes_ok mac -> Attribute_ok (MACAttribute mac).
Proof.
  intros H. split; [by_decide|]. apply (bytes_ok_app_2 [0; 0]); [by_decide|].
  apply bytes_ok_app_2; [by apply bytes_ok_take|by apply bytes_ok_replicate].
Qed.

(** A response completed with its MAC: what the builder's last steps give. *)
Lemma complete_response request pre kAut response :
  let zero := challenge_response request (pre ++ [MACAttribute []]) in
  no_mac pre ->
  (let! raw := Packet_MarshalBinary zero in
   let! mac := calculateChallengeMAC (pk_EapType zero) kAut raw in
   Ok (set_attributes zero (pre ++ [MACAttribute mac]))) = Ok response ->
  exists mac raw, len mac = 16 /\ bytes_ok mac /\ response = challenge_response request (pre ++ [MACAttribute mac]) /\
    Packet_MarshalBinary response = Ok raw /\ verifyPacketMAC (pk_EapType request) kAut raw [] = Ok tt.
Proof.
  intros zero Hno (raw & Hraw & H)%bind_ok. apply bind_ok in H as (mac & Hmac & [= <-]).
  destruct (complete_MAC (pk_EapType request) kAut (challenge_response request []) pre [] raw mac) as (_ & Hl & Hb & raw' & Hraw' & Hv);
    [by split; [right|]|exact Hno|exact Hraw|exact Hmac|].
  exists mac, raw'. by split_and!.
Qed.

Lemma complete_response_returns request pre kAut :
  let zero := challenge_response request (pre ++ [MACAttribute []]) in
  no_mac pre ->
  returns (let! raw := Packet_MarshalBinary zero in
   let! mac := calculateChallengeMAC (pk_EapType zero) kAut raw in
   Ok (E := error) (set_attributes zero (pre ++ [MACAttribute mac]))).
Proof.
  intros zero Hno. pose proof (marshal_packet_returns zero) as Hm. destruct (Packet_MarshalBinary zero) as [raw| | |] eqn:Hraw; try done.
  cbn [bind]. apply marshal_packet in Hraw as [Hfit ->]; [|by split; [right|]]. unfold calculateChallengeMAC. rewrite calculatePacketMAC_unfold.
  case_match; [|done]. cbn [bind]. rewrite (packetWithZeroedMAC_spec zero pre (replicate 16 0) []); [done|].
  apply (mac_packet_last zero pre (replicate 16 0)); done.
Qed.

(** The builder up to its last steps. *)
Lemma BuildChallengeResponse_unfold identity request aka packets :
  BuildChallengeResponseWithCheckcode identity request aka packets =
  if negb (pk_Code request =? CodeRequest) || negb (pk_Subtype request =? SubtypeChallenge) then Errorf ErrInvalidAKAChallenge else
  if negb (isAKAType (pk_EapType request)) then Errorf ErrInvalidAKAChallenge else
  let! _ := validateRES (aka_RES aka) in
  let! r := deriveChallengeKeys identity request aka in
  let! _ := ParseChallengeWithKeys request r.1 in
  let! biddingDown := challengeBiddingDown request in
  if biddingDown then Errorf ErrBiddingDown else
  let! includeCheckcode := verifyChallengeCheckcode request packets in
  let pre := response_attrs request aka r.2 includeCheckcode packets in
  let zero := challenge_response request (pre ++ [MACAttribute []]) in
  let! response :=
    (let! raw := Packet_MarshalBinary zero in
     let! mac := calculateChallengeMAC (pk_EapType zero) (ks_KAut r.1) raw in
     Ok (set_attributes zero (pre ++ [MACAttribute mac]))) in
  Ok (response, r.1).
Proof.
  unfold BuildChallengeResponseWithCheckcode.
  case_match; [done|]. case_match; [done|]. destruct (validateRES (aka_RES aka)); try done. cbn [bind].
  destruct (deriveChallengeKeys identity request aka) as [[keys kdf]| | |]; try done. cbn [bind fst snd].
  destruct (ParseChallengeWithKeys request keys); try done. cbn [bind].
  destruct (challengeBiddingDown request) as [[]| | |]; try done. cbn [bind].
  destruct (verifyChallengeCheckcode request packets) as [checkcode| | |]; try done. cbn [bind]. cbv zeta.
  replace (match FindAttribute (pk_Attributes request) AttributeResultInd with Some _ => _ | None => _ end)
    with (response_attrs request aka kdf checkcode packets)
    by (unfold response_attrs; destruct (pk_EapType request =? TypeAKAPrime), checkcode, (FindAttribute _ _); reflexivity).
  set (pre := response_attrs _ _ _ _ _). fold (challenge_response request (pre ++ [MACAttribute []])).
  destruct (Packet_MarshalBinary _) as [raw| | |]; try done. cbn [bind]. by destruct (calculateChallengeMAC _ _ raw).
Qed.

Lemma BuildChallengeResponse_returns identity request aka packets :
  Packet_ok request -> returns (BuildChallengeResponseWithCheckcode identity request aka packets).
Proof.
  intros Hp. rewrite BuildChallengeResponse_unfold. do 2 (case_match; [done|]).
  assert (returns (validateRES (aka_RES aka))) as Hr by (unfold validateRES; by case_match).
  destruct (validateRES _); try done. cbn [bind].
  pose proof (deriveChallengeKeys_returns identity request aka Hp) as Hk. destruct (deriveChallengeKeys _ _ _) as [[keys kdf]| | |]; try done. cbn [bind fst snd].
  pose proof (parseChallenge_safe request (Some keys) Hp) as Hc. unfold ParseChallengeWithKeys. destruct (parseChallenge _ _); try done. cbn [bind].
  pose proof (challengeBiddingDown_returns request Hp) as Hb. destruct (challengeBiddingDown _) as [[]| | |]; try done. cbn [bind].
  pose proof (verifyChallengeCheckcode_returns request packets Hp) as Hv. destruct (verifyChallengeCheckcode _ _) as [cc| | |]; try done. cbn [bind]. cbv zeta.
  pose proof (complete_response_returns request (response_attrs request aka kdf cc packets) (ks_KAut keys) (response_attrs_no_mac _ _ _ _ _)) as Hcr.
  cbv zeta in Hcr. destruct (let! _ := Packet_MarshalBinary _ in _); done.
Qed.

Lemma MAC_wire mac : len mac = 16 -> wire (MACAttribute mac) = MACAttribute mac.
Proof. intros H. rewrite MACAttribute_16 by done. apply wire_idem. cbn. rewrite !len_cons, H. reflexivity. Qed.

Lemma validateRES_ok res : validateRES res = Ok tt -> 4 <= len res <= 16.
Proof. unfold validateRES, RESMinBits, RESMaxBits. case_match; [done|]. intros _. lia. Qed.

(** What a server learns from the octets of a response. *)
Definition challenge_answered (request : Packet) (aka : AKAResult) (keys : Keys) (kdf : Z) (checkcode : bool)
    (packets : list bytes) (response : Packet) : Prop :=
  exists raw mac, Packet_MarshalBinary response = Ok raw /\ len mac = 16 /\
    ParsePacket raw = Ok (mkPacket CodeResponse (pk_Identifier request) (eap_type request) SubtypeChallenge
      ((wire <$> response_attrs request aka kdf checkcode packets) ++ [MACAttribute mac]) []) /\
    verifyPacketMAC (pk_EapType request) (ks_KAut keys) raw [] = Ok tt /\
    RESValue (wire (RESAttribute (aka_RES aka))) = Ok (aka_RES aka, 8 * len (aka_RES aka)).

Lemma BuildChallengeResponse_spec identity request aka packets response keys :
  Packet_ok request -> bytes_ok (aka_RES aka) ->
  BuildChallengeResponseWithCheckcode identity request aka packets = Ok (response, keys) ->
  exists kdf checkcode,
    deriveChallengeKeys identity request aka = Ok (keys, kdf) /\ challenge_authentic request (Some keys) /\
    challengeBiddingDown request = Ok false /\ verifyChallengeCheckcode request packets = Ok checkcode /\
    challenge_answered request aka keys kdf checkcode packets response.
Proof.
  intros Hp Hr. rewrite BuildChallengeResponse_unfold. case_match; [done|]. case_match; [done|].
  intros ([] & Hres & B)%bind_ok. apply bind_ok in B as ([k kdf] & Hk & B). cbn [fst snd] in B.
  apply bind_ok in B as (ch & Hch & B). apply bind_ok in B as ([] & Hbd & B); [done|].
  apply bind_ok in B as (cc & Hcc & B). cbv zeta in B. apply bind_ok in B as (r & Hbuild & [= <- <-]).
  exists kdf, cc. split; [exact Hk|].
  pose proof (parseChallenge_safe request (Some k) Hp) as Hauth. unfold ParseChallengeWithKeys in Hch. rewrite Hch in Hauth.
  pose proof Hauth as (_ & _ & Hty & _). split; [exact Hauth|]. split; [exact Hbd|]. split; [exact Hcc|].
  destruct (complete_response request (response_attrs request aka kdf cc packets) (ks_KAut k) r (response_attrs_no_mac _ _ _ _ _) Hbuild)
    as (mac & raw & Hl & Hmb & -> & Hraw & Hv).
  exists raw, mac. split; [exact Hraw|]. split; [exact Hl|]. split; [|split; [exact Hv|apply RESValue_wire; by apply validateRES_ok]].
  destruct Hp as (_ & Hid & Het & _).
  rewrite (response_roundtrip (challenge_response request (response_attrs request aka kdf cc packets ++ [MACAttribute mac])) raw); [|..|exact Hraw].
  - cbn [challenge_response pk_Identifier pk_Subtype pk_Attributes]. do 2 f_equal. rewrite fmap_app. cbn [fmap list_fmap]. by rewrite MAC_wire.
  - split; [by_decide|]. split; [exact Hid|]. split; [exact Het|]. split; [by_decide|]. split; [|constructor].
    apply Forall_app. split; [by apply response_attrs_ok|]. constructor; [by apply MACAttribute_ok|constructor].
  - reflexivity.
  - reflexivity.
  - exact Hty.
Qed.
End total.

(** ** The error paths *)
Lemma kdfValues_filter attrs values : kdfValues_loop (challengeKDFAttributes attrs) values = kdfValues_loop attrs values.
Proof.
  revert values. induction attrs as [|a attrs IH]; intros values; [done|]. unfold challengeKDFAttributes in *. rewrite filter_cons.
  cbn [kdfValues_loop]. destruct (Z.eqb_spec (a_Type a) AttributeKDF) as [E|E]; cbn [negb].
  - rewrite decide_True by done. cbn [kdfValues_loop]. rewrite E, Z.eqb_refl. cbn [negb]. destruct (KDFValue a); try done. cbn [bind]. apply IH.
  - rewrite decide_False by done. apply IH.
Qed.
Lemma kdf_attributes_wire attrs : wire <$> attrs = attrs -> wire <$> challengeKDFAttributes attrs = challengeKDFAttributes attrs.
Proof.
  induction attrs as [|a attrs IH]; [done|]. cbn [fmap list_fmap]. intros [= Ha Hr]. unfold challengeKDFAttributes in *. rewrite filter_cons.
  case_decide; [|by apply IH]. cbn [fmap list_fmap]. rewrite (IH Hr). f_equal. exact Ha.
Qed.
Lemma of_type_kdf attrs t : t <> AttributeKDF -> of_type t (challengeKDFAttributes attrs) = [].
Proof.
  intros Ht. unfold of_type, challengeKDFAttributes. induction attrs as [|a attrs IH]; [done|]. rewrite filter_cons.
  case_decide as E; [|exact IH]. rewrite filter_cons, decide_False by congruence. exact IH.
Qed.

Section errors.
Context {C : Crypto} `{!CryptoLaws C}.

Lemma ChallengeRANDAndAUTN_facts request rand autn :
  Packet_ok request -> ChallengeRANDAndAUTN request = Ok (rand, autn) ->
  challenge_authentic request None /\ exists kdfs, kdfValues (pk_Attributes request) = Ok kdfs.
Proof.
  intros Hp H. unfold ChallengeRANDAndAUTN in H. apply bind_ok in H as (ch & Hch & _). unfold ParseChallenge in Hch.
  pose proof (parseChallenge_safe request None Hp) as Ha. rewrite Hch in Ha. split; [exact Ha|].
  unfold parseChallenge in Hch. do 2 (case_match; [done|]). cbv zeta in Hch.
  apply bind_ok in Hch as (x1 & _ & Hch). apply bind_ok in Hch as (x2 & _ & Hch). apply bind_ok in Hch as (x3 & _ & Hch).
  apply bind_ok in Hch as (x4 & _ & Hch). apply bind_ok in Hch as (x5 & _ & Hch). apply bind_ok in Hch as (x6 & _ & Hch).
  apply bind_ok in Hch as (x7 & _ & Hch). apply bind_ok in Hch as (kdfs & Hk & _). eauto.
Qed.

(** The synchronisation failure a server recovers from. *)
Lemma sync_failure_classified request auts kdfs raw :
  Packet_ok request -> wire <$> pk_Attributes request = pk_Attributes request -> bytes_ok auts -> len auts = 14 ->
  isAKAType (pk_EapType request) = true -> kdfValues (pk_Attributes request) = Ok kdfs -> (pk_EapType request = TypeAKAPrime -> kdfs <> []) ->
  let attrs := [AUTSAttribute auts] ++ (if pk_EapType request =? TypeAKAPrime then challengeKDFAttributes (pk_Attributes request) else []) in
  Packet_MarshalBinary (mkPacket CodeResponse (pk_Identifier request) (pk_EapType request) SubtypeSynchronizationFailure attrs []) = Ok raw ->
  exists p info, ParsePacket raw = Ok p /\ pk_Identifier p = pk_Identifier request /\
    ClassifyAKARecoveryPacket p = (true, Ok (mkDecision AKARecoveryResync true false false 0 info)) /\ sf_AUTS info = auts.
Proof.
  intros (_ & Hid & Hty & _ & Ha & _) Hw Hb Hl Haka Hk Hne attrs Hraw. set (p0 := mkPacket _ _ _ _ attrs _) in Hraw.
  assert (Hok : Forall Attribute_ok attrs).
  { subst attrs. apply Forall_app. split; [constructor; [|constructor]; split; [by_decide|]; apply (bytes_ok_app_2 [0; 0]); [by_decide|exact Hb]|].
    case_match; [|constructor]. exact (of_type_ok AttributeKDF _ Ha). }
  set (kdfAttrs := if pk_EapType request =? TypeAKAPrime then challengeKDFAttributes (pk_Attributes request) else []) in *.
  set (attrs' := wire (AUTSAttribute auts) :: kdfAttrs).
  assert (Hwire : wire <$> attrs = attrs').
  { subst attrs attrs'. cbn [app fmap list_fmap]. f_equal. subst kdfAttrs. destruct (pk_EapType request =? TypeAKAPrime); [by apply kdf_attributes_wire|done]. }
  assert (Hp0 : ParsePacket raw = Ok (mkPacket CodeResponse (pk_Identifier request) (eap_type p0) SubtypeSynchronizationFailure attrs' [])).
  { rewrite (response_roundtrip p0 raw); [|..|exact Hraw]; [|split; [by_decide|]; split; [exact Hid|]; split; [exact Hty|]; split; [by_decide|]; split; [exact Hok|constructor]|reflexivity|reflexivity|exact Haka].
    cbn [p0 pk_Identifier pk_Subtype pk_Attributes]. by rewrite Hwire. }
  eexists _, (mkSyncInfo auts (mkAUTSFields (sub auts 0 6) (sub auts 6 14)) (if pk_EapType request =? TypeAKAPrime then kdfs else [])).
  split; [exact Hp0|]. split; [reflexivity|]. split; [|reflexivity]. unfold ClassifyAKARecoveryPacket. cbn [pk_Code pk_Subtype].
  change (CodeResponse =? CodeFailure) with false. change (negb (CodeResponse =? CodeResponse)) with false.
  change (SubtypeSynchronizationFailure =? SubtypeSynchronizationFailure) with true. cbv iota. f_equal.
  unfold ParseSynchronizationFailureResponse. cbn [pk_Code pk_Subtype pk_EapType pk_Attributes].
  change (negb (CodeResponse =? CodeResponse) || negb (SubtypeSynchronizationFailure =? SubtypeSynchronizationFailure)) with false. cbv iota.
  assert (Het : isAKAType (eap_type p0) = true /\ (eap_type p0 =? TypeAKAPrime) = (pk_EapType request =? TypeAKAPrime)).
  { unfold eap_type, p0. cbn [pk_EapType]. destruct (Z.eqb_spec (pk_EapType request) 0) as [->|]; [split; reflexivity|]. split; [exact Haka|reflexivity]. }
  destruct Het as [-> ->]. cbn [negb]. rewrite FindSingleAttribute_spec.
  assert (Hof : of_type AttributeAUTS attrs' = [wire (AUTSAttribute auts)]).
  { subst attrs'. unfold of_type. rewrite filter_cons, decide_True by done. f_equal. subst kdfAttrs. destruct (pk_EapType request =? TypeAKAPrime); [by apply of_type_kdf|done]. }
  rewrite Hof. cbn [required negb bind].
  assert (AUTSValue (wire (AUTSAttribute auts)) = Ok auts) as ->.
  { pose proof (fixedValueExact_wire AttributeAUTS auts) as E. by rewrite Hl in E. }
  cbn [bind]. unfold ParseAUTS, AUTSLength, AKLength, slice_from. rewrite Hl. change (negb (14 =? 14)) with false. cbv iota.
  rewrite !slice_Ok by lia. cbn [bind].
  assert (kdfValues attrs' = Ok (if pk_EapType request =? TypeAKAPrime then kdfs else [])) as ->.
  { subst attrs' kdfAttrs. unfold kdfValues in *. cbn [kdfValues_loop wire AUTSAttribute FixedAttribute a_Type]. change (AttributeAUTS =? AttributeKDF) with false. cbn [negb].
    destruct (pk_EapType request =? TypeAKAPrime); [by rewrite kdfValues_filter|done]. }
  cbn [bind]. destruct (Z.eqb_spec (pk_EapType request) TypeAKAPrime) as [E|E]; [|done]. specialize (Hne E).
  destruct kdfs; [done|]. rewrite len_cons. pose proof (len_nonneg kdfs). by replace (1 + len kdfs =? 0) with false by lia.
Qed.
End errors.

(** ** Properties *)

(** C16: how a SIM that fails is answered.  On a synchronisation
    failure whose AUTS (from the result, else from the error) has 14 octets the
    answer is a Synchronization-Failure, and when it can be written, its octets are read back by this package's own
    [ParsePacket] and [ClassifyAKARecoveryPacket] as
    "resynchronise" with this AUTS (for EAP-AKA' when the challenge has an AT_KDF);
    another AUTS length is an error; an authentication failure is answered with
    an Authentication-Reject that the same functions read back as failed; any other error
    is returned as it is; and neither answer has keys.  (The AT_AUTS that is written and read is not laid out as in RFC 4187, section
    10.9: see [auts_attribute_on_the_wire].) *)
Theorem provider_failure_answered (C : Crypto) (L : CryptoLaws C) identity request CalculateAKA packets rand autn aka cause :
  Packet_ok request -> wire <$> pk_Attributes request = pk_Attributes request ->
  ChallengeRANDAndAUTN request = Ok (rand, autn) -> CalculateAKA rand autn = (aka, Some cause) -> bytes_ok (syncFailureAUTS aka cause) ->
  let r := BuildChallengeResponseFromProvider identity request CalculateAKA packets in
  (errors_Is cause ErrSyncFailure = true -> len (syncFailureAUTS aka cause) <> 14 -> r = Errorf ErrInvalidAKAChallenge) /\
  (errors_Is cause ErrSyncFailure = true -> len (syncFailureAUTS aka cause) = 14 ->
     exists res, r = Ok res /\ cr_SyncFailure res = true /\ cr_Keys res = zeroKeys /\
       aka_AUTS (cr_AKA res) = syncFailureAUTS aka cause /\
       forall raw, Packet_MarshalBinary (cr_Response res) = Ok raw ->
       (pk_EapType request = TypeAKAPrime -> kdfValues (pk_Attributes request) <> Ok []) ->
       exists p info, ParsePacket raw = Ok p /\ pk_Identifier p = pk_Identifier request /\
         ClassifyAKARecoveryPacket p = (true, Ok (mkDecision AKARecoveryResync true false false 0 info)) /\
         sf_AUTS info = syncFailureAUTS aka cause) /\
  (errors_Is cause ErrSyncFailure = false -> errors_Is cause ErrAuthFailure = true ->
     exists res raw p, r = Ok res /\ cr_AuthFailure res = true /\ cr_Keys res = zeroKeys /\
       Packet_MarshalBinary (cr_Response res) = Ok raw /\ ParsePacket raw = Ok p /\
       ClassifyAKARecoveryPacket p = (true, Ok (mkDecision AKARecoveryFail false true false 0 zeroSyncInfo))) /\
  (errors_Is cause ErrSyncFailure = false -> errors_Is cause ErrAuthFailure = false -> r = Err cause).
Proof.
  intros Hp Hw Hra Hcalc Hb r. destruct (ChallengeRANDAndAUTN_facts request rand autn Hp Hra) as [(Hc & Hs & Hty & _) [kdfs Hk]].
  subst r. unfold BuildChallengeResponseFromProvider. rewrite Hra. cbn [bind]. rewrite Hcalc. unfold BuildAKAFailureResponse.
  assert (Hpre : negb (pk_Code request =? CodeRequest) || negb (pk_Subtype request =? SubtypeChallenge) = false) by (by rewrite Hc, Hs).
  destruct (errors_Is cause ErrSyncFailure) eqn:Hsync; [|destruct (errors_Is cause ErrAuthFailure) eqn:Hauth].
  - unfold BuildSynchronizationFailureResponse. rewrite Hpre, Hty. cbn [negb]. unfold AUTSLength.
    split; [|split; [|split; [done|done]]].
    + intros _ Hl. by replace (len (syncFailureAUTS aka cause) =? 14) with false by lia.
    + intros _ Hl. rewrite Hl. change (negb (14 =? 14)) with false. cbv iota zeta. cbn [bind negb].
      eexists. split; [reflexivity|]. cbn [cr_SyncFailure cr_Keys cr_AKA cr_Response]. split; [reflexivity|]. split; [reflexivity|]. split.
      * unfold syncFailureAUTS. pose proof (len_nonneg (aka_AUTS aka)). cbn [andb].
        destruct (Z.eqb_spec (len (aka_AUTS aka)) 0) as [E|E]; [reflexivity|]. by replace (0 <? len (aka_AUTS aka)) with true by lia.
      * intros raw Hraw Hkdf. apply (sync_failure_classified request (syncFailureAUTS aka cause) kdfs raw); try done.
        { intros E ->. by apply (Hkdf E). }
        cbv zeta. rewrite <- Hraw. do 2 f_equal. by destruct (pk_EapType request =? TypeAKAPrime).
  - unfold BuildAuthenticationRejectResponse. rewrite Hpre, Hty. cbn [negb bind]. split; [done|]. split; [done|]. split; [|done]. intros _ _.
    set (p0 := mkPacket CodeResponse (pk_Identifier request) (eap_type request) SubtypeAuthenticationReject [] []).
    assert (Hplain : plain_packet p0) by (by split; [right|]).
    assert (Hm : Packet_MarshalBinary p0 = Ok (packet_wire p0)).
    { apply marshal_packet; [exact Hplain|]. split; [|reflexivity]. split; [constructor|by_decide]. }
    assert (Het : isAKAType (eap_type request) = true /\ eap_type p0 = eap_type request).
    { unfold eap_type at 2. unfold p0, eap_type. cbn [pk_EapType]. destruct (Z.eqb_spec (pk_EapType request) 0) as [|Hn]; [by split|].
      split; [exact Hty|]. by replace (pk_EapType request =? 0) with false by lia. }
    destruct Het as [Ht1 Ht2]. destruct Hp as (_ & Hid & Het & _).
    eexists _, _, _. split; [reflexivity|]. split; [reflexivity|]. split; [reflexivity|]. split; [exact Hm|]. split.
    + apply (response_roundtrip p0 _); [|reflexivity|reflexivity|exact Ht1|exact Hm].
      split; [by_decide|]. split; [exact Hid|]. split; [|split; [by_decide|split; constructor]].
      unfold p0, eap_type. cbn [pk_EapType]. by case_match.
    + unfold ClassifyAKARecoveryPacket. cbn [pk_Code pk_Subtype pk_EapType]. rewrite Ht2, Ht1. reflexivity.
  - split; [done|]. split; [done|]. split; [done|]. by intros _ _.
Qed.

Definition sample_identity : bytes := [48; 49].
Definition sample_challenge_unkeyed : Packet :=
  mkPacket CodeRequest 9 TypeAKA SubtypeChallenge [RANDAttribute [replicate 16 1]; AUTNAttribute (replicate 16 2); MACAttribute []] [].
Definition sample_failing_sim (rand autn : bytes) : AKAResult * option error :=
  (mkAKAResult [] [] [] [], Some (SyncFailureError (replicate 14 5))).
Lemma provider_failure_answered_witness :
  exists res, BuildChallengeResponseFromProvider (C := toy_crypto) sample_identity sample_challenge_unkeyed sample_failing_sim [] = Ok res /\
    cr_SyncFailure res = true.
Proof.
  destruct (provider_failure_answered toy_crypto toy_crypto_laws sample_identity sample_challenge_unkeyed sample_failing_sim []
    (replicate 16 1) (replicate 16 2) (mkAKAResult [] [] [] []) (SyncFailureError (replicate 14 5))) as (_ & H & _);
    [by_decide|reflexivity|vm_compute; reflexivity|reflexivity|by_decide|].
  destruct (H eq_refl eq_refl) as (res & Hr & Hs & _). exists res. split; [exact Hr|exact Hs].
Defined.


(** C11: the AKA challenge response, composed: on any packet
    [BuildChallengeResponseWithCheckcode] returns; when it answers, the request's
    AT_MAC verified under the K_aut derived from the identity and the SIM's
    result, the challenge did not ask to prefer EAP-AKA', and the checkcode of
    the request, if any, matched the identity packets; and the octets of the
    response parse to a Challenge response with the request's identifier whose
    AT_RES decodes to RES, with AT_KDF for EAP-AKA' only, the checkcode and the
    result indication exactly when the request has them, and an AT_MAC that
    verifies under the same K_aut. *)
Theorem challenge_response_correct (C : Crypto) (L : CryptoLaws C) identity request aka packets :
  Packet_ok request -> bytes_ok (aka_RES aka) ->
  returns (BuildChallengeResponseWithCheckcode identity request aka packets) /\
  forall response keys, BuildChallengeResponseWithCheckcode identity request aka packets = Ok (response, keys) ->
  exists kdf checkcode,
    deriveChallengeKeys identity request aka = Ok (keys, kdf) /\ challenge_authentic request (Some keys) /\
    challengeBiddingDown request = Ok false /\ verifyChallengeCheckcode request packets = Ok checkcode /\
    challenge_answered request aka keys kdf checkcode packets response.
Proof.
  intros Hp Hr. split; [by apply BuildChallengeResponse_returns|]. intros response keys H.
  by apply (BuildChallengeResponse_spec identity).
Qed.

Definition sample_challenge : Packet :=
  let p mac := mkPacket CodeRequest 9 TypeAKA SubtypeChallenge
    [RANDAttribute [replicate 16 1]; AUTNAttribute (replicate 16 2); ResultIndAttribute; MACAttribute mac] [] in
  p (mac_of (C := toy_crypto) TypeAKA
       (match DeriveKeys (C := toy_crypto) sample_identity sample_aka with Ok k => ks_KAut k | _ => [] end) (packet_wire (p [])) []).
Lemma challenge_response_correct_witness :
  exists response keys, BuildChallengeResponseWithCheckcode (C := toy_crypto) sample_identity sample_challenge sample_aka [] = Ok (response, keys) /\
    challenge_answered (C := toy_crypto) sample_challenge sample_aka keys 0 false [] response.
Proof.
  destruct (BuildChallengeResponseWithCheckcode (C := toy_crypto) sample_identity sample_challenge sample_aka [])
    as [[response keys]| | |] eqn:E; [|vm_compute in E; discriminate E..].
  destruct (proj2 (challenge_response_correct toy_crypto toy_crypto_laws sample_identity sample_challenge sample_aka []
    ltac:(by_decide) ltac:(by_decide)) response keys E) as (kdf & cc & Hk & _ & _ & Hcc & Hans).
  vm_compute in Hcc. injection Hcc as <-. exists response, keys. split; [reflexivity|].
  assert (Hty : (pk_EapType sample_challenge =? 0) || (pk_EapType sample_challenge =? TypeAKA) = true) by reflexivity.
  rewrite (deriveChallengeKeys_AKA _ _ _ _ _ Hty Hk) in Hans. exact Hans.
Defined.

(** The AT_AUTS that is written carries two reserved octets before AUTS and two of
    padding behind it, five words in all; RFC 4187 section 10.9 has AUTS follow the
    length octet, four words. *)
Example auts_attribute_on_the_wire :
  Attribute_MarshalBinary (AUTSAttribute (replicate 14 9)) = Ok ([4; 5; 0; 0] ++ replicate 14 9 ++ [0; 0]).
Proof. reflexivity. Qed.
