(* ===== verification/ChildSa.v ===== *)
(** * Child SAs (engine/swu/ikev2/childsa.go, create_child.go, create_child_rekey.go)

    The keys of a child SA, the checks on the responder's answer, the
    CREATE_CHILD_SA exchange and the plan of a rekey.  The transport of an
    exchange is a function from the request to the response; a random source
    is a [Reader]. *)
From S2P Require Import Prelude Errors Crypto Types Codec Notify Sa Keys Sk Session EapAka.

Record ESPKeyProfile := mkESPProfile {
  ep_EncryptionID : Z;
  ep_EncryptionKeyLength : Z;
  ep_IntegrityID : Z;
  ep_IntegrityKeyLength : Z;
  ep_ESN : bool
}.
Definition DirectionKeyLength (p : ESPKeyProfile) : Z := ep_EncryptionKeyLength p + ep_IntegrityKeyLength p.

Record ESPKeys := mkESPKeys { ek_EncryptionKey : bytes; ek_IntegrityKey : bytes }.
Record ChildSAKeys := mkChildKeys {
  ck_Profile : ESPKeyProfile;
  ck_Outbound : ESPKeys;
  ck_Inbound : ESPKeys
}.
Record ChildSAResult := mkChildResult {
  cr_SelectedSA : SecurityAssociation;
  cr_TSi : TrafficSelectors;
  cr_TSr : TrafficSelectors;
  cr_Configuration : option Configuration;
  cr_LocalSPI : bytes;
  cr_RemoteSPI : bytes;
  cr_Keys : ChildSAKeys;
  cr_EAPSuccess : bool;
  cr_NextMessageID : Z
}.

Definition ESPKeyProfileFromSA (sa : SecurityAssociation) : result ESPKeyProfile :=
  match sa_Proposals sa with
  | [] => Errorf ErrInvalidChildSA
  | p :: _ =>
      if negb (pr_ProtocolID p =? ProtocolESP) then Errorf ErrInvalidChildSA else
      match findTransform (pr_Transforms p) TransformENCR with
      | None => Errorf ErrInvalidChildSA
      | Some encr =>
      let! r := encryptionProfile encr in
      let '(encrLen, _) := r in
      let! r :=
        (if isCombinedModeEncryption (t_ID encr) then
           match findTransform (pr_Transforms p) TransformINTEG with
           | Some _ => Errorf ErrInvalidChildSA
           | None => Ok (0, 0)
           end
         else
           match findTransform (pr_Transforms p) TransformINTEG with
           | None => Errorf ErrInvalidChildSA
           | Some integ =>
               let! r := integrityProfile (t_ID integ) in
               let '(integLen, _) := r in Ok (t_ID integ, integLen)
           end) in
      let '(integID, integLen) := r in
      let esn :=
        match findTransform (pr_Transforms p) TransformESN with
        | Some tr => t_ID tr =? ESNYes
        | None => false
        end in
      Ok (mkESPProfile (t_ID encr) encrLen integID integLen esn)
      end
  end.

Definition splitESPKeys (profile : ESPKeyProfile) (material : bytes) : result ESPKeys :=
  let! enc := slice material 0 (ep_EncryptionKeyLength profile) in
  let! integ := slice material (ep_EncryptionKeyLength profile) (DirectionKeyLength profile) in
  Ok (mkESPKeys enc integ).

Fixpoint firstSecurityAssociation (payloads : list Payload) : result (option SecurityAssociation) :=
  match payloads with
  | [] => Ok None
  | payload :: rest =>
      if negb (p_Type payload =? PayloadSA) then firstSecurityAssociation rest else
      let! sa := ParseSecurityAssociation (p_Body payload) in Ok (Some sa)
  end.

(** The loop over the inner payloads: [out] is the result being filled. *)
Fixpoint collect_child (inner : list Payload) (out : ChildSAResult) : result ChildSAResult :=
  match inner with
  | [] => Ok out
  | p :: rest =>
      let! out :=
        (if p_Type p =? PayloadSA then
           let! sa := ParseSecurityAssociation (p_Body p) in
           Ok (mkChildResult sa (cr_TSi out) (cr_TSr out) (cr_Configuration out) (cr_LocalSPI out)
                 (cr_RemoteSPI out) (cr_Keys out) (cr_EAPSuccess out) (cr_NextMessageID out))
         else if p_Type p =? PayloadTSi then
           let! ts := ParseTrafficSelectors (p_Body p) in
           Ok (mkChildResult (cr_SelectedSA out) ts (cr_TSr out) (cr_Configuration out) (cr_LocalSPI out)
                 (cr_RemoteSPI out) (cr_Keys out) (cr_EAPSuccess out) (cr_NextMessageID out))
         else if p_Type p =? PayloadTSr then
           let! ts := ParseTrafficSelectors (p_Body p) in
           Ok (mkChildResult (cr_SelectedSA out) (cr_TSi out) ts (cr_Configuration out) (cr_LocalSPI out)
                 (cr_RemoteSPI out) (cr_Keys out) (cr_EAPSuccess out) (cr_NextMessageID out))
         else if p_Type p =? PayloadCP then
           let! cfg := ParseConfiguration (p_Body p) in
           Ok (mkChildResult (cr_SelectedSA out) (cr_TSi out) (cr_TSr out) (Some cfg) (cr_LocalSPI out)
                 (cr_RemoteSPI out) (cr_Keys out) (cr_EAPSuccess out) (cr_NextMessageID out))
         else if p_Type p =? PayloadEAP then
           let! pkt := ParsePacket (p_Body p) in
           Ok (mkChildResult (cr_SelectedSA out) (cr_TSi out) (cr_TSr out) (cr_Configuration out)
                 (cr_LocalSPI out) (cr_RemoteSPI out) (cr_Keys out) (pk_Code pkt =? CodeSuccess)
                 (cr_NextMessageID out))
         else Ok out) in
      collect_child rest out
  end.

Definition zeroESPKeys := mkESPKeys [] [].
Definition zeroChildKeys := mkChildKeys (mkESPProfile 0 0 0 0 false) zeroESPKeys zeroESPKeys.
Definition zeroChildResult : ChildSAResult :=
  mkChildResult (mkSA []) (mkTSs []) (mkTSs []) None [] [] zeroChildKeys false 0.

Section child.
Context {C : Crypto}.

Definition DeriveChildSAKeysWithNonces (prf : hash) (skD nonceI nonceR : bytes)
    (selectedSA : SecurityAssociation) : result ChildSAKeys :=
  if (len skD =? 0) || (len nonceI =? 0) || (len nonceR =? 0) then Errorf ErrInvalidChildSA else
  let! profile := ESPKeyProfileFromSA selectedSA in
  let dirLen := DirectionKeyLength profile in
  if dirLen <=? 0 then Errorf ErrInvalidChildSA else
  let! keymat := PRFPlus prf skD (nonceI ++ nonceR) (dirLen * 2) in
  let! o := slice keymat 0 dirLen in
  let! outbound := splitESPKeys profile o in
  let! i := slice_from keymat dirLen in
  let! inbound := splitESPKeys profile i in
  Ok (mkChildKeys profile outbound inbound).

Definition DeriveChildSAKeys (init : InitResult) (selectedSA : SecurityAssociation) : result ChildSAKeys :=
  if bool_decide (kp_PRF (k_Profile (ir_Keys init)) = HashNone) || (len (k_SKD (ir_Keys init)) =? 0)
  then Errorf ErrInvalidChildSA else
  DeriveChildSAKeysWithNonces (kp_PRF (k_Profile (ir_Keys init))) (k_SKD (ir_Keys init))
    (ir_NonceI init) (ir_NonceR init) selectedSA.

Definition parseChildSAResultWithNonces (init : InitResult) (inner : list Payload)
    (localSPI nonceI nonceR : bytes) (offeredSA : option SecurityAssociation)
    (offeredTSi offeredTSr : TrafficSelectors) : result ChildSAResult :=
  let! out := collect_child inner zeroChildResult in
  match sa_Proposals (cr_SelectedSA out) with
  | [] => Errorf ErrInvalidChildSA
  | proposal :: _ =>
      let! _ :=
        (match offeredSA with
         | Some offered => ValidateSelectedSA offered (cr_SelectedSA out)
         | None => Ok tt
         end) in
      if len (pr_SPI proposal) =? 0 then Errorf ErrInvalidChildSA else
      if len (ts_Selectors (cr_TSi out)) =? 0 then Errorf ErrInvalidChildSA else
      if len (ts_Selectors (cr_TSr out)) =? 0 then Errorf ErrInvalidChildSA else
      let! _ :=
        (if 0 <? len (ts_Selectors offeredTSi) then
           map_err (Wrap ErrInvalidChildSA) (ValidateTrafficSelectorNarrowing offeredTSi (cr_TSi out))
         else Ok tt) in
      let! _ :=
        (if 0 <? len (ts_Selectors offeredTSr) then
           map_err (Wrap ErrInvalidChildSA) (ValidateTrafficSelectorNarrowing offeredTSr (cr_TSr out))
         else Ok tt) in
      let! keys := DeriveChildSAKeysWithNonces (kp_PRF (k_Profile (ir_Keys init))) (k_SKD (ir_Keys init))
                     nonceI nonceR (cr_SelectedSA out) in
      Ok (mkChildResult (cr_SelectedSA out) (cr_TSi out) (cr_TSr out) (cr_Configuration out) localSPI
            (pr_SPI proposal) keys (cr_EAPSuccess out) (cr_NextMessageID out))
  end.

Definition ParseChildSAResultWithNonces init inner localSPI nonceI nonceR : result ChildSAResult :=
  parseChildSAResultWithNonces init inner localSPI nonceI nonceR None (mkTSs []) (mkTSs []).
Definition ParseChildSAResult init inner localSPI : result ChildSAResult :=
  ParseChildSAResultWithNonces init inner localSPI (ir_NonceI init) (ir_NonceR init).
Definition parseChildSAResultWithOfferedSA init inner localSPI offeredSA : result ChildSAResult :=
  parseChildSAResultWithNonces init inner localSPI (ir_NonceI init) (ir_NonceR init) (Some offeredSA)
    (mkTSs []) (mkTSs []).
End child.

(** ** Deletes of a child SA (payloads.go) *)
Definition ChildSADeletePayload (child : ChildSAResult) : result Payload :=
  if len (cr_LocalSPI child) =? 0 then Errorf ErrInvalidDelete else
  ESPDeletePayload [cr_LocalSPI child].
Definition TeardownDeletePayloads (child : ChildSAResult) (includeIKESA : bool) : result (list Payload) :=
  let! out :=
    (if 0 <? len (cr_LocalSPI child) then
       let! payload := ChildSADeletePayload child in Ok [payload]
     else Ok []) in
  let out := if includeIKESA then out ++ [IKEDeletePayload] else out in
  if len out =? 0 then Errorf ErrInvalidDelete else Ok out.

(** ** CREATE_CHILD_SA *)
Definition DefaultNonceLength := 32.

(** [InitTransport.ExchangeIKE] *)
Abbreviation Transport := (bytes -> result bytes).

Record CreateChildSAConfig := mkCreateChild {
  cc_Transport : option Transport;
  cc_Init : InitResult;
  cc_Keys : IKEKeys;
  cc_MessageID : Z;
  cc_ChildSA : SecurityAssociation;
  cc_ChildSPI : bytes;
  cc_TSi : TrafficSelectors;
  cc_TSr : TrafficSelectors;
  cc_Nonce : bytes;
  cc_RekeySPI : bytes;
  cc_Random : option Reader;
  cc_IV : bytes
}.

Record CreateChildSAResult := mkCreateChildResult {
  cs_RequestBytes : bytes;
  cs_ResponseBytes : bytes;
  cs_RequestNonce : bytes;
  cs_ResponseNonce : bytes;
  cs_ResponseInner : list Payload;
  cs_ChildSA : ChildSAResult;
  cs_NextMessageID : Z;
  cs_Rekeyed : bool
}.

Definition cloneTransform (t : Transform) : Transform :=
  mkTransform (t_Type t) (t_ID t) ((fun a => mkAttr (at_Type a) (at_Value a)) <$> t_Attributes t).
Definition cloneSecurityAssociation (sa : SecurityAssociation) : SecurityAssociation :=
  mkSA ((fun p => mkProposal (pr_Number p) (pr_ProtocolID p) (pr_SPI p) (cloneTransform <$> pr_Transforms p))
        <$> sa_Proposals sa).
Definition clonePayloads (ps : list Payload) : list Payload :=
  (fun p => mkPayload (p_Type p) (p_NextPayload p) (p_Critical p) (p_Body p)) <$> ps.
Definition cloneTrafficSelectors (ts : TrafficSelectors) : TrafficSelectors :=
  mkTSs ((fun s => mkTS (ts_Type s) (ts_IPProtocol s) (ts_StartPort s) (ts_EndPort s) (ts_StartAddr s) (ts_EndAddr s))
         <$> ts_Selectors ts).

Definition with_SPI (p : Proposal) (spi : bytes) : Proposal :=
  mkProposal (pr_Number p) (pr_ProtocolID p) spi (pr_Transforms p).

Definition createChildProposal (cfg : CreateChildSAConfig) (random : Reader) : result (SecurityAssociation * bytes) :=
  let sa := cc_ChildSA cfg in
  let spi := cc_ChildSPI cfg in
  if len (sa_Proposals sa) =? 0 then
    let! spi := (if len spi =? 0 then randomBytes random 4 else Ok spi) in
    if negb (len spi =? 4) then Errorf ErrInvalidCreateChild else Ok (DefaultESPProposal spi, spi)
  else
  match sa_Proposals (cloneSecurityAssociation sa) with
  | [p] =>
      let '(p, spi) := if len spi =? 0 then (p, pr_SPI p) else (with_SPI p spi, spi) in
      if negb (len spi =? 4) then Errorf ErrInvalidCreateChild else Ok (mkSA [p], spi)
  | _ => Errorf ErrInvalidCreateChild
  end.

Definition createChildHeader (init : InitResult) (messageID : Z) (fromInitiator : bool) : Header :=
  mkHeader (ir_InitiatorSPI init) (ir_ResponderSPI init) 0 0 ExchangeCREATE_CHILD_SA
    (if fromInitiator then Z.lor 0 FlagInitiator else Z.lor 0 FlagResponse) messageID 0.

Fixpoint firstNonce (payloads : list Payload) : result bytes :=
  match payloads with
  | [] => Errorf ErrInvalidCreateChild
  | payload :: rest =>
      if p_Type payload =? PayloadNonce then
        if len (p_Body payload) =? 0 then Errorf ErrInvalidCreateChild else Ok (p_Body payload)
      else firstNonce rest
  end.

Record ChildSARekeyConfig := mkRekeyConfig {
  rk_Transport : option Transport;
  rk_Init : InitResult;
  rk_Keys : IKEKeys;
  rk_MessageID : Z;
  rk_OldChildSA : ChildSAResult;
  rk_ChildSA : SecurityAssociation;
  rk_ChildSPI : bytes;
  rk_RekeySPI : bytes;
  rk_TSi : TrafficSelectors;
  rk_TSr : TrafficSelectors;
  rk_Nonce : bytes;
  rk_Random : option Reader;
  rk_IV : bytes
}.
Record ChildSARekeyPlan := mkRekeyPlan {
  rp_Config : CreateChildSAConfig;
  rp_OldLocalSPI : bytes;
  rp_OldRemoteSPI : bytes;
  rp_RekeySPI : bytes;
  rp_NewLocalSPI : bytes
}.

Section create_child.
Context {C : Crypto} (rand_Reader : Reader).

Definition reader_of (random : option Reader) : Reader :=
  match random with None => rand_Reader | Some r => r end.

Definition BuildCreateChildSAPayloads (cfg : CreateChildSAConfig) : result (list Payload * bytes * bytes) :=
  let random := reader_of (cc_Random cfg) in
  let! r := createChildProposal cfg random in
  let '(childSA, localSPI) := r in
  let! nonce := (if len (cc_Nonce cfg) =? 0 then randomBytes random DefaultNonceLength else Ok (cc_Nonce cfg)) in
  if len nonce =? 0 then Errorf ErrInvalidCreateChild else
  let! saPayload := SecurityAssociationPayload childSA in
  let tsi := if len (ts_Selectors (cc_TSi cfg)) =? 0 then IPv4AnyTrafficSelectors else cc_TSi cfg in
  let! tsiPayload := TrafficSelectorsPayload PayloadTSi tsi in
  let tsr := if len (ts_Selectors (cc_TSr cfg)) =? 0 then IPv4AnyTrafficSelectors else cc_TSr cfg in
  let! tsrPayload := TrafficSelectorsPayload PayloadTSr tsr in
  let! payloads :=
    (if 0 <? len (cc_RekeySPI cfg) then
       if negb (len (cc_RekeySPI cfg) =? 4) then Errorf ErrInvalidCreateChild else
       let! rekey := NotifyPayload (mkNotify ProtocolESP NotifyRekeySA (cc_RekeySPI cfg) []) in
       Ok [rekey]
     else Ok []) in
  Ok (payloads ++ [saPayload; NoncePayload nonce; tsiPayload; tsrPayload], nonce, localSPI).

Definition unprotectCreateChildResponse (raw : bytes) (init : InitResult) (keys : IKEKeys) (messageID : Z)
  : result (Message * list Payload) :=
  let! r := UnprotectMessage raw keys false in
  let '(msg, inner) := r in
  let h := m_Header msg in
  if negb (h_InitiatorSPI h =? ir_InitiatorSPI init) || negb (h_ResponderSPI h =? ir_ResponderSPI init) ||
     negb (h_ExchangeType h =? ExchangeCREATE_CHILD_SA) || negb (h_MessageID h =? messageID) ||
     (Z.land (h_Flags h) FlagResponse =? 0)
  then Errorf ErrInvalidCreateChild else Ok (msg, inner).

Definition createChildIV (random : option Reader) (profile : KeyMaterialProfile) (override : bytes) : result bytes :=
  if 0 <? len override then
    if negb (len override =? kp_EncryptionBlockSize profile) then Errorf ErrInvalidCreateChild else Ok override
  else RandomIV rand_Reader random profile.

(** [parseInit := cfg.Init; parseInit.Keys = keys] *)
Definition with_keys (i : InitResult) (keys : IKEKeys) : InitResult :=
  mkInitResult (ir_RequestBytes i) (ir_ResponseBytes i) (ir_Request i) (ir_Response i) (ir_SelectedSA i)
    (ir_InitiatorSPI i) (ir_ResponderSPI i) (ir_NonceI i) (ir_NonceR i) (ir_PublicKeyI i) (ir_PublicKeyR i)
    (ir_SharedSecret i) (ir_PRF i) (ir_SKEYSEED i) (ir_KeyMaterial i) keys (ir_MOBIKESupported i) (ir_NATDetected i).

Definition RunCREATE_CHILD_SA (cfg : CreateChildSAConfig) : result CreateChildSAResult :=
  match cc_Transport cfg with
  | None => Errorf ErrInvalidCreateChild
  | Some exchangeIKE =>
  let keys := if RequiredLength (k_Profile (cc_Keys cfg)) =? 0 then ir_Keys (cc_Init cfg) else cc_Keys cfg in
  let! _ := validateKeySet keys in
  if (ir_InitiatorSPI (cc_Init cfg) =? 0) || (ir_ResponderSPI (cc_Init cfg) =? 0)
  then Errorf ErrInvalidCreateChild else
  if cc_MessageID cfg =? 0 then Errorf ErrInvalidCreateChild else
  let! r := BuildCreateChildSAPayloads cfg in
  let '(payloads, requestNonce, localSPI) := r in
  let! o := firstSecurityAssociation payloads in
  match o with
  | None => Errorf ErrInvalidCreateChild
  | Some offeredSA =>
  let! iv := createChildIV (cc_Random cfg) (k_Profile keys) (cc_IV cfg) in
  let! r := ProtectMessage rand_Reader (createChildHeader (cc_Init cfg) (cc_MessageID cfg) true) keys true payloads iv in
  let '(_, reqBytes) := r in
  let! respBytes := exchangeIKE reqBytes in
  let! r := unprotectCreateChildResponse respBytes (cc_Init cfg) keys (cc_MessageID cfg) in
  let '(_, inner) := r in
  let! _ := map_err (Wrap ErrInvalidCreateChild) (FirstNotifyError inner) in
  let! responseNonce := firstNonce inner in
  let! child := parseChildSAResultWithNonces (with_keys (cc_Init cfg) keys) inner localSPI requestNonce responseNonce
    (Some offeredSA) (trafficSelectorsOrIPv4Any (cc_TSi cfg)) (trafficSelectorsOrIPv4Any (cc_TSr cfg)) in
  let next := to_u32 (cc_MessageID cfg + 1) in
  let child := mkChildResult (cr_SelectedSA child) (cr_TSi child) (cr_TSr child) (cr_Configuration child)
    (cr_LocalSPI child) (cr_RemoteSPI child) (cr_Keys child) (cr_EAPSuccess child) next in
  Ok (mkCreateChildResult reqBytes respBytes requestNonce responseNonce (clonePayloads inner) child next
        (0 <? len (cc_RekeySPI cfg)))
  end
  end.

(** ** Rekeying *)
Definition childSAForRekey (cfg : ChildSARekeyConfig) : result (SecurityAssociation * bytes) :=
  let random := reader_of (rk_Random cfg) in
  let childSPI := rk_ChildSPI cfg in
  let childSPI :=
    if len childSPI =? 0 then
      match sa_Proposals (rk_ChildSA cfg) with p :: _ => pr_SPI p | [] => childSPI end
    else childSPI in
  let! childSPI := (if len childSPI =? 0 then randomBytes random 4 else Ok childSPI) in
  if negb (len childSPI =? 4) then Errorf ErrInvalidCreateChild else
  let sa := rk_ChildSA cfg in
  let sa := if len (sa_Proposals sa) =? 0 then cr_SelectedSA (rk_OldChildSA cfg) else sa in
  let! sa :=
    (if len (sa_Proposals sa) =? 0 then Ok (DefaultESPProposal childSPI) else
     match sa_Proposals (cloneSecurityAssociation sa) with
     | [p] => if negb (pr_ProtocolID p =? ProtocolESP) then Errorf ErrInvalidCreateChild
              else Ok (mkSA [with_SPI p childSPI])
     | _ => Errorf ErrInvalidCreateChild
     end) in
  Ok (sa, childSPI).

Definition NewChildSARekeyPlan (cfg : ChildSARekeyConfig) : result ChildSARekeyPlan :=
  let oldLocalSPI := cr_LocalSPI (rk_OldChildSA cfg) in
  if negb (len oldLocalSPI =? 4) then Errorf ErrInvalidCreateChild else
  let rekeySPI := if len (rk_RekeySPI cfg) =? 0 then oldLocalSPI else rk_RekeySPI cfg in
  if negb (len rekeySPI =? 4) then Errorf ErrInvalidCreateChild else
  let! r := childSAForRekey cfg in
  let '(childSA, childSPI) := r in
  let tsi := if len (ts_Selectors (rk_TSi cfg)) =? 0 then cr_TSi (rk_OldChildSA cfg) else rk_TSi cfg in
  let tsr := if len (ts_Selectors (rk_TSr cfg)) =? 0 then cr_TSr (rk_OldChildSA cfg) else rk_TSr cfg in
  Ok (mkRekeyPlan
        (mkCreateChild (rk_Transport cfg) (rk_Init cfg) (rk_Keys cfg) (rk_MessageID cfg) childSA childSPI
           (cloneTrafficSelectors tsi) (cloneTrafficSelectors tsr) (rk_Nonce cfg) rekeySPI (rk_Random cfg) (rk_IV cfg))
        oldLocalSPI (cr_RemoteSPI (rk_OldChildSA cfg)) rekeySPI childSPI).

Definition RunCREATE_CHILD_SARekey (cfg : ChildSARekeyConfig) : result CreateChildSAResult :=
  let! plan := NewChildSARekeyPlan cfg in RunCREATE_CHILD_SA (rp_Config plan).
End create_child.

(** ** Keys *)
Definition esp_profile_ok (p : ESPKeyProfile) : Prop :=
  (ep_EncryptionID p = ENCR_AES_CBC /\ ep_EncryptionKeyLength p ∈ [16; 24; 32] /\
   exists checksum, integrity_lengths (ep_IntegrityID p) (ep_IntegrityKeyLength p) checksum) \/
  (ep_EncryptionID p = ENCR_AES_GCM_16 /\ ep_EncryptionKeyLength p ∈ [20; 28; 36] /\
   ep_IntegrityID p = 0 /\ ep_IntegrityKeyLength p = 0).

Lemma ESPKeyProfileFromSA_safe sa : SA_ok sa -> safe (ESPKeyProfileFromSA sa) esp_profile_ok.
Proof.
  intros Hok. unfold ESPKeyProfileFromSA. destruct (sa_Proposals sa) as [|p ps] eqn:Hp; [done|].
  case_match; [done|].
  assert (Forall Transform_ok (pr_Transforms p)) as Hts.
  { unfold SA_ok in Hok. rewrite Hp in Hok. apply Forall_cons in Hok as [(_ & _ & _ & ?) _]. done. }
  destruct (findTransform (pr_Transforms p) TransformENCR) as [encr|] eqn:He; [|done].
  eapply safe_call; [eapply encryptionProfile_safe, findTransform_ok; done|]. intros [kl bs] Hr.
  cbn [fst snd] in Hr. unfold isCombinedModeEncryption, esp_profile_ok.
  destruct (Z.eqb_spec (t_ID encr) ENCR_AES_GCM_16) as [HG|HG].
  - destruct (findTransform _ TransformINTEG); [done|]. cbn.
    destruct Hr as [[HC _]|(_ & Hk & Hb)]; [rewrite HC in HG; discriminate HG|]. right. by split_and!.
  - destruct (findTransform _ TransformINTEG) as [integ|]; [|done].
    pose proof (integrityProfile_safe (t_ID integ)) as Hi.
    destruct (integrityProfile (t_ID integ)) as [[ik cl]|e| |]; try done. cbn.
    destruct Hr as [(HC & Hk & Hb)|[? _]]; [|done]. left. split_and!; try done. by exists cl.
Qed.

Lemma esp_profile_lengths p :
  esp_profile_ok p -> 16 <= ep_EncryptionKeyLength p <= 36 /\ 0 <= ep_IntegrityKeyLength p <= 64.
Proof.
  unfold esp_profile_ok, integrity_lengths.
  intros [(_ & Hk & c & Hi)|(_ & Hk & _ & Hi)]; rewrite !elem_of_cons, !elem_of_nil in *.
  - split; [lia|]. destruct Hi as [[= _ -> _]|[[= _ -> _]|[[= _ -> _]|[[= _ -> _]|[]]]]]; lia.
  - lia.
Qed.

(** The keys of both directions, in the order of RFC 7296 section 2.17. *)
Definition child_keys_spec {C : Crypto} (prf : hash) (skD nonces : bytes) (k : ChildSAKeys) : Prop :=
  let p := ck_Profile k in
  len (ek_EncryptionKey (ck_Outbound k)) = ep_EncryptionKeyLength p /\
  len (ek_IntegrityKey (ck_Outbound k)) = ep_IntegrityKeyLength p /\
  len (ek_EncryptionKey (ck_Inbound k)) = ep_EncryptionKeyLength p /\
  len (ek_IntegrityKey (ck_Inbound k)) = ep_IntegrityKeyLength p /\
  ek_EncryptionKey (ck_Outbound k) ++ ek_IntegrityKey (ck_Outbound k) ++
  ek_EncryptionKey (ck_Inbound k) ++ ek_IntegrityKey (ck_Inbound k)
    = take (Z.to_nat (2 * DirectionKeyLength p)) (prf_stream prf skD nonces 255).

#[local] Opaque prf_stream.

Section child_proofs.
Context {C : Crypto} `{!CryptoLaws C}.

Lemma splitESPKeys_spec p m :
  0 <= ep_EncryptionKeyLength p -> 0 <= ep_IntegrityKeyLength p -> len m = DirectionKeyLength p ->
  exists k, splitESPKeys p m = Ok k /\ len (ek_EncryptionKey k) = ep_EncryptionKeyLength p /\
    len (ek_IntegrityKey k) = ep_IntegrityKeyLength p /\ ek_EncryptionKey k ++ ek_IntegrityKey k = m.
Proof.
  unfold DirectionKeyLength, splitESPKeys. intros He Hi Hm. unfold DirectionKeyLength. rewrite <- Hm.
  rewrite !slice_Ok by lia. cbn [bind]. eexists. split; [done|]. cbn. rewrite !sub_len by lia.
  rewrite sub_split, sub_to_end by lia. rewrite drop_0. split_and!; done || lia.
Qed.

Lemma DeriveChildSAKeys_spec prf skD nonceI nonceR sa :
  SA_ok sa -> prf <> HashNone ->
  safe (DeriveChildSAKeysWithNonces prf skD nonceI nonceR sa) (fun k =>
    ESPKeyProfileFromSA sa = Ok (ck_Profile k) /\ esp_profile_ok (ck_Profile k) /\
    child_keys_spec prf skD (nonceI ++ nonceR) k).
Proof.
  intros Hsa Hprf. unfold DeriveChildSAKeysWithNonces. case_match; [done|].
  pose proof (ESPKeyProfileFromSA_safe sa Hsa) as Hp. destruct (ESPKeyProfileFromSA sa) as [p| | |]; try done.
  cbn [bind]. pose proof (esp_profile_lengths p Hp) as [H1 H2]. unfold DirectionKeyLength in *.
  set (n := ep_EncryptionKeyLength p + ep_IntegrityKeyLength p) in *. go_if.
  pose proof (hash_size_pos prf Hprf). rewrite PRFPlus_spec by (done || lia). cbn [bind].
  set (S := prf_stream prf skD (nonceI ++ nonceR) 255).
  assert (HS : len S = 255 * hash_size prf) by (by apply len_prf_stream).
  set (K := take (Z.to_nat (n * 2)) S). assert (HK : len K = n * 2) by (apply len_take_le; lia).
  rewrite slice_Ok by lia. unfold slice_from. rewrite slice_Ok by lia. cbn [bind].
  destruct (splitESPKeys_spec p (sub K 0 n)) as (ko & -> & ? & ? & Ho); [lia|lia|rewrite sub_len by lia; unfold DirectionKeyLength; lia|].
  destruct (splitESPKeys_spec p (sub K n (len K))) as (ki & Hki & ? & ? & Hi); [lia|lia|rewrite sub_len by lia; unfold DirectionKeyLength; lia|].
  cbn [bind]. rewrite Hki. cbn. split; [done|]. split; [done|]. unfold child_keys_spec. cbn. split_and!; try done.
  rewrite Hi, app_assoc, Ho. rewrite sub_split by lia. rewrite sub_to_end by lia. rewrite drop_0.
  unfold K, DirectionKeyLength. fold n. f_equal. lia.
Qed.

(** ** The responder's answer *)
Definition child_fields_ok (out : ChildSAResult) : Prop := SA_ok (cr_SelectedSA out) /\
  Selectors_ok (cr_TSi out) /\ Selectors_ok (cr_TSr out).

Lemma collect_child_safe inner out :
  Forall Payload_ok inner -> child_fields_ok out -> safe (collect_child inner out) child_fields_ok.
Proof.
  intros Hin. revert out. induction Hin as [|p ps (_ & _ & Hb) _ IH]; intros out Hout; [done|].
  cbn [collect_child]. destruct Hout as (H1 & H2 & H3). eapply (safe_call _ _ child_fields_ok); [|intros; by apply IH].
  repeat case_match; try by split_and!.
  - eapply safe_call; [by apply ParseSecurityAssociation_safe|]. intros sa [? _]. by split_and!.
  - eapply safe_call; [by apply ParseTrafficSelectors_safe|]. intros ts ?. by split_and!.
  - eapply safe_call; [by apply ParseTrafficSelectors_safe|]. intros ts ?. by split_and!.
  - eapply safe_call; [by apply (dec_safe (C := configuration_codec))|]. intros cfg ?. by split_and!.
  - eapply safe_call; [by apply ParsePacket_safe|]. intros pkt ?. by split_and!.
Qed.

(** What the initiator knows of an accepted child SA. *)
Definition child_accepted (prf : hash) (skD nonceI nonceR localSPI : bytes) (offeredSA : option SecurityAssociation)
    (offeredTSi offeredTSr : TrafficSelectors) (child : ChildSAResult) : Prop :=
  (exists p rest, sa_Proposals (cr_SelectedSA child) = p :: rest /\ pr_SPI p <> [] /\ cr_RemoteSPI child = pr_SPI p) /\
  cr_LocalSPI child = localSPI /\
  (forall offered, offeredSA = Some offered -> selection_spec offered (cr_SelectedSA child)) /\
  ts_Selectors (cr_TSi child) <> [] /\ ts_Selectors (cr_TSr child) <> [] /\
  (ts_Selectors offeredTSi <> [] -> ValidateTrafficSelectorNarrowing offeredTSi (cr_TSi child) = Ok tt) /\
  (ts_Selectors offeredTSr <> [] -> ValidateTrafficSelectorNarrowing offeredTSr (cr_TSr child) = Ok tt) /\
  esp_profile_ok (ck_Profile (cr_Keys child)) /\
  child_keys_spec prf skD (nonceI ++ nonceR) (cr_Keys child) /\ child_fields_ok child.

Lemma Selector_ok_typed ts : Selectors_ok ts -> Forall Selector_typed (ts_Selectors ts).
Proof.
  intros H. eapply Forall_impl; [exact H|]. intros s (? & ? & ? & ? & ? & ? & _). by split_and!.
Qed.

Lemma parseChildSAResult_safe init inner localSPI nI nR offeredSA oi orr :
  Forall Payload_ok inner -> kp_PRF (k_Profile (ir_Keys init)) <> HashNone ->
  Forall Selector_typed (ts_Selectors oi) -> Forall Selector_typed (ts_Selectors orr) ->
  safe (parseChildSAResultWithNonces init inner localSPI nI nR offeredSA oi orr)
    (child_accepted (kp_PRF (k_Profile (ir_Keys init))) (k_SKD (ir_Keys init)) nI nR localSPI offeredSA oi orr).
Proof.
  intros Hin Hprf Hoi Hor. unfold parseChildSAResultWithNonces.
  eapply safe_call; [apply collect_child_safe; [done|]; repeat split; constructor|].
  intros out (Hsa & Hti & Htr). destruct (sa_Proposals (cr_SelectedSA out)) as [|p rest] eqn:Hp; [done|].
  eapply (safe_call _ _ (fun _ => forall offered, offeredSA = Some offered -> selection_spec offered (cr_SelectedSA out))).
  { destruct offeredSA as [offered|]; [|done].
    destruct (ValidateSelectedSA_spec offered (cr_SelectedSA out)) as [Hs [Hv|Hv]]; rewrite Hv; [|done].
    intros o [= <-]. by apply Hs. }
  intros [] Hsel. go_case H1; [done|]. go_case H2; [done|]. go_case H3; [done|].
  assert (Hts : forall offered sel, Forall Selector_typed (ts_Selectors offered) -> Selectors_ok sel ->
    safe (if 0 <? len (ts_Selectors offered)
          then map_err (Wrap ErrInvalidChildSA) (ValidateTrafficSelectorNarrowing offered sel) else Ok tt)
      (fun _ => ts_Selectors offered <> [] -> ValidateTrafficSelectorNarrowing offered sel = Ok tt)).
  { intros offered sel Ho Hs. go_case H4.
    - apply safe_map_err. pose proof (narrowing_returns offered sel Ho (Selector_ok_typed _ Hs)) as Hr.
      by destruct (ValidateTrafficSelectorNarrowing offered sel) as [[]| | |].
    - intros Hne. destruct Hne. apply len_zero. pose proof (len_nonneg (ts_Selectors offered)). lia. }
  eapply safe_call; [by apply (Hts oi)|]. intros [] Hni. eapply safe_call; [by apply (Hts orr)|]. intros [] Hnr.
  eapply safe_call; [by apply DeriveChildSAKeys_spec|]. intros k (_ & Hkp & Hk).
  unfold child_accepted. cbn. split_and!; try done.
  - exists p, rest. split; [done|]. split; [|done]. intros E. by rewrite E in H1.
  - intros E. by rewrite E in H2.
  - intros E. by rewrite E in H3.
Qed.

(** ** The request *)
Lemma SecurityAssociationPayload_safe sa :
  SA_ok sa -> safe (SecurityAssociationPayload sa) (fun p =>
    Payload_ok p /\ p_Type p = PayloadSA /\ ParseSecurityAssociation (p_Body p) = Ok sa).
Proof.
  intros Hsa. pose proof (wrap_ok (C := sa_codec) PayloadSA sa) as Hok.
  pose proof (wrap_dec (C := sa_codec) PayloadSA sa) as Hdec. unfold wrap in *. cbn [enc dec val_ok sa_codec] in *.
  unfold SecurityAssociationPayload.
  assert (Hr : returns (SA_MarshalBinary sa)).
  { unfold SA_MarshalBinary. case_match; [exact I|apply marshal_proposals_returns]. }
  destruct (SA_MarshalBinary sa) as [b| | |]; try done. cbn [bind safe] in *.
  split; [by apply Hok|by apply Hdec].
Qed.

Lemma TrafficSelectorsPayload_safe ty ts :
  ty = PayloadTSi \/ ty = PayloadTSr -> Forall Selector_typed (ts_Selectors ts) ->
  safe (TrafficSelectorsPayload ty ts) (fun p => Payload_ok p /\ p_Type p = ty).
Proof.
  intros Hty Hts. unfold TrafficSelectorsPayload. destruct (_ && _); [done|].
  pose proof (TrafficSelectors_MarshalBinary_returns ts) as Hr.
  destruct (TrafficSelectors_MarshalBinary ts) as [b| | |] eqn:Hb; try done. cbn [bind safe].
  apply TrafficSelectors_MarshalBinary_spec in Hb as [Hl (ns & Hn & ->)]. split; [|done].
  pose proof (normal_selectors_length _ _ Hn). pose proof (enc_selectors_ok ns (normal_selectors_ok _ _ Hts Hn)).
  split_and!; [destruct Hty as [-> | ->]; done|done|]. cbn [p_Body].
  assert (is_u8 (len ns)) by len_lia. assert (is_u8 0) by done. auto 8 with gobytes.
Qed.

Definition create_config_ok (cfg : CreateChildSAConfig) : Prop :=
  SA_ok (cc_ChildSA cfg) /\ bytes_ok (cc_ChildSPI cfg) /\
  Forall Selector_typed (ts_Selectors (cc_TSi cfg)) /\ Forall Selector_typed (ts_Selectors (cc_TSr cfg)) /\
  bytes_ok (cc_Nonce cfg) /\ bytes_ok (cc_RekeySPI cfg) /\ bytes_ok (cc_IV cfg) /\ is_u32 (cc_MessageID cfg) /\
  is_u64 (ir_InitiatorSPI (cc_Init cfg)) /\ is_u64 (ir_ResponderSPI (cc_Init cfg)) /\
  match cc_Random cfg with Some r => reader_ok r | None => True end.

Lemma cloneSecurityAssociation_id sa : cloneSecurityAssociation sa = sa.
Proof.
  destruct sa as [ps]. unfold cloneSecurityAssociation. cbn. f_equal.
  assert (Ha : forall attrs : list TransformAttribute, (fun a => mkAttr (at_Type a) (at_Value a)) <$> attrs = attrs).
  { induction attrs as [|[] ? IH]; [done|]. cbn. by f_equal. }
  assert (Ht : forall ts : list Transform, cloneTransform <$> ts = ts).
  { induction ts as [|[] ? IH]; [done|]. cbn. rewrite IH. unfold cloneTransform. cbn. by rewrite Ha. }
  induction ps as [|[] ps IH]; [done|]. cbn. by rewrite IH, Ht.
Qed.

Lemma clonePayloads_id ps : clonePayloads ps = ps.
Proof. induction ps as [|[] ps IH]; [done|]. unfold clonePayloads in *. cbn. by f_equal. Qed.
Lemma cloneTrafficSelectors_id ts : cloneTrafficSelectors ts = ts.
Proof.
  destruct ts as [ss]. unfold cloneTrafficSelectors. cbn. f_equal. induction ss as [|[] ss IH]; [done|]. cbn. by f_equal.
Qed.

Lemma DefaultESPProposal_ok spi : bytes_ok spi -> SA_ok (DefaultESPProposal spi).
Proof. intros H. repeat constructor; try done; by_decide. Qed.
Lemma with_SPI_ok p spi : Proposal_ok p -> bytes_ok spi -> SA_ok (mkSA [with_SPI p spi]).
Proof. intros (? & ? & ? & ?) ?. apply Forall_singleton. by split_and!. Qed.

(** The one proposal of a request, with its four-octet SPI. *)
Definition offers (sa : SecurityAssociation) (spi : bytes) : Prop :=
  len spi = 4 /\ exists p, sa = mkSA [p] /\ pr_SPI p = spi.

Lemma createChildProposal_safe cfg r :
  create_config_ok cfg -> reader_ok r ->
  safe (createChildProposal cfg r) (fun '(sa, spi) => SA_ok sa /\ bytes_ok spi /\ offers sa spi).
Proof.
  intros (Hsa & Hspi & _) Hr. unfold createChildProposal. rewrite cloneSecurityAssociation_id.
  destruct (cc_ChildSA cfg) as [ps]. cbn [sa_Proposals] in *. go_case H0.
  - eapply (safe_call _ _ bytes_ok).
    { go_case H1; [|done]. by apply randomBytes_safe. }
    intros spi Hb. go_case H2; [done|]. split; [by apply DefaultESPProposal_ok|]. split; [done|].
    split; [lia|]. by eexists.
  - destruct ps as [|p [|? ?]]; try done. pose proof (Forall_inv Hsa) as Hp. go_case H1.
    + go_case H2; [done|]. split; [done|]. split; [apply Hp|]. split; [lia|by eexists].
    + go_case H2; [done|]. split; [by apply with_SPI_ok|]. split; [done|]. split; [lia|by eexists].
Qed.

(** What the peer reads in the request. *)
Definition request_ok (cfg : CreateChildSAConfig) (payloads : list Payload) (nonce spi : bytes)
    (sa : SecurityAssociation) : Prop :=
  chain_ok payloads /\ firstSecurityAssociation payloads = Ok (Some sa) /\ offers sa spi /\
  nonce <> [] /\ firstNonce payloads = Ok nonce /\
  (cc_RekeySPI cfg <> [] -> exists p rest, payloads = p :: rest /\ p_Type p = PayloadNotify /\
     ParseNotify (p_Body p) = Ok (mkNotify ProtocolESP NotifyRekeySA (cc_RekeySPI cfg) [])).

Lemma BuildCreateChildSAPayloads_safe rand cfg :
  create_config_ok cfg -> reader_ok rand ->
  safe (BuildCreateChildSAPayloads rand cfg) (fun '(payloads, nonce, spi) => exists sa, request_ok cfg payloads nonce spi sa).
Proof.
  intros Hcfg Hr. pose proof Hcfg as (_ & _ & Htsi & Htsr & Hn & Hrk & _ & _ & _ & _ & Hrd).
  unfold BuildCreateChildSAPayloads. assert (Hr' : reader_ok (reader_of rand (cc_Random cfg))) by (by destruct (cc_Random cfg)).
  eapply safe_call; [by apply createChildProposal_safe|]. intros [sa spi] (Hsa & Hspi & Hof).
  eapply (safe_call _ _ bytes_ok).
  { go_case H1; [|done]. by apply randomBytes_safe. }
  intros nonce Hnb. go_case Hn0; [done|]. eapply safe_call; [by apply SecurityAssociationPayload_safe|].
  intros sap (Hsap & Hst & Hsp). cbv zeta.
  assert (Hany : Forall Selector_typed (ts_Selectors IPv4AnyTrafficSelectors)) by by_decide.
  eapply safe_call; [apply TrafficSelectorsPayload_safe; [by left|by go_case H1]|]. intros tsip (Htip & Htit).
  eapply safe_call; [apply TrafficSelectorsPayload_safe; [by right|by go_case H1]|]. intros tsrp (Htrp & Htrt).
  eapply (safe_call _ _ (fun ps => chain_ok ps /\ (cc_RekeySPI cfg = [] /\ ps = [] \/
    exists p, ps = [p] /\ p_Type p = PayloadNotify /\
     ParseNotify (p_Body p) = Ok (mkNotify ProtocolESP NotifyRekeySA (cc_RekeySPI cfg) [])))).
  { go_case H1; [|split; [constructor|left; split; [|done]; apply len_zero; pose proof (len_nonneg (cc_RekeySPI cfg)); lia]].
    go_case H2; [done|]. set (n := mkNotify _ _ _ _). assert (Hnok : Notify_ok n) by (split_and!; [done|done|exact Hrk|constructor]).
    pose proof (wrap_ok (C := notify_codec) PayloadNotify n) as Hok.
    pose proof (wrap_dec (C := notify_codec) PayloadNotify n) as Hdec. unfold wrap in *. cbn [enc dec val_ok notify_codec] in *.
    unfold NotifyPayload in *. assert (exists b, Notify_MarshalBinary n = Ok b) as [b Hb].
    { unfold Notify_MarshalBinary, n. cbn [n_SPI]. go_if. eauto. }
    rewrite Hb in *. cbn [bind safe] in *. specialize (Hok _ ltac:(done) Hnok eq_refl).
    specialize (Hdec _ Hnok eq_refl). split; [apply Forall_singleton; by split|].
    right. eexists. split; [done|]. exact Hdec. }
  intros rk (Hrkok & Hrkp). exists sa. unfold request_ok.
  assert (Hnn : Payload_ok (NoncePayload nonce)) by (by split_and!).
  assert (Hne : nonce <> []) by (intros ->; done).
  assert (Hfn : firstNonce [sap; NoncePayload nonce; tsip; tsrp] = Ok nonce).
  { cbn [firstNonce]. rewrite Hst. change (PayloadSA =? PayloadNonce) with false. cbv iota.
    cbn [NoncePayload p_Type p_Body]. rewrite Z.eqb_refl. by rewrite Hn0. }
  assert (Hfs : firstSecurityAssociation [sap; NoncePayload nonce; tsip; tsrp] = Ok (Some sa)).
  { cbn [firstSecurityAssociation]. rewrite Hst, Hsp. done. }
  split; [apply Forall_app_2; [done|]; repeat (constructor; [split; [done|]; rewrite ?Hst, ?Htit, ?Htrt; done|]); constructor|].
  destruct Hrkp as [[-> ->]|(p & -> & Hpt & Hpn)]; cbn [app].
  - split_and!; done.
  - cbn [firstSecurityAssociation firstNonce]. rewrite Hpt. change (PayloadNotify =? PayloadSA) with false.
    change (PayloadNotify =? PayloadNonce) with false. cbn [negb]. split_and!; try done. intros _. by eexists _, _.
Qed.

Lemma firstNonce_returns ps : returns (firstNonce ps).
Proof. induction ps as [|p ps IH]; [exact I|]. cbn [firstNonce]. by repeat case_match. Qed.

(** ** The exchange *)
Definition exchange_keys (cfg : CreateChildSAConfig) : IKEKeys :=
  if RequiredLength (k_Profile (cc_Keys cfg)) =? 0 then ir_Keys (cc_Init cfg) else cc_Keys cfg.

(** A header of the exchange: the SPIs of the IKE SA, the exchange type and the
    message id. *)
Definition of_exchange (cfg : CreateChildSAConfig) (h : Header) : Prop :=
  h_InitiatorSPI h = ir_InitiatorSPI (cc_Init cfg) /\ h_ResponderSPI h = ir_ResponderSPI (cc_Init cfg) /\
  h_ExchangeType h = ExchangeCREATE_CHILD_SA /\ h_MessageID h = cc_MessageID cfg.

(** The request went out under the keys and the peer can read it; the answer is
    an authentic response to it, without error notify, whose child SA the
    initiator accepts. *)
Definition create_child_done (cfg : CreateChildSAConfig) (r : CreateChildSAResult) : Prop :=
  let keys := exchange_keys cfg in
  exists exchange payloads spi sa mq m,
    cc_Transport cfg = Some exchange /\ keyset_ok keys /\ cc_MessageID cfg <> 0 /\
    request_ok cfg payloads (cs_RequestNonce r) spi sa /\
    UnprotectMessage (cs_RequestBytes r) keys true = Ok (mq, link_next payloads) /\ of_exchange cfg (m_Header mq) /\
    exchange (cs_RequestBytes r) = Ok (cs_ResponseBytes r) /\
    UnprotectMessage (cs_ResponseBytes r) keys false = Ok (m, cs_ResponseInner r) /\
    of_exchange cfg (m_Header m) /\ Z.testbit (h_Flags (m_Header m)) 5 = true /\
    FirstNotifyError (cs_ResponseInner r) = Ok tt /\ firstNonce (cs_ResponseInner r) = Ok (cs_ResponseNonce r) /\
    child_accepted (kp_PRF (k_Profile keys)) (k_SKD keys) (cs_RequestNonce r) (cs_ResponseNonce r) spi (Some sa)
      (trafficSelectorsOrIPv4Any (cc_TSi cfg)) (trafficSelectorsOrIPv4Any (cc_TSr cfg)) (cs_ChildSA r) /\
    cs_NextMessageID r = to_u32 (cc_MessageID cfg + 1) /\ cr_NextMessageID (cs_ChildSA r) = cs_NextMessageID r /\
    cs_Rekeyed r = (0 <? len (cc_RekeySPI cfg)).

Lemma unprotectCreateChildResponse_safe cfg raw keys :
  bytes_ok raw ->
  safe (unprotectCreateChildResponse raw (cc_Init cfg) keys (cc_MessageID cfg)) (fun r =>
    UnprotectMessage raw keys false = Ok r /\ of_exchange cfg (m_Header r.1) /\
    Z.testbit (h_Flags (m_Header r.1)) 5 = true /\ Forall Payload_ok r.2).
Proof.
  intros Hraw. unfold unprotectCreateChildResponse. pose proof (UnprotectMessage_safe raw keys false Hraw) as Hs.
  destruct (UnprotectMessage raw keys false) as [[m inner]| | |] eqn:Hu; try done. cbn [bind].
  go_case H0; [done|]. cbn [safe fst snd] in *. destruct Hs as (_ & _ & Hc & _).
  change FlagResponse with (2 ^ 5) in H0. rewrite land_pow2_eqb in H0 by lia. unfold of_exchange.
  destruct (Z.testbit _ 5); [|exfalso; lia]. split_and!; try done; try lia.
  eapply Forall_impl; [exact Hc|]. by intros p [? _].
Qed.

Lemma trafficSelectorsOrIPv4Any_typed ts :
  Forall Selector_typed (ts_Selectors ts) -> Forall Selector_typed (ts_Selectors (trafficSelectorsOrIPv4Any ts)).
Proof. intros. unfold trafficSelectorsOrIPv4Any. go_case H0; [by_decide|done]. Qed.

Lemma createChildIV_safe rand cfg profile :
  reader_ok rand -> create_config_ok cfg -> safe (createChildIV rand (cc_Random cfg) profile (cc_IV cfg)) bytes_ok.
Proof.
  intros Hr (_ & _ & _ & _ & _ & _ & Hiv & _ & _ & _ & Hrd). unfold createChildIV, RandomIV.
  go_case H0; [by go_case H1|]. destruct (cc_Random cfg) as [r|]; by apply randomBytes_safe.
Qed.

Lemma RunCREATE_CHILD_SA_safe rand cfg :
  reader_ok rand -> create_config_ok cfg -> kp_PRF (k_Profile (exchange_keys cfg)) <> HashNone ->
  (forall exchange, cc_Transport cfg = Some exchange -> forall req, safe (exchange req) bytes_ok) ->
  safe (RunCREATE_CHILD_SA rand cfg) (create_child_done cfg).
Proof.
  intros Hr Hcfg Hprf Hex. unfold RunCREATE_CHILD_SA. destruct (cc_Transport cfg) as [exchange|] eqn:Ht; [|done].
  fold (exchange_keys cfg). set (keys := exchange_keys cfg) in *. cbv zeta.
  destruct (validateKeySet keys) as [[]| | |] eqn:Hk; try (pose proof (validateKeySet_returns keys) as H; by rewrite Hk in H).
  apply validateKeySet_spec in Hk. cbn [bind]. go_case H0; [done|]. go_case H1; [done|].
  eapply safe_call; [by apply BuildCreateChildSAPayloads_safe|]. intros [[payloads nonce] spi] (sa & Hreq).
  pose proof Hreq as (Hch & Hfs & _). rewrite Hfs. cbn [bind].
  eapply safe_call; [by apply createChildIV_safe|]. intros iv Hiv.
  set (h := createChildHeader _ _ _).
  assert (Hhok : Header_ok h). { destruct Hcfg as (_ & _ & _ & _ & _ & _ & _ & ? & ? & ? & _). by split_and!. }
  pose proof (ProtectMessage_returns rand h keys true payloads iv Hr Hch Hiv) as Hp.
  destruct (ProtectMessage rand h keys true payloads iv) as [[mq req]| | |] eqn:Hpm; try done. cbn [bind].
  pose proof (ProtectMessage_readable rand h keys true payloads iv mq req Hr Hhok Hch Hiv Hpm) as (Hun & Hmh).
  specialize (Hex _ eq_refl req). destruct (exchange req) as [resp| | |] eqn:He; try done. cbn [bind].
  eapply safe_call; [by apply unprotectCreateChildResponse_safe|]. intros [m inner] (Hum & Hof & Hfl & Hok). cbn [fst snd] in *.
  pose proof (FirstNotifyError_safe inner Hok) as Hn. destruct (FirstNotifyError inner) as [[]| | |] eqn:Hfn; try done.
  cbn [map_err bind]. pose proof (firstNonce_returns inner) as Hrn.
  destruct (firstNonce inner) as [rn| | |] eqn:Hfno; try done. cbn [bind].
  eapply safe_call.
  { apply parseChildSAResult_safe; [done|exact Hprf|apply trafficSelectorsOrIPv4Any_typed; apply Hcfg..]. }
  intros child Hchild. cbn [safe]. rewrite clonePayloads_id. exists exchange, payloads, spi, sa. eexists _, m. cbn.
  split_and!; try done; [lia|]. unfold of_exchange, message_normal. by rewrite Hmh.
Qed.
End child_proofs.

(** ** Rekeying *)

(** The plan of a rekey: a new four-octet SPI in a single ESP proposal, the SPI
    of the child SA to replace, and the traffic selectors of the old child SA
    unless others are given. *)
Definition rekey_plan_ok (cfg : ChildSARekeyConfig) (plan : ChildSARekeyPlan) : Prop :=
  let c := rp_Config plan in
  rp_OldLocalSPI plan = cr_LocalSPI (rk_OldChildSA cfg) /\ len (rp_OldLocalSPI plan) = 4 /\
  rp_OldRemoteSPI plan = cr_RemoteSPI (rk_OldChildSA cfg) /\
  rp_RekeySPI plan = (if len (rk_RekeySPI cfg) =? 0 then cr_LocalSPI (rk_OldChildSA cfg) else rk_RekeySPI cfg) /\
  len (rp_RekeySPI plan) = 4 /\ cc_RekeySPI c = rp_RekeySPI plan /\
  offers (cc_ChildSA c) (rp_NewLocalSPI plan) /\ cc_ChildSPI c = rp_NewLocalSPI plan /\
  Forall (fun p => pr_ProtocolID p = ProtocolESP) (sa_Proposals (cc_ChildSA c)) /\
  (rk_ChildSPI cfg <> [] -> rp_NewLocalSPI plan = rk_ChildSPI cfg) /\
  cc_TSi c = (if len (ts_Selectors (rk_TSi cfg)) =? 0 then cr_TSi (rk_OldChildSA cfg) else rk_TSi cfg) /\
  cc_TSr c = (if len (ts_Selectors (rk_TSr cfg)) =? 0 then cr_TSr (rk_OldChildSA cfg) else rk_TSr cfg) /\
  cc_Transport c = rk_Transport cfg /\ cc_Init c = rk_Init cfg /\ cc_Keys c = rk_Keys cfg /\
  cc_MessageID c = rk_MessageID cfg /\ cc_Nonce c = rk_Nonce cfg /\ cc_IV c = rk_IV cfg /\ cc_Random c = rk_Random cfg.

Definition rekey_config_ok (cfg : ChildSARekeyConfig) : Prop :=
  SA_ok (rk_ChildSA cfg) /\ SA_ok (cr_SelectedSA (rk_OldChildSA cfg)) /\ bytes_ok (cr_LocalSPI (rk_OldChildSA cfg)) /\
  bytes_ok (rk_ChildSPI cfg) /\ bytes_ok (rk_RekeySPI cfg) /\
  Forall Selector_typed (ts_Selectors (cr_TSi (rk_OldChildSA cfg))) /\
  Forall Selector_typed (ts_Selectors (cr_TSr (rk_OldChildSA cfg))) /\
  Forall Selector_typed (ts_Selectors (rk_TSi cfg)) /\ Forall Selector_typed (ts_Selectors (rk_TSr cfg)) /\
  bytes_ok (rk_Nonce cfg) /\ bytes_ok (rk_IV cfg) /\ is_u32 (rk_MessageID cfg) /\
  is_u64 (ir_InitiatorSPI (rk_Init cfg)) /\ is_u64 (ir_ResponderSPI (rk_Init cfg)) /\
  match rk_Random cfg with Some r => reader_ok r | None => True end.

Section rekey_proofs.
Context {C : Crypto} `{!CryptoLaws C} (rand : Reader).

Lemma childSAForRekey_safe cfg :
  reader_ok rand -> rekey_config_ok cfg ->
  safe (childSAForRekey rand cfg) (fun '(sa, spi) => SA_ok sa /\ bytes_ok spi /\ offers sa spi /\
    Forall (fun p => pr_ProtocolID p = ProtocolESP) (sa_Proposals sa) /\ (rk_ChildSPI cfg <> [] -> spi = rk_ChildSPI cfg)).
Proof.
  intros Hr (Hsa & Hold & _ & Hspi & _ & _ & _ & _ & _ & _ & _ & _ & _ & _ & Hrd). unfold childSAForRekey.
  assert (Hr' : reader_ok (reader_of rand (rk_Random cfg))) by (by destruct (rk_Random cfg)). cbv zeta.
  set (spi0 := if len (rk_ChildSPI cfg) =? 0 then _ else _).
  assert (Hs0 : bytes_ok spi0 /\ (rk_ChildSPI cfg <> [] -> spi0 = rk_ChildSPI cfg)).
  { subst spi0. go_case H0; [|done]. split; [|by intros []; apply len_zero, Z.eqb_eq].
    destruct (sa_Proposals (rk_ChildSA cfg)) as [|p ps] eqn:Hp; [done|].
    unfold SA_ok in Hsa. rewrite Hp in Hsa. apply (Forall_inv Hsa). }
  destruct Hs0 as [Hb0 He0].
  eapply (safe_call _ _ (fun b => bytes_ok b /\ (rk_ChildSPI cfg <> [] -> b = rk_ChildSPI cfg))).
  { go_case H0; [|done]. eapply safe_mono; [by apply randomBytes_safe|]. intros b Hb. split; [done|].
    intros Hne. specialize (He0 Hne). rewrite He0 in H0. by apply Z.eqb_eq, len_zero in H0. }
  intros spi [Hb He]. go_case H1; [done|]. rewrite cloneSecurityAssociation_id.
  set (sa0 := if len (sa_Proposals (rk_ChildSA cfg)) =? 0 then _ else _).
  assert (Hs0 : SA_ok sa0) by (subst sa0; by go_case H2). clearbody sa0. destruct sa0 as [ps]. cbn [sa_Proposals].
  go_case H2.
  - cbn [bind safe]. split; [by apply DefaultESPProposal_ok|]. split; [done|]. split; [split; [lia|by eexists]|].
    split; [by repeat constructor|done].
  - destruct ps as [|p [|? ?]]; try done. go_case H3; [done|]. cbn [bind safe].
    split; [apply with_SPI_ok; [apply (Forall_inv Hs0)|done]|]. split; [done|]. split; [split; [lia|by eexists]|].
    split; [|done]. apply Forall_singleton. cbn. lia.
Qed.

Lemma NewChildSARekeyPlan_safe cfg :
  reader_ok rand -> rekey_config_ok cfg ->
  safe (NewChildSARekeyPlan rand cfg) (fun plan => rekey_plan_ok cfg plan /\ create_config_ok (rp_Config plan)).
Proof.
  intros Hr Hcfg. unfold NewChildSARekeyPlan. cbv zeta. go_case H0; [done|].
  set (rk := if len (rk_RekeySPI cfg) =? 0 then _ else _). go_case H1; [done|].
  eapply safe_call; [by apply childSAForRekey_safe|]. intros [sa spi] (Hsa & Hspi & Hof & Hesp & He). cbn [safe].
  rewrite !cloneTrafficSelectors_id. unfold rekey_plan_ok, create_config_ok. cbn.
  destruct Hcfg as (_ & _ & ? & _ & ? & ? & ? & ? & ? & ? & ? & ? & ? & ? & ?).
  assert (bytes_ok rk) by (subst rk; by go_case Hrk0).
  split_and!; try done; try lia; by go_case Hts.
Qed.
End rekey_proofs.

(** ** Properties *)

(** [DeriveChildSAKeysWithNonces] on the SA the peer selected: it returns (no
    slice is out of range); when it succeeds the profile is the one of the SA, is
    AES-CBC with an integrity algorithm or AES-GCM without, every key has the
    length of the profile, and the four keys in the order outbound encryption,
    outbound integrity, inbound encryption, inbound integrity are the first
    octets of prf+(SK_d, Ni | Nr). *)
Theorem DeriveChildSAKeys_correct (C : Crypto) (L : CryptoLaws C) prf skD nonceI nonceR sa :
  SA_ok sa -> prf <> HashNone ->
  returns (DeriveChildSAKeysWithNonces prf skD nonceI nonceR sa) /\
  forall k, DeriveChildSAKeysWithNonces prf skD nonceI nonceR sa = Ok k ->
    ESPKeyProfileFromSA sa = Ok (ck_Profile k) /\ esp_profile_ok (ck_Profile k) /\
    child_keys_spec prf skD (nonceI ++ nonceR) k.
Proof.
  intros Hsa Hprf. pose proof (DeriveChildSAKeys_spec prf skD nonceI nonceR sa Hsa Hprf) as Hs.
  split; [by eapply safe_returns|]. intros k Hk. by rewrite Hk in Hs.
Qed.

Lemma DeriveChildSAKeys_correct_witness :
  returns (DeriveChildSAKeysWithNonces (C := toy_crypto) SHA256 [1] [2] [3] (DefaultESPProposal [1; 2; 3; 4])).
Proof. apply (DeriveChildSAKeys_correct toy_crypto toy_crypto_laws); [by_decide|discriminate]. Defined.

(** C8: the CREATE_CHILD_SA exchange, for every transport and every answer of the
    peer: [RunCREATE_CHILD_SA] neither panics nor loops, and when it succeeds the
    request is one the holder of the keys reads as the offered chain (the SA with
    its SPI, the nonce, the rekey notify), the answer is authentic, a response,
    of this exchange, with these SPIs and this message id, carries no error
    notify, selects a proposal that was offered and traffic selectors within the
    offered ones; the keys are derived from SK_d and the two nonces of the
    exchange, and the next message id is the successor modulo 2^32. *)
Theorem RunCREATE_CHILD_SA_correct (C : Crypto) (L : CryptoLaws C) rand cfg :
  reader_ok rand -> create_config_ok cfg -> kp_PRF (k_Profile (exchange_keys cfg)) <> HashNone ->
  (forall exchange, cc_Transport cfg = Some exchange -> forall req, safe (exchange req) bytes_ok) ->
  returns (RunCREATE_CHILD_SA rand cfg) /\
  forall r, RunCREATE_CHILD_SA rand cfg = Ok r -> create_child_done cfg r.
Proof.
  intros Hr Hcfg Hp Hx. pose proof (RunCREATE_CHILD_SA_safe rand cfg Hr Hcfg Hp Hx) as Hs.
  split; [by eapply safe_returns|]. intros r H. by rewrite H in Hs.
Qed.

(** An exchange for the witness: the peer answers with the offered SA, its nonce
    and the offered traffic selectors. *)
Definition sample_answer : bytes :=
  let cfg := mkCreateChild None (sample_init (sample_keys sample_profile)) (sample_keys sample_profile) 3 (mkSA [])
    [9; 9; 9; 9] (mkTSs []) (mkTSs []) [7; 8] [] None [] in
  match BuildCreateChildSAPayloads zero_reader cfg with
  | Ok (inner, _, _) =>
      match ProtectMessage (C := toy_crypto) zero_reader
              (mkHeader 1 2 0 0 ExchangeCREATE_CHILD_SA FlagResponse 3 0)
              (sample_keys sample_profile) false inner [] with
      | Ok (_, raw) => raw
      | _ => []
      end
  | _ => []
  end.
Definition sample_create : CreateChildSAConfig :=
  mkCreateChild (Some (fun _ => Ok sample_answer)) (sample_init (sample_keys sample_profile))
    (sample_keys sample_profile) 3 (mkSA []) [1; 2; 3; 4] (mkTSs []) (mkTSs []) [5; 6] [1; 1; 1; 1] None [].

Lemma RunCREATE_CHILD_SA_correct_witness :
  exists r, RunCREATE_CHILD_SA (C := toy_crypto) zero_reader sample_create = Ok r /\ create_child_done (C := toy_crypto) sample_create r.
Proof.
  destruct (RunCREATE_CHILD_SA (C := toy_crypto) zero_reader sample_create) as [r| | |] eqn:H; try (vm_compute in H; discriminate H).
  exists r. split; [reflexivity|].
  refine (proj2 (RunCREATE_CHILD_SA_correct toy_crypto toy_crypto_laws zero_reader sample_create _ _ _ _) r H);
    [exact zero_reader_ok| |discriminate|].
  - unfold create_config_ok. split_and!; by_decide || exact I.
  - intros exchange [= <-] req. cbn [safe]. by_decide.
Defined.

(** The plan of a child-SA rekey: [NewChildSARekeyPlan] never panics; a plan it
    returns is a well-formed CREATE_CHILD_SA configuration for a single ESP
    proposal under a new four-octet SPI (the caller's when there is one), that
    names the SPI of the child SA to replace and keeps its traffic selectors
    unless the caller gives others; every other field is the caller's. *)
Theorem NewChildSARekeyPlan_correct rand cfg :
  reader_ok rand -> rekey_config_ok cfg ->
  returns (NewChildSARekeyPlan rand cfg) /\
  forall plan, NewChildSARekeyPlan rand cfg = Ok plan ->
    rekey_plan_ok cfg plan /\ create_config_ok (rp_Config plan).
Proof.
  intros Hr Hcfg. pose proof (NewChildSARekeyPlan_safe rand cfg Hr Hcfg) as Hs.
  split; [by eapply safe_returns|]. intros plan H. by rewrite H in Hs.
Qed.

Definition sample_rekey : ChildSARekeyConfig :=
  mkRekeyConfig None (sample_init (sample_keys sample_profile)) (sample_keys sample_profile) 4
    (mkChildResult (DefaultESPProposal [9; 9; 9; 9]) IPv4AnyTrafficSelectors IPv4AnyTrafficSelectors None
       [1; 2; 3; 4] [9; 9; 9; 9] zeroChildKeys false 4)
    (mkSA []) [] [] (mkTSs []) (mkTSs []) [] None [].

Lemma NewChildSARekeyPlan_correct_witness :
  exists plan, NewChildSARekeyPlan zero_reader sample_rekey = Ok plan /\ rekey_plan_ok sample_rekey plan /\
    rp_RekeySPI plan = [1; 2; 3; 4] /\ rp_NewLocalSPI plan = [0; 0; 0; 0].
Proof.
  eexists. split; [vm_compute; reflexivity|]. split; [|split; reflexivity].
  apply (NewChildSARekeyPlan_correct zero_reader sample_rekey); [exact zero_reader_ok| |vm_compute; reflexivity].
  unfold rekey_config_ok. split_and!; by_decide || exact I.
Defined.
