(* ===== verification/Init.v ===== *)
(** * IKE_SA_INIT (engine/swu/ikev2/init.go)

    The first exchange: the offer, the retry with a cookie, the checks on the
    responder's answer, the Diffie-Hellman secret and the keys derived from it.
    The UDP transports of the file are sockets; the exchange runs over any
    [Transport].  The random source is a sequence of reads, because the SPI is
    drawn again while it is zero. *)
From S2P Require Import Prelude Errors Crypto Types Codec Notify Sa Keys Sk Dh Session EapAka ChildSa.

Definition DefaultIKEKeyMaterialLength : Z := 192.

Record InitConfig := mkInitConfig {
  ic_Transport : option Transport;
  ic_Random : option Source;
  ic_SA : SecurityAssociation;
  ic_InitiatorSPI : Z;
  ic_NonceI : bytes;
  ic_X25519PrivateKey : bytes;
  ic_DHPrivateKey : bytes;
  ic_LocalIP : bytes;
  ic_LocalPort : Z;
  ic_RemoteIP : bytes;
  ic_RemotePort : Z;
  ic_KeyMaterialLength : Z
}.

Record parsedInitResponse := mkParsedInit {
  pi_sa : SecurityAssociation;
  pi_keyExchange : KeyExchange;
  pi_nonceR : bytes;
  pi_notifies : list Notify;
  pi_mobikeSupported : bool
}.
Definition zeroParsed : parsedInitResponse := mkParsedInit (mkSA []) (mkKeyExchange 0 []) [] [] false.
Definition zeroKeys : IKEKeys := mkIKEKeys (mkProfile HashNone 0 0 0 0 0 0 0) [] [] [] [] [] [] [].

(** The loop over reads of eight octets until one is not zero; the [i]-th read
    of the source is the first. *)
Fixpoint randomSPI (fuel : nat) (random : Source) (i : nat) : result (Z * nat) :=
  match fuel with
  | O => OutOfFuel
  | S fuel' =>
      let! b := randomBytes (random i) 8 in
      let! spi := Uint64 b in
      if negb (spi =? 0) then Ok (spi, S i) else randomSPI fuel' random (S i)
  end.

(** [cfg.LocalIP == nil || ...]: a nil address is the empty list. *)
Definition nat_unknown (cfg : InitConfig) : bool :=
  (len (ic_LocalIP cfg) =? 0) || (len (ic_RemoteIP cfg) =? 0) || (ic_LocalPort cfg =? 0) || (ic_RemotePort cfg =? 0).

(** The header checks that [initResponseCookie] and [parseInitResponse] share. *)
Definition check_init_header (h : Header) (spiI : Z) : result unit :=
  if negb (h_InitiatorSPI h =? spiI) then Errorf ErrInvalidInitResponse else
  if negb (h_ExchangeType h =? ExchangeIKE_SA_INIT) || negb (h_MessageID h =? 0) ||
     (Z.land (h_Flags h) FlagResponse =? 0)
  then Errorf ErrInvalidInitResponse else Ok tt.

(** The loop of [initResponseCookie] over the payloads. *)
Fixpoint cookie_loop (payloads : list Payload) : result (option bytes) :=
  match payloads with
  | [] => Ok None
  | payload :: rest =>
      if negb (p_Type payload =? PayloadNotify) then cookie_loop rest else
      let! notify := map_err (Wrap ErrInvalidInitResponse) (ParseNotify (p_Body payload)) in
      match Notify_Cookie notify with
      | (_, _, Some err) => Err (Wrap ErrInvalidInitResponse err)
      | (Some cookie, true, None) => Ok (Some cookie)
      | _ => cookie_loop rest
      end
  end.
Definition initResponseCookie (resp : Message) (spiI : Z) : result (option bytes) :=
  let! _ := check_init_header (m_Header resp) spiI in
  let! _ := map_err (Wrap ErrInvalidInitResponse) (FirstNotifyError (m_Payloads resp)) in
  cookie_loop (m_Payloads resp).

(** The loop of [runIKESAInitRequest]; it returns in the second turn at the latest. *)
Fixpoint init_request_loop (fuel : nat) (exchangeIKE : Transport) (spiI : Z) (payloads : list Payload)
    (cookie : bytes) (retriedCookie : bool) : result (Message * bytes * Message * bytes) :=
  match fuel with
  | O => OutOfFuel
  | S fuel' =>
      let reqPayloads := clonePayloads payloads in
      let! reqPayloads :=
        (if 0 <? len cookie then let! cookiePayload := CookieNotify cookie in Ok ([cookiePayload] ++ reqPayloads)
         else Ok reqPayloads) in
      let req := mkMessage (mkHeader spiI 0 0 0 ExchangeIKE_SA_INIT FlagInitiator 0 0) reqPayloads in
      let! reqBytes := Message_MarshalBinary req in
      let! respBytes := exchangeIKE reqBytes in
      let! resp := ParseMessage respBytes in
      let! r := initResponseCookie resp spiI in
      match r with
      | None => Ok (req, reqBytes, resp, respBytes)
      | Some nextCookie =>
          if retriedCookie then Errorf ErrInvalidInitResponse
          else init_request_loop fuel' exchangeIKE spiI payloads nextCookie true
      end
  end.
Definition runIKESAInitRequest (exchangeIKE : Transport) (spiI : Z) (payloads : list Payload)
  : result (Message * bytes * Message * bytes) := init_request_loop 2 exchangeIKE spiI payloads [] false.

(** The loop of [parseInitResponse] over the payloads. *)
Fixpoint parse_init_loop (payloads : list Payload) (expectedDHGroup : Z) (out : parsedInitResponse)
  : result parsedInitResponse :=
  match payloads with
  | [] => Ok out
  | p :: rest =>
      let! out :=
        (if p_Type p =? PayloadSA then
           let! sa := ParseSecurityAssociation (p_Body p) in
           Ok (mkParsedInit sa (pi_keyExchange out) (pi_nonceR out) (pi_notifies out) (pi_mobikeSupported out))
         else if p_Type p =? PayloadKE then
           let! ke := ParseKeyExchange (p_Body p) in
           if negb (ke_DHGroup ke =? expectedDHGroup) then Errorf ErrInvalidInitResponse else
           Ok (mkParsedInit (pi_sa out) ke (pi_nonceR out) (pi_notifies out) (pi_mobikeSupported out))
         else if p_Type p =? PayloadNonce then
           Ok (mkParsedInit (pi_sa out) (pi_keyExchange out) (p_Body p) (pi_notifies out) (pi_mobikeSupported out))
         else if p_Type p =? PayloadNotify then
           let! n := ParseNotify (p_Body p) in
           Ok (mkParsedInit (pi_sa out) (pi_keyExchange out) (pi_nonceR out) (pi_notifies out ++ [n])
                 (if n_NotifyType n =? NotifyMOBIKESupported then true else pi_mobikeSupported out))
         else Ok out) in
      parse_init_loop rest expectedDHGroup out
  end.
Definition parseInitResponse (resp : Message) (spiI expectedDHGroup : Z) : result parsedInitResponse :=
  let! _ := check_init_header (m_Header resp) spiI in
  let! _ := map_err (Wrap ErrInvalidInitResponse) (FirstNotifyError (m_Payloads resp)) in
  if h_ResponderSPI (m_Header resp) =? 0 then Errorf ErrInvalidInitResponse else
  let! out := parse_init_loop (m_Payloads resp) expectedDHGroup zeroParsed in
  if len (sa_Proposals (pi_sa out)) =? 0 then Errorf ErrInvalidInitResponse else
  if len (ke_KeyData (pi_keyExchange out)) =? 0 then Errorf ErrInvalidInitResponse else
  if len (pi_nonceR out) =? 0 then Errorf ErrInvalidInitResponse else Ok out.

Section init.
Context {C : Crypto} {D : Ecdh} (rand_Reader : Source).

(** Both errors are dropped: no NAT payloads, no NAT detected. *)
Definition initNATPayloads (cfg : InitConfig) (spiI spiR : Z) : result (list Payload) :=
  if nat_unknown cfg then Ok [] else
  match NATDetectionNotify NotifyNATDetectionSourceIP spiI spiR (ic_LocalIP cfg) (ic_LocalPort cfg) with
  | Err _ => Ok []
  | src =>
      let! src := src in
      match NATDetectionNotify NotifyNATDetectionDestinationIP spiI spiR (ic_RemoteIP cfg) (ic_RemotePort cfg) with
      | Err _ => Ok []
      | dst => let! dst := dst in Ok [src; dst]
      end
  end.

Fixpoint detect_loop (notifies : list Notify) (sourceHash destHash : bytes) : bool :=
  match notifies with
  | [] => false
  | n :: rest =>
      if (n_NotifyType n =? NotifyNATDetectionSourceIP) && negb (bytesEqual (n_NotificationData n) sourceHash) then true
      else if (n_NotifyType n =? NotifyNATDetectionDestinationIP) && negb (bytesEqual (n_NotificationData n) destHash)
      then true
      else detect_loop rest sourceHash destHash
  end.
Definition detectNAT (notifies : list Notify) (spiI spiR : Z) (cfg : InitConfig) : bool :=
  if nat_unknown cfg then false else
  match NATDetectionHash spiI spiR (ic_RemoteIP cfg) (ic_RemotePort cfg),
        NATDetectionHash spiI spiR (ic_LocalIP cfg) (ic_LocalPort cfg) with
  | Ok sourceHash, Ok destHash => detect_loop notifies sourceHash destHash
  | _, _ => false
  end.

Definition RunIKE_SA_INIT (fuel : nat) (cfg : InitConfig) : result InitResult :=
  match ic_Transport cfg with
  | None => Errorf ErrInvalidInitConfig
  | Some exchangeIKE =>
  let random := match ic_Random cfg with None => rand_Reader | Some r => r end in
  let! r := (if ic_InitiatorSPI cfg =? 0 then randomSPI fuel random 0 else Ok (ic_InitiatorSPI cfg, O)) in
  let '(spiI, i) := r in
  let! r := (if len (ic_NonceI cfg) =? 0 then let! n := randomBytes (random i) DefaultNonceLength in Ok (n, S i)
             else Ok (ic_NonceI cfg, i)) in
  let '(nonceI, i) := r in
  let sa := if len (sa_Proposals (ic_SA cfg)) =? 0 then DefaultIKEProposal else ic_SA cfg in
  let! dhGroup := dhGroupFromSA sa in
  let privateKey :=
    if (dhGroup =? DHGroupCurve25519) && (len (ic_DHPrivateKey cfg) =? 0) then ic_X25519PrivateKey cfg
    else ic_DHPrivateKey cfg in
  let! dh := newDHKeyExchange dhGroup privateKey (random i) in
  let pubI := dh_public dh in
  let! saPayload := SecurityAssociationPayload sa in
  let payloads := [saPayload; KeyExchangePayload dhGroup pubI; NoncePayload nonceI] in
  let! nat := initNATPayloads cfg spiI 0 in
  let payloads := payloads ++ nat in
  let payloads := payloads ++ [MOBIKESupportedNotify] in
  let! r := runIKESAInitRequest exchangeIKE spiI payloads in
  let '(req, reqBytes, resp, respBytes) := r in
  let! parsed := parseInitResponse resp spiI dhGroup in
  let! _ := ValidateSelectedSA sa (pi_sa parsed) in
  let! shared := dh_shared dh (ke_KeyData (pi_keyExchange parsed)) in
  let! profile := KeyMaterialProfileFromSA (pi_sa parsed) in
  let prfHash := kp_PRF profile in
  let! skeyseed := SKEYSEED prfHash nonceI (pi_nonceR parsed) shared in
  let keyMaterialLength :=
    if ic_KeyMaterialLength cfg <=? 0 then RequiredLength profile else ic_KeyMaterialLength cfg in
  let responderSPI := h_ResponderSPI (m_Header resp) in
  let! keyMaterial :=
    DeriveIKESAKeyMaterial prfHash skeyseed nonceI (pi_nonceR parsed) spiI responderSPI keyMaterialLength in
  let! keys := (if RequiredLength profile <=? len keyMaterial then SplitIKEKeys profile keyMaterial else Ok zeroKeys) in
  Ok (mkInitResult reqBytes respBytes req resp (pi_sa parsed) spiI responderSPI nonceI (pi_nonceR parsed) pubI
        (ke_KeyData (pi_keyExchange parsed)) shared prfHash skeyseed keyMaterial keys (pi_mobikeSupported parsed)
        (detectNAT (pi_notifies parsed) spiI responderSPI cfg))
  end.
End init.

(** ** What the exchange establishes *)
Definition init_config_ok (cfg : InitConfig) : Prop :=
  SA_ok (ic_SA cfg) /\ is_u64 (ic_InitiatorSPI cfg) /\ bytes_ok (ic_NonceI cfg) /\ bytes_ok (ic_X25519PrivateKey cfg) /\
  bytes_ok (ic_DHPrivateKey cfg) /\ match ic_Random cfg with Some r => source_ok r | None => True end.

Definition source_of (rand : Source) (cfg : InitConfig) : Source :=
  match ic_Random cfg with None => rand | Some r => r end.

(** Some read before the fuel runs out is not eight zero octets. *)
Definition spi_available (fuel : nat) (random : Source) : Prop :=
  exists k, (k < fuel)%nat /\ forall b, random k 8 = Ok b -> be_decode b <> 0.

Definition response_header (spiI : Z) (h : Header) : Prop :=
  h_InitiatorSPI h = spiI /\ h_ExchangeType h = ExchangeIKE_SA_INIT /\ h_MessageID h = 0 /\ Z.testbit (h_Flags h) 5 = true.

Definition init_request (spiI : Z) (payloads : list Payload) : Message :=
  mkMessage (mkHeader spiI 0 0 0 ExchangeIKE_SA_INIT FlagInitiator 0 0) payloads.

(** An answer to the request that the peer reads: sent, received, parsed. *)
Definition answered (exchangeIKE : Transport) (req : Message) (reqBytes : bytes) (resp : Message) (respBytes : bytes) : Prop :=
  ParseMessage reqBytes = Ok (message_normal req) /\ exchangeIKE reqBytes = Ok respBytes /\ ParseMessage respBytes = Ok resp.

(** The request that was answered for good: the payloads, or the payloads behind
    the cookie that the answer to the first request asked for. *)
Definition init_exchanged (exchangeIKE : Transport) (spiI : Z) (payloads : list Payload) (req : Message) : Prop :=
  req = init_request spiI payloads \/
  exists c p raw0 resp0 m0,
    req = init_request spiI (p :: payloads) /\ p_Type p = PayloadNotify /\
    ParseNotify (p_Body p) = Ok (mkNotify 0 NotifyCookie [] c) /\ 1 <= len c <= 64 /\
    answered exchangeIKE (init_request spiI payloads) raw0 m0 resp0 /\ initResponseCookie m0 spiI = Ok (Some c).

(** The body of the last payload of a type: the one that counts. *)
Fixpoint last_body (ty : Z) (payloads : list Payload) : option bytes :=
  match payloads with
  | [] => None
  | p :: rest =>
      match last_body ty rest with
      | Some b => Some b
      | None => if p_Type p =? ty then Some (p_Body p) else None
      end
  end.
Definition notify_list (payloads : list Payload) (ns : list Notify) : Prop :=
  Forall2 (fun p n => ParseNotify (p_Body p) = Ok n) (filter (fun p => p_Type p = PayloadNotify) payloads) ns.

Definition nat_detected `{Crypto} (cfg : InitConfig) (spiI spiR : Z) (ns : list Notify) : Prop :=
  nat_unknown cfg = false /\ exists sourceHash destHash,
    NATDetectionHash spiI spiR (ic_RemoteIP cfg) (ic_RemotePort cfg) = Ok sourceHash /\
    NATDetectionHash spiI spiR (ic_LocalIP cfg) (ic_LocalPort cfg) = Ok destHash /\
    exists n, n ∈ ns /\ (n_NotifyType n = NotifyNATDetectionSourceIP /\ n_NotificationData n <> sourceHash \/
                         n_NotifyType n = NotifyNATDetectionDestinationIP /\ n_NotificationData n <> destHash).

Definition offered_sa (cfg : InitConfig) : SecurityAssociation :=
  if len (sa_Proposals (ic_SA cfg)) =? 0 then DefaultIKEProposal else ic_SA cfg.

(** The payloads of the offer: the SA, the key of the group, the nonce, the
    addresses when they are known, MOBIKE. *)
Definition init_payloads (cfg : InitConfig) (spiI g : Z) (public nonceI : bytes) (payloads : list Payload) `{Crypto} : Prop :=
  exists sap nat, payloads = [sap; KeyExchangePayload g public; NoncePayload nonceI] ++ nat ++ [MOBIKESupportedNotify] /\
    p_Type sap = PayloadSA /\ ParseSecurityAssociation (p_Body sap) = Ok (offered_sa cfg) /\
    initNATPayloads cfg spiI 0 = Ok nat.

(** The keys of the IKE SA from the two nonces, the shared secret and the SPIs. *)
Definition init_keys `{Crypto} (cfg : InitConfig) (r : InitResult) : Prop :=
  exists profile n,
    KeyMaterialProfileFromSA (ir_SelectedSA r) = Ok profile /\ profile_ok profile /\ ir_PRF r = kp_PRF profile /\
    ir_SKEYSEED r = hmac_Sum (ir_PRF r) (ir_NonceI r ++ ir_NonceR r) (ir_SharedSecret r) /\
    n = (if ic_KeyMaterialLength cfg <=? 0 then RequiredLength profile else ic_KeyMaterialLength cfg) /\
    ir_KeyMaterial r = take (Z.to_nat n) (prf_stream (ir_PRF r) (ir_SKEYSEED r)
      (ir_NonceI r ++ ir_NonceR r ++ be_bytes 8 (ir_InitiatorSPI r) ++ be_bytes 8 (ir_ResponderSPI r)) 255) /\
    (RequiredLength profile <= n -> k_Profile (ir_Keys r) = profile /\ keyset_ok (ir_Keys r) /\ key_lengths profile (ir_Keys r) /\
       k_SKD (ir_Keys r) ++ k_SKAi (ir_Keys r) ++ k_SKAr (ir_Keys r) ++ k_SKEi (ir_Keys r) ++ k_SKEr (ir_Keys r) ++
       k_SKPi (ir_Keys r) ++ k_SKPr (ir_Keys r) = take (Z.to_nat (RequiredLength profile)) (ir_KeyMaterial r)).

(** What a successful exchange means. *)
Definition init_done `{Crypto} `{Ecdh} (cfg : InitConfig) (g : Z) (dh : dhKeyExchange) (r : InitResult) : Prop :=
  let spiI := ir_InitiatorSPI r in
  let answer := m_Payloads (ir_Response r) in
  spiI <> 0 /\ is_u64 spiI /\ (ic_InitiatorSPI cfg <> 0 -> spiI = ic_InitiatorSPI cfg) /\
  (ic_NonceI cfg <> [] -> ir_NonceI r = ic_NonceI cfg) /\
  dhGroupFromSA (offered_sa cfg) = Ok g /\ ir_PublicKeyI r = dh_public dh /\
  (exists exchangeIKE payloads, ic_Transport cfg = Some exchangeIKE /\
     init_payloads cfg spiI g (ir_PublicKeyI r) (ir_NonceI r) payloads /\
     init_exchanged exchangeIKE spiI payloads (ir_Request r) /\
     answered exchangeIKE (ir_Request r) (ir_RequestBytes r) (ir_Response r) (ir_ResponseBytes r)) /\
  response_header spiI (m_Header (ir_Response r)) /\ FirstNotifyError answer = Ok tt /\
  ir_ResponderSPI r = h_ResponderSPI (m_Header (ir_Response r)) /\ ir_ResponderSPI r <> 0 /\
  (exists b, last_body PayloadSA answer = Some b /\ ParseSecurityAssociation b = Ok (ir_SelectedSA r)) /\
  ValidateSelectedSA (offered_sa cfg) (ir_SelectedSA r) = Ok tt /\
  (exists b, last_body PayloadKE answer = Some b /\ ParseKeyExchange b = Ok (mkKeyExchange g (ir_PublicKeyR r))) /\
  last_body PayloadNonce answer = Some (ir_NonceR r) /\ ir_NonceR r <> [] /\
  dh_shared dh (ir_PublicKeyR r) = Ok (ir_SharedSecret r) /\ init_keys cfg r /\
  exists ns, notify_list answer ns /\
    (ir_MOBIKESupported r = true <-> exists n, n ∈ ns /\ n_NotifyType n = NotifyMOBIKESupported) /\
    (ir_NATDetected r = true <-> nat_detected cfg spiI (ir_ResponderSPI r) ns).

(** ** Lemmas *)
Lemma check_init_header_spec h spiI : check_init_header h spiI = Ok tt <-> response_header spiI h.
Proof.
  unfold check_init_header, response_header. change FlagResponse with (2 ^ 5). rewrite land_pow2_eqb by lia.
  go_case H0; [split; [done|lia]|]. destruct (Z.testbit _ 5); cbn [negb]; [|rewrite orb_true_r; split; [done|naive_solver]].
  rewrite orb_false_r. go_case H1; [split; [done|lia]|]. split; [|done]. intros _. split_and!; [lia..|done].
Qed.
Lemma check_init_header_returns h spiI : returns (check_init_header h spiI).
Proof. unfold check_init_header. by repeat case_match. Qed.

Lemma Notify_Cookie_spec n c :
  Notify_Cookie n = (Some c, true, None) -> n_NotifyType n = NotifyCookie /\ c = n_NotificationData n /\ 1 <= len c <= 64.
Proof.
  unfold Notify_Cookie, MaxIKECookieLength. go_case H0; [done|]. go_case H1; [done|]. go_case H2; [done|]. intros [= <-].
  pose proof (len_nonneg (n_NotificationData n)). split_and!; lia || done.
Qed.

Lemma cookie_loop_safe ps :
  Forall Payload_ok ps -> safe (cookie_loop ps) (fun r => forall c, r = Some c -> bytes_ok c /\ 1 <= len c <= 64).
Proof.
  induction 1 as [|p ps (_ & _ & Hb) _ IH]; [done|]. cbn [cookie_loop]. go_case H0; [done|].
  eapply safe_call; [by apply safe_map_err, ParseNotify_safe|]. intros n Hn.
  destruct (Notify_Cookie n) as [[oc ok] [e|]] eqn:Hc; [by destruct oc, ok|]. destruct oc as [c|], ok; try done.
  cbn [safe]. intros ? [= <-]. apply Notify_Cookie_spec in Hc as (_ & -> & ?). split; [apply Hn|done].
Qed.

Lemma initResponseCookie_safe m spiI :
  Message_ok m -> safe (initResponseCookie m spiI) (fun r =>
    response_header spiI (m_Header m) /\ FirstNotifyError (m_Payloads m) = Ok tt /\
    forall c, r = Some c -> bytes_ok c /\ 1 <= len c <= 64).
Proof.
  intros [_ Hc]. assert (Hp : Forall Payload_ok (m_Payloads m)) by (eapply Forall_impl; [exact Hc|by intros ? []]).
  unfold initResponseCookie. pose proof (check_init_header_returns (m_Header m) spiI) as Hh.
  destruct (check_init_header _ _) as [[]| | |] eqn:Hck; try done. apply check_init_header_spec in Hck. cbn [bind].
  pose proof (FirstNotifyError_safe _ Hp) as Hn. destruct (FirstNotifyError _) as [[]| | |]; try done. cbn [map_err bind].
  eapply safe_mono; [by apply cookie_loop_safe|]. intros r Hr. by split_and!.
Qed.

(** Every encoded chain of a few payloads fits a message. *)
Lemma len_enc_payloads_valid ps : payloads_valid ps = true -> len (enc_payloads ps) <= 65535 * len ps.
Proof.
  induction ps as [|p ps IH]; [done|]. cbn [payloads_valid enc_payloads]. intros [Hv Hr]%andb_true_iff.
  specialize (IH Hr). rewrite len_app, len_enc_payload, len_cons. apply andb_true_iff in Hv as [_ Hv]. lia.
Qed.

Lemma request_readable spiI payloads raw :
  is_u64 spiI -> chain_ok payloads -> len payloads <= 100 ->
  Message_MarshalBinary (init_request spiI payloads) = Ok raw ->
  ParseMessage raw = Ok (message_normal (init_request spiI payloads)).
Proof.
  intros Hs Hc Hl Hm. pose proof (Message_MarshalBinary_len _ _ Hm) as [Hv Hlen]. cbn [init_request m_Payloads] in *.
  apply ParseMessage_marshal; [|done|].
  - split; [|done]. by split_and!.
  - apply len_enc_payloads_valid in Hv. unfold HeaderLength in *. lia.
Qed.

Lemma marshal_returns m : Message_ok m -> returns (Message_MarshalBinary m).
Proof.
  intros [_ Hc]. unfold Message_MarshalBinary. rewrite MarshalPayloads_eq. case_match; [|done]. cbn [bind].
  unfold Header_MarshalBinary. by repeat case_match.
Qed.

Lemma CookieNotify_safe c :
  bytes_ok c -> safe (CookieNotify c) (fun p => Payload_ok p /\ p_Type p = PayloadNotify /\
    ParseNotify (p_Body p) = Ok (mkNotify 0 NotifyCookie [] c)).
Proof.
  intros Hc. unfold CookieNotify. set (n := mkNotify _ _ _ _). destruct (Notify_Cookie n) as [[oc ok] [e|]]; [by destruct oc, ok|].
  assert (Hn : Notify_ok n) by (split_and!; [done|done|constructor|exact Hc]).
  pose proof (wrap_ok (C := notify_codec) PayloadNotify n) as Hok. pose proof (wrap_dec (C := notify_codec) PayloadNotify n) as Hd.
  unfold wrap in *. cbn [enc dec val_ok notify_codec] in *.
  assert (safe (let! body := Notify_MarshalBinary n in Ok (mkPayload PayloadNotify 0 false body)) (fun p =>
    Payload_ok p /\ p_Type p = PayloadNotify /\ ParseNotify (p_Body p) = Ok n)) as Hs; [|by destruct oc, ok].
  destruct (Notify_MarshalBinary n) as [b| | |] eqn:Hb; try (unfold Notify_MarshalBinary in Hb; by case_match). cbn [bind safe] in *.
  split; [by apply Hok|]. by apply Hd.
Qed.

Section exchange.
Variables (exchangeIKE : Transport) (spiI : Z) (payloads : list Payload).
Hypotheses (Hspi : is_u64 spiI) (Hch : chain_ok payloads) (Hlen : len payloads <= 10).
Hypothesis Hex : forall req, safe (exchangeIKE req) bytes_ok.

(** One turn of the loop. *)
Lemma exchange_once ps :
  chain_ok ps -> len ps <= 100 ->
  safe (let! reqBytes := Message_MarshalBinary (init_request spiI ps) in
        let! respBytes := exchangeIKE reqBytes in
        let! resp := ParseMessage respBytes in
        let! r := initResponseCookie resp spiI in Ok (reqBytes, resp, respBytes, r))
    (fun '(reqBytes, resp, respBytes, r) => answered exchangeIKE (init_request spiI ps) reqBytes resp respBytes /\
       Message_ok resp /\ initResponseCookie resp spiI = Ok r /\ response_header spiI (m_Header resp) /\
       FirstNotifyError (m_Payloads resp) = Ok tt /\ forall c, r = Some c -> bytes_ok c /\ 1 <= len c <= 64).
Proof.
  intros Hc Hl. assert (Hm : Message_ok (init_request spiI ps)) by (split; [by split_and!|done]).
  pose proof (marshal_returns _ Hm) as Hr. destruct (Message_MarshalBinary _) as [raw| | |] eqn:Hraw; try done. cbn [bind].
  specialize (Hex raw). destruct (exchangeIKE raw) as [resp| | |] eqn:He; try done. cbn [bind].
  pose proof (ParseMessage_safe resp Hex) as Hp. destruct (ParseMessage resp) as [m| | |] eqn:Hpm; try done. cbn [bind safe] in *.
  destruct Hp as (Hmok & _). pose proof (initResponseCookie_safe m spiI Hmok) as Hck.
  destruct (initResponseCookie m spiI) as [r| | |] eqn:Hi; try done. cbn [bind safe] in *.
  split; [split_and!; [by apply request_readable|done|done]|]. by split_and!; try apply Hck.
Qed.

Lemma runIKESAInitRequest_safe :
  safe (runIKESAInitRequest exchangeIKE spiI payloads) (fun '(req, reqBytes, resp, respBytes) =>
    init_exchanged exchangeIKE spiI payloads req /\ answered exchangeIKE req reqBytes resp respBytes /\ Message_ok resp /\
    response_header spiI (m_Header resp) /\ FirstNotifyError (m_Payloads resp) = Ok tt /\ initResponseCookie resp spiI = Ok None).
Proof.
  unfold runIKESAInitRequest. cbn [init_request_loop]. rewrite clonePayloads_id. change (0 <? len []) with false. cbv iota.
  cbn [bind]. fold (init_request spiI payloads). pose proof (exchange_once payloads Hch ltac:(lia)) as H1.
  destruct (Message_MarshalBinary _) as [raw0| | |]; try done. cbn [bind] in *.
  destruct (exchangeIKE raw0) as [resp0| | |]; try done. cbn [bind] in *.
  destruct (ParseMessage resp0) as [m0| | |] eqn:Hm0; try done. cbn [bind] in *.
  destruct (initResponseCookie m0 spiI) as [[c|]| | |] eqn:Hi0; try done; cbn [bind safe] in *.
  2:{ destruct H1 as (Ha & Hok & _ & Hh & Hf & _). split; [by left|by split_and!]. }
  destruct H1 as (Ha0 & _ & _ & _ & _ & Hc). destruct (Hc c eq_refl) as [Hcb Hcl]. replace (0 <? len c) with true by lia. cbv iota.
  pose proof (CookieNotify_safe c Hcb) as Hcn. destruct (CookieNotify c) as [p| | |]; try done. cbn [bind safe app] in *.
  destruct Hcn as (Hpok & Hpt & Hpp). fold (init_request spiI (p :: payloads)).
  assert (Hch' : chain_ok (p :: payloads)) by (constructor; [split; [done|by rewrite Hpt]|done]).
  pose proof (exchange_once (p :: payloads) Hch' ltac:(rewrite len_cons; lia)) as H2.
  destruct (Message_MarshalBinary _) as [raw1| | |]; try done. cbn [bind] in *.
  destruct (exchangeIKE raw1) as [resp1| | |]; try done. cbn [bind] in *.
  destruct (ParseMessage resp1) as [m1| | |] eqn:Hm1; try done. cbn [bind] in *.
  destruct (initResponseCookie m1 spiI) as [[c'|]| | |] eqn:Hi1; try done. cbn [bind safe] in *.
  destruct H2 as (Ha & Hok & _ & Hh & Hf & _). split; [|by split_and!]. right. by exists c, p, raw0, resp0, m0.
Qed.
End exchange.

(** A longer run of the loop changes nothing: it ends in the second turn. *)
Lemma init_request_loop_2 n exchangeIKE spiI payloads :
  init_request_loop (S (S n)) exchangeIKE spiI payloads [] false = runIKESAInitRequest exchangeIKE spiI payloads.
Proof. reflexivity. Qed.

Lemma last_body_app ty ps b : last_body ty ps = Some b -> exists p, p ∈ ps /\ p_Type p = ty /\ p_Body p = b.
Proof.
  induction ps as [|q ps IH]; [done|]. cbn [last_body]. destruct (last_body ty ps) as [b'|].
  - intros [= ->]. destruct (IH eq_refl) as (p & ? & ? & ?). exists p. by split; [right|].
  - go_case Ht; [|done]. intros [= <-]. exists q. split; [left|]. split; [lia|done].
Qed.

(** What the loop of [parseInitResponse] leaves in [out]. *)
Definition parsed_from (ps : list Payload) (g : Z) (out out' : parsedInitResponse) : Prop :=
  match last_body PayloadSA ps with
  | Some b => ParseSecurityAssociation b = Ok (pi_sa out') | None => pi_sa out' = pi_sa out end /\
  match last_body PayloadKE ps with
  | Some b => ParseKeyExchange b = Ok (pi_keyExchange out') /\ ke_DHGroup (pi_keyExchange out') = g
  | None => pi_keyExchange out' = pi_keyExchange out end /\
  pi_nonceR out' = default (pi_nonceR out) (last_body PayloadNonce ps) /\
  exists ns, notify_list ps ns /\ pi_notifies out' = pi_notifies out ++ ns /\
    (pi_mobikeSupported out' = true <-> pi_mobikeSupported out = true \/ exists n, n ∈ ns /\ n_NotifyType n = NotifyMOBIKESupported).

Lemma parsed_step p ps g out mid out' (upd : parsed_from [p] g out mid) :
  parsed_from ps g mid out' -> parsed_from (p :: ps) g out out'.
Proof.
  destruct upd as (S1 & K1 & N1 & ns1 & L1 & E1 & M1). intros (S2 & K2 & N2 & ns2 & L2 & E2 & M2).
  unfold parsed_from, notify_list in *. cbn [last_body filter list_filter] in *.
  split; [|split; [|split]].
  - destruct (last_body PayloadSA ps); [done|]. rewrite S2. done.
  - destruct (last_body PayloadKE ps); [done|]. rewrite K2. done.
  - destruct (last_body PayloadNonce ps); [done|]. cbn in N2. rewrite N2. done.
  - exists (ns1 ++ ns2). split; [|split; [by rewrite E2, E1, app_assoc|]].
    + case_decide; [|by apply Forall2_nil_inv_l in L1 as ->]. match goal with |- Forall2 _ (p :: ?l) _ => change (p :: l) with ([p] ++ l) end. by apply Forall2_app.
    + rewrite M2, M1. setoid_rewrite elem_of_app. naive_solver.
Qed.

Lemma parse_init_loop_safe ps g out :
  Forall Payload_ok ps -> safe (parse_init_loop ps g out) (parsed_from ps g out).
Proof.
  intros Hps. revert out. induction Hps as [|p ps (_ & _ & Hb) _ IH]; intros out.
  { cbn. unfold parsed_from, notify_list. cbn. split_and!; try done. exists []. rewrite app_nil_r. split_and!; try done.
    split; [by left|intros [?|(n & Hn & _)]; [done|by apply not_elem_of_nil in Hn]]. }
  cbn [parse_init_loop]. eapply (safe_call _ _ (fun mid => parsed_from [p] g out mid)).
  2:{ intros mid Hmid. eapply safe_mono; [apply IH|]. intros out'. by apply parsed_step. }
  assert (Hnone : p_Type p <> PayloadNotify -> exists ns, notify_list [p] ns /\ forall (l : list Notify), l = l ++ ns /\
    forall b : bool, b = true <-> b = true \/ exists n, n ∈ ns /\ n_NotifyType n = NotifyMOBIKESupported).
  { intros Ht. exists []. unfold notify_list. rewrite filter_cons_False by done. split; [constructor|]. intros l. rewrite app_nil_r.
    split; [done|]. intros b. split; [by left|intros [?|(n & Hn & _)]; [done|by apply not_elem_of_nil in Hn]]. }
  unfold parsed_from. cbn [last_body].
  go_case H0; [|go_case H1; [|go_case H2; [|go_case H3]]].
  - apply Z.eqb_eq in H0. rewrite H0. change (PayloadSA =? PayloadKE) with false. change (PayloadSA =? PayloadNonce) with false. cbv iota.
    destruct (Hnone ltac:(by rewrite H0)) as (ns & Hl & Hns). pose proof (ParseSecurityAssociation_safe _ Hb) as Hs.
    destruct (ParseSecurityAssociation (p_Body p)) as [sa| | |]; try done. cbn. split_and!; try done. exists ns.
    split; [done|]. split; [apply Hns|]. by apply (Hns []).
  - apply Z.eqb_eq in H1. rewrite H1. change (PayloadKE =? PayloadNonce) with false. cbv iota.
    destruct (Hnone ltac:(by rewrite H1)) as (ns & Hl & Hns). pose proof (dec_safe (C := ke_codec) _ Hb) as Hs. cbn [dec ke_codec] in Hs.
    destruct (ParseKeyExchange (p_Body p)) as [ke| | |]; try done. cbn [bind]. go_case Hg; [done|]. cbn.
    split_and!; try done; [lia|]. exists ns. split; [done|]. split; [apply Hns|]. by apply (Hns []).
  - apply Z.eqb_eq in H2. destruct (Hnone ltac:(by rewrite H2)) as (ns & Hl & Hns). cbn. split_and!; try done. exists ns.
    split; [done|]. split; [apply Hns|]. by apply (Hns []).
  - apply Z.eqb_eq in H3. pose proof (ParseNotify_safe _ Hb) as Hs. destruct (ParseNotify (p_Body p)) as [n| | |] eqn:Hn; try done.
    cbn. split_and!; try done. exists [n]. unfold notify_list. rewrite filter_cons_True, filter_nil by done.
    split; [by repeat constructor|]. split; [done|]. setoid_rewrite list_elem_of_singleton. go_case Hm; naive_solver lia.
  - destruct (Hnone ltac:(lia)) as (ns & Hl & Hns). cbn. split_and!; try done. exists ns. split; [done|]. split; [apply Hns|]. by apply (Hns []).
Qed.

#[local] Opaque prf_stream be_bytes.
Section proofs.
Context {C : Crypto} `{!CryptoLaws C} {D : Ecdh} `{!EcdhLaws D}.

Lemma NATDetectionHash_safe spiI spiR ip port : safe (NATDetectionHash spiI spiR ip port) bytes_ok.
Proof. unfold NATDetectionHash. case_match; [apply sha1_ok|done]. Qed.

Lemma NATDetectionNotify_safe ty spiI spiR ip port :
  safe (NATDetectionNotify ty spiI spiR ip port) (fun p => Payload_ok p /\ p_Type p = PayloadNotify).
Proof.
  unfold NATDetectionNotify. go_case H0; [done|]. eapply safe_call; [apply NATDetectionHash_safe|]. intros h Hh.
  unfold NotifyPayload, Notify_MarshalBinary. cbn [n_SPI n_ProtocolID n_NotifyType n_NotificationData].
  change (0xff <? len []) with false. cbn [bind safe]. split; [|done]. split_and!; [done|done|]. cbn [p_Body app].
  assert (is_u8 ProtocolIKE) by done. assert (is_u8 (to_u8 (len (@nil Z)))) by done. auto 8 with gobytes.
Qed.

Lemma initNATPayloads_safe cfg spiI spiR : safe (initNATPayloads cfg spiI spiR) (fun ps => chain_ok ps /\ len ps <= 2).
Proof.
  unfold initNATPayloads. go_case H0; [by split; [constructor|]|].
  pose proof (NATDetectionNotify_safe NotifyNATDetectionSourceIP spiI spiR (ic_LocalIP cfg) (ic_LocalPort cfg)) as H1.
  pose proof (NATDetectionNotify_safe NotifyNATDetectionDestinationIP spiI spiR (ic_RemoteIP cfg) (ic_RemotePort cfg)) as H2.
  destruct (NATDetectionNotify NotifyNATDetectionSourceIP _ _ _ _) as [p| | |]; try done; [|by split; [constructor|]].
  destruct (NATDetectionNotify NotifyNATDetectionDestinationIP _ _ _ _) as [q| | |]; try done; cbn [bind safe] in *; [|by split; [constructor|]].
  destruct H1 as [? Hp], H2 as [? Hq]. split; [|done].
  constructor; [split; [done|by rewrite Hp]|]. constructor; [split; [done|by rewrite Hq]|constructor].
Qed.

Lemma detect_loop_spec ns sourceHash destHash :
  detect_loop ns sourceHash destHash = true <->
  exists n, n ∈ ns /\ (n_NotifyType n = NotifyNATDetectionSourceIP /\ n_NotificationData n <> sourceHash \/
                       n_NotifyType n = NotifyNATDetectionDestinationIP /\ n_NotificationData n <> destHash).
Proof.
  induction ns as [|n ns IH].
  { split; [done|]. intros (n & Hn & _). by apply not_elem_of_nil in Hn. }
  cbn [detect_loop]. unfold bytesEqual in *. setoid_rewrite elem_of_cons.
  assert (Hb : forall a b : bytes, negb (bool_decide (a = b)) = true <-> a <> b).
  { intros a b. rewrite negb_true_iff, bool_decide_eq_false. done. }
  destruct (_ && _) eqn:H1; [apply andb_true_iff in H1 as [H1 H1'%Hb]|].
  { split; [|done]. intros _. exists n. split; [by left|]. left. split; [lia|done]. }
  destruct ((_ =? NotifyNATDetectionDestinationIP) && _) eqn:H2; [apply andb_true_iff in H2 as [H2 H2'%Hb]|].
  { split; [|done]. intros _. exists n. split; [by left|]. right. split; [lia|done]. }
  rewrite IH. split; [naive_solver|]. intros (m & [->|Hm] & Hd); [|by exists m].
  destruct Hd as [[Ht Hd%Hb]|[Ht Hd%Hb]]; rewrite Ht, Hd in *; done.
Qed.

Lemma detectNAT_spec ns spiI spiR cfg : detectNAT ns spiI spiR cfg = true <-> nat_detected cfg spiI spiR ns.
Proof.
  unfold detectNAT, nat_detected. destruct (nat_unknown cfg); [naive_solver|].
  destruct (NATDetectionHash _ _ (ic_RemoteIP cfg) _); [|naive_solver..].
  destruct (NATDetectionHash _ _ (ic_LocalIP cfg) _); [|naive_solver..]. rewrite detect_loop_spec. naive_solver.
Qed.

Lemma randomSPI_safe fuel random i :
  source_ok random -> (exists k, (i <= k < i + fuel)%nat /\ forall b, random k 8 = Ok b -> be_decode b <> 0) ->
  safe (randomSPI fuel random i) (fun '(spi, _) => spi <> 0 /\ is_u64 spi).
Proof.
  intros Hr. revert i. induction fuel as [|fuel IH]; intros i (k & Hk & Hb); [lia|]. cbn [randomSPI].
  assert (Hs : safe (randomBytes (random i) 8) (fun b => len b = 8 /\ bytes_ok b)) by (by apply Hr).
  destruct (randomBytes (random i) 8) as [b| | |] eqn:Hrb; try done. cbn [bind]. destruct Hs as [Hl Hok].
  unfold Uint64, BE_Uint. rewrite slice_prefix, take_ge by (unfold len in *; lia). cbn [bind].
  pose proof (be_decode_range b Hok) as Hrange. rewrite Hl in Hrange. change (256 ^ 8) with 18446744073709551616 in Hrange.
  go_case H0; [split; [lia|]; exact Hrange|]. apply IH.
  exists k. split; [|done]. destruct (decide (k = i)) as [->|]; [|lia]. unfold randomBytes in Hrb. cbn in Hrb. specialize (Hb b Hrb). lia.
Qed.

Lemma PRFPlus_safe h key seed n :
  h <> HashNone -> 0 <= n -> safe (PRFPlus h key seed n) (fun km => km = take (Z.to_nat n) (prf_stream h key seed 255) /\ len km = n).
Proof.
  intros Hh Hn. destruct (Z.le_gt_cases n (255 * hash_size h)) as [Hle|Hgt].
  - rewrite PRFPlus_spec by done. split; [done|]. apply len_take_le. rewrite len_prf_stream by done. lia.
  - unfold PRFPlus. pose proof (hash_size_pos h Hh). replace (n <? 0) with false by lia. replace (n =? 0) with false by lia.
    replace (Hash_Size h) with (Ok (E := error) (hash_size h)) by by destruct h. cbn [bind]. by replace (_ <? n) with true by lia.
Qed.

(** The keys, from the secret on. *)
Lemma derive_safe (sa : SecurityAssociation) nonceI nonceR spiI spiR shared length (k : KeyMaterialProfile -> bytes -> bytes -> IKEKeys -> InitResult) Q :
  SA_ok sa ->
  (forall profile skeyseed km keys,
     KeyMaterialProfileFromSA sa = Ok profile -> profile_ok profile ->
     skeyseed = hmac_Sum (kp_PRF profile) (nonceI ++ nonceR) shared ->
     let n := if length <=? 0 then RequiredLength profile else length in
     km = take (Z.to_nat n) (prf_stream (kp_PRF profile) skeyseed (nonceI ++ nonceR ++ be_bytes 8 spiI ++ be_bytes 8 spiR) 255) ->
     (RequiredLength profile <= n -> k_Profile keys = profile /\ keyset_ok keys /\ key_lengths profile keys /\
        k_SKD keys ++ k_SKAi keys ++ k_SKAr keys ++ k_SKEi keys ++ k_SKEr keys ++ k_SKPi keys ++ k_SKPr keys
          = take (Z.to_nat (RequiredLength profile)) km) ->
     Q (k profile skeyseed km keys)) ->
  safe (let! profile := KeyMaterialProfileFromSA sa in
        let prfHash := kp_PRF profile in
        let! skeyseed := SKEYSEED prfHash nonceI nonceR shared in
        let keyMaterialLength := if length <=? 0 then RequiredLength profile else length in
        let! keyMaterial := DeriveIKESAKeyMaterial prfHash skeyseed nonceI nonceR spiI spiR keyMaterialLength in
        let! keys := (if RequiredLength profile <=? len keyMaterial then SplitIKEKeys profile keyMaterial else Ok zeroKeys) in
        Ok (k profile skeyseed keyMaterial keys)) Q.
Proof.
  intros Hsa HQ. pose proof (KeyMaterialProfileFromSA_safe sa Hsa) as Hp.
  destruct (KeyMaterialProfileFromSA sa) as [profile| | |] eqn:Hprof; try done. cbn [bind safe] in *. cbv zeta.
  pose proof Hp as (Hh & _). unfold SKEYSEED, PRF, Hash_Available. rewrite bool_decide_eq_true_2 by done. cbn [negb bind].
  set (n := if length <=? 0 then _ else _). unfold DeriveIKESAKeyMaterial.
  assert (Hn : 0 <= n).
  { subst n. pose proof (profile_lengths profile Hp) as (? & ? & ? & _). unfold RequiredLength. go_case Hz; lia. }
  eapply safe_call; [apply PRFPlus_safe; done|]. intros km (-> & Hl). rewrite Hl.
  set (km := take _ _) in *. go_case Hr.
  - destruct (SplitIKEKeys_spec profile km Hp ltac:(lia)) as (keys & -> & Hkp & Hkl & Hcat). cbn [bind safe].
    apply HQ; try done. intros _. split_and!; try done. by eapply negotiated_keyset_ok.
  - cbn [bind safe]. apply HQ; try done. lia.
Qed.

Lemma dhGroup_returns sa : returns (dhGroupFromSA sa).
Proof. unfold dhGroupFromSA. induction (sa_Proposals sa) as [|p ps IH]; [done|]. cbn. by case_match. Qed.
Lemma ValidateSelectedSA_returns o s : returns (ValidateSelectedSA o s).
Proof.
  unfold ValidateSelectedSA. case_match; [done|]. destruct (sa_Proposals s) as [|p ps]; [done|]. case_match; [done|]. case_match; [done|].
  eapply (safe_call _ _ (fun _ => True)); [|intros ? _; by case_match].
  unfold validateSelectedProposalRequiredTransforms. by repeat (case_match; cbn [bind]).
Qed.

Lemma RunIKE_SA_INIT_safe rand fuel cfg :
  source_ok rand -> init_config_ok cfg -> (ic_InitiatorSPI cfg = 0 -> spi_available fuel (source_of rand cfg)) ->
  (forall exchangeIKE, ic_Transport cfg = Some exchangeIKE -> forall req, safe (exchangeIKE req) bytes_ok) ->
  safe (RunIKE_SA_INIT rand fuel cfg) (fun r => exists g dh raw src,
    reader_ok src /\ bytes_ok raw /\ newDHKeyExchange g raw src = Ok dh /\ init_done cfg g dh r).
Proof.
  intros Hrand (Hsa & Hspi & Hnonce & Hx & Hd & Hrd) Hav Hex. unfold RunIKE_SA_INIT.
  destruct (ic_Transport cfg) as [exchangeIKE|] eqn:Ht; [|done]. specialize (Hex _ eq_refl). fold (source_of rand cfg). cbv zeta.
  assert (Hsrc : source_ok (source_of rand cfg)) by (unfold source_of; by destruct (ic_Random cfg)).
  set (random := source_of rand cfg) in *.
  eapply (safe_call _ _ (fun r => r.1 <> 0 /\ is_u64 r.1 /\ (ic_InitiatorSPI cfg <> 0 -> r.1 = ic_InitiatorSPI cfg))).
  { go_case H0; [|cbn; split_and!; [lia|done|done]]. destruct (Hav ltac:(lia)) as (k & Hk & Hb).
    eapply safe_mono; [apply randomSPI_safe; [done|exists k; split; [lia|done]]|]. intros [spi i] [? ?]. cbn. split_and!; try done. lia. }
  intros [spiI i] (Hne & Hu & Hgiven). cbn [fst] in *.
  eapply (safe_call _ _ (fun r => bytes_ok r.1 /\ (ic_NonceI cfg <> [] -> r.1 = ic_NonceI cfg))).
  { go_case H0; [|done]. eapply safe_call; [by apply randomBytes_safe, Hsrc|]. intros n Hn. split; [done|]. intros Hz. by apply Z.eqb_eq, len_zero in H0. }
  intros [nonceI j] (Hnb & Hng). cbn [fst] in *. fold (offered_sa cfg).
  assert (Hoff : SA_ok (offered_sa cfg)) by (unfold offered_sa; go_case H0; [by_decide|done]).
  set (sa := offered_sa cfg) in *. pose proof (dhGroup_returns sa) as Hg. destruct (dhGroupFromSA sa) as [g| | |] eqn:Hgr; try done. cbn [bind].
  set (raw := if _ && _ then ic_X25519PrivateKey cfg else ic_DHPrivateKey cfg).
  assert (Hraw : bytes_ok raw) by (subst raw; by destruct (_ && _)). specialize (Hsrc j).
  pose proof (newDHKeyExchange_safe g raw (random j) Hsrc Hraw) as Hdh.
  destruct (newDHKeyExchange g raw (random j)) as [dh| | |] eqn:Hdhe; try done. cbn [bind safe] in *. destruct Hdh as (Hk & Hpub & _).
  assert (Hgu : is_u16 g) by (destruct Hk as [[-> _]|[-> _]]; done).
  eapply safe_call; [by apply SecurityAssociationPayload_safe|]. intros sap (Hsap & Hst & Hsp).
  pose proof (initNATPayloads_safe cfg spiI 0) as Hnat. destruct (initNATPayloads cfg spiI 0) as [nat| | |] eqn:Hnt; try done.
  cbn [bind safe] in *. destruct Hnat as [Hnc Hnl].
  set (payloads := ([sap; _; _] ++ nat) ++ [MOBIKESupportedNotify]).
  assert (Hch : chain_ok payloads).
  { subst payloads. repeat apply Forall_app_2; [|done|].
    - constructor; [split; [done|by rewrite Hst]|]. constructor.
      + split; [|done]. split_and!; [done|done|]. cbn. unfold KeyExchange_MarshalBinary. cbn [ke_DHGroup ke_KeyData].
        apply bytes_ok_app_2; [apply bytes_ok_be_bytes|]. apply bytes_ok_app_2; [by_decide|done].
      + constructor; [by split; [split_and!|]|constructor].
    - by_decide. }
  assert (Hpl : len payloads <= 10) by (subst payloads; len_simpl; lia).
  eapply safe_call; [by apply runIKESAInitRequest_safe|]. intros [[[req reqBytes] resp] respBytes] (Hex1 & Hans & Hmok & Hhd & Hfn & _).
  unfold parseInitResponse. rewrite (proj2 (check_init_header_spec _ _) Hhd), Hfn. cbn [map_err bind].
  go_case Hrs; [done|].
  assert (Hrok : Forall Payload_ok (m_Payloads resp)) by (eapply Forall_impl; [exact (proj2 Hmok)|by intros ? []]).
  pose proof (parse_init_loop_safe (m_Payloads resp) g zeroParsed Hrok) as Hpi.
  destruct (parse_init_loop _ _ _) as [out| | |]; try done. cbn [bind safe] in *. destruct Hpi as (Psa & Pke & Pno & ns & Hns & Hnse & Hmob).
  go_case Hz1; [done|]. go_case Hz2; [done|]. go_case Hz3; [done|]. cbn [bind].
  destruct (last_body PayloadSA (m_Payloads resp)) as [bsa|] eqn:Lsa; [|rewrite Psa in Hz1; done].
  destruct (last_body PayloadKE (m_Payloads resp)) as [bke|] eqn:Lke; [|rewrite Pke in Hz2; done].
  destruct (last_body PayloadNonce (m_Payloads resp)) as [bno|] eqn:Lno; [|rewrite Pno in Hz3; done]. cbn in Pno.
  pose proof (ValidateSelectedSA_returns sa (pi_sa out)) as Hvr.
  destruct (ValidateSelectedSA sa (pi_sa out)) as [[]| | |] eqn:Hval; try done. cbn [bind].
  assert (Hbok : forall ty b, last_body ty (m_Payloads resp) = Some b -> bytes_ok b).
  { intros ty b (p & Hp & _ & <-)%last_body_app. rewrite Forall_forall in Hrok. by apply Hrok. }
  destruct Pke as [Pke Pkg]. pose proof (dec_safe (C := ke_codec) _ (Hbok _ _ Lke)) as Hkok. cbn [dec ke_codec] in Hkok. rewrite Pke in Hkok.
  pose proof (ParseSecurityAssociation_safe _ (Hbok _ _ Lsa)) as Hsok. rewrite Psa in Hsok.
  pose proof (dh_shared_safe g raw (random j) dh (ke_KeyData (pi_keyExchange out)) Hsrc Hraw Hdhe ltac:(apply Hkok)) as Hsh.
  destruct (dh_shared dh _) as [shared| | |] eqn:Hshared; try done. cbn [bind].
  apply derive_safe; [apply Hsok|]. intros profile skeyseed km keys Hprof Hpok Hsk n Hkm Hkeys.
  exists g, dh, raw, (random j). split; [done|]. split; [done|]. split; [done|].
  assert (Hnr : pi_nonceR out <> []) by (intros He; by rewrite He in Hz3).
  unfold init_done, init_keys, init_payloads.
  cbn [ir_RequestBytes ir_ResponseBytes ir_Request ir_Response ir_SelectedSA ir_InitiatorSPI ir_ResponderSPI ir_NonceI ir_NonceR
    ir_PublicKeyI ir_PublicKeyR ir_SharedSecret ir_PRF ir_SKEYSEED ir_KeyMaterial ir_Keys ir_MOBIKESupported ir_NATDetected].
  assert (Hrs' : h_ResponderSPI (m_Header resp) <> 0) by lia.
  split_and!; try assumption; try reflexivity.
  - exists exchangeIKE, payloads. split_and!; try assumption; try reflexivity. exists sap, nat. split_and!; try assumption. reflexivity.
  - exists bsa. by split.
  - exists bke. split; [assumption|]. rewrite Pke, <- Pkg. by destruct (pi_keyExchange out).
  - by rewrite Pno.
  - exists profile, n. split_and!; try assumption; reflexivity.
  - exists ns. split; [assumption|]. split; [rewrite Hmob; naive_solver|]. rewrite Hnse. apply detectNAT_spec.
Qed.
End proofs.

(** ** Properties *)

(** C9: IKE_SA_INIT, for every transport and every answer of the peer:
    [RunIKE_SA_INIT] neither panics nor loops (when the SPI is drawn, as long as
    some read of the source is not zero), and when it succeeds the request is the
    offer, or the offer behind the cookie that the answer to it asked for; the
    answer has the initiator's SPI, a non-zero responder SPI, the header of a
    response, no error notify, a selected SA that [ValidateSelectedSA] accepts
    for the offer and a key of the offered group; the secret is the
    Diffie-Hellman secret of that key, SKEYSEED and the key material are those
    of RFC 7296 for the two nonces and SPIs, the split keys can protect messages;
    and MOBIKE and NAT are reported exactly as the notifies say. *)
Theorem RunIKE_SA_INIT_correct (C : Crypto) (L : CryptoLaws C) (D : Ecdh) (LD : EcdhLaws D) rand fuel cfg :
  source_ok rand -> init_config_ok cfg -> (ic_InitiatorSPI cfg = 0 -> spi_available fuel (source_of rand cfg)) ->
  (forall exchangeIKE, ic_Transport cfg = Some exchangeIKE -> forall req, safe (exchangeIKE req) bytes_ok) ->
  returns (RunIKE_SA_INIT rand fuel cfg) /\
  forall r, RunIKE_SA_INIT rand fuel cfg = Ok r ->
    exists g dh raw src, newDHKeyExchange g raw src = Ok dh /\ init_done cfg g dh r.
Proof.
  intros Hr Hcfg Hav Hx. pose proof (RunIKE_SA_INIT_safe rand fuel cfg Hr Hcfg Hav Hx) as Hs.
  split; [by eapply safe_returns|]. intros r H. rewrite H in Hs. destruct Hs as (g & dh & raw & src & _ & _ & ? & ?). by exists g, dh, raw, src.
Qed.

(** Both ends derive the same keys.  When the key in the answer is the public
    key of a key exchange [b] of the offered group, the responder who applies
    [b] to the initiator's key and derives SKEYSEED and the key material from its
    own secret gets the initiator's. *)
Theorem RunIKE_SA_INIT_agreement (C : Crypto) (L : CryptoLaws C) (D : Ecdh) (LD : EcdhLaws D) rand fuel cfg r g rawB randomB b s :
  source_ok rand -> init_config_ok cfg -> (ic_InitiatorSPI cfg = 0 -> spi_available fuel (source_of rand cfg)) ->
  (forall exchangeIKE, ic_Transport cfg = Some exchangeIKE -> forall req, safe (exchangeIKE req) bytes_ok) ->
  RunIKE_SA_INIT rand fuel cfg = Ok r ->
  dhGroupFromSA (offered_sa cfg) = Ok g -> reader_ok randomB -> bytes_ok rawB ->
  newDHKeyExchange g rawB randomB = Ok b -> dh_public b = ir_PublicKeyR r -> dh_shared b (ir_PublicKeyI r) = Ok s ->
  s = ir_SharedSecret r /\
  SKEYSEED (ir_PRF r) (ir_NonceI r) (ir_NonceR r) s = Ok (ir_SKEYSEED r) /\
  DeriveIKESAKeyMaterial (ir_PRF r) (ir_SKEYSEED r) (ir_NonceI r) (ir_NonceR r) (ir_InitiatorSPI r) (ir_ResponderSPI r)
    (len (ir_KeyMaterial r)) = Ok (ir_KeyMaterial r).
Proof.
  intros Hr Hcfg Hav Hx H Hg HrB HB Hb Hpub Hs. pose proof (RunIKE_SA_INIT_safe rand fuel cfg Hr Hcfg Hav Hx) as Hsafe.
  rewrite H in Hsafe. destruct Hsafe as (g' & dh & raw & src & Hsrc & Hraw & Hdh & Hdone).
  destruct Hdone as (_ & _ & _ & _ & Hg' & Hpi & _ & _ & _ & _ & _ & _ & _ & _ & _ & _ & Hshared & Hkeys & _).
  rewrite Hg in Hg'. injection Hg' as <-.
  assert (s = ir_SharedSecret r) as ->.
  { symmetry. apply (dh_agree g raw rawB src randomB dh b); try done; [by rewrite Hpub|by rewrite <- Hpi]. }
  destruct Hkeys as (profile & n & Hprof & Hpok & HP & Hseed & Hn & Hkm & _). split; [done|].
  destruct Hpok as (Hh & _). rewrite <- HP in Hh. split.
  - unfold SKEYSEED, PRF, Hash_Available. rewrite bool_decide_eq_true_2 by done. by rewrite Hseed.
  - unfold DeriveIKESAKeyMaterial. set (seed := ir_NonceI r ++ ir_NonceR r ++ be_bytes 8 (ir_InitiatorSPI r) ++ be_bytes 8 (ir_ResponderSPI r)) in *. pose proof (hash_size_pos _ Hh).
    pose proof (len_prf_stream (ir_PRF r) (ir_SKEYSEED r) seed 255 Hh) as Hl.
    assert (Hlen : len (ir_KeyMaterial r) = Z.min (Z.max 0 n) (255 * hash_size (ir_PRF r))).
    { rewrite Hkm. unfold len in *. rewrite length_take. lia. }
    rewrite Hlen, PRFPlus_spec by (done || lia). f_equal. rewrite Hkm.
    destruct (Z.le_gt_cases n (255 * hash_size (ir_PRF r))); [f_equal; lia|]. unfold len in Hl. rewrite !take_ge by lia. done.
Qed.

(** The cookie loop of [runIKESAInitRequest] ends.  Over every transport and
    every answer it returns within two requests (more fuel changes nothing), and
    a peer that answers the request with the cookie by asking for a cookie again
    is refused. *)
Theorem runIKESAInitRequest_terminates exchangeIKE spiI payloads :
  is_u64 spiI -> chain_ok payloads -> len payloads <= 10 -> (forall req, safe (exchangeIKE req) bytes_ok) ->
  returns (runIKESAInitRequest exchangeIKE spiI payloads) /\
  (forall n, init_request_loop (S (S n)) exchangeIKE spiI payloads [] false = runIKESAInitRequest exchangeIKE spiI payloads) /\
  ((forall req resp m, exchangeIKE req = Ok resp -> ParseMessage resp = Ok m -> exists c, initResponseCookie m spiI = Ok (Some c)) ->
     forall r, runIKESAInitRequest exchangeIKE spiI payloads <> Ok r).
Proof.
  intros Hs Hc Hl Hx. pose proof (runIKESAInitRequest_safe exchangeIKE spiI payloads Hs Hc Hl Hx) as H.
  split; [by eapply safe_returns|]. split; [intros n; apply init_request_loop_2|].
  intros Hcookie r Hr. rewrite Hr in H. destruct r as [[[req reqBytes] resp] respBytes].
  destruct H as (_ & (_ & He & Hp) & _ & _ & _ & Hn). destruct (Hcookie _ _ _ He Hp) as (c & Hck). congruence.
Qed.

(** ** The theorems at a concrete exchange

    The responder answers the default offer with its key and nonce. *)
Definition sample_responder : bytes := replicate 32 7.
Definition sample_init_answer : bytes :=
  match SecurityAssociationPayload DefaultIKEProposal with
  | Ok sap =>
      match Message_MarshalBinary (mkMessage (mkHeader 5 6 0 0 ExchangeIKE_SA_INIT FlagResponse 0 0)
              [sap; KeyExchangePayload DHGroupCurve25519 (X25519_PublicKey sample_responder); NoncePayload [8; 8]]) with
      | Ok raw => raw
      | _ => []
      end
  | _ => []
  end.
Definition sample_init_config : InitConfig :=
  mkInitConfig (Some (fun _ => Ok sample_init_answer)) None (mkSA []) 5 [1; 2; 3] (replicate 32 3) [] [] 0 [] 0 0.
Definition zero_source : Source := fun _ => zero_reader.

Lemma zero_source_ok : source_ok zero_source.
Proof. intros i. exact zero_reader_ok. Qed.
Lemma sample_init_config_ok : init_config_ok sample_init_config.
Proof. unfold init_config_ok. split_and!; by_decide || exact I. Qed.
Lemma sample_transport_ok exchangeIKE :
  ic_Transport sample_init_config = Some exchangeIKE -> forall req, safe (exchangeIKE req) bytes_ok.
Proof. intros [= <-] req. cbn [safe]. by_decide. Qed.

Lemma RunIKE_SA_INIT_correct_witness :
  exists r g dh, RunIKE_SA_INIT (C := toy_crypto) (D := toy_ecdh) zero_source 0 sample_init_config = Ok r /\
    init_done (H := toy_crypto) (H0 := toy_ecdh) sample_init_config g dh r.
Proof.
  destruct (RunIKE_SA_INIT (C := toy_crypto) (D := toy_ecdh) zero_source 0 sample_init_config) as [r| | |] eqn:H;
    try (vm_compute in H; discriminate H).
  destruct (proj2 (RunIKE_SA_INIT_correct toy_crypto toy_crypto_laws toy_ecdh toy_ecdh_laws zero_source 0 sample_init_config
    zero_source_ok sample_init_config_ok ltac:(discriminate) sample_transport_ok) r H) as (g & dh & raw & src & _ & Hd).
  exists r, g, dh. split; [reflexivity|exact Hd].
Defined.

Lemma runIKESAInitRequest_terminates_witness :
  returns (runIKESAInitRequest (fun _ => Ok sample_init_answer) 5 [NoncePayload [1]]).
Proof.
  apply (runIKESAInitRequest_terminates (fun _ => Ok sample_init_answer) 5 [NoncePayload [1]]); try by_decide.
  intros req. cbn [safe]. by_decide.
Defined.

Lemma RunIKE_SA_INIT_agreement_witness :
  exists r, RunIKE_SA_INIT (C := toy_crypto) (D := toy_ecdh) zero_source 0 sample_init_config = Ok r /\
    toy_mul sample_responder (ir_PublicKeyI r) = ir_SharedSecret r.
Proof.
  destruct (RunIKE_SA_INIT (C := toy_crypto) (D := toy_ecdh) zero_source 0 sample_init_config) as [r| | |] eqn:H;
    try (vm_compute in H; discriminate H).
  assert (Hp : ir_PublicKeyR r = X25519_PublicKey sample_responder /\ ir_PublicKeyI r = X25519_PublicKey (replicate 32 3)).
  { vm_compute in H. injection H as <-. by vm_compute. }
  exists r. split; [reflexivity|].
  refine (proj1 (RunIKE_SA_INIT_agreement toy_crypto toy_crypto_laws toy_ecdh toy_ecdh_laws zero_source 0 sample_init_config r
    DHGroupCurve25519 sample_responder zero_reader (mkDH (X25519_PublicKey sample_responder) (x25519_shared sample_responder))
    (toy_mul sample_responder (ir_PublicKeyI r)) zero_source_ok sample_init_config_ok ltac:(discriminate) sample_transport_ok H
    _ zero_reader_ok _ _ _ _)); [reflexivity|by_decide|reflexivity|symmetry; apply Hp|].
  rewrite (proj2 Hp). vm_compute. reflexivity.
Defined.
