(* ===== verification/Auth.v ===== *)
(** * IKE_AUTH with EAP-AKA (engine/swu/ikev2/auth.go)

    The initial request, the identity exchange, the AKA challenge with its
    control follow-ups, the final AUTH exchange and the loop that runs them.
    The exchanges run in the monad of [World]; the peer and the SIM may answer
    by the whole history.  A partial result returned beside an error is not
    modelled: the callers discard it. *)
From S2P Require Import Prelude GoStrings Errors Crypto Types Codec Notify Sa Keys Sk Dh World Session EapAka EapKeys EapMac EapCrypt.
From S2P Require Import EapReauth EapChallenge ChildSa Init.
Open Scope world_scope.

Definition maxAKAControlFollowups := 3%nat.
Definition maxFullAuthEAPExchanges := 8%nat.

Record AuthConfig := mkAuthConfig {
  au_Transport : option Peer;
  au_Init : InitResult;
  au_Keys : IKEKeys;
  au_InitiatorID : Identity;
  au_EAPIdentity : bytes;
  au_EAPPseudonym : bytes;
  au_EAPReauthIdentity : bytes;
  au_ChildSA : SecurityAssociation;
  au_ChildSPI : bytes;
  au_TSi : TrafficSelectors;
  au_TSr : TrafficSelectors;
  au_Configuration : Configuration;
  au_Random : option Source;
  au_InitialIV : bytes;
  au_EAPIdentityIV : bytes;
  au_InitialMessageID : Z
}.
Record AuthResult := mkAuthResult {
  ar_InitialRequestBytes : bytes;
  ar_InitialResponseBytes : bytes;
  ar_IdentityRequestBytes : bytes;
  ar_IdentityResponseBytes : bytes;
  ar_InitialResponseInner : list Payload;
  ar_IdentityResponseInner : list Payload;
  ar_EAPRequest : option Packet;
  ar_EAPAfterIdentity : option Packet;
  ar_EAPIdentityUsed : bytes;
  ar_IdentityTranscript : list bytes;
  ar_NextMessageID : Z
}.
(** [sim.AKAProvider], which may count its uses. *)
Abbreviation SIM := (list (bytes * bytes) -> bytes -> bytes -> AKAResult * option error).
Record AKAChallengeConfig := mkAKAConfig {
  ak_Transport : option Peer;
  ak_Init : InitResult;
  ak_Keys : IKEKeys;
  ak_SIM : option SIM;
  ak_EAPKeys : EapKeys.Keys;
  ak_Identity : bytes;
  ak_Request : Packet;
  ak_IdentityTranscript : list bytes;
  ak_ChildSPI : bytes;
  ak_TSi : TrafficSelectors;
  ak_TSr : TrafficSelectors;
  ak_MessageID : Z;
  ak_Random : option Source;
  ak_IV : bytes;
  ak_EAPReauthIV : bytes;
  ak_EAPReauthCounter : Z;
  ak_EAPReauthCounterOK : bool
}.
Record AKAChallengeResult := mkAKAChallengeResult {
  ac_RequestBytes : bytes;
  ac_ResponseBytes : bytes;
  ac_ResponseInner : list Payload;
  ac_EAPResponse : Packet;
  ac_EAPNext : option Packet;
  ac_EAPKeys : EapKeys.Keys;
  ac_EAPEncryptedAttributes : list Attribute;
  ac_EAPNextPseudonym : bytes;
  ac_EAPNextReauthID : bytes;
  ac_EAPReauthenticated : bool;
  ac_EAPReauthCounter : Z;
  ac_EAPReauthCounterTooSmall : bool;
  ac_EAPNotifications : list Packet;
  ac_EAPClientError : bool;
  ac_ChildSA : option ChildSAResult;
  ac_SyncFailure : bool;
  ac_AuthFailure : bool;
  ac_KDFNegotiated : bool;
  ac_NextMessageID : Z;
  ac_FollowupRequestBytes : list bytes;
  ac_FollowupResponseBytes : list bytes;
  ac_FinalResponseBytes : bytes;
  ac_FinalResponseInner : list Payload
}.
Record FullAuthConfig := mkFullConfig {
  fc_Transport : option Peer;
  fc_Init : InitResult;
  fc_Keys : IKEKeys;
  fc_SIM : option SIM;
  fc_EAPKeys : EapKeys.Keys;
  fc_InitiatorID : Identity;
  fc_EAPIdentity : bytes;
  fc_EAPPseudonym : bytes;
  fc_EAPReauthIdentity : bytes;
  fc_EAPReauthCounter : Z;
  fc_EAPReauthCounterOK : bool;
  fc_ChildSA : SecurityAssociation;
  fc_ChildSPI : bytes;
  fc_TSi : TrafficSelectors;
  fc_TSr : TrafficSelectors;
  fc_Configuration : Configuration;
  fc_Random : option Source;
  fc_InitialIV : bytes;
  fc_EAPIdentityIV : bytes;
  fc_EAPReauthIV : bytes;
  fc_InitialMessageID : Z
}.
Record EAPIdentityExchange := mkIdentityExchange {
  ix_Request : Packet;
  ix_Response : Packet;
  ix_Identity : bytes;
  ix_RequestBytes : bytes;
  ix_ResponseBytes : bytes;
  ix_ResponseInner : list Payload;
  ix_EAPNext : option Packet;
  ix_Transcript : list bytes;
  ix_NextMessageID : Z
}.
Record FullAuthResult := mkFullResult {
  fr_Auth : AuthResult;
  fr_IdentityExchanges : list EAPIdentityExchange;
  fr_AKAChallenges : list AKAChallengeResult;
  fr_ChildSA : option ChildSAResult;
  fr_EAPKeys : EapKeys.Keys;
  fr_EAPLast : option Packet;
  fr_EAPNotifications : list Packet;
  fr_EAPClientError : bool;
  fr_EAPNextPseudonym : bytes;
  fr_EAPNextReauthID : bytes;
  fr_EAPReauthenticated : bool;
  fr_EAPReauthCounter : Z;
  fr_EAPReauthCounterTooSmall : bool;
  fr_SyncFailure : bool;
  fr_AuthFailure : bool;
  fr_KDFNegotiations : Z;
  fr_NextMessageID : Z;
  fr_FinalResponseBytes : bytes;
  fr_FinalResponseInner : list Payload
}.
Record identityExchangeConfig := mkIdentityConfig {
  ic_Transport' : option Peer;
  ic_Init : InitResult;
  ic_Keys : IKEKeys;
  ic_Random' : option Source;
  ic_Request : Packet;
  ic_RequestRaw : bytes;
  ic_Identity : bytes;
  ic_MessageID : Z
}.
Record eapIdentityOptions := mkIdentityOptions {
  io_PermanentIdentity : bytes;
  io_Pseudonym : bytes;
  io_ReauthIdentity : bytes
}.
Record akaControlFollowups := mkFollowups {
  fu_RequestBytes : list bytes;
  fu_ResponseBytes : list bytes;
  fu_FinalInner : list Payload;
  fu_NextMessageID : Z;
  fu_Notifications : list Packet;
  fu_ClientError : bool
}.

(** ** Helpers *)
Definition authHeader (init : InitResult) (messageID : Z) (fromInitiator : bool) : Header :=
  mkHeader (ir_InitiatorSPI init) (ir_ResponderSPI init) 0 0 ExchangeIKE_AUTH
    (if fromInitiator then Z.lor 0 FlagInitiator else Z.lor 0 FlagResponse) messageID 0.

Definition firstIKEAuthPayload (payloads : list Payload) (payloadType : Z) : option Payload :=
  List.find (fun p => p_Type p =? payloadType) payloads.
Definition firstIKEAuthIdentity (payloads : list Payload) (payloadType : Z) : result (option Identity) :=
  match firstIKEAuthPayload payloads payloadType with
  | None => Ok None
  | Some payload => let! identity := ParseIdentity (p_Body payload) in Ok (Some identity)
  end.
Definition hasPayload (payloads : list Payload) (payloadType : Z) : bool :=
  existsb (fun p => p_Type p =? payloadType) payloads.

Fixpoint firstEAPPacketWithRaw (payloads : list Payload) : result (option (Packet * bytes)) :=
  match payloads with
  | [] => Ok None
  | p :: rest =>
      if negb (p_Type p =? PayloadEAP) then firstEAPPacketWithRaw rest else
      let! pkt := ParsePacket (p_Body p) in Ok (Some (pkt, p_Body p))
  end.
Definition firstEAPPacket (payloads : list Payload) : result (option Packet) :=
  let! r := firstEAPPacketWithRaw payloads in Ok (fst <$> r).

Fixpoint firstIKEAuthNonEmpty (values : list bytes) : bytes :=
  match values with
  | [] => []
  | value :: rest => let trimmed := TrimSpace value in if negb (len trimmed =? 0) then trimmed else firstIKEAuthNonEmpty rest
  end.
Definition authPermanentIdentity (identity : bytes) (initiator : Identity) : bytes :=
  let out := TrimSpace identity in if len out =? 0 then TrimSpace (id_Data initiator) else out.
Definition hasEAPIdentityRequestAttribute (request : Packet) (typ : Z) : bool :=
  match FindAttribute (pk_Attributes request) typ with Some _ => true | None => false end.
Definition identityForEAPRequest (request : Packet) (opts : eapIdentityOptions) : bytes :=
  let permanent := TrimSpace (io_PermanentIdentity opts) in
  let pseudonym := TrimSpace (io_Pseudonym opts) in
  let reauth := TrimSpace (io_ReauthIdentity opts) in
  if hasEAPIdentityRequestAttribute request AttributePermanentIDReq then permanent
  else if hasEAPIdentityRequestAttribute request AttributeFullAuthIDReq then firstIKEAuthNonEmpty [pseudonym; permanent]
  else if hasEAPIdentityRequestAttribute request AttributeAnyIDReq then firstIKEAuthNonEmpty [reauth; pseudonym; permanent]
  else permanent.

Definition firstConfiguration (value fallback : Configuration) : Configuration :=
  if negb (cf_Type value =? 0) || (0 <? len (cf_Attributes value)) then value else fallback.
Definition trafficSelectorsOrSWuAny (ts : TrafficSelectors) : TrafficSelectors :=
  if len (ts_Selectors ts) =? 0 then SWuAnyTrafficSelectors else ts.

(** The loop over the proposals of the clone. *)
Fixpoint local_spi_loop (proposals : list Proposal) (localSPI : bytes) : result (list Proposal) :=
  match proposals with
  | [] => Ok []
  | p :: rest =>
      let! p :=
        (if negb (pr_ProtocolID p =? ProtocolESP) || negb (len (pr_SPI p) =? 0) then Ok p
         else if negb (len localSPI =? 4) then Errorf ErrInvalidAuthConfig
         else Ok (with_SPI p localSPI)) in
      let! rest := local_spi_loop rest localSPI in
      Ok (p :: rest)
  end.
Definition childSAWithLocalSPI (sa : SecurityAssociation) (localSPI : bytes) : result SecurityAssociation :=
  let! ps := local_spi_loop (sa_Proposals (cloneSecurityAssociation sa)) localSPI in Ok (mkSA ps).
Definition authOfferedChildSA (sa : SecurityAssociation) (localSPI : bytes) : result SecurityAssociation :=
  if len (sa_Proposals sa) =? 0 then
    if len localSPI =? 0 then Ok (mkSA []) else Ok (DefaultESPProposal localSPI)
  else childSAWithLocalSPI sa localSPI.

Definition with_NextMessageID (c : ChildSAResult) (id : Z) : ChildSAResult :=
  mkChildResult (cr_SelectedSA c) (cr_TSi c) (cr_TSr c) (cr_Configuration c) (cr_LocalSPI c) (cr_RemoteSPI c)
    (cr_Keys c) (cr_EAPSuccess c) id.

Definition authFinalResponse (auth : AuthResult) : list Payload * bytes :=
  if (0 <? len (ar_IdentityResponseInner auth)) || (0 <? len (ar_IdentityResponseBytes auth))
  then (ar_IdentityResponseInner auth, ar_IdentityResponseBytes auth)
  else (ar_InitialResponseInner auth, ar_InitialResponseBytes auth).
Definition authNextEAP (auth : AuthResult) : option Packet :=
  match ar_EAPAfterIdentity auth with
  | Some packet => Some packet
  | None =>
      match ar_EAPRequest auth with
      | Some request =>
          if (pk_Code request =? CodeRequest) && (pk_Subtype request =? SubtypeIdentity) && (0 <? len (ar_IdentityResponseBytes auth))
          then None else Some request
      | None => None
      end
  end.
Definition auth_keys (keys : IKEKeys) (init : InitResult) : IKEKeys :=
  if RequiredLength (k_Profile keys) =? 0 then ir_Keys init else keys.

Section auth_run.
Context {C : Crypto} (rand_Reader : Source).

Definition random_of (random : option Source) : Source := match random with None => rand_Reader | Some r => r end.

Definition authIV (random : option Source) (profile : KeyMaterialProfile) (override : bytes) : M bytes :=
  if 0 <? len override then
    if negb (len override =? kp_EncryptionBlockSize profile) then mfail ErrInvalidAuthConfig else mret override
  else mread (random_of random) (fun r => RandomIV r None profile).
Definition eapReauthIV (random : option Source) (override : bytes) : M bytes :=
  if 0 <? len override then
    if negb (len override =? aes_BlockSize) then mfail ErrInvalidAuthConfig else mret override
  else mread (random_of random) (fun r => randomBytes r aes_BlockSize).

(** The IV is never empty here, so [ProtectMessage] reads no random octets. *)
Definition protect (init : InitResult) (keys : IKEKeys) (messageID : Z) (inner : list Payload) (iv : bytes) : M bytes :=
  do? r := ProtectMessage zero_reader (authHeader init messageID true) keys true inner iv in mret r.2.

Definition unprotectAuthResponse (raw : bytes) (init : InitResult) (keys : IKEKeys) (messageID : Z)
  : result (Message * list Payload) :=
  let! r := UnprotectMessage raw keys false in
  let '(msg, inner) := r in
  let h := m_Header msg in
  if negb (h_InitiatorSPI h =? ir_InitiatorSPI init) || negb (h_ResponderSPI h =? ir_ResponderSPI init) ||
     negb (h_ExchangeType h =? ExchangeIKE_AUTH) || negb (h_MessageID h =? messageID) || (Z.land (h_Flags h) FlagResponse =? 0)
  then Errorf ErrInvalidAuthResponse else
  let! _ := map_err (Wrap ErrInvalidAuthResponse) (FirstNotifyError inner) in
  Ok (msg, inner).

(** Protect, exchange, unprotect: what every exchange of the file does. *)
Definition exchange_inner (peer : Peer) (init : InitResult) (keys : IKEKeys) (messageID : Z) (payloads : list Payload) (iv : bytes)
  : M (bytes * bytes * list Payload) :=
  let* reqBytes := protect init keys messageID payloads iv in
  let* respBytes := mexchange peer reqBytes in
  do? r := unprotectAuthResponse respBytes init keys messageID in
  mret (reqBytes, respBytes, r.2).

Definition parseChildSAIfPresent (init : InitResult) (inner : list Payload) (localSPI : bytes) (nextMessageID : Z)
    (offeredSA : SecurityAssociation) (offeredTSi offeredTSr : TrafficSelectors) : result (option ChildSAResult) :=
  if negb (hasPayload inner PayloadSA) then Ok None else
  let offered := if 0 <? len (sa_Proposals offeredSA) then Some offeredSA else None in
  let! child := parseChildSAResultWithNonces init inner localSPI (ir_NonceI init) (ir_NonceR init) offered offeredTSi offeredTSr in
  Ok (Some (with_NextMessageID child nextMessageID)).

Definition fullAuthLocalChildSPI (cfg : FullAuthConfig) : M bytes :=
  let first := match sa_Proposals (fc_ChildSA cfg) with [] => [] | p :: _ => pr_SPI p end in
  if 0 <? len first then mret first else
  if 0 <? len (fc_ChildSPI cfg) then
    if negb (len (fc_ChildSPI cfg) =? 4) then mfail ErrInvalidAuthConfig else mret (fc_ChildSPI cfg)
  else mread (random_of (fc_Random cfg)) (fun r => randomBytes r 4).

Definition BuildIKEAuthInitialPayloads (cfg : AuthConfig) : M (list Payload) :=
  do? idPayload := IdentityPayload PayloadIDi (au_InitiatorID cfg) in
  let* childSA :=
    (if len (sa_Proposals (au_ChildSA cfg)) =? 0 then
       let* spi := (if len (au_ChildSPI cfg) =? 0 then mread (random_of (au_Random cfg)) (fun r => randomBytes r 4) else mret (au_ChildSPI cfg)) in
       if negb (len spi =? 4) then mfail ErrInvalidAuthConfig else mret (DefaultESPProposal spi)
     else mlift (childSAWithLocalSPI (au_ChildSA cfg) (au_ChildSPI cfg))) in
  do? saPayload := SecurityAssociationPayload childSA in
  do? tsiPayload := TrafficSelectorsPayload PayloadTSi (trafficSelectorsOrSWuAny (au_TSi cfg)) in
  do? tsrPayload := TrafficSelectorsPayload PayloadTSr (trafficSelectorsOrSWuAny (au_TSr cfg)) in
  do? cfgPayload := ConfigurationPayload (firstConfiguration (au_Configuration cfg) SWuConfigurationRequest) in
  mret [idPayload; saPayload; tsiPayload; tsrPayload; cfgPayload].

Definition RunIKE_AUTH_EAPIdentity (cfg : AuthConfig) : M AuthResult :=
  match au_Transport cfg with
  | None => mfail ErrInvalidAuthConfig
  | Some transport =>
  let keys := auth_keys (au_Keys cfg) (au_Init cfg) in
  do? _ := validateKeySet keys in
  if (ir_InitiatorSPI (au_Init cfg) =? 0) || (ir_ResponderSPI (au_Init cfg) =? 0) then mfail ErrInvalidAuthConfig else
  let messageID := if au_InitialMessageID cfg =? 0 then 1 else au_InitialMessageID cfg in
  let* initialInner := BuildIKEAuthInitialPayloads cfg in
  let* initialIV := authIV (au_Random cfg) (k_Profile keys) (au_InitialIV cfg) in
  let* x := exchange_inner transport (au_Init cfg) keys messageID initialInner initialIV in
  let '(initialReqBytes, initialRespBytes, initialInnerResp) := x in
  do? eap := firstEAPPacketWithRaw initialInnerResp in
  let out request := mkAuthResult initialReqBytes initialRespBytes [] [] initialInnerResp [] request None [] [] (to_u32 (messageID + 1)) in
  match eap with
  | None => mret (out None)
  | Some (eapReq, eapReqRaw) =>
  if negb (pk_Code eapReq =? CodeRequest) || negb (pk_Subtype eapReq =? SubtypeIdentity) then mret (out (Some eapReq)) else
  let permanentIdentity := authPermanentIdentity (au_EAPIdentity cfg) (au_InitiatorID cfg) in
  let identity := identityForEAPRequest eapReq
    (mkIdentityOptions permanentIdentity (au_EAPPseudonym cfg) (au_EAPReauthIdentity cfg)) in
  if len identity =? 0 then mfail ErrInvalidAuthConfig else
  do? identityResponse := BuildIdentityResponse identity eapReq in
  do? identityPacket := Packet_MarshalBinary identityResponse in
  let* identityIV := authIV (au_Random cfg) (k_Profile keys) (au_EAPIdentityIV cfg) in
  let* y := exchange_inner transport (au_Init cfg) keys (to_u32 (messageID + 1)) [EAPPayload identityPacket] identityIV in
  let '(identityReqBytes, identityRespBytes, identityInnerResp) := y in
  do? nextEAP := firstEAPPacket identityInnerResp in
  mret (mkAuthResult initialReqBytes initialRespBytes identityReqBytes identityRespBytes initialInnerResp identityInnerResp
    (Some eapReq) nextEAP identity [eapReqRaw; identityPacket] (to_u32 (messageID + 2)))
  end
  end.

Definition runIKEAuthIdentityExchange (cfg : identityExchangeConfig) : M EAPIdentityExchange :=
  match ic_Transport' cfg with
  | None => mfail ErrInvalidAuthConfig
  | Some transport =>
  if ic_MessageID cfg =? 0 then mfail ErrInvalidAuthConfig else
  if negb (pk_Code (ic_Request cfg) =? CodeRequest) || negb (pk_Subtype (ic_Request cfg) =? SubtypeIdentity) then mfail ErrInvalidAuthConfig else
  let identity := TrimSpace (ic_Identity cfg) in
  if len identity =? 0 then mfail ErrInvalidAuthConfig else
  let keys := auth_keys (ic_Keys cfg) (ic_Init cfg) in
  do? _ := validateKeySet keys in
  do? requestRaw := (if len (ic_RequestRaw cfg) =? 0 then Packet_MarshalBinary (ic_Request cfg) else Ok (ic_RequestRaw cfg)) in
  do? response := BuildIdentityResponse identity (ic_Request cfg) in
  do? raw := Packet_MarshalBinary response in
  let* iv := authIV (ic_Random' cfg) (k_Profile keys) [] in
  let* x := exchange_inner transport (ic_Init cfg) keys (ic_MessageID cfg) [EAPPayload raw] iv in
  let '(reqBytes, respBytes, inner) := x in
  do? next := firstEAPPacket inner in
  mret (mkIdentityExchange (ic_Request cfg) response identity reqBytes respBytes inner next [requestRaw; raw] (to_u32 (ic_MessageID cfg + 1)))
  end.

Definition buildAKAControlResponse (request : Packet) (keys : EapKeys.Keys) : bool * result Packet :=
  match BuildNotificationResponse request with
  | (handled, Err err) =>
      if errors_Is err ErrInvalidKeyMaterial && (0 <? len (ks_KAut keys))
      then BuildAuthenticatedNotificationResponse request (ks_KAut keys)
      else (handled, Err err)
  | (handled, Ok response) =>
      if handled then (true, Ok response) else
      if (pk_Code request =? CodeRequest) && negb (pk_Subtype request =? SubtypeChallenge) && negb (pk_Subtype request =? SubtypeIdentity)
      then (true, BuildClientErrorResponse request ClientErrorUnableToProcessPacket)
      else (false, Ok zeroPacket)
  | (handled, r) => (handled, r)
  end.

(** The turns of the loop; [n] are left. *)
Fixpoint followups_loop (n : nat) (transport : Peer) (cfg : AKAChallengeConfig) (keys : IKEKeys) (eapKeys : EapKeys.Keys)
    (out : akaControlFollowups) : M akaControlFollowups :=
  do? next := firstEAPPacket (fu_FinalInner out) in
  match next with
  | None => mret out
  | Some next =>
  let '(handled, r) := buildAKAControlResponse next eapKeys in
  do? response := r in
  if negb handled then mret out else
  match n with
  | O => mfail ErrInvalidAuthResponse
  | S n' =>
      let notifications := if pk_Subtype response =? SubtypeNotification then fu_Notifications out ++ [next] else fu_Notifications out in
      let clientError := if pk_Subtype response =? SubtypeClientError then true else fu_ClientError out in
      do? raw := Packet_MarshalBinary response in
      let* iv := authIV (ak_Random cfg) (k_Profile keys) [] in
      let* x := exchange_inner transport (ak_Init cfg) keys (fu_NextMessageID out) [EAPPayload raw] iv in
      let '(reqBytes, respBytes, inner) := x in
      followups_loop n' transport cfg keys eapKeys
        (mkFollowups (fu_RequestBytes out ++ [reqBytes]) (fu_ResponseBytes out ++ [respBytes]) inner
           (to_u32 (fu_NextMessageID out + 1)) notifications clientError)
  end
  end.
Definition runAKAControlFollowups (transport : Peer) (cfg : AKAChallengeConfig) (keys : IKEKeys) (initialInner : list Payload)
    (messageID : Z) (eapKeys : EapKeys.Keys) : M akaControlFollowups :=
  followups_loop maxAKAControlFollowups transport cfg keys eapKeys (mkFollowups [] [] initialInner messageID [] false).

(** The variables of [runIKE_AUTH_AKAChallenge] that its first part sets. *)
Record akaAnswer := mkAnswer {
  an_eapResp : Packet;
  an_eapKeys : EapKeys.Keys;
  an_syncFailure : bool;
  an_authFailure : bool;
  an_kdfNegotiated : bool;
  an_clientError : bool;
  an_reauthenticated : bool;
  an_reauthCounter : Z;
  an_reauthCounterTooSmall : bool;
  an_notifications : list Packet;
  an_encryptedAttributes : list Attribute;
  an_identityState : EncryptedIdentityState
}.
Definition plain_answer (response : Packet) (kdfNegotiated clientError : bool) (notifications : list Packet) : akaAnswer :=
  mkAnswer response EapChallenge.zeroKeys false false kdfNegotiated clientError false 0 false notifications [] (mkIdentityState [] []).

(** The answer to a reauthentication request. *)
Definition answer_reauthentication (cfg : AKAChallengeConfig) : M akaAnswer :=
  do? parsed := ParseReauthenticationRequest (ak_Request cfg) (ak_EAPKeys cfg) in
  let* eapIV := eapReauthIV (ak_Random cfg) (ak_EAPReauthIV cfg) in
  let answer r k again tooSmall := mkAnswer r k false false false false again (rq_Counter parsed) tooSmall []
    (rq_EncryptedAttributes parsed) (rq_IdentityState parsed) in
  if ak_EAPReauthCounterOK cfg && (rq_Counter parsed <=? ak_EAPReauthCounter cfg) then
    do? r := BuildReauthenticationCounterTooSmallResponse (ak_Request cfg) (ak_EAPKeys cfg) eapIV in
    mret (answer r (ak_EAPKeys cfg) false true)
  else
    let identity := TrimSpace (ak_Identity cfg) in
    if len identity =? 0 then mfail ErrInvalidAuthConfig else
    do? r := BuildReauthenticationResponse identity (ak_Request cfg) (ak_EAPKeys cfg) eapIV in
    mret (answer r.1 r.2 true false).

(** The answer the SIM computes. *)
Definition answer_challenge (cfg : AKAChallengeConfig) : M akaAnswer :=
  match ak_SIM cfg with
  | None => mfail ErrInvalidAuthConfig
  | Some sim =>
      let* calculate := mlog sim in
      do? challenge := map_err (fun err =>
          if (len (TrimSpace (ak_Identity cfg)) =? 0) && errors_Is err ErrInvalidKeyMaterial then Sentinel ErrInvalidAuthConfig else err)
        (BuildChallengeResponseFromProvider (ak_Identity cfg) (ak_Request cfg) calculate (ak_IdentityTranscript cfg)) in
      let answer attrs state := mkAnswer (EapChallenge.cr_Response challenge) (EapChallenge.cr_Keys challenge)
        (EapChallenge.cr_SyncFailure challenge) (EapChallenge.cr_AuthFailure challenge) false false false 0 false [] attrs state in
      if negb (EapChallenge.cr_SyncFailure challenge) && negb (EapChallenge.cr_AuthFailure challenge) then
        do? attrs := (DecryptChallengeEncryptedAttributes (ak_Request cfg) (EapChallenge.cr_Keys challenge)).2 in
        if 0 <? len attrs then do? state := IdentityStateFromAttributes attrs in mret (answer attrs state)
        else mret (answer [] (mkIdentityState [] []))
      else mret (answer [] (mkIdentityState [] []))
  end.

Definition answer_request (cfg : AKAChallengeConfig) : M akaAnswer :=
  if (pk_Code (ak_Request cfg) =? CodeRequest) && (pk_Subtype (ak_Request cfg) =? SubtypeReauthentication) && (0 <? len (ks_KAut (ak_EAPKeys cfg)))
  then answer_reauthentication cfg else
  let '(handled, r) := buildAKAControlResponse (ak_Request cfg) (ak_EAPKeys cfg) in
  do? response := r in
  if handled then
    mret (plain_answer response false (pk_Subtype response =? SubtypeClientError)
      (if pk_Subtype response =? SubtypeNotification then [ak_Request cfg] else []))
  else
  do? negotiation := BuildAKAPrimeKDFNegotiationResponse (ak_Request cfg) in
  match negotiation with
  | Some response => mret (plain_answer response true false [])
  | None => answer_challenge cfg
  end.

Definition runIKE_AUTH_AKAChallenge (cfg : AKAChallengeConfig) (offeredChildSA : SecurityAssociation)
    (offeredTSi offeredTSr : TrafficSelectors) : M AKAChallengeResult :=
  match ak_Transport cfg with
  | None => mfail ErrInvalidAuthConfig
  | Some transport =>
  let keys := auth_keys (ak_Keys cfg) (ak_Init cfg) in
  do? _ := validateKeySet keys in
  if ak_MessageID cfg =? 0 then mfail ErrInvalidAuthConfig else
  let* an := answer_request cfg in
  do? eapRaw := Packet_MarshalBinary (an_eapResp an) in
  let* iv := authIV (ak_Random cfg) (k_Profile keys) (ak_IV cfg) in
  let* x := exchange_inner transport (ak_Init cfg) keys (ak_MessageID cfg) [EAPPayload eapRaw] iv in
  let '(reqBytes, respBytes, inner) := x in
  let controlKeys := if len (ks_KAut (an_eapKeys an)) =? 0 then ak_EAPKeys cfg else an_eapKeys an in
  let* followups := runAKAControlFollowups transport cfg keys inner (to_u32 (ak_MessageID cfg + 1)) controlKeys in
  let followed := 0 <? len (fu_ResponseBytes followups) in
  let finalRespBytes := if followed then List.last (fu_ResponseBytes followups) [] else respBytes in
  let finalInner := if followed then fu_FinalInner followups else inner in
  let nextMessageID := if followed then fu_NextMessageID followups else to_u32 (ak_MessageID cfg + 1) in
  let clientError := if followed then an_clientError an || fu_ClientError followups else an_clientError an in
  do? next := firstEAPPacket finalInner in
  do? child := parseChildSAIfPresent (ak_Init cfg) finalInner (ak_ChildSPI cfg) nextMessageID offeredChildSA offeredTSi offeredTSr in
  mret (mkAKAChallengeResult reqBytes respBytes inner (an_eapResp an) next controlKeys (an_encryptedAttributes an)
    (es_NextPseudonym (an_identityState an)) (es_NextReauthID (an_identityState an)) (an_reauthenticated an) (an_reauthCounter an)
    (an_reauthCounterTooSmall an) (an_notifications an ++ fu_Notifications followups) clientError child (an_syncFailure an)
    (an_authFailure an) (an_kdfNegotiated an) nextMessageID (fu_RequestBytes followups) (fu_ResponseBytes followups)
    finalRespBytes finalInner)
  end.
Definition RunIKE_AUTH_AKAChallenge (cfg : AKAChallengeConfig) : M AKAChallengeResult :=
  let offeredChildSA := if 0 <? len (ak_ChildSPI cfg) then DefaultESPProposal (ak_ChildSPI cfg) else mkSA [] in
  runIKE_AUTH_AKAChallenge cfg offeredChildSA (ak_TSi cfg) (ak_TSr cfg).

(** ** The loop *)
Definition runIKEAuthEAPFinal (transport : Peer) (cfg : FullAuthConfig) (current : FullAuthResult) (localChildSPI : bytes)
    (offeredChildSA : SecurityAssociation) (offeredTSi offeredTSr : TrafficSelectors) : M (ChildSAResult * bytes * list Payload) :=
  let keys := auth_keys (fc_Keys cfg) (fc_Init cfg) in
  if len (ks_MSK (fr_EAPKeys current)) =? 0 then mfail ErrInvalidAuthResponse else
  do? authData := eapSharedKeyAUTH (fc_Init cfg) keys (fc_InitiatorID cfg) (ks_MSK (fr_EAPKeys current)) true in
  do? authPayload := AuthenticationPayload AuthMethodSharedKeyMIC authData in
  let* iv := authIV (fc_Random cfg) (k_Profile keys) [] in
  let* x := exchange_inner transport (fc_Init cfg) keys (fr_NextMessageID current) [authPayload] iv in
  let '(requestBytes, responseBytes, inner) := x in
  do? responderID := firstIKEAuthIdentity (ar_InitialResponseInner (fr_Auth current)) PayloadIDr in
  do? responderID := (match responderID with None => firstIKEAuthIdentity inner PayloadIDr | Some id => Ok (Some id) end) in
  match responderID, firstIKEAuthPayload inner PayloadAUTH with
  | None, _ => mfail ErrInvalidAuthResponse
  | _, None => mfail ErrInvalidAuthResponse
  | Some responderID, Some responderAUTH =>
      do? _ := map_err (Wrap ErrInvalidAuthResponse)
        (verifyEAPSharedKeyAUTH (fc_Init cfg) keys responderID (ks_MSK (fr_EAPKeys current)) responderAUTH false) in
      do? child := parseChildSAIfPresent (fc_Init cfg) inner localChildSPI (to_u32 (fr_NextMessageID current + 1)) offeredChildSA offeredTSi offeredTSr in
      match child with
      | None => mfail ErrInvalidAuthResponse
      | Some child => mret (child, responseBytes, inner)
      end
  end.

(** Updates of the result. *)
Definition fr_with_last (out : FullAuthResult) (last : option Packet) : FullAuthResult :=
  mkFullResult (fr_Auth out) (fr_IdentityExchanges out) (fr_AKAChallenges out) (fr_ChildSA out) (fr_EAPKeys out) last
    (fr_EAPNotifications out) (fr_EAPClientError out) (fr_EAPNextPseudonym out) (fr_EAPNextReauthID out) (fr_EAPReauthenticated out)
    (fr_EAPReauthCounter out) (fr_EAPReauthCounterTooSmall out) (fr_SyncFailure out) (fr_AuthFailure out) (fr_KDFNegotiations out)
    (fr_NextMessageID out) (fr_FinalResponseBytes out) (fr_FinalResponseInner out).
Definition fr_with_child (out : FullAuthResult) (child : ChildSAResult) : FullAuthResult :=
  mkFullResult (fr_Auth out) (fr_IdentityExchanges out) (fr_AKAChallenges out) (Some child) (fr_EAPKeys out) (fr_EAPLast out)
    (fr_EAPNotifications out) (fr_EAPClientError out) (fr_EAPNextPseudonym out) (fr_EAPNextReauthID out) (fr_EAPReauthenticated out)
    (fr_EAPReauthCounter out) (fr_EAPReauthCounterTooSmall out) (fr_SyncFailure out) (fr_AuthFailure out) (fr_KDFNegotiations out)
    (fr_NextMessageID out) (fr_FinalResponseBytes out) (fr_FinalResponseInner out).
Definition fr_with_response (out : FullAuthResult) (exchanges : list EAPIdentityExchange) (next : Z) (b : bytes) (inner : list Payload) : FullAuthResult :=
  mkFullResult (fr_Auth out) exchanges (fr_AKAChallenges out) (fr_ChildSA out) (fr_EAPKeys out) (fr_EAPLast out)
    (fr_EAPNotifications out) (fr_EAPClientError out) (fr_EAPNextPseudonym out) (fr_EAPNextReauthID out) (fr_EAPReauthenticated out)
    (fr_EAPReauthCounter out) (fr_EAPReauthCounterTooSmall out) (fr_SyncFailure out) (fr_AuthFailure out) (fr_KDFNegotiations out)
    next b inner.
Definition fr_with_challenge (out : FullAuthResult) (c : AKAChallengeResult) : FullAuthResult :=
  mkFullResult (fr_Auth out) (fr_IdentityExchanges out) (fr_AKAChallenges out ++ [c]) (fr_ChildSA out)
    (if 0 <? len (ks_KAut (ac_EAPKeys c)) then ac_EAPKeys c else fr_EAPKeys out) (fr_EAPLast out)
    (fr_EAPNotifications out ++ ac_EAPNotifications c) (fr_EAPClientError out || ac_EAPClientError c)
    (if negb (len (ac_EAPNextPseudonym c) =? 0) then ac_EAPNextPseudonym c else fr_EAPNextPseudonym out)
    (if negb (len (ac_EAPNextReauthID c) =? 0) then ac_EAPNextReauthID c else fr_EAPNextReauthID out)
    (fr_EAPReauthenticated out || ac_EAPReauthenticated c)
    (if negb (ac_EAPReauthCounter c =? 0) then ac_EAPReauthCounter c else fr_EAPReauthCounter out)
    (fr_EAPReauthCounterTooSmall out || ac_EAPReauthCounterTooSmall c) (fr_SyncFailure out || ac_SyncFailure c)
    (fr_AuthFailure out || ac_AuthFailure c) (if ac_KDFNegotiated c then fr_KDFNegotiations out + 1 else fr_KDFNegotiations out)
    (ac_NextMessageID c) (ac_FinalResponseBytes c) (ac_FinalResponseInner c).

(** What the loop holds fixed. *)
Record fullContext := mkContext {
  fx_localChildSPI : bytes;
  fx_offeredChildSA : SecurityAssociation;
  fx_offeredTSi : TrafficSelectors;
  fx_offeredTSr : TrafficSelectors
}.
Definition child_if_present (cfg : FullAuthConfig) (fx : fullContext) (inner : list Payload) (nextMessageID : Z) : result (option ChildSAResult) :=
  parseChildSAIfPresent (fc_Init cfg) inner (fx_localChildSPI fx) nextMessageID (fx_offeredChildSA fx) (fx_offeredTSi fx) (fx_offeredTSr fx).

Fixpoint full_auth_loop (n : nat) (transport : Peer) (cfg : FullAuthConfig) (fx : fullContext) (identity currentFullAuthIdentity : bytes)
    (identityTranscript : list bytes) (next : option Packet) (out : FullAuthResult) : M FullAuthResult :=
  match n with
  | O => mfail ErrInvalidAuthResponse
  | S n' =>
  match next with
  | None => mfail ErrInvalidAuthResponse
  | Some next =>
  let out := fr_with_last out (Some next) in
  if pk_Code next =? CodeSuccess then
    do? child := child_if_present cfg fx (fr_FinalResponseInner out) (fr_NextMessageID out) in
    match child with
    | Some child => mret (fr_with_child out child)
    | None =>
        let* r := runIKEAuthEAPFinal transport cfg out (fx_localChildSPI fx) (fx_offeredChildSA fx) (fx_offeredTSi fx) (fx_offeredTSr fx) in
        let '(child, responseBytes, responseInner) := r in
        mret (fr_with_response (fr_with_child out child) (fr_IdentityExchanges out) (to_u32 (fr_NextMessageID out + 1)) responseBytes responseInner)
    end
  else if pk_Code next =? CodeFailure then mfail ErrInvalidAuthResponse
  else if negb (pk_Code next =? CodeRequest) then mfail ErrInvalidAuthResponse
  else if pk_Subtype next =? SubtypeIdentity then
    do? raw := firstEAPPacketWithRaw (fr_FinalResponseInner out) in
    let requestRaw := match raw with Some (_, b) => b | None => [] end in
    let exchangeIdentity := identityForEAPRequest next
      (mkIdentityOptions identity (firstIKEAuthNonEmpty [fr_EAPNextPseudonym out; fc_EAPPseudonym cfg]) (fc_EAPReauthIdentity cfg)) in
    let* exchange := runIKEAuthIdentityExchange (mkIdentityConfig (fc_Transport cfg) (fc_Init cfg) (fc_Keys cfg) (fc_Random cfg)
      next requestRaw exchangeIdentity (fr_NextMessageID out)) in
    let out := fr_with_response out (fr_IdentityExchanges out ++ [exchange]) (ix_NextMessageID exchange) (ix_ResponseBytes exchange) (ix_ResponseInner exchange) in
    do? child := child_if_present cfg fx (fr_FinalResponseInner out) (fr_NextMessageID out) in
    match child with
    | Some child => mret (fr_with_child out child)
    | None => full_auth_loop n' transport cfg fx identity (ix_Identity exchange) (identityTranscript ++ ix_Transcript exchange) (ix_EAPNext exchange) out
    end
  else
    let challengeIdentity :=
      if (pk_Subtype next =? SubtypeReauthentication) && negb (len (TrimSpace (fc_EAPReauthIdentity cfg)) =? 0)
      then TrimSpace (fc_EAPReauthIdentity cfg) else currentFullAuthIdentity in
    let* challenge := runIKE_AUTH_AKAChallenge (mkAKAConfig (fc_Transport cfg) (fc_Init cfg) (fc_Keys cfg) (fc_SIM cfg) (fr_EAPKeys out)
      challengeIdentity next identityTranscript (fx_localChildSPI fx) (fx_offeredTSi fx) (fx_offeredTSr fx) (fr_NextMessageID out)
      (fc_Random cfg) [] (fc_EAPReauthIV cfg) (fc_EAPReauthCounter cfg) (fc_EAPReauthCounterOK cfg))
      (fx_offeredChildSA fx) (fx_offeredTSi fx) (fx_offeredTSr fx) in
    let out := fr_with_challenge out challenge in
    match ac_ChildSA challenge with
    | Some child =>
        let out := fr_with_child out child in
        mret (match ac_EAPNext challenge with Some p => fr_with_last out (Some p) | None => out end)
    | None => full_auth_loop n' transport cfg fx identity currentFullAuthIdentity identityTranscript (ac_EAPNext challenge) out
    end
  end
  end.

Definition RunIKE_AUTH_Full (cfg : FullAuthConfig) : M FullAuthResult :=
  let* localChildSPI := fullAuthLocalChildSPI cfg in
  let* auth := RunIKE_AUTH_EAPIdentity (mkAuthConfig (fc_Transport cfg) (fc_Init cfg) (fc_Keys cfg) (fc_InitiatorID cfg)
    (fc_EAPIdentity cfg) (fc_EAPPseudonym cfg) (fc_EAPReauthIdentity cfg) (fc_ChildSA cfg) localChildSPI (fc_TSi cfg) (fc_TSr cfg)
    (fc_Configuration cfg) (fc_Random cfg) (fc_InitialIV cfg) (fc_EAPIdentityIV cfg) (fc_InitialMessageID cfg)) in
  let '(finalInner, finalBytes) := authFinalResponse auth in
  let out := mkFullResult auth [] [] None (fc_EAPKeys cfg) None [] false [] [] false 0 false false false 0
    (ar_NextMessageID auth) finalBytes finalInner in
  do? offeredChildSA := authOfferedChildSA (fc_ChildSA cfg) localChildSPI in
  let fx := mkContext localChildSPI offeredChildSA (trafficSelectorsOrSWuAny (fc_TSi cfg)) (trafficSelectorsOrSWuAny (fc_TSr cfg)) in
  do? child := child_if_present cfg fx finalInner (fr_NextMessageID out) in
  match child with
  | Some child => mret (fr_with_child out child)
  | None =>
      match fc_Transport cfg with
      | None => mfail ErrInvalidAuthConfig
      | Some transport =>
          let identity := authPermanentIdentity (fc_EAPIdentity cfg) (fc_InitiatorID cfg) in
          full_auth_loop maxFullAuthEAPExchanges transport cfg fx identity (firstIKEAuthNonEmpty [ar_EAPIdentityUsed auth; identity])
            (ar_IdentityTranscript auth) (authNextEAP auth) out
      end
  end.
End auth_run.
