(* ===== verification/AuthSpec.v ===== *)
(** * What the runs of IKE_AUTH guarantee

    [trail] is the step relation of the exchanges of one IKE_AUTH run; the
    lemmas give, for each function of [Auth], the trail its run leaves; the
    theorems bound the whole run and say what an accepted child SA rests on. *)
From S2P Require Import Prelude GoStrings Errors Crypto Types Codec Notify Sa Keys Sk Dh World Session EapAka EapKeys EapMac EapCrypt.
From S2P Require Import EapReauth EapChallenge ChildSa Init Auth.
Open Scope world_scope.

(** ** The answers are well formed *)
Lemma identity_state_safe attrs : Forall Attribute_ok attrs ->
  safe (IdentityStateFromAttributes attrs) (fun s => bytes_ok (es_NextPseudonym s) /\ bytes_ok (es_NextReauthID s)).
Proof.
  intros Ha. unfold IdentityStateFromAttributes. assert (H0 : bytes_ok (es_NextPseudonym (mkIdentityState [] [])) /\ bytes_ok (es_NextReauthID (mkIdentityState [] []))) by (split; constructor).
  revert H0. generalize (mkIdentityState [] []). induction Ha as [|a attrs [_ Hd] _ IH]; intros out [H1 H2]; [done|].
  cbn [identity_state_loop]. unfold NextPseudonymValue, NextReauthIDValue.
  case_match; [|case_match; [|by apply IH]]; (eapply safe_call; [by apply VariableValue_safe|]; intros v Hv; by apply IH).
Qed.

Section packets.
Context {C : Crypto} `{!CryptoLaws C}.

Lemma response_ok request ty st attrs :
  Packet_ok request -> is_u8 ty -> is_u8 st -> Forall Attribute_ok attrs ->
  Packet_ok (mkPacket CodeResponse (pk_Identifier request) ty st attrs []).
Proof. intros (_ & Hi & _) ? ? ?. unfold Packet_ok. cbn. split_and!; try done. constructor. Qed.
Lemma eap_type_ok request : Packet_ok request -> is_u8 (eap_type request).
Proof. intros (_ & _ & ? & _). unfold eap_type. case_match; [by_decide|done]. Qed.

Lemma BuildClientErrorResponse_safe request code : Packet_ok request -> safe (BuildClientErrorResponse request code) Packet_ok.
Proof.
  intros Hp. unfold BuildClientErrorResponse. do 2 (case_match; [done|]). apply response_ok; [done|by apply eap_type_ok|by_decide|].
  constructor; [|constructor]. split; [by_decide|apply bytes_ok_be_bytes].
Qed.
Lemma BuildIdentityResponse_safe identity request : Packet_ok request -> bytes_ok identity -> safe (BuildIdentityResponse identity request) Packet_ok.
Proof.
  intros Hp Hi. unfold BuildIdentityResponse. do 2 (case_match; [done|]). cbv zeta. case_match; [done|].
  assert (Ha : Attribute_ok (IdentityAttribute (TrimSpace identity))).
  { split; [by_decide|]. pose proof (TrimSpace_ok _ Hi). apply bytes_ok_app_2; [apply bytes_ok_be_bytes|done]. }
  pose proof Hp as (_ & _ & Het & _ & Hat & _).
  destruct (FindAttribute _ _) as [v|] eqn:Hf.
  - apply FindAttribute_ok in Hf as [[_ Hd] _]; [|done]. pose proof (VersionListValue_safe v Hd) as Hv.
    destruct (VersionListValue v) as [vs| | |]; try done; [|by apply BuildClientErrorResponse_safe]. case_match; [by apply BuildClientErrorResponse_safe|].
    apply response_ok; [done..|by_decide|]. constructor; [done|]. constructor; [|constructor]. split; [by_decide|apply bytes_ok_be_bytes].
  - apply response_ok; [done..|by_decide|]. by constructor.
Qed.

Lemma calculatePacketMAC_ok ty kAut raw extra mac : calculatePacketMAC ty kAut raw extra = Ok mac -> bytes_ok mac.
Proof.
  rewrite calculatePacketMAC_unfold. case_match; [|done]. intros (z & _ & [= <-])%bind_ok. apply bytes_ok_take, hmac_ok.
Qed.
Lemma buildNotificationResponse_safe request kAut authenticated :
  Packet_ok request -> safe (buildNotificationResponse request kAut authenticated).2
    (fun r => (buildNotificationResponse request kAut authenticated).1 = true -> Packet_ok r).
Proof.
  intros Hp. unfold buildNotificationResponse. case_match; [done|]. cbn [fst snd]. do 2 (case_match; [done|]).
  pose proof Hp as (_ & _ & _ & _ & Ha & _). destruct (FindAttribute _ _) as [a|] eqn:Hf; [|done].
  apply FindAttribute_ok in Hf as [[_ Hd] _]; [|done]. unfold NotificationValue.
  eapply safe_call; [by apply directUint16Value_safe|]. intros code _. cbv zeta.
  assert (Hr : forall attrs, Forall Attribute_ok attrs ->
    Packet_ok (mkPacket CodeResponse (pk_Identifier request) (eap_type request) SubtypeNotification attrs [])).
  { intros attrs Hat. apply response_ok; [done|by apply eap_type_ok|by_decide|done]. }
  case_match; [|intros _; apply Hr; constructor]. case_match; [done|].
  eapply safe_call; [by apply marshal_packet_safe|]. intros raw Hraw. unfold verifyChallengeMAC, calculateChallengeMAC.
  eapply (safe_call _ _ (fun _ => True)); [exact (verifyPacketMAC_returns _ kAut raw [] Hraw)|]. intros [] _.
  eapply safe_call; [apply marshal_packet_safe, Hr; constructor; [apply MACAttribute_ok; constructor|constructor]|]. intros raw' Hraw'.
  eapply (safe_call _ _ bytes_ok).
  { pose proof (calculatePacketMAC_returns (pk_EapType (mkPacket CodeResponse (pk_Identifier request) (eap_type request) SubtypeNotification [] [])) kAut raw' [] Hraw') as Hm.
    destruct (calculatePacketMAC _ kAut raw' []) as [mac| | |] eqn:E; try done. by apply calculatePacketMAC_ok in E. }
  intros mac Hmac _. apply Hr. constructor; [by apply MACAttribute_ok|constructor].
Qed.
Lemma buildAKAControlResponse_safe request keys :
  Packet_ok request -> safe (buildAKAControlResponse request keys).2 (fun r => (buildAKAControlResponse request keys).1 = true -> Packet_ok r).
Proof.
  intros Hp. unfold buildAKAControlResponse, BuildNotificationResponse, BuildAuthenticatedNotificationResponse.
  pose proof (buildNotificationResponse_safe request [] false Hp) as Hn.
  destruct (buildNotificationResponse request [] false) as [handled [r|e| |]]; cbn [fst snd] in *; try done.
  - destruct handled; [done|]. case_match; [|done]. cbn [fst snd]. eapply safe_mono; [by apply BuildClientErrorResponse_safe|]. done.
  - case_match; [|done]. by apply buildNotificationResponse_safe.
Qed.
Lemma kdf_negotiation_safe request : Packet_ok request ->
  safe (BuildAKAPrimeKDFNegotiationResponse request) (fun r => forall p, r = Some p -> Packet_ok p).
Proof.
  intros Hp. unfold BuildAKAPrimeKDFNegotiationResponse. do 2 (case_match; [done|]).
  pose proof Hp as (_ & _ & _ & _ & Ha & _). pose proof (kdfValues_safe _ [] Ha (Forall_nil_2 _)) as Hk. unfold kdfValues.
  destruct (kdfValues_loop _ []) as [[|kdf l]| | |]; try done. cbn [bind]. case_match; [done|]. case_match; [|done].
  intros p [= <-]. apply response_ok; [done|by_decide|by_decide|]. constructor; [|constructor]. split; [by_decide|apply bytes_ok_be_bytes].
Qed.

Lemma challenge_packet_ok identity request aka packets response keys :
  Packet_ok request -> bytes_ok (aka_RES aka) ->
  BuildChallengeResponseWithCheckcode identity request aka packets = Ok (response, keys) -> Packet_ok response.
Proof.
  intros Hp Hr. rewrite BuildChallengeResponse_unfold. do 2 (case_match; [done|]).
  intros ([] & _ & B)%bind_ok. apply bind_ok in B as ([k kdf] & _ & B). cbn [fst snd] in B.
  apply bind_ok in B as (ch & _ & B). apply bind_ok in B as ([] & _ & B); [done|].
  apply bind_ok in B as (cc & _ & B). cbv zeta in B. apply bind_ok in B as (r & Hbuild & [= <- <-]).
  destruct (complete_response request (response_attrs request aka kdf cc packets) (ks_KAut k) r (response_attrs_no_mac _ _ _ _ _) Hbuild)
    as (mac & raw & _ & Hmb & -> & _). pose proof Hp as (_ & _ & Het & _). apply response_ok; [done|exact Het|by_decide|].
  apply Forall_app. split; [by apply response_attrs_ok|]. constructor; [by apply MACAttribute_ok|constructor].
Qed.

(** What a SIM hands over: octets. *)
Definition sim_answer_ok (r : AKAResult * option error) : Prop :=
  bytes_ok (aka_RES r.1) /\ (forall cause, r.2 = Some cause -> bytes_ok (syncFailureAUTS r.1 cause)).

Lemma BuildAuthenticationRejectResponse_safe request : Packet_ok request -> safe (BuildAuthenticationRejectResponse request) Packet_ok.
Proof.
  intros Hp. unfold BuildAuthenticationRejectResponse. do 2 (case_match; [done|]). apply response_ok; [done|by apply eap_type_ok|by_decide|constructor].
Qed.
Lemma provider_response_safe identity request CalculateAKA packets :
  Packet_ok request -> (forall rand autn, sim_answer_ok (CalculateAKA rand autn)) ->
  safe (BuildChallengeResponseFromProvider identity request CalculateAKA packets) (fun r => Packet_ok (EapChallenge.cr_Response r)).
Proof.
  intros Hp Hsim. unfold BuildChallengeResponseFromProvider.
  eapply (safe_call _ _ (fun _ => True)); [exact (ChallengeRANDAndAUTN_returns request Hp)|]. intros [rand autn] _.
  specialize (Hsim rand autn). destruct (CalculateAKA rand autn) as [aka [cause|]]; destruct Hsim as [Hres Hauts]; cbn [fst snd] in *.
  - specialize (Hauts cause eq_refl). unfold BuildAKAFailureResponse.
    destruct (errors_Is cause ErrSyncFailure); [|destruct (errors_Is cause ErrAuthFailure); [|done]].
    + unfold BuildSynchronizationFailureResponse. do 3 (case_match; [done|]). cbn [bind]. cbv zeta. cbn [negb safe EapChallenge.cr_Response].
      pose proof Hp as (_ & _ & Het & _ & Ha & _). apply response_ok; [done|exact Het|by_decide|].
      assert (Hauts_ok : Attribute_ok (AUTSAttribute (syncFailureAUTS aka cause))).
      { split; [by_decide|]. apply (bytes_ok_app_2 [0; 0]); [by_decide|exact Hauts]. }
      case_match; [|by constructor]. constructor; [exact Hauts_ok|]. exact (of_type_ok AttributeKDF _ Ha).
    + eapply safe_call; [by apply BuildAuthenticationRejectResponse_safe|]. intros p Hpk. exact Hpk.
  - case_match; [done|]. pose proof (BuildChallengeResponse_returns (TrimSpace identity) request aka packets Hp) as Hr.
    destruct (BuildChallengeResponseWithCheckcode _ _ _ _) as [[response keys]|e| |] eqn:E; try done.
    + cbn. by eapply challenge_packet_ok.
    + case_match; [|done]. eapply safe_call; [by apply BuildAuthenticationRejectResponse_safe|]. intros p Hpk. exact Hpk.
Qed.

Lemma reauth_packet_ok request keys iv parsed tooSmall response :
  Packet_ok request -> bytes_ok iv -> is_u16 (rq_Counter parsed) ->
  buildReauthenticationResponsePacket request keys iv parsed (response_plain tooSmall (rq_Counter parsed)) = Ok response -> Packet_ok response.
Proof.
  intros Hp Hib Hc Hr. destruct (buildReauthenticationResponsePacket_spec _ _ _ _ _ _ Hr) as (c & mac & raw & He & Hk & Hi & Hm & Hmb & -> & _).
  destruct (response_plain_spec tooSmall (rq_Counter parsed) Hc) as (Hf & Hok & Hne & Hno & _).
  destruct (encrypt_decrypt (ks_KEncr keys) iv (response_plain tooSmall (rq_Counter parsed))) as (c' & He' & _ & _ & Hcb & _); [done..|].
  rewrite He in He'. injection He' as <-. apply response_ok; [done|by apply eap_type_ok|by_decide|].
  apply Forall_app. split; [|constructor; [by apply MACAttribute_ok|constructor]]. unfold response_clear.
  constructor; [split; [by_decide|]; apply (bytes_ok_app_2 [0; 0]); [by_decide|exact Hib]|].
  constructor; [split; [by_decide|]; apply (bytes_ok_app_2 [0; 0]); [by_decide|exact Hcb]|].
  destruct (FindAttribute _ _); [constructor; [by_decide|constructor]|constructor].
Qed.

Lemma reauth_request_state request keys parsed :
  Packet_ok request -> ParseReauthenticationRequest request keys = Ok parsed ->
  is_u16 (rq_Counter parsed) /\ bytes_ok (es_NextPseudonym (rq_IdentityState parsed)).
Proof.
  intros Hp H. pose proof (ParseReauthenticationRequest_safe request keys Hp) as Hs. rewrite H in Hs. destruct Hs as (Hc & _). split; [exact Hc|].
  unfold ParseReauthenticationRequest in H. do 2 (case_match; [done|]). apply bind_ok in H as (u1 & _ & H).
  apply bind_ok in H as (raw & _ & H). apply bind_ok in H as (u2 & _ & H). apply bind_ok in H as (attrs & Ha & H).
  apply bind_ok in H as (c & _ & H). apply bind_ok in H as (n & _ & H). apply bind_ok in H as (st & Hst & [= <-]). cbn.
  pose proof (DecryptPacketEncryptedAttributes_safe request keys Hp) as Hd. unfold present in Ha.
  apply bind_ok in Ha as (attrs' & Ha & Hb). rewrite Ha in Hd. case_match; [done|]. injection Hb as <-. cbn in Hd.
  pose proof (identity_state_safe attrs' Hd) as Hi. rewrite Hst in Hi. apply Hi.
Qed.
End packets.

(** ** The exchanges of a run *)
Section run.
Context {C : Crypto} `{!CryptoLaws C} (rand_Reader : Source) (Hrand : source_ok rand_Reader).

Definition random_ok (random : option Source) : Prop := match random with Some r => source_ok r | None => True end.
Lemma random_of_ok random : random_ok random -> source_ok (random_of rand_Reader random).
Proof. by destruct random. Qed.
Definition sim_ok (sim : option SIM) : Prop :=
  match sim with Some f => forall log rand autn, sim_answer_ok (f log rand autn) | None => True end.

Lemma authIV_holds random profile override w Q :
  random_ok random -> bytes_ok override -> (forall iv n, bytes_ok iv -> Q iv (mkWorld n (w_log w))) ->
  holds (authIV rand_Reader random profile override) w Q.
Proof.
  intros Hr Ho HQ. unfold authIV. case_match.
  - case_match; [done|]. apply holds_ret. destruct w. by apply HQ.
  - eapply holds_read; [by apply random_of_ok| |exact HQ]. intros r Hrr. unfold RandomIV. by apply randomBytes_safe.
Qed.
Lemma eapReauthIV_holds random override w Q :
  random_ok random -> bytes_ok override -> (forall iv n, bytes_ok iv -> Q iv (mkWorld n (w_log w))) ->
  holds (eapReauthIV rand_Reader random override) w Q.
Proof.
  intros Hr Ho HQ. unfold eapReauthIV. case_match.
  - case_match; [done|]. apply holds_ret. destruct w. by apply HQ.
  - eapply holds_read; [by apply random_of_ok| |exact HQ]. intros r Hrr. by apply randomBytes_safe.
Qed.

(** *** The answer to a request, before it is sent *)
Definition challenge_config_ok (cfg : AKAChallengeConfig) : Prop :=
  Packet_ok (ak_Request cfg) /\ sim_ok (ak_SIM cfg) /\ random_ok (ak_Random cfg) /\ bytes_ok (ak_EAPReauthIV cfg) /\ bytes_ok (ak_IV cfg).
Definition answer_ok (an : akaAnswer) : Prop := Packet_ok (an_eapResp an) /\ bytes_ok (es_NextPseudonym (an_identityState an)).

Lemma answer_reauthentication_holds cfg w :
  challenge_config_ok cfg -> holds (answer_reauthentication rand_Reader cfg) w (fun an w' => answer_ok an /\ w_log w' = w_log w).
Proof.
  intros (Hp & _ & Hr & Hiv & _). unfold answer_reauthentication.
  eapply (holds_do _ _ _ (fun parsed => ParseReauthenticationRequest (ak_Request cfg) (ak_EAPKeys cfg) = Ok parsed)).
  { pose proof (ParseReauthenticationRequest_safe _ (ak_EAPKeys cfg) Hp) as Hs. by destruct (ParseReauthenticationRequest _ _). }
  intros parsed Hparsed. destruct (reauth_request_state _ _ _ Hp Hparsed) as [Hc Hst].
  eapply holds_bind; [apply (eapReauthIV_holds _ _ _ (fun iv w' => bytes_ok iv /\ w_log w' = w_log w)); done|]. intros iv w' [Hib Hl]. cbv zeta.
  assert (Hb : forall tooSmall, safe (buildReauthenticationResponsePacket (ak_Request cfg) (ak_EAPKeys cfg) iv parsed (response_plain tooSmall (rq_Counter parsed))) Packet_ok).
  { intros tooSmall. pose proof (buildReauthenticationResponsePacket_returns (ak_Request cfg) (ak_EAPKeys cfg) iv parsed (response_plain tooSmall (rq_Counter parsed))) as Hret.
    destruct (buildReauthenticationResponsePacket _ _ _ _ _) eqn:E; try done. by eapply reauth_packet_ok. }
  case_match.
  - eapply (holds_do _ _ _ Packet_ok); [|intros r Hrp; by apply holds_ret].
    unfold BuildReauthenticationCounterTooSmallResponse, buildReauthenticationCounterTooSmallResponse. rewrite Hparsed. exact (Hb true).
  - case_match; [done|]. eapply (holds_do _ _ _ (fun r => Packet_ok r.1)); [|intros r Hrp; by apply holds_ret].
    unfold BuildReauthenticationResponse, buildReauthenticationResponse. rewrite Hparsed. cbn [bind].
    eapply (safe_call _ _ (fun _ => True)); [exact (DeriveReauthenticationKeys_returns _ _ _ _)|]. intros k _.
    eapply safe_call; [exact (Hb false)|]. intros r Hrp. exact Hrp.
Qed.
Lemma answer_challenge_holds cfg w :
  challenge_config_ok cfg -> holds (answer_challenge cfg) w (fun an w' => answer_ok an /\ w_log w' = w_log w).
Proof.
  intros (Hp & Hsim & _). unfold answer_challenge. destruct (ak_SIM cfg) as [sim|]; [|done].
  eapply holds_bind; [apply (holds_log _ _ (fun f w' => f = sim (w_log w) /\ w' = w)); done|]. intros f w' [-> ->].
  eapply holds_do; [apply safe_map_err, (provider_response_safe _ _ _ _ Hp); exact (Hsim (w_log w))|]. intros ch Hch. cbv zeta.
  assert (H0 : forall attrs st, bytes_ok (es_NextPseudonym st) -> answer_ok (mkAnswer (EapChallenge.cr_Response ch) (EapChallenge.cr_Keys ch)
    (EapChallenge.cr_SyncFailure ch) (EapChallenge.cr_AuthFailure ch) false false false 0 false [] attrs st)) by (by split).
  case_match; [|apply holds_ret; split; [apply H0; constructor|done]].
  eapply holds_do; [exact (DecryptPacketEncryptedAttributes_safe _ _ Hp)|]. intros attrs Hattrs. case_match; [|apply holds_ret; split; [apply H0; constructor|done]].
  eapply holds_do; [by apply identity_state_safe|]. intros st [Hst _]. apply holds_ret. split; [by apply H0|done].
Qed.
Lemma answer_request_holds cfg w :
  challenge_config_ok cfg -> holds (answer_request rand_Reader cfg) w (fun an w' => answer_ok an /\ w_log w' = w_log w).
Proof.
  intros Hcfg. pose proof Hcfg as (Hp & _). unfold answer_request. case_match; [by apply answer_reauthentication_holds|].
  pose proof (buildAKAControlResponse_safe (ak_Request cfg) (ak_EAPKeys cfg) Hp) as Hc.
  destruct (buildAKAControlResponse _ _) as [handled r]. cbn [fst snd] in Hc. eapply holds_do; [exact Hc|]. intros response Hrp.
  destruct handled; [apply holds_ret; split; [split; [by apply Hrp|constructor]|done]|].
  eapply holds_do; [by apply kdf_negotiation_safe|]. intros [p|] Hn; [|by apply answer_challenge_holds].
  apply holds_ret. split; [split; [by apply Hn|constructor]|done].
Qed.

(** *** The first request *)
Definition auth_config_ok (cfg : AuthConfig) : Prop :=
  random_ok (au_Random cfg) /\ Identity_ok (au_InitiatorID cfg) /\ SA_ok (au_ChildSA cfg) /\ bytes_ok (au_ChildSPI cfg) /\
  Forall Selector_typed (ts_Selectors (au_TSi cfg)) /\ Forall Selector_typed (ts_Selectors (au_TSr cfg)) /\
  Configuration_ok (au_Configuration cfg) /\ bytes_ok (au_EAPIdentity cfg) /\ bytes_ok (au_EAPPseudonym cfg) /\
  bytes_ok (au_EAPReauthIdentity cfg) /\ bytes_ok (au_InitialIV cfg) /\ bytes_ok (au_EAPIdentityIV cfg) /\ is_u32 (au_InitialMessageID cfg).

Lemma trafficSelectorsOrSWuAny_typed ts :
  Forall Selector_typed (ts_Selectors ts) -> Forall Selector_typed (ts_Selectors (trafficSelectorsOrSWuAny ts)).
Proof. intros Hts. unfold trafficSelectorsOrSWuAny. case_match; [by_decide|done]. Qed.
Lemma local_spi_loop_safe ps spi : Forall Proposal_ok ps -> bytes_ok spi -> safe (local_spi_loop ps spi) (Forall Proposal_ok).
Proof.
  intros Hps Hspi. induction Hps as [|p ps Hp _ IH]; [constructor|]. cbn [local_spi_loop].
  eapply (safe_call _ _ Proposal_ok).
  { case_match; [exact Hp|]. case_match; [done|]. destruct Hp as (? & ? & ? & ?). by split_and!. }
  intros p' Hp'. eapply safe_call; [exact IH|]. intros ps' Hps'. by constructor.
Qed.
Lemma childSAWithLocalSPI_safe sa spi : SA_ok sa -> bytes_ok spi -> safe (childSAWithLocalSPI sa spi) SA_ok.
Proof.
  intros Hsa Hspi. unfold childSAWithLocalSPI. rewrite cloneSecurityAssociation_id.
  eapply safe_call; [by apply local_spi_loop_safe|]. intros ps Hps. exact Hps.
Qed.
Lemma IdentityPayload_safe ty id : is_u8 ty -> Identity_ok id -> safe (IdentityPayload ty id) (fun p => Payload_ok p /\ p_Type p = ty).
Proof.
  intros Ht Hid. unfold IdentityPayload. case_match; [done|]. pose proof (enc_bytes_ok (A := Identity) id) as Hb. cbn in Hb. unfold Identity_MarshalBinary in *.
  case_match; [done|]. cbn. split; [|done]. split_and!; [done|done|by eapply Hb].
Qed.
Lemma ConfigurationPayload_safe c : Configuration_ok c -> safe (ConfigurationPayload c) (fun p => Payload_ok p /\ p_Type p = PayloadCP).
Proof.
  intros Hc. unfold ConfigurationPayload. pose proof (enc_bytes_ok (A := Configuration) c) as Hb. cbn in Hb.
  assert (returns (Configuration_MarshalBinary c)) as Hr.
  { unfold Configuration_MarshalBinary. case_match; [done|]. generalize ([cf_Type c; 0; 0; 0]). induction (cf_Attributes c) as [|a l IH]; intros out; [done|].
    cbn [marshal_config_loop]. case_match; [done|apply IH]. }
  destruct (Configuration_MarshalBinary c) as [b| | |]; try done. cbn. split; [|done]. split_and!; [done|done|by eapply Hb].
Qed.

Definition no_auth (payloads : list Payload) : Prop := firstIKEAuthPayload payloads PayloadAUTH = None.

Lemma BuildIKEAuthInitialPayloads_holds cfg w :
  auth_config_ok cfg ->
  holds (BuildIKEAuthInitialPayloads rand_Reader cfg) w (fun ps w' => chain_ok ps /\ no_auth ps /\ w_log w' = w_log w).
Proof.
  intros (Hr & Hid & Hsa & Hspi & Htsi & Htsr & Hcf & _). unfold BuildIKEAuthInitialPayloads.
  eapply holds_do; [by apply IdentityPayload_safe|]. intros idp (Hidp & Hidt).
  eapply (holds_bind _ _ _ (fun sa w' => SA_ok sa /\ w_log w' = w_log w)).
  { case_match.
    - eapply (holds_bind _ _ _ (fun spi w' => bytes_ok spi /\ w_log w' = w_log w)).
      { case_match; [|by apply holds_ret]. eapply holds_read; [by apply random_of_ok| |by split]. intros r Hrr. by apply randomBytes_safe. }
      intros spi w' [Hb Hl]. case_match; [done|]. apply holds_ret. split; [by apply DefaultESPProposal_ok|done].
    - apply (holds_lift _ _ SA_ok); [by apply childSAWithLocalSPI_safe|by split]. }
  intros sa w' [Hsa' Hl].
  eapply holds_do; [by apply SecurityAssociationPayload_safe|]. intros sap (Hsap & Hsat & _).
  eapply holds_do; [apply TrafficSelectorsPayload_safe; [by left|by apply trafficSelectorsOrSWuAny_typed]|]. intros tip (Htip & Htit).
  eapply holds_do; [apply TrafficSelectorsPayload_safe; [by right|by apply trafficSelectorsOrSWuAny_typed]|]. intros trp (Htrp & Htrt).
  eapply holds_do; [apply ConfigurationPayload_safe; unfold firstConfiguration; case_match; [done|by_decide]|]. intros cp (Hcp & Hcpt).
  apply holds_ret. split; [|split; [|exact Hl]].
  - repeat (constructor; [split; [done|]; rewrite ?Hidt, ?Hsat, ?Htit, ?Htrt, ?Hcpt; done|]). constructor.
  - unfold no_auth, firstIKEAuthPayload. cbn [List.find]. by rewrite Hidt, Hsat, Htit, Htrt, Hcpt.
Qed.

(** *** The trail of a run *)
Definition of_auth_exchange (init : InitResult) (id : Z) (h : Header) : Prop :=
  h_InitiatorSPI h = ir_InitiatorSPI init /\ h_ResponderSPI h = ir_ResponderSPI init /\
  h_ExchangeType h = ExchangeIKE_AUTH /\ h_MessageID h = id.
(** What the responder reads in a request, and the initiator in a response. *)
Definition sent (init : InitResult) (keys : IKEKeys) (id : Z) (req : bytes) (payloads : list Payload) : Prop :=
  exists m, UnprotectMessage req keys true = Ok (m, link_next payloads) /\ of_auth_exchange init id (m_Header m).
Definition received (init : InitResult) (keys : IKEKeys) (id : Z) (resp : bytes) (inner : list Payload) : Prop :=
  bytes_ok resp /\ exists m, UnprotectMessage resp keys false = Ok (m, inner) /\ of_auth_exchange init id (m_Header m) /\
    Z.testbit (h_Flags (m_Header m)) 5 = true /\ FirstNotifyError inner = Ok tt.

(** [trail init keys id tr payloads next inner]: the exchanges [tr] have run
    from message identifier [id]; the last request carried [payloads], the
    last response [inner], and [next] is the next identifier. *)
Inductive trail (init : InitResult) (keys : IKEKeys) (id : Z) : list (bytes * bytes) -> list Payload -> Z -> list Payload -> Prop :=
| trail_start : trail init keys id [] [] id []
| trail_exchange tr payloads next inner req resp payloads' inner' :
    trail init keys id tr payloads next inner ->
    sent init keys next req payloads' -> received init keys next resp inner' ->
    trail init keys id (tr ++ [(req, resp)]) payloads' (to_u32 (next + 1)) inner'.

Lemma received_ok init keys id resp inner : received init keys id resp inner -> Forall Payload_ok inner.
Proof.
  intros (Hb & m & Hu & _). pose proof (UnprotectMessage_safe resp keys false Hb) as Hs. rewrite Hu in Hs. destruct Hs as (_ & _ & Hc & _).
  eapply Forall_impl; [exact Hc|]. by intros p [? _].
Qed.
Lemma received_nonempty init keys id resp inner : received init keys id resp inner -> 0 < len resp.
Proof.
  intros (Hb & m & Hu & _). pose proof (len_nonneg resp). destruct (Z.eq_dec (len resp) 0) as [E|]; [|lia].
  apply len_zero in E as ->. pose proof (UnprotectMessage_safe [] keys false Hb) as Hs. rewrite Hu in Hs. destruct Hs as (_ & Hm & _). done.
Qed.
Lemma trail_inner init keys id tr ps next inner : trail init keys id tr ps next inner -> Forall Payload_ok inner.
Proof. destruct 1 as [|? ? ? ? ? ? ? ? _ _ Hrec]; [constructor|by eapply received_ok]. Qed.
Lemma trail_next init keys id tr ps next inner :
  is_u32 id -> trail init keys id tr ps next inner -> next = to_u32 (id + len tr) /\ is_u32 next.
Proof.
  intros Hid. induction 1 as [|tr ps next inner req resp ps' inner' _ [-> _] _ _].
  - change (len []) with 0. unfold to_u32. unfold is_u32, in_range in *. rewrite Z.mod_small; lia.
  - rewrite len_app. change (len [(req, resp)]) with 1. split; [|apply to_u32_range]. unfold to_u32.
    rewrite Zplus_mod_idemp_l. f_equal. lia.
Qed.
Lemma trail_snoc init keys id tr x ps next inner : trail init keys id (tr ++ [x]) ps next inner ->
  exists id', sent init keys id' x.1 ps /\ received init keys id' x.2 inner /\ next = to_u32 (id' + 1).
Proof.
  inversion 1 as [E|tr' ps0 next0 inner0 req resp ps' inner' Ht Hs Hr E]; [by destruct tr|].
  apply app_inj_tail in E as [-> <-]. by exists next0.
Qed.

Lemma unprotectAuthResponse_safe raw init keys id :
  bytes_ok raw -> safe (unprotectAuthResponse raw init keys id) (fun r => received init keys id raw r.2).
Proof.
  intros Hraw. unfold unprotectAuthResponse. pose proof (UnprotectMessage_safe raw keys false Hraw) as Hs.
  destruct (UnprotectMessage raw keys false) as [[m inner]| | |] eqn:Hu; try done. cbn [bind].
  destruct Hs as (_ & _ & Hc & _). cbn [fst snd] in *. cbv zeta. destruct (_ || _) eqn:Hh; [done|].
  change FlagResponse with (2 ^ 5) in Hh. rewrite land_pow2_eqb in Hh by lia.
  assert (Hok : Forall Payload_ok inner) by (eapply Forall_impl; [exact Hc|]; by intros p [? _]).
  pose proof (FirstNotifyError_safe inner Hok) as Hn. destruct (FirstNotifyError inner) as [[]| | |] eqn:Hf; try done. cbn.
  split; [done|]. exists m. unfold of_auth_exchange. destruct (Z.testbit _ 5); [|exfalso; lia]. split_and!; try done; lia.
Qed.

Definition init_ok (init : InitResult) : Prop := is_u64 (ir_InitiatorSPI init) /\ is_u64 (ir_ResponderSPI init).

Lemma exchange_inner_holds peer init keys id0 log0 tr ps0 id inner0 payloads iv w :
  peer_ok peer -> init_ok init -> is_u32 id0 -> chain_ok payloads -> bytes_ok iv ->
  w_log w = log0 ++ tr -> trail init keys id0 tr ps0 id inner0 ->
  holds (exchange_inner peer init keys id payloads iv) w (fun x w' => exists req resp inner, x = (req, resp, inner) /\
    received init keys id resp inner /\
    w_log w' = log0 ++ tr ++ [(req, resp)] /\ trail init keys id0 (tr ++ [(req, resp)]) payloads (to_u32 (id + 1)) inner).
Proof.
  intros Hpeer (HspiI & HspiR) Hid0 Hps Hiv Hw Ht. destruct (trail_next _ _ _ _ _ _ _ Hid0 Ht) as [_ Hid]. unfold exchange_inner, protect.
  set (h := authHeader init id true). assert (Hh : Header_ok h) by (by split_and!).
  eapply (holds_bind _ _ _ (fun req w' => sent init keys id req payloads /\ w' = w)).
  { eapply (holds_do _ _ _ (fun r => sent init keys id r.2 payloads)); [|intros r Hr; by apply holds_ret].
    pose proof (ProtectMessage_returns zero_reader h keys true payloads iv zero_reader_ok Hps Hiv) as Hr.
    destruct (ProtectMessage _ _ _ _ _ _) as [[m req]| | |] eqn:E; try done. cbn.
    apply ProtectMessage_readable in E as [Hu Hm]; [|apply zero_reader_ok|done..]. exists (message_normal m). split; [exact Hu|].
    unfold of_auth_exchange, message_normal. cbn. by rewrite Hm. }
  intros req w' [Hsent ->]. eapply holds_bind; [apply (holds_exchange _ _ _ (fun resp w' => bytes_ok resp /\ w_log w' = w_log w ++ [(req, resp)])); done|].
  intros resp w' [Hb Hl]. eapply holds_do; [by apply unprotectAuthResponse_safe|]. intros [m inner] Hrec. apply holds_ret.
  exists req, resp, inner. cbn [snd] in *. split; [done|]. split; [done|]. rewrite Hl, Hw, app_assoc. split; [done|]. by eapply trail_exchange.
Qed.

(** *** The identity exchanges *)
Definition eap_ok (r : option Packet) : Prop := forall p, r = Some p -> Packet_ok p.
Lemma firstEAPPacketWithRaw_safe ps : Forall Payload_ok ps ->
  safe (firstEAPPacketWithRaw ps) (fun r => forall p b, r = Some (p, b) -> Packet_ok p /\ bytes_ok b).
Proof.
  induction 1 as [|p ps (_ & _ & Hb) _ IH]; [done|]. cbn [firstEAPPacketWithRaw]. case_match; [exact IH|].
  eapply safe_call; [by apply ParsePacket_safe|]. intros pk (Hpk & _). by intros ? ? [= <- <-].
Qed.
Lemma firstEAPPacket_safe ps : Forall Payload_ok ps -> safe (firstEAPPacket ps) eap_ok.
Proof.
  intros Hps. unfold firstEAPPacket. eapply safe_call; [by apply firstEAPPacketWithRaw_safe|]. intros [[p b]|] Hr; [|done].
  intros q [= <-]. by eapply (Hr p b).
Qed.
Lemma firstIKEAuthNonEmpty_ok values : Forall bytes_ok values -> bytes_ok (firstIKEAuthNonEmpty values).
Proof. induction 1 as [|v vs Hv _ IH]; [constructor|]. cbn [firstIKEAuthNonEmpty]. cbv zeta. case_match; [by apply TrimSpace_ok|done]. Qed.
Lemma authPermanentIdentity_ok identity id : bytes_ok identity -> Identity_ok id -> bytes_ok (authPermanentIdentity identity id).
Proof. intros Hi [_ Hd]. unfold authPermanentIdentity. cbv zeta. case_match; by apply TrimSpace_ok. Qed.
Lemma identityForEAPRequest_ok request a b c :
  bytes_ok a -> bytes_ok b -> bytes_ok c -> bytes_ok (identityForEAPRequest request (mkIdentityOptions a b c)).
Proof.
  intros Ha%TrimSpace_ok Hb%TrimSpace_ok Hc%TrimSpace_ok. unfold identityForEAPRequest. cbn [io_PermanentIdentity io_Pseudonym io_ReauthIdentity]. cbv zeta.
  case_match; [done|]. case_match; [apply firstIKEAuthNonEmpty_ok; by repeat constructor|].
  case_match; [apply firstIKEAuthNonEmpty_ok; by repeat constructor|done].
Qed.

Lemma to_u32_succ x k : to_u32 (to_u32 (x + k) + 1) = to_u32 (x + (k + 1)).
Proof. unfold to_u32. rewrite Zplus_mod_idemp_l. f_equal. lia. Qed.
Lemma eap_chain raw : bytes_ok raw -> chain_ok [EAPPayload raw] /\ no_auth [EAPPayload raw].
Proof. intros Hr. split; [|done]. constructor; [|constructor]. split; [|done]. by split_and!. Qed.

Definition first_id (id : Z) : Z := if id =? 0 then 1 else id.
Lemma first_id_ok id : is_u32 id -> is_u32 (first_id id).
Proof. intros Hid. unfold first_id. case_match; [by_decide|done]. Qed.

(** A run has gone on from the log [log0] and identifier [id0]. *)
Definition went (init : InitResult) (keys : IKEKeys) (id0 : Z) (log0 : list (bytes * bytes)) (next : Z) (inner : list Payload)
    (lo hi : Z) (w : World) : Prop :=
  exists tr ps, w_log w = log0 ++ tr /\ trail init keys id0 tr ps next inner /\ lo <= len tr <= hi /\ no_auth ps.

Definition auth_done (init : InitResult) (keys : IKEKeys) (id0 : Z) (log0 : list (bytes * bytes)) (auth : AuthResult) (w : World) : Prop :=
  went init keys id0 log0 (ar_NextMessageID auth) (authFinalResponse auth).1 1 2 w /\
  eap_ok (authNextEAP auth) /\ bytes_ok (ar_EAPIdentityUsed auth) /\ Forall Payload_ok (ar_InitialResponseInner auth).

Lemma RunIKE_AUTH_EAPIdentity_holds cfg w :
  (forall peer, au_Transport cfg = Some peer -> peer_ok peer) -> init_ok (au_Init cfg) -> auth_config_ok cfg ->
  holds (RunIKE_AUTH_EAPIdentity rand_Reader cfg) w
    (auth_done (au_Init cfg) (auth_keys (au_Keys cfg) (au_Init cfg)) (first_id (au_InitialMessageID cfg)) (w_log w)).
Proof.
  intros Hpeer Hinit Hcfg. pose proof Hcfg as (Hr & Hid & _ & _ & _ & _ & _ & He1 & He2 & He3 & Hiv1 & Hiv2 & Hmid).
  unfold RunIKE_AUTH_EAPIdentity. destruct (au_Transport cfg) as [peer|]; [|done]. specialize (Hpeer peer eq_refl). cbv zeta.
  set (keys := auth_keys _ _). fold (first_id (au_InitialMessageID cfg)). set (id0 := first_id _). assert (Hid0 : is_u32 id0) by by apply first_id_ok.
  eapply (holds_do _ _ _ (fun _ => True)); [exact (validateKeySet_returns keys)|]. intros [] _. case_match; [done|].
  eapply holds_bind; [by apply BuildIKEAuthInitialPayloads_holds|]. intros ps w1 (Hch & Hno & Hl1).
  eapply holds_bind; [apply (authIV_holds _ _ _ _ (fun iv w' => bytes_ok iv /\ w_log w' = w_log w)); [done|done|by split]|]. intros iv w2 [Hiv Hl2].
  eapply holds_bind; [apply (exchange_inner_holds peer (au_Init cfg) keys id0 (w_log w) [] [] id0 [] ps iv w2); try done; [by rewrite app_nil_r|constructor]|].
  intros x w3 (req & resp & inner & -> & Hrec & Hl3 & Ht). pose proof (received_ok _ _ _ _ _ Hrec) as Hinner.
  eapply holds_do; [by apply firstEAPPacketWithRaw_safe|]. intros eap Heap. cbn [app] in Ht.
  assert (Hd : went (au_Init cfg) keys id0 (w_log w) (to_u32 (id0 + 1)) inner 1 2 w3) by (exists [(req, resp)], ps; by split_and!).
  destruct eap as [[p raw]|].
  2: { apply holds_ret. unfold auth_done. cbn. split_and!; [exact Hd|done|constructor|done]. }
  destruct (Heap p raw eq_refl) as [Hp Hraw]. destruct (negb (pk_Code p =? CodeRequest) || _) eqn:Hid_req.
  { apply holds_ret. unfold auth_done, authNextEAP. cbn. rewrite andb_false_r. split_and!; [exact Hd|by intros q [= <-]|constructor|done]. }
  set (identity := identityForEAPRequest _ _). assert (Hidb : bytes_ok identity).
  { apply identityForEAPRequest_ok; [by apply authPermanentIdentity_ok|done|done]. }
  case_match; [done|]. eapply holds_do; [by apply BuildIdentityResponse_safe|]. intros rp Hrp.
  eapply holds_do; [by apply marshal_packet_safe|]. intros packet Hpacket. destruct (eap_chain packet Hpacket) as [Hch2 Hno2].
  eapply holds_bind; [apply (authIV_holds _ _ _ _ (fun iv w' => bytes_ok iv /\ w_log w' = w_log w3)); [done|done|by split]|]. intros iv2 w4 [Hiv4 Hl4].
  eapply holds_bind; [eapply (exchange_inner_holds peer (au_Init cfg) keys id0 (w_log w)); [done..|rewrite Hl4; exact Hl3|exact Ht]|].
  intros x w5 (req2 & resp2 & inner2 & -> & Hrec2 & Hl5 & Ht2). pose proof (received_ok _ _ _ _ _ Hrec2) as Hinner2.
  eapply holds_do; [by apply firstEAPPacket_safe|]. intros next Hnext. apply holds_ret. unfold auth_done. rewrite to_u32_succ in Ht2.
  unfold authFinalResponse, authNextEAP. cbn. pose proof (received_nonempty _ _ _ _ _ Hrec2) as Hne. replace (0 <? len resp2) with true by lia.
  rewrite orb_true_r. split_and!; [exists [(req, resp); (req2, resp2)], [EAPPayload packet]; by split_and!| |done|done].
  destruct next as [q|]; [done|]. apply orb_false_iff in Hid_req as [->%negb_false_iff ->%negb_false_iff]. done.
Qed.

Definition identity_config_ok (cfg : identityExchangeConfig) : Prop :=
  (forall peer, ic_Transport' cfg = Some peer -> peer_ok peer) /\ init_ok (ic_Init cfg) /\ random_ok (ic_Random' cfg) /\
  Packet_ok (ic_Request cfg) /\ bytes_ok (ic_Identity cfg).
Lemma runIKEAuthIdentityExchange_holds cfg w id0 log0 n inner0 :
  identity_config_ok cfg -> is_u32 id0 ->
  went (ic_Init cfg) (auth_keys (ic_Keys cfg) (ic_Init cfg)) id0 log0 (ic_MessageID cfg) inner0 1 n w ->
  holds (runIKEAuthIdentityExchange rand_Reader cfg) w (fun x w' =>
    went (ic_Init cfg) (auth_keys (ic_Keys cfg) (ic_Init cfg)) id0 log0 (ix_NextMessageID x) (ix_ResponseInner x) 1 (n + 1) w' /\
    eap_ok (ix_EAPNext x) /\ bytes_ok (ix_Identity x)).
Proof.
  intros (Hpeer & Hinit & Hr & Hp & Hi) Hid0 (tr & ps & Hl & Ht & Hlen & _). unfold runIKEAuthIdentityExchange.
  destruct (ic_Transport' cfg) as [peer|]; [|done]. specialize (Hpeer peer eq_refl). do 2 (case_match; [done|]). cbv zeta. case_match; [done|].
  pose proof (TrimSpace_ok _ Hi) as Hti. set (keys := auth_keys _ _) in *.
  eapply (holds_do _ _ _ (fun _ => True)); [exact (validateKeySet_returns keys)|]. intros [] _.
  eapply (holds_do _ _ _ (fun _ => True)); [case_match; [exact (marshal_packet_returns _)|done]|]. intros requestRaw _.
  eapply holds_do; [by apply BuildIdentityResponse_safe|]. intros rp Hrp.
  eapply holds_do; [by apply marshal_packet_safe|]. intros raw Hraw. destruct (eap_chain raw Hraw) as [Hch Hno].
  eapply holds_bind; [apply (authIV_holds _ _ _ _ (fun iv w' => bytes_ok iv /\ w_log w' = w_log w)); [done|constructor|by split]|]. intros iv w2 [Hiv Hl2].
  eapply holds_bind; [eapply (exchange_inner_holds peer (ic_Init cfg) keys id0 log0); [done..|by rewrite Hl2|exact Ht]|].
  intros x w3 (req & resp & inner & -> & Hrec & Hl3 & Ht3). pose proof (received_ok _ _ _ _ _ Hrec) as Hinner.
  eapply holds_do; [by apply firstEAPPacket_safe|]. intros next Hnext. apply holds_ret. cbn. split_and!; [|done|done].
  exists (tr ++ [(req, resp)]), [EAPPayload raw]. rewrite len_app. change (len [(req, resp)]) with 1. split_and!; try done; lia.
Qed.

(** *** The AKA exchange and its follow-ups *)
Lemma went_exchange peer init keys id0 log0 id inner0 lo hi payloads iv w :
  peer_ok peer -> init_ok init -> is_u32 id0 -> chain_ok payloads -> no_auth payloads -> bytes_ok iv ->
  went init keys id0 log0 id inner0 lo hi w ->
  holds (exchange_inner peer init keys id payloads iv) w (fun x w' =>
    went init keys id0 log0 (to_u32 (id + 1)) x.2 (lo + 1) (hi + 1) w' /\ Forall Payload_ok x.2).
Proof.
  intros Hpeer Hinit Hid0 Hch Hno Hiv (tr & ps & Hl & Ht & Hlen & _).
  eapply holds_mono; [by eapply (exchange_inner_holds peer init keys id0 log0 tr)|].
  intros x w' (req & resp & inner & -> & Hrec & Hl' & Ht'). cbn. split; [|by eapply received_ok].
  exists (tr ++ [(req, resp)]), payloads. rewrite len_app. change (len [(req, resp)]) with 1. split_and!; try done; lia.
Qed.
Lemma went_same init keys id0 log0 id inner lo hi w w' :
  w_log w' = w_log w -> went init keys id0 log0 id inner lo hi w -> went init keys id0 log0 id inner lo hi w'.
Proof. intros Hl. unfold went. by rewrite Hl. Qed.
Lemma went_weaken init keys id0 log0 id inner lo hi lo' hi' w :
  lo' <= lo -> hi <= hi' -> went init keys id0 log0 id inner lo hi w -> went init keys id0 log0 id inner lo' hi' w.
Proof. intros ? ? (tr & ps & ? & ? & ? & ?). exists tr, ps. split_and!; try done; lia. Qed.

Definition followed_from (out out' : akaControlFollowups) : Prop := out' = out \/ 0 < len (fu_ResponseBytes out').
Lemma followups_loop_holds n peer cfg keys eapKeys out w id0 log0 lo hi :
  peer_ok peer -> init_ok (ak_Init cfg) -> random_ok (ak_Random cfg) -> is_u32 id0 -> Forall Payload_ok (fu_FinalInner out) ->
  went (ak_Init cfg) keys id0 log0 (fu_NextMessageID out) (fu_FinalInner out) lo hi w ->
  holds (followups_loop rand_Reader n peer cfg keys eapKeys out) w (fun out' w' => followed_from out out' /\ Forall Payload_ok (fu_FinalInner out') /\
    went (ak_Init cfg) keys id0 log0 (fu_NextMessageID out') (fu_FinalInner out') lo (hi + Z.of_nat n) w').
Proof.
  intros Hpeer Hinit Hr Hid0. revert out w lo hi. induction n as [|n IH]; intros out w lo hi Hin Hw; cbn [followups_loop];
    (eapply holds_do; [by apply firstEAPPacket_safe|]; intros next Hnext);
    (assert (Hstop : followed_from out out /\ Forall Payload_ok (fu_FinalInner out) /\
       forall k, went (ak_Init cfg) keys id0 log0 (fu_NextMessageID out) (fu_FinalInner out) lo (hi + Z.of_nat k) w)
      by (split; [by left|split; [done|intros k; eapply went_weaken; [| |exact Hw]; lia]]));
    destruct Hstop as (Hs1 & Hs2 & Hs3);
    (destruct next as [next|]; [|apply holds_ret; split_and!; [exact Hs1|exact Hs2|apply Hs3]]);
    pose proof (buildAKAControlResponse_safe next eapKeys (Hnext next eq_refl)) as Hc;
    destruct (buildAKAControlResponse next eapKeys) as [handled r]; cbn [fst snd] in Hc;
    (eapply holds_do; [exact Hc|]; intros response Hrp);
    (destruct handled; cbn [negb]; [|apply holds_ret; split_and!; [exact Hs1|exact Hs2|apply Hs3]]).
  - done.
  - cbv zeta. eapply holds_do; [by apply marshal_packet_safe, Hrp|]. intros raw Hraw. destruct (eap_chain raw Hraw) as [Hch Hno].
    eapply holds_bind; [apply (authIV_holds _ _ _ _ (fun iv w' => bytes_ok iv /\ w_log w' = w_log w)); [done|constructor|by split]|]. intros iv w2 [Hiv Hl2].
    eapply holds_bind; [eapply went_exchange; [done..|eapply went_same; [exact Hl2|exact Hw]]|].
    intros [[req resp] inner] w3 [Hw3 Hinner]. cbn [snd] in *.
    eapply holds_mono; [apply (IH (mkFollowups _ _ _ _ _ _) w3 (lo + 1) (hi + 1)); [exact Hinner|exact Hw3]|].
    intros out' w' (Hf & Hok & Hw'). split; [|split; [exact Hok|]].
    + right. destruct Hf as [->|Hf]; [|exact Hf]. cbn. rewrite len_app. change (len [resp]) with 1. pose proof (len_nonneg (fu_ResponseBytes out)). lia.
    + eapply went_weaken; [| |exact Hw']; lia.
Qed.

Definition child_inputs_ok (init : InitResult) (tsi tsr : TrafficSelectors) : Prop :=
  kp_PRF (k_Profile (ir_Keys init)) <> HashNone /\ Forall Selector_typed (ts_Selectors tsi) /\ Forall Selector_typed (ts_Selectors tsr).
Lemma parseChildSAIfPresent_safe init inner spi next offered tsi tsr :
  Forall Payload_ok inner -> child_inputs_ok init tsi tsr ->
  safe (parseChildSAIfPresent init inner spi next offered tsi tsr) (fun r => parseChildSAIfPresent init inner spi next offered tsi tsr = Ok r).
Proof.
  intros Hin (Hprf & Htsi & Htsr). assert (Hr : returns (parseChildSAIfPresent init inner spi next offered tsi tsr)).
  { unfold parseChildSAIfPresent. case_match; [done|]. cbv zeta. eapply safe_call; [by apply parseChildSAResult_safe|]. done. }
  by destruct (parseChildSAIfPresent _ _ _ _ _ _ _).
Qed.

Definition challenge_done (cfg : AKAChallengeConfig) (offered : SecurityAssociation) (tsi tsr : TrafficSelectors) (r : AKAChallengeResult) : Prop :=
  eap_ok (ac_EAPNext r) /\ bytes_ok (ac_EAPNextPseudonym r) /\
  parseChildSAIfPresent (ak_Init cfg) (ac_FinalResponseInner r) (ak_ChildSPI cfg) (ac_NextMessageID r) offered tsi tsr = Ok (ac_ChildSA r).

Lemma runIKE_AUTH_AKAChallenge_holds cfg offered tsi tsr w id0 log0 inner0 n :
  (forall peer, ak_Transport cfg = Some peer -> peer_ok peer) -> init_ok (ak_Init cfg) -> challenge_config_ok cfg ->
  child_inputs_ok (ak_Init cfg) tsi tsr -> is_u32 id0 ->
  let keys := auth_keys (ak_Keys cfg) (ak_Init cfg) in
  went (ak_Init cfg) keys id0 log0 (ak_MessageID cfg) inner0 1 n w ->
  holds (runIKE_AUTH_AKAChallenge rand_Reader cfg offered tsi tsr) w (fun r w' => challenge_done cfg offered tsi tsr r /\
    went (ak_Init cfg) keys id0 log0 (ac_NextMessageID r) (ac_FinalResponseInner r) 1 (n + 4) w').
Proof.
  intros Hpeer Hinit Hcfg Hchild Hid0 keys Hw. unfold runIKE_AUTH_AKAChallenge. destruct (ak_Transport cfg) as [peer|]; [|done].
  specialize (Hpeer peer eq_refl). cbv zeta. fold keys. pose proof Hcfg as (_ & _ & Hr & _ & Hiv0).
  eapply (holds_do _ _ _ (fun _ => True)); [exact (validateKeySet_returns keys)|]. intros [] _. case_match; [done|].
  eapply holds_bind; [by apply answer_request_holds|]. intros an w1 [[Hanp Hans] Hl1].
  eapply holds_do; [by apply marshal_packet_safe|]. intros raw Hraw. destruct (eap_chain raw Hraw) as [Hch Hno].
  eapply holds_bind; [apply (authIV_holds _ _ _ _ (fun iv w' => bytes_ok iv /\ w_log w' = w_log w)); [done|done|intros; by split]|]. intros iv w2 [Hiv Hl2].
  eapply holds_bind; [eapply went_exchange; [done..|eapply went_same; [exact Hl2|exact Hw]]|].
  intros [[req resp] inner] w3 [Hw3 Hinner]. cbn [snd] in *. unfold runAKAControlFollowups.
  eapply holds_bind; [eapply (followups_loop_holds _ peer cfg keys _ _ w3 id0 log0); [done..|exact Hw3]|].
  intros fu w4 (Hf & Hok & Hw4). cbn [fu_NextMessageID fu_FinalInner] in *.
  set (finalInner := if 0 <? len (fu_ResponseBytes fu) then fu_FinalInner fu else inner).
  set (next := if 0 <? len (fu_ResponseBytes fu) then fu_NextMessageID fu else to_u32 (ak_MessageID cfg + 1)).
  assert (finalInner = fu_FinalInner fu /\ next = fu_NextMessageID fu) as [-> ->].
  { subst finalInner next. destruct (Z.ltb_spec 0 (len (fu_ResponseBytes fu))) as [|Hz]; [done|]. destruct Hf as [->|]; [done|lia]. }
  eapply holds_do; [by apply firstEAPPacket_safe|]. intros nx Hnx.
  eapply holds_do; [by apply parseChildSAIfPresent_safe|]. intros child Hc. apply holds_ret. unfold challenge_done. cbn. split_and!; try done.
  eapply went_weaken; [| |exact Hw4]; unfold maxAKAControlFollowups; lia.
Qed.

(** *** The loop *)
Definition full_config_ok (cfg : FullAuthConfig) : Prop :=
  (forall peer, fc_Transport cfg = Some peer -> peer_ok peer) /\ init_ok (fc_Init cfg) /\ sim_ok (fc_SIM cfg) /\ random_ok (fc_Random cfg) /\
  Identity_ok (fc_InitiatorID cfg) /\ bytes_ok (fc_EAPIdentity cfg) /\ bytes_ok (fc_EAPPseudonym cfg) /\ bytes_ok (fc_EAPReauthIdentity cfg) /\
  SA_ok (fc_ChildSA cfg) /\ bytes_ok (fc_ChildSPI cfg) /\ Configuration_ok (fc_Configuration cfg) /\
  child_inputs_ok (fc_Init cfg) (fc_TSi cfg) (fc_TSr cfg) /\ kp_PRF (k_Profile (auth_keys (fc_Keys cfg) (fc_Init cfg))) <> HashNone /\
  bytes_ok (fc_InitialIV cfg) /\ bytes_ok (fc_EAPIdentityIV cfg) /\ bytes_ok (fc_EAPReauthIV cfg) /\ is_u32 (fc_InitialMessageID cfg).
Definition full_keys (cfg : FullAuthConfig) : IKEKeys := auth_keys (fc_Keys cfg) (fc_Init cfg).

(** The responder proved knowledge of the MSK: the AUTH payload it sent is the
    MAC of its first message, our nonce and the identity it gave. *)
Definition responder_verified (init : InitResult) (keys : IKEKeys) (initialInner inner : list Payload) (msk : bytes) : Prop :=
  exists idr auth,
    (firstIKEAuthIdentity initialInner PayloadIDr = Ok (Some idr) \/
     firstIKEAuthIdentity initialInner PayloadIDr = Ok None /\ firstIKEAuthIdentity inner PayloadIDr = Ok (Some idr)) /\
    firstIKEAuthPayload inner PayloadAUTH = Some auth /\ msk <> [] /\
    p_Body auth !! 0%nat = Some AuthMethodSharedKeyMIC /\ drop 4 (p_Body auth) = auth_value init keys idr msk false.
(** What the last request carried, and what is known if it was our AUTH. *)
Definition authentication (cfg : FullAuthConfig) (payloads : list Payload) (out : FullAuthResult) : Prop :=
  no_auth payloads \/
  payloads = [mkPayload PayloadAUTH 0 false ([AuthMethodSharedKeyMIC; 0; 0; 0] ++
    auth_value (fc_Init cfg) (full_keys cfg) (fc_InitiatorID cfg) (ks_MSK (fr_EAPKeys out)) true)] /\
  responder_verified (fc_Init cfg) (full_keys cfg) (ar_InitialResponseInner (fr_Auth out)) (fr_FinalResponseInner out) (ks_MSK (fr_EAPKeys out)).

Definition child_of (cfg : FullAuthConfig) (fx : fullContext) (out : FullAuthResult) : Prop :=
  exists child, fr_ChildSA out = Some child /\ child_if_present cfg fx (fr_FinalResponseInner out) (fr_NextMessageID out) = Ok (Some child).
Definition full_done (cfg : FullAuthConfig) (fx : fullContext) (id0 : Z) (log0 : list (bytes * bytes)) (hi : Z) (out : FullAuthResult) (w : World) : Prop :=
  child_of cfg fx out /\ exists tr ps, w_log w = log0 ++ tr /\
    trail (fc_Init cfg) (full_keys cfg) id0 tr ps (fr_NextMessageID out) (fr_FinalResponseInner out) /\ 1 <= len tr <= hi /\
    authentication cfg ps out.
Lemma went_done cfg fx id0 log0 hi out child w :
  child_if_present cfg fx (fr_FinalResponseInner out) (fr_NextMessageID out) = Ok (Some child) ->
  went (fc_Init cfg) (full_keys cfg) id0 log0 (fr_NextMessageID out) (fr_FinalResponseInner out) 1 hi w ->
  full_done cfg fx id0 log0 hi (fr_with_child out child) w.
Proof. intros Hc (tr & ps & ? & ? & ? & ?). split; [by exists child|]. exists tr, ps. do 3 (split; [done|]). by left. Qed.

Lemma firstIKEAuthIdentity_safe ps ty : Forall Payload_ok ps -> safe (firstIKEAuthIdentity ps ty) (fun r => firstIKEAuthIdentity ps ty = Ok r).
Proof.
  intros Hps. assert (Hr : returns (firstIKEAuthIdentity ps ty)).
  { unfold firstIKEAuthIdentity, firstIKEAuthPayload. destruct (List.find _ ps) as [p|] eqn:E; [|done].
    apply find_some in E as [Hin%list_elem_of_In _]. rewrite Forall_forall in Hps. destruct (Hps p Hin) as (_ & _ & Hb).
    pose proof (dec_safe (A := Identity) _ Hb) as Hd. cbn in Hd. by destruct (ParseIdentity (p_Body p)). }
  by destruct (firstIKEAuthIdentity ps ty).
Qed.
Lemma find_payload ps ty p : firstIKEAuthPayload ps ty = Some p -> Forall Payload_ok ps -> p_Type p = ty /\ Payload_ok p.
Proof.
  intros [Hin%list_elem_of_In Ht]%find_some Hps. rewrite Forall_forall in Hps. split; [lia|by apply Hps].
Qed.

Lemma runIKEAuthEAPFinal_holds peer cfg fx out w id0 log0 hi :
  peer_ok peer -> full_config_ok cfg -> child_inputs_ok (fc_Init cfg) (fx_offeredTSi fx) (fx_offeredTSr fx) -> is_u32 id0 ->
  Forall Payload_ok (ar_InitialResponseInner (fr_Auth out)) ->
  went (fc_Init cfg) (full_keys cfg) id0 log0 (fr_NextMessageID out) (fr_FinalResponseInner out) 1 hi w ->
  holds (runIKEAuthEAPFinal rand_Reader peer cfg out (fx_localChildSPI fx) (fx_offeredChildSA fx) (fx_offeredTSi fx) (fx_offeredTSr fx)) w
    (fun r w' => full_done cfg fx id0 log0 (hi + 1) (fr_with_response (fr_with_child out r.1.1) (fr_IdentityExchanges out)
       (to_u32 (fr_NextMessageID out + 1)) r.1.2 r.2) w').
Proof.
  intros Hpeer (_ & Hinit & _ & Hr & Hid & _ & _ & _ & _ & _ & _ & _ & Hprf & _) Hchild Hid0 Hfirst (tr & ps & Hl & Ht & Hlen & _).
  unfold runIKEAuthEAPFinal. cbv zeta. fold (full_keys cfg) in *. set (keys := full_keys cfg) in *. set (msk := ks_MSK (fr_EAPKeys out)).
  destruct (Z.eqb_spec (len msk) 0) as [|Hmsk]; [done|]. rewrite eapSharedKeyAUTH_spec by done. replace (len msk =? 0) with false by lia.
  set (data := auth_value _ keys _ msk true). eapply (holds_do _ _ _ (fun d => d = data)); [by case_match|]. intros d ->.
  eapply (holds_do _ _ _ (fun p => p = mkPayload PayloadAUTH 0 false ([AuthMethodSharedKeyMIC; 0; 0; 0] ++ data))).
  { unfold AuthenticationPayload. by case_match. }
  intros p ->. set (payload := mkPayload _ _ _ _).
  assert (Hch : chain_ok [payload]).
  { constructor; [|constructor]. split; [|done]. split_and!; [done|done|]. cbn. repeat (apply bytes_ok_cons_2; [by_decide|]). apply hmac_ok. }
  eapply holds_bind; [apply (authIV_holds _ _ _ _ (fun iv w' => bytes_ok iv /\ w_log w' = w_log w)); [done|constructor|by split]|]. intros iv w2 [Hiv Hl2].
  eapply holds_bind; [eapply (exchange_inner_holds peer (fc_Init cfg) keys id0 log0 tr); [done..|by rewrite Hl2|exact Ht]|].
  intros x w3 (req & resp & inner & -> & Hrec & Hl3 & Ht3). pose proof (received_ok _ _ _ _ _ Hrec) as Hinner.
  eapply holds_do; [by apply firstIKEAuthIdentity_safe|]. intros r1 Hr1.
  eapply (holds_do _ _ _ (fun r => forall idr, r = Some idr -> r1 = Some idr \/ r1 = None /\ firstIKEAuthIdentity inner PayloadIDr = Ok (Some idr))).
  { destruct r1 as [id1|]; [intros idr [= <-]; by left|]. eapply safe_mono; [by apply firstIKEAuthIdentity_safe|]. intros a Ha idr ->. by right. }
  intros [idr|] Hidr; [|done]. specialize (Hidr idr eq_refl). destruct (firstIKEAuthPayload inner PayloadAUTH) as [a|] eqn:Ha; [|done].
  destruct (find_payload _ _ _ Ha Hinner) as [Hat (_ & _ & Hab)].
  eapply (holds_do _ _ _ (fun _ => p_Body a !! 0%nat = Some AuthMethodSharedKeyMIC /\ drop 4 (p_Body a) = auth_value (fc_Init cfg) keys idr msk false)).
  { apply safe_map_err. destruct (verify_spec (fc_Init cfg) keys idr msk a false Hprf Hab) as [Hret Hv].
    destruct (verifyEAPSharedKeyAUTH _ _ _ _ _ _) as [[]| | |] eqn:E; try done. cbn. destruct Hv as [Hv _]. specialize (Hv eq_refl). apply Hv. }
  intros [] [Hb0 Hbv]. eapply holds_do; [by apply parseChildSAIfPresent_safe|]. intros [child|] Hc; [|done]. apply holds_ret. cbn.
  split; [by exists child|]. exists (tr ++ [(req, resp)]), [payload]. rewrite len_app. change (len [(req, resp)]) with 1.
  split; [exact Hl3|]. split; [exact Ht3|]. split; [lia|]. right. split; [done|]. exists idr, a. cbn. split_and!; try done.
  - destruct Hidr as [->|[-> Hidr]]; [by left|by right].
  - intros E. unfold msk in Hmsk. by rewrite E in Hmsk.
Qed.

Lemma full_done_weaken cfg fx id0 log0 hi hi' out w :
  hi <= hi' -> full_done cfg fx id0 log0 hi out w -> full_done cfg fx id0 log0 hi' out w.
Proof. intros Hh (Hc & tr & ps & ? & ? & ? & ?). split; [exact Hc|]. exists tr, ps. split_and!; try done; lia. Qed.

Definition loop_state (cfg : FullAuthConfig) (id0 : Z) (log0 : list (bytes * bytes)) (hi : Z) (next : option Packet) (out : FullAuthResult) (w : World) : Prop :=
  went (fc_Init cfg) (full_keys cfg) id0 log0 (fr_NextMessageID out) (fr_FinalResponseInner out) 1 hi w /\
  eap_ok next /\ bytes_ok (fr_EAPNextPseudonym out) /\ Forall Payload_ok (ar_InitialResponseInner (fr_Auth out)).
Lemma loop_inner cfg id0 log0 hi next out w : loop_state cfg id0 log0 hi next out w -> Forall Payload_ok (fr_FinalResponseInner out).
Proof. intros ((tr & ps & _ & Ht & _) & _). by eapply trail_inner. Qed.

Section loop.
Context (peer : Peer) (cfg : FullAuthConfig) (fx : fullContext) (identity : bytes) (id0 : Z) (log0 : list (bytes * bytes)).
Context (Htr : fc_Transport cfg = Some peer) (Hcfg : full_config_ok cfg).
Context (Hchild : child_inputs_ok (fc_Init cfg) (fx_offeredTSi fx) (fx_offeredTSr fx)) (Hidentity : bytes_ok identity) (Hid0 : is_u32 id0).

(** The loop from some turn on. *)
Definition goes_on (n : nat) : Prop := forall current transcript next out w hi, loop_state cfg id0 log0 hi next out w ->
  holds (full_auth_loop rand_Reader n peer cfg fx identity current transcript next out) w (full_done cfg fx id0 log0 (hi + 4 * Z.of_nat n)).

Lemma loop_success next out w hi n : 1 <= n ->
  loop_state cfg id0 log0 hi next out w ->
  holds (do? child := child_if_present cfg fx (fr_FinalResponseInner out) (fr_NextMessageID out) in
    match child with
    | Some child => mret (fr_with_child out child)
    | None =>
        let* r := runIKEAuthEAPFinal rand_Reader peer cfg out (fx_localChildSPI fx) (fx_offeredChildSA fx) (fx_offeredTSi fx) (fx_offeredTSr fx) in
        let '(child, responseBytes, responseInner) := r in
        mret (fr_with_response (fr_with_child out child) (fr_IdentityExchanges out) (to_u32 (fr_NextMessageID out + 1)) responseBytes responseInner)
    end) w (full_done cfg fx id0 log0 (hi + 4 * n)).
Proof.
  intros Hn Hst. pose proof (loop_inner _ _ _ _ _ _ _ Hst) as Hin. destruct Hst as (Hw & Hnext & _ & Hfirst).
  eapply holds_do; [by apply parseChildSAIfPresent_safe|]. intros [child|] Hc.
  - apply holds_ret. eapply full_done_weaken; [|by apply went_done]. lia.
  - eapply holds_bind; [eapply (runIKEAuthEAPFinal_holds peer cfg fx out w id0 log0 hi); try done; by apply Hcfg|].
    intros [[child b] inner] w' Hd. apply holds_ret. eapply full_done_weaken; [|exact Hd]. lia.
Qed.

Lemma loop_identity n next (transcript : list bytes) out w hi :
  goes_on n -> Packet_ok next -> loop_state cfg id0 log0 hi (Some next) out w ->
  holds (do? raw := firstEAPPacketWithRaw (fr_FinalResponseInner out) in
    let requestRaw := match raw with Some (_, b) => b | None => [] end in
    let exchangeIdentity := identityForEAPRequest next
      (mkIdentityOptions identity (firstIKEAuthNonEmpty [fr_EAPNextPseudonym out; fc_EAPPseudonym cfg]) (fc_EAPReauthIdentity cfg)) in
    let* exchange := runIKEAuthIdentityExchange rand_Reader (mkIdentityConfig (fc_Transport cfg) (fc_Init cfg) (fc_Keys cfg) (fc_Random cfg)
      next requestRaw exchangeIdentity (fr_NextMessageID out)) in
    let out := fr_with_response out (fr_IdentityExchanges out ++ [exchange]) (ix_NextMessageID exchange) (ix_ResponseBytes exchange) (ix_ResponseInner exchange) in
    do? child := child_if_present cfg fx (fr_FinalResponseInner out) (fr_NextMessageID out) in
    match child with
    | Some child => mret (fr_with_child out child)
    | None => full_auth_loop rand_Reader n peer cfg fx identity (ix_Identity exchange) (transcript ++ ix_Transcript exchange) (ix_EAPNext exchange) out
    end) w (full_done cfg fx id0 log0 (hi + 4 * Z.of_nat (S n))).
Proof.
  intros IH Hp Hst. pose proof (loop_inner _ _ _ _ _ _ _ Hst) as Hin. destruct Hst as (Hw & Hnext & Hps & Hfirst).
  pose proof Hcfg as (Hpeer & Hinit & Hsim & Hr & _ & _ & He2 & He3 & _).
  eapply holds_do; [by apply firstEAPPacketWithRaw_safe|]. intros raw _. cbv zeta. set (ei := identityForEAPRequest _ _).
  assert (Hei : bytes_ok ei) by (apply identityForEAPRequest_ok; [done|apply firstIKEAuthNonEmpty_ok; by repeat constructor|done]).
  eapply holds_bind; [apply (runIKEAuthIdentityExchange_holds (mkIdentityConfig _ _ _ _ _ _ _ _) w id0 log0 hi (fr_FinalResponseInner out)); [|done|exact Hw]; by split_and!|].
  intros x w' (Hw' & Hnx & Hxi). cbn [ic_Init ic_Keys] in Hw'. set (out' := fr_with_response _ _ _ _ _).
  assert (Hst' : loop_state cfg id0 log0 (hi + 1) (ix_EAPNext x) out' w') by (by split_and!).
  eapply holds_do; [by apply parseChildSAIfPresent_safe; [by eapply loop_inner|]|]. intros [child|] Hc.
  - apply holds_ret. eapply full_done_weaken; [|by apply went_done; [|apply Hst']]. lia.
  - eapply holds_mono; [by apply IH|]. intros r w2. apply full_done_weaken. lia.
Qed.

Lemma loop_challenge n next (challengeIdentity current : bytes) (transcript : list bytes) out w hi :
  goes_on n -> Packet_ok next -> loop_state cfg id0 log0 hi (Some next) out w ->
  holds (let* challenge := runIKE_AUTH_AKAChallenge rand_Reader (mkAKAConfig (fc_Transport cfg) (fc_Init cfg) (fc_Keys cfg) (fc_SIM cfg) (fr_EAPKeys out)
      challengeIdentity next transcript (fx_localChildSPI fx) (fx_offeredTSi fx) (fx_offeredTSr fx) (fr_NextMessageID out)
      (fc_Random cfg) [] (fc_EAPReauthIV cfg) (fc_EAPReauthCounter cfg) (fc_EAPReauthCounterOK cfg))
      (fx_offeredChildSA fx) (fx_offeredTSi fx) (fx_offeredTSr fx) in
    let out := fr_with_challenge out challenge in
    match ac_ChildSA challenge with
    | Some child =>
        let out := fr_with_child out child in
        mret (match ac_EAPNext challenge with Some p => fr_with_last out (Some p) | None => out end)
    | None => full_auth_loop rand_Reader n peer cfg fx identity current transcript (ac_EAPNext challenge) out
    end) w (full_done cfg fx id0 log0 (hi + 4 * Z.of_nat (S n))).
Proof.
  intros IH Hp (Hw & Hnext & Hps & Hfirst). pose proof Hcfg as (Hpeer & Hinit & Hsim & Hr & _ & _ & _ & _ & _ & _ & _ & _ & _ & _ & _ & Hiv & _).
  eapply holds_bind; [apply (runIKE_AUTH_AKAChallenge_holds (mkAKAConfig _ _ _ _ _ _ _ _ _ _ _ _ _ _ _ _ _) _ _ _ w id0 log0 (fr_FinalResponseInner out) hi); try done|].
  { split_and!; try done. constructor. }
  intros c w' ((Hnx & Hnp & Hc) & Hw'). cbn [ak_Init ak_Keys ak_ChildSPI] in *. cbv zeta.
  assert (Hst' : loop_state cfg id0 log0 (hi + 4) (ac_EAPNext c) (fr_with_challenge out c) w').
  { split_and!; try done. cbn. by case_match. }
  destruct (ac_ChildSA c) as [child|].
  - assert (Hd : full_done cfg fx id0 log0 (hi + 4) (fr_with_child (fr_with_challenge out c) child) w') by (apply went_done; [exact Hc|apply Hst']).
    apply holds_ret. eapply full_done_weaken; [|destruct (ac_EAPNext c); exact Hd]. lia.
  - eapply holds_mono; [by apply IH|]. intros r w2. apply full_done_weaken. lia.
Qed.

Lemma full_auth_loop_holds n : goes_on n.
Proof.
  induction n as [|n IH]; intros current transcript next out w hi Hst; [done|]. cbn [full_auth_loop]. destruct next as [next|]; [|done].
  pose proof Hst as (Hw & Hnext & Hps & Hfirst). pose proof (Hnext next eq_refl) as Hp.
  assert (Hst' : loop_state cfg id0 log0 hi (Some next) (fr_with_last out (Some next)) w) by (by split_and!).
  set (out' := fr_with_last out (Some next)) in *. cbv zeta.
  destruct (pk_Code next =? CodeSuccess); [eapply loop_success; [lia|exact Hst']|]. do 2 (case_match; [done|]).
  destruct (pk_Subtype next =? SubtypeIdentity); [by apply loop_identity|by apply loop_challenge].
Qed.
End loop.

(** *** The whole run *)
Definition full_id (cfg : FullAuthConfig) : Z := first_id (fc_InitialMessageID cfg).
(** The context the run offers: an SPI of its own, and the SA and selectors of the configuration. *)
Definition offers_context (cfg : FullAuthConfig) (fx : fullContext) : Prop :=
  authOfferedChildSA (fc_ChildSA cfg) (fx_localChildSPI fx) = Ok (fx_offeredChildSA fx) /\
  fx_offeredTSi fx = trafficSelectorsOrSWuAny (fc_TSi cfg) /\ fx_offeredTSr fx = trafficSelectorsOrSWuAny (fc_TSr cfg).

Lemma fullAuthLocalChildSPI_holds cfg w :
  full_config_ok cfg -> holds (fullAuthLocalChildSPI rand_Reader cfg) w (fun spi w' => bytes_ok spi /\ w_log w' = w_log w).
Proof.
  intros (_ & _ & _ & Hr & _ & _ & _ & _ & Hsa & Hspi & _). unfold fullAuthLocalChildSPI. cbv zeta.
  destruct (0 <? len (match sa_Proposals _ with [] => _ | _ => _ end)).
  - apply holds_ret. split; [|done]. unfold SA_ok in Hsa. destruct (sa_Proposals (fc_ChildSA cfg)); [constructor|].
    apply Forall_inv in Hsa as (? & ? & ? & ?). done.
  - destruct (0 <? len (fc_ChildSPI cfg)); [destruct (negb _); [done|by apply holds_ret]|].
    eapply holds_read; [by apply random_of_ok| |by split]. intros r Hrr. by apply randomBytes_safe.
Qed.

Lemma RunIKE_AUTH_Full_holds cfg w :
  full_config_ok cfg ->
  holds (RunIKE_AUTH_Full rand_Reader cfg) w (fun out w' => exists fx, offers_context cfg fx /\
    full_done cfg fx (full_id cfg) (w_log w) 34 out w').
Proof.
  intros Hcfg. pose proof Hcfg as (Hpeer & Hinit & Hsim & Hr & Hid & He1 & He2 & He3 & Hsa & Hspi & Hcf & Hch & Hprf & Hiv1 & Hiv2 & Hiv3 & Hmid).
  pose proof Hch as (Hprf0 & Htsi & Htsr). unfold RunIKE_AUTH_Full. eapply holds_bind; [by apply fullAuthLocalChildSPI_holds|]. intros spi w1 [Hb Hl1].
  eapply holds_bind; [apply (RunIKE_AUTH_EAPIdentity_holds (mkAuthConfig _ _ _ _ _ _ _ _ _ _ _ _ _ _ _ _) w1); try done; by split_and!|].
  intros auth w2 (Hw2 & Hnext & Hused & Hfirst). cbn [au_Init au_Keys au_InitialMessageID] in *. rewrite Hl1 in Hw2.
  destruct (authFinalResponse auth) as [finalInner finalBytes]. cbn [fst] in Hw2. set (out := mkFullResult _ _ _ _ _ _ _ _ _ _ _ _ _ _ _ _ _ _ _).
  assert (Hst : loop_state cfg (full_id cfg) (w_log w) 2 (authNextEAP auth) out w2) by (split_and!; [exact Hw2|done|constructor|done]).
  eapply (holds_do _ _ _ (fun sa => authOfferedChildSA (fc_ChildSA cfg) spi = Ok sa)).
  { assert (Hret : returns (authOfferedChildSA (fc_ChildSA cfg) spi)).
    { unfold authOfferedChildSA. case_match; [by case_match|]. eapply safe_returns. by apply childSAWithLocalSPI_safe. }
    by destruct (authOfferedChildSA _ _). }
  intros sa Hoff. cbv zeta. set (fx := mkContext spi sa _ _).
  assert (Hfx : child_inputs_ok (fc_Init cfg) (fx_offeredTSi fx) (fx_offeredTSr fx)) by (split_and!; [done|by apply trafficSelectorsOrSWuAny_typed..]).
  eapply holds_do; [by apply parseChildSAIfPresent_safe; [exact (loop_inner _ _ _ _ _ _ _ Hst)|]|]. intros [child|] Hc.
  - apply holds_ret. exists fx. split; [done|]. eapply full_done_weaken; [|by apply went_done]. lia.
  - destruct (fc_Transport cfg) as [peer|] eqn:Ht; [|done].
    eapply holds_mono; [apply (full_auth_loop_holds peer cfg fx _ (full_id cfg) (w_log w)); [done|done|done|by apply authPermanentIdentity_ok|by apply first_id_ok|exact Hst]|].
    intros out' w' Hd. exists fx. split; [done|]. eapply full_done_weaken; [|exact Hd]. unfold maxFullAuthEAPExchanges. lia.
Qed.
End run.

(** ** Properties *)
Section steps.
Context {C : Crypto}.
Lemma trail_nth init keys id tr ps next inner k x :
  is_u32 id -> trail init keys id tr ps next inner -> tr !! k = Some x ->
  exists payloads read, sent init keys (to_u32 (id + Z.of_nat k)) x.1 payloads /\ received init keys (to_u32 (id + Z.of_nat k)) x.2 read.
Proof.
  intros Hid Ht. revert x. induction Ht as [|tr ps next inner req resp ps' inner' Ht IH Hs Hr]; intros x Hx; [done|].
  apply lookup_app_Some in Hx as [Hx|[Hle Hx]]; [by apply IH|]. apply list_lookup_singleton_Some in Hx as [Hk <-].
  destruct (trail_next _ _ _ _ _ _ _ Hid Ht) as [Hn _]. unfold len in Hn. assert (k = length tr) as -> by lia. rewrite <- Hn. by exists ps', inner'.
Qed.
Lemma child_if_present_accepted {L : CryptoLaws C} cfg fx inner next child :
  Forall Payload_ok inner -> child_inputs_ok (fc_Init cfg) (fx_offeredTSi fx) (fx_offeredTSr fx) ->
  child_if_present cfg fx inner next = Ok (Some child) ->
  cr_NextMessageID child = next /\
  child_accepted (kp_PRF (k_Profile (ir_Keys (fc_Init cfg)))) (k_SKD (ir_Keys (fc_Init cfg))) (ir_NonceI (fc_Init cfg)) (ir_NonceR (fc_Init cfg))
    (fx_localChildSPI fx) (if 0 <? len (sa_Proposals (fx_offeredChildSA fx)) then Some (fx_offeredChildSA fx) else None)
    (fx_offeredTSi fx) (fx_offeredTSr fx) child.
Proof.
  intros Hin (Hprf & Htsi & Htsr). unfold child_if_present, parseChildSAIfPresent. case_match; [done|]. cbv zeta.
  intros (c & Hc & [= <-])%bind_ok. split; [done|].
  match type of Hc with parseChildSAResultWithNonces ?i ?a ?b ?n ?m ?o ?t ?u = _ =>
    pose proof (parseChildSAResult_safe i a b n m o t u Hin Hprf Htsi Htsr) as Hs end.
  rewrite Hc in Hs. exact Hs.
Qed.
End steps.

(** C7: the IKE_AUTH run ends: against any responder, with any SIM, [RunIKE_AUTH_Full]
    returns a result or an error (it neither panics nor loops), and a run that
    succeeds took at least one and at most 34 exchanges: two for the initial
    request and the identity, and at most four for each of the eight turns. *)
Theorem RunIKE_AUTH_Full_terminates (C : Crypto) (L : CryptoLaws C) rand_Reader cfg w :
  source_ok rand_Reader -> full_config_ok cfg ->
  returns (RunIKE_AUTH_Full rand_Reader cfg w) /\
  forall out w', RunIKE_AUTH_Full rand_Reader cfg w = Ok (out, w') -> exists tr, w_log w' = w_log w ++ tr /\ 1 <= len tr <= 34.
Proof.
  intros Hr Hcfg. pose proof (RunIKE_AUTH_Full_holds rand_Reader Hr cfg w Hcfg) as H. split; [by eapply holds_returns|].
  intros out w' E. apply (holds_Ok _ _ _ _ _ H) in E as (fx & _ & _ & tr & ps & Hl & _ & Hlen & _). by exists tr.
Qed.

(** C6: the message identifiers of a run: in a run that succeeds the k-th exchange
    carries identifier initial + k, modulo 2^32; the responder reads its request
    as a protected IKE_AUTH message of this SA, and its response was accepted only
    as an authentic IKE_AUTH response of this SA with the same identifier, the
    response flag and no error notification; the result's next identifier is the
    one after the last exchange. *)
Theorem RunIKE_AUTH_Full_exchanges (C : Crypto) (L : CryptoLaws C) rand_Reader cfg w out w' :
  source_ok rand_Reader -> full_config_ok cfg -> RunIKE_AUTH_Full rand_Reader cfg w = Ok (out, w') ->
  exists tr, w_log w' = w_log w ++ tr /\ fr_NextMessageID out = to_u32 (full_id cfg + len tr) /\
    forall k req resp, tr !! k = Some (req, resp) -> exists payloads inner,
      sent (fc_Init cfg) (full_keys cfg) (to_u32 (full_id cfg + Z.of_nat k)) req payloads /\
      received (fc_Init cfg) (full_keys cfg) (to_u32 (full_id cfg + Z.of_nat k)) resp inner.
Proof.
  intros Hr Hcfg E. pose proof (RunIKE_AUTH_Full_holds rand_Reader Hr cfg w Hcfg) as H.
  apply (holds_Ok _ _ _ _ _ H) in E as (fx & _ & _ & tr & ps & Hl & Ht & _). exists tr. split; [done|].
  assert (Hid : is_u32 (full_id cfg)) by (apply first_id_ok, Hcfg). split; [by eapply trail_next|].
  intros k req resp Hk. by eapply (trail_nth _ _ _ _ _ _ _ k (req, resp)).
Qed.

(** C5: what an accepted child SA rests on: the result's child SA was read from the
    last response of the run, with the SPI, SA and selectors the run offers (so
    its SA is a selection of the offer, its selectors narrow the offered ones and
    its keys are derived from SK_d and the nonces); and either the last request
    was the initiator's own AUTH, the MAC under the MSK of its first message, the
    responder's nonce and its identity, and then the response carried an AUTH
    that verifies under the same MSK for the responder's identity, or the last
    request carried no AUTH at all. *)
Theorem RunIKE_AUTH_Full_child (C : Crypto) (L : CryptoLaws C) rand_Reader cfg w out w' :
  source_ok rand_Reader -> full_config_ok cfg -> RunIKE_AUTH_Full rand_Reader cfg w = Ok (out, w') ->
  exists fx child tr req resp id payloads, offers_context cfg fx /\ fr_ChildSA out = Some child /\
    w_log w' = w_log w ++ tr ++ [(req, resp)] /\ sent (fc_Init cfg) (full_keys cfg) id req payloads /\
    received (fc_Init cfg) (full_keys cfg) id resp (fr_FinalResponseInner out) /\
    child_accepted (kp_PRF (k_Profile (ir_Keys (fc_Init cfg)))) (k_SKD (ir_Keys (fc_Init cfg))) (ir_NonceI (fc_Init cfg)) (ir_NonceR (fc_Init cfg))
      (fx_localChildSPI fx) (if 0 <? len (sa_Proposals (fx_offeredChildSA fx)) then Some (fx_offeredChildSA fx) else None)
      (fx_offeredTSi fx) (fx_offeredTSr fx) child /\
    cr_NextMessageID child = fr_NextMessageID out /\ authentication cfg payloads out.
Proof.
  intros Hr Hcfg E. pose proof (RunIKE_AUTH_Full_holds rand_Reader Hr cfg w Hcfg) as H.
  apply (holds_Ok _ _ _ _ _ H) in E as (fx & Hfx & (child & Hc & Hread) & tr & ps & Hl & Ht & Hlen & Hauth).
  destruct tr as [|[req resp] tr _] using rev_ind; [change (len []) with 0 in Hlen; lia|].
  destruct (trail_snoc _ _ _ _ _ _ _ _ Ht) as (id & Hs & Hrec & Hn).
  pose proof Hcfg as (_ & _ & _ & _ & _ & _ & _ & _ & _ & _ & _ & (Hprf & Htsi & Htsr) & _).
  destruct (child_if_present_accepted cfg fx (fr_FinalResponseInner out) (fr_NextMessageID out) child) as [Hcn Hca]; [by eapply received_ok| |exact Hread|].
  { destruct Hfx as (_ & -> & ->). split_and!; [done|by apply trafficSelectorsOrSWuAny_typed..]. }
  exists fx, child, tr, req, resp, id, ps. by split_and!.
Qed.

(** A responder that holds the IKE keys, and two scripts for it. *)
Definition sample_auth_init : InitResult := sample_init (Sk.sample_keys sample_profile).
Definition sample_answer_of (id : Z) (inner : list Payload) : bytes :=
  match ProtectMessage (C := toy_crypto) zero_reader (authHeader sample_auth_init id false) (Sk.sample_keys sample_profile) false inner [1;1;1;1;1;1;1;1;1;1;1;1;1;1;1;1] with
  | Ok (_, raw) => raw
  | _ => []
  end.
Definition sample_child_payloads : list Payload :=
  match SecurityAssociationPayload (DefaultESPProposal [9; 9; 9; 9]), TrafficSelectorsPayload PayloadTSi SWuAnyTrafficSelectors,
        TrafficSelectorsPayload PayloadTSr SWuAnyTrafficSelectors with
  | Ok sa, Ok tsi, Ok tsr => [sa; tsi; tsr]
  | _, _, _ => []
  end.
Definition sample_full (peer : Peer) (msk : bytes) : FullAuthConfig :=
  mkFullConfig (Some peer) sample_auth_init (Sk.sample_keys sample_profile) None (mkKeys [] [] [] [] msk [] [] []) (mkIdentity IDFQDN [65])
    [66] [] [] 0 false (mkSA []) [1; 2; 3; 4] (mkTSs []) (mkTSs []) (mkConfig 0 []) None [] [] [] 0.
(** The SA in the first response, and nothing else. *)
Definition sample_hasty : bytes := sample_answer_of 1 sample_child_payloads.
Definition sample_hasty_peer : Peer := fun _ _ => Ok sample_hasty.
(** EAP success, then AUTH and the SA. *)
Definition sample_idr : Payload := mkPayload PayloadIDr 0 false [IDFQDN; 0; 0; 0; 67].
Definition sample_first : bytes := sample_answer_of 1 [sample_idr; EAPPayload [CodeSuccess; 1; 0; 4]].
Definition sample_second : bytes :=
  sample_answer_of 2 (mkPayload PayloadAUTH 0 false ([AuthMethodSharedKeyMIC; 0; 0; 0] ++
    auth_value (C := toy_crypto) sample_auth_init (Sk.sample_keys sample_profile) (mkIdentity IDFQDN [67]) [5; 5] false) :: sample_child_payloads).
Definition sample_honest_peer : Peer := fun log _ => Ok (match log with [] => sample_first | _ => sample_second end).
Definition world0 : World := mkWorld 0 [].

(** The finding: a child SA is accepted although there was no EAP exchange, no MSK
    and no AUTH payload. *)
Example child_without_authentication :
  match RunIKE_AUTH_Full (C := toy_crypto) zero_source (sample_full sample_hasty_peer []) world0 with
  | Ok (out, w') => hasPayload (fr_FinalResponseInner out) PayloadAUTH = false /\
      fr_ChildSA out <> None /\ fr_AKAChallenges out = [] /\ ks_MSK (fr_EAPKeys out) = [] /\ len (w_log w') = 1
  | _ => False
  end.
Proof. vm_compute. split_and!; done. Qed.

Lemma sample_full_ok peer msk : peer_ok peer -> full_config_ok (sample_full peer msk).
Proof. intros Hp. unfold full_config_ok, init_ok, child_inputs_ok. cbn. split_and!; try by_decide; try done; try exact I. intros p [= <-]. exact Hp. Qed.
Lemma sample_hasty_ok : peer_ok sample_hasty_peer.
Proof. intros log req. cbn. vm_compute. repeat constructor; done. Qed.
Lemma sample_honest_ok : peer_ok sample_honest_peer.
Proof. intros log req. unfold sample_honest_peer. cbn. destruct log; vm_compute; repeat constructor; done. Qed.

Lemma RunIKE_AUTH_Full_terminates_witness :
  exists out w', RunIKE_AUTH_Full (C := toy_crypto) zero_source (sample_full sample_honest_peer [5; 5]) world0 = Ok (out, w') /\
    exists tr, w_log w' = [] ++ tr /\ 1 <= len tr <= 34.
Proof.
  destruct (RunIKE_AUTH_Full (C := toy_crypto) zero_source (sample_full sample_honest_peer [5; 5]) world0) as [[out w']| | |] eqn:E;
    [|vm_compute in E; discriminate E..].
  exists out, w'. split; [reflexivity|].
  exact (proj2 (RunIKE_AUTH_Full_terminates toy_crypto toy_crypto_laws zero_source (sample_full sample_honest_peer [5; 5]) world0
    zero_source_ok (sample_full_ok _ _ sample_honest_ok)) out w' E).
Defined.
Lemma RunIKE_AUTH_Full_exchanges_witness :
  exists out w', RunIKE_AUTH_Full (C := toy_crypto) zero_source (sample_full sample_honest_peer [5; 5]) world0 = Ok (out, w') /\
    exists tr, w_log w' = [] ++ tr /\ fr_NextMessageID out = to_u32 (1 + len tr).
Proof.
  destruct (RunIKE_AUTH_Full (C := toy_crypto) zero_source (sample_full sample_honest_peer [5; 5]) world0) as [[out w']| | |] eqn:E;
    [|vm_compute in E; discriminate E..].
  exists out, w'. split; [reflexivity|].
  destruct (RunIKE_AUTH_Full_exchanges toy_crypto toy_crypto_laws zero_source (sample_full sample_honest_peer [5; 5]) world0 out w'
    zero_source_ok (sample_full_ok _ _ sample_honest_ok) E) as (tr & Hl & Hn & _). exists tr. split; [exact Hl|exact Hn].
Defined.
Lemma RunIKE_AUTH_Full_child_witness :
  exists out w', RunIKE_AUTH_Full (C := toy_crypto) zero_source (sample_full sample_honest_peer [5; 5]) world0 = Ok (out, w') /\
    exists child, fr_ChildSA out = Some child /\ cr_NextMessageID child = fr_NextMessageID out.
Proof.
  destruct (RunIKE_AUTH_Full (C := toy_crypto) zero_source (sample_full sample_honest_peer [5; 5]) world0) as [[out w']| | |] eqn:E;
    [|vm_compute in E; discriminate E..].
  exists out, w'. split; [reflexivity|].
  destruct (RunIKE_AUTH_Full_child toy_crypto toy_crypto_laws zero_source (sample_full sample_honest_peer [5; 5]) world0 out w'
    zero_source_ok (sample_full_ok _ _ sample_honest_ok) E) as (fx & child & tr & req & resp & id & ps & _ & Hc & _ & _ & _ & _ & Hn & _).
  exists child. split; [exact Hc|exact Hn].
Defined.
