(* ===== verification/Esp.v ===== *)
(** * ESP (engine/swu/esp/esp.go)

    A security association seals and opens ESP packets under AES-CBC with
    HMAC or under AES-GCM, numbers the packets it sends and rejects replays of
    the packets it received.  A method of [*SA] takes the SA and returns it
    with its result; a nil receiver is [None]. *)
From Stdlib Require Import Sorted.
From stdpp Require Import gmap.
From S2P Require Import Prelude Errors Crypto Types Codec Notify Sa Keys Sk Session EapAka ChildSa.
#[local] Open Scope Z_scope.

Definition NextHeaderIPv4 := 4.
Definition NextHeaderIPv6 := 41.

(** [aesGCMSaltLength] and [aesGCMExplicitIVLength] are those of Keys.v: the two
    packages declare the same values. *)
Definition aesGCMICVLength := 16.
Definition aesGCMPaddingAlignment := 4.
Definition IntegrityHMACSHA1_96 := INTEG_HMAC_SHA1_96.
Definition IntegrityHMACSHA2_256_128 := INTEG_HMAC_SHA2_256_128.
Definition EncryptionAESCBC := ENCR_AES_CBC.
Definition EncryptionAESGCM_16 := ENCR_AES_GCM_16.
#[export] Hint Unfold aesGCMICVLength aesGCMPaddingAlignment : goconst.

Record SA := mkESP {
  es_SPI : Z;
  es_Encryption : Z;
  es_EncryptionKey : bytes;
  es_IntegrityKey : bytes;
  es_Integrity : Z;
  es_ICVLength : Z;
  es_BlockSize : Z;
  es_Sequence : Z;
  es_HighestSequence : Z;
  es_ReplayWindowSize : Z;
  es_ReplayBitmap : Z
}.

Record SealOptions := mkSealOptions { so_Sequence : Z; so_IV : bytes; so_Random : option Reader }.
Record OpenResult := mkOpenResult {
  or_SPI : Z;
  or_Sequence : Z;
  or_NextHeader : Z;
  or_Payload : bytes
}.

(** [s.Sequence = seq], [sa.BlockSize = n; sa.ICVLength = m], the replay state. *)
Definition with_Sequence (s : SA) (seq : Z) : SA :=
  mkESP (es_SPI s) (es_Encryption s) (es_EncryptionKey s) (es_IntegrityKey s) (es_Integrity s) (es_ICVLength s)
    (es_BlockSize s) seq (es_HighestSequence s) (es_ReplayWindowSize s) (es_ReplayBitmap s).
Definition with_lengths (s : SA) (icv blockSize : Z) : SA :=
  mkESP (es_SPI s) (es_Encryption s) (es_EncryptionKey s) (es_IntegrityKey s) (es_Integrity s) icv
    blockSize (es_Sequence s) (es_HighestSequence s) (es_ReplayWindowSize s) (es_ReplayBitmap s).
Definition with_replay (s : SA) (highest bitmap : Z) : SA :=
  mkESP (es_SPI s) (es_Encryption s) (es_EncryptionKey s) (es_IntegrityKey s) (es_Integrity s) (es_ICVLength s)
    (es_BlockSize s) (es_Sequence s) highest (es_ReplayWindowSize s) bitmap.

Definition encryptionAlgorithm (s : SA) : Z :=
  if es_Encryption s =? 0 then EncryptionAESCBC else es_Encryption s.

Definition validAESGCMKeyLength (n : Z) : bool :=
  (n =? 16 + aesGCMSaltLength) || (n =? 24 + aesGCMSaltLength) || (n =? 32 + aesGCMSaltLength).

Definition integrityICVLength (integ : Z) : Z :=
  if integ =? IntegrityHMACSHA1_96 then 12 else if integ =? IntegrityHMACSHA2_256_128 then 16 else 0.
Definition blockSizeForChildProfile (profile : ESPKeyProfile) : Z :=
  if ep_EncryptionID profile =? EncryptionAESGCM_16 then aesGCMPaddingAlignment else aes_BlockSize.
Definition icvLengthForChildProfile (profile : ESPKeyProfile) : Z :=
  if ep_EncryptionID profile =? EncryptionAESGCM_16 then aesGCMICVLength
  else integrityICVLength (ep_IntegrityID profile).

Definition spiFromBytes (spi : bytes) : result Z :=
  if negb (len spi =? 4) then Errorf Esp_ErrInvalidSA else
  let! v := Uint32 spi in
  if v =? 0 then Errorf Esp_ErrInvalidSA else Ok v.

Definition NewSA (sa : SA) : result SA :=
  if es_SPI sa =? 0 then Errorf Esp_ErrInvalidSA else
  let kl := len (es_EncryptionKey sa) in
  if encryptionAlgorithm sa =? EncryptionAESCBC then
    if negb (kl =? 16) && negb (kl =? 24) && negb (kl =? 32) then Errorf Esp_ErrInvalidSA else
    if len (es_IntegrityKey sa) =? 0 then Errorf Esp_ErrInvalidSA else
    let blockSize := if es_BlockSize sa =? 0 then aes_BlockSize else es_BlockSize sa in
    if negb (blockSize =? aes_BlockSize) then Errorf Esp_ErrInvalidSA else
    let icv := if es_ICVLength sa =? 0 then integrityICVLength (es_Integrity sa) else es_ICVLength sa in
    if icv <=? 0 then Errorf Esp_ErrInvalidSA else Ok (with_lengths sa icv blockSize)
  else if encryptionAlgorithm sa =? EncryptionAESGCM_16 then
    if negb (validAESGCMKeyLength kl) then Errorf Esp_ErrInvalidSA else
    let blockSize := if es_BlockSize sa =? 0 then aesGCMPaddingAlignment else es_BlockSize sa in
    if negb (blockSize =? aesGCMPaddingAlignment) then Errorf Esp_ErrInvalidSA else
    let icv := if es_ICVLength sa =? 0 then aesGCMICVLength else es_ICVLength sa in
    if negb (icv =? aesGCMICVLength) then Errorf Esp_ErrInvalidSA else Ok (with_lengths sa icv blockSize)
  else Errorf Esp_ErrInvalidSA.

Definition NewOutboundSAFromChild (child : ChildSAResult) : result SA :=
  let! spi := spiFromBytes (cr_RemoteSPI child) in
  let profile := ck_Profile (cr_Keys child) in
  let keys := ck_Outbound (cr_Keys child) in
  NewSA (mkESP spi (ep_EncryptionID profile) (ek_EncryptionKey keys) (ek_IntegrityKey keys)
           (ep_IntegrityID profile) (icvLengthForChildProfile profile) (blockSizeForChildProfile profile) 0 0 0 0).

Definition NewInboundSAFromChild (child : ChildSAResult) : result SA :=
  let! spi := spiFromBytes (cr_LocalSPI child) in
  let profile := ck_Profile (cr_Keys child) in
  let keys := ck_Inbound (cr_Keys child) in
  NewSA (mkESP spi (ep_EncryptionID profile) (ek_EncryptionKey keys) (ek_IntegrityKey keys)
           (ep_IntegrityID profile) (icvLengthForChildProfile profile) (blockSizeForChildProfile profile) 0 0 64 0).

(** ** The anti-replay window *)
Definition checkReplay (s : SA) (seq : Z) : result unit :=
  if es_ReplayWindowSize s =? 0 then Ok tt else
  let window := if 64 <? es_ReplayWindowSize s then 64 else es_ReplayWindowSize s in
  if es_HighestSequence s <? seq then Ok tt else
  let diff := to_u32 (es_HighestSequence s - seq) in
  if window <=? diff then Errorf ErrReplay else
  if negb (Z.land (es_ReplayBitmap s) (to_u64 (Z.shiftl 1 diff)) =? 0) then Errorf ErrReplay else Ok tt.

Definition acceptSequence (s : SA) (seq : Z) : SA :=
  if es_ReplayWindowSize s =? 0 then
    if es_HighestSequence s <? seq then with_replay s seq (es_ReplayBitmap s) else s
  else
  if es_HighestSequence s <? seq then
    let diff := to_u32 (seq - es_HighestSequence s) in
    with_replay s seq (if 64 <=? diff then 1 else Z.lor (to_u64 (Z.shiftl (es_ReplayBitmap s) diff)) 1)
  else
    let diff := to_u32 (es_HighestSequence s - seq) in
    if diff <? 64 then
      with_replay s (es_HighestSequence s) (Z.lor (es_ReplayBitmap s) (to_u64 (Z.shiftl 1 diff)))
    else s.

(** ** Padding *)
Definition espPlaintext (payload : bytes) (nextHeader blockSize : Z) : result bytes :=
  let! r := go_rem (len payload + 2) blockSize in
  let! padLen := go_rem (blockSize - r) blockSize in
  Ok (payload ++ ((fun i => to_u8 (Z.of_nat i + 1)) <$> seq 0 (Z.to_nat padLen)) ++ [to_u8 padLen; nextHeader]).

(** The loop of [parseESPPlaintext]: [n] octets are left to check. *)
Fixpoint check_padding (n : nat) (plain : bytes) (paddingStart i : Z) : result unit :=
  match n with
  | O => Ok tt
  | S n' =>
      let! b := at_ plain (paddingStart + i) in
      if negb (b =? to_u8 (i + 1)) then Errorf Esp_ErrInvalidPacket else
      check_padding n' plain paddingStart (i + 1)
  end.

Definition parseESPPlaintext (plain : bytes) : result (bytes * Z) :=
  if len plain <? 2 then Errorf Esp_ErrInvalidPacket else
  let! padLen := at_ plain (len plain - 2) in
  let! nextHeader := at_ plain (len plain - 1) in
  if len plain <? padLen + 2 then Errorf Esp_ErrInvalidPacket else
  let paddingStart := len plain - 2 - padLen in
  let! _ := check_padding (Z.to_nat padLen) plain paddingStart 0 in
  let! payload := slice plain 0 paddingStart in
  Ok (payload, nextHeader).

(** A method that changes the SA only as it returns without error. *)
Definition commit {A} (s : SA) (m : result (SA * A)) : SA * result A :=
  match m with
  | Ok (s', a) => (s', Ok a)
  | Err e => (s, Err e)
  | Panic => (s, Panic)
  | OutOfFuel => (s, OutOfFuel)
  end.

Section esp.
Context {C : Crypto} (rand_Reader : Reader).

Definition integrity (s : SA) (data : bytes) : result bytes :=
  let! h :=
    (if es_Integrity s =? IntegrityHMACSHA1_96 then Ok SHA1
     else if es_Integrity s =? IntegrityHMACSHA2_256_128 then Ok SHA256
     else Errorf Esp_ErrInvalidSA) in
  let sum := hmac_Sum h (es_IntegrityKey s) data in
  if len sum <? es_ICVLength s then Errorf Esp_ErrInvalidSA else slice sum 0 (es_ICVLength s).

(** The AEAD is its AES key and its tag size. *)
Definition aesGCMAEAD (s : SA) : result (bytes * Z * bytes) :=
  let keyLen := len (es_EncryptionKey s) - aesGCMSaltLength in
  let! aesKey := slice (es_EncryptionKey s) 0 keyLen in
  let! _ := aes_NewCipher aesKey in
  let! _ := NewGCMWithTagSize (es_ICVLength s) in
  let! salt := slice_from (es_EncryptionKey s) keyLen in
  Ok (aesKey, es_ICVLength s, salt).
Definition aesGCMNonce (salt iv : bytes) : bytes := salt ++ iv.

Definition aesCBCEncrypt (key iv plain : bytes) : result bytes :=
  let! _ := aes_NewCipher key in
  if negb (len iv =? aes_BlockSize) || negb (Z.rem (len plain) aes_BlockSize =? 0)
  then Errorf Esp_ErrInvalidPacket else Ok (cbc_CryptBlocks_enc key iv plain).
Definition aesCBCDecrypt (key iv ciphertext : bytes) : result bytes :=
  let! _ := aes_NewCipher key in
  if negb (len iv =? aes_BlockSize) || negb (Z.rem (len ciphertext) aes_BlockSize =? 0)
  then Errorf Esp_ErrInvalidPacket else Ok (cbc_CryptBlocks_dec key iv ciphertext).

(** [iv = make([]byte, n); io.ReadFull(random, iv)] *)
Definition read_iv (random : option Reader) (n : Z) : result bytes :=
  let random := match random with None => rand_Reader | Some r => r end in
  if n <? 0 then Panic else if n =? 0 then Ok [] else random n.

Definition sealAESCBC (s : SA) (nextHeader : Z) (payload : bytes) (seq : Z) (opts : SealOptions) : result bytes :=
  let! iv := (if len (so_IV opts) =? 0 then read_iv (so_Random opts) (es_BlockSize s) else Ok (so_IV opts)) in
  if negb (len iv =? es_BlockSize s) then Errorf Esp_ErrInvalidPacket else
  let! plain := espPlaintext payload nextHeader (es_BlockSize s) in
  let! ciphertext := aesCBCEncrypt (es_EncryptionKey s) iv plain in
  if len iv + len ciphertext + es_ICVLength s <? 0 then Panic else
  let packet := be_bytes 4 (es_SPI s) ++ be_bytes 4 seq in
  let packet := packet ++ iv in
  let packet := packet ++ ciphertext in
  let! icv := integrity s packet in
  Ok (packet ++ icv).

Definition sealAESGCM (s : SA) (nextHeader : Z) (payload : bytes) (seq : Z) (opts : SealOptions) : result bytes :=
  let iv := if len (so_IV opts) =? 0 then be_bytes 8 seq else so_IV opts in
  if negb (len iv =? aesGCMExplicitIVLength) then Errorf Esp_ErrInvalidPacket else
  let! a := aesGCMAEAD s in
  let '(aesKey, overhead, salt) := a in
  let! plain := espPlaintext payload nextHeader (es_BlockSize s) in
  let packet := be_bytes 4 (es_SPI s) ++ be_bytes 4 seq in
  let packet := packet ++ iv in
  let nonce := aesGCMNonce salt iv in
  let! aad := slice packet 0 8 in
  let! sealed := aead_Seal aesKey overhead nonce plain aad in
  Ok (packet ++ sealed).

Definition Seal (s : option SA) (nextHeader : Z) (payload : bytes) (opts : SealOptions) : option SA * result bytes :=
  match s with
  | None => (None, Errorf Esp_ErrInvalidSA)
  | Some s =>
      if (so_Sequence opts =? 0) && (es_Sequence s =? 0xffffffff) then (Some s, Errorf Esp_ErrInvalidSA) else
      let '(s, seq) :=
        if so_Sequence opts =? 0 then
          let s := with_Sequence s (to_u32 (es_Sequence s + 1)) in (s, es_Sequence s)
        else if es_Sequence s <? so_Sequence opts then (with_Sequence s (so_Sequence opts), so_Sequence opts)
        else (s, so_Sequence opts) in
      (Some s,
       if encryptionAlgorithm s =? EncryptionAESCBC then sealAESCBC s nextHeader payload seq opts
       else if encryptionAlgorithm s =? EncryptionAESGCM_16 then sealAESGCM s nextHeader payload seq opts
       else Errorf Esp_ErrInvalidSA)
  end.

Definition openAESCBC (s : SA) (packet : bytes) : SA * result OpenResult :=
  commit s (
  if len packet <? 8 + es_BlockSize s + es_ICVLength s + es_BlockSize s then Errorf Esp_ErrInvalidPacket else
  let! spi := u32_at packet 0 4 in
  if negb (spi =? es_SPI s) then Errorf Esp_ErrInvalidPacket else
  let! seq := u32_at packet 4 8 in
  if seq =? 0 then Errorf Esp_ErrInvalidPacket else
  let bodyEnd := len packet - es_ICVLength s in
  let! gotICV := slice_from packet bodyEnd in
  let! authenticated := slice packet 0 bodyEnd in
  let! wantICV := integrity s authenticated in
  if negb (bytesEqual gotICV wantICV) then Errorf Esp_ErrInvalidPacket else
  let! _ := checkReplay s seq in
  let! body := slice packet 8 bodyEnd in
  let! bad :=
    (if len body <? es_BlockSize s then Ok true else
     let! r := go_rem (len body - es_BlockSize s) (es_BlockSize s) in Ok (negb (r =? 0))) in
  if (bad : bool) then Errorf Esp_ErrInvalidPacket else
  let! iv := slice body 0 (es_BlockSize s) in
  let! ciphertext := slice_from body (es_BlockSize s) in
  let! plain := aesCBCDecrypt (es_EncryptionKey s) iv ciphertext in
  let! p := parseESPPlaintext plain in
  let '(payload, nextHeader) := p in
  Ok (acceptSequence s seq, mkOpenResult spi seq nextHeader payload)).

Definition openAESGCM (s : SA) (packet : bytes) : SA * result OpenResult :=
  commit s (
  if len packet <? 8 + aesGCMExplicitIVLength + es_ICVLength s + 2 then Errorf Esp_ErrInvalidPacket else
  let! spi := u32_at packet 0 4 in
  if negb (spi =? es_SPI s) then Errorf Esp_ErrInvalidPacket else
  let! seq := u32_at packet 4 8 in
  if seq =? 0 then Errorf Esp_ErrInvalidPacket else
  let! a := aesGCMAEAD s in
  let '(aesKey, overhead, salt) := a in
  let! body := slice_from packet 8 in
  let! iv := slice body 0 aesGCMExplicitIVLength in
  let! ciphertext := slice_from body aesGCMExplicitIVLength in
  let! aad := slice packet 0 8 in
  let! plain := map_err (fun _ => Sentinel Esp_ErrInvalidPacket)
                  (aead_Open aesKey overhead (aesGCMNonce salt iv) ciphertext aad) in
  let! _ := checkReplay s seq in
  let! p := parseESPPlaintext plain in
  let '(payload, nextHeader) := p in
  Ok (acceptSequence s seq, mkOpenResult spi seq nextHeader payload)).

Definition Open (s : option SA) (packet : bytes) : option SA * result OpenResult :=
  match s with
  | None => (None, Errorf Esp_ErrInvalidSA)
  | Some s =>
      if encryptionAlgorithm s =? EncryptionAESCBC then
        let '(s, r) := openAESCBC s packet in (Some s, r)
      else if encryptionAlgorithm s =? EncryptionAESGCM_16 then
        let '(s, r) := openAESGCM s packet in (Some s, r)
      else (Some s, Errorf Esp_ErrInvalidSA)
  end.
End esp.

(** ** Well-formed security associations *)
Definition esp_ok (s : SA) : Prop :=
  is_u32 (es_SPI s) /\ es_SPI s <> 0 /\ is_u32 (es_Sequence s) /\ is_u32 (es_HighestSequence s) /\
  is_u32 (es_ReplayWindowSize s) /\ is_u64 (es_ReplayBitmap s) /\
  ((encryptionAlgorithm s = EncryptionAESCBC /\ len (es_EncryptionKey s) ∈ [16; 24; 32] /\
    es_IntegrityKey s <> [] /\ es_BlockSize s = 16 /\ 0 < es_ICVLength s) \/
   (encryptionAlgorithm s = EncryptionAESGCM_16 /\ len (es_EncryptionKey s) ∈ [20; 28; 36] /\
    es_BlockSize s = 4 /\ es_ICVLength s = 16)).

(** The fields that identify the SA and its keys; they never change. *)
Definition same_keys (s s' : SA) : Prop :=
  es_SPI s' = es_SPI s /\ es_Encryption s' = es_Encryption s /\ es_EncryptionKey s' = es_EncryptionKey s /\
  es_IntegrityKey s' = es_IntegrityKey s /\ es_Integrity s' = es_Integrity s /\
  es_ICVLength s' = es_ICVLength s /\ es_BlockSize s' = es_BlockSize s /\
  es_ReplayWindowSize s' = es_ReplayWindowSize s.

#[export] Instance same_keys_equivalence : Equivalence same_keys.
Proof.
  split; unfold same_keys.
  - by intros s.
  - intros s s' H. destruct_and! H. by split_and!.
  - intros s1 s2 s3 H1 H2. destruct_and! H1. destruct_and! H2. split_and!; congruence.
Qed.

Lemma same_keys_ok s s' :
  same_keys s s' -> is_u32 (es_Sequence s') -> is_u32 (es_HighestSequence s') -> is_u64 (es_ReplayBitmap s') ->
  esp_ok s -> esp_ok s'.
Proof.
  unfold same_keys, esp_ok, encryptionAlgorithm. intros (-> & -> & -> & -> & _ & -> & -> & ->) ? ? ? (? & ? & _ & _ & ? & _ & ?).
  by split_and!.
Qed.

Lemma NewSA_safe sa :
  is_u32 (es_SPI sa) -> is_u32 (es_Sequence sa) -> is_u32 (es_HighestSequence sa) ->
  is_u32 (es_ReplayWindowSize sa) -> is_u64 (es_ReplayBitmap sa) ->
  safe (NewSA sa) (fun s => esp_ok s /\ s = with_lengths sa (es_ICVLength s) (es_BlockSize s)).
Proof.
  intros. unfold NewSA, validAESGCMKeyLength. go_case Hspi; [done|].
  destruct (Z.eqb_spec (encryptionAlgorithm sa) EncryptionAESCBC) as [He|He].
  - go_case H5; [done|]. go_case H6; [done|].
    set (bs := if es_BlockSize sa =? 0 then _ else _). set (icv := if es_ICVLength sa =? 0 then _ else _).
    go_case H7; [done|]. go_case H8; [done|]. cbn [safe]. split; [|done]. unfold esp_ok, aes_BlockSize in *.
    assert (es_IntegrityKey sa <> []) by (intros E; by rewrite E in H6).
    split_and!; try done; [by apply Z.eqb_neq|]. left. split_and!; try done; cbn; [|lia|lia].
    rewrite !elem_of_cons. lia.
  - destruct (Z.eqb_spec (encryptionAlgorithm sa) EncryptionAESGCM_16) as [Hg|Hg]; [|done].
    go_case H5; [done|].
    set (bs := if es_BlockSize sa =? 0 then _ else _). set (icv := if es_ICVLength sa =? 0 then _ else _).
    go_case H6; [done|]. go_case H7; [done|]. cbn [safe]. split; [|done].
    unfold esp_ok, aesGCMPaddingAlignment, aesGCMICVLength, aesGCMSaltLength in *.
    split_and!; try done; [by apply Z.eqb_neq|]. right. split_and!; try done; cbn; [|lia|lia].
    rewrite !elem_of_cons. lia.
Qed.

(** ** The anti-replay window, abstractly

    [A] is the set of sequence numbers accepted so far. *)
Definition window_of (s : SA) : Z := Z.min (es_ReplayWindowSize s) 64.
Definition admissible (A : gset Z) (w seq : Z) : Prop := (seq ∉ A) /\ forall x, x ∈ A -> x < seq + w.

(** What the SA remembers of [A]: its maximum, and the numbers within 64 of it. *)
Definition remembers (s : SA) (A : gset Z) : Prop :=
  (forall x, x ∈ A -> 1 <= x <= es_HighestSequence s) /\
  (es_HighestSequence s = 0 \/ es_HighestSequence s ∈ A) /\ is_u32 (es_HighestSequence s) /\
  is_u64 (es_ReplayBitmap s) /\
  forall d, 0 <= d < 64 -> Z.testbit (es_ReplayBitmap s) d = true <-> es_HighestSequence s - d ∈ A.

Lemma to_u64_shiftl_1 d : 0 <= d < 64 -> to_u64 (Z.shiftl 1 d) = 2 ^ d.
Proof.
  intros Hd. rewrite Z.shiftl_1_l. unfold to_u64. apply Z.mod_small. split; [lia|].
  change 18446744073709551616 with (2 ^ 64). apply Z.pow_lt_mono_r; lia.
Qed.

Lemma is_u64_testbit b : is_u64 b <-> 0 <= b /\ forall d, 64 <= d -> Z.testbit b d = false.
Proof.
  unfold in_range. change 18446744073709551616 with (2 ^ 64). split.
  - intros Hb. split; [lia|]. intros d Hd. apply (testbit_small _ 64); lia.
  - intros [Hb Hd]. split; [done|]. destruct (Z.eq_dec b 0) as [->|]; [lia|].
    destruct (Z_lt_ge_dec b (2 ^ 64)) as [|Hge]; [done|]. exfalso.
    assert (64 <= Z.log2 b). { apply (Z.log2_le_mono (2 ^ 64)) in Hge || (apply Z.ge_le, (Z.log2_le_mono (2 ^ 64)) in Hge). by rewrite Z.log2_pow2 in Hge by lia. }
    specialize (Hd (Z.log2 b) ltac:(done)). rewrite Z.bit_log2 in Hd by lia. done.
Qed.

Lemma checkReplay_spec s A seq :
  remembers s A -> 1 <= seq -> is_u32 seq -> 0 < es_ReplayWindowSize s ->
  checkReplay s seq = (if decide (admissible A (window_of s) seq) then Ok tt else Errorf ErrReplay).
Proof.
  intros (Hmax & Hin & Hu & Hbu & Hbits) Hs Hsu Hw. unfold checkReplay. go_if.
  set (w := if 64 <? es_ReplayWindowSize s then _ else _).
  assert (Hw' : w = window_of s) by (unfold w, window_of; case_match; lia).
  go_case H0.
  { rewrite decide_True; [done|]. split.
    - intros ?%Hmax. lia.
    - intros x ?%Hmax. unfold window_of. lia. }
  assert (Hd : to_u32 (es_HighestSequence s - seq) = es_HighestSequence s - seq)
    by (apply Z.mod_small; unfold in_range in *; lia). rewrite Hd.
  go_case H1.
  { rewrite decide_False; [done|]. intros [_ Hlt]. destruct Hin as [?|Hin]; [lia|]. apply Hlt in Hin. lia. }
  assert (0 <= es_HighestSequence s - seq < 64) as Hdr by (unfold window_of in Hw'; lia).
  rewrite to_u64_shiftl_1, land_pow2_eqb, negb_involutive by lia.
  pose proof (Hbits _ Hdr) as Hb. replace (es_HighestSequence s - (es_HighestSequence s - seq)) with seq in Hb by lia.
  destruct (Z.testbit _ _).
  - rewrite decide_False; [done|]. intros [Hn _]. by apply Hn, Hb.
  - rewrite decide_True; [done|]. split; [intros ?%Hb; done|]. intros x ?%Hmax. lia.
Qed.

Lemma remembers_next s A seq bm :
  remembers s A -> 0 < es_ReplayWindowSize s -> is_u32 seq -> es_HighestSequence s < seq -> is_u64 bm ->
  (forall d, 0 <= d < 64 -> Z.testbit bm d = true <-> seq - d ∈ {[seq]} ∪ A) ->
  remembers (with_replay s seq bm) ({[seq]} ∪ A).
Proof.
  intros (Hmax & Hin & Hu & _ & _) Hw Hsu Hlt Hbm Hb. unfold in_range in Hu. split_and!; try done; cbn.
  - intros x [->%elem_of_singleton|?%Hmax]%elem_of_union; lia.
  - right. set_solver.
Qed.

Lemma acceptSequence_remembers s A seq :
  remembers s A -> 1 <= seq -> is_u32 seq -> 0 < es_ReplayWindowSize s -> checkReplay s seq = Ok tt ->
  remembers (acceptSequence s seq) ({[seq]} ∪ A).
Proof.
  intros Hr Hs Hsu Hw Hck. pose proof Hr as (Hmax & Hin & Hu & Hbu & Hbits). unfold in_range in Hu, Hsu.
  unfold acceptSequence. go_if. go_case H0.
  - assert (Hd : to_u32 (seq - es_HighestSequence s) = seq - es_HighestSequence s) by (apply Z.mod_small; lia).
    rewrite Hd. set (diff := seq - es_HighestSequence s) in *. go_case H1.
    + apply remembers_next; try done; [lia|]. intros d Hdr. destruct (Z.eq_dec d 0) as [->|Hne].
      * replace (seq - 0) with seq by lia. split; [set_solver|done].
      * split.
        -- intros Hb. change 1 with (2 ^ 0) in Hb. rewrite Z.pow2_bits_eqb in Hb by lia. exfalso. lia.
        -- intros [?%elem_of_singleton|?%Hmax]%elem_of_union; exfalso; lia.
    + set (bm := Z.lor _ 1).
      assert (Hbit : forall d, 0 <= d -> Z.testbit bm d =
                (d =? 0) || ((d <? 64) && (diff <=? d) && Z.testbit (es_ReplayBitmap s) (d - diff))).
      { intros d Hdr. unfold bm. change 1 with (2 ^ 0). rewrite Z.lor_spec, Z.pow2_bits_eqb, orb_comm by lia.
        rewrite Z.eqb_sym. f_equal. unfold to_u64. change 18446744073709551616 with (2 ^ 64).
        destruct (d <? 64) eqn:Hd64; [|by rewrite Z.mod_pow2_bits_high by lia].
        rewrite Z.mod_pow2_bits_low, Z.shiftl_spec by lia. destruct (diff <=? d) eqn:Hdd; [done|].
        by rewrite Z.testbit_neg_r by lia. }
      apply remembers_next; try done; [lia| |].
      * apply is_u64_testbit. split.
        -- apply Z.lor_nonneg. split; [apply Z.mod_pos_bound|]; lia.
        -- intros d Hdr. rewrite Hbit by lia. replace (d =? 0) with false by lia. by replace (d <? 64) with false by lia.
      * intros d Hdr. rewrite Hbit by lia. destruct (Z.eqb_spec d 0) as [->|Hne]; cbn [orb].
        { replace (seq - 0) with seq by lia. split; [set_solver|done]. }
        replace (d <? 64) with true by lia. cbn [andb]. rewrite elem_of_union, elem_of_singleton.
        destruct (Z.leb_spec diff d); cbn [andb].
        -- rewrite Hbits by lia. replace (es_HighestSequence s - (d - diff)) with (seq - d) by lia. split; [by right|].
           intros [?|?]; [lia|done].
        -- split; [done|]. intros [?|?%Hmax]; exfalso; lia.
  - assert (Hd : to_u32 (es_HighestSequence s - seq) = es_HighestSequence s - seq) by (apply Z.mod_small; lia).
    rewrite Hd. rewrite (checkReplay_spec s A) in Hck by done. destruct (decide _) as [[Hn Hlt]|]; [|done].
    assert (HinA : es_HighestSequence s ∈ A) by (destruct Hin; [lia|done]).
    pose proof (Hlt _ HinA) as Hw'. unfold window_of in Hw'. go_if.
    set (diff := es_HighestSequence s - seq) in *. rewrite to_u64_shiftl_1 by lia.
    assert (Hbit : forall d, 0 <= d -> Z.testbit (Z.lor (es_ReplayBitmap s) (2 ^ diff)) d =
              Z.testbit (es_ReplayBitmap s) d || (diff =? d)).
    { intros d Hdr. by rewrite Z.lor_spec, Z.pow2_bits_eqb by lia. }
    apply is_u64_testbit in Hbu as [Hb0 Hb64]. split_and!; cbn; try done.
    + intros x [->%elem_of_singleton|?%Hmax]%elem_of_union; lia.
    + right. set_solver.
    + apply is_u64_testbit. split; [apply Z.lor_nonneg; split; [done|lia]|]. intros d Hdr.
      rewrite Hbit, Hb64 by lia. cbn. lia.
    + intros d Hdr. rewrite Hbit, orb_true_iff, Hbits, Z.eqb_eq by lia.
      rewrite elem_of_union, elem_of_singleton.
      assert (diff = d <-> es_HighestSequence s - d = seq) by lia. tauto.
Qed.

(** ** Padding *)
Lemma espPlaintext_spec payload nh bs :
  0 < bs <= 256 -> exists n, espPlaintext payload nh bs = Ok (payload ++ pad_of n ++ [nh]) /\ 0 <= n < bs /\
    Z.rem (len (payload ++ pad_of n ++ [nh])) bs = 0.
Proof.
  intros Hbs. unfold espPlaintext, go_rem. pose proof (len_nonneg payload). replace (bs =? 0) with false by lia.
  cbn [bind]. destruct (pad_amount (len payload + 2) bs) as [Hn Hr]; [lia|lia|].
  set (n := Z.rem (bs - _) bs) in *. exists n. assert (to_u8 n = n) as -> by (apply Z.mod_small; lia).
  split; [unfold pad_of; by rewrite <- app_assoc|]. split; [done|].
  rewrite !len_app, len_pad_of by lia. rewrite <- Hr. f_equal. len_lia.
Qed.

Lemma check_padding_pad m k p q start :
  start = len p -> check_padding m (p ++ ((fun i => to_u8 (Z.of_nat i + 1)) <$> seq k m) ++ q) (start - Z.of_nat k) (Z.of_nat k) = Ok tt.
Proof.
  revert k p start. induction m as [|m IH]; intros k p start ->; [done|]. cbn [seq fmap list_fmap check_padding].
  replace (len p - Z.of_nat k + Z.of_nat k) with (len p) by lia.
  rewrite <- app_comm_cons. rewrite at_app_r by done. cbn [bind]. rewrite Z.eqb_refl. cbn [negb].
  specialize (IH (S k) (p ++ [to_u8 (Z.of_nat k + 1)]) _ eq_refl).
  rewrite <- app_assoc in IH. cbn [app] in IH. rewrite <- IH. f_equal; len_lia.
Qed.

Lemma parse_pad payload n nh : is_u8 n -> parseESPPlaintext (payload ++ pad_of n ++ [nh]) = Ok (payload, nh).
Proof.
  intros Hn. unfold in_range in Hn. pose proof (len_nonneg payload). unfold pad_of.
  set (P := _ <$> _). assert (HP : len P = n) by (unfold P; rewrite len_fmap; unfold len; rewrite length_seq; lia).
  assert (Hlen : len (payload ++ (P ++ [n]) ++ [nh]) = len payload + n + 2) by len_lia.
  unfold parseESPPlaintext. rewrite Hlen. go_if.
  rewrite <- app_assoc. cbn [app]. rewrite (app_assoc payload P).
  rewrite (at_app_r _ [nh] n) by len_lia. cbn [bind].
  replace ((payload ++ P) ++ [n; nh]) with (((payload ++ P) ++ [n]) ++ [nh]) by (by rewrite <- app_assoc).
  rewrite (at_app_r _ [] nh) by len_lia. cbn [bind]. go_if.
  replace (len payload + n + 2 - 2 - n) with (len payload) by lia.
  rewrite <- !app_assoc. pose proof (check_padding_pad (Z.to_nat n) 0 payload ([n] ++ [nh]) _ eq_refl) as Hc.
  change (Z.of_nat 0) with 0 in Hc. rewrite Z.sub_0_r in Hc. fold P in Hc. rewrite Hc. cbn [bind].
  by rewrite (slice_eq _ [] payload (P ++ [n] ++ [nh])) by (done || lia).
Qed.

Lemma check_padding_returns n plain start i :
  bytes_ok plain -> 0 <= start + i -> start + i + Z.of_nat n <= len plain -> returns (check_padding n plain start i).
Proof.
  intros Hp. revert i. induction n as [|n IH]; intros i Hi Hn; [exact I|]. cbn [check_padding].
  apply safe_bind, safe_at; [done|lia|]. intros b _ _. go_case Hb; [exact I|]. apply IH; lia.
Qed.

Lemma parseESPPlaintext_safe plain : bytes_ok plain -> safe (parseESPPlaintext plain) (fun r => bytes_ok r.1 /\ is_u8 r.2).
Proof.
  intros Hp. unfold parseESPPlaintext. go_case H0; [done|]. apply safe_bind, safe_at; [done|lia|]. intros n Hn _.
  apply safe_bind, safe_at; [done|lia|]. intros nh Hnh _. unfold in_range in Hn. go_case H1; [done|].
  eapply safe_call; [apply check_padding_returns; [done|lia..]|]. intros [] _.
  apply safe_bind, safe_slice_ok; [done|lia|lia|]. by intros.
Qed.

(** ** Sealing, then opening *)

(** The receiver's SA has the sender's SPI, algorithms and keys. *)
Definition peer_of (so si : SA) : Prop :=
  es_SPI si = es_SPI so /\ es_Encryption si = es_Encryption so /\ es_EncryptionKey si = es_EncryptionKey so /\
  es_IntegrityKey si = es_IntegrityKey so /\ es_Integrity si = es_Integrity so /\
  es_ICVLength si = es_ICVLength so /\ es_BlockSize si = es_BlockSize so.

(** A packet of the SA: its header, and what opening it does. *)
Definition opens (s : SA) (packet : bytes) (sn nh : Z) (payload : bytes) (r : SA * result OpenResult) : Prop :=
  bytes_ok packet /\ (exists body, packet = be_bytes 4 (es_SPI s) ++ be_bytes 4 sn ++ body) /\
  r = commit s (let! _ := checkReplay s sn in Ok (acceptSequence s sn, mkOpenResult (es_SPI s) sn nh payload)).

Definition options_ok (opts : SealOptions) : Prop :=
  is_u32 (so_Sequence opts) /\ bytes_ok (so_IV opts) /\ match so_Random opts with Some r => reader_ok r | None => True end.

Section esp_aead.
Context {C : Crypto} `{!CryptoLaws C}.

Lemma integrity_safe s data :
  0 <= es_ICVLength s -> safe (integrity s data) (fun m => len m = es_ICVLength s /\ bytes_ok m).
Proof.
  intros Hi. unfold integrity. eapply (safe_call _ _ (fun h => h <> HashNone)).
  { by repeat case_match. }
  intros h Hh. pose proof (hmac_len h (es_IntegrityKey s) data Hh). pose proof (hmac_ok h (es_IntegrityKey s) data).
  go_case H1; [done|]. apply safe_slice_ok; [done|lia|lia|]. intros m _ ? ?. split; [lia|done].
Qed.

Lemma aesGCMAEAD_spec s :
  len (es_EncryptionKey s) ∈ [20; 28; 36] -> es_ICVLength s = 16 ->
  exists aesKey salt, aesGCMAEAD s = Ok (aesKey, 16, salt) /\ es_EncryptionKey s = aesKey ++ salt /\ len salt = 4.
Proof.
  intros Hk Hi. pose proof (aesGCMIKEAEAD_spec (es_EncryptionKey s) Hk) as (k & t & Ha & He & Ht).
  exists k, t. split; [|done]. unfold aesGCMIKEAEAD in Ha. rewrite (proj2 (validAESGCMIKEKeyLength_spec _) Hk) in Ha.
  unfold aesGCMAEAD. by rewrite Hi.
Qed.

End esp_aead.

Section seal_proofs.
Context {C : Crypto} `{!CryptoLaws C} (rand_Reader : Reader).

Lemma read_iv_safe random n :
  reader_ok rand_Reader -> match random with Some r => reader_ok r | None => True end -> 0 < n ->
  safe (read_iv rand_Reader random n) bytes_ok.
Proof.
  intros Hr Hrd Hn. unfold read_iv. go_if. go_if. destruct random; by apply reader_bytes.
Qed.

Lemma spi_seq_fields spi sn body (E := error) :
  is_u32 spi -> is_u32 sn -> let p := be_bytes 4 spi ++ be_bytes 4 sn ++ body in
  u32_at (E := E) p 0 4 = Ok spi /\ u32_at (E := E) p 4 8 = Ok sn.
Proof.
  intros Hs Hn. split.
  - by apply (u32_at_eq _ [] (be_bytes 4 sn ++ body)).
  - by apply (u32_at_eq _ (be_bytes 4 spi) body).
Qed.

Lemma sealAESCBC_open so si nh payload sn opts packet :
  reader_ok rand_Reader -> esp_ok so -> encryptionAlgorithm so = EncryptionAESCBC -> peer_of so si ->
  options_ok opts -> bytes_ok payload -> is_u8 nh -> is_u32 sn -> sn <> 0 ->
  sealAESCBC rand_Reader so nh payload sn opts = Ok packet ->
  opens si packet sn nh payload (openAESCBC si packet).
Proof.
  intros Hr Hok Halg Hpeer (_ & Hivok & Hrd) Hp Hnh Hsn Hnz. destruct Hok as (Hspi & _ & _ & _ & _ & _ & Hk).
  destruct Hk as [(_ & Hkl & _ & Hbs & Hicv)|(HG & _)]; [|rewrite HG in Halg; done]. clear Halg.
  unfold sealAESCBC. rewrite Hbs. intros (iv & Hiv & H)%bind_ok.
  assert (Hivb : bytes_ok iv).
  { pose proof (read_iv_safe (so_Random opts) 16 Hr Hrd ltac:(lia)) as Hs. go_case_in Hiv; [by rewrite Hiv in Hs|by injection Hiv as <-]. }
  clear Hiv. go_case_in H; [done|]. assert (Hivl : len iv = 16) by lia.
  destruct (espPlaintext_spec payload nh 16) as (n & Hpt & Hn & Hrem); [lia|]. rewrite Hpt in H. cbn [bind] in H.
  set (plain := payload ++ pad_of n ++ [nh]) in *. apply bind_ok in H as (ct & Hct & H).
  assert (Hplain : bytes_ok plain).
  { apply bytes_ok_app_2; [done|]. apply bytes_ok_app_2; [apply pad_of_ok; unfold in_range; lia|apply bytes_ok_cons_2; [done|constructor]]. }
  unfold aesCBCEncrypt in Hct. apply bind_ok in Hct as ([] & Hc & Hct). go_case_in Hct; [done|]. injection Hct as <-.
  set (ct := cbc_CryptBlocks_enc _ _ _) in *. assert (Hctl : len ct = len plain) by apply cbc_enc_len.
  assert (Hctb : bytes_ok ct) by by apply cbc_enc_ok.
  assert (Hpl : 2 <= len plain) by (unfold plain; rewrite !len_app, len_pad_of by lia; len_lia).
  go_case_in H; [done|]. rewrite <- !app_assoc in H. set (pre := be_bytes 4 (es_SPI so) ++ be_bytes 4 sn ++ iv ++ ct) in *.
  apply bind_ok in H as (mac & Hmac & H). injection H as <-. pose proof (integrity_safe so pre ltac:(lia)) as Hm.
  rewrite Hmac in Hm. destruct Hm as [Hml Hmb].
  destruct Hpeer as (Es & Ee & Ek & Eik & Ei & Eic & Eb). unfold opens. rewrite Es. split_and!.
  { unfold pre. auto 8 with gobytes. }
  { exists (iv ++ ct ++ mac). unfold pre. by rewrite <- !app_assoc. }
  unfold openAESCBC. rewrite Es, Ek, Eic, Eb, Hbs. f_equal.
  assert (Hlp : len pre = 24 + len plain) by (unfold pre; len_lia). rewrite len_app, Hml, Hlp.
  assert (Hge : 16 <= len plain).
  { destruct (Z_lt_ge_dec (len plain) 16); [|lia]. rewrite Z.rem_small in Hrem by lia. lia. }
  go_if. destruct (spi_seq_fields (es_SPI so) sn (iv ++ ct ++ mac) Hspi Hsn) as [Hf1 Hf2]. cbv zeta in Hf1, Hf2.
  assert (Hpk : pre ++ mac = be_bytes 4 (es_SPI so) ++ be_bytes 4 sn ++ iv ++ ct ++ mac) by (unfold pre; by rewrite <- !app_assoc).
  rewrite Hpk, Hf1. cbn [bind]. rewrite Z.eqb_refl. cbn [negb]. rewrite Hf2. cbn [bind]. go_if. rewrite <- Hpk.
  replace (24 + len plain + es_ICVLength so - es_ICVLength so) with (len pre) by lia.
  rewrite (slice_from_eq _ pre mac) by done. cbn [bind].
  rewrite (slice_eq _ [] pre mac) by done. cbn [bind].
  replace (integrity si pre) with (integrity so pre) by (unfold integrity; by rewrite Ei, Eik, Eic).
  rewrite Hmac. cbn [bind]. unfold bytesEqual. rewrite bool_decide_eq_true_2 by done. cbn [negb].
  destruct (checkReplay si sn) as [[]| | |]; try done. cbn [bind].
  set (h8 := be_bytes 4 (es_SPI so) ++ be_bytes 4 sn).
  rewrite (slice_eq _ h8 (iv ++ ct) mac) by (unfold pre, h8; rewrite <- ?app_assoc; done || len_lia). cbn [bind].
  unfold go_rem. rewrite len_app, Hivl, Hctl. go_if. cbn [bind].
  replace (16 + len plain - 16) with (len plain) by lia. change (16 =? 0) with false. cbv iota. rewrite Hrem. cbn [bind].
  change (negb (0 =? 0)) with false. cbv iota.
  rewrite (slice_eq _ [] iv ct) by done. cbn [bind]. rewrite (slice_from_eq _ iv ct) by done. cbn [bind].
  unfold aesCBCDecrypt. rewrite Hc. cbn [bind]. rewrite Hivl, Hctl. go_if. cbn [bind].
  unfold ct. rewrite cbc_dec_enc by done. unfold plain. rewrite parse_pad by (unfold in_range; lia). done.
Qed.

Lemma sealAESGCM_open so si nh payload sn opts packet :
  esp_ok so -> encryptionAlgorithm so = EncryptionAESGCM_16 -> peer_of so si ->
  options_ok opts -> bytes_ok payload -> is_u8 nh -> is_u32 sn -> sn <> 0 ->
  sealAESGCM so nh payload sn opts = Ok packet ->
  opens si packet sn nh payload (openAESGCM si packet).
Proof.
  intros Hok Halg Hpeer (_ & Hivok & _) Hp Hnh Hsn Hnz. destruct Hok as (Hspi & _ & _ & _ & _ & _ & Hk).
  destruct Hk as [(HC & _)|(_ & Hkl & Hbs & Hicv)]; [rewrite HC in Halg; done|]. clear Halg.
  unfold sealAESGCM. set (iv := if len (so_IV opts) =? 0 then _ else _). cbv zeta. intros H.
  assert (Hivb : bytes_ok iv) by (subst iv; go_case Hz; [apply bytes_ok_be_bytes|done]). clearbody iv.
  go_case_in H; [done|]. assert (Hivl : len iv = 8) by (unfold aesGCMExplicitIVLength in *; lia).
  destruct (aesGCMAEAD_spec so Hkl Hicv) as (ak & salt & Ha & Hek & Hsl). rewrite Ha in H. cbn [bind] in H.
  rewrite Hbs in H. destruct (espPlaintext_spec payload nh 4) as (n & Hpt & Hn & Hrem); [lia|]. rewrite Hpt in H. cbn [bind] in H.
  set (plain := payload ++ pad_of n ++ [nh]) in *.
  assert (Hplain : bytes_ok plain).
  { apply bytes_ok_app_2; [done|]. apply bytes_ok_app_2; [apply pad_of_ok; unfold in_range; lia|apply bytes_ok_cons_2; [done|constructor]]. }
  assert (Hpl : 2 <= len plain) by (unfold plain; rewrite !len_app, len_pad_of by lia; len_lia).
  set (h8 := be_bytes 4 (es_SPI so) ++ be_bytes 4 sn) in *. assert (H8 : len h8 = 8) by done.
  rewrite (slice_eq _ [] h8 iv) in H by done. cbn [bind] in H. unfold aead_Seal, aesGCMNonce in H.
  rewrite len_app, Hsl, Hivl in H. change (negb (4 + 8 =? 12)) with false in H. cbn [bind] in H. injection H as <-.
  set (sealed := gcm_Seal ak 16 (salt ++ iv) plain h8). assert (Hsll : len sealed = len plain + 16) by by apply gcm_seal_len.
  destruct Hpeer as (Es & Ee & Ek & Eik & Ei & Eic & Eb). unfold opens. rewrite Es. rewrite <- app_assoc.
  assert (bytes_ok sealed) by by apply gcm_seal_ok. split_and!.
  { unfold h8. auto 8 with gobytes. }
  { exists (iv ++ sealed). unfold h8. by rewrite <- !app_assoc. }
  unfold openAESGCM. rewrite Es, Eic, Hicv. f_equal.
  assert (Hlp : len (h8 ++ iv ++ sealed) = 32 + len plain) by len_lia. rewrite Hlp. unfold aesGCMExplicitIVLength. go_if.
  destruct (spi_seq_fields (es_SPI so) sn (iv ++ sealed) Hspi Hsn) as [Hf1 Hf2]. cbv zeta in Hf1, Hf2.
  assert (Hpk : h8 ++ iv ++ sealed = be_bytes 4 (es_SPI so) ++ be_bytes 4 sn ++ iv ++ sealed) by (unfold h8; by rewrite <- !app_assoc).
  rewrite Hpk, Hf1. cbn [bind]. rewrite Z.eqb_refl. cbn [negb]. rewrite Hf2. cbn [bind]. go_if. rewrite <- Hpk.
  replace (aesGCMAEAD si) with (aesGCMAEAD so) by (unfold aesGCMAEAD; by rewrite Ek, Eic). rewrite Ha. cbn [bind].
  rewrite (slice_from_eq _ h8 (iv ++ sealed)) by done. cbn [bind].
  rewrite (slice_eq _ [] iv sealed) by (done || lia). cbn [bind].
  rewrite (slice_from_eq _ iv sealed) by (done || lia). cbn [bind].
  rewrite (slice_eq _ [] h8 (iv ++ sealed)) by done. cbn [bind].
  unfold aead_Open, aesGCMNonce. rewrite len_app, Hsl, Hivl, Hsll. change (negb (4 + 8 =? 12)) with false. cbv iota.
  replace (len plain + 16 <? 16) with false by lia. cbv iota.
  unfold sealed. rewrite gcm_open_seal by done. cbn [map_err bind].
  destruct (checkReplay si sn) as [[]| | |]; try done. cbn [bind].
  unfold plain. rewrite parse_pad by (unfold in_range; lia). done.
Qed.

(** ** The sender's numbers *)
Lemma Seal_spec s nh payload opts :
  is_u32 (es_Sequence s) -> options_ok opts ->
  (so_Sequence opts = 0 /\ es_Sequence s = 0xffffffff /\
     Seal rand_Reader (Some s) nh payload opts = (Some s, Errorf Esp_ErrInvalidSA)) \/
  exists s' sn, 1 <= sn /\ is_u32 sn /\ s' = with_Sequence s (Z.max (es_Sequence s) sn) /\
    sn = (if so_Sequence opts =? 0 then es_Sequence s + 1 else so_Sequence opts) /\
    Seal rand_Reader (Some s) nh payload opts = (Some s',
      if encryptionAlgorithm s =? EncryptionAESCBC then sealAESCBC rand_Reader s' nh payload sn opts
      else if encryptionAlgorithm s =? EncryptionAESGCM_16 then sealAESGCM s' nh payload sn opts
      else Errorf Esp_ErrInvalidSA).
Proof.
  intros Hs (Ho & _). unfold in_range in *. unfold Seal. destruct (so_Sequence opts =? 0) eqn:H0; cbn [andb].
  - destruct (es_Sequence s =? 0xffffffff) eqn:H1; [left; split_and!; done || lia|]. right.
    assert (Ht : to_u32 (es_Sequence s + 1) = es_Sequence s + 1) by (apply Z.mod_small; lia). rewrite Ht.
    exists (with_Sequence s (es_Sequence s + 1)), (es_Sequence s + 1). split_and!; [lia|lia|lia| |done|done].
    f_equal. lia.
  - right. destruct (es_Sequence s <? so_Sequence opts) eqn:H1; eexists _, (so_Sequence opts).
    + split_and!; [lia|lia|lia| |done|done]. f_equal. lia.
    + split_and!; [lia|lia|lia| |done|done]. rewrite Z.max_l by lia. by destruct s.
Qed.

Lemma Seal_opens so si nh payload opts so' packet :
  reader_ok rand_Reader -> esp_ok so -> esp_ok si -> peer_of so si -> options_ok opts -> bytes_ok payload -> is_u8 nh ->
  Seal rand_Reader (Some so) nh payload opts = (Some so', Ok packet) ->
  exists sn r, 1 <= sn /\ is_u32 sn /\ so' = with_Sequence so (Z.max (es_Sequence so) sn) /\
    sn = (if so_Sequence opts =? 0 then es_Sequence so + 1 else so_Sequence opts) /\
    opens si packet sn nh payload r /\ Open (Some si) packet = (Some r.1, r.2).
Proof.
  intros Hr Hso Hsi Hpeer Hopt Hp Hnh Hseal. pose proof Hso as (_ & _ & Hsq & _).
  destruct (Seal_spec so nh payload opts Hsq Hopt) as [(_ & _ & He)|(s' & sn & H1 & Hu & Hs' & Hsn & He)];
    rewrite He in Hseal; [done|]. injection Hseal as <- Hseal. unfold Open.
  assert (Halg : encryptionAlgorithm si = encryptionAlgorithm so) by (unfold encryptionAlgorithm; by destruct Hpeer as (_ & -> & _)).
  assert (Hs'ok : esp_ok s').
  { subst s'. apply (same_keys_ok so); [by split_and!| |apply Hso..|done]. cbn. unfold in_range in *. lia. }
  assert (Hpeer' : peer_of s' si) by (by rewrite Hs').
  rewrite Halg. destruct (Z.eqb_spec (encryptionAlgorithm so) EncryptionAESCBC) as [HC|HC].
  - exists sn, (openAESCBC si packet). destruct (openAESCBC si packet) eqn:Eo. split_and!; try done.
    rewrite <- Eo. eapply (sealAESCBC_open s' si nh payload sn opts); try done; [by rewrite Hs'|lia].
  - destruct (Z.eqb_spec (encryptionAlgorithm so) EncryptionAESGCM_16) as [HG|HG]; [|done].
    exists sn, (openAESGCM si packet). destruct (openAESGCM si packet) eqn:Eo. split_and!; try done.
    rewrite <- Eo. eapply (sealAESGCM_open s' si nh payload sn opts); try done; [by rewrite Hs'|lia].
Qed.

End seal_proofs.

(** ** What opening guarantees *)
Section open_proofs.
Context {C : Crypto} `{!CryptoLaws C}.

Definition esp_authentic (s : SA) (packet : bytes) : Prop :=
  (encryptionAlgorithm s = EncryptionAESCBC /\
   integrity s (take (Z.to_nat (len packet - es_ICVLength s)) packet)
     = Ok (drop (Z.to_nat (len packet - es_ICVLength s)) packet)) \/
  (encryptionAlgorithm s = EncryptionAESGCM_16 /\ exists aesKey salt plain, es_EncryptionKey s = aesKey ++ salt /\
   len salt = 4 /\ gcm_Open aesKey 16 (salt ++ sub packet 8 16) (drop 16 packet) (take 8 packet) = Some plain).

(** An accepted packet: its header is the SA's SPI and its number, it is
    authentic and not a replay, and the SA remembers the number. *)
Definition accepted (s : SA) (packet : bytes) (s' : SA) (r : OpenResult) : Prop :=
  s' = acceptSequence s (or_Sequence r) /\ checkReplay s (or_Sequence r) = Ok tt /\ or_SPI r = es_SPI s /\
  is_u32 (or_Sequence r) /\ 1 <= or_Sequence r /\ sub packet 0 4 = be_bytes 4 (es_SPI s) /\
  sub packet 4 8 = be_bytes 4 (or_Sequence r) /\ esp_authentic s packet /\ bytes_ok (or_Payload r) /\ is_u8 (or_NextHeader r).

Definition open_post (s : SA) (packet : bytes) (r : SA * result OpenResult) : Prop :=
  match r.2 with
  | Ok o => accepted s packet r.1 o
  | Err _ => r.1 = s
  | _ => False
  end.

Lemma commit_post s packet m :
  safe m (fun x => accepted s packet x.1 x.2) -> open_post s packet (commit s m).
Proof. by destruct m as [[? ?]| | |]. Qed.

Lemma checkReplay_returns s sn : safe (checkReplay s sn) (fun _ => checkReplay s sn = Ok tt).
Proof. unfold checkReplay. by repeat case_match. Qed.

Lemma u32_at_field (l : bytes) i j (E := error) :
  bytes_ok l -> 0 <= i -> j = i + 4 -> j <= len l ->
  exists v, u32_at (E := E) l i j = Ok v /\ is_u32 v /\ sub l i j = be_bytes 4 v.
Proof.
  intros Hl Hi -> Hj. assert (Hs : len (sub l i (i + 4)) = 4) by (rewrite sub_len by lia; lia).
  assert (Hok : bytes_ok (sub l i (i + 4))) by by apply bytes_ok_sub.
  exists (be_decode (sub l i (i + 4))). unfold u32_at, Uint32, BE_Uint. rewrite slice_Ok by lia. cbn [bind].
  set (s := sub l i (i + 4)) in *. rewrite slice_Ok by lia. cbn [bind].
  replace (sub s 0 4) with s.
  2: { unfold sub. rewrite drop_0. symmetry. apply firstn_all2. unfold len in Hs. lia. }
  split; [done|]. split; [pose proof (be_decode_range s Hok) as Hr; by rewrite Hs in Hr|].
  rewrite <- (be_bytes_be_decode s Hok) at 1. by replace (length s) with 4%nat by (unfold len in Hs; lia).
Qed.

Lemma openAESCBC_post s packet :
  esp_ok s -> encryptionAlgorithm s = EncryptionAESCBC -> bytes_ok packet -> open_post s packet (openAESCBC s packet).
Proof.
  intros (_ & _ & _ & _ & _ & _ & Hk) Halg Hp. destruct Hk as [(_ & Hkl & _ & Hbs & Hicv)|(HG & _)]; [|rewrite HG in Halg; done].
  apply commit_post. rewrite Hbs. go_case H0; [done|].
  destruct (u32_at_field packet 0 4) as (spi & -> & _ & Hspi); [done|lia..|]. cbn [bind]. go_case H1; [done|].
  destruct (u32_at_field packet 4 8) as (sn & -> & Hsn & Hsnb); [done|lia..|]. cbn [bind]. go_case H2; [done|].
  rewrite slice_from_drop by lia. cbn [bind]. rewrite slice_prefix by lia. cbn [bind].
  pose proof (integrity_safe s (take (Z.to_nat (len packet - es_ICVLength s)) packet) ltac:(lia)) as Hi.
  destruct (integrity s _) as [mac| | |] eqn:Hmac; try done. cbn [bind]. unfold bytesEqual. go_case H3; [done|].
  apply negb_false_iff, bool_decide_eq_true in H3. eapply safe_call; [apply checkReplay_returns|]. intros [] Hck.
  apply safe_bind, safe_slice_ok; [done|lia|lia|]. intros body _ Hbl Hbb.
  eapply (safe_call _ _ (fun _ => True)); [go_case H4; [done|]; done|]. intros bad _. go_case H4; [done|].
  apply safe_bind, safe_slice_ok; [done|lia|lia|]. intros iv _ _ Hiv.
  apply safe_bind, safe_slice_from; [done|lia|]. intros ct _ _ Hct.
  eapply (safe_call _ _ bytes_ok).
  { unfold aesCBCDecrypt, aes_NewCipher. go_safe. by apply cbc_dec_ok. }
  intros plain Hpl. eapply safe_call; [by apply parseESPPlaintext_safe|]. intros [payload nh] [Hpay Hnh]. cbn [safe fst snd] in *.
  unfold accepted. cbn. unfold in_range in Hsn. assert (spi = es_SPI s) by lia. subst spi. split_and!; try done; [lia|].
  left. split; [done|]. by rewrite Hmac, H3.
Qed.

Lemma openAESGCM_post s packet :
  esp_ok s -> encryptionAlgorithm s = EncryptionAESGCM_16 -> bytes_ok packet -> open_post s packet (openAESGCM s packet).
Proof.
  intros (_ & _ & _ & _ & _ & _ & Hk) Halg Hp. destruct Hk as [(HC & _)|(_ & Hkl & Hbs & Hicv)]; [rewrite HC in Halg; done|].
  apply commit_post. rewrite Hicv. unfold aesGCMExplicitIVLength. go_case H0; [done|].
  destruct (u32_at_field packet 0 4) as (spi & -> & _ & Hspi); [done|lia..|]. cbn [bind]. go_case H1; [done|].
  destruct (u32_at_field packet 4 8) as (sn & -> & Hsn & Hsnb); [done|lia..|]. cbn [bind]. go_case H2; [done|].
  destruct (aesGCMAEAD_spec s Hkl Hicv) as (ak & salt & -> & Hek & Hsl). cbn [bind].
  rewrite slice_from_drop by lia. cbn [bind]. set (body := drop (Z.to_nat 8) packet).
  assert (Hbl : len body = len packet - 8) by (apply len_drop_le; lia).
  rewrite slice_prefix by lia. cbn [bind]. rewrite slice_from_drop by lia. cbn [bind]. rewrite slice_prefix by lia. cbn [bind].
  unfold aead_Open, aesGCMNonce. rewrite len_app, Hsl, len_take_le by lia. change (negb (4 + 8 =? 12)) with false. cbv iota.
  go_case H3; [done|].
  destruct (gcm_Open ak 16 _ _ _) as [plain|] eqn:Ho; [|done]. cbn [map_err bind].
  assert (Hpl : bytes_ok plain) by (eapply gcm_open_ok, Ho; unfold body; auto with gobytes).
  eapply safe_call; [apply checkReplay_returns|]. intros [] Hck.
  eapply safe_call; [by apply parseESPPlaintext_safe|]. intros [payload nh] [Hpay Hnh]. cbn [safe fst snd] in *.
  unfold accepted. cbn. unfold in_range in Hsn. assert (spi = es_SPI s) by lia. subst spi. split_and!; try done; [lia|].
  right. split; [done|]. exists ak, salt, plain. split_and!; try done. rewrite <- Ho. f_equal.
  unfold body. rewrite drop_drop. done.
Qed.

Lemma Open_post s packet :
  esp_ok s -> bytes_ok packet -> exists s' r, Open (Some s) packet = (Some s', r) /\ open_post s packet (s', r).
Proof.
  intros Hs Hp. unfold Open. destruct (Z.eqb_spec (encryptionAlgorithm s) EncryptionAESCBC) as [HC|HC].
  - pose proof (openAESCBC_post s packet Hs HC Hp) as Ho. destruct (openAESCBC s packet) as [s' r]. eauto.
  - destruct (Z.eqb_spec (encryptionAlgorithm s) EncryptionAESGCM_16) as [HG|HG].
    + pose proof (openAESGCM_post s packet Hs HG Hp) as Ho. destruct (openAESGCM s packet) as [s' r]. eauto.
    + eexists _, _. split; [done|]. done.
Qed.

Lemma acceptSequence_same_keys s sn : same_keys s (acceptSequence s sn) /\ es_Sequence (acceptSequence s sn) = es_Sequence s.
Proof. unfold acceptSequence. repeat case_match; by split_and!. Qed.

(** The packets of a stream, one after the other: the accepted ones. *)
Fixpoint Open_all (s : option SA) (packets : list bytes) : option SA * list OpenResult :=
  match packets with
  | [] => (s, [])
  | p :: rest =>
      let '(s, r) := Open s p in
      let '(s, acc) := Open_all s rest in
      (s, match r with Ok o => o :: acc | _ => acc end)
  end.

Lemma Open_all_spec s A packets :
  esp_ok s -> 0 < es_ReplayWindowSize s -> remembers s A -> Forall bytes_ok packets ->
  exists s' acc, Open_all (Some s) packets = (Some s', acc) /\ NoDup (or_Sequence <$> acc) /\
    (forall r, r ∈ acc -> or_Sequence r ∉ A) /\
    remembers s' (list_to_set (or_Sequence <$> acc) ∪ A) /\ esp_ok s' /\ same_keys s s'.
Proof.
  intros Hs Hw HA Hp. revert s A Hs Hw HA. induction Hp as [|p packets Hp _ IH]; intros s A Hs Hw HA.
  { eexists _, _. split; [done|]. split; [constructor|]. split; [by intros r ?%elem_of_nil|]. cbn. rewrite (left_id_L ∅ (∪)). done. }
  cbn [Open_all]. destruct (Open_post s p Hs Hp) as (s1 & r & -> & Hr). unfold open_post in Hr. cbn [fst snd] in Hr.
  destruct r as [o|e| |]; try done.
  2: { subst s1. destruct (IH s A Hs Hw HA) as (s' & acc & -> & ?). eauto. }
  destruct Hr as (-> & Hck & _ & Hu & H1 & _).
  destruct (acceptSequence_same_keys s (or_Sequence o)) as [Hsk Hsq].
  pose proof (acceptSequence_remembers s A (or_Sequence o) HA H1 Hu Hw Hck) as HA'.
  assert (Hs1 : esp_ok (acceptSequence s (or_Sequence o))).
  { apply (same_keys_ok s); try done; [rewrite Hsq; apply Hs|apply HA'..]. }
  assert (Hn : or_Sequence o ∉ A).
  { rewrite (checkReplay_spec s A) in Hck by done. destruct (decide _) as [[? _]|]; done. }
  destruct (IH _ ({[or_Sequence o]} ∪ A) Hs1) as (s' & acc & -> & Hnd & Hdis & Hrem & Hok' & Hsk'); [|done|].
  { destruct Hsk as (_ & _ & _ & _ & _ & _ & _ & ->). done. }
  exists s', (o :: acc). split; [done|]. split_and!; [| | |done|by etrans].
  - cbn. constructor; [|done]. intros (r & Hr & Hin)%list_elem_of_fmap. apply Hdis in Hin. set_solver.
  - intros r [->|Hin]%elem_of_cons; [done|]. apply Hdis in Hin. set_solver.
  - replace (list_to_set (or_Sequence <$> o :: acc) ∪ A)
      with (list_to_set (or_Sequence <$> acc) ∪ ({[or_Sequence o]} ∪ A)) by (cbn; set_solver). done.
Qed.
End open_proofs.

(** ** Numbers are not reused *)
Lemma be_bytes_inj n v v' :
  0 <= v < 256 ^ Z.of_nat n -> 0 <= v' < 256 ^ Z.of_nat n -> be_bytes n v = be_bytes n v' -> v = v'.
Proof. intros Hv Hv' H. rewrite <- (be_decode_be_bytes n v Hv), H. by apply be_decode_be_bytes. Qed.

Section sequence_proofs.
Context {C : Crypto} `{!CryptoLaws C} (rand_Reader : Reader).

(** Packets sealed one after the other with the SA's own numbers; calls that
    fail send nothing. *)
Fixpoint Seal_all (s : option SA) (calls : list (Z * bytes)) : option SA * list bytes :=
  match calls with
  | [] => (s, [])
  | (nh, payload) :: rest =>
      let '(s, r) := Seal rand_Reader s nh payload (mkSealOptions 0 [] None) in
      let '(s, packets) := Seal_all s rest in
      (s, match r with Ok p => p :: packets | _ => packets end)
  end.

(** A packet numbered [sn]; under AES-GCM its explicit IV is the number too. *)
Definition numbered (s : SA) (packet : bytes) (sn : Z) : Prop :=
  sub packet 4 8 = be_bytes 4 sn /\ (encryptionAlgorithm s = EncryptionAESGCM_16 -> sub packet 8 16 = be_bytes 8 sn).

Lemma sub_middle (p m q : bytes) i j : i = len p -> j = i + len m -> sub (p ++ m ++ q) i j = m.
Proof.
  intros -> ->. unfold sub, len. rewrite Nat2Z.id, drop_app_length.
  replace (Z.to_nat _) with (length m) by lia. apply take_app_length.
Qed.

Lemma seal_numbered s nh payload sn packet random :
  (if encryptionAlgorithm s =? EncryptionAESCBC then sealAESCBC rand_Reader s nh payload sn (mkSealOptions 0 [] random)
   else if encryptionAlgorithm s =? EncryptionAESGCM_16 then sealAESGCM s nh payload sn (mkSealOptions 0 [] random)
   else Errorf Esp_ErrInvalidSA) = Ok packet ->
  numbered s packet sn.
Proof.
  unfold numbered. destruct (Z.eqb_spec (encryptionAlgorithm s) EncryptionAESCBC) as [HC|HC].
  - unfold sealAESCBC. intros (iv & _ & H)%bind_ok. go_case_in H; [done|]. apply bind_ok in H as (plain & _ & H).
    apply bind_ok in H as (ct & _ & H). go_case_in H; [done|]. apply bind_ok in H as (mac & _ & H). injection H as <-.
    split; [|by rewrite HC]. rewrite <- !app_assoc. by apply sub_middle.
  - destruct (Z.eqb_spec (encryptionAlgorithm s) EncryptionAESGCM_16) as [HG|HG]; [|done].
    unfold sealAESGCM. cbn [so_IV]. change (len [] =? 0) with true. cbv iota zeta. rewrite len_be_bytes_8. intros H.
    go_case_in H; [done|]. apply bind_ok in H as ([[ak t] salt] & _ & H). apply bind_ok in H as (plain & _ & H).
    apply bind_ok in H as (aad & _ & H). apply bind_ok in H as (sealed & _ & H). injection H as <-.
    split; [rewrite <- !app_assoc; by apply sub_middle|]. intros _.
    rewrite <- (app_assoc _ (be_bytes 8 sn)). by apply sub_middle.
Qed.

(** One packet more: the next number, or nothing when the numbers are exhausted. *)
Lemma Seal_next s nh payload random so' r : is_u32 (es_Sequence s) -> match random with Some r => reader_ok r | None => True end ->
  Seal rand_Reader (Some s) nh payload (mkSealOptions 0 [] random) = (so', r) ->
  exists s', so' = Some s' /\ (s' = s \/ s' = with_Sequence s (es_Sequence s + 1)) /\ is_u32 (es_Sequence s') /\
    forall packet, r = Ok packet -> es_Sequence s' = es_Sequence s + 1 /\ numbered s packet (es_Sequence s').
Proof.
  intros Hs Hrandom Hseal.
  destruct (Seal_spec rand_Reader s nh payload (mkSealOptions 0 [] random) Hs) as [(_ & _ & He)|(s' & sn & H1 & Hu & Hs' & Hsn & He)];
    [by split_and!; try constructor| |]; rewrite He in Hseal; injection Hseal as <- <-.
  - exists s. split_and!; try done. by left.
  - cbn [so_Sequence] in Hsn. change (0 =? 0) with true in Hsn. cbv iota in Hsn. assert (Hmax : Z.max (es_Sequence s) sn = es_Sequence s + 1) by lia.
    rewrite Hmax in Hs'. exists s'. split_and!; [done|by right|rewrite Hs'; cbn; by rewrite <- Hsn|].
    intros packet Hp. split; [by rewrite Hs'|]. replace (es_Sequence s') with sn by (by rewrite Hs').
    replace (encryptionAlgorithm s) with (encryptionAlgorithm s') in Hp by (by rewrite Hs').
    apply (seal_numbered s' nh payload sn packet random) in Hp. unfold numbered in *. by rewrite Hs' in Hp.
Qed.

Lemma Seal_all_spec s calls :
  is_u32 (es_Sequence s) ->
  exists s' packets sns, Seal_all (Some s) calls = (Some s', packets) /\ Forall2 (numbered s) packets sns /\
    StronglySorted Z.lt sns /\ Forall (fun sn => es_Sequence s < sn <= es_Sequence s') sns /\
    es_Sequence s <= es_Sequence s' /\ is_u32 (es_Sequence s').
Proof.
  revert s. induction calls as [|[nh payload] calls IH]; intros s Hs.
  { eexists s, [], []. split; [done|]. split_and!; try constructor; try apply Hs. lia. }
  cbn [Seal_all].
  destruct (Seal_spec rand_Reader s nh payload (mkSealOptions 0 [] None) Hs) as [(_ & _ & ->)|(s' & sn & H1 & Hu & Hs' & Hsn & ->)];
    [by split_and!; try constructor| |].
  - destruct (IH s Hs) as (s'' & packets & sns & -> & ?). by eexists _, _, _.
  - cbn [so_Sequence] in Hsn. change (0 =? 0) with true in Hsn. cbv iota in Hsn.
    assert (Hmax : Z.max (es_Sequence s) sn = sn) by lia. rewrite Hmax in Hs'.
    assert (Hsq : es_Sequence s' = sn) by (by subst s'). rewrite <- Hsq in Hu.
    assert (Halg : encryptionAlgorithm s' = encryptionAlgorithm s) by (by subst s').
    assert (Hnum : forall p n, numbered s' p n -> numbered s p n) by (intros p n; unfold numbered; by rewrite Halg).
    destruct (IH s' Hu) as (s'' & packets & sns & -> & Hn & Hsort & Hb & Hle & Hu').
    assert (Hn' : Forall2 (numbered s) packets sns) by (eapply Forall2_impl; [exact Hn|done]).
    assert (Hb' : Forall (fun n => es_Sequence s < n <= es_Sequence s'') sns).
    { eapply Forall_impl; [exact Hb|]. cbn. intros n. lia. }
    match goal with |- context [match ?r with Ok p => _ | _ => _ end] => destruct r as [p| | |] eqn:Hr end;
      [|by eexists _, _, sns; split_and!; done || lia..].
    exists s'', (p :: packets), (sn :: sns). split; [done|]. split_and!; try done; try lia.
    + constructor; [|done]. apply Hnum. rewrite <- Halg in Hr. by apply seal_numbered in Hr.
    + constructor; [done|]. eapply Forall_impl; [exact Hb|]. cbn. intros n. lia.
    + constructor; [lia|done].
Qed.

Lemma sorted_numbers_NoDup (f : bytes -> bytes) n packets sns (P : Z -> Prop) :
  Forall2 (fun p sn => f p = be_bytes n sn) packets sns -> StronglySorted Z.lt sns ->
  Forall (fun sn => 0 <= sn < 256 ^ Z.of_nat n) sns -> NoDup (f <$> packets).
Proof.
  induction 1 as [|p sn packets sns Hp Hps IH]; intros Hs Hr; [constructor|].
  inversion Hs as [|? ? Hs' Hlt]; subst. apply Forall_cons in Hr as [Hr Hrs]. cbn. constructor; [|by apply IH].
  intros (q & Hq & Hin)%list_elem_of_fmap. apply list_elem_of_lookup in Hin as [i Hi].
  destruct (Forall2_lookup_l _ _ _ _ _ Hps Hi) as (sn' & Hi' & Hq').
  rewrite Hp, Hq' in Hq. apply be_bytes_inj in Hq; [|done|by apply (Forall_lookup_1 _ _ _ _ Hrs Hi')].
  pose proof (Forall_lookup_1 _ _ _ _ Hlt Hi'). lia.
Qed.
End sequence_proofs.

(** ** SAs from a child SA *)
Definition valid_spi (spi : bytes) : bool := (len spi =? 4) && negb (be_decode spi =? 0).
(** The integrity algorithms the data path implements. *)
Definition supported (p : ESPKeyProfile) : bool :=
  (ep_EncryptionID p =? ENCR_AES_GCM_16) ||
  (ep_IntegrityID p =? INTEG_HMAC_SHA1_96) || (ep_IntegrityID p =? INTEG_HMAC_SHA2_256_128).
Definition keys_fit (p : ESPKeyProfile) (k : ESPKeys) : Prop :=
  len (ek_EncryptionKey k) = ep_EncryptionKeyLength p /\ len (ek_IntegrityKey k) = ep_IntegrityKeyLength p.
Definition child_sa (p : ESPKeyProfile) (k : ESPKeys) (spi : bytes) (window : Z) : SA :=
  mkESP (be_decode spi) (ep_EncryptionID p) (ek_EncryptionKey k) (ek_IntegrityKey k) (ep_IntegrityID p)
    (icvLengthForChildProfile p) (blockSizeForChildProfile p) 0 0 window 0.

Lemma spiFromBytes_spec spi :
  bytes_ok spi -> spiFromBytes spi = (if valid_spi spi then Ok (be_decode spi) else Errorf Esp_ErrInvalidSA).
Proof.
  intros Hb. unfold spiFromBytes, valid_spi. destruct (len spi =? 4) eqn:Hl; [|done]. cbn [negb andb].
  unfold Uint32, BE_Uint. rewrite (slice_eq _ [] spi []) by (rewrite ?app_nil_r; done || lia). cbn [bind].
  by destruct (be_decode spi =? 0).
Qed.

Lemma NewSA_child p k spi window :
  esp_profile_ok p -> keys_fit p k -> bytes_ok spi -> valid_spi spi = true -> is_u32 window ->
  NewSA (child_sa p k spi window) = (if supported p then Ok (child_sa p k spi window) else Errorf Esp_ErrInvalidSA) /\
  (supported p = true -> esp_ok (child_sa p k spi window) /\ remembers (child_sa p k spi window) ∅).
Proof.
  intros Hp [Hek Hik] Hb Hspi Hw. unfold valid_spi in Hspi. apply andb_true_iff in Hspi as [H4 Hnz].
  pose proof (be_decode_range spi Hb) as Hr. apply Z.eqb_eq in H4. rewrite H4 in Hr.
  assert (Hrem : remembers (child_sa p k spi window) ∅).
  { split_and!; cbn; [set_solver|by left|done|done|]. intros d _. rewrite Z.testbit_0_l. set_solver. }
  assert (Hnew : NewSA (child_sa p k spi window) = (if supported p then Ok (child_sa p k spi window) else Errorf Esp_ErrInvalidSA)).
  { unfold NewSA, supported, encryptionAlgorithm, validAESGCMKeyLength, child_sa.
    cbn [es_SPI es_Encryption es_EncryptionKey es_IntegrityKey es_BlockSize es_ICVLength es_Integrity].
    rewrite Hek, Hik. unfold icvLengthForChildProfile, blockSizeForChildProfile.
    destruct (be_decode spi =? 0); [done|].
    destruct Hp as [(HC & Hk & c & Hi)|(HG & Hk & Hi0 & Hil)].
    - rewrite HC. rewrite !elem_of_cons, elem_of_nil in Hk. unfold integrity_lengths in Hi.
      rewrite !elem_of_cons, elem_of_nil in Hi. destruct Hk as [-> |[-> |[-> |[]]]];
        destruct Hi as [[= -> -> _]|[[= -> -> _]|[[= -> -> _]|[[= -> -> _]|[]]]]]; reflexivity.
    - rewrite HG, Hi0, Hil. rewrite !elem_of_cons, elem_of_nil in Hk.
      destruct Hk as [-> |[-> |[-> |[]]]]; reflexivity. }
  split; [done|]. intros Hs. rewrite Hs in Hnew. split; [|done].
  pose proof (NewSA_safe (child_sa p k spi window)) as Hsafe. rewrite Hnew in Hsafe. by apply Hsafe.
Qed.

(** ** Properties *)

(** C2: what one SA seals its peer opens.  For two SAs with the same SPI,
    algorithms and keys, under AES-CBC with HMAC or AES-GCM, any payload and next
    header, any IV or random source: a packet that [Seal] returns is numbered
    with the caller's number or the successor of the sender's last one, and
    [Open] answers with exactly the SPI, number, next header and payload and
    records the number, when the number is admissible (not accepted before and
    within the window), and otherwise reports [ErrReplay] and leaves the SA as it
    was. *)
Theorem Seal_Open (C : Crypto) (L : CryptoLaws C) rand so si A nh payload opts so' packet :
  reader_ok rand -> esp_ok so -> esp_ok si -> peer_of so si -> options_ok opts -> bytes_ok payload -> is_u8 nh ->
  0 < es_ReplayWindowSize si -> remembers si A ->
  Seal rand (Some so) nh payload opts = (Some so', Ok packet) ->
  let sn := if so_Sequence opts =? 0 then es_Sequence so + 1 else so_Sequence opts in
  so' = with_Sequence so (Z.max (es_Sequence so) sn) /\ bytes_ok packet /\
  (admissible A (window_of si) sn ->
     Open (Some si) packet = (Some (acceptSequence si sn), Ok (mkOpenResult (es_SPI so) sn nh payload)) /\
     remembers (acceptSequence si sn) ({[sn]} ∪ A)) /\
  (~ admissible A (window_of si) sn -> Open (Some si) packet = (Some si, Errorf ErrReplay)).
Proof.
  intros Hr Hso Hsi Hpeer Hopt Hp Hnh Hw HA Hs.
  destruct (Seal_opens rand so si nh payload opts so' packet) as (sn & r & H1 & Hu & Hso' & Hsn & (Hb & _ & ->) & Ho); try done.
  cbv zeta. rewrite <- Hsn, Ho. destruct Hpeer as [Hspi _]. rewrite <- Hspi.
  pose proof (checkReplay_spec si A sn HA H1 Hu Hw) as Hck. split_and!; try done.
  - intros Ha. rewrite decide_True in Hck by done. rewrite Hck. split; [done|]. by apply acceptSequence_remembers.
  - intros Ha. rewrite decide_False in Hck by done. by rewrite Hck.
Qed.

Definition sample_out : SA := mkESP 0x01020304 ENCR_AES_CBC (replicate 16 1) (replicate 32 2) INTEG_HMAC_SHA2_256_128 16 16 41 0 0 0.
Definition sample_in : SA := mkESP 0x01020304 ENCR_AES_CBC (replicate 16 1) (replicate 32 2) INTEG_HMAC_SHA2_256_128 16 16 0 0 64 0.

Lemma sample_in_fresh : remembers sample_in ∅.
Proof. split_and!; cbn; [set_solver|by left|done|done|]. intros d _. rewrite Z.testbit_0_l. set_solver. Qed.

Lemma Seal_Open_witness :
  exists so' packet, Seal zero_reader (Some sample_out) NextHeaderIPv4 [1; 2; 3] (mkSealOptions 0 [] None) = (Some so', Ok packet) /\
    Open (Some sample_in) packet = (Some (acceptSequence sample_in 42), Ok (mkOpenResult 0x01020304 42 NextHeaderIPv4 [1; 2; 3])).
Proof.
  eexists _, _. split; [vm_compute; reflexivity|].
  refine (proj1 (proj1 (proj2 (proj2 (Seal_Open toy_crypto toy_crypto_laws zero_reader sample_out sample_in ∅
    NextHeaderIPv4 [1; 2; 3] (mkSealOptions 0 [] None) (with_Sequence sample_out 42) _ _ _ _ _ _ _ _ _ _ _))) _));
    [exact zero_reader_ok|unfold esp_ok; by_decide|unfold esp_ok; by_decide|unfold peer_of|split_and!; by_decide || exact I|by_decide|by_decide|reflexivity
    |exact sample_in_fresh|vm_compute; reflexivity|].
  - split_and!; reflexivity.
  - split; [apply not_elem_of_empty|]. intros x Hx. by apply not_elem_of_empty in Hx.
Defined.

(** C3: anti-replay, with a replay window greater than 0 (a window of 0 turns the
    check off: [no_window_no_check]).  The SA refines a set of accepted numbers: on any stream of
    packets, forged, reordered or repeated, no sequence number is accepted twice,
    none that was accepted before, and what the SA remembers afterwards
    (highest number and 64-bit bitmap) is exactly the enlarged set; [Open] never
    panics on the way and the keys never change. *)
Theorem Open_no_replay (C : Crypto) (L : CryptoLaws C) s A packets :
  esp_ok s -> 0 < es_ReplayWindowSize s -> remembers s A -> Forall bytes_ok packets ->
  exists s' acc, Open_all (Some s) packets = (Some s', acc) /\ NoDup (or_Sequence <$> acc) /\
    (forall r, r ∈ acc -> or_Sequence r ∉ A) /\
    remembers s' (list_to_set (or_Sequence <$> acc) ∪ A) /\ esp_ok s' /\ same_keys s s'.
Proof. intros. by apply Open_all_spec. Qed.

Definition sample_packet : bytes :=
  match (Seal (C := toy_crypto) zero_reader (Some sample_out) NextHeaderIPv4 [1; 2; 3] (mkSealOptions 0 [] None)).2 with
  | Ok packet => packet
  | _ => []
  end.
Lemma Open_no_replay_witness :
  exists s' acc, Open_all (C := toy_crypto) (Some sample_in) [sample_packet; [1]; sample_packet] = (Some s', acc) /\
    or_Sequence <$> acc = [42] /\ NoDup (or_Sequence <$> acc).
Proof.
  destruct (Open_no_replay toy_crypto toy_crypto_laws sample_in ∅ [sample_packet; [1]; sample_packet]) as (s' & acc & H & Hn & _);
    [unfold esp_ok; by_decide|reflexivity|exact sample_in_fresh|by_decide|].
  exists s', acc. split; [done|]. split; [|done]. vm_compute in H. injection H as _ <-. reflexivity.
Defined.

(** Without a window a packet is accepted as often as it comes. *)
Example no_window_no_check :
  let s := mkESP 0x01020304 ENCR_AES_CBC (replicate 16 1) (replicate 32 2) INTEG_HMAC_SHA2_256_128 16 16 0 0 0 0 in
  or_Sequence <$> (Open_all (C := toy_crypto) (Some s) [sample_packet; sample_packet]).2 = [42; 42].
Proof. vm_compute. reflexivity. Qed.

(** [Open] is total on every packet, and sound: an error leaves the SA
    unchanged; an accepted packet carries the SA's SPI and the returned non-zero
    number, is authenticated by the SA's keys (MAC over everything before it, or
    AEAD with the header as associated data), passed the replay check, and its
    number is recorded. *)
Theorem Open_sound_total (C : Crypto) (L : CryptoLaws C) s packet :
  esp_ok s -> bytes_ok packet ->
  exists s' r, Open (Some s) packet = (Some s', r) /\ open_post s packet (s', r).
Proof. intros. by apply Open_post. Qed.

Lemma Open_sound_total_witness :
  exists s' r, Open (C := toy_crypto) (Some sample_in) [1; 2; 3] = (Some s', r) /\ open_post (C := toy_crypto) sample_in [1; 2; 3] (s', r).
Proof.
  apply (Open_sound_total toy_crypto toy_crypto_laws); [|by_decide].
  unfold esp_ok. by_decide.
Defined.

(** Sequence numbers, and AES-GCM nonces, are never reused: of all the packets
    an SA seals under its own numbering, in any number of calls, failed ones
    included, no two carry the same number, and under AES-GCM no two carry the
    same explicit IV; the counter stops with an error rather than wrap. *)
Theorem Seal_numbers_unique (C : Crypto) (L : CryptoLaws C) rand s calls :
  is_u32 (es_Sequence s) ->
  exists s' packets, Seal_all rand (Some s) calls = (Some s', packets) /\ is_u32 (es_Sequence s') /\
    NoDup ((fun p => sub p 4 8) <$> packets) /\
    (encryptionAlgorithm s = EncryptionAESGCM_16 -> NoDup ((fun p => sub p 8 16) <$> packets)).
Proof.
  intros Hs. destruct (Seal_all_spec rand s calls Hs) as (s' & packets & sns & He & Hn & Hsort & Hb & _ & Hu).
  exists s', packets. split; [done|]. split; [done|]. unfold in_range in Hs, Hu.
  split; [|intros HG].
  - eapply (sorted_numbers_NoDup _ 4 _ sns (fun _ => True)); [|done|].
    + eapply Forall2_impl; [exact Hn|]. by intros p n [? _].
    + eapply Forall_impl; [exact Hb|]. cbn. intros n ?. lia.
  - eapply (sorted_numbers_NoDup _ 8 _ sns (fun _ => True)); [|done|].
    + eapply Forall2_impl; [exact Hn|]. intros p n [_ H]. by apply H.
    + eapply Forall_impl; [exact Hb|]. cbn. intros n ?. lia.
Qed.

Lemma Seal_numbers_unique_witness :
  exists s' packets, Seal_all (C := toy_crypto) zero_reader (Some sample_out) [(4, [1]); (4, [1])] = (Some s', packets) /\
    NoDup ((fun p => sub p 4 8) <$> packets).
Proof.
  destruct (Seal_numbers_unique toy_crypto toy_crypto_laws zero_reader sample_out [(4, [1]); (4, [1])]) as (s' & packets & ? & _ & ? & _);
    [by_decide|eauto].
Defined.

(** The SAs of a negotiated child SA: [NewOutboundSAFromChild] and
    [NewInboundSAFromChild] succeed exactly when the SPI has four octets, not all
    zero, and the data path implements the integrity algorithm (AES-GCM, SHA1-96
    or SHA2-256-128); the SA then has the child's keys for its direction, is
    well-formed, starts at number 0 with an empty replay window, of 64 packets
    inbound and none outbound. *)
Theorem child_SAs_correct child :
  let p := ck_Profile (cr_Keys child) in
  let ko := ck_Outbound (cr_Keys child) in
  let ki := ck_Inbound (cr_Keys child) in
  esp_profile_ok p -> keys_fit p ko -> keys_fit p ki -> bytes_ok (cr_RemoteSPI child) -> bytes_ok (cr_LocalSPI child) ->
  NewOutboundSAFromChild child =
    (if valid_spi (cr_RemoteSPI child) && supported p then Ok (child_sa p ko (cr_RemoteSPI child) 0) else Errorf Esp_ErrInvalidSA) /\
  NewInboundSAFromChild child =
    (if valid_spi (cr_LocalSPI child) && supported p then Ok (child_sa p ki (cr_LocalSPI child) 64) else Errorf Esp_ErrInvalidSA) /\
  (valid_spi (cr_RemoteSPI child) && supported p = true -> esp_ok (child_sa p ko (cr_RemoteSPI child) 0)) /\
  (valid_spi (cr_LocalSPI child) && supported p = true ->
     esp_ok (child_sa p ki (cr_LocalSPI child) 64) /\ remembers (child_sa p ki (cr_LocalSPI child) 64) ∅).
Proof.
  cbv zeta. intros Hp Hko Hki Hbo Hbi. unfold NewOutboundSAFromChild, NewInboundSAFromChild.
  rewrite !spiFromBytes_spec by done.
  pose proof (NewSA_child _ _ (cr_RemoteSPI child) 0 Hp Hko Hbo) as Ho. pose proof (NewSA_child _ _ (cr_LocalSPI child) 64 Hp Hki Hbi) as Hi.
  destruct (valid_spi (cr_RemoteSPI child)), (valid_spi (cr_LocalSPI child)); cbn [andb bind] in *; split_and!; try done;
    try (by apply Ho); try (by apply Hi); intros; by apply Ho || by apply Hi.
Qed.

Lemma child_SAs_correct_witness :
  let k := mkESPKeys (replicate 16 1) (replicate 32 2) in
  let child := mkChildResult (mkSA []) (mkTSs []) (mkTSs []) None [1; 2; 3; 4] [5; 6; 7; 8]
    (mkChildKeys (mkESPProfile ENCR_AES_CBC 16 INTEG_HMAC_SHA2_256_128 32 false) k k) false 0 in
  NewOutboundSAFromChild child = Ok (child_sa (ck_Profile (cr_Keys child)) k [5; 6; 7; 8] 0).
Proof.
  intros k child. refine (proj1 (child_SAs_correct child _ _ _ _ _)); try by_decide; try (split; reflexivity).
  left. split_and!; [reflexivity|by_decide|]. exists 16. unfold integrity_lengths. by_decide.
Defined.
