(* ===== verification/Informational.v ===== *)
(** * INFORMATIONAL exchanges (engine/swu/ikev2/informational.go,
      informational_child.go, informational_handling.go)

    Building, protecting and checking an INFORMATIONAL request and response,
    reading its notifies and deletes, matching the deletes against the tracked
    child SA, and choosing the recovery. *)
From S2P Require Import Prelude Errors Crypto Types Codec Notify Sa Keys Sk Session EapAka ChildSa.

(** ** Classification of a notify (informational_handling.go) *)
Inductive NotifyActionKind :=
| NotifyActionNone | NotifyActionMOBIKESupported | NotifyActionMOBIKEUpdateAddresses
| NotifyActionMOBIKEAdditionalAddress | NotifyActionMOBIKENoAdditionalAddresses
| NotifyActionMOBIKEEchoCookie2 | NotifyActionRekeyChildSA | NotifyActionRetryWithSuggestedDH
| NotifyActionRetryWithDifferentProposal | NotifyActionNarrowTrafficSelectors
| NotifyActionRecreateChildSA | NotifyActionRecreateIKESA | NotifyActionMOBIKEAddressRecovery
| NotifyActionWaitAndRetry | NotifyActionReauthenticate | NotifyActionAbort.
#[export] Instance NotifyActionKind_eq_dec : EqDecision NotifyActionKind.
Proof. solve_decision. Defined.

Record NotifyAction := mkAction {
  na_Notify : Notify;
  na_Kind : NotifyActionKind;
  na_Retry : bool;
  na_RetryLater : bool;
  na_RecreateIKE : bool;
  na_RecreateChild : bool;
  na_SuggestedDHGroup : Z
}.

Definition ClassifyNotifyAction (notify : Notify) : NotifyAction :=
  let t := n_NotifyType notify in
  let action kind retry later ike child dh := mkAction (cloneNotify notify) kind retry later ike child dh in
  let plain kind := action kind false false false false 0 in
  if t =? NotifyMOBIKESupported then plain NotifyActionMOBIKESupported
  else if t =? NotifyUpdateSAAddresses then plain NotifyActionMOBIKEUpdateAddresses
  else if (t =? NotifyAdditionalIPv4Address) || (t =? NotifyAdditionalIPv6Address) then
    plain NotifyActionMOBIKEAdditionalAddress
  else if t =? NotifyNoAdditionalAddresses then plain NotifyActionMOBIKENoAdditionalAddresses
  else if t =? NotifyCookie2 then plain NotifyActionMOBIKEEchoCookie2
  else if t =? NotifyRekeySA then plain NotifyActionRekeyChildSA
  else if t =? NotifyInvalidKEPayload then
    match n_NotificationData notify with
    | [b0; b1] => action NotifyActionRetryWithSuggestedDH true false false false (be_decode [b0; b1])
    | _ => plain NotifyActionAbort
    end
  else if t =? NotifyNoProposalChosen then action NotifyActionRetryWithDifferentProposal true false false false 0
  else if (t =? NotifySinglePairRequired) || (t =? NotifyTSUnacceptable) || (t =? NotifyInvalidSelectors) then
    action NotifyActionNarrowTrafficSelectors true false false true 0
  else if t =? NotifyInvalidSPI then action NotifyActionRecreateChildSA true false false true 0
  else if t =? NotifyNoAdditionalSAs then action NotifyActionWaitAndRetry true true false false 0
  else if (t =? NotifyInvalidIKESPI) || (t =? NotifyInternalAddressFailure) || (t =? NotifyFailedCPRequired) then
    action NotifyActionRecreateIKESA true false true false 0
  else if (t =? NotifyUnacceptableAddresses) || (t =? NotifyUnexpectedNATDetected) || (t =? NotifyNoNATsAllowed) then
    action NotifyActionMOBIKEAddressRecovery true false false false 0
  else if t =? NotifyAuthenticationFailed then action NotifyActionReauthenticate false false true false 0
  else if (t =? NotifyUnsupportedCriticalPayload) || (t =? NotifyInvalidMajorVersion) || (t =? NotifyInvalidSyntax) ||
          (t =? NotifyInvalidMessageID) then plain NotifyActionAbort
  else if t <? 16384 then plain NotifyActionAbort
  else plain NotifyActionNone.

Definition zeroAction : NotifyAction := mkAction emptyNotify NotifyActionNone false false false false 0.
Definition NotifyActionFromError (err : option error) : NotifyAction * bool :=
  match err with
  | None => (zeroAction, false)
  | Some e =>
      match errors_As_NotifyError e with
      | None => (zeroAction, false)
      | Some (n, _) =>
          let action := ClassifyNotifyAction n in
          (action, negb (bool_decide (na_Kind action = NotifyActionNone)))
      end
  end.

(** ** Contents (informational.go) *)
Record InformationalContent := mkContent {
  ic_Payloads : list Payload;
  ic_Notifies : list Notify;
  ic_NotifyActions : list NotifyAction;
  ic_Deletes : list Delete;
  ic_NotifyError : option error
}.

Definition cloneByteSlices (spis : list bytes) : list bytes := (fun spi => spi) <$> spis.
Definition cloneNotifies (l : list Notify) : list Notify := cloneNotify <$> l.
Definition cloneNotifyAction (a : NotifyAction) : NotifyAction :=
  mkAction (cloneNotify (na_Notify a)) (na_Kind a) (na_Retry a) (na_RetryLater a) (na_RecreateIKE a)
    (na_RecreateChild a) (na_SuggestedDHGroup a).
Definition cloneNotifyActions (l : list NotifyAction) : list NotifyAction := cloneNotifyAction <$> l.
Definition cloneDelete (d : Delete) : Delete := mkDelete (d_ProtocolID d) (cloneByteSlices (d_SPIs d)).
Definition cloneDeletes (l : list Delete) : list Delete := cloneDelete <$> l.
Definition cloneNotifyError (err : option error) : option error :=
  match err with
  | None => None
  | Some e =>
      match errors_As_NotifyError e with
      | Some (n, _) => NotifyErrorFor n
      | None => Some e
      end
  end.
Definition cloneInformationalContent (c : InformationalContent) : InformationalContent :=
  mkContent (clonePayloads (ic_Payloads c)) (cloneNotifies (ic_Notifies c)) (cloneNotifyActions (ic_NotifyActions c))
    (cloneDeletes (ic_Deletes c)) (cloneNotifyError (ic_NotifyError c)).

(** The loop of [ParseInformationalContent]. *)
Fixpoint parse_content_loop (payloads : list Payload) (content : InformationalContent) : result InformationalContent :=
  match payloads with
  | [] => Ok content
  | payload :: rest =>
      if p_Type payload =? PayloadNotify then
        let! notify := map_err (Wrap ErrInvalidInformational) (ParseNotify (p_Body payload)) in
        let notifies := ic_Notifies content ++ [cloneNotify notify] in
        let action := ClassifyNotifyAction notify in
        let actions := if bool_decide (na_Kind action = NotifyActionNone) then ic_NotifyActions content
                       else ic_NotifyActions content ++ [action] in
        let err := match ic_NotifyError content with None => NotifyErrorFor notify | Some e => Some e end in
        parse_content_loop rest (mkContent (ic_Payloads content) notifies actions (ic_Deletes content) err)
      else if p_Type payload =? PayloadDelete then
        let! d := map_err (Wrap ErrInvalidInformational) (ParseDelete (p_Body payload)) in
        parse_content_loop rest (mkContent (ic_Payloads content) (ic_Notifies content) (ic_NotifyActions content)
          (ic_Deletes content ++ [cloneDelete d]) (ic_NotifyError content))
      else parse_content_loop rest content
  end.
Definition ParseInformationalContent (payloads : list Payload) : result InformationalContent :=
  parse_content_loop payloads (mkContent (clonePayloads payloads) [] [] [] None).

(** ** The exchange (informational.go) *)
Record InformationalConfig := mkInformational {
  inf_Transport : option Transport;
  inf_Init : InitResult;
  inf_Keys : IKEKeys;
  inf_MessageID : Z;
  inf_FromResponder : bool;
  inf_Payloads : list Payload;
  inf_Random : option Reader;
  inf_IV : bytes
}.
Record InformationalResult := mkInformationalResult {
  ir2_RequestBytes : bytes;
  ir2_ResponseBytes : bytes;
  ir2_ResponseInner : list Payload;
  ir2_Response : InformationalContent;
  ir2_NextMessageID : Z
}.

Definition informationalFlags (fromInitiator response : bool) : Z :=
  let flags := if fromInitiator then Z.lor 0 FlagInitiator else 0 in
  if response then Z.lor flags FlagResponse else flags.
Definition informationalHeader (init : InitResult) (messageID : Z) (fromInitiator response : bool) : Header :=
  mkHeader (ir_InitiatorSPI init) (ir_ResponderSPI init) 0 0 ExchangeINFORMATIONAL
    (informationalFlags fromInitiator response) messageID 0.

Definition validateInformationalHeader (h : Header) (init : InitResult) (messageID : Z) (fromInitiator response : bool)
  : result unit :=
  if negb (h_InitiatorSPI h =? ir_InitiatorSPI init) || negb (h_ResponderSPI h =? ir_ResponderSPI init) ||
     negb (h_ExchangeType h =? ExchangeINFORMATIONAL) || negb (h_MessageID h =? messageID)
  then Errorf ErrInvalidInformational else
  if negb (Z.land (h_Flags h) (Z.lor FlagInitiator FlagResponse) =? informationalFlags fromInitiator response)
  then Errorf ErrInvalidInformational else Ok tt.

Section informational.
Context {C : Crypto} (rand_Reader : Reader).

Definition informationalIV (random : option Reader) (profile : KeyMaterialProfile) (override : bytes) : result bytes :=
  if 0 <? len override then
    if negb (len override =? kp_EncryptionBlockSize profile) then Errorf ErrInvalidInformational else Ok override
  else RandomIV rand_Reader random profile.

Definition BuildInformationalRequestFrom (init : InitResult) (keys : IKEKeys) (messageID : Z) (fromInitiator : bool)
    (inner : list Payload) (iv : bytes) : result (Message * bytes) :=
  ProtectMessage rand_Reader (informationalHeader init messageID fromInitiator false) keys fromInitiator inner iv.
Definition BuildInformationalResponseFrom (init : InitResult) (keys : IKEKeys) (messageID : Z) (fromInitiator : bool)
    (inner : list Payload) (iv : bytes) : result (Message * bytes) :=
  ProtectMessage rand_Reader (informationalHeader init messageID fromInitiator true) keys fromInitiator inner iv.
Definition BuildInformationalRequest init keys messageID inner iv : result (Message * bytes) :=
  BuildInformationalRequestFrom init keys messageID true inner iv.
Definition BuildInformationalResponse init keys messageID inner iv : result (Message * bytes) :=
  BuildInformationalResponseFrom init keys messageID false inner iv.

Definition ParseInformationalRequestContentFrom (raw : bytes) (init : InitResult) (keys : IKEKeys) (messageID : Z)
    (fromInitiator : bool) : result (Message * InformationalContent) :=
  let! r := UnprotectMessage raw keys fromInitiator in
  let '(msg, inner) := r in
  let! _ := validateInformationalHeader (m_Header msg) init messageID fromInitiator false in
  let! content := ParseInformationalContent inner in
  Ok (msg, content).
Definition ParseInformationalResponseContentFrom (raw : bytes) (init : InitResult) (keys : IKEKeys) (messageID : Z)
    (fromInitiator : bool) : result (Message * InformationalContent) :=
  let! r := UnprotectMessage raw keys fromInitiator in
  let '(msg, inner) := r in
  let! _ := validateInformationalHeader (m_Header msg) init messageID fromInitiator true in
  let! content := ParseInformationalContent inner in
  Ok (msg, content).
Definition ParseInformationalRequestContent raw init keys messageID : result (Message * InformationalContent) :=
  ParseInformationalRequestContentFrom raw init keys messageID true.
Definition ParseInformationalResponseContent raw init keys messageID : result (Message * InformationalContent) :=
  ParseInformationalResponseContentFrom raw init keys messageID false.
Definition ParseInformationalRequestFrom (raw : bytes) init keys messageID fromInitiator : result (Message * list Payload) :=
  let! r := ParseInformationalRequestContentFrom raw init keys messageID fromInitiator in
  let '(msg, content) := r in Ok (msg, ic_Payloads content).
Definition ParseInformationalResponseFrom (raw : bytes) init keys messageID fromInitiator : result (Message * list Payload) :=
  let! r := ParseInformationalResponseContentFrom raw init keys messageID fromInitiator in
  let '(msg, content) := r in Ok (msg, ic_Payloads content).
Definition ParseInformationalRequest raw init keys messageID : result (Message * list Payload) :=
  ParseInformationalRequestFrom raw init keys messageID true.
Definition ParseInformationalResponse raw init keys messageID : result (Message * list Payload) :=
  ParseInformationalResponseFrom raw init keys messageID false.

Definition RunInformationalExchange (cfg : InformationalConfig) : result InformationalResult :=
  match inf_Transport cfg with
  | None => Errorf ErrInvalidInformational
  | Some exchangeIKE =>
  let keys := if RequiredLength (k_Profile (inf_Keys cfg)) =? 0 then ir_Keys (inf_Init cfg) else inf_Keys cfg in
  let! _ := validateKeySet keys in
  if (ir_InitiatorSPI (inf_Init cfg) =? 0) || (ir_ResponderSPI (inf_Init cfg) =? 0)
  then Errorf ErrInvalidInformational else
  let! iv := informationalIV (inf_Random cfg) (k_Profile keys) (inf_IV cfg) in
  let requestFromInitiator := negb (inf_FromResponder cfg) in
  let! r := BuildInformationalRequestFrom (inf_Init cfg) keys (inf_MessageID cfg) requestFromInitiator
              (inf_Payloads cfg) iv in
  let '(_, reqBytes) := r in
  let! respBytes := exchangeIKE reqBytes in
  let! r := ParseInformationalResponseContentFrom respBytes (inf_Init cfg) keys (inf_MessageID cfg)
              (negb requestFromInitiator) in
  let '(_, response) := r in
  Ok (mkInformationalResult reqBytes respBytes (clonePayloads (ic_Payloads response))
        (cloneInformationalContent response) (to_u32 (inf_MessageID cfg + 1)))
  end.

Definition RunLivenessCheck (cfg : InformationalConfig) : result InformationalResult :=
  RunInformationalExchange (mkInformational (inf_Transport cfg) (inf_Init cfg) (inf_Keys cfg) (inf_MessageID cfg)
    (inf_FromResponder cfg) [] (inf_Random cfg) (inf_IV cfg)).
End informational.

(** ** Deletes of the tracked child SA (informational_child.go) *)
Inductive ChildSADeleteOutcome :=
| ChildSADeleteNone | ChildSADeleteCurrent | ChildSADeleteOther | ChildSADeleteMixed.
#[export] Instance ChildSADeleteOutcome_eq_dec : EqDecision ChildSADeleteOutcome.
Proof. solve_decision. Defined.

Record ChildSADeleteMatch := mkMatch {
  dm_ProtocolID : Z;
  dm_SPI : bytes;
  dm_MatchesLocal : bool;
  dm_MatchesRemote : bool
}.
Record ChildSADeleteSummary := mkSummary {
  ds_Outcome : ChildSADeleteOutcome;
  ds_Deletes : list ChildSADeleteMatch;
  ds_CurrentSPIs : list bytes;
  ds_OtherSPIs : list bytes;
  ds_MatchesLocal : bool;
  ds_MatchesRemote : bool;
  ds_DeleteIKE : bool
}.

Definition childSADeleteOutcome (s : ChildSADeleteSummary) : ChildSADeleteOutcome :=
  if len (ds_Deletes s) =? 0 then ChildSADeleteNone
  else if (0 <? len (ds_CurrentSPIs s)) && (0 <? len (ds_OtherSPIs s)) then ChildSADeleteMixed
  else if 0 <? len (ds_CurrentSPIs s) then ChildSADeleteCurrent
  else ChildSADeleteOther.

(** The loop of [classifyChildSADeleteSPIs] over the SPIs of a delete. *)
Fixpoint classify_spis_loop (spis : list bytes) (protocol : Z) (child : ChildSAResult) (out : ChildSADeleteSummary)
  : ChildSADeleteSummary :=
  match spis with
  | [] => out
  | spi :: rest =>
      let local := if protocol =? ProtocolESP then (0 <? len (cr_LocalSPI child)) && bytesEqual spi (cr_LocalSPI child) else false in
      let remote := if protocol =? ProtocolESP then (0 <? len (cr_RemoteSPI child)) && bytesEqual spi (cr_RemoteSPI child) else false in
      let deletes := ds_Deletes out ++ [mkMatch protocol spi local remote] in
      let out :=
        if local || remote then
          mkSummary (ds_Outcome out) deletes (ds_CurrentSPIs out ++ [spi]) (ds_OtherSPIs out)
            (ds_MatchesLocal out || local) (ds_MatchesRemote out || remote) (ds_DeleteIKE out)
        else
          mkSummary (ds_Outcome out) deletes (ds_CurrentSPIs out) (ds_OtherSPIs out ++ [spi])
            (ds_MatchesLocal out) (ds_MatchesRemote out) (ds_DeleteIKE out) in
      classify_spis_loop rest protocol child out
  end.
Definition classifyChildSADeleteSPIs (out : ChildSADeleteSummary) (d : Delete) (child : ChildSAResult) : ChildSADeleteSummary :=
  classify_spis_loop (d_SPIs d) (d_ProtocolID d) child out.

Fixpoint classify_deletes_loop (deletes : list Delete) (child : ChildSAResult) (out : ChildSADeleteSummary)
  : ChildSADeleteSummary :=
  match deletes with
  | [] => out
  | d :: rest =>
      let out :=
        if d_ProtocolID d =? ProtocolIKE then
          mkSummary (ds_Outcome out) (ds_Deletes out) (ds_CurrentSPIs out) (ds_OtherSPIs out)
            (ds_MatchesLocal out) (ds_MatchesRemote out) true
        else if (d_ProtocolID d =? ProtocolAH) || (d_ProtocolID d =? ProtocolESP) then
          classifyChildSADeleteSPIs out d child
        else out in
      classify_deletes_loop rest child out
  end.
Definition zeroSummary : ChildSADeleteSummary := mkSummary ChildSADeleteNone [] [] [] false false false.
Definition ClassifyChildSADeletes (content : InformationalContent) (child : ChildSAResult) : ChildSADeleteSummary :=
  let out := classify_deletes_loop (ic_Deletes content) child zeroSummary in
  mkSummary (childSADeleteOutcome out) (ds_Deletes out) (ds_CurrentSPIs out) (ds_OtherSPIs out)
    (ds_MatchesLocal out) (ds_MatchesRemote out) (ds_DeleteIKE out).
Definition ClassifyChildSADeletePayloads (payloads : list Payload) (child : ChildSAResult) : result ChildSADeleteSummary :=
  let! content := ParseInformationalContent payloads in Ok (ClassifyChildSADeletes content child).
Definition cloneChildSADeleteSummary (s : ChildSADeleteSummary) : ChildSADeleteSummary :=
  mkSummary (ds_Outcome s)
    ((fun m => mkMatch (dm_ProtocolID m) (dm_SPI m) (dm_MatchesLocal m) (dm_MatchesRemote m)) <$> ds_Deletes s)
    (cloneByteSlices (ds_CurrentSPIs s)) (cloneByteSlices (ds_OtherSPIs s))
    (ds_MatchesLocal s) (ds_MatchesRemote s) (ds_DeleteIKE s).

(** ** Handling of a request (informational_handling.go) *)
Record InformationalHandling := mkHandling {
  ih_Empty : bool;
  ih_LivenessCheck : bool;
  ih_DeleteIKE : bool;
  ih_DeleteESP : list bytes;
  ih_DeleteAH : list bytes;
  ih_UpdateSAAddresses : bool;
  ih_NoAdditionalAddresses : bool;
  ih_AdditionalAddresses : list bytes;
  ih_Cookie2 : bytes;
  ih_InvalidSelectors : list InvalidSelectorReport;
  ih_NotifyError : option error;
  ih_Notifies : list Notify;
  ih_NotifyActions : list NotifyAction;
  ih_Deletes : list Delete
}.

(** [handling.DeleteX = ...], and the fields a notify changes. *)
Definition with_deletes (h : InformationalHandling) (ike : bool) (esp ah : list bytes) : InformationalHandling :=
  mkHandling (ih_Empty h) (ih_LivenessCheck h) ike esp ah (ih_UpdateSAAddresses h) (ih_NoAdditionalAddresses h)
    (ih_AdditionalAddresses h) (ih_Cookie2 h) (ih_InvalidSelectors h) (ih_NotifyError h) (ih_Notifies h)
    (ih_NotifyActions h) (ih_Deletes h).
Definition with_notify (h : InformationalHandling) (update none : bool) (addrs : list bytes) (cookie2 : bytes)
    (selectors : list InvalidSelectorReport) : InformationalHandling :=
  mkHandling (ih_Empty h) (ih_LivenessCheck h) (ih_DeleteIKE h) (ih_DeleteESP h) (ih_DeleteAH h) update none
    addrs cookie2 selectors (ih_NotifyError h) (ih_Notifies h) (ih_NotifyActions h) (ih_Deletes h).
Definition with_action (h : InformationalHandling) (a : NotifyAction) : InformationalHandling :=
  mkHandling (ih_Empty h) (ih_LivenessCheck h) (ih_DeleteIKE h) (ih_DeleteESP h) (ih_DeleteAH h) (ih_UpdateSAAddresses h)
    (ih_NoAdditionalAddresses h) (ih_AdditionalAddresses h) (ih_Cookie2 h) (ih_InvalidSelectors h) (ih_NotifyError h)
    (ih_Notifies h) (ih_NotifyActions h ++ [a]) (ih_Deletes h).

Definition handleInformationalNotify (h : InformationalHandling) (notify : Notify) : result InformationalHandling :=
  let t := n_NotifyType notify in
  let data := n_NotificationData notify in
  let invalid := Err (Wrap ErrInvalidInformational (Sentinel ErrInvalidNotify)) in
  let set := with_notify h in
  if t =? NotifyUpdateSAAddresses then
    Ok (set true (ih_NoAdditionalAddresses h) (ih_AdditionalAddresses h) (ih_Cookie2 h) (ih_InvalidSelectors h))
  else if t =? NotifyNoAdditionalAddresses then
    Ok (set (ih_UpdateSAAddresses h) true (ih_AdditionalAddresses h) (ih_Cookie2 h) (ih_InvalidSelectors h))
  else if t =? NotifyAdditionalIPv4Address then
    if negb (len data =? 4) then invalid else
    Ok (set (ih_UpdateSAAddresses h) (ih_NoAdditionalAddresses h) (ih_AdditionalAddresses h ++ [data]) (ih_Cookie2 h) (ih_InvalidSelectors h))
  else if t =? NotifyAdditionalIPv6Address then
    if negb (len data =? 16) then invalid else
    Ok (set (ih_UpdateSAAddresses h) (ih_NoAdditionalAddresses h) (ih_AdditionalAddresses h ++ [data]) (ih_Cookie2 h) (ih_InvalidSelectors h))
  else if t =? NotifyCookie2 then
    if (len data <? 8) || (64 <? len data) then invalid else
    Ok (set (ih_UpdateSAAddresses h) (ih_NoAdditionalAddresses h) (ih_AdditionalAddresses h) data (ih_InvalidSelectors h))
  else if t =? NotifyInvalidSelectors then
    match Notify_InvalidSelectorReport notify with
    | (_, _, Some err) => Err (Wrap ErrInvalidInformational err)
    | (report, _, None) =>
        Ok (set (ih_UpdateSAAddresses h) (ih_NoAdditionalAddresses h) (ih_AdditionalAddresses h) (ih_Cookie2 h)
              (ih_InvalidSelectors h ++ [default (mkInvalidSelectorReport 0 [] []) report]))
    end
  else Ok h.

Fixpoint handle_deletes_loop (deletes : list Delete) (h : InformationalHandling) : InformationalHandling :=
  match deletes with
  | [] => h
  | d :: rest =>
      let h :=
        if d_ProtocolID d =? ProtocolIKE then with_deletes h true (ih_DeleteESP h) (ih_DeleteAH h)
        else if d_ProtocolID d =? ProtocolESP then
          with_deletes h (ih_DeleteIKE h) (ih_DeleteESP h ++ cloneByteSlices (d_SPIs d)) (ih_DeleteAH h)
        else if d_ProtocolID d =? ProtocolAH then
          with_deletes h (ih_DeleteIKE h) (ih_DeleteESP h) (ih_DeleteAH h ++ cloneByteSlices (d_SPIs d))
        else h in
      handle_deletes_loop rest h
  end.
Fixpoint handle_notifies_loop (notifies : list Notify) (h : InformationalHandling) : result InformationalHandling :=
  match notifies with
  | [] => Ok h
  | notify :: rest =>
      let! h := handleInformationalNotify h notify in
      let action := ClassifyNotifyAction notify in
      handle_notifies_loop rest (if bool_decide (na_Kind action = NotifyActionNone) then h else with_action h action)
  end.
Definition HandleInformationalContent (content : InformationalContent) : result InformationalHandling :=
  let empty := len (ic_Payloads content) =? 0 in
  let handling := mkHandling empty empty false [] [] false false [] [] [] (cloneNotifyError (ic_NotifyError content))
    (cloneNotifies (ic_Notifies content)) [] (cloneDeletes (ic_Deletes content)) in
  handle_notifies_loop (ic_Notifies content) (handle_deletes_loop (ic_Deletes content) handling).
Definition HandleInformationalPayloads (payloads : list Payload) : result InformationalHandling :=
  let! content := ParseInformationalContent payloads in HandleInformationalContent content.

Record InformationalResponsePlan := mkResponsePlan { irp_Payloads : list Payload; irp_EchoCookie2 : bool }.
Definition PlanInformationalResponse (handling : InformationalHandling) : result InformationalResponsePlan :=
  let echoCookie2 := 0 <? len (ih_Cookie2 handling) in
  let! payloads :=
    (if echoCookie2 then
       let! payload := map_err (Wrap ErrInvalidInformational) (Cookie2Notify (ih_Cookie2 handling)) in Ok [payload]
     else Ok []) in
  Ok (mkResponsePlan (clonePayloads payloads) echoCookie2).

(** ** The recovery (informational_handling.go) *)
Inductive InformationalRecoveryAction :=
| InformationalRecoveryNoAction | InformationalRecoveryUpdateMOBIKEAddresses
| InformationalRecoveryMOBIKEAddressRecovery | InformationalRecoveryRekeyChildSA
| InformationalRecoveryRetryExchange | InformationalRecoveryWaitAndRetry
| InformationalRecoveryRecreateChildSA | InformationalRecoveryRecreateIKESA
| InformationalRecoveryReauthenticate | InformationalRecoveryAbort.
#[export] Instance InformationalRecoveryAction_eq_dec : EqDecision InformationalRecoveryAction.
Proof. solve_decision. Defined.

(** The fields of [InformationalRecoveryPlan] that [considerRecovery] resets, in
    a record of their own. *)
Record recovery := mkRecovery {
  rv_Action : InformationalRecoveryAction;
  rv_Reason : string;
  rv_Retry : bool;
  rv_RetryLater : bool;
  rv_RecreateIKE : bool;
  rv_RecreateChild : bool;
  rv_RekeyChild : bool;
  rv_Reauthenticate : bool;
  rv_MOBIKEAddressRecovery : bool;
  rv_SuggestedDHGroup : Z
}.
Record InformationalRecoveryPlan := mkRecoveryPlan {
  pl_recovery : recovery;
  pl_EchoCookie2 : bool;
  pl_DeleteIKE : bool;
  pl_DeleteCurrentChild : bool;
  pl_DeleteOtherChild : bool;
  pl_UpdateSAAddresses : bool;
  pl_Response : InformationalResponsePlan;
  pl_ChildDeletes : ChildSADeleteSummary;
  pl_NotifyActions : list NotifyAction
}.

Definition notifyRecoveryReason (action : NotifyAction) : string :=
  if n_NotifyType (na_Notify action) =? 0 then "notify recovery required"
  else String.append (NotifyTypeName (n_NotifyType (na_Notify action))) " notify".

(** The state of the choice: the fields it sets and the priority so far.  [apply]
    is the closure that sets the flags of the action. *)
Definition considerRecovery (st : recovery * Z) (action : InformationalRecoveryAction) (nextPriority : Z)
    (reason : string) (apply : recovery -> recovery) : recovery * Z :=
  let '(p, priority) := st in
  if nextPriority <=? priority then (p, priority)
  else (apply (mkRecovery action reason false false false false false false false 0), nextPriority).

(** [p.Retry = true] and the flag of the action. *)
Definition apply_flags (later ike child rekey reauth mobike : bool) (dh : Z) (p : recovery) : recovery :=
  mkRecovery (rv_Action p) (rv_Reason p) true later ike child rekey reauth mobike dh.
Definition no_apply (p : recovery) : recovery := p.

Definition considerNotifyRecovery (st : recovery * Z) (action : NotifyAction) : recovery * Z :=
  let reason := notifyRecoveryReason action in
  match na_Kind action with
  | NotifyActionMOBIKEUpdateAddresses =>
      considerRecovery st InformationalRecoveryUpdateMOBIKEAddresses 30 reason no_apply
  | NotifyActionRekeyChildSA =>
      considerRecovery st InformationalRecoveryRekeyChildSA 40 reason (apply_flags false false false true false false 0)
  | NotifyActionRetryWithSuggestedDH | NotifyActionRetryWithDifferentProposal =>
      considerRecovery st InformationalRecoveryRetryExchange 55 reason
        (apply_flags false false false false false false (na_SuggestedDHGroup action))
  | NotifyActionNarrowTrafficSelectors | NotifyActionRecreateChildSA =>
      considerRecovery st InformationalRecoveryRecreateChildSA 70 reason
        (apply_flags false false true false false false (na_SuggestedDHGroup action))
  | NotifyActionWaitAndRetry =>
      considerRecovery st InformationalRecoveryWaitAndRetry 50 reason (apply_flags true false false false false false 0)
  | NotifyActionRecreateIKESA =>
      considerRecovery st InformationalRecoveryRecreateIKESA 80 reason (apply_flags false true false false false false 0)
  | NotifyActionMOBIKEAddressRecovery =>
      considerRecovery st InformationalRecoveryMOBIKEAddressRecovery 60 reason (apply_flags false false false false false true 0)
  | NotifyActionReauthenticate =>
      considerRecovery st InformationalRecoveryReauthenticate 90 reason (apply_flags false true false false true false 0)
  | NotifyActionAbort => considerRecovery st InformationalRecoveryAbort 100 reason no_apply
  | _ => st
  end.

Definition set_reason (p : recovery) (reason : string) : recovery :=
  mkRecovery (rv_Action p) reason (rv_Retry p) (rv_RetryLater p) (rv_RecreateIKE p) (rv_RecreateChild p)
    (rv_RekeyChild p) (rv_Reauthenticate p) (rv_MOBIKEAddressRecovery p) (rv_SuggestedDHGroup p).

Definition PlanInformationalRecovery (content : InformationalContent) (child : ChildSAResult) : result InformationalRecoveryPlan :=
  let! handling := HandleInformationalContent content in
  let! response := PlanInformationalResponse handling in
  let childDeletes := ClassifyChildSADeletes content child in
  let deleteIKE := ih_DeleteIKE handling || ds_DeleteIKE childDeletes in
  let deleteCurrent := bool_decide (ds_Outcome childDeletes = ChildSADeleteCurrent) ||
                       bool_decide (ds_Outcome childDeletes = ChildSADeleteMixed) in
  let deleteOther := 0 <? len (ds_OtherSPIs childDeletes) in
  let plan r := mkRecoveryPlan r (irp_EchoCookie2 response) deleteIKE deleteCurrent deleteOther
    (ih_UpdateSAAddresses handling)
    (mkResponsePlan (clonePayloads (irp_Payloads response)) (irp_EchoCookie2 response))
    (cloneChildSADeleteSummary childDeletes) (cloneNotifyActions (ih_NotifyActions handling)) in
  let r := mkRecovery InformationalRecoveryNoAction "no recovery needed" false false false false false false false 0 in
  if ih_LivenessCheck handling then Ok (plan (set_reason r "liveness check")) else
  let st := (r, 0) in
  let st :=
    if deleteIKE then
      considerRecovery st InformationalRecoveryRecreateIKESA 80 "ike delete received"
        (apply_flags false true false false false false 0)
    else st in
  let st :=
    if deleteCurrent then
      considerRecovery st InformationalRecoveryRecreateChildSA 70 "tracked child sa delete received"
        (apply_flags false false true false false false 0)
    else if deleteOther then (set_reason st.1 "no tracked child sa deleted", st.2)
    else st in
  let st :=
    if ih_UpdateSAAddresses handling then
      considerRecovery st InformationalRecoveryUpdateMOBIKEAddresses 30 "UPDATE_SA_ADDRESSES notify received" no_apply
    else st in
  let '(r, priority) := fold_left considerNotifyRecovery (ih_NotifyActions handling) st in
  let r := if (priority =? 0) && irp_EchoCookie2 response then set_reason r "COOKIE2 response required" else r in
  Ok (plan r).

Definition PlanInformationalRecoveryPayloads (payloads : list Payload) (child : ChildSAResult) : result InformationalRecoveryPlan :=
  let! content := ParseInformationalContent payloads in PlanInformationalRecovery content child.

(** ** Clones are copies *)
Lemma cloneByteSlices_id l : cloneByteSlices l = l.
Proof. apply list_fmap_id. Qed.
Lemma fmap_id_ext {A} (f : A -> A) (l : list A) : (forall a, f a = a) -> f <$> l = l.
Proof. intros H. induction l as [|a l IH]; [done|]. cbn. by rewrite H, IH. Qed.
Lemma cloneDelete_id d : cloneDelete d = d.
Proof. destruct d. unfold cloneDelete. cbn. by rewrite cloneByteSlices_id. Qed.
Lemma cloneNotifyAction_id a : cloneNotifyAction a = a.
Proof. destruct a. unfold cloneNotifyAction. cbn. by rewrite cloneNotify_id. Qed.
Lemma cloneNotifyActions_id l : cloneNotifyActions l = l.
Proof. apply fmap_id_ext, cloneNotifyAction_id. Qed.
Lemma cloneNotifies_id l : cloneNotifies l = l.
Proof. apply fmap_id_ext, cloneNotify_id. Qed.
Lemma cloneDeletes_id l : cloneDeletes l = l.
Proof. apply fmap_id_ext, cloneDelete_id. Qed.

(** A notify error that is kept is the class of a notify. *)
Definition is_notify_error (err : option error) : Prop :=
  match err with None => True | Some e => exists n, NotifyErrorFor n = Some e end.
Lemma cloneNotifyError_id err : is_notify_error err -> cloneNotifyError err = err.
Proof.
  destruct err as [e|]; [|done]. intros [n Hn]. unfold cloneNotifyError, NotifyErrorFor in *.
  destruct (notifyErrorClass (n_NotifyType n)) as [c|] eqn:Hc; [|done]. injection Hn as <-. cbn.
  rewrite cloneNotify_id. by rewrite Hc, cloneNotify_id.
Qed.

(** ** What a content is *)
Definition notifies_of (payloads : list Payload) : list Notify :=
  omap (fun p => if p_Type p =? PayloadNotify then match ParseNotify (p_Body p) with Ok n => Some n | _ => None end else None) payloads.
Definition deletes_of (payloads : list Payload) : list Delete :=
  omap (fun p => if p_Type p =? PayloadDelete then match ParseDelete (p_Body p) with Ok d => Some d | _ => None end else None) payloads.
Definition actions_of (notifies : list Notify) : list NotifyAction :=
  filter (fun a => na_Kind a <> NotifyActionNone) (ClassifyNotifyAction <$> notifies).
Definition first_error (notifies : list Notify) : option error := head (omap NotifyErrorFor notifies).

Definition content_of (payloads : list Payload) : InformationalContent :=
  mkContent payloads (notifies_of payloads) (actions_of (notifies_of payloads)) (deletes_of payloads)
    (first_error (notifies_of payloads)).

Lemma actions_of_cons n ns :
  actions_of (n :: ns) =
  (if bool_decide (na_Kind (ClassifyNotifyAction n) = NotifyActionNone) then [] else [ClassifyNotifyAction n]) ++ actions_of ns.
Proof.
  unfold actions_of. change (ClassifyNotifyAction <$> n :: ns) with (ClassifyNotifyAction n :: (ClassifyNotifyAction <$> ns)).
  rewrite filter_cons. case_bool_decide; [rewrite decide_False by naive_solver|rewrite decide_True by done]; done.
Qed.

Definition append_content (c : InformationalContent) (payloads : list Payload) : InformationalContent :=
  mkContent (ic_Payloads c) (ic_Notifies c ++ notifies_of payloads)
    (ic_NotifyActions c ++ actions_of (notifies_of payloads)) (ic_Deletes c ++ deletes_of payloads)
    (match ic_NotifyError c with Some e => Some e | None => first_error (notifies_of payloads) end).

Lemma notifies_of_cons p ps :
  notifies_of (p :: ps) =
  (if p_Type p =? PayloadNotify then match ParseNotify (p_Body p) with Ok n => [n] | _ => [] end else []) ++ notifies_of ps.
Proof. unfold notifies_of. cbn. destruct (_ =? _); [|done]. by destruct (ParseNotify (p_Body p)). Qed.
Lemma deletes_of_cons p ps :
  deletes_of (p :: ps) =
  (if p_Type p =? PayloadDelete then match ParseDelete (p_Body p) with Ok d => [d] | _ => [] end else []) ++ deletes_of ps.
Proof. unfold deletes_of. cbn. destruct (_ =? _); [|done]. by destruct (ParseDelete (p_Body p)). Qed.

Lemma parse_content_loop_safe payloads c :
  Forall Payload_ok payloads -> safe (parse_content_loop payloads c) (fun c' => c' = append_content c payloads).
Proof.
  intros Hok. revert c. induction Hok as [|p payloads (_ & _ & Hb) _ IH]; intros c; cbn [parse_content_loop].
  { destruct c as [ps ns az ds e]. unfold append_content. cbn. rewrite !app_nil_r. by destruct e. }
  unfold append_content. rewrite notifies_of_cons, deletes_of_cons.
  destruct (Z.eqb_spec (p_Type p) PayloadNotify) as [Hn|Hn].
  - rewrite Hn. change (PayloadNotify =? PayloadDelete) with false. pose proof (ParseNotify_safe (p_Body p) Hb) as Hs.
    destruct (ParseNotify (p_Body p)) as [n| | |]; try done. cbn [map_err bind app].
    eapply safe_mono; [apply IH|]. intros c' ->. rewrite cloneNotify_id, actions_of_cons. unfold append_content.
    cbn [ic_Payloads ic_Notifies ic_NotifyActions ic_Deletes ic_NotifyError]. f_equal.
    + by rewrite <- app_assoc.
    + case_bool_decide; [done|]. by rewrite <- app_assoc.
    + destruct (ic_NotifyError c); [done|]. unfold first_error. cbn. by destruct (NotifyErrorFor n).
  - destruct (Z.eqb_spec (p_Type p) PayloadDelete) as [Hd|Hd].
    + pose proof (ParseDelete_safe (p_Body p) Hb) as Hs. destruct (ParseDelete (p_Body p)) as [d| | |]; try done.
      cbn [map_err bind app]. eapply safe_mono; [apply IH|]. intros c' ->. rewrite cloneDelete_id. unfold append_content.
      cbn [ic_Payloads ic_Notifies ic_NotifyActions ic_Deletes ic_NotifyError]. f_equal. by rewrite <- app_assoc.
    + eapply safe_mono; [apply IH|]. by intros c' ->.
Qed.

Lemma ParseInformationalContent_safe payloads :
  Forall Payload_ok payloads -> safe (ParseInformationalContent payloads) (fun c => c = content_of payloads).
Proof.
  intros Hok. unfold ParseInformationalContent. rewrite clonePayloads_id.
  eapply safe_mono; [by apply parse_content_loop_safe|]. by intros c ->.
Qed.

Lemma first_error_ok notifies : is_notify_error (first_error notifies).
Proof.
  unfold first_error. induction notifies as [|n ns IH]; [done|]. cbn.
  destruct (NotifyErrorFor n) as [e|] eqn:He; [|done]. by exists n.
Qed.

Lemma cloneInformationalContent_id payloads : cloneInformationalContent (content_of payloads) = content_of payloads.
Proof.
  unfold cloneInformationalContent, content_of. cbn.
  by rewrite clonePayloads_id, cloneNotifies_id, cloneNotifyActions_id, cloneDeletes_id, (cloneNotifyError_id _ (first_error_ok _)).
Qed.

(** ** The exchange *)
Definition inf_keys (cfg : InformationalConfig) : IKEKeys :=
  if RequiredLength (k_Profile (inf_Keys cfg)) =? 0 then ir_Keys (inf_Init cfg) else inf_Keys cfg.
Definition inf_config_ok (cfg : InformationalConfig) : Prop :=
  chain_ok (inf_Payloads cfg) /\ bytes_ok (inf_IV cfg) /\ is_u32 (inf_MessageID cfg) /\
  is_u64 (ir_InitiatorSPI (inf_Init cfg)) /\ is_u64 (ir_ResponderSPI (inf_Init cfg)) /\
  match inf_Random cfg with Some r => reader_ok r | None => True end.

(** The header of a message of the exchange, and its flags: the initiator bit of
    the sender and the response bit. *)
Definition inf_header (cfg : InformationalConfig) (fromInitiator response : bool) (h : Header) : Prop :=
  h_InitiatorSPI h = ir_InitiatorSPI (inf_Init cfg) /\ h_ResponderSPI h = ir_ResponderSPI (inf_Init cfg) /\
  h_ExchangeType h = ExchangeINFORMATIONAL /\ h_MessageID h = inf_MessageID cfg /\
  Z.testbit (h_Flags h) 3 = fromInitiator /\ Z.testbit (h_Flags h) 5 = response.

Lemma flags_spec f fromInitiator response :
  Z.land f (Z.lor FlagInitiator FlagResponse) = informationalFlags fromInitiator response <->
  Z.testbit f 3 = fromInitiator /\ Z.testbit f 5 = response.
Proof.
  split.
  - intros H. assert (Hb : forall k, Z.testbit (Z.land f (Z.lor FlagInitiator FlagResponse)) k =
      Z.testbit (informationalFlags fromInitiator response) k) by (intros k; by rewrite H).
    pose proof (Hb 3) as H3. pose proof (Hb 5) as H5. rewrite !Z.land_spec in *.
    change (Z.testbit (Z.lor FlagInitiator FlagResponse) 3) with true in H3.
    change (Z.testbit (Z.lor FlagInitiator FlagResponse) 5) with true in H5. rewrite !andb_true_r in *.
    rewrite H3, H5. by destruct fromInitiator, response.
  - intros [H3 H5]. apply Z.bits_inj'. intros k Hk. rewrite Z.land_spec, Z.lor_spec.
    change FlagInitiator with (2 ^ 3). change FlagResponse with (2 ^ 5). rewrite !Z.pow2_bits_eqb by lia.
    unfold informationalFlags. change FlagInitiator with (2 ^ 3). change FlagResponse with (2 ^ 5).
    destruct (Z.eqb_spec 3 k) as [<-|].
    { rewrite H3. cbn. by destruct fromInitiator, response. }
    destruct (Z.eqb_spec 5 k) as [<-|].
    { rewrite H5. cbn. by destruct fromInitiator, response. }
    rewrite andb_false_r. symmetry.
    destruct fromInitiator, response; rewrite ?Z.lor_spec, ?Z.bits_0, ?Z.pow2_bits_eqb by lia; try done;
      repeat match goal with |- context [?a =? k] => replace (a =? k) with false by lia end; done.
Qed.

Lemma validateInformationalHeader_spec cfg h fromInitiator response :
  validateInformationalHeader h (inf_Init cfg) (inf_MessageID cfg) fromInitiator response = Ok tt <->
  inf_header cfg fromInitiator response h.
Proof.
  unfold validateInformationalHeader, inf_header. rewrite <- flags_spec. go_case H0; [split; [done|lia]|].
  destruct (Z.eqb_spec (Z.land (h_Flags h) (Z.lor FlagInitiator FlagResponse)) (informationalFlags fromInitiator response)).
  - cbn [negb]. split; [|done]. intros _. split_and!; done || lia.
  - cbn [negb]. split; [done|]. by intros (_ & _ & _ & _ & ?).
Qed.

(** The request can be read by the peer, the answer is an authentic response of
    the opposite direction to it, and its content is returned. *)
Definition informational_done {C : Crypto} (cfg : InformationalConfig) (r : InformationalResult) : Prop :=
  let keys := inf_keys cfg in
  let dir := negb (inf_FromResponder cfg) in
  exists exchange mq m inner,
    inf_Transport cfg = Some exchange /\ keyset_ok keys /\
    UnprotectMessage (ir2_RequestBytes r) keys dir = Ok (mq, link_next (inf_Payloads cfg)) /\ inf_header cfg dir false (m_Header mq) /\
    exchange (ir2_RequestBytes r) = Ok (ir2_ResponseBytes r) /\
    UnprotectMessage (ir2_ResponseBytes r) keys (negb dir) = Ok (m, inner) /\ inf_header cfg (negb dir) true (m_Header m) /\
    ir2_ResponseInner r = inner /\ ir2_Response r = content_of inner /\
    ir2_NextMessageID r = to_u32 (inf_MessageID cfg + 1).

Section exchange_proofs.
Context {C : Crypto} `{!CryptoLaws C}.

Lemma RunInformationalExchange_safe rand cfg :
  reader_ok rand -> inf_config_ok cfg ->
  (forall exchange, inf_Transport cfg = Some exchange -> forall req, safe (exchange req) bytes_ok) ->
  safe (RunInformationalExchange rand cfg) (informational_done cfg).
Proof.
  intros Hr (Hin & Hiv & Hid & Hsi & Hsr & Hrd) Hex. unfold RunInformationalExchange.
  destruct (inf_Transport cfg) as [exchange|] eqn:Ht; [|done]. fold (inf_keys cfg). set (keys := inf_keys cfg) in *. cbv zeta.
  destruct (validateKeySet keys) as [[]| | |] eqn:Hk; try (pose proof (validateKeySet_returns keys) as H; by rewrite Hk in H).
  apply validateKeySet_spec in Hk. cbn [bind]. go_case H0; [done|].
  eapply (safe_call _ _ bytes_ok).
  { unfold informationalIV, RandomIV. go_case H1; [by go_case H2|]. destruct (inf_Random cfg); by apply randomBytes_safe. }
  intros iv Hivb. unfold BuildInformationalRequestFrom. set (dir := negb (inf_FromResponder cfg)). set (h := informationalHeader _ _ _ _).
  assert (Hh : inf_header cfg dir false h).
  { unfold inf_header, h, informationalHeader. cbn. unfold informationalFlags. by destruct dir. }
  assert (Hhok : Header_ok h). { unfold h, informationalHeader, informationalFlags. destruct dir; split_and!; by (done || by_decide). }
  pose proof (ProtectMessage_returns rand h keys dir (inf_Payloads cfg) iv Hr Hin Hivb) as Hp.
  destruct (ProtectMessage rand h keys dir (inf_Payloads cfg) iv) as [[mq req]| | |] eqn:Hpm; try done. cbn [bind].
  pose proof (ProtectMessage_readable rand h keys dir (inf_Payloads cfg) iv mq req Hr Hhok Hin Hivb Hpm) as (Hun & Hmh).
  specialize (Hex _ eq_refl req). destruct (exchange req) as [resp| | |] eqn:He; try done. cbn [bind].
  unfold ParseInformationalResponseContentFrom. pose proof (UnprotectMessage_safe resp keys (negb dir) Hex) as Hs.
  destruct (UnprotectMessage resp keys (negb dir)) as [[m inner]| | |] eqn:Hu; try done. cbn [bind].
  destruct Hs as (_ & _ & Hc & _). cbn [fst snd] in Hc.
  destruct (validateInformationalHeader _ _ _ _ _) as [[]|e| |] eqn:Hv.
  2: done. 2, 3: unfold validateInformationalHeader in Hv; by repeat case_match.
  apply validateInformationalHeader_spec in Hv. cbn [bind].
  assert (Hps : Forall Payload_ok inner) by (eapply Forall_impl; [exact Hc|]; by intros p [? _]).
  pose proof (ParseInformationalContent_safe inner Hps) as Hcs.
  destruct (ParseInformationalContent inner) as [c| | |]; try done. cbn in Hcs. subst c. cbn [bind safe].
  rewrite clonePayloads_id, cloneInformationalContent_id. eexists exchange, _, m, inner. cbn. split_and!; try done.
  unfold inf_header, message_normal in *. cbn. by rewrite Hmh.
Qed.
End exchange_proofs.

(** ** Deletes against the tracked child SA *)

(** The SPIs a peer deletes, with their protocol, in order. *)
Definition deleted_spis (deletes : list Delete) : list (Z * bytes) :=
  concat ((fun d => if (d_ProtocolID d =? ProtocolAH) || (d_ProtocolID d =? ProtocolESP)
                    then (fun spi => (d_ProtocolID d, spi)) <$> d_SPIs d else []) <$> deletes).
Definition is_local (child : ChildSAResult) (x : Z * bytes) : Prop :=
  x.1 = ProtocolESP /\ x.2 <> [] /\ x.2 = cr_LocalSPI child.
Definition is_remote (child : ChildSAResult) (x : Z * bytes) : Prop :=
  x.1 = ProtocolESP /\ x.2 <> [] /\ x.2 = cr_RemoteSPI child.
(** The SPI is one of the two of the tracked child SA. *)
Definition is_tracked (child : ChildSAResult) (x : Z * bytes) : Prop := is_local child x \/ is_remote child x.
#[export] Instance is_local_dec child x : Decision (is_local child x).
Proof. unfold is_local. apply _. Defined.
#[export] Instance is_remote_dec child x : Decision (is_remote child x).
Proof. unfold is_remote. apply _. Defined.
#[export] Instance is_tracked_dec child x : Decision (is_tracked child x).
Proof. unfold is_tracked. apply _. Defined.

(** The summary of a list of deleted SPIs. *)
Definition summary_of (child : ChildSAResult) (xs : list (Z * bytes)) (out : ChildSADeleteSummary) : ChildSADeleteSummary :=
  mkSummary (ds_Outcome out)
    (ds_Deletes out ++ ((fun x => mkMatch x.1 x.2 (bool_decide (is_local child x)) (bool_decide (is_remote child x))) <$> xs))
    (ds_CurrentSPIs out ++ (snd <$> filter (is_tracked child) xs))
    (ds_OtherSPIs out ++ (snd <$> filter (fun x => ~ is_tracked child x) xs))
    (ds_MatchesLocal out || existsb (fun x => bool_decide (is_local child x)) xs)
    (ds_MatchesRemote out || existsb (fun x => bool_decide (is_remote child x)) xs)
    (ds_DeleteIKE out).

Lemma summary_of_nil child out : summary_of child [] out = out.
Proof. destruct out. unfold summary_of. cbn. by rewrite !app_nil_r, !orb_false_r. Qed.
Lemma summary_of_app child xs ys out : summary_of child (xs ++ ys) out = summary_of child ys (summary_of child xs out).
Proof.
  unfold summary_of. cbn. by rewrite !filter_app, !fmap_app, !existsb_app, !app_assoc, !orb_assoc.
Qed.

Lemma matches_spec protocol spi own :
  (if protocol =? ProtocolESP then (0 <? len own) && bytesEqual spi own else false) =
  bool_decide (protocol = ProtocolESP /\ spi <> [] /\ spi = own).
Proof.
  symmetry. destruct (Z.eqb_spec protocol ProtocolESP) as [->|]; [|by apply bool_decide_eq_false_2; naive_solver].
  unfold bytesEqual. destruct (decide (spi = own)) as [->|Hne].
  - rewrite (bool_decide_eq_true_2 (own = own)), andb_true_r by done. destruct own as [|b own].
    + apply bool_decide_eq_false_2. naive_solver.
    + rewrite bool_decide_eq_true_2 by done. symmetry. apply Z.ltb_lt. rewrite len_cons. pose proof (len_nonneg own). lia.
  - rewrite (bool_decide_eq_false_2 (spi = own)), andb_false_r by done. apply bool_decide_eq_false_2. naive_solver.
Qed.

Lemma matches_local child protocol spi :
  (if protocol =? ProtocolESP then (0 <? len (cr_LocalSPI child)) && bytesEqual spi (cr_LocalSPI child) else false) =
  bool_decide (is_local child (protocol, spi)).
Proof. rewrite matches_spec. by apply bool_decide_ext. Qed.
Lemma matches_remote child protocol spi :
  (if protocol =? ProtocolESP then (0 <? len (cr_RemoteSPI child)) && bytesEqual spi (cr_RemoteSPI child) else false) =
  bool_decide (is_remote child (protocol, spi)).
Proof. rewrite matches_spec. by apply bool_decide_ext. Qed.

Lemma classify_spis_loop_spec spis protocol child out :
  classify_spis_loop spis protocol child out = summary_of child ((fun spi => (protocol, spi)) <$> spis) out.
Proof.
  revert out. induction spis as [|spi spis IH]; intros out; [by rewrite summary_of_nil|].
  cbn [classify_spis_loop]. rewrite IH, matches_local, matches_remote. change ((fun s => (protocol, s)) <$> spi :: spis)
    with ([(protocol, spi)] ++ ((fun s => (protocol, s)) <$> spis)). rewrite summary_of_app. f_equal.
  unfold summary_of. cbn [existsb fmap list_fmap fst snd]. rewrite !orb_false_r.
  rewrite !filter_cons, !filter_nil.
  destruct (decide (is_tracked child (protocol, spi))) as [Ht|Ht].
  - rewrite decide_False by naive_solver. destruct Ht as [Ht|Ht].
    + rewrite (bool_decide_eq_true_2 (is_local _ _)) by done. cbn. by rewrite app_nil_r.
    + rewrite (bool_decide_eq_true_2 (is_remote _ _)), orb_true_r by done. cbn. by rewrite app_nil_r.
  - rewrite decide_True by done. rewrite (bool_decide_eq_false_2 (is_local _ _)) by (unfold is_tracked in Ht; naive_solver).
    rewrite (bool_decide_eq_false_2 (is_remote _ _)) by (unfold is_tracked in Ht; naive_solver). cbn.
    by rewrite app_nil_r, !orb_false_r.
Qed.

Definition deletes_ike (deletes : list Delete) : bool := existsb (fun d => d_ProtocolID d =? ProtocolIKE) deletes.

Lemma classify_deletes_loop_spec deletes child out :
  classify_deletes_loop deletes child out =
  let s := summary_of child (deleted_spis deletes) out in
  mkSummary (ds_Outcome s) (ds_Deletes s) (ds_CurrentSPIs s) (ds_OtherSPIs s) (ds_MatchesLocal s) (ds_MatchesRemote s)
    (ds_DeleteIKE out || deletes_ike deletes).
Proof.
  revert out. induction deletes as [|d deletes IH]; intros out.
  { cbn. rewrite !app_nil_r, !orb_false_r. by destruct out. }
  cbn [classify_deletes_loop]. rewrite IH. unfold deleted_spis. cbn [fmap list_fmap concat].
  fold (deleted_spis deletes). unfold deletes_ike. cbn [existsb]. fold (deletes_ike deletes).
  destruct (Z.eqb_spec (d_ProtocolID d) ProtocolIKE) as [->|Hi].
  - cbn. by rewrite orb_true_r.
  - destruct (_ || _) eqn:Hp; cbn [orb app].
    + rewrite summary_of_app. unfold classifyChildSADeleteSPIs. by rewrite classify_spis_loop_spec.
    + done.
Qed.

(** ** The choice of a recovery *)
Definition flags_of (action : InformationalRecoveryAction) (retry later ike child rekey reauth mobike : bool) (dh : Z) : recovery :=
  mkRecovery action "" retry later ike child rekey reauth mobike dh.
Definition candidate := (Z * recovery)%type.

(** What a notify asks for, with its priority. *)
Definition notify_candidate (a : NotifyAction) : list candidate :=
  match na_Kind a with
  | NotifyActionMOBIKEUpdateAddresses => [(30, flags_of InformationalRecoveryUpdateMOBIKEAddresses false false false false false false false 0)]
  | NotifyActionRekeyChildSA => [(40, flags_of InformationalRecoveryRekeyChildSA true false false false true false false 0)]
  | NotifyActionWaitAndRetry => [(50, flags_of InformationalRecoveryWaitAndRetry true true false false false false false 0)]
  | NotifyActionRetryWithSuggestedDH | NotifyActionRetryWithDifferentProposal =>
      [(55, flags_of InformationalRecoveryRetryExchange true false false false false false false (na_SuggestedDHGroup a))]
  | NotifyActionMOBIKEAddressRecovery => [(60, flags_of InformationalRecoveryMOBIKEAddressRecovery true false false false false false true 0)]
  | NotifyActionNarrowTrafficSelectors | NotifyActionRecreateChildSA =>
      [(70, flags_of InformationalRecoveryRecreateChildSA true false false true false false false (na_SuggestedDHGroup a))]
  | NotifyActionRecreateIKESA => [(80, flags_of InformationalRecoveryRecreateIKESA true false true false false false false 0)]
  | NotifyActionReauthenticate => [(90, flags_of InformationalRecoveryReauthenticate true false true false false true false 0)]
  | NotifyActionAbort => [(100, flags_of InformationalRecoveryAbort false false false false false false false 0)]
  | _ => []
  end.
Definition recovery_candidates (ike current update : bool) (actions : list NotifyAction) : list candidate :=
  (if ike then [(80, flags_of InformationalRecoveryRecreateIKESA true false true false false false false 0)] else []) ++
  (if current then [(70, flags_of InformationalRecoveryRecreateChildSA true false false true false false false 0)] else []) ++
  (if update then [(30, flags_of InformationalRecoveryUpdateMOBIKEAddresses false false false false false false false 0)] else []) ++
  concat (notify_candidate <$> actions).

Definition no_recovery : recovery := flags_of InformationalRecoveryNoAction false false false false false false false 0.
(** The first of the candidates with the highest priority. *)
Definition chosen (cs : list candidate) (r : recovery) : Prop :=
  (cs = [] /\ r = no_recovery) \/
  exists pre c post, cs = pre ++ c :: post /\ r = c.2 /\ Forall (fun c' => c'.1 < c.1) pre /\ Forall (fun c' => c'.1 <= c.1) post.

Definition consider (st : Z * recovery) (c : candidate) : Z * recovery := if c.1 <=? st.1 then st else c.
Lemma consider_all cs st :
  (fold_left consider cs st = st /\ Forall (fun c => c.1 <= st.1) cs) \/
  exists pre c post, cs = pre ++ c :: post /\ fold_left consider cs st = c /\ st.1 < c.1 /\
    Forall (fun c' => c'.1 < c.1) pre /\ Forall (fun c' => c'.1 <= c.1) post.
Proof.
  revert st. induction cs as [|c cs IH]; intros st; [left; by split|]. cbn [fold_left]. unfold consider at 2 4.
  destruct (Z.leb_spec c.1 st.1) as [Hle|Hgt].
  - destruct (IH st) as [[He Hf]|(pre & c' & post & -> & He & Hlt & Hpre & Hpost)]; [left; split; [done|by constructor]|].
    right. exists (c :: pre), c', post. split_and!; try done. constructor; [lia|done].
  - right. destruct (IH c) as [[He Hf]|(pre & c' & post & -> & He & Hlt & Hpre & Hpost)].
    + exists [], c, cs. split_and!; try done.
    + exists (c :: pre), c', post. split_and!; try done; [lia|]. by constructor.
Qed.

(** The program's state, with the reason's text forgotten. *)
Definition forget (st : recovery * Z) : Z * recovery := (st.2, set_reason st.1 "").

Lemma forget_considerRecovery st action prio reason apply :
  (forall p q, set_reason p "" = set_reason q "" -> set_reason (apply p) "" = set_reason (apply q) "") ->
  forget (considerRecovery st action prio reason apply) =
  consider (forget st) (prio, set_reason (apply (flags_of action false false false false false false false 0)) "").
Proof.
  intros Ha. destruct st as [p priority]. unfold considerRecovery, consider, forget. cbn.
  destruct (prio <=? priority); [done|]. cbn. f_equal. by apply Ha.
Qed.
Lemma apply_flags_reason l i c k r m d p q :
  set_reason p "" = set_reason q "" -> set_reason (apply_flags l i c k r m d p) "" = set_reason (apply_flags l i c k r m d q) "".
Proof. destruct p, q. intros [=]. unfold apply_flags, set_reason. cbn. by subst. Qed.

Lemma considerNotifyRecovery_spec st a :
  forget (considerNotifyRecovery st a) = fold_left consider (notify_candidate a) (forget st).
Proof.
  unfold considerNotifyRecovery, notify_candidate.
  destruct (na_Kind a); try reflexivity;
    (rewrite forget_considerRecovery; [reflexivity|first [apply apply_flags_reason|intros p q H; exact H]]).
Qed.

Lemma fold_considerNotifyRecovery actions st :
  forget (fold_left considerNotifyRecovery actions st) = fold_left consider (concat (notify_candidate <$> actions)) (forget st).
Proof.
  revert st. induction actions as [|a actions IH]; intros st; [done|]. cbn [fold_left fmap list_fmap concat].
  by rewrite fold_left_app, <- considerNotifyRecovery_spec, IH.
Qed.

Lemma ClassifyChildSADeletes_eq content child :
  let s := summary_of child (deleted_spis (ic_Deletes content)) zeroSummary in
  ClassifyChildSADeletes content child =
  mkSummary (childSADeleteOutcome s) (ds_Deletes s) (ds_CurrentSPIs s) (ds_OtherSPIs s) (ds_MatchesLocal s) (ds_MatchesRemote s)
    (deletes_ike (ic_Deletes content)).
Proof. unfold ClassifyChildSADeletes. by rewrite classify_deletes_loop_spec. Qed.

Lemma len_filter_pos {A} (P : A -> Prop) `{!forall x, Decision (P x)} (l : list A) :
  (0 <? len (filter P l)) = bool_decide (Exists P l).
Proof.
  symmetry. destruct (filter P l) as [|x k] eqn:Hf.
  - apply bool_decide_eq_false_2. intros (y & Hy & HP)%Exists_exists.
    assert (y ∈ filter P l) as Hin by (by apply list_elem_of_filter). rewrite Hf in Hin. by apply elem_of_nil in Hin.
  - replace (0 <? len (x :: k)) with true by (rewrite len_cons; pose proof (len_nonneg k); lia).
    apply bool_decide_eq_true_2, Exists_exists. exists x.
    assert (x ∈ filter P l) as Hin by (rewrite Hf; by left). by apply list_elem_of_filter in Hin as [? ?].
Qed.

Lemma summary_outcome child xs :
  childSADeleteOutcome (summary_of child xs zeroSummary) =
  if len xs =? 0 then ChildSADeleteNone
  else if bool_decide (Exists (is_tracked child) xs) && bool_decide (Exists (fun x => ~ is_tracked child x) xs) then ChildSADeleteMixed
  else if bool_decide (Exists (is_tracked child) xs) then ChildSADeleteCurrent
  else ChildSADeleteOther.
Proof.
  unfold childSADeleteOutcome, summary_of. cbn [ds_Deletes ds_CurrentSPIs ds_OtherSPIs zeroSummary app].
  rewrite !len_fmap, !len_filter_pos. done.
Qed.

(** ** Handling *)
Definition updates_addresses (notifies : list Notify) : bool := existsb (fun n => n_NotifyType n =? NotifyUpdateSAAddresses) notifies.
(** The last COOKIE2 of the request. *)
Definition cookie2_of (notifies : list Notify) (cookie : bytes) : bytes :=
  fold_left (fun c n => if n_NotifyType n =? NotifyCookie2 then n_NotificationData n else c) notifies cookie.

Lemma handle_deletes_loop_spec deletes h :
  exists esp ah, handle_deletes_loop deletes h = with_deletes h (ih_DeleteIKE h || deletes_ike deletes) esp ah.
Proof.
  revert h. induction deletes as [|d deletes IH]; intros h.
  { exists (ih_DeleteESP h), (ih_DeleteAH h). cbn. rewrite orb_false_r. by destruct h. }
  cbn [handle_deletes_loop]. unfold deletes_ike. cbn [existsb]. fold (deletes_ike deletes).
  destruct (d_ProtocolID d =? ProtocolIKE) eqn:Hi.
  { destruct (IH (with_deletes h true (ih_DeleteESP h) (ih_DeleteAH h))) as (esp & ah & ->). exists esp, ah. cbn. by rewrite orb_true_r. }
  cbn [orb]. case_match; [|case_match; [|apply IH]].
  all: match goal with |- context [handle_deletes_loop _ ?h'] => destruct (IH h') as (esp & ah & ->) end; by exists esp, ah.
Qed.

Definition cookie_ok (c : bytes) : Prop := bytes_ok c /\ (c = [] \/ 8 <= len c <= 64).
Definition handled (h : InformationalHandling) (notifies : list Notify) (h' : InformationalHandling) : Prop :=
  ih_LivenessCheck h' = ih_LivenessCheck h /\ ih_DeleteIKE h' = ih_DeleteIKE h /\
  ih_UpdateSAAddresses h' = ih_UpdateSAAddresses h || updates_addresses notifies /\
  ih_NotifyActions h' = ih_NotifyActions h ++ actions_of notifies /\
  ih_Cookie2 h' = cookie2_of notifies (ih_Cookie2 h) /\ cookie_ok (ih_Cookie2 h').

Lemma handleInformationalNotify_safe h n :
  bytes_ok (n_NotificationData n) -> cookie_ok (ih_Cookie2 h) ->
  safe (handleInformationalNotify h n) (fun h' =>
    ih_LivenessCheck h' = ih_LivenessCheck h /\ ih_DeleteIKE h' = ih_DeleteIKE h /\
    ih_UpdateSAAddresses h' = ih_UpdateSAAddresses h || (n_NotifyType n =? NotifyUpdateSAAddresses) /\
    ih_NotifyActions h' = ih_NotifyActions h /\
    ih_Cookie2 h' = cookie2_of [n] (ih_Cookie2 h) /\ cookie_ok (ih_Cookie2 h')).
Proof.
  intros Hb Hc. unfold handleInformationalNotify, cookie2_of. cbn [fold_left].
  destruct (Z.eqb_spec (n_NotifyType n) NotifyUpdateSAAddresses) as [->|H1].
  { cbn. rewrite orb_true_r. by split_and!. }
  rewrite orb_false_r.
  destruct (Z.eqb_spec (n_NotifyType n) NotifyNoAdditionalAddresses) as [->|H2]; [by split_and!|].
  destruct (Z.eqb_spec (n_NotifyType n) NotifyAdditionalIPv4Address) as [->|H3]; [go_case Hl; [done|by split_and!]|].
  destruct (Z.eqb_spec (n_NotifyType n) NotifyAdditionalIPv6Address) as [->|H4]; [go_case Hl; [done|by split_and!]|].
  destruct (Z.eqb_spec (n_NotifyType n) NotifyCookie2) as [_|H5].
  { go_case Hl; [done|]. split_and!; try done. split; [done|right]. cbn. lia. }
  destruct (Z.eqb_spec (n_NotifyType n) NotifyInvalidSelectors) as [_|H6]; [|by split_and!].
  destruct (Notify_InvalidSelectorReport n) as [[rep found] [err|]]; [done|by split_and!].
Qed.

Lemma handle_notifies_loop_safe notifies h :
  Forall (fun n => bytes_ok (n_NotificationData n)) notifies -> cookie_ok (ih_Cookie2 h) ->
  safe (handle_notifies_loop notifies h) (handled h notifies).
Proof.
  intros Hn. revert h. induction Hn as [|n notifies Hb _ IH]; intros h Hc.
  { cbn. unfold handled. cbn. by rewrite orb_false_r, app_nil_r. }
  cbn [handle_notifies_loop]. eapply safe_call; [by apply handleInformationalNotify_safe|].
  intros h1 (E1 & E2 & E3 & E4 & E5 & Hc1). set (h2 := if bool_decide _ then _ else _).
  assert (Hh2 : ih_LivenessCheck h2 = ih_LivenessCheck h1 /\ ih_DeleteIKE h2 = ih_DeleteIKE h1 /\
    ih_UpdateSAAddresses h2 = ih_UpdateSAAddresses h1 /\ ih_Cookie2 h2 = ih_Cookie2 h1 /\
    ih_NotifyActions h2 = ih_NotifyActions h1 ++
      (if bool_decide (na_Kind (ClassifyNotifyAction n) = NotifyActionNone) then [] else [ClassifyNotifyAction n])).
  { subst h2. case_bool_decide; [|done]. by rewrite app_nil_r. }
  destruct Hh2 as (F1 & F2 & F3 & F4 & F5).
  eapply safe_mono; [apply IH; by rewrite F4|]. intros h' (G1 & G2 & G3 & G4 & G5 & G6). unfold handled.
  rewrite G1, G2, G3, G4, F1, F2, F3, F5, E1, E2, E3, E4. split_and!; try done.
  - by rewrite <- orb_assoc.
  - by rewrite actions_of_cons, app_assoc.
  - by rewrite G5, F4, E5.
Qed.

Lemma notifies_of_ok payloads : Forall Payload_ok payloads -> Forall (fun n => bytes_ok (n_NotificationData n)) (notifies_of payloads).
Proof.
  induction 1 as [|p payloads (_ & _ & Hb) _ IH]; [constructor|]. rewrite notifies_of_cons.
  apply Forall_app_2; [|done]. case_match; [|done]. pose proof (ParseNotify_safe (p_Body p) Hb) as Hs.
  destruct (ParseNotify (p_Body p)) as [n| | |]; try done. apply Forall_singleton. apply Hs.
Qed.

Definition echoes (cookie : bytes) (plan : InformationalResponsePlan) : Prop :=
  (cookie = [] /\ plan = mkResponsePlan [] false) \/
  (cookie <> [] /\ exists p, plan = mkResponsePlan [p] true /\ Payload_ok p /\ p_Type p = PayloadNotify /\
     ParseNotify (p_Body p) = Ok (mkNotify 0 NotifyCookie2 [] cookie)).

Lemma PlanInformationalResponse_spec h :
  cookie_ok (ih_Cookie2 h) -> exists plan, PlanInformationalResponse h = Ok plan /\ echoes (ih_Cookie2 h) plan.
Proof.
  intros [Hb Hc]. unfold PlanInformationalResponse, echoes. set (c := ih_Cookie2 h) in *.
  destruct Hc as [->|Hl]; [eexists; split; [done|by left]|]. go_if. unfold Cookie2Notify. go_if.
  set (n := mkNotify 0 NotifyCookie2 [] c). assert (Hn : Notify_ok n) by (split_and!; [done|done|constructor|done]).
  assert (Hm : Notify_MarshalBinary n = Ok (notify_body n)) by done. rewrite Hm. cbn [bind map_err].
  eexists. split; [done|]. right. split; [intros E; rewrite E in Hl; len_lia|]. eexists. split; [by rewrite clonePayloads_id|].
  split; [split_and!; [done|done|]|split; [done|by apply ParseNotify_marshal]].
  by apply (enc_bytes_ok (C := notify_codec) n).
Qed.

(** What the plan for a received INFORMATIONAL is. *)
Definition recovery_spec (payloads : list Payload) (child : ChildSAResult) (plan : InformationalRecoveryPlan) : Prop :=
  let notifies := notifies_of payloads in
  let s := ClassifyChildSADeletes (content_of payloads) child in
  let update := updates_addresses notifies in
  chosen (recovery_candidates (deletes_ike (deletes_of payloads)) (0 <? len (ds_CurrentSPIs s)) update (actions_of notifies))
    (set_reason (pl_recovery plan) "") /\
  pl_DeleteIKE plan = deletes_ike (deletes_of payloads) /\ pl_DeleteCurrentChild plan = (0 <? len (ds_CurrentSPIs s)) /\
  pl_DeleteOtherChild plan = (0 <? len (ds_OtherSPIs s)) /\ pl_UpdateSAAddresses plan = update /\
  pl_ChildDeletes plan = s /\ pl_NotifyActions plan = actions_of notifies /\
  pl_EchoCookie2 plan = irp_EchoCookie2 (pl_Response plan) /\ echoes (cookie2_of notifies []) (pl_Response plan).

Lemma deleteCurrent_spec content child :
  let s := ClassifyChildSADeletes content child in
  bool_decide (ds_Outcome s = ChildSADeleteCurrent) || bool_decide (ds_Outcome s = ChildSADeleteMixed) = (0 <? len (ds_CurrentSPIs s)).
Proof.
  rewrite ClassifyChildSADeletes_eq. cbv zeta. cbn [ds_Outcome ds_CurrentSPIs]. set (xs := deleted_spis _).
  rewrite summary_outcome. unfold summary_of. cbn [ds_CurrentSPIs zeroSummary app]. rewrite len_fmap, len_filter_pos.
  destruct (len xs =? 0) eqn:H0.
  { apply Z.eqb_eq, len_zero in H0. rewrite H0. symmetry. apply bool_decide_eq_false_2. by intros ?%Exists_nil. }
  destruct (bool_decide (Exists (is_tracked child) xs)), (bool_decide (Exists (fun x => ~ is_tracked child x) xs)); done.
Qed.

Lemma cloneChildSADeleteSummary_id s : cloneChildSADeleteSummary s = s.
Proof.
  destruct s. unfold cloneChildSADeleteSummary. cbn. rewrite !cloneByteSlices_id, fmap_id_ext; [done|]. by intros [].
Qed.

Lemma consider_list_spec cs st p :
  forget st = fold_left consider cs (0, no_recovery) -> Forall (fun c => 0 < c.1) cs -> set_reason st.1 "" = p -> chosen cs p.
Proof.
  intros He Hpos <-. destruct (consider_all cs (0, no_recovery)) as [[Hf Hle]|(pre & c & post & -> & Hf & Hlt & Hpre & Hpost)].
  - rewrite Hf in He. apply (f_equal snd) in He. left. split; [|done]. destruct cs as [|c cs]; [done|].
    apply Forall_cons in Hpos as [? _]. apply Forall_cons in Hle as [? _]. cbn in *. lia.
  - rewrite Hf in He. apply (f_equal snd) in He. right. by exists pre, c, post.
Qed.

Lemma candidates_positive ike current update actions : Forall (fun c => 0 < c.1) (recovery_candidates ike current update actions).
Proof.
  unfold recovery_candidates. repeat apply Forall_app_2; try (case_match; [by apply Forall_singleton|constructor]).
  induction actions as [|a actions IH]; [constructor|]. cbn. apply Forall_app_2; [|done].
  unfold notify_candidate. destruct (na_Kind a); try constructor; done.
Qed.

Lemma PlanInformationalRecovery_safe payloads child :
  Forall Payload_ok payloads -> safe (PlanInformationalRecoveryPayloads payloads child) (recovery_spec payloads child).
Proof.
  intros Hok. unfold PlanInformationalRecoveryPayloads. eapply safe_call; [by apply ParseInformationalContent_safe|]. intros content ->.
  unfold PlanInformationalRecovery, HandleInformationalContent. cbn [ic_Deletes ic_Notifies ic_Payloads ic_NotifyError content_of].
  set (h0 := mkHandling _ _ _ _ _ _ _ _ _ _ _ _ _ _). destruct (handle_deletes_loop_spec (deletes_of payloads) h0) as (esp & ah & ->).
  eapply safe_call; [apply handle_notifies_loop_safe; [by apply notifies_of_ok|]; cbn; split; [constructor|by left]|].
  intros h (E1 & E2 & E3 & E4 & E5 & Hc). cbn in E1, E2, E3, E4, E5.
  destruct (PlanInformationalResponse_spec h Hc) as (rp & -> & Hecho). cbn [bind]. rewrite E5 in Hecho.
  fold (content_of payloads). set (s := ClassifyChildSADeletes (content_of payloads) child).
  pose proof (deleteCurrent_spec (content_of payloads) child) as Hcur. cbv zeta in Hcur. fold s in Hcur. rewrite Hcur.
  assert (Hike : ds_DeleteIKE s = deletes_ike (deletes_of payloads)) by (unfold s; by rewrite ClassifyChildSADeletes_eq).
  rewrite E1, E2, E3, E4, Hike, orb_diag. cbn [orb app].
  rewrite clonePayloads_id, cloneChildSADeleteSummary_id, cloneNotifyActions_id.
  set (ike := deletes_ike (deletes_of payloads)). set (cur := 0 <? len (ds_CurrentSPIs s)).
  set (upd := updates_addresses (notifies_of payloads)). set (acts := actions_of (notifies_of payloads)).
  assert (Hrest : forall r, chosen (recovery_candidates ike cur upd acts) (set_reason r "") ->
    recovery_spec payloads child (mkRecoveryPlan r (irp_EchoCookie2 rp) ike cur (0 <? len (ds_OtherSPIs s)) upd
      (mkResponsePlan (irp_Payloads rp) (irp_EchoCookie2 rp)) s acts)).
  { intros r Hch. unfold recovery_spec. cbn. split_and!; try done. by destruct rp. }
  destruct (len payloads =? 0) eqn:H0.
  { apply Z.eqb_eq, len_zero in H0. subst payloads. cbn [safe]. apply Hrest. left. by split. }
  match goal with |- context [fold_left considerNotifyRecovery acts ?st] => set (st0 := st) end.
  assert (Hst : forget st0 = fold_left consider ((if ike then [(80, flags_of InformationalRecoveryRecreateIKESA true false true false false false false 0)] else []) ++
  (if cur then [(70, flags_of InformationalRecoveryRecreateChildSA true false false true false false false 0)] else []) ++
  (if upd then [(30, flags_of InformationalRecoveryUpdateMOBIKEAddresses false false false false false false false 0)] else [])) (0, no_recovery)).
  { subst st0. generalize ike, cur, upd, (0 <? len (ds_OtherSPIs s)). intros [] [] [] []; reflexivity. }
  clearbody st0. pose proof (fold_considerNotifyRecovery acts st0) as Hf. rewrite Hst, <- fold_left_app, <- !app_assoc in Hf.
  destruct (fold_left considerNotifyRecovery acts st0) as [r priority]. cbn [safe]. apply Hrest.
  eapply consider_list_spec; [exact Hf|apply candidates_positive|]. cbn [fst]. go_case Hpr; reflexivity.
Qed.

Lemma forall_or_exists {A} (P : A -> Prop) `{!forall x, Decision (P x)} l : Forall P l <-> ~ Exists (fun x => ~ P x) l.
Proof.
  induction l as [|x l IH]; [rewrite Exists_nil; split; [by intros _ []|intros _; constructor]|].
  rewrite Forall_cons, Exists_cons, IH. destruct (decide (P x)); tauto.
Qed.
Lemma forall_or_exists_not {A} (P : A -> Prop) l : Forall (fun x => ~ P x) l <-> ~ Exists P l.
Proof.
  induction l as [|x l IH]; [rewrite Exists_nil; split; [by intros _ []|intros _; constructor]|].
  rewrite Forall_cons, Exists_cons, IH. tauto.
Qed.

(** ** Properties *)

(** An INFORMATIONAL exchange, in either direction and for every answer of the
    peer: [RunInformationalExchange] neither panics nor loops; when it succeeds the
    request is one the holder of the keys reads as the configured payload chain,
    with the request flags of its direction; the answer is authentic under the
    keys of the opposite direction, has the IKE SA's SPIs, the exchange type, the
    message id and exactly the response flags of that direction; and the content
    returned is the one of its payloads (notifies, the actions they ask for,
    deletes, the first notify error). *)
Theorem RunInformationalExchange_correct (C : Crypto) (L : CryptoLaws C) rand cfg :
  reader_ok rand -> inf_config_ok cfg ->
  (forall exchange, inf_Transport cfg = Some exchange -> forall req, safe (exchange req) bytes_ok) ->
  returns (RunInformationalExchange rand cfg) /\
  forall r, RunInformationalExchange rand cfg = Ok r -> informational_done cfg r.
Proof.
  intros Hr Hcfg Hx. pose proof (RunInformationalExchange_safe rand cfg Hr Hcfg Hx) as Hs.
  split; [by eapply safe_returns|]. intros r H. by rewrite H in Hs.
Qed.

(** The peer's empty answer to a liveness check with message id 5. *)
Definition sample_pong : bytes :=
  match BuildInformationalResponse (C := toy_crypto) zero_reader (sample_init (sample_keys sample_gcm_profile))
          (sample_keys sample_gcm_profile) 5 [] [] with
  | Ok (_, raw) => raw
  | _ => []
  end.
Definition sample_ping : InformationalConfig :=
  mkInformational (Some (fun _ => Ok sample_pong)) (sample_init (sample_keys sample_gcm_profile))
    (sample_keys sample_gcm_profile) 5 false [] None [].

Lemma RunInformationalExchange_correct_witness :
  exists r, RunInformationalExchange (C := toy_crypto) zero_reader sample_ping = Ok r /\
    informational_done (C := toy_crypto) sample_ping r /\ ir2_NextMessageID r = 6.
Proof.
  destruct (RunInformationalExchange (C := toy_crypto) zero_reader sample_ping) as [r| | |] eqn:H; try (vm_compute in H; discriminate H).
  exists r. split; [reflexivity|]. split; [|vm_compute in H; by injection H as <-].
  refine (proj2 (RunInformationalExchange_correct toy_crypto toy_crypto_laws zero_reader sample_ping _ _ _) r H);
    [exact zero_reader_ok| |].
  - unfold inf_config_ok. split_and!; by_decide || exact I.
  - intros exchange [= <-] req. cbn [safe]. by_decide.
Defined.

(** [ClassifyChildSADeletes] sorts the AH and ESP SPIs a peer deletes: in order,
    the current ones are exactly the ESP SPIs that are the local or remote SPI of
    the tracked child SA, the others are the rest; the flags say whether the local
    and the remote SPI occur and whether the IKE SA is deleted; the outcome is
    none, current, other or mixed as the list is empty, all current, none current
    or both. *)
Theorem ClassifyChildSADeletes_correct content child :
  let xs := deleted_spis (ic_Deletes content) in
  let s := ClassifyChildSADeletes content child in
  ((fun m => (dm_ProtocolID m, dm_SPI m)) <$> ds_Deletes s) = xs /\
  ds_CurrentSPIs s = snd <$> filter (is_tracked child) xs /\
  ds_OtherSPIs s = snd <$> filter (fun x => ~ is_tracked child x) xs /\
  (ds_MatchesLocal s = true <-> Exists (is_local child) xs) /\ (ds_MatchesRemote s = true <-> Exists (is_remote child) xs) /\
  (ds_DeleteIKE s = true <-> Exists (fun d => d_ProtocolID d = ProtocolIKE) (ic_Deletes content)) /\
  (ds_Outcome s = ChildSADeleteNone <-> xs = []) /\
  (ds_Outcome s = ChildSADeleteCurrent <-> xs <> [] /\ Forall (is_tracked child) xs) /\
  (ds_Outcome s = ChildSADeleteOther <-> xs <> [] /\ Forall (fun x => ~ is_tracked child x) xs) /\
  (ds_Outcome s = ChildSADeleteMixed <-> Exists (is_tracked child) xs /\ Exists (fun x => ~ is_tracked child x) xs).
Proof.
  cbv zeta. rewrite ClassifyChildSADeletes_eq. cbv zeta. set (xs := deleted_spis _).
  cbn [ds_Deletes ds_CurrentSPIs ds_OtherSPIs ds_MatchesLocal ds_MatchesRemote ds_DeleteIKE ds_Outcome].
  rewrite summary_outcome. unfold summary_of. cbn [ds_Deletes ds_CurrentSPIs ds_OtherSPIs ds_MatchesLocal ds_MatchesRemote zeroSummary app orb].
  assert (Hex : forall (P : Z * bytes -> Prop) `{!forall x, Decision (P x)}, existsb (fun x => bool_decide (P x)) xs = true <-> Exists P xs).
  { intros P HP. rewrite existsb_exists, Exists_exists. setoid_rewrite bool_decide_eq_true. by setoid_rewrite list_elem_of_In. }
  split; [|split; [done|split; [done|split; [apply Hex|split; [apply Hex|split]]]]].
  - rewrite <- list_fmap_compose. apply fmap_id_ext. by intros [].
  - unfold deletes_ike. rewrite existsb_exists, Exists_exists. setoid_rewrite Z.eqb_eq. by setoid_rewrite list_elem_of_In.
  - destruct (len xs =? 0) eqn:H0.
    { apply Z.eqb_eq, len_zero in H0. rewrite H0. rewrite !Exists_nil. split_and!; naive_solver. }
    assert (Hne : xs <> []) by (intros E; by rewrite E in H0).
    rewrite (forall_or_exists (is_tracked child) xs), (forall_or_exists_not (is_tracked child) xs).
    assert (Hor : Exists (is_tracked child) xs \/ Exists (fun x => ~ is_tracked child x) xs).
    { clear -Hne. destruct xs as [|x xs']; [done|]. destruct (decide (is_tracked child x)); [left|right]; by left. }
    clear -Hor Hne.
    destruct (decide (Exists (is_tracked child) xs)) as [H1|H1], (decide (Exists (fun x => ~ is_tracked child x) xs)) as [H2|H2];
      rewrite ?(bool_decide_eq_true_2 _ H1), ?(bool_decide_eq_false_2 _ H1), ?(bool_decide_eq_true_2 _ H2), ?(bool_decide_eq_false_2 _ H2);
      cbn [andb]; split_and!; split; try done; tauto.
Qed.

(** [PlanInformationalRecoveryPayloads] is total on every received payload list;
    when it succeeds the recovery (action, flags and suggested group, everything
    but the text of the reason) is the one of the first of the highest-priority
    requests of the message, in the order IKE delete, delete of the tracked child
    SA, UPDATE_SA_ADDRESSES, then the notifies; no request, no recovery; the
    planned response is empty or echoes the last COOKIE2. *)
Theorem PlanInformationalRecovery_correct payloads child :
  Forall Payload_ok payloads ->
  returns (PlanInformationalRecoveryPayloads payloads child) /\
  forall plan, PlanInformationalRecoveryPayloads payloads child = Ok plan -> recovery_spec payloads child plan.
Proof.
  intros Hok. pose proof (PlanInformationalRecovery_safe payloads child Hok) as Hs.
  split; [by eapply safe_returns|]. intros plan H. by rewrite H in Hs.
Qed.

Definition sample_request : list Payload :=
  [IKEDeletePayload; mkPayload PayloadDelete 0 false [3; 4; 0; 1; 1; 2; 3; 4]].

Lemma PlanInformationalRecovery_correct_witness :
  exists plan, PlanInformationalRecoveryPayloads sample_request zeroChildResult = Ok plan /\
    recovery_spec sample_request zeroChildResult plan /\ rv_Action (pl_recovery plan) = InformationalRecoveryRecreateIKESA.
Proof.
  eexists. split; [vm_compute; reflexivity|]. split; [|reflexivity].
  apply (PlanInformationalRecovery_correct sample_request zeroChildResult); [|vm_compute; reflexivity].
  repeat (constructor; [by_decide|]). constructor.
Defined.

(** The reason is not always the one of the action: when the peer deletes the IKE
    SA and, in the same message, a child SA that is not the tracked one, the plan
    is to recreate the IKE SA but its reason says that no tracked child SA was
    deleted. *)
Example recovery_reason_overwritten :
  exists plan, PlanInformationalRecoveryPayloads sample_request zeroChildResult = Ok plan /\
    rv_Action (pl_recovery plan) = InformationalRecoveryRecreateIKESA /\
    rv_Reason (pl_recovery plan) = "no tracked child sa deleted"%string.
Proof. eexists. split; [vm_compute; reflexivity|]. split; reflexivity. Qed.
