(* ===== verification/Liveness.v ===== *)
(** * IKE liveness (engine/swu/ike_liveness.go)

    The state machine of keepalives and dead-peer detection.  A [time.Time] is
    a number of nanoseconds, 0 the zero time; the monotonic clock reading a Go
    time may carry is not modelled.  [Now] is the clock a call reads when its
    argument is the zero time.  A nil receiver is [None]. *)
From Stdlib Require Import Sorted.
From S2P Require Import Prelude Errors.

Abbreviation Time := Z (only parsing).
Abbreviation Duration := Z (only parsing).
Definition Second : Duration := 1000000000.
Definition maxDuration : Duration := 9223372036854775807.
Definition minDuration : Duration := -9223372036854775808.

(** [t.IsZero()], [t.Before(u)], [t.After(u)], [t.Sub(u)] (which saturates). *)
Definition IsZero (t : Time) : bool := t =? 0.
Definition Before (t u : Time) : bool := t <? u.
Definition After (t u : Time) : bool := u <? t.
Definition Sub (t u : Time) : Duration := Z.max minDuration (Z.min maxDuration (t - u)).

Definition defaultIKEKeepaliveInterval := 20 * Second.
Definition defaultIKEDPDInterval := 60 * Second.
Definition defaultIKEDPDTimeout := 15 * Second.
Definition defaultIKEMissedDPDProbes := 3.

Inductive IKELivenessAction :=
| IKELivenessNoAction | IKELivenessSendKeepalive | IKELivenessSendDPD | IKELivenessDeclareDead.
#[export] Instance IKELivenessAction_eq_dec : EqDecision IKELivenessAction.
Proof. solve_decision. Defined.

Record IKELivenessConfig := mkLivenessConfig {
  lc_KeepaliveInterval : Duration;
  lc_DPDInterval : Duration;
  lc_DPDTimeout : Duration;
  lc_MaxMissedDPDProbes : Z;
  lc_DisableKeepalive : bool;
  lc_DisableDPD : bool
}.
Record IKELivenessDecision := mkDecision {
  ld_Action : IKELivenessAction;
  ld_ProbeID : Z;
  ld_MissedDPDProbes : Z;
  ld_IdleFor : Duration;
  ld_Deadline : Time;
  ld_NextDue : Time;
  ld_Dead : bool;
  ld_Reason : string
}.
Record IKELivenessSnapshot := mkSnapshot {
  lsn_LastInbound : Time;
  lsn_LastOutbound : Time;
  lsn_LastDPDProbe : Time;
  lsn_OutstandingDPD : bool;
  lsn_ProbeID : Z;
  lsn_MissedDPDProbes : Z;
  lsn_Dead : bool;
  lsn_KeepaliveEnabled : bool;
  lsn_DPDEnabled : bool
}.
Record IKELivenessState := mkLiveness {
  ls_cfg : IKELivenessConfig;
  ls_lastInbound : Time;
  ls_lastOutbound : Time;
  ls_lastDPDProbe : Time;
  ls_outstandingDPD : bool;
  ls_probeID : Z;
  ls_missedDPDProbes : Z;
  ls_dead : bool;
  ls_keepaliveEnabled : bool;
  ls_dpdEnabled : bool
}.

(** Assignments to the fields that change together. *)
Definition with_inbound (s : IKELivenessState) (lastInbound : Time) : IKELivenessState :=
  mkLiveness (ls_cfg s) lastInbound (ls_lastOutbound s) (ls_lastDPDProbe s) false (ls_probeID s) 0 false
    (ls_keepaliveEnabled s) (ls_dpdEnabled s).
Definition with_outbound (s : IKELivenessState) (lastOutbound : Time) : IKELivenessState :=
  mkLiveness (ls_cfg s) (ls_lastInbound s) lastOutbound (ls_lastDPDProbe s) (ls_outstandingDPD s) (ls_probeID s)
    (ls_missedDPDProbes s) (ls_dead s) (ls_keepaliveEnabled s) (ls_dpdEnabled s).
Definition with_missed (s : IKELivenessState) (missed : Z) (dead : bool) : IKELivenessState :=
  mkLiveness (ls_cfg s) (ls_lastInbound s) (ls_lastOutbound s) (ls_lastDPDProbe s) (ls_outstandingDPD s) (ls_probeID s)
    missed dead (ls_keepaliveEnabled s) (ls_dpdEnabled s).

Definition earlierDue (current candidate : Time) : Time :=
  if IsZero candidate then current
  else if IsZero current || Before candidate current then candidate else current.

Definition normalizeIKELivenessConfig (cfg : IKELivenessConfig) : result (IKELivenessConfig * bool * bool) :=
  if (lc_KeepaliveInterval cfg <? 0) || (lc_DPDInterval cfg <? 0) || (lc_DPDTimeout cfg <? 0) || (lc_MaxMissedDPDProbes cfg <? 0)
  then Errorf ErrInvalidIKELiveness else
  let keepaliveEnabled := negb (lc_DisableKeepalive cfg) in
  let keepalive := if lc_KeepaliveInterval cfg =? 0 then defaultIKEKeepaliveInterval else lc_KeepaliveInterval cfg in
  let dpdEnabled := negb (lc_DisableDPD cfg) in
  let interval := if lc_DPDInterval cfg =? 0 then defaultIKEDPDInterval else lc_DPDInterval cfg in
  let timeout := if lc_DPDTimeout cfg =? 0 then defaultIKEDPDTimeout else lc_DPDTimeout cfg in
  let missed := if lc_MaxMissedDPDProbes cfg =? 0 then defaultIKEMissedDPDProbes else lc_MaxMissedDPDProbes cfg in
  if dpdEnabled && (interval <? timeout) then Errorf ErrInvalidIKELiveness else
  Ok (mkLivenessConfig keepalive interval timeout missed (lc_DisableKeepalive cfg) (lc_DisableDPD cfg),
      keepaliveEnabled, dpdEnabled).

Definition NewIKELivenessState (Now : Time) (cfg : IKELivenessConfig) (establishedAt : Time) : result IKELivenessState :=
  let! r := normalizeIKELivenessConfig cfg in
  let '(normalized, keepaliveEnabled, dpdEnabled) := r in
  let establishedAt := if IsZero establishedAt then Now else establishedAt in
  Ok (mkLiveness normalized establishedAt establishedAt 0 false 0 0 false keepaliveEnabled dpdEnabled).

Definition NATTKeepalivePayload : bytes := [0xff].

Definition recordInbound (Now : Time) (s : IKELivenessState) (at' : Time) : IKELivenessState :=
  let at' := if IsZero at' then Now else at' in
  with_inbound s (if After at' (ls_lastInbound s) || IsZero (ls_lastInbound s) then at' else ls_lastInbound s).
Definition RecordInbound (Now : Time) (s : option IKELivenessState) (at' : Time) : option IKELivenessState :=
  match s with None => None | Some s => Some (recordInbound Now s at') end.

Definition RecordOutbound (Now : Time) (s : option IKELivenessState) (at' : Time) : option IKELivenessState :=
  match s with
  | None => None
  | Some s =>
      let at' := if IsZero at' then Now else at' in
      Some (if After at' (ls_lastOutbound s) || IsZero (ls_lastOutbound s) then with_outbound s at' else s)
  end.

Definition RecordLivenessResult (Now : Time) (s : option IKELivenessState) (at' : Time) (ok : bool) : option IKELivenessState :=
  match s with
  | None => None
  | Some s =>
      if ok then Some (recordInbound Now s at') else
      if negb (ls_outstandingDPD s) || ls_dead s then Some s else
      let missed := ls_missedDPDProbes s + 1 in
      Some (with_missed s missed (if lc_MaxMissedDPDProbes (ls_cfg s) <=? missed then true else ls_dead s))
  end.

Definition nextDue (s : IKELivenessState) (now : Time) : Time :=
  let due := 0 in
  let due :=
    if ls_dpdEnabled s then
      let dpdDue :=
        if ls_outstandingDPD s then ls_lastDPDProbe s + lc_DPDTimeout (ls_cfg s)
        else ls_lastInbound s + lc_DPDInterval (ls_cfg s) in
      earlierDue due dpdDue
    else due in
  let due :=
    if ls_keepaliveEnabled s && negb (ls_outstandingDPD s) then
      earlierDue due (ls_lastOutbound s + lc_KeepaliveInterval (ls_cfg s))
    else due in
  if IsZero due || Before due now then now else due.

Definition decision (s : IKELivenessState) (now : Time) (action : IKELivenessAction) (reason : string) : IKELivenessDecision :=
  let deadline := if ls_outstandingDPD s then ls_lastDPDProbe s + lc_DPDTimeout (ls_cfg s) else 0 in
  let idleFor := if negb (IsZero (ls_lastInbound s)) && After now (ls_lastInbound s) then Sub now (ls_lastInbound s) else 0 in
  mkDecision action (ls_probeID s) (ls_missedDPDProbes s) idleFor deadline (nextDue s now) (ls_dead s) reason.

Definition sendDPD (s : IKELivenessState) (now : Time) (reason : string) : IKELivenessState * IKELivenessDecision :=
  let s := mkLiveness (ls_cfg s) (ls_lastInbound s) now now true (to_u32 (ls_probeID s + 1)) (ls_missedDPDProbes s)
             (ls_dead s) (ls_keepaliveEnabled s) (ls_dpdEnabled s) in
  (s, decision s now IKELivenessSendDPD reason).

Definition advanceDPD (s : IKELivenessState) (now : Time) : IKELivenessState * IKELivenessDecision :=
  if negb (ls_dpdEnabled s) then (s, decision s now IKELivenessNoAction "dpd disabled") else
  if ls_outstandingDPD s then
    let deadline := ls_lastDPDProbe s + lc_DPDTimeout (ls_cfg s) in
    if Before now deadline then (s, decision s now IKELivenessNoAction "waiting for dpd response") else
    let missed := ls_missedDPDProbes s + 1 in
    if lc_MaxMissedDPDProbes (ls_cfg s) <=? missed then
      let s := with_missed s missed true in
      (s, decision s now IKELivenessDeclareDead "dpd retry budget exhausted")
    else sendDPD (with_missed s missed (ls_dead s)) now "dpd response timeout"
  else if Before now (ls_lastInbound s + lc_DPDInterval (ls_cfg s)) then
    (s, decision s now IKELivenessNoAction "peer traffic observed recently")
  else sendDPD s now "dpd interval elapsed".

Definition advance (s : IKELivenessState) (now : Time) : IKELivenessState * IKELivenessDecision :=
  if ls_dead s then (s, decision s now IKELivenessNoAction "peer already declared dead") else
  let '(s, d) := advanceDPD s now in
  if negb (bool_decide (ld_Action d = IKELivenessNoAction)) then (s, d) else
  if ls_keepaliveEnabled s && negb (Before now (ls_lastOutbound s + lc_KeepaliveInterval (ls_cfg s))) then
    let s := with_outbound s now in (s, decision s now IKELivenessSendKeepalive "keepalive interval elapsed")
  else (s, decision s now IKELivenessNoAction "not due").
Definition Advance (Now : Time) (s : option IKELivenessState) (now : Time) : option IKELivenessState * IKELivenessDecision :=
  match s with
  | None => (None, mkDecision IKELivenessNoAction 0 0 0 0 0 false "liveness state is nil")
  | Some s => let '(s, d) := advance s (if IsZero now then Now else now) in (Some s, d)
  end.

Definition Snapshot (s : option IKELivenessState) : IKELivenessSnapshot :=
  match s with
  | None => mkSnapshot 0 0 0 false 0 0 false false false
  | Some s => mkSnapshot (ls_lastInbound s) (ls_lastOutbound s) (ls_lastDPDProbe s) (ls_outstandingDPD s) (ls_probeID s)
                (ls_missedDPDProbes s) (ls_dead s) (ls_keepaliveEnabled s) (ls_dpdEnabled s)
  end.

(** ** The state machine *)

(** A call of a method, with the clock it may read. *)
Inductive event :=
| EInbound (Now at' : Time)
| EOutbound (Now at' : Time)
| EResult (Now at' : Time) (ok : bool)
| EAdvance (Now now : Time).

Definition handle (s : option IKELivenessState) (e : event) : option IKELivenessState * option IKELivenessDecision :=
  match e with
  | EInbound Now at' => (RecordInbound Now s at', None)
  | EOutbound Now at' => (RecordOutbound Now s at', None)
  | EResult Now at' ok => (RecordLivenessResult Now s at' ok, None)
  | EAdvance Now now => let '(s, d) := Advance Now s now in (s, Some d)
  end.

(** One call; and the states a new liveness state can reach by a sequence of
    calls that satisfy [P]. *)
Inductive step : IKELivenessState -> event -> IKELivenessState -> Prop :=
| step_intro s e s' d : handle (Some s) e = (Some s', d) -> step s e s'.
Inductive reachable (P : event -> Prop) : IKELivenessState -> Prop :=
| reach_new Now cfg t s : 0 < Now -> 0 <= t -> NewIKELivenessState Now cfg t = Ok s -> reachable P s
| reach_step s e s' : reachable P s -> P e -> step s e s' -> reachable P s'.

(** Calls with a running clock. *)
Definition timely (e : event) : Prop :=
  match e with
  | EInbound Now t | EOutbound Now t | EResult Now t _ | EAdvance Now t => 0 < Now /\ 0 <= t
  end.
(** No call reports a failed liveness exchange. *)
Definition no_failure (e : event) : Prop := match e with EResult _ _ ok => ok = true | _ => True end.

Definition config_ok (s : IKELivenessState) : Prop :=
  let c := ls_cfg s in
  0 < lc_KeepaliveInterval c /\ 0 < lc_DPDInterval c /\ 0 < lc_DPDTimeout c /\ 1 <= lc_MaxMissedDPDProbes c /\
  (ls_dpdEnabled s = true -> lc_DPDTimeout c <= lc_DPDInterval c).

(** The invariant: a peer is dead exactly when the probe budget is used up, and
    only an outstanding probe counts misses. *)
Definition live_inv (s : IKELivenessState) : Prop :=
  config_ok s /\ is_u32 (ls_probeID s) /\ 0 <= ls_missedDPDProbes s <= lc_MaxMissedDPDProbes (ls_cfg s) /\
  ls_dead s = (lc_MaxMissedDPDProbes (ls_cfg s) <=? ls_missedDPDProbes s) /\
  (ls_outstandingDPD s = false -> ls_missedDPDProbes s = 0) /\ (ls_dpdEnabled s = false -> ls_outstandingDPD s = false).

(** Every probe that is outstanding was sent after a silence of the interval and
    one timeout per miss. *)
Definition probe_inv (s : IKELivenessState) : Prop :=
  let c := ls_cfg s in
  ls_outstandingDPD s = true ->
  ls_lastInbound s + lc_DPDInterval c + Z.min (ls_missedDPDProbes s) (lc_MaxMissedDPDProbes c - 1) * lc_DPDTimeout c <= ls_lastDPDProbe s.

Definition times_inv (s : IKELivenessState) : Prop :=
  0 < ls_lastInbound s /\ 0 < ls_lastOutbound s /\ (ls_outstandingDPD s = true -> 0 < ls_lastDPDProbe s).

(** What [advance] does, by cases; the decision is taken on the new state. *)
Definition deadline_passed (s : IKELivenessState) (now : Time) : bool := ls_lastDPDProbe s + lc_DPDTimeout (ls_cfg s) <=? now.
Definition keepalive_due (s : IKELivenessState) (now : Time) : bool :=
  ls_keepaliveEnabled s && (ls_lastOutbound s + lc_KeepaliveInterval (ls_cfg s) <=? now).
Definition action_of (s : IKELivenessState) (now : Time) : IKELivenessAction :=
  if ls_dead s then IKELivenessNoAction
  else if ls_dpdEnabled s && ls_outstandingDPD s && deadline_passed s now then
    if lc_MaxMissedDPDProbes (ls_cfg s) <=? ls_missedDPDProbes s + 1 then IKELivenessDeclareDead else IKELivenessSendDPD
  else if ls_dpdEnabled s && negb (ls_outstandingDPD s) && (ls_lastInbound s + lc_DPDInterval (ls_cfg s) <=? now) then IKELivenessSendDPD
  else if keepalive_due s now then IKELivenessSendKeepalive
  else IKELivenessNoAction.
Definition after (s : IKELivenessState) (now : Time) : IKELivenessState :=
  match action_of s now with
  | IKELivenessNoAction => s
  | IKELivenessSendKeepalive => with_outbound s now
  | IKELivenessDeclareDead => with_missed s (ls_missedDPDProbes s + 1) true
  | IKELivenessSendDPD =>
      mkLiveness (ls_cfg s) (ls_lastInbound s) now now true (to_u32 (ls_probeID s + 1))
        (if ls_outstandingDPD s then ls_missedDPDProbes s + 1 else ls_missedDPDProbes s) (ls_dead s)
        (ls_keepaliveEnabled s) (ls_dpdEnabled s)
  end.

Lemma advance_spec s now :
  exists reason, advance s now = (after s now, decision (after s now) now (action_of s now) reason).
Proof.
  unfold advance, after, action_of. destruct (ls_dead s) eqn:Hdead; [by eexists|].
  unfold advanceDPD, sendDPD, deadline_passed, keepalive_due, Before. rewrite !(Z.leb_antisym now).
  set (d1 := now <? ls_lastDPDProbe s + _). set (d2 := now <? ls_lastInbound s + _). set (d3 := now <? ls_lastOutbound s + _).
  destruct (ls_dpdEnabled s) eqn:He, (ls_outstandingDPD s) eqn:Ho; cbn [negb andb]; [destruct d1| destruct d2| |]; cbn [negb andb].
  2: destruct (_ <=? ls_missedDPDProbes s + 1); cbn; rewrite ?Hdead, ?He, ?Ho, bool_decide_eq_false_2 by done; eexists; reflexivity.
  3: cbn; rewrite ?Hdead, ?He, ?Ho, bool_decide_eq_false_2 by done; eexists; reflexivity.
  all: cbn; rewrite bool_decide_eq_true_2 by done; cbn [negb]; fold d3;
    destruct (ls_keepaliveEnabled s && negb d3); eexists; reflexivity.
Qed.

(** ** Invariants *)
Lemma NewIKELivenessState_spec Now cfg t s :
  NewIKELivenessState Now cfg t = Ok s ->
  config_ok s /\ ls_lastInbound s = (if IsZero t then Now else t) /\ ls_lastOutbound s = ls_lastInbound s /\
  ls_outstandingDPD s = false /\ ls_missedDPDProbes s = 0 /\ ls_dead s = false /\ ls_probeID s = 0 /\
  ls_dpdEnabled s = negb (lc_DisableDPD cfg).
Proof.
  unfold NewIKELivenessState, normalizeIKELivenessConfig. go_case H0; [done|].
  set (k := if lc_KeepaliveInterval cfg =? 0 then _ else _). set (i := if lc_DPDInterval cfg =? 0 then _ else _).
  set (o := if lc_DPDTimeout cfg =? 0 then _ else _). set (m := if lc_MaxMissedDPDProbes cfg =? 0 then _ else _). cbv zeta.
  assert (0 < k /\ 0 < i /\ 0 < o /\ 1 <= m).
  { subst k i o m. unfold defaultIKEKeepaliveInterval, defaultIKEDPDInterval, defaultIKEDPDTimeout, defaultIKEMissedDPDProbes, Second.
    repeat match goal with |- context [if ?b then _ else _] => destruct b eqn:? end; lia. }
  go_case H1; [done|]. cbn [bind]. intros [= <-]. unfold config_ok. cbn. split_and!; try done; try lia.
  intros He. rewrite He in H1. cbn in H1. lia.
Qed.

Lemma config_ok_ext s s' :
  ls_cfg s' = ls_cfg s -> ls_dpdEnabled s' = ls_dpdEnabled s -> config_ok s -> config_ok s'.
Proof. unfold config_ok. by intros -> ->. Qed.

Lemma live_inv_new Now cfg t s : NewIKELivenessState Now cfg t = Ok s -> live_inv s.
Proof.
  intros (Hc & _ & _ & Ho & Hm & Hd & Hp & _)%NewIKELivenessState_spec. pose proof Hc as (_ & _ & _ & H1 & _).
  unfold live_inv. rewrite Ho, Hm, Hd, Hp. split_and!; try done; lia.
Qed.

Lemma live_inv_inbound s t : live_inv s -> live_inv (with_inbound s t).
Proof.
  intros (Hc & Hp & _ & _ & _ & _). pose proof Hc as (_ & _ & _ & H1 & _). unfold live_inv. cbn. split_and!; try done; lia.
Qed.
Lemma live_inv_outbound s t : live_inv s -> live_inv (with_outbound s t).
Proof. done. Qed.
Lemma live_inv_miss s :
  live_inv s -> ls_outstandingDPD s = true -> ls_dead s = false ->
  live_inv (with_missed s (ls_missedDPDProbes s + 1) (lc_MaxMissedDPDProbes (ls_cfg s) <=? ls_missedDPDProbes s + 1)).
Proof.
  intros (Hc & Hp & Hm & Hd & Ho & He) Hout Hdead. rewrite Hdead in Hd. unfold live_inv. cbn.
  split_and!; try done; [lia|lia|by rewrite Hout].
Qed.
Lemma live_inv_after s now : live_inv s -> live_inv (after s now).
Proof.
  intros Hs. unfold after, action_of. destruct (ls_dead s) eqn:Hdead; [done|].
  pose proof Hs as (Hc & Hp & Hm & Hd & Ho & He). rewrite Hdead in Hd.
  destruct (ls_dpdEnabled s && ls_outstandingDPD s && deadline_passed s now) eqn:H1.
  - apply andb_true_iff in H1 as [[H1 Hout]%andb_true_iff _]. pose proof (live_inv_miss s Hs Hout Hdead) as Hmiss.
    destruct (_ <=? ls_missedDPDProbes s + 1) eqn:Hmax; [done|]. rewrite Hout.
    unfold live_inv. cbn. split_and!; try done; [apply to_u32_range|lia|lia|by rewrite H1].
  - go_case H2; [|by destruct (keepalive_due s now)].
    apply andb_true_iff in H2 as [[H2 Hout%negb_true_iff]%andb_true_iff _]. rewrite Hout.
    unfold live_inv. cbn. split_and!; try done; [apply to_u32_range|lia|lia|by rewrite H2].
Qed.

Lemma after_cfg s now : ls_cfg (after s now) = ls_cfg s /\ ls_dpdEnabled (after s now) = ls_dpdEnabled s /\
  ls_keepaliveEnabled (after s now) = ls_keepaliveEnabled s /\ ls_lastInbound (after s now) = ls_lastInbound s.
Proof. unfold after. by destruct (action_of s now). Qed.

(** Every call is one of five changes. *)
Inductive change (s : IKELivenessState) (e : event) : IKELivenessState -> Prop :=
| change_inbound t : ls_lastInbound s <= t -> (timely e -> 0 < ls_lastInbound s -> 0 < t) -> change s e (with_inbound s t)
| change_outbound t : (timely e -> 0 < ls_lastOutbound s -> 0 < t) -> change s e (with_outbound s t)
| change_nothing : change s e s
| change_miss : ~ no_failure e -> ls_outstandingDPD s = true -> ls_dead s = false ->
    change s e (with_missed s (ls_missedDPDProbes s + 1) (lc_MaxMissedDPDProbes (ls_cfg s) <=? ls_missedDPDProbes s + 1))
| change_advance now : (timely e -> 0 < now) -> change s e (after s now).

Lemma step_change s e s' : 0 < ls_lastInbound s -> step s e s' -> change s e s'.
Proof.
  intros Hpos Hst. inversion Hst as [? ? ? d H]; subst. clear Hst.
  assert (Hin : forall Now t, (timely e -> 0 < Now /\ 0 <= t) -> change s e (recordInbound Now s t)).
  { intros Now t Ht. unfold recordInbound, After, IsZero. apply change_inbound; repeat case_match; lia. }
  destruct e as [Now t|Now t|Now t ok|Now now]; cbn in H.
  - injection H as <- <-. by apply Hin.
  - unfold IsZero, After in H. destruct (_ || _) eqn:Hc in H; injection H as <- <-; [|apply change_nothing].
    apply change_outbound. cbn. intros [? ?] _. destruct (Z.eqb_spec t 0); lia.
  - unfold RecordLivenessResult in H. destruct ok; [injection H as <- <-; by apply Hin|].
    destruct (ls_outstandingDPD s) eqn:Ho; cbn [negb orb] in H; [|injection H as <- <-; apply change_nothing].
    destruct (ls_dead s) eqn:Hd; [injection H as <- <-; apply change_nothing|].
    assert (Hb : forall b : bool, (if b then true else false) = b) by (by intros []).
    rewrite Hb in H. injection H as <- <-. by apply change_miss.
  - destruct (advance_spec s (if IsZero now then Now else now)) as (reason & Ha). rewrite Ha in H. injection H as <- _.
    apply change_advance. cbn. unfold IsZero. intros [? ?]. destruct (Z.eqb_spec now 0); lia.
Qed.

Lemma reachable_times P s : (forall e, P e -> timely e) -> reachable P s -> times_inv s.
Proof.
  intros HP. induction 1 as [Now cfg t s HN Ht (_ & Hi & Ho & Hout & _)%NewIKELivenessState_spec|s e s' _ IH He Hs].
  - unfold times_inv, IsZero in *. rewrite Ho, Hi, Hout. split_and!; try done; destruct (Z.eqb_spec t 0); lia.
  - apply HP in He. destruct IH as (Hi & Ho & Hp). apply step_change in Hs; [|lia].
    destruct Hs as [t ? Ht|t Ht| |_ _ _|now Hn]; unfold times_inv; cbn; try (by split_and!; auto; lia).
    specialize (Hn He). unfold after. destruct (action_of s now); cbn; by auto.
Qed.

Lemma reachable_live P s : (forall e, P e -> timely e) -> reachable P s -> live_inv s.
Proof.
  intros HP. induction 1 as [Now cfg t s HN Ht Hnew|s e s' Hr IH He Hs]; [by eapply live_inv_new|].
  pose proof (reachable_times P s HP Hr) as (Hi & _). apply step_change in Hs; [|lia].
  destruct Hs; [by apply live_inv_inbound|done|done|by apply live_inv_miss|by apply live_inv_after].
Qed.

Lemma probe_inv_after s now : live_inv s -> probe_inv s -> probe_inv (after s now).
Proof.
  intros (Hc & _ & Hm & Hd & Ho & _) Hp. unfold after, action_of. destruct (ls_dead s) eqn:Hdead; [done|].
  destruct Hc as (Hk & Hi & Ht & H1 & _).
  destruct (ls_dpdEnabled s && ls_outstandingDPD s && deadline_passed s now) eqn:E1.
  - apply andb_true_iff in E1 as [[E1 Hout]%andb_true_iff E2]. unfold deadline_passed in E2. specialize (Hp Hout).
    destruct (_ <=? ls_missedDPDProbes s + 1) eqn:Hmax; unfold probe_inv; cbn; intros _; rewrite ?Hout; [|nia].
    rewrite (Z.min_l (ls_missedDPDProbes s)) in Hp by lia. rewrite Z.min_r by lia. nia.
  - go_case E2; [|by destruct (keepalive_due s now)].
    apply andb_true_iff in E2 as [[_ Hout%negb_true_iff]%andb_true_iff E2]. unfold probe_inv. cbn. intros _. rewrite Hout, (Ho Hout). nia.
Qed.

Lemma reachable_probe P s : (forall e, P e -> timely e /\ no_failure e) -> reachable P s -> probe_inv s.
Proof.
  intros HP. induction 1 as [Now cfg t s HN Ht (_ & _ & _ & Hout & _)%NewIKELivenessState_spec|s e s' Hr IH He Hs].
  { intros Ho. by rewrite Ho in Hout. }
  assert (HPt : forall e, P e -> timely e) by (intros e' H; by apply HP). pose proof (reachable_times P s HPt Hr) as (Hi & _).
  pose proof (reachable_live P s HPt Hr) as Hl. apply step_change in Hs; [|lia].
  destruct Hs as [t ? Ht|t Ht| |Hn _ _|now Hn]; try done; [by destruct Hn; apply HP|by apply probe_inv_after].
Qed.

(** ** Schedules *)

(** [Advance] at each of a list of times. *)
Fixpoint advance_all (Now : Time) (s : option IKELivenessState) (ts : list Time)
  : option IKELivenessState * list IKELivenessDecision :=
  match ts with
  | [] => (s, [])
  | t :: rest =>
      let '(s, d) := Advance Now s t in
      let '(s, ds) := advance_all Now s rest in (s, d :: ds)
  end.

(** Each time is at least [gap] after the one before. *)
Fixpoint spaced (gap : Duration) (t : Time) (ts : list Time) : Prop :=
  match ts with
  | [] => True
  | u :: rest => t + gap <= u /\ spaced gap u rest
  end.

(** With a probe sent at [t], the remaining budget of probes goes unanswered. *)
Lemma silent_from Now s t ts :
  live_inv s -> ls_dpdEnabled s = true -> ls_outstandingDPD s = true -> ls_dead s = false ->
  0 < t -> ls_lastDPDProbe s = t -> spaced (lc_DPDTimeout (ls_cfg s)) t ts ->
  Z.of_nat (length ts) = lc_MaxMissedDPDProbes (ls_cfg s) - ls_missedDPDProbes s ->
  exists s' ds, advance_all Now (Some s) ts = (Some s', ds) /\ ls_dead s' = true /\
    (ld_Action <$> ds) = replicate (length ts - 1) IKELivenessSendDPD ++ [IKELivenessDeclareDead] /\
    ls_lastInbound s' = ls_lastInbound s.
Proof.
  revert s t. induction ts as [|u ts IH]; intros s t Hs He Hout Hdead Ht Hp Hsp Hlen.
  { destruct Hs as (_ & _ & Hm & Hd & _). rewrite Hdead in Hd. cbn in Hlen. lia. }
  destruct Hsp as [Hu Hsp]. pose proof Hs as (Hc & _ & Hm & Hd & _). destruct Hc as (_ & _ & Hto & _ & _). rewrite Hdead in Hd.
  cbn [advance_all Advance]. unfold IsZero. replace (u =? 0) with false by lia. cbv iota.
  destruct (advance_spec s u) as (reason & ->). pose proof (live_inv_after s u Hs) as Hs'. pose proof (after_cfg s u) as (Ec & Ee & _ & Ei).
  assert (Hact : action_of s u = if lc_MaxMissedDPDProbes (ls_cfg s) <=? ls_missedDPDProbes s + 1 then IKELivenessDeclareDead else IKELivenessSendDPD).
  { unfold action_of, deadline_passed. rewrite Hdead, He, Hout. cbn [andb]. by replace (_ <=? u) with true by lia. }
  cbn [length] in Hlen. destruct (_ <=? ls_missedDPDProbes s + 1) eqn:Hmax in Hact.
  - assert (ts = []) as -> by (destruct ts; [done|cbn in Hlen; lia]). cbn [advance_all].
    eexists _, _. split; [done|]. unfold after. rewrite Hact. cbn. done.
  - destruct (IH (after s u) u) as (s' & ds & -> & Hdd & Hds & Hli); try done; try lia; try congruence.
    + unfold after. by rewrite Hact.
    + unfold after. by rewrite Hact.
    + unfold after. by rewrite Hact.
    + rewrite Ec. unfold after. rewrite Hact. cbn. rewrite Hout. lia.
    + eexists _, _. split; [done|]. split; [done|]. split; [|congruence]. cbn [fmap list_fmap length]. rewrite Hds.
      cbn [ld_Action decision]. rewrite Hact. destruct ts as [|v ts]; [cbn in Hlen; lia|]. cbn. by rewrite Nat.sub_0_r.
Qed.

(** ** Theorems *)

(** C14: dead-peer detection never gives up on a peer too early.  In every state
    reached from [NewIKELivenessState] by any sequence of calls with a running
    clock in which no failed exchange is reported, the invariant holds; a call of
    [Advance] declares the peer dead exactly when it turns a live state into a
    dead one, it only does so once the whole interval and one timeout for each
    probe of the budget have passed since the last inbound message, and from a
    dead state it asks for nothing. *)
Theorem dead_only_after_silence Now s now s' d :
  reachable (fun e => timely e /\ no_failure e) s -> 0 < Now -> 0 <= now ->
  Advance Now (Some s) now = (Some s', d) ->
  let t := if IsZero now then Now else now in
  let c := ls_cfg s in
  live_inv s' /\ ls_lastInbound s' = ls_lastInbound s /\ ld_Dead d = ls_dead s' /\
  (ld_Action d = IKELivenessDeclareDead <-> ls_dead s = false /\ ls_dead s' = true) /\
  (ld_Action d = IKELivenessDeclareDead ->
     ls_missedDPDProbes s' = lc_MaxMissedDPDProbes c /\
     ls_lastInbound s + lc_DPDInterval c + lc_MaxMissedDPDProbes c * lc_DPDTimeout c <= t) /\
  (ls_dead s = true -> s' = s /\ ld_Action d = IKELivenessNoAction).
Proof.
  intros Hr HN Hnow Ha t c. cbn [Advance] in Ha. fold t in Ha. destruct (advance_spec s t) as (reason & E). rewrite E in Ha.
  injection Ha as <- <-. pose proof (reachable_probe _ s (fun e H => H) Hr) as Hp.
  pose proof (reachable_live _ s (fun e H => proj1 H) Hr) as Hl. pose proof (live_inv_after s t Hl) as Hl'.
  destruct (after_cfg s t) as (_ & _ & _ & Ei). split; [done|]. split; [done|]. split; [done|]. cbn [ld_Action decision].
  destruct Hl as (Hc & _ & Hm & Hd & _). unfold probe_inv in Hp. fold c in Hp, Hm, Hd. unfold after, action_of, deadline_passed. fold c.
  destruct (ls_dead s) eqn:Hdead; [by split_and!; naive_solver|].
  destruct (ls_dpdEnabled s && ls_outstandingDPD s && (ls_lastDPDProbe s + lc_DPDTimeout c <=? t)) eqn:E1.
  - apply andb_true_iff in E1 as [[_ Hout]%andb_true_iff E1]. specialize (Hp Hout).
    destruct (_ <=? ls_missedDPDProbes s + 1) eqn:Hmax; [|by split_and!; naive_solver]. rewrite Z.min_l in Hp by lia.
    assert (HM : lc_MaxMissedDPDProbes c = ls_missedDPDProbes s + 1) by lia. rewrite HM.
    cbn. split_and!; try done. intros _. split; [done|]. lia.
  - go_case E2; [|destruct (keepalive_due s t)]; cbn; rewrite ?Hdead; (split; [split; [done|by intros [_ ?]]|by split]).
Qed.

(** C15: a silent peer is always declared dead.  From any live state of the
    invariant with DPD enabled and no outstanding probe, calling [Advance] at a
    time the interval has elapsed and then [MaxMissedDPDProbes] more times, each
    at least one timeout after the call before, asks for one probe per call and
    declares the peer dead at the last one. *)
Theorem silent_peer_declared_dead Now s t ts :
  live_inv s -> ls_dpdEnabled s = true -> ls_outstandingDPD s = false ->
  0 < t -> ls_lastInbound s + lc_DPDInterval (ls_cfg s) <= t -> spaced (lc_DPDTimeout (ls_cfg s)) t ts ->
  Z.of_nat (length ts) = lc_MaxMissedDPDProbes (ls_cfg s) ->
  exists s' ds, advance_all Now (Some s) (t :: ts) = (Some s', ds) /\
    ls_dead s' = true /\ ls_lastInbound s' = ls_lastInbound s /\
    ld_Action <$> ds = replicate (length ts) IKELivenessSendDPD ++ [IKELivenessDeclareDead].
Proof.
  intros Hs He Hout Ht Hi Hsp Hlen. pose proof Hs as ((_ & _ & _ & H1 & _) & _ & _ & Hd & Hm & _). specialize (Hm Hout).
  assert (Hdead : ls_dead s = false) by (rewrite Hd; lia).
  cbn [advance_all Advance]. unfold IsZero. replace (t =? 0) with false by lia. cbv iota.
  destruct (advance_spec s t) as (reason & ->). pose proof (live_inv_after s t Hs) as Hs'.
  assert (Hact : action_of s t = IKELivenessSendDPD).
  { unfold action_of. rewrite Hdead, He, Hout. cbn [andb negb]. by replace (_ <=? t) with true by lia. }
  destruct (after_cfg s t) as (Ec & Ee & _ & Ei).
  destruct (silent_from Now (after s t) t ts) as (s' & ds & -> & Hdd & Hds & Hli); rewrite ?Ec, ?Ee; try done;
    try (unfold after; rewrite Hact; cbn; rewrite ?Hout, ?Hm; done || lia).
  eexists _, _. split; [done|]. split; [done|]. split; [congruence|]. cbn [fmap list_fmap]. rewrite Hds.
  cbn [ld_Action decision]. rewrite Hact. destruct ts as [|u ts]; [cbn in Hlen; lia|]. cbn. by rewrite Nat.sub_0_r.
Qed.

(** The wake-up time a decision carries is right.  [NextDue] is never before
    the time of the call, and when some timer is running [Advance] at that time
    has something to do; and provided no keepalive falls due while a probe is
    awaited, [Advance] at any earlier time has nothing to do and changes
    nothing, so a caller may sleep until it. *)
Theorem NextDue_sound Now s now s' d :
  live_inv s -> times_inv s -> 0 < now -> Advance Now (Some s) now = (Some s', d) -> ls_dead s' = false ->
  now <= ld_NextDue d /\
  (ls_dpdEnabled s' || ls_keepaliveEnabled s' = true ->
     exists s'' d', Advance Now (Some s') (ld_NextDue d) = (s'', d') /\ ld_Action d' <> IKELivenessNoAction) /\
  ((ls_outstandingDPD s' = true -> ls_keepaliveEnabled s' = true ->
      ls_lastDPDProbe s' + lc_DPDTimeout (ls_cfg s') <= ls_lastOutbound s' + lc_KeepaliveInterval (ls_cfg s')) ->
   forall u, now <= u < ld_NextDue d ->
     exists d', Advance Now (Some s') u = (Some s', d') /\ ld_Action d' = IKELivenessNoAction).
Proof.
  intros Hs (Hti & Hto & Htp) Hnow Ha Hdead. cbn [Advance] in Ha. unfold IsZero in Ha. replace (now =? 0) with false in Ha by lia.
  destruct (advance_spec s now) as (reason & E). rewrite E in Ha. injection Ha as Hs' Hd. cbn [decision] in Hd.
  pose proof (live_inv_after s now Hs) as (Hc & _ & _ & _ & _ & Hen). rewrite Hs' in *. rewrite <- Hd. cbn [ld_NextDue decision].
  assert (Hpos : 0 < ls_lastInbound s' /\ 0 < ls_lastOutbound s' /\ (ls_outstandingDPD s' = true -> 0 < ls_lastDPDProbe s')).
  { rewrite <- Hs'. unfold after. destruct (action_of s now); cbn; auto with lia. }
  clear E Hd Hs Hs' Hti Hto Htp. destruct Hpos as (Hti & Hto & Htp). destruct Hc as (Hk & Hi & Ht & _ & _).
  assert (Hadv : forall u, now <= u -> exists r, Advance Now (Some s') u = (Some (after s' u), decision (after s' u) u (action_of s' u) r)).
  { intros u Hu. destruct (advance_spec s' u) as (r & Er). exists r. cbn. unfold IsZero. replace (u =? 0) with false by lia. by rewrite Er. }
  assert (Hge : now <= nextDue s' now).
  { unfold nextDue. case_match eqn:E; unfold Before in *; [lia|]. apply orb_false_iff in E as [_ E]. lia. }
  split; [done|]. split.
  - intros Hon. destruct (Hadv (nextDue s' now) Hge) as (r & ->). eexists _, _. split; [done|]. cbn [ld_Action decision].
    unfold action_of, deadline_passed, keepalive_due. rewrite Hdead. unfold nextDue, earlierDue, IsZero, Before in *.
    destruct (ls_dpdEnabled s') eqn:Ed, (ls_outstandingDPD s') eqn:Eo, (ls_keepaliveEnabled s') eqn:Ek; cbn [andb negb orb] in *;
      try (by specialize (Hen eq_refl)); try done; repeat case_match; try done; try lia.
  - intros Hka u Hu. destruct (Hadv u ltac:(lia)) as (r & ->). 
    assert (action_of s' u = IKELivenessNoAction) as Hno; [|unfold after; rewrite Hno; by eexists].
    unfold action_of, deadline_passed, keepalive_due. rewrite Hdead. unfold nextDue, earlierDue, IsZero, Before in *.
    destruct (ls_dpdEnabled s') eqn:Ed, (ls_outstandingDPD s') eqn:Eo, (ls_keepaliveEnabled s') eqn:Ek; cbn [andb negb orb] in *;
      try (specialize (Htp eq_refl)); try (specialize (Hka eq_refl eq_refl)); repeat case_match; try done; lia.
Qed.

(** ** The theorems at concrete inputs *)
Definition sample_config : IKELivenessConfig := mkLivenessConfig (20 * Second) (60 * Second) (15 * Second) 2 false false.
Definition sample_state : IKELivenessState :=
  mkLiveness sample_config (100 * Second) (100 * Second) 0 false 0 0 false true true.
Lemma sample_state_new : NewIKELivenessState (100 * Second) sample_config 0 = Ok sample_state.
Proof. reflexivity. Qed.
Lemma sample_state_reachable : reachable (fun e => timely e /\ no_failure e) sample_state.
Proof. by apply (reach_new _ (100 * Second) sample_config 0). Qed.
Lemma sample_state_ok : live_inv sample_state /\ times_inv sample_state.
Proof.
  split; [exact (live_inv_new _ _ _ _ sample_state_new)|].
  by apply (reachable_times (fun e => timely e /\ no_failure e)); [intros e []|apply sample_state_reachable].
Qed.

(** Two unanswered probes after the interval, and the verdict at the third call. *)
Definition sample_dying : IKELivenessState :=
  mkLiveness sample_config (100 * Second) (175 * Second) (175 * Second) true 2 1 false true true.
Lemma sample_dying_reachable : reachable (fun e => timely e /\ no_failure e) sample_dying.
Proof.
  eapply (reach_step _ (after sample_state (160 * Second)) (EAdvance 1 (175 * Second))); [|by cbn|by econstructor].
  eapply (reach_step _ sample_state (EAdvance 1 (160 * Second))); [apply sample_state_reachable|by cbn|by econstructor].
Qed.

Lemma dead_only_after_silence_witness :
  exists s' d, Advance 1 (Some sample_dying) (190 * Second) = (Some s', d) /\ ld_Action d = IKELivenessDeclareDead /\
    ls_missedDPDProbes s' = 2 /\ 100 * Second + 60 * Second + 2 * (15 * Second) <= 190 * Second.
Proof.
  destruct (Advance 1 (Some sample_dying) (190 * Second)) as [[s'|] d] eqn:E; [|by vm_compute in E].
  pose proof (dead_only_after_silence 1 sample_dying (190 * Second) s' d sample_dying_reachable ltac:(lia) ltac:(unfold Second; lia) E)
    as (_ & _ & _ & _ & H & _).
  assert (Hd : ld_Action d = IKELivenessDeclareDead) by (vm_compute in E; by injection E as <- <-).
  exists s', d. split; [done|]. split; [done|]. exact (H Hd).
Defined.

Lemma silent_peer_declared_dead_witness :
  exists s' ds, advance_all 1 (Some sample_state) [160 * Second; 175 * Second; 190 * Second] = (Some s', ds) /\
    ls_dead s' = true /\ ls_lastInbound s' = 100 * Second /\
    ld_Action <$> ds = [IKELivenessSendDPD; IKELivenessSendDPD; IKELivenessDeclareDead].
Proof.
  apply (silent_peer_declared_dead 1 sample_state (160 * Second) [175 * Second; 190 * Second]);
    try exact (proj1 sample_state_ok); try done; vm_compute; repeat split; congruence.
Defined.

Lemma NextDue_sound_witness :
  exists s' d, Advance 1 (Some sample_state) (101 * Second) = (Some s', d) /\ ld_NextDue d = 120 * Second /\
    forall u, 101 * Second <= u < 120 * Second -> exists d', Advance 1 (Some s') u = (Some s', d') /\ ld_Action d' = IKELivenessNoAction.
Proof.
  destruct (Advance 1 (Some sample_state) (101 * Second)) as [[s'|] d] eqn:E; [|by vm_compute in E].
  assert (Hs : s' = sample_state /\ ld_NextDue d = 120 * Second) by (vm_compute in E; by injection E as <- <-).
  destruct (NextDue_sound 1 sample_state (101 * Second) s' d (proj1 sample_state_ok) (proj2 sample_state_ok)
              ltac:(unfold Second; lia) E ltac:(by rewrite (proj1 Hs))) as (_ & _ & H).
  exists s', d. split; [done|]. split; [apply Hs|]. rewrite <- (proj2 Hs). apply H. by rewrite (proj1 Hs).
Defined.

(** With a keepalive interval shorter than the probe timeout, [nextDue] overlooks
    the keepalive that [Advance] sends while a probe is awaited. *)
Definition short_keepalive : IKELivenessState :=
  mkLiveness (mkLivenessConfig (5 * Second) (60 * Second) (15 * Second) 2 false false)
    (100 * Second) (160 * Second) (160 * Second) true 1 0 false true true.
Example nextDue_overlooks_keepalive :
  nextDue short_keepalive (160 * Second) = 175 * Second /\
  ld_Action (Advance 1 (Some short_keepalive) (165 * Second)).2 = IKELivenessSendKeepalive.
Proof. by vm_compute. Qed.
