(* ===== verification/EapState.v ===== *)
(** * Fast re-authentication state (engine/swu/eap_reauth.go)

    What the host keeps between two authentications (a re-authentication
    identity with its keys and counter, a pseudonym), how the result of
    IKE_AUTH changes it, and the manager that saves and loads it through a
    store.  The store is an interface: [EAPReauthenticationStore] has its
    operations, [StoreLaws] what the manager relies on, and the store in memory
    is an instance.  The callback to the owner and the JSON form are not modelled. *)
From stdpp Require Import gmap.
From S2P Require Import Prelude GoStrings Utf8 Errors Crypto Types Codec Sa Keys Dh World Session EapAka EapKeys EapReauth EapChallenge.
From S2P Require Import Notify Sk ChildSa Init Auth AuthSpec Liveness.
#[local] Open Scope list_scope.
#[local] Open Scope Z_scope.
#[local] Open Scope world_scope.
#[local] Arguments TrimSpace : simpl never.

Definition EAPReauthenticationSnapshotVersion := 1.

Record EAPReauthenticationState := mkReauthState {
  rs_Identity : bytes;
  rs_Counter : Z;
  rs_CounterOK : bool;
  rs_Keys : EapKeys.Keys;
  rs_NextPseudonym : bytes;
  rs_ExpiresAt : Time;
  rs_OperatorRealm : bytes;
  rs_Reauthenticated : bool;
  rs_CounterTooSmall : bool;
  rs_LastAcceptedCounter : Z;
  rs_LastRejectedCounter : Z
}.
Record EAPReauthenticationUpdate := mkReauthUpdate {
  ru_NextReauthID : bytes;
  ru_NextPseudonym : bytes;
  ru_Keys : EapKeys.Keys;
  ru_Reauthenticated : bool;
  ru_CounterTooSmall : bool;
  ru_Counter : Z;
  ru_ExpiresAt : Time;
  ru_OperatorRealm : bytes
}.
Record EAPReauthenticationKeySnapshot := mkKeySnapshot {
  sk_MK : bytes; sk_KEncr : bytes; sk_KAut : bytes; sk_KRe : bytes;
  sk_MSK : bytes; sk_EMSK : bytes; sk_CKPrime : bytes; sk_IKPrime : bytes
}.
Record EAPReauthenticationSnapshot := mkReauthSnapshot {
  sn_Version : Z;
  sn_ReauthIdentity : bytes;
  sn_Pseudonym : bytes;
  sn_Expiry : Time;
  sn_OperatorRealm : bytes;
  sn_Counter : Z;
  sn_CounterOK : bool;
  sn_Keys : EAPReauthenticationKeySnapshot;
  sn_Reauthenticated : bool;
  sn_CounterTooSmall : bool;
  sn_LastAcceptedCounter : Z;
  sn_LastRejectedCounter : Z
}.
Definition zeroKeys : EapKeys.Keys := EapKeys.mkKeys [] [] [] [] [] [] [] [].
Definition zeroReauthState : EAPReauthenticationState := mkReauthState [] 0 false zeroKeys [] 0 [] false false 0 0.

Definition cloneEAPAKAKeys (k : EapKeys.Keys) : EapKeys.Keys :=
  EapKeys.mkKeys (ks_MK k) (ks_KEncr k) (ks_KAut k) (ks_KRe k) (ks_MSK k) (ks_EMSK k) (ks_CKPrime k) (ks_IKPrime k).
Definition snapshotEAPAKAKeys (k : EapKeys.Keys) : EAPReauthenticationKeySnapshot :=
  mkKeySnapshot (ks_MK k) (ks_KEncr k) (ks_KAut k) (ks_KRe k) (ks_MSK k) (ks_EMSK k) (ks_CKPrime k) (ks_IKPrime k).
Definition KeySnapshot_keys (s : EAPReauthenticationKeySnapshot) : EapKeys.Keys :=
  EapKeys.mkKeys (sk_MK s) (sk_KEncr s) (sk_KAut s) (sk_KRe s) (sk_MSK s) (sk_EMSK s) (sk_CKPrime s) (sk_IKPrime s).
Definition KeySnapshot_clone (s : EAPReauthenticationKeySnapshot) : EAPReauthenticationKeySnapshot :=
  mkKeySnapshot (sk_MK s) (sk_KEncr s) (sk_KAut s) (sk_KRe s) (sk_MSK s) (sk_EMSK s) (sk_CKPrime s) (sk_IKPrime s).
Definition Snapshot_clone (s : EAPReauthenticationSnapshot) : EAPReauthenticationSnapshot :=
  mkReauthSnapshot (sn_Version s) (sn_ReauthIdentity s) (sn_Pseudonym s) (sn_Expiry s) (sn_OperatorRealm s) (sn_Counter s) (sn_CounterOK s)
    (KeySnapshot_clone (sn_Keys s)) (sn_Reauthenticated s) (sn_CounterTooSmall s) (sn_LastAcceptedCounter s) (sn_LastRejectedCounter s).

Section state.
Context {U : UnicodeCase}.

Definition normalizeEAPOperatorRealm (realm : bytes) : bytes := strings_ToLower (TrimSpace realm).
Definition State_clone (s : EAPReauthenticationState) : EAPReauthenticationState :=
  mkReauthState (TrimSpace (rs_Identity s)) (rs_Counter s) (rs_CounterOK s) (cloneEAPAKAKeys (rs_Keys s)) (TrimSpace (rs_NextPseudonym s))
    (rs_ExpiresAt s) (normalizeEAPOperatorRealm (rs_OperatorRealm s)) (rs_Reauthenticated s) (rs_CounterTooSmall s)
    (rs_LastAcceptedCounter s) (rs_LastRejectedCounter s).

(** [clock] is what [time.Now] would say. *)
Definition Expired (clock : Time) (s : EAPReauthenticationState) (now : Time) : bool :=
  if IsZero (rs_ExpiresAt s) then false else
  let now := if IsZero now then clock else now in
  negb (Before now (rs_ExpiresAt s)).
Definition ReauthenticationUsableAt (clock : Time) (s : EAPReauthenticationState) (now : Time) : bool :=
  negb (Expired clock s now) && negb (len (TrimSpace (rs_Identity s)) =? 0) && (0 <? len (ks_KAut (rs_Keys s))) && (0 <? len (ks_KEncr (rs_Keys s))).
Definition PseudonymUsableAt (clock : Time) (s : EAPReauthenticationState) (now : Time) : bool :=
  negb (Expired clock s now) && negb (len (TrimSpace (rs_NextPseudonym s)) =? 0).
Definition AnyUsableAt (clock : Time) (s : EAPReauthenticationState) (now : Time) : bool :=
  ReauthenticationUsableAt clock s now || PseudonymUsableAt clock s now.
Definition Usable (clock : Time) (s : EAPReauthenticationState) : bool := ReauthenticationUsableAt clock s clock.
Definition MatchesOperatorRealm (s : EAPReauthenticationState) (realm : bytes) : bool :=
  let stored := normalizeEAPOperatorRealm (rs_OperatorRealm s) in
  let current := normalizeEAPOperatorRealm realm in
  (len stored =? 0) || (len current =? 0) || bytesEqual stored current.

Definition ApplyUpdate (s : EAPReauthenticationState) (update : EAPReauthenticationUpdate) : EAPReauthenticationState * bool :=
  if (len (ks_KAut (ru_Keys update)) =? 0) || (len (ks_KEncr (ru_Keys update)) =? 0) then (State_clone s, false) else
  let current := State_clone s in
  let identity := TrimSpace (ru_NextReauthID update) in
  let identity := if negb (len identity =? 0) then identity else rs_Identity current in
  let pseudonym := TrimSpace (ru_NextPseudonym update) in
  let pseudonym := if negb (len pseudonym =? 0) then pseudonym else rs_NextPseudonym current in
  let realm := normalizeEAPOperatorRealm (ru_OperatorRealm update) in
  let realm := if negb (len realm =? 0) then realm else rs_OperatorRealm current in
  if (len (TrimSpace identity) =? 0) && (len (TrimSpace pseudonym) =? 0) then (current, false) else
  let next counter counterOK reauthenticated tooSmall accepted rejected :=
    mkReauthState identity counter counterOK (cloneEAPAKAKeys (ru_Keys update)) pseudonym (ru_ExpiresAt update) realm
      reauthenticated tooSmall accepted rejected in
  let next :=
    if len (TrimSpace identity) =? 0 then next 0 false false false 0 0 else
    let next counter counterOK := next counter counterOK (ru_Reauthenticated update) (ru_CounterTooSmall update) in
    if ru_Reauthenticated update then next (ru_Counter update) true (ru_Counter update) (rs_LastRejectedCounter current)
    else if ru_CounterTooSmall update then
      next (rs_Counter current) (rs_CounterOK current) (rs_LastAcceptedCounter current) (ru_Counter update)
    else next 0 true 0 0 in
  (State_clone next, true).

Definition Snapshot (s : EAPReauthenticationState) : EAPReauthenticationSnapshot :=
  let s := State_clone s in
  mkReauthSnapshot EAPReauthenticationSnapshotVersion (rs_Identity s) (rs_NextPseudonym s) (rs_ExpiresAt s) (rs_OperatorRealm s)
    (rs_Counter s) (rs_CounterOK s) (snapshotEAPAKAKeys (rs_Keys s)) (rs_Reauthenticated s) (rs_CounterTooSmall s)
    (rs_LastAcceptedCounter s) (rs_LastRejectedCounter s).
Definition Snapshot_State (s : EAPReauthenticationSnapshot) : result EAPReauthenticationState :=
  if negb (sn_Version s =? 0) && negb (sn_Version s =? EAPReauthenticationSnapshotVersion) then Errorf ErrInvalidEAPReauthenticationState else
  Ok (State_clone (mkReauthState (TrimSpace (sn_ReauthIdentity s)) (sn_Counter s) (sn_CounterOK s) (KeySnapshot_keys (sn_Keys s))
    (TrimSpace (sn_Pseudonym s)) (sn_Expiry s) (normalizeEAPOperatorRealm (sn_OperatorRealm s)) (sn_Reauthenticated s)
    (sn_CounterTooSmall s) (sn_LastAcceptedCounter s) (sn_LastRejectedCounter s))).

Definition authStateAt (clock : Time) (s : EAPReauthenticationState) (now : Time) (operatorRealm : bytes) : EAPReauthenticationState :=
  let s := State_clone s in
  if negb (MatchesOperatorRealm s operatorRealm) || Expired clock s now then zeroReauthState else
  let realm := if len (rs_OperatorRealm s) =? 0 then normalizeEAPOperatorRealm operatorRealm else rs_OperatorRealm s in
  let pseudonym := if PseudonymUsableAt clock s now then rs_NextPseudonym s else [] in
  let s :=
    if negb (ReauthenticationUsableAt clock s now) then mkReauthState [] 0 false zeroKeys pseudonym (rs_ExpiresAt s) realm false false 0 0
    else mkReauthState (rs_Identity s) (rs_Counter s) (rs_CounterOK s) (rs_Keys s) pseudonym (rs_ExpiresAt s) realm
           (rs_Reauthenticated s) (rs_CounterTooSmall s) (rs_LastAcceptedCounter s) (rs_LastRejectedCounter s) in
  if (len (rs_Identity s) =? 0) && (len (rs_NextPseudonym s) =? 0) then zeroReauthState else State_clone s.

(** ** The manager *)
Class EAPReauthenticationStore (St : Type) := {
  LoadEAPReauthentication : St -> bytes -> St * result (option EAPReauthenticationSnapshot);
  SaveEAPReauthentication : St -> bytes -> EAPReauthenticationSnapshot -> St * result unit;
  DeleteEAPReauthentication : St -> bytes -> St * result unit
}.
Record EAPReauthenticationStateManager := mkManager {
  sm_Key : bytes;
  sm_OperatorRealm : bytes;
  sm_Lifetime : Duration
}.
(** One reading of the clocks: of [m.Now] when there is one, and of [time.Now]. *)
Record Clock := mkClock { ck_Now : option Time; ck_time_Now : Time }.
Definition Manager_now (ck : Clock) : Time :=
  match ck_Now ck with
  | Some now => if negb (IsZero now) then now else ck_time_Now ck
  | None => ck_time_Now ck
  end.

Section manager.
Context {St : Type} `{!EAPReauthenticationStore St}.
(** The store of the manager is a nil interface or a store. *)
Definition storeAndKey (m : EAPReauthenticationStateManager) (store : option St) : result (St * bytes) :=
  match store with
  | None => Errorf ErrInvalidEAPReauthenticationState
  | Some st => let key := TrimSpace (sm_Key m) in if len key =? 0 then Errorf ErrInvalidEAPReauthenticationState else Ok (st, key)
  end.
(** [f] on the store, when there is one. *)
Definition on_store {A} (m : EAPReauthenticationStateManager) (store : option St) (f : St -> bytes -> St * result A) : option St * result A :=
  match storeAndKey m store with
  | Ok (st, key) => let '(st', r) := f st key in (Some st', r)
  | Err e => (store, Err e)
  | Panic => (store, Panic)
  | OutOfFuel => (store, OutOfFuel)
  end.
Definition Load (m : EAPReauthenticationStateManager) (ck : Clock) (store : option St) : option St * result (option EAPReauthenticationState) :=
  on_store m store (fun st key =>
    let '(st', r) := LoadEAPReauthentication st key in
    (st', let! snapshot := r in
          match snapshot with
          | None => Ok None
          | Some snapshot =>
              let! state := Snapshot_State snapshot in
              if negb (MatchesOperatorRealm state (sm_OperatorRealm m)) || negb (AnyUsableAt (ck_time_Now ck) state (Manager_now ck)) then Ok None
              else Ok (Some (State_clone state))
          end)).
(** What [Save] makes of the state, [ck] being the clock when the lifetime is added. *)
Definition state_to_save (m : EAPReauthenticationStateManager) (ck : Clock) (state : EAPReauthenticationState) : EAPReauthenticationState :=
  let state := State_clone state in
  let realm := normalizeEAPOperatorRealm (sm_OperatorRealm m) in
  let realm := if (len (rs_OperatorRealm state) =? 0) && negb (len realm =? 0) then realm else rs_OperatorRealm state in
  let expires := if 0 <? sm_Lifetime m then Manager_now ck + sm_Lifetime m else rs_ExpiresAt state in
  mkReauthState (rs_Identity state) (rs_Counter state) (rs_CounterOK state) (rs_Keys state) (rs_NextPseudonym state) expires realm
    (rs_Reauthenticated state) (rs_CounterTooSmall state) (rs_LastAcceptedCounter state) (rs_LastRejectedCounter state).
(** [ck] is the clock when the lifetime is added, [ck'] when the state is checked. *)
Definition Save (m : EAPReauthenticationStateManager) (ck ck' : Clock) (state : EAPReauthenticationState) (store : option St) : option St * result unit :=
  on_store m store (fun st key =>
    let state := state_to_save m ck state in
    if negb (AnyUsableAt (ck_time_Now ck') state (Manager_now ck')) then (st, Errorf ErrInvalidEAPReauthenticationState) else
    SaveEAPReauthentication st key (Snapshot state)).
Definition Delete (m : EAPReauthenticationStateManager) (store : option St) : option St * result unit :=
  on_store m store DeleteEAPReauthentication.
End manager.
End state.

(** ** The store in memory; a nil pointer is [None]. *)
Abbreviation MemoryEAPReauthenticationStore := (option (gmap bytes EAPReauthenticationSnapshot)).
Definition NewMemoryEAPReauthenticationStore : MemoryEAPReauthenticationStore := Some ∅.
Definition Memory_Load (s : MemoryEAPReauthenticationStore) (key : bytes) : MemoryEAPReauthenticationStore * result (option EAPReauthenticationSnapshot) :=
  match s with
  | None => (s, Errorf ErrInvalidEAPReauthenticationState)
  | Some snapshots =>
      let key := TrimSpace key in
      if len key =? 0 then (s, Errorf ErrInvalidEAPReauthenticationState) else (s, Ok (Snapshot_clone <$> snapshots !! key))
  end.
Definition Memory_Save (s : MemoryEAPReauthenticationStore) (key : bytes) (snapshot : EAPReauthenticationSnapshot) : MemoryEAPReauthenticationStore * result unit :=
  match s with
  | None => (s, Errorf ErrInvalidEAPReauthenticationState)
  | Some snapshots =>
      let key := TrimSpace key in
      if len key =? 0 then (s, Errorf ErrInvalidEAPReauthenticationState) else (Some (<[key := Snapshot_clone snapshot]> snapshots), Ok tt)
  end.
Definition Memory_Delete (s : MemoryEAPReauthenticationStore) (key : bytes) : MemoryEAPReauthenticationStore * result unit :=
  match s with
  | None => (s, Errorf ErrInvalidEAPReauthenticationState)
  | Some snapshots =>
      let key := TrimSpace key in
      if len key =? 0 then (s, Errorf ErrInvalidEAPReauthenticationState) else (Some (delete key snapshots), Ok tt)
  end.
#[export] Instance memory_store : EAPReauthenticationStore MemoryEAPReauthenticationStore :=
  {| LoadEAPReauthentication := Memory_Load; SaveEAPReauthentication := Memory_Save; DeleteEAPReauthentication := Memory_Delete |}.

(** ** Its use by the tunnel manager (engine/swu/ike_tunnel_manager.go) *)
Section tunnel.
Context {C : Crypto} {U : UnicodeCase} (rand_Reader : Source).

Definition reauthenticationNow (startedAt clock : Time) : Time := if negb (IsZero startedAt) then startedAt else clock.
Definition reauthenticationExpiresAt (lifetime : Duration) (clock : Time) : Time := if lifetime <=? 0 then 0 else clock + lifetime.
(** The new state of the manager. *)
Definition updateReauthenticationState (state : EAPReauthenticationState) (lifetime : Duration) (clock : Time) (auth : FullAuthResult)
    (operatorRealm : bytes) : EAPReauthenticationState :=
  if (len (ks_KAut (fr_EAPKeys auth)) =? 0) || (len (ks_KEncr (fr_EAPKeys auth)) =? 0) then state else
  let '(next, ok) := ApplyUpdate state
    (mkReauthUpdate (fr_EAPNextReauthID auth) (fr_EAPNextPseudonym auth) (fr_EAPKeys auth) (fr_EAPReauthenticated auth)
      (fr_EAPReauthCounterTooSmall auth) (fr_EAPReauthCounter auth) (reauthenticationExpiresAt lifetime clock) operatorRealm) in
  if negb ok then state else next.
(** The fields of the IKE_AUTH configuration that come from the state. *)
Definition with_reauth (cfg : FullAuthConfig) (reauth : EAPReauthenticationState) : FullAuthConfig :=
  mkFullConfig (fc_Transport cfg) (fc_Init cfg) (fc_Keys cfg) (fc_SIM cfg) (rs_Keys reauth) (fc_InitiatorID cfg) (fc_EAPIdentity cfg)
    (rs_NextPseudonym reauth) (rs_Identity reauth) (rs_Counter reauth) (rs_CounterOK reauth) (fc_ChildSA cfg) (fc_ChildSPI cfg)
    (fc_TSi cfg) (fc_TSr cfg) (fc_Configuration cfg) (fc_Random cfg) (fc_InitialIV cfg) (fc_EAPIdentityIV cfg) (fc_EAPReauthIV cfg)
    (fc_InitialMessageID cfg).
(** IKE_AUTH in [EstablishTunnel]: [cfg] has the fields that do not come from the state. *)
Definition tunnel_auth (state : EAPReauthenticationState) (lifetime : Duration) (cfg : FullAuthConfig) (startedAt : Time) (operatorRealm : bytes)
    (clock clock' : Time) : M (FullAuthResult * ChildSAResult * EAPReauthenticationState) :=
  let reauth := authStateAt clock state (reauthenticationNow startedAt clock) operatorRealm in
  let* auth := RunIKE_AUTH_Full rand_Reader (with_reauth cfg reauth) in
  match fr_ChildSA auth with
  | None => mfail ErrTunnelNotReady
  | Some child => mret (auth, child, updateReauthenticationState state lifetime clock' auth operatorRealm)
  end.
End tunnel.

(** ** States the code makes *)
Section normal.
Context {U : UnicodeCase}.
Definition state_ok (s : EAPReauthenticationState) : Prop :=
  TrimSpace (rs_Identity s) = rs_Identity s /\ TrimSpace (rs_NextPseudonym s) = rs_NextPseudonym s /\
  normalizeEAPOperatorRealm (rs_OperatorRealm s) = rs_OperatorRealm s.
Definition ascii_name (realm : bytes) : Prop := Forall (fun b => visible b = true) realm.
Definition lower_ascii (b : Z) : Z := if (65 <=? b) && (b <=? 90) then b + 32 else b.

Lemma keys_cloned k : cloneEAPAKAKeys k = k.
Proof. by destruct k. Qed.
Lemma keys_snapshot k : KeySnapshot_keys (snapshotEAPAKAKeys k) = k.
Proof. by destruct k. Qed.
Lemma snapshot_cloned s : Snapshot_clone s = s.
Proof. by destruct s as [????????????]; destruct sn_Keys0. Qed.
Lemma state_cloned s : state_ok s -> State_clone s = s.
Proof. intros (H1 & H2 & H3). unfold State_clone. rewrite keys_cloned, H1, H2, H3. by destruct s. Qed.

Lemma visible_lower b : visible b = true -> visible (lower_ascii b) = true /\ lower_ascii (lower_ascii b) = lower_ascii b /\ 0 <= b < 0x80.
Proof. unfold visible, lower_ascii. intros H. repeat case_match; lia. Qed.
Lemma normalize_ascii realm : ascii_name realm -> normalizeEAPOperatorRealm realm = lower_ascii <$> realm.
Proof.
  intros H. unfold normalizeEAPOperatorRealm, strings_ToLower. rewrite TrimSpace_visible by done.
  assert (Ha : Forall (fun b => 0 <= b < 0x80) realm) by (eapply Forall_impl; [exact H|]; intros b Hb; by apply visible_lower).
  rewrite runes_of_ascii by done.
  assert (E : lower_case_rune <$> realm = lower_ascii <$> realm).
  { apply list_fmap_ext. intros i b Hi. eapply Forall_lookup_1 in Ha; [|exact Hi]. unfold lower_case_rune. by replace (b <? 0x80) with true by lia. }
  rewrite E. apply string_of_ascii, Forall_fmap. eapply Forall_impl; [exact H|]. intros b Hb. cbv beta in *. apply visible_lower in Hb as (Hb & _). by apply (visible_lower _ Hb).
Qed.
Lemma normalize_normal realm : ascii_name realm ->
  ascii_name (normalizeEAPOperatorRealm realm) /\ normalizeEAPOperatorRealm (normalizeEAPOperatorRealm realm) = normalizeEAPOperatorRealm realm.
Proof.
  intros H. rewrite normalize_ascii by done.
  assert (Hl : ascii_name (lower_ascii <$> realm)) by (apply Forall_fmap; eapply Forall_impl; [exact H|]; intros b Hb; by apply visible_lower).
  split; [done|]. rewrite normalize_ascii by done. rewrite <- list_fmap_compose. apply list_fmap_ext. intros i b Hi. eapply Forall_lookup_1 in H; [|exact Hi]. by apply visible_lower.
Qed.
Lemma state_clone_ok s : ascii_name (rs_OperatorRealm s) -> state_ok (State_clone s).
Proof. intros H. split_and!; cbn [State_clone rs_Identity rs_NextPseudonym rs_OperatorRealm]; [apply TrimSpace_idem..|by apply normalize_normal]. Qed.
End normal.

Lemma snapshot_roundtrip `{UnicodeCase} s : state_ok s -> Snapshot_State (Snapshot s) = Ok s.
Proof.
  intros Hs. pose proof Hs as (H1 & H2 & H3). unfold Snapshot. rewrite state_cloned by done. unfold Snapshot_State.
  cbn [sn_Version sn_ReauthIdentity sn_Pseudonym sn_Expiry sn_OperatorRealm sn_Counter sn_CounterOK sn_Keys sn_Reauthenticated sn_CounterTooSmall sn_LastAcceptedCounter sn_LastRejectedCounter].
  change (negb (EAPReauthenticationSnapshotVersion =? 0) && negb (EAPReauthenticationSnapshotVersion =? EAPReauthenticationSnapshotVersion)) with false. cbv iota.
  rewrite keys_snapshot, H1, H2, H3. f_equal. by rewrite state_cloned; destruct s.
Qed.

(** ** The manager refines a map of states *)
Class StoreLaws (St : Type) `{!EAPReauthenticationStore St} := {
  store_ok : St -> Prop;
  contents : St -> gmap bytes EAPReauthenticationSnapshot;
  load_law st key : store_ok st -> TrimSpace key = key -> key <> [] -> LoadEAPReauthentication st key = (st, Ok (contents st !! key));
  save_law st key sn : store_ok st -> TrimSpace key = key -> key <> [] ->
    exists st', SaveEAPReauthentication st key sn = (st', Ok tt) /\ store_ok st' /\ contents st' = <[key := sn]> (contents st);
  delete_law st key : store_ok st -> TrimSpace key = key -> key <> [] ->
    exists st', DeleteEAPReauthentication st key = (st', Ok tt) /\ store_ok st' /\ contents st' = delete key (contents st)
}.
Lemma nonempty_len (l : bytes) : l <> [] -> (len l =? 0) = false.
Proof. destruct l; [done|]. intros _. len_lia. Qed.
#[export] Instance memory_store_laws : StoreLaws MemoryEAPReauthenticationStore.
Proof.
  refine {| store_ok := fun s => s <> None; contents := fun s => default ∅ s |}; intros [m|] key; try done.
  - intros _ Hk Hn. cbn. unfold Memory_Load. rewrite Hk, nonempty_len by done. f_equal. f_equal. destruct (m !! key) as [sn|]; cbn; [|done]. by rewrite snapshot_cloned.
  - intros sn _ Hk Hn. cbn. unfold Memory_Save. rewrite Hk, nonempty_len by done. eexists. split_and!; [done|done|]. cbn. by rewrite snapshot_cloned.
  - intros _ Hk Hn. cbn. unfold Memory_Delete. rewrite Hk, nonempty_len by done. by eexists.
Defined.

Section refinement.
Context {U : UnicodeCase} {St : Type} `{!EAPReauthenticationStore St, !StoreLaws St}.
Implicit Types (A : gmap bytes EAPReauthenticationState) (m : EAPReauthenticationStateManager).
(** The abstract store: states by key. *)
Definition represents (st : St) A : Prop :=
  store_ok st /\ contents st = Snapshot <$> A /\ map_Forall (fun _ s => state_ok s) A.
Definition spec_load m (ck : Clock) A : option EAPReauthenticationState :=
  match A !! TrimSpace (sm_Key m) with
  | Some s => if MatchesOperatorRealm s (sm_OperatorRealm m) && AnyUsableAt (ck_time_Now ck) s (Manager_now ck) then Some s else None
  | None => None
  end.
Definition spec_save m (ck ck' : Clock) (s : EAPReauthenticationState) A : gmap bytes EAPReauthenticationState * result unit :=
  let s := state_to_save m ck s in
  if AnyUsableAt (ck_time_Now ck') s (Manager_now ck') then (<[TrimSpace (sm_Key m) := s]> A, Ok tt)
  else (A, Errorf ErrInvalidEAPReauthenticationState).

Lemma store_and_key m (st : St) : TrimSpace (sm_Key m) <> [] -> storeAndKey m (Some st) = Ok (st, TrimSpace (sm_Key m)).
Proof. intros H. unfold storeAndKey. cbv zeta. by rewrite nonempty_len. Qed.
Lemma state_to_save_ok m ck s : ascii_name (rs_OperatorRealm s) -> ascii_name (sm_OperatorRealm m) -> state_ok (state_to_save m ck s).
Proof.
  intros Hs Hm. destruct (state_clone_ok s Hs) as (H1 & H2 & H3). unfold state_to_save. cbv zeta. split_and!; cbn [rs_Identity rs_NextPseudonym rs_OperatorRealm]; [done..|].
  case_match; [by apply normalize_normal|done].
Qed.
Lemma load_refines m ck st A : represents st A -> TrimSpace (sm_Key m) <> [] -> Load m ck (Some st) = (Some st, Ok (spec_load m ck A)).
Proof.
  intros (Hok & Hc & HA) Hk. unfold Load, on_store. rewrite store_and_key by done. rewrite load_law by (try done; apply TrimSpace_idem). cbv beta iota zeta.
  rewrite Hc, lookup_fmap. unfold spec_load. destruct (A !! TrimSpace (sm_Key m)) as [s|] eqn:E; [|done]. apply HA in E. cbn [fmap option_fmap option_map bind].
  rewrite snapshot_roundtrip by done. cbn [bind]. rewrite <- negb_andb. destruct (MatchesOperatorRealm _ _ && _); [|done]. cbn [negb]. by rewrite state_cloned.
Qed.
Lemma save_refines m ck ck' s st A : represents st A -> TrimSpace (sm_Key m) <> [] -> ascii_name (rs_OperatorRealm s) -> ascii_name (sm_OperatorRealm m) ->
  exists st', Save m ck ck' s (Some st) = (Some st', (spec_save m ck ck' s A).2) /\ represents st' (spec_save m ck ck' s A).1.
Proof.
  intros (Hok & Hc & HA) Hk Hs Hm. unfold Save, on_store, spec_save. rewrite store_and_key by done. cbv beta iota zeta.
  destruct (AnyUsableAt _ _ _) eqn:Hu; cbn [negb fst snd]; [|exists st; by split_and!].
  destruct (save_law st (TrimSpace (sm_Key m)) (Snapshot (state_to_save m ck s)) Hok (TrimSpace_idem _) Hk) as (st' & E & Hok' & Hc'). exists st'. rewrite E. split; [done|]. split; [done|]. split.
  - by rewrite Hc', Hc, fmap_insert.
  - apply map_Forall_insert_2; [by apply state_to_save_ok|done].
Qed.
Lemma delete_refines m st A : represents st A -> TrimSpace (sm_Key m) <> [] ->
  exists st', Delete m (Some st) = (Some st', Ok tt) /\ represents st' (delete (TrimSpace (sm_Key m)) A).
Proof.
  intros (Hok & Hc & HA) Hk. unfold Delete, on_store. rewrite store_and_key by done.
  destruct (delete_law st (TrimSpace (sm_Key m)) Hok (TrimSpace_idem _) Hk) as (st' & E & Hok' & Hc'). exists st'. rewrite E. split; [done|]. split; [done|]. split.
  - by rewrite Hc', Hc, fmap_delete.
  - by apply map_Forall_delete.
Qed.

(** Histories of the stores, seen through any number of managers. *)
Inductive store_op :=
| OpSave (m : EAPReauthenticationStateManager) (ck ck' : Clock) (s : EAPReauthenticationState)
| OpDelete (m : EAPReauthenticationStateManager).
Definition op_ok (o : store_op) : Prop :=
  match o with
  | OpSave m _ _ s => TrimSpace (sm_Key m) <> [] /\ ascii_name (rs_OperatorRealm s) /\ ascii_name (sm_OperatorRealm m)
  | OpDelete m => TrimSpace (sm_Key m) <> []
  end.
Definition run_op (store : option St) (o : store_op) : option St :=
  match o with OpSave m ck ck' s => (Save m ck ck' s store).1 | OpDelete m => (Delete m store).1 end.
Definition spec_op A (o : store_op) : gmap bytes EAPReauthenticationState :=
  match o with OpSave m ck ck' s => (spec_save m ck ck' s A).1 | OpDelete m => delete (TrimSpace (sm_Key m)) A end.
(** Over any store that keeps its laws, and any history of saves and deletes by
    managers with their own keys, realms and clocks, a manager loads what the map
    of the history holds under its key: the state last saved there and not deleted,
    completed as [Save] completes it, as long as it is of the manager's realm and
    usable at that time, and nothing otherwise. *)
Theorem manager_refines_map (history : list store_op) (m : EAPReauthenticationStateManager) (ck : Clock) (st : St) A :
  represents st A -> Forall op_ok history -> TrimSpace (sm_Key m) <> [] ->
  (Load m ck (foldl run_op (Some st) history)).2 = Ok (spec_load m ck (foldl spec_op A history)).
Proof.
  intros Hst Hh Hk. revert st A Hst. induction Hh as [|o history Ho Hh IH]; intros st A Hst; cbn [foldl]; [by rewrite (load_refines m ck st A)|].
  destruct o as [m' ck1 ck2 s|m']; cbn [op_ok run_op spec_op] in *.
  - destruct Ho as (H1 & H2 & H3). destruct (save_refines m' ck1 ck2 s st A Hst H1 H2 H3) as (st' & -> & Hst'). by apply IH.
  - destruct (delete_refines m' st A Hst Ho) as (st' & -> & Hst'). by apply IH.
Qed.
End refinement.

(** ** Counters

    Keys that a challenge leaves: with K_aut there is K_encr. *)
Definition keys_fine (k : EapKeys.Keys) : Prop := 0 < len (ks_KAut k) -> 0 < len (ks_KEncr k).
Lemma yields_slice (l : bytes) i j : yields (slice l i j) (fun s => len s = j - i).
Proof.
  intros s E. unfold slice in E. destruct ((0 <=? i) && (i <=? j) && (j <=? len l)) eqn:H; [|discriminate E]. injection E as <-. apply sub_len; lia.
Qed.

Section keys.
Context {C : Crypto}.
Lemma derived_fine identity aka : yields (DeriveKeys identity aka) keys_fine.
Proof.
  unfold DeriveKeys. apply yields_then; intros _. cbv zeta. apply yields_then; intros stream. eapply yields_bind; [apply yields_slice|]. intros kEncr He.
  do 3 (apply yields_then; intros ?). apply yields_Ok. intros _. cbn [ks_KEncr]. rewrite He. by_decide.
Qed.
Lemma derived_prime_fine identity name autn aka : yields (DeriveAKAPrimeKeys identity name autn aka) keys_fine.
Proof.
  unfold DeriveAKAPrimeKeys. do 3 (case_match; [done|]). apply yields_then; intros _. case_match; [done|]. do 3 (apply yields_then; intros ?). cbv zeta.
  apply yields_then; intros stream. eapply yields_bind; [apply yields_slice|]. intros kEncr He. do 4 (apply yields_then; intros ?).
  apply yields_Ok. intros _. cbn [ks_KEncr]. rewrite He. by_decide.
Qed.
Lemma reauth_fine identity previous counter nonce : yields (DeriveReauthenticationKeys identity previous counter nonce) keys_fine.
Proof.
  unfold DeriveReauthenticationKeys. case_match; [done|]. destruct (Z.eqb_spec (len (ks_KEncr previous)) KeyLengthKEncr) as [He|]; [|done]. cbn [negb].
  assert (Hr : forall mk stream, yields (reauthenticationKeys previous mk stream) keys_fine).
  { intros mk stream. unfold reauthenticationKeys. do 2 (apply yields_then; intros ?). apply yields_Ok. intros _. cbn [ks_KEncr]. rewrite He. by_decide. }
  case_match; [done|]. cbv zeta. case_match.
  - do 2 (case_match; [done|]). apply yields_then; intros stream. apply Hr.
  - do 2 (case_match; [done|]). apply yields_then; intros stream. apply Hr.
Qed.
Lemma challenge_keys_fine identity request aka packets : yields (BuildChallengeResponseWithCheckcode identity request aka packets) (fun r => keys_fine r.2).
Proof.
  unfold BuildChallengeResponseWithCheckcode. do 2 (case_match; [done|]). apply yields_then; intros _.
  eapply (yields_bind _ _ (fun r => keys_fine r.1)).
  { unfold deriveChallengeKeys. case_match.
    - eapply yields_bind; [apply derived_fine|]. intros k Hk. by apply yields_Ok.
    - case_match; [|done]. apply yields_then; intros kdf. case_match; [done|]. do 2 (apply yields_then; intros ?).
      eapply yields_bind; [apply derived_prime_fine|]. intros k Hk. by apply yields_Ok. }
  intros [keys kdf] Hk. do 2 (apply yields_then; intros ?). case_match; [done|]. apply yields_then; intros ?. cbv zeta. do 2 (apply yields_then; intros ?). by apply yields_Ok.
Qed.
Lemma provider_keys_fine identity request sim packets :
  yields (BuildChallengeResponseFromProvider identity request sim packets) (fun r => keys_fine (EapChallenge.cr_Keys r)).
Proof.
  unfold BuildChallengeResponseFromProvider. apply yields_then; intros [rand autn]. destruct (sim rand autn) as [aka [err|]].
  - destruct (BuildAKAFailureResponse _ _ _) as [handled response]. apply yields_then; intros r. case_match; [done|]. cbv zeta. by apply yields_Ok.
  - cbv zeta. case_match; [done|]. pose proof (challenge_keys_fine (TrimSpace identity) request aka packets) as Hc.
    destruct (BuildChallengeResponseWithCheckcode _ _ _ _) as [[response keys]|err| |]; try done.
    + apply yields_Ok. exact (Hc _ eq_refl).
    + case_match; [|done]. apply yields_then; intros r. by apply yields_Ok.
Qed.
Lemma reauth_response_fine identity request keys iv : yields (BuildReauthenticationResponse identity request keys iv) (fun r => keys_fine r.2).
Proof.
  unfold BuildReauthenticationResponse, buildReauthenticationResponse. apply yields_then; intros parsed. eapply yields_bind; [apply reauth_fine|].
  intros k Hk. apply yields_then; intros response. by apply yields_Ok.
Qed.
End keys.

Section counters.
Context {C : Crypto} (rand_Reader : Source).
(** What an answer says of the counter of a re-authentication. *)
Definition counter_checked (known : bool) (last : Z) (tooSmall reauthenticated : bool) (counter : Z) : Prop :=
  tooSmall = false -> known = true -> if reauthenticated then last < counter else counter = 0.

Lemma answer_counter cfg : keys_fine (ak_EAPKeys cfg) -> gives (answer_request rand_Reader cfg) (fun an =>
  counter_checked (ak_EAPReauthCounterOK cfg) (ak_EAPReauthCounter cfg) (an_reauthCounterTooSmall an) (an_reauthenticated an) (an_reauthCounter an) /\
  keys_fine (an_eapKeys an) /\ (an_reauthenticated an = true -> 0 < len (ks_KAut (ak_EAPKeys cfg)))).
Proof.
  intros Hfine. unfold answer_request. destruct (_ && (0 <? _)) eqn:Hguard.
  - unfold answer_reauthentication. apply gives_then; intros parsed. apply gives_then; intros iv. cbv zeta.
    destruct (ak_EAPReauthCounterOK cfg && _) eqn:E.
    + apply gives_then; intros r. by apply gives_ret.
    + case_match; [apply gives_fail|]. eapply gives_bind; [apply gives_lift, reauth_response_fine|]. intros r Hr. apply gives_ret. split_and!; [|done|intros _; lia].
      intros _ Hk. cbn [an_reauthenticated an_reauthCounter]. rewrite Hk in E. cbn [andb] in E. lia.
  - destruct (buildAKAControlResponse _ _) as [handled r]. apply gives_then; intros response. destruct handled; [by apply gives_ret|].
    apply gives_then; intros [n|]; [by apply gives_ret|]. unfold answer_challenge. destruct (ak_SIM cfg); [|apply gives_fail].
    apply gives_then; intros calculate. eapply (gives_bind _ _ (fun r => keys_fine (EapChallenge.cr_Keys r))).
    { apply gives_lift. intros cres E. pose proof (provider_keys_fine (ak_Identity cfg) (ak_Request cfg) calculate (ak_IdentityTranscript cfg)) as Hp.
      destruct (BuildChallengeResponseFromProvider _ _ _ _); try discriminate E. injection E as <-. by apply Hp. }
    intros challenge Hc. cbv zeta. case_match; [|by apply gives_ret].
    apply gives_then; intros attrs. case_match; [apply gives_then; intros st|]; by apply gives_ret.
Qed.
Definition challenge_result_ok (known : bool) (last : Z) (c : AKAChallengeResult) : Prop :=
  counter_checked known last (ac_EAPReauthCounterTooSmall c) (ac_EAPReauthenticated c) (ac_EAPReauthCounter c) /\
  keys_fine (ac_EAPKeys c) /\ (ac_EAPReauthenticated c = true -> 0 < len (ks_KAut (ac_EAPKeys c))).
Lemma challenge_counter cfg sa tsi tsr : keys_fine (ak_EAPKeys cfg) ->
  gives (runIKE_AUTH_AKAChallenge rand_Reader cfg sa tsi tsr) (challenge_result_ok (ak_EAPReauthCounterOK cfg) (ak_EAPReauthCounter cfg)).
Proof.
  intros Hfine. unfold runIKE_AUTH_AKAChallenge. destruct (ak_Transport cfg); [|apply gives_fail]. cbv zeta. apply gives_then; intros _. case_match; [apply gives_fail|].
  eapply gives_bind; [by apply answer_counter|]. intros an (Han & Hk & Hr). do 2 (apply gives_then; intros ?). apply gives_then; intros [[req resp] inner].
  apply gives_then; intros f. do 2 (apply gives_then; intros ?). apply gives_ret. split; [exact Han|]. cbn [ac_EAPKeys ac_EAPReauthenticated].
  destruct (Z.eqb_spec (len (ks_KAut (an_eapKeys an))) 0) as [E|E]; [by split|]. split; [done|]. intros _. pose proof (len_nonneg (ks_KAut (an_eapKeys an))). lia.
Qed.

Section loop.
Context (cfg : FullAuthConfig) (Hknown : fc_EAPReauthCounterOK cfg = true) (Hlast : 0 <= fc_EAPReauthCounter cfg).
Definition counter_grew (out : FullAuthResult) : Prop :=
  (fr_EAPReauthCounterTooSmall out = false -> fr_EAPReauthenticated out = true -> fc_EAPReauthCounter cfg < fr_EAPReauthCounter out) /\
  keys_fine (fr_EAPKeys out) /\ (fr_EAPReauthenticated out = true -> 0 < len (ks_KAut (fr_EAPKeys out))).
Lemma counter_grew_challenge out c : counter_grew out ->
  challenge_result_ok (fc_EAPReauthCounterOK cfg) (fc_EAPReauthCounter cfg) c -> counter_grew (fr_with_challenge out c).
Proof.
  unfold counter_grew, challenge_result_ok, counter_checked. cbn [fr_with_challenge fr_EAPReauthCounterTooSmall fr_EAPReauthenticated fr_EAPReauthCounter fr_EAPKeys].
  intros (Hout & Hk & Hn) (Hc & Hck & Hcn). split; [|split].
  - intros [Ho Hs]%orb_false_iff Hr. specialize (Hc Hs Hknown). destruct (ac_EAPReauthenticated c).
    + by replace (ac_EAPReauthCounter c =? 0) with false by lia.
    + rewrite Hc. cbn [Z.eqb negb]. rewrite orb_false_r in Hr. by apply Hout.
  - by destruct (0 <? len (ks_KAut (ac_EAPKeys c))).
  - intros Hr. destruct (0 <? len (ks_KAut (ac_EAPKeys c))) eqn:E; [lia|]. destruct (ac_EAPReauthenticated c); [specialize (Hcn eq_refl); lia|].
    apply Hn. by rewrite orb_false_r in Hr.
Qed.
Lemma loop_counter n peer fx identity current transcript next out :
  counter_grew out -> gives (full_auth_loop rand_Reader n peer cfg fx identity current transcript next out) counter_grew.
Proof.
  revert current transcript next out. induction n as [|n IH]; intros current transcript next out Hout; cbn [full_auth_loop]; [apply gives_fail|].
  destruct next as [next|]; [|apply gives_fail]. cbv zeta. case_match.
  { apply gives_then; intros [child|]; [by apply gives_ret|]. apply gives_then; intros [[child b] inner]. by apply gives_ret. }
  do 2 (case_match; [apply gives_fail|]). case_match.
  - apply gives_then; intros raw. apply gives_then; intros x. apply gives_then; intros [child|]; [by apply gives_ret|]. by apply IH.
  - eapply gives_bind; [apply challenge_counter; apply Hout|]. intros c Hc. cbn [ak_EAPReauthCounterOK ak_EAPReauthCounter] in Hc.
    assert (Hg : counter_grew (fr_with_challenge (fr_with_last out (Some next)) c)) by by apply counter_grew_challenge.
    case_match; [|by apply IH]. apply gives_ret. by case_match.
Qed.
Lemma full_counter : keys_fine (fc_EAPKeys cfg) -> gives (RunIKE_AUTH_Full rand_Reader cfg) counter_grew.
Proof.
  intros Hfine. unfold RunIKE_AUTH_Full. apply gives_then; intros spi. apply gives_then; intros auth. destruct (authFinalResponse auth) as [inner b]. cbv zeta.
  assert (H0 : counter_grew (mkFullResult auth [] [] None (fc_EAPKeys cfg) None [] false [] [] false 0 false false false 0 (ar_NextMessageID auth) b inner)) by by split_and!.
  apply gives_then; intros sa. apply gives_then; intros [child|]; [by apply gives_ret|]. destruct (fc_Transport cfg) as [peer|]; [|apply gives_fail].
  by apply loop_counter.
Qed.
End loop.
End counters.

Section results.
Context {C : Crypto} {U : UnicodeCase}.
Lemma auth_state_fine clock s now realm : keys_fine (rs_Keys (authStateAt clock s now realm)).
Proof.
  unfold authStateAt. cbv zeta. case_match; [by intros ?|]. destruct (negb (ReauthenticationUsableAt clock (State_clone s) now)) eqn:Hu; cbn [rs_Identity rs_NextPseudonym]; (case_match; [by intros ?|]).
  - by intros ?.
  - unfold State_clone at 1. cbn [rs_Keys]. rewrite keys_cloned. intros _. unfold ReauthenticationUsableAt in Hu. lia.
Qed.
(** A counter that is known is that of the state, which has an identity. *)
Lemma auth_state_known clock s now realm : rs_CounterOK (authStateAt clock s now realm) = true ->
  rs_Counter (authStateAt clock s now realm) = rs_Counter s /\ TrimSpace (rs_Identity s) <> [].
Proof.
  unfold authStateAt. cbv zeta. case_match; [done|]. destruct (negb (ReauthenticationUsableAt clock (State_clone s) now)) eqn:Hu; cbn [rs_Identity rs_NextPseudonym]; (case_match; [done|]); [done|].
  intros _. split; [done|]. intros E. unfold ReauthenticationUsableAt in Hu. cbn [State_clone rs_Identity] in Hu. rewrite E in Hu. change (len (TrimSpace []) =? 0) with true in Hu. cbn [negb] in Hu. rewrite andb_false_r in Hu. done.
Qed.
Lemma ApplyUpdate_reauthenticated s u : 0 < len (ks_KAut (ru_Keys u)) -> 0 < len (ks_KEncr (ru_Keys u)) -> TrimSpace (rs_Identity s) <> [] -> ru_Reauthenticated u = true ->
  exists s', ApplyUpdate s u = (s', true) /\ rs_Counter s' = ru_Counter u /\ rs_CounterOK s' = true /\ rs_LastAcceptedCounter s' = ru_Counter u /\ rs_Keys s' = ru_Keys u.
Proof.
  intros Ha He Hid Hr. unfold ApplyUpdate. replace ((len (ks_KAut (ru_Keys u)) =? 0) || (len (ks_KEncr (ru_Keys u)) =? 0)) with false by lia. cbv zeta.
  set (identity := if negb (len (TrimSpace (ru_NextReauthID u)) =? 0) then _ else _).
  assert (Hi : (len (TrimSpace identity) =? 0) = false).
  { subst identity. destruct (len (TrimSpace (ru_NextReauthID u)) =? 0) eqn:E; cbn [negb State_clone rs_Identity]; rewrite TrimSpace_idem; [by apply nonempty_len|done]. }
  rewrite Hi, Hr. cbn [andb]. eexists. split; [reflexivity|]. unfold State_clone. cbn [rs_Counter rs_CounterOK rs_LastAcceptedCounter rs_Keys]. by rewrite !keys_cloned.
Qed.
End results.

(** C17: Re-authentication counters only grow: when a tunnel is set up from a state
    whose counter is known, and the server re-authenticated the client without an
    earlier counter refused in the same run, the counter the state then holds is
    the one accepted, above the one it held before, and the keys are those of this
    authentication; whatever the server and the SIM answered. *)
Theorem reauthentication_counter_grows (C : Crypto) (U : UnicodeCase) (rand_Reader : Source) state lifetime cfg startedAt realm clock clock' w auth child state' w' :
  tunnel_auth rand_Reader state lifetime cfg startedAt realm clock clock' w = Ok ((auth, child, state'), w') ->
  rs_CounterOK (authStateAt clock state (reauthenticationNow startedAt clock) realm) = true -> 0 <= rs_Counter state ->
  fr_EAPReauthenticated auth = true -> fr_EAPReauthCounterTooSmall auth = false ->
  rs_Counter state < rs_Counter state' /\ rs_CounterOK state' = true /\ rs_Counter state' = fr_EAPReauthCounter auth /\
  rs_LastAcceptedCounter state' = rs_Counter state' /\ rs_Keys state' = fr_EAPKeys auth.
Proof.
  intros E Hok Hc Hr Hs. set (reauth := authStateAt _ _ _ _) in *. destruct (auth_state_known _ _ _ _ Hok) as [Hcounter Hid]. fold reauth in Hcounter.
  unfold tunnel_auth in E. fold reauth in E. cbv zeta in E. unfold mbind in E. destruct (RunIKE_AUTH_Full _ _ w) as [[auth1 w1]| | |] eqn:Erun; try discriminate E. cbn [bind fst snd] in E.
  destruct (fr_ChildSA auth1) as [child1|]; [|discriminate E]. injection E as -> -> E' _.
  assert (Hg : counter_grew (with_reauth cfg reauth) auth).
  { eapply (full_counter rand_Reader (with_reauth cfg reauth)); [exact Hok|cbn; lia|apply auth_state_fine|exact Erun]. }
  destruct Hg as (Hgrew & Hfine & Hkeys). specialize (Hgrew Hs Hr). specialize (Hkeys Hr). specialize (Hfine Hkeys). cbn [with_reauth fc_EAPReauthCounter] in Hgrew.
  unfold updateReauthenticationState in E'. replace (_ || _) with false in E' by lia.
  set (update := mkReauthUpdate _ _ _ _ _ _ _ _) in E'. destruct (ApplyUpdate_reauthenticated state update Hkeys Hfine Hid Hr) as (s' & Eu & H1 & H2 & H3 & H4).
  rewrite Eu in E'. cbn [negb] in E'. subst s'. cbn [update ru_Counter ru_Keys] in H1, H3, H4. rewrite H1, H3. split_and!; [lia|done..].
Qed.

(** A state with the keys and the counter 5, and a server that asks for counter 7. *)
#[local] Instance ascii_case : UnicodeCase := {| unicode_ToUpper r := r; unicode_ToLower r := r |}.
Definition sample_state : EAPReauthenticationState := mkReauthState [52; 64; 97] 5 true EapKeys.sample_keys [] 0 [97] true false 5 0.
Definition sample_reauth_raw : bytes := match Packet_MarshalBinary sample_reauth_request with Ok b => b | _ => [] end.
Definition sample_reauth_peer : Peer := fun log _ =>
  Ok (match log with [] => sample_answer_of 1 [sample_idr; EAPPayload sample_reauth_raw] | _ => sample_answer_of 2 sample_child_payloads end).
Definition sample_run := tunnel_auth (C := toy_crypto) zero_source sample_state 0 (sample_full sample_reauth_peer []) 100 [97] 100 101 world0.
Lemma sample_run_flags : match sample_run with
  | Ok ((auth, child, s), _) => rs_Counter s = 7 /\ fr_EAPReauthenticated auth = true /\ fr_EAPReauthCounterTooSmall auth = false
  | _ => False end.
Proof. vm_compute. split_and!; reflexivity. Qed.
Lemma reauthentication_counter_grows_witness : exists auth child state' w', sample_run = Ok ((auth, child, state'), w') /\ rs_Counter sample_state < rs_Counter state'.
Proof.
  pose proof sample_run_flags as H. destruct sample_run as [[[[auth child] state'] w']| | |] eqn:E; [|destruct H..]. destruct H as (_ & Hr & Hs).
  exists auth, child, state', w'. split; [reflexivity|]. unfold sample_run in E.
  exact (proj1 (reauthentication_counter_grows _ _ zero_source sample_state 0 (sample_full sample_reauth_peer []) 100 [97] 100 101 world0 auth child state' w' E
    ltac:(vm_compute; reflexivity) ltac:(by_decide) Hr Hs)).
Defined.

(** After a refused counter the server authenticates in full, and its counter
    starts again at one: the state keeps the old one and refuses the next
    re-authentications. *)
Example counter_kept_after_full_authentication :
  let full := mkReauthUpdate [52; 65] [] EapKeys.sample_keys false true 3 0 [] in
  let next := (ApplyUpdate sample_state full).1 in
  rs_Identity next = [52; 65] /\ rs_Counter next = 5 /\ rs_CounterOK next = true.
Proof. vm_compute. split_and!; reflexivity. Qed.
(** A re-authentication that names no next identity leaves the one just used. *)
Example used_identity_kept :
  rs_Identity (ApplyUpdate sample_state (mkReauthUpdate [] [] EapKeys.sample_keys true false 7 0 [])).1 = rs_Identity sample_state.
Proof. reflexivity. Qed.

(** ** The invariant of the states *)
Section invariant.
Context {U : UnicodeCase}.
Inductive reachable : EAPReauthenticationState -> Prop :=
| reach_zero : reachable zeroReauthState
| reach_update s u : reachable s -> ascii_name (ru_OperatorRealm u) -> reachable (ApplyUpdate s u).1
| reach_stored m ck s s' : reachable s -> ascii_name (sm_OperatorRealm m) -> Snapshot_State (Snapshot (state_to_save m ck s)) = Ok s' -> reachable s'
| reach_auth clock s now realm : reachable s -> ascii_name realm -> reachable (authStateAt clock s now realm).
Definition reauth_inv (s : EAPReauthenticationState) : Prop :=
  state_ok s /\ ascii_name (rs_OperatorRealm s) /\
  (rs_Identity s = [] -> rs_CounterOK s = false /\ rs_Reauthenticated s = false /\ rs_CounterTooSmall s = false) /\
  (rs_Identity s <> [] -> 0 < len (ks_KAut (rs_Keys s)) /\ 0 < len (ks_KEncr (rs_Keys s))) /\
  (rs_CounterOK s = true -> rs_LastAcceptedCounter s = rs_Counter s).

Lemma zero_inv : reauth_inv zeroReauthState.
Proof. unfold reauth_inv, state_ok. split_and!; first [done|by constructor|vm_compute; reflexivity]. Qed.
Lemma ascii_trim_lower realm : ascii_name realm -> ascii_name (normalizeEAPOperatorRealm realm).
Proof. intros H. by apply normalize_normal. Qed.
Lemma update_inv s u : reauth_inv s -> ascii_name (ru_OperatorRealm u) -> reauth_inv (ApplyUpdate s u).1.
Proof.
  intros Hinv Hu. pose proof Hinv as (Hok & Hr & Hid & Hkeys & Hlast). unfold ApplyUpdate. rewrite state_cloned by done. cbv zeta.
  destruct (_ || _) eqn:Hk; [done|]. set (identity := if negb (len (TrimSpace (ru_NextReauthID u)) =? 0) then _ else _).
  set (pseudonym := if negb (len (TrimSpace (ru_NextPseudonym u)) =? 0) then _ else _). set (realm := if negb (len (normalizeEAPOperatorRealm (ru_OperatorRealm u)) =? 0) then _ else _).
  case_match; [done|]. cbn [fst]. destruct Hok as (H1 & H2 & H3).
  assert (Hi : TrimSpace identity = identity) by (subst identity; case_match; [apply TrimSpace_idem|done]).
  assert (Hp : TrimSpace pseudonym = pseudonym) by (subst pseudonym; case_match; [apply TrimSpace_idem|done]).
  assert (Hre : ascii_name realm /\ normalizeEAPOperatorRealm realm = realm) by (subst realm; case_match; [by apply normalize_normal|done]).
  assert (Hc : forall n, state_ok n -> State_clone n = n) by apply state_cloned. rewrite Hi in *.
  assert (Hpos : 0 < len (ks_KAut (ru_Keys u)) /\ 0 < len (ks_KEncr (ru_Keys u))) by (pose proof (len_nonneg (ks_KAut (ru_Keys u))); pose proof (len_nonneg (ks_KEncr (ru_Keys u))); lia).
  destruct (Z.eqb_spec (len identity) 0) as [E|E].
  - rewrite Hc by (split_and!; done || apply Hre). unfold reauth_inv, state_ok. cbn [rs_OperatorRealm rs_Identity rs_NextPseudonym rs_CounterOK rs_Counter rs_LastAcceptedCounter].
    assert (identity = []) by (by destruct identity; [|len_lia]). split_and!; done || apply Hre.
  - destruct (ru_Reauthenticated u) eqn:Hre2; [|destruct (ru_CounterTooSmall u) eqn:Hts]; rewrite Hc by (split_and!; done || apply Hre);
      unfold reauth_inv, state_ok; cbn [rs_OperatorRealm rs_Identity rs_NextPseudonym rs_CounterOK rs_LastAcceptedCounter rs_Counter rs_Keys]; rewrite keys_cloned;
      (split_and!; first [done | apply Hre | intros Hn; by rewrite Hn in E]).
Qed.
Lemma stored_inv m ck s s' : reauth_inv s -> ascii_name (sm_OperatorRealm m) -> Snapshot_State (Snapshot (state_to_save m ck s)) = Ok s' -> reauth_inv s'.
Proof.
  intros (Hok & Hr & Hid & Hkeys & Hlast) Hm. rewrite snapshot_roundtrip by by apply state_to_save_ok. intros [= <-]. split; [by apply state_to_save_ok|].
  unfold state_to_save. rewrite state_cloned by done. split_and!; try done. cbn [rs_OperatorRealm]. case_match; [by apply ascii_trim_lower|done].
Qed.
Lemma auth_inv clock s now realm : reauth_inv s -> ascii_name realm -> reauth_inv (authStateAt clock s now realm).
Proof.
  intros (Hok & Hr & Hid & Hkeys & Hlast) Hm. unfold authStateAt. rewrite state_cloned by done. cbv zeta. destruct (negb _ || _); [apply zero_inv|].
  destruct (normalize_normal realm Hm) as [Hn1 Hn2]. destruct Hok as (H1 & H2 & H3).
  set (realm' := if len (rs_OperatorRealm s) =? 0 then _ else _). assert (Hre : ascii_name realm' /\ normalizeEAPOperatorRealm realm' = realm') by (subst realm'; by case_match).
  set (pseudonym := if PseudonymUsableAt clock s now then _ else _). assert (Hp : TrimSpace pseudonym = pseudonym) by (subst pseudonym; by case_match).
  destruct (ReauthenticationUsableAt clock s now) eqn:Hu; cbn [negb rs_Identity rs_NextPseudonym]; (case_match; [apply zero_inv|]); rewrite state_cloned by (split_and!; done || apply Hre);
    unfold reauth_inv, state_ok; cbn [rs_OperatorRealm rs_Identity rs_NextPseudonym rs_CounterOK rs_LastAcceptedCounter rs_Counter rs_Keys];
    (split_and!; first [done | apply Hre]).
Qed.
(** Every state that the code makes, from the empty one by results of IKE_AUTH,
    through a store and by what it selects for a run, is normal (trimmed identities,
    a trimmed realm in lower case); without a re-authentication identity it claims
    no counter and no re-authentication, with one it has the keys to use it, and a
    known counter is the last one accepted. *)
Theorem reachable_state_ok (s : EAPReauthenticationState) : reachable s -> reauth_inv s.
Proof.
  induction 1; [apply zero_inv|by apply update_inv|by eapply stored_inv|by apply auth_inv].
Qed.
End invariant.
Lemma reachable_state_ok_witness : reauth_inv (ApplyUpdate zeroReauthState (mkReauthUpdate [32; 52; 65] [] EapKeys.sample_keys false false 0 0 [65])).1.
Proof. apply (reachable_state_ok _). apply reach_update; [apply reach_zero|by_decide]. Defined.

(** Two managers on one store in memory. *)
Definition sample_manager : EAPReauthenticationStateManager := mkManager [32; 107] [65] 60.
Definition sample_clock (t : Time) : Clock := mkClock (Some t) 1.
Lemma manager_refines_map_witness :
  (Load sample_manager (sample_clock 130) (foldl run_op (Some NewMemoryEAPReauthenticationStore)
     [OpSave sample_manager (sample_clock 100) (sample_clock 101) sample_state; OpDelete (mkManager [106] [] 0)])).2
  = Ok (spec_load sample_manager (sample_clock 130) (foldl spec_op ∅
     [OpSave sample_manager (sample_clock 100) (sample_clock 101) sample_state; OpDelete (mkManager [106] [] 0)])).
Proof.
  apply (manager_refines_map (St := MemoryEAPReauthenticationStore) _ sample_manager (sample_clock 130) NewMemoryEAPReauthenticationStore ∅); [by split_and!|repeat constructor; by vm_compute|by vm_compute].
Defined.
Example sample_loads : spec_load sample_manager (sample_clock 130) (foldl spec_op ∅ [OpSave sample_manager (sample_clock 100) (sample_clock 101) sample_state])
  = Some (mkReauthState [52; 64; 97] 5 true EapKeys.sample_keys [] 160 [97] true false 5 0).
Proof. vm_compute. reflexivity. Qed.
