(* ===== verification/Mobike.v ===== *)
(** * MOBIKE (engine/swu/mobike_state.go, ike_control.go)

    The addresses of the tunnel as the host last saw them, what an observation
    changes, and the notifies of an address update with the check of its answer.
    A [net.IP] is a list of octets, nil being the empty one.  The text forms of
    addresses ([net.ParseIP] and [IP.String]) are the class [NetText].  A nil
    receiver is [None]. *)
From S2P Require Import Prelude GoStrings Errors Crypto Types Codec Notify Session ChildSa Init Liveness.
#[local] Open Scope string_scope.
#[local] Open Scope list_scope.
#[local] Open Scope Z_scope.

Class NetText := {
  net_ParseIP : bytes -> option bytes;
  IP_String : bytes -> bytes
}.

Definition defaultMOBIKEPort := 4500.

(** [MOBIKERequest] of swu.go. *)
Record MOBIKERequest := mkMOBIKERequest {
  mr_DeviceID : bytes;
  mr_TraceID : bytes;
  mr_OldIP : bytes;
  mr_NewIP : bytes;
  mr_At : Time
}.
Record MOBIKENATEndpoint := mkEndpoint {
  en_LocalIP : bytes;
  en_RemoteIP : bytes;
  en_LocalPort : Z;
  en_RemotePort : Z;
  en_NATDetected : bool
}.
Record MOBIKENATStateConfig := mkNATConfig {
  nc_MOBIKESupported : bool;
  nc_LocalIP : bytes;
  nc_RemoteIP : bytes;
  nc_LocalPort : Z;
  nc_RemotePort : Z;
  nc_NATDetected : bool;
  nc_UpdatedAt : Time
}.
Record MOBIKENATObservation := mkObservation {
  ob_DeviceID : bytes;
  ob_TraceID : bytes;
  ob_LocalIP : bytes;
  ob_RemoteIP : bytes;
  ob_LocalPort : Z;
  ob_RemotePort : Z;
  ob_NATDetected : bool;
  ob_NATDetectedKnown : bool;
  ob_At : Time
}.
Record MOBIKENATChange := mkChange {
  mc_Changed : bool;
  mc_RequiresMOBIKEUpdate : bool;
  mc_LocalAddressChanged : bool;
  mc_RemoteAddressChanged : bool;
  mc_PortChanged : bool;
  mc_NATChanged : bool;
  mc_Previous : MOBIKENATEndpoint;
  mc_Current : MOBIKENATEndpoint;
  mc_Request : MOBIKERequest;
  mc_Reason : string;
  mc_At : Time
}.
Record MOBIKENATState := mkNATState {
  ms_mobikeSupported : bool;
  ms_current : MOBIKENATEndpoint;
  ms_updatedAt : Time
}.
Definition zeroEndpoint : MOBIKENATEndpoint := mkEndpoint [] [] 0 0 false.
#[export] Instance MOBIKENATEndpoint_eq_dec : EqDecision MOBIKENATEndpoint.
Proof. solve_decision. Defined.

(** [firstPacketNonEmpty] of packet_session.go. *)
Fixpoint firstPacketNonEmpty (items : list bytes) : bytes :=
  match items with
  | [] => []
  | item :: rest => if negb (len (TrimSpace item) =? 0) then TrimSpace item else firstPacketNonEmpty rest
  end.

Section text.
Context {T : NetText}.
(** The four octets of an IPv4 address, the sixteen of another one. *)
Definition mobike_form (ip : bytes) : option bytes :=
  match IP_To4 ip with Some v4 => Some v4 | None => IP_To16 ip end.
Fixpoint fallback_loop (fallbacks : list bytes) : bytes :=
  match fallbacks with
  | [] => []
  | item :: rest =>
      match net_ParseIP (firstPacketNonEmpty [item]) with
      | None => fallback_loop rest
      | Some ip => match mobike_form ip with Some v => v | None => fallback_loop rest end
      end
  end.
Definition normalizedMOBIKEIP (primary : bytes) (fallbacks : list bytes) : bytes :=
  match mobike_form primary with Some v => v | None => fallback_loop fallbacks end.
Definition cloneIPs (ips : list bytes) : list bytes :=
  filter (fun ip => ip <> []) ((fun ip => normalizedMOBIKEIP ip []) <$> ips).

Definition normalizedMOBIKENATEndpoint (e : MOBIKENATEndpoint) : MOBIKENATEndpoint :=
  mkEndpoint (normalizedMOBIKEIP (en_LocalIP e) []) (normalizedMOBIKEIP (en_RemoteIP e) [])
    (if en_LocalPort e =? 0 then defaultMOBIKEPort else en_LocalPort e)
    (if en_RemotePort e =? 0 then defaultMOBIKEPort else en_RemotePort e) (en_NATDetected e).
Definition cloneMOBIKENATEndpoint (e : MOBIKENATEndpoint) : MOBIKENATEndpoint :=
  mkEndpoint (en_LocalIP e) (en_RemoteIP e) (en_LocalPort e) (en_RemotePort e) (en_NATDetected e).
Fixpoint firstMOBIKEIP (items : list bytes) : bytes :=
  match items with
  | [] => []
  | item :: rest => let ip := normalizedMOBIKEIP item [] in if negb (len ip =? 0) then ip else firstMOBIKEIP rest
  end.
Fixpoint firstMOBIKEPort (items : list Z) : Z :=
  match items with
  | [] => defaultMOBIKEPort
  | item :: rest => if negb (item =? 0) then item else firstMOBIKEPort rest
  end.
Definition ipEqual (a b : bytes) : bool :=
  let aa := normalizedMOBIKEIP a [] in
  let bb := normalizedMOBIKEIP b [] in
  if (len aa =? 0) || (len bb =? 0) then (len aa =? 0) && (len bb =? 0) else IP_Equal aa bb.
Definition ipString (ip : bytes) : bytes :=
  let normalized := normalizedMOBIKEIP ip [] in
  if negb (len normalized =? 0) then IP_String normalized else [].
Definition mobikeNATChangeReason (localChanged remoteChanged portChanged natChanged : bool) : string :=
  let part (b : bool) (s : string) := if b then [s] else [] in
  let parts := part localChanged "local address changed" ++ part remoteChanged "remote address changed" ++
               part portChanged "udp port changed" ++ part natChanged "nat status changed" in
  match parts with [] => "unchanged" | _ => String.concat ", " parts end.

Definition NewMOBIKENATState (cfg : MOBIKENATStateConfig) : MOBIKENATState :=
  mkNATState (nc_MOBIKESupported cfg)
    (normalizedMOBIKENATEndpoint (mkEndpoint (nc_LocalIP cfg) (nc_RemoteIP cfg) (nc_LocalPort cfg) (nc_RemotePort cfg) (nc_NATDetected cfg)))
    (nc_UpdatedAt cfg).

(** [clock] is what [time.Now] would say. *)
Definition Observe (clock : Time) (s : option MOBIKENATState) (obs : MOBIKENATObservation) : option MOBIKENATState * MOBIKENATChange :=
  let at' := if IsZero (ob_At obs) then clock else ob_At obs in
  match s with
  | None =>
      let next := normalizedMOBIKENATEndpoint (mkEndpoint (ob_LocalIP obs) (ob_RemoteIP obs) (ob_LocalPort obs) (ob_RemotePort obs) (ob_NATDetected obs)) in
      (None, mkChange true false false false false false zeroEndpoint next
        (mkMOBIKERequest (ob_DeviceID obs) (ob_TraceID obs) [] (ipString (en_LocalIP next)) at') "state missing" at')
  | Some s =>
      let natDetected := if ob_NATDetectedKnown obs then ob_NATDetected obs else en_NATDetected (ms_current s) in
      let next := normalizedMOBIKENATEndpoint (mkEndpoint
        (firstMOBIKEIP [ob_LocalIP obs; en_LocalIP (ms_current s)]) (firstMOBIKEIP [ob_RemoteIP obs; en_RemoteIP (ms_current s)])
        (firstMOBIKEPort [ob_LocalPort obs; en_LocalPort (ms_current s)]) (firstMOBIKEPort [ob_RemotePort obs; en_RemotePort (ms_current s)]) natDetected) in
      let previous := ms_current s in
      let localChanged := negb (ipEqual (en_LocalIP previous) (en_LocalIP next)) in
      let remoteChanged := negb (ipEqual (en_RemoteIP previous) (en_RemoteIP next)) in
      let portChanged := negb (en_LocalPort previous =? en_LocalPort next) || negb (en_RemotePort previous =? en_RemotePort next) in
      let natChanged := negb (Bool.eqb (en_NATDetected previous) (en_NATDetected next)) in
      let changed := localChanged || remoteChanged || portChanged || natChanged in
      let change := mkChange changed (changed && ms_mobikeSupported s) localChanged remoteChanged portChanged natChanged
        (cloneMOBIKENATEndpoint previous) (cloneMOBIKENATEndpoint next)
        (mkMOBIKERequest (ob_DeviceID obs) (ob_TraceID obs) (ipString (en_LocalIP previous)) (ipString (en_LocalIP next)) at')
        (mobikeNATChangeReason localChanged remoteChanged portChanged natChanged) at' in
      (Some (if changed then mkNATState (ms_mobikeSupported s) next at' else s), change)
  end.
Definition MOBIKENATState_Snapshot (s : option MOBIKENATState) : MOBIKENATEndpoint * Time :=
  match s with None => (zeroEndpoint, 0) | Some s => (cloneMOBIKENATEndpoint (ms_current s), ms_updatedAt s) end.
End text.

(** ** The update (ike_control.go) *)
Definition map_loop {A B} (f : A -> result B) : list A -> result (list B) :=
  fix loop l := match l with [] => Ok [] | a :: rest => let! b := f a in let! bs := loop rest in Ok (b :: bs) end.
Section update.
Context {C : Crypto} {T : NetText}.
(** [Init]'s SPIs, the addresses and ports of the configuration. *)
Definition mobikeUpdatePayloads (init : InitResult) (localIP remoteIP : bytes) (localPort remotePort : Z) (additional : list bytes)
    (noAdditional : bool) (req : MOBIKERequest) : result (list Payload) :=
  let local := normalizedMOBIKEIP [] [mr_NewIP req; mr_OldIP req] in
  let local := if len local =? 0 then normalizedMOBIKEIP localIP [] else local in
  let remote := normalizedMOBIKEIP remoteIP [] in
  let! nat :=
    (if negb (len local =? 0) && negb (len remote =? 0) then
       let localPort := if localPort =? 0 then 4500 else localPort in
       let remotePort := if remotePort =? 0 then 4500 else remotePort in
       let! src := NATDetectionNotify NotifyNATDetectionSourceIP (ir_InitiatorSPI init) (ir_ResponderSPI init) local localPort in
       let! dst := NATDetectionNotify NotifyNATDetectionDestinationIP (ir_InitiatorSPI init) (ir_ResponderSPI init) remote remotePort in
       Ok [src; dst]
     else Ok []) in
  let! more := map_loop AdditionalIPAddressNotify additional in
  Ok ([UpdateSAAddressesNotify] ++ nat ++ more ++ (if noAdditional then [NoAdditionalAddressesNotify] else [])).
Fixpoint rejectMOBIKEResponse (payloads : list Payload) : result unit :=
  match payloads with
  | [] => Ok tt
  | payload :: rest =>
      if negb (p_Type payload =? PayloadNotify) then rejectMOBIKEResponse rest else
      let! notify := ParseNotify (p_Body payload) in
      if n_NotifyType notify =? NotifyUnacceptableAddresses then Errorf ErrMOBIKEUpdateRejected else
      if n_NotifyType notify =? NotifyUnexpectedNATDetected then Errorf ErrMOBIKEUpdateRejected else
      rejectMOBIKEResponse rest
  end.
End update.

(** ** What an observation says *)
Section spec.
Context {T : NetText}.
(** An address in the form the state keeps. *)
Definition canonical (ip : bytes) : Prop := ip = [] \/ len ip = 4 \/ len ip = 16 /\ IP_To4 ip = None.
Definition endpoint_ok (e : MOBIKENATEndpoint) : Prop :=
  canonical (en_LocalIP e) /\ canonical (en_RemoteIP e) /\ en_LocalPort e <> 0 /\ en_RemotePort e <> 0.
(** The endpoint after an observation: what it says, and for the rest what was known. *)
Definition observed (obs : MOBIKENATObservation) (e : MOBIKENATEndpoint) : MOBIKENATEndpoint :=
  mkEndpoint (default (en_LocalIP e) (mobike_form (ob_LocalIP obs))) (default (en_RemoteIP e) (mobike_form (ob_RemoteIP obs)))
    (if ob_LocalPort obs =? 0 then en_LocalPort e else ob_LocalPort obs) (if ob_RemotePort obs =? 0 then en_RemotePort e else ob_RemotePort obs)
    (if ob_NATDetectedKnown obs then ob_NATDetected obs else en_NATDetected e).

Lemma form_canonical ip v : mobike_form ip = Some v -> canonical v /\ v <> [].
Proof.
  unfold mobike_form. destruct (IP_To4 ip) as [v4|] eqn:E4.
  - intros [= <-]. apply IP_To4_len in E4. split; [by right; left|]. by intros ->.
  - intros E. unfold IP_To16 in E. destruct (Z.eqb_spec (len ip) 4) as [E1|E1]; [unfold IP_To4 in E4; by rewrite E1 in E4|].
    destruct (Z.eqb_spec (len ip) 16) as [E2|]; [|done]. injection E as <-. split; [by right; right|]. by intros ->.
Qed.
Lemma canonical_form ip : canonical ip -> mobike_form ip = if len ip =? 0 then None else Some ip.
Proof.
  unfold mobike_form. intros [->|[H|[H H4]]]; [done| |].
  - unfold IP_To4. rewrite H. done.
  - rewrite H4. unfold IP_To16. by rewrite H.
Qed.
Lemma normalized_form ip : normalizedMOBIKEIP ip [] = default [] (mobike_form ip).
Proof. unfold normalizedMOBIKEIP. by destruct (mobike_form ip). Qed.
Lemma normalized_canonical ip : canonical ip -> normalizedMOBIKEIP ip [] = ip.
Proof. intros H. rewrite normalized_form, canonical_form by done. destruct ip; [done|]. by replace (len (z :: ip) =? 0) with false by len_lia. Qed.
Lemma canonical_normalized ip : canonical (normalizedMOBIKEIP ip []).
Proof. rewrite normalized_form. destruct (mobike_form ip) as [v|] eqn:E; [by apply form_canonical in E as [? _]|by left]. Qed.
Lemma ipEqual_spec a b : canonical a -> canonical b -> ipEqual a b = bool_decide (a = b).
Proof.
  intros Ha Hb. unfold ipEqual. rewrite !normalized_canonical by done. cbv zeta.
  destruct Ha as [->|Ha]; [change (len [] =? 0) with true; cbn [orb andb]; destruct b; [done|]; rewrite bool_decide_eq_false_2 by done; len_lia|].
  destruct Hb as [->|Hb]; [change (len [] =? 0) with true; rewrite orb_true_r, andb_true_r; destruct a; [done|]; rewrite bool_decide_eq_false_2 by done; len_lia|].
  assert (Hl : (len a = 4 \/ len a = 16) /\ (len b = 4 \/ len b = 16)) by (destruct Ha as [?|[? _]], Hb as [?|[? _]]; lia).
  replace ((len a =? 0) || (len b =? 0)) with false by lia. unfold IP_Equal, bytesEqual.
  destruct (Z.eqb_spec (len a) (len b)) as [E|E]; [done|].
  rewrite (bool_decide_eq_false_2 (a = b)) by by intros ->.
  destruct Ha as [Ha|[Ha Ha4]], Hb as [Hb|[Hb Hb4]]; rewrite Ha, Hb in *; try lia; cbn [Z.eqb Pos.eqb andb]; unfold IP_To4, bytesEqual in *.
  - rewrite Hb in Hb4. cbn [Z.eqb Pos.eqb andb] in Hb4. by destruct (bool_decide _).
  - rewrite Ha in Ha4. cbn [Z.eqb Pos.eqb andb] in Ha4. by destruct (bool_decide _).
Qed.
Lemma first_ip ip known : canonical known -> normalizedMOBIKEIP (firstMOBIKEIP [ip; known]) [] = default known (mobike_form ip).
Proof.
  intros Hk. cbn [firstMOBIKEIP]. rewrite (normalized_form ip). destruct (mobike_form ip) as [v|] eqn:E; cbn [default from_option id].
  - apply form_canonical in E as [Hv Hn]. replace (len v =? 0) with false by (destruct v; [done|len_lia]). cbn [negb]. by apply normalized_canonical.
  - change (negb (len [] =? 0)) with false. cbv iota. rewrite (normalized_canonical known) by done.
    destruct (Z.eqb_spec (len known) 0) as [E0|]; cbn [negb]; [|by apply normalized_canonical]. destruct known; [done|len_lia].
Qed.
Lemma first_port p known : known <> 0 -> firstMOBIKEPort [p; known] = if p =? 0 then known else p.
Proof. intros H. cbn [firstMOBIKEPort]. destruct (p =? 0); [|done]. by replace (known =? 0) with false by lia. Qed.
Lemma observed_ok obs e : endpoint_ok e -> endpoint_ok (observed obs e).
Proof.
  assert (Hd : forall ip known, canonical known -> canonical (default known (mobike_form ip))) by (intros ip known Hk; destruct (mobike_form ip) eqn:E; [by apply form_canonical in E as [? _]|done]).
  intros (H1 & H2 & H3 & H4). split_and!; cbn [observed en_LocalIP en_RemoteIP en_LocalPort en_RemotePort]; [by apply Hd..| |];
    [destruct (Z.eqb_spec (ob_LocalPort obs) 0)|destruct (Z.eqb_spec (ob_RemotePort obs) 0)]; done.
Qed.
Lemma new_ok cfg : endpoint_ok (ms_current (NewMOBIKENATState cfg)).
Proof.
  unfold NewMOBIKENATState. cbn [ms_current]. split_and!; cbn; [apply canonical_normalized..| |]; [destruct (Z.eqb_spec (nc_LocalPort cfg) 0)|destruct (Z.eqb_spec (nc_RemotePort cfg) 0)]; done.
Qed.
Lemma Observe_spec clock s obs : endpoint_ok (ms_current s) ->
  let e := ms_current s in let e' := observed obs e in let at' := if IsZero (ob_At obs) then clock else ob_At obs in
  exists c, Observe clock (Some s) obs = (Some (mkNATState (ms_mobikeSupported s) e' (if decide (e' = e) then ms_updatedAt s else at')), c) /\
    mc_Previous c = e /\ mc_Current c = e' /\ mc_At c = at' /\ mc_Changed c = bool_decide (e' <> e) /\
    mc_RequiresMOBIKEUpdate c = bool_decide (e' <> e) && ms_mobikeSupported s /\
    mc_LocalAddressChanged c = bool_decide (en_LocalIP e' <> en_LocalIP e) /\ mc_RemoteAddressChanged c = bool_decide (en_RemoteIP e' <> en_RemoteIP e) /\
    mc_PortChanged c = bool_decide ((en_LocalPort e', en_RemotePort e') <> (en_LocalPort e, en_RemotePort e)) /\
    mc_NATChanged c = bool_decide (en_NATDetected e' <> en_NATDetected e) /\
    mc_Request c = mkMOBIKERequest (ob_DeviceID obs) (ob_TraceID obs) (ipString (en_LocalIP e)) (ipString (en_LocalIP e')) at'.
Proof.
  intros Hok. cbv zeta. set (e := ms_current s) in *. set (e' := observed obs e). set (at' := if IsZero (ob_At obs) then clock else ob_At obs).
  pose proof (observed_ok obs e Hok) as Hok'. fold e' in Hok'. destruct Hok as (H1 & H2 & H3 & H4), Hok' as (H1' & H2' & H3' & H4').
  assert (Hn : normalizedMOBIKENATEndpoint (mkEndpoint (firstMOBIKEIP [ob_LocalIP obs; en_LocalIP e]) (firstMOBIKEIP [ob_RemoteIP obs; en_RemoteIP e])
    (firstMOBIKEPort [ob_LocalPort obs; en_LocalPort e]) (firstMOBIKEPort [ob_RemotePort obs; en_RemotePort e])
    (if ob_NATDetectedKnown obs then ob_NATDetected obs else en_NATDetected e)) = e').
  { unfold normalizedMOBIKENATEndpoint. cbn [en_LocalIP en_RemoteIP en_LocalPort en_RemotePort en_NATDetected]. rewrite !first_ip, !first_port by done.
    unfold e', observed in *. cbn [en_LocalPort en_RemotePort] in *. by rewrite (proj2 (Z.eqb_neq _ _) H3'), (proj2 (Z.eqb_neq _ _) H4'). }
  unfold Observe. fold e. fold at'. rewrite Hn. cbv zeta. rewrite !ipEqual_spec by done.
  set (l := negb (bool_decide (en_LocalIP e = _))). set (r := negb (bool_decide (en_RemoteIP e = _))).
  set (p := negb (en_LocalPort e =? _) || _). set (n := negb (Bool.eqb _ _)).
  assert (Hl : l = bool_decide (en_LocalIP e' <> en_LocalIP e)) by (subst l; rewrite <- bool_decide_not; apply bool_decide_ext; intuition congruence).
  assert (Hr : r = bool_decide (en_RemoteIP e' <> en_RemoteIP e)) by (subst r; rewrite <- bool_decide_not; apply bool_decide_ext; intuition congruence).
  assert (Hp : p = bool_decide ((en_LocalPort e', en_RemotePort e') <> (en_LocalPort e, en_RemotePort e))).
  { subst p. destruct (Z.eqb_spec (en_LocalPort e) (en_LocalPort e')) as [E1|E1], (Z.eqb_spec (en_RemotePort e) (en_RemotePort e')) as [E2|E2]; cbn [negb orb]; symmetry;
      [apply bool_decide_eq_false_2|apply bool_decide_eq_true_2..]; congruence. }
  assert (Hna : n = bool_decide (en_NATDetected e' <> en_NATDetected e)) by (subst n; by destruct (en_NATDetected e), (en_NATDetected e')).
  assert (Hc : l || r || p || n = bool_decide (e' <> e)).
  { rewrite Hl, Hr, Hp, Hna. clear. destruct e as [e1 e2 e3 e4 e5], e' as [f1 f2 f3 f4 f5]. cbn.
    repeat case_bool_decide; cbn; try done; exfalso; intuition congruence. }
  assert (Hs : (if l || r || p || n then mkNATState (ms_mobikeSupported s) e' at' else s) =
    mkNATState (ms_mobikeSupported s) e' (if decide (e' = e) then ms_updatedAt s else at')).
  { rewrite Hc. destruct (decide (e' = e)) as [E|E].
    - rewrite bool_decide_eq_false_2 by (intros H; by apply H). rewrite E. by destruct s.
    - by rewrite bool_decide_eq_true_2. }
  rewrite Hs. eexists. split; [reflexivity|]. cbn [mc_Previous mc_Current mc_At mc_Changed mc_RequiresMOBIKEUpdate mc_LocalAddressChanged mc_RemoteAddressChanged mc_PortChanged mc_NATChanged mc_Request].
  rewrite Hc. split_and!; by destruct e, e' || done.
Qed.

(** ** Histories *)
Fixpoint observe_all (clock : Time) (s : option MOBIKENATState) (history : list MOBIKENATObservation) : option MOBIKENATState * list MOBIKENATChange :=
  match history with
  | [] => (s, [])
  | obs :: rest => let '(s', c) := Observe clock s obs in let '(s'', cs) := observe_all clock s' rest in (s'', c :: cs)
  end.
(** The endpoints that a history goes through, the first one included. *)
Fixpoint endpoints (e : MOBIKENATEndpoint) (history : list MOBIKENATObservation) : list MOBIKENATEndpoint :=
  match history with [] => [e] | obs :: rest => e :: endpoints (observed obs e) rest end.
(** What a change reports of two successive endpoints. *)
Definition reports (supported : bool) (c : MOBIKENATChange) (e e' : MOBIKENATEndpoint) : Prop :=
  mc_Previous c = e /\ mc_Current c = e' /\ mc_Changed c = bool_decide (e' <> e) /\
  mc_RequiresMOBIKEUpdate c = bool_decide (e' <> e) && supported /\
  mr_OldIP (mc_Request c) = ipString (en_LocalIP e) /\ mr_NewIP (mc_Request c) = ipString (en_LocalIP e').

Lemma history_spec clock s history : endpoint_ok (ms_current s) ->
  exists s' cs, observe_all clock (Some s) history = (Some s', cs) /\ length cs = length history /\ ms_mobikeSupported s' = ms_mobikeSupported s /\
    endpoint_ok (ms_current s') /\ ms_current s' = foldl (fun e obs => observed obs e) (ms_current s) history /\
    forall i c, cs !! i = Some c -> exists e e', endpoints (ms_current s) history !! i = Some e /\ endpoints (ms_current s) history !! S i = Some e' /\
      reports (ms_mobikeSupported s) c e e'.
Proof.
  revert s. induction history as [|obs history IH]; intros s Hok; cbn [observe_all]; [by exists s, []|].
  destruct (Observe_spec clock s obs Hok) as (c & -> & Hc). set (s1 := mkNATState _ _ _).
  destruct (IH s1 (observed_ok obs _ Hok)) as (s' & cs & -> & Hlen & Hsup & Hok' & He & Hcs). exists s', (c :: cs). split; [done|]. split; [cbn; by rewrite Hlen|].
  split; [done|]. split; [done|]. split; [done|]. intros [|i] c' Hi.
  - injection Hi as <-. exists (ms_current s), (observed obs (ms_current s)). split; [done|]. split; [by destruct history|]. destruct Hc as (? & ? & ? & ? & ? & ? & ? & ? & ? & Hreq). unfold reports. by rewrite Hreq.
  - by apply Hcs.
Qed.
(** The state of the tunnel's addresses is what was last observed: over any
    history of observations, each address, port and NAT flag is the last one an
    observation gave (an address in its IPv4 or IPv6 form, absent values leaving
    what was known), each call reports the endpoint before and after it, reports a
    change exactly when they differ, and asks for an update of the peer exactly when
    it also speaks MOBIKE, with the two local addresses in the request. *)
Theorem observations_tracked (clock : Time) (cfg : MOBIKENATStateConfig) (history : list MOBIKENATObservation) :
  let s := NewMOBIKENATState cfg in
  exists s' cs, observe_all clock (Some s) history = (Some s', cs) /\ length cs = length history /\
    ms_current s' = foldl (fun e obs => observed obs e) (ms_current s) history /\ endpoint_ok (ms_current s') /\
    forall i c, cs !! i = Some c -> exists e e', endpoints (ms_current s) history !! i = Some e /\ endpoints (ms_current s) history !! S i = Some e' /\
      reports (nc_MOBIKESupported cfg) c e e'.
Proof.
  intros s. destruct (history_spec clock s history (new_ok cfg)) as (s' & cs & E & Hl & _ & Hok & He & Hc). by exists s', cs.
Qed.
End spec.

(** ** The payloads of an update *)
Section update_proofs.
Context {C : Crypto} {T : NetText} `{!CryptoLaws C}.
Definition address_ok (ip : bytes) : Prop := canonical ip /\ ip <> [] /\ bytes_ok ip.
Definition notify_payload (p : Payload) : Prop := Payload_ok p /\ p_Type p = PayloadNotify.

Lemma cloned_addresses ips : Forall bytes_ok ips -> Forall address_ok (cloneIPs ips).
Proof.
  intros H. unfold cloneIPs. apply Forall_forall. intros ip Hin. apply list_elem_of_filter in Hin as [Hne Hin]. apply list_elem_of_fmap in Hin as (ip0 & -> & Hin).
  split; [apply canonical_normalized|]. split; [done|]. eapply Forall_forall in H; [|exact Hin]. rewrite normalized_form. unfold mobike_form.
  destruct (IP_To4 ip0) as [v|] eqn:E; [by eapply IP_To4_ok|]. destruct (IP_To16 ip0) as [v|] eqn:E16; [by eapply IP_To16_ok|constructor].
Qed.
Lemma nat_notify ty spiI spiR ip port : ty = NotifyNATDetectionSourceIP \/ ty = NotifyNATDetectionDestinationIP -> canonical ip -> ip <> [] ->
  exists p, NATDetectionNotify ty spiI spiR ip port = Ok p /\ notify_payload p.
Proof.
  intros Hty Hc Hn. pose proof (NATDetectionNotify_safe ty spiI spiR ip port) as Hs.
  assert (Hok : exists p, NATDetectionNotify ty spiI spiR ip port = Ok p).
  { unfold NATDetectionNotify. assert (negb (ty =? NotifyNATDetectionSourceIP) && negb (ty =? NotifyNATDetectionDestinationIP) = false) as -> by (by destruct Hty as [-> | ->]).
    unfold NATDetectionHash. fold (mobike_form ip). rewrite canonical_form by done. replace (len ip =? 0) with false by (destruct ip; [done|len_lia]).
    cbn [bind]. unfold NotifyPayload, Notify_MarshalBinary. cbn [n_SPI]. change (0xff <? len []) with false. cbn [bind]. by eexists. }
  destruct Hok as [p Hp]. rewrite Hp in Hs. by exists p.
Qed.
Lemma zero_spi_notify ty data : is_u16 ty -> bytes_ok data -> notify_payload (NotifyWithZeroSPI ty data).
Proof.
  intros Ht Hd. split; [|done]. split_and!; [done|done|]. unfold NotifyWithZeroSPI, notify_body, Notify_MarshalBinary. cbn [p_Body n_SPI n_ProtocolID n_NotifyType n_NotificationData].
  change (0xff <? len []) with false. cbv iota. cbn [app]. assert (is_u8 0) by done. assert (is_u8 (to_u8 (len (@nil Z)))) by done. auto 8 with gobytes.
Qed.
Lemma additional_notify ip : address_ok ip -> exists p, AdditionalIPAddressNotify ip = Ok p /\ notify_payload p.
Proof.
  intros (Hc & Hn & Hb). unfold AdditionalIPAddressNotify. pose proof (canonical_form ip Hc) as Hf. unfold mobike_form in Hf.
  replace (len ip =? 0) with false in Hf by (destruct ip; [done|len_lia]).
  destruct (IP_To4 ip) as [v|] eqn:E4; [injection Hf as ->; eexists; split; [done|]; by apply zero_spi_notify|].
  rewrite Hf. eexists. split; [done|]. by apply zero_spi_notify.
Qed.
Lemma additional_notifies ips : Forall address_ok ips -> exists ps, map_loop AdditionalIPAddressNotify ips = Ok ps /\ Forall notify_payload ps.
Proof.
  induction 1 as [|ip ips Hip Hips (ps & E & Hps)]; [by exists []|]. destruct (additional_notify ip Hip) as (p & Ep & Hp). exists (p :: ps). split; [|by constructor].
  cbn [map_loop]. rewrite Ep. cbn [bind]. change ((let! bs := map_loop AdditionalIPAddressNotify ips in Ok (p :: bs)) = Ok (p :: ps)). by rewrite E.
Qed.
Lemma fallback_canonical items : canonical (fallback_loop items).
Proof.
  induction items as [|item items IH]; [by left|]. cbn [fallback_loop]. destruct (net_ParseIP _) as [ip|]; [|done]. destruct (mobike_form ip) eqn:E; [by apply form_canonical in E as [? _]|done].
Qed.
(** An update is always built: no id of a message is spent on nothing. *)
Lemma update_payloads init localIP remoteIP localPort remotePort additional none req : Forall address_ok additional ->
  exists ps, mobikeUpdatePayloads init localIP remoteIP localPort remotePort additional none req = Ok (UpdateSAAddressesNotify :: ps) /\
    Forall notify_payload (UpdateSAAddressesNotify :: ps).
Proof.
  intros Ha. unfold mobikeUpdatePayloads. set (local0 := normalizedMOBIKEIP [] _). cbv zeta.
  set (local := if len local0 =? 0 then _ else _). assert (Hl : canonical local) by (subst local; case_match; [apply canonical_normalized|apply fallback_canonical]).
  pose proof (canonical_normalized remoteIP) as Hr. set (remote := normalizedMOBIKEIP remoteIP []) in *.
  destruct (additional_notifies additional Ha) as (more & Em & Hm).
  assert (Hnat : exists nat, (if negb (len local =? 0) && negb (len remote =? 0) then
       let! src := NATDetectionNotify NotifyNATDetectionSourceIP (ir_InitiatorSPI init) (ir_ResponderSPI init) local (if localPort =? 0 then 4500 else localPort) in
       let! dst := NATDetectionNotify NotifyNATDetectionDestinationIP (ir_InitiatorSPI init) (ir_ResponderSPI init) remote (if remotePort =? 0 then 4500 else remotePort) in
       Ok [src; dst] else Ok []) = Ok nat /\ Forall notify_payload nat).
  { destruct (negb (len local =? 0) && negb (len remote =? 0)) eqn:H; [|by exists []].
    destruct (nat_notify NotifyNATDetectionSourceIP (ir_InitiatorSPI init) (ir_ResponderSPI init) local (if localPort =? 0 then 4500 else localPort)) as (src & -> & Hs); [by left|done|by intros E; rewrite E in H|].
    destruct (nat_notify NotifyNATDetectionDestinationIP (ir_InitiatorSPI init) (ir_ResponderSPI init) remote (if remotePort =? 0 then 4500 else remotePort)) as (dst & -> & Hd); [by right|done|intros E; rewrite E in H; change (negb (len [] =? 0)) with false in H; by rewrite andb_false_r in H|].
    exists [src; dst]. split; [done|]. constructor; [done|]. by constructor; [|constructor]. }
  destruct Hnat as (nat & -> & Hn). cbn [bind]. rewrite Em. cbn [bind]. eexists. split; [reflexivity|].
  constructor; [split; [|done]; by split_and!; by_decide|]. repeat apply Forall_app_2; [done|done|]. destruct none; [|constructor]. constructor; [|constructor]. split; [|done]. by split_and!; by_decide.
Qed.
Lemma notifies_chain ps : Forall notify_payload ps -> chain_ok ps.
Proof. intros H. eapply Forall_impl; [exact H|]. intros p [Hp ->]. by split. Qed.

(** An answer that refuses the update has one of the two notifies. *)
Lemma reject_spec ps : Forall Payload_ok ps -> safe (rejectMOBIKEResponse ps) (fun _ =>
  forall p n, p ∈ ps -> p_Type p = PayloadNotify -> ParseNotify (p_Body p) = Ok n ->
    n_NotifyType n <> NotifyUnacceptableAddresses /\ n_NotifyType n <> NotifyUnexpectedNATDetected).
Proof.
  induction 1 as [|p ps (_ & _ & Hb) Hps IH]; [by intros p n []%not_elem_of_nil|]. cbn [rejectMOBIKEResponse].
  destruct (Z.eqb_spec (p_Type p) PayloadNotify) as [Ht|Ht]; cbn [negb].
  - pose proof (ParseNotify_safe (p_Body p) Hb) as Hs. destruct (ParseNotify (p_Body p)) as [n| | |] eqn:En; try done. cbn [bind].
    destruct (Z.eqb_spec (n_NotifyType n) NotifyUnacceptableAddresses); [done|]. destruct (Z.eqb_spec (n_NotifyType n) NotifyUnexpectedNATDetected); [done|].
    eapply safe_mono; [exact IH|]. intros u Hrest q m Hin Hqt Hm. apply elem_of_cons in Hin as [E|Hq]; [|by eapply Hrest]. subst q. rewrite En in Hm. by injection Hm as <-.
  - eapply safe_mono; [exact IH|]. intros u Hrest q m Hin Hqt Hm. apply elem_of_cons in Hin as [E|Hq]; [by subst q|by eapply Hrest].
Qed.
End update_proofs.
