(* ===== verification/Control.v ===== *)
(** * The control plane of a tunnel (engine/swu/ike_tunnel_manager.go, ike_control.go)

    After IKE_AUTH the host keeps an object with the next message id and the
    current child SA, through which it probes the peer, updates its addresses,
    rekeys the child SA and closes the tunnel; [ike_control.go] has the same
    close and update as stand-alone handlers.  Every call is one step: the
    transport, the random source and the clock of a step are arguments, so a
    history of calls may meet any peer.  The mutex makes the choice of a message
    id atomic, but only a rekey holds it during its exchange: the interleavings of
    concurrent calls that this allows are not modelled, nor is the context. *)
From S2P Require Import Prelude GoStrings Hex Errors Crypto Types Codec Notify Sa Keys Sk Session ChildSa World Init Informational Liveness Mobike.
#[local] Open Scope string_scope.
#[local] Open Scope list_scope.
#[local] Open Scope Z_scope.

(** [TunnelResult] and [MOBIKEResult] of swu.go. *)
Record TunnelResult := mkTunnelResult {
  tr_Ready : bool;
  tr_Mode : bytes;
  tr_EPDGAddress : bytes;
  tr_LocalInnerIP : bytes;
  tr_RemoteInnerIP : bytes;
  tr_DNSServers : list bytes;
  tr_PCSCFServers : list bytes;
  tr_ESPEncryptionID : Z;
  tr_ESPIntegrityID : Z;
  tr_InitiatorSelectors : list bytes;
  tr_ResponderSelectors : list bytes;
  tr_IKEEstablished : bool;
  tr_IPsecEstablished : bool;
  tr_MOBIKESupported : bool;
  tr_ChildSAIdentifier : bytes;
  tr_Reason : string;
  tr_EstablishedAt : Time
}.
Record MOBIKEResult := mkMOBIKEResult {
  mo_Rekeyed : bool;
  mo_OuterLocalIP : bytes;
  mo_LocalInnerIP : bytes;
  mo_RemoteInnerIP : bytes;
  mo_DNSServers : list bytes;
  mo_IKEEstablished : bool;
  mo_IPsecEstablished : bool;
  mo_Reason : string;
  mo_UpdatedAt : Time
}.
Definition childSAIdentifier (child : ChildSAResult) : bytes :=
  let local := hex_EncodeToString (cr_LocalSPI child) in
  let remote := hex_EncodeToString (cr_RemoteSPI child) in
  if negb (len local =? 0) && negb (len remote =? 0) then local ++ [47] ++ remote
  else if negb (len local =? 0) then local else remote.

Record ikePacketTunnelControl := mkControl {
  ct_init : InitResult;
  ct_keys : IKEKeys;
  ct_child : ChildSAResult;
  ct_nextMessageID : Z;
  ct_result : TunnelResult;
  ct_localIP : bytes;
  ct_remoteIP : bytes;
  ct_localPort : Z;
  ct_remotePort : Z;
  ct_additionalAddresses : list bytes;
  ct_noAdditionalAddresses : bool
}.
(** What a call meets: the transport and what its [Close] returns, the random
    source of the configuration and that of the system, the clock. *)
Record Env := mkEnv {
  e_transport : option Transport;
  e_close : option error;
  e_random : option Reader;
  e_rand_Reader : Reader;
  e_clock : Time
}.
Definition with_next (c : ikePacketTunnelControl) (next : Z) : ikePacketTunnelControl :=
  mkControl (ct_init c) (ct_keys c) (ct_child c) next (ct_result c) (ct_localIP c) (ct_remoteIP c) (ct_localPort c) (ct_remotePort c)
    (ct_additionalAddresses c) (ct_noAdditionalAddresses c).
Definition result_rekeyed (r : TunnelResult) (child : ChildSAResult) : TunnelResult :=
  mkTunnelResult true (tr_Mode r) (tr_EPDGAddress r) (tr_LocalInnerIP r) (tr_RemoteInnerIP r) (tr_DNSServers r) (tr_PCSCFServers r)
    (tr_ESPEncryptionID r) (tr_ESPIntegrityID r) (tr_InitiatorSelectors r) (tr_ResponderSelectors r) true true (tr_MOBIKESupported r)
    (childSAIdentifier child) "child sa rekeyed" (tr_EstablishedAt r).
(** [errors.Join] of two results. *)
Definition errors_Join (r : result unit) (e : option error) : outcome (list error) unit :=
  let errs := match r with Err err => [err] | _ => [] end ++ match e with Some err => [err] | None => [] end in
  match r with
  | Panic => Panic
  | OutOfFuel => OutOfFuel
  | _ => match errs with [] => Ok tt | _ => Err errs end
  end.

Section control.
Context {C : Crypto} {T : NetText}.

(** The INFORMATIONAL exchange of a call. *)
Definition control_informational (c : ikePacketTunnelControl) (env : Env) (messageID : Z) (payloads : list Payload) : result InformationalResult :=
  RunInformationalExchange (e_rand_Reader env)
    (mkInformational (e_transport env) (ct_init c) (ct_keys c) messageID false payloads (e_random env) []).
Definition control_dpd (c : ikePacketTunnelControl) (env : Env) : ikePacketTunnelControl * result InformationalResult :=
  let messageID := ct_nextMessageID c in
  (with_next c (to_u32 (messageID + 1)),
   RunLivenessCheck (e_rand_Reader env) (mkInformational (e_transport env) (ct_init c) (ct_keys c) messageID false [] (e_random env) [])).
Definition control_close (c : ikePacketTunnelControl) (env : Env) : ikePacketTunnelControl * result InformationalResult :=
  let messageID := ct_nextMessageID c in
  (with_next c (to_u32 (messageID + 1)),
   let! payloads := TeardownDeletePayloads (ct_child c) true in control_informational c env messageID payloads).
Definition control_mobike (c : ikePacketTunnelControl) (env : Env) (req : MOBIKERequest) : ikePacketTunnelControl * result InformationalResult :=
  let messageID := ct_nextMessageID c in
  (with_next c (to_u32 (messageID + 1)),
   let! payloads := mobikeUpdatePayloads (ct_init c) (ct_localIP c) (ct_remoteIP c) (ct_localPort c) (ct_remotePort c)
     (ct_additionalAddresses c) (ct_noAdditionalAddresses c) req in
   control_informational c env messageID payloads).
Definition rekey_config (c : ikePacketTunnelControl) (env : Env) : ChildSARekeyConfig :=
  mkRekeyConfig (e_transport env) (ct_init c) (ct_keys c) (ct_nextMessageID c) (ct_child c) (mkSA []) [] [] (mkTSs []) (mkTSs []) [] (e_random env) [].
Definition control_rekey (c : ikePacketTunnelControl) (env : Env) : ikePacketTunnelControl * result CreateChildSAResult :=
  if ct_nextMessageID c =? 0 then (c, Errorf ErrInvalidIKEControl) else
  let taken := with_next c (to_u32 (ct_nextMessageID c + 1)) in
  match RunCREATE_CHILD_SARekey (e_rand_Reader env) (rekey_config c env) with
  | Ok res =>
      (mkControl (ct_init c) (ct_keys c) (cs_ChildSA res)
         (if negb (cs_NextMessageID res =? 0) then cs_NextMessageID res else ct_nextMessageID taken)
         (result_rekeyed (ct_result c) (cs_ChildSA res)) (ct_localIP c) (ct_remoteIP c) (ct_localPort c) (ct_remotePort c)
         (ct_additionalAddresses c) (ct_noAdditionalAddresses c), Ok res)
  | Err e => (taken, Err e)
  | Panic => (taken, Panic)
  | OutOfFuel => (taken, OutOfFuel)
  end.

(** The methods: what their callers see of the exchanges; a nil receiver is [None]. *)
Definition dpd (c : option ikePacketTunnelControl) (env : Env) : option ikePacketTunnelControl * result unit :=
  match c with
  | None => (None, Errorf ErrInvalidIKEControl)
  | Some c => let '(c', r) := control_dpd c env in (Some c', let! _ := r in Ok tt)
  end.
Definition close (c : option ikePacketTunnelControl) (env : Env) : option ikePacketTunnelControl * outcome (list error) unit :=
  match c with
  | None => (None, Ok tt)
  | Some c => let '(c', r) := control_close c env in (Some c', errors_Join (let! _ := r in Ok tt) (e_close env))
  end.
Definition mobike_result (req : MOBIKERequest) (result : TunnelResult) (clock : Time) : MOBIKEResult :=
  mkMOBIKEResult false (firstPacketNonEmpty [mr_NewIP req; mr_OldIP req; tr_EPDGAddress result]) (tr_LocalInnerIP result) (tr_RemoteInnerIP result) []
    true true "mobike update sa addresses sent" clock.
Definition mobike (c : option ikePacketTunnelControl) (env : Env) (req : MOBIKERequest) : option ikePacketTunnelControl * result MOBIKEResult :=
  match c with
  | None => (None, Errorf ErrInvalidIKEControl)
  | Some c =>
      let '(c', r) := control_mobike c env req in
      (Some c', let! res := r in
                let! _ := rejectMOBIKEResponse (ir2_ResponseInner res) in
                Ok (mobike_result req (ct_result c) (e_clock env)))
  end.
Definition rekeyChildSA (c : option ikePacketTunnelControl) (env : Env) : option ikePacketTunnelControl * result ChildSAResult :=
  match c with
  | None => (None, Errorf ErrInvalidIKEControl)
  | Some c => let '(c', r) := control_rekey c env in (Some c', let! res := r in Ok (cs_ChildSA res))
  end.

(** ** The stand-alone handlers (ike_control.go) *)
Definition cloneIKEPayloads (ps : list Payload) : list Payload :=
  (fun p => mkPayload (p_Type p) (p_NextPayload p) (p_Critical p) (p_Body p)) <$> ps.
Record ikeControlMessageIDs := mkMessageIDs { id_next : Z }.
Definition newIKEControlMessageIDs (next : Z) : result ikeControlMessageIDs :=
  if next =? 0 then Errorf ErrInvalidIKEControl else Ok (mkMessageIDs next).
Definition MessageIDs_exchange {A} (s : option ikeControlMessageIDs) (fn : Z -> result A) : option ikeControlMessageIDs * result A :=
  match s with
  | None => (None, Errorf ErrInvalidIKEControl)
  | Some s =>
      if id_next s =? 0 then (Some s, Errorf ErrInvalidIKEControl) else
      (Some (mkMessageIDs (to_u32 (id_next s + 1))), fn (id_next s))
  end.
(** [NewIKECloseHandler] checks the configuration and chooses the payloads; the handler
    it returns sends them with the same id at every call. *)
Definition NewIKECloseHandler (transport : option Transport) (child : ChildSAResult) (nextMessageID : Z) (payloads : list Payload) : result (list Payload) :=
  match transport with
  | None => Errorf ErrInvalidIKEControl
  | Some _ =>
      if nextMessageID =? 0 then Errorf ErrInvalidIKEControl else
      let payloads := cloneIKEPayloads payloads in
      if len payloads =? 0 then map_err (fun _ => Sentinel ErrInvalidIKEControl) (TeardownDeletePayloads child true) else Ok payloads
  end.
Definition close_handler (init : InitResult) (keys : IKEKeys) (nextMessageID : Z) (payloads : list Payload) (env : Env) : result InformationalResult :=
  RunInformationalExchange (e_rand_Reader env) (mkInformational (e_transport env) init keys nextMessageID false payloads (e_random env) []).
(** [NewIKEMOBIKEHandler]; [c] has the fields of its configuration, its next id aside. *)
Definition NewIKEMOBIKEHandler (transport : option Transport) (nextMessageID : Z) (additional : list bytes) : result (list bytes * ikeControlMessageIDs) :=
  match transport with
  | None => Errorf ErrInvalidIKEControl
  | Some _ =>
      if nextMessageID =? 0 then Errorf ErrInvalidIKEControl else
      let! ids := newIKEControlMessageIDs nextMessageID in Ok (cloneIPs additional, ids)
  end.
Definition mobike_handler (c : ikePacketTunnelControl) (additional : list bytes) (ids : option ikeControlMessageIDs) (env : Env) (req : MOBIKERequest)
  : option ikeControlMessageIDs * result MOBIKEResult :=
  match mobikeUpdatePayloads (ct_init c) (ct_localIP c) (ct_remoteIP c) (ct_localPort c) (ct_remotePort c) additional (ct_noAdditionalAddresses c) req with
  | Ok payloads =>
      let '(ids', r) := MessageIDs_exchange ids (fun messageID =>
        let! res := control_informational c env messageID payloads in rejectMOBIKEResponse (ir2_ResponseInner res)) in
      (ids', let! _ := r in Ok (mobike_result req (ct_result c) (e_clock env)))
  | Err e => (ids, Err e)
  | Panic => (ids, Panic)
  | OutOfFuel => (ids, OutOfFuel)
  end.
End control.

(** ** Histories of calls *)
Inductive control_op := OpDPD | OpMOBIKE (req : MOBIKERequest) | OpRekey | OpClose.
Section history.
Context {C : Crypto} {T : NetText} `{!CryptoLaws C}.

(** A call, with the request of its exchange when the exchange succeeded. *)
Definition control_step (c : ikePacketTunnelControl) (op : control_op) (env : Env) : ikePacketTunnelControl * result bytes :=
  match op with
  | OpDPD => let '(c', r) := control_dpd c env in (c', let! res := r in Ok (ir2_RequestBytes res))
  | OpMOBIKE req => let '(c', r) := control_mobike c env req in (c', let! res := r in Ok (ir2_RequestBytes res))
  | OpRekey => let '(c', r) := control_rekey c env in (c', let! res := r in Ok (cs_RequestBytes res))
  | OpClose => let '(c', r) := control_close c env in (c', let! res := r in Ok (ir2_RequestBytes res))
  end.
Fixpoint control_run (c : ikePacketTunnelControl) (ops : list (control_op * Env)) : ikePacketTunnelControl * list (result bytes) :=
  match ops with
  | [] => (c, [])
  | (op, env) :: rest => let '(c', r) := control_step c op env in let '(c'', rs) := control_run c' rest in (c'', r :: rs)
  end.

Definition env_ok (env : Env) : Prop :=
  reader_ok (e_rand_Reader env) /\ match e_random env with Some r => reader_ok r | None => True end /\
  (forall exchange, e_transport env = Some exchange -> forall req, safe (exchange req) bytes_ok).
(** The child SA can be rekeyed and torn down; the keys are those of the IKE SA. *)
Definition child_ok (child : ChildSAResult) : Prop := child_fields_ok child /\ bytes_ok (cr_LocalSPI child).
Definition control_ok (c : ikePacketTunnelControl) : Prop :=
  is_u64 (ir_InitiatorSPI (ct_init c)) /\ is_u64 (ir_ResponderSPI (ct_init c)) /\ ct_keys c = ir_Keys (ct_init c) /\
  kp_PRF (k_Profile (ct_keys c)) <> HashNone /\ child_ok (ct_child c) /\ Forall address_ok (ct_additionalAddresses c).
(** A message of the IKE SA with an id. *)
Definition control_header (c : ikePacketTunnelControl) (id : Z) (h : Header) : Prop :=
  h_InitiatorSPI h = ir_InitiatorSPI (ct_init c) /\ h_ResponderSPI h = ir_ResponderSPI (ct_init c) /\ h_MessageID h = id.
(** The peer reads the request with this id, and what came back is its response. *)
Definition exchanged_with (c : ikePacketTunnelControl) (env : Env) (id : Z) (req : bytes) : Prop :=
  exists exchange resp mq inner m answer,
    e_transport env = Some exchange /\ UnprotectMessage req (ct_keys c) true = Ok (mq, inner) /\ control_header c id (m_Header mq) /\
    exchange req = Ok resp /\ UnprotectMessage resp (ct_keys c) false = Ok (m, answer) /\ control_header c id (m_Header m) /\
    Z.testbit (h_Flags (m_Header m)) 5 = true.

Lemma same_keys c cfg : control_ok c -> inf_Init cfg = ct_init c -> inf_Keys cfg = ct_keys c -> inf_keys cfg = ct_keys c.
Proof. intros (_ & _ & E & _) Hi Hk. unfold inf_keys. rewrite Hi, Hk, <- E. by case_match. Qed.
Lemma informational_exchanged c env id payloads : control_ok c -> env_ok env -> is_u32 id -> chain_ok payloads ->
  safe (control_informational c env id payloads) (fun res => exchanged_with c env id (ir2_RequestBytes res)).
Proof.
  intros Hc (Hr & Hrd & Hx) Hid Hch. unfold control_informational. set (cfg := mkInformational _ _ _ _ _ _ _ _).
  assert (Hcfg : inf_config_ok cfg) by (destruct Hc as (H1 & H2 & _); split_and!; done || constructor).
  eapply safe_mono; [by apply RunInformationalExchange_safe|].
  intros res (exchange & mq & m & inner & Ht & _ & Hq & Hh & He & Hm & Hmh & _). rewrite (same_keys c cfg Hc eq_refl eq_refl) in *.
  destruct Hh as (Ha1 & Ha2 & _ & Ha3 & _). destruct Hmh as (Hb1 & Hb2 & _ & Hb3 & _ & Hb4).
  by exists exchange, (ir2_ResponseBytes res), mq, (link_next (inf_Payloads cfg)), m, inner.
Qed.
Lemma esp_delete_ok spi : bytes_ok spi -> safe (ESPDeletePayload [spi]) (fun p => Payload_ok p /\ p_Type p = PayloadDelete).
Proof.
  intros Hb. unfold ESPDeletePayload, DeletePayload. assert (Hok : Delete_ok (mkDelete ProtocolESP [spi])) by (by split; [|constructor]).
  assert (Hr : returns (validateDelete (mkDelete ProtocolESP [spi]))) by (unfold validateDelete; repeat case_match; done).
  assert (Hret : returns (Delete_MarshalBinary (mkDelete ProtocolESP [spi]))) by (unfold Delete_MarshalBinary; by destruct (validateDelete _)).
  destruct (Delete_MarshalBinary (mkDelete ProtocolESP [spi])) as [b|e| |] eqn:E; try done.
  cbn [bind safe]. split; [|done]. split_and!; [done|done|]. exact (enc_bytes_ok (C := delete_codec) _ _ Hok E).
Qed.
Lemma teardown_chain child : child_ok child -> safe (TeardownDeletePayloads child true) chain_ok.
Proof.
  intros [_ Hb]. assert (Hike : Payload_ok IKEDeletePayload /\ p_Type IKEDeletePayload <> PayloadNoNext) by (split; [by_decide|done]).
  unfold TeardownDeletePayloads. eapply (safe_call _ _ chain_ok).
  - destruct (0 <? len (cr_LocalSPI child)) eqn:E; [|constructor]. unfold ChildSADeletePayload. replace (len (cr_LocalSPI child) =? 0) with false by lia.
    eapply (safe_call _ _ (fun p => Payload_ok p /\ p_Type p = PayloadDelete)); [by apply esp_delete_ok|].
    intros p [Hp Ht]. by constructor; [split; [done|by rewrite Ht]|constructor].
  - intros ps Hps. cbv zeta. assert (Hall : chain_ok (ps ++ [IKEDeletePayload])) by (apply Forall_app_2; [done|by constructor]).
    destruct (_ =? 0); [done|exact Hall].
Qed.

(** What a rekey leaves can be rekeyed again. *)
Lemma firstSA_ok ps : Forall Payload_ok ps -> yields (firstSecurityAssociation ps) (fun o => match o with Some sa => SA_ok sa | None => True end).
Proof.
  induction 1 as [|p ps (_ & _ & Hb) Hps IH]; [by intros o [= <-]|]. cbn [firstSecurityAssociation]. case_match; [done|].
  intros o (sa & Hsa & [= <-])%bind_ok. pose proof (ParseSecurityAssociation_safe (p_Body p) Hb) as Hs. rewrite Hsa in Hs. apply Hs.
Qed.
Lemma rekeyed_child c env : control_ok c -> env_ok env -> is_u32 (ct_nextMessageID c) ->
  safe (RunCREATE_CHILD_SARekey (e_rand_Reader env) (rekey_config c env)) (fun res =>
    child_ok (cs_ChildSA res) /\ cs_NextMessageID res = to_u32 (ct_nextMessageID c + 1) /\ exchanged_with c env (ct_nextMessageID c) (cs_RequestBytes res)).
Proof.
  intros Hc (Hr & Hrd & Hx) Hid. pose proof Hc as (Hi & Hrs & Hk & Hprf & [(Hsa & Hti & Htr) Hspi] & _).
  assert (Hcfg : rekey_config_ok (rekey_config c env)).
  { unfold rekey_config_ok, rekey_config. cbn. split_and!; try done; try by constructor. all: by apply Selector_ok_typed. }
  unfold RunCREATE_CHILD_SARekey. eapply safe_call; [by apply NewChildSARekeyPlan_safe|]. intros plan [Hp Hcreate]. set (cc := rp_Config plan) in *.
  destruct Hp as (_ & _ & _ & _ & _ & _ & _ & _ & _ & _ & _ & _ & Ht' & Hi' & Hk' & Hid' & _). fold cc in Ht', Hi', Hk', Hid'.
  cbn [rekey_config rk_Transport rk_Init rk_Keys rk_MessageID] in Ht', Hi', Hk', Hid'.
  assert (Hkeys : exchange_keys cc = ct_keys c) by (unfold exchange_keys; rewrite Hi', Hk', Hk; by destruct (_ =? 0)).
  eapply safe_mono; [apply (RunCREATE_CHILD_SA_safe (e_rand_Reader env) cc Hr Hcreate ltac:(by rewrite Hkeys) ltac:(by rewrite Ht'))|].
  intros res (exchange & payloads & spi & sa & mq & m & Hex & _ & _ & Hreq & Hun & Hmq & Hxr & Hur & Hm & Hbit & _ & _ & Hchild & Hnext & _).
  rewrite Hkeys in *. destruct Hreq as (Hch & Hfirst & (_ & p & -> & <-) & _). split; [|split; [by rewrite Hnext, Hid'|]].
  - split; [by apply Hchild|]. destruct Hchild as (_ & -> & _). pose proof (firstSA_ok payloads) as Hok. apply Hok in Hfirst.
    + apply (Forall_inv Hfirst).
    + eapply Forall_impl; [exact Hch|]. by intros q [? _].
  - unfold of_exchange in Hmq, Hm. rewrite Hi', Hid' in Hmq, Hm. destruct Hmq as (? & ? & _ & ?), Hm as (? & ? & _ & ?).
    exists exchange, (cs_ResponseBytes res), mq, (link_next payloads), m, (cs_ResponseInner res). split_and!; try done. by rewrite <- Ht'.
Qed.
Lemma step_spec c op env : control_ok c -> env_ok env -> 0 < ct_nextMessageID c -> ct_nextMessageID c + 1 < 2 ^ 32 ->
  let '(c', r) := control_step c op env in
  control_ok c' /\ ct_nextMessageID c' = ct_nextMessageID c + 1 /\ ct_init c' = ct_init c /\ ct_keys c' = ct_keys c /\
  safe r (exchanged_with c env (ct_nextMessageID c)).
Proof.
  intros Hc He Hpos Hmax. assert (Hid : is_u32 (ct_nextMessageID c)) by (unfold in_range; lia).
  assert (Hinc : to_u32 (ct_nextMessageID c + 1) = ct_nextMessageID c + 1) by (unfold to_u32; apply Z.mod_small; lia).
  assert (Hreq : forall r : result InformationalResult, safe r (fun res => exchanged_with c env (ct_nextMessageID c) (ir2_RequestBytes res)) ->
    safe (let! res := r in Ok (ir2_RequestBytes res)) (exchanged_with c env (ct_nextMessageID c))).
  { intros r Hr. by eapply safe_call. }
  assert (Hsend : forall r, safe r chain_ok -> safe (let! ps := r in control_informational c env (ct_nextMessageID c) ps)
    (fun res => exchanged_with c env (ct_nextMessageID c) (ir2_RequestBytes res))).
  { intros r Hs. eapply safe_call; [exact Hs|]. intros ps Hps. by apply informational_exchanged. }
  destruct op as [|req| |]; cbn [control_step].
  - unfold control_dpd, RunLivenessCheck. cbn [inf_Transport inf_Init inf_Keys inf_MessageID inf_FromResponder inf_Random inf_IV].
    split; [exact Hc|]. split; [exact Hinc|]. split; [done|]. split; [done|]. apply Hreq. apply (informational_exchanged c env _ []); [done..|constructor].
  - unfold control_mobike. split; [exact Hc|]. split; [exact Hinc|]. split; [done|]. split; [done|]. apply Hreq, Hsend.
    destruct (update_payloads (ct_init c) (ct_localIP c) (ct_remoteIP c) (ct_localPort c) (ct_remotePort c) (ct_additionalAddresses c) (ct_noAdditionalAddresses c) req) as (ps & -> & Hps);
      [apply Hc|by apply notifies_chain].
  - unfold control_rekey. replace (ct_nextMessageID c =? 0) with false by lia. cbv zeta. pose proof (rekeyed_child c env Hc He Hid) as Hs.
    destruct (RunCREATE_CHILD_SARekey (e_rand_Reader env) (rekey_config c env)) as [res|e| |]; try done; try (split; [exact Hc|]; split; [exact Hinc|]; done).
    destruct Hs as (Hchild & Hnext & Hx). cbn [ct_nextMessageID ct_init ct_keys]. rewrite Hnext, Hinc.
    replace (ct_nextMessageID c + 1 =? 0) with false by lia. cbn [negb]. destruct Hc as (H1 & H2 & H3 & H4 & _ & H6). split; [by split_and!|]. split; [done|]. split; [done|]. split; [done|]. exact Hx.
  - unfold control_close. split; [exact Hc|]. split; [exact Hinc|]. split; [done|]. split; [done|]. apply Hreq, Hsend. apply teardown_chain, Hc.
Qed.
Lemma exchanged_same c c' env id req : ct_init c' = ct_init c -> ct_keys c' = ct_keys c -> exchanged_with c' env id req -> exchanged_with c env id req.
Proof. unfold exchanged_with, control_header. by intros -> ->. Qed.
Lemma run_spec c ops : control_ok c -> Forall (fun o => env_ok o.2) ops -> 0 < ct_nextMessageID c -> ct_nextMessageID c + len ops < 2 ^ 32 ->
  let '(c', rs) := control_run c ops in
  control_ok c' /\ ct_nextMessageID c' = ct_nextMessageID c + len ops /\ length rs = length ops /\
  forall i op env r, ops !! i = Some (op, env) -> rs !! i = Some r -> safe r (exchanged_with c env (ct_nextMessageID c + Z.of_nat i)).
Proof.
  intros Hc Hops. revert c Hc. induction Hops as [|[op env] ops He Hops IH]; intros c Hc Hpos Hmax; cbn [control_run]; [split_and!; [done|len_lia|done|done]|].
  assert (Hl : len ((op, env) :: ops) = 1 + len ops) by len_lia. rewrite Hl in *. pose proof (len_nonneg ops).
  pose proof (step_spec c op env Hc He Hpos ltac:(lia)) as Hs. destruct (control_step c op env) as [c1 r1]. destruct Hs as (Hc1 & Hn1 & Hi1 & Hk1 & Hr1).
  specialize (IH c1 Hc1 ltac:(lia) ltac:(lia)). destruct (control_run c1 ops) as [c2 rs]. destruct IH as (Hc2 & Hn2 & Hlen & Hrs).
  split; [done|]. split; [lia|]. split; [cbn; by rewrite Hlen|]. intros [|i] op' env' r Hop Hr.
  - injection Hop as <- <-. injection Hr as <-. by rewrite Z.add_0_r.
  - eapply safe_mono; [exact (Hrs i op' env' r Hop Hr)|]. intros req Hx. apply (exchanged_same _ _ _ _ _ Hi1 Hk1) in Hx. by replace (ct_nextMessageID c + Z.of_nat (S i)) with (ct_nextMessageID c1 + Z.of_nat i) by lia.
Qed.
(** C18: The calls of the control plane share one sequence of message ids: over any
    history of probes, address updates, rekeys and a close, on any transports and
    whatever they answer, no call panics, the i-th call takes the i-th id after the
    first, whether it succeeds or not, so that no id is used twice; when it
    succeeds, the peer can read its request with this id under the keys of the IKE
    SA, and the answer is an authentic response with the same id.  The state stays
    fit for the next call; in particular the child SA of a rekey can be rekeyed and
    torn down. *)
Theorem control_message_ids (c : ikePacketTunnelControl) (ops : list (control_op * Env)) :
  control_ok c -> Forall (fun o => env_ok o.2) ops -> 0 < ct_nextMessageID c -> ct_nextMessageID c + len ops < 2 ^ 32 ->
  let '(c', rs) := control_run c ops in
  control_ok c' /\ ct_nextMessageID c' = ct_nextMessageID c + len ops /\ length rs = length ops /\
  forall i op env r, ops !! i = Some (op, env) -> rs !! i = Some r -> safe r (exchanged_with c env (ct_nextMessageID c + Z.of_nat i)).
Proof. apply run_spec. Qed.

(** A peer that waits for one request: it answers no other one (RFC 7296 section
    2.3, a window of one).  Once the request with the id [n] is lost, no later call
    gets an answer: the lost request is never sent again. *)
Definition waits_for (c : ikePacketTunnelControl) (n : Z) (exchange : Transport) : Prop :=
  forall req resp m inner, exchange req = Ok resp -> UnprotectMessage req (ct_keys c) true = Ok (m, inner) -> h_MessageID (m_Header m) = n.
Lemma lost_request_blocks c ops n : control_ok c -> Forall (fun o => env_ok o.2) ops -> 0 < ct_nextMessageID c -> ct_nextMessageID c + len ops < 2 ^ 32 ->
  n < ct_nextMessageID c -> (forall op env exchange, (op, env) ∈ ops -> e_transport env = Some exchange -> waits_for c n exchange) ->
  Forall (fun r => exists e, r = Err e) (control_run c ops).2.
Proof.
  intros Hc Hops Hpos Hmax Hn Hw. pose proof (run_spec c ops Hc Hops Hpos Hmax) as Hs. destruct (control_run c ops) as [c' rs]. destruct Hs as (_ & _ & Hlen & Hs).
  apply Forall_lookup. intros i r Hr. assert (Hi : (i < length ops)%nat) by (rewrite <- Hlen; by eapply lookup_lt_Some).
  destruct (lookup_lt_is_Some_2 ops i Hi) as [[op env] Hop]. specialize (Hs i op env r Hop Hr). destruct r as [req|e| |]; [|by exists e|done..].
  destruct Hs as (exchange & resp & mq & inner & m & answer & Ht & Hu & (_ & _ & Hid) & Hx & _). exfalso.
  pose proof (Hw op env exchange ltac:(by eapply list_elem_of_lookup_2) Ht req resp mq inner Hx Hu). lia.
Qed.
End history.

(** One probe that is answered. *)
#[local] Instance no_text : NetText := {| net_ParseIP _ := None; IP_String ip := ip |}.
Definition sample_control : ikePacketTunnelControl :=
  mkControl (sample_init (sample_keys sample_gcm_profile)) (sample_keys sample_gcm_profile) zeroChildResult 5
    (mkTunnelResult true [] [] [] [] [] [] 0 0 [] [] true true true [] "" 0) [] [] 0 0 [] false.
Definition sample_env : Env := mkEnv (Some (fun _ => Ok sample_pong)) None None zero_reader 0.
Lemma sample_control_ok : control_ok sample_control.
Proof.
  unfold control_ok, child_ok, child_fields_ok. split; [by_decide|]. split; [by_decide|]. split; [reflexivity|]. split; [discriminate|].
  split; [split; [split; [by_decide|split; by_decide]|constructor]|constructor].
Qed.
Lemma sample_env_ok : env_ok sample_env.
Proof. split; [exact zero_reader_ok|]. split; [exact I|]. intros exchange Hx. injection Hx as <-. intros req. cbn [safe]. by_decide. Qed.
Lemma control_message_ids_witness :
  exists req, (control_run (C := toy_crypto) sample_control [(OpDPD, sample_env); (OpDPD, sample_env)]).2 !! 0%nat = Some (Ok req) /\ exchanged_with (C := toy_crypto) sample_control sample_env 5 req.
Proof.
  pose proof (control_message_ids (C := toy_crypto) sample_control [(OpDPD, sample_env); (OpDPD, sample_env)]) as H.
  destruct (control_run (C := toy_crypto) sample_control [(OpDPD, sample_env); (OpDPD, sample_env)]) as [c' rs] eqn:E.
  destruct rs as [|[req|e| |] rs]; try (vm_compute in E; discriminate E). exists req. split; [reflexivity|].
  destruct H as (_ & _ & _ & H); [exact sample_control_ok|constructor; [exact sample_env_ok|constructor; [exact sample_env_ok|constructor]]|by_decide|by_decide|].
  exact (H 0%nat OpDPD sample_env (Ok req) eq_refl eq_refl).
Defined.
