(* ===== verification/Natt.v ===== *)
(** * The shared NAT-T socket (engine/swu/natt_shared_transport.go, udp_esp_transport.go)

    IKE and ESP share one UDP socket: a datagram with the non-ESP marker is IKE, a
    single 0xff is a keepalive, the rest is ESP.  A goroutine reads the socket and
    puts the packets into two buffered channels; callers write to the socket and
    read from the channels.  The goroutine and the callers interleave: the model
    is a step function on events, [None] where an event cannot happen, so a list
    of events is one schedule.  Dialling, deadlines and contexts are events that
    end a call with an error; the mutexes make the steps atomic. *)
From S2P Require Import Prelude Errors.
#[local] Open Scope string_scope.
#[local] Open Scope list_scope.
#[local] Open Scope Z_scope.

(** ** Datagrams (udp_esp_transport.go) *)
Definition isNATTKeepalive (packet : bytes) : bool := match packet with [b] => b =? 0xff | _ => false end.
Definition isNonESPMarker (packet : bytes) : bool :=
  match packet with a :: b :: c :: d :: _ => (a =? 0) && (b =? 0) && (c =? 0) && (d =? 0) | _ => false end.
Definition nonESPMarker : bytes := [0; 0; 0; 0].

(** The cases of [readLoop]. *)
Inductive datagram := Keepalive | IKE (packet : bytes) | ESP (packet : bytes) | TooShort.
Definition classify (packet : bytes) : datagram :=
  if isNATTKeepalive packet then Keepalive
  else if isNonESPMarker packet then IKE (drop 4 packet)
  else if 8 <=? len packet then ESP packet
  else TooShort.

(** [UDPESPPacketTransport]: what it sends, and what [ReadESPPacket] makes of the
    datagrams the socket gives, one per turn of its loop; [None] when it waits. *)
Definition UDP_SendESPPacket (packet : bytes) : result bytes :=
  if len packet <? 8 then Errorf ErrInvalidPacketTunnel else
  if isNonESPMarker packet then Errorf ErrInvalidPacketTunnel else Ok packet.
Definition UDP_SendNATTKeepalive : bytes := [0xff].
Fixpoint UDP_ReadESPPacket (wires : list bytes) : option (result bytes) :=
  match wires with
  | [] => None
  | wire :: rest =>
      if isNATTKeepalive wire then UDP_ReadESPPacket rest
      else if isNonESPMarker wire then UDP_ReadESPPacket rest
      else if len wire <? 8 then Some (Errorf ErrInvalidPacketTunnel)
      else Some (Ok wire)
  end.

(** ** The shared socket *)
Record sharedNATTUDPConn := mkConn {
  nt_dialled : bool;
  nt_closed : bool;
  nt_readErr : option error;
  nt_ikeCh : list bytes;
  nt_espCh : list bytes;
  (* the reader: running, and the packet for which it waits on a full channel *)
  nt_reading : bool;
  nt_blocked : option datagram;
  (* an exchange holds [ikeMu]; the calls of [readESP] that wait *)
  nt_exchange : bool;
  nt_espReads : nat;
  (* what was written to the socket *)
  nt_wire : list bytes
}.
Definition ikeCh_size := 16.
Definition espCh_size := 256.
Definition newSharedNATTTransport : sharedNATTUDPConn := mkConn false false None [] [] false None false 0 [].

(** [Receive], [Unblock], [ReaderStops] and [ReadError] are steps of the reader
    goroutine; after [Close] it may still have read a datagram, until it stops.  A call
    that writes has the error of its dial and of its write, if any. *)
Inductive event :=
| Receive (packet : bytes)
| Unblock
| ReaderStops
| ReadError (e : error)
| StartIKE (request : bytes) (dial fault : option error)
| AnswerIKE | TimeoutIKE (e : error) | FailIKE | ClosedIKE
| SendESP (packet : bytes) (dial fault : option error)
| SendKeepalive (dial fault : option error)
| StartESPRead (dial : option error)
| AnswerESP | CancelESP (e : error) | FailESP | ClosedESP
| Close.
Inductive output := IKEResult (r : result bytes) | ESPResult (r : result bytes) | SendResult (r : result unit).

Definition with_channels (s : sharedNATTUDPConn) (ike esp : list bytes) (blocked : option datagram) : sharedNATTUDPConn :=
  mkConn (nt_dialled s) (nt_closed s) (nt_readErr s) ike esp (nt_reading s) blocked (nt_exchange s) (nt_espReads s) (nt_wire s).
Definition with_calls (s : sharedNATTUDPConn) (exchange : bool) (reads : nat) : sharedNATTUDPConn :=
  mkConn (nt_dialled s) (nt_closed s) (nt_readErr s) (nt_ikeCh s) (nt_espCh s) (nt_reading s) (nt_blocked s) exchange reads (nt_wire s).
(** [ch <- packet], or waiting for room. *)
Definition put (s : sharedNATTUDPConn) (d : datagram) : sharedNATTUDPConn :=
  match d with
  | IKE p => if len (nt_ikeCh s) <? ikeCh_size then with_channels s (nt_ikeCh s ++ [p]) (nt_espCh s) None else with_channels s (nt_ikeCh s) (nt_espCh s) (Some d)
  | ESP p => if len (nt_espCh s) <? espCh_size then with_channels s (nt_ikeCh s) (nt_espCh s ++ [p]) None else with_channels s (nt_ikeCh s) (nt_espCh s) (Some d)
  | Keepalive | TooShort => s
  end.
(** The first call dials and starts the reader. *)
Definition ensureConn (s : sharedNATTUDPConn) (dial : option error) : sharedNATTUDPConn * result unit :=
  if nt_closed s then (s, Errorf ErrPacketTunnelClosed) else
  if nt_dialled s then (s, Ok tt) else
  match dial with
  | Some e => (s, Err e)
  | None => (mkConn true (nt_closed s) (nt_readErr s) (nt_ikeCh s) (nt_espCh s) true (nt_blocked s) (nt_exchange s) (nt_espReads s) (nt_wire s), Ok tt)
  end.
Definition write (s : sharedNATTUDPConn) (packet : bytes) (dial fault : option error) : sharedNATTUDPConn * result unit :=
  let '(s, r) := ensureConn s dial in
  match r, fault with
  | Ok _, None => (mkConn (nt_dialled s) (nt_closed s) (nt_readErr s) (nt_ikeCh s) (nt_espCh s) (nt_reading s) (nt_blocked s) (nt_exchange s) (nt_espReads s)
                     (nt_wire s ++ [packet]), Ok tt)
  | Ok _, Some e => (s, Err e)
  | r, _ => (s, r)
  end.
Definition failure (s : sharedNATTUDPConn) : error := match nt_readErr s with None => Sentinel ErrPacketTunnelClosed | Some e => e end.
(** A call of [readESP] returns. *)
Definition esp_returns (s : sharedNATTUDPConn) (r : result bytes) : option (sharedNATTUDPConn * list output) :=
  match nt_espReads s with O => None | S n => Some (with_calls s (nt_exchange s) n, [ESPResult r]) end.
(** The exchange returns and releases [ikeMu]. *)
Definition ike_returns (s : sharedNATTUDPConn) (r : result bytes) : option (sharedNATTUDPConn * list output) :=
  if nt_exchange s then Some (with_calls s false (nt_espReads s), [IKEResult r]) else None.

Definition nstep (s : sharedNATTUDPConn) (e : event) : option (sharedNATTUDPConn * list output) :=
  match e with
  | Receive packet =>
      match nt_blocked s with None => if nt_reading s then Some (put s (classify packet), []) else None | Some _ => None end
  | Unblock =>
      match nt_blocked s with
      | Some d => match nt_blocked (put s d) with None => if nt_reading s then Some (put s d, []) else None | Some _ => None end
      | None => None
      end
  | ReaderStops =>
      if nt_reading s && nt_closed s
      then Some (mkConn (nt_dialled s) (nt_closed s) (nt_readErr s) (nt_ikeCh s) (nt_espCh s) false None (nt_exchange s) (nt_espReads s) (nt_wire s), [])
      else None
  | ReadError err =>
      match nt_blocked s with
      | None =>
          if nt_reading s
          then Some (mkConn (nt_dialled s) (nt_closed s) (match nt_readErr s with None => Some err | old => old end) (nt_ikeCh s) (nt_espCh s) false None
                       (nt_exchange s) (nt_espReads s) (nt_wire s), [])
          else None
      | Some _ => None
      end
  | StartIKE request dial fault =>
      if nt_exchange s then None else
      let '(s', r) := write s (nonESPMarker ++ request) dial fault in
      match r with Ok _ => Some (with_calls s' true (nt_espReads s'), []) | Err err => Some (s', [IKEResult (Err err)]) | _ => None end
  | AnswerIKE => match nt_ikeCh s with packet :: rest => ike_returns (with_channels s rest (nt_espCh s) (nt_blocked s)) (Ok packet) | [] => None end
  | TimeoutIKE err => ike_returns s (Err err)
  | FailIKE => match nt_readErr s with Some _ => ike_returns s (Err (failure s)) | None => None end
  | ClosedIKE => if nt_closed s then ike_returns s (Errorf ErrPacketTunnelClosed) else None
  | SendESP packet dial fault =>
      if (len packet <? 8) || isNonESPMarker packet then Some (s, [SendResult (Errorf ErrInvalidPacketTunnel)]) else
      let '(s', r) := write s packet dial fault in Some (s', [SendResult r])
  | SendKeepalive dial fault => let '(s', r) := write s [0xff] dial fault in Some (s', [SendResult r])
  | StartESPRead dial =>
      let '(s', r) := ensureConn s dial in
      match r with Ok _ => Some (with_calls s' (nt_exchange s') (S (nt_espReads s')), []) | Err err => Some (s', [ESPResult (Err err)]) | _ => None end
  | AnswerESP => match nt_espCh s with packet :: rest => esp_returns (with_channels s (nt_ikeCh s) rest (nt_blocked s)) (Ok packet) | [] => None end
  | CancelESP err => esp_returns s (Err err)
  | FailESP => match nt_readErr s with Some _ => esp_returns s (Err (failure s)) | None => None end
  | ClosedESP => if nt_closed s then esp_returns s (Errorf ErrPacketTunnelClosed) else None
  | Close => Some (mkConn (nt_dialled s) true (nt_readErr s) (nt_ikeCh s) (nt_espCh s) (nt_reading s) (nt_blocked s) (nt_exchange s) (nt_espReads s) (nt_wire s), [])
  end.
Fixpoint nrun (s : sharedNATTUDPConn) (events : list event) : option (sharedNATTUDPConn * list output) :=
  match events with
  | [] => Some (s, [])
  | e :: rest =>
      match nstep s e with
      | None => None
      | Some (s', out) => match nrun s' rest with None => None | Some (s'', out') => Some (s'', out ++ out') end
      end
  end.

(** ** What is sent is read as what it was *)
Lemma marker_classified request : classify (nonESPMarker ++ request) = IKE request.
Proof. done. Qed.
Lemma esp_classified packet : 8 <= len packet -> isNonESPMarker packet = false -> classify packet = ESP packet.
Proof.
  intros Hl Hm. unfold classify. rewrite Hm. replace (8 <=? len packet) with true by lia. destruct packet as [|a [|b packet]]; [done|done|]. done.
Qed.
(** What an event sends. *)
Definition says (e : event) : list datagram :=
  match e with StartIKE request _ _ => [IKE request] | SendESP packet _ _ => [ESP packet] | SendKeepalive _ _ => [Keepalive] | _ => [] end.
Lemma write_wire s packet dial fault : let '(s', r) := write s packet dial fault in
  nt_wire s' = nt_wire s ++ match r with Ok _ => [packet] | _ => [] end.
Proof. unfold write, ensureConn. destruct (nt_closed s), (nt_dialled s), dial, fault; cbn; by rewrite ?app_nil_r. Qed.

(** ** What is received is delivered in order *)
Definition ike_of (d : datagram) : list bytes := match d with IKE p => [p] | _ => [] end.
Definition esp_of (d : datagram) : list bytes := match d with ESP p => [p] | _ => [] end.
Definition received (e : event) : list datagram := match e with Receive packet => [classify packet] | _ => [] end.
Definition ike_answers (o : output) : list bytes := match o with IKEResult (Ok p) => [p] | _ => [] end.
Definition esp_answers (o : output) : list bytes := match o with ESPResult (Ok p) => [p] | _ => [] end.
Definition waiting (s : sharedNATTUDPConn) : list datagram := match nt_blocked s with Some d => [d] | None => [] end.

(** [lost] are the packets the reader dropped when it stopped. *)
Definition accounts (s : sharedNATTUDPConn) (arrived_ike arrived_esp read_ike read_esp lost_ike lost_esp : list bytes) : Prop :=
  read_ike ++ nt_ikeCh s ++ concat (ike_of <$> waiting s) ++ lost_ike = arrived_ike /\
  read_esp ++ nt_espCh s ++ concat (esp_of <$> waiting s) ++ lost_esp = arrived_esp /\
  len (lost_ike ++ lost_esp) <= 1 /\
  (lost_ike ++ lost_esp <> [] -> nt_closed s = true /\ nt_reading s = false) /\
  len (nt_ikeCh s) <= ikeCh_size /\ len (nt_espCh s) <= espCh_size.
Definition demultiplexed s arrived_ike arrived_esp read_ike read_esp : Prop :=
  exists lost_ike lost_esp, accounts s arrived_ike arrived_esp read_ike read_esp lost_ike lost_esp.

Lemma nothing_lost s (li le : list bytes) : nt_reading s = true ->
  (li ++ le <> [] -> nt_closed s = true /\ nt_reading s = false) -> li = [] /\ le = [].
Proof. intros Hr Hc. destruct li, le; try done; (destruct Hc as [_ ?]; [done|congruence]). Qed.
Lemma ensureConn_accounts s dial ai ae ri re : demultiplexed s ai ae ri re -> demultiplexed (ensureConn s dial).1 ai ae ri re.
Proof.
  intros (li & le & HA). exists li, le. unfold ensureConn. destruct (nt_closed s) eqn:E, (nt_dialled s), dial; try exact HA.
  destruct HA as (Hi & He & Hl & Hc & Hs & Hs'). unfold accounts. cbn [fst nt_closed nt_reading nt_ikeCh nt_espCh]. split_and!; try done.
  intros H. destruct (Hc H). congruence.
Qed.
Lemma write_accounts s packet dial fault ai ae ri re :
  demultiplexed s ai ae ri re -> demultiplexed (write s packet dial fault).1 ai ae ri re.
Proof.
  intros H%(fun H => ensureConn_accounts s dial ai ae ri re H). unfold write. destruct (ensureConn s dial) as [s' r]; cbn [fst] in H.
  by destruct r, fault.
Qed.
Lemma put_accounts s d ai ae ri re : nt_blocked s = None -> nt_reading s = true ->
  demultiplexed s ai ae ri re -> demultiplexed (put s d) (ai ++ ike_of d) (ae ++ esp_of d) ri re.
Proof.
  intros Hb Hr (li & le & Hi & He & Hl & Hc & Hs & Hs'). unfold waiting in Hi, He. rewrite Hb in Hi, He. cbn [fmap list_fmap concat app] in Hi, He.
  apply (nothing_lost s) in Hc as [-> ->]; [|done].
  rewrite !app_nil_r in Hi, He. subst ai ae. exists [], []. unfold put, accounts, waiting.
  destruct d as [|p|p|]; [| destruct (len (nt_ikeCh s) <? ikeCh_size) eqn:E | destruct (len (nt_espCh s) <? espCh_size) eqn:E |];
    cbn; rewrite ?Hb; cbn; rewrite ?app_nil_r, ?len_app, ?app_assoc; repeat split; try done; len_lia.
Qed.

Lemma with_calls_accounts s x n ai ae ri re : demultiplexed s ai ae ri re -> demultiplexed (with_calls s x n) ai ae ri re.
Proof. done. Qed.
Lemma ike_returns_accounts s err s' out ai ae ri re : ike_returns s (Err err) = Some (s', out) -> demultiplexed s ai ae ri re ->
  demultiplexed s' ai ae (ri ++ concat (ike_answers <$> out)) (re ++ concat (esp_answers <$> out)).
Proof. unfold ike_returns. destruct (nt_exchange s); [|done]. intros [= <- <-] H. cbn. by rewrite !app_nil_r. Qed.
Lemma esp_returns_accounts s err s' out ai ae ri re : esp_returns s (Err err) = Some (s', out) -> demultiplexed s ai ae ri re ->
  demultiplexed s' ai ae (ri ++ concat (ike_answers <$> out)) (re ++ concat (esp_answers <$> out)).
Proof. unfold esp_returns. destruct (nt_espReads s); [done|]. intros [= <- <-] H. cbn. by rewrite !app_nil_r. Qed.
(** The reader ends: the packet with which it waited is lost. *)
Lemma reader_stops_accounts s err ai ae ri re : nt_reading s = true -> (nt_blocked s <> None -> nt_closed s = true) -> demultiplexed s ai ae ri re ->
  demultiplexed (mkConn (nt_dialled s) (nt_closed s) err (nt_ikeCh s) (nt_espCh s) false None (nt_exchange s) (nt_espReads s) (nt_wire s)) ai ae ri re.
Proof.
  intros Hr Hclosed (li & le & Hi & He & Hl & Hc & Hs & Hs').
  apply (nothing_lost s) in Hc as [-> ->]; [|done].
  exists (concat (ike_of <$> waiting s)), (concat (esp_of <$> waiting s)). unfold accounts.
  cbn [nt_closed nt_reading nt_ikeCh nt_espCh]. rewrite app_nil_r in Hi, He. unfold waiting in *.
  split_and!; try done.
  - by destruct (nt_blocked s) as [[]|].
  - intros Hlost. split; [|done]. apply Hclosed. by destruct (nt_blocked s).
Qed.
Lemma ensureConn_blocked s dial : nt_blocked (ensureConn s dial).1 = nt_blocked s.
Proof. unfold ensureConn. by destruct (nt_closed s), (nt_dialled s), dial. Qed.

Lemma nstep_accounts s e s' out ai ae ri re : nstep s e = Some (s', out) -> demultiplexed s ai ae ri re ->
  demultiplexed s' (ai ++ concat (ike_of <$> received e)) (ae ++ concat (esp_of <$> received e))
    (ri ++ concat (ike_answers <$> out)) (re ++ concat (esp_answers <$> out)).
Proof.
  intros Hs H. destruct e as [packet| | |err|request dial fault| |err| | |packet dial fault|dial fault|dial| |err| | |];
    cbn [nstep received fmap list_fmap concat] in *; rewrite ?app_nil_r.
  - destruct (nt_blocked s) eqn:Hb; [done|]. destruct (nt_reading s) eqn:Hr; [|done]. injection Hs as <- <-. cbn. rewrite !app_nil_r. by apply put_accounts.
  - destruct (nt_blocked s) as [d|] eqn:Hb; [|done]. destruct (nt_blocked (put s d)) eqn:Hp; [done|]. destruct (nt_reading s) eqn:Hr; [|done].
    injection Hs as <- <-. cbn. rewrite !app_nil_r. destruct H as (li & le & Hi & He & Hl & Hc & Hsz & Hsz'). exists li, le.
    unfold put, accounts, waiting in *. rewrite Hb in *.
    destruct d as [|p|p|]; [by rewrite Hb in Hp| destruct (len (nt_ikeCh s) <? ikeCh_size) eqn:E; [|done]
      | destruct (len (nt_espCh s) <? espCh_size) eqn:E; [|done] | by rewrite Hb in Hp]; cbn in *; rewrite ?len_app in *; rewrite <- ?app_assoc in *;
    split_and!; try done; len_lia.
  - destruct (nt_reading s) eqn:Hr, (nt_closed s) eqn:Hc; try done. injection Hs as <- <-. cbn. rewrite !app_nil_r. rewrite <- Hc. by apply reader_stops_accounts.
  - destruct (nt_blocked s) eqn:Hb; [done|]. destruct (nt_reading s) eqn:Hr; [|done]. injection Hs as <- <-. cbn. rewrite !app_nil_r.
    apply reader_stops_accounts; [done|by rewrite Hb|done].
  - destruct (nt_exchange s); [done|]. apply (write_accounts _ (nonESPMarker ++ request) dial fault) in H. destruct (write s _ dial fault) as [s1 r]; destruct r; try done;
      injection Hs as <- <-; cbn; by rewrite !app_nil_r.
  - destruct (nt_ikeCh s) as [|p rest] eqn:E; [done|]. unfold ike_returns in Hs. cbn in Hs. destruct (nt_exchange s); [|done]. injection Hs as <- <-. cbn. rewrite app_nil_r.
    destruct H as (li & le & Hi & He & Hl & Hc & Hsz & Hsz'). exists li, le. unfold accounts, waiting in *. cbn. rewrite E in *. rewrite <- app_assoc. split_and!; try done. len_lia.
  - by eapply ike_returns_accounts.
  - destruct (nt_readErr s); [|done]. by eapply ike_returns_accounts.
  - destruct (nt_closed s); [|done]. by eapply ike_returns_accounts.
  - destruct (_ || _); [injection Hs as <- <-; cbn; by rewrite !app_nil_r|]. apply (write_accounts _ packet dial fault) in H. destruct (write s _ dial fault) as [s1 r].
    injection Hs as <- <-. cbn. by rewrite !app_nil_r.
  - apply (write_accounts _ [0xff] dial fault) in H. destruct (write s _ dial fault) as [s1 r]. injection Hs as <- <-. cbn. by rewrite !app_nil_r.
  - apply (ensureConn_accounts _ dial) in H. destruct (ensureConn s dial) as [s1 r]; destruct r; try done; injection Hs as <- <-; cbn; by rewrite !app_nil_r.
  - destruct (nt_espCh s) as [|p rest] eqn:E; [done|]. unfold esp_returns in Hs. cbn in Hs. destruct (nt_espReads s); [done|]. injection Hs as <- <-. cbn. rewrite app_nil_r.
    destruct H as (li & le & Hi & He & Hl & Hc & Hsz & Hsz'). exists li, le. unfold accounts, waiting in *. cbn. rewrite E in *. rewrite <- app_assoc. split_and!; try done. len_lia.
  - by eapply esp_returns_accounts.
  - destruct (nt_readErr s); [|done]. by eapply esp_returns_accounts.
  - destruct (nt_closed s); [|done]. by eapply esp_returns_accounts.
  - injection Hs as <- <-. cbn. rewrite !app_nil_r. destruct H as (li & le & Hi & He & Hl & Hc & Hsz & Hsz'). exists li, le.
    split_and!; try done. intros H. by destruct (Hc H).
Qed.

Lemma write_says s packet dial fault d : classify packet = d ->
  exists w, nt_wire (write s packet dial fault).1 = nt_wire s ++ w /\ sublist (classify <$> w) [d].
Proof.
  intros Hd. pose proof (write_wire s packet dial fault) as H. destruct (write s packet dial fault) as [s' r]. cbn [fst].
  eexists. split; [exact H|]. destruct r; cbn; rewrite ?Hd; repeat constructor.
Qed.
Lemma put_wire s d : nt_wire (put s d) = nt_wire s.
Proof. unfold put. destruct d; try done; by case_match. Qed.
Lemma ensureConn_wire s dial : nt_wire (ensureConn s dial).1 = nt_wire s.
Proof. unfold ensureConn. by destruct (nt_closed s), (nt_dialled s), dial. Qed.
Lemma nstep_says s e s' out : nstep s e = Some (s', out) ->
  exists w, nt_wire s' = nt_wire s ++ w /\ sublist (classify <$> w) (says e).
Proof.
  intros Hs. destruct e as [packet| | |err|request dial fault| |err| | |packet dial fault|dial fault|dial| |err| | |]; cbn [nstep says] in *.
  5: { pose proof (write_says s (nonESPMarker ++ request) dial fault _ (marker_classified request)) as H. destruct (nt_exchange s); [done|].
       destruct (write s _ dial fault) as [s1 r]; destruct r; try done; injection Hs as <- _; exact H. }
  9: { destruct (_ || _) eqn:E; [injection Hs as <- _; exists []; rewrite app_nil_r; split; [done|repeat constructor]|].
       apply orb_false_iff in E as [E1 E2].
       pose proof (write_says s packet dial fault _ (esp_classified packet ltac:(lia) E2)) as H. destruct (write s _ dial fault) as [s1 r]. injection Hs as <- _; exact H. }
  9: { pose proof (write_says s [0xff] dial fault _ eq_refl) as H. destruct (write s _ dial fault) as [s1 r]. injection Hs as <- _; exact H. }
  all: exists []; rewrite app_nil_r; split; [|constructor].
  9: { pose proof (ensureConn_wire s dial) as H. destruct (ensureConn s dial) as [s1 r]; destruct r; try done; injection Hs as <- _; exact H. }
  all: unfold ike_returns, esp_returns in Hs; repeat (case_match; try done); injection Hs as <- _; by rewrite ?put_wire.
Qed.

Lemma nrun_traffic events : forall s s' out ai ae ri re said,
  nrun s events = Some (s', out) -> demultiplexed s ai ae ri re -> sublist (classify <$> nt_wire s) said ->
  demultiplexed s' (ai ++ concat (ike_of <$> concat (received <$> events))) (ae ++ concat (esp_of <$> concat (received <$> events)))
    (ri ++ concat (ike_answers <$> out)) (re ++ concat (esp_answers <$> out)) /\
  sublist (classify <$> nt_wire s') (said ++ concat (says <$> events)).
Proof.
  induction events as [|e events IH]; intros s s' out ai ae ri re said Hrun H Hsaid; cbn [nrun] in Hrun.
  { injection Hrun as <- <-. cbn. by rewrite !app_nil_r. }
  destruct (nstep s e) as [[s1 out1]|] eqn:Hs; [|done]. destruct (nrun s1 events) as [[s2 out2]|] eqn:Hr; [|done]. injection Hrun as <- <-.
  pose proof (nstep_accounts _ _ _ _ _ _ _ _ Hs H) as H1. destruct (nstep_says _ _ _ _ Hs) as (w & Hw & Hsays).
  assert (sublist (classify <$> nt_wire s1) (said ++ says e)) as Hsaid1 by (rewrite Hw, fmap_app; by apply sublist_app).
  destruct (IH _ _ _ _ _ _ _ _ Hr H1 Hsaid1) as [H2 H3]. rewrite !fmap_app, !concat_app.
  cbn [fmap list_fmap concat] in *. rewrite !fmap_app, !concat_app, <- !app_assoc in *. done.
Qed.

(** C23: whatever the schedule of the reader goroutine, the exchanges, the sends and the
    reads, the shared socket multiplexes faithfully.  The IKE packets that exchanges
    returned, those in the channel, the one for which the reader waits and at most one lost
    when the socket was closed are, in this order, the IKE packets that arrived; likewise the
    ESP packets; the channels never hold more than 16 and 256.  And what was written is read
    by a peer's reader as what it was: IKE requests, ESP packets and keepalives, in order. *)
Theorem nothing_mixed_or_reordered events s out : nrun newSharedNATTTransport events = Some (s, out) ->
  demultiplexed s (concat (ike_of <$> concat (received <$> events))) (concat (esp_of <$> concat (received <$> events)))
    (concat (ike_answers <$> out)) (concat (esp_answers <$> out)) /\
  sublist (classify <$> nt_wire s) (concat (says <$> events)).
Proof.
  intros H. apply (nrun_traffic events newSharedNATTTransport s out [] [] [] [] [] H); [|constructor].
  exists [], []. repeat split; done.
Qed.

(** Two exchanges; the answer to the first comes after its timeout.  [exchangeIKE] does not
    drain the channel, so the second exchange returns the answer to the first. *)
Definition late_answer : list event :=
  [StartIKE [1] None None; Receive [0; 0; 0; 0; 1]; TimeoutIKE (ErrText "read udp: i/o timeout");
   StartIKE [2] None None; AnswerIKE; Receive [0; 0; 0; 0; 2]].
Lemma nothing_mixed_or_reordered_witness :
  exists s, nrun newSharedNATTTransport late_answer = Some (s, [IKEResult (Err (ErrText "read udp: i/o timeout")); IKEResult (Ok [1])]) /\
    nt_ikeCh s = [[2]] /\
    demultiplexed s [[1]; [2]] [] [[1]] [] /\ sublist (classify <$> nt_wire s) [IKE [1]; IKE [2]].
Proof. eexists. split; [reflexivity|]. split; [reflexivity|]. apply (nothing_mixed_or_reordered late_answer _ _ eq_refl). Defined.
