(* ===== verification/Rekey.v ===== *)
(** * When a child SA is rekeyed (engine/swu/packet_session.go)

    The policy of a rekey (a lifetime and a lead time), the window it gives at an
    instant, and the state that a tunnel keeps.  Times are those of [Liveness];
    [Now] is the clock a call reads when its argument is the zero time. *)
From S2P Require Import Prelude Errors Liveness.
#[local] Open Scope string_scope.
#[local] Open Scope list_scope.
#[local] Open Scope Z_scope.

Inductive ChildSARekeyAction := ChildSARekeyNoAction | ChildSARekeyDue.
#[export] Instance ChildSARekeyAction_eq_dec : EqDecision ChildSARekeyAction.
Proof. solve_decision. Defined.
Record ChildSARekeyPolicy := mkRekeyPolicy { rp_Lifetime : Duration; rp_LeadTime : Duration; rp_Disabled : bool }.
Record ChildSARekeyDecision := mkRekeyDecision {
  rd_Action : ChildSARekeyAction;
  rd_EstablishedAt : Time;
  rd_DueAt : Time;
  rd_ExpiresAt : Time;
  rd_NextDue : Time;
  rd_Age : Duration;
  rd_TimeToExpire : Duration;
  rd_Lifetime : Duration;
  rd_LeadTime : Duration;
  rd_Expired : bool;
  rd_Reason : string
}.
Record ChildSARekeySnapshot := mkRekeySnapshot {
  rsn_Enabled : bool;
  rsn_EstablishedAt : Time;
  rsn_DueAt : Time;
  rsn_ExpiresAt : Time;
  rsn_Lifetime : Duration;
  rsn_LeadTime : Duration
}.
Record ChildSARekeyWindow := mkRekeyWindow {
  rw_Enabled : bool;
  rw_Due : bool;
  rw_Expired : bool;
  rw_EstablishedAt : Time;
  rw_DueAt : Time;
  rw_ExpiresAt : Time;
  rw_Age : Duration;
  rw_TimeToRekey : Duration;
  rw_TimeToExpire : Duration;
  rw_Lifetime : Duration;
  rw_LeadTime : Duration
}.
Record ChildSARekeyState := mkRekeyState { rk_policy : ChildSARekeyPolicy; rk_establishedAt : Time; rk_enabled : bool }.

Definition zeroRekeyWindow : ChildSARekeyWindow := mkRekeyWindow false false false 0 0 0 0 0 0 0 0.
Definition zeroRekeyDecision : ChildSARekeyDecision := mkRekeyDecision ChildSARekeyNoAction 0 0 0 0 0 0 0 0 false "".
Definition zeroRekeySnapshot : ChildSARekeySnapshot := mkRekeySnapshot false 0 0 0 0 0.

Definition normalizeChildSARekeyPolicy (policy : ChildSARekeyPolicy) : result (ChildSARekeyPolicy * bool) :=
  if rp_Lifetime policy <? 0 then Errorf ErrInvalidChildSARekeyPolicy else
  if rp_LeadTime policy <? 0 then Errorf ErrInvalidChildSARekeyPolicy else
  if rp_Disabled policy || (rp_Lifetime policy =? 0) then Ok (mkRekeyPolicy 0 0 true, false) else
  if rp_Lifetime policy <=? rp_LeadTime policy then Errorf ErrInvalidChildSARekeyPolicy else
  Ok (policy, true).

Definition ChildSARekeyWindowFor (Now : Time) (policy : ChildSARekeyPolicy) (establishedAt now : Time) : result ChildSARekeyWindow :=
  let! n := normalizeChildSARekeyPolicy policy in
  let '(normalized, enabled) := n in
  if negb enabled then Ok zeroRekeyWindow else
  let now := if IsZero now then Now else now in
  let establishedAt := if IsZero establishedAt then now else establishedAt in
  let expiresAt := establishedAt + rp_Lifetime normalized in
  let dueAt := expiresAt + - rp_LeadTime normalized in
  let age := if After now establishedAt then Sub now establishedAt else 0 in
  let timeToRekey := if Before now dueAt then Sub dueAt now else 0 in
  let timeToExpire := if Before now expiresAt then Sub expiresAt now else 0 in
  Ok (mkRekeyWindow true (negb (Before now dueAt)) (negb (Before now expiresAt)) establishedAt dueAt expiresAt
        age timeToRekey timeToExpire (rp_Lifetime normalized) (rp_LeadTime normalized)).

Definition NewChildSARekeyState (Now : Time) (policy : ChildSARekeyPolicy) (establishedAt : Time) : result ChildSARekeyState :=
  let! n := normalizeChildSARekeyPolicy policy in
  let '(normalized, enabled) := n in
  Ok (mkRekeyState normalized (if IsZero establishedAt then Now else establishedAt) enabled).

(** [window] forgets the error. *)
Definition window (Now : Time) (s : ChildSARekeyState) (now : Time) : ChildSARekeyWindow :=
  match ChildSARekeyWindowFor Now (rk_policy s) (rk_establishedAt s) now with Ok w => w | _ => zeroRekeyWindow end.
Definition rekey_decision (Now : Time) (s : ChildSARekeyState) (now : Time) (action : ChildSARekeyAction) (reason : string) : ChildSARekeyDecision :=
  let w := window Now s now in
  mkRekeyDecision action (rk_establishedAt s) (rw_DueAt w) (rw_ExpiresAt w) (rw_DueAt w) (rw_Age w) (rw_TimeToExpire w)
    (rp_Lifetime (rk_policy s)) (rp_LeadTime (rk_policy s)) (rw_Expired w) reason.
Definition with_action (d : ChildSARekeyDecision) (action : ChildSARekeyAction) (reason : string) : ChildSARekeyDecision :=
  mkRekeyDecision action (rd_EstablishedAt d) (rd_DueAt d) (rd_ExpiresAt d) (rd_NextDue d) (rd_Age d) (rd_TimeToExpire d)
    (rd_Lifetime d) (rd_LeadTime d) (rd_Expired d) reason.
Definition RekeyState_Advance (Now : Time) (s : option ChildSARekeyState) (now : Time) : ChildSARekeyDecision :=
  let now := if IsZero now then Now else now in
  match s with
  | None => with_action zeroRekeyDecision ChildSARekeyNoAction "rekey disabled"
  | Some s =>
      if negb (rk_enabled s) then with_action zeroRekeyDecision ChildSARekeyNoAction "rekey disabled" else
      let d := rekey_decision Now s now ChildSARekeyNoAction "child sa rekey not due" in
      if rd_Expired d then with_action d ChildSARekeyDue "child sa lifetime expired"
      else if negb (Before now (rd_DueAt d)) then with_action d ChildSARekeyDue "child sa rekey due"
      else d
  end.
Definition RecordRekey (Now : Time) (s : option ChildSARekeyState) (at' : Time) : option ChildSARekeyState :=
  match s with
  | None => None
  | Some s => if negb (rk_enabled s) then Some s else Some (mkRekeyState (rk_policy s) (if IsZero at' then Now else at') (rk_enabled s))
  end.
Definition dueAt (s : ChildSARekeyState) : Time := rk_establishedAt s + (rp_Lifetime (rk_policy s) - rp_LeadTime (rk_policy s)).
Definition expiresAt (s : ChildSARekeyState) : Time := rk_establishedAt s + rp_Lifetime (rk_policy s).
Definition RekeyState_Snapshot (s : option ChildSARekeyState) : ChildSARekeySnapshot :=
  match s with
  | None => zeroRekeySnapshot
  | Some s =>
      if negb (rk_enabled s) then zeroRekeySnapshot
      else mkRekeySnapshot true (rk_establishedAt s) (dueAt s) (expiresAt s) (rp_Lifetime (rk_policy s)) (rp_LeadTime (rk_policy s))
  end.
Definition RekeyState_NextDue (s : option ChildSARekeyState) : Time * bool :=
  match s with None => (0, false) | Some s => if negb (rk_enabled s) then (0, false) else (dueAt s, true) end.

(** ** The schedule

    The states that the code makes: at a time that is not zero, under a policy
    it accepted. *)
Definition rekey_ok (s : ChildSARekeyState) : Prop :=
  0 < rk_establishedAt s /\ (rk_enabled s = true -> normalizeChildSARekeyPolicy (rk_policy s) = Ok (rk_policy s, true)).
Lemma normalize_policy_spec p p' enabled : normalizeChildSARekeyPolicy p = Ok (p', enabled) ->
  if enabled then p' = p /\ 0 <= rp_LeadTime p < rp_Lifetime p /\ rp_Disabled p = false else rp_Disabled p' = true.
Proof.
  unfold normalizeChildSARekeyPolicy. destruct (rp_Lifetime p <? 0) eqn:E1; [done|]. destruct (rp_LeadTime p <? 0) eqn:E2; [done|].
  destruct (rp_Disabled p || (rp_Lifetime p =? 0)) eqn:E3; [by intros [= <- <-]|].
  destruct (rp_Lifetime p <=? rp_LeadTime p) eqn:E4; [done|]. intros [= <- <-]. apply orb_false_iff in E3 as [E3 _]. split_and!; try done; lia.
Qed.
Lemma normalized_again p p' : normalizeChildSARekeyPolicy p = Ok (p', true) -> normalizeChildSARekeyPolicy p' = Ok (p', true).
Proof. intros H. pose proof (normalize_policy_spec _ _ _ H) as Hs. cbn in Hs. by destruct Hs as (-> & _). Qed.
Lemma NewChildSARekeyState_ok Now policy t s : 0 < Now -> 0 <= t -> NewChildSARekeyState Now policy t = Ok s -> rekey_ok s.
Proof.
  intros HN Ht H. unfold NewChildSARekeyState in H. apply bind_ok in H as ([p e] & Hp & [= <-]). split; cbn.
  - unfold IsZero. destruct (t =? 0) eqn:E; lia.
  - intros ->. by eapply normalized_again.
Qed.
Lemma RecordRekey_ok Now s t : 0 < Now -> 0 <= t -> rekey_ok s -> exists s', RecordRekey Now (Some s) t = Some s' /\ rekey_ok s' /\
  rk_policy s' = rk_policy s /\ rk_enabled s' = rk_enabled s /\ (rk_enabled s = true -> rk_establishedAt s' = if t =? 0 then Now else t).
Proof.
  intros HN Ht [H1 H2]. unfold RecordRekey. destruct (rk_enabled s) eqn:E; cbn [negb].
  - eexists. split; [done|]. split_and!; try done. split; cbn; [|done]. unfold IsZero. destruct (t =? 0) eqn:Et; lia.
  - eexists. split; [done|]. split_and!; try done. by split; [|rewrite E].
Qed.
(** At [now] the decision is to rekey exactly when the due time has come. *)
Lemma Advance_due Now s now : rekey_ok s -> 0 < now ->
  rd_Action (RekeyState_Advance Now (Some s) now) = ChildSARekeyDue <-> rk_enabled s = true /\ dueAt s <= now.
Proof.
  intros [He Hn] Hnow. unfold RekeyState_Advance. unfold IsZero at 1. replace (now =? 0) with false by lia.
  destruct (rk_enabled s) eqn:E; cbn [negb]; [|cbn; split; [done|by intros []]].
  specialize (Hn eq_refl). pose proof (normalize_policy_spec _ _ _ Hn) as Hs. cbn in Hs. destruct Hs as (_ & Hl & _).
  unfold rekey_decision, window, ChildSARekeyWindowFor. rewrite Hn. cbn [bind negb]. unfold IsZero, Before, dueAt.
  replace (now =? 0) with false by lia. replace (rk_establishedAt s =? 0) with false by lia. cbn [rd_Expired rd_DueAt rw_Expired rw_DueAt].
  destruct (now <? rk_establishedAt s + rp_Lifetime (rk_policy s)) eqn:E1; cbn [negb].
  - destruct (now <? rk_establishedAt s + rp_Lifetime (rk_policy s) + - rp_LeadTime (rk_policy s)) eqn:E2; cbn; split; try done; intros; try (split; [done|]); lia.
  - cbn. split; [intros _; split; [done|]; lia|done].
Qed.
Lemma NextDue_due s : RekeyState_NextDue (Some s) = if rk_enabled s then (dueAt s, true) else (0, false).
Proof. unfold RekeyState_NextDue. by destruct (rk_enabled s). Qed.
