(* ===== verification/PacketSession.v ===== *)
(** * The packet session of a tunnel (engine/swu/packet_session.go)

    The object that seals inner packets for the transport and opens those that
    arrive, counts them, and drives the rekey, the MOBIKE update and the liveness
    probe of its tunnel.  Its methods take the mutex for a while, release it to
    call the transport or a handler, and take it again: a call is a first
    section, then what it waits for ([call]) and a section that resumes with the
    answer.  Other calls may run between the two, so the machine below is the
    session with its pending calls, and an event begins a call or resumes one.
    Sections of one call that follow each other without a call out are one
    step.  A context is its [ctx.Err()] when the method looks at it. *)
From Stdlib Require Import Sorted.
From stdpp Require Import gmap.
From S2P Require Import Prelude GoStrings Utf8 Errors Crypto Notify Sa Keys World Session ChildSa Esp Liveness Mobike Control Rekey.
#[local] Open Scope string_scope.
#[local] Open Scope list_scope.
#[local] Open Scope Z_scope.

(** The text of an error ([err.Error()]). *)
Class ErrorText := { error_Error : error -> string }.
Fixpoint go_string (b : bytes) : string :=
  match b with [] => EmptyString | x :: rest => String (Ascii.ascii_of_nat (Z.to_nat x)) (go_string rest) end.
Fixpoint strings_Contains (s sub : bytes) : bool :=
  strings_HasPrefix s sub || match s with [] => false | _ :: rest => strings_Contains rest sub end.
Definition firstNonEmptyText (items : list string) : string := go_string (firstPacketNonEmpty (go_bytes <$> items)).

Definition DataplaneModeUserspace : bytes := go_bytes "userspace".
(** Which of the optional interfaces a transport has. *)
Record ESPPacketTransport := mkTransport { tp_receives : bool; tp_keepalives : bool; tp_closes : bool }.
Record PacketTunnelStats := mkStats {
  st_OutboundInnerPackets : Z;
  st_OutboundInnerBytes : Z;
  st_OutboundESPPackets : Z;
  st_OutboundESPBytes : Z;
  st_OutboundErrors : Z;
  st_InboundInnerPackets : Z;
  st_InboundInnerBytes : Z;
  st_InboundESPPackets : Z;
  st_InboundESPBytes : Z;
  st_InboundErrors : Z;
  st_ReplayDrops : Z;
  st_InvalidDrops : Z;
  st_UnsupportedDrops : Z
}.
Record PacketTunnelPacket := mkPacket { pk_SPI : Z; pk_Sequence : Z; pk_NextHeader : Z; pk_Payload : bytes }.
Definition zeroStats : PacketTunnelStats := mkStats 0 0 0 0 0 0 0 0 0 0 0 0 0.

(** A handler is present or nil; what it does is an answer to the call. *)
Record PacketSessionConfig := mkSessionConfig {
  pc_Result : TunnelResult;
  pc_ChildSA : ChildSAResult;
  pc_OutboundSA : option SA;
  pc_InboundSA : option SA;
  pc_Transport : option ESPPacketTransport;
  pc_Random : option Reader;
  pc_MOBIKEHandler : bool;
  pc_RekeyHandler : bool;
  pc_RekeyPolicy : ChildSARekeyPolicy;
  pc_MOBIKENAT : option MOBIKENATState;
  pc_Liveness : option IKELivenessState;
  pc_DPDHandler : bool;
  pc_CloseHandler : bool
}.
Record PacketSession := mkSession {
  ps_result : TunnelResult;
  ps_outbound : option SA;
  ps_inbound : option SA;
  ps_transport : option ESPPacketTransport;
  ps_random : option Reader;
  ps_mobikeHandler : bool;
  ps_rekeyHandler : bool;
  ps_rekeyState : option ChildSARekeyState;
  ps_mobikeNAT : option MOBIKENATState;
  ps_liveness : option IKELivenessState;
  ps_dpdHandler : bool;
  ps_closeHandler : bool;
  ps_stats : PacketTunnelStats;
  ps_closed : bool
}.

(** Assignments to fields of the session and of its result. *)
Definition set_stats (s : PacketSession) (stats : PacketTunnelStats) : PacketSession :=
  mkSession (ps_result s) (ps_outbound s) (ps_inbound s) (ps_transport s) (ps_random s) (ps_mobikeHandler s) (ps_rekeyHandler s)
    (ps_rekeyState s) (ps_mobikeNAT s) (ps_liveness s) (ps_dpdHandler s) (ps_closeHandler s) stats (ps_closed s).
Definition set_SAs (s : PacketSession) (outbound inbound : option SA) : PacketSession :=
  mkSession (ps_result s) outbound inbound (ps_transport s) (ps_random s) (ps_mobikeHandler s) (ps_rekeyHandler s)
    (ps_rekeyState s) (ps_mobikeNAT s) (ps_liveness s) (ps_dpdHandler s) (ps_closeHandler s) (ps_stats s) (ps_closed s).
Definition set_result (s : PacketSession) (result : TunnelResult) : PacketSession :=
  mkSession result (ps_outbound s) (ps_inbound s) (ps_transport s) (ps_random s) (ps_mobikeHandler s) (ps_rekeyHandler s)
    (ps_rekeyState s) (ps_mobikeNAT s) (ps_liveness s) (ps_dpdHandler s) (ps_closeHandler s) (ps_stats s) (ps_closed s).
Definition set_timers (s : PacketSession) (rekey : option ChildSARekeyState) (nat : option MOBIKENATState) (liveness : option IKELivenessState) : PacketSession :=
  mkSession (ps_result s) (ps_outbound s) (ps_inbound s) (ps_transport s) (ps_random s) (ps_mobikeHandler s) (ps_rekeyHandler s)
    rekey nat liveness (ps_dpdHandler s) (ps_closeHandler s) (ps_stats s) (ps_closed s).
Definition set_closed (s : PacketSession) : PacketSession :=
  mkSession (ps_result s) (ps_outbound s) (ps_inbound s) (ps_transport s) (ps_random s) (ps_mobikeHandler s) (ps_rekeyHandler s)
    (ps_rekeyState s) (ps_mobikeNAT s) (ps_liveness s) (ps_dpdHandler s) (ps_closeHandler s) (ps_stats s) true.
Definition set_liveness (s : PacketSession) (liveness : option IKELivenessState) : PacketSession :=
  set_timers s (ps_rekeyState s) (ps_mobikeNAT s) liveness.
Definition result_status (r : TunnelResult) (ready ike ipsec : bool) (reason : string) : TunnelResult :=
  mkTunnelResult ready (tr_Mode r) (tr_EPDGAddress r) (tr_LocalInnerIP r) (tr_RemoteInnerIP r) (tr_DNSServers r) (tr_PCSCFServers r)
    (tr_ESPEncryptionID r) (tr_ESPIntegrityID r) (tr_InitiatorSelectors r) (tr_ResponderSelectors r) ike ipsec (tr_MOBIKESupported r)
    (tr_ChildSAIdentifier r) reason (tr_EstablishedAt r).
Definition result_inner (r : TunnelResult) (identifier localIP remoteIP : bytes) (dns : list bytes) : TunnelResult :=
  mkTunnelResult (tr_Ready r) (tr_Mode r) (tr_EPDGAddress r) localIP remoteIP dns (tr_PCSCFServers r)
    (tr_ESPEncryptionID r) (tr_ESPIntegrityID r) (tr_InitiatorSelectors r) (tr_ResponderSelectors r) (tr_IKEEstablished r) (tr_IPsecEstablished r)
    (tr_MOBIKESupported r) identifier (tr_Reason r) (tr_EstablishedAt r).
Definition result_mode (r : TunnelResult) (mode : bytes) (establishedAt : Time) : TunnelResult :=
  mkTunnelResult (tr_Ready r) mode (tr_EPDGAddress r) (tr_LocalInnerIP r) (tr_RemoteInnerIP r) (tr_DNSServers r) (tr_PCSCFServers r)
    (tr_ESPEncryptionID r) (tr_ESPIntegrityID r) (tr_InitiatorSelectors r) (tr_ResponderSelectors r) (tr_IKEEstablished r) (tr_IPsecEstablished r)
    (tr_MOBIKESupported r) (tr_ChildSAIdentifier r) (tr_Reason r) establishedAt.

(** ** Construction *)
Definition hasChildSA (child : ChildSAResult) : bool :=
  (0 <? len (cr_LocalSPI child)) || (0 <? len (cr_RemoteSPI child)) ||
  (0 <? len (ek_EncryptionKey (ck_Outbound (cr_Keys child)))) || (0 <? len (ek_EncryptionKey (ck_Inbound (cr_Keys child)))).
Definition cloneSA (sa : option SA) : result SA :=
  match sa with None => Errorf ErrInvalidPacketTunnel | Some sa => NewSA sa end.
(** The SAs that are given, or those of the child SA; [%v] drops the cause. *)
Definition packetSAs (outbound inbound : option SA) (child : ChildSAResult) : result (SA * SA) :=
  let! sas :=
    (match outbound, inbound with
     | Some outbound, Some inbound => Ok (outbound, inbound)
     | _, _ =>
         if negb (hasChildSA child) then Errorf ErrInvalidPacketTunnel else
         let! outbound := (match outbound with Some sa => Ok sa | None => map_err (fun _ => Sentinel ErrInvalidPacketTunnel) (NewOutboundSAFromChild child) end) in
         let! inbound := (match inbound with Some sa => Ok sa | None => map_err (fun _ => Sentinel ErrInvalidPacketTunnel) (NewInboundSAFromChild child) end) in
         Ok (outbound, inbound)
     end) in
  let! outbound := map_err (fun _ => Sentinel ErrInvalidPacketTunnel) (cloneSA (Some sas.1)) in
  let! inbound := map_err (fun _ => Sentinel ErrInvalidPacketTunnel) (cloneSA (Some sas.2)) in
  Ok (outbound, inbound).

Definition isZeroTunnelResult (r : TunnelResult) : bool :=
  negb (tr_Ready r) && (len (TrimSpace (tr_Mode r)) =? 0) && (len (TrimSpace (tr_EPDGAddress r)) =? 0) &&
  (len (TrimSpace (tr_LocalInnerIP r)) =? 0) && (len (TrimSpace (tr_RemoteInnerIP r)) =? 0) && (len (tr_DNSServers r) =? 0) &&
  (len (tr_PCSCFServers r) =? 0) && (tr_ESPEncryptionID r =? 0) && (tr_ESPIntegrityID r =? 0) && (len (tr_InitiatorSelectors r) =? 0) &&
  (len (tr_ResponderSelectors r) =? 0) && negb (tr_IKEEstablished r) && negb (tr_IPsecEstablished r) && negb (tr_MOBIKESupported r) &&
  (len (TrimSpace (tr_ChildSAIdentifier r)) =? 0) && (len (TrimSpace (go_bytes (tr_Reason r))) =? 0) && IsZero (tr_EstablishedAt r).

Definition NewPacketSession (Now : Time) (cfg : PacketSessionConfig) : result PacketSession :=
  match pc_Transport cfg with
  | None => Errorf ErrInvalidPacketTunnel
  | Some transport =>
      let! sas := packetSAs (pc_OutboundSA cfg) (pc_InboundSA cfg) (pc_ChildSA cfg) in
      let result := pc_Result cfg in
      let result := if isZeroTunnelResult result then result_status result true true true (tr_Reason result) else result in
      let mode := if len (tr_Mode result) =? 0 then DataplaneModeUserspace else tr_Mode result in
      let reason := if String.eqb (tr_Reason result) "" then "packet tunnel ready" else tr_Reason result in
      let establishedAt := if IsZero (tr_EstablishedAt result) then Now else tr_EstablishedAt result in
      let result := result_status result (tr_Ready result) (tr_IKEEstablished result) (tr_IPsecEstablished result) reason in
      let result := result_mode result mode establishedAt in
      let! rekeyState := NewChildSARekeyState Now (pc_RekeyPolicy cfg) (tr_EstablishedAt result) in
      Ok (mkSession result (Some sas.1) (Some sas.2) (Some transport) (pc_Random cfg) (pc_MOBIKEHandler cfg) (pc_RekeyHandler cfg)
            (Some rekeyState) (pc_MOBIKENAT cfg) (pc_Liveness cfg) (pc_DPDHandler cfg) (pc_CloseHandler cfg) zeroStats false)
  end.

(** ** Inner packets *)
Definition NextHeaderForInnerPacket (packet : bytes) : result Z :=
  match packet with
  | [] => Errorf ErrUnsupportedInnerPacket
  | b :: _ =>
      if Z.shiftr b 4 =? 4 then Ok NextHeaderIPv4
      else if Z.shiftr b 4 =? 6 then Ok NextHeaderIPv6
      else Errorf ErrUnsupportedInnerPacket
  end.
Definition validateInnerPacketNextHeader (nextHeader : Z) (packet : bytes) : result unit :=
  let! detected := NextHeaderForInnerPacket packet in
  if negb (detected =? nextHeader) then Errorf ErrUnsupportedInnerPacket else Ok tt.

(** ** Counters ([uint64], they wrap) *)
Definition outbound_done (st : PacketTunnelStats) (inner packet : bytes) : PacketTunnelStats :=
  mkStats (to_u64 (st_OutboundInnerPackets st + 1)) (to_u64 (st_OutboundInnerBytes st + len inner))
    (to_u64 (st_OutboundESPPackets st + 1)) (to_u64 (st_OutboundESPBytes st + len packet)) (st_OutboundErrors st)
    (st_InboundInnerPackets st) (st_InboundInnerBytes st) (st_InboundESPPackets st) (st_InboundESPBytes st) (st_InboundErrors st)
    (st_ReplayDrops st) (st_InvalidDrops st) (st_UnsupportedDrops st).
Definition inbound_done (st : PacketTunnelStats) (payload packet : bytes) : PacketTunnelStats :=
  mkStats (st_OutboundInnerPackets st) (st_OutboundInnerBytes st) (st_OutboundESPPackets st) (st_OutboundESPBytes st) (st_OutboundErrors st)
    (to_u64 (st_InboundInnerPackets st + 1)) (to_u64 (st_InboundInnerBytes st + len payload))
    (to_u64 (st_InboundESPPackets st + 1)) (to_u64 (st_InboundESPBytes st + len packet)) (st_InboundErrors st)
    (st_ReplayDrops st) (st_InvalidDrops st) (st_UnsupportedDrops st).
Definition errors_counted (st : PacketTunnelStats) (outbound inbound replay invalid unsupported : Z) : PacketTunnelStats :=
  mkStats (st_OutboundInnerPackets st) (st_OutboundInnerBytes st) (st_OutboundESPPackets st) (st_OutboundESPBytes st)
    (to_u64 (st_OutboundErrors st + outbound)) (st_InboundInnerPackets st) (st_InboundInnerBytes st) (st_InboundESPPackets st)
    (st_InboundESPBytes st) (to_u64 (st_InboundErrors st + inbound)) (to_u64 (st_ReplayDrops st + replay)) (to_u64 (st_InvalidDrops st + invalid))
    (to_u64 (st_UnsupportedDrops st + unsupported)).
Definition recordOutboundError (s : PacketSession) (unsupported : bool) : PacketSession :=
  set_stats s (errors_counted (ps_stats s) 1 0 0 0 (if unsupported then 1 else 0)).
Definition recordInboundErrorLocked (s : PacketSession) (e : error) : PacketSession :=
  set_stats s
    (if errors_Is e ErrReplay then errors_counted (ps_stats s) 0 1 1 0 0
     else if errors_Is e Esp_ErrInvalidPacket then errors_counted (ps_stats s) 0 1 0 1 0
     else if errors_Is e ErrUnsupportedInnerPacket then errors_counted (ps_stats s) 0 1 0 0 1
     else errors_counted (ps_stats s) 0 1 0 0 0).

(** ** What a call waits for, and what it returns *)
Inductive rekey_caller := ByCaller | ByAdvance (d : ChildSARekeyDecision) | ByRunDue (d : ChildSARekeyDecision).
Inductive call :=
| Sending (inner packet : bytes)
| Reading
| Rekeying (at' : Time) (caller : rekey_caller)
| Updating (req : MOBIKERequest) (result : TunnelResult) (change : option MOBIKENATChange)
| KeepingAlive (d : IKELivenessDecision)
| Probing (now : Time) (d : IKELivenessDecision)
| RunningClose
| ClosingTransport (e : option error).
Inductive answer :=
| ASent (r : option error)
| ARead (r : result bytes) (ctx : option error)
| ARekeyed (r : result ChildSAResult)
| AUpdated (r : result MOBIKEResult)
| AKeptAlive (r : option error)
| AProbed (r : option error)
| AClosed (r : option error).
(** [SendFailed] and [ReceiveFailed] are counted, [TurnedAway] is not: the session is
    closed.  [SendFailed] tells whether the inner packet was refused as unsupported. *)
Inductive output :=
| Sent (inner packet : bytes)
| SendFailed (unsupported : bool) (e : error)
| Received (p : PacketTunnelPacket) (packet : bytes)
| ReceiveFailed (e : error)
| TurnedAway
| Rekeyed (r : result TunnelResult)
| Decided (d : ChildSARekeyDecision) (r : result unit)
| Updated (change : option MOBIKENATChange) (r : result MOBIKEResult)
| Probed (d : IKELivenessDecision) (r : result unit)
| Refused (e : error)
| Recorded
| Closed (r : option error)
| Crashed.
(** The session after the section, and the call that waits or what is returned. *)
Definition section : Type := PacketSession * (call + output).
Definition waits (s : PacketSession) (c : call) : section := (s, inl c).
Definition returns_with (s : PacketSession) (o : output) : section := (s, inr o).

Section session.
Context {C : Crypto} {T : NetText} {U : UnicodeCase} {X : ErrorText} (rand_Reader : Reader).

(** *** Packets *)
Definition SendInnerPacketWithNextHeader (s : PacketSession) (ctx : option error) (nextHeader : Z) (inner : bytes) : section :=
  match ctx with
  | Some e => returns_with (recordOutboundError s false) (SendFailed false e)
  | None =>
      if ps_closed s then returns_with s TurnedAway else
      match ps_outbound s, ps_transport s with
      | Some sa, Some _ =>
          match validateInnerPacketNextHeader nextHeader inner with
          | Ok _ =>
              let '(sa, r) := Seal rand_Reader (Some sa) nextHeader inner (mkSealOptions 0 [] (ps_random s)) in
              let s := set_SAs s sa (ps_inbound s) in
              match r with
              | Ok packet => waits s (Sending inner packet)
              | Err e => returns_with (recordOutboundError s false) (SendFailed false e)
              | _ => returns_with s Crashed
              end
          | Err e => returns_with (recordOutboundError s true) (SendFailed true e)
          | _ => returns_with s Crashed
          end
      | _, _ => returns_with (recordOutboundError s false) (SendFailed false ErrInvalidPacketTunnel)
      end
  end.
Definition SendInnerPacket (s : PacketSession) (ctx : option error) (inner : bytes) : section :=
  match NextHeaderForInnerPacket inner with
  | Ok nextHeader => SendInnerPacketWithNextHeader s ctx nextHeader inner
  | Err e => returns_with (recordOutboundError s true) (SendFailed true e)
  | _ => returns_with s Crashed
  end.
Definition send_resumed (Now : Time) (s : PacketSession) (inner packet : bytes) (r : option error) : section :=
  match r with
  | Some e => returns_with (recordOutboundError s false) (SendFailed false e)
  | None =>
      returns_with (set_liveness (set_stats s (outbound_done (ps_stats s) inner packet)) (RecordOutbound Now (ps_liveness s) Now)) (Sent inner packet)
  end.
Definition ReceiveESPPacket (Now : Time) (s : PacketSession) (ctx : option error) (packet : bytes) : section :=
  match ctx with
  | Some e => returns_with (recordInboundErrorLocked s e) (ReceiveFailed e)
  | None =>
      if ps_closed s then returns_with s TurnedAway else
      match ps_inbound s with
      | None => returns_with (set_stats s (errors_counted (ps_stats s) 0 1 0 0 0)) (ReceiveFailed ErrInvalidPacketTunnel)
      | Some sa =>
          let '(sa, r) := Open (Some sa) packet in
          let s := set_SAs s (ps_outbound s) sa in
          match (let! out := r in let! _ := validateInnerPacketNextHeader (or_NextHeader out) (or_Payload out) in Ok out) with
          | Ok out =>
              returns_with (set_liveness (set_stats s (inbound_done (ps_stats s) (or_Payload out) packet)) (RecordInbound Now (ps_liveness s) Now))
                (Received (mkPacket (or_SPI out) (or_Sequence out) (or_NextHeader out) (or_Payload out)) packet)
          | Err e => returns_with (recordInboundErrorLocked s e) (ReceiveFailed e)
          | _ => returns_with s Crashed
          end
      end
  end.
(** A nil transport has no methods. *)
Definition has (f : ESPPacketTransport -> bool) (s : PacketSession) : bool := match ps_transport s with Some t => f t | None => false end.
Definition ReadInnerPacket (s : PacketSession) (ctx : option error) : section :=
  match ctx with
  | Some e => returns_with (recordInboundErrorLocked s e) (ReceiveFailed e)
  | None =>
      if ps_closed s then returns_with s TurnedAway else
      if negb (has tp_receives s) then returns_with (recordInboundErrorLocked s ErrInvalidPacketTunnel) (ReceiveFailed ErrInvalidPacketTunnel)
      else waits s Reading
  end.
Definition read_resumed (Now : Time) (s : PacketSession) (r : result bytes) (ctx : option error) : section :=
  match r with
  | Ok packet => ReceiveESPPacket Now s ctx packet
  | Err e => returns_with (recordInboundErrorLocked s e) (ReceiveFailed e)
  | _ => returns_with s Crashed
  end.

(** *** The rekey *)
Fixpoint ip_values (fuel : nat) (width : Z) (value : bytes) (out : list bytes) : list bytes :=
  match fuel with
  | O => out
  | S fuel =>
      if len value <? width then out else
      let ip := IP_String (take (Z.to_nat width) value) in
      ip_values fuel width (drop (Z.to_nat width) value)
        (if negb (len ip =? 0) && negb (bool_decide (ip ∈ out)) then out ++ [ip] else out)
  end.
Fixpoint ip_strings_loop (attrType width : Z) (attrs : list ConfigurationAttribute) (out : list bytes) : list bytes :=
  match attrs with
  | [] => out
  | attr :: rest =>
      ip_strings_loop attrType width rest
        (if negb (ca_Type attr =? attrType) then out else ip_values (length (ca_Value attr)) width (ca_Value attr) out)
  end.
Definition childConfigurationIPStrings (child : ChildSAResult) (attrType : Z) : list bytes :=
  match cr_Configuration child with
  | None => []
  | Some configuration =>
      if bool_decide (attrType ∈ [ConfigInternalIPv4Address; ConfigInternalIPv4DNS; ConfigPCSCFIPv4Address])
      then ip_strings_loop attrType 4 (cf_Attributes configuration) []
      else if bool_decide (attrType ∈ [ConfigInternalIPv6Address; ConfigInternalIPv6DNS; ConfigPCSCFIPv6Address])
      then ip_strings_loop attrType 16 (cf_Attributes configuration) []
      else []
  end.
Definition childConfigurationAddress (child : ChildSAResult) (attrType : Z) : bytes :=
  match childConfigurationIPStrings child attrType with [] => [] | v :: _ => v end.
Definition childConfigurationDNS (child : ChildSAResult) : list bytes :=
  childConfigurationIPStrings child ConfigInternalIPv4DNS ++ childConfigurationIPStrings child ConfigInternalIPv6DNS.

Definition NextChildSARekeyDue (s : PacketSession) : Time * bool :=
  if ps_closed s then (0, false) else RekeyState_NextDue (ps_rekeyState s).
Definition ChildSARekeySnapshot_of (s : PacketSession) : ChildSARekeySnapshot := RekeyState_Snapshot (ps_rekeyState s).
(** The rekey returns [r] to the method that asked for it. *)
Definition rekey_returns (s : PacketSession) (caller : rekey_caller) (r : result TunnelResult) : section :=
  match caller with
  | ByCaller => returns_with s (Rekeyed r)
  | ByAdvance d => returns_with s (Decided d (let! _ := r in Ok tt))
  | ByRunDue d =>
      match r with
      | Ok _ =>
          let '(nextDue, ok) := NextChildSARekeyDue s in
          let d := if ok then mkRekeyDecision (rd_Action d) (rd_EstablishedAt d) (rd_DueAt d) (rd_ExpiresAt d) nextDue (rd_Age d)
                     (rd_TimeToExpire d) (rd_Lifetime d) (rd_LeadTime d) (rd_Expired d) (rd_Reason d) else d in
          returns_with s (Decided d (Ok tt))
      | _ => returns_with s (Decided d (let! _ := r in Ok tt))
      end
  end.
Definition rekeyChildSA (s : PacketSession) (ctx : option error) (rekeyedAt : Time) (caller : rekey_caller) : section :=
  match ctx with
  | Some e => rekey_returns s caller (Err e)
  | None =>
      if ps_closed s then rekey_returns s caller (Errorf ErrPacketTunnelClosed) else
      if negb (ps_rekeyHandler s) then rekey_returns s caller (Errorf ErrInvalidPacketTunnel) else
      waits s (Rekeying rekeyedAt caller)
  end.
(** The new SAs, the fields of the result and the time of the rekey. *)
Definition install (Now : Time) (s : PacketSession) (rekeyedAt : Time) (child : ChildSAResult) (outbound inbound : SA) : PacketSession :=
  let s := set_SAs s (Some outbound) (Some inbound) in
  let result := result_status (ps_result s) true true true "child sa rekeyed" in
  let local := firstPacketNonEmpty [childConfigurationAddress child ConfigInternalIPv4Address; childConfigurationAddress child ConfigInternalIPv6Address] in
  let dns := childConfigurationDNS child in
  let result := result_inner result (childSAIdentifier child) (if negb (len local =? 0) then local else tr_LocalInnerIP result) (tr_RemoteInnerIP result)
    (if 0 <? len dns then dns else tr_DNSServers result) in
  set_timers (set_result s result) (RecordRekey Now (ps_rekeyState s) rekeyedAt) (ps_mobikeNAT s) (ps_liveness s).
Definition rekey_resumed (Now : Time) (s : PacketSession) (rekeyedAt : Time) (caller : rekey_caller) (r : result ChildSAResult) : section :=
  match (let! child := r in let! sas := packetSAs None None child in Ok (child, sas)) with
  | Ok (child, (outbound, inbound)) =>
      if ps_closed s then rekey_returns s caller (Errorf ErrPacketTunnelClosed) else
      let s := install Now s rekeyedAt child outbound inbound in rekey_returns s caller (Ok (ps_result s))
  | Err e => rekey_returns s caller (Err e)
  | _ => returns_with s Crashed
  end.
Definition RekeyChildSA (s : PacketSession) (ctx : option error) : section := rekeyChildSA s ctx 0 ByCaller.
Definition advance_rekey (Now : Time) (s : PacketSession) (ctx : option error) (now : Time) (caller : ChildSARekeyDecision -> rekey_caller) : section :=
  match ctx with
  | Some e => returns_with s (Decided zeroRekeyDecision (Err e))
  | None =>
      if ps_closed s then returns_with s (Decided zeroRekeyDecision (Errorf ErrPacketTunnelClosed)) else
      let d := RekeyState_Advance Now (ps_rekeyState s) now in
      if negb (bool_decide (rd_Action d = ChildSARekeyDue)) then returns_with s (Decided d (Ok tt))
      else rekeyChildSA s ctx now (caller d)
  end.
Definition AdvanceChildSARekey (Now : Time) (s : PacketSession) (ctx : option error) (now : Time) : section := advance_rekey Now s ctx now ByAdvance.
Definition RunChildSARekeyDue (Now : Time) (s : PacketSession) (ctx : option error) (now : Time) : section := advance_rekey Now s ctx now ByRunDue.

(** *** Addresses *)
Definition completeMOBIKEResult (Now : Time) (res : MOBIKEResult) (req : MOBIKERequest) (current : TunnelResult) (fallbackReason : string) : MOBIKEResult :=
  mkMOBIKEResult (mo_Rekeyed res)
    (if len (mo_OuterLocalIP res) =? 0 then firstPacketNonEmpty [mr_NewIP req; mr_OldIP req; tr_EPDGAddress current] else mo_OuterLocalIP res)
    (if len (mo_LocalInnerIP res) =? 0 then tr_LocalInnerIP current else mo_LocalInnerIP res)
    (if len (mo_RemoteInnerIP res) =? 0 then tr_RemoteInnerIP current else mo_RemoteInnerIP res)
    (if len (mo_DNSServers res) =? 0 then tr_DNSServers current else mo_DNSServers res)
    (if negb (mo_IKEEstablished res) then tr_IKEEstablished current else mo_IKEEstablished res)
    (if negb (mo_IPsecEstablished res) then tr_IPsecEstablished current else mo_IPsecEstablished res)
    (if String.eqb (mo_Reason res) "" then fallbackReason else mo_Reason res)
    (if IsZero (mo_UpdatedAt res) then Now else mo_UpdatedAt res).
Definition applyMOBIKEResult (s : PacketSession) (res : MOBIKEResult) : PacketSession :=
  if ps_closed s then s else
  let r := result_inner (ps_result s) (tr_ChildSAIdentifier (ps_result s)) (mo_LocalInnerIP res) (mo_RemoteInnerIP res) (mo_DNSServers res) in
  set_result s (result_status r (mo_IKEEstablished res && mo_IPsecEstablished res) (mo_IKEEstablished res) (mo_IPsecEstablished res)
    (if negb (String.eqb (mo_Reason res) "") then mo_Reason res else tr_Reason r)).
Definition update_addresses (Now : Time) (s : PacketSession) (ctx : option error) (req : MOBIKERequest) (change : option MOBIKENATChange) : section :=
  match ctx with
  | Some e => returns_with s (Updated change (Err e))
  | None =>
      if ps_closed s then returns_with s (Updated change (Errorf ErrPacketTunnelClosed)) else
      let result := ps_result s in
      if ps_mobikeHandler s then waits s (Updating req result change) else
      returns_with s (Updated change (Ok (mkMOBIKEResult false (firstPacketNonEmpty [mr_NewIP req; mr_OldIP req; tr_EPDGAddress result]) (tr_LocalInnerIP result)
        (tr_RemoteInnerIP result) (tr_DNSServers result) (tr_IKEEstablished result) (tr_IPsecEstablished result) "mobike unsupported" Now)))
  end.
Definition MOBIKE (Now : Time) (s : PacketSession) (ctx : option error) (req : MOBIKERequest) : section := update_addresses Now s ctx req None.
Definition update_resumed (Now : Time) (s : PacketSession) (req : MOBIKERequest) (result : TunnelResult) (change : option MOBIKENATChange)
    (r : outcome error MOBIKEResult) : section :=
  match r with
  | Ok res => let res := completeMOBIKEResult Now res req result "mobike updated" in returns_with (applyMOBIKEResult s res) (Updated change (Ok res))
  | _ => returns_with s (Updated change r)
  end.
Definition ObserveMOBIKENAT (Now : Time) (s : PacketSession) (ctx : option error) (obs : MOBIKENATObservation) : section :=
  match ctx with
  | Some e => returns_with s (Refused e)
  | None =>
      if ps_closed s then returns_with s (Refused ErrPacketTunnelClosed) else
      let nat := match ps_mobikeNAT s with Some nat => nat | None => NewMOBIKENATState (mkNATConfig (tr_MOBIKESupported (ps_result s)) [] [] 0 0 false 0) end in
      let '(nat, change) := Observe Now (Some nat) obs in
      let s := set_timers s (ps_rekeyState s) nat (ps_liveness s) in
      if negb (mc_RequiresMOBIKEUpdate change) then returns_with s (Updated (Some change) (Ok (mkMOBIKEResult false [] [] [] [] false false "" 0)))
      else update_addresses Now s ctx (mc_Request change) (Some change)
  end.

(** *** Liveness *)
Definition ikeLivenessDeadReason (d : IKELivenessDecision) : string :=
  let reason := firstNonEmptyText [ld_Reason d; "dpd timeout"] in
  if strings_Contains (strings_ToLower (go_bytes reason)) (go_bytes "ike liveness") then reason else String.append "ike liveness dead: " reason.
Definition markTunnelNotReady (s : PacketSession) (reason : string) : PacketSession :=
  if ps_closed s then s else
  set_result s (result_status (ps_result s) false false false (firstNonEmptyText [reason; "ike liveness dead"])).
Definition RecordIKELivenessInbound (Now : Time) (s : PacketSession) (at' : Time) : PacketSession := set_liveness s (RecordInbound Now (ps_liveness s) at').
Definition RecordIKELivenessOutbound (Now : Time) (s : PacketSession) (at' : Time) : PacketSession := set_liveness s (RecordOutbound Now (ps_liveness s) at').
Definition RecordIKELivenessResult (Now : Time) (s : PacketSession) (at' : Time) (ok : bool) : PacketSession :=
  set_liveness s (RecordLivenessResult Now (ps_liveness s) at' ok).
Definition IKELivenessSnapshot_of (s : PacketSession) : IKELivenessSnapshot := Liveness.Snapshot (ps_liveness s).
Definition zeroLivenessDecision : IKELivenessDecision := mkDecision IKELivenessNoAction 0 0 0 0 0 false "".
Definition AdvanceIKELiveness (Now : Time) (s : PacketSession) (ctx : option error) (now : Time) : section :=
  match ctx with
  | Some e => returns_with s (Probed zeroLivenessDecision (Err e))
  | None =>
      if ps_closed s then returns_with s (Probed zeroLivenessDecision (Errorf ErrPacketTunnelClosed)) else
      match (match ps_liveness s with
             | Some l => Ok l
             | None => NewIKELivenessState Now (mkLivenessConfig 0 0 0 0 false (negb (ps_dpdHandler s))) (tr_EstablishedAt (ps_result s))
             end) with
      | Ok l =>
          let '(l, d) := Liveness.Advance Now (Some l) now in
          let s := set_liveness s l in
          match ld_Action d with
          | IKELivenessSendKeepalive =>
              if negb (has tp_keepalives s) then returns_with s (Probed d (Errorf ErrInvalidPacketTunnel)) else waits s (KeepingAlive d)
          | IKELivenessSendDPD =>
              if negb (ps_dpdHandler s) then returns_with s (Probed d (Errorf ErrInvalidPacketTunnel)) else waits s (Probing now d)
          | IKELivenessDeclareDead => returns_with (markTunnelNotReady s (ikeLivenessDeadReason d)) (Probed d (Ok tt))
          | IKELivenessNoAction => returns_with s (Probed d (Ok tt))
          end
      | Err e => returns_with s (Probed zeroLivenessDecision (Err e))
      | _ => returns_with s Crashed
      end
  end.
Definition keepalive_resumed (s : PacketSession) (d : IKELivenessDecision) (r : option error) : section :=
  returns_with s (Probed d (match r with Some e => Err e | None => Ok tt end)).
Definition probe_resumed (Now : Time) (s : PacketSession) (now : Time) (d : IKELivenessDecision) (r : option error) : section :=
  match r with
  | None => returns_with (RecordIKELivenessResult Now s now true) (Probed d (Ok tt))
  | Some e =>
      let s := RecordIKELivenessResult Now s now false in
      let snapshot := IKELivenessSnapshot_of s in
      if negb (lsn_Dead snapshot) then returns_with s (Probed d (Err e)) else
      let d := mkDecision (ld_Action d) (ld_ProbeID d) (lsn_MissedDPDProbes snapshot) (ld_IdleFor d) (ld_Deadline d) (ld_NextDue d) true
                 (firstNonEmptyText [error_Error e; "dpd probe failed"]) in
      returns_with (markTunnelNotReady s (ikeLivenessDeadReason d)) (Probed d (Err e))
  end.

(** *** The end *)
Definition Close (s : PacketSession) : section :=
  if ps_closed s then returns_with s (Closed None) else
  let s := set_closed s in
  if ps_closeHandler s then waits s RunningClose
  else if has tp_closes s then waits s (ClosingTransport None)
  else returns_with s (Closed None).
Definition close_handled (s : PacketSession) (r : option error) : section :=
  if has tp_closes s then waits s (ClosingTransport r) else returns_with s (Closed r).
Definition transport_closed (s : PacketSession) (e r : option error) : section :=
  returns_with s (Closed (match e with Some e => Some e | None => r end)).

(** ** The machine *)
Inductive operation :=
| OpSend (ctx : option error) (inner : bytes)
| OpSendWithNextHeader (ctx : option error) (nextHeader : Z) (inner : bytes)
| OpReceive (ctx : option error) (packet : bytes)
| OpRead (ctx : option error)
| OpRekey (ctx : option error)
| OpAdvanceRekey (ctx : option error) (now : Time)
| OpRunRekeyDue (ctx : option error) (now : Time)
| OpMOBIKE (ctx : option error) (req : MOBIKERequest)
| OpObserve (ctx : option error) (obs : MOBIKENATObservation)
| OpAdvanceLiveness (ctx : option error) (now : Time)
| OpRecordInbound (at' : Time)
| OpRecordOutbound (at' : Time)
| OpRecordResult (at' : Time) (ok : bool)
| OpClose.
Definition begin (Now : Time) (s : PacketSession) (op : operation) : section :=
  match op with
  | OpSend ctx inner => SendInnerPacket s ctx inner
  | OpSendWithNextHeader ctx nextHeader inner => SendInnerPacketWithNextHeader s ctx nextHeader inner
  | OpReceive ctx packet => ReceiveESPPacket Now s ctx packet
  | OpRead ctx => ReadInnerPacket s ctx
  | OpRekey ctx => RekeyChildSA s ctx
  | OpAdvanceRekey ctx now => AdvanceChildSARekey Now s ctx now
  | OpRunRekeyDue ctx now => RunChildSARekeyDue Now s ctx now
  | OpMOBIKE ctx req => MOBIKE Now s ctx req
  | OpObserve ctx obs => ObserveMOBIKENAT Now s ctx obs
  | OpAdvanceLiveness ctx now => AdvanceIKELiveness Now s ctx now
  | OpRecordInbound at' => returns_with (RecordIKELivenessInbound Now s at') Recorded
  | OpRecordOutbound at' => returns_with (RecordIKELivenessOutbound Now s at') Recorded
  | OpRecordResult at' ok => returns_with (RecordIKELivenessResult Now s at' ok) Recorded
  | OpClose => Close s
  end.
Definition resume (Now : Time) (s : PacketSession) (c : call) (a : answer) : option section :=
  match c, a with
  | Sending inner packet, ASent r => Some (send_resumed Now s inner packet r)
  | Reading, ARead r ctx => Some (read_resumed Now s r ctx)
  | Rekeying at' caller, ARekeyed r => Some (rekey_resumed Now s at' caller r)
  | Updating req result change, AUpdated r => Some (update_resumed Now s req result change r)
  | KeepingAlive d, AKeptAlive r => Some (keepalive_resumed s d r)
  | Probing now d, AProbed r => Some (probe_resumed Now s now d r)
  | RunningClose, AClosed r => Some (close_handled s r)
  | ClosingTransport e, AClosed r => Some (transport_closed s e r)
  | _, _ => None
  end.
(** The session and the calls that wait; an event begins a call or resumes the [i]-th. *)
Record machine := mkMachine { mc_session : PacketSession; mc_calls : list call }.
Inductive event := Begin (Now : Time) (op : operation) | Resume (Now : Time) (i : nat) (a : answer).
Definition settle (calls : list call) (r : section) : machine * list output * option call :=
  match r with
  | (s, inl c) => (mkMachine s (calls ++ [c]), [], Some c)
  | (s, inr o) => (mkMachine s calls, [o], None)
  end.
(** What a step shows: what is returned, and the call out that it makes. *)
Definition mstep (m : machine) (e : event) : option (machine * list output * option call) :=
  match e with
  | Begin Now op => Some (settle (mc_calls m) (begin Now (mc_session m) op))
  | Resume Now i a =>
      match mc_calls m !! i with
      | Some c => match resume Now (mc_session m) c a with Some r => Some (settle (delete i (mc_calls m)) r) | None => None end
      | None => None
      end
  end.
Fixpoint mrun (m : machine) (events : list event) : option (machine * list output * list call) :=
  match events with
  | [] => Some (m, [], [])
  | e :: rest =>
      match mstep m e with
      | None => None
      | Some (m, out, c) =>
          match mrun m rest with None => None | Some (m, outs, cs) => Some (m, out ++ outs, match c with Some c => c :: cs | None => cs end) end
      end
  end.
End session.

(** ** What a section does to the SAs *)
Definition quiet (res : call + output) : Prop := match res with inl (Sending _ _) | inr (Received _ _) => False | _ => True end.
Definition child_spis_ok (child : ChildSAResult) : Prop := bytes_ok (cr_LocalSPI child) /\ bytes_ok (cr_RemoteSPI child).
(** The octets that reach the session are octets. *)
Definition operation_ok (op : operation) : Prop :=
  match op with
  | OpSend _ inner | OpSendWithNextHeader _ _ inner => bytes_ok inner
  | OpReceive _ packet => bytes_ok packet
  | _ => True
  end.
Definition answer_ok (a : answer) : Prop :=
  match a with ARead (Ok packet) _ => bytes_ok packet | ARekeyed (Ok child) => child_spis_ok child | _ => True end.
Definition event_ok (e : event) : Prop := match e with Begin _ op => operation_ok op | Resume _ _ a => answer_ok a end.

Section sections.
Context {C : Crypto} {T : NetText} {U : UnicodeCase} {X : ErrorText} (rand_Reader : Reader).
(** The child SA with which a rekey resumes, if the section is that. *)
Context (news : option ChildSAResult).
Inductive sa_step (s s' : PacketSession) : call + output -> Prop :=
| sa_same res : ps_outbound s' = ps_outbound s -> ps_inbound s' = ps_inbound s -> quiet res -> sa_step s s' res
| sa_seal sa nh inner sa' r res :
    ps_closed s = false -> ps_outbound s = Some sa -> validateInnerPacketNextHeader nh inner = Ok tt -> bytes_ok inner ->
    Seal rand_Reader (Some sa) nh inner (mkSealOptions 0 [] (ps_random s)) = (sa', r) -> ps_outbound s' = sa' -> ps_inbound s' = ps_inbound s ->
    match r with Ok packet => res = inl (Sending inner packet) | _ => quiet res end -> sa_step s s' res
| sa_open sa packet sa' r res :
    ps_closed s = false -> ps_inbound s = Some sa -> bytes_ok packet ->
    Open (Some sa) packet = (sa', r) -> ps_inbound s' = sa' -> ps_outbound s' = ps_outbound s ->
    match r with
    | Ok out => match validateInnerPacketNextHeader (or_NextHeader out) (or_Payload out) with
                | Ok _ => res = inr (Received (mkPacket (or_SPI out) (or_Sequence out) (or_NextHeader out) (or_Payload out)) packet)
                | _ => quiet res
                end
    | _ => quiet res
    end -> sa_step s s' res
| sa_install child outbound inbound res :
    news = Some child -> ps_closed s = false -> packetSAs None None child = Ok (outbound, inbound) -> child_spis_ok child ->
    ps_outbound s' = Some outbound -> ps_inbound s' = Some inbound -> quiet res -> sa_step s s' res.
(** The fields that no section changes; a closed session stays closed. *)
Definition kept (s s' : PacketSession) : Prop :=
  ps_random s' = ps_random s /\ ps_transport s' = ps_transport s /\ (ps_closed s = true -> ps_closed s' = true).
Definition section_ok (s : PacketSession) (r : section) : Prop := sa_step s r.1 r.2 /\ kept s r.1.

Lemma same_section s (r : section) : ps_outbound r.1 = ps_outbound s -> ps_inbound r.1 = ps_inbound s -> kept s r.1 -> quiet r.2 -> section_ok s r.
Proof. intros. split; [by apply sa_same|done]. Qed.
Ltac same := apply same_section; by first [done | repeat case_match].

Lemma send_section s ctx nh inner : bytes_ok inner -> section_ok s (SendInnerPacketWithNextHeader rand_Reader s ctx nh inner).
Proof.
  intros Hb. unfold SendInnerPacketWithNextHeader. destruct ctx; [same|]. destruct (ps_closed s) eqn:Hc; [same|].
  destruct (ps_outbound s) as [sa|] eqn:Ho; [|same]. destruct (ps_transport s) eqn:Ht; [|same].
  destruct (validateInnerPacketNextHeader nh inner) as [[]| | |] eqn:Hv; try same.
  destruct (Seal rand_Reader (Some sa) nh inner _) as [sa' r] eqn:Hs.
  split; [apply (sa_seal _ _ sa nh inner sa' r)|]; try done; destruct r; try done; by rewrite Hc.
Qed.
Lemma open_section Now s ctx packet : bytes_ok packet -> section_ok s (ReceiveESPPacket Now s ctx packet).
Proof.
  intros Hb. unfold ReceiveESPPacket. destruct ctx; [same|]. destruct (ps_closed s) eqn:Hc; [same|].
  destruct (ps_inbound s) as [sa|] eqn:Hi; [|same]. destruct (Open (Some sa) packet) as [sa' r] eqn:Ho.
  split; [apply (sa_open _ _ sa packet sa' r)|]; try done; destruct r as [out| | |]; try done; cbn [bind];
    destruct (validateInnerPacketNextHeader (or_NextHeader out) (or_Payload out)); try done; by rewrite Hc.
Qed.
Lemma rekey_returns_same s caller r : (rekey_returns s caller r).1 = s /\ exists o, (rekey_returns s caller r).2 = inr o /\ quiet (inr o).
Proof. unfold rekey_returns. destruct caller, r; try destruct (NextChildSARekeyDue s) as [? []]; (split; [done|]); eexists; by split. Qed.
Lemma rekey_returns_section s s' caller r : sa_step s s' (inr Crashed) -> kept s s' -> section_ok s (rekey_returns s' caller r).
Proof.
  intros Hs Hk. destruct (rekey_returns_same s' caller r) as (E & o & Eo & Hq). unfold section_ok. rewrite E, Eo. split; [|done].
  inversion Hs; subst; [by apply sa_same| | |by eapply sa_install].
  - eapply sa_seal; try done. by destruct r0.
  - eapply sa_open; try done. destruct r0 as [out| | |]; try done. by destruct (validateInnerPacketNextHeader (or_NextHeader out) (or_Payload out)).
Qed.
Lemma unchanged s : sa_step s s (inr Crashed) /\ kept s s.
Proof. split; [by apply sa_same|done]. Qed.
Lemma rekey_section s ctx t caller : section_ok s (rekeyChildSA s ctx t caller).
Proof.
  unfold rekeyChildSA. destruct ctx; [apply rekey_returns_section; apply unchanged|].
  destruct (ps_closed s) eqn:Hc; [apply rekey_returns_section; apply unchanged|]. destruct (ps_rekeyHandler s); [same|apply rekey_returns_section; apply unchanged].
Qed.
Lemma advance_rekey_section Now s ctx now caller : section_ok s (advance_rekey Now s ctx now caller).
Proof. unfold advance_rekey. destruct ctx; [same|]. destruct (ps_closed s) eqn:Hc; [same|]. destruct (negb _); [same|apply rekey_section]. Qed.
Lemma rekey_resumed_section Now s t caller r : match r with Ok child => news = Some child /\ child_spis_ok child | _ => True end -> section_ok s (rekey_resumed Now s t caller r).
Proof.
  intros Hr. unfold rekey_resumed. destruct r as [child|e| |]; cbn [bind]; [|apply rekey_returns_section; apply unchanged|same..].
  destruct (packetSAs None None child) as [[outbound inbound]|e| |] eqn:Hp; cbn [bind]; [|apply rekey_returns_section; apply unchanged|same..].
  destruct (ps_closed s) eqn:Hc; [apply rekey_returns_section; apply unchanged|]. apply rekey_returns_section.
  - destruct Hr. by apply (sa_install _ _ child outbound inbound).
  - unfold kept. by rewrite Hc.
Qed.
Lemma update_section Now s s0 ctx req change : ps_outbound s = ps_outbound s0 -> ps_inbound s = ps_inbound s0 -> kept s0 s ->
  section_ok s0 (update_addresses Now s ctx req change).
Proof.
  intros. unfold update_addresses. destruct ctx; [by apply same_section|]. destruct (ps_closed s) eqn:Hc; [by apply same_section|].
  destruct (ps_mobikeHandler s); by apply same_section.
Qed.
Lemma begin_section Now s op : operation_ok op -> section_ok s (begin rand_Reader Now s op).
Proof.
  intros Hok. destruct op as [ctx inner|ctx nh inner|ctx packet|ctx|ctx|ctx now|ctx now|ctx req|ctx obs|ctx now|t|t|t ok|]; cbn [begin].
  - unfold SendInnerPacket. destruct (NextHeaderForInnerPacket inner); try same. by apply send_section.
  - by apply send_section.
  - by apply open_section.
  - unfold ReadInnerPacket. destruct ctx; [same|]. destruct (ps_closed s) eqn:Hc; [same|]. destruct (negb _); same.
  - apply rekey_section.
  - apply advance_rekey_section.
  - apply advance_rekey_section.
  - by apply update_section.
  - unfold ObserveMOBIKENAT. destruct ctx; [same|]. destruct (ps_closed s) eqn:Hc; [same|]. destruct (Observe _ _ _) as [nat change].
    destruct (negb _); [same|]. by apply update_section.
  - unfold AdvanceIKELiveness. destruct ctx; [same|]. destruct (ps_closed s) eqn:Hc; [same|]. destruct (match ps_liveness s with Some l => Ok l | None => _ end) as [l| | |]; try same.
    destruct (Liveness.Advance Now (Some l) now) as [l' d].
    destruct (ld_Action d); [same| | |].
    + destruct (negb _); same.
    + destruct (negb _); same.
    + unfold markTunnelNotReady. cbn [ps_closed set_liveness set_timers]. rewrite Hc. same.
  - same.
  - same.
  - same.
  - unfold Close. destruct (ps_closed s) eqn:Hc; [same|]. cbv zeta. destruct (ps_closeHandler _); [same|]. destruct (has tp_closes _); same.
Qed.
Lemma resume_section Now s c a r : answer_ok a -> match a with ARekeyed (Ok child) => news = Some child | _ => True end -> resume Now s c a = Some r -> section_ok s r.
Proof.
  intros Ha Hn Hr. destruct c as [inner packet| |t caller|req result change|d|now d| |e], a as [x|x ctx|x|x|x|x|x]; try done; injection Hr as <-.
  - unfold send_resumed. destruct x; same.
  - unfold read_resumed. destruct x; try same. by apply open_section.
  - apply rekey_resumed_section. by destruct x.
  - unfold update_resumed, applyMOBIKEResult. destruct x; same.
  - same.
  - unfold probe_resumed, markTunnelNotReady. destruct x; [|same]. cbv zeta. destruct (negb _); [same|]. destruct (ps_closed _) eqn:Hc; same.
  - unfold close_handled. destruct (has tp_closes s); same.
  - same.
Qed.
End sections.

(** A step of the machine is a section of the session. *)
Definition event_news (e : event) : option ChildSAResult := match e with Resume _ _ (ARekeyed (Ok child)) => Some child | _ => None end.
Section machine.
Context {C : Crypto} `{!CryptoLaws C} {T : NetText} {U : UnicodeCase} {X : ErrorText} (rand_Reader : Reader).
Abbreviation mstep := (mstep rand_Reader).
Abbreviation mrun := (mrun rand_Reader).

Lemma mstep_section m e m' out c : event_ok e -> mstep m e = Some (m', out, c) ->
  exists res, section_ok rand_Reader (event_news e) (mc_session m) (mc_session m', res) /\
    (out, c) = match res with inl c => ([], Some c) | inr o => ([o], None) end.
Proof.
  intros He Hs.
  assert (exists r, section_ok rand_Reader (event_news e) (mc_session m) r /\ exists calls, settle calls r = (m', out, c)) as (r & Hr & calls & Hset).
  { destruct e as [Now op|Now i a]; cbn in Hs.
    - injection Hs as Hs. eexists. split; [by apply begin_section|by eexists].
    - destruct (mc_calls m !! i) as [cl|]; [|done]. destruct (resume Now (mc_session m) cl a) as [r|] eqn:E; [|done]. injection Hs as Hs.
      exists r. split; [eapply resume_section; [exact He| |exact E]|by eexists]. destruct a as [| |[]| | | |]; done. }
  destruct r as [s res]. exists res. unfold settle in Hset. destruct res; injection Hset as <- <- <-; done.
Qed.

(** [A] has the sequence numbers that the inbound SA accepted. *)
Record sas (s : PacketSession) (so si : SA) (A : gset Z) : Prop := {
  sas_outbound : ps_outbound s = Some so;
  sas_inbound : ps_inbound s = Some si;
  sas_outbound_ok : esp_ok so;
  sas_inbound_ok : esp_ok si;
  sas_window : 0 < es_ReplayWindowSize si;
  sas_remembers : remembers si A;
  sas_random : match ps_random s with Some r => reader_ok r | None => True end
}.
Lemma accept_ok si A out : esp_ok si -> remembers si A -> 0 < es_ReplayWindowSize si -> checkReplay si (or_Sequence out) = Ok tt ->
  is_u32 (or_Sequence out) -> 1 <= or_Sequence out ->
  let si' := acceptSequence si (or_Sequence out) in
  esp_ok si' /\ 0 < es_ReplayWindowSize si' /\ remembers si' ({[or_Sequence out]} ∪ A) /\ (or_Sequence out ∉ A) /\ Esp.same_keys si si'.
Proof.
  intros Hok HA Hw Hck Hu H1. cbv zeta. destruct (acceptSequence_same_keys si (or_Sequence out)) as [Hsk Hsq].
  pose proof (acceptSequence_remembers si A (or_Sequence out) HA H1 Hu Hw Hck) as HA'.
  split_and!; [apply (same_keys_ok si); try done; [rewrite Hsq; apply Hok|apply HA'..]| |done| |done].
  - by destruct Hsk as (_ & _ & _ & _ & _ & _ & _ & ->).
  - rewrite (checkReplay_spec si A) in Hck by done. destruct (decide _) as [[? _]|]; done.
Qed.
(** A section other than the install of a new child SA. *)
Lemma section_numbers s s' res so si A : section_ok rand_Reader None s (s', res) -> sas s so si A ->
  exists so' si' A', sas s' so' si' A' /\ (A ⊆ A') /\ Esp.same_keys so so' /\ Esp.same_keys si si' /\ es_Sequence so <= es_Sequence so' /\
  match res with
  | inl (Sending _ packet) => es_Sequence so' = es_Sequence so + 1 /\ numbered so packet (es_Sequence so')
  | inr (Received p _) => (pk_Sequence p ∉ A) /\ pk_Sequence p ∈ A'
  | _ => True
  end.
Proof.
  intros [Hstep (Hrand & _ & _)] [Ho Hi Hso Hsi Hw HA Hr]. cbn [fst snd] in *. inversion Hstep as
    [? Eo Ei Hq|sa nh inner sa' r ? Hc Hsa Hv Hb Hseal Eo Ei Hres|sa packet sa' r ? Hc Hsa Hb Hopen Ei Eo Hres|child ? ? ? Hn]; subst; [| | |done].
  - exists so, si, A. split; [split; first [congruence|done|by rewrite Hrand]|]. split_and!; try done. destruct res as [[]|[]]; done.
  - rewrite Ho in Hsa. injection Hsa as <-. pose proof Hso as (_ & _ & Hsq & _).
    destruct (Seal_next rand_Reader so nh inner (ps_random s) (ps_outbound s') r Hsq Hr Hseal) as (so' & Eso & Hso' & Hu & Hnum).
    assert (Hsk : Esp.same_keys so so') by (by destruct Hso' as [-> | ->]).
    exists so', si, A. split; [split; first [congruence|done|by rewrite Hrand|idtac]; destruct Hso' as [-> | ->]; [done|apply (same_keys_ok so); try done; apply Hso]|].
    split_and!; try done; [destruct Hso' as [-> | ->]; cbn; lia|]. destruct r as [packet| | |]; [subst res; by apply Hnum|destruct res as [[]|[]]; done..].
  - rewrite Hi in Hsa. injection Hsa as <-. destruct (Open_post si packet Hsi Hb) as (si' & r' & Hop & Hpost). rewrite Hop in Hopen. injection Hopen as Esi <-.
    unfold open_post in Hpost. cbn [fst snd] in Hpost. destruct r' as [out|e| |]; [|subst si'|done..].
    + destruct Hpost as (-> & Hck & _ & Hu & H1 & _). destruct (accept_ok si A out) as (H3 & H4 & H5 & H6 & H7); try done.
      exists so, (acceptSequence si (or_Sequence out)), ({[or_Sequence out]} ∪ A).
      split; [split; first [congruence|done|by rewrite Hrand]|]. split_and!; try done; [set_solver|].
      destruct (validateInnerPacketNextHeader _ _); [subst res; cbn; split; [done|set_solver]|destruct res as [[]|[]]; done..].
    + exists so, si, A. split; [split; first [congruence|done|by rewrite Hrand]|]. split_and!; try done. destruct res as [[]|[]]; done.
Qed.

Lemma map_err_ok {A} f (m : result A) a : map_err f m = Ok a -> m = Ok a.
Proof. by destruct m. Qed.
(** Fresh SAs from a child SA. *)
Definition fresh (so si : SA) : Prop :=
  esp_ok so /\ esp_ok si /\ es_Sequence so = 0 /\ es_ReplayWindowSize si = 64 /\ remembers si ∅.
Lemma zero_remembers si : es_HighestSequence si = 0 -> es_ReplayBitmap si = 0 -> remembers si ∅.
Proof. intros Hh Hb. unfold remembers. rewrite Hh, Hb. split_and!; [set_solver|by left|done|done|]. intros d _. rewrite Z.testbit_0_l. set_solver. Qed.
Lemma NewSA_keeps sa sa' : is_u32 (es_SPI sa) -> is_u32 (es_Sequence sa) -> is_u32 (es_HighestSequence sa) -> is_u32 (es_ReplayWindowSize sa) ->
  is_u64 (es_ReplayBitmap sa) -> NewSA sa = Ok sa' ->
  esp_ok sa' /\ es_Sequence sa' = es_Sequence sa /\ es_HighestSequence sa' = es_HighestSequence sa /\
  es_ReplayWindowSize sa' = es_ReplayWindowSize sa /\ es_ReplayBitmap sa' = es_ReplayBitmap sa.
Proof. intros H1 H2 H3 H4 H5 He. pose proof (NewSA_safe sa H1 H2 H3 H4 H5) as Hs. rewrite He in Hs. destruct Hs as [Hok E]. split_and!; try done; by rewrite E. Qed.
Lemma NewSA_zero spi p k window icv block encryption integ sa : is_u32 spi -> is_u32 window ->
  NewSA (mkESP spi encryption p k integ icv block 0 0 window 0) = Ok sa ->
  esp_ok sa /\ es_Sequence sa = 0 /\ es_HighestSequence sa = 0 /\ es_ReplayWindowSize sa = window /\ es_ReplayBitmap sa = 0.
Proof. intros Hs Hw He. by apply NewSA_keeps in He. Qed.
Lemma spi_u32 spi v : bytes_ok spi -> spiFromBytes spi = Ok v -> is_u32 v.
Proof.
  intros Hb. rewrite spiFromBytes_spec by done. unfold valid_spi. destruct (len spi =? 4) eqn:E; [|done]. cbn [andb].
  destruct (negb _); [|done]. intros [= <-]. pose proof (be_decode_range spi Hb) as Hr. apply Z.eqb_eq in E. rewrite E in Hr. exact Hr.
Qed.
Lemma packetSAs_fresh child so si : child_spis_ok child -> packetSAs None None child = Ok (so, si) -> fresh so si.
Proof.
  intros [Hl Hr] H. unfold packetSAs in H. apply bind_ok in H as ([o i] & H & H2). destruct (hasChildSA child); [|done]. cbn [negb] in H.
  apply bind_ok in H as (o' & Ho & H). apply map_err_ok in Ho. apply bind_ok in H as (i' & Hi & [= -> ->]). apply map_err_ok in Hi.
  unfold NewOutboundSAFromChild in Ho. apply bind_ok in Ho as (v & Hv & Ho). apply spi_u32 in Hv; [|done]. apply NewSA_zero in Ho; [|done|done].
  unfold NewInboundSAFromChild in Hi. apply bind_ok in Hi as (v' & Hv' & Hi). apply spi_u32 in Hv'; [|done]. apply NewSA_zero in Hi; [|done|done].
  destruct Ho as (Hok & Hs & Hh & Hw & Hbm). destruct Hi as (Hok' & Hs' & Hh' & Hw' & Hbm').
  cbn [fst snd cloneSA] in H2. apply bind_ok in H2 as (o2 & Ho2 & H2). apply map_err_ok in Ho2. apply bind_ok in H2 as (i2 & Hi2 & [= -> ->]). apply map_err_ok in Hi2.
  apply NewSA_keeps in Ho2 as (K1 & K2 & K3 & K4 & K5); [|apply Hok..]. apply NewSA_keeps in Hi2 as (L1 & L2 & L3 & L4 & L5); [|apply Hok'..].
  split_and!; try done; [by rewrite K2|by rewrite L4|]. apply zero_remembers; congruence.
Qed.
(** A resumed rekey leaves the SAs or installs fresh ones. *)
Lemma section_sas s s' res so si A news : section_ok rand_Reader news s (s', res) -> sas s so si A ->
  exists so' si' A', sas s' so' si' A'.
Proof.
  intros Hsec Hsas. destruct Hsec as [Hstep Hkept]. cbn [fst snd] in *. inversion Hstep as [? ? ? ?|? ? ? ? ? ? ? ? ? ? ? ? ?|? ? ? ? ? ? ? ? ? ? ? ?|child so2 si2 ? Hn Hc Hp Hspis Eo Ei Hq]; subst.
  4: { destruct (packetSAs_fresh child so2 si2 Hspis Hp) as (H1 & H2 & H3 & H4 & H5). exists so2, si2, ∅. destruct Hkept as (Hrand & _). split; try done; [lia|rewrite Hrand; apply Hsas]. }
  all: assert (Hsec : section_ok rand_Reader None s (s', res)) by (split; [cbn [fst snd]; first [by apply sa_same|by eapply sa_seal|by eapply sa_open]|exact Hkept]);
    destruct (section_numbers _ _ _ _ _ _ Hsec Hsas) as (so' & si' & A' & Hsas' & _); eauto.
Qed.

(** What a run hands to the transport and what it delivers. *)
Definition handed (c : call) : list bytes := match c with Sending _ packet => [packet] | _ => [] end.
Definition delivered (o : output) : list PacketTunnelPacket := match o with Received p _ => [p] | _ => [] end.

Lemma mrun_cons m e events m' outs cs : mrun m (e :: events) = Some (m', outs, cs) ->
  exists m1 out c outs' cs', mstep m e = Some (m1, out, c) /\ mrun m1 events = Some (m', outs', cs') /\ outs = out ++ outs' /\
    cs = option_list c ++ cs'.
Proof.
  cbn [PacketSession.mrun]. destruct (mstep m e) as [[[m1 out] c]|]; [|done]. destruct (mrun m1 events) as [[[m2 outs'] cs']|] eqn:E; [|done].
  intros [= <- <- <-]. exists m1, out, c, outs', cs'. by destruct c.
Qed.
Lemma run_sas events : forall m m' outs cs so si A, Forall event_ok events -> mrun m events = Some (m', outs, cs) -> sas (mc_session m) so si A ->
  exists so' si' A', sas (mc_session m') so' si' A'.
Proof.
  induction events as [|e events IH]; intros m m' outs cs so si A Hev Hrun Hsas.
  { injection Hrun as <- <- <-. eauto. }
  apply Forall_cons in Hev as [He Hev]. apply mrun_cons in Hrun as (m1 & out & c & outs' & cs' & Hs & Hr & _ & _).
  destruct (mstep_section _ _ _ _ _ He Hs) as (res & Hsec & _). destruct (section_sas _ _ _ _ _ _ _ Hsec Hsas) as (so1 & si1 & A1 & H1).
  by eapply IH.
Qed.
Lemma run_numbers events : forall m m' outs cs so si A, Forall event_ok events -> Forall (fun e => event_news e = None) events ->
  mrun m events = Some (m', outs, cs) -> sas (mc_session m) so si A ->
  exists so' si' A' sns, sas (mc_session m') so' si' A' /\ (A ⊆ A') /\ Esp.same_keys so so' /\ es_Sequence so <= es_Sequence so' /\
    Forall2 (numbered so) (concat (handed <$> cs)) sns /\ StronglySorted Z.lt sns /\ Forall (fun sn => es_Sequence so < sn <= es_Sequence so') sns /\
    NoDup (pk_Sequence <$> concat (delivered <$> outs)) /\ Forall (fun p => (pk_Sequence p ∉ A) /\ pk_Sequence p ∈ A') (concat (delivered <$> outs)).
Proof.
  induction events as [|e events IH]; intros m m' outs cs so si A Hev Hnews Hrun Hsas.
  { injection Hrun as <- <- <-. exists so, si, A, []. split_and!; try done; constructor. }
  apply Forall_cons in Hev as [He Hev]. apply Forall_cons in Hnews as [Hn Hnews].
  apply mrun_cons in Hrun as (m1 & out & c & outs' & cs' & Hs & Hr & -> & ->).
  destruct (mstep_section _ _ _ _ _ He Hs) as (res & Hsec & Hres). rewrite Hn in Hsec.
  destruct (section_numbers _ _ _ _ _ _ Hsec Hsas) as (so1 & si1 & A1 & Hsas1 & HA & Hk & Hki & Hle & Hnum).
  destruct (IH _ _ _ _ _ _ _ Hev Hnews Hr Hsas1) as (so' & si' & A' & sns & Hsas' & HA' & Hk' & Hle' & Hf & Hsort & Hb & Hnd & Hd).
  assert (Hf' : Forall2 (numbered so) (concat (handed <$> cs')) sns).
  { eapply Forall2_impl; [exact Hf|]. intros p n. unfold numbered, encryptionAlgorithm. destruct Hk as (_ & -> & _). done. }
  assert (Hb' : Forall (fun sn => es_Sequence so < sn <= es_Sequence so') sns) by (eapply Forall_impl; [exact Hb|]; cbn; intros; lia).
  assert (Hd' : Forall (fun p => (pk_Sequence p ∉ A) /\ pk_Sequence p ∈ A') (concat (delivered <$> outs'))).
  { eapply Forall_impl; [exact Hd|]. cbn. intros p [H1 H2]. split; [by intros ?%HA|done]. }
  assert (Hk'' : Esp.same_keys so so') by (by etrans).
  assert (HAA : A ⊆ A') by (by etrans). assert (Hlle : es_Sequence so <= es_Sequence so') by lia. exists so', si', A'.
  destruct res as [c'|o]; injection Hres as -> ->; cbn [option_list].
  - destruct c' as [inner packet| | | | | | | ]; try (exists sns; split_and!; assumption).
    destruct Hnum as [Hseq Hnum]. exists (es_Sequence so1 :: sns). cbn. split_and!; try assumption.
    + by constructor.
    + constructor; [assumption|]. eapply Forall_impl; [exact Hb|]. cbn. intros; lia.
    + constructor; [lia|assumption].
  - exists sns. destruct o as [| |p packet| | | | | | | | | | ]; try (split_and!; assumption).
    destruct Hnum as [Hp Hp']. cbn. split_and!; try assumption.
    + constructor; [|assumption]. intros (q & Hq & Hin)%list_elem_of_fmap. rewrite Forall_forall in Hd. apply Hd in Hin as [Hin _]. apply Hin. by rewrite <- Hq.
    + constructor; [split; [assumption|by apply HA']|assumption].
Qed.

Lemma Ok_inj {A} (a b : A) : @Ok error A a = Ok b -> a = b.
Proof. by intros [=]. Qed.
Lemma NewPacketSession_sas Now cfg s : pc_OutboundSA cfg = None -> pc_InboundSA cfg = None -> child_spis_ok (pc_ChildSA cfg) ->
  match pc_Random cfg with Some r => reader_ok r | None => True end -> NewPacketSession Now cfg = Ok s ->
  exists so si, sas s so si ∅ /\ es_Sequence so = 0 /\ es_ReplayWindowSize si = 64 /\ ps_stats s = zeroStats /\ ps_closed s = false.
Proof.
  intros Ho Hi Hc Hr H. unfold NewPacketSession in H. destruct (pc_Transport cfg); [|done]. rewrite Ho, Hi in H.
  apply bind_ok in H as ([so si] & Hp & H). apply bind_ok in H as (rk & _ & H). apply Ok_inj in H. subst s. destruct (packetSAs_fresh _ _ _ Hc Hp) as (H1 & H2 & H3 & H4 & H5).
  exists so, si. split_and!; try done. split; try done. cbn. lia.
Qed.

(** ** A closed session *)
Lemma closed_section Now s c a op : ps_closed s = true ->
  (forall c', (begin rand_Reader Now s op).2 <> inl c') /\
  (forall r c', resume Now s c a = Some r -> r.2 = inl c' -> exists e, c' = ClosingTransport e).
Proof.
  intros Hc. split.
  - intros c'. assert (forall ctx nh inner c', (SendInnerPacketWithNextHeader rand_Reader s ctx nh inner).2 <> inl c') as Hsend
      by (intros [] ? ? ?; unfold SendInnerPacketWithNextHeader; rewrite ?Hc; done).
    assert (forall ctx t caller, (rekeyChildSA s ctx t caller).2 <> inl c') as Hrk.
    { intros ctx t caller. unfold rekeyChildSA. rewrite Hc.
      destruct ctx as [e|]; [destruct (rekey_returns_same s caller (Err e)) as (_ & o & -> & _)|destruct (rekey_returns_same s caller (Errorf ErrPacketTunnelClosed)) as (_ & o & -> & _)]; done. }
    destruct op as [ctx inner|ctx nh inner|ctx packet|ctx|ctx|ctx now|ctx now|ctx req|ctx obs|ctx now|t|t|t ok|]; cbn [begin].
    + unfold SendInnerPacket. destruct (NextHeaderForInnerPacket inner); [apply Hsend|done..].
    + apply Hsend.
    + unfold ReceiveESPPacket. rewrite Hc. by destruct ctx.
    + unfold ReadInnerPacket. rewrite Hc. by destruct ctx.
    + apply Hrk.
    + unfold AdvanceChildSARekey, advance_rekey. rewrite Hc. by destruct ctx.
    + unfold RunChildSARekeyDue, advance_rekey. rewrite Hc. by destruct ctx.
    + unfold MOBIKE, update_addresses. rewrite Hc. by destruct ctx.
    + unfold ObserveMOBIKENAT. rewrite Hc. by destruct ctx.
    + unfold AdvanceIKELiveness. rewrite Hc. by destruct ctx.
    + done.
    + done.
    + done.
    + unfold Close. by rewrite Hc.
  - intros r c' Hr Hc'. destruct c as [inner packet| |t caller|req result change|d|now d| |e], a as [x|x ctx|x|x|x|x|x]; try done; injection Hr as <-.
    + unfold send_resumed in Hc'. by destruct x.
    + unfold read_resumed, ReceiveESPPacket in Hc'. rewrite Hc in Hc'. destruct x, ctx; done.
    + unfold rekey_resumed in Hc'. rewrite Hc in Hc'. destruct (bind x _) as [[child [o i]]|err| |]; try done;
        [destruct (rekey_returns_same s caller (Errorf ErrPacketTunnelClosed)) as (_ & ? & E & _)|destruct (rekey_returns_same s caller (Err err)) as (_ & ? & E & _)]; by rewrite E in Hc'.
    + unfold update_resumed in Hc'. by destruct x.
    + by unfold keepalive_resumed in Hc'.
    + unfold probe_resumed in Hc'. destruct x as [err|]; [|done]. cbv zeta in Hc'. by destruct (negb (lsn_Dead _)).
    + unfold close_handled in Hc'. destruct (has tp_closes s); [|done]. injection Hc' as <-. by eexists.
    + by unfold transport_closed in Hc'.
Qed.
Lemma closed_step m e m' out c : event_ok e -> mstep m e = Some (m', out, c) -> ps_closed (mc_session m) = true ->
  ps_closed (mc_session m') = true /\ ps_outbound (mc_session m') = ps_outbound (mc_session m) /\ ps_inbound (mc_session m') = ps_inbound (mc_session m) /\
  concat (delivered <$> out) = [] /\ Forall (fun c => exists e, c = ClosingTransport e) (option_list c).
Proof.
  intros He Hs Hc. pose proof (mstep_section _ _ _ _ _ He Hs) as (res & [Hstep (_ & _ & Hk)] & Hres). cbn [fst snd] in *.
  inversion Hstep as [? Eo Ei Hq|? ? ? ? ? ? Hf|? ? ? ? ? Hf|? ? ? ? ? Hf]; subst; try congruence. split_and!; [by apply Hk|done|done| |].
  - destruct res as [|o]; injection Hres as -> ->; [done|]. by destruct o.
  - destruct res as [cl|o]; injection Hres as -> ->; [|constructor]. constructor; [|constructor].
    destruct e as [Now op|Now i a]; cbn [PacketSession.mstep] in Hs.
    + destruct (closed_section Now (mc_session m) Reading (ASent None) op Hc) as [Hb _]. injection Hs as Hs.
      destruct (begin rand_Reader Now (mc_session m) op) as [s' [c'|o]]; [by destruct (Hb c')|done].
    + destruct (mc_calls m !! i) as [c0|]; [|done]. destruct (closed_section Now (mc_session m) c0 a OpClose Hc) as [_ Hb].
      destruct (resume Now (mc_session m) c0 a) as [r|] eqn:E; [|done]. injection Hs as Hs.
      destruct r as [s' [c'|o]]; [|done]. injection Hs as <- <-. by apply (Hb _ c' eq_refl).
Qed.
Lemma closed_run events : forall m m' outs cs, Forall event_ok events -> mrun m events = Some (m', outs, cs) -> ps_closed (mc_session m) = true ->
  ps_closed (mc_session m') = true /\ ps_outbound (mc_session m') = ps_outbound (mc_session m) /\ ps_inbound (mc_session m') = ps_inbound (mc_session m) /\
  concat (delivered <$> outs) = [] /\ Forall (fun c => exists e, c = ClosingTransport e) cs.
Proof.
  induction events as [|e events IH]; intros m m' outs cs Hev Hrun Hc.
  { injection Hrun as <- <- <-. by split_and!. }
  apply Forall_cons in Hev as [He Hev]. apply mrun_cons in Hrun as (m1 & out & c & outs' & cs' & Hs & Hr & -> & ->).
  destruct (closed_step _ _ _ _ _ He Hs Hc) as (Hc1 & Ho1 & Hi1 & Hd1 & Hf1). destruct (IH _ _ _ _ Hev Hr Hc1) as (Hc2 & Ho2 & Hi2 & Hd2 & Hf2).
  split_and!; [done|congruence|congruence| |by apply Forall_app].
  rewrite fmap_app, concat_app, Hd1. exact Hd2.
Qed.

(** ** From one session to its peer *)
Definition sendings (c : call) : list (bytes * bytes) := match c with Sending inner packet => [(inner, packet)] | _ => [] end.
(** The sequence number in an ESP header. *)
Definition number (packet : bytes) : Z := be_decode (sub packet 4 8).
(** What opening [packet] does at any peer of [so]. *)
Definition carries (so : SA) (ip : bytes * bytes) : Prop :=
  bytes_ok ip.2 /\ 1 <= number ip.2 /\ is_u32 (number ip.2) /\
  exists nh, is_u8 nh /\ validateInnerPacketNextHeader nh ip.1 = Ok tt /\
    forall si, esp_ok si -> peer_of so si ->
      exists r, opens si ip.2 (number ip.2) nh ip.1 r /\ Open (Some si) ip.2 = (Some r.1, r.2).
Lemma peer_of_same so so' si : Esp.same_keys so so' -> peer_of so si <-> peer_of so' si.
Proof. unfold peer_of. by intros (-> & -> & -> & -> & -> & -> & -> & _). Qed.
Lemma peer_of_same_r so si si' : Esp.same_keys si si' -> peer_of so si -> peer_of so si'.
Proof. unfold peer_of. by intros (-> & -> & -> & -> & -> & -> & -> & _). Qed.
Lemma carries_same so so' ip : Esp.same_keys so so' -> carries so' ip -> carries so ip.
Proof. intros Hk (H1 & H2 & H3 & nh & H4 & H5 & H6). split_and!; try done. exists nh. split_and!; try done. intros si Hsi Hp. apply H6; [done|]. by apply (peer_of_same so so'). Qed.
Lemma NextHeader_u8 inner nh : validateInnerPacketNextHeader nh inner = Ok tt -> is_u8 nh.
Proof.
  unfold validateInnerPacketNextHeader, NextHeaderForInnerPacket. destruct inner as [|b inner]; [done|].
  destruct (Z.shiftr b 4 =? 4); [|destruct (Z.shiftr b 4 =? 6); [|done]]; cbn [bind]; intros H.
  - destruct (Z.eqb_spec NextHeaderIPv4 nh) as [E|E]; [by rewrite <- E|done].
  - destruct (Z.eqb_spec NextHeaderIPv6 nh) as [E|E]; [by rewrite <- E|done].
Qed.
Lemma number_of spi sn body : is_u32 sn -> number (be_bytes 4 spi ++ be_bytes 4 sn ++ body) = sn.
Proof. intros Hu. unfold number. rewrite (sub_middle (be_bytes 4 spi) (be_bytes 4 sn) body) by (by rewrite ?len_be_bytes). apply be_decode_be_bytes. unfold in_range in Hu. lia. Qed.
Lemma seal_carries so nh inner random so' packet si0 : reader_ok rand_Reader -> match random with Some r => reader_ok r | None => True end -> esp_ok so ->
  bytes_ok inner -> validateInnerPacketNextHeader nh inner = Ok tt -> esp_ok si0 -> peer_of so si0 ->
  Seal rand_Reader (Some so) nh inner (mkSealOptions 0 [] random) = (so', Ok packet) -> carries so (inner, packet).
Proof.
  intros Hr Hrandom Hso Hb Hv Hsi0 Hp0 Hseal. pose proof (NextHeader_u8 _ _ Hv) as Hnh.
  pose proof Hso as (_ & _ & Hsq & _). destruct (Seal_next rand_Reader so nh inner random so' (Ok packet) Hsq Hrandom Hseal) as (so1 & -> & _).
  assert (options_ok (mkSealOptions 0 [] random)) as Hopt by (split_and!; [done|constructor|done]).
  destruct (Seal_opens rand_Reader so si0 nh inner _ so1 packet Hr Hso Hsi0 Hp0 Hopt Hb Hnh Hseal) as (sn & r & H1 & Hu & _ & Hsn & (Hbp & (body & Hbody) & _) & _).
  assert (Hnum : number packet = sn) by (rewrite Hbody; by apply number_of). unfold carries. cbn [fst snd]. rewrite Hnum. split_and!; try done.
  exists nh. split_and!; try done. intros si Hsi Hp.
  destruct (Seal_opens rand_Reader so si nh inner _ so1 packet Hr Hso Hsi Hp Hopt Hb Hnh Hseal) as (sn' & r' & _ & _ & _ & Hsn' & Hopens & Hopen).
  exists r'. replace sn with sn' by (by rewrite Hsn, Hsn'). done.
Qed.
Lemma run_carries events si0 : reader_ok rand_Reader -> esp_ok si0 -> forall m m' outs cs so si A, Forall event_ok events ->
  Forall (fun e => event_news e = None) events -> mrun m events = Some (m', outs, cs) -> sas (mc_session m) so si A -> peer_of so si0 ->
  Forall (carries so) (concat (sendings <$> cs)).
Proof.
  intros Hreader Hsi0. induction events as [|e events IH]; intros m m' outs cs so si A Hev Hnews Hrun Hsas Hp.
  { injection Hrun as <- <- <-. constructor. }
  apply Forall_cons in Hev as [He Hev]. apply Forall_cons in Hnews as [Hn Hnews].
  apply mrun_cons in Hrun as (m1 & out & c & outs' & cs' & Hs & Hr & -> & ->).
  destruct (mstep_section _ _ _ _ _ He Hs) as (res & Hsec & Hres). rewrite Hn in Hsec.
  destruct (section_numbers _ _ _ _ _ _ Hsec Hsas) as (so1 & si1 & A1 & Hsas1 & _ & Hk & _).
  pose proof (IH _ _ _ _ _ _ _ Hev Hnews Hr Hsas1 (proj1 (peer_of_same so so1 si0 Hk) Hp)) as Hrest.
  rewrite fmap_app, concat_app. apply Forall_app. split; [|eapply Forall_impl; [exact Hrest|]; intros; by eapply carries_same].
  destruct res as [c'|o]; injection Hres as -> ->; [|constructor]. destruct c' as [inner packet| | | | | | | ]; try constructor; [|constructor].
  destruct Hsec as [Hstep _]. cbn [fst snd] in Hstep. destruct Hsas as [Ho _ Hso _ _ _ Hrandom].
  inversion Hstep as [? ? ? Hf|sa nh inner' sa' r ? Hc Hsa Hv Hb Hseal Eo Ei Hres'|sa pk sa' r ? Hc Hsa Hb Hopen Ei Eo Hres'|? ? ? ? ? ? ? ? ? ? Hf]; subst; [done| | |done].
  - rewrite Ho in Hsa. injection Hsa as <-. destruct r as [packet'| | |]; [|done..]. injection Hres' as <- <-.
    by eapply (seal_carries so nh inner _ _ packet si0).
  - destruct r as [out| | |]; [|done..]. by destruct (validateInnerPacketNextHeader (or_NextHeader out) (or_Payload out)).
Qed.

(** The receiver: one packet after the other. *)
Fixpoint receive_all (Now : Time) (s : PacketSession) (packets : list bytes) : PacketSession * list (call + output) :=
  match packets with
  | [] => (s, [])
  | p :: rest => let '(s, r) := ReceiveESPPacket Now s None p in let '(s, rs) := receive_all Now s rest in (s, r :: rs)
  end.
Definition payload_of (r : call + output) : option bytes := match r with inr (Received p _) => Some (pk_Payload p) | _ => None end.
(** The abstract receiver: it delivers what its window has not seen. *)
Fixpoint window_deliver (w : Z) (A : gset Z) (stream : list (bytes * bytes)) : list (option bytes) :=
  match stream with
  | [] => []
  | (inner, packet) :: rest =>
      if decide (admissible A w (number packet)) then Some inner :: window_deliver w ({[number packet]} ∪ A) rest else None :: window_deliver w A rest
  end.
Lemma receive_carried Now s so0 so si A ip : sas s so si A -> ps_closed s = false -> peer_of so0 si -> carries so0 ip ->
  exists s' r, ReceiveESPPacket Now s None ip.2 = (s', r) /\ ps_closed s' = false /\
    (if decide (admissible A (window_of si) (number ip.2))
     then payload_of r = Some ip.1 /\ sas s' so (acceptSequence si (number ip.2)) ({[number ip.2]} ∪ A)
     else payload_of r = None /\ sas s' so si A).
Proof.
  intros [Ho Hi Hso Hsi Hw HA Hrandom] Hc Hp (Hb & H1 & Hu & nh & Hnh & Hv & Hopens). destruct (Hopens si Hsi Hp) as (r & (_ & _ & ->) & Hop).
  unfold ReceiveESPPacket. rewrite Hc, Hi, Hop. rewrite (checkReplay_spec si A) by done. destruct (decide _) as [Had|Had]; cbn [bind commit fst snd or_NextHeader or_Payload].
  - rewrite Hv. cbn [bind]. eexists _, _. split; [done|]. split; [done|]. split; [done|].
    assert (Hck : checkReplay si (number ip.2) = Ok tt) by (rewrite (checkReplay_spec si A) by done; by rewrite decide_True).
    destruct (accept_ok si A (mkOpenResult 0 (number ip.2) 0 [])) as (K1 & K2 & K3 & _); try done.
  - eexists _, _. split; [done|]. done.
Qed.
Lemma receive_all_spec Now stream : forall s so0 so si A, sas s so si A -> ps_closed s = false -> peer_of so0 si -> Forall (carries so0) stream ->
  payload_of <$> (receive_all Now s (snd <$> stream)).2 = window_deliver (window_of si) A stream.
Proof.
  induction stream as [|ip stream IH]; intros s so0 so si A Hsas Hc Hp Hf; [done|]. apply Forall_cons in Hf as [Hip Hf]. cbn [fmap list_fmap receive_all].
  destruct (receive_carried Now s so0 so si A ip Hsas Hc Hp Hip) as (s' & r & -> & Hc' & Hr). destruct (receive_all Now s' (snd <$> stream)) as [s'' rs] eqn:E.
  change ((payload_of <$> r :: rs) = window_deliver (window_of si) A (ip :: stream)). destruct ip as [inner packet]. cbn [fst snd window_deliver fmap list_fmap] in *.
  destruct (decide _) as [Had|Had]; destruct Hr as [-> Hs'].
  - destruct (acceptSequence_same_keys si (number packet)) as [Hk _].
    pose proof (IH s' so0 so _ _ Hs' Hc' (peer_of_same_r _ _ _ Hk Hp) Hf) as H. rewrite E in H. cbn [snd] in H.
    f_equal. etrans; [exact H|]. f_equal. unfold window_of. by destruct Hk as (_ & _ & _ & _ & _ & _ & _ & ->).
  - pose proof (IH s' so0 so _ _ Hs' Hc' Hp Hf) as H. rewrite E in H. cbn [snd] in H. f_equal. exact H.
Qed.
(** Packets in increasing order are all delivered. *)
Lemma in_order w stream : forall A, 0 < w -> StronglySorted Z.lt ((fun ip => number ip.2) <$> stream) ->
  (forall x ip, x ∈ A -> ip ∈ stream -> x < number ip.2) -> window_deliver w A stream = Some <$> stream.*1.
Proof.
  induction stream as [|[inner packet] stream IH]; intros A Hw Hs HA; [done|]. cbn in *. inversion Hs as [|? ? Hs' Hlt]; subst.
  assert (Hlast : forall x, x ∈ A -> x < number packet) by (intros x Hx; apply (HA x (inner, packet) Hx); left).
  rewrite decide_True by (split; [intros Hin; specialize (Hlast _ Hin); lia|intros x Hx; specialize (Hlast _ Hx); lia]). f_equal. apply IH; [done|done|].
  intros x ip [->%elem_of_singleton|Hx]%elem_of_union Hip.
  - rewrite Forall_fmap, Forall_forall in Hlt. by apply Hlt.
  - apply HA; [done|by right].
Qed.
End machine.

Lemma sorted_sublist {A} (R : A -> A -> Prop) l l' : sublist l l' -> StronglySorted R l' -> StronglySorted R l.
Proof.
  induction 1 as [|x l l' Hs IH|x l l' Hs IH]; intros H; [done| |]; inversion H as [|? ? H' Hf]; subst; [|by apply IH].
  constructor; [by apply IH|]. rewrite Forall_forall in Hf |- *. intros y Hy. apply Hf. by eapply elem_of_sublist.
Qed.
Lemma handed_sendings cs : concat (handed <$> cs) = (concat (sendings <$> cs)).*2.
Proof. induction cs as [|c cs IH]; [done|]. cbn. rewrite fmap_app. f_equal; [by destruct c|done]. Qed.
Lemma sending_numbers so cs sns : Forall2 (numbered so) (concat (handed <$> cs)) sns -> Forall is_u32 sns ->
  (fun ip => number ip.2) <$> concat (sendings <$> cs) = sns.
Proof.
  rewrite handed_sendings. intros H. remember (concat (sendings <$> cs)) as l eqn:El. clear El cs. revert l H.
  induction sns as [|sn sns IH]; intros [|[inner packet] l] H Hu; inversion H as [|? ? ? ? Hn Hf]; subst; [done|]. apply Forall_cons in Hu as [Hu Hus]. cbn.
  f_equal; [|by apply IH]. unfold number. destruct Hn as [-> _]. apply be_decode_be_bytes. unfold in_range in Hu. lia.
Qed.

(** ** The counters

    What a returned call adds to each counter. *)
Definition sum {A} (f : A -> Z) (l : list A) : Z := foldr (fun x n => f x + n) 0 l.
Definition drop_kind (e : error) : Z * Z * Z :=
  if errors_Is e ErrReplay then (1, 0, 0) else if errors_Is e Esp_ErrInvalidPacket then (0, 1, 0)
  else if errors_Is e ErrUnsupportedInnerPacket then (0, 0, 1) else (0, 0, 0).
Definition sent_packet (o : output) : Z := match o with Sent _ _ => 1 | _ => 0 end.
Definition sent_bytes (o : output) : Z := match o with Sent inner _ => len inner | _ => 0 end.
Definition sent_esp_bytes (o : output) : Z := match o with Sent _ packet => len packet | _ => 0 end.
Definition send_error (o : output) : Z := match o with SendFailed _ _ => 1 | _ => 0 end.
Definition received_packet (o : output) : Z := match o with Received _ _ => 1 | _ => 0 end.
Definition received_bytes (o : output) : Z := match o with Received p _ => len (pk_Payload p) | _ => 0 end.
Definition received_esp_bytes (o : output) : Z := match o with Received _ packet => len packet | _ => 0 end.
Definition receive_error (o : output) : Z := match o with ReceiveFailed _ => 1 | _ => 0 end.
Definition replay_drop (o : output) : Z := match o with ReceiveFailed e => (drop_kind e).1.1 | _ => 0 end.
Definition invalid_drop (o : output) : Z := match o with ReceiveFailed e => (drop_kind e).1.2 | _ => 0 end.
Definition unsupported_drop (o : output) : Z :=
  match o with SendFailed true _ => 1 | ReceiveFailed e => (drop_kind e).2 | _ => 0 end.
Definition stats_of (outs : list output) : PacketTunnelStats :=
  let n f := to_u64 (sum f outs) in
  mkStats (n sent_packet) (n sent_bytes) (n sent_packet) (n sent_esp_bytes) (n send_error) (n received_packet) (n received_bytes) (n received_packet)
    (n received_esp_bytes) (n receive_error) (n replay_drop) (n invalid_drop) (n unsupported_drop).

Definition tally (st : PacketTunnelStats) (o : output) : PacketTunnelStats :=
  match o with
  | Sent inner packet => outbound_done st inner packet
  | SendFailed unsupported _ => errors_counted st 1 0 0 0 (if unsupported then 1 else 0)
  | Received p packet => inbound_done st (pk_Payload p) packet
  | ReceiveFailed e => errors_counted st 0 1 (drop_kind e).1.1 (drop_kind e).1.2 (drop_kind e).2
  | _ => st
  end.
Lemma sum_snoc {A} (f : A -> Z) l x : sum f (l ++ [x]) = sum f l + f x.
Proof. induction l as [|y l IH]; [cbn; lia|]. change (f y + sum f (l ++ [x]) = f y + sum f l + f x). rewrite IH. lia. Qed.
Lemma to_u64_add a b : to_u64 (to_u64 a + b) = to_u64 (a + b).
Proof. unfold to_u64. apply Z.add_mod_idemp_l. lia. Qed.
Lemma to_u64_idem a : to_u64 (to_u64 a) = to_u64 a.
Proof. unfold to_u64. by rewrite Z.mod_mod. Qed.
Lemma tally_stats_of outs o : tally (stats_of outs) o = stats_of (outs ++ [o]).
Proof.
  unfold stats_of. rewrite !sum_snoc. destruct o as [inner packet|u e|p packet|e| | | | | | | | | ]; cbn [tally].
  all: unfold outbound_done, inbound_done, errors_counted; cbn; rewrite ?Z.add_0_r, ?to_u64_add, ?to_u64_idem; try done.
  all: by rewrite ?Z.add_0_r.
Qed.
Lemma recordInbound_tally s e : ps_stats (recordInboundErrorLocked s e) = tally (ps_stats s) (ReceiveFailed e).
Proof. unfold recordInboundErrorLocked, tally, drop_kind. cbn [ps_stats set_stats]. destruct (errors_Is e ErrReplay), (errors_Is e Esp_ErrInvalidPacket), (errors_Is e ErrUnsupportedInnerPacket); done. Qed.

Definition counted (s : PacketSession) (r : section) : Prop :=
  ps_stats r.1 = match r.2 with inl _ => ps_stats s | inr o => tally (ps_stats s) o end.
Section counting.
Context {C : Crypto} {T : NetText} {U : UnicodeCase} {X : ErrorText} (rand_Reader : Reader).
Lemma send_counted s ctx nh inner : counted s (SendInnerPacketWithNextHeader rand_Reader s ctx nh inner).
Proof.
  unfold SendInnerPacketWithNextHeader. destruct ctx; [done|]. destruct (ps_closed s); [done|]. destruct (ps_outbound s) as [sa|]; [|done].
  destruct (ps_transport s); [|done]. destruct (validateInnerPacketNextHeader nh inner); try done.
  destruct (Seal _ _ _ _ _) as [sa' r]. by destruct r.
Qed.
Lemma receive_counted Now s ctx packet : counted s (ReceiveESPPacket Now s ctx packet).
Proof.
  unfold ReceiveESPPacket. destruct ctx; [apply recordInbound_tally|]. destruct (ps_closed s); [done|]. destruct (ps_inbound s) as [sa|]; [|done].
  destruct (Open (Some sa) packet) as [sa' r]. destruct (bind r _); try done. unfold counted. cbn [fst snd returns_with]. by rewrite recordInbound_tally.
Qed.
Lemma rekey_returns_counted s s' caller r : ps_stats s' = ps_stats s -> counted s (rekey_returns s' caller r).
Proof.
  intros Hs. unfold counted, rekey_returns. destruct caller as [|d|d]; [done|done|]. destruct r; try done. by destruct (NextChildSARekeyDue s') as [? []].
Qed.
Lemma rekey_counted s ctx t caller : counted s (rekeyChildSA s ctx t caller).
Proof. unfold rekeyChildSA. destruct ctx; [by apply rekey_returns_counted|]. destruct (ps_closed s); [by apply rekey_returns_counted|]. destruct (negb _); [by apply rekey_returns_counted|done]. Qed.
Lemma advance_rekey_counted Now s ctx now caller : counted s (advance_rekey Now s ctx now caller).
Proof. unfold advance_rekey. destruct ctx; [done|]. destruct (ps_closed s); [done|]. cbv zeta. destruct (negb _); [done|]. apply rekey_counted. Qed.
Lemma update_counted Now s s0 ctx req change : ps_stats s = ps_stats s0 -> counted s0 (update_addresses Now s ctx req change).
Proof. intros Hs. unfold update_addresses. destruct ctx; [done|]. destruct (ps_closed s); [done|]. cbv zeta. by destruct (ps_mobikeHandler s). Qed.
Lemma not_ready_counted s reason : ps_stats (markTunnelNotReady s reason) = ps_stats s.
Proof. unfold markTunnelNotReady. by destruct (ps_closed s). Qed.
Lemma begin_counted Now s op : counted s (begin rand_Reader Now s op).
Proof.
  destruct op as [ctx inner|ctx nh inner|ctx packet|ctx|ctx|ctx now|ctx now|ctx req|ctx obs|ctx now|t|t|t ok|]; cbn [begin].
  - unfold SendInnerPacket. destruct (NextHeaderForInnerPacket inner); [apply send_counted|done..].
  - apply send_counted.
  - apply receive_counted.
  - unfold ReadInnerPacket. destruct ctx; [apply recordInbound_tally|]. destruct (ps_closed s); [done|]. destruct (negb _); [apply recordInbound_tally|done].
  - apply rekey_counted.
  - apply advance_rekey_counted.
  - apply advance_rekey_counted.
  - by apply update_counted.
  - unfold ObserveMOBIKENAT. destruct ctx; [done|]. destruct (ps_closed s); [done|]. cbv zeta. destruct (Observe _ _ _) as [nat change]. destruct (negb _); [done|]. by apply update_counted.
  - unfold AdvanceIKELiveness. destruct ctx; [done|]. destruct (ps_closed s); [done|]. destruct (match ps_liveness s with Some l => Ok l | None => _ end) as [l| | |]; try done.
    destruct (Liveness.Advance Now (Some l) now) as [l' d]. cbv zeta. destruct (ld_Action d); [done| | |].
    + by destruct (negb _).
    + by destruct (negb _).
    + unfold counted. cbn [fst snd returns_with tally]. by rewrite not_ready_counted.
  - done.
  - done.
  - done.
  - unfold Close. destruct (ps_closed s); [done|]. cbv zeta. destruct (ps_closeHandler _); [done|]. by destruct (has tp_closes _).
Qed.
Lemma resume_counted Now s c a r : resume Now s c a = Some r -> counted s r.
Proof.
  intros Hr. destruct c as [inner packet| |t caller|req result change|d|now d| |e], a as [x|x ctx|x|x|x|x|x]; try done; injection Hr as <-.
  - unfold send_resumed. by destruct x.
  - unfold read_resumed. destruct x; [apply receive_counted|apply recordInbound_tally|done..].
  - unfold rekey_resumed. destruct (bind x _) as [[child [o i]]|err| |]; [|by apply rekey_returns_counted|done..]. destruct (ps_closed s); by apply rekey_returns_counted.
  - unfold update_resumed, applyMOBIKEResult. destruct x; try done. cbv zeta. by destruct (ps_closed s).
  - done.
  - unfold probe_resumed. destruct x as [err|]; [|done]. cbv zeta. destruct (negb _); [done|]. unfold counted. cbn [fst snd returns_with tally]. by rewrite not_ready_counted.
  - unfold close_handled. by destruct (has tp_closes s).
  - done.
Qed.
Lemma mstep_counted m e m' out c : mstep rand_Reader m e = Some (m', out, c) -> ps_stats (mc_session m') = foldl tally (ps_stats (mc_session m)) out.
Proof.
  intros Hs. assert (exists r, counted (mc_session m) r /\ exists calls, settle calls r = (m', out, c)) as ([s' res] & Hr & calls & Hset).
  { destruct e as [Now op|Now i a]; cbn in Hs.
    - injection Hs as Hs. eexists. split; [apply begin_counted|by eexists].
    - destruct (mc_calls m !! i) as [cl|]; [|done]. destruct (resume Now (mc_session m) cl a) as [r|] eqn:E; [|done]. injection Hs as Hs.
      exists r. split; [by eapply resume_counted|by eexists]. }
  unfold counted in Hr. cbn [fst snd] in Hr. destruct res; injection Hset as <- <- <-; exact Hr.
Qed.
Lemma mrun_counted events : forall m m' outs cs before, mrun rand_Reader m events = Some (m', outs, cs) ->
  ps_stats (mc_session m) = stats_of before -> ps_stats (mc_session m') = stats_of (before ++ outs).
Proof.
  induction events as [|e events IH]; intros m m' outs cs before Hrun Hst.
  { injection Hrun as <- <- <-. by rewrite app_nil_r. }
  apply mrun_cons in Hrun as (m1 & out & c & outs' & cs' & Hs & Hr & -> & ->). rewrite app_assoc. apply (IH m1 m' outs' cs' (before ++ out) Hr).
  apply mstep_counted in Hs. rewrite Hs, Hst. clear. revert before. induction out as [|o out IH]; intros before; [by rewrite app_nil_r|].
  cbn [foldl]. rewrite tally_stats_of, IH. by rewrite <- app_assoc.
Qed.
End counting.

#[local] Instance no_text : NetText := {| net_ParseIP _ := None; IP_String ip := ip |}.
#[local] Instance ascii_case : UnicodeCase := {| unicode_ToUpper r := r; unicode_ToLower r := r |}.
#[local] Instance no_error_text : ErrorText := {| error_Error _ := "" |}.
Definition sample_keys_ab : ESPKeys := mkESPKeys (replicate 16 1) (replicate 32 2).
Definition sample_keys_ba : ESPKeys := mkESPKeys (replicate 16 3) (replicate 32 4).
Definition sample_child (local remote : bytes) (outbound inbound : ESPKeys) : ChildSAResult :=
  mkChildResult (mkSA []) (mkTSs []) (mkTSs []) None local remote
    (mkChildKeys (mkESPProfile ENCR_AES_CBC 16 INTEG_HMAC_SHA2_256_128 32 false) outbound inbound) false 0.
Definition sample_result : TunnelResult := mkTunnelResult false [] [] [] [] [] [] 0 0 [] [] false false false [] "" 0.
Definition sample_cfg (child : ChildSAResult) : PacketSessionConfig :=
  mkSessionConfig sample_result child None None (Some (mkTransport true true true)) (Some zero_reader) false true (mkRekeyPolicy 100 10 false) None None true true.
Definition cfg_a : PacketSessionConfig := sample_cfg (sample_child [1; 1; 1; 1] [2; 2; 2; 2] sample_keys_ab sample_keys_ba).
Definition cfg_b : PacketSessionConfig := sample_cfg (sample_child [2; 2; 2; 2] [1; 1; 1; 1] sample_keys_ba sample_keys_ab).
Definition session_of (cfg : PacketSessionConfig) : PacketSession :=
  match NewPacketSession 100 cfg with
  | Ok s => s
  | _ => mkSession sample_result None None None None false false None None None false false zeroStats false
  end.
Lemma session_of_a : NewPacketSession 100 cfg_a = Ok (session_of cfg_a).
Proof. vm_compute. reflexivity. Qed.
Lemma session_of_b : NewPacketSession 100 cfg_b = Ok (session_of cfg_b).
Proof. vm_compute. reflexivity. Qed.
Lemma sample_spis local remote k k' : bytes_ok local -> bytes_ok remote -> child_spis_ok (pc_ChildSA (sample_cfg (sample_child local remote k k'))).
Proof. done. Qed.
Lemma spis_a : child_spis_ok (pc_ChildSA cfg_a).
Proof. apply sample_spis; by_decide. Qed.
Lemma spis_b : child_spis_ok (pc_ChildSA cfg_b).
Proof. apply sample_spis; by_decide. Qed.
(** Two sends that overlap: the second begins before the transport took the first. *)
Definition two_sends : list event :=
  [Begin 101 (OpSend None [0x45; 1]); Begin 101 (OpSend None [0x60; 2]); Resume 102 1 (ASent None); Resume 102 0 (ASent None)].
Lemma two_sends_ok : Forall event_ok two_sends.
Proof. repeat constructor; by_decide. Qed.
Lemma two_sends_plain : Forall (fun e => event_news e = None) two_sends.
Proof. repeat constructor. Qed.
Definition sample_sent : list call :=
  match mrun (C := toy_crypto) zero_reader (mkMachine (session_of cfg_a) []) two_sends with Some (_, _, cs) => cs | None => [] end.
Definition sample_stream : list (bytes * bytes) := concat (sendings <$> sample_sent).

(** ** Properties *)

(** C20: whatever the interleaving of sends, receptions, rekeys, address updates, probes and
    the close, with any transport and handlers: from the creation of a session over a child
    SA, after any history, between two rekeys the ESP packets handed to the transport carry
    strictly increasing sequence numbers beyond those used before (under AES-GCM these are
    also the nonces), so none is used twice; and no sequence number is delivered twice. *)
Theorem numbers_used_once (C : Crypto) (L : CryptoLaws C) (T : NetText) (U : UnicodeCase) (X : ErrorText) rand Now cfg s before m outs0 cs0 events m' outs cs :
  pc_OutboundSA cfg = None -> pc_InboundSA cfg = None -> child_spis_ok (pc_ChildSA cfg) ->
  match pc_Random cfg with Some r => reader_ok r | None => True end -> NewPacketSession Now cfg = Ok s ->
  Forall event_ok before -> mrun rand (mkMachine s []) before = Some (m, outs0, cs0) ->
  Forall event_ok events -> Forall (fun e => event_news e = None) events -> mrun rand m events = Some (m', outs, cs) ->
  exists so sns, ps_outbound (mc_session m) = Some so /\ Forall2 (numbered so) (concat (handed <$> cs)) sns /\
    StronglySorted Z.lt sns /\ Forall (fun sn => es_Sequence so < sn < 2 ^ 32) sns /\
    NoDup (pk_Sequence <$> concat (delivered <$> outs)).
Proof.
  intros Ho Hi Hc Hrnd Hnew Hev0 Hrun0 Hev Hn Hrun. destruct (NewPacketSession_sas rand Now cfg s Ho Hi Hc Hrnd Hnew) as (so0 & si0 & Hsas0 & _).
  destruct (run_sas rand _ _ _ _ _ _ _ _ Hev0 Hrun0 Hsas0) as (so & si & A & Hsas).
  destruct (run_numbers rand _ _ _ _ _ _ _ _ Hev Hn Hrun Hsas) as (so' & si' & A' & sns & Hsas' & _ & Hk & _ & Hf & Hsort & Hb & Hnd & _).
  exists so, sns. split_and!; try done; [apply Hsas|]. eapply Forall_impl; [exact Hb|]. cbn. intros sn H.
  destruct Hsas' as [_ _ (_ & _ & Hu & _) _ _ _ _]. unfold in_range in Hu. lia.
Qed.

Lemma numbers_used_once_witness :
  exists m outs cs, mrun (C := toy_crypto) zero_reader (mkMachine (session_of cfg_a) []) two_sends = Some (m, outs, cs) /\
    length (concat (handed <$> cs)) = 2%nat /\
    exists so sns, ps_outbound (session_of cfg_a) = Some so /\ Forall2 (numbered so) (concat (handed <$> cs)) sns /\ StronglySorted Z.lt sns.
Proof.
  destruct (mrun (C := toy_crypto) zero_reader (mkMachine (session_of cfg_a) []) two_sends) as [[[m outs] cs]|] eqn:E; [|vm_compute in E; discriminate E].
  exists m, outs, cs. split; [reflexivity|].
  split; [pose proof E as E'; vm_compute in E'; injection E' as _ _ <-; reflexivity|].
  destruct (numbers_used_once toy_crypto toy_crypto_laws no_text ascii_case no_error_text zero_reader 100 cfg_a (session_of cfg_a) [] (mkMachine (session_of cfg_a) []) [] [] two_sends m outs cs)
    as (so & sns & H1 & H2 & H3 & _); [reflexivity|reflexivity|exact spis_a|exact zero_reader_ok|exact session_of_a|constructor|reflexivity|exact two_sends_ok|exact two_sends_plain|exact E|].
  exists so, sns. split; [exact H1|]. split; [exact H2|exact H3].
Defined.

(** The close is final: after it, whatever calls were waiting and whatever is called,
    the session hands nothing to the transport, delivers nothing, starts no rekey, update or
    probe, and keeps its SAs; the only call out is the close of the transport. *)
Theorem closed_is_final (C : Crypto) (L : CryptoLaws C) (T : NetText) (U : UnicodeCase) (X : ErrorText) rand m events m' outs cs :
  Forall event_ok events -> mrun rand m events = Some (m', outs, cs) -> ps_closed (mc_session m) = true ->
  ps_closed (mc_session m') = true /\ ps_outbound (mc_session m') = ps_outbound (mc_session m) /\ ps_inbound (mc_session m') = ps_inbound (mc_session m) /\
  concat (delivered <$> outs) = [] /\ Forall (fun c => exists e, c = ClosingTransport e) cs.
Proof. apply closed_run. Qed.

Lemma closed_is_final_witness :
  exists m outs cs, mrun (C := toy_crypto) zero_reader (mkMachine (set_closed (session_of cfg_a)) [Sending [0x45] [1]; Rekeying 0 ByCaller])
      [Begin 101 (OpSend None [0x45; 1]); Resume 101 1 (ARekeyed (Ok (pc_ChildSA cfg_a))); Resume 101 0 (ASent None)] = Some (m, outs, cs) /\
    outs = [TurnedAway; Rekeyed (Errorf ErrPacketTunnelClosed); Sent [0x45] [1]] /\ ps_closed (mc_session m) = true.
Proof.
  destruct (mrun (C := toy_crypto) zero_reader (mkMachine (set_closed (session_of cfg_a)) [Sending [0x45] [1]; Rekeying 0 ByCaller])
      [Begin 101 (OpSend None [0x45; 1]); Resume 101 1 (ARekeyed (Ok (pc_ChildSA cfg_a))); Resume 101 0 (ASent None)]) as [[[m outs] cs]|] eqn:E; [|vm_compute in E; discriminate E].
  exists m, outs, cs. split; [reflexivity|]. split; [pose proof E as E'; vm_compute in E'; injection E' as _ <- _; reflexivity|].
  apply (closed_is_final toy_crypto toy_crypto_laws no_text ascii_case no_error_text zero_reader _ _ m outs cs) in E; [exact (proj1 E)| |reflexivity].
  constructor; [by_decide|]. constructor; [exact spis_a|]. constructor; [exact I|constructor].
Defined.

(** C19: the tunnel between two sessions whose SAs are peers: whatever the sender's calls
    interleave (no rekey completes), and whatever the network does to the packets handed to
    its transport (loses, repeats and reorders them), the receiver delivers exactly what the
    abstract window of 64 numbers delivers, each packet with the inner packet that was sent;
    when packets are only lost, everything that arrives is delivered, in order. *)
Theorem tunnel_refines_window (C : Crypto) (L : CryptoLaws C) (T : NetText) (U : UnicodeCase) (X : ErrorText) rand Now Now' now
    cfg_a a events m outs cs cfg_b b so si stream :
  reader_ok rand ->
  pc_OutboundSA cfg_a = None -> pc_InboundSA cfg_a = None -> child_spis_ok (pc_ChildSA cfg_a) ->
  match pc_Random cfg_a with Some r => reader_ok r | None => True end -> NewPacketSession Now cfg_a = Ok a ->
  pc_OutboundSA cfg_b = None -> pc_InboundSA cfg_b = None -> child_spis_ok (pc_ChildSA cfg_b) ->
  match pc_Random cfg_b with Some r => reader_ok r | None => True end -> NewPacketSession Now' cfg_b = Ok b ->
  ps_outbound a = Some so -> ps_inbound b = Some si -> peer_of so si ->
  Forall event_ok events -> Forall (fun e => event_news e = None) events -> mrun rand (mkMachine a []) events = Some (m, outs, cs) ->
  (forall ip, ip ∈ stream -> ip ∈ concat (sendings <$> cs)) ->
  payload_of <$> (receive_all now b (snd <$> stream)).2 = window_deliver 64 ∅ stream /\
  (sublist stream (concat (sendings <$> cs)) -> payload_of <$> (receive_all now b (snd <$> stream)).2 = Some <$> stream.*1).
Proof.
  intros Hr Ha1 Ha2 Ha3 Ha4 Ha Hb1 Hb2 Hb3 Hb4 Hb Hso Hsi Hpeer Hev Hn Hrun Hin.
  destruct (NewPacketSession_sas rand Now cfg_a a Ha1 Ha2 Ha3 Ha4 Ha) as (so' & sia & Hsas & _). destruct (NewPacketSession_sas rand Now' cfg_b b Hb1 Hb2 Hb3 Hb4 Hb) as (sob & si' & Hsasb & _ & Hw & _ & Hc).
  assert (so' = so) as -> by (destruct Hsas; congruence). assert (si' = si) as -> by (destruct Hsasb; congruence).
  assert (Hsiok : esp_ok si) by apply Hsasb. pose proof (run_carries rand events si Hr Hsiok _ _ _ _ _ _ _ Hev Hn Hrun Hsas Hpeer) as Hcar.
  assert (Hs : Forall (carries so) stream) by (apply Forall_forall; intros ip Hip; rewrite Forall_forall in Hcar; by apply Hcar, Hin).
  pose proof (receive_all_spec now stream b so sob si ∅ Hsasb Hc Hpeer Hs) as Hrec. replace (window_of si) with 64 in Hrec by (unfold window_of; by rewrite Hw).
  split; [exact Hrec|]. intros Hsub. rewrite Hrec. apply in_order; [lia| |set_solver].
  destruct (run_numbers rand _ _ _ _ _ _ _ _ Hev Hn Hrun Hsas) as (so1 & ? & ? & sns & Hsas' & _ & _ & _ & Hf & Hsort & Hbnd & _).
  apply (sorted_sublist _ _ ((fun ip => number ip.2) <$> concat (sendings <$> cs))); [by apply fmap_sublist|].
  rewrite (sending_numbers so _ _ Hf); [done|]. destruct Hsas' as [_ _ (_ & _ & Hu & _) _ _ _ _]. destruct Hsas as [_ _ (_ & _ & Hu0 & _) _ _ _ _].
  eapply Forall_impl; [exact Hbnd|]. cbn. unfold in_range in *. lia.
Qed.

(** The packets arrive in the other order, the second twice: it is delivered once. *)
Lemma tunnel_refines_window_witness :
  length sample_stream = 2%nat /\
  payload_of <$> (receive_all (C := toy_crypto) 103 (session_of cfg_b) (snd <$> (reverse sample_stream ++ reverse sample_stream))).2
    = [Some [0x60; 2]; Some [0x45; 1]; None; None].
Proof.
  split; [vm_compute; reflexivity|].
  destruct (mrun (C := toy_crypto) zero_reader (mkMachine (session_of cfg_a) []) two_sends) as [[[m outs] cs]|] eqn:E; [|vm_compute in E; discriminate E].
  destruct (ps_outbound (session_of cfg_a)) as [so|] eqn:Eo; [|discriminate Eo]. destruct (ps_inbound (session_of cfg_b)) as [si|] eqn:Ei; [|discriminate Ei].
  assert (Hcs : sample_stream = concat (sendings <$> cs)) by (unfold sample_stream, sample_sent; rewrite E; reflexivity).
  assert (Hrec := tunnel_refines_window toy_crypto toy_crypto_laws no_text ascii_case no_error_text zero_reader 100 100 103 cfg_a (session_of cfg_a) two_sends m outs cs
    cfg_b (session_of cfg_b) so si (reverse sample_stream ++ reverse sample_stream)).
  etransitivity; [exact (proj1 (Hrec zero_reader_ok eq_refl eq_refl spis_a zero_reader_ok session_of_a eq_refl eq_refl spis_b zero_reader_ok session_of_b Eo Ei
    ltac:(vm_compute in Eo, Ei; injection Eo as <-; injection Ei as <-; repeat split) two_sends_ok two_sends_plain E
    ltac:(intros ip; rewrite elem_of_app, !elem_of_reverse, <- Hcs; by intros [])))|].
  vm_compute. reflexivity.
Defined.

(** The counters of a session are exact under every interleaving: each is, modulo 2^64,
    the count (or the octets) of the calls that returned with that outcome: packets sent and
    received, errors, and the drops by kind (replays, invalid and unsupported packets). *)
Theorem counters_exact (C : Crypto) (L : CryptoLaws C) (T : NetText) (U : UnicodeCase) (X : ErrorText) rand Now cfg s events m outs cs :
  NewPacketSession Now cfg = Ok s -> mrun rand (mkMachine s []) events = Some (m, outs, cs) ->
  ps_stats (mc_session m) = stats_of outs.
Proof.
  intros Hnew Hrun. apply (mrun_counted rand events _ _ _ _ [] Hrun). unfold NewPacketSession in Hnew. destruct (pc_Transport cfg); [|done].
  apply bind_ok in Hnew as ([so si] & _ & Hnew). apply bind_ok in Hnew as (rk & _ & Hnew). apply Ok_inj in Hnew. by subst s.
Qed.
Lemma counters_exact_witness :
  exists m outs cs, mrun (C := toy_crypto) zero_reader (mkMachine (session_of cfg_a) []) (two_sends ++ [Begin 103 (OpSend None [0x15])]) = Some (m, outs, cs) /\
    ps_stats (mc_session m) = stats_of outs /\ st_OutboundInnerPackets (stats_of outs) = 2 /\ st_UnsupportedDrops (stats_of outs) = 1.
Proof.
  destruct (mrun (C := toy_crypto) zero_reader (mkMachine (session_of cfg_a) []) (two_sends ++ [Begin 103 (OpSend None [0x15])])) as [[[m outs] cs]|] eqn:E; [|vm_compute in E; discriminate E].
  exists m, outs, cs. split; [reflexivity|]. split; [exact (counters_exact toy_crypto toy_crypto_laws no_text ascii_case no_error_text zero_reader 100 cfg_a _ _ m outs cs session_of_a E)|].
  vm_compute in E. injection E as _ <- _. split; reflexivity.
Defined.
