(* ===== verification/PacketPump.v ===== *)
(** * The packet pump (engine/swu/packet_pump.go)

    Two goroutines move packets, one from the device to the session and one back, and a
    third closes both when the context ends.  A goroutine is where it waits; an
    event is the return of the call on which it waits, so a list of events is one
    schedule.  The device and the session are known by what their calls return: the
    rekey that is due runs in [runChildSARekeyDue] between two calls, under a mutex
    of its own. *)
From S2P Require Import Prelude Errors Crypto Liveness Rekey PacketSession.
#[local] Open Scope list_scope.
#[local] Open Scope Z_scope.

Inductive PacketPumpDirection := PacketPumpDeviceToESP | PacketPumpESPToDevice.
Record PacketPumpStats := mkPumpStats {
  pu_DeviceToESPPackets : Z;
  pu_DeviceToESPBytes : Z;
  pu_ESPToDevicePackets : Z;
  pu_ESPToDeviceBytes : Z;
  pu_DeviceReadErrors : Z;
  pu_DeviceWriteErrors : Z;
  pu_ESPReadErrors : Z;
  pu_ESPSendErrors : Z;
  pu_ChildSARekeys : Z;
  pu_ChildSARekeyErrors : Z
}.
Definition zeroPumpStats : PacketPumpStats := mkPumpStats 0 0 0 0 0 0 0 0 0 0.
(** Where a goroutine waits. *)
Inductive device_goroutine := DReading | DRekeying (packet : bytes) | DSending (packet : bytes) | DDone.
Inductive esp_goroutine := EReading | EWriting (payload : bytes) | ERekeying | EDone.
Record PacketPump := mkPump {
  pp_stats : PacketPumpStats;
  pp_started : bool;
  pp_cancelled : bool;
  (* the first error, with its direction ([once]) *)
  pp_err : option (PacketPumpDirection * error);
  pp_device : device_goroutine;
  pp_esp : esp_goroutine;
  pp_closed : bool
}.
Definition NewPacketPump (session device : bool) : result PacketPump :=
  if negb session then Errorf ErrInvalidPacketPump else
  if negb device then Errorf ErrInvalidPacketPump else
  Ok (mkPump zeroPumpStats false false None DDone EDone false).
Definition Start (p : PacketPump) : PacketPump * result unit :=
  if pp_started p then (p, Errorf ErrInvalidPacketPump)
  else (mkPump (pp_stats p) true (pp_cancelled p) (pp_err p) DReading EReading false, Ok tt).

(** Assignments to the fields that change together. *)
Definition at_device (p : PacketPump) (stats : PacketPumpStats) (d : device_goroutine) : PacketPump :=
  mkPump stats (pp_started p) (pp_cancelled p) (pp_err p) d (pp_esp p) (pp_closed p).
Definition at_esp (p : PacketPump) (stats : PacketPumpStats) (e : esp_goroutine) : PacketPump :=
  mkPump stats (pp_started p) (pp_cancelled p) (pp_err p) (pp_device p) e (pp_closed p).
Definition add_packets (st : PacketPumpStats) (toESP toESPBytes toDevice toDeviceBytes rekeys : Z) : PacketPumpStats :=
  mkPumpStats (to_u64 (pu_DeviceToESPPackets st + toESP)) (to_u64 (pu_DeviceToESPBytes st + toESPBytes))
    (to_u64 (pu_ESPToDevicePackets st + toDevice)) (to_u64 (pu_ESPToDeviceBytes st + toDeviceBytes))
    (pu_DeviceReadErrors st) (pu_DeviceWriteErrors st) (pu_ESPReadErrors st) (pu_ESPSendErrors st)
    (to_u64 (pu_ChildSARekeys st + rekeys)) (pu_ChildSARekeyErrors st).
Definition add_errors (st : PacketPumpStats) (deviceRead deviceWrite espRead espSend rekey : Z) : PacketPumpStats :=
  mkPumpStats (pu_DeviceToESPPackets st) (pu_DeviceToESPBytes st) (pu_ESPToDevicePackets st) (pu_ESPToDeviceBytes st)
    (to_u64 (pu_DeviceReadErrors st + deviceRead)) (to_u64 (pu_DeviceWriteErrors st + deviceWrite)) (to_u64 (pu_ESPReadErrors st + espRead))
    (to_u64 (pu_ESPSendErrors st + espSend)) (pu_ChildSARekeys st) (to_u64 (pu_ChildSARekeyErrors st + rekey)).

Definition isNormalStop (p : PacketPump) (e : error) : bool :=
  errors_Is e ErrContextCanceled || errors_Is e ErrContextDeadlineExceeded || errors_Is e ErrEOF || errors_Is e ErrPacketTunnelClosed || pp_cancelled p.
Definition requestStop (p : PacketPump) : PacketPump :=
  mkPump (pp_stats p) (pp_started p) true (pp_err p) (pp_device p) (pp_esp p) (pp_closed p).
(** Only the first error is kept; it cancels the context. *)
Definition recordError (p : PacketPump) (direction : PacketPumpDirection) (e : error) (update : PacketPumpStats -> PacketPumpStats) : PacketPump :=
  match pp_err p with
  | None => mkPump (update (pp_stats p)) (pp_started p) true (Some (direction, e)) (pp_device p) (pp_esp p) (pp_closed p)
  | Some old => mkPump (update (pp_stats p)) (pp_started p) (pp_cancelled p) (Some old) (pp_device p) (pp_esp p) (pp_closed p)
  end.
(** A loop ends with an error. *)
Definition stop_with (p : PacketPump) (direction : PacketPumpDirection) (e : error) (update : PacketPumpStats -> PacketPumpStats) : PacketPump :=
  if isNormalStop p e then requestStop p else recordError p direction e update.

(** What [runChildSARekeyDue] finds: nothing due or no scheduler, or the result of the rekey. *)
Inductive rekey_due := NotDue | RunDue (r : result ChildSARekeyDecision).
Definition runChildSARekeyDue (p : PacketPump) (direction : PacketPumpDirection) (due : rekey_due) : PacketPump * result unit :=
  match due with
  | NotDue => (p, Ok tt)
  | RunDue (Ok d) =>
      (if bool_decide (rd_Action d = ChildSARekeyDue)
       then mkPump (add_packets (pp_stats p) 0 0 0 0 1) (pp_started p) (pp_cancelled p) (pp_err p) (pp_device p) (pp_esp p) (pp_closed p) else p, Ok tt)
  | RunDue (Err e) => (recordError p direction e (fun st => add_errors st 0 0 0 0 1), Err e)
  | RunDue Panic => (p, Panic)
  | RunDue OutOfFuel => (p, OutOfFuel)
  end.

(** The return of a call: [ReadInnerPacket] of the device, [SendInnerPacket] of the session,
    and back; the checks for a rekey; the end of the context for [closeOnContext]. *)
Inductive event :=
| DeviceRead (r : result bytes)
| DeviceRekey (due : rekey_due)
| ESPSent (r : option error)
| ESPRead (r : result bytes)
| DeviceWritten (r : option error)
| ESPRekey (due : rekey_due)
| ContextDone
| Cancelled.
(** The calls out: packets for the session, payloads for the device, and the closes. *)
Inductive action := SendInner (packet : bytes) | WriteInner (payload : bytes) | CloseBoth.

Definition deviceToESP (p : PacketPump) (e : event) : option (PacketPump * list action) :=
  match pp_device p, e with
  | DReading, DeviceRead (Err err) =>
      let p := stop_with p PacketPumpDeviceToESP err (fun st => add_errors st 1 0 0 0 0) in Some (at_device p (pp_stats p) DDone, [])
  | DReading, DeviceRead (Ok packet) => if len packet =? 0 then Some (p, []) else Some (at_device p (pp_stats p) (DRekeying packet), [])
  | DRekeying packet, DeviceRekey due =>
      let '(p, r) := runChildSARekeyDue p PacketPumpDeviceToESP due in
      match r with
      | Ok _ => Some (at_device p (pp_stats p) (DSending packet), [SendInner packet])
      | Err _ => Some (at_device p (pp_stats p) DDone, [])
      | _ => None
      end
  | DSending packet, ESPSent (Some err) =>
      let p := stop_with p PacketPumpDeviceToESP err (fun st => add_errors st 0 0 0 1 0) in Some (at_device p (pp_stats p) DDone, [])
  | DSending packet, ESPSent None => Some (at_device p (add_packets (pp_stats p) 1 (len packet) 0 0 0) DReading, [])
  | _, _ => None
  end.
Definition espToDevice (p : PacketPump) (e : event) : option (PacketPump * list action) :=
  match pp_esp p, e with
  | EReading, ESPRead (Err err) =>
      let p := stop_with p PacketPumpESPToDevice err (fun st => add_errors st 0 0 1 0 0) in Some (at_esp p (pp_stats p) EDone, [])
  | EReading, ESPRead (Ok payload) => if len payload =? 0 then Some (p, []) else Some (at_esp p (pp_stats p) (EWriting payload), [WriteInner payload])
  | EWriting payload, DeviceWritten (Some err) =>
      let p := stop_with p PacketPumpESPToDevice err (fun st => add_errors st 0 1 0 0 0) in Some (at_esp p (pp_stats p) EDone, [])
  | EWriting payload, DeviceWritten None => Some (at_esp p (add_packets (pp_stats p) 0 0 1 (len payload) 0) ERekeying, [])
  | ERekeying, ESPRekey due =>
      let '(p, r) := runChildSARekeyDue p PacketPumpESPToDevice due in
      match r with
      | Ok _ => Some (at_esp p (pp_stats p) EReading, [])
      | Err _ => Some (at_esp p (pp_stats p) EDone, [])
      | _ => None
      end
  | _, _ => None
  end.
Definition closeOnContext (p : PacketPump) : option (PacketPump * list action) :=
  if pp_cancelled p && negb (pp_closed p) && pp_started p
  then Some (mkPump (pp_stats p) (pp_started p) (pp_cancelled p) (pp_err p) (pp_device p) (pp_esp p) true, [CloseBoth]) else None.
(** [Cancelled]: the caller's context ends, or [Close] cancels it. *)
Definition pump_step (p : PacketPump) (e : event) : option (PacketPump * list action) :=
  match e with
  | DeviceRead _ | DeviceRekey _ | ESPSent _ => deviceToESP p e
  | ESPRead _ | DeviceWritten _ | ESPRekey _ => espToDevice p e
  | ContextDone => closeOnContext p
  | Cancelled => Some (requestStop p, [])
  end.
(** [done] is closed when the three goroutines have ended; [Wait] then returns. *)
Definition pump_done (p : PacketPump) : bool :=
  match pp_device p, pp_esp p with DDone, EDone => pp_closed p | _, _ => false end.
Definition Wait (p : PacketPump) : option (result (PacketPumpStats * option error)) :=
  if negb (pp_started p) then Some (Errorf ErrInvalidPacketPump)
  else if pump_done p then Some (Ok (pp_stats p, snd <$> pp_err p)) else None.
Fixpoint pump_run (p : PacketPump) (events : list event) : option (PacketPump * list action) :=
  match events with
  | [] => Some (p, [])
  | e :: rest =>
      match pump_step p e with
      | None => None
      | Some (p', out) => match pump_run p' rest with None => None | Some (p'', out') => Some (p'', out ++ out') end
      end
  end.

(** ** What is read is passed on *)
Definition device_reads (e : event) : list bytes := match e with DeviceRead (Ok p) => if len p =? 0 then [] else [p] | _ => [] end.
Definition esp_reads (e : event) : list bytes := match e with ESPRead (Ok p) => if len p =? 0 then [] else [p] | _ => [] end.
Definition to_session (a : action) : list bytes := match a with SendInner p => [p] | _ => [] end.
Definition to_device (a : action) : list bytes := match a with WriteInner p => [p] | _ => [] end.
Definition closes (a : action) : nat := match a with CloseBoth => 1 | _ => 0 end.
(** The packet that was read and not yet passed on, and the one handed over and not yet counted. *)
Definition unsent (p : PacketPump) : list bytes := match pp_device p with DRekeying packet => [packet] | _ => [] end.
Definition in_flight_esp (p : PacketPump) : list bytes := match pp_device p with DSending packet => [packet] | _ => [] end.
Definition in_flight_device (p : PacketPump) : list bytes := match pp_esp p with EWriting payload => [payload] | _ => [] end.

(** [read_d], [sent] are the packets read from the device and handed to the session,
    [ok_d] those that the session took; [lost] is one that a failed rekey left;
    [read_e] are the payloads of the session, all handed to the device, which took [ok_e]. *)
Record passed (p : PacketPump) (read_d sent ok_d read_e written ok_e lost : list bytes) : Prop := {
  passed_device : sent ++ unsent p ++ lost = read_d;
  passed_esp : written = read_e;
  passed_lost : lost <> [] -> len lost = 1 /\ pp_device p = DDone;
  passed_sent : exists failed, ok_d ++ in_flight_esp p ++ failed = sent /\ (failed <> [] -> len failed = 1 /\ pp_device p = DDone);
  passed_written : exists failed, ok_e ++ in_flight_device p ++ failed = written /\ (failed <> [] -> len failed = 1 /\ pp_esp p = EDone);
  passed_counts : pu_DeviceToESPPackets (pp_stats p) = to_u64 (len ok_d) /\ pu_DeviceToESPBytes (pp_stats p) = to_u64 (len (concat ok_d)) /\
    pu_ESPToDevicePackets (pp_stats p) = to_u64 (len ok_e) /\ pu_ESPToDeviceBytes (pp_stats p) = to_u64 (len (concat ok_e))
}.
Definition taken_d (p : PacketPump) (e : event) : list bytes := match e with ESPSent None => in_flight_esp p | _ => [] end.
Definition taken_e (p : PacketPump) (e : event) : list bytes := match e with DeviceWritten None => in_flight_device p | _ => [] end.

(** Only the packets' counters and the places of the goroutines matter. *)
Definition same_counts (p p' : PacketPump) : Prop :=
  pu_DeviceToESPPackets (pp_stats p') = pu_DeviceToESPPackets (pp_stats p) /\ pu_DeviceToESPBytes (pp_stats p') = pu_DeviceToESPBytes (pp_stats p) /\
  pu_ESPToDevicePackets (pp_stats p') = pu_ESPToDevicePackets (pp_stats p) /\ pu_ESPToDeviceBytes (pp_stats p') = pu_ESPToDeviceBytes (pp_stats p).
Lemma stop_with_same p direction e update : (forall st, let p' := update st in
    pu_DeviceToESPPackets p' = pu_DeviceToESPPackets st /\ pu_DeviceToESPBytes p' = pu_DeviceToESPBytes st /\
    pu_ESPToDevicePackets p' = pu_ESPToDevicePackets st /\ pu_ESPToDeviceBytes p' = pu_ESPToDeviceBytes st) ->
  let p' := stop_with p direction e update in same_counts p p' /\ pp_device p' = pp_device p /\ pp_esp p' = pp_esp p.
Proof.
  intros H. cbv zeta. unfold stop_with, recordError. destruct (isNormalStop p e); [done|]. destruct (pp_err p); split; try done; apply H.
Qed.
Definition u64_counts (p : PacketPump) : Prop :=
  is_u64 (pu_DeviceToESPPackets (pp_stats p)) /\ is_u64 (pu_DeviceToESPBytes (pp_stats p)) /\
  is_u64 (pu_ESPToDevicePackets (pp_stats p)) /\ is_u64 (pu_ESPToDeviceBytes (pp_stats p)).
Lemma runChildSARekeyDue_same p direction due p' r : u64_counts p -> runChildSARekeyDue p direction due = (p', r) ->
  same_counts p p' /\ pp_device p' = pp_device p /\ pp_esp p' = pp_esp p.
Proof.
  intros (H1 & H2 & H3 & H4) H. unfold runChildSARekeyDue in H. destruct due as [|[d|e| |]]; try (injection H as <- <-; done).
  - injection H as <- <-. case_match; [|done]. split; [|done]. unfold same_counts, add_packets, to_u64. cbn. rewrite !Z.add_0_r, !Z.mod_small by done. done.
  - injection H as <- <-. unfold recordError. by destruct (pp_err p).
Qed.

Lemma counts_u64 p rd sn od re wr oe lost : passed p rd sn od re wr oe lost -> u64_counts p.
Proof. intros [_ _ _ _ _ (H1 & H2 & H3 & H4)]. unfold u64_counts. rewrite H1, H2, H3, H4. unfold in_range, to_u64. split_and!; by apply Z.mod_pos_bound. Qed.
Lemma passed_same p p' rd sn od re wr oe lost : same_counts p p' -> pp_device p' = pp_device p -> pp_esp p' = pp_esp p ->
  passed p rd sn od re wr oe lost -> passed p' rd sn od re wr oe lost.
Proof.
  intros (H1 & H2 & H3 & H4) Hd He [P1 P2 P3 P4 P5 P6]. split; unfold unsent, in_flight_esp, in_flight_device in *; rewrite ?Hd, ?He, ?H1, ?H2, ?H3, ?H4 in *; done.
Qed.
Lemma none_lost p d rd sn od re wr oe lost : passed p rd sn od re wr oe lost -> pp_device p = d -> d <> DDone -> lost = [].
Proof. intros [_ _ H _ _ _] Hd Hn. destruct lost; [done|]. destruct H as [_ H]; [done|]. congruence. Qed.
(** A goroutine of the device side moves. *)
Lemma passed_device_done p rd sn od re wr oe lost : passed p rd sn od re wr oe lost -> pp_device p <> DDone ->
  exists lost', passed (at_device p (pp_stats p) DDone) rd sn od re wr oe lost'.
Proof.
  intros HP Hn. pose proof (none_lost p _ _ _ _ _ _ _ _ HP eq_refl Hn) as ->. destruct HP as [P1 P2 P3 (f & P4 & P4') P5 P6]. exists (unsent p).
  rewrite app_nil_r in P1. assert (f = []) as -> by (destruct f; [done|]; destruct P4' as [_ ?]; [done|congruence]). rewrite app_nil_r in P4. split; try done.
  - cbn. intros H. split; [|done]. unfold unsent in *. destruct (pp_device p); done.
  - exists (in_flight_esp p). cbn. split; [done|]. intros H. split; [|done]. unfold in_flight_esp in *. destruct (pp_device p); done.
Qed.
Lemma passed_esp_done p rd sn od re wr oe lost : passed p rd sn od re wr oe lost -> pp_esp p <> EDone ->
  passed (at_esp p (pp_stats p) EDone) rd sn od re wr oe lost.
Proof.
  intros [P1 P2 P3 P4 (f & P5 & P5') P6] Hn.
  assert (f = []) as -> by (destruct f; [done|]; destruct P5' as [_ ?]; [done|congruence]). rewrite app_nil_r in P5. split; try done.
  exists (in_flight_device p). cbn. split; [done|]. intros H. split; [|done]. unfold in_flight_device in *. destruct (pp_esp p); done.
Qed.
Lemma to_u64_plus a b : to_u64 (to_u64 a + b) = to_u64 (a + b).
Proof. unfold to_u64. apply Z.add_mod_idemp_l. lia. Qed.
Lemma to_u64_twice a : to_u64 (to_u64 a) = to_u64 a.
Proof. unfold to_u64. by rewrite Z.mod_mod. Qed.
Lemma len_concat_snoc (l : list bytes) x : len (concat (l ++ [x])) = len (concat l) + len x.
Proof. rewrite concat_app, len_app. cbn. by rewrite app_nil_r. Qed.
Lemma len_snoc {A} (l : list A) x : len (l ++ [x]) = len l + 1.
Proof. by rewrite len_app. Qed.

Lemma device_step p e p' acts rd sn od re wr oe lost : deviceToESP p e = Some (p', acts) -> passed p rd sn od re wr oe lost ->
  exists lost', passed p' (rd ++ device_reads e) (sn ++ concat (to_session <$> acts)) (od ++ taken_d p e) (re ++ esp_reads e)
    (wr ++ concat (to_device <$> acts)) (oe ++ taken_e p e) lost'.
Proof.
  intros Hs HP. pose proof (counts_u64 _ _ _ _ _ _ _ _ HP) as Hu. unfold deviceToESP in Hs.
  destruct (pp_device p) as [|packet|packet|] eqn:Hd; [| | |done]; pose proof (none_lost p _ _ _ _ _ _ _ _ HP Hd ltac:(done)) as ->.
  - destruct e as [[packet|err| |]| | | | | | |]; try done; cbn [device_reads].
    + destruct (len packet =? 0); injection Hs as <- <-; cbn; rewrite ?app_nil_r; [by exists []|]. exists [].
      destruct HP as [P1 P2 P3 (f & P4 & P4') P5 P6]. unfold unsent, in_flight_esp in *. rewrite Hd in *. rewrite app_nil_r in P1.
      split; try done; cbn; [by rewrite <- P1|]. exists f. split; [done|]. intros H. destruct (P4' H). done.
    + injection Hs as <- <-. cbn. rewrite !app_nil_r. set (q := stop_with _ _ _ _).
      destruct (stop_with_same p PacketPumpDeviceToESP err (fun st => add_errors st 1 0 0 0 0)) as (Hc & Hd' & He'); [done|]. fold q in Hc, Hd', He'.
      apply (passed_device_done q rd sn od re wr oe []); [by apply (passed_same p)|congruence].
  - destruct e as [|due| | | | | |]; try done. cbn [device_reads taken_d taken_e esp_reads]. rewrite !app_nil_r.
    destruct (runChildSARekeyDue p PacketPumpDeviceToESP due) as [q r] eqn:Er. destruct (runChildSARekeyDue_same _ _ _ _ _ Hu Er) as (Hc & Hd' & He').
    assert (HQ : passed q rd sn od re wr oe []) by (by apply (passed_same p)).
    destruct r as [[]|err| |]; [| |done|done]; injection Hs as <- <-; cbn; rewrite ?app_nil_r.
    + exists []. destruct HQ as [P1 P2 P3 (f & P4 & P4') P5 P6]. unfold unsent, in_flight_esp in *. rewrite Hd' in *. rewrite Hd in *. cbn in P4. rewrite app_nil_r in P1.
      assert (f = []) as -> by (destruct f; [done|]; by destruct P4' as [_ ?]). rewrite app_nil_r in P4.
      split; try done; cbn; [by rewrite app_nil_r|]. exists []. split; [|done]. by rewrite P4.
    + by apply (passed_device_done q rd sn od re wr oe []); [|congruence].
  - destruct e as [| |[err|]| | | | |]; try done; cbn [device_reads taken_d taken_e esp_reads]; injection Hs as <- <-; cbn; rewrite ?app_nil_r.
    + set (q := stop_with _ _ _ _).
      destruct (stop_with_same p PacketPumpDeviceToESP err (fun st => add_errors st 0 0 0 1 0)) as (Hc & Hd' & He'); [done|]. fold q in Hc, Hd', He'.
      apply (passed_device_done q rd sn od re wr oe []); [by apply (passed_same p)|congruence].
    + exists []. destruct HP as [P1 P2 P3 (f & P4 & P4') P5 (C1 & C2 & C3 & C4)]. unfold unsent, in_flight_esp in *. rewrite Hd in *. cbn in P4.
      assert (f = []) as -> by (destruct f; [done|]; by destruct P4' as [_ ?]).
      split; try done; cbn.
      * exists []. rewrite <- P4. by rewrite <- app_assoc.
      * rewrite C1, C2, C3, C4, len_snoc, len_concat_snoc, !to_u64_plus, !Z.add_0_r. done.
Qed.
Lemma esp_step p e p' acts rd sn od re wr oe lost : espToDevice p e = Some (p', acts) -> passed p rd sn od re wr oe lost ->
  passed p' (rd ++ device_reads e) (sn ++ concat (to_session <$> acts)) (od ++ taken_d p e) (re ++ esp_reads e)
    (wr ++ concat (to_device <$> acts)) (oe ++ taken_e p e) lost.
Proof.
  intros Hs HP. pose proof (counts_u64 _ _ _ _ _ _ _ _ HP) as Hu. unfold espToDevice in Hs.
  destruct (pp_esp p) as [|payload| |] eqn:He; [| | |done].
  - destruct e as [| | |[payload|err| |]| | | |]; try done; cbn [device_reads taken_d taken_e esp_reads].
    + destruct (len payload =? 0); injection Hs as <- <-; cbn; rewrite ?app_nil_r; [done|].
      destruct HP as [P1 P2 P3 P4 (f & P5 & P5') P6]. unfold in_flight_device in *. rewrite He in *. cbn in P5.
      assert (f = []) as -> by (destruct f; [done|]; by destruct P5' as [_ ?]). rewrite app_nil_r in P5.
      split; try done; cbn; [by rewrite P2|]. exists []. split; [|done]. by rewrite P5.
    + injection Hs as <- <-. cbn. rewrite !app_nil_r. set (q := stop_with _ _ _ _).
      destruct (stop_with_same p PacketPumpESPToDevice err (fun st => add_errors st 0 0 1 0 0)) as (Hc & Hd' & He'); [done|]. fold q in Hc, Hd', He'.
      apply (passed_esp_done q rd sn od re wr oe lost); [by apply (passed_same p)|congruence].
  - destruct e as [| | | |[err|]| | |]; try done; cbn [device_reads taken_d taken_e esp_reads]; injection Hs as <- <-; cbn; rewrite ?app_nil_r.
    + set (q := stop_with _ _ _ _).
      destruct (stop_with_same p PacketPumpESPToDevice err (fun st => add_errors st 0 1 0 0 0)) as (Hc & Hd' & He'); [done|]. fold q in Hc, Hd', He'.
      apply (passed_esp_done q rd sn od re wr oe lost); [by apply (passed_same p)|congruence].
    + destruct HP as [P1 P2 P3 P4 (f & P5 & P5') (C1 & C2 & C3 & C4)]. unfold in_flight_device in *. rewrite He in *. cbn in P5.
      assert (f = []) as -> by (destruct f; [done|]; by destruct P5' as [_ ?]).
      split; try done; cbn.
      * exists []. rewrite <- P5. by rewrite <- app_assoc.
      * rewrite C1, C2, C3, C4, len_snoc, len_concat_snoc, !to_u64_plus, !Z.add_0_r. done.
  - destruct e as [| | | | |due| |]; try done. cbn [device_reads taken_d taken_e esp_reads]. rewrite !app_nil_r.
    destruct (runChildSARekeyDue p PacketPumpESPToDevice due) as [q r] eqn:Er. destruct (runChildSARekeyDue_same _ _ _ _ _ Hu Er) as (Hc & Hd' & He').
    assert (HQ : passed q rd sn od re wr oe lost) by (by apply (passed_same p)).
    destruct r as [[]|err| |]; [| |done|done]; injection Hs as <- <-; cbn; rewrite ?app_nil_r.
    + destruct HQ as [P1 P2 P3 P4 (f & P5 & P5') P6]. unfold in_flight_device in *. rewrite He' in *. rewrite He in *. cbn in P5.
      split; try done. cbn. exists f. split; [done|]. intros H. by destruct (P5' H).
    + apply (passed_esp_done q rd sn od re wr oe lost); [done|congruence].
Qed.
Lemma pump_step_passed p e p' acts rd sn od re wr oe lost : pump_step p e = Some (p', acts) -> passed p rd sn od re wr oe lost ->
  exists lost', passed p' (rd ++ device_reads e) (sn ++ concat (to_session <$> acts)) (od ++ taken_d p e) (re ++ esp_reads e)
    (wr ++ concat (to_device <$> acts)) (oe ++ taken_e p e) lost'.
Proof.
  intros Hs HP. destruct e; cbn [pump_step] in Hs; try (by eapply device_step); try (eexists; by eapply esp_step).
  - unfold closeOnContext in Hs. destruct (_ && _); [|done]. injection Hs as <- <-. exists lost. cbn. rewrite !app_nil_r. by apply (passed_same p).
  - injection Hs as <- <-. exists lost. cbn. rewrite !app_nil_r. by apply (passed_same p).
Qed.
(** What the session and the device took, over a run. *)
Fixpoint taken (f : PacketPump -> event -> list bytes) (p : PacketPump) (events : list event) : list bytes :=
  match events with
  | [] => []
  | e :: rest => f p e ++ match pump_step p e with Some (p', _) => taken f p' rest | None => [] end
  end.
Lemma pump_run_passed events : forall p p' acts rd sn od re wr oe lost, pump_run p events = Some (p', acts) -> passed p rd sn od re wr oe lost ->
  exists lost', passed p' (rd ++ concat (device_reads <$> events)) (sn ++ concat (to_session <$> acts)) (od ++ taken taken_d p events)
    (re ++ concat (esp_reads <$> events)) (wr ++ concat (to_device <$> acts)) (oe ++ taken taken_e p events) lost'.
Proof.
  induction events as [|e events IH]; intros p p' acts rd sn od re wr oe lost Hrun HP; cbn [pump_run taken] in *.
  { injection Hrun as <- <-. exists lost. cbn. by rewrite !app_nil_r. }
  destruct (pump_step p e) as [[p1 acts1]|] eqn:Hs; [|done]. destruct (pump_run p1 events) as [[p2 acts2]|] eqn:Hr; [|done]. injection Hrun as <- <-.
  destruct (pump_step_passed _ _ _ _ _ _ _ _ _ _ _ Hs HP) as (lost1 & HP1). destruct (IH _ _ _ _ _ _ _ _ _ _ Hr HP1) as (lost2 & HP2).
  exists lost2. rewrite !fmap_app, !concat_app. cbn [fmap list_fmap concat]. by rewrite <- !app_assoc in HP2.
Qed.

(** ** The end *)
Definition d_steps (d : device_goroutine) : nat := match d with DDone => 0 | DRekeying _ => 2 | _ => 1 end.
Definition e_steps (e : esp_goroutine) : nat := match e with EDone => 0 | ERekeying => 2 | _ => 1 end.
Definition steps_left (p : PacketPump) : nat := d_steps (pp_device p) + e_steps (pp_esp p).
(** The calls fail, as they do once the device and the session are closed. *)
Definition fails (e : event) : Prop :=
  match e with
  | DeviceRead (Err _) | ESPSent (Some _) | ESPRead (Err _) | DeviceWritten (Some _) | DeviceRekey _ | ESPRekey _ => True
  | _ => False
  end.
Lemma stop_with_places p direction err update :
  pp_device (stop_with p direction err update) = pp_device p /\ pp_esp (stop_with p direction err update) = pp_esp p /\
  pp_started (stop_with p direction err update) = pp_started p /\ pp_closed (stop_with p direction err update) = pp_closed p /\
  pp_cancelled (stop_with p direction err update) = true \/ pp_err p <> None /\ pp_cancelled p = false.
Proof.
  unfold stop_with. destruct (isNormalStop p err) eqn:En; [by left|]. unfold recordError.
  destruct (pp_err p); [|by left]. right. split; [done|]. unfold isNormalStop in En. by apply orb_false_iff in En as [_ En].
Qed.
(** An error is recorded, or a loop has ended, only if the context is cancelled. *)
Definition err_cancels (p : PacketPump) : Prop := pp_err p <> None \/ pp_device p = DDone \/ pp_esp p = EDone -> pp_cancelled p = true.
Lemma stop_with_cancels p direction err update : err_cancels p ->
  let q := stop_with p direction err update in
  pp_device q = pp_device p /\ pp_esp q = pp_esp p /\ pp_started q = pp_started p /\ pp_closed q = pp_closed p /\ pp_cancelled q = true.
Proof.
  intros Hc. destruct (stop_with_places p direction err update) as [H|[Hn Hf]]; [done|]. rewrite Hc in Hf by (by left). done.
Qed.
Lemma rekey_places p direction due q r : err_cancels p -> runChildSARekeyDue p direction due = (q, r) ->
  pp_device q = pp_device p /\ pp_esp q = pp_esp p /\ pp_started q = pp_started p /\ pp_closed q = pp_closed p /\
  (pp_cancelled p = true -> pp_cancelled q = true) /\ (match r with Err _ => pp_cancelled q = true | _ => True end) /\ err_cancels q.
Proof.
  intros Hc H. unfold runChildSARekeyDue in H. destruct due as [|[d|e| |]]; try (injection H as <- <-; done).
  - injection H as <- <-. by case_match.
  - injection H as <- <-. unfold recordError. assert (pp_err p <> None -> pp_cancelled p = true) as Hc' by (intros; apply Hc; by left).
    destruct (pp_err p) eqn:E; split_and!; try done; by rewrite Hc'.
Qed.
Ltac kept Hc := unfold err_cancels; cbn; intros [?|[?|?]]; first [done|apply Hc; by left|apply Hc; right; by left|apply Hc; right; by right].
Lemma pump_step_cancels p e p' acts : pump_step p e = Some (p', acts) -> err_cancels p ->
  err_cancels p' /\ (pp_cancelled p = true -> pp_cancelled p' = true) /\ pp_started p' = pp_started p /\ (pp_closed p = true -> pp_closed p' = true) /\
  (fails e -> (steps_left p' < steps_left p)%nat).
Proof.
  intros Hs Hc. destruct e as [r|due|r|r|r|due| |]; cbn [pump_step fails] in *.
  - unfold deviceToESP in Hs. unfold steps_left. destruct (pp_device p) eqn:Hd; try done. destruct r as [packet|err| |]; try done.
    + destruct (len packet =? 0); injection Hs as <- _; split_and!; first [done|exact Hc|kept Hc|intros []|cbn; intros; lia].
    + injection Hs as <- _. destruct (stop_with_cancels p PacketPumpDeviceToESP err (fun st => add_errors st 1 0 0 0 0) Hc) as (H1 & H2 & H3 & H4 & H5).
      cbn. rewrite H2, H3, H4, H5. unfold err_cancels. cbn. rewrite H5. split_and!; try done. intros; lia.
  - unfold deviceToESP in Hs. unfold steps_left. destruct (pp_device p) eqn:Hd; try done.
    destruct (runChildSARekeyDue p _ due) as [q r] eqn:Er. destruct (rekey_places _ _ _ _ _ Hc Er) as (H1 & H2 & H3 & H4 & H5 & H6 & H7).
    destruct r; try done; injection Hs as <- _; cbn; rewrite H2, H3, H4; (split_and!; [unfold err_cancels; cbn|done|done|done|intros; lia]).
    + intros [He|[He|He]]; [by apply H7; left|done|by apply H7; right; right].
    + intros _. exact H6.
  - unfold deviceToESP in Hs. unfold steps_left. destruct (pp_device p) eqn:Hd; try done. destruct r as [err|]; injection Hs as <- _; [|split_and!; first [done|exact Hc|kept Hc|intros []]].
    destruct (stop_with_cancels p PacketPumpDeviceToESP err (fun st => add_errors st 0 0 0 1 0) Hc) as (H1 & H2 & H3 & H4 & H5).
    cbn. rewrite H2, H3, H4, H5. unfold err_cancels. cbn. rewrite H5. split_and!; try done. intros; lia.
  - unfold espToDevice in Hs. unfold steps_left. destruct (pp_esp p) eqn:He; try done. destruct r as [payload|err| |]; try done.
    + destruct (len payload =? 0); injection Hs as <- _; split_and!; first [done|exact Hc|kept Hc|intros []|cbn; intros; lia].
    + injection Hs as <- _. destruct (stop_with_cancels p PacketPumpESPToDevice err (fun st => add_errors st 0 0 1 0 0) Hc) as (H1 & H2 & H3 & H4 & H5).
      cbn. rewrite H1, H3, H4, H5. unfold err_cancels. cbn. rewrite H5. split_and!; try done. intros; lia.
  - unfold espToDevice in Hs. unfold steps_left. destruct (pp_esp p) eqn:He; try done. destruct r as [err|]; injection Hs as <- _; [|split_and!; first [done|exact Hc|kept Hc|intros []]].
    destruct (stop_with_cancels p PacketPumpESPToDevice err (fun st => add_errors st 0 1 0 0 0) Hc) as (H1 & H2 & H3 & H4 & H5).
    cbn. rewrite H1, H3, H4, H5. unfold err_cancels. cbn. rewrite H5. split_and!; try done. intros; lia.
  - unfold espToDevice in Hs. unfold steps_left. destruct (pp_esp p) eqn:He; try done.
    destruct (runChildSARekeyDue p _ due) as [q r] eqn:Er. destruct (rekey_places _ _ _ _ _ Hc Er) as (H1 & H2 & H3 & H4 & H5 & H6 & H7).
    destruct r; try done; injection Hs as <- _; cbn; rewrite H1, H3, H4; (split_and!; [unfold err_cancels; cbn|done|done|done|intros; lia]).
    + intros [He'|[He'|He']]; [by apply H7; left|by apply H7; right; left|done].
    + intros _. exact H6.
  - unfold closeOnContext in Hs. destruct (_ && _); [|done]. injection Hs as <- _. split_and!; first [done|exact Hc|kept Hc|intros []].
  - injection Hs as <- _. split_and!; first [done|exact Hc|kept Hc|intros []].
Qed.
Definition started_pump : PacketPump := mkPump zeroPumpStats true false None DReading EReading false.
Lemma pump_run_cancels events : forall p p' acts, pump_run p events = Some (p', acts) -> err_cancels p -> pp_started p = true ->
  err_cancels p' /\ (pp_cancelled p = true -> pp_cancelled p' = true) /\ pp_started p' = true.
Proof.
  induction events as [|e events IH]; intros p p' acts Hrun Hc Hst; cbn [pump_run] in Hrun; [by injection Hrun as <- _|].
  destruct (pump_step p e) as [[p1 acts1]|] eqn:Hs; [|done]. destruct (pump_run p1 events) as [[p2 acts2]|] eqn:Hr; [|done]. injection Hrun as <- _.
  destruct (pump_step_cancels _ _ _ _ Hs Hc) as (Hc1 & Hk1 & Hs1 & _). destruct (IH _ _ _ Hr Hc1) as (Hc2 & Hk2 & Hs2); [by rewrite Hs1|]. split_and!; try done. auto.
Qed.
Lemma failing_run events : forall p p' acts, pump_run p events = Some (p', acts) -> err_cancels p -> Forall fails events ->
  (length events + steps_left p' <= steps_left p)%nat.
Proof.
  induction events as [|e events IH]; intros p p' acts Hrun Hc Hf; cbn [pump_run] in Hrun; [by injection Hrun as <- _|].
  apply Forall_cons in Hf as [He Hf]. destruct (pump_step p e) as [[p1 acts1]|] eqn:Hs; [|done].
  destruct (pump_run p1 events) as [[p2 acts2]|] eqn:Hr; [|done]. injection Hrun as <- _.
  destruct (pump_step_cancels _ _ _ _ Hs Hc) as (Hc1 & _ & _ & _ & Hlt). specialize (Hlt He). specialize (IH _ _ _ Hr Hc1 Hf). cbn [length]. lia.
Qed.
Lemma steps_bound p : (steps_left p <= 4)%nat.
Proof. unfold steps_left. destruct (pp_device p), (pp_esp p); cbn; lia. Qed.
Lemma pump_progress p : pp_started p = true -> pp_cancelled p = true -> pump_done p = false -> exists e, (fails e \/ e = ContextDone) /\ is_Some (pump_step p e).
Proof.
  intros Hs Hc Hd. unfold pump_done in Hd. destruct (pp_device p) as [|packet|packet|] eqn:Ed.
  - exists (DeviceRead (Errorf ErrEOF)). split; [by left|]. cbn. unfold deviceToESP. by rewrite Ed.
  - exists (DeviceRekey NotDue). split; [by left|]. cbn. unfold deviceToESP. by rewrite Ed.
  - exists (ESPSent (Some (Sentinel ErrEOF))). split; [by left|]. cbn. unfold deviceToESP. by rewrite Ed.
  - destruct (pp_esp p) as [|payload| |] eqn:Ee.
    + exists (ESPRead (Errorf ErrEOF)). split; [by left|]. cbn. unfold espToDevice. by rewrite Ee.
    + exists (DeviceWritten (Some (Sentinel ErrEOF))). split; [by left|]. cbn. unfold espToDevice. by rewrite Ee.
    + exists (ESPRekey NotDue). split; [by left|]. cbn. unfold espToDevice. by rewrite Ee.
    + exists ContextDone. split; [by right|]. cbn. unfold closeOnContext. by rewrite Hs, Hc, Hd.
Qed.

(** ** Properties *)

(** C21: the pump passes on exactly what it reads, in order, under every schedule: the inner
    packets handed to the session are the non-empty packets read from the device, less one
    that waits for a rekey or was left by a failed one; the payloads handed to the device are
    the non-empty payloads of the session; and the counters are the packets and octets that
    the session and the device took, of which at most the last one handed over is missing. *)
Theorem pump_faithful events p acts : pump_run started_pump events = Some (p, acts) ->
  exists lost, passed p (concat (device_reads <$> events)) (concat (to_session <$> acts)) (taken taken_d started_pump events)
    (concat (esp_reads <$> events)) (concat (to_device <$> acts)) (taken taken_e started_pump events) lost.
Proof.
  intros H. apply (pump_run_passed events started_pump p acts [] [] [] [] [] [] [] H).
  split; try done; by exists [].
Qed.
(** The second packet waits for a rekey, which fails. *)
Lemma pump_faithful_witness :
  exists p acts, pump_run started_pump [DeviceRead (Ok [1]); ESPRead (Ok [9; 9]); DeviceRekey NotDue; ESPSent None; DeviceRead (Ok []); DeviceRead (Ok [2]);
      DeviceRekey (RunDue (Errorf ErrPacketTunnelClosed)); ContextDone; DeviceWritten None] = Some (p, acts) /\
    acts = [WriteInner [9; 9]; SendInner [1]; CloseBoth] /\ pp_err p = Some (PacketPumpDeviceToESP, Sentinel ErrPacketTunnelClosed) /\
    exists lost, passed p [[1]; [2]] [[1]] [[1]] [[9; 9]] [[9; 9]] [[9; 9]] lost.
Proof.
  eexists _, _. split; [reflexivity|]. split; [reflexivity|]. split; [reflexivity|].
  exact (pump_faithful [DeviceRead (Ok [1]); ESPRead (Ok [9; 9]); DeviceRekey NotDue; ESPSent None; DeviceRead (Ok []); DeviceRead (Ok [2]);
      DeviceRekey (RunDue (Errorf ErrPacketTunnelClosed)); ContextDone; DeviceWritten None] _ _ eq_refl).
Defined.


(** A datagram that is no packet of the tunnel: the session counts and refuses it, and
    the pump takes the refusal for a failure of the tunnel: it stops and closes both. *)
Example forged_packet_ends_tunnel :
  (ReceiveESPPacket (C := toy_crypto) 101 (session_of cfg_b) None [9; 9; 9; 9; 0; 0; 0; 1; 0; 0]).2 = inr (ReceiveFailed Esp_ErrInvalidPacket) /\
  exists p, pump_run started_pump [ESPRead (Errorf Esp_ErrInvalidPacket); ContextDone] = Some (p, [CloseBoth]) /\
    pp_esp p = EDone /\ pp_cancelled p = true.
Proof. split; [vm_compute; reflexivity|]. eexists. split_and!; reflexivity. Qed.
