(* ===== verification/SmsTables.v ===== *)
(** * GSM 7-bit alphabets (runtimehost/messaging/sms_gsm7_nli.go, sms_pdu.go)

    The default alphabet and its extension table, and the locking and single
    shift tables of the national languages of 3GPP TS 23.038, each as the 128
    code points of the Go literal.  U+FFFF marks the escape position, a space
    in a single shift table an unassigned one. *)
From S2P Require Import Prelude.

Definition SMSNationalLanguageTurkish := 1.
Definition SMSNationalLanguageSpanish := 2.
Definition SMSNationalLanguagePortuguese := 3.
Definition SMSNationalLanguageBengali := 4.
Definition SMSNationalLanguageGujarati := 5.
Definition SMSNationalLanguageHindi := 6.
Definition SMSNationalLanguageKannada := 7.
Definition SMSNationalLanguageMalayalam := 8.
Definition SMSNationalLanguageOriya := 9.
Definition SMSNationalLanguagePunjabi := 10.
Definition SMSNationalLanguageTamil := 11.
Definition SMSNationalLanguageTelugu := 12.
Definition SMSNationalLanguageUrdu := 13.

Definition gsm7BasicAlphabet : list Z :=
    [
     64; 0x00a3; 36; 0x00a5; 0x00e8; 0x00e9; 0x00f9; 0x00ec; 0x00f2; 0x00c7; 10; 0x00d8; 0x00f8; 13; 0x00c5; 0x00e5;
     0x0394; 95; 0x03a6; 0x0393; 0x039b; 0x03a9; 0x03a0; 0x03a8; 0x03a3; 0x0398; 0x039e; 27; 0x00c6; 0x00e6; 0x00df;
     0x00c9; 32; 33; 34; 35; 0x00a4; 37; 38; 39; 40; 41; 42; 43; 44; 45; 46; 47; 48; 49; 50; 51; 52; 53; 54; 55; 56;
     57; 58; 59; 60; 61; 62; 63; 0x00a1; 65; 66; 67; 68; 69; 70; 71; 72; 73; 74; 75; 76; 77; 78; 79; 80; 81; 82; 83;
     84; 85; 86; 87; 88; 89; 90; 0x00c4; 0x00d6; 0x00d1; 0x00dc; 0x00a7; 0x00bf; 97; 98; 99; 100; 101; 102; 103; 104;
     105; 106; 107; 108; 109; 110; 111; 112; 113; 114; 115; 116; 117; 118; 119; 120; 121; 122; 0x00e4; 0x00f6;
     0x00f1; 0x00fc; 0x00e0].
Definition gsm7DefaultSingleShiftTable : list Z :=
    [
     32; 32; 32; 32; 32; 32; 32; 32; 32; 32; 12; 32; 32; 32; 32; 32; 32; 32; 32; 32; 94; 32; 32; 32; 32; 32; 32; 32;
     32; 32; 32; 32; 32; 32; 32; 32; 32; 32; 32; 32; 123; 125; 32; 32; 32; 32; 32; 92; 32; 32; 32; 32; 32; 32; 32;
     32; 32; 32; 32; 32; 91; 126; 93; 32; 124; 32; 32; 32; 32; 32; 32; 32; 32; 32; 32; 32; 32; 32; 32; 32; 32; 32;
     32; 32; 32; 32; 32; 32; 32; 32; 32; 32; 32; 32; 32; 32; 32; 32; 32; 32; 32; 0x20ac; 32; 32; 32; 32; 32; 32; 32;
     32; 32; 32; 32; 32; 32; 32; 32; 32; 32; 32; 32; 32; 32; 32; 32; 32; 32; 32].
Definition gsm7NationalLanguageSingleShiftTables : list (Z * list Z) := [
  (SMSNationalLanguageTurkish, [
     32; 32; 32; 32; 32; 32; 32; 32; 32; 32; 12; 32; 32; 32; 32; 32; 32; 32; 32; 32; 94; 32; 32; 32; 32; 32; 32; 32;
     32; 32; 32; 32; 32; 32; 32; 32; 32; 32; 32; 32; 123; 125; 32; 32; 32; 32; 32; 92; 32; 32; 32; 32; 32; 32; 32;
     32; 32; 32; 32; 32; 91; 126; 93; 32; 124; 32; 32; 32; 32; 32; 32; 0x011e; 32; 0x0130; 32; 32; 32; 32; 32; 32;
     32; 32; 32; 0x015e; 32; 32; 32; 32; 32; 32; 32; 32; 32; 32; 32; 32; 32; 32; 32; 0x00e7; 32; 0x20ac; 32; 0x011f;
     32; 0x0131; 32; 32; 32; 32; 32; 32; 32; 32; 32; 0x015f; 32; 32; 32; 32; 32; 32; 32; 32; 32; 32; 32; 32]);
  (SMSNationalLanguageSpanish, [
     32; 32; 32; 32; 32; 32; 32; 32; 32; 0x00e7; 12; 32; 32; 32; 32; 32; 32; 32; 32; 32; 94; 32; 32; 32; 32; 32; 32;
     32; 32; 32; 32; 32; 32; 32; 32; 32; 32; 32; 32; 32; 123; 125; 32; 32; 32; 32; 32; 92; 32; 32; 32; 32; 32; 32;
     32; 32; 32; 32; 32; 32; 91; 126; 93; 32; 124; 0x00c1; 32; 32; 32; 32; 32; 32; 32; 0x00cd; 32; 32; 32; 32; 32;
     0x00d3; 32; 32; 32; 32; 32; 0x00da; 32; 32; 32; 32; 32; 32; 32; 32; 32; 32; 32; 0x00e1; 32; 32; 32; 0x20ac; 32;
     32; 32; 0x00ed; 32; 32; 32; 32; 32; 0x00f3; 32; 32; 32; 32; 32; 0x00fa; 32; 32; 32; 32; 32; 32; 32; 32; 32; 32]);
  (SMSNationalLanguagePortuguese, [
     32; 32; 32; 32; 32; 0x00ea; 32; 32; 32; 0x00e7; 12; 0x00d4; 0x00f4; 32; 0x00c1; 0x00e1; 32; 32; 0x03a6; 0x0393;
     94; 0x03a9; 0x03a0; 0x03a8; 0x03a3; 0x0398; 32; 32; 32; 32; 32; 0x00ca; 32; 32; 32; 32; 32; 32; 32; 32; 123;
     125; 32; 32; 32; 32; 32; 92; 32; 32; 32; 32; 32; 32; 32; 32; 32; 32; 32; 32; 91; 126; 93; 32; 124; 0x00c0; 32;
     32; 32; 32; 32; 32; 32; 0x00cd; 32; 32; 32; 32; 32; 0x00d3; 32; 32; 32; 32; 32; 0x00da; 32; 32; 32; 32; 32;
     0x00c3; 0x00d5; 32; 32; 32; 32; 0x00c2; 32; 32; 32; 0x20ac; 32; 32; 32; 0x00ed; 32; 32; 32; 32; 32; 0x00f3; 32;
     32; 32; 32; 32; 0x00fa; 32; 32; 32; 32; 32; 0x00e3; 0x00f5; 32; 32; 0x00e2]);
  (SMSNationalLanguageBengali, [
     64; 0x00a3; 36; 0x00a5; 0x00bf; 34; 0x00a4; 37; 38; 39; 12; 42; 43; 32; 45; 47; 60; 61; 62; 0x00a1; 94; 0x00a1;
     95; 35; 42; 0x09e6; 0x09e7; 32; 0x09e8; 0x09e9; 0x09ea; 0x09eb; 0x09ec; 0x09ed; 0x09ee; 0x09ef; 0x09df; 0x09e0;
     0x09e1; 0x09e2; 123; 125; 0x09e3; 0x09f2; 0x09f3; 0x09f4; 0x09f5; 92; 0x09f6; 0x09f7; 0x09f8; 0x09f9; 0x09fa;
     32; 32; 32; 32; 32; 32; 32; 91; 126; 93; 32; 124; 65; 66; 67; 68; 69; 70; 71; 72; 73; 74; 75; 76; 77; 78; 79;
     80; 81; 82; 83; 84; 85; 86; 87; 88; 89; 90; 32; 32; 32; 32; 32; 32; 32; 32; 32; 32; 0x20ac; 32; 32; 32; 32; 32;
     32; 32; 32; 32; 32; 32; 32; 32; 32; 32; 32; 32; 32; 32; 32; 32; 32; 32; 32; 32; 32]);
  (SMSNationalLanguageGujarati, [
     64; 0x00a3; 36; 0x00a5; 0x00bf; 34; 0x00a4; 37; 38; 39; 12; 42; 43; 32; 45; 47; 60; 61; 62; 0x00a1; 94; 0x00a1;
     95; 35; 42; 0x0964; 0x0965; 32; 0x0ae6; 0x0ae7; 0x0ae8; 0x0ae9; 0x0aea; 0x0aeb; 0x0aec; 0x0aed; 0x0aee; 0x0aef;
     32; 32; 123; 125; 32; 32; 32; 32; 32; 92; 32; 32; 32; 32; 32; 32; 32; 32; 32; 32; 32; 32; 91; 126; 93; 32; 124;
     65; 66; 67; 68; 69; 70; 71; 72; 73; 74; 75; 76; 77; 78; 79; 80; 81; 82; 83; 84; 85; 86; 87; 88; 89; 90; 32; 32;
     32; 32; 32; 32; 32; 32; 32; 32; 0x20ac; 32; 32; 32; 32; 32; 32; 32; 32; 32; 32; 32; 32; 32; 32; 32; 32; 32; 32;
     32; 32; 32; 32; 32; 32; 32; 32]);
  (SMSNationalLanguageHindi, [
     64; 0x00a3; 36; 0x00a5; 0x00bf; 34; 0x00a4; 37; 38; 39; 12; 42; 43; 32; 45; 47; 60; 61; 62; 0x00a1; 94; 0x00a1;
     95; 35; 42; 0x0964; 0x0965; 32; 0x0966; 0x0967; 0x0968; 0x0969; 0x096a; 0x096b; 0x096c; 0x096d; 0x096e; 0x096f;
     0x0951; 0x0952; 123; 125; 0x0953; 0x0954; 0x0958; 0x0959; 0x095a; 92; 0x095b; 0x095c; 0x095d; 0x095e; 0x095f;
     0x0960; 0x0961; 0x0962; 0x0963; 0x0970; 0x0971; 32; 91; 126; 93; 32; 124; 65; 66; 67; 68; 69; 70; 71; 72; 73;
     74; 75; 76; 77; 78; 79; 80; 81; 82; 83; 84; 85; 86; 87; 88; 89; 90; 32; 32; 32; 32; 32; 32; 32; 32; 32; 32;
     0x20ac; 32; 32; 32; 32; 32; 32; 32; 32; 32; 32; 32; 32; 32; 32; 32; 32; 32; 32; 32; 32; 32; 32; 32; 32; 32; 32]);
  (SMSNationalLanguageKannada, [
     64; 0x00a3; 36; 0x00a5; 0x00bf; 34; 0x00a4; 37; 38; 39; 12; 42; 43; 32; 45; 47; 60; 61; 62; 0x00a1; 94; 0x00a1;
     95; 35; 42; 0x0964; 0x0965; 32; 0x0ce6; 0x0ce7; 0x0ce8; 0x0ce9; 0x0cea; 0x0ceb; 0x0cec; 0x0ced; 0x0cee; 0x0cef;
     0x0cde; 0x0cf1; 123; 125; 0x0cf2; 32; 32; 32; 32; 92; 32; 32; 32; 32; 32; 32; 32; 32; 32; 32; 32; 32; 91; 126;
     93; 32; 124; 65; 66; 67; 68; 69; 70; 71; 72; 73; 74; 75; 76; 77; 78; 79; 80; 81; 82; 83; 84; 85; 86; 87; 88; 89;
     90; 32; 32; 32; 32; 32; 32; 32; 32; 32; 32; 0x20ac; 32; 32; 32; 32; 32; 32; 32; 32; 32; 32; 32; 32; 32; 32; 32;
     32; 32; 32; 32; 32; 32; 32; 32; 32; 32; 32]);
  (SMSNationalLanguageMalayalam, [
     64; 0x00a3; 36; 0x00a5; 0x00bf; 34; 0x00a4; 37; 38; 39; 12; 42; 43; 32; 45; 47; 60; 61; 62; 0x00a1; 94; 0x00a1;
     95; 35; 42; 0x0964; 0x0965; 32; 0x0d66; 0x0d67; 0x0d68; 0x0d69; 0x0d6a; 0x0d6b; 0x0d6c; 0x0d6d; 0x0d6e; 0x0d6f;
     0x0d70; 0x0d71; 123; 125; 0x0d72; 0x0d73; 0x0d74; 0x0d75; 0x0d7a; 92; 0x0d7b; 0x0d7c; 0x0d7d; 0x0d7e; 0x0d7f;
     32; 32; 32; 32; 32; 32; 32; 91; 126; 93; 32; 124; 65; 66; 67; 68; 69; 70; 71; 72; 73; 74; 75; 76; 77; 78; 79;
     80; 81; 82; 83; 84; 85; 86; 87; 88; 89; 90; 32; 32; 32; 32; 32; 32; 32; 32; 32; 32; 0x20ac; 32; 32; 32; 32; 32;
     32; 32; 32; 32; 32; 32; 32; 32; 32; 32; 32; 32; 32; 32; 32; 32; 32; 32; 32; 32; 32]);
  (SMSNationalLanguageOriya, [
     64; 0x00a3; 36; 0x00a5; 0x00bf; 34; 0x00a4; 37; 38; 39; 12; 42; 43; 32; 45; 47; 60; 61; 62; 0x00a1; 94; 0x00a1;
     95; 35; 42; 0x0964; 0x0965; 32; 0x0b66; 0x0b67; 0x0b68; 0x0b69; 0x0b6a; 0x0b6b; 0x0b6c; 0x0b6d; 0x0b6e; 0x0b6f;
     0x0b5c; 0x0b5d; 123; 125; 0x0b5f; 0x0b70; 0x0b71; 32; 32; 92; 32; 32; 32; 32; 32; 32; 32; 32; 32; 32; 32; 32;
     91; 126; 93; 32; 124; 65; 66; 67; 68; 69; 70; 71; 72; 73; 74; 75; 76; 77; 78; 79; 80; 81; 82; 83; 84; 85; 86;
     87; 88; 89; 90; 32; 32; 32; 32; 32; 32; 32; 32; 32; 32; 0x20ac; 32; 32; 32; 32; 32; 32; 32; 32; 32; 32; 32; 32;
     32; 32; 32; 32; 32; 32; 32; 32; 32; 32; 32; 32; 32; 32]);
  (SMSNationalLanguagePunjabi, [
     64; 0x00a3; 36; 0x00a5; 0x00bf; 34; 0x00a4; 37; 38; 39; 12; 42; 43; 32; 45; 47; 60; 61; 62; 0x00a1; 94; 0x00a1;
     95; 35; 42; 0x0964; 0x0965; 32; 0x0a66; 0x0a67; 0x0a68; 0x0a69; 0x0a6a; 0x0a6b; 0x0a6c; 0x0a6d; 0x0a6e; 0x0a6f;
     0x0a59; 0x0a5a; 123; 125; 0x0a5b; 0x0a5c; 0x0a5e; 0x0a75; 32; 92; 32; 32; 32; 32; 32; 32; 32; 32; 32; 32; 32;
     32; 91; 126; 93; 32; 124; 65; 66; 67; 68; 69; 70; 71; 72; 73; 74; 75; 76; 77; 78; 79; 80; 81; 82; 83; 84; 85;
     86; 87; 88; 89; 90; 32; 32; 32; 32; 32; 32; 32; 32; 32; 32; 0x20ac; 32; 32; 32; 32; 32; 32; 32; 32; 32; 32; 32;
     32; 32; 32; 32; 32; 32; 32; 32; 32; 32; 32; 32; 32; 32; 32]);
  (SMSNationalLanguageTamil, [
     64; 0x00a3; 36; 0x00a5; 0x00bf; 34; 0x00a4; 37; 38; 39; 12; 42; 43; 32; 45; 47; 60; 61; 62; 0x00a1; 94; 0x00a1;
     95; 35; 42; 0x0964; 0x0965; 32; 0x0be6; 0x0be7; 0x0be8; 0x0be9; 0x0bea; 0x0beb; 0x0bec; 0x0bed; 0x0bee; 0x0bef;
     0x0bf3; 0x0bf4; 123; 125; 0x0bf5; 0x0bf6; 0x0bf7; 0x0bf8; 0x0bfa; 92; 32; 32; 32; 32; 32; 32; 32; 32; 32; 32;
     32; 32; 91; 126; 93; 32; 124; 65; 66; 67; 68; 69; 70; 71; 72; 73; 74; 75; 76; 77; 78; 79; 80; 81; 82; 83; 84;
     85; 86; 87; 88; 89; 90; 32; 32; 32; 32; 32; 32; 32; 32; 32; 32; 0x20ac; 32; 32; 32; 32; 32; 32; 32; 32; 32; 32;
     32; 32; 32; 32; 32; 32; 32; 32; 32; 32; 32; 32; 32; 32; 32; 32]);
  (SMSNationalLanguageTelugu, [
     64; 0x00a3; 36; 0x00a5; 0x00bf; 34; 0x00a4; 37; 38; 39; 12; 42; 43; 32; 45; 47; 60; 61; 62; 0x00a1; 94; 0x00a1;
     95; 35; 42; 32; 32; 32; 0x0c66; 0x0c67; 0x0c68; 0x0c69; 0x0c6a; 0x0c6b; 0x0c6c; 0x0c6d; 0x0c6e; 0x0c6f; 0x0c58;
     0x0c59; 123; 125; 0x0c78; 0x0c79; 0x0c7a; 0x0c7b; 0x0c7c; 92; 0x0c7d; 0x0c7e; 0x0c7f; 32; 32; 32; 32; 32; 32;
     32; 32; 32; 91; 126; 93; 32; 124; 65; 66; 67; 68; 69; 70; 71; 72; 73; 74; 75; 76; 77; 78; 79; 80; 81; 82; 83;
     84; 85; 86; 87; 88; 89; 90; 32; 32; 32; 32; 32; 32; 32; 32; 32; 32; 0x20ac; 32; 32; 32; 32; 32; 32; 32; 32; 32;
     32; 32; 32; 32; 32; 32; 32; 32; 32; 32; 32; 32; 32; 32; 32; 32; 32]);
  (SMSNationalLanguageUrdu, [
     64; 0x00a3; 36; 0x00a5; 0x00bf; 34; 0x00a4; 37; 38; 39; 12; 42; 43; 32; 45; 47; 60; 61; 62; 0x00a1; 94; 0x00a1;
     95; 35; 42; 0x0600; 0x0601; 32; 0x06f0; 0x06f1; 0x06f2; 0x06f3; 0x06f4; 0x06f5; 0x06f6; 0x06f7; 0x06f8; 0x06f9;
     0x060c; 0x060d; 123; 125; 0x060e; 0x060f; 0x0610; 0x0611; 0x0612; 92; 0x0613; 0x0614; 0x061b; 0x061f; 0x0640;
     0x0652; 0x0658; 0x066b; 0x066c; 0x0672; 0x0673; 0x06cd; 91; 126; 93; 0x06d4; 124; 65; 66; 67; 68; 69; 70; 71;
     72; 73; 74; 75; 76; 77; 78; 79; 80; 81; 82; 83; 84; 85; 86; 87; 88; 89; 90; 32; 32; 32; 32; 32; 32; 32; 32; 32;
     32; 0x20ac; 32; 32; 32; 32; 32; 32; 32; 32; 32; 32; 32; 32; 32; 32; 32; 32; 32; 32; 32; 32; 32; 32; 32; 32; 32;
     32])].
Definition gsm7NationalLanguageLockingTables : list (Z * list Z) := [
  (SMSNationalLanguageTurkish, [
     64; 0x00a3; 36; 0x00a5; 0x20ac; 0x00e9; 0x00f9; 0x0131; 0x00f2; 0x00c7; 10; 0x011e; 0x011f; 13; 0x00c5; 0x00e5;
     0x0394; 95; 0x03a6; 0x0393; 0x039b; 0x03a9; 0x03a0; 0x03a8; 0x03a3; 0x0398; 0x039e; 0xffff; 0x015e; 0x015f;
     0x00df; 0x00c9; 32; 33; 34; 35; 0x00a4; 37; 38; 39; 40; 41; 42; 43; 44; 45; 46; 47; 48; 49; 50; 51; 52; 53; 54;
     55; 56; 57; 58; 59; 60; 61; 62; 63; 0x0130; 65; 66; 67; 68; 69; 70; 71; 72; 73; 74; 75; 76; 77; 78; 79; 80; 81;
     82; 83; 84; 85; 86; 87; 88; 89; 90; 0x00c4; 0x00d6; 0x00d1; 0x00dc; 0x00a7; 0x00e7; 97; 98; 99; 100; 101; 102;
     103; 104; 105; 106; 107; 108; 109; 110; 111; 112; 113; 114; 115; 116; 117; 118; 119; 120; 121; 122; 0x00e4;
     0x00f6; 0x00f1; 0x00fc; 0x00e0]);
  (SMSNationalLanguagePortuguese, [
     64; 0x00a3; 36; 0x00a5; 0x00ea; 0x00e9; 0x00fa; 0x00ed; 0x00f3; 0x00e7; 10; 0x00d4; 0x00f4; 13; 0x00c1; 0x00e1;
     0x0394; 95; 0x00aa; 0x00c7; 0x00c0; 0x221e; 94; 92; 0x20ac; 0x00d3; 124; 0xffff; 0x00c2; 0x00e2; 0x00ca; 0x00c9;
     32; 33; 34; 35; 0x00ba; 37; 38; 39; 40; 41; 42; 43; 44; 45; 46; 47; 48; 49; 50; 51; 52; 53; 54; 55; 56; 57; 58;
     59; 60; 61; 62; 63; 0x00cd; 65; 66; 67; 68; 69; 70; 71; 72; 73; 74; 75; 76; 77; 78; 79; 80; 81; 82; 83; 84; 85;
     86; 87; 88; 89; 90; 0x00c3; 0x00d5; 0x00da; 0x00dc; 0x00a7; 126; 97; 98; 99; 100; 101; 102; 103; 104; 105; 106;
     107; 108; 109; 110; 111; 112; 113; 114; 115; 116; 117; 118; 119; 120; 121; 122; 0x00e3; 0x00f5; 96; 0x00fc;
     0x00e0]);
  (SMSNationalLanguageBengali, [
     0x0981; 0x0982; 0x0983; 0x0985; 0x0986; 0x0987; 0x0988; 0x0989; 0x098a; 0x098b; 10; 0x098c; 32; 13; 32; 0x098f;
     0x0990; 32; 32; 0x0993; 0x0994; 0x0995; 0x0996; 0x0997; 0x0998; 0x0999; 0x099a; 0xffff; 0x099b; 0x099c; 0x099d;
     0x099e; 32; 33; 0x099f; 0x09a0; 0x09a1; 0x09a2; 0x09a3; 0x09a4; 41; 40; 0x09a5; 0x09a6; 44; 0x09a7; 46; 0x09a8;
     48; 49; 50; 51; 52; 53; 54; 55; 56; 57; 58; 59; 32; 0x09aa; 0x09ab; 63; 0x09ac; 0x09ad; 0x09ae; 0x09af; 0x09b0;
     32; 0x09b2; 32; 32; 32; 0x09b6; 0x09b7; 0x09b8; 0x09b9; 0x09bc; 0x09bd; 0x09be; 0x09bf; 0x09c0; 0x09c1; 0x09c2;
     0x09c3; 0x09c4; 32; 32; 0x09c7; 0x09c8; 32; 32; 0x09cb; 0x09cc; 0x09cd; 0x09ce; 97; 98; 99; 100; 101; 102; 103;
     104; 105; 106; 107; 108; 109; 110; 111; 112; 113; 114; 115; 116; 117; 118; 119; 120; 121; 122; 0x09d7; 0x09dc;
     0x09dd; 0x09f0; 0x09f1]);
  (SMSNationalLanguageGujarati, [
     0x0a81; 0x0a82; 0x0a83; 0x0a85; 0x0a86; 0x0a87; 0x0a88; 0x0a89; 0x0a8a; 0x0a8b; 10; 0x0a8c; 0x0a8d; 13; 32;
     0x0a8f; 0x0a90; 0x0a91; 32; 0x0a93; 0x0a94; 0x0a95; 0x0a96; 0x0a97; 0x0a98; 0x0a99; 0x0a9a; 0xffff; 0x0a9b;
     0x0a9c; 0x0a9d; 0x0a9e; 32; 33; 0x0a9f; 0x0aa0; 0x0aa1; 0x0aa2; 0x0aa3; 0x0aa4; 41; 40; 0x0aa5; 0x0aa6; 44;
     0x0aa7; 46; 0x0aa8; 48; 49; 50; 51; 52; 53; 54; 55; 56; 57; 58; 59; 32; 0x0aaa; 0x0aab; 63; 0x0aac; 0x0aad;
     0x0aae; 0x0aaf; 0x0ab0; 32; 0x0ab2; 0x0ab3; 32; 0x0ab5; 0x0ab6; 0x0ab7; 0x0ab8; 0x0ab9; 0x0abc; 0x0abd; 0x0abe;
     0x0abf; 0x0ac0; 0x0ac1; 0x0ac2; 0x0ac3; 0x0ac4; 0x0ac5; 32; 0x0ac7; 0x0ac8; 0x0ac9; 32; 0x0acb; 0x0acc; 0x0acd;
     0x0ad0; 97; 98; 99; 100; 101; 102; 103; 104; 105; 106; 107; 108; 109; 110; 111; 112; 113; 114; 115; 116; 117;
     118; 119; 120; 121; 122; 0x0ae0; 0x0ae1; 0x0ae2; 0x0ae3; 0x0af1]);
  (SMSNationalLanguageHindi, [
     0x0901; 0x0902; 0x0903; 0x0905; 0x0906; 0x0907; 0x0908; 0x0909; 0x090a; 0x090b; 10; 0x090c; 0x090d; 13; 0x090e;
     0x090f; 0x0910; 0x0911; 0x0912; 0x0913; 0x0914; 0x0915; 0x0916; 0x0917; 0x0918; 0x0919; 0x091a; 0xffff; 0x091b;
     0x091c; 0x091d; 0x091e; 32; 33; 0x091f; 0x0920; 0x0921; 0x0922; 0x0923; 0x0924; 41; 40; 0x0925; 0x0926; 44;
     0x0927; 46; 0x0928; 48; 49; 50; 51; 52; 53; 54; 55; 56; 57; 58; 59; 0x0929; 0x092a; 0x092b; 63; 0x092c; 0x092d;
     0x092e; 0x092f; 0x0930; 0x0931; 0x0932; 0x0933; 0x0934; 0x0935; 0x0936; 0x0937; 0x0938; 0x0939; 0x093c; 0x093d;
     0x093e; 0x093f; 0x0940; 0x0941; 0x0942; 0x0943; 0x0944; 0x0945; 0x0946; 0x0947; 0x0948; 0x0949; 0x094a; 0x094b;
     0x094c; 0x094d; 0x0950; 97; 98; 99; 100; 101; 102; 103; 104; 105; 106; 107; 108; 109; 110; 111; 112; 113; 114;
     115; 116; 117; 118; 119; 120; 121; 122; 0x0972; 0x097b; 0x097c; 0x097e; 0x097f]);
  (SMSNationalLanguageKannada, [
     32; 0x0c82; 0x0c83; 0x0c85; 0x0c86; 0x0c87; 0x0c88; 0x0c89; 0x0c8a; 0x0c8b; 10; 0x0c8c; 32; 13; 0x0c8e; 0x0c8f;
     0x0c90; 32; 0x0c92; 0x0c93; 0x0c94; 0x0c95; 0x0c96; 0x0c97; 0x0c98; 0x0c99; 0x0c9a; 0xffff; 0x0c9b; 0x0c9c;
     0x0c9d; 0x0c9e; 32; 33; 0x0c9f; 0x0ca0; 0x0ca1; 0x0ca2; 0x0ca3; 0x0ca4; 41; 40; 0x0ca5; 0x0ca6; 44; 0x0ca7; 46;
     0x0ca8; 48; 49; 50; 51; 52; 53; 54; 55; 56; 57; 58; 59; 32; 0x0caa; 0x0cab; 63; 0x0cac; 0x0cad; 0x0cae; 0x0caf;
     0x0cb0; 0x0cb1; 0x0cb2; 0x0cb3; 32; 0x0cb5; 0x0cb6; 0x0cb7; 0x0cb8; 0x0cb9; 0x0cbc; 0x0cbd; 0x0cbe; 0x0cbf;
     0x0cc0; 0x0cc1; 0x0cc2; 0x0cc3; 0x0cc4; 32; 0x0cc6; 0x0cc7; 0x0cc8; 32; 0x0cca; 0x0ccb; 0x0ccc; 0x0ccd; 0x0cd5;
     97; 98; 99; 100; 101; 102; 103; 104; 105; 106; 107; 108; 109; 110; 111; 112; 113; 114; 115; 116; 117; 118; 119;
     120; 121; 122; 0x0cd6; 0x0ce0; 0x0ce1; 0x0ce2; 0x0ce3]);
  (SMSNationalLanguageMalayalam, [
     32; 0x0d02; 0x0d03; 0x0d05; 0x0d06; 0x0d07; 0x0d08; 0x0d09; 0x0d0a; 0x0d0b; 10; 0x0d0c; 32; 13; 0x0d0e; 0x0d0f;
     0x0d10; 32; 0x0d12; 0x0d13; 0x0d14; 0x0d15; 0x0d16; 0x0d17; 0x0d18; 0x0d19; 0x0d1a; 0xffff; 0x0d1b; 0x0d1c;
     0x0d1d; 0x0d1e; 32; 33; 0x0d1f; 0x0d20; 0x0d21; 0x0d22; 0x0d23; 0x0d24; 41; 40; 0x0d25; 0x0d26; 44; 0x0d27; 46;
     0x0d28; 48; 49; 50; 51; 52; 53; 54; 55; 56; 57; 58; 59; 32; 0x0d2a; 0x0d2b; 63; 0x0d2c; 0x0d2d; 0x0d2e; 0x0d2f;
     0x0d30; 0x0d31; 0x0d32; 0x0d33; 0x0d34; 0x0d35; 0x0d36; 0x0d37; 0x0d38; 0x0d39; 32; 0x0d3d; 0x0d3e; 0x0d3f;
     0x0d40; 0x0d41; 0x0d42; 0x0d43; 0x0d44; 32; 0x0d46; 0x0d47; 0x0d48; 32; 0x0d4a; 0x0d4b; 0x0d4c; 0x0d4d; 0x0d57;
     97; 98; 99; 100; 101; 102; 103; 104; 105; 106; 107; 108; 109; 110; 111; 112; 113; 114; 115; 116; 117; 118; 119;
     120; 121; 122; 0x0d60; 0x0d61; 0x0d62; 0x0d63; 0x0d79]);
  (SMSNationalLanguageOriya, [
     0x0b01; 0x0b02; 0x0b03; 0x0b05; 0x0b06; 0x0b07; 0x0b08; 0x0b09; 0x0b0a; 0x0b0b; 10; 0x0b0c; 32; 13; 32; 0x0b0f;
     0x0b10; 32; 32; 0x0b13; 0x0b14; 0x0b15; 0x0b16; 0x0b17; 0x0b18; 0x0b19; 0x0b1a; 0xffff; 0x0b1b; 0x0b1c; 0x0b1d;
     0x0b1e; 32; 33; 0x0b1f; 0x0b20; 0x0b21; 0x0b22; 0x0b23; 0x0b24; 41; 40; 0x0b25; 0x0b26; 44; 0x0b27; 46; 0x0b28;
     48; 49; 50; 51; 52; 53; 54; 55; 56; 57; 58; 59; 32; 0x0b2a; 0x0b2b; 63; 0x0b2c; 0x0b2d; 0x0b2e; 0x0b2f; 0x0b30;
     32; 0x0b32; 0x0b33; 32; 0x0b35; 0x0b36; 0x0b37; 0x0b38; 0x0b39; 0x0b3c; 0x0b3d; 0x0b3e; 0x0b3f; 0x0b40; 0x0b41;
     0x0b42; 0x0b43; 0x0b44; 32; 32; 0x0b47; 0x0b48; 32; 32; 0x0b4b; 0x0b4c; 0x0b4d; 0x0b56; 97; 98; 99; 100; 101;
     102; 103; 104; 105; 106; 107; 108; 109; 110; 111; 112; 113; 114; 115; 116; 117; 118; 119; 120; 121; 122; 0x0b57;
     0x0b60; 0x0b61; 0x0b62; 0x0b63]);
  (SMSNationalLanguagePunjabi, [
     0x0a01; 0x0a02; 0x0a03; 0x0a05; 0x0a06; 0x0a07; 0x0a08; 0x0a09; 0x0a0a; 32; 10; 32; 32; 13; 32; 0x0a0f; 0x0a10;
     32; 32; 0x0a13; 0x0a14; 0x0a15; 0x0a16; 0x0a17; 0x0a18; 0x0a19; 0x0a1a; 0xffff; 0x0a1b; 0x0a1c; 0x0a1d; 0x0a1e;
     32; 33; 0x0a1f; 0x0a20; 0x0a21; 0x0a22; 0x0a23; 0x0a24; 41; 40; 0x0a25; 0x0a26; 44; 0x0a27; 46; 0x0a28; 48; 49;
     50; 51; 52; 53; 54; 55; 56; 57; 58; 59; 32; 0x0a2a; 0x0a2b; 63; 0x0a2c; 0x0a2d; 0x0a2e; 0x0a2f; 0x0a30; 32;
     0x0a32; 0x0a33; 32; 0x0a35; 0x0a36; 32; 0x0a38; 0x0a39; 0x0a3c; 32; 0x0a3e; 0x0a3f; 0x0a40; 0x0a41; 0x0a42; 32;
     32; 32; 32; 0x0a47; 0x0a48; 32; 32; 0x0a4b; 0x0a4c; 0x0a4d; 0x0a51; 97; 98; 99; 100; 101; 102; 103; 104; 105;
     106; 107; 108; 109; 110; 111; 112; 113; 114; 115; 116; 117; 118; 119; 120; 121; 122; 0x0a70; 0x0a71; 0x0a72;
     0x0a73; 0x0a74]);
  (SMSNationalLanguageTamil, [
     32; 0x0b82; 0x0b83; 0x0b85; 0x0b86; 0x0b87; 0x0b88; 0x0b89; 0x0b8a; 32; 10; 32; 32; 13; 0x0b8e; 0x0b8f; 0x0b90;
     32; 0x0b92; 0x0b93; 0x0b94; 0x0b95; 32; 32; 32; 0x0b99; 0x0b9a; 0xffff; 32; 0x0b9c; 32; 0x0b9e; 32; 33; 0x0b9f;
     32; 32; 32; 0x0ba3; 0x0ba4; 41; 40; 32; 32; 44; 32; 46; 0x0ba8; 48; 49; 50; 51; 52; 53; 54; 55; 56; 57; 58; 59;
     0x0ba9; 0x0baa; 32; 63; 32; 32; 0x0bae; 0x0baf; 0x0bb0; 0x0bb1; 0x0bb2; 0x0bb3; 0x0bb4; 0x0bb5; 0x0bb6; 0x0bb7;
     0x0bb8; 0x0bb9; 32; 32; 0x0bbe; 0x0bbf; 0x0bc0; 0x0bc1; 0x0bc2; 32; 32; 32; 0x0bc6; 0x0bc7; 0x0bc8; 32; 0x0bca;
     0x0bcb; 0x0bcc; 0x0bcd; 0x0bd0; 97; 98; 99; 100; 101; 102; 103; 104; 105; 106; 107; 108; 109; 110; 111; 112;
     113; 114; 115; 116; 117; 118; 119; 120; 121; 122; 0x0bd7; 0x0bf0; 0x0bf1; 0x0bf2; 0x0bf9]);
  (SMSNationalLanguageTelugu, [
     0x0c01; 0x0c02; 0x0c03; 0x0c05; 0x0c06; 0x0c07; 0x0c08; 0x0c09; 0x0c0a; 0x0c0b; 10; 0x0c0c; 32; 13; 0x0c0e;
     0x0c0f; 0x0c10; 32; 0x0c12; 0x0c13; 0x0c14; 0x0c15; 0x0c16; 0x0c17; 0x0c18; 0x0c19; 0x0c1a; 0xffff; 0x0c1b;
     0x0c1c; 0x0c1d; 0x0c1e; 32; 33; 0x0c1f; 0x0c20; 0x0c21; 0x0c22; 0x0c23; 0x0c24; 41; 40; 0x0c25; 0x0c26; 44;
     0x0c27; 46; 0x0c28; 48; 49; 50; 51; 52; 53; 54; 55; 56; 57; 58; 59; 32; 0x0c2a; 0x0c2b; 63; 0x0c2c; 0x0c2d;
     0x0c2e; 0x0c2f; 0x0c30; 0x0c31; 0x0c32; 0x0c33; 32; 0x0c35; 0x0c36; 0x0c37; 0x0c38; 0x0c39; 32; 0x0c3d; 0x0c3e;
     0x0c3f; 0x0c40; 0x0c41; 0x0c42; 0x0c43; 0x0c44; 32; 0x0c46; 0x0c47; 0x0c48; 32; 0x0c4a; 0x0c4b; 0x0c4c; 0x0c4d;
     0x0c55; 97; 98; 99; 100; 101; 102; 103; 104; 105; 106; 107; 108; 109; 110; 111; 112; 113; 114; 115; 116; 117;
     118; 119; 120; 121; 122; 0x0c56; 0x0c60; 0x0c61; 0x0c62; 0x0c63]);
  (SMSNationalLanguageUrdu, [
     0x0627; 0x0622; 0x0628; 0x067b; 0x0680; 0x067e; 0x06a6; 0x062a; 0x06c2; 0x067f; 10; 0x0679; 0x067d; 13; 0x067a;
     0x067c; 0x062b; 0x062c; 0x0681; 0x0684; 0x0683; 0x0685; 0x0686; 0x0687; 0x062d; 0x062e; 0x062f; 0xffff; 0x068c;
     0x0688; 0x0689; 0x068a; 32; 33; 0x068f; 0x068d; 0x0630; 0x0631; 0x0691; 0x0693; 41; 40; 0x0699; 0x0632; 44;
     0x0696; 46; 0x0698; 48; 49; 50; 51; 52; 53; 54; 55; 56; 57; 58; 59; 0x069a; 0x0633; 0x0634; 63; 0x0635; 0x0636;
     0x0637; 0x0638; 0x0639; 0x0641; 0x0642; 0x06a9; 0x06aa; 0x06ab; 0x06af; 0x06b3; 0x06b1; 0x0644; 0x0645; 0x0646;
     0x06ba; 0x06bb; 0x06bc; 0x0648; 0x06c4; 0x06d5; 0x06c1; 0x06be; 0x0621; 0x06cc; 0x06d0; 0x06d2; 0x064d; 0x0650;
     0x064f; 0x0657; 0x0654; 97; 98; 99; 100; 101; 102; 103; 104; 105; 106; 107; 108; 109; 110; 111; 112; 113; 114;
     115; 116; 117; 118; 119; 120; 121; 122; 0x0655; 0x0651; 0x0653; 0x0656; 0x0670])].
