(* ===== verification/Gsm7.v ===== *)
(** * GSM 7-bit text and septets (runtimehost/messaging: sms_pdu.go, sms_gsm7_nli.go, messaging.go)

    Codes and runes of the language tables, encoding and decoding of text, the
    packing of septets into octets, the lengths of a message in each encoding
    and the chunks a text is cut into. *)
From S2P Require Import Prelude Errors Utf8 SmsTables.

Definition smsNationalLanguageIdentifierKnown (lang : Z) : bool := (SMSNationalLanguageTurkish <=? lang) && (lang <=? SMSNationalLanguageUrdu).

(** A Go map of tables. *)
Fixpoint map_get (m : list (Z * list Z)) (k : Z) : option (list Z) :=
  match m with
  | [] => None
  | (k', v) :: m' => if k =? k' then Some v else map_get m' k
  end.
Definition gsm7LockingTable (lang : Z) : list Z :=
  match map_get gsm7NationalLanguageLockingTables lang with Some t => t | None => gsm7BasicAlphabet end.
Definition gsm7SingleShiftTable (lang : Z) : list Z :=
  match map_get gsm7NationalLanguageSingleShiftTables lang with Some t => t | None => gsm7DefaultSingleShiftTable end.

(** [for i, candidate := range table { if candidate == r && ok(candidate) { return byte(i), true } }] *)
Fixpoint code_loop (table : list Z) (i : Z) (r : Z) (ok : Z -> bool) : option Z :=
  match table with
  | [] => None
  | candidate :: rest => if (candidate =? r) && ok candidate then Some (to_u8 i) else code_loop rest (i + 1) r ok
  end.
Definition gsm7LockingCode (r lang : Z) : option Z :=
  let table := gsm7LockingTable lang in
  if (r =? 32) && (0x20 <? len table) && bool_decide (table !! 32%nat = Some 32) then Some 0x20
  else code_loop table 0 r (fun candidate => negb (candidate =? 0xffff)).
Definition gsm7SingleShiftCode (r lang : Z) : option Z :=
  code_loop (gsm7SingleShiftTable lang) 0 r (fun candidate => negb (candidate =? 32) && negb (candidate =? 0xffff)).
Definition gsm7LockingRune (code lang : Z) : option Z :=
  match gsm7LockingTable lang !! Z.to_nat code with
  | None => None
  | Some r => if r =? 0xffff then None else Some r
  end.
Definition gsm7SingleShiftRune (code lang : Z) : option Z :=
  match gsm7SingleShiftTable lang !! Z.to_nat code with
  | None => None
  | Some r => if (r =? 32) || (r =? 0xffff) then None else Some r
  end.
Definition gsm7CanEncodeLocking (r lockingLang : Z) : bool := match gsm7LockingCode r lockingLang with Some _ => true | None => false end.
Definition gsm7ExtensionCode (r : Z) : option Z := gsm7SingleShiftCode r 0.
Definition gsm7ExtensionRune (code : Z) : option Z := gsm7SingleShiftRune code 0.

(** ** Text *)
Fixpoint encode_gsm7_loop (rs : list Z) (lockingLang singleLang : Z) (out : bytes) : result bytes :=
  match rs with
  | [] => Ok out
  | r :: rest =>
      match gsm7LockingCode r lockingLang with
      | Some idx => encode_gsm7_loop rest lockingLang singleLang (out ++ [idx])
      | None =>
          match gsm7SingleShiftCode r singleLang with
          | None => Err (ErrText "character is not in GSM 7-bit alphabet")
          | Some ext => encode_gsm7_loop rest lockingLang singleLang (out ++ [0x1b; ext])
          end
      end
  end.
Definition encodeGSM7WithLanguage (text : bytes) (lockingLang singleLang : Z) : result bytes :=
  encode_gsm7_loop (runes text) lockingLang singleLang [].
Definition encodeGSM7 (text : bytes) : result bytes := encodeGSM7WithLanguage text 0 0.

Fixpoint septet_len_loop (rs : list Z) (lockingLang singleLang septets : Z) : option Z :=
  match rs with
  | [] => Some septets
  | r :: rest =>
      match gsm7LockingCode r lockingLang with
      | Some _ => septet_len_loop rest lockingLang singleLang (septets + 1)
      | None =>
          match gsm7SingleShiftCode r singleLang with
          | Some _ => septet_len_loop rest lockingLang singleLang (septets + 2)
          | None => None
          end
      end
  end.
Definition gsm7SeptetLenWithLanguage (text : bytes) (lockingLang singleLang : Z) : option Z :=
  septet_len_loop (runes text) lockingLang singleLang 0.
Definition gsm7SeptetLen (text : bytes) : option Z := gsm7SeptetLenWithLanguage text 0 0.
Definition isGSM7Text (text : bytes) : bool := match gsm7SeptetLen text with Some _ => true | None => false end.

(** The runes that [decodeGSM7WithLanguage] writes. *)
Fixpoint decode_gsm7_loop (septets : bytes) (lockingLang singleLang : Z) : list Z :=
  match septets with
  | [] => []
  | s :: rest =>
      let code := Z.land s 0x7f in
      let plain := match gsm7LockingRune code lockingLang with
        | Some r => r :: decode_gsm7_loop rest lockingLang singleLang
        | None => decode_gsm7_loop rest lockingLang singleLang
        end in
      match rest with
      | s' :: rest' =>
          if code =? 0x1b then
            let shiftCode := Z.land s' 0x7f in
            match gsm7SingleShiftRune shiftCode singleLang with
            | Some r => r :: decode_gsm7_loop rest' lockingLang singleLang
            | None =>
                if negb (lockingLang =? 0) || negb (singleLang =? 0) then
                  match gsm7LockingRune shiftCode lockingLang with
                  | Some r => r :: decode_gsm7_loop rest' lockingLang singleLang
                  | None => plain
                  end
                else plain
            end
          else plain
      | [] => plain
      end
  end.
Definition decodeGSM7WithLanguage (septets : bytes) (lockingLang singleLang : Z) : bytes :=
  string_of (decode_gsm7_loop septets lockingLang singleLang).
Definition decodeGSM7 (septets : bytes) : bytes := decodeGSM7WithLanguage septets 0 0.

(** ** Septets in octets *)
(** [out[i] |= v] *)
Definition or_at (out : bytes) (i v : Z) : result bytes :=
  let! b := at_ out i in Ok (<[Z.to_nat i := Z.lor b v]> out).
Fixpoint pack_loop (septets : bytes) (i bitOffset : Z) (out : bytes) : result bytes :=
  match septets with
  | [] => Ok out
  | septet :: rest =>
      let bitPos := bitOffset + i * 7 in
      let bytePos := bitPos / 8 in
      let shift := bitPos mod 8 in
      let! out := or_at out bytePos (to_u8 (Z.shiftl (Z.land septet 0x7f) shift)) in
      let! out := (if (1 <? shift) && (bytePos + 1 <? len out)
                   then or_at out (bytePos + 1) (Z.shiftr (Z.land septet 0x7f) (8 - shift)) else Ok out) in
      pack_loop rest (i + 1) bitOffset out
  end.
Definition packSeptets (septets : bytes) (bitOffset : Z) : result bytes :=
  if len septets =? 0 then Ok [] else
  let totalBits := bitOffset + len septets * 7 in
  pack_loop septets 0 bitOffset (replicate (Z.to_nat ((totalBits + 7) / 8)) 0).

(** The remaining [n] turns from [i]. *)
Fixpoint unpack_loop (n : nat) (data : bytes) (i bitOffset : Z) : result bytes :=
  match n with
  | O => Ok []
  | S n' =>
      let bitPos := bitOffset + i * 7 in
      let bytePos := bitPos / 8 in
      let shift := bitPos mod 8 in
      if len data <=? bytePos then Ok [] else
      let! b := at_ data bytePos in
      let value := Z.land (Z.shiftr b shift) 0x7f in
      let! value := (if (1 <? shift) && (bytePos + 1 <? len data)
                     then let! b' := at_ data (bytePos + 1) in Ok (Z.lor value (Z.land (to_u8 (Z.shiftl b' (8 - shift))) 0x7f))
                     else Ok value) in
      let! rest := unpack_loop n' data (i + 1) bitOffset in
      Ok (value :: rest)
  end.
Definition unpackSeptets (data : bytes) (septetCount bitOffset : Z) : result bytes :=
  if septetCount <=? 0 then Ok [] else unpack_loop (Z.to_nat septetCount) data 0 bitOffset.

(** ** The tables *)
Lemma map_get_In m k t : map_get m k = Some t -> exists k', (k', t) ∈ m.
Proof.
  induction m as [|[k' v] m IH]; [done|]. cbn [map_get]. case_match; [intros [= <-]; exists k'; left|].
  intros (k2 & Hk)%IH. exists k2. by right.
Qed.
Lemma locking_tables lang : length (gsm7LockingTable lang) = 128%nat /\
  (gsm7LockingTable lang !! 27%nat = Some 0xffff \/ gsm7LockingTable lang !! 27%nat = Some 27).
Proof.
  unfold gsm7LockingTable. destruct (map_get _ lang) as [t|] eqn:E; [|by split; [|right]]. apply map_get_In in E as (k & Hin).
  assert (Hall : Forall (fun kv => length kv.2 = 128%nat /\ (kv.2 !! 27%nat = Some 0xffff \/ kv.2 !! 27%nat = Some 27))
    gsm7NationalLanguageLockingTables) by (unfold gsm7NationalLanguageLockingTables; repeat (constructor; [split; [reflexivity|left; reflexivity]|]); constructor).
  rewrite Forall_forall in Hall. exact (Hall _ Hin).
Qed.
Lemma single_tables lang : length (gsm7SingleShiftTable lang) = 128%nat.
Proof.
  unfold gsm7SingleShiftTable. destruct (map_get _ lang) as [t|] eqn:E; [|done]. apply map_get_In in E as (k & Hin).
  assert (Hall : Forall (fun kv : Z * list Z => length kv.2 = 128%nat) gsm7NationalLanguageSingleShiftTables)
    by (unfold gsm7NationalLanguageSingleShiftTables; repeat (constructor; [reflexivity|]); constructor).
  rewrite Forall_forall in Hall. exact (Hall _ Hin).
Qed.
Lemma code_loop_spec table i r ok c : code_loop table i r ok = Some c ->
  exists k, table !! k = Some r /\ ok r = true /\ c = to_u8 (i + Z.of_nat k).
Proof.
  revert i. induction table as [|x table IH]; intros i; [done|]. cbn [code_loop]. destruct (_ && _) eqn:E.
  - apply andb_true_iff in E as [->%Z.eqb_eq Hok]. intros [= <-]. exists 0%nat. split_and!; [done|done|]. f_equal. lia.
  - intros (k & Hk & Hok & ->)%IH. exists (S k). split_and!; [done|done|]. f_equal. lia.
Qed.
Definition septet (s : Z) : Prop := 0 <= s < 128.
Lemma land_septet s : septet s -> Z.land s 0x7f = s.
Proof. intros Hs. change 0x7f with (Z.ones 7). rewrite Z.land_ones by lia. apply Z.mod_small. exact Hs. Qed.

Lemma gsm7LockingCode_spec r lang c : gsm7LockingCode r lang = Some c ->
  septet c /\ gsm7LockingRune c lang = Some r /\ (c = 0x1b -> r = 0x1b).
Proof.
  destruct (locking_tables lang) as [Hl H27]. unfold gsm7LockingCode, gsm7LockingRune. cbv zeta. set (t := gsm7LockingTable lang) in *.
  destruct (_ && bool_decide _) eqn:E.
  - apply andb_true_iff in E as [[->%Z.eqb_eq _]%andb_true_iff Ht%bool_decide_eq_true]. intros [= <-]. split; [by_decide|].
    change (Z.to_nat 0x20) with 32%nat. by rewrite Ht.
  - intros (k & Hk & Hok & ->)%code_loop_spec. pose proof (lookup_lt_Some _ _ _ Hk) as Hlt. rewrite Hl in Hlt.
    replace (to_u8 (0 + Z.of_nat k)) with (Z.of_nat k) by (unfold to_u8; rewrite Z.mod_small; lia).
    split; [unfold septet; lia|]. rewrite Nat2Z.id, Hk. apply negb_true_iff in Hok. rewrite Hok. split; [done|].
    intros Hc. assert (k = 27%nat) as -> by lia. destruct H27 as [H27|H27]; rewrite Hk in H27; injection H27 as ->; done.
Qed.
Lemma gsm7SingleShiftCode_spec r lang c : gsm7SingleShiftCode r lang = Some c -> septet c /\ gsm7SingleShiftRune c lang = Some r.
Proof.
  intros (k & Hk & Hok & ->)%code_loop_spec. unfold gsm7SingleShiftRune. pose proof (lookup_lt_Some _ _ _ Hk) as Hlt. rewrite single_tables in Hlt.
  replace (to_u8 (0 + Z.of_nat k)) with (Z.of_nat k) by (unfold to_u8; rewrite Z.mod_small; lia).
  split; [unfold septet; lia|]. rewrite Nat2Z.id, Hk. apply andb_true_iff in Hok as [H1%negb_true_iff H2%negb_true_iff]. by rewrite H1, H2.
Qed.

(** ** Encoding and decoding text *)
Lemma decode_plain s rest L S : septet s -> s <> 0x1b ->
  decode_gsm7_loop (s :: rest) L S =
    match gsm7LockingRune s L with Some r => r :: decode_gsm7_loop rest L S | None => decode_gsm7_loop rest L S end.
Proof.
  intros Hs Hne. cbn [decode_gsm7_loop]. rewrite land_septet by done. replace (s =? 0x1b) with false by lia. by destruct rest.
Qed.
Lemma decode_escape c rest L S r : septet c -> gsm7SingleShiftRune c S = Some r ->
  decode_gsm7_loop (0x1b :: c :: rest) L S = r :: decode_gsm7_loop rest L S.
Proof. intros Hc Hr. cbn [decode_gsm7_loop]. change (Z.land 0x1b 0x7f =? 0x1b) with true. cbv iota zeta. by rewrite land_septet, Hr by done. Qed.
Lemma encode_gsm7_loop_spec rs L S out b : 0x1b ∉ rs -> encode_gsm7_loop rs L S out = Ok b ->
  exists sp, b = out ++ sp /\ decode_gsm7_loop sp L S = rs /\ Forall septet sp.
Proof.
  intros Hesc. revert out. induction rs as [|r rs IH]; intros out.
  - intros [= <-]. exists []. by rewrite app_nil_r.
  - apply not_elem_of_cons in Hesc as [Hne Hesc]. cbn [encode_gsm7_loop]. destruct (gsm7LockingCode r L) as [c|] eqn:Hc.
    + apply gsm7LockingCode_spec in Hc as (Hs & Hr & Hc27). intros (sp & -> & Hd & Hf)%IH; [|done]. exists (c :: sp).
      split; [by rewrite <- app_assoc|]. split; [|by constructor]. rewrite decode_plain by (done || intros ->; by destruct (Hne (eq_sym (Hc27 eq_refl)))).
      by rewrite Hr, Hd.
    + destruct (gsm7SingleShiftCode r S) as [c|] eqn:Hsc; [|done]. apply gsm7SingleShiftCode_spec in Hsc as (Hs & Hr).
      intros (sp & -> & Hd & Hf)%IH; [|done]. exists (0x1b :: c :: sp). split; [by rewrite <- app_assoc|].
      split; [by rewrite (decode_escape _ _ _ _ r), Hd|]. constructor; [by_decide|by constructor].
Qed.
Lemma septet_len_spec rs L S out n :
  match encode_gsm7_loop rs L S out with
  | Ok b => septet_len_loop rs L S n = Some (n + len b - len out)
  | _ => septet_len_loop rs L S n = None
  end.
Proof.
  revert out n. induction rs as [|r rs IH]; intros out n; cbn [encode_gsm7_loop septet_len_loop].
  - f_equal. lia.
  - destruct (gsm7LockingCode r L) as [c|].
    + specialize (IH (out ++ [c]) (n + 1)). destruct (encode_gsm7_loop _ _ _ _); try done. rewrite IH. f_equal. len_lia.
    + destruct (gsm7SingleShiftCode r S) as [c|]; [|done]. specialize (IH (out ++ [0x1b; c]) (n + 2)).
      destruct (encode_gsm7_loop _ _ _ _); try done. rewrite IH. f_equal. len_lia.
Qed.

(** ** Packing as a bit stream *)
(** Bit [b] of a septet stream: bit [b mod 7] of septet [b / 7]. *)
Definition stream_bit (septets : bytes) (b : Z) : bool :=
  (0 <=? b) && match septets !! Z.to_nat (b / 7) with Some s => Z.testbit s (b mod 7) | None => false end.
Lemma stream_bit_snoc septets s b : septet s ->
  stream_bit (septets ++ [s]) b = stream_bit septets b || ((7 * len septets <=? b) && Z.testbit s (b - 7 * len septets)).
Proof.
  intros Hs. unfold stream_bit. destruct (Z.leb_spec 0 b) as [Hb|Hb]; cbn [andb].
  2: { pose proof (len_nonneg septets). replace (7 * len septets <=? b) with false by lia. done. }
  pose proof (Z.div_mod b 7 ltac:(lia)). pose proof (Z.mod_pos_bound b 7 ltac:(lia)). assert (0 <= b / 7) by (Z.div_mod_to_equations; lia).
  set (q := b / 7) in *. set (m := b mod 7) in *. unfold len.
  destruct (Z.leb_spec (7 * Z.of_nat (length septets)) b) as [H3|H3].
  - rewrite (lookup_ge_None_2 septets) by lia. rewrite lookup_app_r by lia. cbn [orb andb].
    destruct (decide (q = Z.of_nat (length septets))) as [->|Hne].
    + replace (Z.to_nat (Z.of_nat (length septets)) - length septets)%nat with 0%nat by lia. cbn. f_equal. lia.
    + rewrite lookup_ge_None_2 by (cbn; lia). symmetry. apply (testbit_small s 7); [exact Hs|lia].
  - rewrite lookup_app_l by lia. cbn [andb]. by rewrite orb_false_r.
Qed.

(** Octet [j] of the packing so far, bit [k]. *)
Definition packed (septets : bytes) (bitOffset : Z) (out : bytes) : Prop :=
  bytes_ok out /\ forall j b k, out !! j = Some b -> 0 <= k < 8 -> Z.testbit b k = stream_bit septets (8 * Z.of_nat j + k - bitOffset).

Lemma u8_testbit b k : is_u8 b -> 8 <= k -> Z.testbit b k = false.
Proof. intros Hb Hk. by apply (testbit_small b 8). Qed.
Lemma lor_u8 a b : is_u8 a -> is_u8 b -> is_u8 (Z.lor a b).
Proof.
  intros Ha Hb. split; [apply Z.lor_nonneg; split; [apply Ha|apply Hb]|].
  destruct (Z.eq_dec (Z.lor a b) 0) as [->|Hne]; [lia|]. apply Z.log2_lt_cancel. change (Z.log2 256) with 8.
  assert (0 <= Z.lor a b) by (apply Z.lor_nonneg; split; [apply Ha|apply Hb]). rewrite Z.log2_lor by (apply Ha || apply Hb).
  unfold is_u8, in_range in *. apply Z.max_lub_lt.
  - destruct (Z.eq_dec a 0) as [->|]; [done|]. apply Z.log2_lt_pow2; lia.
  - destruct (Z.eq_dec b 0) as [->|]; [done|]. apply Z.log2_lt_pow2; lia.
Qed.
Lemma or_at_spec out i v : 0 <= i < len out -> bytes_ok out -> is_u8 v ->
  exists out', or_at out i v = Ok out' /\ length out' = length out /\ bytes_ok out' /\
    forall j b', out' !! j = Some b' -> exists b, out !! j = Some b /\ b' = if Z.of_nat j =? i then Z.lor b v else b.
Proof.
  intros Hi Hb Hv. unfold or_at, at_. replace (i <? 0) with false by lia.
  destruct (out !! Z.to_nat i) as [b|] eqn:E; [|apply lookup_ge_None in E; unfold len in Hi; lia]. cbn [bind].
  eexists. split; [reflexivity|]. split; [apply length_insert|]. split.
  { apply Forall_insert; [exact Hb|]. apply lor_u8; [|exact Hv]. by eapply Forall_lookup_1 in Hb. }
  intros j b' Hj. destruct (Z.eqb_spec (Z.of_nat j) i) as [<-|Hne].
  - rewrite Nat2Z.id in *. rewrite list_lookup_insert_eq in Hj by (by apply lookup_lt_Some in E). injection Hj as <-. by exists b.
  - rewrite list_lookup_insert_ne in Hj by lia. by exists b'.
Qed.

Lemma pack_step done s bitOffset out : septet s -> 0 <= bitOffset -> packed done bitOffset out ->
  bitOffset + len done * 7 + 7 <= 8 * len out ->
  let bitPos := bitOffset + len done * 7 in
  let shift := bitPos mod 8 in
  exists out', (let! out1 := or_at out (bitPos / 8) (to_u8 (Z.shiftl (Z.land s 0x7f) shift)) in
    if (1 <? shift) && (bitPos / 8 + 1 <? len out1) then or_at out1 (bitPos / 8 + 1) (Z.shiftr (Z.land s 0x7f) (8 - shift)) else Ok out1) = Ok out' /\
    length out' = length out /\ packed (done ++ [s]) bitOffset out'.
Proof.
  intros Hs Ho [Hb Hp] Hfit bitPos shift. rewrite land_septet by done. pose proof (len_nonneg done).
  pose proof (Z.div_mod bitPos 8 ltac:(lia)) as Hdm. pose proof (Z.mod_pos_bound bitPos 8 ltac:(lia)) as Hsh. fold shift in Hdm, Hsh.
  set (q := bitPos / 8) in *. assert (0 <= q < len out) by lia.
  assert (Hv2 : is_u8 (Z.shiftr s (8 - shift))).
  { rewrite Z.shiftr_div_pow2 by lia. unfold septet in Hs. pose proof (Z.pow_pos_nonneg 2 (8 - shift) ltac:(lia) ltac:(lia)).
    unfold is_u8, in_range. split; [apply Z.div_pos; lia|]. apply Z.div_lt_upper_bound; nia. }
  destruct (or_at_spec out q (to_u8 (Z.shiftl s shift))) as (o1 & -> & Hl1 & Hb1 & Ho1); [lia|done|apply to_u8_range|]. cbn [bind].
  assert (Hbit : forall j k, 0 <= k < 8 -> Z.of_nat j = q -> Z.testbit (to_u8 (Z.shiftl s shift)) k = (bitPos <=? 8 * Z.of_nat j + k) && Z.testbit s (8 * Z.of_nat j + k - bitPos)).
  { intros j k Hk ->. unfold to_u8. change 256 with (2 ^ 8). rewrite Z.mod_pow2_bits_low by lia. rewrite Z.shiftl_spec by lia.
    destruct (Z.leb_spec bitPos (8 * q + k)); [cbn; f_equal; lia|]. cbn. apply Z.testbit_neg_r. lia. }
  assert (Hfar : forall j k, 0 <= k < 8 -> Z.of_nat j <> q -> Z.of_nat j <> q + 1 \/ shift <= 1 \/ len o1 <= q + 1 -> (j < length out)%nat ->
    (bitPos <=? 8 * Z.of_nat j + k) && Z.testbit s (8 * Z.of_nat j + k - bitPos) = false).
  { intros j k Hk Hj Hj2 Hjl. destruct (Z.leb_spec bitPos (8 * Z.of_nat j + k)) as [Hle|]; [|done]. cbn.
    apply (testbit_small s 7); [exact Hs|]. unfold len in *. lia. }
  assert (Hgoal : forall out', length out' = length out -> bytes_ok out' ->
    (forall j b', out' !! j = Some b' -> exists b, out !! j = Some b /\ forall k, 0 <= k < 8 ->
       Z.testbit b' k = Z.testbit b k || ((bitPos <=? 8 * Z.of_nat j + k) && Z.testbit s (8 * Z.of_nat j + k - bitPos))) ->
    packed (done ++ [s]) bitOffset out').
  { intros out' Hl Hbo Hall. split; [exact Hbo|]. intros j b' k Hj Hk. destruct (Hall j b' Hj) as (b & Hjb & Hk').
    rewrite Hk' by done. rewrite (Hp j b k) by done. rewrite stream_bit_snoc by done. f_equal.
    replace (bitPos <=? 8 * Z.of_nat j + k) with (7 * len done <=? 8 * Z.of_nat j + k - bitOffset) by lia. do 2 f_equal. lia. }
  destruct (_ && _) eqn:E.
  - apply andb_true_iff in E as [E1%Z.ltb_lt E2%Z.ltb_lt].
    destruct (or_at_spec o1 (q + 1) (Z.shiftr s (8 - shift))) as (o2 & -> & Hl2 & Hb2 & Ho2); [lia|done|done|].
    exists o2. split; [done|]. split; [congruence|]. apply Hgoal; [congruence|done|]. intros j b' Hj.
    destruct (Ho2 j b' Hj) as (b1 & Hj1 & ->). destruct (Ho1 j b1 Hj1) as (b & Hjb & ->). exists b. split; [done|]. intros k Hk.
    pose proof (lookup_lt_Some _ _ _ Hjb) as Hjl.
    destruct (Z.eqb_spec (Z.of_nat j) (q + 1)) as [Ej|Ej]; destruct (Z.eqb_spec (Z.of_nat j) q) as [Ej'|Ej']; try lia.
    + rewrite Z.lor_spec, Z.shiftr_spec by lia. f_equal. replace (bitPos <=? 8 * Z.of_nat j + k) with true by lia. cbn. f_equal. lia.
    + rewrite Z.lor_spec. f_equal. by apply Hbit.
    + rewrite (Hfar j k) by (done || lia). by rewrite orb_false_r.
  - exists o1. split; [done|]. split; [done|]. apply Hgoal; [done|done|]. intros j b' Hj.
    destruct (Ho1 j b' Hj) as (b & Hjb & ->). exists b. split; [done|]. intros k Hk. pose proof (lookup_lt_Some _ _ _ Hjb) as Hjl.
    destruct (Z.eqb_spec (Z.of_nat j) q) as [Ej|Ej].
    + rewrite Z.lor_spec. f_equal. by apply Hbit.
    + rewrite (Hfar j k) by (done || lia). by rewrite orb_false_r.
Qed.

Lemma pack_loop_spec septets done bitOffset out :
  Forall septet septets -> 0 <= bitOffset -> packed done bitOffset out ->
  bitOffset + (len done + len septets) * 7 <= 8 * len out ->
  exists out', pack_loop septets (len done) bitOffset out = Ok out' /\ length out' = length out /\ packed (done ++ septets) bitOffset out'.
Proof.
  intros Hs Ho. revert done out. induction Hs as [|s septets Hs _ IH]; intros done out Hp Hfit.
  - exists out. by rewrite app_nil_r.
  - rewrite len_cons in Hfit. pose proof (len_nonneg septets). cbn [pack_loop].
    destruct (pack_step done s bitOffset out Hs Ho Hp) as (out1 & E & Hl & Hp1); [lia|]. cbv zeta in E.
    destruct (or_at out _ _) as [o1| | |] eqn:E1; try done. cbn [bind] in E |- *. rewrite E. cbn [bind].
    destruct (IH (done ++ [s]) out1 Hp1) as (out2 & E2 & Hl2 & Hp2).
    { rewrite len_app. change (len [s]) with 1. unfold len in *. lia. }
    exists out2. rewrite len_app in E2. change (len [s]) with 1 in E2. split; [exact E2|]. split; [congruence|]. by rewrite <- app_assoc in Hp2.
Qed.
Lemma stream_bit_nil b : stream_bit [] b = false.
Proof. unfold stream_bit. by rewrite andb_false_r. Qed.
Lemma packSeptets_spec septets bitOffset : Forall septet septets -> 0 <= bitOffset ->
  exists out, packSeptets septets bitOffset = Ok out /\ packed septets bitOffset out /\
    len out = if len septets =? 0 then 0 else (bitOffset + len septets * 7 + 7) / 8.
Proof.
  intros Hs Ho. unfold packSeptets. pose proof (len_nonneg septets). destruct (Z.eqb_spec (len septets) 0) as [E|E].
  { exists []. split; [done|]. split; [|done]. split; [constructor|]. done. }
  cbv zeta. set (n := (bitOffset + len septets * 7 + 7) / 8). assert (0 <= n /\ bitOffset + len septets * 7 <= 8 * n) as [Hn Hfit] by (subst n; Z.div_mod_to_equations; lia).
  set (out0 := replicate (Z.to_nat n) 0). assert (Hl0 : len out0 = n) by (subst out0; rewrite len_replicate; lia).
  destruct (pack_loop_spec septets [] bitOffset out0) as (out & E1 & Hl & Hp); [done|done| |rewrite Hl0; change (len []) with 0; lia|].
  - split; [by apply bytes_ok_replicate|]. intros j b k Hj Hk. apply lookup_replicate in Hj as [-> _]. by rewrite Z.bits_0, stream_bit_nil.
  - exists out. split; [exact E1|]. split; [exact Hp|]. unfold len in *. by rewrite Hl.
Qed.

Lemma septet_bits_inj a b : septet a -> septet b -> (forall k, 0 <= k < 7 -> Z.testbit a k = Z.testbit b k) -> a = b.
Proof.
  intros Ha Hb H. apply Z.bits_inj'. intros k Hk. destruct (Z.lt_ge_cases k 7) as [Hlt|Hge]; [by apply H|].
  by rewrite !(testbit_small _ 7 k).
Qed.
Lemma land_127_septet x : septet (Z.land x 0x7f).
Proof. change 0x7f with (Z.ones 7). rewrite Z.land_ones by lia. apply Z.mod_pos_bound. lia. Qed.
Lemma land_127_bit x k : 0 <= k < 7 -> Z.testbit (Z.land x 0x7f) k = Z.testbit x k.
Proof. intros Hk. change 0x7f with (Z.ones 7). rewrite Z.land_ones by lia. apply Z.mod_pow2_bits_low. lia. Qed.
Lemma lor_septet a b : septet a -> septet b -> septet (Z.lor a b).
Proof.
  intros Ha Hb. assert (Z.lor a b = Z.land (Z.lor a b) 0x7f) as ->; [|apply land_127_septet].
  by rewrite Z.land_lor_distr_l, !land_septet.
Qed.

(** One turn of the loop reads septet [i] of the stream the octets carry. *)
Lemma unpack_step data septets bitOffset i s : packed septets bitOffset data -> 0 <= bitOffset -> septet s ->
  septets !! Z.to_nat i = Some s -> 0 <= i -> bitOffset + i * 7 + 7 <= 8 * len data ->
  let bitPos := bitOffset + i * 7 in
  let shift := bitPos mod 8 in
  (len data <=? bitPos / 8) = false /\
  (let! b := at_ data (bitPos / 8) in
   let value := Z.land (Z.shiftr b shift) 0x7f in
   if (1 <? shift) && (bitPos / 8 + 1 <? len data)
   then let! b' := at_ data (bitPos / 8 + 1) in Ok (E := error) (Z.lor value (Z.land (to_u8 (Z.shiftl b' (8 - shift))) 0x7f))
   else Ok value) = Ok s.
Proof.
  intros [Hb Hp] Ho Hs Hi Hi0 Hfit bitPos shift. pose proof (Z.div_mod bitPos 8 ltac:(lia)) as Hdm. pose proof (Z.mod_pos_bound bitPos 8 ltac:(lia)) as Hsh.
  fold shift in Hdm, Hsh. set (q := bitPos / 8) in *. assert (Hq : 0 <= q < len data) by lia. split; [lia|].
  assert (Hstream : forall k, 0 <= k < 7 -> stream_bit septets (7 * i + k) = Z.testbit s k).
  { intros k Hk. unfold stream_bit. replace (0 <=? 7 * i + k) with true by lia.
    replace ((7 * i + k) / 7) with i by (symmetry; rewrite Z.mul_comm; rewrite Z.div_add_l by lia; rewrite Z.div_small; lia).
    rewrite Hi. cbn. f_equal. rewrite Z.mul_comm, Z.add_comm, Z.mod_add by lia. by apply Z.mod_small. }
  destruct (lookup_lt_is_Some_2 data (Z.to_nat q)) as [b Hbq]; [unfold len in Hq; lia|].
  assert (at_ (E := error) data q = Ok b) as -> by (unfold at_; replace (q <? 0) with false by lia; by rewrite Hbq). cbn [bind].
  pose proof (Forall_lookup_1 _ _ _ _ Hb Hbq) as Hbok.
  assert (Hlow : forall k, 0 <= k < 7 -> k + shift < 8 -> Z.testbit (Z.land (Z.shiftr b shift) 0x7f) k = Z.testbit s k).
  { intros k Hk Hks. rewrite land_127_bit, Z.shiftr_spec by lia. rewrite (Hp _ _ (k + shift) Hbq), <- Hstream by lia. f_equal. lia. }
  assert (Hlow0 : forall k, 0 <= k < 7 -> 8 <= k + shift -> Z.testbit (Z.land (Z.shiftr b shift) 0x7f) k = false).
  { intros k Hk Hks. rewrite land_127_bit, Z.shiftr_spec by lia. apply (u8_testbit b); [exact Hbok|lia]. }
  destruct (_ && _) eqn:E.
  - apply andb_true_iff in E as [E1%Z.ltb_lt E2%Z.ltb_lt].
    destruct (lookup_lt_is_Some_2 data (Z.to_nat (q + 1))) as [b' Hbq']; [unfold len in E2; lia|].
    assert (at_ (E := error) data (q + 1) = Ok b') as -> by (unfold at_; replace (q + 1 <? 0) with false by lia; by rewrite Hbq'). cbn [bind].
    f_equal. apply septet_bits_inj; [apply lor_septet; apply land_127_septet|exact Hs|]. intros k Hk.
    rewrite Z.lor_spec. rewrite (land_127_bit (to_u8 _)) by done. unfold to_u8. change 256 with (2 ^ 8).
    rewrite Z.mod_pow2_bits_low, Z.shiftl_spec by lia. destruct (Z.lt_ge_cases (k + shift) 8) as [Hlt|Hge].
    + rewrite Hlow by done. rewrite (Z.testbit_neg_r b') by lia. by rewrite orb_false_r.
    + rewrite Hlow0 by done. cbn [orb]. rewrite (Hp _ _ (k - (8 - shift)) Hbq'), <- Hstream by lia. f_equal. lia.
  - f_equal. apply septet_bits_inj; [apply land_127_septet|exact Hs|]. intros k Hk. apply Hlow; [done|].
    apply andb_false_iff in E as [E%Z.ltb_ge|E%Z.ltb_ge]; lia.
Qed.
Lemma unpack_loop_spec n data septets bitOffset i : packed septets bitOffset data -> 0 <= bitOffset -> Forall septet septets ->
  0 <= i -> i + Z.of_nat n = len septets -> bitOffset + len septets * 7 <= 8 * len data ->
  unpack_loop n data i bitOffset = Ok (drop (Z.to_nat i) septets).
Proof.
  intros Hp Ho Hs. revert i. induction n as [|n IH]; intros i Hi Hn Hfit.
  - cbn [unpack_loop]. rewrite drop_ge; [done|unfold len in Hn; lia].
  - destruct (lookup_lt_is_Some_2 septets (Z.to_nat i)) as [s Hsi]; [unfold len in Hn; lia|].
    destruct (unpack_step data septets bitOffset i s Hp Ho) as [E1 E2]; [by eapply Forall_lookup_1|done|done|lia|]. cbv zeta in E1, E2.
    cbn [unpack_loop]. cbv zeta. rewrite E1. destruct (at_ data _) as [b| | |]; try done. cbn [bind] in E2 |- *. rewrite E2. cbn [bind].
    rewrite IH by lia. cbn [bind]. rewrite (drop_S septets s (Z.to_nat i)) by done. by replace (Z.to_nat (i + 1)) with (S (Z.to_nat i)) by lia.
Qed.
Lemma pack_unpack septets bitOffset out : Forall septet septets -> 0 <= bitOffset -> packSeptets septets bitOffset = Ok out ->
  unpackSeptets out (len septets) bitOffset = Ok septets.
Proof.
  intros Hs Ho Hout. destruct (packSeptets_spec septets bitOffset Hs Ho) as (out' & E & Hp & Hl). rewrite Hout in E. injection E as <-.
  unfold unpackSeptets. pose proof (len_nonneg septets). destruct (Z.leb_spec (len septets) 0) as [Hz|Hz].
  { by rewrite (len_zero septets) by lia. }
  rewrite (unpack_loop_spec _ _ septets) by (done || lia || (rewrite Hl; replace (len septets =? 0) with false by lia; Z.div_mod_to_equations; lia)). done.
Qed.

Lemma unpackSeptets_safe data n bitOffset : bytes_ok data -> 0 <= bitOffset -> safe (unpackSeptets data n bitOffset) (fun s => Forall septet s /\ len s <= Z.max 0 n).
Proof.
  intros Hb Ho. unfold unpackSeptets. destruct (Z.leb_spec n 0); [split; [constructor|change (len (@nil Z)) with 0; lia]|].
  assert (Hg : forall m i, 0 <= i -> safe (unpack_loop m data i bitOffset) (fun s => Forall septet s /\ len s <= Z.of_nat m)).
  { intros m. induction m as [|m IH]; intros i Hi; [split; [constructor|done]|]. cbn [unpack_loop]. cbv zeta.
    case_match eqn:E; [split; [constructor|change (len (@nil Z)) with 0; lia]|]. apply Z.leb_gt in E.
    assert (Hq : 0 <= (bitOffset + i * 7) / 8) by (apply Z.div_pos; lia).
    eapply (safe_call _ _ is_u8); [apply safe_at; [done|lia|done]|]. intros b Hbb.
    eapply (safe_call _ _ septet).
    { destruct (_ && _) eqn:E2; [|apply land_127_septet]. apply andb_true_iff in E2 as [_ E2%Z.ltb_lt].
      eapply (safe_call _ _ is_u8); [apply safe_at; [done|lia|done]|]. intros b' _. apply lor_septet; apply land_127_septet. }
    intros v Hv. eapply safe_call; [apply IH; lia|]. intros rest [Hr Hl]. split; [by constructor|]. rewrite len_cons. lia. }
  eapply safe_mono; [apply Hg; lia|]. intros s [Hs Hl]. split; [done|lia].
Qed.

(** ** Properties *)

(** Septets in octets: [packSeptets] never fails on septets; it writes exactly
    the octets that hold the fill bits and the septets, and bit k of octet j is
    bit 8j + k - fill of the septet stream (bit b of the stream is bit b mod 7 of
    septet b / 7; fill bits and the tail are zero); and [unpackSeptets] reads the
    septets back. *)
Theorem packSeptets_correct septets fill : Forall septet septets -> 0 <= fill ->
  exists out, packSeptets septets fill = Ok out /\ bytes_ok out /\
    len out = (if len septets =? 0 then 0 else (fill + len septets * 7 + 7) / 8) /\
    (forall j b k, out !! j = Some b -> 0 <= k < 8 -> Z.testbit b k = stream_bit septets (8 * Z.of_nat j + k - fill)) /\
    unpackSeptets out (len septets) fill = Ok septets.
Proof.
  intros Hs Hf. destruct (packSeptets_spec septets fill Hs Hf) as (out & E & Hp & Hl). exists out.
  pose proof (pack_unpack septets fill out Hs Hf E). destruct Hp. by split_and!.
Qed.
Lemma packSeptets_correct_witness : exists out, packSeptets [104; 101; 108; 108; 111] 1 = Ok out /\ unpackSeptets out 5 1 = Ok [104; 101; 108; 108; 111].
Proof.
  destruct (packSeptets_correct [104; 101; 108; 108; 111] 1) as (out & E & _ & _ & _ & Hu); [repeat constructor; done|lia|].
  exists out. split; [exact E|exact Hu].
Defined.

(** C35: GSM 7-bit text: under every pair of a locking and a single shift language
    (unknown ones fall back to the default tables), a text without the escape
    character that encodes gives septets, as many as [gsm7SeptetLenWithLanguage]
    counts, that decode to the text; a text that does not encode has no length. *)
Theorem gsm7_text_roundtrip lockingLang singleLang rs : Forall scalar rs -> 0x1b ∉ rs ->
  let text := string_of rs in
  match encodeGSM7WithLanguage text lockingLang singleLang with
  | Ok septets => Forall septet septets /\ gsm7SeptetLenWithLanguage text lockingLang singleLang = Some (len septets) /\
      decodeGSM7WithLanguage septets lockingLang singleLang = text
  | Err _ => gsm7SeptetLenWithLanguage text lockingLang singleLang = None
  | _ => False
  end.
Proof.
  intros Hrs Hesc text. unfold encodeGSM7WithLanguage, gsm7SeptetLenWithLanguage, decodeGSM7WithLanguage. subst text. rewrite runes_string_of by done.
  pose proof (septet_len_spec rs lockingLang singleLang [] 0) as Hl. assert (Hr : returns (encode_gsm7_loop rs lockingLang singleLang [])).
  { generalize (@nil Z). clear. induction rs as [|r rs IH]; intros out; [done|]. cbn [encode_gsm7_loop]. repeat (case_match; try done). }
  destruct (encode_gsm7_loop rs lockingLang singleLang []) as [b| | |] eqn:E; try done.
  apply encode_gsm7_loop_spec in E as (sp & -> & Hd & Hf); [|done]. cbn [app] in *. change (len (@nil Z)) with 0 in Hl. rewrite Hl, Hd. split_and!; [done|f_equal; lia|done].
Qed.
(** "a€Ş" under the Turkish tables. *)
Lemma gsm7_text_roundtrip_witness : exists septets, encodeGSM7WithLanguage (string_of [97; 0x20ac; 0x15e]) 1 1 = Ok septets /\
  decodeGSM7WithLanguage septets 1 1 = string_of [97; 0x20ac; 0x15e].
Proof.
  pose proof (gsm7_text_roundtrip 1 1 [97; 0x20ac; 0x15e] ltac:(by_decide) ltac:(by_decide)) as H. cbv zeta in H.
  destruct (encodeGSM7WithLanguage (string_of [97; 0x20ac; 0x15e]) 1 1) as [septets| | |] eqn:E; [|vm_compute in E; discriminate E..].
  exists septets. split; [reflexivity|apply H].
Defined.

(** The escape character itself is encoded as the code 0x1b, which the decoder reads
    as the start of an extension: U+001B "e" comes back as the euro sign. *)
Example escape_is_not_text :
  encodeGSM7 [0x1b; 101] = Ok [0x1b; 101] /\ decodeGSM7 [0x1b; 101] = string_of [0x20ac].
Proof. split; reflexivity. Qed.
