(* ===== verification/SmsUdh.v ===== *)
(** * Data coding schemes and user data headers (runtimehost/messaging: sms_pdu.go, messaging.go)

    The TP-DCS octet, the information elements of a TP-UD header as a receiver
    reads them, and the elements a sender writes (language shifts, application
    ports, concatenation) with their length and their options. *)
From S2P Require Import Prelude Errors SmsTables Gsm7.
#[local] Open Scope string_scope.
#[local] Open Scope list_scope.
#[local] Open Scope Z_scope.

(** ** Data coding *)
Record SMSDataCodingInfo := mkCoding {
  dc_Raw : Z;
  dc_Alphabet : string;
  dc_Compressed : bool;
  dc_AutoDelete : bool;
  dc_HasMessageClass : bool;
  dc_MessageClass : Z;
  dc_MessageWaiting : bool;
  dc_MessageWaitingActive : bool;
  dc_MessageWaitingDiscard : bool;
  dc_MessageWaitingType : string;
  dc_Reserved : bool
}.
Definition zeroCoding : SMSDataCodingInfo := mkCoding 0 "" false false false 0 false false false "" false.

Definition smsMessageWaitingType (dcs : Z) : string :=
  match Z.land dcs 0x03 with 0 => "voicemail" | 1 => "fax" | 2 => "email" | _ => "other" end.

Definition ParseSMSDataCodingScheme (dcs : Z) : SMSDataCodingInfo :=
  let group := Z.land dcs 0xf0 in
  let bit m := negb (Z.land dcs m =? 0) in
  if group <=? 0x70 then
    let low := Z.land dcs 0x0c in
    mkCoding dcs (if low =? 0x04 then "8bit" else if low =? 0x08 then "ucs2" else "gsm7") (bit 0x20) (bit 0x40)
      (bit 0x10) (if bit 0x10 then Z.land dcs 0x03 else 0) false false false "" (low =? 0x0c)
  else if (0x80 <=? group) && (group <=? 0xb0) then mkCoding dcs "gsm7" false false false 0 false false false "" true
  else if group =? 0xc0 then mkCoding dcs "gsm7" false false false 0 true (bit 0x08) true (smsMessageWaitingType dcs) false
  else if group =? 0xd0 then mkCoding dcs "gsm7" false false false 0 true (bit 0x08) false (smsMessageWaitingType dcs) false
  else if group =? 0xe0 then mkCoding dcs "ucs2" false false false 0 true (bit 0x08) false (smsMessageWaitingType dcs) false
  else if group =? 0xf0 then
    mkCoding dcs (if bit 0x04 then "8bit" else "gsm7") false false true (Z.land dcs 0x03) false false false "" false
  else mkCoding dcs "gsm7" false false false 0 false false false "" false.
Definition smsDCSAlphabet (dcs : Z) : string := dc_Alphabet (ParseSMSDataCodingScheme dcs).
Definition smsEncodingForDCS (dcs : Z) : string :=
  if bool_decide (smsDCSAlphabet dcs = "ucs2") then "ucs2" else if bool_decide (smsDCSAlphabet dcs = "8bit") then "utf8" else "gsm7".
Definition validateSMSSubmitDataCodingScheme (dcs : Z) (encoding : string) : result unit :=
  let info := ParseSMSDataCodingScheme dcs in
  if dc_Compressed info then Err (ErrText "sms compressed data coding scheme is unsupported") else
  let got := if bool_decide (encoding = "ucs2") then "ucs2" else if bool_decide (encoding = "utf8") then "8bit" else "gsm7" in
  if negb (bool_decide (dc_Alphabet info = got)) then Err (ErrText "sms data coding scheme expects other user data") else Ok tt.

(** ** What a receiver reads in a header *)
Record SMSConcatInfo := mkConcat { ci_IsConcat : bool; ci_Ref : Z; ci_RefBits : Z; ci_Total : Z; ci_Seq : Z }.
Record SMSUDHElement := mkElement { ue_Identifier : Z; ue_Data : bytes }.
Record SMSSpecialMessageIndication := mkIndication {
  mi_Raw : Z;
  mi_StoreMessage : bool;
  mi_ProfileID : Z;
  mi_BasicType : Z;
  mi_ExtendedType : Z;
  mi_MessageType : string;
  mi_Count : Z;
  mi_Active : bool;
  mi_ReservedType : bool
}.
Record SMSSMSCControlParameters := mkControl {
  sc_Raw : Z;
  sc_StatusReportTransactionCompleted : bool;
  sc_StatusReportPermanentError : bool;
  sc_StatusReportTemporaryErrorNoMoreAttempts : bool;
  sc_StatusReportTemporaryErrorMoreAttempts : bool;
  sc_CancelSRRForRemainingConcatParts : bool;
  sc_IncludeOriginalUDHInStatusReport : bool;
  sc_ReservedBits : Z
}.
Record SMSUDHSourceIndicator := mkSource { si_Value : Z; si_Description : string }.
Record SMSUserDataHeaderInfo := mkUDHInfo {
  uh_Raw : bytes;
  uh_Elements : list SMSUDHElement;
  uh_Concat : SMSConcatInfo;
  uh_HasPorts : bool;
  uh_DestinationPort : Z;
  uh_SourcePort : Z;
  uh_PortBits : Z;
  uh_SpecialMessageIndications : list SMSSpecialMessageIndication;
  uh_HasSMSCControl : bool;
  uh_SMSCControl : SMSSMSCControlParameters;
  uh_SourceIndicators : list SMSUDHSourceIndicator;
  uh_HasRFC822EmailHeader : bool;
  uh_RFC822EmailHeaderLength : Z;
  uh_HasSingleShift : bool;
  uh_SingleShiftLang : Z;
  uh_HasLockingShift : bool;
  uh_LockingShiftLang : Z
}.
Definition zeroConcat : SMSConcatInfo := mkConcat false 0 0 0 0.
Definition zeroControl : SMSSMSCControlParameters := mkControl 0 false false false false false false 0.
Definition udh_of (raw : bytes) : SMSUserDataHeaderInfo :=
  mkUDHInfo raw [] zeroConcat false 0 0 0 [] false zeroControl [] false 0 false 0 false 0.
Definition zeroUDHInfo : SMSUserDataHeaderInfo := udh_of [].

(** Assignments to the fields. *)
Definition uh_with_elements (h : SMSUserDataHeaderInfo) es := mkUDHInfo (uh_Raw h) es (uh_Concat h) (uh_HasPorts h) (uh_DestinationPort h) (uh_SourcePort h) (uh_PortBits h)
  (uh_SpecialMessageIndications h) (uh_HasSMSCControl h) (uh_SMSCControl h) (uh_SourceIndicators h) (uh_HasRFC822EmailHeader h) (uh_RFC822EmailHeaderLength h)
  (uh_HasSingleShift h) (uh_SingleShiftLang h) (uh_HasLockingShift h) (uh_LockingShiftLang h).
Definition uh_with_concat (h : SMSUserDataHeaderInfo) c := mkUDHInfo (uh_Raw h) (uh_Elements h) c (uh_HasPorts h) (uh_DestinationPort h) (uh_SourcePort h) (uh_PortBits h)
  (uh_SpecialMessageIndications h) (uh_HasSMSCControl h) (uh_SMSCControl h) (uh_SourceIndicators h) (uh_HasRFC822EmailHeader h) (uh_RFC822EmailHeaderLength h)
  (uh_HasSingleShift h) (uh_SingleShiftLang h) (uh_HasLockingShift h) (uh_LockingShiftLang h).
Definition uh_with_ports (h : SMSUserDataHeaderInfo) d s b := mkUDHInfo (uh_Raw h) (uh_Elements h) (uh_Concat h) true d s b
  (uh_SpecialMessageIndications h) (uh_HasSMSCControl h) (uh_SMSCControl h) (uh_SourceIndicators h) (uh_HasRFC822EmailHeader h) (uh_RFC822EmailHeaderLength h)
  (uh_HasSingleShift h) (uh_SingleShiftLang h) (uh_HasLockingShift h) (uh_LockingShiftLang h).
Definition uh_with_indications (h : SMSUserDataHeaderInfo) l := mkUDHInfo (uh_Raw h) (uh_Elements h) (uh_Concat h) (uh_HasPorts h) (uh_DestinationPort h) (uh_SourcePort h) (uh_PortBits h)
  l (uh_HasSMSCControl h) (uh_SMSCControl h) (uh_SourceIndicators h) (uh_HasRFC822EmailHeader h) (uh_RFC822EmailHeaderLength h)
  (uh_HasSingleShift h) (uh_SingleShiftLang h) (uh_HasLockingShift h) (uh_LockingShiftLang h).
Definition uh_with_control (h : SMSUserDataHeaderInfo) c := mkUDHInfo (uh_Raw h) (uh_Elements h) (uh_Concat h) (uh_HasPorts h) (uh_DestinationPort h) (uh_SourcePort h) (uh_PortBits h)
  (uh_SpecialMessageIndications h) true c (uh_SourceIndicators h) (uh_HasRFC822EmailHeader h) (uh_RFC822EmailHeaderLength h)
  (uh_HasSingleShift h) (uh_SingleShiftLang h) (uh_HasLockingShift h) (uh_LockingShiftLang h).
Definition uh_with_sources (h : SMSUserDataHeaderInfo) l := mkUDHInfo (uh_Raw h) (uh_Elements h) (uh_Concat h) (uh_HasPorts h) (uh_DestinationPort h) (uh_SourcePort h) (uh_PortBits h)
  (uh_SpecialMessageIndications h) (uh_HasSMSCControl h) (uh_SMSCControl h) l (uh_HasRFC822EmailHeader h) (uh_RFC822EmailHeaderLength h)
  (uh_HasSingleShift h) (uh_SingleShiftLang h) (uh_HasLockingShift h) (uh_LockingShiftLang h).
Definition uh_with_email (h : SMSUserDataHeaderInfo) n := mkUDHInfo (uh_Raw h) (uh_Elements h) (uh_Concat h) (uh_HasPorts h) (uh_DestinationPort h) (uh_SourcePort h) (uh_PortBits h)
  (uh_SpecialMessageIndications h) (uh_HasSMSCControl h) (uh_SMSCControl h) (uh_SourceIndicators h) true n
  (uh_HasSingleShift h) (uh_SingleShiftLang h) (uh_HasLockingShift h) (uh_LockingShiftLang h).
Definition uh_with_single (h : SMSUserDataHeaderInfo) l := mkUDHInfo (uh_Raw h) (uh_Elements h) (uh_Concat h) (uh_HasPorts h) (uh_DestinationPort h) (uh_SourcePort h) (uh_PortBits h)
  (uh_SpecialMessageIndications h) (uh_HasSMSCControl h) (uh_SMSCControl h) (uh_SourceIndicators h) (uh_HasRFC822EmailHeader h) (uh_RFC822EmailHeaderLength h)
  true l (uh_HasLockingShift h) (uh_LockingShiftLang h).
Definition uh_with_locking (h : SMSUserDataHeaderInfo) l := mkUDHInfo (uh_Raw h) (uh_Elements h) (uh_Concat h) (uh_HasPorts h) (uh_DestinationPort h) (uh_SourcePort h) (uh_PortBits h)
  (uh_SpecialMessageIndications h) (uh_HasSMSCControl h) (uh_SMSCControl h) (uh_SourceIndicators h) (uh_HasRFC822EmailHeader h) (uh_RFC822EmailHeaderLength h)
  (uh_HasSingleShift h) (uh_SingleShiftLang h) true l.

Definition smsSpecialMessageIndicationType (basic extended : Z) : string * bool :=
  if extended =? 0 then
    match basic with 0 => ("voicemail", false) | 1 => ("fax", false) | 2 => ("email", false) | _ => ("other", false) end
  else if (basic =? 3) && (extended =? 1) then ("video", false)
  else ("reserved", true).
Definition parseSMSSpecialMessageIndication (data : bytes) : result SMSSpecialMessageIndication :=
  let! raw := at_ data 0 in
  let! count := at_ data 1 in
  let basic := Z.land raw 0x03 in
  let extended := Z.land (Z.shiftr raw 2) 0x07 in
  let '(ty, reserved) := smsSpecialMessageIndicationType basic extended in
  Ok (mkIndication raw (negb (Z.land raw 0x80 =? 0)) (Z.land (Z.shiftr raw 5) 0x03 + 1) basic extended ty count (0 <? count) reserved).
Definition parseSMSSMSCControlParameters (raw : Z) : SMSSMSCControlParameters :=
  let bit m := negb (Z.land raw m =? 0) in
  mkControl raw (bit 0x01) (bit 0x02) (bit 0x04) (bit 0x08) (bit 0x40) (bit 0x80) (Z.land raw 0x30).
Definition smsUDHSourceIndicatorDescription (value : Z) : string :=
  match value with 1 => "original-sender" | 2 => "original-receiver" | 3 => "smsc" | _ => "reserved" end.

Definition smsUDHIEINationalLanguageSingleShift := 0x24.
Definition smsUDHIEINationalLanguageLockingShift := 0x25.

(** The switch over the identifier of the element [ie]. *)
Definition udh_element (info : SMSUserDataHeaderInfo) (iei : Z) (ie : bytes) : result SMSUserDataHeaderInfo :=
  if iei =? 0x00 then
    match ie with
    | [a; b; c] => Ok (if 1 <? b then uh_with_concat info (mkConcat true a 8 b c) else info)
    | _ => Ok info
    end
  else if iei =? 0x01 then
    if len ie =? 2 then let! i := parseSMSSpecialMessageIndication ie in Ok (uh_with_indications info (uh_SpecialMessageIndications info ++ [i])) else Ok info
  else if iei =? 0x04 then
    match ie with [a; b] => Ok (uh_with_ports info a b 8) | _ => Ok info end
  else if iei =? 0x05 then
    match ie with
    | [a; b; c; d] => Ok (uh_with_ports info (Z.lor (Z.shiftl a 8) b) (Z.lor (Z.shiftl c 8) d) 16)
    | _ => Ok info
    end
  else if iei =? 0x08 then
    match ie with
    | [a; b; c; d] => Ok (if 1 <? c then uh_with_concat info (mkConcat true (Z.lor (Z.shiftl a 8) b) 16 c d) else info)
    | _ => Ok info
    end
  else if iei =? 0x06 then
    match ie with [a] => Ok (uh_with_control info (parseSMSSMSCControlParameters a)) | _ => Ok info end
  else if iei =? 0x07 then
    match ie with [a] => Ok (uh_with_sources info (uh_SourceIndicators info ++ [mkSource a (smsUDHSourceIndicatorDescription a)])) | _ => Ok info end
  else if iei =? 0x20 then
    match ie with [a] => Ok (uh_with_email info a) | _ => Ok info end
  else if iei =? smsUDHIEINationalLanguageSingleShift then
    match ie with [a] => Ok (if smsNationalLanguageIdentifierKnown a then uh_with_single info a else info) | _ => Ok info end
  else if iei =? smsUDHIEINationalLanguageLockingShift then
    match ie with [a] => Ok (if smsNationalLanguageIdentifierKnown a then uh_with_locking info a else info) | _ => Ok info end
  else Ok info.

Fixpoint parse_udh_loop (fuel : nat) (udh : bytes) (i : Z) (info : SMSUserDataHeaderInfo) : result SMSUserDataHeaderInfo :=
  match fuel with
  | O => OutOfFuel
  | S fuel' =>
      if negb (i + 1 <? len udh) then Ok info else
      let! iei := at_ udh i in
      let! iedl := at_ udh (i + 1) in
      let i := i + 2 in
      if len udh <? i + iedl then Ok info else
      let! ie := slice udh i (i + iedl) in
      let info := uh_with_elements info (uh_Elements info ++ [mkElement iei ie]) in
      let! info := udh_element info iei ie in
      parse_udh_loop fuel' udh (i + iedl) info
  end.
Definition parseSMSUDHInfo (udh : bytes) : result SMSUserDataHeaderInfo :=
  if len udh <? 2 then Ok (udh_of udh) else parse_udh_loop (S (length udh)) udh 1 (udh_of udh).
Definition parseSMSConcatUDH (udh : bytes) : result SMSConcatInfo := let! info := parseSMSUDHInfo udh in Ok (uh_Concat info).

(** [udh, payload, headerSeptets, headerInfo] *)
Definition splitSMSUDH (data : bytes) (hasUDH : bool) : result (bytes * bytes * Z * SMSUserDataHeaderInfo) :=
  if negb hasUDH then Ok ([], data, 0, zeroUDHInfo) else
  if len data =? 0 then Err (ErrText "SMS UDH length missing") else
  let! first := at_ data 0 in
  let headerLen := first + 1 in
  if len data <? headerLen then Err (ErrText "SMS UDH truncated") else
  let! udh := slice data 0 headerLen in
  let! headerInfo := parseSMSUDHInfo udh in
  let headerSeptets := (headerLen * 8 + 6) / 7 in
  let! payload := slice_from data headerLen in
  Ok (udh, payload, headerSeptets, headerInfo).

(** ** What a sender writes *)
Definition smsConcatUDHElement (ref refBits total partNo : Z) : result bytes :=
  if total <=? 1 then Ok [] else
  if 255 <? total then Err (ErrText "sms concat total parts out of range") else
  if (partNo <=? 0) || (total <? partNo) then Err (ErrText "sms concat part number out of range") else
  if refBits =? 8 then
    if (ref <? 0) || (0xff <? ref) then Err (ErrText "sms 8-bit concat reference out of range")
    else Ok [0x00; 0x03; to_u8 ref; to_u8 total; to_u8 partNo]
  else if refBits =? 16 then
    if (ref <? 0) || (0xffff <? ref) then Err (ErrText "sms 16-bit concat reference out of range")
    else Ok [0x08; 0x04; to_u8 (Z.shiftr ref 8); to_u8 ref; to_u8 total; to_u8 partNo]
  else Err (ErrText "unsupported sms concat reference size").
Definition smsUDHFromElements (elements : list bytes) : bytes :=
  let total := len (concat elements) in
  if total =? 0 then [] else to_u8 total :: concat elements.
Definition concatUDHWithRef (ref refBits total partNo : Z) : result bytes :=
  let! elem := smsConcatUDHElement ref refBits total partNo in
  if len elem =? 0 then Ok [] else Ok (smsUDHFromElements [elem]).

Definition validateSMSNationalLanguageOptions (singleLang lockingLang : Z) : result unit :=
  if (singleLang <? 0) || (lockingLang <? 0) then Err (ErrText "sms national language identifier out of range") else
  if negb (singleLang =? 0) && negb (smsNationalLanguageIdentifierKnown singleLang) then Err (ErrText "unsupported sms national single shift language identifier") else
  if negb (lockingLang =? 0) && negb (smsNationalLanguageIdentifierKnown lockingLang) then Err (ErrText "unsupported sms national locking shift language identifier") else
  Ok tt.

(** [(portBits, hasPorts, error)] *)
Definition validateSMSApplicationPortOptions (destPort sourcePort portBits : Z) : result (Z * bool) :=
  let hasPorts := negb (destPort =? 0) || negb (sourcePort =? 0) || negb (portBits =? 0) in
  if negb hasPorts then Ok (0, false) else
  if (destPort <? 0) || (sourcePort <? 0) then Err (ErrText "sms application port out of range") else
  let! portBits :=
    (if portBits =? 0 then Ok (if (destPort <=? 0xff) && (sourcePort <=? 0xff) then 8 else 16)
     else if (portBits =? 8) || (portBits =? 16) then Ok portBits
     else Err (ErrText "unsupported sms application port size")) in
  let maxPort := if portBits =? 8 then 0xff else 0xffff in
  if (maxPort <? destPort) || (maxPort <? sourcePort) then Err (ErrText "sms application port out of range") else
  Ok (portBits, true).
Definition smsApplicationPortUDHElement (destPort sourcePort portBits : Z) : result bytes :=
  let! r := validateSMSApplicationPortOptions destPort sourcePort portBits in
  let '(portBits, hasPorts) := r in
  if negb hasPorts then Ok [] else
  if portBits =? 8 then Ok [0x04; 0x02; to_u8 destPort; to_u8 sourcePort]
  else Ok [0x05; 0x04; to_u8 (Z.shiftr destPort 8); to_u8 destPort; to_u8 (Z.shiftr sourcePort 8); to_u8 sourcePort].

Definition buildSMSSubmitUDH (hasPorts : bool) (destPort sourcePort portBits ref refBits total partNo singleLang lockingLang : Z) : result bytes :=
  let! _ := validateSMSNationalLanguageOptions singleLang lockingLang in
  let elements := if negb (singleLang =? 0) then [[smsUDHIEINationalLanguageSingleShift; 0x01; to_u8 singleLang]] else [] in
  let elements := if negb (lockingLang =? 0) then elements ++ [[smsUDHIEINationalLanguageLockingShift; 0x01; to_u8 lockingLang]] else elements in
  let! elements := (if hasPorts then let! elem := smsApplicationPortUDHElement destPort sourcePort portBits in Ok (elements ++ [elem]) else Ok elements) in
  let! elements := (if 1 <? total then let! elem := smsConcatUDHElement ref refBits total partNo in Ok (elements ++ [elem]) else Ok elements) in
  Ok (smsUDHFromElements elements).

Definition smsSubmitUDHLength (hasPorts : bool) (portBits : Z) (hasConcat : bool) (concatRefBits singleLang lockingLang : Z) : Z :=
  let bodyLen := if negb (singleLang =? 0) then 3 else 0 in
  let bodyLen := if negb (lockingLang =? 0) then bodyLen + 3 else bodyLen in
  let bodyLen := if hasPorts then if portBits =? 8 then bodyLen + 4 else bodyLen + 6 else bodyLen in
  let bodyLen := if hasConcat then if concatRefBits =? 16 then bodyLen + 6 else bodyLen + 5 else bodyLen in
  if bodyLen =? 0 then 0 else 1 + bodyLen.
Definition concatUDHLength (refBits : Z) : Z := if refBits =? 16 then 7 else 6.

Definition normalizeSMSConcatRefBits (ref refBits : Z) : Z :=
  if (refBits =? 8) || (refBits =? 16) then refBits else if refBits =? 0 then if 0xff <? ref then 16 else 8 else refBits.
Definition validateSMSConcatOptions (ref refBits : Z) : result Z :=
  if ref <? 0 then Err (ErrText "sms concat reference out of range") else
  let bits := normalizeSMSConcatRefBits ref refBits in
  if bits =? 8 then if 0xff <? ref then Err (ErrText "sms 8-bit concat reference out of range") else Ok bits
  else if bits =? 16 then if 0xffff <? ref then Err (ErrText "sms 16-bit concat reference out of range") else Ok bits
  else Err (ErrText "unsupported sms concat reference size").

(** ** Reading a list of elements *)
Definition enc_element (e : Z * bytes) : bytes := e.1 :: len e.2 :: e.2.
Fixpoint read_elements (info : SMSUserDataHeaderInfo) (es : list (Z * bytes)) : result SMSUserDataHeaderInfo :=
  match es with
  | [] => Ok info
  | (iei, ie) :: rest =>
      let! info := udh_element (uh_with_elements info (uh_Elements info ++ [mkElement iei ie])) iei ie in
      read_elements info rest
  end.
Lemma len_enc_element e : len (enc_element e) = 2 + len e.2.
Proof. unfold enc_element. len_lia. Qed.
Lemma parse_udh_loop_elements fuel pre es info :
  (length es < fuel)%nat -> parse_udh_loop fuel (pre ++ concat (enc_element <$> es)) (len pre) info = read_elements info es.
Proof.
  revert fuel pre info. induction es as [|[iei ie] es IH]; intros fuel pre info Hf; (destruct fuel as [|fuel]; [lia|]); cbn [parse_udh_loop read_elements].
  - cbn. rewrite app_nil_r. by replace (len pre + 1 <? len pre) with false by lia.
  - cbn [fmap list_fmap concat]. set (tl := concat (enc_element <$> es)). set (udh := pre ++ enc_element (iei, ie) ++ tl).
    pose proof (len_nonneg ie). pose proof (len_nonneg tl). pose proof (len_nonneg pre).
    assert (Hl : len udh = len pre + 2 + len ie + len tl) by (subst udh; rewrite !len_app, len_enc_element; cbn; lia).
    replace (len pre + 1 <? len udh) with true by lia. cbn [negb].
    assert (Ha0 : at_ (E := error) udh (len pre) = Ok iei) by (apply at_app_r; lia).
    assert (Ha1 : at_ (E := error) udh (len pre + 1) = Ok (len ie)).
    { unfold udh, enc_element. cbn [fst snd app]. rewrite (cons_middle iei), app_assoc. apply at_app_r. len_lia. }
    rewrite Ha0. cbn [bind]. rewrite Ha1. cbn [bind]. cbv zeta. replace (len udh <? len pre + 2 + len ie) with false by lia.
    rewrite (slice_eq udh (pre ++ [iei; len ie]) ie tl); [|unfold udh, enc_element; cbn; by rewrite <- app_assoc|len_lia|len_lia].
    cbn [bind]. destruct (udh_element _ iei ie) as [info'| | |]; try done. cbn [bind].
    replace udh with ((pre ++ enc_element (iei, ie)) ++ tl) by (unfold udh; by rewrite <- app_assoc).
    replace (len pre + 2 + len ie) with (len (pre ++ enc_element (iei, ie))) by (rewrite len_app, len_enc_element; cbn; lia).
    apply IH. cbn in Hf. lia.
Qed.
Lemma length_elements es : (length es <= length (concat (enc_element <$> es)))%nat.
Proof. induction es as [|[a b] es IH]; [done|]. cbn. rewrite length_app. lia. Qed.
Lemma parse_elements n es : es <> [] ->
  parseSMSUDHInfo (n :: concat (enc_element <$> es)) = read_elements (udh_of (n :: concat (enc_element <$> es))) es.
Proof.
  intros Hne. unfold parseSMSUDHInfo. destruct es as [|[a b] es]; [done|].
  replace (len (n :: concat (enc_element <$> (a, b) :: es)) <? 2) with false by (symmetry; cbn [fmap list_fmap concat]; rewrite len_cons, len_app, len_enc_element; cbn; len_lia).
  apply (parse_udh_loop_elements _ [n]). pose proof (length_elements ((a, b) :: es)). cbn [length] in *. lia.
Qed.

(** *** What a header says *)
(** The elements in the octets behind the length octet: an identifier, a length and as many octets, one behind the other.
    Fewer than two octets hold none; an element that runs over the end is not one, and nothing behind it is read. *)
Inductive elements_in : bytes -> list (Z * bytes) -> Prop :=
| elements_none body : len body < 2 -> elements_in body []
| elements_overrun iei n rest : len rest < n -> elements_in (iei :: n :: rest) []
| elements_one iei data rest es : elements_in rest es -> elements_in (enc_element (iei, data) ++ rest) ((iei, data) :: es).
(** The length that an element must have to be understood. *)
Definition udh_length (iei : Z) : option Z :=
  if iei =? 0x00 then Some 3 else if (iei =? 0x01) || (iei =? 0x04) then Some 2 else if (iei =? 0x05) || (iei =? 0x08) then Some 4
  else if (iei =? 0x06) || (iei =? 0x07) || (iei =? 0x20) || (iei =? 0x24) || (iei =? 0x25) then Some 1 else None.
Definition not_understood (e : Z * bytes) : Prop := udh_length e.1 <> Some (len e.2).
(** What one element says. *)
Definition concat_in (e : Z * bytes) : option SMSConcatInfo :=
  match e.2 with
  | [r; t; s] => if (e.1 =? 0x00) && (1 <? t) then Some (mkConcat true r 8 t s) else None
  | [h; l; t; s] => if (e.1 =? 0x08) && (1 <? t) then Some (mkConcat true (h * 256 + l) 16 t s) else None
  | _ => None
  end.
Definition ports_in (e : Z * bytes) : option (Z * Z * Z) :=
  match e.2 with
  | [d; s] => if e.1 =? 0x04 then Some (d, s, 8) else None
  | [dh; dl; sh; sl] => if e.1 =? 0x05 then Some (dh * 256 + dl, sh * 256 + sl, 16) else None
  | _ => None
  end.
Definition indication_in (e : Z * bytes) : option (Z * Z) := match e.2 with [raw; count] => if e.1 =? 0x01 then Some (raw, count) else None | _ => None end.
Definition octet_in (iei : Z) (e : Z * bytes) : option Z := match e.2 with [v] => if e.1 =? iei then Some v else None | _ => None end.
Definition language_in (iei : Z) (e : Z * bytes) : option Z :=
  match octet_in iei e with Some v => if smsNationalLanguageIdentifierKnown v then Some v else None | None => None end.
Definition present {A} (has : bool) (a : A) : option A := if has then Some a else None.
(** The info of a list of elements: the last concatenation, ports, control octet, e-mail length and language of each kind
    count; message indications and source indicators add up. *)
Record says (es : list (Z * bytes)) (h : SMSUserDataHeaderInfo) : Prop := {
  says_concat : uh_Concat h = default zeroConcat (last (omap concat_in es));
  says_ports : present (uh_HasPorts h) (uh_DestinationPort h, uh_SourcePort h, uh_PortBits h) = last (omap ports_in es);
  says_indications : (fun i => (mi_Raw i, mi_Count i)) <$> uh_SpecialMessageIndications h = omap indication_in es;
  says_control : present (uh_HasSMSCControl h) (sc_Raw (uh_SMSCControl h)) = last (omap (octet_in 0x06) es);
  says_sources : si_Value <$> uh_SourceIndicators h = omap (octet_in 0x07) es;
  says_email : present (uh_HasRFC822EmailHeader h) (uh_RFC822EmailHeaderLength h) = last (omap (octet_in 0x20) es);
  says_single : present (uh_HasSingleShift h) (uh_SingleShiftLang h) = last (omap (language_in 0x24) es);
  says_locking : present (uh_HasLockingShift h) (uh_LockingShiftLang h) = last (omap (language_in 0x25) es)
}.
Lemma not_understood_none e : not_understood e ->
  concat_in e = None /\ ports_in e = None /\ indication_in e = None /\ octet_in 0x06 e = None /\ octet_in 0x07 e = None /\ octet_in 0x20 e = None
  /\ language_in 0x24 e = None /\ language_in 0x25 e = None.
Proof.
  destruct e as [iei data]. unfold not_understood, udh_length, language_in, concat_in, ports_in, indication_in, octet_in. cbn [fst snd]. intros H.
  split_and!; repeat case_match; try done; exfalso; revert H; repeat (match goal with E : _ && _ = true |- _ => apply andb_prop in E as [E _] | E : _ && _ = false |- _ => clear E | E : (iei =? _) = true |- _ => apply Z.eqb_eq in E end);
    subst iei; vm_compute; intros H; by apply H.
Qed.
Lemma omap_skip {A} (f : Z * bytes -> option A) before e after : f e = None -> omap f (before ++ e :: after) = omap f (before ++ after).
Proof. intros H. rewrite !omap_app. cbn. by rewrite H. Qed.
(** An element that is not understood changes nothing. *)
Lemma says_skip before e after h : not_understood e -> says (before ++ e :: after) h -> says (before ++ after) h.
Proof. intros (H1 & H2 & H3 & H4 & H5 & H6 & H7 & H8)%not_understood_none []. by split; rewrite <- (omap_skip _ before e after). Qed.

(** *** The reading *)
Definition info_ok (raw : bytes) (h : SMSUserDataHeaderInfo) : Prop :=
  uh_Raw h = raw /\ (uh_SingleShiftLang h = 0 \/ smsNationalLanguageIdentifierKnown (uh_SingleShiftLang h) = true) /\
  (uh_LockingShiftLang h = 0 \/ smsNationalLanguageIdentifierKnown (uh_LockingShiftLang h) = true).
Definition listed (h : SMSUserDataHeaderInfo) : list (Z * bytes) := (fun e => (ue_Identifier e, ue_Data e)) <$> uh_Elements h.
Lemma omap_snoc {A B} (f : A -> option B) l x : omap f (l ++ [x]) = omap f l ++ match f x with Some y => [y] | None => [] end.
Proof. rewrite omap_app. cbn. by destruct (f x). Qed.
Lemma last_omap_snoc {A B} (f : A -> option B) l x : last (omap f (l ++ [x])) = match f x with Some y => Some y | None => last (omap f l) end.
Proof. rewrite omap_snoc. destruct (f x); [apply last_snoc|by rewrite app_nil_r]. Qed.
Lemma says_more es e info info' : says es info ->
  uh_Concat info' = default (uh_Concat info) (concat_in e) ->
  present (uh_HasPorts info') (uh_DestinationPort info', uh_SourcePort info', uh_PortBits info')
    = (if ports_in e is Some p then Some p else present (uh_HasPorts info) (uh_DestinationPort info, uh_SourcePort info, uh_PortBits info)) ->
  uh_SpecialMessageIndications info' = uh_SpecialMessageIndications info /\ indication_in e = None
    \/ (exists i, uh_SpecialMessageIndications info' = uh_SpecialMessageIndications info ++ [i] /\ indication_in e = Some (mi_Raw i, mi_Count i)) ->
  present (uh_HasSMSCControl info') (sc_Raw (uh_SMSCControl info'))
    = (if octet_in 0x06 e is Some v then Some v else present (uh_HasSMSCControl info) (sc_Raw (uh_SMSCControl info))) ->
  si_Value <$> uh_SourceIndicators info' = (si_Value <$> uh_SourceIndicators info) ++ (if octet_in 0x07 e is Some v then [v] else []) ->
  present (uh_HasRFC822EmailHeader info') (uh_RFC822EmailHeaderLength info')
    = (if octet_in 0x20 e is Some v then Some v else present (uh_HasRFC822EmailHeader info) (uh_RFC822EmailHeaderLength info)) ->
  present (uh_HasSingleShift info') (uh_SingleShiftLang info')
    = (if language_in 0x24 e is Some v then Some v else present (uh_HasSingleShift info) (uh_SingleShiftLang info)) ->
  present (uh_HasLockingShift info') (uh_LockingShiftLang info')
    = (if language_in 0x25 e is Some v then Some v else present (uh_HasLockingShift info) (uh_LockingShiftLang info)) ->
  says (es ++ [e]) info'.
Proof.
  intros [H1 H2 H3 H4 H5 H6 H7 H8] E1 E2 E3 E4 E5 E6 E7 E8. split; rewrite ?last_omap_snoc, ?omap_snoc.
  - rewrite E1. destruct (concat_in e); [done|exact H1].
  - by rewrite E2, H2.
  - destruct E3 as [[-> ->]|(i & -> & ->)]; [by rewrite app_nil_r|]. by rewrite fmap_app, H3.
  - by rewrite E4, H4.
  - by rewrite E5, H5.
  - by rewrite E6, H6.
  - by rewrite E7, H7.
  - by rewrite E8, H8.
Qed.
Lemma says_same es e info : says es info -> not_understood e -> says (es ++ [e]) info.
Proof.
  intros Hs (H1 & H2 & H3 & H4 & H5 & H6 & H7 & H8)%not_understood_none. apply (says_more es e info info Hs); rewrite ?H1, ?H2, ?H3, ?H4, ?H5, ?H6, ?H7, ?H8, ?app_nil_r; try reflexivity. by left.
Qed.
Lemma wrong_length iei ie n : udh_length iei = Some n -> len ie <> n -> not_understood (iei, ie).
Proof. unfold not_understood. cbn [fst snd]. intros ->. congruence. Qed.
Ltac said Hs := eapply says_more; [exact Hs|..]; cbn; rewrite ?app_nil_r; try reflexivity; try (by left).
Ltac wrong Hsame n := apply Hsame, (wrong_length _ _ n); [reflexivity|cbn; len_lia].
(** One element: read as it says, and ignored when it is not understood. *)
Lemma udh_element_says es info iei ie : bytes_ok ie -> says es info ->
  exists info', udh_element info iei ie = Ok info' /\ uh_Raw info' = uh_Raw info /\ uh_Elements info' = uh_Elements info /\ says (es ++ [(iei, ie)]) info'.
Proof.
  intros Hb Hs. assert (Hsame : not_understood (iei, ie) -> exists info', Ok info = @Ok error _ info' /\ uh_Raw info' = uh_Raw info /\ uh_Elements info' = uh_Elements info /\ says (es ++ [(iei, ie)]) info')
    by (intros Hno; exists info; split_and!; [done..|by apply says_same]).
  assert (Hmore : forall info', says (es ++ [(iei, ie)]) info' -> uh_Raw info' = uh_Raw info -> uh_Elements info' = uh_Elements info ->
    exists info'', Ok info' = @Ok error _ info'' /\ uh_Raw info'' = uh_Raw info /\ uh_Elements info'' = uh_Elements info /\ says (es ++ [(iei, ie)]) info'') by eauto.
  unfold udh_element, smsUDHIEINationalLanguageSingleShift, smsUDHIEINationalLanguageLockingShift.
  destruct (Z.eqb_spec iei 0x00) as [->|N0].
  { destruct ie as [|r [|t [|q [|? ?]]]]; try wrong Hsame 3. destruct (1 <? t) eqn:Ht; apply Hmore; try reflexivity; said Hs; by rewrite Ht. }
  destruct (Z.eqb_spec iei 0x01) as [->|N1].
  { destruct ie as [|r [|t [|? ?]]]; try (replace (len _ =? 2) with false by (symmetry; apply Z.eqb_neq; len_lia); wrong Hsame 2).
    change (len [r; t] =? 2) with true. cbv iota. unfold parseSMSSpecialMessageIndication. change (at_ [r; t] 0) with (@Ok error Z r). change (at_ [r; t] 1) with (@Ok error Z t). cbn [bind]. cbv zeta.
    destruct (smsSpecialMessageIndicationType _ _) as [ty res]. cbn [bind]. apply Hmore; try reflexivity. said Hs. right. by eexists. }
  destruct (Z.eqb_spec iei 0x04) as [->|N4]; [destruct ie as [|d [|q [|? ?]]]; try wrong Hsame 2; apply Hmore; try reflexivity; said Hs|].
  destruct (Z.eqb_spec iei 0x05) as [->|N5].
  { destruct ie as [|dh [|dl [|sh [|sl [|? ?]]]]]; try wrong Hsame 4. apply Hmore; try reflexivity. apply Forall_cons in Hb as [_ Hb]. apply Forall_cons in Hb as [Hdl Hb]. apply Forall_cons in Hb as [_ Hb]. apply Forall_cons in Hb as [Hsl _].
    rewrite !lor_shiftl_8 by done. said Hs. }
  destruct (Z.eqb_spec iei 0x08) as [->|N8].
  { destruct ie as [|h [|l [|t [|q [|? ?]]]]]; try wrong Hsame 4. apply Forall_cons in Hb as [_ Hb]. apply Forall_cons in Hb as [Hl _].
    rewrite !lor_shiftl_8 by done. destruct (1 <? t) eqn:Ht; apply Hmore; try reflexivity; said Hs; by rewrite Ht. }
  destruct (Z.eqb_spec iei 0x06) as [->|N6]; [destruct ie as [|v [|? ?]]; try wrong Hsame 1; apply Hmore; try reflexivity; said Hs|].
  destruct (Z.eqb_spec iei 0x07) as [->|N7]; [destruct ie as [|v [|? ?]]; try wrong Hsame 1; apply Hmore; try reflexivity; said Hs; by rewrite fmap_app|].
  destruct (Z.eqb_spec iei 0x20) as [->|N20]; [destruct ie as [|v [|? ?]]; try wrong Hsame 1; apply Hmore; try reflexivity; said Hs|].
  destruct (Z.eqb_spec iei 0x24) as [->|N24].
  { destruct ie as [|v [|? ?]]; try wrong Hsame 1. destruct (smsNationalLanguageIdentifierKnown v) eqn:Hv; apply Hmore; try reflexivity; said Hs; unfold language_in; cbn; by rewrite Hv. }
  destruct (Z.eqb_spec iei 0x25) as [->|N25].
  { destruct ie as [|v [|? ?]]; try wrong Hsame 1. destruct (smsNationalLanguageIdentifierKnown v) eqn:Hv; apply Hmore; try reflexivity; said Hs; unfold language_in; cbn; by rewrite Hv. }
  apply Hsame. unfold not_understood, udh_length. cbn [fst]. apply Z.eqb_neq in N0, N1, N4, N5, N8, N6, N7, N20, N24, N25. by rewrite N0, N1, N4, N5, N8, N6, N7, N20, N24, N25.
Qed.
Lemma udh_element_safe raw info iei ie : bytes_ok ie -> info_ok raw info -> exists info', udh_element info iei ie = Ok info' /\ info_ok raw info'.
Proof.
  intros Hb Hi. pose proof Hi as (H1 & H2 & H3). unfold udh_element.
  repeat case_match; eauto; try (eexists; split; [reflexivity|]; split_and!; cbn; auto; fail).
  - apply Z.eqb_eq in H0. destruct ie as [|a [|b [|? ?]]]; try (exfalso; len_lia).
    unfold parseSMSSpecialMessageIndication. cbn [at_ lookup bind]. change (at_ [a; b] 0) with (@Ok error Z a). change (at_ [a; b] 1) with (@Ok error Z b). cbn [bind]. cbv zeta.
    destruct (smsSpecialMessageIndicationType _ _) as [ty res]. cbn [bind]. eexists. split; [reflexivity|]. by split_and!.
Qed.
Lemma parse_udh_loop_says fuel udh i before info : bytes_ok udh -> 0 <= i <= len udh -> len udh - i < Z.of_nat fuel ->
  info_ok udh info -> listed info = before -> says before info ->
  exists info' es, parse_udh_loop fuel udh i info = Ok info' /\ info_ok udh info' /\ elements_in (drop (Z.to_nat i) udh) es /\ listed info' = before ++ es /\ says (before ++ es) info'.
Proof.
  intros Hb. revert i before info. induction fuel as [|fuel IH]; intros i before info Hi Hf Hinfo Hlist Hsays; cbn [parse_udh_loop]; [lia|].
  assert (Hend : elements_in (drop (Z.to_nat i) udh) [] -> exists info' es, Ok info = @Ok error _ info' /\ info_ok udh info' /\ elements_in (drop (Z.to_nat i) udh) es /\ listed info' = before ++ es /\ says (before ++ es) info')
    by (intros He; exists info, []; by rewrite app_nil_r).
  destruct (i + 1 <? len udh) eqn:H1; cbn [negb]; [|apply Hend, elements_none; unfold len in *; rewrite length_drop; lia].
  destruct (lookup_lt_is_Some_2 udh (Z.to_nat i)) as [a Ha]; [unfold len in *; lia|].
  destruct (lookup_lt_is_Some_2 udh (Z.to_nat (i + 1))) as [b Hl]; [unfold len in *; lia|].
  pose proof (bytes_ok_lookup _ _ _ Hb Hl) as Hu. unfold is_u8, in_range in Hu.
  assert (Hdrop : drop (Z.to_nat i) udh = a :: b :: drop (Z.to_nat (i + 2)) udh).
  { rewrite (drop_S _ _ _ Ha). f_equal. replace (S (Z.to_nat i)) with (Z.to_nat (i + 1)) by lia. rewrite (drop_S _ _ _ Hl). by replace (S (Z.to_nat (i + 1))) with (Z.to_nat (i + 2)) by lia. }
  rewrite (at_Ok udh i a Ha) by lia. cbn [bind]. rewrite (at_Ok udh (i + 1) b Hl) by lia. cbn [bind]. cbv zeta.
  destruct (len udh <? i + 2 + b) eqn:H2; [apply Hend; rewrite Hdrop; apply elements_overrun; unfold len in *; rewrite length_drop; lia|].
  rewrite slice_Ok by lia. cbn [bind]. set (ie := sub udh (i + 2) (i + 2 + b)). assert (Hie : bytes_ok ie) by by apply bytes_ok_sub.
  set (info0 := uh_with_elements info (uh_Elements info ++ [mkElement a ie])).
  destruct (udh_element_says before info0 a ie Hie) as (info' & E & _ & El & Hs); [by destruct Hsays|].
  destruct (udh_element_safe udh info0 a ie Hie Hinfo) as (info'' & E' & Hok). rewrite E in E'. injection E' as <-. rewrite E. cbn [bind].
  destruct (IH (i + 2 + b) (before ++ [(a, ie)]) info') as (h & es & Eh & Hh & Hes & Hl' & Hsay); [lia|lia|done| |done|].
  { unfold listed. rewrite El. cbn. rewrite fmap_app. cbn. by rewrite <- Hlist. }
  exists h, ((a, ie) :: es). rewrite <- app_assoc in Hl', Hsay. split_and!; try done. rewrite Hdrop.
  replace (a :: b :: drop (Z.to_nat (i + 2)) udh) with (enc_element (a, ie) ++ drop (Z.to_nat (i + 2 + b)) udh); [by apply elements_one|].
  unfold enc_element. cbn [fst snd app]. assert (Hlen : len ie = b) by (unfold ie; rewrite sub_len; lia). rewrite Hlen. do 2 f_equal.
  rewrite <- (sub_to_end udh (i + 2 + b)) by lia. rewrite <- (sub_to_end udh (i + 2)) by lia. unfold ie. apply sub_split; lia.
Qed.
Lemma says_nothing raw : says [] (udh_of raw).
Proof. by split. Qed.
Lemma parseSMSUDHInfo_says udh : bytes_ok udh ->
  exists info, parseSMSUDHInfo udh = Ok info /\ info_ok udh info /\ elements_in (drop 1 udh) (listed info) /\ says (listed info) info.
Proof.
  intros Hb. assert (Hinit : info_ok udh (udh_of udh)) by (split_and!; [done|by left|by left]).
  unfold parseSMSUDHInfo. destruct (len udh <? 2) eqn:H.
  - exists (udh_of udh). split_and!; [done|apply Hinit..| |apply says_nothing]. apply elements_none. unfold len in *. rewrite length_drop. lia.
  - destruct (parse_udh_loop_says (S (length udh)) udh 1 [] (udh_of udh)) as (info & es & E & Hok & Hes & Hl & Hs); [done|unfold len in *; lia|unfold len; lia|done|done|apply says_nothing|].
    exists info. cbn [app] in *. rewrite Hl. done.
Qed.
Lemma parseSMSUDHInfo_ok udh : bytes_ok udh -> exists info, parseSMSUDHInfo udh = Ok info /\ info_ok udh info.
Proof. intros Hb. destruct (parseSMSUDHInfo_says udh Hb) as (info & H1 & H2 & _). eauto. Qed.

(** A language, a concatenation of the wrong length, and an element that runs over the end. *)
Definition sample_udh : bytes := [0x0a; 0x24; 0x01; 0x01; 0x00; 0x02; 0x07; 0x02; 0x25; 0x05; 0x01].

(** *** Round trip *)
Lemma port_options_facts d s b pb hp : validateSMSApplicationPortOptions d s b = Ok (pb, hp) ->
  hp = false \/ (hp = true /\ 0 <= d /\ 0 <= s /\ ((pb = 8 /\ d <= 0xff /\ s <= 0xff) \/ (pb = 16 /\ d <= 0xffff /\ s <= 0xffff))).
Proof.
  unfold validateSMSApplicationPortOptions. destruct (negb _ || negb _ || negb _) eqn:Hp; cbn [negb]; [|intros [= <- <-]; by left].
  destruct ((d <? 0) || (s <? 0)) eqn:Hneg; [done|].
  set (m := if b =? 0 then _ else _). intros H. right.
  assert (Hm : exists q, m = Ok q /\ (q = 8 \/ q = 16)).
  { destruct m as [q| | |] eqn:Hq; try done. exists q. split; [done|]. subst m.
    destruct (b =? 0) eqn:?; [injection Hq as <-; destruct (_ && _); auto|].
    destruct ((b =? 8) || (b =? 16)) eqn:?; [injection Hq as <-; lia|done]. }
  destruct Hm as (q & Hq & Hq'). rewrite Hq in H. cbn [bind] in H. cbv zeta in H.
  destruct (((if q =? 8 then 0xff else 0xffff) <? d) || ((if q =? 8 then 0xff else 0xffff) <? s)) eqn:Hr; [done|].
  injection H as -> <-. destruct Hq' as [-> | ->]; [change (8 =? 8) with true in Hr|change (16 =? 8) with false in Hr]; cbn iota in Hr; lia.
Qed.
Lemma concat_element_facts ref bits total part e : 1 < total -> smsConcatUDHElement ref bits total part = Ok e ->
  0 < part <= total /\ total <= 255 /\
  ((bits = 8 /\ 0 <= ref <= 0xff /\ e = enc_element (0x00, [ref; total; part])) \/
   (bits = 16 /\ 0 <= ref <= 0xffff /\ e = enc_element (0x08, [Z.shiftr ref 8; ref mod 256; total; part]))).
Proof.
  intros Ht. unfold smsConcatUDHElement. replace (total <=? 1) with false by lia.
  destruct (255 <? total) eqn:?; [done|]. destruct ((part <=? 0) || (total <? part)) eqn:?; [done|].
  assert (Hs : forall x, 0 <= x < 256 -> to_u8 x = x) by (intros x Hx; by apply Z.mod_small).
  destruct (bits =? 8) eqn:?.
  - destruct ((ref <? 0) || (0xff <? ref)) eqn:?; [done|]. intros [= <-]. split_and!; [lia|lia|lia|]. left. split_and!; [lia|lia|lia|].
    unfold enc_element. cbn [fst snd]. rewrite !Hs by lia. done.
  - destruct (bits =? 16) eqn:?; [|done].
    destruct ((ref <? 0) || (0xffff <? ref)) eqn:?; [done|]. intros [= <-]. split_and!; [lia|lia|lia|]. right. split_and!; [lia|lia|lia|].
    unfold enc_element. cbn [fst snd]. rewrite (Hs total), (Hs part), (Hs (Z.shiftr ref 8)); [done| |lia|lia].
    rewrite Z.shiftr_div_pow2 by lia. change (2 ^ 8) with 256. split; [apply Z.div_pos; lia|apply Z.div_lt_upper_bound; lia].
Qed.

(** A 16-bit value read back from its two octets. *)
Lemma two_octets v : 0 <= v <= 0xffff -> Z.lor (Z.shiftl (Z.shiftr v 8) 8) (v mod 256) = v.
Proof.
  intros Hv. apply Z.bits_inj'. intros n Hn. rewrite Z.lor_spec. change 256 with (2 ^ 8).
  destruct (decide (n < 8)).
  - rewrite Z.shiftl_spec_low, Z.mod_pow2_bits_low by lia. done.
  - rewrite Z.shiftl_spec by lia. rewrite Z.shiftr_spec by lia. rewrite Z.mod_pow2_bits_high, orb_false_r by lia. f_equal. lia.
Qed.

Lemma port_element_facts d s b pb e : validateSMSApplicationPortOptions d s b = Ok (pb, true) -> smsApplicationPortUDHElement d s pb = Ok e ->
  (pb = 8 /\ 0 <= d <= 0xff /\ 0 <= s <= 0xff /\ e = enc_element (0x04, [d; s])) \/
  (pb = 16 /\ 0 <= d <= 0xffff /\ 0 <= s <= 0xffff /\ e = enc_element (0x05, [Z.shiftr d 8; d mod 256; Z.shiftr s 8; s mod 256])).
Proof.
  intros Hv%port_options_facts. destruct Hv as [?|(_ & Hd & Hs & Hp)]; [done|]. unfold smsApplicationPortUDHElement.
  destruct (validateSMSApplicationPortOptions d s pb) as [[q hp]| | |] eqn:Hq; try done. cbn [bind].
  assert (Hqq : q = pb /\ hp = true).
  { revert Hq. unfold validateSMSApplicationPortOptions. destruct (negb _ || negb _ || negb _) eqn:?; cbn [negb]; [|lia].
    destruct ((d <? 0) || (s <? 0)); [done|]. replace (pb =? 0) with false by lia. replace ((pb =? 8) || (pb =? 16)) with true by lia. cbn [bind]. cbv zeta.
    match goal with |- context [if ?c then Err _ else _] => destruct c; [done|] end. by intros [= <- <-]. }
  destruct Hqq as [-> ->]. cbn [negb].
  assert (Hsm : forall x, 0 <= x < 256 -> to_u8 x = x) by (intros x Hx; by apply Z.mod_small).
  assert (Hhi : forall x, 0 <= x <= 0xffff -> to_u8 (Z.shiftr x 8) = Z.shiftr x 8).
  { intros x Hx. apply Hsm. rewrite Z.shiftr_div_pow2 by lia. change (2 ^ 8) with 256. split; [apply Z.div_pos; lia|apply Z.div_lt_upper_bound; lia]. }
  destruct Hp as [(-> & ? & ?)|(-> & ? & ?)]; cbn.
  - intros [= <-]. left. rewrite !Hsm by lia. split_and!; auto; lia.
  - intros [= <-]. right. rewrite !Hhi by lia. split_and!; auto; lia.
Qed.

(** The elements a sender gives, as (identifier, data). *)
Definition submit_elements (single locking : Z) (ports conc : list (Z * bytes)) : list (Z * bytes) :=
  (if single =? 0 then [] else [(0x24, [single])]) ++ (if locking =? 0 then [] else [(0x25, [locking])]) ++ ports ++ conc.
Definition port_elements (hasPorts : bool) (d s bits : Z) : list (Z * bytes) :=
  if negb hasPorts then [] else if bits =? 8 then [(0x04, [d; s])] else [(0x05, [Z.shiftr d 8; d mod 256; Z.shiftr s 8; s mod 256])].
Definition concat_elements (ref bits total part : Z) : list (Z * bytes) :=
  if total <=? 1 then [] else if bits =? 8 then [(0x00, [ref; total; part])] else [(0x08, [Z.shiftr ref 8; ref mod 256; total; part])].

Lemma known_language_range l : smsNationalLanguageIdentifierKnown l = true -> 0 < l < 256.
Proof. unfold smsNationalLanguageIdentifierKnown, SMSNationalLanguageTurkish, SMSNationalLanguageUrdu. lia. Qed.
Lemma submit_udh_elements hp d s b pb ref bits total part single locking udh :
  validateSMSApplicationPortOptions d s b = Ok (pb, hp) ->
  buildSMSSubmitUDH hp d s pb ref bits total part single locking = Ok udh ->
  (single = 0 \/ smsNationalLanguageIdentifierKnown single = true) /\ (locking = 0 \/ smsNationalLanguageIdentifierKnown locking = true) /\
  (1 < total -> 0 < part <= total /\ total <= 255 /\ (bits = 8 /\ 0 <= ref <= 0xff \/ bits = 16 /\ 0 <= ref <= 0xffff)) /\
  udh = smsUDHFromElements (enc_element <$> submit_elements single locking (port_elements hp d s pb) (concat_elements ref bits total part)).
Proof.
  intros Hv. unfold buildSMSSubmitUDH, validateSMSNationalLanguageOptions.
  destruct ((single <? 0) || (locking <? 0)) eqn:Hneg; [done|].
  destruct (negb (single =? 0) && negb (smsNationalLanguageIdentifierKnown single)) eqn:Hsk; [done|].
  destruct (negb (locking =? 0) && negb (smsNationalLanguageIdentifierKnown locking)) eqn:Hlk; [done|]. cbn [bind]. cbv zeta.
  assert (Hs1 : single = 0 \/ smsNationalLanguageIdentifierKnown single = true).
  { destruct (single =? 0) eqn:E; [left; lia|right]. by destruct (smsNationalLanguageIdentifierKnown single). }
  assert (Hl1 : locking = 0 \/ smsNationalLanguageIdentifierKnown locking = true).
  { destruct (locking =? 0) eqn:E; [left; lia|right]. by destruct (smsNationalLanguageIdentifierKnown locking). }
  assert (Hu8 : forall l, l = 0 \/ smsNationalLanguageIdentifierKnown l = true -> to_u8 l = l).
  { intros l Hl. apply Z.mod_small. destruct Hl as [-> | Hl%known_language_range]; lia. }
  rewrite (Hu8 single Hs1), (Hu8 locking Hl1).
  set (langs := if negb (locking =? 0) then _ else _).
  assert (Hlangs : langs = enc_element <$> ((if single =? 0 then [] else [(0x24, [single])]) ++ (if locking =? 0 then [] else [(0x25, [locking])]))).
  { subst langs. by destruct (single =? 0), (locking =? 0). }
  clearbody langs. intros H.
  apply bind_ok in H as (mid & Hmid & H). apply bind_ok in H as (all & Hall & H). injection H as <-.
  assert (Hm : mid = langs ++ (enc_element <$> port_elements hp d s pb)).
  { destruct hp; [|injection Hmid as <-; by rewrite app_nil_r].
    apply bind_ok in Hmid as (e & He & Hm). injection Hm as <-.
    unfold port_elements. destruct (port_element_facts _ _ _ _ _ Hv He) as [(-> & _ & _ & ->)|(-> & _ & _ & ->)]; done. }
  assert (Ha : (1 < total -> 0 < part <= total /\ total <= 255 /\ (bits = 8 /\ 0 <= ref <= 0xff \/ bits = 16 /\ 0 <= ref <= 0xffff)) /\
    all = mid ++ (enc_element <$> concat_elements ref bits total part)).
  { unfold concat_elements. destruct (1 <? total) eqn:Ht.
    - apply bind_ok in Hall as (e & He & Hm'). injection Hm' as <-. replace (total <=? 1) with false by lia.
      destruct (concat_element_facts ref bits total part e) as (? & ? & [(-> & ? & ->)|(-> & ? & ->)]); [lia|done| |]; (split; [intros _; split_and!; auto; lia|done]).
    - injection Hall as <-. replace (total <=? 1) with true by lia. rewrite app_nil_r. split; [lia|done]. }
  destruct Ha as [Hc ->]. split_and!; auto. rewrite Hm, Hlangs. unfold submit_elements. by rewrite !fmap_app, <- !app_assoc.
Qed.
Lemma from_elements es : len (concat (enc_element <$> es)) < 256 ->
  es = [] /\ smsUDHFromElements (enc_element <$> es) = [] \/
  es <> [] /\ smsUDHFromElements (enc_element <$> es) = len (concat (enc_element <$> es)) :: concat (enc_element <$> es).
Proof.
  intros Hl. pose proof (length_elements es) as Hn. unfold smsUDHFromElements. cbv zeta. destruct es as [|e es]; [by left|right]. split; [done|].
  replace (len (concat (enc_element <$> e :: es)) =? 0) with false by (symmetry; unfold len; cbn [length] in *; lia).
  f_equal. apply Z.mod_small. unfold len in *. lia.
Qed.
Lemma read_submit_elements raw hp d s b pb ref bits total part single locking :
  validateSMSApplicationPortOptions d s b = Ok (pb, hp) ->
  (single = 0 \/ smsNationalLanguageIdentifierKnown single = true) -> (locking = 0 \/ smsNationalLanguageIdentifierKnown locking = true) ->
  (1 < total -> 0 < part <= total /\ total <= 255 /\ (bits = 8 /\ 0 <= ref <= 0xff \/ bits = 16 /\ 0 <= ref <= 0xffff)) ->
  let es := submit_elements single locking (port_elements hp d s pb) (concat_elements ref bits total part) in
  read_elements (udh_of raw) es =
    Ok (mkUDHInfo raw ((fun e => mkElement e.1 e.2) <$> es) (if 1 <? total then mkConcat true ref bits total part else zeroConcat)
          hp (if hp then d else 0) (if hp then s else 0) (if hp then pb else 0) [] false zeroControl [] false 0
          (negb (single =? 0)) single (negb (locking =? 0)) locking).
Proof.
  intros Hv Hsingle Hlocking Hc. cbv zeta. unfold submit_elements, port_elements, concat_elements.
  assert (Hs0 : (single =? 0) = true /\ single = 0 \/ (single =? 0) = false /\ smsNationalLanguageIdentifierKnown single = true).
  { destruct Hsingle as [-> | H]; [by left|right]. split; [|done]. apply known_language_range in H. lia. }
  assert (Hl0 : (locking =? 0) = true /\ locking = 0 \/ (locking =? 0) = false /\ smsNationalLanguageIdentifierKnown locking = true).
  { destruct Hlocking as [-> | H]; [by left|right]. split; [|done]. apply known_language_range in H. lia. }
  assert (Hc0 : (total <=? 1) = true /\ (1 <? total) = false \/ (total <=? 1) = false /\ (1 <? total) = true /\
    (bits = 8 \/ bits = 16 /\ Z.lor (Z.shiftl (Z.shiftr ref 8) 8) (ref mod 256) = ref)).
  { destruct (1 <? total) eqn:E; [right|left; split; [lia|done]]. split_and!; [lia|done|].
    destruct Hc as (_ & _ & [[-> _]|[-> ?]]); [lia|by left|right]. split; [done|by apply two_octets]. }
  assert (Hp0 : hp = false \/ hp = true /\ (pb = 8 \/ pb = 16 /\ Z.lor (Z.shiftl (Z.shiftr d 8) 8) (d mod 256) = d /\ Z.lor (Z.shiftl (Z.shiftr s 8) 8) (s mod 256) = s)).
  { apply port_options_facts in Hv as [-> |(-> & ? & ? & [(-> & _)|(-> & ? & ?)])]; [by left| |]; right; (split; [done|]); [by left|right].
    split_and!; [done|by apply two_octets; lia..]. }
  clear Hv Hsingle Hlocking Hc.
  destruct Hs0 as [[Hs0 Hs1]|[Hs0 Hs1]]; destruct Hl0 as [[Hl0 Hl1]|[Hl0 Hl1]]; destruct Hp0 as [-> |[-> [-> |(-> & Hd & Hs)]]];
    destruct Hc0 as [[Hc0 Hc1]|(Hc0 & Hc1 & [-> |[-> Hr]])]; subst; rewrite ?Hs0, ?Hl0, ?Hc0, ?Hc1;
    cbn -[Z.lor Z.shiftl Z.shiftr Z.modulo smsNationalLanguageIdentifierKnown Z.ltb]; rewrite ?Hs1, ?Hl1, ?Hc1;
    cbn -[Z.lor Z.shiftl Z.shiftr Z.modulo smsNationalLanguageIdentifierKnown Z.ltb]; rewrite ?Hs1, ?Hl1, ?Hc1;
    cbn -[Z.lor Z.shiftl Z.shiftr Z.modulo smsNationalLanguageIdentifierKnown Z.ltb]; rewrite ?Hr, ?Hd, ?Hs; reflexivity.
Qed.

Lemma submit_udh_info hp d s b pb ref bits total part single locking udh :
  validateSMSApplicationPortOptions d s b = Ok (pb, hp) ->
  buildSMSSubmitUDH hp d s pb ref bits total part single locking = Ok udh ->
  exists elements,
    parseSMSUDHInfo udh =
      Ok (mkUDHInfo udh elements (if 1 <? total then mkConcat true ref bits total part else zeroConcat)
            hp (if hp then d else 0) (if hp then s else 0) (if hp then pb else 0) [] false zeroControl [] false 0
            (negb (single =? 0)) single (negb (locking =? 0)) locking) /\
    len udh = smsSubmitUDHLength hp pb (1 <? total) bits single locking.
Proof.
  intros Hv Hb. destruct (submit_udh_elements _ _ _ _ _ _ _ _ _ _ _ _ Hv Hb) as (Hs & Hl & Hc & ->).
  pose proof (read_submit_elements) as Hr. cbv zeta in Hr.
  set (es := submit_elements single locking (port_elements hp d s pb) (concat_elements ref bits total part)) in *.
  assert (Hp : hp = true -> pb = 8 \/ pb = 16).
  { intros E. apply port_options_facts in Hv as [|(_ & _ & _ & [[-> _]|[-> _]])]; [congruence|auto|auto]. }
  assert (Hlen : len (concat (enc_element <$> es)) = (if single =? 0 then 0 else 3) + (if locking =? 0 then 0 else 3) +
     (if hp then if pb =? 8 then 4 else 6 else 0) + (if 1 <? total then if bits =? 16 then 6 else 5 else 0)).
  { subst es. unfold submit_elements, port_elements, concat_elements.
    rewrite !fmap_app, !concat_app, !len_app. destruct (total <=? 1) eqn:Ht.
    - replace (1 <? total) with false by lia. destruct (single =? 0), (locking =? 0), hp, (pb =? 8); reflexivity.
    - replace (1 <? total) with true by lia. destruct Hc as (_ & _ & [[-> _]|[-> _]]); [lia| |]; cbn [Z.eqb Pos.eqb];
        destruct (single =? 0), (locking =? 0), hp, (pb =? 8); reflexivity. }
  exists ((fun e => mkElement e.1 e.2) <$> es).
  assert (Hlt : len (concat (enc_element <$> es)) < 256) by (rewrite Hlen; repeat case_match; lia).
  destruct (from_elements es Hlt) as [[He ->]|[He ->]].
  - split.
    + specialize (Hr [] _ _ _ _ _ _ _ _ _ _ _ Hv Hs Hl Hc). unfold parseSMSUDHInfo. change (len [] <? 2) with true. cbn iota. fold es in Hr.
      rewrite He in Hr |- *. exact (eq_sym (eq_sym Hr)).
    + rewrite He in Hlen. change (len (concat (enc_element <$> []))) with 0 in Hlen. change (len []) with 0. unfold smsSubmitUDHLength. cbv zeta.
      destruct (single =? 0), (locking =? 0), hp, (pb =? 8), (1 <? total), (bits =? 16); first [reflexivity | discriminate Hlen].
  - split.
    + rewrite parse_elements by done. apply Hr with (b := b); done.
    + rewrite len_cons, Hlen. unfold smsSubmitUDHLength. cbv zeta.
      assert (Hne : len (concat (enc_element <$> es)) <> 0).
      { pose proof (length_elements es). destruct es; [done|]. unfold len. cbn [length] in *. lia. }
      rewrite Hlen in Hne. destruct (single =? 0), (locking =? 0), hp, (pb =? 8), (1 <? total), (bits =? 16);
        first [reflexivity | by destruct Hne].
Qed.
(** Its first octet counts the others. *)
Lemma submit_udh_wire hp d s b pb ref bits total part single locking udh :
  validateSMSApplicationPortOptions d s b = Ok (pb, hp) ->
  buildSMSSubmitUDH hp d s pb ref bits total part single locking = Ok udh ->
  bytes_ok udh /\ len udh <= 19 /\ (0 < len udh -> at_ (E := error) udh 0 = Ok (len udh - 1)).
Proof.
  intros Hv Hb. pose proof (submit_udh_info _ _ _ _ _ _ _ _ _ _ _ _ Hv Hb) as (es' & _ & Hl).
  assert (Hle : len udh <= 19) by (rewrite Hl; unfold smsSubmitUDHLength; cbv zeta; repeat case_match; lia).
  destruct (submit_udh_elements _ _ _ _ _ _ _ _ _ _ _ _ Hv Hb) as (Hs & Hlk & Hc & E). revert E.
  set (es := submit_elements _ _ _ _). intros ->. unfold smsUDHFromElements in *. cbv zeta in *.
  destruct (len (concat (enc_element <$> es)) =? 0) eqn:E0; [split_and!; [constructor|done|intros H; exfalso; revert H; by apply Z.lt_irrefl]|].
  rewrite len_cons in Hle |- *. pose proof (len_nonneg (concat (enc_element <$> es))).
  assert (Hu : to_u8 (len (concat (enc_element <$> es))) = len (concat (enc_element <$> es))) by (apply Z.mod_small; lia).
  split_and!; [|done|intros _; rewrite Hu; replace (1 + len (concat (enc_element <$> es)) - 1) with (len (concat (enc_element <$> es))) by lia; done].
  apply bytes_ok_cons_2; [apply to_u8_range|]. assert (He : Forall (fun e : Z * bytes => is_u8 e.1 /\ bytes_ok e.2 /\ len e.2 < 256) es).
  { subst es. unfold submit_elements, port_elements, concat_elements.
    assert (Hhi : forall x, 0 <= x <= 0xffff -> is_u8 (Z.shiftr x 8)).
    { intros x Hx. rewrite Z.shiftr_div_pow2 by lia. change (2 ^ 8) with 256. split; [apply Z.div_pos; lia|apply Z.div_lt_upper_bound; lia]. }
    assert (Hlo : forall x, is_u8 (x mod 256)) by (intros x; apply Z.mod_pos_bound; lia).
    assert (Hsm : forall x, 0 <= x <= 0xff -> is_u8 x) by (intros x Hx; unfold in_range; lia).
    assert (Hlang : forall x, x = 0 \/ smsNationalLanguageIdentifierKnown x = true -> is_u8 x).
    { intros x [-> | Hx%known_language_range]; unfold in_range; lia. }
    apply port_options_facts in Hv.
    assert (Hone : forall (a : Z) (e : bytes), is_u8 a -> bytes_ok e -> len e < 256 -> Forall (fun e : Z * bytes => is_u8 e.1 /\ bytes_ok e.2 /\ len e.2 < 256) [(a, e)]).
    { intros a e ? ? ?. apply Forall_singleton. by split_and!. }
    repeat apply Forall_app_2.
    - destruct (single =? 0); [constructor|]. apply Hone; [by_decide| |done]. apply bytes_ok_cons_2; [by apply Hlang|constructor].
    - destruct (locking =? 0); [constructor|]. apply Hone; [by_decide| |done]. apply bytes_ok_cons_2; [by apply Hlang|constructor].
    - destruct hp; [|constructor]. destruct Hv as [|(_ & ? & ? & [(-> & ? & ?)|(-> & ? & ?)])]; [done| |]; cbn; (apply Hone; [by_decide| |done]);
        repeat (apply bytes_ok_cons_2; [first [apply Hlo | apply Hhi; lia | apply Hsm; lia]|]); constructor.
    - destruct (total <=? 1) eqn:?; [constructor|]. destruct Hc as (? & ? & [(-> & ?)|(-> & ?)]); [lia| |]; cbn; (apply Hone; [by_decide| |done]);
        repeat (apply bytes_ok_cons_2; [first [apply Hlo | apply Hhi; lia | apply Hsm; lia]|]); constructor. }
  clear -He. induction He as [|[a e] es2 (Ha & He & Hle') _ IH]; [constructor|]. cbn [fmap list_fmap concat]. apply bytes_ok_app_2; [|exact IH].
  unfold enc_element. cbn [fst snd] in *. apply bytes_ok_cons_2; [done|]. apply bytes_ok_cons_2; [|done]. pose proof (len_nonneg e). unfold in_range. lia.
Qed.

(** The header a sender builds, from options the checks accept, reads back as
    those options: the concatenation reference, size and numbers, the two ports
    and their size, the two languages, nothing else; and it has the length the
    sender reserved for it. *)
Theorem submit_udh_roundtrip hp d s b pb ref bits total part single locking udh :
  validateSMSApplicationPortOptions d s b = Ok (pb, hp) ->
  buildSMSSubmitUDH hp d s pb ref bits total part single locking = Ok udh ->
  exists elements,
    parseSMSUDHInfo udh =
      Ok (mkUDHInfo udh elements (if 1 <? total then mkConcat true ref bits total part else zeroConcat)
            hp (if hp then d else 0) (if hp then s else 0) (if hp then pb else 0) [] false zeroControl [] false 0
            (negb (single =? 0)) single (negb (locking =? 0)) locking) /\
    len udh = smsSubmitUDHLength hp pb (1 <? total) bits single locking.
Proof. apply submit_udh_info. Qed.
Lemma submit_udh_roundtrip_witness :
  exists elements,
    parseSMSUDHInfo [0x0f; 0x24; 0x01; 0x01; 0x05; 0x04; 0x0b; 0x84; 0x23; 0xf0; 0x08; 0x04; 0x01; 0x02; 0x03; 0x02] =
      Ok (mkUDHInfo [0x0f; 0x24; 0x01; 0x01; 0x05; 0x04; 0x0b; 0x84; 0x23; 0xf0; 0x08; 0x04; 0x01; 0x02; 0x03; 0x02] elements
            (mkConcat true 0x102 16 3 2) true 2948 9200 16 [] false zeroControl [] false 0 true 1 false 0) /\
    len [0x0f; 0x24; 0x01; 0x01; 0x05; 0x04; 0x0b; 0x84; 0x23; 0xf0; 0x08; 0x04; 0x01; 0x02; 0x03; 0x02] = smsSubmitUDHLength true 16 true 16 1 0.
Proof.
  apply (submit_udh_roundtrip true 2948 9200 0 16 0x102 16 3 2 1 0 [0x0f; 0x24; 0x01; 0x01; 0x05; 0x04; 0x0b; 0x84; 0x23; 0xf0; 0x08; 0x04; 0x01; 0x02; 0x03; 0x02]); reflexivity.
Defined.
