(* ===== verification/SmsText.v ===== *)
(** * User data (runtimehost/messaging/sms_pdu.go)

    The text of a message in its three encodings (GSM 7-bit, UCS-2, octets)
    behind an optional header, as a sender writes it and a receiver reads it. *)
From S2P Require Import Prelude Errors Utf8 SmsTables Gsm7 SmsUdh.
#[local] Open Scope string_scope.
#[local] Open Scope list_scope.
#[local] Open Scope Z_scope.

(** The bits between the header and the first septet. *)
Definition smsFillBits (udhLen : Z) : Z := (7 - (udhLen * 8) mod 7) mod 7.
Definition unit_bytes (u : Z) : bytes := [to_u8 (Z.shiftr u 8); to_u8 u].

(** [userData, udl, dcs] *)
Definition encodeSMSUserDataWithLanguage (text : bytes) (encoding : string) (udh : bytes) (lockingLang singleLang : Z) : result (bytes * Z * Z) :=
  if bool_decide (encoding = "gsm7") then
    let! septets := encodeGSM7WithLanguage text lockingLang singleLang in
    let fillBits := if 0 <? len udh then smsFillBits (len udh) else 0 in
    let! packed := packSeptets septets fillBits in
    let udl := len septets in
    let udl := if 0 <? len udh then udl + (len udh * 8 + 6) / 7 else udl in
    Ok (udh ++ packed, udl, 0x00)
  else if bool_decide (encoding = "utf8") then
    Ok (udh ++ text, len (udh ++ text), 0x04)
  else
    let userData := udh ++ concat (unit_bytes <$> utf16_Encode (runes text)) in
    Ok (userData, len userData, 0x08).
Definition encodeSMSUserData (text : bytes) (encoding : string) (udh : bytes) : result (bytes * Z * Z) :=
  encodeSMSUserDataWithLanguage text encoding udh 0 0.

Fixpoint ucs2_units (data : bytes) : list Z :=
  match data with a :: b :: rest => Z.lor (Z.shiftl a 8) b :: ucs2_units rest | _ => [] end.
Definition decodeUCS2 (data : bytes) : result bytes :=
  if negb (len data mod 2 =? 0) then Err (ErrText "UCS2 payload has odd length") else
  Ok (string_of (utf16_Decode (ucs2_units data))).

Definition smsOctetUserDataLength (udl : Z) (udh payload : bytes) : result Z :=
  let payloadOctets := if 0 <? len udh then udl - len udh else udl in
  if payloadOctets <? 0 then Err (ErrText "SMS user data length is shorter than UDH length") else
  if len payload <? payloadOctets then Err (ErrText "SMS user data truncated") else
  if payloadOctets <? len payload then Err (ErrText "SMS user data has trailing data") else
  Ok payloadOctets.
Definition smsPackedSeptetOctets (septets bitOffset : Z) : Z :=
  if septets <=? 0 then 0 else (bitOffset + septets * 7 + 7) / 8.

Definition decodeSMSUserDataWithHeader (data : bytes) (udl dcs : Z) (hasUDH : bool) : result (bytes * SMSUserDataHeaderInfo) :=
  if udl <? 0 then Err (ErrText "SMS user data length is invalid") else
  let! r := splitSMSUDH data hasUDH in
  let '(udh, payload, headerSeptets, headerInfo) := r in
  if bool_decide (smsDCSAlphabet dcs = "ucs2") then
    let! payloadOctets := smsOctetUserDataLength udl udh payload in
    let! p := slice payload 0 payloadOctets in
    let! text := decodeUCS2 p in
    Ok (text, headerInfo)
  else if bool_decide (smsDCSAlphabet dcs = "8bit") then
    let! payloadOctets := smsOctetUserDataLength udl udh payload in
    let! p := slice payload 0 payloadOctets in
    Ok (ToValidUTF8 p, headerInfo)
  else
    let septets := if hasUDH then udl - headerSeptets else udl in
    if septets <? 0 then Err (ErrText "SMS user data length is shorter than UDH septets") else
    let fillBits := if hasUDH then smsFillBits (len udh) else 0 in
    let payloadOctets := smsPackedSeptetOctets septets fillBits in
    if len payload <? payloadOctets then Err (ErrText "SMS user data truncated") else
    if payloadOctets <? len payload then Err (ErrText "SMS user data has trailing data") else
    let! codes := unpackSeptets payload septets fillBits in
    Ok (decodeGSM7WithLanguage codes (uh_LockingShiftLang headerInfo) (uh_SingleShiftLang headerInfo), headerInfo).
Definition decodeSMSUserData (data : bytes) (udl dcs : Z) (hasUDH : bool) : result (bytes * SMSConcatInfo) :=
  let! r := decodeSMSUserDataWithHeader data udl dcs hasUDH in
  let '(text, headerInfo) := r in Ok (text, uh_Concat headerInfo).

(** ** UCS-2 *)
Lemma unit_bytes_ok u : bytes_ok (unit_bytes u).
Proof. repeat constructor; apply to_u8_range. Qed.
Lemma units_ok us : bytes_ok (concat (unit_bytes <$> us)).
Proof. induction us as [|u us IH]; [constructor|]. apply bytes_ok_app_2; [apply unit_bytes_ok|exact IH]. Qed.
Lemma utf16_units rs : Forall scalar rs -> Forall (fun u => 0 <= u <= 0xffff) (utf16_Encode rs).
Proof.
  induction 1 as [|r rs Hr _ IH]; [constructor|]. unfold utf16_Encode in *. cbn [fmap list_fmap concat]. apply Forall_app. split; [|exact IH].
  unfold utf16_unit. rewrite bool_decide_eq_true_2 by done. cbn [negb]. unfold scalar in Hr. case_match; [repeat constructor; lia|].
  pose proof (Z.mod_pos_bound (r - 0x10000) 1024 ltac:(lia)).
  assert (0 <= (r - 0x10000) / 1024 < 1024) by (Z.div_mod_to_equations; lia). repeat constructor; lia.
Qed.
Lemma ucs2_units_read us : Forall (fun u => 0 <= u <= 0xffff) us -> ucs2_units (concat (unit_bytes <$> us)) = us.
Proof.
  induction 1 as [|u us Hu _ IH]; [done|]. cbn [fmap list_fmap concat unit_bytes app ucs2_units]. rewrite IH. f_equal.
  unfold to_u8 at 1. rewrite (Z.mod_small (Z.shiftr u 8)); [by apply two_octets|].
  rewrite Z.shiftr_div_pow2 by lia. change (2 ^ 8) with 256. split; [apply Z.div_pos; lia|apply Z.div_lt_upper_bound; lia].
Qed.
Lemma len_units us : len (concat (unit_bytes <$> us)) = 2 * len us.
Proof. induction us as [|u us IH]; [done|]. cbn [fmap list_fmap concat]. rewrite len_app, IH, len_cons. change (len (unit_bytes u)) with 2. lia. Qed.
Lemma decodeUCS2_encode rs : Forall scalar rs -> decodeUCS2 (concat (unit_bytes <$> utf16_Encode rs)) = Ok (string_of rs).
Proof.
  intros H. unfold decodeUCS2. rewrite len_units. replace (2 * len (utf16_Encode rs) mod 2 =? 0) with true by (symmetry; apply Z.eqb_eq; rewrite Z.mul_comm; apply Z.mod_mul; lia).
  cbn [negb]. rewrite ucs2_units_read, utf16_round_trip by auto using utf16_units. done.
Qed.

(** ** Header and payload *)
(** A header as a sender hands it over: its length octet counts the rest, and a
    receiver reads these languages in it; without a header there are none. *)
Definition header_carries (udh : bytes) (info : SMSUserDataHeaderInfo) (lockingLang singleLang : Z) : Prop :=
  bytes_ok udh /\ uh_LockingShiftLang info = lockingLang /\ uh_SingleShiftLang info = singleLang /\
  if 0 <? len udh then at_ (E := error) udh 0 = Ok (len udh - 1) /\ parseSMSUDHInfo udh = Ok info else info = zeroUDHInfo.
Lemma split_header udh info L S payload : header_carries udh info L S ->
  splitSMSUDH (udh ++ payload) (0 <? len udh) = Ok (udh, payload, (if 0 <? len udh then (len udh * 8 + 6) / 7 else 0), info).
Proof.
  intros (Hb & _ & _ & H). unfold splitSMSUDH. destruct (0 <? len udh) eqn:Hl; cbn [negb].
  - destruct H as [H0 Hp]. pose proof (len_nonneg payload).
    replace (len (udh ++ payload) =? 0) with false by (rewrite len_app; lia).
    assert (Ha : at_ (E := error) (udh ++ payload) 0 = Ok (len udh - 1)).
    { destruct udh as [|b udh]; [done|]. cbn in H0 |- *. unfold at_ in *. cbn in *. by injection H0 as ->. }
    rewrite Ha. cbn [bind]. cbv zeta. replace (len udh - 1 + 1) with (len udh) by lia.
    replace (len (udh ++ payload) <? len udh) with false by (rewrite len_app; lia).
    rewrite (slice_eq _ [] udh payload) by (done || lia). cbn [bind]. rewrite Hp. cbn [bind].
    rewrite (slice_from_eq _ udh payload) by done. done.
  - subst info. destruct udh; [done|]. rewrite len_cons in Hl. pose proof (len_nonneg udh). lia.
Qed.
Lemma octet_length udh payload : smsOctetUserDataLength (len (udh ++ payload)) udh payload = Ok (len payload).
Proof.
  unfold smsOctetUserDataLength. pose proof (len_nonneg payload). pose proof (len_nonneg udh). rewrite len_app.
  assert (E : (if 0 <? len udh then len udh + len payload - len udh else len udh + len payload) = len payload) by (case_match; lia).
  rewrite E. replace (len payload <? 0) with false by lia. rewrite Z.ltb_irrefl. done.
Qed.
Lemma encoding_alphabet dcs enc : smsEncodingForDCS dcs = enc ->
  (enc = "ucs2" /\ smsDCSAlphabet dcs = "ucs2") \/ (enc = "utf8" /\ smsDCSAlphabet dcs = "8bit") \/
  (enc = "gsm7" /\ smsDCSAlphabet dcs <> "ucs2" /\ smsDCSAlphabet dcs <> "8bit").
Proof. unfold smsEncodingForDCS. repeat case_bool_decide; intros <-; auto. Qed.
Lemma fill_bits_nonneg n : 0 <= smsFillBits n.
Proof. apply Z.mod_pos_bound. lia. Qed.
Lemma slice_all (p : bytes) : slice (E := error) p 0 (len p) = Ok p.
Proof. apply (slice_eq p [] p []); [by rewrite app_nil_r|done|done]. Qed.

Lemma user_data_read rs enc udh info L S ud udl dcs dcs' :
  Forall scalar rs -> (enc = "gsm7" -> 0x1b ∉ rs) -> header_carries udh info L S -> smsEncodingForDCS dcs' = enc ->
  encodeSMSUserDataWithLanguage (string_of rs) enc udh L S = Ok (ud, udl, dcs) ->
  decodeSMSUserDataWithHeader ud udl dcs' (0 <? len udh) = Ok (string_of rs, info) /\ bytes_ok ud /\ 0 <= udl /\ smsEncodingForDCS dcs = enc.
Proof.
  intros Hrs Hesc Hh Henc. pose proof Hh as (Hb & HL & HS & _). pose proof (len_nonneg udh) as Hu0. unfold encodeSMSUserDataWithLanguage, decodeSMSUserDataWithHeader.
  destruct (encoding_alphabet dcs' enc Henc) as [[-> Ha]|[[-> Ha]|(-> & Ha1 & Ha2)]].
  - rewrite Ha. cbn [bool_decide]. rewrite !bool_decide_eq_false_2 by done. rewrite bool_decide_eq_true_2 by done. cbv zeta. intros [= <- <- <-].
    rewrite runes_string_of by done. set (payload := concat (unit_bytes <$> utf16_Encode rs)).
    pose proof (len_nonneg (udh ++ payload)). replace (len (udh ++ payload) <? 0) with false by lia.
    rewrite (split_header _ _ _ _ _ Hh). cbn [bind]. rewrite octet_length. cbn [bind]. rewrite slice_all. cbn [bind].
    unfold payload at 1. rewrite decodeUCS2_encode by done. split_and!; [done|apply bytes_ok_app_2; [done|apply units_ok]|lia|done].
  - rewrite Ha. rewrite bool_decide_eq_false_2 by done. rewrite !bool_decide_eq_true_2 by done. rewrite bool_decide_eq_false_2 by done. intros [= <- <- <-].
    pose proof (len_nonneg (udh ++ string_of rs)). replace (len (udh ++ string_of rs) <? 0) with false by lia.
    rewrite (split_header _ _ _ _ _ Hh). cbn [bind]. rewrite octet_length. cbn [bind]. rewrite slice_all. cbn [bind].
    rewrite to_valid_string_of by done. split_and!; [done|apply bytes_ok_app_2; [done|apply string_of_ok]|lia|done].
  - rewrite bool_decide_eq_true_2 by done. rewrite (bool_decide_eq_false_2 _ Ha1), (bool_decide_eq_false_2 _ Ha2).
    unfold encodeGSM7WithLanguage. rewrite runes_string_of by done.
    destruct (encode_gsm7_loop rs L S []) as [septets| | |] eqn:E; try done. cbn [bind]. cbv zeta.
    apply encode_gsm7_loop_spec in E as (sp & E1 & Hd & Hf); [|by apply Hesc]. cbn [app] in E1. subst septets.
    set (fill := if 0 <? len udh then smsFillBits (len udh) else 0). assert (Hfill : 0 <= fill) by (subst fill; case_match; [apply fill_bits_nonneg|lia]).
    destruct (packSeptets_spec sp fill Hf Hfill) as (out & Hout & [Hob _] & Hol). rewrite Hout. cbn [bind]. intros [= <- <- <-].
    pose proof (len_nonneg sp) as Hsp.
    assert (Hhdr : 0 <= (len udh * 8 + 6) / 7) by (apply Z.div_pos; lia).
    replace ((if 0 <? len udh then len sp + (len udh * 8 + 6) / 7 else len sp) <? 0) with false by (symmetry; destruct (0 <? len udh); lia).
    rewrite (split_header _ _ _ _ _ Hh). cbn [bind].
    replace (if 0 <? len udh then (if 0 <? len udh then len sp + (len udh * 8 + 6) / 7 else len sp) - (if 0 <? len udh then (len udh * 8 + 6) / 7 else 0)
             else if 0 <? len udh then len sp + (len udh * 8 + 6) / 7 else len sp) with (len sp) by (destruct (0 <? len udh); lia).
    replace (len sp <? 0) with false by lia. fold fill.
    assert (Hp : smsPackedSeptetOctets (len sp) fill = len out).
    { unfold smsPackedSeptetOctets. rewrite Hol. destruct (len sp =? 0) eqn:E0; [by replace (len sp <=? 0) with true by lia|by replace (len sp <=? 0) with false by lia]. }
    rewrite Hp, Z.ltb_irrefl. rewrite (pack_unpack sp fill out) by done. cbn [bind]. unfold decodeGSM7WithLanguage. rewrite HL, HS, Hd.
    split_and!; [done|by apply bytes_ok_app_2|destruct (0 <? len udh); lia|done].
Qed.

(** *** Totality *)
Lemma splitSMSUDH_safe data hasUDH : bytes_ok data ->
  safe (splitSMSUDH data hasUDH) (fun r => bytes_ok r.1.1.1 /\ bytes_ok r.1.1.2 /\ 0 <= r.1.2).
Proof.
  intros Hb. unfold splitSMSUDH. destruct hasUDH; cbn [negb]; [|split_and!; cbn; auto; [constructor|lia]].
  destruct (len data =? 0) eqn:?; [done|]. pose proof (len_nonneg data).
  eapply (safe_call _ _ is_u8); [apply safe_at; [done|lia|done]|]. intros b Hbb. unfold is_u8, in_range in Hbb. cbv zeta.
  destruct (len data <? b + 1) eqn:?; [done|].
  eapply (safe_call _ _ bytes_ok); [apply safe_slice_ok; [done|lia|lia|by intros]|]. intros udh Hudh.
  destruct (parseSMSUDHInfo_ok udh Hudh) as (info & -> & _). cbn [bind].
  eapply (safe_call _ _ bytes_ok); [apply safe_slice_from; [done|lia|by intros]|]. intros p Hp.
  split_and!; [done|done|]. cbn. apply Z.div_pos; lia.
Qed.
Lemma decodeUCS2_safe data : safe (decodeUCS2 data) bytes_ok.
Proof. unfold decodeUCS2. destruct (negb _); [done|]. apply string_of_ok. Qed.
Lemma decodeSMSUserDataWithHeader_safe data udl dcs hasUDH : bytes_ok data ->
  safe (decodeSMSUserDataWithHeader data udl dcs hasUDH) (fun r => bytes_ok r.1).
Proof.
  intros Hb. unfold decodeSMSUserDataWithHeader. destruct (udl <? 0) eqn:?; [done|].
  eapply safe_call; [by apply splitSMSUDH_safe|]. intros [[[udh payload] hs] info] (Hu & Hp & Hh). cbn in Hu, Hp, Hh.
  assert (Ho : safe (smsOctetUserDataLength udl udh payload) (fun n => n = len payload)).
  { unfold smsOctetUserDataLength. cbv zeta. set (p := if 0 <? len udh then _ else _). destruct (p <? 0); [done|]. destruct (len payload <? p) eqn:?; [done|]. destruct (p <? len payload) eqn:?; [done|]. cbn. lia. }
  repeat case_bool_decide.
  - eapply safe_call; [exact Ho|]. intros n ->. rewrite slice_all. cbn [bind].
    eapply safe_call; [apply decodeUCS2_safe|]. by intros.
  - eapply safe_call; [exact Ho|]. intros n ->. rewrite slice_all. cbn [bind safe fst].
    by apply ToValidUTF8_ok.
  - set (septets := if hasUDH then udl - hs else udl). set (fill := if hasUDH then smsFillBits (len udh) else 0). cbv zeta.
    destruct (septets <? 0); [done|]. destruct (len payload <? smsPackedSeptetOctets septets fill); [done|].
    destruct (smsPackedSeptetOctets septets fill <? len payload); [done|].
    eapply safe_call; [apply unpackSeptets_safe; [done|]|].
    + subst fill. destruct hasUDH; [apply fill_bits_nonneg|lia].
    + intros codes _. apply string_of_ok.
Qed.

(** What the receiver of a built header reads: the concatenation and the languages. *)
Lemma built_header_carries hp d s b pb ref bits total part single locking udh :
  validateSMSApplicationPortOptions d s b = Ok (pb, hp) ->
  buildSMSSubmitUDH hp d s pb ref bits total part single locking = Ok udh ->
  exists info, header_carries udh info locking single /\
    uh_Concat info = (if 1 <? total then mkConcat true ref bits total part else zeroConcat) /\
    uh_HasPorts info = hp /\ (hp = true -> uh_DestinationPort info = d /\ uh_SourcePort info = s /\ uh_PortBits info = pb).
Proof.
  intros Hv Hb. destruct (submit_udh_info _ _ _ _ _ _ _ _ _ _ _ _ Hv Hb) as (es & Hp & Hl).
  destruct (submit_udh_wire _ _ _ _ _ _ _ _ _ _ _ _ Hv Hb) as (Hok & _ & H0).
  eexists. split; [|split; [|split; [|intros ->]]].
  - split; [done|]. split; [|split]; [..|destruct (0 <? len udh) eqn:E]; [| |split; [apply H0; lia|exact Hp]|].
    + done.
    + done.
    + assert (E0 : len udh = 0) by (pose proof (len_nonneg udh); lia). apply len_zero in E0. subst udh.
      apply (f_equal (fun r : result SMSUserDataHeaderInfo => match r with Ok x => x | _ => zeroUDHInfo end)) in Hp. exact (eq_sym Hp).
  - done.
  - done.
  - done.
Qed.

(** The user data of a message: a text in any of the three encodings, behind
    any header built from accepted options (languages, ports, concatenation), is
    read back by the receiver, under every data coding scheme of that encoding,
    as the same text with the same concatenation and ports; the data coding
    scheme the sender derives is one of the encoding.  (A GSM 7-bit text must not
    hold the escape character.) *)
Theorem user_data_roundtrip rs enc hp d s b pb ref bits total part S L udh ud udl dcs dcs' :
  Forall scalar rs -> (enc = "gsm7" -> 0x1b ∉ rs) ->
  validateSMSApplicationPortOptions d s b = Ok (pb, hp) ->
  buildSMSSubmitUDH hp d s pb ref bits total part S L = Ok udh ->
  encodeSMSUserDataWithLanguage (string_of rs) enc udh L S = Ok (ud, udl, dcs) ->
  smsEncodingForDCS dcs' = enc ->
  exists info, decodeSMSUserDataWithHeader ud udl dcs' (0 <? len udh) = Ok (string_of rs, info) /\
    uh_Concat info = (if 1 <? total then mkConcat true ref bits total part else zeroConcat) /\
    uh_HasPorts info = hp /\ (hp = true -> uh_DestinationPort info = d /\ uh_SourcePort info = s /\ uh_PortBits info = pb) /\
    smsEncodingForDCS dcs = enc.
Proof.
  intros Hrs Hesc Hv Hb He Hd. destruct (built_header_carries _ _ _ _ _ _ _ _ _ _ _ _ Hv Hb) as (info & Hh & Hc & Hp & Hports).
  destruct (user_data_read _ _ _ _ _ _ _ _ _ _ Hrs Hesc Hh Hd He) as (Hr & _ & _ & Hdcs). by exists info.
Qed.
(** "Ş€" in Turkish septets, the second of three segments, read under a message class. *)
Lemma user_data_roundtrip_witness :
  exists info, decodeSMSUserDataWithHeader [0x0b; 0x24; 1; 1; 0x25; 1; 1; 0x00; 0x03; 0x07; 0x03; 0x02; 112; 8] 16 0xf1 true
      = Ok (string_of [0x15e; 0x20ac], info) /\ uh_Concat info = mkConcat true 7 8 3 2.
Proof.
  destruct (user_data_roundtrip [0x15e; 0x20ac] "gsm7" false 0 0 0 0 7 8 3 2 1 1 [0x0b; 0x24; 1; 1; 0x25; 1; 1; 0x00; 0x03; 0x07; 0x03; 0x02]
    [0x0b; 0x24; 1; 1; 0x25; 1; 1; 0x00; 0x03; 0x07; 0x03; 0x02; 112; 8] 16 0 0xf1) as (info & H1 & H2 & _);
    [by_decide|by_decide|reflexivity|reflexivity|vm_compute; reflexivity|reflexivity|].
  exists info. split; [exact H1|exact H2].
Defined.
