(* ===== verification/SmsTime.v ===== *)
(** * Times in messages (runtimehost/messaging/sms_pdu.go)

    Time stamps (seven octets of swapped decimal digits with a zone in quarters
    of an hour) and validity periods.

    A [time.Time] in a fixed zone is its civil date and clock with the offset of
    the zone in seconds; the monotonic reading and the zone's name are left out.
    [time.Date] carries a day beyond the end of the month into the next one, the
    only field that is out of range in this program (no month of 31 days is
    exceeded, and the twelfth has 31). *)
From S2P Require Import Prelude Errors.
#[local] Open Scope string_scope.
#[local] Open Scope list_scope.
#[local] Open Scope Z_scope.

Record Time := mkTime {
  t_Year : Z;
  t_Month : Z;
  t_Day : Z;
  t_Hour : Z;
  t_Minute : Z;
  t_Second : Z;
  t_Nanosecond : Z;
  t_Offset : Z
}.
#[export] Instance Time_eq_dec : EqDecision Time.
Proof. solve_decision. Defined.
Definition zeroTime : Time := mkTime 1 1 1 0 0 0 0 0.

Definition leap_year (y : Z) : bool := (y mod 4 =? 0) && (negb (y mod 100 =? 0) || (y mod 400 =? 0)).
Definition month_lengths (y : Z) : list Z := [31; if leap_year y then 29 else 28; 31; 30; 31; 30; 31; 31; 30; 31; 30; 31].
Definition days_in (y m : Z) : Z := nth (Z.to_nat (m - 1)) (month_lengths y) 31.
(** Days from the first of January of year 1. *)
Definition days_before (y m d : Z) : Z :=
  365 * (y - 1) + (y - 1) / 4 - (y - 1) / 100 + (y - 1) / 400 + foldr Z.add 0 (take (Z.to_nat (m - 1)) (month_lengths y)) + (d - 1).
(** Seconds from the first instant of year 1, UTC. *)
Definition time_instant (t : Time) : Z :=
  days_before (t_Year t) (t_Month t) (t_Day t) * 86400 + t_Hour t * 3600 + t_Minute t * 60 + t_Second t - t_Offset t.
Definition time_IsZero (t : Time) : bool := (time_instant t =? 0) && (t_Nanosecond t =? 0).
Definition time_Date (year month day hour minute second nsec offset : Z) : Time :=
  if days_in year month <? day then mkTime year (month + 1) (day - days_in year month) hour minute second nsec offset
  else mkTime year month day hour minute second nsec offset.

(** A civil time that exists. *)
Definition time_ok (t : Time) : Prop :=
  1 <= t_Year t /\ 1 <= t_Month t <= 12 /\ 1 <= t_Day t <= days_in (t_Year t) (t_Month t) /\
  0 <= t_Hour t < 24 /\ 0 <= t_Minute t < 60 /\ 0 <= t_Second t < 60 /\ 0 <= t_Nanosecond t < 1000000000.
#[export] Instance time_ok_dec t : Decision (time_ok t).
Proof. unfold time_ok. apply _. Defined.

(** ** Semi-octets *)
Definition encodeSemiOctetDecimal (value : Z) : Z :=
  if value <? 0 then 0 else to_u8 (Z.lor (Z.shiftl (Z.rem value 10) 4) (Z.rem (Z.quot value 10) 10)).
Definition decodeSemiOctetDecimal (value : Z) : Z :=
  let lo := Z.land value 0x0f in
  let hi := Z.land (Z.shiftr value 4) 0x0f in
  if (9 <? lo) || (9 <? hi) then -1 else lo * 10 + hi.

Definition decodeSMSTimestamp (raw : bytes) : result Time :=
  if negb (len raw =? 7) then Err (ErrText "SMS timestamp must be 7 octets") else
  let! r0 := at_ raw 0 in
  let! r1 := at_ raw 1 in
  let! r2 := at_ raw 2 in
  let! r3 := at_ raw 3 in
  let! r4 := at_ raw 4 in
  let! r5 := at_ raw 5 in
  let year := decodeSemiOctetDecimal r0 in
  let month := decodeSemiOctetDecimal r1 in
  let day := decodeSemiOctetDecimal r2 in
  let hour := decodeSemiOctetDecimal r3 in
  let minute := decodeSemiOctetDecimal r4 in
  let second := decodeSemiOctetDecimal r5 in
  let! tzOctet := at_ raw 6 in
  let negative := negb (Z.land tzOctet 0x08 =? 0) in
  let tzOctet := Z.ldiff tzOctet 0x08 in
  let tzQuarterHours := decodeSemiOctetDecimal tzOctet in
  if (year <? 0) || (month <=? 0) || (12 <? month) || (day <=? 0) || (31 <? day) || (hour <? 0) || (23 <? hour) ||
     (minute <? 0) || (59 <? minute) || (second <? 0) || (59 <? second) || (tzQuarterHours <? 0)
  then Err (ErrText "SMS timestamp contains invalid BCD") else
  let fullYear := if 90 <=? year then 1900 + year else 2000 + year in
  let offset := tzQuarterHours * 15 * 60 in
  let offset := if negative then - offset else offset in
  Ok (time_Date fullYear month day hour minute second 0 offset).

Definition encodeSMSTimestamp (ts : Time) : result bytes :=
  if time_IsZero ts then Err (ErrText "SMS timestamp is zero") else
  let year := t_Year ts in
  if (year <? 1990) || (2089 <? year) then Err (ErrText "SMS timestamp year is outside encodable range 1990-2089") else
  let offset := t_Offset ts in
  if negb (Z.rem offset 900 =? 0) then Err (ErrText "SMS timestamp timezone offset is not a 15-minute multiple") else
  let tzQuarterHours := Z.quot offset 900 in
  let negative := tzQuarterHours <? 0 in
  let tzQuarterHours := if negative then - tzQuarterHours else tzQuarterHours in
  if 79 <? tzQuarterHours then Err (ErrText "SMS timestamp timezone quarter-hours out of range") else
  let tz := encodeSemiOctetDecimal tzQuarterHours in
  let tz := if negative then Z.lor tz 0x08 else tz in
  Ok [encodeSemiOctetDecimal (Z.rem year 100); encodeSemiOctetDecimal (t_Month ts); encodeSemiOctetDecimal (t_Day ts);
      encodeSemiOctetDecimal (t_Hour ts); encodeSemiOctetDecimal (t_Minute ts); encodeSemiOctetDecimal (t_Second ts); tz].

(** ** Validity periods: a [time.Duration] is an integer of nanoseconds *)
Definition time_Minute : Z := 60 * 1000000000.
Definition time_Hour : Z := 60 * time_Minute.
Definition fiveMinutes : Z := 5 * time_Minute.
Definition thirtyMinute : Z := 30 * time_Minute.
Definition twelveHours : Z := 12 * time_Hour.
Definition oneDay : Z := 24 * time_Hour.
Definition oneWeek : Z := 7 * oneDay.
Definition maxValidity : Z := 63 * oneWeek.
Definition ceilDuration (value unit : Z) : Z := if value <=? 0 then 0 else Z.quot (value + unit - 1) unit.

(** [None]: no validity period. *)
Definition encodeSMSRelativeValidityPeriod (validity : Z) : result (option Z) :=
  if validity =? 0 then Ok None else
  if validity <? 0 then Err (ErrText "sms validity period is negative") else
  if maxValidity <? validity then Err (ErrText "sms validity period exceeds maximum") else
  if validity <=? twelveHours then Ok (Some (to_u8 (ceilDuration validity fiveMinutes - 1))) else
  if validity <=? oneDay then
    let steps := ceilDuration (validity - twelveHours) thirtyMinute in
    let steps := if steps <? 1 then 1 else steps in
    Ok (Some (to_u8 (143 + steps)))
  else if validity <=? 30 * oneDay then
    let days := ceilDuration validity oneDay in
    let days := if days <? 2 then 2 else days in
    Ok (Some (to_u8 (166 + days)))
  else
    let weeks := ceilDuration validity oneWeek in
    let weeks := if weeks <? 5 then 5 else weeks in
    Ok (Some (to_u8 (192 + weeks))).
(** The bits of the first octet and the validity period field. *)
Definition encodeSMSSubmitValidityPeriod (relative : Z) (absolute : Time) : result (Z * bytes) :=
  if negb (relative =? 0) && negb (time_IsZero absolute) then Err (ErrText "sms validity period and deadline are mutually exclusive") else
  if negb (time_IsZero absolute) then
    let! encoded := encodeSMSTimestamp absolute in Ok (0x18, encoded)
  else
    let! vp := encodeSMSRelativeValidityPeriod relative in
    match vp with None => Ok (0, []) | Some vp => Ok (0x10, [vp]) end.

(** ** Proofs *)
Lemma semi_octet_roundtrip v : 0 <= v <= 99 -> decodeSemiOctetDecimal (encodeSemiOctetDecimal v) = v /\ is_u8 (encodeSemiOctetDecimal v).
Proof.
  intros Hv. assert (Hall : Forall (fun v => decodeSemiOctetDecimal (encodeSemiOctetDecimal v) = v /\ is_u8 (encodeSemiOctetDecimal v)) (seqZ 0 100)) by by_decide.
  rewrite Forall_forall in Hall. apply Hall, elem_of_seqZ. lia.
Qed.
Definition zone_octet (negative : bool) (q : Z) : Z := if negative then Z.lor (encodeSemiOctetDecimal q) 0x08 else encodeSemiOctetDecimal q.
Lemma zone_octet_roundtrip negative q : 0 <= q <= 79 ->
  decodeSemiOctetDecimal (Z.ldiff (zone_octet negative q) 0x08) = q /\ negb (Z.land (zone_octet negative q) 0x08 =? 0) = negative /\ is_u8 (zone_octet negative q).
Proof.
  intros Hq. assert (Hall : Forall (fun q => forall n, decodeSemiOctetDecimal (Z.ldiff (zone_octet n q) 0x08) = q /\
    negb (Z.land (zone_octet n q) 0x08 =? 0) = n /\ is_u8 (zone_octet n q)) (seqZ 0 80)) by by_decide.
  rewrite Forall_forall in Hall. apply Hall, elem_of_seqZ. lia.
Qed.
Lemma semi_octet_range b : is_u8 b -> -1 <= decodeSemiOctetDecimal b <= 99.
Proof.
  intros Hb. assert (Hall : Forall (fun b => -1 <= decodeSemiOctetDecimal b <= 99) (seqZ 0 256)) by by_decide.
  rewrite Forall_forall in Hall. apply Hall, elem_of_seqZ. unfold in_range in Hb. lia.
Qed.
Lemma month_length_pos y m : 1 <= m <= 12 -> 28 <= days_in y m <= 31.
Proof.
  intros Hm. assert (Hc : m = 1 \/ m = 2 \/ m = 3 \/ m = 4 \/ m = 5 \/ m = 6 \/ m = 7 \/ m = 8 \/ m = 9 \/ m = 10 \/ m = 11 \/ m = 12) by lia.
  unfold days_in, month_lengths. destruct (leap_year y); repeat (destruct Hc as [-> | Hc]; [vm_compute; split; discriminate|]); subst m; vm_compute; split; discriminate.
Qed.
Lemma sum_prefix_nonneg n y : 0 <= foldr Z.add 0 (take n (month_lengths y)).
Proof.
  assert (H : Forall (fun d => 0 <= d) (month_lengths y)) by (unfold month_lengths; destruct (leap_year y); repeat constructor; done).
  apply (Forall_take _ n) in H. induction H; cbn; lia.
Qed.
Lemma not_zero_time t : time_ok t -> 1990 <= t_Year t -> t_Offset t <= 71100 -> time_IsZero t = false.
Proof.
  intros (_ & Hm & Hd & Hh & Hmi & Hs & _) Hy Ho. unfold time_IsZero. replace (time_instant t =? 0) with false; [done|]. symmetry. apply Z.eqb_neq.
  unfold time_instant, days_before. pose proof (sum_prefix_nonneg (Z.to_nat (t_Month t - 1)) (t_Year t)) as Hp.
  set (days := foldr _ _ _) in *. clearbody days. Z.div_mod_to_equations; lia.
Qed.
Lemma time_Date_ok y m d h mi s o : 1 <= y -> 1 <= m <= 12 -> 1 <= d <= 31 -> 0 <= h < 24 -> 0 <= mi < 60 -> 0 <= s < 60 -> time_ok (time_Date y m d h mi s 0 o).
Proof.
  intros Hy Hm Hd Hh Hmi Hs. pose proof (month_length_pos y m Hm) as Hl. unfold time_Date. destruct (Z.ltb_spec (days_in y m) d) as [E|E].
  - assert (m <> 12) by (intros ->; change (days_in y 12) with 31 in E; lia).
    pose proof (month_length_pos y (m + 1) ltac:(lia)). unfold time_ok. cbn [t_Year t_Month t_Day t_Hour t_Minute t_Second t_Nanosecond]. split_and!; lia.
  - unfold time_ok. cbn [t_Year t_Month t_Day t_Hour t_Minute t_Second t_Nanosecond]. split_and!; lia.
Qed.
Lemma decodeSMSTimestamp_safe raw : bytes_ok raw -> safe (decodeSMSTimestamp raw) (fun t => time_ok t /\ 1990 <= t_Year t <= 2089).
Proof.
  intros Hb. unfold decodeSMSTimestamp. destruct (len raw =? 7) eqn:Hl; cbn [negb]; [|done].
  do 6 (eapply (safe_call _ _ is_u8); [apply safe_at; [done|lia|by intros]|]; intros ? ?). cbv zeta.
  eapply (safe_call _ _ is_u8); [apply safe_at; [done|lia|by intros]|]. intros tz Htz. cbv zeta.
  match goal with |- safe (if ?c then _ else _) _ => destruct c eqn:E end; [done|]. cbn [safe].
  pose proof (semi_octet_range _ H) as Hy.
  split; [apply time_Date_ok; try lia; case_match; lia|].
  unfold time_Date. repeat case_match; cbn [t_Year]; lia.
Qed.

Lemma decode_octets a b c d e f z :
  decodeSMSTimestamp [a; b; c; d; e; f; z] =
  let year := decodeSemiOctetDecimal a in
  let month := decodeSemiOctetDecimal b in
  let day := decodeSemiOctetDecimal c in
  let hour := decodeSemiOctetDecimal d in
  let minute := decodeSemiOctetDecimal e in
  let second := decodeSemiOctetDecimal f in
  let q := decodeSemiOctetDecimal (Z.ldiff z 0x08) in
  if (year <? 0) || (month <=? 0) || (12 <? month) || (day <=? 0) || (31 <? day) || (hour <? 0) || (23 <? hour) ||
     (minute <? 0) || (59 <? minute) || (second <? 0) || (59 <? second) || (q <? 0)
  then Err (ErrText "SMS timestamp contains invalid BCD")
  else Ok (time_Date (if 90 <=? year then 1900 + year else 2000 + year) month day hour minute second 0
             (if negb (Z.land z 0x08 =? 0) then - (q * 15 * 60) else q * 15 * 60)).
Proof. reflexivity. Qed.
Lemma encode_spec t raw : time_ok t -> encodeSMSTimestamp t = Ok raw ->
  1990 <= t_Year t <= 2089 /\ t_Offset t mod 900 = 0 /\ Z.abs (t_Offset t) <= 71100 /\ len raw = 7 /\ bytes_ok raw /\
  decodeSMSTimestamp raw = Ok (mkTime (t_Year t) (t_Month t) (t_Day t) (t_Hour t) (t_Minute t) (t_Second t) 0 (t_Offset t)).
Proof.
  intros (_ & Hm & Hd & Hh & Hmi & Hs & _). pose proof (month_length_pos (t_Year t) (t_Month t) Hm) as Hml. unfold encodeSMSTimestamp.
  destruct (time_IsZero t); [done|]. cbv zeta. destruct ((t_Year t <? 1990) || (2089 <? t_Year t)) eqn:Hy; [done|].
  destruct (Z.rem (t_Offset t) 900 =? 0) eqn:Hr; cbn [negb]; [|done]. apply Z.eqb_eq in Hr.
  set (neg := Z.quot (t_Offset t) 900 <? 0). set (q := if neg then - Z.quot (t_Offset t) 900 else Z.quot (t_Offset t) 900).
  destruct (79 <? q) eqn:Hq; [done|].
  assert (Hoff : t_Offset t = 900 * Z.quot (t_Offset t) 900) by (rewrite (Z.quot_rem' (t_Offset t) 900) at 1; lia).
  assert (Hq0 : 0 <= q <= 79 /\ t_Offset t = if neg then - (q * 15 * 60) else q * 15 * 60).
  { subst q neg. destruct (Z.ltb_spec (Z.quot (t_Offset t) 900) 0); lia. }
  destruct Hq0 as [Hq0 Ho]. destruct (zone_octet_roundtrip neg q Hq0) as (Z1 & Z2 & Z3). fold (zone_octet neg q). intros [= <-].
  assert (Hyy : Z.rem (t_Year t) 100 = t_Year t mod 100) by (apply Z.rem_mod_nonneg; lia).
  pose proof (Z.mod_pos_bound (t_Year t) 100 ltac:(lia)) as Hyb. rewrite Hyy.
  destruct (semi_octet_roundtrip (t_Year t mod 100)) as [Y1 Y2]; [lia|]. destruct (semi_octet_roundtrip (t_Month t)) as [M1 M2]; [lia|].
  destruct (semi_octet_roundtrip (t_Day t)) as [D1 D2]; [lia|]. destruct (semi_octet_roundtrip (t_Hour t)) as [H1 H2]; [lia|].
  destruct (semi_octet_roundtrip (t_Minute t)) as [I1 I2]; [lia|]. destruct (semi_octet_roundtrip (t_Second t)) as [S1 S2]; [lia|].
  split_and!; [lia|lia|rewrite Hoff; rewrite Z.mul_comm; apply Z.mod_mul; lia|clear -Ho Hq0; destruct neg; lia|done|repeat (apply bytes_ok_cons_2; [assumption|]); constructor|].
  rewrite decode_octets. cbv zeta. rewrite Y1, M1, D1, H1, I1, S1, Z1, Z2.
  match goal with |- (if ?c then _ else _) = _ => replace c with false by lia end.
  replace (if 90 <=? t_Year t mod 100 then 1900 + t_Year t mod 100 else 2000 + t_Year t mod 100) with (t_Year t) by (apply orb_false_iff in Hy as [Hy1%Z.ltb_ge Hy2%Z.ltb_ge]; destruct (Z.leb_spec 90 (t_Year t mod 100)); Z.div_mod_to_equations; lia).
  rewrite <- Ho. unfold time_Date. replace (days_in (t_Year t) (t_Month t) <? t_Day t) with false by lia. done.
Qed.
Lemma encode_domain t : time_ok t -> 1990 <= t_Year t <= 2089 -> t_Offset t mod 900 = 0 -> Z.abs (t_Offset t) <= 71100 ->
  exists raw, encodeSMSTimestamp t = Ok raw.
Proof.
  intros Hok Hy Ho Hb. unfold encodeSMSTimestamp. rewrite not_zero_time by (done || lia). cbv zeta.
  replace ((t_Year t <? 1990) || (2089 <? t_Year t)) with false by lia.
  assert (E : t_Offset t = 900 * (t_Offset t / 900)) by (apply Z.div_exact; lia).
  assert (Hr : Z.rem (t_Offset t) 900 = 0) by (rewrite E, Z.mul_comm; apply Z.rem_mul; lia). rewrite Hr. cbn [Z.eqb negb].
  assert (Hq : Z.quot (t_Offset t) 900 = t_Offset t / 900) by (rewrite E at 1; rewrite Z.mul_comm; apply Z.quot_mul; lia). rewrite Hq.
  match goal with |- context [79 <? ?q] => replace (79 <? q) with false by (symmetry; destruct (Z.ltb_spec (t_Offset t / 900) 0); lia) end. eauto.
Qed.
Lemma encodeSMSTimestamp_returns t : returns (encodeSMSTimestamp t).
Proof. unfold encodeSMSTimestamp, returns. cbv zeta. repeat (case_match; try done). Qed.

(** Time stamps: a civil time encodes exactly when its year is in 1990..2089 and
    its zone is a whole number of quarters of an hour, at most 79 of them, on
    either side of UTC; it is seven octets, and they decode to the same date,
    clock and zone (without the fraction of the second). *)
Theorem timestamp_roundtrip t : time_ok t ->
  match encodeSMSTimestamp t with
  | Ok raw => 1990 <= t_Year t <= 2089 /\ t_Offset t mod 900 = 0 /\ Z.abs (t_Offset t) <= 79 * 900 /\ len raw = 7 /\ bytes_ok raw /\
      decodeSMSTimestamp raw = Ok (mkTime (t_Year t) (t_Month t) (t_Day t) (t_Hour t) (t_Minute t) (t_Second t) 0 (t_Offset t))
  | Err _ => ~ (1990 <= t_Year t <= 2089 /\ t_Offset t mod 900 = 0 /\ Z.abs (t_Offset t) <= 79 * 900)
  | _ => False
  end.
Proof.
  intros Hok. pose proof (encodeSMSTimestamp_returns t) as Hr. destruct (encodeSMSTimestamp t) as [raw| | |] eqn:E; try done.
  - by apply encode_spec.
  - intros (H1 & H2 & H3). destruct (encode_domain t Hok H1 H2 H3) as [raw E']. congruence.
Qed.
(** The last day of February 2024, 23:59:59 in a zone 5:45 ahead. *)
Lemma timestamp_roundtrip_witness :
  decodeSMSTimestamp [0x42; 0x20; 0x92; 0x32; 0x95; 0x95; 0x32] = Ok (mkTime 2024 2 29 23 59 59 0 20700).
Proof.
  pose proof (timestamp_roundtrip (mkTime 2024 2 29 23 59 59 5 20700) ltac:(by_decide)) as H.
  change (encodeSMSTimestamp (mkTime 2024 2 29 23 59 59 5 20700)) with (@Ok error bytes [0x42; 0x20; 0x92; 0x32; 0x95; 0x95; 0x32]) in H.
  exact (proj2 (proj2 (proj2 (proj2 (proj2 H))))).
Defined.

(** The period that a TP-VP octet stands for (3GPP TS 23.040, 9.2.3.12.1). *)
Definition vp_duration (vp : Z) : Z :=
  if vp <=? 143 then (vp + 1) * fiveMinutes
  else if vp <=? 167 then twelveHours + (vp - 143) * thirtyMinute
  else if vp <=? 196 then (vp - 166) * oneDay
  else (vp - 192) * oneWeek.
Lemma ceilDuration_spec value unit : 0 < value -> 0 < unit ->
  ceilDuration value unit * unit < value + unit /\ value <= ceilDuration value unit * unit.
Proof.
  intros Hv Hu. unfold ceilDuration. replace (value <=? 0) with false by lia. rewrite Z.quot_div_nonneg by lia.
  pose proof (Z.div_mod (value + unit - 1) unit ltac:(lia)). pose proof (Z.mod_pos_bound (value + unit - 1) unit Hu). nia.
Qed.

Lemma vp_duration_mono vp vp' : 0 <= vp -> vp <= vp' -> vp' < 256 -> vp_duration vp <= vp_duration vp'.
Proof.
  intros H0 Hle H1. assert (Hall : Forall (fun v => vp_duration v <= vp_duration (v + 1)) (seqZ 0 255)) by by_decide. rewrite Forall_forall in Hall.
  assert (Hn : forall n, vp + Z.of_nat n < 256 -> vp_duration vp <= vp_duration (vp + Z.of_nat n)).
  { intros n. induction n as [|n IH]; intros Hn; [by rewrite Z.add_0_r|]. etrans; [apply IH; lia|].
    replace (vp + Z.of_nat (S n)) with (vp + Z.of_nat n + 1) by lia. apply Hall, elem_of_seqZ. lia. }
  specialize (Hn (Z.to_nat (vp' - vp))). rewrite Z2Nat.id in Hn by lia. replace (vp + (vp' - vp)) with vp' in Hn by lia. auto.
Qed.
(** An octet is the right one when the period before it is too short. *)
Lemma shortest_period validity vp : 0 <= vp < 256 -> validity <= vp_duration vp -> (1 <= vp -> vp_duration (vp - 1) < validity) ->
  to_u8 vp = vp /\ is_u8 vp /\ validity <= vp_duration vp /\ forall vp', is_u8 vp' -> validity <= vp_duration vp' -> vp_duration vp <= vp_duration vp'.
Proof.
  intros Hvp Hd Hp. split; [by apply Z.mod_small|]. split; [exact Hvp|]. split; [exact Hd|]. intros vp' [H0 H1] Hd'. apply vp_duration_mono; [lia| |done].
  destruct (Z.le_gt_cases vp vp') as [|Hgt]; [done|]. pose proof (vp_duration_mono vp' (vp - 1) H0 ltac:(lia) ltac:(lia)). specialize (Hp ltac:(lia)). lia.
Qed.
Lemma vp_minutes vp : vp <= 143 -> vp_duration vp = (vp + 1) * fiveMinutes.
Proof. intros H. unfold vp_duration. by replace (vp <=? 143) with true by lia. Qed.
Lemma vp_half_hours vp : 143 <= vp <= 167 -> vp_duration vp = twelveHours + (vp - 143) * thirtyMinute.
Proof. intros H. unfold vp_duration. destruct (Z.leb_spec vp 143); [by replace vp with 143 by lia|]. by replace (vp <=? 167) with true by lia. Qed.
Lemma vp_days vp : 167 <= vp <= 196 -> vp_duration vp = (vp - 166) * oneDay.
Proof.
  intros H. unfold vp_duration. destruct (Z.leb_spec vp 167); [by replace vp with 167 by lia|]. replace (vp <=? 143) with false by lia.
  by replace (vp <=? 196) with true by lia.
Qed.
Lemma vp_weeks vp : 197 <= vp -> vp_duration vp = (vp - 192) * oneWeek.
Proof. intros H. unfold vp_duration. replace (vp <=? 143) with false by lia. replace (vp <=? 167) with false by lia. by replace (vp <=? 196) with false by lia. Qed.
Lemma relative_spec validity : 0 < validity <= maxValidity ->
  exists vp, encodeSMSRelativeValidityPeriod validity = Ok (Some (to_u8 vp)) /\ 0 <= vp < 256 /\ validity <= vp_duration vp /\ (1 <= vp -> vp_duration (vp - 1) < validity).
Proof.
  intros [H1 H2]. unfold encodeSMSRelativeValidityPeriod. replace (validity =? 0) with false by lia. replace (validity <? 0) with false by lia.
  replace (maxValidity <? validity) with false by lia. cbv zeta.
  assert (U : fiveMinutes = 300000000000 /\ thirtyMinute = 1800000000000 /\ twelveHours = 43200000000000 /\ oneDay = 86400000000000 /\
    oneWeek = 604800000000000 /\ maxValidity = 38102400000000000) by by_decide.
  destruct U as (U1 & U2 & U3 & U4 & U5 & U6).
  destruct (Z.leb_spec validity twelveHours) as [Ha|Ha].
  { destruct (ceilDuration_spec validity fiveMinutes) as [C1 C2]; [lia..|]. eexists. split; [reflexivity|].
    split; [lia|]. rewrite vp_minutes by lia. split; [lia|]. intros _. rewrite vp_minutes by lia. lia. }
  destruct (Z.leb_spec validity oneDay) as [Hb|Hb].
  { destruct (ceilDuration_spec (validity - twelveHours) thirtyMinute) as [C1 C2]; [lia..|].
    replace (ceilDuration (validity - twelveHours) thirtyMinute <? 1) with false by lia. eexists. split; [reflexivity|].
    split; [lia|]. rewrite vp_half_hours by lia. split; [lia|]. intros _. rewrite vp_half_hours by lia. lia. }
  destruct (Z.leb_spec validity (30 * oneDay)) as [Hc|Hc].
  { destruct (ceilDuration_spec validity oneDay) as [C1 C2]; [lia..|]. replace (ceilDuration validity oneDay <? 2) with false by lia.
    eexists. split; [reflexivity|]. split; [lia|]. rewrite vp_days by lia. split; [lia|]. intros _. rewrite vp_days by lia. lia. }
  destruct (ceilDuration_spec validity oneWeek) as [C1 C2]; [lia..|]. replace (ceilDuration validity oneWeek <? 5) with false by lia.
  eexists. split; [reflexivity|]. split; [lia|]. rewrite vp_weeks by lia. split; [lia|]. intros _.
  destruct (Z.eq_dec (ceilDuration validity oneWeek) 5) as [E|E]; [rewrite E, vp_days by lia; lia|]. rewrite vp_weeks by lia. lia.
Qed.

(** C38: relative validity periods: every positive period of at most 63 weeks gets an
    octet whose period is the shortest of the 256 that covers it; longer and
    negative ones are errors, and zero means no validity period. *)
Theorem validity_period_covers validity :
  match encodeSMSRelativeValidityPeriod validity with
  | Ok (Some vp) => 0 < validity <= maxValidity /\ is_u8 vp /\ validity <= vp_duration vp /\
      (forall vp', is_u8 vp' -> validity <= vp_duration vp' -> vp_duration vp <= vp_duration vp')
  | Ok None => validity = 0
  | Err _ => validity < 0 \/ maxValidity < validity
  | _ => False
  end.
Proof.
  destruct (Z.eq_dec validity 0) as [->|H0]; [done|]. destruct (Z.le_gt_cases validity 0) as [H1|H1].
  { unfold encodeSMSRelativeValidityPeriod. replace (validity =? 0) with false by lia. replace (validity <? 0) with true by lia. lia. }
  destruct (Z.le_gt_cases validity maxValidity) as [H2|H2].
  - destruct (relative_spec validity ltac:(lia)) as (vp & -> & Hvp & Hd & Hp). destruct (shortest_period validity vp Hvp Hd Hp) as (E & H3 & H4 & H5).
    rewrite E. split; [lia|done].
  - unfold encodeSMSRelativeValidityPeriod. replace (validity =? 0) with false by lia. replace (validity <? 0) with false by lia.
    replace (maxValidity <? validity) with true by lia. lia.
Qed.
