(* ===== verification/SmsAddress.v ===== *)
(** * Addresses (runtimehost/messaging/sms_pdu.go)

    The number in a destination (a telephone number, a SIP or a tel URI), and the
    semi-octet addresses of TPDUs and RPDUs. *)
From S2P Require Import Prelude GoStrings Errors Utf8 SmsTables Gsm7.
#[local] Open Scope string_scope.
#[local] Open Scope list_scope.
#[local] Open Scope Z_scope.

(** ** Strings *)
Definition str_sip : bytes := [115; 105; 112; 58].
Definition str_sips : bytes := [115; 105; 112; 115; 58].
Definition str_tel : bytes := [116; 101; 108; 58].
Definition is_digit (r : Z) : bool := (48 <=? r) && (r <=? 57).

(** The loop over the runes; [None] is the default case. *)
Fixpoint normalize_loop (rs : list Z) (first : bool) (out : bytes) : option bytes :=
  match rs with
  | [] => Some out
  | r :: rest =>
      if is_digit r then normalize_loop rest false (out ++ [r])
      else if (r =? 43) && first then normalize_loop rest false (out ++ [r])
      else if (r =? 32) || (r =? 45) || (r =? 40) || (r =? 41) then normalize_loop rest false out
      else None
  end.
Definition normalizeSMSNumber (value : bytes) : bytes :=
  let value := TrimSpace value in
  let value :=
    if lower_has_prefix value str_sip || lower_has_prefix value str_sips then
      let value := match cut_at value 58 with Some (_, rest) => rest | None => value end in
      match cut_at value 64 with Some (user, _) => user | None => value end
    else value in
  let value := if lower_has_prefix value str_tel then TrimSpace (drop 4 value) else value in
  let value := match cut_at value 59 with Some (before, _) => before | None => value end in
  let value := strings_Trim value [60; 62] in
  match normalize_loop (runes value) true [] with Some out => out | None => TrimSpace value end.

(** ** Semi-octets *)
Definition smsAddressSemiOctet (r : Z) : option Z :=
  if is_digit r then Some (r - 48)
  else if r =? 42 then Some 0x0a
  else if r =? 35 then Some 0x0b
  else if (r =? 97) || (r =? 65) then Some 0x0c
  else if (r =? 98) || (r =? 66) then Some 0x0d
  else if (r =? 99) || (r =? 67) then Some 0x0e
  else None.
Definition smsAddressSemiOctetDigit (nibble : Z) : option Z :=
  if nibble <=? 9 then Some (48 + nibble)
  else if nibble =? 0x0a then Some 42
  else if nibble =? 0x0b then Some 35
  else if nibble =? 0x0c then Some 97
  else if nibble =? 0x0d then Some 98
  else if nibble =? 0x0e then Some 99
  else None.

Fixpoint bcd_loop (number : bytes) (i : Z) (bcd : bytes) : result bytes :=
  match number with
  | [] => Ok bcd
  | c :: rest =>
      let d := default 0 (smsAddressSemiOctet c) in
      let! bcd := or_at bcd (i / 2) (if i mod 2 =? 0 then d else to_u8 (Z.shiftl d 4)) in
      bcd_loop rest (i + 1) bcd
  end.
(** [digits, toa, bcd] *)
Definition encodeSMSAddress (number : bytes) : result (Z * Z * bytes) :=
  let number := normalizeSMSNumber number in
  if len number =? 0 then Err (ErrText "sms address is empty") else
  let '(toa, number) := match number with 43 :: rest => (0x91, rest) | _ => (0x81, number) end in
  if len number =? 0 then Err (ErrText "sms address has no digits") else
  if existsb (fun r => match smsAddressSemiOctet r with None => true | Some _ => false end) (runes number)
  then Err (ErrText "sms address contains unsupported digit") else
  let digits := len number in
  let! bcd := bcd_loop number 0 (replicate (Z.to_nat ((digits + 1) / 2)) 0) in
  let! bcd := (if negb (digits mod 2 =? 0) then or_at bcd (digits / 2) 0xf0 else Ok bcd) in
  Ok (digits, toa, bcd).

Definition smsAddressOctets (digits toa : Z) : result Z :=
  if digits <? 0 then Err (ErrText "sms address digit count is invalid") else
  if Z.land toa 0x70 =? 0x50 then Ok ((digits * 7 + 7) / 8) else Ok ((digits + 1) / 2).

Definition nibbles (bcd : bytes) : list Z := concat ((fun item => [Z.land item 0x0f; Z.land (Z.shiftr item 4) 0x0f]) <$> bcd).
(** Once [written] reaches [digits] nothing is read any more. *)
Fixpoint address_loop (ns : list Z) (written digits : Z) (out : bytes) : result bytes :=
  match ns with
  | [] => if written <? digits then Err (ErrText "sms address truncated") else Ok out
  | nibble :: rest =>
      if digits <=? written then Ok out else
      if nibble =? 0x0f then Ok out else
      match smsAddressSemiOctetDigit nibble with
      | None => Err (ErrText "invalid BCD digit")
      | Some digit => address_loop rest (written + 1) digits (out ++ [digit])
      end
  end.
Definition decodeSMSAddress (digits toa : Z) (bcd : bytes) : result bytes :=
  if digits <? 0 then Err (ErrText "sms address digit count is invalid") else
  if Z.land toa 0x70 =? 0x50 then let! septets := unpackSeptets bcd digits 0 in Ok (decodeGSM7 septets) else
  address_loop (nibbles bcd) 0 digits (if Z.land toa 0x70 =? 0x10 then [43] else []).

(** ** RP addresses *)
Definition encodeRPAddress (number : bytes) : result bytes :=
  let number := normalizeSMSNumber number in
  if len number =? 0 then Ok [0x00] else
  let! r := encodeSMSAddress number in
  let '(_, toa, bcd) := r in
  if 254 <? len bcd then Err (ErrText "SMS RP address too long") else
  Ok (to_u8 (1 + len bcd) :: toa :: bcd).
Definition decodeRPAddressValue (value : bytes) : result bytes :=
  match value with
  | [] => Ok []
  | toa :: rest => decodeSMSAddress ((len value - 1) * 2) toa rest
  end.

(** tel:+1 (555) 01-23 and a SIP URI with parameters *)
Example normalize_samples :
  normalizeSMSNumber ([84; 69; 76; 58] ++ [43; 49; 32; 40; 53; 53; 53; 41; 32; 48; 49; 45; 50; 51]) = [43; 49; 53; 53; 53; 48; 49; 50; 51] /\
  normalizeSMSNumber ([115; 105; 112; 58; 43; 49; 50; 59; 120; 64; 104]) = [43; 49; 50].
Proof. split; reflexivity. Qed.

(** ** What is written is read *)
(** A digit as it reads back: the letters in lower case. *)
Definition read_back (c : Z) : Z := if (65 <=? c) && (c <=? 67) then c + 32 else c.
Definition address_char (c : Z) : Prop := is_Some (smsAddressSemiOctet c).
Definition semi (c : Z) : Z := default 0 (smsAddressSemiOctet c).
Lemma address_char_cases c : address_char c ->
  c = 42 \/ c = 35 \/ c = 97 \/ c = 65 \/ c = 98 \/ c = 66 \/ c = 99 \/ c = 67 \/ 48 <= c <= 57.
Proof. intros [d Hd]. revert Hd. unfold smsAddressSemiOctet, is_digit. repeat (case_match; [intros _; lia|]). done. Qed.
Lemma address_char_spec c : address_char c -> 0 <= semi c < 15 /\ smsAddressSemiOctetDigit (semi c) = Some (read_back c) /\ 0 <= c < 128.
Proof.
  intros Hc. assert (Hall : Forall (fun c => address_char c -> 0 <= semi c < 15 /\ smsAddressSemiOctetDigit (semi c) = Some (read_back c) /\ 0 <= c < 128) (seqZ 0 128)).
  { unfold address_char. by_decide. }
  rewrite Forall_forall in Hall. apply Hall; [|done]. apply elem_of_seqZ. pose proof (address_char_cases c Hc). lia.
Qed.

(** Two digits an octet, the last one filled up. *)
Fixpoint octets_of (filler : Z) (ds : list Z) : bytes :=
  match ds with
  | [] => []
  | [d] => [Z.lor d filler]
  | d :: e :: rest => Z.lor d (Z.shiftl e 4) :: octets_of filler rest
  end.
Lemma list_ind2 {A} (P : list A -> Prop) : P [] -> (forall x, P [x]) -> (forall x y l, P l -> P (x :: y :: l)) -> forall l, P l.
Proof.
  intros H0 H1 H2. fix IH 1. intros [|x [|y l]]; [exact H0|apply H1|]. apply H2, IH.
Qed.
Lemma or_at_mid (p q : bytes) b v i : i = len p -> or_at (p ++ b :: q) i v = Ok (p ++ Z.lor b v :: q).
Proof.
  intros ->. unfold or_at. rewrite at_app_r by done. cbn [bind]. f_equal. unfold len. rewrite Nat2Z.id.
  by rewrite insert_app_r_alt, Nat.sub_diag by lia.
Qed.
Lemma len_octets f ds : len (octets_of f ds) = (len ds + 1) / 2.
Proof.
  induction ds as [|d|d e ds IH] using list_ind2; [done|done|]. cbn [octets_of]. rewrite !len_cons, IH.
  replace (1 + (1 + len ds) + 1) with (len ds + 1 + 1 * 2) by lia. rewrite Z.div_add by lia. lia.
Qed.
Lemma bcd_loop_spec number p : Forall address_char number ->
  bcd_loop number (2 * len p) (p ++ replicate (Z.to_nat ((len number + 1) / 2)) 0) = Ok (p ++ octets_of 0 (semi <$> number)).
Proof.
  revert p. induction number as [|c|c e number IH] using list_ind2; intros p H.
  - done.
  - cbn [bcd_loop]. change (Z.to_nat ((len [c] + 1) / 2)) with 1%nat. cbn [replicate]. replace (2 * len p / 2) with (len p) by (rewrite Z.mul_comm, Z.div_mul; lia).
    replace (2 * len p mod 2) with 0 by (rewrite Z.mul_comm, Z.mod_mul; lia). rewrite or_at_mid by done. cbn [bind]. cbn [fmap list_fmap octets_of Z.eqb].
    by rewrite Z.lor_0_l, Z.lor_0_r.
  - apply Forall_cons in H as [Hc H]. apply Forall_cons in H as [He H]. cbn [bcd_loop]. rewrite !len_cons.
    replace (1 + (1 + len number) + 1) with (len number + 1 + 1 * 2) by lia. rewrite Z.div_add by lia. pose proof (len_nonneg number).
    replace (Z.to_nat ((len number + 1) / 2 + 1)) with (S (Z.to_nat ((len number + 1) / 2))) by (assert (0 <= (len number + 1) / 2) by (apply Z.div_pos; lia); lia).
    cbn [replicate]. replace (2 * len p / 2) with (len p) by (rewrite Z.mul_comm, Z.div_mul; lia).
    replace (2 * len p mod 2) with 0 by (rewrite Z.mul_comm, Z.mod_mul; lia). rewrite or_at_mid by done. cbn [bind]. cbn [Z.eqb].
    replace ((2 * len p + 1) / 2) with (len p) by (Z.div_mod_to_equations; lia).
    replace ((2 * len p + 1) mod 2 =? 0) with false by (symmetry; apply Z.eqb_neq; Z.div_mod_to_equations; lia).
    rewrite or_at_mid by done. cbn [bind]. fold (semi c) (semi e). rewrite Z.lor_0_l.
    destruct (address_char_spec e He) as (Hs & _). replace (to_u8 (Z.shiftl (semi e) 4)) with (Z.shiftl (semi e) 4) by (rewrite Z.shiftl_mul_pow2 by lia; symmetry; apply Z.mod_small; lia).
    cbn [fmap list_fmap octets_of]. fold (semi <$> number).
    replace (2 * len p + 1 + 1) with (2 * len (p ++ [Z.lor (semi c) (Z.shiftl (semi e) 4)])) by len_lia.
    set (x := Z.lor (semi c) (Z.shiftl (semi e) 4)). set (z := replicate _ 0).
    replace (p ++ x :: z) with ((p ++ [x]) ++ z) by (by rewrite <- app_assoc). subst z. rewrite IH by done. by rewrite <- app_assoc.
Qed.
Lemma fill_last ds p : 
  (if negb (len ds mod 2 =? 0) then or_at (p ++ octets_of 0 ds) (len p + len ds / 2) 0xf0 else Ok (p ++ octets_of 0 ds)) = Ok (p ++ octets_of 0xf0 ds).
Proof.
  revert p. induction ds as [|d|d e ds IH] using list_ind2; intros p.
  - done.
  - change (negb (len [d] mod 2 =? 0)) with true. cbn [octets_of]. rewrite or_at_mid by (change (len [d] / 2) with 0; lia). by rewrite Z.lor_0_r.
  - cbn [octets_of]. rewrite !len_cons. replace (1 + (1 + len ds)) with (len ds + 1 * 2) by lia. rewrite Z.mod_add, Z.div_add by lia.
    set (x := Z.lor d (Z.shiftl e 4)). specialize (IH (p ++ [x])). revert IH. replace (len (p ++ [x]) + len ds / 2) with (len p + (len ds / 2 + 1)) by len_lia.
    rewrite <- !(app_assoc p). done.
Qed.
Lemma nibbles_of ds : Forall (fun d => 0 <= d < 15) ds ->
  nibbles (octets_of 0xf0 ds) = ds ++ (if len ds mod 2 =? 0 then [] else [15]) /\ bytes_ok (octets_of 0xf0 ds).
Proof.
  assert (Hall : Forall (fun d => Forall (fun e => Z.land (Z.lor d (Z.shiftl e 4)) 0x0f = d /\ Z.land (Z.shiftr (Z.lor d (Z.shiftl e 4)) 4) 0x0f = e /\
    is_u8 (Z.lor d (Z.shiftl e 4))) (seqZ 0 16)) (seqZ 0 16)) by by_decide.
  assert (Hpair : forall d e, 0 <= d < 16 -> 0 <= e < 16 -> Z.land (Z.lor d (Z.shiftl e 4)) 0x0f = d /\ Z.land (Z.shiftr (Z.lor d (Z.shiftl e 4)) 4) 0x0f = e /\
    is_u8 (Z.lor d (Z.shiftl e 4))).
  { intros d e Hd He. rewrite Forall_forall in Hall. specialize (Hall d ltac:(apply elem_of_seqZ; lia)). rewrite Forall_forall in Hall. apply Hall, elem_of_seqZ. lia. }
  clear Hall. induction ds as [|d|d e ds IH] using list_ind2; intros H.
  - split; [done|constructor].
  - apply Forall_cons in H as [Hd _]. destruct (Hpair d 15 ltac:(lia) ltac:(lia)) as (E1 & E2 & E3). change (Z.shiftl 15 4) with 0xf0 in *.
    cbn [octets_of]. unfold nibbles. cbn [fmap list_fmap concat app]. rewrite E1, E2. split; [done|]. apply bytes_ok_cons_2; [done|constructor].
  - apply Forall_cons in H as [Hd H]. apply Forall_cons in H as [He H]. destruct (Hpair d e ltac:(lia) ltac:(lia)) as (E1 & E2 & E3).
    destruct (IH H) as [IH1 IH2]. split.
    + cbn [octets_of]. unfold nibbles in *. cbn [fmap list_fmap concat app]. rewrite E1, E2. fold (fmap (M := list) (fun item => [Z.land item 15; Z.land (Z.shiftr item 4) 15])).
      rewrite IH1. rewrite !len_cons. replace (1 + (1 + len ds)) with (len ds + 1 * 2) by lia. by rewrite Z.mod_add by lia.
    + cbn [octets_of]. by apply bytes_ok_cons_2.
Qed.
Lemma address_loop_spec number tail written digits out : Forall address_char number ->
  written + len number <= digits -> (tail = [] /\ digits = written + len number \/ tail = [15]) ->
  address_loop ((semi <$> number) ++ tail) written digits out = Ok (out ++ (read_back <$> number)).
Proof.
  intros H. revert written out. induction H as [|c number Hc _ IH]; intros written out Hle Ht.
  - cbn [fmap list_fmap app]. rewrite app_nil_r. change (len []) with 0 in *. destruct Ht as [[-> Hd]| ->]; cbn [address_loop].
    + by replace (written <? digits) with false by lia.
    + by destruct (digits <=? written).
  - rewrite len_cons in *. pose proof (len_nonneg number). cbn [fmap list_fmap app address_loop]. replace (digits <=? written) with false by lia.
    destruct (address_char_spec c Hc) as (Hs & Hd & _). replace (semi c =? 15) with false by lia. rewrite Hd.
    change ((fix list_fmap (l : list Z) := match l with [] => [] | x :: l0 => semi x :: list_fmap l0 end) number) with (semi <$> number).
    rewrite IH; [by rewrite <- app_assoc|lia|]. destruct Ht as [[-> ?]| ->]; [left; split; [done|lia]|by right].
Qed.

Lemma encodeSMSAddress_spec number digits toa bcd : encodeSMSAddress number = Ok (digits, toa, bcd) ->
  exists plus national, normalizeSMSNumber number = plus ++ national /\ (plus = [43] /\ toa = 0x91 \/ plus = [] /\ toa = 0x81) /\
    Forall address_char national /\ digits = len national /\ 0 < digits /\ bcd = octets_of 0xf0 (semi <$> national) /\ len bcd = (digits + 1) / 2.
Proof.
  unfold encodeSMSAddress. cbv zeta. destruct (len (normalizeSMSNumber number) =? 0); [done|].
  set (split_plus := match normalizeSMSNumber number with 43 :: rest => _ | _ => _ end).
  assert (Hsp : exists plus national, normalizeSMSNumber number = plus ++ national /\
    (plus = [43] /\ split_plus = (0x91, national) \/ plus = [] /\ split_plus = (0x81, national))).
  { subst split_plus. destruct (normalizeSMSNumber number) as [|z l]; [by exists [], []; auto|].
    destruct (decide (z = 43)) as [->|Hne]; [exists [43], l; auto|]. exists [], (z :: l). split; [done|right].
    split; [done|]. destruct z as [|q|q]; try done. repeat (destruct q as [q|q|]; try done). }
  destruct Hsp as (plus & national & Hn & Hsp). destruct split_plus as [toa' number'].
  assert (Hq : number' = national /\ (plus = [43] /\ toa' = 0x91 \/ plus = [] /\ toa' = 0x81)) by (destruct Hsp as [[-> [= -> ->]]|[-> [= -> ->]]]; auto).
  destruct Hq as [-> Hq]. clear Hsp. destruct (len national =? 0) eqn:Hl; [done|].
  destruct (existsb _ (runes national)) eqn:Hex; [done|].
  assert (Hall : Forall address_char (runes national)).
  { apply Forall_forall. intros r Hr. unfold address_char. destruct (smsAddressSemiOctet r) eqn:E; [eauto|]. exfalso.
    apply not_true_iff_false in Hex. apply Hex, existsb_exists. exists r. split; [by apply list_elem_of_In|by rewrite E]. }
  assert (Hra : runes national = national).
  { apply runes_ascii. eapply Forall_impl; [exact Hall|]. intros r Hr. cbv beta. destruct (address_char_spec r Hr) as (_ & _ & ?). lia. }
  rewrite Hra in Hall. pose proof (bcd_loop_spec national [] Hall) as Hb. cbn [app] in Hb. change (2 * len []) with 0 in Hb. rewrite Hb. cbn [bind].
  pose proof (fill_last (semi <$> national) []) as Hf. cbn [app] in Hf. rewrite len_fmap in Hf. change (len [] + len national / 2) with (0 + len national / 2) in Hf.
  rewrite Z.add_0_l in Hf. rewrite Hf. cbn [bind]. intros [= <- <- <-]. exists plus, national. split_and!; auto.
  - pose proof (len_nonneg national). lia.
  - by rewrite len_octets, len_fmap.
Qed.
Lemma semis_range national : Forall address_char national -> Forall (fun d => 0 <= d < 15) (semi <$> national).
Proof. intros H. apply Forall_fmap. eapply Forall_impl; [exact H|]. intros c Hc. apply (address_char_spec c Hc). Qed.
Lemma encoded_address_read plus national toa digits : (plus = [43] /\ toa = 0x91 \/ plus = [] /\ toa = 0x81) -> Forall address_char national ->
  (digits = len national \/ digits = 2 * ((len national + 1) / 2)) ->
  decodeSMSAddress digits toa (octets_of 0xf0 (semi <$> national)) = Ok (read_back <$> plus ++ national).
Proof.
  intros Hp H Hd. pose proof (len_nonneg national). unfold decodeSMSAddress.
  assert (Hge : len national <= digits) by (destruct Hd; Z.div_mod_to_equations; lia). replace (digits <? 0) with false by lia.
  assert (Ht : (Z.land toa 0x70 =? 0x50) = false /\ (if Z.land toa 0x70 =? 0x10 then [43] else []) = read_back <$> plus) by (by destruct Hp as [[-> ->]|[-> ->]]).
  destruct Ht as [-> ->]. destruct (nibbles_of (semi <$> national) (semis_range _ H)) as [-> _]. rewrite fmap_app.
  apply address_loop_spec; [done|lia|]. rewrite len_fmap. destruct (len national mod 2 =? 0) eqn:E; [left|by right]. split; [done|].
  destruct Hd; [lia|]. apply Z.eqb_eq in E. Z.div_mod_to_equations. lia.
Qed.
Lemma address_encoded number digits toa bcd : encodeSMSAddress number = Ok (digits, toa, bcd) ->
  is_u8 toa /\ bytes_ok bcd /\ 0 < digits <= len (normalizeSMSNumber number) /\ len bcd = (digits + 1) / 2 /\ smsAddressOctets digits toa = Ok (len bcd) /\
  decodeSMSAddress digits toa bcd = Ok (read_back <$> normalizeSMSNumber number) /\
  decodeRPAddressValue (toa :: bcd) = Ok (read_back <$> normalizeSMSNumber number).
Proof.
  intros (plus & national & -> & Hp & Hall & -> & Hpos & -> & Hl)%encodeSMSAddress_spec.
  destruct (nibbles_of (semi <$> national) (semis_range _ Hall)) as [_ Hok]. split; [by destruct Hp as [[_ ->]|[_ ->]]|]. split; [done|]. split; [split|split_and!].
  - done.
  - rewrite len_app. pose proof (len_nonneg plus). lia.
  - done.
  - unfold smsAddressOctets. replace (len national <? 0) with false by lia. rewrite Hl. by destruct Hp as [[_ ->]|[_ ->]].
  - apply encoded_address_read; auto.
  - unfold decodeRPAddressValue. apply encoded_address_read; auto. right. rewrite len_cons, Hl. lia.
Qed.

(** Addresses: the semi-octets that [encodeSMSAddress] writes for a number,
    a SIP or a tel URI are as many octets as a receiver takes from the digit
    count and the type of address, and they decode, in a TPDU as in an RPDU, to
    the normalised number (its letters in lower case). *)
Theorem address_roundtrip number digits toa bcd : encodeSMSAddress number = Ok (digits, toa, bcd) ->
  smsAddressOctets digits toa = Ok (len bcd) /\
  decodeSMSAddress digits toa bcd = Ok (read_back <$> normalizeSMSNumber number) /\
  decodeRPAddressValue (toa :: bcd) = Ok (read_back <$> normalizeSMSNumber number).
Proof. intros H%address_encoded. tauto. Qed.
(** sip:+15550@host *)
Lemma address_roundtrip_witness :
  smsAddressOctets 5 0x91 = Ok 3 /\ decodeSMSAddress 5 0x91 [0x51; 0x55; 0xf0] = Ok [43; 49; 53; 53; 53; 48] /\
  decodeRPAddressValue [0x91; 0x51; 0x55; 0xf0] = Ok [43; 49; 53; 53; 53; 48].
Proof. apply (address_roundtrip [115; 105; 112; 58; 43; 49; 53; 53; 53; 48; 64; 104; 111; 115; 116] 5 0x91 [0x51; 0x55; 0xf0]). vm_compute. reflexivity. Defined.

Lemma smsAddressOctets_safe digits toa : safe (smsAddressOctets digits toa) (fun n => 0 <= n).
Proof. unfold smsAddressOctets. destruct (digits <? 0) eqn:?; [done|]. destruct (_ =? _); cbn; apply Z.div_pos; lia. Qed.
Lemma address_loop_returns ns written digits out : returns (address_loop ns written digits out).
Proof.
  revert written out. induction ns as [|n ns IH]; intros written out; cbn [address_loop]; [by destruct (written <? digits)|].
  destruct (digits <=? written); [done|]. destruct (n =? 15); [done|]. destruct (smsAddressSemiOctetDigit n); [apply IH|done].
Qed.
Lemma decodeSMSAddress_returns digits toa bcd : bytes_ok bcd -> returns (decodeSMSAddress digits toa bcd).
Proof.
  intros Hb. unfold decodeSMSAddress. destruct (digits <? 0); [done|]. destruct (Z.land toa 0x70 =? 0x50); [|apply address_loop_returns].
  eapply safe_call; [by apply unpackSeptets_safe|]. done.
Qed.
Lemma decodeRPAddressValue_returns value : bytes_ok value -> returns (decodeRPAddressValue value).
Proof. intros Hb. destruct value as [|toa rest]; [done|]. apply decodeSMSAddress_returns. by apply Forall_cons in Hb as [_ ?]. Qed.
Lemma encodeSMSAddress_returns number : returns (encodeSMSAddress number).
Proof.
  unfold encodeSMSAddress. cbv zeta. destruct (len (normalizeSMSNumber number) =? 0); [done|].
  destruct (match normalizeSMSNumber number with 43 :: rest => _ | _ => _ end) as [toa national]. destruct (len national =? 0); [done|].
  destruct (existsb _ (runes national)) eqn:Hex; [done|].
  assert (Hall : Forall address_char (runes national)).
  { apply Forall_forall. intros r Hr. unfold address_char. destruct (smsAddressSemiOctet r) eqn:E; [eauto|]. exfalso.
    apply not_true_iff_false in Hex. apply Hex, existsb_exists. exists r. split; [by apply list_elem_of_In|by rewrite E]. }
  assert (Hra : runes national = national).
  { apply runes_ascii. eapply Forall_impl; [exact Hall|]. intros r Hr. cbv beta. destruct (address_char_spec r Hr) as (_ & _ & ?). lia. }
  rewrite Hra in Hall. pose proof (bcd_loop_spec national [] Hall) as Hb. cbn [app] in Hb. change (2 * len []) with 0 in Hb. rewrite Hb. cbn [bind].
  pose proof (fill_last (semi <$> national) []) as Hf. cbn [app] in Hf. rewrite len_fmap in Hf. change (len [] + len national / 2) with (0 + len national / 2) in Hf.
  rewrite Z.add_0_l in Hf. rewrite Hf. done.
Qed.

(** RP addresses. *)
Lemma encodeRPAddress_spec number out : encodeRPAddress number = Ok out -> bytes_ok out /\
  exists value, out = len value :: value /\ len value <= 255 /\
    (value = [] /\ normalizeSMSNumber number = [] \/
     0 < len value /\ normalizeSMSNumber number <> [] /\ decodeRPAddressValue value = Ok (read_back <$> normalizeSMSNumber (normalizeSMSNumber number))).
Proof.
  unfold encodeRPAddress. cbv zeta. set (n := normalizeSMSNumber number). destruct (len n =? 0) eqn:Hn.
  - intros [= <-]. split; [by_decide|]. exists []. split_and!; [done|done|left]. split; [done|]. apply len_zero. lia.
  - intros ([[digits toa] bcd] & E & H)%bind_ok. apply address_encoded in E as (Ht & Hb & Hd & Hl & _ & _ & Hr).
    destruct (254 <? len bcd) eqn:H254; [done|]. injection H as <-. pose proof (len_nonneg bcd).
    assert (Hu : to_u8 (1 + len bcd) = 1 + len bcd) by (apply Z.mod_small; lia).
    split; [apply bytes_ok_cons_2; [apply to_u8_range|by apply bytes_ok_cons_2]|].
    exists (toa :: bcd). rewrite Hu. rewrite len_cons. split_and!; [done|lia|right]. split_and!; [lia|intros E; rewrite E in Hn; done|exact Hr].
Qed.

(** An address of two alphanumeric characters, "Hi", is fourteen bits, four useful
    semi-octets, and its length octet is 4 (3GPP TS 23.040, 9.1.2.5).  The decoder
    takes the length for a number of septets: it expects four octets, and reads a
    third character from the two. *)
Example alphanumeric_length_in_septets :
  smsAddressOctets 4 0xd0 = Ok 4 /\ decodeSMSAddress 4 0xd0 [0xc8; 0x34] = Ok [72; 105; 64] /\ decodeSMSAddress 2 0xd0 [0xc8; 0x34] = Ok [72; 105].
Proof. split_and!; vm_compute; reflexivity. Qed.
