(* ===== verification/SmsRp.v ===== *)
(** * The relay layer (runtimehost/messaging/sms_pdu.go, RP-DATA, RP-ACK and RP-ERROR)

    The RPDUs that carry TPDUs, their causes, and what a cause means for a retry. *)
From stdpp Require Import pretty.
From S2P Require Import Prelude GoStrings Errors SmsAddress.
#[local] Open Scope string_scope.
#[local] Open Scope list_scope.
#[local] Open Scope Z_scope.

Definition SMSRPCauseTemporaryFailure := 41.
(** The strings of [SMSRPDUKind] and [SMSRPCauseClass], as enumerations. *)
Inductive SMSRPDUKind := SMSRPDUKindUnknown | SMSRPDUKindData | SMSRPDUKindAck | SMSRPDUKindError.
Inductive SMSRPCauseClass :=
| SMSRPCauseClassUnknown
| SMSRPCauseClassAddressing
| SMSRPCauseClassBarring
| SMSRPCauseClassSubscriber
| SMSRPCauseClassTemporaryNetwork
| SMSRPCauseClassFacility
| SMSRPCauseClassProtocol
| SMSRPCauseClassInterworking.
#[export] Instance SMSRPDUKind_eq_dec : EqDecision SMSRPDUKind.
Proof. solve_decision. Defined.
#[export] Instance SMSRPCauseClass_eq_dec : EqDecision SMSRPCauseClass.
Proof. solve_decision. Defined.

Record SMSRPDU := mkRPDU {
  rp_Kind : SMSRPDUKind;
  rp_RawType : Z;
  rp_MR : Z;
  rp_Cause : Z;
  rp_CauseDiagnostics : bytes;
  rp_Originator : bytes;
  rp_Destination : bytes;
  rp_TPDU : bytes
}.
Record SMSRPCauseDisposition := mkCause {
  cd_Cause : Z;
  cd_Class : SMSRPCauseClass;
  cd_Text : string;
  cd_Temporary : bool;
  cd_Permanent : bool;
  cd_Retryable : bool;
  cd_Terminal : bool;
  cd_RegistrationRecoverable : bool;
  cd_SubscriberActionNeeded : bool;
  cd_ProtocolError : bool
}.

(** ** Writing *)
Definition BuildSMSRPData (rpMR : Z) (smsc tpdu : bytes) : result bytes :=
  if 255 <? len tpdu then Err (ErrText "SMS TPDU too long") else
  let! rpDA := encodeRPAddress smsc in
  Ok ([0x00; rpMR; 0x00] ++ rpDA ++ [to_u8 (len tpdu)] ++ tpdu).
Definition BuildSMSRPAck (rpMR : Z) : bytes := [0x02; rpMR].
Definition BuildSMSRPAckWithTPDU (rpMR : Z) (tpdu : bytes) : result bytes :=
  if 255 <? len tpdu then Err (ErrText "SMS TPDU too long") else Ok ([0x02; rpMR; to_u8 (len tpdu)] ++ tpdu).
Definition BuildSMSRPError (rpMR cause : Z) : bytes := [0x04; rpMR; 0x01; cause; 0x00].
Definition BuildSMSRPErrorWithDiagnostics (rpMR cause : Z) (diagnostics tpdu : bytes) : result bytes :=
  if 254 <? len diagnostics then Err (ErrText "SMS RP-ERROR diagnostics too long") else
  if 255 <? len tpdu then Err (ErrText "SMS TPDU too long") else
  Ok ([0x04; rpMR; to_u8 (1 + len diagnostics); cause] ++ diagnostics ++ [to_u8 (len tpdu)] ++ tpdu).

(** ** Reading *)
(** One length and value of [parseSMSRPDataFields], from the offset [i]: the address
    and the offset behind it.  The text put around an error of the address leaves
    its chain as it is. *)
Definition rp_address (body : bytes) (i : Z) (what : string) : result (bytes * Z) :=
  if len body <=? i then Err (ErrText (what +:+ " address missing")) else
  let! l := at_ body i in
  let i := i + 1 in
  if len body <? i + l then Err (ErrText (what +:+ " address truncated")) else
  let! a := (if 0 <? l then
               let! value := slice body i (i + l) in
               decodeRPAddressValue value
             else Ok []) in
  Ok (a, i + l).
Definition parseSMSRPDataFields (body : bytes) : result (bytes * bytes * bytes) :=
  if len body <? 5 then Err (ErrText "RP-DATA too short") else
  let! r := rp_address body 2 "RP originator" in
  let '(originator, i) := r in
  let! r := rp_address body i "RP destination" in
  let '(destination, i) := r in
  if len body <=? i then Err (ErrText "RP user data missing") else
  let! udLen := at_ body i in
  let i := i + 1 in
  if len body <? i + udLen then Err (ErrText "RP user data truncated") else
  let stop := i + udLen in
  if negb (stop =? len body) then Err (ErrText "RP-DATA has trailing data") else
  let! tpdu := slice body i stop in
  Ok (originator, destination, tpdu).

(** [cause, diagnostics, next] *)
Definition parseSMSRPErrorCauseFields (body : bytes) : result (Z * bytes * Z) :=
  if len body <? 4 then Err (ErrText "RP-ERROR too short") else
  let! b0 := at_ body 0 in
  if negb (b0 =? 0x04) && negb (b0 =? 0x05) then Err (ErrText "not RP-ERROR") else
  let! causeLen := at_ body 2 in
  if causeLen <=? 0 then Err (ErrText "RP-ERROR cause IE empty") else
  if len body <? 3 + causeLen then Err (ErrText "RP-ERROR cause IE truncated") else
  let! diagnostics := (if 1 <? causeLen then slice body 4 (3 + causeLen) else Ok []) in
  let! b3 := at_ body 3 in
  Ok (Z.land b3 0x7f, diagnostics, 3 + causeLen).
Definition ParseSMSRPErrorCause (body : bytes) : result Z :=
  let! r := parseSMSRPErrorCauseFields body in let '(cause, _, _) := r in Ok cause.

Definition parseSMSRPUserData (body : bytes) (offset : Z) (label : string) : result bytes :=
  if len body <=? offset then Ok [] else
  let! udLen := at_ body offset in
  let offset := offset + 1 in
  if len body <? offset + udLen then Err (ErrText (label +:+ " user data truncated")) else
  if udLen =? 0 then
    if negb (offset =? len body) then Err (ErrText (label +:+ " has trailing data")) else Ok []
  else
    let stop := offset + udLen in
    if negb (stop =? len body) then Err (ErrText (label +:+ " has trailing data")) else
    slice body offset stop.

Definition ParseSMSRPDU (body : bytes) : result SMSRPDU :=
  if len body <? 2 then Err (ErrText "RPDU too short") else
  let! ty := at_ body 0 in
  let! mr := at_ body 1 in
  if (ty =? 0x00) || (ty =? 0x01) then
    let! r := parseSMSRPDataFields body in
    let '(originator, destination, tpdu) := r in
    Ok (mkRPDU SMSRPDUKindData ty mr 0 [] originator destination tpdu)
  else if (ty =? 0x02) || (ty =? 0x03) then
    let! tpdu := parseSMSRPUserData body 2 "RP-ACK" in
    Ok (mkRPDU SMSRPDUKindAck ty mr 0 [] [] [] tpdu)
  else if (ty =? 0x04) || (ty =? 0x05) then
    let! r := parseSMSRPErrorCauseFields body in
    let '(cause, diagnostics, next) := r in
    let! tpdu := parseSMSRPUserData body next "RP-ERROR" in
    Ok (mkRPDU SMSRPDUKindError ty mr cause diagnostics [] [] tpdu)
  else Err (ErrText "unsupported RPDU type").
(** [rpMR, tpdu] *)
Definition ParseSMSRPData (body : bytes) : result (Z * bytes) :=
  let! rpdu := ParseSMSRPDU body in
  if negb (bool_decide (rp_Kind rpdu = SMSRPDUKindData)) then Err (ErrText "not RP-DATA") else Ok (rp_MR rpdu, rp_TPDU rpdu).

(** ** Causes *)
Definition smsRPCauseText (code : Z) : string :=
  match code with
  | 1 => "RP cause 1: unassigned number"
  | 8 => "RP cause 8: operator determined barring"
  | 10 => "RP cause 10: call barred"
  | 21 => "RP cause 21: short message transfer rejected"
  | 22 => "RP cause 22: memory capacity exceeded"
  | 27 => "RP cause 27: destination out of order"
  | 28 => "RP cause 28: unidentified subscriber"
  | 29 => "RP cause 29: facility rejected"
  | 30 => "RP cause 30: unknown subscriber"
  | 38 => "RP cause 38: network out of order"
  | 41 => "RP cause 41: temporary failure"
  | 42 => "RP cause 42: congestion"
  | 47 => "RP cause 47: resources unavailable"
  | 50 => "RP cause 50: requested facility not subscribed"
  | 69 => "RP cause 69: requested facility not implemented"
  | 81 => "RP cause 81: invalid short message transfer reference"
  | 95 => "RP cause 95: semantically incorrect message"
  | 96 => "RP cause 96: invalid mandatory information"
  | 97 => "RP cause 97: message type not implemented"
  | 98 => "RP cause 98: message not compatible with SMS protocol state"
  | 99 => "RP cause 99: information element not implemented"
  | 111 => "RP cause 111: protocol error"
  | 127 => "RP cause 127: interworking unspecified"
  | _ => ""
  end.
Definition RPCauseText (code : Z) : string :=
  if code =? 0 then "" else
  if negb (bool_decide (smsRPCauseText code = "")) then smsRPCauseText code else "RP cause " +:+ pretty code.

Definition one_of (cause : Z) (l : list Z) : bool := existsb (Z.eqb cause) l.
Definition ClassifySMSRPCause (cause : Z) : SMSRPCauseDisposition :=
  let text := RPCauseText cause in
  if one_of cause [1; 27] then mkCause cause SMSRPCauseClassAddressing text false true false true false false false
  else if one_of cause [8; 10] then mkCause cause SMSRPCauseClassBarring text false true false true false true false
  else if one_of cause [22; 28; 30] then mkCause cause SMSRPCauseClassSubscriber text false true false true false (cause =? 22) false
  else if one_of cause [38; SMSRPCauseTemporaryFailure; 42; 47] then mkCause cause SMSRPCauseClassTemporaryNetwork text true false true false true false false
  else if one_of cause [21; 29; 50; 69] then
    let temporary := (cause =? 21) || (cause =? 29) in
    mkCause cause SMSRPCauseClassFacility text temporary ((cause =? 50) || (cause =? 69)) temporary true false (cause =? 50) false
  else if one_of cause [81; 95; 96; 97; 98; 99; 111] then mkCause cause SMSRPCauseClassProtocol text false true false true false false true
  else if one_of cause [127] then mkCause cause SMSRPCauseClassInterworking text true false true false true false false
  else mkCause cause SMSRPCauseClassUnknown text false true false true false false false.

(** ** Round trips *)
Lemma rp_user_data pre tpdu label : len tpdu <= 255 -> parseSMSRPUserData (pre ++ len tpdu :: tpdu) (len pre) label = Ok tpdu.
Proof.
  intros Hl. unfold parseSMSRPUserData. pose proof (len_nonneg tpdu). pose proof (len_nonneg pre). rewrite !len_app, !len_cons.
  replace (len pre + (1 + len tpdu) <=? len pre) with false by lia. rewrite at_app_r by done. cbn [bind]. cbv zeta.
  replace (len pre + (1 + len tpdu) <? len pre + 1 + len tpdu) with false by lia.
  destruct (len tpdu =? 0) eqn:E.
  - replace (len pre + 1 =? len pre + (1 + len tpdu)) with true by lia. cbn [negb]. by rewrite (len_zero tpdu) by lia.
  - replace (len pre + 1 + len tpdu =? len pre + (1 + len tpdu)) with true by lia. cbn [negb].
    rewrite (slice_eq _ (pre ++ [len tpdu]) tpdu []); [done|by rewrite app_nil_r, <- app_assoc|len_lia|len_lia].
Qed.
Lemma rp_address_read pre value rest what : len value <= 255 ->
  rp_address (pre ++ (len value :: value) ++ rest) (len pre) what =
    let! a := (if 0 <? len value then decodeRPAddressValue value else Ok []) in Ok (a, len pre + 1 + len value).
Proof.
  intros Hl. unfold rp_address. pose proof (len_nonneg value). pose proof (len_nonneg pre). pose proof (len_nonneg rest). rewrite !len_app, !len_cons.
  replace (len pre + (1 + len value + len rest) <=? len pre) with false by lia. cbn [app]. rewrite at_app_r by done. cbn [bind]. cbv zeta.
  replace (len pre + (1 + len value + len rest) <? len pre + 1 + len value) with false by lia.
  rewrite (slice_eq _ (pre ++ [len value]) value rest); [|by rewrite <- app_assoc|len_lia|len_lia]. cbn [bind]. by destruct (0 <? len value).
Qed.

(** The destination a receiver reads: the number is normalised twice. *)
Definition rp_destination (smsc : bytes) : bytes :=
  match normalizeSMSNumber smsc with [] => [] | n => read_back <$> normalizeSMSNumber n end.
Lemma rp_data_read rpMR smsc tpdu body : BuildSMSRPData rpMR smsc tpdu = Ok body ->
  ParseSMSRPDU body = Ok (mkRPDU SMSRPDUKindData 0x00 rpMR 0 [] [] (rp_destination smsc) tpdu).
Proof.
  unfold BuildSMSRPData. destruct (255 <? len tpdu) eqn:Ht; [done|]. pose proof (len_nonneg tpdu).
  intros (da & E & [= <-])%bind_ok. apply encodeRPAddress_spec in E as (_ & value & -> & Hl & Hv).
  replace (to_u8 (len tpdu)) with (len tpdu) by (symmetry; apply Z.mod_small; lia). pose proof (len_nonneg value).
  match goal with |- ParseSMSRPDU ?b = _ => remember b as body eqn:Hb end.
  change (body = [0x00; rpMR; 0x00] ++ (len value :: value) ++ [len tpdu] ++ tpdu) in Hb.
  assert (Hlen : len body = 5 + len value + len tpdu) by (rewrite Hb; len_lia).
  assert (Hdest : (if 0 <? len value then decodeRPAddressValue value else Ok (E := error) []) = Ok (rp_destination smsc)).
  { unfold rp_destination. destruct Hv as [[-> ->]|(Hp & Hn & ->)]; [done|]. replace (0 <? len value) with true by lia. by destruct (normalizeSMSNumber smsc). }
  unfold ParseSMSRPDU. replace (len body <? 2) with false by lia.
  assert (Hb0 : at_ (E := error) body 0 = Ok 0x00) by (rewrite Hb; done). assert (Hb1 : at_ (E := error) body 1 = Ok rpMR) by (rewrite Hb; done).
  rewrite Hb0. cbn [bind]. rewrite Hb1. cbn [bind Z.eqb orb]. unfold parseSMSRPDataFields. replace (len body <? 5) with false by lia.
  assert (Ho : rp_address body 2 "RP originator" = Ok ([], 3)).
  { rewrite Hb. apply (rp_address_read [0x00; rpMR] [] ((len value :: value) ++ [len tpdu] ++ tpdu)). done. }
  rewrite Ho. cbn [bind].
  assert (Hd : rp_address body 3 "RP destination" = Ok (rp_destination smsc, 4 + len value)).
  { pose proof (rp_address_read [0x00; rpMR; 0x00] value ([len tpdu] ++ tpdu) "RP destination" Hl) as E. rewrite Hdest in E.
    change (len [0; rpMR; 0]) with 3 in E. rewrite Hb, E. cbn [bind]. by replace (3 + 1 + len value) with (4 + len value) by lia. }
  rewrite Hd. cbn [bind]. replace (len body <=? 4 + len value) with false by lia.
  assert (Hu : at_ (E := error) body (4 + len value) = Ok (len tpdu)).
  { rewrite Hb. change ([0x00; rpMR; 0x00] ++ (len value :: value) ++ [len tpdu] ++ tpdu) with (([0x00; rpMR; 0x00; len value] ++ value) ++ len tpdu :: tpdu).
    apply at_app_r. len_lia. }
  rewrite Hu. cbn [bind]. cbv zeta. replace (len body <? 4 + len value + 1 + len tpdu) with false by lia.
  replace (4 + len value + 1 + len tpdu =? len body) with true by lia. cbn [negb].
  rewrite (slice_eq body ([0x00; rpMR; 0x00] ++ (len value :: value) ++ [len tpdu]) tpdu []); [done| |len_lia|len_lia].
  rewrite Hb, app_nil_r. cbn [app]. by rewrite <- app_assoc.
Qed.
Lemma rp_error_read rpMR cause diagnostics tpdu : 0 <= cause < 128 -> len diagnostics <= 254 -> len tpdu <= 255 ->
  ParseSMSRPDU ([0x04; rpMR; 1 + len diagnostics; cause] ++ diagnostics ++ [len tpdu] ++ tpdu) =
    Ok (mkRPDU SMSRPDUKindError 0x04 rpMR cause diagnostics [] [] tpdu).
Proof.
  intros Hc Hd Ht. pose proof (len_nonneg diagnostics). pose proof (len_nonneg tpdu).
  set (body := _ ++ _). assert (Hb : body = ([0x04; rpMR; 1 + len diagnostics; cause] ++ diagnostics) ++ len tpdu :: tpdu) by (unfold body; by rewrite <- app_assoc).
  assert (Hlen : len body = 5 + len diagnostics + len tpdu) by (rewrite Hb; len_lia).
  unfold ParseSMSRPDU. replace (len body <? 2) with false by lia.
  change (at_ body 0) with (@Ok error Z 0x04). change (at_ body 1) with (@Ok error Z rpMR). cbn [bind Z.eqb orb Pos.eqb].
  unfold parseSMSRPErrorCauseFields. replace (len body <? 4) with false by lia. change (at_ body 0) with (@Ok error Z 0x04). cbn [bind Z.eqb negb andb Pos.eqb].
  change (at_ body 2) with (@Ok error Z (1 + len diagnostics)). cbn [bind]. replace (1 + len diagnostics <=? 0) with false by lia.
  replace (len body <? 3 + (1 + len diagnostics)) with false by lia.
  assert (Hdg : (if 1 <? 1 + len diagnostics then slice body 4 (3 + (1 + len diagnostics)) else Ok (E := error) []) = Ok diagnostics).
  { destruct (1 <? 1 + len diagnostics) eqn:E; [|by rewrite (len_zero diagnostics) by lia].
    apply (slice_eq _ [0x04; rpMR; 1 + len diagnostics; cause] diagnostics ([len tpdu] ++ tpdu)); [done|done|len_lia]. }
  rewrite Hdg. cbn [bind]. change (at_ body 3) with (@Ok error Z cause). cbn [bind].
  replace (Z.land cause 0x7f) with cause by (change 0x7f with (Z.ones 7); rewrite Z.land_ones by lia; symmetry; by apply Z.mod_small).
  rewrite Hb. replace (3 + (1 + len diagnostics)) with (len ([0x04; rpMR; 1 + len diagnostics; cause] ++ diagnostics)) by len_lia.
  by rewrite rp_user_data.
Qed.
Lemma rp_ack_read rpMR tpdu : len tpdu <= 255 -> ParseSMSRPDU ([0x02; rpMR; len tpdu] ++ tpdu) = Ok (mkRPDU SMSRPDUKindAck 0x02 rpMR 0 [] [] [] tpdu).
Proof.
  intros Ht. pose proof (len_nonneg tpdu). set (body := _ ++ _). assert (Hlen : len body = 3 + len tpdu) by (unfold body; len_lia).
  unfold ParseSMSRPDU. replace (len body <? 2) with false by lia.
  change (at_ body 0) with (@Ok error Z 0x02). change (at_ body 1) with (@Ok error Z rpMR). cbn [bind Z.eqb orb Pos.eqb].
  pose proof (rp_user_data [0x02; rpMR] tpdu "RP-ACK" Ht) as E. change (len [2; rpMR]) with 2 in E. change ([2; rpMR] ++ len tpdu :: tpdu) with body in E. by rewrite E.
Qed.

(** RPDUs: what the builders write, [ParseSMSRPDU] reads as what they were
    given: an RP-DATA with its reference, the service centre it is addressed to
    and its TPDU, an RP-ACK, an RP-ERROR with its cause (seven bits),
    diagnostics and TPDU; a TPDU of more than 255 octets is refused. *)
Theorem rpdu_roundtrip rpMR cause smsc diagnostics tpdu :
  0 <= cause < 128 ->
  (forall body, BuildSMSRPData rpMR smsc tpdu = Ok body ->
     ParseSMSRPDU body = Ok (mkRPDU SMSRPDUKindData 0x00 rpMR 0 [] []
       (rp_destination smsc) tpdu)) /\
  ParseSMSRPDU (BuildSMSRPAck rpMR) = Ok (mkRPDU SMSRPDUKindAck 0x02 rpMR 0 [] [] [] []) /\
  ParseSMSRPDU (BuildSMSRPError rpMR cause) = Ok (mkRPDU SMSRPDUKindError 0x04 rpMR cause [] [] [] []) /\
  (let ack := BuildSMSRPAckWithTPDU rpMR tpdu in
   if 255 <? len tpdu then exists e, ack = Err e else exists body, ack = Ok body /\ ParseSMSRPDU body = Ok (mkRPDU SMSRPDUKindAck 0x02 rpMR 0 [] [] [] tpdu)) /\
  (let error := BuildSMSRPErrorWithDiagnostics rpMR cause diagnostics tpdu in
   if (254 <? len diagnostics) || (255 <? len tpdu) then exists e, error = Err e
   else exists body, error = Ok body /\ ParseSMSRPDU body = Ok (mkRPDU SMSRPDUKindError 0x04 rpMR cause diagnostics [] [] tpdu)).
Proof.
  intros Hc. assert (Hu8 : forall n, 0 <= n <= 255 -> to_u8 n = n) by (intros n Hn; apply Z.mod_small; lia).
  pose proof (len_nonneg tpdu) as Ht. pose proof (len_nonneg diagnostics) as Hdg. split; [apply rp_data_read|]. split; [done|]. split; [|split].
  - apply (rp_error_read rpMR cause [] []); done.
  - unfold BuildSMSRPAckWithTPDU. cbv zeta. destruct (255 <? len tpdu) eqn:E; [eauto|]. rewrite Hu8 by lia. eexists. split; [reflexivity|]. apply rp_ack_read. lia.
  - unfold BuildSMSRPErrorWithDiagnostics. cbv zeta. destruct (254 <? len diagnostics) eqn:E1; [cbn; eauto|]. cbn [orb].
    destruct (255 <? len tpdu) eqn:E2; [eauto|]. rewrite !Hu8 by lia. eexists. split; [reflexivity|]. apply rp_error_read; lia.
Qed.
(** An RP-DATA to +1555, and an RP-ERROR with a diagnostic octet. *)
Lemma rpdu_roundtrip_witness :
  ParseSMSRPDU [0x00; 7; 0x00; 0x03; 0x91; 0x51; 0x55; 2; 8; 9] = Ok (mkRPDU SMSRPDUKindData 0x00 7 0 [] [] [43; 49; 53; 53; 53] [8; 9]) /\
  ParseSMSRPDU (BuildSMSRPError 7 41) = Ok (mkRPDU SMSRPDUKindError 0x04 7 41 [] [] [] []).
Proof.
  destruct (rpdu_roundtrip 7 41 [43; 49; 53; 53; 53] [5] [8; 9]) as (H1 & _ & H2 & _); [lia|].
  split; [apply (H1 [0x00; 7; 0x00; 0x03; 0x91; 0x51; 0x55; 2; 8; 9]); vm_compute; reflexivity|exact H2].
Defined.

(** ** Totality *)
Lemma rp_address_safe body i what : bytes_ok body -> 0 <= i -> safe (rp_address body i what) (fun r => i < r.2 <= len body).
Proof.
  intros Hb Hi. unfold rp_address. destruct (len body <=? i) eqn:?; [done|].
  eapply (safe_call _ _ is_u8); [apply safe_at; [done|lia|by intros]|]. intros l Hl. unfold in_range in Hl. cbv zeta.
  destruct (len body <? i + 1 + l) eqn:?; [done|]. eapply (safe_call _ _ (fun _ => True)).
  - destruct (0 <? l); [|done]. eapply (safe_call _ _ bytes_ok); [apply safe_slice_ok; [done|lia|lia|by intros]|]. intros v Hv. by apply decodeRPAddressValue_returns.
  - intros a _. cbn. lia.
Qed.
Lemma parseSMSRPDataFields_safe body : bytes_ok body -> safe (parseSMSRPDataFields body) (fun r => bytes_ok r.2).
Proof.
  intros Hb. unfold parseSMSRPDataFields. destruct (len body <? 5) eqn:?; [done|].
  eapply safe_call; [apply rp_address_safe; [done|lia]|]. intros [o i] Hi. cbn in Hi.
  eapply safe_call; [apply rp_address_safe; [done|lia]|]. intros [d j] Hj. cbn in Hj. destruct (len body <=? j) eqn:?; [done|].
  eapply (safe_call _ _ is_u8); [apply safe_at; [done|lia|by intros]|]. intros l Hl. unfold in_range in Hl. cbv zeta.
  destruct (len body <? j + 1 + l) eqn:?; [done|]. destruct (negb _); [done|].
  eapply (safe_call _ _ bytes_ok); [apply safe_slice_ok; [done|lia|lia|by intros]|]. by intros t Ht.
Qed.
Lemma parseSMSRPErrorCauseFields_safe body : bytes_ok body -> safe (parseSMSRPErrorCauseFields body) (fun r => 0 <= r.1.1 < 128 /\ bytes_ok r.1.2 /\ 0 <= r.2).
Proof.
  intros Hb. unfold parseSMSRPErrorCauseFields. destruct (len body <? 4) eqn:?; [done|].
  eapply (safe_call _ _ is_u8); [apply safe_at; [done|lia|by intros]|]. intros b0 _. destruct (negb _ && _); [done|].
  eapply (safe_call _ _ is_u8); [apply safe_at; [done|lia|by intros]|]. intros l Hl. unfold in_range in Hl.
  destruct (l <=? 0) eqn:?; [done|]. destruct (len body <? 3 + l) eqn:?; [done|]. eapply (safe_call _ _ bytes_ok).
  - destruct (1 <? l) eqn:?; [|constructor]. apply safe_slice_ok; [done|lia|lia|by intros].
  - intros d Hd. eapply (safe_call _ _ is_u8); [apply safe_at; [done|lia|by intros]|]. intros c _. cbn [safe fst snd].
    split_and!; [apply (Gsm7.land_127_septet c)|apply (Gsm7.land_127_septet c)|done|lia].
Qed.
Lemma parseSMSRPUserData_safe body offset label : bytes_ok body -> 0 <= offset -> safe (parseSMSRPUserData body offset label) bytes_ok.
Proof.
  intros Hb Ho. unfold parseSMSRPUserData. destruct (len body <=? offset) eqn:?; [constructor|].
  eapply (safe_call _ _ is_u8); [apply safe_at; [done|lia|by intros]|]. intros l Hl. unfold in_range in Hl. cbv zeta.
  destruct (len body <? offset + 1 + l) eqn:?; [done|]. destruct (l =? 0); [destruct (negb _); [done|constructor]|]. destruct (negb _); [done|].
  apply safe_slice_ok; [done|lia|lia|by intros].
Qed.
Lemma ParseSMSRPDU_safe body : bytes_ok body -> safe (ParseSMSRPDU body) (fun r => is_u8 (rp_MR r) /\ 0 <= rp_Cause r < 128 /\ bytes_ok (rp_TPDU r)).
Proof.
  intros Hb. unfold ParseSMSRPDU. destruct (len body <? 2) eqn:?; [done|].
  eapply (safe_call _ _ is_u8); [apply safe_at; [done|lia|by intros]|]. intros ty _.
  eapply (safe_call _ _ is_u8); [apply safe_at; [done|lia|by intros]|]. intros mr Hmr.
  destruct (_ || _).
  { eapply safe_call; [by apply parseSMSRPDataFields_safe|]. intros [[o d] t] Ht. split; [done|]. split; [done|exact Ht]. }
  destruct (_ || _).
  { eapply safe_call; [by apply parseSMSRPUserData_safe|]. intros t Ht. split; [done|]. by split. }
  destruct (_ || _); [|done]. eapply safe_call; [by apply parseSMSRPErrorCauseFields_safe|]. intros [[c d] n] (Hc & Hd & Hn). cbn in Hc, Hd, Hn.
  eapply safe_call; [by apply parseSMSRPUserData_safe|]. intros t Ht. split; [done|]. by split.
Qed.

(** Every cause is either temporary or permanent, and worth a retry exactly when it
    is temporary; a cause that a new registration may cure is not final, the only
    kind that is not; a subscriber must act only on permanent causes. *)
Theorem cause_disposition cause :
  let d := ClassifySMSRPCause cause in
  cd_Permanent d = negb (cd_Temporary d) /\ cd_Retryable d = cd_Temporary d /\ cd_Terminal d = negb (cd_RegistrationRecoverable d) /\
  (cd_RegistrationRecoverable d = true <-> cause = 38 \/ cause = 41 \/ cause = 42 \/ cause = 47 \/ cause = 127) /\
  (cd_SubscriberActionNeeded d = true -> cd_Permanent d = true) /\ cd_Cause d = cause /\ (cd_Text d = "" <-> cause = 0).
Proof.
  assert (Htext : RPCauseText cause = "" <-> cause = 0).
  { unfold RPCauseText. destruct (Z.eqb_spec cause 0) as [->|Hne]; [done|]. split; [|done]. case_bool_decide as E; cbn [negb]; done. }
  unfold ClassifySMSRPCause, one_of, SMSRPCauseTemporaryFailure. cbn [existsb]. cbv zeta.
  repeat match goal with |- context [if ?c then mkCause _ _ _ _ _ _ _ _ _ _ else _] => destruct c eqn:? end; cbn; split_and!; try done; try lia.
Qed.
