(* ===== verification/SmsTpdu.v ===== *)
(** * Deliver and status report TPDUs (runtimehost/messaging/sms_pdu.go)

    The TPDUs that a phone receives, and the status reports it can write. *)
From S2P Require Import Prelude GoStrings Errors Utf8 SmsTables Gsm7 SmsUdh SmsText SmsTime SmsAddress.
#[local] Open Scope string_scope.
#[local] Open Scope list_scope.
#[local] Open Scope Z_scope.

Record SMSDeliver := mkDeliver {
  sd_Sender : bytes;
  sd_Recipient : bytes;
  sd_Text : bytes;
  sd_Timestamp : Time;
  sd_Concat : SMSConcatInfo;
  sd_FirstOctet : Z;
  sd_ProtocolID : Z;
  sd_DataCodingScheme : Z;
  sd_DataCoding : SMSDataCodingInfo;
  sd_UserDataLength : Z;
  sd_UserDataHeader : bool;
  sd_UserDataHeaderInfo : SMSUserDataHeaderInfo;
  sd_MoreMessagesToSend : bool;
  sd_StatusReportIndication : bool;
  sd_ReplyPath : bool;
  sd_RawTPDU : bytes
}.
Definition bit_set (octet mask : Z) : bool := negb (Z.land octet mask =? 0).

(** An address behind its length and type, at the offset [i]: the number and the
    offset behind it. *)
Definition tpdu_address (tpdu : bytes) (i : Z) (what : string) : result (bytes * Z) :=
  let! digits := at_ tpdu i in
  let i := i + 1 in
  if len tpdu <=? i then Err (ErrText (what +:+ " address type missing")) else
  let! toa := at_ tpdu i in
  let i := i + 1 in
  let! octets := smsAddressOctets digits toa in
  if len tpdu <? i + octets then Err (ErrText (what +:+ " address truncated")) else
  let! value := slice tpdu i (i + octets) in
  let! number := decodeSMSAddress digits toa value in
  Ok (number, i + octets).

Definition ParseSMSDeliverTPDU (tpdu : bytes) : result SMSDeliver :=
  if len tpdu <? 12 then Err (ErrText "SMS-DELIVER TPDU too short") else
  let! firstOctet := at_ tpdu 0 in
  if negb (Z.land firstOctet 0x03 =? 0x00) then Err (ErrText "not SMS-DELIVER TPDU") else
  let! r := tpdu_address tpdu 1 "SMS-DELIVER originator" in
  let '(sender, i) := r in
  if len tpdu <? i + 10 then Err (ErrText "SMS-DELIVER fields truncated") else
  let! pid := at_ tpdu i in
  let i := i + 1 in
  let! dcs := at_ tpdu i in
  let i := i + 1 in
  let! raw := slice tpdu i (i + 7) in
  let! ts := decodeSMSTimestamp raw in
  let i := i + 7 in
  let! udl := at_ tpdu i in
  let i := i + 1 in
  if len tpdu <? i then Err (ErrText "SMS-DELIVER user data missing") else
  let! ud := slice_from tpdu i in
  let! r := decodeSMSUserDataWithHeader ud udl dcs (bit_set firstOctet 0x40) in
  let '(text, headerInfo) := r in
  Ok (mkDeliver sender [] text ts (uh_Concat headerInfo) firstOctet pid dcs (ParseSMSDataCodingScheme dcs) udl (bit_set firstOctet 0x40) headerInfo
        (negb (bit_set firstOctet 0x04)) (bit_set firstOctet 0x20) (bit_set firstOctet 0x80) tpdu).

(** ** Status reports *)
Record SMSStatusReport := mkReport {
  sr_Reference : Z;
  sr_Recipient : bytes;
  sr_Timestamp : Time;
  sr_DoneAt : Time;
  sr_Status : Z;
  sr_State : string;
  sr_FirstOctet : Z;
  sr_MoreMessagesToSend : bool;
  sr_StatusReportQualifier : bool;
  sr_UserDataHeader : bool;
  sr_ParameterIndicator : Z;
  sr_HasParameterIndicator : bool;
  sr_ProtocolID : Z;
  sr_HasProtocolID : bool;
  sr_DataCodingScheme : Z;
  sr_HasDataCodingScheme : bool;
  sr_DataCoding : SMSDataCodingInfo;
  sr_UserDataLength : Z;
  sr_UserDataHeaderInfo : SMSUserDataHeaderInfo;
  sr_UserData : bytes;
  sr_HasUserData : bool;
  sr_RawTPDU : bytes
}.
(** Assignments to the fields that [parseSMSStatusReportOptionalParameters] fills. *)
Definition sr_with_indicator (r : SMSStatusReport) (pi : Z) : SMSStatusReport :=
  mkReport (sr_Reference r) (sr_Recipient r) (sr_Timestamp r) (sr_DoneAt r) (sr_Status r) (sr_State r) (sr_FirstOctet r) (sr_MoreMessagesToSend r)
    (sr_StatusReportQualifier r) (sr_UserDataHeader r) pi true (sr_ProtocolID r) (sr_HasProtocolID r) (sr_DataCodingScheme r)
    (sr_HasDataCodingScheme r) (sr_DataCoding r) (sr_UserDataLength r) (sr_UserDataHeaderInfo r) (sr_UserData r) (sr_HasUserData r) (sr_RawTPDU r).
Definition sr_with_protocol (r : SMSStatusReport) (pid : Z) : SMSStatusReport :=
  mkReport (sr_Reference r) (sr_Recipient r) (sr_Timestamp r) (sr_DoneAt r) (sr_Status r) (sr_State r) (sr_FirstOctet r) (sr_MoreMessagesToSend r)
    (sr_StatusReportQualifier r) (sr_UserDataHeader r) (sr_ParameterIndicator r) (sr_HasParameterIndicator r) pid true (sr_DataCodingScheme r)
    (sr_HasDataCodingScheme r) (sr_DataCoding r) (sr_UserDataLength r) (sr_UserDataHeaderInfo r) (sr_UserData r) (sr_HasUserData r) (sr_RawTPDU r).
Definition sr_with_coding (r : SMSStatusReport) (dcs : Z) : SMSStatusReport :=
  mkReport (sr_Reference r) (sr_Recipient r) (sr_Timestamp r) (sr_DoneAt r) (sr_Status r) (sr_State r) (sr_FirstOctet r) (sr_MoreMessagesToSend r)
    (sr_StatusReportQualifier r) (sr_UserDataHeader r) (sr_ParameterIndicator r) (sr_HasParameterIndicator r) (sr_ProtocolID r) (sr_HasProtocolID r) dcs
    true (ParseSMSDataCodingScheme dcs) (sr_UserDataLength r) (sr_UserDataHeaderInfo r) (sr_UserData r) (sr_HasUserData r) (sr_RawTPDU r).
Definition sr_with_data (r : SMSStatusReport) (udl : Z) (info : SMSUserDataHeaderInfo) (text : bytes) : SMSStatusReport :=
  mkReport (sr_Reference r) (sr_Recipient r) (sr_Timestamp r) (sr_DoneAt r) (sr_Status r) (sr_State r) (sr_FirstOctet r) (sr_MoreMessagesToSend r)
    (sr_StatusReportQualifier r) (sr_UserDataHeader r) (sr_ParameterIndicator r) (sr_HasParameterIndicator r) (sr_ProtocolID r) (sr_HasProtocolID r)
    (sr_DataCodingScheme r) (sr_HasDataCodingScheme r) (sr_DataCoding r) udl info text true (sr_RawTPDU r).

Definition smsStatusReportState (status : Z) : string :=
  if status <=? 0x1f then "delivered" else if 0x40 <=? status then "failed" else "accepted".

Definition parseSMSStatusReportOptionalParameters (data : bytes) (report : SMSStatusReport) : result SMSStatusReport :=
  if len data =? 0 then Ok report else
  let! pi := at_ data 0 in
  let report := sr_with_indicator report pi in
  let i := 1 in
  let! r :=
    (if bit_set pi 0x01 then
       if len data <=? i then Err (ErrText "SMS-STATUS-REPORT PID missing") else
       let! pid := at_ data i in Ok (sr_with_protocol report pid, i + 1)
     else Ok (report, i)) in
  let '(report, i) := r in
  let! r :=
    (if bit_set pi 0x02 then
       if len data <=? i then Err (ErrText "SMS-STATUS-REPORT DCS missing") else
       let! dcs := at_ data i in Ok (sr_with_coding report dcs, i + 1)
     else Ok (report, i)) in
  let '(report, i) := r in
  if bit_set pi 0x04 then
    if len data <=? i then Err (ErrText "SMS-STATUS-REPORT UDL missing") else
    let! udl := at_ data i in
    let i := i + 1 in
    if len data <? i then Err (ErrText "SMS-STATUS-REPORT user data missing") else
    let! ud := slice_from data i in
    let! r := decodeSMSUserDataWithHeader ud udl (sr_DataCodingScheme report) (sr_UserDataHeader report) in
    let '(text, headerInfo) := r in
    Ok (sr_with_data report udl headerInfo text)
  else Ok report.

Definition ParseSMSStatusReportTPDU (tpdu : bytes) : result SMSStatusReport :=
  if len tpdu <? 17 then Err (ErrText "SMS-STATUS-REPORT TPDU too short") else
  let! fo := at_ tpdu 0 in
  if negb (Z.land fo 0x03 =? 0x02) then Err (ErrText "not SMS-STATUS-REPORT TPDU") else
  let! reference := at_ tpdu 1 in
  let! r := tpdu_address tpdu 2 "SMS-STATUS-REPORT recipient" in
  let '(recipient, i) := r in
  if len tpdu <? i + 15 then Err (ErrText "SMS-STATUS-REPORT timestamps truncated") else
  let! raw := slice tpdu i (i + 7) in
  let! timestamp := decodeSMSTimestamp raw in
  let i := i + 7 in
  let! raw := slice tpdu i (i + 7) in
  let! doneAt := decodeSMSTimestamp raw in
  let i := i + 7 in
  let! status := at_ tpdu i in
  let i := i + 1 in
  let report :=
    mkReport reference recipient timestamp doneAt status (smsStatusReportState status) fo (negb (bit_set fo 0x04)) (bit_set fo 0x20) (bit_set fo 0x40)
      0 false 0 false 0 false zeroCoding 0 zeroUDHInfo [] false tpdu in
  if i <? len tpdu then let! rest := slice_from tpdu i in parseSMSStatusReportOptionalParameters rest report else Ok report.

Definition smsStatusReportFirstOctet (report : SMSStatusReport) : Z :=
  if negb (sr_FirstOctet report =? 0) then Z.lor (Z.ldiff (sr_FirstOctet report) 0x03) 0x02 else
  let firstOctet := 0x02 in
  let firstOctet := if negb (sr_MoreMessagesToSend report) then Z.lor firstOctet 0x04 else firstOctet in
  let firstOctet := if sr_StatusReportQualifier report then Z.lor firstOctet 0x20 else firstOctet in
  if sr_UserDataHeader report || (0 <? len (uh_Raw (sr_UserDataHeaderInfo report))) then Z.lor firstOctet 0x40 else firstOctet.

(** The languages of the header, completed by what its octets say. *)
Definition report_header_info (report : SMSStatusReport) : result SMSUserDataHeaderInfo :=
  let headerInfo := sr_UserDataHeaderInfo report in
  let udh := uh_Raw headerInfo in
  if 0 <? len udh then
    let! parsedHeader := parseSMSUDHInfo udh in
    let headerInfo := if negb (uh_HasLockingShift headerInfo) && uh_HasLockingShift parsedHeader then uh_with_locking headerInfo (uh_LockingShiftLang parsedHeader) else headerInfo in
    let headerInfo := if negb (uh_HasSingleShift headerInfo) && uh_HasSingleShift parsedHeader then uh_with_single headerInfo (uh_SingleShiftLang parsedHeader) else headerInfo in
    Ok headerInfo
  else Ok headerInfo.
(** The parameters and the first octet, which it completes. *)
Definition encodeSMSStatusReportOptionalParameters (report : SMSStatusReport) (firstOctet : Z) : result (bytes * Z) :=
  let hasProtocolID := sr_HasProtocolID report || negb (sr_ProtocolID report =? 0) in
  let dcs := sr_DataCodingScheme report in
  let dcs := if negb (sr_HasDataCodingScheme report) && (dcs =? 0) && negb (dc_Raw (sr_DataCoding report) =? 0) then dc_Raw (sr_DataCoding report) else dcs in
  let hasDataCodingScheme := sr_HasDataCodingScheme report || negb (dcs =? 0) in
  let udh := uh_Raw (sr_UserDataHeaderInfo report) in
  let! headerInfo := report_header_info report in
  let hasUserData := sr_HasUserData report || negb (len (sr_UserData report) =? 0) || negb (sr_UserDataLength report =? 0) || (0 <? len udh) in
  if (sr_UserDataHeader report || bit_set firstOctet 0x40) && (len udh =? 0) then Err (ErrText "SMS-STATUS-REPORT user data header is empty") else
  let! r :=
    (if hasUserData then
       let encoding := smsEncodingForDCS dcs in
       let! _ := validateSMSSubmitDataCodingScheme dcs encoding in
       let! r := encodeSMSUserDataWithLanguage (sr_UserData report) encoding udh (uh_LockingShiftLang headerInfo) (uh_SingleShiftLang headerInfo) in
       let '(userData, udl, _) := r in
       if 255 <? udl then Err (ErrText "SMS-STATUS-REPORT user data length too long") else
       Ok (userData, udl, if 0 <? len udh then Z.lor firstOctet 0x40 else firstOctet)
     else Ok ([], 0, firstOctet)) in
  let '(userData, udl, firstOctet) := r in
  if bit_set firstOctet 0x40 && negb hasUserData then Err (ErrText "SMS-STATUS-REPORT user data header requires user data") else
  let includePI := sr_HasParameterIndicator report || hasProtocolID || hasDataCodingScheme || hasUserData in
  if negb includePI then Ok ([], firstOctet) else
  let pi := Z.ldiff (sr_ParameterIndicator report) 0x07 in
  let pi := if hasProtocolID then Z.lor pi 0x01 else pi in
  let pi := if hasDataCodingScheme then Z.lor pi 0x02 else pi in
  let pi := if hasUserData then Z.lor pi 0x04 else pi in
  Ok ([pi] ++ (if hasProtocolID then [sr_ProtocolID report] else []) ++ (if hasDataCodingScheme then [dcs] else []) ++
      (if hasUserData then to_u8 udl :: userData else []), firstOctet).

Definition BuildSMSStatusReportTPDU (report : SMSStatusReport) : result bytes :=
  let number := normalizeSMSNumber (sr_Recipient report) in
  if len number =? 0 then Err (ErrText "SMS-STATUS-REPORT recipient address is empty") else
  let! r := encodeSMSAddress number in
  let '(digits, toa, bcd) := r in
  let! timestamp := encodeSMSTimestamp (sr_Timestamp report) in
  let! doneAt := encodeSMSTimestamp (sr_DoneAt report) in
  let firstOctet := smsStatusReportFirstOctet report in
  let! r := encodeSMSStatusReportOptionalParameters report firstOctet in
  let '(optional, firstOctet) := r in
  Ok ([firstOctet; sr_Reference report; to_u8 digits; toa] ++ bcd ++ timestamp ++ doneAt ++ [sr_Status report] ++ optional).

(** ** What the outcome of a delivery means *)
Inductive SMSStatusReportClass :=
| SMSStatusReportClassCompleted
| SMSStatusReportClassTemporaryRetrying
| SMSStatusReportClassPermanentFailure
| SMSStatusReportClassTemporaryFailure
| SMSStatusReportClassReserved.
Record SMSStatusReportDisposition := mkDisposition {
  ds_Status : Z;
  ds_Class : SMSStatusReportClass;
  ds_State : string;
  ds_Text : string;
  ds_Delivered : bool;
  ds_Failed : bool;
  ds_Temporary : bool;
  ds_Permanent : bool;
  ds_ServiceCenterRetrying : bool;
  ds_Terminal : bool;
  ds_Retryable : bool;
  ds_Reserved : bool
}.
(** Two hexadecimal digits, [strings.ToUpper(hexByte(v))]. *)
Definition upper_hex_digit (d : Z) : Ascii.ascii := Ascii.ascii_of_nat (Z.to_nat (if d <? 10 then 48 + d else 55 + d)).
Definition upper_hexByte (v : Z) : string := String (upper_hex_digit (Z.shiftr v 4)) (String (upper_hex_digit (Z.land v 0x0f)) EmptyString).
Definition SMSStatusReportText (status : Z) : string :=
  match status with
  | 0x00 => "SMS status 0x00: short message received by SME"
  | 0x01 => "SMS status 0x01: short message forwarded by service center but delivery not confirmed"
  | 0x02 => "SMS status 0x02: short message replaced by service center"
  | 0x20 => "SMS status 0x20: congestion, service center still retrying"
  | 0x21 => "SMS status 0x21: SME busy, service center still retrying"
  | 0x22 => "SMS status 0x22: no response from SME, service center still retrying"
  | 0x23 => "SMS status 0x23: service rejected, service center still retrying"
  | 0x24 => "SMS status 0x24: quality of service unavailable, service center still retrying"
  | 0x25 => "SMS status 0x25: error in SME, service center still retrying"
  | 0x40 => "SMS status 0x40: remote procedure error"
  | 0x41 => "SMS status 0x41: incompatible destination"
  | 0x42 => "SMS status 0x42: connection rejected by SME"
  | 0x43 => "SMS status 0x43: not obtainable"
  | 0x44 => "SMS status 0x44: quality of service not available"
  | 0x45 => "SMS status 0x45: no interworking available"
  | 0x46 => "SMS status 0x46: short message validity period expired"
  | 0x47 => "SMS status 0x47: short message deleted by originating SME"
  | 0x48 => "SMS status 0x48: short message deleted by service center administration"
  | 0x49 => "SMS status 0x49: short message does not exist"
  | _ =>
      let what :=
        if status <=? 0x1f then ": completed"
        else if status <=? 0x3f then ": temporary error, service center still retrying"
        else if status <=? 0x5f then ": permanent error, service center stopped retrying"
        else if status <=? 0x7f then ": temporary error, service center stopped retrying"
        else ": reserved" in
      "SMS status 0x" +:+ upper_hexByte status +:+ what
  end.
Definition ClassifySMSStatusReport (status : Z) : SMSStatusReportDisposition :=
  let state := smsStatusReportState status in
  let text := SMSStatusReportText status in
  if status <=? 0x1f then mkDisposition status SMSStatusReportClassCompleted state text true false false false false true false false
  else if status <=? 0x3f then mkDisposition status SMSStatusReportClassTemporaryRetrying state text false false true false true false false false
  else if status <=? 0x5f then mkDisposition status SMSStatusReportClassPermanentFailure state text false true false true false true false false
  else if status <=? 0x7f then mkDisposition status SMSStatusReportClassTemporaryFailure state text false true true false false true true false
  else mkDisposition status SMSStatusReportClassReserved state text false true false false false true false true.

(** ** Reading an address *)
Lemma tpdu_address_read pre digits toa bcd rest what number :
  smsAddressOctets digits toa = Ok (len bcd) -> decodeSMSAddress digits toa bcd = Ok number ->
  tpdu_address (pre ++ [digits; toa] ++ bcd ++ rest) (len pre) what = Ok (number, len pre + 2 + len bcd).
Proof.
  intros Ho Hd. unfold tpdu_address. pose proof (len_nonneg pre). pose proof (len_nonneg bcd). pose proof (len_nonneg rest).
  rewrite !len_app. change (len [digits; toa]) with 2. cbn [app]. rewrite at_app_r by done. cbn [bind]. cbv zeta.
  replace (len pre + (2 + (len bcd + len rest)) <=? len pre + 1) with false by lia.
  assert (Ht : at_ (E := error) (pre ++ digits :: toa :: bcd ++ rest) (len pre + 1) = Ok toa).
  { rewrite (cons_middle digits), app_assoc. apply at_app_r. len_lia. }
  rewrite Ht. cbn [bind]. rewrite Ho. cbn [bind]. replace (len pre + (2 + (len bcd + len rest)) <? len pre + 1 + 1 + len bcd) with false by lia.
  rewrite (slice_eq _ (pre ++ [digits; toa]) bcd rest); [|by rewrite <- app_assoc|len_lia|len_lia]. cbn [bind]. rewrite Hd. cbn [bind].
  by replace (len pre + 1 + 1 + len bcd) with (len pre + 2 + len bcd) by lia.
Qed.
Lemma tpdu_address_safe tpdu i what : bytes_ok tpdu -> 0 <= i < len tpdu -> safe (tpdu_address tpdu i what) (fun r => i < r.2 <= len tpdu).
Proof.
  intros Hb Hi. unfold tpdu_address. eapply (safe_call _ _ is_u8); [apply safe_at; [done|lia|by intros]|]. intros digits Hd. cbv zeta.
  destruct (len tpdu <=? i + 1) eqn:?; [done|]. eapply (safe_call _ _ is_u8); [apply safe_at; [done|lia|by intros]|]. intros toa Ht.
  eapply safe_call; [apply smsAddressOctets_safe|]. intros n Hn. cbv beta in Hn. destruct (len tpdu <? i + 1 + 1 + n) eqn:?; [done|].
  eapply (safe_call _ _ bytes_ok); [apply safe_slice_ok; [done|lia|lia|by intros]|]. intros v Hv.
  eapply safe_call; [by apply decodeSMSAddress_returns|]. intros number _. cbn. lia.
Qed.

Lemma ParseSMSDeliverTPDU_safe tpdu : bytes_ok tpdu -> safe (ParseSMSDeliverTPDU tpdu) (fun d => time_ok (sd_Timestamp d) /\ bytes_ok (sd_Text d) /\ is_u8 (sd_UserDataLength d)).
Proof.
  intros Hb. unfold ParseSMSDeliverTPDU. destruct (len tpdu <? 12) eqn:?; [done|].
  eapply (safe_call _ _ is_u8); [apply safe_at; [done|lia|by intros]|]. intros fo _. destruct (negb _); [done|].
  eapply safe_call; [apply tpdu_address_safe; [done|lia]|]. intros [sender i] Hi. cbn in Hi. destruct (len tpdu <? i + 10) eqn:?; [done|].
  eapply (safe_call _ _ is_u8); [apply safe_at; [done|lia|by intros]|]. intros pid _. cbv zeta.
  eapply (safe_call _ _ is_u8); [apply safe_at; [done|lia|by intros]|]. intros dcs _.
  eapply (safe_call _ _ bytes_ok); [apply safe_slice_ok; [done|lia|lia|by intros]|]. intros raw Hraw.
  eapply safe_call; [by apply decodeSMSTimestamp_safe|]. intros ts [Hts _].
  eapply (safe_call _ _ is_u8); [apply safe_at; [done|lia|by intros]|]. intros udl Hudl.
  match goal with |- context [len tpdu <? ?j] => replace (len tpdu <? j) with false by lia end.
  eapply (safe_call _ _ bytes_ok); [apply safe_slice_from; [done|lia|by intros]|]. intros ud Hud.
  eapply safe_call; [by apply decodeSMSUserDataWithHeader_safe|]. intros [text info] Htext. cbn in Htext |- *. done.
Qed.
Lemma optional_parameters_returns data report : bytes_ok data -> returns (parseSMSStatusReportOptionalParameters data report).
Proof.
  intros Hb. unfold parseSMSStatusReportOptionalParameters. destruct (len data =? 0) eqn:?; [done|]. pose proof (len_nonneg data).
  eapply (safe_call _ _ is_u8); [apply safe_at; [done|lia|by intros]|]. intros pi _. cbv zeta.
  eapply (safe_call _ _ (fun r => 1 <= r.2)).
  { destruct (bit_set pi 1); [|cbn; lia]. destruct (len data <=? 1) eqn:?; [done|].
    eapply (safe_call _ _ is_u8); [apply safe_at; [done|lia|by intros]|]. intros pid _. cbn. lia. }
  intros [r1 i] Hi. cbn [fst snd] in Hi. eapply (safe_call _ _ (fun r => 1 <= r.2)).
  { destruct (bit_set pi 2); [|cbn; lia]. destruct (len data <=? i) eqn:?; [done|].
    eapply (safe_call _ _ is_u8); [apply safe_at; [done|lia|by intros]|]. intros dcs _. cbn. lia. }
  intros [r2 j] Hj. cbn [fst snd] in Hj. destruct (bit_set pi 4); [|done]. destruct (len data <=? j) eqn:?; [done|].
  eapply (safe_call _ _ is_u8); [apply safe_at; [done|lia|by intros]|]. intros udl _. destruct (len data <? j + 1) eqn:?; [done|].
  eapply (safe_call _ _ bytes_ok); [apply safe_slice_from; [done|lia|by intros]|]. intros ud Hud.
  eapply safe_call; [by apply decodeSMSUserDataWithHeader_safe|]. by intros [text info] _.
Qed.
Lemma ParseSMSStatusReportTPDU_returns tpdu : bytes_ok tpdu -> returns (ParseSMSStatusReportTPDU tpdu).
Proof.
  intros Hb. unfold ParseSMSStatusReportTPDU. destruct (len tpdu <? 17) eqn:?; [done|].
  eapply (safe_call _ _ is_u8); [apply safe_at; [done|lia|by intros]|]. intros fo _. destruct (negb _); [done|].
  eapply (safe_call _ _ is_u8); [apply safe_at; [done|lia|by intros]|]. intros reference _.
  eapply safe_call; [apply tpdu_address_safe; [done|lia]|]. intros [recipient i] Hi. cbn in Hi. destruct (len tpdu <? i + 15) eqn:?; [done|].
  eapply (safe_call _ _ bytes_ok); [apply safe_slice_ok; [done|lia|lia|by intros]|]. intros raw Hraw.
  eapply safe_call; [by apply decodeSMSTimestamp_safe|]. intros ts _. cbv zeta.
  eapply (safe_call _ _ bytes_ok); [apply safe_slice_ok; [done|lia|lia|by intros]|]. intros raw' Hraw'.
  eapply safe_call; [by apply decodeSMSTimestamp_safe|]. intros done_at _.
  eapply (safe_call _ _ is_u8); [apply safe_at; [done|lia|by intros]|]. intros status _.
  match goal with |- context [?j <? len tpdu] => destruct (j <? len tpdu) eqn:? end; [|done].
  eapply (safe_call _ _ bytes_ok); [apply safe_slice_from; [done|lia|by intros]|]. intros rest Hrest. by apply optional_parameters_returns.
Qed.

(** ** Messages of the service centre *)
(** A SMS-DELIVER as 3GPP TS 23.040 (9.2.2.1) lays it out, its fields in the
    encodings above. *)
Definition deliver_wire (firstOctet : Z) (number : bytes) (pid dcs : Z) (ts : Time) (text udh : bytes) (lockingLang singleLang : Z) : result bytes :=
  let! r := encodeSMSAddress number in
  let '(digits, toa, bcd) := r in
  let! stamp := encodeSMSTimestamp ts in
  let! r := encodeSMSUserDataWithLanguage text (smsEncodingForDCS dcs) udh lockingLang singleLang in
  let '(ud, udl, _) := r in
  if (255 <? digits) || (255 <? udl) then Err (ErrText "too long") else
  Ok ([firstOctet] ++ [digits; toa] ++ bcd ++ [pid; dcs] ++ stamp ++ [udl] ++ ud).
Definition whole_seconds (t : Time) : Time := mkTime (t_Year t) (t_Month t) (t_Day t) (t_Hour t) (t_Minute t) (t_Second t) 0 (t_Offset t).

(** Incoming messages: a SMS-DELIVER laid out as the standard says, from any
    originator that can be written, with any protocol identifier, data coding
    scheme, time stamp, text and header, is parsed into these: the number, the
    text, the time (whole seconds), the header with its concatenation, and the
    flags of the first octet. *)
Theorem deliver_parsed firstOctet number pid dcs ts rs udh info L S tpdu :
  Z.land firstOctet 0x03 = 0 -> bit_set firstOctet 0x40 = (0 <? len udh) -> time_ok ts ->
  Forall scalar rs -> (smsEncodingForDCS dcs = "gsm7" -> 0x1b ∉ rs) -> header_carries udh info L S ->
  deliver_wire firstOctet number pid dcs ts (string_of rs) udh L S = Ok tpdu ->
  exists udl, ParseSMSDeliverTPDU tpdu =
    Ok (mkDeliver (read_back <$> normalizeSMSNumber number) [] (string_of rs) (whole_seconds ts) (uh_Concat info) firstOctet pid dcs (ParseSMSDataCodingScheme dcs)
          udl (0 <? len udh) info (negb (bit_set firstOctet 0x04)) (bit_set firstOctet 0x20) (bit_set firstOctet 0x80) tpdu).
Proof.
  intros Hfo Hudh Hts Hrs Hesc Hh. unfold deliver_wire.
  intros ([[digits toa] bcd] & Ha & H)%bind_ok. apply bind_ok in H as (stamp & Hst & H). apply bind_ok in H as ([[ud udl] d0] & Hud & H).
  destruct ((255 <? digits) || (255 <? udl)) eqn:Hbig; [done|]. injection H as Htp.
  apply address_encoded in Ha as (_ & _ & Hdig & Hbl & Hoct & Hdec & _). apply encode_spec in Hst as (_ & _ & _ & Hsl & _ & Hsd); [|done].
  destruct (user_data_read _ _ _ _ _ _ _ _ _ dcs Hrs Hesc Hh eq_refl Hud) as (Hread & _ & Hudl & _).
  assert (Hb1 : 1 <= len bcd) by (rewrite Hbl; Z.div_mod_to_equations; lia). pose proof (len_nonneg ud).
  assert (Hlen : len tpdu = 13 + len bcd + len ud) by (rewrite <- Htp; len_lia).
  exists udl. unfold ParseSMSDeliverTPDU. replace (len tpdu <? 12) with false by lia.
  assert (H0 : at_ (E := error) tpdu 0 = Ok firstOctet) by (by rewrite <- Htp). rewrite H0. cbn [bind]. rewrite Hfo. cbn [Z.eqb negb].
  assert (Haddr : tpdu_address tpdu 1 "SMS-DELIVER originator" = Ok (read_back <$> normalizeSMSNumber number, 3 + len bcd)).
  { rewrite <- Htp. apply (tpdu_address_read [firstOctet]); done. }
  rewrite Haddr. cbn [bind]. replace (len tpdu <? 3 + len bcd + 10) with false by lia.
  set (front := [firstOctet] ++ [digits; toa] ++ bcd). assert (Hfl : len front = 3 + len bcd) by (subst front; len_lia).
  assert (Htp' : tpdu = front ++ pid :: dcs :: stamp ++ [udl] ++ ud) by (rewrite <- Htp; subst front; by rewrite <- !app_assoc).
  clearbody front. clear Htp.
  assert (Hp : at_ (E := error) tpdu (3 + len bcd) = Ok pid) by (rewrite Htp'; apply at_app_r; lia). rewrite Hp. cbn [bind]. cbv zeta.
  assert (Hc : at_ (E := error) tpdu (3 + len bcd + 1) = Ok dcs).
  { rewrite Htp', (cons_middle pid), app_assoc. apply at_app_r. len_lia. }
  rewrite Hc. cbn [bind].
  rewrite (slice_eq tpdu (front ++ [pid; dcs]) stamp ([udl] ++ ud)); [|by rewrite Htp', <- app_assoc|len_lia|lia]. cbn [bind]. rewrite Hsd. cbn [bind].
  assert (Hu : at_ (E := error) tpdu (3 + len bcd + 1 + 1 + 7) = Ok udl).
  { rewrite Htp'. change (front ++ pid :: dcs :: stamp ++ [udl] ++ ud) with (front ++ ([pid; dcs] ++ stamp) ++ udl :: ud). rewrite app_assoc. apply at_app_r. rewrite !len_app, Hsl. len_lia. }
  rewrite Hu. cbn [bind]. replace (len tpdu <? 3 + len bcd + 1 + 1 + 7 + 1) with false by lia.
  rewrite (slice_from_eq tpdu (front ++ [pid; dcs] ++ stamp ++ [udl]) ud); [|by rewrite Htp', <- !app_assoc|rewrite !len_app, Hsl; len_lia]. cbn [bind].
  rewrite Hudh, Hread. done.
Qed.
Definition sample_udh_info : SMSUserDataHeaderInfo :=
  uh_with_concat (uh_with_elements (udh_of [5; 0; 3; 7; 2; 1]) [mkElement 0 [7; 2; 1]]) (mkConcat true 7 8 2 1).
(** "H" and an emoji in UCS-2, the first of two parts, from +1555. *)
Lemma deliver_parsed_witness :
  exists udl, ParseSMSDeliverTPDU [68; 4; 145; 81; 85; 0; 8; 66; 32; 146; 50; 149; 149; 50; 12; 5; 0; 3; 7; 2; 1; 0; 72; 216; 61; 222; 0] =
    Ok (mkDeliver [43; 49; 53; 53; 53] [] (string_of [0x48; 0x1f600]) (mkTime 2024 2 29 23 59 59 0 20700) (mkConcat true 7 8 2 1) 0x44 0 8
          (ParseSMSDataCodingScheme 8) udl true sample_udh_info false false false
          [68; 4; 145; 81; 85; 0; 8; 66; 32; 146; 50; 149; 149; 50; 12; 5; 0; 3; 7; 2; 1; 0; 72; 216; 61; 222; 0]).
Proof.
  apply (deliver_parsed 0x44 [43; 49; 53; 53; 53] 0 8 (mkTime 2024 2 29 23 59 59 7 20700) [0x48; 0x1f600] [5; 0; 3; 7; 2; 1] sample_udh_info 0 0);
    [reflexivity|reflexivity|by_decide|by_decide|done| |vm_compute; reflexivity].
  split; [by_decide|]. split; [reflexivity|]. split; [reflexivity|]. split; reflexivity.
Defined.

(** ** Status reports, written and read *)
Definition report_hasProtocolID (r : SMSStatusReport) : bool := sr_HasProtocolID r || negb (sr_ProtocolID r =? 0).
Definition report_dcs (r : SMSStatusReport) : Z :=
  if negb (sr_HasDataCodingScheme r) && (sr_DataCodingScheme r =? 0) && negb (dc_Raw (sr_DataCoding r) =? 0) then dc_Raw (sr_DataCoding r) else sr_DataCodingScheme r.
Definition report_hasDataCodingScheme (r : SMSStatusReport) : bool := sr_HasDataCodingScheme r || negb (report_dcs r =? 0).
Definition report_udh (r : SMSStatusReport) : bytes := uh_Raw (sr_UserDataHeaderInfo r).
Definition report_hasUserData (r : SMSStatusReport) : bool :=
  sr_HasUserData r || negb (len (sr_UserData r) =? 0) || negb (sr_UserDataLength r =? 0) || (0 <? len (report_udh r)).
Definition report_includePI (r : SMSStatusReport) : bool :=
  sr_HasParameterIndicator r || report_hasProtocolID r || report_hasDataCodingScheme r || report_hasUserData r.
Definition report_indicator (r : SMSStatusReport) : Z :=
  let pi := Z.ldiff (sr_ParameterIndicator r) 0x07 in
  let pi := if report_hasProtocolID r then Z.lor pi 0x01 else pi in
  let pi := if report_hasDataCodingScheme r then Z.lor pi 0x02 else pi in
  if report_hasUserData r then Z.lor pi 0x04 else pi.

(** A report whose fields fit their octets and whose header is what its octets say. *)
Definition report_ok (r : SMSStatusReport) : Prop :=
  is_u8 (sr_FirstOctet r) /\ is_u8 (sr_ParameterIndicator r) /\ is_u8 (report_dcs r) /\ time_ok (sr_Timestamp r) /\ time_ok (sr_DoneAt r) /\
  len (normalizeSMSNumber (normalizeSMSNumber (sr_Recipient r))) <= 255 /\
  (exists rs, sr_UserData r = string_of rs /\ Forall scalar rs /\ (smsEncodingForDCS (report_dcs r) = "gsm7" -> 0x1b ∉ rs)) /\
  header_carries (report_udh r) (sr_UserDataHeaderInfo r) (uh_LockingShiftLang (sr_UserDataHeaderInfo r)) (uh_SingleShiftLang (sr_UserDataHeaderInfo r)).

Lemma report_header_same r L S : header_carries (report_udh r) (sr_UserDataHeaderInfo r) L S -> report_header_info r = Ok (sr_UserDataHeaderInfo r).
Proof.
  intros (_ & _ & _ & H). unfold report_header_info. fold (report_udh r). destruct (0 <? len (report_udh r)); [|done].
  destruct H as [_ ->]. cbn [bind]. cbv zeta. destruct (uh_HasLockingShift (sr_UserDataHeaderInfo r)) eqn:E1; cbn [negb andb].
  - destruct (uh_HasSingleShift (sr_UserDataHeaderInfo r)) eqn:E2; cbn [negb andb]; done.
  - destruct (uh_HasSingleShift (sr_UserDataHeaderInfo r)) eqn:E2; cbn [negb andb]; done.
Qed.
(** Bits of an octet. *)
Lemma indicator_bits pi p d u : is_u8 pi ->
  let x := Z.ldiff pi 0x07 in
  let x := if (p : bool) then Z.lor x 0x01 else x in
  let x := if (d : bool) then Z.lor x 0x02 else x in
  let x := if (u : bool) then Z.lor x 0x04 else x in
  bit_set x 0x01 = p /\ bit_set x 0x02 = d /\ bit_set x 0x04 = u /\ is_u8 x.
Proof.
  intros Hp. assert (Hall : Forall (fun pi => forall p d u, 
    let x := Z.ldiff pi 0x07 in let x := if (p : bool) then Z.lor x 0x01 else x in let x := if (d : bool) then Z.lor x 0x02 else x in
    let x := if (u : bool) then Z.lor x 0x04 else x in bit_set x 0x01 = p /\ bit_set x 0x02 = d /\ bit_set x 0x04 = u /\ is_u8 x) (seqZ 0 256)) by by_decide.
  rewrite Forall_forall in Hall. apply Hall, elem_of_seqZ. unfold in_range in Hp. lia.
Qed.
Lemma first_octet_bits fo : is_u8 fo ->
  Z.land (Z.lor fo 0x40) 0x03 = Z.land fo 0x03 /\ bit_set (Z.lor fo 0x40) 0x40 = true /\ is_u8 (Z.lor fo 0x40) /\
  bit_set (Z.lor fo 0x40) 0x04 = bit_set fo 0x04 /\ bit_set (Z.lor fo 0x40) 0x20 = bit_set fo 0x20 /\
  Z.land (Z.lor (Z.ldiff fo 0x03) 0x02) 0x03 = 0x02 /\ is_u8 (Z.lor (Z.ldiff fo 0x03) 0x02).
Proof.
  intros Hf. assert (Hall : Forall (fun fo => Z.land (Z.lor fo 0x40) 0x03 = Z.land fo 0x03 /\ bit_set (Z.lor fo 0x40) 0x40 = true /\ is_u8 (Z.lor fo 0x40) /\
    bit_set (Z.lor fo 0x40) 0x04 = bit_set fo 0x04 /\ bit_set (Z.lor fo 0x40) 0x20 = bit_set fo 0x20 /\
    Z.land (Z.lor (Z.ldiff fo 0x03) 0x02) 0x03 = 0x02 /\ is_u8 (Z.lor (Z.ldiff fo 0x03) 0x02)) (seqZ 0 256)) by by_decide.
  rewrite Forall_forall in Hall. apply Hall, elem_of_seqZ. unfold in_range in Hf. lia.
Qed.
Lemma report_first_octet r : is_u8 (sr_FirstOctet r) -> Z.land (smsStatusReportFirstOctet r) 0x03 = 0x02 /\ is_u8 (smsStatusReportFirstOctet r).
Proof.
  intros Hf. destruct (first_octet_bits _ Hf) as (_ & _ & _ & _ & _ & H1 & H2). unfold smsStatusReportFirstOctet.
  destruct (negb (sr_FirstOctet r =? 0)); [done|]. cbv zeta. destruct (negb (sr_MoreMessagesToSend r)), (sr_StatusReportQualifier r), (sr_UserDataHeader r || _); by_decide.
Qed.
Definition report_optional (r : SMSStatusReport) (udl : Z) (ud : bytes) : bytes :=
  if report_includePI r then
    [report_indicator r] ++ (if report_hasProtocolID r then [sr_ProtocolID r] else []) ++ (if report_hasDataCodingScheme r then [report_dcs r] else []) ++
    (if report_hasUserData r then udl :: ud else [])
  else [].
Lemma optional_encoded r fo optional fo' : report_ok r -> is_u8 fo -> encodeSMSStatusReportOptionalParameters r fo = Ok (optional, fo') ->
  Z.land fo' 0x03 = Z.land fo 0x03 /\ bit_set fo' 0x04 = bit_set fo 0x04 /\ bit_set fo' 0x20 = bit_set fo 0x20 /\ bit_set fo' 0x40 = (0 <? len (report_udh r)) /\
  exists udl ud, optional = report_optional r udl ud /\
    (report_hasUserData r = true -> decodeSMSUserDataWithHeader ud udl (report_dcs r) (0 <? len (report_udh r)) = Ok (sr_UserData r, sr_UserDataHeaderInfo r)).
Proof.
  intros (_ & _ & _ & _ & _ & _ & (rs & Hrs & Hsc & Hesc) & Hh) Hfo. unfold encodeSMSStatusReportOptionalParameters.
  rewrite (report_header_same r _ _ Hh). fold (report_udh r). fold (report_dcs r). cbn [bind]. fold (report_hasUserData r). cbv zeta.
  destruct (first_octet_bits fo Hfo) as (F1 & F2 & F3 & F4 & F5 & _). pose proof (len_nonneg (report_udh r)) as Hnn.
  destruct ((sr_UserDataHeader r || bit_set fo 0x40) && (len (report_udh r) =? 0)) eqn:Hempty; [done|].
  assert (Hbit : bit_set fo 0x40 = true -> (0 <? len (report_udh r)) = true) by (intros E; rewrite E, orb_true_r in Hempty; cbn in Hempty; lia).
  assert (Hud : (0 <? len (report_udh r)) = true -> report_hasUserData r = true) by (intros E; unfold report_hasUserData; rewrite E; by rewrite orb_true_r).
  destruct (report_hasUserData r) eqn:Hu.
  - intros H. apply bind_ok in H as (x & Hx & H). apply bind_ok in Hx as ([] & _ & Hx). apply bind_ok in Hx as ([[ud udl] d0] & He & Hx).
    destruct (255 <? udl) eqn:Hbig; [done|]. injection Hx as <-. cbn [negb] in H. rewrite andb_false_r in H.
    rewrite Hrs in He. destruct (user_data_read _ _ _ _ _ _ _ _ _ (report_dcs r) Hsc Hesc Hh eq_refl He) as (Hread & _ & Hudl & _).
    set (fo2 := if 0 <? len (report_udh r) then Z.lor fo 0x40 else fo) in *.
    assert (Hf2 : Z.land fo2 0x03 = Z.land fo 0x03 /\ bit_set fo2 0x04 = bit_set fo 0x04 /\ bit_set fo2 0x20 = bit_set fo 0x20 /\ bit_set fo2 0x40 = (0 <? len (report_udh r))).
    { subst fo2. destruct (0 <? len (report_udh r)) eqn:E; [done|]. split_and!; try done. destruct (bit_set fo 0x40); [|done]. exfalso. specialize (Hbit eq_refl). congruence. }
    revert H. rewrite !orb_true_r. cbn [negb]. intros [= <- <-]. destruct Hf2 as (G1 & G2 & G3 & G4). split_and!; try done.
    exists udl, ud. split; [|intros _; by rewrite Hrs]. unfold report_optional, report_includePI, report_indicator. rewrite Hu, !orb_true_r.
    replace (to_u8 udl) with udl by (symmetry; apply Z.mod_small; lia). done.
  - cbn [bind]. cbn [negb]. rewrite andb_true_r. destruct (bit_set fo 0x40) eqn:Hb; [done|].
    assert (He : (0 <? len (report_udh r)) = false) by (destruct (0 <? len (report_udh r)); [by specialize (Hud eq_refl)|done]).
    rewrite orb_false_r. intros H. assert (Hfo' : fo' = fo) by (revert H; destruct (negb _); by intros [= _ <-]). subst fo'.
    split_and!; try done; [by rewrite He|]. exists 0, []. split; [|done]. unfold report_optional, report_includePI, report_indicator. rewrite Hu, orb_false_r.
    fold (report_hasProtocolID r) in H. fold (report_hasDataCodingScheme r) in H.
    destruct (sr_HasParameterIndicator r || report_hasProtocolID r || report_hasDataCodingScheme r); cbn [negb] in H; by injection H as <-.
Qed.
Definition report_completed (r r0 : SMSStatusReport) (udl : Z) : SMSStatusReport :=
  let r1 := sr_with_indicator r0 (report_indicator r) in
  let r2 := if report_hasProtocolID r then sr_with_protocol r1 (sr_ProtocolID r) else r1 in
  let r3 := if report_hasDataCodingScheme r then sr_with_coding r2 (report_dcs r) else r2 in
  if report_hasUserData r then sr_with_data r3 udl (sr_UserDataHeaderInfo r) (sr_UserData r) else r3.
Lemma optional_field (present : bool) (p rest data : bytes) v (r : SMSStatusReport) f e :
  data = p ++ (if present then [v] else []) ++ rest ->
  (if present then if len data <=? len p then Err (E := error) e else let! x := at_ data (len p) in Ok (f x, len p + 1) else Ok (r, len p)) =
    Ok (if present then f v else r, len (p ++ (if present then [v] else []))).
Proof.
  intros ->. destruct present; [|by rewrite app_nil_r]. pose proof (len_nonneg p). pose proof (len_nonneg rest).
  replace (len (p ++ [v] ++ rest) <=? len p) with false by (symmetry; apply Z.leb_gt; len_lia).
  cbn [app]. rewrite at_app_r by done. cbn [bind]. do 2 f_equal. len_lia.
Qed.
Lemma optional_parsed r r0 udl ud : is_u8 (sr_ParameterIndicator r) -> report_includePI r = true ->
  sr_DataCodingScheme r0 = 0 -> sr_UserDataHeader r0 = (0 <? len (report_udh r)) ->
  (report_hasUserData r = true -> decodeSMSUserDataWithHeader ud udl (report_dcs r) (0 <? len (report_udh r)) = Ok (sr_UserData r, sr_UserDataHeaderInfo r)) ->
  parseSMSStatusReportOptionalParameters (report_optional r udl ud) r0 = Ok (report_completed r r0 udl).
Proof.
  intros Hpi Hinc Hd0 Hh0 Hread.
  destruct (indicator_bits (sr_ParameterIndicator r) (report_hasProtocolID r) (report_hasDataCodingScheme r) (report_hasUserData r) Hpi) as (B1 & B2 & B4 & _).
  change (bit_set (report_indicator r) 1 = report_hasProtocolID r) in B1. change (bit_set (report_indicator r) 2 = report_hasDataCodingScheme r) in B2.
  change (bit_set (report_indicator r) 4 = report_hasUserData r) in B4.
  assert (Hdcs : report_hasDataCodingScheme r = false -> report_dcs r = 0).
  { unfold report_hasDataCodingScheme. intros E. apply orb_false_iff in E as [_ E]. by apply negb_false_iff, Z.eqb_eq in E. }
  unfold report_optional. rewrite Hinc. unfold parseSMSStatusReportOptionalParameters, report_completed. cbv zeta.
  set (p1 := if report_hasProtocolID r then [sr_ProtocolID r] else []). set (p2 := if report_hasDataCodingScheme r then [report_dcs r] else []).
  set (p3 := if report_hasUserData r then udl :: ud else []). set (data := [report_indicator r] ++ p1 ++ p2 ++ p3).
  assert (Hl : 1 <= len data) by (unfold data; rewrite len_app; pose proof (len_nonneg (p1 ++ p2 ++ p3)); len_lia).
  replace (len data =? 0) with false by lia. change (at_ data 0) with (@Ok error Z (report_indicator r)). cbn [bind]. rewrite B1, B2, B4.
  set (r1 := sr_with_indicator r0 (report_indicator r)).
  pose proof (optional_field (report_hasProtocolID r) [report_indicator r] (p2 ++ p3) data (sr_ProtocolID r) r1 (sr_with_protocol r1)
    (ErrText "SMS-STATUS-REPORT PID missing") eq_refl) as E1. change (len [report_indicator r]) with 1 in E1. rewrite E1. cbn [bind].
  set (r2 := if report_hasProtocolID r then sr_with_protocol r1 (sr_ProtocolID r) else r1). fold p1.
  rewrite (optional_field (report_hasDataCodingScheme r) ([report_indicator r] ++ p1) p3 data (report_dcs r) r2 (sr_with_coding r2)) by (unfold data; by rewrite <- app_assoc).
  cbn [bind]. fold p2. set (r3 := if report_hasDataCodingScheme r then sr_with_coding r2 (report_dcs r) else r2).
  destruct (report_hasUserData r); [|done]. pose proof (len_nonneg ud).
  set (front := ([report_indicator r] ++ p1) ++ p2). assert (Hdata : data = front ++ udl :: ud) by (unfold front, data; by rewrite <- !app_assoc).
  replace (len data <=? len front) with false by (rewrite Hdata; symmetry; apply Z.leb_gt; len_lia).
  assert (Hu : at_ (E := error) data (len front) = Ok udl) by (rewrite Hdata; by apply at_app_r). rewrite Hu. cbn [bind].
  replace (len data <? len front + 1) with false by (rewrite Hdata; symmetry; apply Z.ltb_ge; len_lia).
  rewrite (slice_from_eq data (front ++ [udl]) ud); [|by rewrite Hdata, <- app_assoc|len_lia]. cbn [bind].
  assert (Hr3 : sr_DataCodingScheme r3 = report_dcs r /\ sr_UserDataHeader r3 = (0 <? len (report_udh r))).
  { subst r3 r2 r1. destruct (report_hasDataCodingScheme r), (report_hasProtocolID r); cbn; rewrite ?Hd0, ?Hh0, ?(Hdcs eq_refl); done. }
  destruct Hr3 as [-> ->]. rewrite Hread by done. done.
Qed.

(** The report a receiver gets. *)
Definition report_received (r : SMSStatusReport) (firstOctet udl : Z) (tpdu : bytes) : SMSStatusReport :=
  let r0 := mkReport (sr_Reference r) (read_back <$> normalizeSMSNumber (normalizeSMSNumber (sr_Recipient r))) (whole_seconds (sr_Timestamp r))
    (whole_seconds (sr_DoneAt r)) (sr_Status r) (smsStatusReportState (sr_Status r)) firstOctet (negb (bit_set (smsStatusReportFirstOctet r) 0x04))
    (bit_set (smsStatusReportFirstOctet r) 0x20) (0 <? len (report_udh r)) 0 false 0 false 0 false zeroCoding 0 zeroUDHInfo [] false tpdu in
  if report_includePI r then report_completed r r0 udl else r0.
Lemma status_report_read r tpdu : report_ok r -> BuildSMSStatusReportTPDU r = Ok tpdu ->
  exists firstOctet udl, ParseSMSStatusReportTPDU tpdu = Ok (report_received r firstOctet udl tpdu).
Proof.
  intros Hok. pose proof Hok as (Hfo & Hpi & _ & Hts & Hda & Hnum & _). unfold BuildSMSStatusReportTPDU. cbv zeta.
  destruct (len (normalizeSMSNumber (sr_Recipient r)) =? 0); [done|].
  intros ([[digits toa] bcd] & Ha & H)%bind_ok. apply bind_ok in H as (stamp & Hst & H). apply bind_ok in H as (done_at & Hdn & H).
  apply bind_ok in H as ([optional fo] & Hopt & H). injection H as Htp.
  apply address_encoded in Ha as (_ & _ & Hdig & Hbl & Hoct & Hdec & _).
  apply encode_spec in Hst as (_ & _ & _ & Hsl & _ & Hsd); [|done]. apply encode_spec in Hdn as (_ & _ & _ & Hdl & _ & Hdd); [|done].
  destruct (report_first_octet r Hfo) as [Hf3 Hf8]. destruct (optional_encoded r _ _ _ Hok Hf8 Hopt) as (G3 & G4 & G20 & G40 & udl & ud & Ho & Hread).
  replace (to_u8 digits) with digits in Htp by (symmetry; apply Z.mod_small; lia).
  assert (Hb1 : 1 <= len bcd) by (rewrite Hbl; Z.div_mod_to_equations; lia). pose proof (len_nonneg optional).
  exists fo, udl. unfold ParseSMSStatusReportTPDU.
  assert (Hlen : len tpdu = 19 + len bcd + len optional) by (rewrite <- Htp; len_lia). replace (len tpdu <? 17) with false by lia.
  assert (H0 : at_ (E := error) tpdu 0 = Ok fo) by (by rewrite <- Htp). rewrite H0. cbn [bind]. rewrite G3, Hf3. cbn [Z.eqb negb Pos.eqb].
  assert (H1 : at_ (E := error) tpdu 1 = Ok (sr_Reference r)) by (by rewrite <- Htp). rewrite H1. cbn [bind].
  assert (Haddr : tpdu_address tpdu 2 "SMS-STATUS-REPORT recipient" = Ok (read_back <$> normalizeSMSNumber (normalizeSMSNumber (sr_Recipient r)), 4 + len bcd)).
  { rewrite <- Htp. apply (tpdu_address_read [fo; sr_Reference r]); done. }
  rewrite Haddr. cbn [bind]. replace (len tpdu <? 4 + len bcd + 15) with false by lia.
  set (front := [fo; sr_Reference r; digits; toa] ++ bcd). assert (Hfl : len front = 4 + len bcd) by (subst front; len_lia).
  assert (Htp' : tpdu = front ++ stamp ++ done_at ++ sr_Status r :: optional) by (rewrite <- Htp; subst front; by rewrite <- !app_assoc).
  clearbody front. clear Htp.
  rewrite (slice_eq tpdu front stamp (done_at ++ sr_Status r :: optional)) by (done || lia). cbn [bind]. rewrite Hsd. cbn [bind]. cbv zeta.
  rewrite (slice_eq tpdu (front ++ stamp) done_at (sr_Status r :: optional)); [|by rewrite Htp', <- app_assoc|len_lia|lia]. cbn [bind]. rewrite Hdd. cbn [bind].
  assert (Hs : at_ (E := error) tpdu (4 + len bcd + 7 + 7) = Ok (sr_Status r)).
  { rewrite Htp', 2!app_assoc. apply at_app_r. len_lia. }
  rewrite Hs. cbn [bind]. rewrite G4, G20, G40. fold (whole_seconds (sr_Timestamp r)) (whole_seconds (sr_DoneAt r)).
  unfold report_received. set (r0 := mkReport _ _ _ _ _ _ _ _ _ _ _ _ _ _ _ _ _ _ _ _ _ _). cbv zeta.
  destruct (report_includePI r) eqn:Hinc.
  - assert (Hne : 0 < len optional).
    { rewrite Ho. unfold report_optional. rewrite Hinc, len_app. change (len [report_indicator r]) with 1.
      match goal with |- 0 < 1 + len ?l => pose proof (len_nonneg l) end. lia. }
    replace (4 + len bcd + 7 + 7 + 1 <? len tpdu) with true by lia.
    rewrite (slice_from_eq tpdu (front ++ stamp ++ done_at ++ [sr_Status r]) optional); [|by rewrite Htp', <- !app_assoc|len_lia]. cbn [bind].
    rewrite Ho. by apply optional_parsed.
  - replace (4 + len bcd + 7 + 7 + 1 <? len tpdu) with false; [done|]. rewrite Hlen, Ho. unfold report_optional. rewrite Hinc. change (len (@nil Z)) with 0. lia.
Qed.

(** Status reports: what [BuildSMSStatusReportTPDU] writes for a report whose
    fields fit their octets, [ParseSMSStatusReportTPDU] reads: the reference, the
    recipient (normalised), both times in whole seconds, the status with the
    state it stands for, the flags, and of the optional parameters those that the
    report has, under an indicator that says which: protocol identifier, coding
    scheme, user data with its header. *)
Theorem status_report_roundtrip r tpdu : report_ok r -> BuildSMSStatusReportTPDU r = Ok tpdu ->
  exists r', ParseSMSStatusReportTPDU tpdu = Ok r' /\
    sr_Reference r' = sr_Reference r /\ sr_Recipient r' = (read_back <$> normalizeSMSNumber (normalizeSMSNumber (sr_Recipient r))) /\
    sr_Timestamp r' = whole_seconds (sr_Timestamp r) /\ sr_DoneAt r' = whole_seconds (sr_DoneAt r) /\
    sr_Status r' = sr_Status r /\ sr_State r' = smsStatusReportState (sr_Status r) /\
    (sr_FirstOctet r = 0 -> sr_MoreMessagesToSend r' = sr_MoreMessagesToSend r /\ sr_StatusReportQualifier r' = sr_StatusReportQualifier r) /\
    sr_UserDataHeader r' = (0 <? len (report_udh r)) /\ sr_UserDataHeaderInfo r' = sr_UserDataHeaderInfo r /\
    sr_UserData r' = sr_UserData r /\ sr_HasUserData r' = report_hasUserData r /\
    sr_ProtocolID r' = sr_ProtocolID r /\ sr_HasProtocolID r' = report_hasProtocolID r /\
    sr_DataCodingScheme r' = report_dcs r /\ sr_HasDataCodingScheme r' = report_hasDataCodingScheme r /\
    sr_HasParameterIndicator r' = report_includePI r /\ sr_RawTPDU r' = tpdu.
Proof.
  intros Hok Hb. destruct (status_report_read r tpdu Hok Hb) as (fo & udl & E). eexists. split; [exact E|].
  destruct Hok as (_ & _ & _ & _ & _ & _ & _ & Hh).
  assert (Hnp : report_hasProtocolID r = false -> sr_ProtocolID r = 0).
  { unfold report_hasProtocolID. intros [_ H]%orb_false_iff. by apply negb_false_iff, Z.eqb_eq in H. }
  assert (Hnd : report_hasDataCodingScheme r = false -> report_dcs r = 0).
  { unfold report_hasDataCodingScheme. intros [_ H]%orb_false_iff. by apply negb_false_iff, Z.eqb_eq in H. }
  assert (Hnu : report_hasUserData r = false -> sr_UserData r = [] /\ sr_UserDataHeaderInfo r = zeroUDHInfo).
  { unfold report_hasUserData. intros [[[_ H1]%orb_false_iff _]%orb_false_iff H2]%orb_false_iff. split.
    - apply negb_false_iff, Z.eqb_eq in H1. by apply len_zero.
    - destruct Hh as (_ & _ & _ & Hh). by rewrite H2 in Hh. }
  assert (Hfl : sr_FirstOctet r = 0 -> negb (bit_set (smsStatusReportFirstOctet r) 0x04) = sr_MoreMessagesToSend r /\ bit_set (smsStatusReportFirstOctet r) 0x20 = sr_StatusReportQualifier r).
  { intros E0. unfold smsStatusReportFirstOctet. rewrite E0. cbn [Z.eqb negb]. cbv zeta. by destruct (sr_MoreMessagesToSend r), (sr_StatusReportQualifier r), (sr_UserDataHeader r || _). }
  unfold report_received, report_completed. destruct (report_includePI r) eqn:Hinc.
  - destruct (report_hasProtocolID r), (report_hasDataCodingScheme r), (report_hasUserData r); cbn; rewrite ?(Hnp eq_refl), ?(Hnd eq_refl);
      try destruct (Hnu eq_refl) as [-> ->]; split_and!; auto.
  - unfold report_includePI in Hinc. apply orb_false_iff in Hinc as [Hinc H4]. apply orb_false_iff in Hinc as [Hinc H3]. apply orb_false_iff in Hinc as [_ H2].
    rewrite H2, H3, H4. destruct (Hnu H4) as [-> ->]. cbn. rewrite (Hnp H2), (Hnd H3). split_and!; auto.
Qed.
Definition sample_report : SMSStatusReport :=
  mkReport 9 [43; 49; 53; 53; 53] (mkTime 2024 2 29 23 59 59 7 20700) (mkTime 2024 3 1 0 0 3 0 (-3600)) 0x20 "" 0 true false false 0 false 0x40 false 0 false
    zeroCoding 0 zeroUDHInfo [111; 107] false [].
Lemma sample_report_ok : report_ok sample_report.
Proof.
  split; [by_decide|]. split; [by_decide|]. split; [by_decide|]. split; [by_decide|]. split; [by_decide|]. split; [vm_compute; discriminate|]. split.
  - exists [111; 107]. split; [reflexivity|]. split; [by_decide|]. intros _. by_decide.
  - split; [by_decide|]. split; [reflexivity|]. split; [reflexivity|]. reflexivity.
Qed.
Definition sample_report_tpdu : bytes :=
  [2; 9; 4; 145; 81; 85; 66; 32; 146; 50; 149; 149; 50; 66; 48; 16; 0; 0; 48; 72; 32; 5; 64; 2; 239; 53].
Lemma status_report_roundtrip_witness :
  BuildSMSStatusReportTPDU sample_report = Ok sample_report_tpdu /\
  exists r', ParseSMSStatusReportTPDU sample_report_tpdu = Ok r' /\ sr_Reference r' = 9 /\ sr_Recipient r' = [43; 49; 53; 53; 53].
Proof.
  assert (Hb : BuildSMSStatusReportTPDU sample_report = Ok sample_report_tpdu) by (vm_compute; reflexivity).
  destruct (status_report_roundtrip sample_report sample_report_tpdu sample_report_ok Hb) as (r' & H & H1 & H2 & _).
  split; [exact Hb|]. exists r'. split; [exact H|]. split; [exact H1|exact H2].
Defined.
