(* ===== verification/SmsSubmit.v ===== *)
(** * Outgoing messages (runtimehost/messaging: messaging.go, sms_pdu.go)

    The choice of an encoding, the segmentation of a text into parts that fit a
    TPDU, and the SMS-SUBMIT of a part. *)
From S2P Require Import Prelude GoStrings Errors Utf8 SmsTables Gsm7 SmsUdh SmsText SmsTime SmsAddress SmsTpdu.
#[local] Open Scope string_scope.
#[local] Open Scope list_scope.
#[local] Open Scope Z_scope.

Record SendOptions := mkOptions {
  so_Encoding : string;
  so_ValidityPeriod : Z;
  so_ValidityDeadline : Time;
  so_ProtocolID : Z;
  so_DataCodingScheme : Z;
  so_UseProtocolID : bool;
  so_UseDataCodingScheme : bool;
  so_ReplyPath : bool;
  so_RejectDuplicates : bool;
  so_ConcatRef : Z;
  so_ConcatRefBits : Z;
  so_ApplicationDestPort : Z;
  so_ApplicationSourcePort : Z;
  so_ApplicationPortBits : Z;
  so_SingleShiftLang : Z;
  so_LockingShiftLang : Z
}.
Record SMSPart := mkPart {
  sp_PartNo : Z;
  sp_TotalParts : Z;
  sp_Text : bytes;
  sp_Encoding : string;
  sp_UDH : bytes;
  sp_ValidityPeriod : Z;
  sp_ValidityDeadline : Time;
  sp_ProtocolID : Z;
  sp_DataCodingScheme : Z;
  sp_UseProtocolID : bool;
  sp_UseDataCodingScheme : bool;
  sp_ReplyPath : bool;
  sp_RejectDuplicates : bool;
  sp_ConcatRef : Z;
  sp_ConcatRefBits : Z;
  sp_ApplicationDestPort : Z;
  sp_ApplicationSourcePort : Z;
  sp_ApplicationPortBits : Z;
  sp_SingleShiftLang : Z;
  sp_LockingShiftLang : Z;
  sp_RequestStatusReport : bool
}.

(** ** The encoding *)
Definition normalizeEncoding (text : bytes) (requested : string) : string :=
  let req := TrimSpace (go_bytes requested) in
  if lower_equal req "gsm7" || lower_equal req "7bit" || lower_equal req "gsm-7" then "gsm7"
  else if lower_equal req "ucs2" || lower_equal req "utf16" then "ucs2"
  else if lower_equal req "utf8" then "utf8"
  else if isGSM7Text text then "gsm7" else "ucs2".
Definition encoding_requested (requested : string) : bool := negb (bool_decide (TrimSpace (go_bytes requested) = [])).
Definition normalizeSMSSubmitEncoding (text : bytes) (requested : string) (dcs : Z) (hasDCS : bool) : result string :=
  let encoding := normalizeEncoding text requested in
  if negb hasDCS then Ok encoding else
  let encoding := if negb (encoding_requested requested) then smsEncodingForDCS dcs else encoding in
  let! _ := validateSMSSubmitDataCodingScheme dcs encoding in
  Ok encoding.
Definition normalizeSMSSubmitEncodingWithLanguage (text : bytes) (requested : string) (dcs : Z) (hasDCS : bool) (lockingLang singleLang : Z) : result string :=
  if encoding_requested requested || hasDCS then normalizeSMSSubmitEncoding text requested dcs hasDCS else
  match gsm7SeptetLenWithLanguage text lockingLang singleLang with
  | Some _ => Ok "gsm7"
  | None => normalizeSMSSubmitEncoding text requested dcs hasDCS
  end.

(** ** The TPDU of a part *)
Definition smsSubmitProtocolID (part : SMSPart) : Z :=
  if sp_UseProtocolID part || negb (sp_ProtocolID part =? 0) then sp_ProtocolID part else 0.
Definition smsSubmitDataCodingScheme (part : SMSPart) : Z * bool :=
  if sp_UseDataCodingScheme part || negb (sp_DataCodingScheme part =? 0) then (sp_DataCodingScheme part, true) else (0, false).
Definition buildSMSSubmitUDHForPart (part : SMSPart) : result bytes :=
  let! _ := validateSMSNationalLanguageOptions (sp_SingleShiftLang part) (sp_LockingShiftLang part) in
  let! r := validateSMSApplicationPortOptions (sp_ApplicationDestPort part) (sp_ApplicationSourcePort part) (sp_ApplicationPortBits part) in
  let '(portBits, hasPorts) := r in
  if negb hasPorts && (sp_SingleShiftLang part =? 0) && (sp_LockingShiftLang part =? 0) then Ok [] else
  buildSMSSubmitUDH hasPorts (sp_ApplicationDestPort part) (sp_ApplicationSourcePort part) portBits 0 0 1 1 (sp_SingleShiftLang part) (sp_LockingShiftLang part).
Definition BuildSMSSubmitTPDU (to : bytes) (part : SMSPart) (mr : Z) : result bytes :=
  let number := normalizeSMSNumber to in
  if len number =? 0 then Err (ErrText "sms destination address is empty") else
  let! r := encodeSMSAddress number in
  let '(digits, toa, bcd) := r in
  let '(dcsOverride, hasDCSOverride) := smsSubmitDataCodingScheme part in
  let! encoding := normalizeSMSSubmitEncodingWithLanguage (sp_Text part) (sp_Encoding part) dcsOverride hasDCSOverride (sp_LockingShiftLang part) (sp_SingleShiftLang part) in
  let! udh := (if len (sp_UDH part) =? 0 then buildSMSSubmitUDHForPart part else Ok (sp_UDH part)) in
  let firstOctet := 0x01 in
  let firstOctet := if sp_RejectDuplicates part then Z.lor firstOctet 0x04 else firstOctet in
  let firstOctet := if sp_RequestStatusReport part then Z.lor firstOctet 0x20 else firstOctet in
  let firstOctet := if 0 <? len udh then Z.lor firstOctet 0x40 else firstOctet in
  let firstOctet := if sp_ReplyPath part then Z.lor firstOctet 0x80 else firstOctet in
  let! r := encodeSMSSubmitValidityPeriod (sp_ValidityPeriod part) (sp_ValidityDeadline part) in
  let '(vpf, vp) := r in
  let firstOctet := Z.lor firstOctet vpf in
  let! r := encodeSMSUserDataWithLanguage (sp_Text part) encoding udh (sp_LockingShiftLang part) (sp_SingleShiftLang part) in
  let '(userData, udl, dcs) := r in
  let dcs := if hasDCSOverride then dcsOverride else dcs in
  Ok ([firstOctet; mr; to_u8 digits; toa] ++ bcd ++ [smsSubmitProtocolID part; dcs] ++ vp ++ [to_u8 udl] ++ userData).

(** ** Segmentation *)
Definition smsPartLimitForUDH (encoding : string) (udhBytes : Z) : Z :=
  if udhBytes <=? 0 then
    if bool_decide (encoding = "utf8") then 140 else if bool_decide (encoding = "ucs2") then 70 else 160
  else if bool_decide (encoding = "gsm7") then
    let headerSeptets := (udhBytes * 8 + 6) / 7 in 160 - headerSeptets
  else if bool_decide (encoding = "utf8") then 140 - udhBytes
  else Z.quot (140 - udhBytes) 2.
Definition smsPartLimitsForUDH (encoding : string) (udhBytes : Z) : Z * Z := (smsPartLimitForUDH encoding 0, smsPartLimitForUDH encoding udhBytes).
Definition smsPartLimits (encoding : string) : Z * Z := smsPartLimitsForUDH encoding 6.
Definition messageLenWithLanguage (text : bytes) (encoding : string) (lockingLang singleLang : Z) : Z :=
  if bool_decide (encoding = "utf8") then len text else
  if bool_decide (encoding = "gsm7") then
    match gsm7SeptetLenWithLanguage text lockingLang singleLang with Some septets => septets | None => RuneCountInString text end
  else len (utf16_Encode (runes text)).
Definition messageLen (text : bytes) (encoding : string) : Z := messageLenWithLanguage text encoding 0 0.

(** The loop of the two functions below: [pos] is the offset of the next rune,
    [used] the units taken, [stop] the end of the chunk. *)
Fixpoint chunk_loop (units : Z -> Z) (limit : Z) (rs : list (Z * Z)) (pos used stop : Z) : Z :=
  match rs with
  | [] => stop
  | (r, size) :: rest =>
      if (0 <? used) && (limit <? used + units r) then stop else
      let used := used + units r in
      let stop := pos + size in
      if limit <=? used then stop else chunk_loop units limit rest (pos + size) used stop
  end.
Definition first_rune_size (text : bytes) : Z := (decode_rune text).2.
(** [text[:end], text[end:]] *)
Definition split_at (text : bytes) (stop : Z) : result (bytes * bytes) :=
  let! chunk := slice text 0 stop in
  let! rest := slice_from text stop in
  Ok (chunk, rest).
Definition gsm7_units (lockingLang singleLang r : Z) : Z :=
  if gsm7CanEncodeLocking r lockingLang then 1 else match gsm7SingleShiftCode r singleLang with Some _ => 2 | None => 1 end.
Definition takeGSM7ChunkWithLanguage (text : bytes) (limit lockingLang singleLang : Z) : result (bytes * bytes) :=
  if (len text =? 0) || (limit <=? 0) then Ok ([], text) else
  let stop := chunk_loop (gsm7_units lockingLang singleLang) limit (range_string text) 0 0 0 in
  let stop := if stop <=? 0 then first_rune_size text else stop in
  split_at text stop.
Definition takeGSM7Chunk (text : bytes) (limit : Z) : result (bytes * bytes) := takeGSM7ChunkWithLanguage text limit 0 0.
Definition ucs2_rune_units (r : Z) : Z := if 0xffff <? r then 2 else 1.
Definition takeUCS2Chunk (text : bytes) (limit : Z) : result (bytes * bytes) :=
  if (len text =? 0) || (limit <=? 0) then Ok ([], text) else
  let stop := chunk_loop ucs2_rune_units limit (range_string text) 0 0 0 in
  let stop := if stop <=? 0 then first_rune_size text else stop in
  split_at text stop.
(** [for pos := range text { if pos > limit { break }; i = pos }] *)
Fixpoint last_start_loop (rs : list (Z * Z)) (limit pos i : Z) : Z :=
  match rs with
  | [] => i
  | (_, size) :: rest => if limit <? pos then i else last_start_loop rest limit (pos + size) pos
  end.
Definition takeSMSChunkWithLanguage (text : bytes) (encoding : string) (limit lockingLang singleLang : Z) : result (bytes * bytes) :=
  if bool_decide (encoding = "utf8") then
    if len text <=? limit then Ok (text, []) else
    let i := last_start_loop (range_string text) limit 0 0 in
    let i := if i <=? 0 then first_rune_size text else i in
    split_at text i
  else if bool_decide (encoding = "gsm7") then takeGSM7ChunkWithLanguage text limit lockingLang singleLang
  else if bool_decide (encoding = "ucs2") then takeUCS2Chunk text limit
  else
    let rs := runes text in
    if len rs <=? limit then Ok (text, []) else
    if limit <? 0 then Panic else Ok (string_of (take (Z.to_nat limit) rs), string_of (drop (Z.to_nat limit) rs)).
Definition takeSMSChunk (text : bytes) (encoding : string) (limit : Z) : result (bytes * bytes) := takeSMSChunkWithLanguage text encoding limit 0 0.

(** [nextSMSConcatRef], given the value of the counter after the increment. *)
Definition nextSMSConcatRef (refBits n : Z) : Z := if refBits =? 16 then n mod 0xffff + 1 else n mod 0xff + 1.
Definition with_udh (p : SMSPart) (total : Z) (udh : bytes) : SMSPart :=
  mkPart (sp_PartNo p) total (sp_Text p) (sp_Encoding p) udh (sp_ValidityPeriod p) (sp_ValidityDeadline p) (sp_ProtocolID p) (sp_DataCodingScheme p)
    (sp_UseProtocolID p) (sp_UseDataCodingScheme p) (sp_ReplyPath p) (sp_RejectDuplicates p) (sp_ConcatRef p) (sp_ConcatRefBits p)
    (sp_ApplicationDestPort p) (sp_ApplicationSourcePort p) (sp_ApplicationPortBits p) (sp_SingleShiftLang p) (sp_LockingShiftLang p) (sp_RequestStatusReport p).

Section segment.
Variables (opts : SendOptions) (enc : string) (hasPorts : bool) (portBits : Z).
Definition part_of (ref refBits total partNo : Z) (chunk udh : bytes) : SMSPart :=
  mkPart partNo total chunk enc udh (so_ValidityPeriod opts) (so_ValidityDeadline opts) (so_ProtocolID opts) (so_DataCodingScheme opts) (so_UseProtocolID opts)
    (so_UseDataCodingScheme opts) (so_ReplyPath opts) (so_RejectDuplicates opts) ref refBits (so_ApplicationDestPort opts) (so_ApplicationSourcePort opts) portBits
    (so_SingleShiftLang opts) (so_LockingShiftLang opts) false.
Definition part_udh (ref refBits total partNo : Z) : result bytes :=
  buildSMSSubmitUDH hasPorts (so_ApplicationDestPort opts) (so_ApplicationSourcePort opts) portBits ref refBits total partNo (so_SingleShiftLang opts) (so_LockingShiftLang opts).
(** [for partNo := 1; remaining != ""; partNo++] *)
Fixpoint segment_loop (fuel : nat) (remaining : bytes) (concat ref refBits total partNo : Z) : result (list SMSPart) :=
  match fuel with
  | O => OutOfFuel
  | S fuel' =>
      if len remaining =? 0 then Ok [] else
      let! r := takeSMSChunkWithLanguage remaining enc concat (so_LockingShiftLang opts) (so_SingleShiftLang opts) in
      let '(chunk, rest) := r in
      let! udh := part_udh ref refBits total partNo in
      let! parts := segment_loop fuel' rest concat ref refBits total (partNo + 1) in
      Ok (part_of ref refBits total partNo chunk udh :: parts)
  end.
(** The loop that writes the final number of parts. *)
Fixpoint renumber_loop (ref refBits count : Z) (parts : list SMSPart) : result (list SMSPart) :=
  match parts with
  | [] => Ok []
  | p :: rest =>
      let! udh := part_udh ref refBits count (sp_PartNo p) in
      let! rest := renumber_loop ref refBits count rest in
      Ok (with_udh p count udh :: rest)
  end.
Definition segment_long (text : bytes) (refBits ref : Z) : result (list SMSPart) :=
  let concatUDHLen := smsSubmitUDHLength hasPorts portBits true refBits (so_SingleShiftLang opts) (so_LockingShiftLang opts) in
  let concat := smsPartLimitForUDH enc concatUDHLen in
  if concat <=? 0 then Err (ErrText "sms UDH leaves no room for payload") else
  let n := messageLenWithLanguage text enc (so_LockingShiftLang opts) (so_SingleShiftLang opts) in
  let total := (n + concat - 1) / concat in
  let total := if total <=? 0 then 1 else total in
  if 255 <? total then Err (ErrText "sms message requires too many parts; maximum is 255") else
  let! out := segment_loop (S (length text)) text concat ref refBits total 1 in
  renumber_loop ref refBits (len out) out.
End segment.

(** The counter is the package's [smsConcatRefCounter], a 32-bit integer. *)
Definition segmentSMS (text : bytes) (opts : SendOptions) (counter : Z) : result (list SMSPart) * Z :=
  if len text =? 0 then (Ok [], counter) else
  match encodeSMSSubmitValidityPeriod (so_ValidityPeriod opts) (so_ValidityDeadline opts),
        validateSMSNationalLanguageOptions (so_SingleShiftLang opts) (so_LockingShiftLang opts),
        normalizeSMSSubmitEncodingWithLanguage text (so_Encoding opts) (so_DataCodingScheme opts)
          (so_UseDataCodingScheme opts || negb (so_DataCodingScheme opts =? 0)) (so_LockingShiftLang opts) (so_SingleShiftLang opts),
        validateSMSApplicationPortOptions (so_ApplicationDestPort opts) (so_ApplicationSourcePort opts) (so_ApplicationPortBits opts) with
  | Ok _, Ok _, Ok enc, Ok (portBits, hasPorts) =>
      let singleUDHLen := smsSubmitUDHLength hasPorts portBits false 0 (so_SingleShiftLang opts) (so_LockingShiftLang opts) in
      let singleLimit := smsPartLimitForUDH enc singleUDHLen in
      if messageLenWithLanguage text enc (so_LockingShiftLang opts) (so_SingleShiftLang opts) <=? singleLimit then
        (let! udh := part_udh opts hasPorts portBits 0 0 1 1 in Ok [part_of opts enc portBits 0 0 1 1 text udh], counter)
      else
        match validateSMSConcatOptions (so_ConcatRef opts) (so_ConcatRefBits opts) with
        | Ok refBits =>
            if so_ConcatRef opts =? 0 then
              let n := to_u32 (counter + 1) in
              (segment_long opts enc hasPorts portBits text refBits (nextSMSConcatRef refBits n), n)
            else (segment_long opts enc hasPorts portBits text refBits (so_ConcatRef opts), counter)
        | Err e => (Err e, counter)
        | Panic => (Panic, counter)
        | OutOfFuel => (OutOfFuel, counter)
        end
  | Err e, _, _, _ => (Err e, counter)
  | Ok _, Err e, _, _ => (Err e, counter)
  | Ok _, Ok _, Err e, _ => (Err e, counter)
  | Ok _, Ok _, Ok _, Err e => (Err e, counter)
  | _, _, _, _ => (Panic, counter)
  end.
Definition SegmentSMSWithOptions (text : bytes) (opts : SendOptions) (counter : Z) : list SMSPart * Z :=
  let '(r, counter) := segmentSMS text opts counter in (match r with Ok parts => parts | _ => [] end, counter).
Definition zeroOptions (encoding : string) : SendOptions := mkOptions encoding 0 zeroTime 0 0 false false false false 0 0 0 0 0 0 0.
Definition SegmentSMS (text : bytes) (encoding : string) (counter : Z) : list SMSPart * Z := SegmentSMSWithOptions text (zeroOptions encoding) counter.

(** Finding: 153 euro signs need 306 septets, which is two times 153; but no
    escape pair may be split, so 76 signs fit a part and three parts are needed.
    The number of parts is estimated as two, and the third part is refused. *)
Example segmentation_refuses_euros :
  (segmentSMS (string_of (replicate 153 0x20ac)) (zeroOptions "") 0).1 = Err (ErrText "sms concat part number out of range").
Proof. vm_compute. reflexivity. Qed.
(** One sign less, and the two parts hold 152: the estimate is right. *)
Example segmentation_of_euros :
  match (segmentSMS (string_of (replicate 152 0x20ac)) (zeroOptions "") 0).1 with
  | Ok [a; b] => sp_Text a = string_of (replicate 76 0x20ac) /\ sp_Text b = string_of (replicate 76 0x20ac) /\ sp_TotalParts a = 2 /\
      sp_UDH a = [5; 0; 3; 2; 2; 1] /\ sp_UDH b = [5; 0; 3; 2; 2; 2]
  | _ => False
  end.
Proof. vm_compute. repeat split. Qed.

(** ** Chunks *)
Definition sized (rs : list Z) : list (Z * Z) := (fun r => (r, len (encode_rune r))) <$> rs.
Definition units_of (units : Z -> Z) (rs : list Z) : Z := foldr Z.add 0 (units <$> rs).
Lemma units_of_cons u r rs : units_of u (r :: rs) = u r + units_of u rs.
Proof. done. Qed.
Lemma units_of_app u a b : units_of u (a ++ b) = units_of u a + units_of u b.
Proof. induction a as [|r a IH]; [done|]. cbn [app]. rewrite !units_of_cons, IH. lia. Qed.
Lemma chunk_loop_spec units limit rs pos used : (forall r, 1 <= units r <= 2) -> 2 <= limit -> 0 <= used <= limit ->
  exists rs1 rs2, rs = rs1 ++ rs2 /\ chunk_loop units limit (sized rs) pos used pos = pos + len (string_of rs1) /\
    used + units_of units rs1 <= limit /\ (used = 0 -> rs <> [] -> rs1 <> []).
Proof.
  intros Hu Hl. revert pos used. induction rs as [|r rs IH]; intros pos used Hused.
  - exists [], []. cbn. split_and!; [done|rewrite Z.add_0_r; done|lia|done].
  - cbn [sized fmap list_fmap chunk_loop]. change (list_fmap _ _ _ rs) with (sized rs). specialize (Hu r) as Hur.
    destruct ((0 <? used) && (limit <? used + units r)) eqn:E.
    { exists [], (r :: rs). split_and!; [done|cbn; by rewrite Z.add_0_r|cbn; lia|lia]. }
    assert (Hfit : used + units r <= limit) by lia. cbv zeta. destruct (limit <=? used + units r) eqn:E2.
    { exists [r], rs. split_and!; [done| |cbn; lia|done]. rewrite string_of_cons. cbn [string_of fmap list_fmap concat]. by rewrite app_nil_r. }
    destruct (IH (pos + len (encode_rune r)) (used + units r)) as (rs1 & rs2 & -> & Hc & Hs & _); [lia|].
    exists (r :: rs1), rs2. split_and!; [done| |rewrite units_of_cons; lia|done]. unfold sized in *. rewrite Hc, string_of_cons, len_app. lia.
Qed.
Lemma len_string_pos r rs : 1 <= len (string_of (r :: rs)).
Proof. rewrite string_of_cons, len_app. pose proof (encode_rune_width r). pose proof (len_nonneg (string_of rs)). lia. Qed.
Lemma split_at_prefix rs1 rs2 : split_at (string_of (rs1 ++ rs2)) (len (string_of rs1)) = Ok (string_of rs1, string_of rs2).
Proof.
  unfold split_at. rewrite string_of_app. rewrite (slice_eq _ [] (string_of rs1) (string_of rs2)) by done. cbn [bind].
  by rewrite (slice_from_eq _ (string_of rs1) (string_of rs2)).
Qed.
Lemma chunk_taken units limit rs : Forall scalar rs -> rs <> [] -> (forall r, 1 <= units r <= 2) -> 2 <= limit ->
  exists rs1 rs2, rs = rs1 ++ rs2 /\ rs1 <> [] /\ units_of units rs1 <= limit /\
    (if (len (string_of rs) =? 0) || (limit <=? 0) then Ok ([], string_of rs) else
     let stop := chunk_loop units limit (range_string (string_of rs)) 0 0 0 in
     let stop := if stop <=? 0 then first_rune_size (string_of rs) else stop in
     split_at (string_of rs) stop) = Ok (string_of rs1, string_of rs2).
Proof.
  intros Hs Hne Hu Hl. destruct (chunk_loop_spec units limit rs 0 0 Hu Hl) as (rs1 & rs2 & E & Hc & Hf & Hn); [lia|]. exists rs1, rs2.
  specialize (Hn eq_refl Hne). assert (Hp : 1 <= len (string_of rs1)) by (destruct rs1; [done|apply len_string_pos]).
  split_and!; [done|done|lia|]. assert (Hpos : 1 <= len (string_of rs)) by (destruct rs; [done|apply len_string_pos]).
  replace ((len (string_of rs) =? 0) || (limit <=? 0)) with false by lia. rewrite range_string_of by done. fold (sized rs). cbv zeta. rewrite Hc, Z.add_0_l.
  replace (len (string_of rs1) <=? 0) with false by lia. rewrite E. apply split_at_prefix.
Qed.

Lemma last_start_spec rs limit pos i :
  last_start_loop (sized rs) limit pos i = i \/
  exists rs1 rs2, rs = rs1 ++ rs2 /\ last_start_loop (sized rs) limit pos i = pos + len (string_of rs1) /\ pos + len (string_of rs1) <= limit.
Proof.
  revert pos i. induction rs as [|r rs IH]; intros pos i; [by left|]. cbn [sized fmap list_fmap last_start_loop]. change (list_fmap _ _ _ rs) with (sized rs).
  destruct (limit <? pos) eqn:E; [by left|right]. destruct (IH (pos + len (encode_rune r)) pos) as [H|(rs1 & rs2 & -> & H & Hle)].
  - exists [], (r :: rs). change (len (string_of [])) with 0. split_and!; [done| |lia]. unfold sized in *. rewrite H. lia.
  - exists (r :: rs1), rs2. rewrite string_of_cons, len_app. split_and!; [done| |lia]. unfold sized in *. rewrite H. lia.
Qed.

Definition known_encoding (enc : string) : Prop := enc = "gsm7" \/ enc = "ucs2" \/ enc = "utf8".
Definition encoding_units (enc : string) (L S : Z) (r : Z) : Z :=
  if bool_decide (enc = "utf8") then len (encode_rune r) else if bool_decide (enc = "gsm7") then gsm7_units L S r else ucs2_rune_units r.
Lemma gsm7_units_bound L S r : 1 <= gsm7_units L S r <= 2.
Proof. unfold gsm7_units. repeat case_match; lia. Qed.
Lemma ucs2_units_bound r : 1 <= ucs2_rune_units r <= 2.
Proof. unfold ucs2_rune_units. case_match; lia. Qed.
Lemma utf8_units rs : units_of (fun r => len (encode_rune r)) rs = len (string_of rs).
Proof. induction rs as [|r rs IH]; [done|]. rewrite units_of_cons, string_of_cons, len_app. lia. Qed.
Lemma utf16_units_of rs : Forall scalar rs -> len (utf16_Encode rs) = units_of ucs2_rune_units rs.
Proof.
  induction 1 as [|r rs Hr _ IH]; [done|]. rewrite units_of_cons, <- IH. unfold utf16_Encode. cbn [fmap list_fmap concat]. rewrite len_app. f_equal.
  unfold utf16_unit, ucs2_rune_units. rewrite bool_decide_eq_true_2 by done. cbn [negb]. destruct (Z.ltb_spec r 0x10000), (Z.ltb_spec 0xffff r); try lia; done.
Qed.
Lemma septet_len_units rs L S n m : septet_len_loop rs L S n = Some m -> m = n + units_of (gsm7_units L S) rs.
Proof.
  revert n. induction rs as [|r rs IH]; intros n; cbn [septet_len_loop]; [intros [= <-]; cbn; lia|].
  rewrite units_of_cons. unfold gsm7_units at 1, gsm7CanEncodeLocking. destruct (gsm7LockingCode r L); [intros H%IH; lia|].
  destruct (gsm7SingleShiftCode r S); [intros H%IH; lia|done].
Qed.
Lemma units_of_ge u rs : (forall r, 1 <= u r) -> len rs <= units_of u rs.
Proof. intros H. induction rs as [|r rs IH]; [done|]. rewrite len_cons, units_of_cons. specialize (H r). lia. Qed.
Lemma len_range_string rs : Forall scalar rs -> RuneCountInString (string_of rs) = len rs.
Proof. intros H. unfold RuneCountInString. rewrite range_string_of by done. apply len_fmap. Qed.
(** The length of a message never exceeds its units, and is their sum for a text that encodes. *)
Lemma message_len_le rs enc L S : Forall scalar rs -> messageLenWithLanguage (string_of rs) enc L S <= units_of (encoding_units enc L S) rs.
Proof.
  intros H. unfold messageLenWithLanguage, encoding_units. case_bool_decide as E1; [change (len (string_of rs) <= units_of (fun r => len (encode_rune r)) rs); by rewrite utf8_units|]. case_bool_decide as E2.
  - destruct (gsm7SeptetLenWithLanguage (string_of rs) L S) eqn:E.
    + change (z <= units_of (gsm7_units L S) rs). unfold gsm7SeptetLenWithLanguage in E. rewrite runes_string_of in E by done. apply septet_len_units in E. lia.
    + rewrite len_range_string by done. apply units_of_ge. intros r. apply gsm7_units_bound.
  - rewrite runes_string_of, utf16_units_of by done. done.
Qed.

Lemma take_chunk_spec rs enc limit L S : Forall scalar rs -> rs <> [] -> 4 <= limit -> known_encoding enc ->
  exists rs1 rs2, rs = rs1 ++ rs2 /\ rs1 <> [] /\ units_of (encoding_units enc L S) rs1 <= limit /\
    takeSMSChunkWithLanguage (string_of rs) enc limit L S = Ok (string_of rs1, string_of rs2).
Proof.
  intros Hs Hne Hl He. unfold takeSMSChunkWithLanguage, encoding_units. destruct He as [-> |[-> | ->]].
  - rewrite bool_decide_eq_false_2, bool_decide_eq_true_2 by done. apply chunk_taken; [done|done|intros; apply gsm7_units_bound|lia].
  - rewrite bool_decide_eq_false_2, (bool_decide_eq_false_2 ("ucs2" = "gsm7")), bool_decide_eq_true_2 by done. apply chunk_taken; [done|done|intros; apply ucs2_units_bound|lia].
  - rewrite bool_decide_eq_true_2 by done. destruct (len (string_of rs) <=? limit) eqn:E.
    { exists rs, []. rewrite app_nil_r, utf8_units. split_and!; [done|done|lia|done]. }
    rewrite range_string_of by done. fold (sized rs). cbv zeta. destruct rs as [|r rs]; [done|]. inversion Hs as [|? ? Hr Hrs]; subst.
    assert (Hfirst : exists rs1 rs2, r :: rs = rs1 ++ rs2 /\ rs1 <> [] /\ units_of (fun x => len (encode_rune x)) rs1 <= limit /\
      split_at (string_of (r :: rs)) (first_rune_size (string_of (r :: rs))) = Ok (string_of rs1, string_of rs2)).
    { exists [r], rs. pose proof (encode_rune_width r). split_and!; [done|done|cbn; lia|].
      replace (first_rune_size (string_of (r :: rs))) with (len (string_of [r])); [apply (split_at_prefix [r])|].
      unfold first_rune_size. rewrite !string_of_cons, decode_encode by done. cbn [snd string_of fmap list_fmap concat]. by rewrite app_nil_r. }
    destruct (last_start_spec (r :: rs) limit 0 0) as [H|(rs1 & rs2 & Ers & H & Hle)]; rewrite H; [exact Hfirst|]. rewrite Z.add_0_l in *.
    destruct (len (string_of rs1) <=? 0) eqn:E2; [exact Hfirst|]. exists rs1, rs2. rewrite utf8_units. split_and!; [done|by intros ->|lia|].
    rewrite Ers. apply split_at_prefix.
Qed.

(** ** The parts of a message *)
Section parts.
Context (opts : SendOptions) (enc : string) (hp : bool) (pb ref bits : Z).
(** The parts [n], [n + 1], ... of [count] that carry the chunks. *)
Fixpoint parts_for (count n : Z) (chunks : list (list Z)) (parts : list SMSPart) : Prop :=
  match chunks, parts with
  | [], [] => True
  | c :: chunks, p :: parts =>
      (exists udh, part_udh opts hp pb ref bits count n = Ok udh /\ p = part_of opts enc pb ref bits count n (string_of c) udh) /\
      parts_for count (n + 1) chunks parts
  | _, _ => False
  end.
Lemma parts_for_length count n chunks parts : parts_for count n chunks parts -> length parts = length chunks.
Proof. revert n parts. induction chunks as [|c chunks IH]; intros n [|p parts]; try done. intros [_ H]. cbn. f_equal. by eapply IH. Qed.
Lemma parts_for_lookup count n chunks parts i p : parts_for count n chunks parts -> parts !! i = Some p ->
  exists c udh, chunks !! i = Some c /\ part_udh opts hp pb ref bits count (n + Z.of_nat i) = Ok udh /\
    p = part_of opts enc pb ref bits count (n + Z.of_nat i) (string_of c) udh.
Proof.
  revert n parts i. induction chunks as [|c chunks IH]; intros n [|q parts] i; try done. intros [(udh & Hu & Hq) H]. destruct i as [|i].
  - intros [= <-]. exists c, udh. by rewrite Z.add_0_r.
  - intros Hp. destruct (IH _ _ _ H Hp) as (c' & udh' & H1 & H2 & H3). exists c', udh'. replace (n + Z.of_nat (S i)) with (n + 1 + Z.of_nat i) by lia. done.
Qed.
Lemma parts_for_text count n chunks parts : parts_for count n chunks parts -> sp_Text <$> parts = string_of <$> chunks.
Proof. revert n parts. induction chunks as [|c chunks IH]; intros n [|p parts]; try done. intros [(udh & _ & ->) H]. cbn. f_equal. by eapply IH. Qed.

Definition chunk_ok (limit : Z) (c : list Z) : Prop :=
  c <> [] /\ units_of (encoding_units enc (so_LockingShiftLang opts) (so_SingleShiftLang opts)) c <= limit.
Lemma segment_loop_spec fuel rs limit total n parts : Forall scalar rs -> 4 <= limit -> known_encoding enc -> (length (string_of rs) < fuel)%nat ->
  segment_loop opts enc hp pb fuel (string_of rs) limit ref bits total n = Ok parts ->
  exists chunks, concat chunks = rs /\ parts_for total n chunks parts /\ Forall (chunk_ok limit) chunks.
Proof.
  intros Hs Hl He. revert rs n parts Hs. induction fuel as [|fuel IH]; intros rs n parts Hs Hf; [lia|]. cbn [segment_loop].
  destruct (len (string_of rs) =? 0) eqn:E0.
  { intros [= <-]. exists []. destruct rs as [|r rs]; [by split_and!; [| |constructor]|]. pose proof (len_string_pos r rs). lia. }
  destruct (take_chunk_spec rs enc limit (so_LockingShiftLang opts) (so_SingleShiftLang opts)) as (rs1 & rs2 & -> & Hne & Hu & Ht); [done|by intros ->|done|done|].
  rewrite Ht. cbn [bind]. intros (udh & Hudh & H)%bind_ok. apply bind_ok in H as (rest & Hrest & H). injection H as <-.
  apply Forall_app in Hs as [_ Hs2]. destruct (IH rs2 (n + 1) rest Hs2) as (chunks & <- & Hp & Hc); [|done|].
  { rewrite string_of_app, length_app in Hf. destruct rs1 as [|r rs1]; [done|]. pose proof (len_string_pos r rs1). unfold len in *. lia. }
  exists (rs1 :: chunks). split_and!; [done| |by constructor]. split; [by exists udh|done].
Qed.
Lemma renumber_loop_spec total count n chunks parts parts' : parts_for total n chunks parts ->
  renumber_loop opts hp pb ref bits count parts = Ok parts' -> parts_for count n chunks parts'.
Proof.
  revert n parts parts'. induction chunks as [|c chunks IH]; intros n [|p parts] parts'; try done; [by intros _ [= <-]|].
  intros [(udh & _ & ->) H]. cbn [renumber_loop]. intros (udh' & Hu & H')%bind_ok. apply bind_ok in H' as (rest & Hr & H'). injection H' as <-.
  split; [by exists udh'|by eapply IH].
Qed.
End parts.

(** ** The length of a part *)
Lemma udh_length_bound hp pb hc bits S L : 0 <= smsSubmitUDHLength hp pb hc bits S L <= 19.
Proof. unfold smsSubmitUDHLength. cbv zeta. repeat case_match; lia. Qed.
Lemma udh_length_concat hp pb bits S L : smsSubmitUDHLength hp pb false bits S L <= smsSubmitUDHLength hp pb true bits S L.
Proof. unfold smsSubmitUDHLength. cbv zeta. destruct (S =? 0), (L =? 0), hp, (pb =? 8), (bits =? 16); by_decide. Qed.
Lemma part_limit_mono enc a b : known_encoding enc -> 0 <= a -> a <= b -> b <= 19 -> smsPartLimitForUDH enc b <= smsPartLimitForUDH enc a.
Proof.
  intros He H0 H1 H2. assert (Hall : Forall (fun b => Forall (fun a => a <= b -> smsPartLimitForUDH enc b <= smsPartLimitForUDH enc a) (seqZ 0 20)) (seqZ 0 20))
    by (destruct He as [-> |[-> | ->]]; by_decide).
  rewrite Forall_forall in Hall. specialize (Hall b ltac:(apply elem_of_seqZ; lia)). rewrite Forall_forall in Hall. apply Hall; [apply elem_of_seqZ; lia|done].
Qed.
Lemma part_limit_large enc a : known_encoding enc -> 0 <= a <= 19 -> 60 <= smsPartLimitForUDH enc a.
Proof.
  intros He Ha. assert (Hall : Forall (fun a => 60 <= smsPartLimitForUDH enc a) (seqZ 0 20)) by (destruct He as [-> |[-> | ->]]; by_decide).
  rewrite Forall_forall in Hall. apply Hall, elem_of_seqZ. lia.
Qed.
Lemma normalizeEncoding_known text requested : known_encoding (normalizeEncoding text requested).
Proof. unfold normalizeEncoding, known_encoding. cbv zeta. repeat case_match; auto. Qed.
Lemma smsEncodingForDCS_known dcs : known_encoding (smsEncodingForDCS dcs).
Proof. unfold smsEncodingForDCS, known_encoding. repeat case_bool_decide; auto. Qed.
Lemma submit_encoding_known text requested dcs has L S enc : normalizeSMSSubmitEncodingWithLanguage text requested dcs has L S = Ok enc -> known_encoding enc.
Proof.
  assert (H : normalizeSMSSubmitEncoding text requested dcs has = Ok enc -> known_encoding enc).
  { unfold normalizeSMSSubmitEncoding. cbv zeta. destruct (negb has); [intros [= <-]; apply normalizeEncoding_known|].
    intros ([] & _ & [= <-])%bind_ok. case_match; [apply smsEncodingForDCS_known|apply normalizeEncoding_known]. }
  unfold normalizeSMSSubmitEncodingWithLanguage. case_match; [done|]. case_match; [intros [= <-]; by left|done].
Qed.

(** What [segmentSMS] returns when it returns parts. *)
Definition segmented (opts : SendOptions) (rs : list Z) (parts : list SMSPart) : Prop :=
  exists enc hp pb ref bits chunks, known_encoding enc /\
    validateSMSApplicationPortOptions (so_ApplicationDestPort opts) (so_ApplicationSourcePort opts) (so_ApplicationPortBits opts) = Ok (pb, hp) /\
    concat chunks = rs /\ parts_for opts enc hp pb ref bits (len parts) 1 chunks parts /\
    Forall (fun c => c <> [] /\ messageLenWithLanguage (string_of c) enc (so_LockingShiftLang opts) (so_SingleShiftLang opts) <=
      smsPartLimitForUDH enc (smsSubmitUDHLength hp pb (1 <? len parts) bits (so_SingleShiftLang opts) (so_LockingShiftLang opts))) chunks.
Lemma segment_long_spec opts enc hp pb rs bits ref parts : Forall scalar rs -> known_encoding enc ->
  validateSMSApplicationPortOptions (so_ApplicationDestPort opts) (so_ApplicationSourcePort opts) (so_ApplicationPortBits opts) = Ok (pb, hp) ->
  segment_long opts enc hp pb (string_of rs) bits ref = Ok parts -> segmented opts rs parts.
Proof.
  intros Hs He Hv. unfold segment_long. cbv zeta. set (limit := smsPartLimitForUDH enc _). destruct (limit <=? 0); [done|].
  match goal with |- context [255 <? ?t] => destruct (255 <? t); [done|]; set (total := t) end.
  pose proof (udh_length_bound hp pb true bits (so_SingleShiftLang opts) (so_LockingShiftLang opts)) as Hb.
  assert (Hlim : 60 <= limit) by (by apply part_limit_large).
  intros (out & Hout & Hr)%bind_ok. apply segment_loop_spec in Hout as (chunks & Hc & Hp & Hall); [|done|lia|done|lia].
  pose proof (renumber_loop_spec _ _ _ _ _ _ _ _ _ _ _ _ Hp Hr) as Hp'.
  assert (Hn : len out = len parts) by (unfold len; by rewrite (parts_for_length _ _ _ _ _ _ _ _ _ _ Hp), (parts_for_length _ _ _ _ _ _ _ _ _ _ Hp')).
  rewrite Hn in Hp'. exists enc, hp, pb, ref, bits, chunks. split_and!; [done|done|done|done|].
  rewrite Forall_forall in *. intros c Hin. destruct (Hall c Hin) as [Hne Hu]. split; [done|].
  assert (Hsc : Forall scalar c) by (rewrite <- Hc, Forall_concat in Hs; rewrite Forall_forall in Hs; by apply Hs).
  etrans; [by apply message_len_le|]. etrans; [exact Hu|]. apply part_limit_mono; [done|apply udh_length_bound| |apply udh_length_bound].
  destruct (1 <? len parts); [done|apply udh_length_concat].
Qed.
Lemma segmentSMS_spec rs opts counter parts counter' : Forall scalar rs -> segmentSMS (string_of rs) opts counter = (Ok parts, counter') ->
  (rs = [] /\ parts = []) \/ segmented opts rs parts.
Proof.
  intros Hs. unfold segmentSMS. destruct (len (string_of rs) =? 0) eqn:E0.
  { intros [= <- <-]. left. destruct rs as [|r rs]; [done|]. pose proof (len_string_pos r rs). lia. }
  destruct (encodeSMSSubmitValidityPeriod _ _); [|done..]. destruct (validateSMSNationalLanguageOptions _ _); [|done..].
  destruct (normalizeSMSSubmitEncodingWithLanguage _ _ _ _ _ _) as [enc| | |] eqn:He; [|done..]. apply submit_encoding_known in He.
  destruct (validateSMSApplicationPortOptions _ _ _) as [[pb hp]| | |] eqn:Hv; [|done..]. cbv zeta. intros H. right.
  destruct (_ <=? _) eqn:Hsingle.
  - apply (f_equal fst) in H. cbn [fst] in H. apply bind_ok in H as (udh & Hudh & [= <-]).
    exists enc, hp, pb, 0, 0, [rs]. split_and!; [done|done|cbn; by rewrite app_nil_r|split; [by exists udh|done]|].
    constructor; [|constructor]. split; [intros ->; done|]. change (1 <? len [_]) with false. lia.
  - destruct (validateSMSConcatOptions _ _) as [bits| | |]; [|done..].
    destruct (so_ConcatRef opts =? 0); apply (f_equal fst) in H; cbn [fst] in H; by eapply segment_long_spec.
Qed.

Lemma concat_strings chunks : concat (string_of <$> chunks) = string_of (concat chunks).
Proof. induction chunks as [|c chunks IH]; [done|]. rewrite fmap_cons. change (concat (c :: chunks)) with (c ++ concat chunks). by rewrite string_of_app, <- IH. Qed.
Lemma encode_septets rs L S out b : Forall septet out -> encode_gsm7_loop rs L S out = Ok b -> Forall septet b.
Proof.
  revert out. induction rs as [|r rs IH]; intros out Ho; cbn [encode_gsm7_loop]; [by intros [= <-]|].
  destruct (gsm7LockingCode r L) eqn:E.
  - apply gsm7LockingCode_spec in E as (Hc & _). apply IH, Forall_app_2; [done|by constructor].
  - destruct (gsm7SingleShiftCode r S) eqn:E2; [|done]. apply gsm7SingleShiftCode_spec in E2 as (Hc & _). apply IH, Forall_app_2; [done|].
    constructor; [done|]. by constructor.
Qed.
Lemma fill_bits_spec u : 0 < u <= 19 -> 8 * u + smsFillBits u = 7 * ((u * 8 + 6) / 7).
Proof.
  intros Hu. assert (Hall : Forall (fun u => 8 * u + smsFillBits u = 7 * ((u * 8 + 6) / 7)) (seqZ 1 19)) by by_decide.
  rewrite Forall_forall in Hall. apply Hall, elem_of_seqZ. lia.
Qed.
(** A text within the limit makes user data of at most 140 octets. *)
Lemma part_data_fits rs enc udh L S ud udl dcs : Forall scalar rs -> known_encoding enc -> len udh <= 19 ->
  messageLenWithLanguage (string_of rs) enc L S <= smsPartLimitForUDH enc (len udh) ->
  encodeSMSUserDataWithLanguage (string_of rs) enc udh L S = Ok (ud, udl, dcs) -> len ud <= 140 /\ 0 <= udl <= 160.
Proof.
  intros Hs He Hu. pose proof (len_nonneg udh) as Hu0. unfold messageLenWithLanguage, smsPartLimitForUDH, encodeSMSUserDataWithLanguage.
  destruct He as [-> |[-> | ->]].
  - change (bool_decide ("gsm7" = "utf8")) with false. change (bool_decide ("gsm7" = "ucs2")) with false. change (bool_decide ("gsm7" = "gsm7")) with true. cbn iota.
    unfold gsm7SeptetLenWithLanguage, encodeGSM7WithLanguage. rewrite runes_string_of by done. pose proof (septet_len_spec rs L S [] 0) as Hsl.
    destruct (encode_gsm7_loop rs L S []) as [sp| | |] eqn:E; [|done..]. rewrite Hsl. change (len []) with 0. cbn [bind]. cbv zeta. rewrite Z.add_0_l, Z.sub_0_r.
    intros Hlen. apply encode_septets in E; [|constructor]. set (fill := if 0 <? len udh then smsFillBits (len udh) else 0).
    assert (Hfill : 0 <= fill) by (subst fill; destruct (0 <? len udh); [apply fill_bits_nonneg|lia]).
    destruct (packSeptets_spec sp fill E Hfill) as (out & -> & _ & Hol). cbn [bind]. intros [= <- <- _]. rewrite len_app, Hol. pose proof (len_nonneg sp) as Hn.
    destruct (len udh <=? 0) eqn:E0.
    + replace (0 <? len udh) with false by lia. subst fill. replace (0 <? len udh) with false in * by lia. destruct (len sp =? 0); Z.div_mod_to_equations; lia.
    + replace (0 <? len udh) with true by lia. pose proof (fill_bits_spec (len udh) ltac:(lia)) as Hf. subst fill. replace (0 <? len udh) with true in * by lia.
      assert (0 <= (len udh * 8 + 6) / 7) by (apply Z.div_pos; lia). set (hdr := (len udh * 8 + 6) / 7) in *. clearbody hdr.
      split; [|lia]. destruct (len sp =? 0); [lia|]. enough ((smsFillBits (len udh) + len sp * 7 + 7) / 8 < 141 - len udh) by lia. apply Z.div_lt_upper_bound; lia.
  - change (bool_decide ("ucs2" = "utf8")) with false. change (bool_decide ("ucs2" = "ucs2")) with true. change (bool_decide ("ucs2" = "gsm7")) with false. cbn iota.
    cbv zeta. intros Hlen [= <- <- _]. rewrite len_app, len_units. pose proof (len_nonneg (utf16_Encode (runes (string_of rs)))).
    destruct (len udh <=? 0) eqn:E0; [lia|]. rewrite Z.quot_div_nonneg in Hlen by lia. Z.div_mod_to_equations. lia.
  - change (bool_decide ("utf8" = "utf8")) with true. change (bool_decide ("utf8" = "gsm7")) with false. cbn iota.
    intros Hlen [= <- <- _]. rewrite len_app. pose proof (len_nonneg (string_of rs)). destruct (len udh <=? 0) eqn:E0; lia.
Qed.

(** Segmentation: when [segmentSMS] returns parts, their texts in order are the
    message, whatever the encoding and however the characters fall (no character
    is split); they are numbered from 1, each knows the total; and each fits:
    with its header it has at most the 140 octets of a TPDU (160 septets). *)
Theorem segmentation_correct rs opts counter parts counter' : Forall scalar rs ->
  segmentSMS (string_of rs) opts counter = (Ok parts, counter') ->
  concat (sp_Text <$> parts) = string_of rs /\
  forall i p, parts !! i = Some p ->
    sp_PartNo p = Z.of_nat i + 1 /\ sp_TotalParts p = len parts /\ sp_Text p <> [] /\
    messageLenWithLanguage (sp_Text p) (sp_Encoding p) (sp_LockingShiftLang p) (sp_SingleShiftLang p) <= smsPartLimitForUDH (sp_Encoding p) (len (sp_UDH p)) /\
    (forall ud udl dcs, encodeSMSUserDataWithLanguage (sp_Text p) (sp_Encoding p) (sp_UDH p) (sp_LockingShiftLang p) (sp_SingleShiftLang p) = Ok (ud, udl, dcs) ->
       len ud <= 140 /\ udl <= 160).
Proof.
  intros Hs Hseg. apply segmentSMS_spec in Hseg as [[-> ->]|(enc & hp & pb & ref & bits & chunks & He & Hv & Hc & Hp & Hall)]; [|split|done].
  { done. }
  - rewrite (parts_for_text _ _ _ _ _ _ _ _ _ _ Hp), <- Hc. apply concat_strings.
  - intros i p Hi. destruct (parts_for_lookup _ _ _ _ _ _ _ _ _ _ _ _ Hp Hi) as (c & udh & Hci & Hudh & ->).
    rewrite Forall_forall in Hall. destruct (Hall c) as [Hne Hlen]; [by eapply list_elem_of_lookup_2|].
    destruct (submit_udh_info _ _ _ _ _ _ _ _ _ _ _ _ Hv Hudh) as (_ & _ & Hul). pose proof (udh_length_bound hp pb (1 <? len parts) bits (so_SingleShiftLang opts) (so_LockingShiftLang opts)) as Hb.
    rewrite <- Hul in Hlen, Hb. assert (Hsc : Forall scalar c) by (rewrite <- Hc, Forall_concat in Hs; rewrite Forall_forall in Hs; apply Hs; by eapply list_elem_of_lookup_2).
    cbn [sp_PartNo sp_TotalParts sp_Text sp_Encoding sp_UDH sp_LockingShiftLang sp_SingleShiftLang part_of]. split_and!; [lia|done| |done|].
    + destruct c as [|r c]; [done|]. intros E. pose proof (len_string_pos r c) as Hl. rewrite E in Hl. done.
    + intros ud udl dcs Hud. destruct (part_data_fits _ _ _ _ _ _ _ _ Hsc He (proj2 Hb) Hlen Hud). lia.
Qed.
Lemma segmentation_correct_witness :
  exists parts, segmentSMS (string_of (replicate 152 0x20ac)) (zeroOptions "") 0 = (Ok parts, 1) /\ len parts = 2 /\
    concat (sp_Text <$> parts) = string_of (replicate 152 0x20ac).
Proof.
  destruct (segmentSMS (string_of (replicate 152 0x20ac)) (zeroOptions "") 0) as [[parts| | |] c] eqn:E; [|exfalso; vm_compute in E; discriminate E..].
  assert (Hc : c = 1) by (vm_compute in E; by injection E as _ <-). subst c. exists parts. split; [reflexivity|].
  assert (Hl : len parts = 2) by (vm_compute in E; by injection E as <-). split; [exact Hl|].
  exact (proj1 (segmentation_correct (replicate 152 0x20ac) (zeroOptions "") 0 parts 1 ltac:(by_decide) E)).
Defined.

(** ** Termination *)
Lemma part_udh_returns opts hp pb ref bits total n : returns (part_udh opts hp pb ref bits total n).
Proof.
  unfold part_udh, buildSMSSubmitUDH, validateSMSNationalLanguageOptions, smsApplicationPortUDHElement, validateSMSApplicationPortOptions, smsConcatUDHElement, returns.
  cbv zeta. repeat (case_match; cbn [bind safe]; try done).
Qed.
Lemma relative_validity_returns v : returns (encodeSMSRelativeValidityPeriod v).
Proof. unfold encodeSMSRelativeValidityPeriod, returns. cbv zeta. repeat (case_match; try done). Qed.
Lemma validity_period_returns v t : returns (encodeSMSSubmitValidityPeriod v t).
Proof.
  unfold encodeSMSSubmitValidityPeriod. destruct (_ && _); [done|]. destruct (negb (time_IsZero t)).
  - eapply safe_call; [apply encodeSMSTimestamp_returns|]. done.
  - eapply safe_call; [apply relative_validity_returns|]. intros [vp|] _; done.
Qed.
Lemma validate_dcs_returns dcs enc : returns (validateSMSSubmitDataCodingScheme dcs enc).
Proof. unfold validateSMSSubmitDataCodingScheme, returns. cbv zeta. repeat (case_match; try done). Qed.
Lemma submit_encoding_returns text requested dcs has L S : returns (normalizeSMSSubmitEncodingWithLanguage text requested dcs has L S).
Proof.
  assert (H : returns (normalizeSMSSubmitEncoding text requested dcs has)).
  { unfold normalizeSMSSubmitEncoding. cbv zeta. destruct (negb has); [done|]. eapply safe_call; [apply validate_dcs_returns|]. done. }
  unfold normalizeSMSSubmitEncodingWithLanguage. destruct (_ || _); [done|]. by destruct (gsm7SeptetLenWithLanguage text L S).
Qed.
Lemma segment_loop_returns opts enc hp pb fuel rs limit ref bits total n : Forall scalar rs -> 4 <= limit -> known_encoding enc -> (length (string_of rs) < fuel)%nat ->
  returns (segment_loop opts enc hp pb fuel (string_of rs) limit ref bits total n).
Proof.
  intros Hs Hl He. revert rs n Hs. induction fuel as [|fuel IH]; intros rs n Hs Hf; [lia|]. cbn [segment_loop].
  destruct (len (string_of rs) =? 0) eqn:E0; [done|].
  destruct (take_chunk_spec rs enc limit (so_LockingShiftLang opts) (so_SingleShiftLang opts)) as (rs1 & rs2 & -> & Hne & _ & Ht); [done|by intros ->|done|done|].
  rewrite Ht. cbn [bind]. eapply safe_call; [apply part_udh_returns|]. intros udh _. apply Forall_app in Hs as [_ Hs2]. eapply safe_call; [apply IH; [done|]|done].
  rewrite string_of_app, length_app in Hf. destruct rs1 as [|r rs1]; [done|]. pose proof (len_string_pos r rs1). unfold len in *. lia.
Qed.
Lemma renumber_loop_returns opts hp pb ref bits count parts : returns (renumber_loop opts hp pb ref bits count parts).
Proof.
  induction parts as [|p parts IH]; [done|]. cbn [renumber_loop]. eapply safe_call; [apply part_udh_returns|]. intros udh _. eapply safe_call; [exact IH|]. done.
Qed.

(** Segmentation ends: on every valid text, with every choice of options, within
    the fuel of one turn for each octet of the text, and without indexing past it. *)
Theorem segmentSMS_terminates rs opts counter : Forall scalar rs -> returns (segmentSMS (string_of rs) opts counter).1.
Proof.
  intros Hs. unfold segmentSMS. destruct (len (string_of rs) =? 0); [done|].
  pose proof (validity_period_returns (so_ValidityPeriod opts) (so_ValidityDeadline opts)) as H1. destruct (encodeSMSSubmitValidityPeriod _ _); try done.
  destruct (validateSMSNationalLanguageOptions _ _) eqn:H2; try done.
  2,3: exfalso; revert H2; unfold validateSMSNationalLanguageOptions; repeat (case_match; try done).
  pose proof (submit_encoding_returns (string_of rs) (so_Encoding opts) (so_DataCodingScheme opts) (so_UseDataCodingScheme opts || negb (so_DataCodingScheme opts =? 0))
    (so_LockingShiftLang opts) (so_SingleShiftLang opts)) as H3.
  destruct (normalizeSMSSubmitEncodingWithLanguage _ _ _ _ _ _) as [enc| | |] eqn:He; try done. apply submit_encoding_known in He.
  destruct (validateSMSApplicationPortOptions _ _ _) as [[pb hp]| | |] eqn:Hv; try done.
  2,3: exfalso; revert Hv; unfold validateSMSApplicationPortOptions; cbv zeta; repeat (case_match; cbn [bind]; try done).
  cbv zeta. destruct (_ <=? _).
  { cbn [fst]. eapply safe_call; [apply part_udh_returns|]. done. }
  assert (Hlong : forall bits ref, returns (segment_long opts enc hp pb (string_of rs) bits ref)).
  { intros bits ref. unfold segment_long. cbv zeta. set (limit := smsPartLimitForUDH enc _). destruct (limit <=? 0); [done|].
    match goal with |- context [255 <? ?t] => destruct (255 <? t); [done|] end.
    assert (Hlim : 60 <= limit) by (apply part_limit_large; [done|apply udh_length_bound]).
    eapply safe_call; [apply segment_loop_returns; [done|lia|done|lia]|]. intros out _. apply renumber_loop_returns. }
  destruct (validateSMSConcatOptions _ _) as [bits| | |] eqn:Hc; try done; [by destruct (so_ConcatRef opts =? 0); cbn [fst]|..].
  all: exfalso; revert Hc; unfold validateSMSConcatOptions; cbv zeta; repeat (case_match; try done).
Qed.
Lemma segmentSMS_terminates_witness : returns (segmentSMS (string_of (replicate 153 0x20ac)) (zeroOptions "") 0).1.
Proof. apply (segmentSMS_terminates (replicate 153 0x20ac) (zeroOptions "") 0). by_decide. Defined.
