(* ===== verification/SmsSubmitSpec.v ===== *)
(** * SMS-SUBMIT as the service centre reads it

    The TPDU that [BuildSMSSubmitTPDU] writes, specified by a reader that follows
    3GPP TS 23.040 (9.2.2.2), and the parts of a long message through it. *)
From S2P Require Import Prelude GoStrings Errors Utf8 SmsTables Gsm7 SmsUdh SmsText SmsTime SmsAddress SmsTpdu SmsSubmit.
#[local] Open Scope string_scope.
#[local] Open Scope list_scope.
#[local] Open Scope Z_scope.

Inductive validity := NoValidity | RelativeValidity (vp : Z) | AbsoluteValidity (until : Time).
Record Submit := mkSubmit {
  su_RejectDuplicates : bool;
  su_StatusReportRequest : bool;
  su_ReplyPath : bool;
  su_Reference : Z;
  su_Destination : bytes;
  su_ProtocolID : Z;
  su_DataCodingScheme : Z;
  su_Validity : validity;
  su_Text : bytes;
  su_Header : SMSUserDataHeaderInfo
}.
Definition read_validity (tpdu : bytes) (i format : Z) : result (validity * Z) :=
  if format =? 0x10 then let! vp := at_ tpdu i in Ok (RelativeValidity vp, i + 1)
  else if format =? 0x18 then
    let! raw := slice tpdu i (i + 7) in
    let! t := decodeSMSTimestamp raw in
    Ok (AbsoluteValidity t, i + 7)
  else if format =? 0x00 then Ok (NoValidity, i)
  else Err (ErrText "enhanced validity period").
Definition read_submit (tpdu : bytes) : result Submit :=
  let! fo := at_ tpdu 0 in
  if negb (Z.land fo 0x03 =? 0x01) then Err (ErrText "not SMS-SUBMIT") else
  let! mr := at_ tpdu 1 in
  let! r := tpdu_address tpdu 2 "destination" in
  let '(number, i) := r in
  let! pid := at_ tpdu i in
  let! dcs := at_ tpdu (i + 1) in
  let! r := read_validity tpdu (i + 2) (Z.land fo 0x18) in
  let '(v, i) := r in
  let! udl := at_ tpdu i in
  let! ud := slice_from tpdu (i + 1) in
  let! r := decodeSMSUserDataWithHeader ud udl dcs (bit_set fo 0x40) in
  let '(text, info) := r in
  Ok (mkSubmit (bit_set fo 0x04) (bit_set fo 0x20) (bit_set fo 0x80) mr number pid dcs v text info).

(** ** The first octet *)
Definition submit_first_octet (rd srr udhi rp : bool) (vpf : Z) : Z :=
  let fo := 0x01 in
  let fo := if rd then Z.lor fo 0x04 else fo in
  let fo := if srr then Z.lor fo 0x20 else fo in
  let fo := if udhi then Z.lor fo 0x40 else fo in
  let fo := if rp then Z.lor fo 0x80 else fo in
  Z.lor fo vpf.
Lemma submit_first_octet_bits rd srr udhi rp vpf : vpf = 0 \/ vpf = 0x10 \/ vpf = 0x18 ->
  let fo := submit_first_octet rd srr udhi rp vpf in
  Z.land fo 0x03 = 0x01 /\ Z.land fo 0x18 = vpf /\ bit_set fo 0x04 = rd /\ bit_set fo 0x20 = srr /\ bit_set fo 0x40 = udhi /\ bit_set fo 0x80 = rp.
Proof. intros [-> |[-> | ->]]; destruct rd, srr, udhi, rp; (split_and!; reflexivity). Qed.

(** ** Validity periods *)
Definition validity_of (relative : Z) (absolute : Time) (v : validity) : Prop :=
  if negb (time_IsZero absolute) then relative = 0 /\ v = AbsoluteValidity (whole_seconds absolute)
  else if relative =? 0 then v = NoValidity
  else exists vp, v = RelativeValidity vp /\ relative <= vp_duration vp.
Lemma validity_read relative absolute vpf vp pre rest : time_ok absolute -> encodeSMSSubmitValidityPeriod relative absolute = Ok (vpf, vp) ->
  (vpf = 0 \/ vpf = 0x10 \/ vpf = 0x18) /\
  exists v, validity_of relative absolute v /\ read_validity (pre ++ vp ++ rest) (len pre) vpf = Ok (v, len pre + len vp).
Proof.
  intros Hok. unfold encodeSMSSubmitValidityPeriod, validity_of. destruct (negb (relative =? 0) && negb (time_IsZero absolute)) eqn:Hx; [done|].
  destruct (negb (time_IsZero absolute)) eqn:Hz.
  - rewrite andb_true_r in Hx. intros (stamp & Hst & [= <- <-])%bind_ok. apply encode_spec in Hst as (_ & _ & _ & Hl & _ & Hd); [|done].
    split; [auto|]. exists (AbsoluteValidity (whole_seconds absolute)). split; [split; [lia|done]|]. unfold read_validity. cbn [Z.eqb Pos.eqb].
    rewrite (slice_eq _ pre stamp rest) by (done || lia). cbn [bind]. rewrite Hd. cbn [bind]. by rewrite Hl.
  - intros ([v|] & Hv & H)%bind_ok; injection H as <- <-.
    + split; [auto|]. destruct (Z.eqb_spec relative 0) as [->|Hne]; [done|]. exists (RelativeValidity v).
      assert (Hpos : 0 < relative <= maxValidity).
      { unfold encodeSMSRelativeValidityPeriod in Hv. replace (relative =? 0) with false in Hv by lia. destruct (relative <? 0) eqn:?; [done|].
        destruct (maxValidity <? relative) eqn:?; [done|]. lia. }
      destruct (relative_spec relative Hpos) as (q & Hq & H0 & H1 & H2). rewrite Hq in Hv. injection Hv as <-.
      destruct (shortest_period relative q H0 H1 H2) as (Eq & _ & H3 & _). rewrite Eq. split; [by exists q|].
      unfold read_validity. cbn [Z.eqb Pos.eqb]. cbn [app]. rewrite at_app_r by done. done.
    + split; [auto|]. exists NoValidity. unfold encodeSMSRelativeValidityPeriod in Hv. destruct (Z.eqb_spec relative 0) as [->|Hne].
      * split; [done|]. unfold read_validity. cbn [Z.eqb Pos.eqb]. change (len (@nil Z)) with 0. by rewrite Z.add_0_r.
      * exfalso. revert Hv. cbv zeta. repeat (case_match; try done).
Qed.

(** ** The encoding a part is written in *)
Lemma normalize_known text enc : known_encoding enc -> normalizeEncoding text enc = enc /\ encoding_requested enc = true.
Proof. intros [-> |[-> | ->]]; split; vm_compute; reflexivity. Qed.
Lemma validate_dcs_encoding dcs enc : known_encoding enc -> validateSMSSubmitDataCodingScheme dcs enc = Ok tt -> smsEncodingForDCS dcs = enc.
Proof.
  intros He. unfold validateSMSSubmitDataCodingScheme, smsEncodingForDCS, smsDCSAlphabet. cbv zeta. destruct (dc_Compressed _); [done|].
  destruct (bool_decide (dc_Alphabet (ParseSMSDataCodingScheme dcs) = _)) eqn:E; [|done]. apply bool_decide_eq_true in E. rewrite E. intros _.
  by destruct He as [-> |[-> | ->]].
Qed.
Lemma part_encoding text enc dcs has L S enc' : known_encoding enc -> normalizeSMSSubmitEncodingWithLanguage text enc dcs has L S = Ok enc' ->
  enc' = enc /\ (has = true -> smsEncodingForDCS dcs = enc).
Proof.
  intros He. destruct (normalize_known text enc He) as [Hn Hr]. unfold normalizeSMSSubmitEncodingWithLanguage, normalizeSMSSubmitEncoding. rewrite Hr, Hn. cbn [orb negb]. cbv zeta.
  destruct has; cbn [negb]; [|by intros [= <-]]. intros ([] & Hv & [= <-])%bind_ok. split; [done|]. intros _. by apply validate_dcs_encoding.
Qed.

(** ** The TPDU *)
Definition submit_header (p : SMSPart) : result bytes := if len (sp_UDH p) =? 0 then buildSMSSubmitUDHForPart p else Ok (sp_UDH p).
Lemma submit_read to p mr rs udh info tpdu :
  sp_Text p = string_of rs -> Forall scalar rs -> (sp_Encoding p = "gsm7" -> 0x1b ∉ rs) -> known_encoding (sp_Encoding p) -> time_ok (sp_ValidityDeadline p) ->
  submit_header p = Ok udh -> header_carries udh info (sp_LockingShiftLang p) (sp_SingleShiftLang p) ->
  (forall ud udl dcs, encodeSMSUserDataWithLanguage (sp_Text p) (sp_Encoding p) udh (sp_LockingShiftLang p) (sp_SingleShiftLang p) = Ok (ud, udl, dcs) -> udl <= 255) ->
  len (normalizeSMSNumber (normalizeSMSNumber to)) <= 255 ->
  BuildSMSSubmitTPDU to p mr = Ok tpdu ->
  exists v dcs, validity_of (sp_ValidityPeriod p) (sp_ValidityDeadline p) v /\ smsEncodingForDCS dcs = sp_Encoding p /\
    read_submit tpdu = Ok (mkSubmit (sp_RejectDuplicates p) (sp_RequestStatusReport p) (sp_ReplyPath p) mr
      (read_back <$> normalizeSMSNumber (normalizeSMSNumber to)) (smsSubmitProtocolID p) dcs v (sp_Text p) info).
Proof.
  intros Htext Hrs Hesc Henc Htime Hudh Hh Hfit Hnum. unfold BuildSMSSubmitTPDU. fold (submit_header p). cbv zeta.
  destruct (len (normalizeSMSNumber to) =? 0); [done|]. intros ([[digits toa] bcd] & Ha & H)%bind_ok.
  destruct (smsSubmitDataCodingScheme p) as [dcs0 has]. apply bind_ok in H as (enc & He & H). rewrite Hudh in H. cbn [bind] in H.
  apply bind_ok in H as ([vpf vp] & Hvp & H). apply bind_ok in H as ([[ud udl] d0] & Hud & H). injection H as Htp.
  destruct (part_encoding _ _ _ _ _ _ _ Henc He) as [-> Hdcs]. specialize (Hfit _ _ _ Hud) as Hudl. rewrite Htext in Hud.
  set (dcs := if has then dcs0 else d0) in *.
  assert (Hd : smsEncodingForDCS dcs = sp_Encoding p).
  { subst dcs. destruct has; [by apply Hdcs|]. by destruct (user_data_read rs (sp_Encoding p) udh info _ _ ud udl d0
      (if bool_decide (sp_Encoding p = "ucs2") then 8 else if bool_decide (sp_Encoding p = "utf8") then 4 else 0) Hrs Hesc Hh
      ltac:(by destruct Henc as [-> |[-> | ->]]) Hud) as (_ & _ & _ & ?). }
  destruct (user_data_read _ _ _ _ _ _ _ _ _ dcs Hrs Hesc Hh Hd Hud) as (Hread & _ & Hudl0 & _).
  apply address_encoded in Ha as (_ & _ & Hdig & Hbl & Hoct & Hdec & _).
  replace (to_u8 digits) with digits in Htp by (symmetry; apply Z.mod_small; lia). replace (to_u8 udl) with udl in Htp by (symmetry; apply Z.mod_small; lia).
  set (fo := Z.lor _ vpf) in Htp. change fo with (submit_first_octet (sp_RejectDuplicates p) (sp_RequestStatusReport p) (0 <? len udh) (sp_ReplyPath p) vpf) in Htp.
  clear fo. set (front := [submit_first_octet (sp_RejectDuplicates p) (sp_RequestStatusReport p) (0 <? len udh) (sp_ReplyPath p) vpf; mr; digits; toa] ++ bcd ++ [smsSubmitProtocolID p; dcs]).
  assert (Hfl : len front = 6 + len bcd) by (subst front; len_lia).
  assert (Htp' : tpdu = front ++ vp ++ [udl] ++ ud) by (rewrite <- Htp; subst front; by rewrite <- !app_assoc).
  destruct (validity_read _ _ _ _ front ([udl] ++ ud) Htime Hvp) as (Hvpf & v & Hv & Hrv).
  destruct (submit_first_octet_bits (sp_RejectDuplicates p) (sp_RequestStatusReport p) (0 <? len udh) (sp_ReplyPath p) vpf Hvpf) as (B1 & B2 & B3 & B4 & B5 & B6).
  set (fo := submit_first_octet _ _ _ _ _) in *. exists v, dcs. split; [done|]. split; [done|]. unfold read_submit.
  assert (H0 : at_ (E := error) tpdu 0 = Ok fo) by (by rewrite <- Htp). rewrite H0. cbn [bind]. rewrite B1. cbn [Z.eqb negb Pos.eqb].
  assert (H1 : at_ (E := error) tpdu 1 = Ok mr) by (by rewrite <- Htp). rewrite H1. cbn [bind].
  assert (Haddr : tpdu_address tpdu 2 "destination" = Ok (read_back <$> normalizeSMSNumber (normalizeSMSNumber to), 4 + len bcd)).
  { rewrite <- Htp. apply (tpdu_address_read [fo; mr]); done. }
  rewrite Haddr. cbn [bind]. pose proof (len_nonneg bcd). pose proof (len_nonneg vp).
  set (p0 := [fo; mr; digits; toa] ++ bcd) in *. assert (Hp0 : len p0 = 4 + len bcd) by (subst p0; len_lia).
  assert (Htp0 : tpdu = p0 ++ smsSubmitProtocolID p :: dcs :: vp ++ [udl] ++ ud) by (rewrite <- Htp; subst p0; by rewrite <- !app_assoc).
  assert (Hp : at_ (E := error) tpdu (4 + len bcd) = Ok (smsSubmitProtocolID p)) by (rewrite Htp0; apply at_app_r; lia). rewrite Hp. cbn [bind].
  assert (Hc : at_ (E := error) tpdu (4 + len bcd + 1) = Ok dcs).
  { rewrite Htp0, (cons_middle (smsSubmitProtocolID p)), app_assoc. apply at_app_r. len_lia. }
  rewrite Hc. cbn [bind]. rewrite B2. replace (4 + len bcd + 2) with (len front) by lia. rewrite Htp' at 1. rewrite Hrv. cbn [bind].
  assert (Hu : at_ (E := error) tpdu (len front + len vp) = Ok udl).
  { rewrite Htp', app_assoc. cbn [app]. apply at_app_r. len_lia. }
  rewrite Hu. cbn [bind]. rewrite (slice_from_eq tpdu (front ++ vp ++ [udl]) ud); [|by rewrite Htp', <- !app_assoc|len_lia]. cbn [bind].
  rewrite B5, Hread. cbn [bind]. by rewrite B3, B4, B6, Htext.
Qed.

(** ** The parts of a message *)
(** [part.RequestStatusReport = b], as the transport sets it. *)
Definition with_status_report (p : SMSPart) (b : bool) : SMSPart :=
  mkPart (sp_PartNo p) (sp_TotalParts p) (sp_Text p) (sp_Encoding p) (sp_UDH p) (sp_ValidityPeriod p) (sp_ValidityDeadline p) (sp_ProtocolID p)
    (sp_DataCodingScheme p) (sp_UseProtocolID p) (sp_UseDataCodingScheme p) (sp_ReplyPath p) (sp_RejectDuplicates p) (sp_ConcatRef p) (sp_ConcatRefBits p)
    (sp_ApplicationDestPort p) (sp_ApplicationSourcePort p) (sp_ApplicationPortBits p) (sp_SingleShiftLang p) (sp_LockingShiftLang p) b.
Lemma no_ports d s b pb : validateSMSApplicationPortOptions d s b = Ok (pb, false) -> d = 0 /\ s = 0 /\ b = 0 /\ pb = 0.
Proof.
  unfold validateSMSApplicationPortOptions. destruct (negb (d =? 0) || negb (s =? 0) || negb (b =? 0)) eqn:E; cbn [negb].
  - destruct ((d <? 0) || (s <? 0)); [done|]. set (m := if b =? 0 then _ else _). destruct m; cbn [bind]; [|done..]. cbv zeta.
    by match goal with |- (if ?c then _ else _) = _ -> _ => destruct c end.
  - intros [= <-]. lia.
Qed.
Lemma part_header opts enc hp pb ref bits count n c udh :
  validateSMSApplicationPortOptions (so_ApplicationDestPort opts) (so_ApplicationSourcePort opts) (so_ApplicationPortBits opts) = Ok (pb, hp) ->
  part_udh opts hp pb ref bits count n = Ok udh -> forall b, submit_header (with_status_report (part_of opts enc pb ref bits count n c udh) b) = Ok udh.
Proof.
  intros Hv Hu b. unfold submit_header. cbn [sp_UDH with_status_report part_of]. destruct (len udh =? 0) eqn:E; [|done].
  destruct (submit_udh_info _ _ _ _ _ _ _ _ _ _ _ _ Hv Hu) as (_ & _ & Hl).
  assert (H0 : hp = false /\ so_SingleShiftLang opts = 0 /\ so_LockingShiftLang opts = 0).
  { revert Hl. unfold smsSubmitUDHLength. cbv zeta. destruct (Z.eqb_spec (so_SingleShiftLang opts) 0), (Z.eqb_spec (so_LockingShiftLang opts) 0), hp; cbn [negb]; try done;
      intros Hl; exfalso; revert Hl; repeat case_match; lia. }
  destruct H0 as (-> & HS & HL). apply no_ports in Hv as (Hd & Hs & _ & ->). apply Z.eqb_eq, len_zero in E. subst udh.
  unfold buildSMSSubmitUDHForPart. cbn [sp_SingleShiftLang sp_LockingShiftLang sp_ApplicationDestPort sp_ApplicationSourcePort sp_ApplicationPortBits with_status_report part_of].
  by rewrite HS, HL, Hd, Hs.
Qed.

(** "hello" with a message class and a validity period of a day, to +1555. *)
Definition sample_options : SendOptions := mkOptions "" (24 * 60 * 60 * 1000000000) zeroTime 0 0xf1 false true true false 0 0 0 0 0 0 0.
