(* ===== verification/SmsReassembly.v ===== *)
(** * Reassembly (runtimehost/messaging/ims_inbound_sms.go)

    The store of incomplete messages that [collectSMSConcatPart] keeps: at most 64
    sets of parts, each dropped ten minutes after its last part.  The order in
    which Go ranges over a map is not determined: it is a parameter.  The mutex
    makes a call one step. *)
From stdpp Require Import gmap.
From S2P Require Import Prelude GoStrings Errors SmsUdh SmsTime.
#[local] Open Scope list_scope.
#[local] Open Scope Z_scope.

(** [t.Sub(u)] saturates at 292 years, far beyond the bound it is compared with. *)
Definition time_nanos (t : Time) : Z := time_instant t * 1000000000 + t_Nanosecond t.
Definition time_Sub (t u : Time) : Z := time_nanos t - time_nanos u.
Definition time_Before (t u : Time) : bool := time_nanos t <? time_nanos u.

Record IncomingSMS := mkIncoming {
  in_Sender : bytes;
  in_Recipient : bytes;
  in_Content : bytes;
  in_Timestamp : Time;
  in_ProtocolID : Z;
  in_DataCodingScheme : Z;
  in_DataCoding : SMSDataCodingInfo;
  in_UserDataHeader : bool;
  in_UserDataHeaderInfo : SMSUserDataHeaderInfo;
  in_MoreMessagesToSend : bool;
  in_StatusReportIndication : bool;
  in_ReplyPath : bool
}.
Definition zeroIncoming : IncomingSMS := mkIncoming [] [] [] zeroTime 0 0 zeroCoding false zeroUDHInfo false false false.

(** A key: sender, recipient, ref, refBits, total. *)
Abbreviation smsConcatKey := (bytes * bytes * Z * Z * Z)%type.
Record smsConcatState := mkState {
  cs_parts : gmap Z bytes;
  cs_timestamp : Time;
  cs_protocolID : Z;
  cs_dataCodingScheme : Z;
  cs_userDataHeader : bool;
  cs_userDataHeaderInfo : SMSUserDataHeaderInfo;
  cs_moreMessagesToSend : bool;
  cs_statusReportIndication : bool;
  cs_replyPath : bool;
  cs_firstSeen : Time;
  cs_updatedAt : Time
}.
Abbreviation store := (gmap smsConcatKey smsConcatState).
Definition smsConcatTTL : Z := 10 * time_Minute.
Definition smsConcatMaxSets : Z := 64.

Definition validSMSConcatInfo (concat : SMSConcatInfo) : bool :=
  ci_IsConcat concat && (1 <? ci_Total concat) && (1 <=? ci_Seq concat) && (ci_Seq concat <=? ci_Total concat) &&
  ((ci_RefBits concat =? 8) || (ci_RefBits concat =? 16)).

Definition set_updatedAt (state : smsConcatState) : Time := if time_IsZero (cs_updatedAt state) then cs_firstSeen state else cs_updatedAt state.
Definition set_expired (now : Time) (state : smsConcatState) : bool :=
  time_IsZero (set_updatedAt state) || (smsConcatTTL <? time_Sub now (set_updatedAt state)).
Definition cleanupSMSConcatLocked (m : store) (now : Time) : store := filter (fun kv => set_expired now kv.2 = false) m.

Fixpoint oldest_loop (l : list (smsConcatKey * smsConcatState)) (oldest : option (smsConcatKey * Time)) : option (smsConcatKey * Time) :=
  match l with
  | [] => oldest
  | (key, state) :: rest =>
      let at' := set_updatedAt state in
      oldest_loop rest (match oldest with
                        | None => Some (key, at')
                        | Some (_, oldestAt) => if time_Before at' oldestAt then Some (key, at') else oldest
                        end)
  end.
Section reassembly.
Context (range : store -> list (smsConcatKey * smsConcatState)).
Definition evictOldestSMSConcatLocked (m : store) : store :=
  match oldest_loop (range m) None with Some (key, _) => delete key m | None => m end.

(** The assignments to the fields of the set, for one part. *)
Definition set_take_part (state : smsConcatState) (incoming : IncomingSMS) (concat : SMSConcatInfo) (now : Time) : smsConcatState :=
  let timestamp :=
    if negb (time_IsZero (in_Timestamp incoming)) && (time_IsZero (cs_timestamp state) || (ci_Seq concat =? 1)) then in_Timestamp incoming else cs_timestamp state in
  let parts := match cs_parts state !! ci_Seq concat with Some _ => cs_parts state | None => <[ci_Seq concat := in_Content incoming]> (cs_parts state) end in
  if (ci_Seq concat =? 1) || (Z.of_nat (size (cs_parts state)) =? 0) then
    mkState parts timestamp (in_ProtocolID incoming) (in_DataCodingScheme incoming) (in_UserDataHeader incoming) (in_UserDataHeaderInfo incoming)
      (in_MoreMessagesToSend incoming) (in_StatusReportIndication incoming) (in_ReplyPath incoming) (cs_firstSeen state) now
  else
    mkState parts timestamp (cs_protocolID state) (cs_dataCodingScheme state) (cs_userDataHeader state) (cs_userDataHeaderInfo state)
      (cs_moreMessagesToSend state) (cs_statusReportIndication state) (cs_replyPath state) (cs_firstSeen state) now.
(** [for seq := 1; seq <= total; seq++]; [None] when a part is missing. *)
Fixpoint content_loop (n : nat) (seq : Z) (parts : gmap Z bytes) : option bytes :=
  match n with
  | O => Some []
  | S n' => match parts !! seq with None => None | Some part => match content_loop n' (seq + 1) parts with None => None | Some rest => Some (part ++ rest) end end
  end.
Definition concat_key (incoming : IncomingSMS) (concat : SMSConcatInfo) : smsConcatKey :=
  (TrimSpace (in_Sender incoming), TrimSpace (in_Recipient incoming), ci_Ref concat, ci_RefBits concat, ci_Total concat).
Definition assembled_sms (incoming : IncomingSMS) (state : smsConcatState) (content : bytes) : IncomingSMS :=
  mkIncoming (in_Sender incoming) (in_Recipient incoming) content (if negb (time_IsZero (cs_timestamp state)) then cs_timestamp state else in_Timestamp incoming)
    (cs_protocolID state) (cs_dataCodingScheme state) (in_DataCoding incoming) (cs_userDataHeader state) (cs_userDataHeaderInfo state)
    (cs_moreMessagesToSend state) (cs_statusReportIndication state) (cs_replyPath state).
(** [clock] is what [time.Now] would say. *)
Definition collectSMSConcatPart (m : store) (incoming : IncomingSMS) (concat : SMSConcatInfo) (now clock : Time) : store * (IncomingSMS * bool) :=
  if negb (validSMSConcatInfo concat) then (m, (incoming, true)) else
  let now := if time_IsZero now then clock else now in
  let key := concat_key incoming concat in
  let m := cleanupSMSConcatLocked m now in
  let '(m, state) :=
    match m !! key with
    | Some state => (m, state)
    | None =>
        let m := if smsConcatMaxSets <=? Z.of_nat (size m) then evictOldestSMSConcatLocked m else m in
        (m, mkState ∅ zeroTime 0 0 false zeroUDHInfo false false false now zeroTime)
    end in
  let state := set_take_part state incoming concat now in
  let m := <[key := state]> m in
  if Z.of_nat (size (cs_parts state)) <? ci_Total concat then (m, (zeroIncoming, false)) else
  match content_loop (Z.to_nat (ci_Total concat)) 1 (cs_parts state) with
  | None => (m, (zeroIncoming, false))
  | Some content => (delete key m, (assembled_sms incoming state content, true))
  end.
End reassembly.

(** ** The invariant of the store *)
Definition key_total (key : smsConcatKey) : Z := key.2.
Definition numbers (total : Z) : gset Z := list_to_set (seqZ 1 total).
Lemma elem_of_numbers total s : s ∈ numbers total <-> 1 <= s <= total.
Proof. unfold numbers. rewrite elem_of_list_to_set, elem_of_seqZ. lia. Qed.
Lemma size_numbers total : 0 <= total -> Z.of_nat (size (numbers total)) = total.
Proof. intros H. unfold numbers. rewrite size_list_to_set by apply NoDup_seqZ. rewrite length_seqZ. lia. Qed.
(** Parts with numbers of the message, not all of them. *)
Definition incomplete (total : Z) (parts : gmap Z bytes) : Prop := dom parts ⊆ numbers total /\ exists s, 1 <= s <= total /\ parts !! s = None.
Definition set_ok (key : smsConcatKey) (state : smsConcatState) : Prop :=
  1 < key_total key /\ incomplete (key_total key) (cs_parts state) /\ cs_parts state <> ∅.
Definition store_ok (m : store) : Prop := map_Forall set_ok m /\ Z.of_nat (size m) <= smsConcatMaxSets.
Definition collected (m : store) (key : smsConcatKey) : gmap Z bytes := match m !! key with Some state => cs_parts state | None => ∅ end.
(** The first copy of a part is kept. *)
Definition add_part (parts : gmap Z bytes) (seq : Z) (content : bytes) : gmap Z bytes := match parts !! seq with Some _ => parts | None => <[seq := content]> parts end.
Definition whole_text (parts : gmap Z bytes) (total : Z) : bytes := concat ((fun s => default [] (parts !! s)) <$> seqZ 1 total).

Lemma incomplete_size total parts : dom parts ⊆ numbers total -> 0 <= total ->
  (incomplete total parts <-> Z.of_nat (size parts) < total).
Proof.
  intros Hd Ht. rewrite <- size_dom. pose proof (size_numbers total Ht) as Hs. split.
  - intros (_ & s & Hr & Hn). enough (size (dom parts) < size (numbers total))%nat by lia. apply subset_size. split; [done|].
    intros Hsub. assert (Hin : s ∈ dom parts) by (apply Hsub, elem_of_numbers; lia). apply elem_of_dom in Hin as [x Hx]. congruence.
  - intros Hlt. split; [done|]. destruct (set_choose_or_empty (numbers total ∖ dom parts)) as [(s & Hin)|He].
    + apply elem_of_difference in Hin as [H1 H2]. exists s. split; [by apply elem_of_numbers|by apply not_elem_of_dom].
    + exfalso. assert (Hsub : numbers total ⊆ dom parts).
      { intros s Hin. destruct (decide (s ∈ dom parts)); [done|]. exfalso. apply (not_elem_of_empty s (C := gset Z)). rewrite <- He. by apply elem_of_difference. }
      apply subseteq_size in Hsub. lia.
Qed.
Lemma content_loop_spec n seq parts : (forall s, seq <= s < seq + Z.of_nat n -> is_Some (parts !! s)) ->
  content_loop n seq parts = Some (concat ((fun s => default [] (parts !! s)) <$> seqZ seq (Z.of_nat n))).
Proof.
  revert seq. induction n as [|n IH]; intros seq H; [done|]. cbn [content_loop]. destruct (H seq) as [p Hp]; [lia|]. rewrite Hp.
  rewrite IH by (intros s Hs; apply H; lia). rewrite (seqZ_cons seq (Z.of_nat (S n))) by lia. rewrite fmap_cons. cbn [concat]. rewrite Hp. cbn [default].
  replace (Z.pred (Z.of_nat (S n))) with (Z.of_nat n) by lia. done.
Qed.
Lemma add_part_dom parts seq content total : dom parts ⊆ numbers total -> 1 <= seq <= total -> dom (add_part parts seq content) ⊆ numbers total.
Proof.
  intros Hd Hs. unfold add_part. destruct (parts !! seq); [done|]. rewrite dom_insert_L. apply union_subseteq. split; [|done].
  apply singleton_subseteq_l. by apply elem_of_numbers.
Qed.
Lemma add_part_nonempty parts seq content : add_part parts seq content <> ∅.
Proof. unfold add_part. destruct (parts !! seq) eqn:E; [intros ->; done|apply insert_non_empty]. Qed.

(** ** Eviction *)
Section steps.
Context (range : store -> list (smsConcatKey * smsConcatState)) (Hrange : forall m, range m ≡ₚ map_to_list m).
Lemma oldest_loop_key l o : (exists k u, oldest_loop l o = Some (k, u) /\ (k ∈ l.*1 \/ exists u', o = Some (k, u'))) \/ (l = [] /\ o = None /\ oldest_loop l o = None).
Proof.
  revert o. induction l as [|[k st] l IH]; intros o.
  - destruct o as [[k u]|]; [left; exists k, u; eauto|by right].
  - left. cbn [oldest_loop]. cbv zeta. set (o' := match o with None => _ | Some _ => _ end).
    assert (Ho' : exists k' u', o' = Some (k', u') /\ (k' = k \/ exists u, o = Some (k', u))).
    { subst o'. destruct o as [[k0 u0]|]; [|eauto]. destruct (time_Before _ _); eauto 6. }
    destruct Ho' as (k' & u' & E & Hk). destruct (IH o') as [(k2 & u2 & E2 & Hin)|(_ & E2 & _)]; [|congruence].
    exists k2, u2. split; [done|]. destruct Hin as [Hin|[u3 E3]]; [left; cbn; by right|]. rewrite E in E3. injection E3 as <- <-.
    destruct Hk as [-> |?]; [left; cbn; by left|by right].
Qed.
(** One set goes when there is one, and only that. *)
Lemma evict_spec m : m <> ∅ -> exists k, is_Some (m !! k) /\ evictOldestSMSConcatLocked range m = delete k m.
Proof.
  intros Hm. unfold evictOldestSMSConcatLocked. destruct (oldest_loop_key (range m) None) as [(k & u & -> & [Hin|[u' ?]])|(E & _ & _)]; [|done|].
  - exists k. split; [|done]. rewrite Hrange in Hin. apply list_elem_of_fmap in Hin as ([k' st] & -> & Hin). apply elem_of_map_to_list in Hin. by exists st.
  - exfalso. apply Hm. rewrite <- (map_to_list_empty_iff m). pose proof (Hrange m) as Hp. rewrite E in Hp. by apply Permutation_nil.
Qed.
Lemma cleanup_lookup m now key : cleanupSMSConcatLocked m now !! key = match m !! key with Some st => if set_expired now st then None else Some st | None => None end.
Proof.
  unfold cleanupSMSConcatLocked. destruct (m !! key) as [st|] eqn:E.
  - destruct (set_expired now st) eqn:Ex.
    + apply map_lookup_filter_None. right. intros st' E'. rewrite E in E'. injection E' as <-. cbn. congruence.
    + by apply map_lookup_filter_Some.
  - apply map_lookup_filter_None. by left.
Qed.
Lemma cleanup_ok m now : store_ok m -> store_ok (cleanupSMSConcatLocked m now).
Proof.
  intros [Hf Hs]. split.
  - intros k st Hk. apply map_lookup_filter_Some in Hk as [Hk _]. by apply Hf.
  - etrans; [|exact Hs]. apply Nat2Z.inj_le. rewrite <- !size_dom. apply subseteq_size. apply dom_filter_subseteq.
Qed.
Lemma set_take_part_fields st incoming concat now :
  cs_parts (set_take_part st incoming concat now) = add_part (cs_parts st) (ci_Seq concat) (in_Content incoming) /\
  cs_updatedAt (set_take_part st incoming concat now) = now.
Proof. unfold set_take_part. cbv zeta. by destruct (_ || _). Qed.
Lemma delete_store_ok m k : store_ok m -> store_ok (delete k m).
Proof.
  intros [Hf Hs]. split; [by apply map_Forall_delete|]. etrans; [|exact Hs]. apply Nat2Z.inj_le. rewrite <- !size_dom. apply subseteq_size.
  rewrite dom_delete_L. set_solver.
Qed.
(** The store before the set of [key] is (re)written: room is made when it is new. *)
Definition make_room (m : store) (key : smsConcatKey) : store :=
  match m !! key with Some _ => m | None => if smsConcatMaxSets <=? Z.of_nat (size m) then evictOldestSMSConcatLocked range m else m end.
Lemma make_room_spec m key : store_ok m ->
  store_ok (make_room m key) /\ make_room m key !! key = m !! key /\ (m !! key = None -> Z.of_nat (size (make_room m key)) < smsConcatMaxSets) /\
  forall k, make_room m key !! k = m !! k \/ (make_room m key !! k = None /\ m !! key = None /\ smsConcatMaxSets <= Z.of_nat (size m)).
Proof.
  intros Hok. unfold make_room. destruct (m !! key) eqn:E; [by split_and!; auto|].
  destruct (smsConcatMaxSets <=? Z.of_nat (size m)) eqn:Hs; [|split_and!; auto; intros _; lia].
  assert (Hne : m <> ∅) by (intros ->; rewrite map_size_empty in Hs; done).
  destruct (evict_spec m Hne) as (k & [st Hk] & ->). split_and!.
  - by apply delete_store_ok.
  - destruct (decide (k = key)) as [->|?]; [by rewrite lookup_delete_eq|]. by rewrite lookup_delete_ne.
  - intros _. rewrite (map_size_delete_Some k m) by done. destruct Hok as [_ Hok]. destruct (size m) as [|n] eqn:En; [by apply map_size_empty_iff in En|].
    cbn [Nat.pred]. lia.
  - intros k'. destruct (decide (k = k')) as [->|?]; [right; rewrite lookup_delete_eq; split_and!; [done|done|lia]|left; by rewrite lookup_delete_ne].
Qed.

Lemma collect_step m incoming concat now clock : store_ok m -> validSMSConcatInfo concat = true -> time_IsZero now = false ->
  let key := concat_key incoming concat in
  let total := ci_Total concat in
  let parts := add_part (collected (cleanupSMSConcatLocked m now) key) (ci_Seq concat) (in_Content incoming) in
  let r := collectSMSConcatPart range m incoming concat now clock in
  store_ok r.1 /\
  (if r.2.2 then (forall s, 1 <= s <= total -> is_Some (parts !! s)) /\ in_Content r.2.1 = whole_text parts total /\ in_Sender r.2.1 = in_Sender incoming /\
     in_Recipient r.2.1 = in_Recipient incoming /\ r.1 !! key = None
   else incomplete total parts /\ r.2.1 = zeroIncoming /\ exists st, r.1 !! key = Some st /\ cs_parts st = parts /\ cs_updatedAt st = now) /\
  forall k, k <> key -> r.1 !! k = cleanupSMSConcatLocked m now !! k \/
    (r.1 !! k = None /\ cleanupSMSConcatLocked m now !! key = None /\ smsConcatMaxSets <= Z.of_nat (size (cleanupSMSConcatLocked m now))).
Proof.
  intros Hok Hvalid Hnow. cbv zeta. unfold collectSMSConcatPart. rewrite Hvalid, Hnow. cbn [negb]. cbv zeta.
  pose proof (cleanup_ok m now Hok) as Hok1. set (m1 := cleanupSMSConcatLocked m now) in *. clearbody m1. set (key := concat_key incoming concat).
  assert (Hv : 1 < ci_Total concat /\ 1 <= ci_Seq concat <= ci_Total concat) by (unfold validSMSConcatInfo in Hvalid; lia). destruct Hv as [Ht Hseq].
  destruct (make_room_spec m1 key Hok1) as (Hok2 & Hkey & Hroom & Hothers).
  set (st0 := match m1 !! key with Some st => st | None => mkState ∅ zeroTime 0 0 false zeroUDHInfo false false false now zeroTime end).
  assert (Hpair : match m1 !! key with
    | Some state => (m1, state)
    | None => (if smsConcatMaxSets <=? Z.of_nat (size m1) then evictOldestSMSConcatLocked range m1 else m1,
               mkState ∅ zeroTime 0 0 false zeroUDHInfo false false false now zeroTime)
    end = (make_room m1 key, st0)) by (subst st0; unfold make_room; by destruct (m1 !! key)).
  rewrite Hpair. clear Hpair. set (m2 := make_room m1 key) in *. clearbody m2.
  destruct (set_take_part_fields st0 incoming concat now) as [Hparts Hupd]. set (st := set_take_part st0 incoming concat now) in *. clearbody st.
  assert (Hcol : cs_parts st0 = collected m1 key) by (subst st0; unfold collected; by destruct (m1 !! key)). rewrite Hcol in Hparts. clear Hcol.
  set (parts := add_part (collected m1 key) (ci_Seq concat) (in_Content incoming)) in *.
  assert (Hdom : dom parts ⊆ numbers (ci_Total concat)).
  { apply add_part_dom; [|done]. unfold collected. destruct (m1 !! key) as [s|] eqn:E; [|rewrite dom_empty_L; apply empty_subseteq].
    destruct Hok1 as [Hf _]. destruct (Hf key s E) as (_ & [Hd _] & _). exact Hd. }
  pose proof (incomplete_size (ci_Total concat) parts Hdom ltac:(lia)) as Hsize.
  assert (Hins : incomplete (ci_Total concat) parts -> store_ok (<[key := st]> m2)).
  { intros Hinc. split.
    - apply map_Forall_insert_2; [|apply Hok2]. split; [exact Ht|]. rewrite Hparts. split; [exact Hinc|apply add_part_nonempty].
    - destruct (m2 !! key) eqn:E2; [rewrite map_size_insert_Some by eauto; apply Hok2|]. rewrite map_size_insert_None by done.
      specialize (Hroom (eq_sym Hkey)). lia. }
  assert (Hoth : forall k, k <> key -> m2 !! k = m1 !! k \/ (m2 !! k = None /\ m1 !! key = None /\ smsConcatMaxSets <= Z.of_nat (size m1))) by (intros; apply Hothers).
  rewrite Hparts. destruct (Z.of_nat (size parts) <? ci_Total concat) eqn:Hlt.
  - assert (Hinc : incomplete (ci_Total concat) parts) by (apply Hsize; lia). cbn [fst snd]. split; [by apply Hins|]. split.
    + split; [done|]. split; [done|]. exists st. by rewrite lookup_insert_eq.
    + intros k Hk. rewrite lookup_insert_ne by done. by apply Hoth.
  - assert (Hall : forall s, 1 <= s <= ci_Total concat -> is_Some (parts !! s)).
    { intros s Hs. destruct (parts !! s) eqn:E; [eauto|]. exfalso. assert (Hinc : incomplete (ci_Total concat) parts) by (split; [done|by exists s]). apply Hsize in Hinc. lia. }
    rewrite content_loop_spec by (intros s Hs; apply Hall; lia). rewrite Z2Nat.id by lia. cbn [fst snd]. rewrite delete_insert_eq. split; [by apply delete_store_ok|]. split.
    + split; [done|]. split; [done|]. split; [done|]. split; [done|]. by rewrite lookup_delete_eq.
    + intros k Hk. rewrite lookup_delete_ne by done. by apply Hoth.
Qed.

(** ** Sequences of parts *)
Fixpoint run (m : store) (events : list (IncomingSMS * SMSConcatInfo * Time)) : store * list (IncomingSMS * bool) :=
  match events with
  | [] => (m, [])
  | (incoming, info, now) :: rest =>
      let '(m1, out) := collectSMSConcatPart range m incoming info now now in
      let '(m2, outs) := run m1 rest in (m2, out :: outs)
  end.
Lemma run_app m l1 l2 : run m (l1 ++ l2) = let '(m1, o1) := run m l1 in let '(m2, o2) := run m1 l2 in (m2, o1 ++ o2).
Proof.
  revert m. induction l1 as [|[[i c] now] l1 IH]; intros m; [cbn; by destruct (run m l2)|]. cbn [run app].
  destruct (collectSMSConcatPart _ _ _ _ _ _) as [m1 o]. rewrite IH. destruct (run m1 l1) as [m2 o1]. by destruct (run m2 l2).
Qed.
Definition event_key (e : IncomingSMS * SMSConcatInfo * Time) : smsConcatKey := concat_key e.1.1 e.1.2.
Definition event_seq (e : IncomingSMS * SMSConcatInfo * Time) : Z := ci_Seq e.1.2.
Definition event_ok (e : IncomingSMS * SMSConcatInfo * Time) : Prop := validSMSConcatInfo e.1.2 = true /\ time_IsZero e.2 = false.
(** The numbers of the parts of one message among the events. *)
Definition seen (key : smsConcatKey) (events : list (IncomingSMS * SMSConcatInfo * Time)) : list Z := event_seq <$> filter (fun e => event_key e = key) events.
Lemma seen_cons key e events : seen key (e :: events) = if decide (event_key e = key) then event_seq e :: seen key events else seen key events.
Proof. unfold seen. rewrite filter_cons. by case_decide. Qed.

(** [have] are the parts of [key] that arrived; [active] the keys in play; [times] the times of the calls. *)
Record holding (key : smsConcatKey) (text : Z -> bytes) (active : gset smsConcatKey) (times : list Time) (have : list Z) (m : store) : Prop := {
  holding_ok : store_ok m;
  holding_active : dom m ⊆ active;
  holding_parts : forall s, collected m key !! s = if decide (s ∈ have) then Some (text s) else None;
  holding_fresh : forall st now, m !! key = Some st -> now ∈ times -> set_expired now st = false
}.
Lemma holding_cleanup key text active times have m now : holding key text active times have m -> now ∈ times ->
  holding key text active times have (cleanupSMSConcatLocked m now) /\ cleanupSMSConcatLocked m now !! key = m !! key.
Proof.
  intros [Hok Hact Hparts Hfresh] Hnow.
  assert (Hkey : cleanupSMSConcatLocked m now !! key = m !! key).
  { rewrite cleanup_lookup. destruct (m !! key) as [st|] eqn:E; [|done]. by rewrite (Hfresh st now). }
  split; [|done]. constructor; [by apply cleanup_ok| |unfold collected; by rewrite Hkey|rewrite Hkey; done].
  etrans; [apply dom_filter_subseteq|done].
Qed.
Lemma fresh_set (times : list Time) st now : (forall u v, u ∈ times -> v ∈ times -> time_Sub u v <= smsConcatTTL) -> cs_updatedAt st = now -> time_IsZero now = false -> now ∈ times ->
  forall u, u ∈ times -> set_expired u st = false.
Proof.
  intros Hwin Hupd Hz Hnow u Hu. unfold set_expired, set_updatedAt. rewrite Hupd, Hz. cbv iota. rewrite Hz. specialize (Hwin u now Hu Hnow). lia.
Qed.

(** A part of another message leaves the parts of [key] alone: the keys in play fit, so nothing is evicted. *)
Lemma other_part key text active times have m incoming info now : holding key text active times have m -> now ∈ times ->
  event_ok (incoming, info, now) -> Z.of_nat (size active) <= smsConcatMaxSets -> concat_key incoming info ∈ active -> concat_key incoming info <> key ->
  holding key text active times have (collectSMSConcatPart range m incoming info now now).1.
Proof.
  intros Hhold Hnow [Hvalid Hz] Hsize Hin Hne. cbn [fst snd] in *.
  destruct (collect_step m incoming info now now (holding_ok _ _ _ _ _ _ Hhold) Hvalid Hz) as (Hok & _ & Hothers).
  destruct (holding_cleanup _ _ _ _ _ _ now Hhold Hnow) as [[Hok1 Hact1 Hparts1 Hfresh1] _]. set (r := collectSMSConcatPart _ _ _ _ _ _) in *. clearbody r.
  set (m1 := cleanupSMSConcatLocked m now) in *. clearbody m1.
  assert (Hsame : r.1 !! key = m1 !! key).
  { destruct (Hothers key ltac:(congruence)) as [?|(_ & Hnone & Hfull)]; [done|]. exfalso.
    assert (Hlt : (size (dom m1) < size active)%nat) by (apply subset_size; apply not_elem_of_dom in Hnone; set_solver). rewrite size_dom in Hlt. lia. }
  constructor; [done| |unfold collected; by rewrite Hsame|by rewrite Hsame].
  intros k Hk. destruct (decide (k = concat_key incoming info)) as [->|Hk']; [done|]. apply elem_of_dom in Hk as [st Hst].
  destruct (Hothers k Hk') as [E|(E & _)]; rewrite E in Hst; [|done]. apply Hact1. apply elem_of_dom. by exists st.
Qed.
(** What one part of the message does. *)
Lemma own_part key text active (times : list Time) (have : list Z) m incoming info now : holding key text active times have m -> now ∈ times ->
  (forall u v, u ∈ times -> v ∈ times -> time_Sub u v <= smsConcatTTL) -> event_ok (incoming, info, now) -> key ∈ active ->
  concat_key incoming info = key -> in_Content incoming = text (ci_Seq info) ->
  let r := collectSMSConcatPart range m incoming info now now in
  (if r.2.2 then (forall s, 1 <= s <= key_total key -> s ∈ ci_Seq info :: have) /\ store_ok r.1 /\ r.1 !! key = None /\
     in_Content r.2.1 = concat (text <$> seqZ 1 (key_total key)) /\ in_Sender r.2.1 = in_Sender incoming /\ in_Recipient r.2.1 = in_Recipient incoming
   else (exists s, 1 <= s <= key_total key /\ s ∉ ci_Seq info :: have) /\ r.2.1 = zeroIncoming /\ holding key text active times (ci_Seq info :: have) r.1).
Proof.
  intros Hhold Hnow Hwin [Hvalid Hz] Hin Hkey Htext. cbn [fst snd] in Hvalid, Hz. cbv zeta.
  destruct (collect_step m incoming info now now (holding_ok _ _ _ _ _ _ Hhold) Hvalid Hz) as (Hok & Hout & Hothers).
  destruct (holding_cleanup _ _ _ _ _ _ now Hhold Hnow) as [[Hok1 Hact1 Hparts1 Hfresh1] _]. set (r := collectSMSConcatPart _ _ _ _ _ _) in *. clearbody r.
  set (m1 := cleanupSMSConcatLocked m now) in *. clearbody m1. rewrite Hkey in *.
  assert (Htot : key_total key = ci_Total info) by (by rewrite <- Hkey). rewrite <- Htot in Hout.
  set (parts := add_part (collected m1 key) (ci_Seq info) (in_Content incoming)) in *.
  assert (Hparts : forall s, parts !! s = if decide (s ∈ ci_Seq info :: have) then Some (text s) else None).
  { intros s. subst parts. unfold add_part. rewrite (Hparts1 (ci_Seq info)), Htext. destruct (decide (ci_Seq info ∈ have)) as [Hh|Hh].
    - rewrite Hparts1. destruct (decide (s ∈ have)), (decide (s ∈ ci_Seq info :: have)); set_solver.
    - destruct (decide (s = ci_Seq info)) as [->|Hs]; [rewrite lookup_insert_eq; case_decide; set_solver|]. rewrite lookup_insert_ne by done. rewrite Hparts1.
      destruct (decide (s ∈ have)), (decide (s ∈ ci_Seq info :: have)); set_solver. }
  clearbody parts. destruct (r.2.2).
  - destruct Hout as (Hall & Hc & Hsnd & Hrcp & Hgone). split_and!; try done.
    + intros s Hs. destruct (Hall s Hs) as [x Hx]. rewrite Hparts in Hx. by case_decide.
    + rewrite Hc. unfold whole_text. f_equal. apply list_fmap_ext. intros i s Hi. apply lookup_seqZ in Hi. destruct (Hall s) as [x Hx]; [lia|].
      rewrite Hx. rewrite Hparts in Hx. cbn. by case_decide; simplify_eq.
  - destruct Hout as ([_ (s & Hs & Hnone)] & Hz' & st & Hst & Hstp & Hupd). split; [|split; [done|]].
    + exists s. split; [done|]. rewrite Hparts in Hnone. by case_decide.
    + constructor; [done| |unfold collected; rewrite Hst, Hstp; done|].
      * intros k Hk. destruct (decide (k = key)) as [->|Hk']; [done|]. apply elem_of_dom in Hk as [st' Hst']. destruct (Hothers k Hk') as [E|(E & _)]; rewrite E in Hst'; [|done].
        apply Hact1. apply elem_of_dom. by exists st'.
      * intros st' u E Hu. rewrite Hst in E. injection E as <-. eapply fresh_set; eauto.
Qed.

Record event_fits (key : smsConcatKey) (text : Z -> bytes) (active : gset smsConcatKey) (times : list Time) (e : IncomingSMS * SMSConcatInfo * Time) : Prop := {
  fits_ok : event_ok e;
  fits_active : event_key e ∈ active;
  fits_time : e.2 ∈ times;
  fits_text : event_key e = key -> in_Content e.1.1 = text (event_seq e)
}.
Lemma run_incomplete key text active times have m events s0 : holding key text active times have m ->
  (forall u v, u ∈ times -> v ∈ times -> time_Sub u v <= smsConcatTTL) -> Z.of_nat (size active) <= smsConcatMaxSets -> key ∈ active ->
  Forall (event_fits key text active times) events -> 1 <= s0 <= key_total key -> s0 ∉ have -> s0 ∉ seen key events ->
  let '(m', outs) := run m events in
  (exists have', (forall s, s ∈ have' <-> s ∈ have \/ s ∈ seen key events) /\ holding key text active times have' m') /\
  length outs = length events /\ forall i e, events !! i = Some e -> event_key e = key -> outs !! i = Some (zeroIncoming, false).
Proof.
  intros Hhold Hwin Hsize Hkey Hev Hs0. revert have m Hhold. induction Hev as [|[[incoming info] now] events [Hok Hact Htime Htext] Hev IH]; intros have m Hhold Hnh Hns.
  - cbn [run]. split; [|done]. exists have. split; [|done]. intros s. split; [by left|]. intros [?|Hin]; [done|]. by apply not_elem_of_nil in Hin.
  - cbn [run]. rewrite seen_cons in *. unfold event_key, event_seq in *. cbn [fst snd] in *.
    assert (Hstep : exists have1, (forall s, s ∈ have1 <-> s ∈ have \/ (concat_key incoming info = key /\ s = ci_Seq info)) /\
      holding key text active times have1 (collectSMSConcatPart range m incoming info now now).1 /\
      (concat_key incoming info = key -> (collectSMSConcatPart range m incoming info now now).2 = (zeroIncoming, false))).
    { case_decide as Hk.
      - exists (ci_Seq info :: have). split; [set_solver|]. pose proof (own_part key text active times have m incoming info now Hhold Htime Hwin Hok Hkey Hk (Htext Hk)) as Hown.
        cbv zeta in Hown. set (r := collectSMSConcatPart _ _ _ _ _ _) in *. clearbody r. destruct r as [m1 [o b]]. cbn [fst snd] in *. destruct b.
        + destruct Hown as [Hall _]. specialize (Hall s0 Hs0). set_solver.
        + destruct Hown as (_ & -> & ?). done.
      - exists have. split; [set_solver|]. split; [|done]. by apply (other_part key text active times have m incoming info now). }
    destruct Hstep as (have1 & Hmem & Hhold1 & Hout). destruct (collectSMSConcatPart range m incoming info now now) as [m1 o]. cbn [fst snd] in *.
    assert (Hn1 : s0 ∉ have1) by (rewrite Hmem; case_decide; set_solver).
    assert (Hn2 : s0 ∉ seen key events) by (case_decide; set_solver).
    specialize (IH have1 m1 Hhold1 Hn1 Hn2). destruct (run m1 events) as [m2 outs]. destruct IH as ((have2 & Hmem2 & Hhold2) & Hlen & Houts). split_and!.
    + exists have2. split; [|done]. intros s. rewrite Hmem2, Hmem. case_decide; set_solver.
    + cbn. lia.
    + intros [|i] e Hi Hk; cbn in Hi |- *; [injection Hi as <-; cbn in Hk; by rewrite Hout|by apply (Houts i e)].
Qed.

(** C36: A segmented message is put together whatever the order of its parts, the
    parts that come twice, and the parts of other messages in between: as long as
    the calls lie within ten minutes and no more than 64 messages are in play,
    nothing is delivered before the last missing part; with it the text is that
    of the parts in the order of their numbers, and the set is removed. *)
Theorem message_reassembled (m : store) events incoming info now (text : Z -> bytes) :
  let key := concat_key incoming info in
  let all := events ++ [(incoming, info, now)] in
  store_ok m -> m !! key = None -> Forall event_ok all ->
  (forall u v, u ∈ all.*2 -> v ∈ all.*2 -> time_Sub u v <= smsConcatTTL) ->
  Z.of_nat (size (dom m ∪ list_to_set (event_key <$> all))) <= smsConcatMaxSets ->
  (forall e, e ∈ all -> event_key e = key -> in_Content e.1.1 = text (event_seq e)) ->
  ci_Seq info ∉ seen key events -> (forall s, 1 <= s <= ci_Total info -> s <> ci_Seq info -> s ∈ seen key events) ->
  let '(m', outs) := run m all in
  store_ok m' /\ m' !! key = None /\ length outs = length all /\
  (forall i e, events !! i = Some e -> event_key e = key -> outs !! i = Some (zeroIncoming, false)) /\
  exists sms, outs !! length events = Some (sms, true) /\ in_Content sms = concat (text <$> seqZ 1 (ci_Total info)) /\
    in_Sender sms = in_Sender incoming /\ in_Recipient sms = in_Recipient incoming.
Proof.
  intros key all Hok Hnew Hevents Hwin Hsize Htext Hlast Hothers.
  set (active := dom m ∪ list_to_set (event_key <$> all)) in *.
  assert (Hfits : Forall (event_fits key text active all.*2) all).
  { apply Forall_forall. intros e He. constructor; [by eapply Forall_forall in Hevents| | |by apply Htext].
    - subst active. apply elem_of_union_r, elem_of_list_to_set, list_elem_of_fmap_2. done.
    - by apply list_elem_of_fmap_2. }
  assert (Hhold : holding key text active all.*2 [] m).
  { constructor; [done|subst active; set_solver| |by rewrite Hnew].
    intros s. unfold collected. rewrite Hnew, lookup_empty. case_decide as Hd; [|done]. by apply not_elem_of_nil in Hd. }
  assert (Hact : key ∈ active) by (apply (fits_active key text active all.*2 (incoming, info, now)); eapply Forall_forall; [exact Hfits|subst all; set_solver]).
  subst all. apply Forall_app in Hfits as [Hfits Hf1]. apply Forall_cons_1 in Hf1 as [Hf1 _]. pose proof (fits_ok _ _ _ _ _ Hf1) as [Hvalid Hz]. cbn [fst snd] in Hvalid, Hz.
  assert (Hseq : 1 <= ci_Seq info <= key_total key) by (change (key_total key) with (ci_Total info); unfold validSMSConcatInfo in Hvalid; lia).
  pose proof (run_incomplete key text active _ [] m events (ci_Seq info) Hhold Hwin Hsize Hact Hfits Hseq ltac:(set_solver) Hlast) as Hrun.
  rewrite run_app. destruct (run m events) as [m1 o1]. destruct Hrun as ((have & Hmem & Hhold1) & Hlen & Houts). cbn [run].
  pose proof (own_part key text active _ have m1 incoming info now Hhold1 (fits_time _ _ _ _ _ Hf1) Hwin (fits_ok _ _ _ _ _ Hf1) Hact eq_refl (fits_text _ _ _ _ _ Hf1 eq_refl)) as Hown.
  cbv zeta in Hown. destruct (collectSMSConcatPart range m1 incoming info now now) as [m2 [sms b]]. cbn [fst snd] in Hown. destruct b.
  - destruct Hown as (_ & Hok2 & Hgone & Hc & Hs & Hr). split_and!; try done.
    + rewrite !length_app. cbn. lia.
    + intros i e Hi Hk. rewrite lookup_app_l by (apply lookup_lt_Some in Hi; lia). by apply (Houts i e).
    + exists sms. split; [|by rewrite Hc]. rewrite lookup_app_r by lia. by rewrite Hlen, Nat.sub_diag.
  - destruct Hown as [(s & Hs & Hns) _]. exfalso. apply Hns. destruct (decide (s = ci_Seq info)) as [->|Hne]; [by left|].
    right. rewrite Hmem. right. by apply Hothers.
Qed.
End steps.

(** Three parts out of order, one of them twice, and a part of another message. *)
Definition sample_part (sender : Z) (ref seq minute : Z) (content : bytes) : IncomingSMS * SMSConcatInfo * Time :=
  (mkIncoming [43; sender] [] content zeroTime 0 0 zeroCoding true zeroUDHInfo false false false,
   mkConcat true ref 8 3 seq, mkTime 2024 5 6 7 minute 0 0 0).
Definition sample_parts : list (IncomingSMS * SMSConcatInfo * Time) :=
  [sample_part 49 7 3 0 [33]; sample_part 50 7 1 1 [88]; sample_part 49 7 1 2 [72; 101]; sample_part 49 7 3 3 [33]].
Definition sample_text (seq : Z) : bytes := if seq =? 1 then [72; 101] else if seq =? 2 then [108; 108; 111] else [33].
Lemma message_reassembled_witness :
  exists sms, (run map_to_list ∅ (sample_parts ++ [sample_part 49 7 2 9 [108; 108; 111]])).2 !! 4%nat = Some (sms, true) /\
    in_Content sms = [72; 101; 108; 108; 111; 33].
Proof.
  set (final := sample_part 49 7 2 9 [108; 108; 111]).
  unshelve epose proof (message_reassembled map_to_list (fun m => reflexivity _) ∅ sample_parts final.1.1 final.1.2 final.2 sample_text _ _ _ _ _ _ _ _) as H.
  - split; [apply map_Forall_empty|vm_compute; done].
  - done.
  - repeat constructor.
  - intros u v Hu Hv. cut (Forall (fun u => Forall (fun v => time_Sub u v <= smsConcatTTL) ((sample_parts ++ [final]).*2)) ((sample_parts ++ [final]).*2)).
    + intros Hall. eapply Forall_forall in Hall; [|exact Hu]. by eapply Forall_forall in Hall.
    + apply (bool_decide_unpack _). vm_compute. done.
  - vm_compute. done.
  - intros e He Hk. cut (Forall (fun e => in_Content e.1.1 = sample_text (event_seq e) \/ event_key e <> concat_key final.1.1 final.1.2) (sample_parts ++ [final])).
    + intros Hall. eapply Forall_forall in Hall; [|exact He]. by destruct Hall.
    + apply (bool_decide_unpack _). vm_compute. done.
  - apply (bool_decide_unpack _). vm_compute. done.
  - intros s Hs Hne. cbn in Hs, Hne. assert (s = 1 \/ s = 3) as [-> | ->] by lia; apply (bool_decide_unpack _); vm_compute; done.
  - cbv zeta in H. change (sample_parts ++ [(final.1.1, final.1.2, final.2)]) with (sample_parts ++ [final]) in H.
    destruct (run map_to_list ∅ (sample_parts ++ [final])) as [m' outs]. destruct H as (_ & _ & _ & _ & sms & Hout & Hc & _).
    exists sms. split; [exact Hout|]. rewrite Hc. vm_compute. done.
Defined.
