(* ===== verification/Tlv.v ===== *)
(** * BER-TLV data objects (runtimehost/simauth/tlv.go)

    What a SIM card answers is a list of data objects: a tag, a length and a
    value, which for a constructed tag is again such a list.  Tags are Go [int]s,
    64 bits wide.  A search for a tag looks at the objects in the order of the
    card, into each constructed one before those behind it. *)
From S2P Require Import Prelude Errors.
#[local] Open Scope string_scope.
#[local] Open Scope list_scope.
#[local] Open Scope Z_scope.

Definition math_MaxInt : Z := 2 ^ 63 - 1.

Record TLV := mkTLV { tlv_Tag : Z; tlv_Value : bytes }.

(** The octets of a tag, least significant last.  The array of the code has four
    places: the store of a fifth octet is out of range. *)
Fixpoint encode_tag_loop (room : nat) (tag : Z) (out : bytes) : result bytes :=
  if tag <=? 0 then Ok out else
  match room with
  | O => Panic
  | S room' => encode_tag_loop room' (Z.shiftr tag 8) (to_u8 tag :: out)
  end.
Definition encodeTag (tag : Z) : result bytes :=
  if tag <=? 0 then Err (ErrText "invalid TLV tag") else
  if tag <=? 0xff then Ok [to_u8 tag] else
  encode_tag_loop 4 tag [].
Definition encodeLength (length : Z) : result bytes :=
  if length <? 0 then Err (ErrText "invalid TLV length") else
  if length <=? 0x7f then Ok [to_u8 length] else
  if length <=? 0xff then Ok [0x81; to_u8 length] else
  if length <=? 0xffff then Ok [0x82; to_u8 (Z.shiftr length 8); to_u8 length] else
  if length <=? 0xffffff then Ok [0x83; to_u8 (Z.shiftr length 16); to_u8 (Z.shiftr length 8); to_u8 length] else
  if length <=? 0xffffffff then
    Ok [0x84; to_u8 (Z.shiftr length 24); to_u8 (Z.shiftr length 16); to_u8 (Z.shiftr length 8); to_u8 length] else
  Err (ErrText "TLV length exceeds supported long form").
Definition EncodeTLV (tag : Z) (value : bytes) : result bytes :=
  let! tagBytes := encodeTag tag in
  let! lengthBytes := encodeLength (len value) in
  Ok (tagBytes ++ lengthBytes ++ value).

Fixpoint trimTLVPadding (data : bytes) : bytes :=
  match data with
  | b :: rest => if (b =? 0x00) || (b =? 0xff) then trimTLVPadding rest else data
  | [] => []
  end.

Fixpoint tag_loop (data : bytes) (tag : Z) : result (Z * bytes) :=
  match data with
  | [] => Err (ErrText "truncated high-tag-number TLV")
  | b :: rest =>
      let tag := Z.lor tag b in
      if Z.land b 0x80 =? 0 then Ok (tag, rest) else tag_loop rest (to_i64 (Z.shiftl tag 8))
  end.
Definition readTag (data : bytes) : result (Z * bytes) :=
  match data with
  | [] => Err (ErrText "empty TLV tag")
  | tag :: rest => if Z.land tag 0x1f =? 0x1f then tag_loop rest (Z.shiftl tag 8) else Ok (tag, rest)
  end.

Fixpoint length_loop (parts : bytes) (length : Z) : result Z :=
  match parts with
  | [] => Ok length
  | part :: rest =>
      if (math_MaxInt - part) / 256 <? length then Err (ErrText "TLV length overflows int") else
      length_loop rest (Z.lor (Z.shiftl length 8) part)
  end.
Definition readLength (data : bytes) : result (Z * bytes) :=
  match data with
  | [] => Err (ErrText "empty TLV length")
  | b :: rest =>
      if Z.land b 0x80 =? 0 then Ok (b, rest) else
      let n := Z.land b 0x7f in
      if n =? 0 then Err (ErrText "unsupported indefinite TLV length form") else
      if 4 <? n then Err (ErrText "unsupported TLV length form") else
      if len rest <? n then Err (ErrText "truncated TLV long length") else
      let! parts := slice rest 0 n in
      let! length := length_loop parts 0 in
      let! rest := slice_from rest n in
      Ok (length, rest)
  end.

(** The objects read before an error are returned with it; no caller looks at them. *)
Fixpoint parse_tlv_loop (fuel : nat) (data : bytes) (out : list TLV) : result (list TLV) :=
  match data with
  | [] => Ok out
  | _ =>
      match fuel with
      | O => OutOfFuel
      | S fuel' =>
          match trimTLVPadding data with
          | [] => Ok out
          | data =>
              let! r := readTag data in
              let '(tag, rest) := r in
              let! r := readLength rest in
              let '(length, rest) := r in
              if len rest <? length then Err (ErrText "TLV length exceeds remaining") else
              let! value := slice rest 0 length in
              let! rest := slice_from rest length in
              parse_tlv_loop fuel' rest (out ++ [mkTLV tag value])
          end
      end
  end.
Definition ParseTLVList (data : bytes) : result (list TLV) := parse_tlv_loop (length data) data [].

(** [for tag > 0xFF]: eight octets at most. *)
Fixpoint constructed_loop (n : nat) (tag : Z) : Z :=
  match n with O => tag | S n' => if 0xff <? tag then constructed_loop n' (Z.shiftr tag 8) else tag end.
Definition isConstructed (tag : Z) : bool := negb (Z.land (constructed_loop 8 tag) 0x20 =? 0).

(** [None]: not found.  A value lies inside its list, so [find_tlv] goes no
    deeper than the list is long. *)
Section find.
Context (find_tlv : bytes -> Z -> result (option bytes)).
Fixpoint find_items (items : list TLV) (tag : Z) : result (option bytes) :=
  match items with
  | [] => Ok None
  | item :: rest =>
      if tlv_Tag item =? tag then Ok (Some (tlv_Value item)) else
      if isConstructed (tlv_Tag item) then
        let! r := find_tlv (tlv_Value item) tag in
        match r with Some v => Ok (Some v) | None => find_items rest tag end
      else find_items rest tag
  end.
End find.
Fixpoint find_tlv (fuel : nat) (data : bytes) (tag : Z) : result (option bytes) :=
  match fuel with
  | O => OutOfFuel
  | S fuel' =>
      match ParseTLVList data with
      | Ok items => find_items (find_tlv fuel') items tag
      | Err _ => Ok None
      | Panic => Panic
      | OutOfFuel => OutOfFuel
      end
  end.
Definition FindTLV (data : bytes) (tag : Z) : result (option bytes) := find_tlv (S (length data)) data tag.

Definition beInt (v : bytes) : Z := fold_left (fun out b => to_i64 (Z.lor (to_i64 (Z.shiftl out 8)) b)) v 0.
Definition fcp_body (fcp : bytes) : result bytes :=
  let! r := FindTLV fcp 0x62 in Ok (match r with Some v => v | None => fcp end).
Definition FileSizeFromFCP (fcp : bytes) : result Z :=
  let! body := fcp_body fcp in
  let! r := FindTLV body 0x80 in
  match r with
  | Some v => Ok (beInt v)
  | None =>
      let! r := FindTLV body 0x81 in
      match r with Some v => Ok (beInt v) | None => Ok 0 end
  end.
(** Record length and count. *)
Definition RecordInfoFromFCP (fcp : bytes) : result (Z * Z) :=
  let! body := fcp_body fcp in
  let! r := FindTLV body 0x82 in
  match r with
  | Some v =>
      if 5 <=? len v then
        let! hi := at_ v 2 in
        let! lo := at_ v 3 in
        let! count := at_ v 4 in
        Ok (Z.lor (Z.shiftl hi 8) lo, count)
      else Ok (0, 0)
  | None => Ok (0, 0)
  end.
Example file_size : FileSizeFromFCP [0x62; 0x08; 0x80; 0x02; 0x01; 0x2c; 0x8a; 0x02; 0x05; 0x00] = Ok 300.
Proof. vm_compute. reflexivity. Qed.

(** ** Tags and lengths on the wire *)
(** The octets behind the first one of a long tag: bit 8 set in all but the last. *)
Fixpoint continued (bs : bytes) : bool :=
  match bs with [] => false | [b] => Z.land b 0x80 =? 0 | b :: bs' => negb (Z.land b 0x80 =? 0) && continued bs' end.
Definition tag_wire (bs : bytes) : bool :=
  match bs with
  | [] => false
  | [b] => negb (b =? 0) && negb (Z.land b 0x1f =? 0x1f)
  | b :: bs' => (Z.land b 0x1f =? 0x1f) && negb (b =? 0xff) && continued bs' && (len bs' <=? 3)
  end.
Definition tag_ok (tag : Z) : Prop := exists bs, bytes_ok bs /\ tag_wire bs = true /\ tag = be_decode bs.

Lemma tag_wire_head bs : tag_wire bs = true -> exists b bs', bs = b :: bs' /\ b <> 0 /\ b <> 0xff.
Proof.
  destruct bs as [|b bs']; [done|]. intros H. exists b, bs'. split; [done|]. destruct bs' as [|b' bs']; cbn [tag_wire] in H.
  - apply andb_prop in H as [H1 H2]. split; [lia|]. intros ->. done.
  - rewrite !andb_true_iff in H. destruct H as [[[H1 H2] _] _]. split; [intros ->; done|lia].
Qed.
Lemma tag_loop_wire bs rest acc : bytes_ok bs -> continued bs = true -> 0 <= acc -> (acc + 1) * 256 ^ len bs <= 2 ^ 32 ->
  tag_loop (bs ++ rest) (Z.shiftl acc 8) = Ok (acc * 256 ^ len bs + be_decode bs, rest).
Proof.
  revert acc. induction bs as [|b bs IH]; intros acc Hb Hc Ha Hs; [done|]. apply bytes_ok_cons in Hb as [Hb Hbs]. cbn [app tag_loop].
  rewrite lor_shiftl_8 by done. rewrite be_decode_cons. rewrite len_cons, Z.pow_add_r in Hs |- * by len_lia. change (256 ^ 1) with 256 in *.
  pose proof (Z.pow_pos_nonneg 256 (len bs) ltac:(lia) ltac:(len_lia)) as Hp. unfold in_range in Hb. destruct bs as [|b' bs'].
  - cbn [continued] in Hc. rewrite Hc. f_equal. f_equal. change (len []) with 0. change (be_decode []) with 0. lia.
  - cbn [continued] in Hc. apply andb_prop in Hc as [Hc1 Hc2]. apply negb_true_iff in Hc1. rewrite Hc1. cbv iota.
    rewrite to_i64_small by (rewrite Z.shiftl_mul_pow2 by lia; nia). rewrite IH by (done || nia). do 2 f_equal. lia.
Qed.
Lemma readTag_wire bs rest : bytes_ok bs -> tag_wire bs = true -> readTag (bs ++ rest) = Ok (be_decode bs, rest).
Proof.
  destruct bs as [|b bs]; [done|]. intros Hb Hw. apply bytes_ok_cons in Hb as [Hb Hbs]. cbn [app readTag]. destruct bs as [|b' bs'].
  - cbn [tag_wire] in Hw. apply andb_prop in Hw as [_ Hw]. apply negb_true_iff in Hw. rewrite Hw. unfold be_decode. cbn [fold_left app]. f_equal; f_equal; lia.
  - cbn [tag_wire] in Hw. rewrite !andb_true_iff in Hw. destruct Hw as [[[Hw1 _] Hc] Hl]. rewrite Hw1. cbv iota.
    assert (Hp : 256 ^ len (b' :: bs') <= 256 ^ 3) by (apply Z.pow_le_mono_r; lia). unfold in_range in Hb.
    rewrite (tag_loop_wire (b' :: bs')) by (try done; try lia; nia). by rewrite (be_decode_cons b).
Qed.
Lemma be_decode_pos b bs : bytes_ok (b :: bs) -> b <> 0 -> 256 ^ len bs <= be_decode (b :: bs).
Proof.
  intros [Hb Hbs]%bytes_ok_cons Hne. rewrite be_decode_cons. pose proof (be_decode_range bs Hbs) as Hr. unfold in_range in Hb. nia.
Qed.
Lemma encode_tag_loop_wire bs room out : bytes_ok bs -> (length bs <= room)%nat -> (forall b bs', bs = b :: bs' -> b <> 0) ->
  encode_tag_loop room (be_decode bs) out = Ok (bs ++ out).
Proof.
  revert room out. induction bs as [|b bs IH] using rev_ind; intros room out Hok Hroom Hhead; [by destruct room|].
  apply bytes_ok_app in Hok as [Hbs [Hb _]%bytes_ok_cons]. rewrite length_app in Hroom. cbn [length] in Hroom. destruct room as [|room]; [lia|].
  assert (Hpos : 0 < be_decode (bs ++ [b])).
  { destruct bs as [|b0 bs']; cbn [app] in *.
    - pose proof (be_decode_pos b [] ltac:(by apply bytes_ok_cons) (Hhead _ _ eq_refl)). change (256 ^ len []) with 1 in *. lia.
    - assert (Hok : bytes_ok (b0 :: bs' ++ [b])) by (apply (bytes_ok_app (b0 :: bs') [b]); split; [done|by repeat constructor; apply Hb]).
      pose proof (be_decode_pos b0 (bs' ++ [b]) Hok (Hhead _ _ eq_refl)).
      pose proof (Z.pow_pos_nonneg 256 (len (bs' ++ [b])) ltac:(lia) ltac:(len_lia)). lia. }
  cbn [encode_tag_loop]. replace (be_decode (bs ++ [b]) <=? 0) with false by lia. rewrite be_decode_snoc. rewrite Z.shiftr_div_pow2 by lia. change (2 ^ 8) with 256.
  unfold in_range in Hb. rewrite Z.div_add_l, (Z.div_small b) by lia. rewrite Z.add_0_r.
  unfold to_u8. rewrite Z.add_comm, Z.mod_add, Z.mod_small by lia. rewrite IH; [by rewrite <- app_assoc|done|lia|].
  intros b0 bs' ->. by apply (Hhead b0 (bs' ++ [b])).
Qed.
Lemma encodeTag_wire bs : bytes_ok bs -> tag_wire bs = true -> encodeTag (be_decode bs) = Ok bs.
Proof.
  intros Hok Hw. destruct (tag_wire_head bs Hw) as (b & bs' & -> & Hb0 & _). pose proof (be_decode_pos b bs' Hok Hb0) as Hpos.
  pose proof (Z.pow_pos_nonneg 256 (len bs') ltac:(lia) ltac:(len_lia)) as Hp. unfold encodeTag. replace (be_decode (b :: bs') <=? 0) with false by lia.
  destruct bs' as [|b' bs'].
  - apply bytes_ok_cons in Hok as [Hb _]. unfold in_range in Hb. replace (be_decode [b]) with b by (unfold be_decode; cbn [fold_left]; lia).
    replace (b <=? 0xff) with true by lia. unfold to_u8. by rewrite Z.mod_small by lia.
  - assert (Hge : 256 ^ 1 <= 256 ^ len (b' :: bs')) by (apply Z.pow_le_mono_r; len_lia). replace (be_decode _ <=? 0xff) with false by lia.
    rewrite encode_tag_loop_wire; [by rewrite app_nil_r|done| |by intros ? ? [= <- <-]].
    cbn [tag_wire] in Hw. rewrite !andb_true_iff in Hw. destruct Hw as [_ Hl]. unfold len in Hl. cbn [length] in *. apply Z.leb_le in Hl. lia.
Qed.

Lemma length_loop_spec parts acc : bytes_ok parts -> 0 <= acc -> (acc + 1) * 256 ^ len parts <= 2 ^ 40 ->
  length_loop parts acc = Ok (acc * 256 ^ len parts + be_decode parts).
Proof.
  revert acc. induction parts as [|b bs IH]; intros acc Hb Ha Hs; [cbn [length_loop]; change (len []) with 0; change (be_decode []) with 0; f_equal; lia|].
  apply bytes_ok_cons in Hb as [Hb Hbs]. cbn [length_loop]. rewrite len_cons, Z.pow_add_r in Hs |- * by len_lia. change (256 ^ 1) with 256 in *.
  pose proof (Z.pow_pos_nonneg 256 (len bs) ltac:(lia) ltac:(len_lia)) as Hp. rewrite lor_shiftl_8 by done. unfold in_range in Hb.
  assert (Hacc : acc < 2 ^ 40) by nia. unfold math_MaxInt. replace ((2 ^ 63 - 1 - b) / 256 <? acc) with false.
  2: { symmetry. apply Z.ltb_ge. apply Z.div_le_lower_bound; lia. }
  rewrite IH by (try done; nia). rewrite be_decode_cons. f_equal. lia.
Qed.
Lemma readLength_long n parts rest : 1 <= n <= 4 -> bytes_ok parts -> len parts = n -> readLength (Z.lor 0x80 n :: parts ++ rest) = Ok (be_decode parts, rest).
Proof.
  intros Hn Hok Hl. assert (Hcases : n = 1 \/ n = 2 \/ n = 3 \/ n = 4) by lia. cbn [readLength].
  assert ((Z.land (Z.lor 0x80 n) 0x80 =? 0) = false /\ Z.land (Z.lor 0x80 n) 0x7f = n) as [-> ->] by (destruct Hcases as [-> | [-> | [-> | ->]]]; done).
  cbv iota zeta. replace (n =? 0) with false by lia. replace (4 <? n) with false by lia. replace (len (parts ++ rest) <? n) with false by len_lia.
  rewrite (slice_eq _ [] parts rest) by (done || (rewrite len_nil; lia)). cbn [bind].
  assert (Hp : 256 ^ len parts <= 256 ^ 4) by (apply Z.pow_le_mono_r; lia). rewrite length_loop_spec by (try done; lia). cbn [bind].
  rewrite (slice_from_eq _ parts rest) by done. by rewrite Z.mul_0_l.
Qed.
Lemma encodeLength_read n lb rest : 0 <= n -> encodeLength n = Ok lb -> readLength (lb ++ rest) = Ok (n, rest).
Proof.
  intros Hn. unfold encodeLength. replace (n <? 0) with false by lia. rewrite !Z.shiftr_div_pow2 by lia.
  repeat (match goal with |- context [if ?b then _ else _] => destruct b eqn:? end); intros [= <-].
  - cbn [app readLength]. unfold to_u8. rewrite Z.mod_small by lia. replace (Z.land n 0x80 =? 0) with true; [done|]. symmetry.
    change 0x80 with (2 ^ 7). rewrite land_pow2_eqb by lia. rewrite (testbit_small n 7 7) by lia. done.
  - etrans; [apply (readLength_long 1 [to_u8 n]); [lia|eauto 8 with gobytes|done]|].
    f_equal; f_equal. unfold be_decode, to_u8. cbn [fold_left]. Z.div_mod_to_equations. lia.
  - etrans; [apply (readLength_long 2 [to_u8 (n / 2 ^ 8); to_u8 n]); [lia|eauto 8 with gobytes|done]|].
    f_equal; f_equal. unfold be_decode, to_u8. cbn [fold_left]. Z.div_mod_to_equations. lia.
  - etrans; [apply (readLength_long 3 [to_u8 (n / 2 ^ 16); to_u8 (n / 2 ^ 8); to_u8 n]); [lia|eauto 8 with gobytes|done]|].
    f_equal; f_equal. unfold be_decode, to_u8. cbn [fold_left]. Z.div_mod_to_equations. lia.
  - etrans; [apply (readLength_long 4 [to_u8 (n / 2 ^ 24); to_u8 (n / 2 ^ 16); to_u8 (n / 2 ^ 8); to_u8 n]); [lia|eauto 8 with gobytes|done]|].
    f_equal; f_equal. unfold be_decode, to_u8. cbn [fold_left]. Z.div_mod_to_equations. lia.
Qed.
Lemma encodeLength_ok n : 0 <= n <= 0xffffffff -> exists lb, encodeLength n = Ok lb /\ 1 <= len lb.
Proof.
  intros Hn. unfold encodeLength. replace (n <? 0) with false by lia.
  repeat (match goal with |- context [if ?b then _ else _] => destruct b eqn:? end); try (eexists; split; [reflexivity|len_lia]). lia.
Qed.

(** ** Lists of objects *)
Definition padding (pad : bytes) : Prop := Forall (fun b => b = 0x00 \/ b = 0xff) pad.
Definition value_fits (value : bytes) : Prop := len value <= 0xffffffff.
(** The octets of an object. *)
Definition encoding (tag : Z) (value : bytes) : bytes := match EncodeTLV tag value with Ok b => b | _ => [] end.
Lemma EncodeTLV_wire bs value : bytes_ok bs -> tag_wire bs = true -> value_fits value ->
  exists lb, encodeLength (len value) = Ok lb /\ 1 <= len lb /\ EncodeTLV (be_decode bs) value = Ok (bs ++ lb ++ value).
Proof.
  intros Hok Hw Hf. destruct (encodeLength_ok (len value)) as (lb & Hl & Hlb); [pose proof (len_nonneg value); done|].
  exists lb. split; [done|]. split; [done|]. unfold EncodeTLV. by rewrite encodeTag_wire, Hl.
Qed.
Lemma encoding_ok tag value : tag_ok tag -> value_fits value -> EncodeTLV tag value = Ok (encoding tag value) /\ len value + 2 <= len (encoding tag value).
Proof.
  intros (bs & Hok & Hw & ->) Hf. unfold encoding. destruct (EncodeTLV_wire bs value Hok Hw Hf) as (lb & _ & Hlb & ->). split; [done|].
  destruct (tag_wire_head bs Hw) as (b & bs' & -> & _). len_lia.
Qed.
Lemma trim_padding pad data : padding pad -> trimTLVPadding (pad ++ data) = trimTLVPadding data.
Proof. induction 1 as [|b pad Hb Hpad IH]; [done|]. cbn [app trimTLVPadding]. by destruct Hb as [-> | ->]. Qed.
Lemma trim_wire bs rest : tag_wire bs = true -> trimTLVPadding (bs ++ rest) = bs ++ rest.
Proof.
  intros Hw. destruct (tag_wire_head bs Hw) as (b & bs' & -> & H0 & Hff). cbn [app trimTLVPadding].
  by replace ((b =? 0x00) || (b =? 0xff)) with false by lia.
Qed.
Lemma parse_loop_padding fuel pad out : padding pad -> pad <> [] -> parse_tlv_loop (S fuel) pad out = Ok out.
Proof.
  intros Hp Hne. rewrite <- (app_nil_r pad). pose proof (trim_padding pad [] Hp) as Ht. destruct pad as [|b pad]; [done|]. cbn [app parse_tlv_loop] in *. by rewrite Ht.
Qed.
Lemma parse_loop_step fuel pad tag value rest out : padding pad -> tag_ok tag -> value_fits value ->
  parse_tlv_loop (S fuel) (pad ++ encoding tag value ++ rest) out = parse_tlv_loop fuel rest (out ++ [mkTLV tag value]).
Proof.
  intros Hp (bs & Hok & Hw & ->) Hf. destruct (EncodeTLV_wire bs value Hok Hw Hf) as (lb & Hl & Hlb & He). unfold encoding. rewrite He.
  rewrite <- (app_assoc bs), <- (app_assoc lb). set (body := bs ++ lb ++ value ++ rest).
  assert (Ht : trimTLVPadding (pad ++ body) = body) by (rewrite trim_padding by done; by apply trim_wire).
  destruct (pad ++ body) as [|x data] eqn:Ed.
  { exfalso. destruct (tag_wire_head bs Hw) as (b & bs' & -> & _). by destruct pad. }
  cbn [parse_tlv_loop]. rewrite Ht. destruct body as [|y body'] eqn:Eb; [destruct (tag_wire_head bs Hw) as (b & bs' & E & _); subst; done|].
  rewrite <- Eb. subst body. rewrite readTag_wire by done. cbn [bind]. rewrite (encodeLength_read (len value) lb) by (done || apply len_nonneg). cbn [bind].
  replace (len (value ++ rest) <? len value) with false by len_lia.
  rewrite (slice_eq _ [] value rest) by (done || (rewrite len_nil; lia)). cbn [bind]. by rewrite (slice_from_eq _ value rest).
Qed.
Lemma parse_loop_spec fuel (l : list (bytes * TLV)) tail out :
  Forall (fun p => padding p.1 /\ tag_ok (tlv_Tag p.2) /\ value_fits (tlv_Value p.2)) l -> padding tail ->
  (length (concat ((fun p => p.1 ++ encoding (tlv_Tag p.2) (tlv_Value p.2)) <$> l) ++ tail) <= fuel)%nat ->
  parse_tlv_loop fuel (concat ((fun p => p.1 ++ encoding (tlv_Tag p.2) (tlv_Value p.2)) <$> l) ++ tail) out = Ok (out ++ (snd <$> l)).
Proof.
  intros Hl Htail. revert fuel out. induction Hl as [|[pad [tag value]] l (Hpad & Htag & Hfit) Hl IH]; intros fuel out Hf.
  - cbn [fmap list_fmap concat app] in *. rewrite app_nil_r. destruct tail as [|b tail]; [by destruct fuel|]. destruct fuel as [|fuel]; [cbn in Hf; lia|].
    by apply parse_loop_padding.
  - rewrite fmap_cons in *. cbn [concat fst snd tlv_Tag tlv_Value] in *. destruct (encoding_ok tag value Htag Hfit) as [_ Hlen].
    rewrite <- !app_assoc in *. rewrite !length_app in Hf. pose proof (len_nonneg value). unfold len in Hlen, H. destruct fuel as [|fuel]; [lia|].
    rewrite parse_loop_step by done. rewrite IH by (rewrite length_app; lia). by rewrite <- app_assoc.
Qed.

(** The objects of a list come back, whatever filler octets lie before, between
    and behind them. *)
Theorem tlv_list_roundtrip (l : list (bytes * TLV)) (tail : bytes) :
  Forall (fun p => padding p.1 /\ tag_ok (tlv_Tag p.2) /\ value_fits (tlv_Value p.2)) l -> padding tail ->
  Forall (fun p => EncodeTLV (tlv_Tag p.2) (tlv_Value p.2) = Ok (encoding (tlv_Tag p.2) (tlv_Value p.2))) l /\
  ParseTLVList (concat ((fun p => p.1 ++ encoding (tlv_Tag p.2) (tlv_Value p.2)) <$> l) ++ tail) = Ok (snd <$> l).
Proof.
  intros Hl Htail. split.
  - eapply Forall_impl; [exact Hl|]. intros p (_ & Htag & Hfit). by apply encoding_ok.
  - unfold ParseTLVList. by rewrite parse_loop_spec.
Qed.

(** ** Trees of objects *)
#[local] Set Warnings "-register-all".
Inductive object :=
| Primitive (tag : Z) (value : bytes)
| Constructed (tag : Z) (contents : list object).
Definition object_tag (o : object) : Z := match o with Primitive t _ | Constructed t _ => t end.
Fixpoint object_value (o : object) : bytes :=
  match o with
  | Primitive _ v => v
  | Constructed _ os => concat (map (fun o => encoding (object_tag o) (object_value o)) os)
  end.
Definition encode_objects (os : list object) : bytes := concat (map (fun o => encoding (object_tag o) (object_value o)) os).
Fixpoint object_ok (o : object) : Prop :=
  tag_ok (object_tag o) /\ value_fits (object_value o) /\
  match o with
  | Primitive t _ => isConstructed t = false
  | Constructed t os => isConstructed t = true /\ foldr and True (map object_ok os)
  end.
(** The first object with the tag, each one before its contents, and those before what follows. *)
Definition first_some {A B} (f : A -> option B) : list A -> option B :=
  fix go l := match l with [] => None | x :: l' => match f x with Some y => Some y | None => go l' end end.
Fixpoint find_object (tag : Z) (o : object) : option bytes :=
  if object_tag o =? tag then Some (object_value o) else
  match o with Primitive _ _ => None | Constructed _ os => first_some (find_object tag) os end.

Definition object_tlv (o : object) : TLV := mkTLV (object_tag o) (object_value o).
Lemma parse_objects os : Forall object_ok os -> ParseTLVList (encode_objects os) = Ok (object_tlv <$> os).
Proof.
  intros Hos. unfold ParseTLVList, encode_objects.
  pose proof (parse_loop_spec (length (encode_objects os)) ((fun o => ([], object_tlv o)) <$> os) [] []) as H.
  assert (Hc : concat ((fun p => p.1 ++ encoding (tlv_Tag p.2) (tlv_Value p.2)) <$> ((fun o => ([], object_tlv o)) <$> os)) = encode_objects os).
  { clear. unfold encode_objects. f_equal. rewrite <- list_fmap_compose. done. }
  rewrite Hc, app_nil_r, <- list_fmap_compose in H. apply H; [|constructor|done].
  apply Forall_fmap. eapply Forall_impl; [exact Hos|]. intros o Ho. cbn. split; [constructor|]. destruct o; cbn in Ho |- *; tauto.
Qed.
Lemma objects_ok_forall os : foldr and True (map object_ok os) <-> Forall object_ok os.
Proof. induction os as [|o os IH]; [by split; [constructor|]|]. cbn. rewrite IH, Forall_cons. done. Qed.
Lemma object_value_shorter o os : o ∈ os -> Forall object_ok os -> (length (object_value o) < length (encode_objects os))%nat.
Proof.
  intros Hin Hos. induction Hos as [|o' os Ho Hos IH]; [by apply not_elem_of_nil in Hin|]. unfold encode_objects in *. cbn [map concat]. rewrite length_app.
  apply elem_of_cons in Hin as [->|Hin]; [|specialize (IH Hin); lia]. assert (Ho' : tag_ok (object_tag o') /\ value_fits (object_value o')) by (destruct o'; cbn in Ho |- *; tauto).
  destruct (encoding_ok _ _ (proj1 Ho') (proj2 Ho')) as [_ Hl]. unfold len in Hl. lia.
Qed.
Lemma find_items_spec find os tag : Forall object_ok os ->
  (forall t cs, Constructed t cs ∈ os -> find (encode_objects cs) tag = Ok (first_some (find_object tag) cs)) ->
  find_items find (object_tlv <$> os) tag = Ok (first_some (find_object tag) os).
Proof.
  intros Hos Hfind. induction Hos as [|o os Ho Hos IH]; [done|]. rewrite fmap_cons. cbn [find_items object_tlv tlv_Tag tlv_Value].
  assert (IH' : find_items find (object_tlv <$> os) tag = Ok (first_some (find_object tag) os)) by (apply IH; intros t cs Hin; apply (Hfind t cs); by right).
  unfold first_some at 1. fold (first_some (find_object tag) os). destruct o as [t v|t cs]; cbn [find_object object_tag object_value]; destruct (t =? tag); try done.
  - cbn in Ho. destruct Ho as (_ & _ & ->). exact IH'.
  - cbn in Ho. destruct Ho as (_ & _ & -> & _). change (concat (map _ cs)) with (encode_objects cs). rewrite (Hfind t cs) by by left. cbn [bind].
    by destruct (first_some (find_object tag) cs).
Qed.
Lemma find_tlv_spec fuel os tag : Forall object_ok os -> (length (encode_objects os) < fuel)%nat ->
  find_tlv fuel (encode_objects os) tag = Ok (first_some (find_object tag) os).
Proof.
  revert os. induction fuel as [|fuel IH]; intros os Hos Hf; [lia|]. cbn [find_tlv]. rewrite parse_objects by done. apply find_items_spec; [done|].
  intros t cs Hin. apply IH.
  - eapply Forall_forall in Hos; [|exact Hin]. destruct Hos as (_ & _ & _ & Hcs). by apply objects_ok_forall.
  - pose proof (object_value_shorter _ _ Hin Hos) as Hs. change (object_value (Constructed t cs)) with (encode_objects cs) in Hs. lia.
Qed.

(** A search is the search of the tree in the order of the card: [FindTLV]
    gives the value of the first object with the tag, where an object comes before
    its contents and these before the objects behind it, and nothing when there is
    none; the nesting may be as deep as the data is long. *)
Theorem FindTLV_preorder (os : list object) (tag : Z) : Forall object_ok os ->
  FindTLV (encode_objects os) tag = Ok (first_some (find_object tag) os).
Proof. intros Hos. apply find_tlv_spec; [done|lia]. Qed.
Definition sample_fcp : list object :=
  [Constructed 0x62 [Primitive 0x82 [0x42; 0x21; 0x00; 0x1c; 0x05]; Constructed 0xa5 [Primitive 0x5f20 [98; 111; 97]; Primitive 0x80 [0x71]];
                     Primitive 0x80 [0x01; 0x2c]]].
Lemma sample_fcp_ok : Forall object_ok sample_fcp.
Proof.
  assert (Hone : forall b, is_u8 b -> tag_wire [b] = true -> tag_ok b).
  { intros b Hb Hw. exists [b]. split; [by repeat constructor; apply Hb|]. split; [done|]. unfold be_decode. cbn [fold_left]. lia. }
  assert (Htwo : tag_ok 0x5f20) by (exists [0x5f; 0x20]; by_decide).
  repeat constructor; try done; try (apply Hone; done).
Qed.
Lemma FindTLV_preorder_witness :
  Forall object_ok sample_fcp /\ FindTLV (encode_objects sample_fcp) 0x5f20 = Ok (Some [98; 111; 97]) /\ FindTLV (encode_objects sample_fcp) 0x80 = Ok (Some [0x71]) /\
  FindTLV (encode_objects sample_fcp) 0x81 = Ok None.
Proof.
  split; [exact sample_fcp_ok|]. split; [exact (FindTLV_preorder sample_fcp 0x5f20 sample_fcp_ok)|].
  split; [exact (FindTLV_preorder sample_fcp 0x80 sample_fcp_ok)|exact (FindTLV_preorder sample_fcp 0x81 sample_fcp_ok)].
Defined.

(** ** Every answer of a card is read or refused *)
Lemma trim_suffix data : exists pad, data = pad ++ trimTLVPadding data.
Proof. induction data as [|b data [pad IH]]; [by exists []|]. cbn [trimTLVPadding]. destruct (_ || _); [|by exists []]. exists (b :: pad). cbn [app]. by rewrite <- IH. Qed.
Lemma trim_ok data : bytes_ok data -> bytes_ok (trimTLVPadding data).
Proof. destruct (trim_suffix data) as [pad E]. intros H. rewrite E in H. by apply bytes_ok_app in H as [_ ?]. Qed.
Lemma trim_length data : (length (trimTLVPadding data) <= length data)%nat.
Proof. destruct (trim_suffix data) as [pad E]. rewrite E at 2. rewrite length_app. lia. Qed.
Lemma tag_loop_safe data tag : bytes_ok data -> safe (tag_loop data tag) (fun r => bytes_ok r.2 /\ (length r.2 <= length data)%nat).
Proof.
  revert tag. induction data as [|b data IH]; intros tag Hok; [done|]. apply bytes_ok_cons in Hok as [_ Hok]. cbn [tag_loop].
  destruct (_ =? 0); [cbn; split; [done|lia]|]. eapply safe_mono; [by apply IH|]. cbn. intros r [? ?]. split; [done|lia].
Qed.
Lemma readTag_safe data : bytes_ok data -> safe (readTag data) (fun r => bytes_ok r.2 /\ (length r.2 < length data)%nat).
Proof.
  destruct data as [|b data]; [done|]. intros [_ Hok]%bytes_ok_cons. cbn [readTag]. destruct (_ =? _); [|cbn; split; [done|lia]].
  eapply safe_mono; [by apply tag_loop_safe|]. cbn. intros r [? ?]. split; [done|lia].
Qed.
Lemma length_loop_safe parts acc : bytes_ok parts -> 0 <= acc -> safe (length_loop parts acc) (fun n => 0 <= n).
Proof.
  revert acc. induction parts as [|b parts IH]; intros acc Hok Ha; [done|]. apply bytes_ok_cons in Hok as [Hb Hok]. cbn [length_loop].
  destruct (_ <? _); [done|]. apply IH; [done|]. rewrite lor_shiftl_8 by done. unfold in_range in Hb. lia.
Qed.
Lemma readLength_safe data : bytes_ok data -> safe (readLength data) (fun r => 0 <= r.1 /\ bytes_ok r.2 /\ (length r.2 < length data)%nat).
Proof.
  destruct data as [|b data]; [done|]. intros [Hb Hok]%bytes_ok_cons. cbn [readLength]. destruct (_ =? 0); [cbn; split; [by apply Hb|split; [done|lia]]|]. cbv zeta.
  destruct (Z.land b 0x7f =? 0); [done|]. destruct (4 <? Z.land b 0x7f); [done|]. destruct (len data <? Z.land b 0x7f) eqn:Hl; [done|].
  assert (0 <= Z.land b 0x7f) by (apply Z.land_nonneg; right; lia). eapply safe_call; [apply (safe_slice_ok _ _ _ (fun p => bytes_ok p)); [done|lia|lia|done]|].
  intros parts Hp. eapply safe_call; [by apply length_loop_safe|]. intros n Hn. eapply safe_call; [apply (safe_slice_from _ _ (fun p => bytes_ok p /\ len p <= len data)); [done|lia|intros ? _ ? ?; split; [done|lia]]|].
  intros rest [Hr Hlr]. cbn. split; [done|]. split; [done|]. unfold len in Hlr. lia.
Qed.
Lemma parse_loop_safe fuel data out m : bytes_ok data -> (length data <= fuel)%nat -> (length data <= m)%nat ->
  Forall (fun t => bytes_ok (tlv_Value t) /\ (length (tlv_Value t) < m)%nat) out ->
  safe (parse_tlv_loop fuel data out) (Forall (fun t => bytes_ok (tlv_Value t) /\ (length (tlv_Value t) < m)%nat)).
Proof.
  revert data out. induction fuel as [|fuel IH]; intros data out Hok Hf Hm Hout; (destruct data as [|b data]; [done|]); [cbn in Hf; lia|].
  cbn [parse_tlv_loop]. pose proof (trim_ok _ Hok) as Htok. pose proof (trim_length (b :: data)) as Htl. destruct (trimTLVPadding (b :: data)) as [|x d]; [done|].
  eapply safe_call; [by apply readTag_safe|]. intros [tag rest] [Hr1 Hl1]. cbn [fst snd] in *. eapply safe_call; [by apply readLength_safe|].
  intros [n rest2] (Hn & Hr2 & Hl2). cbn [fst snd] in *. destruct (len rest2 <? n) eqn:Hl; [done|].
  eapply safe_call; [apply (safe_slice_ok _ _ _ (fun p => bytes_ok p /\ len p = n)); [done|lia|lia|intros ? _ ? ?; split; [done|lia]]|]. intros value [Hv Hvl].
  eapply safe_call; [apply (safe_slice_from _ _ (fun p => bytes_ok p /\ len p <= len rest2)); [done|lia|intros ? _ ? ?; split; [done|lia]]|]. intros rest3 [Hr3 Hl3].
  unfold len in *. cbn [length] in *. apply IH; [done|lia|lia|]. apply Forall_snoc_2; [done|]. split; [done|]. cbn. lia.
Qed.
Lemma ParseTLVList_safe data : bytes_ok data ->
  safe (ParseTLVList data) (Forall (fun t => bytes_ok (tlv_Value t) /\ (length (tlv_Value t) < length data)%nat)).
Proof. intros Hok. by apply parse_loop_safe. Qed.
Lemma find_items_safe find items tag m : Forall (fun t => bytes_ok (tlv_Value t) /\ (length (tlv_Value t) < m)%nat) items ->
  (forall v, bytes_ok v -> (length v < m)%nat -> safe (find v tag) (fun r => match r with Some w => bytes_ok w | None => True end)) ->
  safe (find_items find items tag) (fun r => match r with Some w => bytes_ok w | None => True end).
Proof.
  intros Hi Hfind. induction Hi as [|t items [Ht Hl] Hi IH]; [done|]. cbn [find_items]. destruct (_ =? tag); [done|]. destruct (isConstructed _); [|done].
  eapply safe_call; [by apply Hfind|]. intros [w|] Hw; [done|exact IH].
Qed.
Lemma FindTLV_safe data tag : bytes_ok data -> safe (FindTLV data tag) (fun r => match r with Some w => bytes_ok w | None => True end).
Proof.
  unfold FindTLV. assert (H : forall fuel data, bytes_ok data -> (length data < fuel)%nat -> safe (find_tlv fuel data tag) (fun r => match r with Some w => bytes_ok w | None => True end)); [|intros; apply H; [done|lia]].
  clear data. induction fuel as [|fuel IH]; intros data Hok Hf; [lia|]. cbn [find_tlv]. pose proof (ParseTLVList_safe data Hok) as Hp.
  destruct (ParseTLVList data) as [items|e| |]; try done. cbn in Hp. apply (find_items_safe _ _ _ (length data)); [done|]. intros v Hv Hl. apply IH; [done|lia].
Qed.
Lemma fcp_body_safe fcp : bytes_ok fcp -> safe (fcp_body fcp) bytes_ok.
Proof. intros Hok. unfold fcp_body. eapply safe_call; [by apply FindTLV_safe|]. by intros [v|] Hv. Qed.
Lemma FileSizeFromFCP_returns fcp : bytes_ok fcp -> returns (FileSizeFromFCP fcp).
Proof.
  intros Hok. unfold FileSizeFromFCP. eapply safe_call; [by apply fcp_body_safe|]. intros body Hb. eapply safe_call; [by apply FindTLV_safe|].
  intros [v|] _; [done|]. eapply safe_call; [by apply FindTLV_safe|]. by intros [v|] _.
Qed.
Lemma RecordInfoFromFCP_safe fcp : bytes_ok fcp -> safe (RecordInfoFromFCP fcp) (fun r => 0 <= r.1 <= 0xffff /\ 0 <= r.2 <= 0xff).
Proof.
  intros Hok. unfold RecordInfoFromFCP. eapply safe_call; [by apply fcp_body_safe|]. intros body Hb. eapply safe_call; [by apply FindTLV_safe|].
  intros [v|] Hv; [|cbn; lia]. destruct (5 <=? len v) eqn:Hl; [|cbn; lia].
  apply safe_bind, safe_at; [done|lia|]. intros hi Hhi _. apply safe_bind, safe_at; [done|lia|]. intros lo Hlo _. apply safe_bind, safe_at; [done|lia|]. intros c Hc _.
  cbn. rewrite lor_shiftl_8 by done. unfold in_range in *. lia.
Qed.
