(* ===== verification/Apdu.v ===== *)
(** * APDUs (runtimehost/simauth/apdu.go)

    Commands to a SIM card over a logical channel.  The transport is a parameter:
    it carries hexadecimal text, its calls may fail, and each may change the
    state of the card; code that uses it runs in the monad [act] of that state.
    [Transmit] hides the two-step answers of T=0 (a corrected length, GET
    RESPONSE); the elementary files are read and written through it.  A call
    that returns a [Response] next to an error is modelled by the error, which
    is the response's status or that of a transport that gave none. *)
From S2P Require Import Prelude GoStrings Errors Utf8 Hex Tlv.
#[local] Open Scope string_scope.
#[local] Open Scope list_scope.
#[local] Open Scope Z_scope.

(** ** Actions on the card *)
Definition act (C A : Type) : Type := C -> C * result A.
Definition aret {C A} (a : A) : act C A := fun c => (c, Ok a).
Definition alift {C A} (r : result A) : act C A := fun c => (c, r).
Definition afail {C A} (e : error) : act C A := fun c => (c, Err e).
Definition abind {C A B} (m : act C A) (k : A -> act C B) : act C B :=
  fun c => let '(c', r) := m c in
    match r with Ok a => k a c' | Err e => (c', Err e) | Panic => (c', Panic) | OutOfFuel => (c', OutOfFuel) end.
(** A call whose error the code looks at. *)
Definition atry {C A} (m : act C A) : act C (A + error) :=
  fun c => let '(c', r) := m c in
    match r with Ok a => (c', Ok (inl a)) | Err e => (c', Ok (inr e)) | Panic => (c', Panic) | OutOfFuel => (c', OutOfFuel) end.
Declare Scope act_scope.
Notation "'let&' x ':=' m 'in' k" := (abind m (fun x => k))
  (at level 10, x binder, m at level 200, k at level 200) : act_scope.
#[local] Open Scope act_scope.

(** The interface of the code, and its optional resolver of identifiers. *)
Class LogicalChannelTransport (C : Type) := {
  OpenLogicalChannel : bytes -> act C Z;
  CloseLogicalChannel : Z -> act C unit;
  TransmitAPDU : Z -> bytes -> act C bytes;
  ResolveLogicalChannelAID : option (bytes -> bytes -> act C (bytes * bytes))
}.

Record Response := mkResponse { rs_Body : bytes; rs_SW1 : Z; rs_SW2 : Z }.
Definition Success (r : Response) : bool := (rs_SW1 r =? 0x90) && (rs_SW2 r =? 0x00).
Definition Response_Status (r : Response) : Z := Z.lor (Z.shiftl (rs_SW1 r) 8) (rs_SW2 r).
Definition newStatusError (r : Response) : error := StatusError (rs_SW1 r) (rs_SW2 r).

Definition compactHex (s : bytes) : bytes :=
  string_of (filter (fun r => negb (bool_decide (r ∈ [32; 9; 10; 13; 12; 11]))) (runes (TrimSpace s))).
Definition ParseAPDUResponseHex (hexResponse : bytes) : result Response :=
  match hex_DecodeString (compactHex hexResponse) with
  | None => Err (ErrText "decode APDU response")
  | Some raw =>
      if len raw <? 2 then Err (ErrText "APDU response too short") else
      let! body := slice raw 0 (len raw - 2) in
      let! sw1 := at_ raw (len raw - 2) in
      let! sw2 := at_ raw (len raw - 1) in
      Ok (mkResponse body sw1 sw2)
  end.

(** ** Commands *)
Definition SelectFileAPDU (fid : Z) : bytes := [0x00; 0xa4; 0x00; 0x04; 0x02; to_u8 (Z.shiftr fid 8); to_u8 fid].
Definition apdu_le_octet (le : Z) : Z :=
  let le := if (le <=? 0) || (256 <? le) then 256 else le in
  if le =? 256 then 0x00 else to_u8 le.
Definition ReadBinaryAPDU (offset le : Z) : bytes := [0x00; 0xb0; to_u8 (Z.shiftr offset 8); to_u8 offset; apdu_le_octet le].
Definition ReadRecordAPDU (record le : Z) : bytes := [0x00; 0xb2; to_u8 record; 0x04; apdu_le_octet le].
Definition validateShortAPDUData (data : bytes) : result unit :=
  if len data =? 0 then Err (ErrText "data is empty") else
  if 0xff <? len data then Err (ErrText "data too long for short APDU Lc") else
  Ok tt.
Definition UpdateBinaryAPDU (offset : Z) (data : bytes) : result bytes :=
  if (offset <? 0) || (0xffff <? offset) then Err (ErrText "invalid UPDATE BINARY offset") else
  let! _ := validateShortAPDUData data in
  Ok ([0x00; 0xd6; to_u8 (Z.shiftr offset 8); to_u8 offset; to_u8 (len data)] ++ data).
Definition UpdateRecordAPDU (record : Z) (data : bytes) : result bytes :=
  if (record <=? 0) || (0xff <? record) then Err (ErrText "invalid UPDATE RECORD number") else
  let! _ := validateShortAPDUData data in
  Ok ([0x00; 0xdc; to_u8 record; 0x04; to_u8 (len data)] ++ data).

(** ** The expected length of an answer *)
Definition apduLeFromSW2 (sw2 : Z) : Z := if sw2 =? 0 then 256 else sw2.
Definition apduLeByte (le : Z) : result Z :=
  if (le <? 1) || (256 <? le) then Err (ErrText "invalid APDU Le") else
  if le =? 256 then Ok 0x00 else Ok (to_u8 le).
Definition apduExtendedLeBytes (le : Z) : result (Z * Z) :=
  if (le <? 1) || (65536 <? le) then Err (ErrText "invalid extended APDU Le") else
  if le =? 65536 then Ok (0, 0) else Ok (to_u8 (Z.shiftr le 8), to_u8 le).
(** [out[i] = v] *)
Definition set_octet (out : bytes) (i v : Z) : result bytes :=
  if (0 <=? i) && (i <? len out) then Ok (<[Z.to_nat i := v]> out) else Panic.
Definition correct_extended_le (out : bytes) (le : Z) : result bytes :=
  let! r := apduExtendedLeBytes le in
  let '(leHi, leLo) := r in
  if len out =? 7 then
    let! out := set_octet out 5 leHi in set_octet out 6 leLo
  else if len out <? 7 then Err (ErrText "invalid extended APDU length for Le correction") else
  let! hi := at_ out 5 in
  let! lo := at_ out 6 in
  let lc := Z.lor (Z.shiftl hi 8) lo in
  if lc <=? 0 then Err (ErrText "invalid extended APDU Lc for Le correction") else
  if len out =? 7 + lc then Ok (out ++ [leHi; leLo])
  else if len out =? 9 + lc then
    let! out := set_octet out (len out - 2) leHi in set_octet out (len out - 1) leLo
  else Err (ErrText "invalid extended APDU length for Le correction").
Definition correctAPDULe (apdu : bytes) (le : Z) : result bytes :=
  let! leByte := apduLeByte le in
  let out := apdu in
  if len out <? 4 then Err (ErrText "APDU too short for Le correction") else
  if len out =? 4 then Ok (out ++ [leByte]) else
  if len out =? 5 then set_octet out (len out - 1) leByte else
  let! lc := at_ out 4 in
  if lc =? 0 then correct_extended_le out le else
  if len out =? 5 + lc then Ok (out ++ [leByte])
  else if len out =? 6 + lc then set_octet out (len out - 1) leByte
  else Err (ErrText "invalid short APDU length for Le correction").

Definition maxGetResponseAPDUs : nat := 4.
Definition requestsGetResponse (sw1 : Z) : bool := (sw1 =? 0x61) || (sw1 =? 0x9f).
Definition commandCLA (cmd : bytes) : Z := match cmd with [] => 0x00 | cla :: _ => cla end.

Section card.
Context {U : UnicodeCase} {C : Type} {T : LogicalChannelTransport C}.

Definition transmitOnce (channel : Z) (cmd : bytes) : act C Response :=
  let& out := TransmitAPDU channel (strings_ToUpper (hex_EncodeToString cmd)) in
  alift (ParseAPDUResponseHex out).
(** [for count := 0; requestsGetResponse(resp.SW1) && count < maxGetResponseAPDUs]; [n] turns are left. *)
Fixpoint chase_loop (n : nat) (channel cla : Z) (resp : Response) (body : bytes) : act C Response :=
  match n with
  | O => aret (mkResponse body (rs_SW1 resp) (rs_SW2 resp))
  | S n' =>
      if requestsGetResponse (rs_SW1 resp) then
        let& leByte := alift (apduLeByte (apduLeFromSW2 (rs_SW2 resp))) in
        let& getResp := transmitOnce channel [cla; 0xc0; 0x00; 0x00; leByte] in
        chase_loop n' channel cla getResp (body ++ rs_Body getResp)
      else aret (mkResponse body (rs_SW1 resp) (rs_SW2 resp))
  end.
Definition chaseGetResponse (channel cla : Z) (resp : Response) : act C Response :=
  if negb (requestsGetResponse (rs_SW1 resp)) then aret resp else
  chase_loop maxGetResponseAPDUs channel cla resp (rs_Body resp).
Definition Transmit (channel : Z) (cmd : bytes) : act C Response :=
  let& resp := transmitOnce channel cmd in
  let& resp :=
    if rs_SW1 resp =? 0x6c then
      let& retry := alift (correctAPDULe cmd (apduLeFromSW2 (rs_SW2 resp))) in
      transmitOnce channel retry
    else aret resp in
  chaseGetResponse channel (commandCLA cmd) resp.

(** ** Elementary files *)
Definition SelectFile (channel fid : Z) : act C Response :=
  let& resp := Transmit channel (SelectFileAPDU fid) in
  if negb (Success resp) then afail (newStatusError resp) else aret resp.
(** [for offset := 0; offset < size]; each turn reads an octet at least, so
    [size] turns are enough. *)
Fixpoint read_binary_loop (fuel : nat) (channel size offset : Z) (out : bytes) : act C bytes :=
  if size <=? offset then aret out else
  match fuel with
  | O => alift OutOfFuel
  | S fuel' =>
      let chunk := size - offset in
      let chunk := if 256 <? chunk then 256 else chunk in
      let& resp := Transmit channel (ReadBinaryAPDU offset chunk) in
      if negb (Success resp) then afail (newStatusError resp) else
      let out := out ++ rs_Body resp in
      if (len (rs_Body resp) =? 0) || ((size =? 256) && (len (rs_Body resp) <? chunk)) then aret out else
      read_binary_loop fuel' channel size (offset + len (rs_Body resp)) out
  end.
Definition ReadTransparentEF (channel fid : Z) : act C (bytes * Response) :=
  let& selectResp := SelectFile channel fid in
  let& size := alift (FileSizeFromFCP (rs_Body selectResp)) in
  let size := if size <=? 0 then 256 else size in
  let& out := read_binary_loop (Z.to_nat size) channel size 0 [] in
  aret (out, selectResp).
Definition isRecordNotFound (sw1 sw2 : Z) : bool :=
  ((sw1 =? 0x6a) && ((sw2 =? 0x82) || (sw2 =? 0x83))) || ((sw2 =? 0x6a) && ((sw1 =? 0x82) || (sw1 =? 0x83))).
(** [for rec := 1; rec <= maxRecords; rec++]; [n] records are left. *)
Fixpoint read_record_loop (n : nat) (channel rec recordLen : Z) (records : list bytes) : act C (list bytes) :=
  match n with
  | O => aret records
  | S n' =>
      let& resp := Transmit channel (ReadRecordAPDU rec recordLen) in
      if isRecordNotFound (rs_SW1 resp) (rs_SW2 resp) then aret records else
      if negb (Success resp) then afail (newStatusError resp) else
      read_record_loop n' channel (rec + 1) recordLen (records ++ [rs_Body resp])
  end.
Definition ReadLinearFixedEF (channel fid maxRecords : Z) : act C (list bytes * Response) :=
  let& selectResp := SelectFile channel fid in
  let maxRecords := if maxRecords <=? 0 then 16 else maxRecords in
  let& info := alift (RecordInfoFromFCP (rs_Body selectResp)) in
  let '(recordLen, recordCount) := info in
  let maxRecords := if (0 <? recordCount) && (recordCount <? maxRecords) then recordCount else maxRecords in
  let recordLen := if recordLen <=? 0 then 256 else recordLen in
  let& records := read_record_loop (Z.to_nat maxRecords) channel 1 recordLen [] in
  aret (records, selectResp).
Definition WriteTransparentEF (channel fid : Z) (data : bytes) : act C Response :=
  let& apdu := alift (UpdateBinaryAPDU 0 data) in
  let& _ := SelectFile channel fid in
  let& resp := Transmit channel apdu in
  if negb (Success resp) then afail (newStatusError resp) else aret resp.
Definition WriteLinearFixedEFRecord (channel fid record : Z) (data : bytes) : act C Response :=
  let& apdu := alift (UpdateRecordAPDU record data) in
  let& _ := SelectFile channel fid in
  let& resp := Transmit channel apdu in
  if negb (Success resp) then afail (newStatusError resp) else aret resp.

(** ** Application identifiers *)
Record LogicalChannelAIDCandidate := mkCandidate { ca_AID : bytes; ca_Source : bytes }.
Definition normalizeLogicalChannelAID (aid : bytes) : bytes := strings_ToUpper (compactHex aid).
Definition addCandidate (want aid source : bytes) (candidates : list LogicalChannelAIDCandidate) : result (list LogicalChannelAIDCandidate) :=
  let aid := normalizeLogicalChannelAID aid in
  if len aid =? 0 then Err (ErrText "AID is empty") else
  if negb (len want =? 0) && negb (strings_HasPrefix aid want) then Err (ErrText "AID does not match") else
  let source := TrimSpace source in
  let source := if len source =? 0 then go_bytes "resolver" else source in
  if existsb (fun existing => bytesEqual (ca_AID existing) aid) candidates then Ok candidates else
  Ok (candidates ++ [mkCandidate aid source]).
Definition ResolveAIDCandidates (app fallbackAID expectedPrefix : bytes) : act C (list LogicalChannelAIDCandidate) :=
  let fallback := normalizeLogicalChannelAID fallbackAID in
  let want := normalizeLogicalChannelAID expectedPrefix in
  let fallback_only : act C (list LogicalChannelAIDCandidate) :=
    if len fallback =? 0 then afail (ErrText "AID is empty") else alift (addCandidate want fallback (go_bytes "fallback") []) in
  match ResolveLogicalChannelAID with
  | None => fallback_only
  | Some resolve =>
      let& resolved := atry (resolve app fallback) in
      match resolved with
      | inr _ => fallback_only
      | inl (aid, source) =>
          let& candidates := alift (addCandidate want aid source []) in
          if len fallback =? 0 then aret candidates else
          let fallbackSource := go_bytes (if negb (len want =? 0) && bytesEqual fallback want then "short_fallback" else "fallback") in
          match addCandidate want fallback fallbackSource candidates with
          | Err e => if len candidates =? 0 then afail e else aret candidates
          | r => alift r
          end
      end
  end.
Definition ResolveAID (app fallbackAID expectedPrefix : bytes) : act C (bytes * bytes) :=
  let& candidates := ResolveAIDCandidates app fallbackAID expectedPrefix in
  match candidates with
  | [] => afail (ErrText "AID is empty")
  | candidate :: _ => aret (ca_AID candidate, ca_Source candidate)
  end.
(** The candidates in turn; the error joins those of all the attempts. *)
Fixpoint open_loop (candidates : list LogicalChannelAIDCandidate) : act C (Z * bytes * bytes) :=
  match candidates with
  | [] => afail (ErrText "open logical channel")
  | candidate :: rest =>
      let& opened := atry (OpenLogicalChannel (ca_AID candidate)) in
      match opened with
      | inl channel => aret (channel, ca_AID candidate, ca_Source candidate)
      | inr _ => open_loop rest
      end
  end.
Definition OpenLogicalChannelWithAIDFallback (app fallbackAID expectedPrefix : bytes) : act C (Z * bytes * bytes) :=
  let& candidates := ResolveAIDCandidates app fallbackAID expectedPrefix in
  match candidates with
  | [] => afail (ErrText "AID is empty")
  | _ => open_loop candidates
  end.
End card.

(** ** Hexadecimal text *)
Lemma compactHex_visible s : Forall (fun c => visible c = true) s -> compactHex s = s.
Proof.
  intros Hs. pose proof (visible_ascii s Hs) as Ha. unfold compactHex. rewrite TrimSpace_visible, runes_of_ascii by done.
  enough (list_filter (fun r => negb (bool_decide (r ∈ [32; 9; 10; 13; 12; 11]))) _ s = s) as E by (unfold filter; rewrite E; by apply string_of_ascii).
  clear Ha. induction Hs as [|c s Hc Hs IH]; [done|]. change (filter (fun r => negb (bool_decide (r ∈ [32; 9; 10; 13; 12; 11]))) (c :: s) = c :: s).
  rewrite filter_cons_True; [by f_equal|]. rewrite bool_decide_eq_false_2; [done|]. unfold visible in Hc. rewrite !elem_of_cons. intros H.
  repeat destruct H as [->|H]; try done. by apply not_elem_of_nil in H.
Qed.
(** The answer of a card: body and status. *)
Definition answer (body : bytes) (sw1 sw2 : Z) : bytes := hex_EncodeToString (body ++ [sw1; sw2]).
Lemma answer_parsed body sw1 sw2 : bytes_ok body -> is_u8 sw1 -> is_u8 sw2 -> ParseAPDUResponseHex (answer body sw1 sw2) = Ok (mkResponse body sw1 sw2).
Proof.
  intros Hb H1 H2. assert (Hok : bytes_ok (body ++ [sw1; sw2])) by (apply bytes_ok_app; split; [done|]; apply bytes_ok_cons_2; [done|]; by apply bytes_ok_cons_2; [|apply bytes_ok_nil]).
  unfold ParseAPDUResponseHex, answer. rewrite compactHex_visible by by apply hex_encode_visible. rewrite hex_decode_encode by done.
  set (raw := body ++ [sw1; sw2]). assert (Hl : len raw = len body + 2) by (subst raw; len_lia). pose proof (len_nonneg body). rewrite Hl.
  replace (len body + 2 <? 2) with false by lia. rewrite (slice_eq raw [] body [sw1; sw2]) by (subst raw; first [done | lia]). cbn [bind].
  rewrite (at_app_r body [sw2] sw1) by lia. cbn [bind]. subst raw. change (body ++ [sw1; sw2]) with (body ++ [sw1] ++ [sw2]). rewrite app_assoc.
  rewrite (at_app_r (body ++ [sw1]) [] sw2) by len_lia. done.
Qed.

(** ** The length field of a command

    A command of ISO 7816-4: a header, data behind their length, and the expected
    length of the answer; one octet each in the short form, two (behind a zero
    octet that announces them) in the extended form. *)
Inductive form := Short | Extended.
Definition le_octets (f : form) (le : Z) : bytes := match f with Short => [to_u8 le] | Extended => [to_u8 (Z.shiftr le 8); to_u8 le] end.
Definition lc_octets (f : form) (n : Z) : bytes := match f with Short => [to_u8 n] | Extended => [to_u8 (Z.shiftr n 8); to_u8 n] end.
Definition command (f : form) (header data : bytes) (le : option Z) : bytes :=
  header ++ match f with Short => [] | Extended => [0] end ++ (if len data =? 0 then [] else lc_octets f (len data) ++ data) ++
  match le with Some n => le_octets f n | None => [] end.
Definition command_ok (f : form) (header data : bytes) (le : option Z) : Prop :=
  len header = 4 /\ match f with Short => len data <= 255 | Extended => len data <= 65535 /\ (len data = 0 -> is_Some le) end.

Lemma set_octet_eq (p q : bytes) b v i : i = len p -> set_octet (p ++ b :: q) i v = Ok (p ++ v :: q).
Proof.
  intros ->. unfold set_octet. replace ((0 <=? len p) && (len p <? len (p ++ b :: q))) with true by len_lia.
  f_equal. unfold len. rewrite Nat2Z.id, insert_app_r_alt by lia. by rewrite Nat.sub_diag.
Qed.
Lemma apduLeByte_ok n : 1 <= n <= 256 -> apduLeByte n = Ok (to_u8 n).
Proof.
  intros Hn. unfold apduLeByte. replace ((n <? 1) || (256 <? n)) with false by lia. destruct (Z.eqb_spec n 256) as [->|]; done.
Qed.
Lemma apduExtendedLeBytes_ok n : 1 <= n <= 256 -> apduExtendedLeBytes n = Ok (to_u8 (Z.shiftr n 8), to_u8 n).
Proof. intros Hn. unfold apduExtendedLeBytes. replace ((n <? 1) || (65536 <? n)) with false by lia. by replace (n =? 65536) with false by lia. Qed.
Lemma lc_extended n : 0 <= n <= 65535 -> Z.lor (Z.shiftl (to_u8 (Z.shiftr n 8)) 8) (to_u8 n) = n.
Proof.
  intros Hn. rewrite lor_shiftl_8 by apply to_u8_range. unfold to_u8. rewrite Z.shiftr_div_pow2 by lia. change (2 ^ 8) with 256.
  rewrite (Z.mod_small (n / 256)) by (Z.div_mod_to_equations; lia). rewrite (Z.div_mod n 256) at 3 by lia. lia.
Qed.
(** A wrong length is replaced and a missing one added; header and data stay. *)
Lemma correct_short header data le n : command_ok Short header data le -> 1 <= n <= 256 ->
  correctAPDULe (command Short header data le) n = Ok (command Short header data (Some n)).
Proof.
  intros [Hh Hd] Hn. unfold correctAPDULe. rewrite apduLeByte_ok by done. unfold command. cbn [bind app le_octets lc_octets]. cbv zeta. pose proof (len_nonneg data) as Hp.
  destruct (Z.eqb_spec (len data) 0) as [Hz|Hz].
  - cbn [app]. destruct le as [m|]; cbn [app].
    + assert (Hl : len (header ++ [to_u8 m]) = 5) by len_lia. rewrite !Hl. change (5 <? 4) with false. change (5 =? 4) with false. change (5 =? 5) with true. cbv iota.
      apply set_octet_eq. lia.
    + rewrite app_nil_r, Hh. done.
  - assert (Hl : forall t, len (header ++ (to_u8 (len data) :: data) ++ t) = 5 + len data + len t) by (intros; len_lia).
    assert (Hat : forall t, at_ (E := error) (header ++ (to_u8 (len data) :: data) ++ t) 4 = Ok (len data)).
    { intros t. rewrite <- app_comm_cons. rewrite (at_app_r header (data ++ t)) by lia. unfold to_u8. by rewrite Z.mod_small by lia. }
    change (([to_u8 (len data)] ++ data)) with (to_u8 (len data) :: data).
    destruct le as [m|].
    + rewrite !Hl. change (len [to_u8 m]) with 1. replace (5 + len data + 1 <? 4) with false by lia. replace (5 + len data + 1 =? 4) with false by lia.
      replace (5 + len data + 1 =? 5) with false by lia. rewrite Hat. cbn [bind]. replace (len data =? 0) with false by lia.
      replace (5 + len data + 1 =? 5 + len data) with false by lia. replace (5 + len data + 1 =? 6 + len data) with true by lia.
      rewrite !app_assoc. apply set_octet_eq. len_lia.
    + rewrite !Hl. change (len []) with 0. replace (5 + len data + 0 <? 4) with false by lia. replace (5 + len data + 0 =? 4) with false by lia.
      replace (5 + len data + 0 =? 5) with false by lia. rewrite Hat. cbn [bind]. replace (len data =? 0) with false by lia.
      replace (5 + len data + 0 =? 5 + len data) with true by lia. by rewrite app_nil_r, <- !app_assoc.
Qed.
Lemma set_two (p : bytes) a b v w i : i = len p -> (let! out := set_octet (p ++ [a; b]) i v in set_octet out (i + 1) w) = Ok (p ++ [v; w]).
Proof.
  intros ->. rewrite set_octet_eq by done. cbn [bind]. change (p ++ [v; b]) with (p ++ [v] ++ [b]). rewrite app_assoc. rewrite (set_octet_eq (p ++ [v]) [] b w) by len_lia.
  by rewrite <- app_assoc.
Qed.
Lemma correct_extended header data le n : command_ok Extended header data le -> 1 <= n <= 256 ->
  correctAPDULe (command Extended header data le) n = Ok (command Extended header data (Some n)).
Proof.
  intros [Hh [Hd Hle]] Hn. unfold correctAPDULe. rewrite apduLeByte_ok by done. unfold command. cbn [bind app le_octets lc_octets]. cbv zeta. pose proof (len_nonneg data) as Hp.
  assert (Hzero : forall t, at_ (E := error) (header ++ 0 :: t) 4 = Ok 0) by (intros t; apply at_app_r; lia).
  assert (Hl : forall t, len (header ++ 0 :: t) = 5 + len t) by (intros; len_lia). unfold correct_extended_le. rewrite apduExtendedLeBytes_ok by done. cbn [bind].
  destruct (Z.eqb_spec (len data) 0) as [Hz|Hz].
  - destruct (Hle Hz) as [m ->]. cbn [app]. rewrite !Hl. change (len [to_u8 (Z.shiftr m 8); to_u8 m]) with 2.
    change (5 + 2) with 7. change (7 <? 4) with false. change (7 =? 4) with false. change (7 =? 5) with false. change (7 =? 7) with true. cbv iota. rewrite Hzero. cbn [bind]. change (0 =? 0) with true. cbv iota.
    change (header ++ 0 :: ?t) with (header ++ [0] ++ t). rewrite !app_assoc. apply (set_two (header ++ [0])). len_lia.
  - change ([to_u8 (Z.shiftr (len data) 8); to_u8 (len data)] ++ data) with (to_u8 (Z.shiftr (len data) 8) :: to_u8 (len data) :: data). cbn [app]. set (t := match le with Some m => _ | None => _ end).
    assert (Ht : len t = match le with Some _ => 2 | None => 0 end) by (subst t; by destruct le). rewrite !Hl. rewrite !len_cons, len_app. rewrite Hzero. cbn [bind]. change (0 =? 0) with true.
    assert (H5 : at_ (E := error) (header ++ 0 :: to_u8 (Z.shiftr (len data) 8) :: to_u8 (len data) :: data ++ t) 5 = Ok (to_u8 (Z.shiftr (len data) 8))).
    { change (header ++ 0 :: ?x) with (header ++ [0] ++ x). rewrite app_assoc. apply at_app_r. len_lia. }
    assert (H6 : at_ (E := error) (header ++ 0 :: to_u8 (Z.shiftr (len data) 8) :: to_u8 (len data) :: data ++ t) 6 = Ok (to_u8 (len data))).
    { change (header ++ 0 :: ?y :: ?x) with (header ++ [0; y] ++ x). rewrite app_assoc. apply at_app_r. len_lia. }
    rewrite H5, H6. cbn [bind]. rewrite lc_extended by lia. replace (len data <=? 0) with false by lia.
    assert (0 <= len t) by (rewrite Ht; by destruct le). replace (5 + (1 + (1 + (len data + len t))) <? 4) with false by lia.
    replace (5 + (1 + (1 + (len data + len t))) =? 4) with false by lia. replace (5 + (1 + (1 + (len data + len t))) =? 5) with false by lia.
    replace (5 + (1 + (1 + (len data + len t))) =? 7) with false by lia. replace (5 + (1 + (1 + (len data + len t))) <? 7) with false by lia. cbv iota.
    rewrite Ht. destruct le as [m|]; subst t.
    + replace (5 + (1 + (1 + (len data + 2))) =? 7 + len data) with false by lia. replace (5 + (1 + (1 + (len data + 2))) =? 9 + len data) with true by lia. cbv iota.
      set (pre := header ++ 0 :: to_u8 (Z.shiftr (len data) 8) :: to_u8 (len data) :: data).
      replace (header ++ 0 :: to_u8 (Z.shiftr (len data) 8) :: to_u8 (len data) :: data ++ [to_u8 (Z.shiftr m 8); to_u8 m]) with (pre ++ [to_u8 (Z.shiftr m 8); to_u8 m]) by (subst pre; by rewrite <- app_assoc).
      assert (Hpre : len pre = 7 + len data) by (subst pre; len_lia). replace (5 + (1 + (1 + (len data + 2))) - 2) with (len pre) by lia.
      rewrite set_octet_eq by done. cbn [bind]. change (pre ++ [to_u8 (Z.shiftr n 8); to_u8 m]) with (pre ++ [to_u8 (Z.shiftr n 8)] ++ [to_u8 m]). rewrite app_assoc.
      rewrite set_octet_eq by len_lia. subst pre. by rewrite <- !app_assoc.
    + replace (5 + (1 + (1 + (len data + 0))) =? 7 + len data) with true by lia. cbv iota. by rewrite app_nil_r, <- !app_assoc.
Qed.

(** The command as the card sees it. *)
Definition command_text `{UnicodeCase} (cmd : bytes) : bytes := strings_ToUpper (hex_EncodeToString cmd).
Lemma command_text_decoded `{UnicodeCase} cmd : bytes_ok cmd -> hex_DecodeString (command_text cmd) = Some cmd.
Proof.
  intros Hok. unfold command_text, strings_ToUpper. pose proof (visible_ascii _ (hex_encode_visible cmd Hok)) as Ha. rewrite runes_of_ascii by done.
  rewrite string_of_ascii.
  2: { apply Forall_fmap. eapply Forall_impl; [exact Ha|]. intros c Hc. cbn in Hc |- *. unfold upper_rune. replace (c <? 0x80) with true by lia. destruct (_ && _) eqn:E; lia. }
  clear Ha. induction Hok as [|b cmd Hb Hcmd IH]; [done|]. rewrite hex_encode_cons, !fmap_cons. cbn [hex_DecodeString]. rewrite IH.
  destruct (octet_nibbles b Hb) as (H1 & H2 & H3). destruct (hex_digit_facts _ H1) as (_ & Hv1 & E1). destruct (hex_digit_facts _ H2) as (_ & Hv2 & E2).
  unfold upper_rune. replace (hex_lower_digit (Z.shiftr b 4) <? 0x80) with true by (unfold visible in Hv1; lia).
  replace (hex_lower_digit (Z.land b 0x0f) <? 0x80) with true by (unfold visible in Hv2; lia). cbv zeta in E1, E2. rewrite E1, E2. by rewrite H3.
Qed.

(** ** Two-step answers *)
Section transmission.
Context {U : UnicodeCase} {C : Type} {T : LogicalChannelTransport C}.
(** [gives channel cmd c c' r]: the card answers one command with [r]. *)
Definition gives (channel : Z) (cmd : bytes) (c c' : C) (r : Response) : Prop :=
  exists text, TransmitAPDU channel (command_text cmd) c = (c', Ok text) /\ ParseAPDUResponseHex text = Ok r.
(** The rest of an answer is fetched with [k] GET RESPONSE commands of the class [cla]. *)
Inductive fetched (channel cla : Z) : C -> Response -> nat -> C -> Response -> Prop :=
| fetched_all c r : requestsGetResponse (rs_SW1 r) = false -> fetched channel cla c r 0 c r
| fetched_more c r c1 r1 k c2 r2 : requestsGetResponse (rs_SW1 r) = true ->
    gives channel [cla; 0xc0; 0x00; 0x00; rs_SW2 r] c c1 r1 -> fetched channel cla c1 r1 k c2 r2 ->
    fetched channel cla c r (S k) c2 (mkResponse (rs_Body r ++ rs_Body r2) (rs_SW1 r2) (rs_SW2 r2)).
(** A whole exchange: the answer itself, or a correction of the length and then
    the answer to the corrected command; and the rest of it. *)
Inductive exchanged (channel : Z) (cmd : bytes) (c c' : C) (resp : Response) : Prop :=
| exchanged_directly c1 r1 k : gives channel cmd c c1 r1 -> rs_SW1 r1 <> 0x6c ->
    (k <= 4)%nat -> fetched channel (commandCLA cmd) c1 r1 k c' resp -> exchanged channel cmd c c' resp
| exchanged_corrected c0 r0 retry c1 r1 k : gives channel cmd c c0 r0 -> rs_SW1 r0 = 0x6c ->
    correctAPDULe cmd (apduLeFromSW2 (rs_SW2 r0)) = Ok retry -> gives channel retry c0 c1 r1 ->
    (k <= 4)%nat -> fetched channel (commandCLA cmd) c1 r1 k c' resp -> exchanged channel cmd c c' resp.

Lemma parsed_ok text r : ParseAPDUResponseHex text = Ok r -> bytes_ok (rs_Body r) /\ is_u8 (rs_SW1 r) /\ is_u8 (rs_SW2 r).
Proof.
  unfold ParseAPDUResponseHex. destruct (hex_DecodeString _) as [raw|] eqn:E; [|done]. apply hex_decode_ok in E. destruct (len raw <? 2) eqn:Hl; [done|].
  intros H. eapply (safe_ok _ r (fun r => bytes_ok (rs_Body r) /\ is_u8 (rs_SW1 r) /\ is_u8 (rs_SW2 r))); [|exact H]. clear H.
  apply safe_bind, safe_slice_ok; [done|lia|lia|]. intros body _ _ Hb. apply safe_bind, safe_at; [done|lia|]. intros s1 H1 _.
  apply safe_bind, safe_at; [done|lia|]. intros s2 H2 _. done.
Qed.
Lemma ParseAPDUResponseHex_safe text : safe (ParseAPDUResponseHex text) (fun r => bytes_ok (rs_Body r) /\ is_u8 (rs_SW1 r) /\ is_u8 (rs_SW2 r)).
Proof.
  unfold ParseAPDUResponseHex. destruct (hex_DecodeString _) as [raw|] eqn:E; [|done]. apply hex_decode_ok in E. destruct (len raw <? 2) eqn:Hl; [done|].
  apply safe_bind, safe_slice_ok; [done|lia|lia|]. intros body _ _ Hb. apply safe_bind, safe_at; [done|lia|]. intros s1 H1 _.
  apply safe_bind, safe_at; [done|lia|]. intros s2 H2 _. done.
Qed.
Lemma transmitOnce_gives channel cmd c c' r : gives channel cmd c c' r -> transmitOnce channel cmd c = (c', Ok r).
Proof. intros (text & Ht & Hp). unfold transmitOnce, abind. fold (command_text cmd). rewrite Ht. unfold alift. by rewrite Hp. Qed.
Lemma gives_status channel cmd c c' r : gives channel cmd c c' r -> is_u8 (rs_SW2 r).
Proof. intros (text & _ & Hp). apply parsed_ok in Hp. apply Hp. Qed.
Lemma apduLe_octet sw2 : is_u8 sw2 -> apduLeByte (apduLeFromSW2 sw2) = Ok sw2.
Proof.
  unfold in_range. intros H. unfold apduLeFromSW2. destruct (Z.eqb_spec sw2 0) as [->|]; [done|]. rewrite apduLeByte_ok by lia. unfold to_u8. by rewrite Z.mod_small by lia.
Qed.
Lemma chase_fetched channel cla c r k c' resp n pre : fetched channel cla c r k c' resp -> (k <= n)%nat -> is_u8 (rs_SW2 r) ->
  chase_loop n channel cla r (pre ++ rs_Body r) c = (c', Ok (mkResponse (pre ++ rs_Body resp) (rs_SW1 resp) (rs_SW2 resp))).
Proof.
  intros Hf. revert n pre. induction Hf as [c r Hr|c r c1 r1 k c2 r2 Hr Hg Hf IH]; intros n pre Hk Hu.
  - destruct n as [|n]; cbn [chase_loop]; by rewrite ?Hr.
  - destruct n as [|n]; [lia|]. cbn [chase_loop]. rewrite Hr. unfold abind, alift. rewrite apduLe_octet by done. rewrite (transmitOnce_gives _ _ _ _ _ Hg).
    rewrite IH; [|lia|by eapply gives_status]. cbn [rs_Body rs_SW1 rs_SW2]. by rewrite app_assoc.
Qed.
Lemma fetched_get channel cla c r k c' resp : fetched channel cla c r k c' resp -> (k <= 4)%nat -> is_u8 (rs_SW2 r) ->
  chaseGetResponse channel cla r c = (c', Ok resp).
Proof.
  intros Hf Hk Hu. unfold chaseGetResponse. destruct (requestsGetResponse (rs_SW1 r)) eqn:E; cbn [negb].
  - pose proof (chase_fetched _ _ _ _ _ _ _ maxGetResponseAPDUs [] Hf Hk Hu) as H. cbn [app] in H. rewrite H. by destruct resp.
  - by inversion Hf; subst; [|congruence].
Qed.
Lemma Transmit_exchanged channel cmd c c' resp : exchanged channel cmd c c' resp -> Transmit channel cmd c = (c', Ok resp).
Proof.
  intros [c1 r1 k Hg H6c Hk Hf|c0 r0 retry c1 r1 k Hg0 H6c Hr Hg Hk Hf]; unfold Transmit, abind, aret, alift.
  - rewrite (transmitOnce_gives _ _ _ _ _ Hg). replace (rs_SW1 r1 =? 0x6c) with false by lia. eapply fetched_get; eauto using gives_status.
  - rewrite (transmitOnce_gives _ _ _ _ _ Hg0). replace (rs_SW1 r0 =? 0x6c) with true by lia. rewrite Hr, (transmitOnce_gives _ _ _ _ _ Hg). eapply fetched_get; eauto using gives_status.
Qed.
(** [Transmit] hides the two-step answers of the card: when the card answers,
    directly or after the length was corrected, and keeps the rest of its answer
    for up to four GET RESPONSE commands, the result is the whole body with the
    last status. *)
Theorem Transmit_correct (channel : Z) (cmd : bytes) (c c' : C) (resp : Response) :
  exchanged channel cmd c c' resp -> Transmit channel cmd c = (c', Ok resp).
Proof. apply Transmit_exchanged. Qed.

(** ** Every run ends *)
Definition runs {A} (m : act C A) (Q : A -> Prop) : Prop := forall c, safe (m c).2 Q.
Definition transport_returns : Prop :=
  (forall aid, runs (OpenLogicalChannel aid) (fun _ => True)) /\ (forall channel, runs (CloseLogicalChannel channel) (fun _ => True)) /\
  (forall channel text, runs (TransmitAPDU channel text) (fun _ => True)) /\
  match ResolveLogicalChannelAID with Some resolve => forall app aid, runs (resolve app aid) (fun _ => True) | None => True end.
Lemma runs_bind {A B} (m : act C A) (k : A -> act C B) P (Q : B -> Prop) : runs m P -> (forall a, P a -> runs (k a) Q) -> runs (abind m k) Q.
Proof. intros Hm Hk c. unfold abind. specialize (Hm c). destruct (m c) as [c' [a|e| |]]; try done. by apply Hk. Qed.
Lemma runs_lift {A} (r : result A) (Q : A -> Prop) : safe r Q -> runs (alift r) Q.
Proof. intros Hr c. exact Hr. Qed.
Lemma runs_ret {A} (a : A) (Q : A -> Prop) : Q a -> runs (aret a) Q.
Proof. intros Ha c. exact Ha. Qed.
Lemma runs_fail {A} e (Q : A -> Prop) : runs (afail e) Q.
Proof. intros c. exact I. Qed.
Lemma runs_mono {A} (m : act C A) (P Q : A -> Prop) : runs m P -> (forall a, P a -> Q a) -> runs m Q.
Proof. intros Hm HQ c. eapply safe_mono; [apply Hm|done]. Qed.
Lemma runs_try {A} (m : act C A) P : runs m P -> runs (atry m) (fun r => match r with inl a => P a | inr _ => True end).
Proof. intros Hm c. unfold atry. specialize (Hm c). by destruct (m c) as [c' [a|e| |]]. Qed.
Definition response_ok (r : Response) : Prop := bytes_ok (rs_Body r) /\ is_u8 (rs_SW1 r) /\ is_u8 (rs_SW2 r).

Context (Htransport : transport_returns).
Lemma transmitOnce_runs channel cmd : runs (transmitOnce channel cmd) response_ok.
Proof. eapply runs_bind; [apply Htransport|]. intros text _. apply runs_lift, ParseAPDUResponseHex_safe. Qed.
Lemma apduLeByte_runs sw2 : is_u8 sw2 -> safe (apduLeByte (apduLeFromSW2 sw2)) is_u8.
Proof. intros H. by rewrite apduLe_octet. Qed.
Lemma set_octet_safe out i v : 0 <= i < len out -> safe (set_octet out i v) (fun r => len r = len out).
Proof. intros Hi. unfold set_octet. replace ((0 <=? i) && (i <? len out)) with true by lia. cbn. unfold len. by rewrite length_insert. Qed.
Lemma correctAPDULe_returns cmd le : returns (correctAPDULe cmd le).
Proof.
  unfold correctAPDULe. eapply safe_call; [instantiate (1 := fun _ => True); unfold apduLeByte; by repeat case_match|]. intros leByte _. cbv zeta.
  destruct (len cmd <? 4) eqn:H4; [done|]. destruct (len cmd =? 4) eqn:E4; [done|]. destruct (len cmd =? 5) eqn:E5; [eapply safe_mono; [apply set_octet_safe; lia|done]|].
  assert (Hat : forall i (k : Z -> result bytes), 0 <= i < len cmd -> (forall b, returns (k b)) -> returns (let! x := at_ cmd i in k x)).
  { intros i k Hi Hk. unfold at_. replace (i <? 0) with false by lia. destruct (lookup_lt_is_Some_2 cmd (Z.to_nat i)) as [b Hb]; [unfold len in Hi; lia|]. rewrite Hb. apply Hk. }
  apply Hat; [lia|]. intros lc. destruct (lc =? 0).
  - unfold correct_extended_le. eapply safe_call; [instantiate (1 := fun _ => True); unfold apduExtendedLeBytes; by repeat case_match|]. intros [hi lo] _.
    destruct (len cmd =? 7) eqn:E7; [eapply safe_call; [apply set_octet_safe; lia|]; intros out Ho; cbv beta in Ho; eapply safe_mono; [apply set_octet_safe; lia|done]|].
    destruct (len cmd <? 7) eqn:H7; [done|]. apply Hat; [lia|]. intros a. apply Hat; [lia|]. intros b. cbv zeta. destruct (_ <=? 0) eqn:Hlc; [done|].
    destruct (_ =? 7 + _); [done|]. destruct (_ =? 9 + _) eqn:E9; [|done].
    eapply safe_call; [apply set_octet_safe; lia|]. intros out Ho. cbv beta in Ho. eapply safe_mono; [apply set_octet_safe; lia|done].
  - destruct (_ =? 5 + _); [done|]. destruct (_ =? 6 + _); [|done]. eapply safe_mono; [apply set_octet_safe; lia|done].
Qed.
Lemma chase_runs n channel cla r body : response_ok r -> bytes_ok body -> runs (chase_loop n channel cla r body) response_ok.
Proof.
  revert r body. induction n as [|n IH]; intros r body (Hb & H1 & H2) Hbody; [by apply runs_ret|]. cbn [chase_loop]. destruct (requestsGetResponse _); [|by apply runs_ret].
  eapply runs_bind; [by apply runs_lift, apduLeByte_runs|]. intros le _. eapply runs_bind; [apply transmitOnce_runs|]. intros g Hg. apply IH; [done|]. apply bytes_ok_app. split; [done|apply Hg].
Qed.
Lemma Transmit_runs channel cmd : runs (Transmit channel cmd) response_ok.
Proof.
  eapply runs_bind; [apply transmitOnce_runs|]. intros r Hr. eapply (runs_bind _ _ response_ok).
  - destruct (_ =? _); [|by apply runs_ret]. eapply runs_bind; [apply runs_lift, correctAPDULe_returns|]. intros retry _. apply transmitOnce_runs.
  - intros r1 Hr1. unfold chaseGetResponse. destruct (requestsGetResponse _); [apply chase_runs; [done|apply Hr1]|by apply runs_ret].
Qed.
Lemma SelectFile_runs channel fid : runs (SelectFile channel fid) response_ok.
Proof. eapply runs_bind; [apply Transmit_runs|]. intros r Hr. destruct (Success r); [by apply runs_ret|apply runs_fail]. Qed.
Lemma read_binary_loop_runs fuel channel size offset out : size - offset <= Z.of_nat fuel -> bytes_ok out ->
  runs (read_binary_loop fuel channel size offset out) bytes_ok.
Proof.
  revert offset out. induction fuel as [|fuel IH]; intros offset out Hf Hout; cbn [read_binary_loop].
  - replace (size <=? offset) with true by lia. by apply runs_ret.
  - destruct (size <=? offset) eqn:Hs; [by apply runs_ret|]. cbv zeta. eapply runs_bind; [apply Transmit_runs|]. intros r (Hb & _). destruct (Success r); cbn [negb]; [|apply runs_fail].
    assert (bytes_ok (out ++ rs_Body r)) by (by apply bytes_ok_app). pose proof (len_nonneg (rs_Body r)). destruct (Z.eqb_spec (len (rs_Body r)) 0); cbn [orb]; [by apply runs_ret|].
    destruct (_ && _); [by apply runs_ret|]. apply IH; [lia|done].
Qed.
Lemma ReadTransparentEF_runs channel fid : runs (ReadTransparentEF channel fid) (fun r => bytes_ok r.1 /\ response_ok r.2).
Proof.
  eapply runs_bind; [apply SelectFile_runs|]. intros sel Hsel. eapply runs_bind; [apply runs_lift, FileSizeFromFCP_returns, Hsel|]. intros size _. cbv zeta.
  eapply runs_bind; [apply read_binary_loop_runs; [destruct (size <=? 0) eqn:?; lia|constructor]|]. intros out Hout. by apply runs_ret.
Qed.
Lemma read_record_loop_runs n channel rec recordLen records : Forall bytes_ok records -> runs (read_record_loop n channel rec recordLen records) (Forall bytes_ok).
Proof.
  revert rec records. induction n as [|n IH]; intros rec records Hr; [by apply runs_ret|]. cbn [read_record_loop]. eapply runs_bind; [apply Transmit_runs|]. intros r (Hb & _).
  destruct (isRecordNotFound _ _); [by apply runs_ret|]. destruct (Success r); cbn [negb]; [|apply runs_fail]. apply IH. by apply Forall_snoc_2.
Qed.
Lemma ReadLinearFixedEF_runs channel fid maxRecords : runs (ReadLinearFixedEF channel fid maxRecords) (fun r => Forall bytes_ok r.1 /\ response_ok r.2).
Proof.
  eapply runs_bind; [apply SelectFile_runs|]. intros sel Hsel. cbv zeta. eapply runs_bind; [apply runs_lift, RecordInfoFromFCP_safe, Hsel|]. intros [l n] _.
  eapply runs_bind; [by apply read_record_loop_runs|]. intros records Hr. by apply runs_ret.
Qed.
End transmission.

(** ** Reading a file *)
Section files.
Context {U : UnicodeCase} {C : Type} {T : LogicalChannelTransport C}.
(** A card with a transparent file: it answers SELECT with the size of the file
    and then READ BINARY within the file.  Offsets have fifteen bits: bit 8 of P1
    would name another file. *)
Record file_card (channel fid : Z) (content : bytes) (before selected : C -> Prop) : Prop := {
  file_selected : forall c, before c -> exists c' fcp, exchanged channel (SelectFileAPDU fid) c c' (mkResponse fcp 0x90 0x00) /\
    FileSizeFromFCP fcp = Ok (len content) /\ selected c';
  file_read : forall c offset le, selected c -> 0 <= offset < 0x8000 -> 1 <= le <= 256 -> offset + le <= len content ->
    exists c', exchanged channel [0x00; 0xb0; to_u8 (Z.shiftr offset 8); to_u8 offset; to_u8 le] c c' (mkResponse (sub content offset (offset + le)) 0x90 0x00) /\ selected c'
}.
Lemma apdu_le_octet_ok le : 1 <= le <= 256 -> apdu_le_octet le = to_u8 le.
Proof. intros H. unfold apdu_le_octet. replace ((le <=? 0) || (256 <? le)) with false by lia. destruct (Z.eqb_spec le 256) as [->|]; done. Qed.
Lemma read_binary_loop_reads channel fid content before selected fuel c offset : file_card channel fid content before selected -> selected c ->
  0 <= offset <= len content -> len content <= 0x8000 -> len content - offset <= Z.of_nat fuel ->
  exists c', read_binary_loop fuel channel (len content) offset (sub content 0 offset) c = (c', Ok content) /\ selected c'.
Proof.
  intros Hcard. revert c offset. induction fuel as [|fuel IH]; intros c offset Hc Ho Hmax Hf; cbn [read_binary_loop].
  - replace (len content <=? offset) with true by lia. exists c. split; [|done]. replace offset with (len content) by lia. by rewrite sub_to_end, drop_0 by lia.
  - destruct (len content <=? offset) eqn:Hend.
    { exists c. split; [|done]. replace offset with (len content) by lia. by rewrite sub_to_end, drop_0 by lia. }
    cbv zeta. set (chunk := if 256 <? len content - offset then 256 else len content - offset).
    assert (Hch : 1 <= chunk <= 256 /\ offset + chunk <= len content) by (subst chunk; destruct (256 <? len content - offset) eqn:?; lia). destruct Hch as [Hch1 Hch2]. clearbody chunk.
    destruct (file_read _ _ _ _ _ Hcard c offset chunk Hc ltac:(lia) Hch1 Hch2) as (c1 & Hx & Hc1). apply Transmit_exchanged in Hx.
    unfold ReadBinaryAPDU. rewrite apdu_le_octet_ok by done. unfold abind at 1. rewrite Hx. cbn [rs_Body rs_SW1 rs_SW2 Success]. change (negb (Success _)) with false. cbv iota.
    rewrite sub_len by lia. replace (offset + chunk - offset) with chunk by lia. rewrite sub_split by lia.
    replace (chunk =? 0) with false by lia. rewrite Z.ltb_irrefl, andb_false_r. cbn [orb].
    by apply IH; [|lia|lia|lia].
Qed.
(** [ReadTransparentEF] reads the whole file: on a card that answers SELECT
    with the size of the file and READ BINARY with the octets asked for (each in
    one or two steps), it selects the file, reads it in pieces of at most 256
    octets and returns its content, up to the 32768 octets that offsets can name. *)
Theorem ReadTransparentEF_correct (channel fid : Z) (content : bytes) (before selected : C -> Prop) (c : C) :
  file_card channel fid content before selected -> before c -> 0 < len content <= 0x8000 ->
  exists c' resp, ReadTransparentEF channel fid c = (c', Ok (content, resp)) /\ selected c'.
Proof.
  intros Hcard Hc Hl. destruct (file_selected _ _ _ _ _ Hcard c Hc) as (c1 & fcp & Hx & Hsize & Hc1). apply Transmit_exchanged in Hx.
  unfold ReadTransparentEF, SelectFile. unfold abind at 1 2. rewrite Hx. change (negb (Success _)) with false. unfold aret at 1. cbv iota beta. unfold abind at 1, alift. cbn [rs_Body]. rewrite Hsize.
  cbv zeta. replace (len content <=? 0) with false by lia. unfold abind.
  destruct (read_binary_loop_reads channel fid content before selected (Z.to_nat (len content)) c1 0 Hcard Hc1 ltac:(lia) ltac:(lia) ltac:(lia)) as (c2 & Hr & Hc2).
  change (sub content 0 0) with (@nil Z) in Hr. rewrite Hr. by eexists _, _.
Qed.
End files.

(** Beyond that, an offset is not what the command says: it comes back to the
    start of the file. *)
Example read_binary_offset_wraps : ReadBinaryAPDU 0x10000 256 = ReadBinaryAPDU 0 256.
Proof. reflexivity. Qed.

(** A card with one file of 300 octets, which answers SELECT in two steps and
    corrects a length of zero. *)
#[local] Instance ascii_case : UnicodeCase := {| unicode_ToUpper r := r; unicode_ToLower r := r |}.
Definition sample_content : bytes := (fun n => n mod 251) <$> seqZ 0 300.
Definition sample_file_fcp : bytes := [0x62; 0x04; 0x80; 0x02; 0x01; 0x2c].
Inductive sample_state := Idle | Waiting | Selected.
Definition sample_transmit (channel : Z) (text : bytes) (c : sample_state) : sample_state * result bytes :=
  match hex_DecodeString text, c with
  | Some [0x00; 0xa4; 0x00; 0x04; 0x02; 0x6f; 0x07], _ => (Waiting, Ok (answer [] 0x61 0x06))
  | Some [0x00; 0xc0; 0x00; 0x00; 0x06], Waiting => (Selected, Ok (answer sample_file_fcp 0x90 0x00))
  | Some [0x00; 0xb0; p1; p2; le], Selected =>
      let offset := p1 * 256 + p2 in
      (Selected, Ok (answer (sub sample_content offset (offset + (if le =? 0 then 256 else le))) 0x90 0x00))
  | _, _ => (c, Ok (answer [] 0x6d 0x00))
  end.
#[local] Instance sample_card : LogicalChannelTransport sample_state :=
  {| OpenLogicalChannel _ := aret 1; CloseLogicalChannel _ := aret tt; TransmitAPDU := sample_transmit; ResolveLogicalChannelAID := None |}.
Lemma sample_content_ok : bytes_ok sample_content.
Proof. by_decide. Qed.
Lemma sample_selection : exchanged (C := sample_state) 1 (SelectFileAPDU 0x6f07) Idle Selected (mkResponse sample_file_fcp 0x90 0x00).
Proof.
  eapply (exchanged_directly _ _ _ _ _ Waiting (mkResponse [] 0x61 0x06) 1); [|done|lia|].
  - exists (answer [] 0x61 0x06). split; vm_compute; done.
  - change (mkResponse sample_file_fcp 0x90 0x00) with (mkResponse ([] ++ sample_file_fcp) 0x90 0x00).
    apply (fetched_more 1 _ Waiting (mkResponse [] 0x61 0x06) Selected (mkResponse sample_file_fcp 0x90 0x00) 0 Selected (mkResponse sample_file_fcp 0x90 0x00)); [done| |by constructor].
    exists (answer sample_file_fcp 0x90 0x00). split; vm_compute; done.
Qed.
Lemma sample_file_card : file_card (C := sample_state) 1 0x6f07 sample_content (fun c => c = Idle) (fun c => c = Selected).
Proof.
  constructor.
  - intros c ->. exists Selected, sample_file_fcp. split; [exact sample_selection|split; [vm_compute; done|done]].
  - intros c offset le -> Ho Hle Hfit. exists Selected. split; [|done]. change (len sample_content) with 300 in Hfit.
    assert (Hb : bytes_ok (sub sample_content offset (offset + le))) by apply bytes_ok_sub, sample_content_ok.
    eapply (exchanged_directly _ _ _ _ _ Selected _ 0); [|  |lia|by constructor]; [|done].
    exists (answer (sub sample_content offset (offset + le)) 0x90 0x00). split; [|by apply answer_parsed].
    cbn [TransmitAPDU sample_card]. unfold sample_transmit. rewrite command_text_decoded by (repeat (apply bytes_ok_cons_2; [first [apply to_u8_range | done]|]); apply bytes_ok_nil).
    assert (Hoff : to_u8 (Z.shiftr offset 8) * 256 + to_u8 offset = offset).
    { unfold to_u8. rewrite Z.shiftr_div_pow2 by lia. change (2 ^ 8) with 256. rewrite (Z.mod_small (offset / 256)) by (Z.div_mod_to_equations; lia). rewrite (Z.div_mod offset 256) at 3 by lia. lia. }
    assert (Hlen : (if to_u8 le =? 0 then 256 else to_u8 le) = le).
    { unfold to_u8. destruct (decide (le = 256)) as [->|]; [done|]. rewrite Z.mod_small by lia. by replace (le =? 0) with false by lia. }
    cbv zeta. rewrite Hoff, Hlen. done.
Qed.
Lemma ReadTransparentEF_correct_witness :
  exists c' resp, ReadTransparentEF (C := sample_state) 1 0x6f07 Idle = (c', Ok (sample_content, resp)) /\ c' = Selected.
Proof.
  apply (ReadTransparentEF_correct 1 0x6f07 sample_content (fun c => c = Idle) (fun c => c = Selected) Idle); [exact sample_file_card|done|].
  split; vm_compute; done.
Defined.
Lemma Transmit_correct_witness : Transmit (C := sample_state) 1 (SelectFileAPDU 0x6f07) Idle = (Selected, Ok (mkResponse sample_file_fcp 0x90 0x00)).
Proof. apply Transmit_correct. exact sample_selection. Defined.
