(* ===== verification/SimAka.v ===== *)
(** * AKA on the SIM card (runtimehost/simauth/aka.go)

    The AUTHENTICATE command of the USIM or ISIM application: its APDU, the
    forms of its answer (success, synchronisation failure, MAC failure), the
    retries after a transient status and the choice of the application.  Whether
    the text of a transport's error asks for a retry is a parameter. *)
From S2P Require Import Prelude GoStrings Errors Utf8 EapKeys Tlv Apdu.
#[local] Open Scope string_scope.
#[local] Open Scope list_scope.
#[local] Open Scope Z_scope.
#[local] Open Scope act_scope.

Definition AKARESMinLength := 4.
Definition AKARESMaxLength := 16.
Definition AKACKLength := 16.
Definition AKAIKLength := 16.
Definition AKAKcLength := 8.
Definition AKAAUTSLength := 14.
Definition AKAAKLength := 6.
Definition AKAMACLength := 8.
Definition zeroAKA : AKAResult := mkAKAResult [] [] [] [].

Inductive AKAAuthResponseClass :=
| AKAAuthResponseClassUnknown | AKAAuthResponseClassSuccess | AKAAuthResponseClassSyncFailure | AKAAuthResponseClassMACFailure
| AKAAuthResponseClassAPDUStatus | AKAAuthResponseClassMalformed | AKAAuthResponseClassTransportFailure.
Record AUTSFields := mkAUTSFields { auts_SQNMSXorAK : bytes; auts_MACS : bytes }.
Record AKAAuthResponseInfo := mkInfo { ai_Class : AKAAuthResponseClass; ai_Status : Z; ai_Result : AKAResult; ai_AUTS : AUTSFields }.

(** ** The answer *)
Definition ParseAUTS (auts14 : bytes) : result AUTSFields :=
  if negb (len auts14 =? AKAAUTSLength) then Err (ErrText "AKA AUTS length") else
  let! sqn := slice auts14 0 AKAAKLength in
  let! macs := slice_from auts14 AKAAKLength in
  Ok (mkAUTSFields sqn macs).
Definition AUTSFields_Bytes (a : AUTSFields) : result bytes :=
  if negb (len (auts_SQNMSXorAK a) =? AKAAKLength) then Err (ErrText "AKA AUTS SQN_MS xor AK length") else
  if negb (len (auts_MACS a) =? AKAMACLength) then Err (ErrText "AKA AUTS MAC-S length") else
  Ok (auts_SQNMSXorAK a ++ auts_MACS a).
Definition AUTSFields_SQNMS (a : AUTSFields) (ak : bytes) : result bytes :=
  if negb (len (auts_SQNMSXorAK a) =? AKAAKLength) then Err (ErrText "AKA AUTS SQN_MS xor AK length") else
  if negb (len ak =? AKAAKLength) then Err (ErrText "AKA AK length") else
  Ok (zip_with Z.lxor (auts_SQNMSXorAK a) ak).

Definition hasOnlyTLVPadding (body : bytes) (pos : Z) : result bool :=
  if len body <? pos then Ok false else
  let! rest := slice_from body pos in
  Ok (len (trimTLVPadding rest) =? 0).
Definition hasOptionalKc (body : bytes) (pos : Z) : result bool :=
  if negb (pos <? len body) then Ok false else
  let! l := at_ body pos in
  if negb (l =? AKAKcLength) then Ok false else
  if len body <? pos + 1 + AKAKcLength then Ok false else
  hasOnlyTLVPadding body (pos + 1 + AKAKcLength).
(** [None]: not a success answer. *)
Definition parseUSIMAuthDB (body : bytes) : result (option AKAResult) :=
  if len body <? 2 then Ok None else
  let! b0 := at_ body 0 in
  if negb (b0 =? 0xdb) then Ok None else
  let pos := 1 in
  let! resLen := at_ body pos in
  let pos := pos + 1 in
  if (resLen <=? 0) || (len body <? pos + resLen + 1) then Ok None else
  let! res := slice body pos (pos + resLen) in
  if (resLen <? AKARESMinLength) || (AKARESMaxLength <? resLen) then Ok None else
  let pos := pos + resLen in
  let keyLen := AKACKLength + AKAIKLength in
  let remain := len body - pos in
  if remain =? keyLen then
    let! ck := slice body pos (pos + AKACKLength) in
    let! ik := slice body (pos + AKACKLength) (pos + keyLen) in
    Ok (Some (mkAKAResult res ck ik []))
  else
  let! ckLen := at_ body pos in
  let pos := pos + 1 in
  if negb (ckLen =? AKACKLength) || (len body <? pos + ckLen + 1) then Ok None else
  let! ck := slice body pos (pos + ckLen) in
  let pos := pos + ckLen in
  let! ikLen := at_ body pos in
  let pos := pos + 1 in
  if negb (ikLen =? AKAIKLength) || (len body <? pos + ikLen) then Ok None else
  let! ik := slice body pos (pos + ikLen) in
  let pos := pos + ikLen in
  if len body =? pos then Ok (Some (mkAKAResult res ck ik [])) else
  let! padded := hasOnlyTLVPadding body pos in
  if padded then Ok (Some (mkAKAResult res ck ik [])) else
  let! kc := hasOptionalKc body pos in
  if kc then Ok (Some (mkAKAResult res ck ik [])) else Ok None.

(** [depth] templates may still be entered: five at the top. *)
Fixpoint parseUSIMAuthTLVDepth (depth : nat) (body : bytes) : result (Z * bytes * bool) :=
  match depth with
  | O => Err (ErrText "AKA response TLV nesting too deep")
  | S depth' =>
      let body := trimTLVPadding body in
      if len body =? 0 then Err (ErrText "AKA response body empty") else
      let! r := readTag body in
      let '(tag, rest) := r in
      let! r := readLength rest in
      let '(length, rest) := r in
      if len rest <? length then Err (ErrText "AKA response TLV length exceeds remaining") else
      let! value := slice rest 0 length in
      let! behind := slice_from rest length in
      if negb (len (trimTLVPadding behind) =? 0) then Err (ErrText "AKA response TLV has trailing bytes") else
      if (tag =? 0xdb) || (tag =? 0xdc) || (tag =? 0xdd) then Ok (tag, value, true) else
      if isConstructed tag then parseUSIMAuthTLVDepth depth' value else Ok (tag, [], false)
  end.
Definition parseUSIMAuthTLV (body : bytes) : result (Z * bytes * bool) := parseUSIMAuthTLVDepth 5 body.

(** The AKA result and, next to it, the error. *)
Abbreviation sim_return := (AKAResult * option error)%type.
Definition refused (msg : string) : sim_return := (zeroAKA, Some (ErrText msg)).
Definition parseUSIMAuthPayload (tag : Z) (data : bytes) : result sim_return :=
  if tag =? 0xdb then
    let! out := parseUSIMAuthDB (0xdb :: data) in
    match out with Some out => Ok (out, None) | None => Ok (refused "parse AKA success response failed") end
  else if tag =? 0xdc then
    match ParseAUTS data with
    | Ok _ => Ok (mkAKAResult [] [] [] data, Some (SyncFailureError data))
    | Err e => Ok (zeroAKA, Some e)
    | Panic => Panic
    | OutOfFuel => OutOfFuel
    end
  else if tag =? 0xdd then
    if negb (len data =? 0) then Ok (refused "AKA MAC failure tag length must be 0 bytes") else Ok (zeroAKA, Some (Sentinel ErrAuthFailure))
  else Ok (refused "unknown AKA response tag").
Definition ParseUSIMAuthResponse (body : bytes) (sw1 sw2 : Z) : result sim_return :=
  if negb (sw1 =? 0x90) || negb (sw2 =? 0x00) then Ok (zeroAKA, Some (StatusError sw1 sw2)) else
  let body := trimTLVPadding body in
  if len body <? 2 then Ok (refused "AKA response body too short") else
  let! b0 := at_ body 0 in
  let! db := if b0 =? 0xdb then parseUSIMAuthDB body else Ok None in
  match db with
  | Some out => Ok (out, None)
  | None =>
      match parseUSIMAuthTLV body with
      | Err e => Ok (zeroAKA, Some e)
      | Panic => Panic
      | OutOfFuel => OutOfFuel
      | Ok (tag, data, true) => parseUSIMAuthPayload tag data
      | Ok (_, _, false) =>
          Ok (refused (if b0 =? 0xdb then "parse AKA success response failed"
                       else if b0 =? 0xdc then "parse AKA sync failure response failed"
                       else if b0 =? 0xdd then "parse AKA MAC failure response failed"
                       else "unknown AKA response tag"))
      end
  end.
Definition zeroAUTS : AUTSFields := mkAUTSFields [] [].
Definition ClassifyUSIMAuthResponse (body : bytes) (sw1 sw2 : Z) : result (AKAAuthResponseInfo * option error) :=
  let status := Z.lor (Z.shiftl sw1 8) sw2 in
  let! r := ParseUSIMAuthResponse body sw1 sw2 in
  let '(aka, err) := r in
  let info class auts := Ok (mkInfo class status aka auts, err) in
  if negb (sw1 =? 0x90) || negb (sw2 =? 0x00) then info AKAAuthResponseClassAPDUStatus zeroAUTS else
  match err with
  | None => info AKAAuthResponseClassSuccess zeroAUTS
  | Some e =>
      if errors_Is e ErrSyncFailure then
        match ParseAUTS (aka_AUTS aka) with
        | Ok fields => info AKAAuthResponseClassSyncFailure fields
        | Err _ => info AKAAuthResponseClassSyncFailure zeroAUTS
        | Panic => Panic
        | OutOfFuel => OutOfFuel
        end
      else if errors_Is e ErrAuthFailure then info AKAAuthResponseClassMACFailure zeroAUTS
      else info AKAAuthResponseClassMalformed zeroAUTS
  end.
Definition ClassifyUSIMAuthExchange (resp : Response) (transportErr : option error) : result (AKAAuthResponseInfo * option error) :=
  match transportErr with
  | Some e => Ok (mkInfo AKAAuthResponseClassTransportFailure (Response_Status resp) zeroAKA zeroAUTS, Some e)
  | None => ClassifyUSIMAuthResponse (rs_Body resp) (rs_SW1 resp) (rs_SW2 resp)
  end.

(** ** The command *)
Definition BuildUSIMAuthAPDU (rand16 autn16 : bytes) (includeLe : bool) : result bytes :=
  if negb (len rand16 =? 16) then Err (ErrText "RAND length must be 16 bytes") else
  if negb (len autn16 =? 16) then Err (ErrText "AUTN length must be 16 bytes") else
  let authData := [0x10] ++ rand16 ++ [0x10] ++ autn16 in
  let apdu := [0x00; 0x88; 0x00; 0x81; to_u8 (len authData)] ++ authData in
  Ok (if includeLe then apdu ++ [0x00] else apdu).

Definition isTransientUSIMAuthStatus (sw1 sw2 : Z) : bool :=
  (sw1 =? 0x93) || ((sw1 =? 0x62) && (sw2 =? 0x83)) || ((sw1 =? 0x64) && (sw2 =? 0x00)) || (sw1 =? 0x65) || ((sw1 =? 0x6f) && (sw2 =? 0x00)).

Record AKAProvider := mkProvider { ap_AuthTransientRetries : Z; ap_AuthTransientRetryDelay : Z }.
Definition defaultAKAAuthTransientRetries := 1.
(** Durations in nanoseconds. *)
Definition defaultAKAAuthRetryDelay : Z := 200 * 1000000.
Definition time_Hour : Z := 3600 * 1000000000.
Definition authTransientRetries (p : AKAProvider) : Z :=
  if ap_AuthTransientRetries p <? 0 then 0 else
  if 0 <? ap_AuthTransientRetries p then ap_AuthTransientRetries p else
  defaultAKAAuthTransientRetries.
Fixpoint retry_delay_loop (attempts : nat) (delay : Z) : Z :=
  match attempts with
  | O => delay
  | S n => if time_Hour / 2 <? delay then time_Hour else retry_delay_loop n (delay * 2)
  end.
Definition authTransientRetryDelay (p : AKAProvider) (attempt : Z) : Z :=
  let delay := ap_AuthTransientRetryDelay p in
  if delay <? 0 then 0 else
  let delay := if delay =? 0 then defaultAKAAuthRetryDelay else delay in
  retry_delay_loop (Z.to_nat attempt) delay.

Definition USIMAIDPrefix : bytes := go_bytes "A0000000871002".
Definition ISIMAIDPrefix : bytes := go_bytes "A0000000871004".

Section provider.
Context {U : UnicodeCase} {C : Type} {T : LogicalChannelTransport C} (transient_text : error -> bool).

Definition isTransientUSIMAuthError (err : error) : bool :=
  match errors_As_Status err with
  | Some (sw1, sw2) => isTransientUSIMAuthStatus sw1 sw2 || transient_text err
  | None => transient_text err
  end.
Definition isTransientUSIMAuthFailure (r : Response + error) : bool :=
  match r with inr err => isTransientUSIMAuthError err | inl resp => isTransientUSIMAuthStatus (rs_SW1 resp) (rs_SW2 resp) end.
(** [n] retries are left; the sleep before a retry leaves the card alone. *)
Fixpoint transmit_auth_loop (n : nat) (channel : Z) (apdu : bytes) : act C (Response + error) :=
  let& r := atry (Transmit channel apdu) in
  match n with
  | O => aret r
  | S n' => if negb (isTransientUSIMAuthFailure r) then aret r else transmit_auth_loop n' channel apdu
  end.
Definition transmitUSIMAuth (p : AKAProvider) (channel : Z) (apdu : bytes) : act C (Response + error) :=
  transmit_auth_loop (Z.to_nat (authTransientRetries p)) channel apdu.

(** [defer]: the call runs in the end, and its error is dropped. *)
Definition adefer {A} (close : act C unit) (m : act C A) : act C A :=
  fun c => let '(c1, r) := m c in
    let '(c2, closed) := close c1 in
    (c2, match closed with Panic => Panic | OutOfFuel => OutOfFuel | _ => r end).
(** An error of the call becomes the second of the two values. *)
Definition with_error (m : act C sim_return) : act C sim_return :=
  let& r := atry m in
  match r with inl r => aret r | inr err => aret (zeroAKA, Some err) end.

Definition authenticate_on (p : AKAProvider) (ch : Z) (rand16 autn16 : bytes) : act C sim_return :=
  let& apdu := alift (BuildUSIMAuthAPDU rand16 autn16 false) in
  let& first := transmitUSIMAuth p ch apdu in
  match first with
  | inl resp =>
      if Success resp then alift (ParseUSIMAuthResponse (rs_Body resp) (rs_SW1 resp) (rs_SW2 resp)) else
      let& apdu := alift (BuildUSIMAuthAPDU rand16 autn16 true) in
      let& second := transmitUSIMAuth p ch apdu in
      match second with
      | inr err2 => afail err2
      | inl resp2 => alift (ParseUSIMAuthResponse (rs_Body resp2) (rs_SW1 resp2) (rs_SW2 resp2))
      end
  | inr err =>
      let& apdu := alift (BuildUSIMAuthAPDU rand16 autn16 true) in
      let& second := transmitUSIMAuth p ch apdu in
      match second with
      | inr err2 => afail (ErrText "AKA failed")
      | inl resp2 => alift (ParseUSIMAuthResponse (rs_Body resp2) (rs_SW1 resp2) (rs_SW2 resp2))
      end
  end.
Definition calculateAKAOnApp (p : AKAProvider) (app fallbackAID expectedPrefix rand16 autn16 : bytes) : act C sim_return :=
  with_error (
    let& opened := OpenLogicalChannelWithAIDFallback app fallbackAID expectedPrefix in
    let '(ch, _, _) := opened in
    adefer (CloseLogicalChannel ch) (authenticate_on p ch rand16 autn16)).
Definition on_isim (p : AKAProvider) (rand16 autn16 : bytes) : act C sim_return := calculateAKAOnApp p (go_bytes "isim") ISIMAIDPrefix ISIMAIDPrefix rand16 autn16.
Definition on_usim (p : AKAProvider) (rand16 autn16 : bytes) : act C sim_return := calculateAKAOnApp p (go_bytes "usim") USIMAIDPrefix USIMAIDPrefix rand16 autn16.
Definition CalculateAKAWithPreference (p : AKAProvider) (rand16 autn16 preference : bytes) : act C sim_return :=
  let pref := TrimSpace preference in
  let strict := lower_equal pref "isim_strict" in
  if lower_equal pref "auto" || lower_equal pref "isim" || strict then
    let& r := on_isim p rand16 autn16 in
    match r with
    | (res, None) => aret (res, None)
    | (_, Some err) => if strict then aret (zeroAKA, Some err) else on_usim p rand16 autn16
    end
  else on_usim p rand16 autn16.
Definition CalculateAKA (p : AKAProvider) (rand16 autn16 : bytes) : act C sim_return := CalculateAKAWithPreference p rand16 autn16 (go_bytes "usim").
Definition CalculateISIMAKA (p : AKAProvider) (rand16 autn16 : bytes) : act C sim_return := CalculateAKAWithPreference p rand16 autn16 (go_bytes "isim_strict").
End provider.

(** ** What the card may answer *)
Definition tail_ok (tail : bytes) : Prop := padding tail \/ exists kc pad, tail = 8 :: kc ++ pad /\ len kc = 8 /\ padding pad.
(** The keys with their lengths and what may follow them, or bare. *)
Definition success_fields (res ck ik : bytes) (tail : option bytes) : bytes :=
  (len res :: res) ++ match tail with None => ck ++ ik | Some tail => (16 :: ck) ++ (16 :: ik) ++ tail end.
Definition success_ok (res ck ik : bytes) (tail : option bytes) : Prop :=
  4 <= len res <= 16 /\ len ck = 16 /\ len ik = 16 /\ match tail with None => True | Some tail => tail_ok tail end.

Lemma at_0 b l : at_ (E := error) (b :: l) 0 = Ok b.
Proof. done. Qed.
Lemma at_1 a b l : at_ (E := error) (a :: b :: l) 1 = Ok b.
Proof. done. Qed.
Lemma only_padding p pad i : padding pad -> i = len p -> hasOnlyTLVPadding (p ++ pad) i = Ok true.
Proof.
  intros Hp ->. unfold hasOnlyTLVPadding. replace (len (p ++ pad) <? len p) with false by len_lia. rewrite (slice_from_eq _ p pad) by done. cbn [bind].
  pose proof (trim_padding pad [] Hp) as E. rewrite app_nil_r in E. by rewrite E.
Qed.
Lemma optional_kc p kc pad i : len kc = 8 -> padding pad -> i = len p -> hasOptionalKc (p ++ 8 :: kc ++ pad) i = Ok true.
Proof.
  intros Hk Hp ->. unfold hasOptionalKc, AKAKcLength. pose proof (len_nonneg pad). assert (Hl : len (p ++ 8 :: kc ++ pad) = len p + 9 + len pad) by len_lia. rewrite Hl.
  replace (len p <? len p + 9 + len pad) with true by lia. cbn [negb]. rewrite at_app_r by done. cbn [bind]. change (negb (8 =? 8)) with false. cbv iota.
  replace (len p + 9 + len pad <? len p + 1 + 8) with false by lia. change (p ++ 8 :: kc ++ pad) with (p ++ [8] ++ kc ++ pad). rewrite !app_assoc. apply only_padding; [done|len_lia].
Qed.
Lemma parseUSIMAuthDB_ok res ck ik tail : success_ok res ck ik tail ->
  parseUSIMAuthDB (0xdb :: success_fields res ck ik tail) = Ok (Some (mkAKAResult res ck ik [])).
Proof.
  intros (Hr & Hck & Hik & Htail). unfold parseUSIMAuthDB, success_fields. set (rest := match tail with None => _ | Some _ => _ end).
  assert (Hrl : 32 <= len rest) by (subst rest; destruct tail; len_lia). set (body := 0xdb :: (len res :: res) ++ rest).
  assert (Hbody : len body = 2 + len res + len rest) by (subst body; len_lia). rewrite Hbody. replace (2 + len res + len rest <? 2) with false by lia.
  assert (at_ (E := error) body 0 = Ok 0xdb) as -> by done. cbn [bind]. change (negb (0xdb =? 0xdb)) with false. cbv iota zeta.
  assert (at_ (E := error) body 1 = Ok (len res)) as -> by done. cbn [bind].
  replace ((len res <=? 0) || (2 + len res + len rest <? 1 + 1 + len res + 1)) with false by lia.
  assert (slice (E := error) body (1 + 1) (1 + 1 + len res) = Ok res) as -> by (apply (slice_eq _ [0xdb; len res] res rest); [done|done|done]). cbn [bind].
  unfold AKARESMinLength, AKARESMaxLength, AKACKLength, AKAIKLength. replace ((len res <? 4) || (16 <? len res)) with false by lia.
  replace (2 + len res + len rest - (1 + 1 + len res)) with (len rest) by lia. destruct tail as [tail|]; subst rest.
  - pose proof (len_nonneg tail) as Hlt. assert (Hl : len ((16 :: ck) ++ (16 :: ik) ++ tail) = 34 + len tail) by len_lia. rewrite Hl in *. replace (34 + len tail =? 16 + 16) with false by lia. cbv iota.
    set (p := 0xdb :: len res :: res). assert (Hp : len p = 2 + len res) by (subst p; len_lia). assert (Eb : body = p ++ 16 :: ck ++ 16 :: ik ++ tail) by done.
    rewrite Eb. rewrite (at_app_r p) by lia. cbn [bind]. rewrite <- Eb. change (negb (16 =? 16)) with false. cbn [orb].
    replace (2 + len res + (34 + len tail) <? 1 + 1 + len res + 1 + 16 + 1) with false by lia.
    assert (slice (E := error) body (1 + 1 + len res + 1) (1 + 1 + len res + 1 + 16) = Ok ck) as ->.
    { apply (slice_eq _ (p ++ [16]) ck (16 :: ik ++ tail)); [rewrite Eb, <- app_assoc; done|len_lia|lia]. } cbn [bind].
    assert (at_ (E := error) body (1 + 1 + len res + 1 + 16) = Ok 16) as ->.
    { replace body with ((p ++ [16] ++ ck) ++ 16 :: ik ++ tail) by (rewrite Eb, <- !app_assoc; done). apply at_app_r. len_lia. } cbn [bind].
    change (negb (16 =? 16)) with false. cbn [orb]. replace (2 + len res + (34 + len tail) <? 1 + 1 + len res + 1 + 16 + 1 + 16) with false by lia.
    assert (slice (E := error) body (1 + 1 + len res + 1 + 16 + 1) (1 + 1 + len res + 1 + 16 + 1 + 16) = Ok ik) as ->.
    { apply (slice_eq _ (p ++ [16] ++ ck ++ [16]) ik tail); [rewrite Eb, <- !app_assoc; done|len_lia|lia]. } cbn [bind].
    set (q := p ++ [16] ++ ck ++ [16] ++ ik). assert (Hq : len q = 36 + len res) by (subst q; len_lia). assert (Eq : body = q ++ tail) by (subst q; rewrite Eb, <- !app_assoc; done).
    destruct (_ =? _); [done|]. destruct Htail as [Hpad|(kc & pad & -> & Hkc & Hpad)].
    + rewrite Eq, only_padding by (done || lia). done.
    + rewrite Eq, optional_kc by (done || lia). unfold hasOnlyTLVPadding. rewrite <- Eq, Hbody. replace (_ <? _) with false by lia.
      rewrite Eq, (slice_from_eq _ q (8 :: kc ++ pad)) by (done || lia). done.
  - assert (Hl : len (ck ++ ik) = 32) by len_lia. rewrite Hl. change (32 =? 16 + 16) with true. cbv iota.
    rewrite (slice_eq body (0xdb :: len res :: res) ck ik) by (done || len_lia). cbn [bind].
    rewrite (slice_eq body ((0xdb :: len res :: res) ++ ck) ik []) by (first [by subst body; rewrite app_nil_r, <- app_assoc | len_lia]). done.
Qed.
(** A success answer in BER form is not mistaken for the compact form: its length
    octet is no length of RES. *)
Lemma parseUSIMAuthDB_ber l0 rest : 16 < l0 -> parseUSIMAuthDB (0xdb :: l0 :: rest) = Ok None.
Proof.
  intros Hl. unfold parseUSIMAuthDB. pose proof (len_nonneg rest). replace (len (0xdb :: l0 :: rest) <? 2) with false by len_lia.
  rewrite at_0. cbn [bind]. change (negb (0xdb =? 0xdb)) with false. cbv iota zeta. rewrite at_1. cbn [bind].
  destruct ((l0 <=? 0) || _) eqn:E; [done|]. rewrite slice_Ok by len_lia. cbn [bind]. unfold AKARESMinLength, AKARESMaxLength. by replace ((l0 <? 4) || (16 <? l0)) with true by lia.
Qed.
Lemma encodeLength_head n lb : 17 <= n -> encodeLength n = Ok lb -> exists l0 lb', lb = l0 :: lb' /\ 16 < l0.
Proof.
  intros Hn. unfold encodeLength. repeat (match goal with |- context [if ?b then _ else _] => destruct b eqn:? end); intros [= <-]; eexists _, _; (split; [reflexivity|]); try lia.
  unfold to_u8. rewrite Z.mod_small; lia.
Qed.

(** The object, inside at most four templates. *)
Fixpoint wrap (templates : list Z) (inner : bytes) : bytes :=
  match templates with [] => inner | t :: ts => encoding t (wrap ts inner) end.
Fixpoint wrap_ok (templates : list Z) (inner : bytes) : Prop :=
  match templates with [] => True | t :: ts => tag_ok t /\ isConstructed t = true /\ value_fits (wrap ts inner) /\ wrap_ok ts inner end.
Lemma tag_ok_small t : is_u8 t -> tag_wire [t] = true -> tag_ok t.
Proof. intros Ht Hw. exists [t]. split; [by repeat constructor; apply Ht|]. split; [done|]. unfold be_decode. cbn [fold_left]. lia. Qed.
Lemma read_encoding tag value rest : tag_ok tag -> value_fits value ->
  exists body, encoding tag value ++ rest = body /\ trimTLVPadding body = body /\ 0 < len body /\
    exists r1, readTag body = Ok (tag, r1) /\ readLength r1 = Ok (len value, value ++ rest).
Proof.
  intros (bs & Hok & Hw & ->) Hf. destruct (EncodeTLV_wire bs value Hok Hw Hf) as (lb & Hl & Hlb & He). unfold encoding. rewrite He.
  exists (bs ++ lb ++ value ++ rest). split; [by rewrite <- !app_assoc|]. split; [by apply trim_wire|]. split.
  { destruct (tag_wire_head bs Hw) as (b & bs' & -> & _). len_lia. }
  exists (lb ++ value ++ rest). split; [by apply readTag_wire|]. apply (encodeLength_read (len value) lb); [apply len_nonneg|done].
Qed.
Lemma parse_depth templates depth pad pad' tag value : tag = 0xdb \/ tag = 0xdc \/ tag = 0xdd -> value_fits value -> wrap_ok templates (encoding tag value) ->
  (length templates < depth)%nat -> padding pad -> padding pad' ->
  parseUSIMAuthTLVDepth depth (pad ++ wrap templates (encoding tag value) ++ pad') = Ok (tag, value, true).
Proof.
  intros Htag Hf. revert depth pad pad'. induction templates as [|t ts IH]; intros depth pad pad' Hw Hd Hp Hp'; (destruct depth as [|depth]; [cbn in Hd; lia|]).
  - cbn [wrap parseUSIMAuthTLVDepth]. rewrite trim_padding by done. assert (Ht : tag_ok tag) by (destruct Htag as [-> | [-> | ->]]; by apply tag_ok_small).
    destruct (read_encoding tag value pad' Ht Hf) as (body & -> & -> & Hl & r1 & -> & Hr2). replace (len body =? 0) with false by lia. cbn [bind]. rewrite Hr2. cbn [bind].
    replace (len (value ++ pad') <? len value) with false by len_lia. rewrite (slice_eq _ [] value pad') by (done || lia). cbn [bind]. rewrite (slice_from_eq _ value pad') by done. cbn [bind].
    pose proof (trim_padding pad' [] Hp') as E. rewrite app_nil_r in E. rewrite E. cbv iota. by destruct Htag as [-> | [-> | ->]].
  - cbn [wrap parseUSIMAuthTLVDepth]. rewrite trim_padding by done. cbn [wrap_ok] in Hw. destruct Hw as (Ht & Hcon & Hfit & Hw).
    destruct (read_encoding t _ pad' Ht Hfit) as (body & -> & -> & Hl & r1 & -> & Hr2). replace (len body =? 0) with false by lia. cbn [bind]. rewrite Hr2. cbn [bind].
    set (inner := wrap ts (encoding tag value)) in *. replace (len (inner ++ pad') <? len inner) with false by len_lia.
    rewrite (slice_eq _ [] inner pad') by (done || lia). cbn [bind]. rewrite (slice_from_eq _ inner pad') by done. cbn [bind].
    pose proof (trim_padding pad' [] Hp') as E. rewrite app_nil_r in E. rewrite E. cbv iota. change (negb (len (trimTLVPadding []) =? 0)) with false. cbv iota.
    assert ((t =? 0xdb) || (t =? 0xdc) || (t =? 0xdd) = false) as -> by (destruct (Z.eqb_spec t 0xdb) as [->|]; [done|]; destruct (Z.eqb_spec t 0xdc) as [->|]; [done|]; by destruct (Z.eqb_spec t 0xdd) as [->|]).
    rewrite Hcon. pose proof (IH depth [] [] Hw ltac:(cbn in Hd; lia) ltac:(constructor) ltac:(constructor)) as H. by rewrite app_nil_r in H.
Qed.

(** The three answers of a SIM to AUTHENTICATE. *)
Inductive card_answer :=
| Authenticated (res ck ik : bytes) (tail : option bytes)
| OutOfSync (auts : bytes)
| WrongMAC.
Definition answer_tag (a : card_answer) : Z := match a with Authenticated _ _ _ _ => 0xdb | OutOfSync _ => 0xdc | WrongMAC => 0xdd end.
Definition answer_value (a : card_answer) : bytes :=
  match a with Authenticated res ck ik tail => success_fields res ck ik tail | OutOfSync auts => auts | WrongMAC => [] end.
Definition answer_ok (a : card_answer) : Prop :=
  value_fits (answer_value a) /\ match a with Authenticated res ck ik tail => success_ok res ck ik tail | OutOfSync auts => len auts = 14 | WrongMAC => True end.
Definition answer_means (a : card_answer) : sim_return :=
  match a with
  | Authenticated res ck ik _ => (mkAKAResult res ck ik [], None)
  | OutOfSync auts => (mkAKAResult [] [] [] auts, Some (SyncFailureError auts))
  | WrongMAC => (zeroAKA, Some (Sentinel ErrAuthFailure))
  end.
Definition answer_class (a : card_answer) : AKAAuthResponseClass :=
  match a with Authenticated _ _ _ _ => AKAAuthResponseClassSuccess | OutOfSync _ => AKAAuthResponseClassSyncFailure | WrongMAC => AKAAuthResponseClassMACFailure end.

Lemma ParseAUTS_ok auts : len auts = 14 -> exists fields, ParseAUTS auts = Ok fields /\ AUTSFields_Bytes fields = Ok auts.
Proof.
  intros Hl. unfold ParseAUTS, AKAAUTSLength, AKAAKLength. rewrite Hl. change (negb (14 =? 14)) with false. cbv iota. unfold slice_from. rewrite !slice_Ok by lia. cbn [bind].
  eexists. split; [done|]. unfold AUTSFields_Bytes, AKAAKLength, AKAMACLength. cbn [auts_SQNMSXorAK auts_MACS]. rewrite !sub_len by lia. rewrite Hl.
  change (negb (6 - 0 =? 6)) with false. change (negb (14 - 6 =? 8)) with false. cbv iota. f_equal. rewrite <- Hl. rewrite sub_split by lia. by rewrite sub_to_end, drop_0 by lia.
Qed.
Lemma payload_parsed a : answer_ok a -> parseUSIMAuthPayload (answer_tag a) (answer_value a) = Ok (answer_means a).
Proof.
  intros [_ Ha]. destruct a as [res ck ik tail|auts|]; cbn [answer_tag answer_value answer_means]; unfold parseUSIMAuthPayload.
  - change (0xdb =? 0xdb) with true. cbv iota. by rewrite parseUSIMAuthDB_ok.
  - change (0xdc =? 0xdb) with false. change (0xdc =? 0xdc) with true. cbv iota. destruct (ParseAUTS_ok auts Ha) as (fields & -> & _). done.
  - done.
Qed.
Lemma wrap_head templates tag value rest : tag = 0xdb \/ tag = 0xdc \/ tag = 0xdd -> value_fits value -> wrap_ok templates (encoding tag value) ->
  exists b0 l0 more, wrap templates (encoding tag value) ++ rest = b0 :: l0 :: more /\ b0 <> 0x00 /\ b0 <> 0xff /\
    (b0 = 0xdb -> templates = [] /\ tag = 0xdb /\ (17 <= len value -> 16 < l0)).
Proof.
  intros Htag Hf Hw. destruct templates as [|t ts]; cbn [wrap wrap_ok] in *.
  - assert (Hone : bytes_ok [tag] /\ tag_wire [tag] = true /\ be_decode [tag] = tag) by (destruct Htag as [-> | [-> | ->]]; by_decide). destruct Hone as (H1 & H2 & H3).
    destruct (EncodeTLV_wire [tag] value H1 H2 Hf) as (lb & Hl & Hlb & He). rewrite H3 in He. unfold encoding. rewrite He.
    destruct lb as [|l0 lb]; [done|]. exists tag, l0, ((lb ++ value) ++ rest). split; [done|]. split_and!; [lia|lia|].
    intros ->. split; [done|]. split; [done|]. intros H17. destruct (encodeLength_head _ _ H17 Hl) as (x & y & [= -> ->] & Hx). done.
  - destruct Hw as (Ht & Hcon & Hfit & _). destruct Ht as (bs & Hok & Hwire & ->). destruct (EncodeTLV_wire bs _ Hok Hwire Hfit) as (lb & Hl & Hlb & He). unfold encoding at 1. rewrite He.
    destruct (tag_wire_head bs Hwire) as (b & bs' & -> & H0 & Hff). destruct (bs' ++ lb) as [|l0 more] eqn:E.
    { apply (f_equal len) in E. rewrite len_app, len_nil in E. pose proof (len_nonneg bs'). lia. }
    exists b, l0, (more ++ wrap ts (encoding tag value) ++ rest). split; [cbn [app]; f_equal; rewrite <- !app_assoc, app_assoc, E; done|]. split; [done|]. split; [done|].
    intros ->. exfalso. cbn [tag_wire] in Hwire. destruct bs' as [|b' bs']; [done|]. by change (Z.land 0xdb 0x1f =? 0x1f) with false in Hwire.
Qed.

Lemma answers_parsed a templates pad pad' : answer_ok a -> wrap_ok templates (encoding (answer_tag a) (answer_value a)) -> (length templates <= 4)%nat -> padding pad -> padding pad' ->
  ParseUSIMAuthResponse (pad ++ wrap templates (encoding (answer_tag a) (answer_value a)) ++ pad') 0x90 0x00 = Ok (answer_means a).
Proof.
  intros Ha Hw Hl Hp Hp'. unfold ParseUSIMAuthResponse. change (negb (0x90 =? 0x90) || negb (0x00 =? 0x00)) with false. cbv iota zeta. rewrite trim_padding by done.
  assert (Htag : answer_tag a = 0xdb \/ answer_tag a = 0xdc \/ answer_tag a = 0xdd) by (destruct a; cbn; tauto). pose proof Ha as [Hfit Hkind].
  pose proof (parse_depth templates 5 [] pad' _ _ Htag Hfit Hw ltac:(lia) ltac:(constructor) Hp') as Hparse. cbn [app] in Hparse.
  destruct (wrap_head templates _ _ pad' Htag Hfit Hw) as (b0 & l0 & more & E & H0 & Hff & Hdb). rewrite E in Hparse |- *.
  assert (trimTLVPadding (b0 :: l0 :: more) = b0 :: l0 :: more) as -> by (cbn [trimTLVPadding]; by replace ((b0 =? 0x00) || (b0 =? 0xff)) with false by lia).
  pose proof (len_nonneg more). replace (len (b0 :: l0 :: more) <? 2) with false by len_lia. rewrite at_0. cbn [bind]. unfold parseUSIMAuthTLV. rewrite Hparse.
  assert ((if b0 =? 0xdb then parseUSIMAuthDB (b0 :: l0 :: more) else Ok None) = Ok None) as ->.
  { destruct (Z.eqb_spec b0 0xdb) as [->|]; [|done]. destruct (Hdb eq_refl) as (_ & Htag' & Hlen). apply parseUSIMAuthDB_ber, Hlen.
    destruct a as [res ck ik tail| |]; [|done|done]. destruct Hkind as (? & ? & ? & _). cbn [answer_value]. unfold success_fields. destruct tail; len_lia. }
  cbn [bind]. by apply payload_parsed.
Qed.
Lemma compact_parsed res ck ik tail pad : success_ok res ck ik tail -> padding pad ->
  ParseUSIMAuthResponse (pad ++ 0xdb :: success_fields res ck ik tail) 0x90 0x00 = Ok (mkAKAResult res ck ik [], None).
Proof.
  intros Hok Hp. unfold ParseUSIMAuthResponse. change (negb (0x90 =? 0x90) || negb (0x00 =? 0x00)) with false. cbv iota zeta. rewrite trim_padding by done.
  change (trimTLVPadding (0xdb :: success_fields res ck ik tail)) with (0xdb :: success_fields res ck ik tail).
  assert (1 <= len (success_fields res ck ik tail)) by (unfold success_fields; len_lia). replace (len (0xdb :: _) <? 2) with false by len_lia. rewrite at_0. cbn [bind].
  change (0xdb =? 0xdb) with true. cbv iota. rewrite parseUSIMAuthDB_ok by done. done.
Qed.
(** What the SIM answers is what the client takes it for: an authentication
    (in the compact form and as a BER object, bare keys or keys with lengths, with
    or without Kc), a synchronisation failure with its AUTS and a MAC failure, in
    up to four templates and between filler octets; and the class is the answer's. *)
Theorem ParseUSIMAuthResponse_correct (a : card_answer) (templates : list Z) (pad pad' : bytes) :
  answer_ok a -> wrap_ok templates (encoding (answer_tag a) (answer_value a)) -> (length templates <= 4)%nat -> padding pad -> padding pad' ->
  ParseUSIMAuthResponse (pad ++ wrap templates (encoding (answer_tag a) (answer_value a)) ++ pad') 0x90 0x00 = Ok (answer_means a) /\
  (forall res ck ik tail, a = Authenticated res ck ik tail ->
    ParseUSIMAuthResponse (pad ++ 0xdb :: success_fields res ck ik tail) 0x90 0x00 = Ok (answer_means a)) /\
  exists info, ClassifyUSIMAuthResponse (pad ++ wrap templates (encoding (answer_tag a) (answer_value a)) ++ pad') 0x90 0x00 = Ok (info, (answer_means a).2) /\
    ai_Class info = answer_class a /\ ai_Result info = (answer_means a).1 /\ ai_Status info = 0x9000 /\
    (forall auts, a = OutOfSync auts -> AUTSFields_Bytes (ai_AUTS info) = Ok auts).
Proof.
  intros Ha Hw Hl Hp Hp'. split; [by apply answers_parsed|]. split; [intros res ck ik tail ->; apply compact_parsed; [apply Ha|done]|].
  unfold ClassifyUSIMAuthResponse. rewrite answers_parsed by done. cbn [bind]. change (negb (0x90 =? 0x90) || negb (0x00 =? 0x00)) with false. destruct a as [res ck ik tail|auts|]; cbn [answer_means] in *.
  - eexists. split; [reflexivity|]. done.
  - destruct Ha as [_ Hauts]. destruct (ParseAUTS_ok auts Hauts) as (fields & E & Hb). change (errors_Is (SyncFailureError auts) ErrSyncFailure) with true. cbv iota. cbn [aka_AUTS]. rewrite E.
    eexists. split; [reflexivity|]. split_and!; try done. by intros ? [= <-].
  - eexists. split; [reflexivity|]. done.
Qed.
Definition sample_auth : card_answer := Authenticated [1; 2; 3; 4; 5; 6; 7; 8] (replicate 16 0xc) (replicate 16 0x1) (Some (8 :: replicate 8 0x33 ++ [0xff])).
Lemma ParseUSIMAuthResponse_correct_witness :
  (ParseUSIMAuthResponse ([0x00] ++ wrap [0x62; 0x73] (encoding 0xdb (answer_value sample_auth)) ++ [0xff; 0xff]) 0x90 0x00 = Ok (answer_means sample_auth)) /\
  (ParseUSIMAuthResponse ([] ++ wrap [] (encoding 0xdc (replicate 14 7)) ++ []) 0x90 0x00 = Ok (answer_means (OutOfSync (replicate 14 7)))).
Proof.
  split.
  - apply (ParseUSIMAuthResponse_correct sample_auth [0x62; 0x73] [0x00] [0xff; 0xff]).
    + split; [by_decide|]. split; [by_decide|]. split; [done|]. split; [done|]. right. exists (replicate 8 0x33), [0xff]. split; [done|]. split; [done|]. repeat constructor; by right.
    + cbn [wrap_ok]. split; [by apply tag_ok_small|]. split; [done|]. split; [by_decide|]. split; [by apply tag_ok_small|]. split; [done|]. split; [by_decide|done].
    + cbn. lia.
    + by_decide.
    + by_decide.
  - apply (ParseUSIMAuthResponse_correct (OutOfSync (replicate 14 7)) [] [] []); [split; by_decide|done|cbn; lia|constructor|constructor].
Defined.

(** ** Channels

    A transport that keeps a log of the channels it opened and closed and of the
    commands on them. *)
Inductive event := Opened (channel : Z) | Closed (channel : Z) | Sent (channel : Z).
Section log.
Context {U : UnicodeCase} {C : Type} {T : LogicalChannelTransport C} (transient_text : error -> bool).
Definition logged {A} (m : act C A) (note : result A -> list event) : act (C * list event) A :=
  fun s => let '(c, r) := m s.1 in ((c, s.2 ++ note r), r).
Instance logged_transport : LogicalChannelTransport (C * list event) :=
  {| OpenLogicalChannel aid := logged (OpenLogicalChannel aid) (fun r => match r with Ok ch => [Opened ch] | _ => [] end);
     CloseLogicalChannel ch := logged (CloseLogicalChannel ch) (fun _ => [Closed ch]);
     TransmitAPDU ch text := logged (TransmitAPDU ch text) (fun _ => [Sent ch]);
     ResolveLogicalChannelAID := match ResolveLogicalChannelAID with
       | Some resolve => Some (fun app aid => logged (resolve app aid) (fun _ => []))
       | None => None
       end |}.
(** The call sends at most [n] commands on the channel and does nothing else to it. *)
Definition sends (ch : Z) (n : nat) {A} (m : act (C * list event) A) : Prop :=
  forall s, exists k, (k <= n)%nat /\ (m s).1.2 = s.2 ++ replicate k (Sent ch).
Lemma sends_lift ch {A} (r : result A) : sends ch 0 (alift r).
Proof. intros s. exists O. split; [lia|]. cbn. by rewrite app_nil_r. Qed.
Lemma sends_ret ch {A} (a : A) : sends ch 0 (aret a).
Proof. apply (sends_lift ch (Ok a)). Qed.
Lemma sends_fail ch {A} e : sends ch 0 (A := A) (afail e).
Proof. apply (sends_lift ch (Err e)). Qed.
Lemma sends_mono ch n m {A} (x : act (C * list event) A) : sends ch n x -> (n <= m)%nat -> sends ch m x.
Proof. intros H Hm s. destruct (H s) as (k & ? & ?). exists k. split; [lia|done]. Qed.
Lemma sends_bind ch n1 n2 {A B} (x : act (C * list event) A) (k : A -> act (C * list event) B) :
  sends ch n1 x -> (forall a, sends ch n2 (k a)) -> sends ch (n1 + n2) (abind x k).
Proof.
  intros Hx Hk s. unfold abind. destruct (Hx s) as (k1 & H1 & E1). destruct (x s) as [s' [a|e| |]]; cbn [fst] in *; try (exists k1; split; [lia|done]).
  destruct (Hk a s') as (k2 & H2 & E2). exists (k1 + k2)%nat. split; [lia|]. rewrite E2, E1, replicate_add. by rewrite app_assoc.
Qed.
Lemma sends_try ch n {A} (x : act (C * list event) A) : sends ch n x -> sends ch n (atry x).
Proof. intros Hx s. unfold atry. destruct (Hx s) as (k & Hk & E). exists k. split; [done|]. by destruct (x s) as [s' [a|e| |]]. Qed.
Lemma sends_once ch cmd : sends ch 1 (transmitOnce ch cmd).
Proof.
  apply (sends_bind ch 1 0); [|intros; apply sends_lift]. intros s. exists 1%nat. split; [lia|]. cbn [TransmitAPDU logged_transport]. unfold logged. by destruct (TransmitAPDU ch _ s.1).
Qed.
Lemma sends_chase ch n cla r body : sends ch n (chase_loop n ch cla r body).
Proof.
  revert r body. induction n as [|n IH]; intros r body; [apply sends_ret|]. cbn [chase_loop]. destruct (requestsGetResponse _); [|by eapply sends_mono; [apply sends_ret|lia]].
  apply (sends_bind ch 0 (S n)); [apply sends_lift|]. intros le. apply (sends_bind ch 1 n); [apply sends_once|]. intros g. apply IH.
Qed.
(** Two commands and four GET RESPONSE commands at most. *)
Lemma sends_Transmit ch cmd : sends ch 6 (Transmit ch cmd).
Proof.
  apply (sends_bind ch 1 5); [apply sends_once|]. intros r. apply (sends_bind ch 1 4).
  - destruct (_ =? _); [|by eapply sends_mono; [apply sends_ret|lia]]. apply (sends_bind ch 0 1); [apply sends_lift|intros; apply sends_once].
  - intros r1. unfold chaseGetResponse. destruct (requestsGetResponse _); [apply sends_chase|by eapply sends_mono; [apply sends_ret|lia]].
Qed.
Lemma sends_auth ch n apdu : sends ch (6 * S n) (transmit_auth_loop transient_text n ch apdu).
Proof.
  induction n as [|n IH]; cbn [transmit_auth_loop].
  - apply (sends_bind ch 6 0); [apply sends_try, sends_Transmit|]. intros r. apply sends_ret.
  - replace (6 * S (S n))%nat with (6 + 6 * S n)%nat by lia. apply sends_bind; [apply sends_try, sends_Transmit|]. intros r.
    destruct (isTransientUSIMAuthFailure _ r); [exact IH|]. eapply sends_mono; [apply sends_ret|lia].
Qed.
Definition session_limit (p : AKAProvider) : nat := 12 * S (Z.to_nat (authTransientRetries p)).
Lemma sends_authenticate p ch rand16 autn16 : sends ch (session_limit p) (authenticate_on transient_text p ch rand16 autn16).
Proof.
  unfold session_limit. set (n := Z.to_nat (authTransientRetries p)). replace (12 * S n)%nat with (0 + (6 * S n + (0 + (6 * S n + 0))))%nat by lia.
  apply sends_bind; [apply sends_lift|]. intros apdu. apply sends_bind; [apply sends_auth|].
  assert (Hsecond : forall (k : Response + error -> act (C * list event) sim_return), (forall r, sends ch 0 (k r)) ->
    sends ch (0 + (6 * S n + 0)) (let& apdu := alift (BuildUSIMAuthAPDU rand16 autn16 true) in let& second := transmitUSIMAuth transient_text p ch apdu in k second)).
  { intros k Hk. apply sends_bind; [apply sends_lift|]. intros apdu2. apply sends_bind; [apply sends_auth|exact Hk]. }
  intros [resp|err].
  - destruct (Success resp); [eapply sends_mono; [apply sends_lift|lia]|]. apply Hsecond. intros [r2|e2]; [apply sends_lift|apply sends_fail].
  - apply Hsecond. intros [r2|e2]; [apply sends_lift|apply sends_fail].
Qed.

(** A session: one channel, opened, used and closed. *)
Definition session (n : nat) (l : list event) : Prop := l = [] \/ exists ch k, (k <= n)%nat /\ l = Opened ch :: replicate k (Sent ch) ++ [Closed ch].
Lemma resolve_quiet app aid prefix s : (ResolveAIDCandidates (C := C * list event) app aid prefix s).1.2 = s.2.
Proof.
  unfold ResolveAIDCandidates. cbn [ResolveLogicalChannelAID logged_transport]. cbv zeta.
  assert (Hfallback : forall w f, ((if len f =? 0 then afail (ErrText "AID is empty") else alift (addCandidate w f (go_bytes "fallback") [])) s).1.2 = s.2) by (intros w f; by destruct (len f =? 0)).
  destruct (ResolveLogicalChannelAID (C := C)) as [resolve|]; [|apply Hfallback]. unfold abind at 1, atry, logged. cbv beta. destruct (resolve _ _ s.1) as [c [[a src]|e| |]]; cbn [fst snd]; rewrite ?app_nil_r; try done.
  - unfold abind, alift. destruct (addCandidate _ a src []) as [cs|e| |]; try done. destruct (len _ =? 0); [done|]. cbv zeta.
    match goal with |- context [match ?x with Ok _ => _ | Err _ => _ | Panic => _ | OutOfFuel => _ end] => destruct x as [cs2|e2| |] end; try done. by destruct (len cs =? 0).
  - unfold afail, alift. by destruct (len _ =? 0).
Qed.
Lemma open_loop_log candidates s :
  let '(s', r) := open_loop candidates s in match r with Ok (ch, _, _) => s'.2 = s.2 ++ [Opened ch] | _ => s'.2 = s.2 end.
Proof.
  revert s. induction candidates as [|cand candidates IH]; intros s; [done|]. cbn [open_loop]. unfold abind, atry. cbn [OpenLogicalChannel logged_transport]. unfold logged at 1.
  destruct (OpenLogicalChannel (ca_AID cand) s.1) as [c [ch|e| |]]; cbn [fst snd]; try (by rewrite app_nil_r); [done|]. specialize (IH (c, s.2 ++ [])). cbn [snd] in IH. by rewrite app_nil_r in *.
Qed.
Lemma open_log app aid prefix s :
  let '(s', r) := OpenLogicalChannelWithAIDFallback app aid prefix s in match r with Ok (ch, _, _) => s'.2 = s.2 ++ [Opened ch] | _ => s'.2 = s.2 end.
Proof.
  unfold OpenLogicalChannelWithAIDFallback, abind. pose proof (resolve_quiet app aid prefix s) as Hq. destruct (ResolveAIDCandidates app aid prefix s) as [s1 [cs|e| |]]; cbn [fst] in Hq; try done.
  destruct cs as [|cand cs]; [done|]. pose proof (open_loop_log (cand :: cs) s1) as Ho. by rewrite Hq in Ho.
Qed.
Lemma app_session p app aid prefix rand16 autn16 s :
  exists l, session (session_limit p) l /\ (calculateAKAOnApp transient_text p app aid prefix rand16 autn16 s).1.2 = s.2 ++ l.
Proof.
  unfold calculateAKAOnApp, with_error. set (m := abind (OpenLogicalChannelWithAIDFallback app aid prefix) _).
  enough (H : exists l, session (session_limit p) l /\ (m s).1.2 = s.2 ++ l).
  { destruct H as (l & Hl & E). exists l. split; [done|]. unfold abind, atry. destruct (m s) as [s' [r|e| |]]; done. }
  subst m. unfold abind. pose proof (open_log app aid prefix s) as Ho. destruct (OpenLogicalChannelWithAIDFallback app aid prefix s) as [s1 [[[ch a] src]|e| |]];
    try (exists []; split; [by left|by rewrite app_nil_r]).
  unfold adefer. destruct (sends_authenticate p ch rand16 autn16 s1) as (k & Hk & E). destruct (authenticate_on transient_text p ch rand16 autn16 s1) as [s2 r]. cbn [fst] in E.
  cbn [CloseLogicalChannel logged_transport]. unfold logged. destruct (CloseLogicalChannel ch s2.1) as [c3 r3]. exists (Opened ch :: replicate k (Sent ch) ++ [Closed ch]).
  split; [right; by exists ch, k|]. cbn [fst snd]. rewrite E, Ho. by rewrite <- !app_assoc.
Qed.
(** C40: No channel is left open: on every transport, whatever it answers, an
    authentication uses at most two channels one after the other; each channel that
    was opened is closed after its last command, and carries at most twelve
    commands for each allowed attempt. *)
Theorem channels_closed (p : AKAProvider) (rand16 autn16 preference : bytes) (c : C) :
  exists l1 l2, session (session_limit p) l1 /\ session (session_limit p) l2 /\
    (CalculateAKAWithPreference transient_text p rand16 autn16 preference (c, [])).1.2 = l1 ++ l2.
Proof.
  unfold CalculateAKAWithPreference. cbv zeta.
  assert (Husim : exists l1 l2, session (session_limit p) l1 /\ session (session_limit p) l2 /\ (on_usim transient_text p rand16 autn16 (c, [])).1.2 = l1 ++ l2).
  { destruct (app_session p (go_bytes "usim") USIMAIDPrefix USIMAIDPrefix rand16 autn16 (c, [])) as (l & Hl & E). exists l, []. split; [done|]. split; [by left|]. by rewrite app_nil_r. }
  destruct (_ || _ || _); [|exact Husim]. destruct (app_session p (go_bytes "isim") ISIMAIDPrefix ISIMAIDPrefix rand16 autn16 (c, [])) as (l & Hl & E).
  unfold abind. unfold on_isim. destruct (calculateAKAOnApp transient_text p (go_bytes "isim") ISIMAIDPrefix ISIMAIDPrefix rand16 autn16 (c, [])) as [s1 [[res [err|]]|e| |]]; cbn [fst snd app] in E;
    try (exists l, []; split; [done|]; split; [by left|]; by rewrite app_nil_r).
  destruct (lower_equal _ _); [exists l, []; split; [done|]; split; [by left|]; by rewrite app_nil_r|].
  destruct (app_session p (go_bytes "usim") USIMAIDPrefix USIMAIDPrefix rand16 autn16 s1) as (l2 & Hl2 & E2). exists l, l2. split; [done|]. split; [done|]. by rewrite E in E2.
Qed.
End log.
