(* ===== verification/SimIdentity.v ===== *)
(** * Identities on the SIM card (runtimehost/simauth/identity.go)

    The IMSI in its elementary file, the text of the ISIM's files, and the
    permanent identities of EAP-AKA that are made of the IMSI and the network's
    codes. *)
From S2P Require Import Prelude GoStrings Errors Utf8 Tlv.
#[local] Open Scope string_scope.
#[local] Open Scope list_scope.
#[local] Open Scope Z_scope.

Definition EAPAKAPermanentIdentityPrefix : Z := 48.
Definition EAPAKAPrimePermanentIdentityPrefix : Z := 54.
Record EAPAKAPermanentIdentity := mkIdentity { ei_Prefix : Z; ei_IMSI : bytes; ei_MCC : bytes; ei_MNC : bytes; ei_Realm : bytes }.

(** ** Digits *)
Definition decimal (b : Z) : bool := (48 <=? b) && (b <=? 57).
Definition validateDecimalDigits (value : bytes) (minLen maxLen : Z) : result unit :=
  if (len value <? minLen) || (maxLen <? len value) then Err (ErrText "length must be within digits") else
  if negb (forallb decimal value) then Err (ErrText "contains non-decimal digit") else
  Ok tt.

(** ** Elementary files *)
Definition trimEFPadding (data : bytes) : bytes :=
  let front := trimTLVPadding data in reverse (trimTLVPadding (reverse front)).
Fixpoint trim_ff (data : bytes) : bytes := match data with b :: rest => if b =? 0xff then trim_ff rest else data | [] => [] end.
Definition trimTrailingFF (data : bytes) : bytes := reverse (trim_ff (reverse data)).

(** [None]: no length. *)
Definition readSIMStringLength (data : bytes) : result (option (Z * bytes)) :=
  match data with
  | [] => Ok None
  | first :: rest =>
      if Z.land first 0x80 =? 0 then Ok (Some (first, rest)) else
      let n := Z.land first 0x7f in
      if (n =? 0) || (4 <? n) || (len rest <? n) then Ok None else
      let! parts := slice rest 0 n in
      let! rest := slice_from rest n in
      match length_loop parts 0 with Ok length => Ok (Some (length, rest)) | Err _ => Ok None | Panic => Panic | OutOfFuel => OutOfFuel end
  end.
Definition decodeISIMDataObject (data : bytes) : result (option bytes) :=
  let! r := readSIMStringLength data in
  match r with
  | Some (l, rest) => if len rest <? l then Ok None else let! v := slice rest 0 l in Ok (Some v)
  | None => Ok None
  end.
Definition decodeISIMTextValue (data : bytes) : bytes :=
  let data := trimEFPadding data in
  if len data =? 0 then [] else TrimSpace data.
Definition decodeISIMStringValue (data : bytes) : result bytes :=
  let data := trimEFPadding data in
  if len data =? 0 then Ok [] else
  let! r := readSIMStringLength data in
  match r with
  | Some (l, rest) =>
      if (0 <? l) && (l <=? len rest) then let! v := slice rest 0 l in Ok (TrimSpace (trimEFPadding v)) else Ok (TrimSpace data)
  | None => Ok (TrimSpace data)
  end.
Definition decode_isim_other (data : bytes) : result bytes :=
  let! found := FindTLV data 0x80 in
  match found with
  | Some v => let s := decodeISIMTextValue v in if len s =? 0 then decodeISIMStringValue data else Ok s
  | None => decodeISIMStringValue data
  end.
Definition DecodeISIMIdentityString (raw : bytes) : result bytes :=
  let data := trimEFPadding raw in
  if len data =? 0 then Ok [] else
  let! first := at_ data 0 in
  if first =? 0x80 then
    let! rest := slice_from data 1 in
    let! object := decodeISIMDataObject rest in
    match object with Some v => Ok (decodeISIMTextValue v) | None => decode_isim_other data end
  else decode_isim_other data.
Definition EncodeISIMIdentityString (value : bytes) : result bytes :=
  let value := TrimSpace value in
  if len value =? 0 then Err (ErrText "ISIM identity string is empty") else
  EncodeTLV 0x80 value.
Definition PadISIMIdentityRecord (encoded : bytes) (recordLength : Z) : result bytes :=
  if recordLength <=? 0 then Err (ErrText "ISIM record length must be positive") else
  if recordLength <? len encoded then Err (ErrText "ISIM record length is too small") else
  Ok (encoded ++ replicate (Z.to_nat (recordLength - len encoded)) 0xff).

(** [appendBCDDigit] refuses a nibble above nine. *)
Definition appendBCDDigit (out : bytes) (nibble : Z) : option bytes := if 9 <? nibble then None else Some (out ++ [to_u8 (48 + nibble)]).
(** [for i, b := range mobileID[1:]] *)
Fixpoint imsi_loop (octets : bytes) (oddDigits : bool) (digits : bytes) : result bytes :=
  match octets with
  | [] => Ok digits
  | b :: rest =>
      match appendBCDDigit digits (Z.land b 0x0f) with
      | None => Err (ErrText "EF_IMSI digit is not BCD")
      | Some digits =>
          let hi := Z.shiftr b 4 in
          let last := len rest =? 0 in
          if last && negb oddDigits then
            if negb (hi =? 0x0f) then Err (ErrText "EF_IMSI even-length filler") else imsi_loop rest oddDigits digits
          else
            match appendBCDDigit digits hi with
            | None => Err (ErrText "EF_IMSI digit is not BCD")
            | Some digits => imsi_loop rest oddDigits digits
            end
      end
  end.
Definition DecodeUSIMIMSI (raw : bytes) : result bytes :=
  if len (trimEFPadding raw) =? 0 then Err (ErrText "EF_IMSI data empty") else
  let data := trimTrailingFF raw in
  let! length := at_ data 0 in
  if length <=? 0 then Err (ErrText "EF_IMSI length is zero") else
  if len data - 1 <? length then Err (ErrText "EF_IMSI length exceeds remaining") else
  let! mobileID := slice data 1 (1 + length) in
  if len mobileID =? 0 then Err (ErrText "EF_IMSI mobile identity empty") else
  let! m0 := at_ mobileID 0 in
  if negb (Z.land m0 0x07 =? 0x01) then Err (ErrText "EF_IMSI mobile identity type") else
  let oddDigits := negb (Z.land m0 0x08 =? 0) in
  match appendBCDDigit [] (Z.shiftr m0 4) with
  | None => Err (ErrText "EF_IMSI digit 1 is not BCD")
  | Some digits =>
      let! octets := slice_from mobileID 1 in
      let! digits := imsi_loop octets oddDigits digits in
      if oddDigits && (len digits mod 2 =? 0) then Err (ErrText "EF_IMSI odd/even indicator") else
      if negb oddDigits && negb (len digits mod 2 =? 0) then Err (ErrText "EF_IMSI odd/even indicator") else
      Ok digits
  end.
(** [for i := 1; i < len(imsi); i += 2]: two digits to an octet, 0xF when the second is missing. *)
Fixpoint imsi_octets (digits : bytes) : bytes :=
  match digits with
  | [] => []
  | [lo] => [Z.lor (lo - 48) (to_u8 (Z.shiftl 0x0f 4))]
  | lo :: hi :: rest => Z.lor (lo - 48) (to_u8 (Z.shiftl (hi - 48) 4)) :: imsi_octets rest
  end.
Definition EncodeUSIMIMSI (imsi : bytes) : result bytes :=
  let imsi := TrimSpace imsi in
  let! _ := validateDecimalDigits imsi 5 15 in
  let mobileIdentityLength := 1 + len imsi / 2 in
  let! i0 := at_ imsi 0 in
  let first := Z.lor (to_u8 (Z.shiftl (i0 - 48) 4)) 0x01 in
  let first := if negb (len imsi mod 2 =? 0) then Z.lor first 0x08 else first in
  let! rest := slice_from imsi 1 in
  Ok ([to_u8 mobileIdentityLength; first] ++ imsi_octets rest).
Definition MNCLengthFromAD (ad : bytes) : result (option Z) :=
  if len ad <? 4 then Ok None else
  let! b := at_ ad 3 in
  let mncLen := Z.land b 0x0f in
  Ok (if negb (mncLen =? 2) && negb (mncLen =? 3) then None else Some mncLen).

(** ** Permanent identities *)
Definition eapAKARealm (mcc mnc : bytes) : bytes :=
  let mnc := if len mnc =? 2 then [48] ++ mnc else mnc in
  go_bytes "wlan.mnc" ++ mnc ++ go_bytes ".mcc" ++ mcc ++ go_bytes ".3gppnetwork.org".
Definition validateIMSIPLMN (imsi mcc mnc : bytes) : result unit :=
  if negb (strings_HasPrefix imsi mcc) then Err (ErrText "IMSI does not match MCC") else
  let! rest := slice_from imsi (len mcc) in
  if negb (strings_HasPrefix rest mnc) then Err (ErrText "IMSI does not match MNC") else
  Ok tt.
(** [imsi, mcc, mnc, realm] *)
Definition normalizeEAPAKAIdentityParts (imsi mcc mnc : bytes) : result (bytes * bytes * bytes * bytes) :=
  let imsi := TrimSpace imsi in
  let mcc := TrimSpace mcc in
  let mnc := TrimSpace mnc in
  let! _ := validateDecimalDigits imsi 5 15 in
  let! mcc := if (len mcc =? 0) && (3 <=? len imsi) then slice imsi 0 3 else Ok mcc in
  let! mnc := if (len mnc =? 0) && (6 <=? len imsi) then slice imsi 3 6 else Ok mnc in
  let! _ := validateDecimalDigits mcc 3 3 in
  let! _ := validateDecimalDigits mnc 2 3 in
  let! _ := validateIMSIPLMN imsi mcc mnc in
  Ok (imsi, mcc, mnc, eapAKARealm mcc mnc).
Definition formatEAPAKAPermanentIdentity (prefix : Z) (imsi mcc mnc : bytes) : result bytes :=
  let! r := normalizeEAPAKAIdentityParts imsi mcc mnc in
  let '(imsi, mcc, mnc, realm) := r in
  Ok ([prefix] ++ imsi ++ [64] ++ realm).
Definition FormatEAPAKAPermanentIdentity := formatEAPAKAPermanentIdentity EAPAKAPermanentIdentityPrefix.
Definition FormatEAPAKAPrimePermanentIdentity := formatEAPAKAPermanentIdentity EAPAKAPrimePermanentIdentityPrefix.

Definition inferNAIMNCFromIMSI (imsi mcc realmMNC : bytes) : result bytes :=
  if negb (strings_HasPrefix imsi mcc) then Err (ErrText "IMSI does not match MCC") else
  let! rest := slice_from imsi (len mcc) in
  if strings_HasPrefix rest realmMNC then Ok realmMNC else
  if strings_HasPrefix realmMNC [48] then
    let! short := slice_from realmMNC 1 in
    if strings_HasPrefix rest short then Ok short else Err (ErrText "IMSI does not match MNC")
  else Err (ErrText "IMSI does not match MNC").
Section realm.
Context {U : UnicodeCase}.
(** [mcc, mnc, normalized] *)
Definition parseEAPAKARealm (realm : bytes) : result (bytes * bytes * bytes) :=
  let normalized := strings_TrimSuffix (strings_ToLower (TrimSpace realm)) [46] in
  match strings_Split normalized 46 with
  | [p0; p1; p2; p3; p4] =>
      if negb (bytesEqual p0 (go_bytes "wlan")) || negb (strings_HasPrefix p1 (go_bytes "mnc")) || negb (strings_HasPrefix p2 (go_bytes "mcc")) ||
         negb (bytesEqual p3 (go_bytes "3gppnetwork")) || negb (bytesEqual p4 (go_bytes "org"))
      then Err (ErrText "EAP-AKA realm must be wlan.mncXXX.mccXXX.3gppnetwork.org") else
      let mnc := strings_TrimPrefix p1 (go_bytes "mnc") in
      let mcc := strings_TrimPrefix p2 (go_bytes "mcc") in
      let! _ := validateDecimalDigits mcc 3 3 in
      let! _ := validateDecimalDigits mnc 3 3 in
      Ok (mcc, mnc, normalized)
  | _ => Err (ErrText "EAP-AKA realm must be wlan.mncXXX.mccXXX.3gppnetwork.org")
  end.
Definition ParseEAPAKAPermanentIdentity (identity : bytes) : result EAPAKAPermanentIdentity :=
  let identity := TrimSpace identity in
  match cut_at identity 64 with
  | None => Err (ErrText "EAP-AKA identity must be user@realm")
  | Some (user, realm) =>
      if (len user =? 0) || (len realm =? 0) then Err (ErrText "EAP-AKA identity must be user@realm") else
      if len user <? 2 then Err (ErrText "EAP-AKA identity user is too short") else
      let! prefix := at_ user 0 in
      if negb (prefix =? EAPAKAPermanentIdentityPrefix) && negb (prefix =? EAPAKAPrimePermanentIdentityPrefix)
      then Err (ErrText "unsupported EAP-AKA identity prefix") else
      let! imsi := slice_from user 1 in
      let! _ := validateDecimalDigits imsi 5 15 in
      let! r := parseEAPAKARealm realm in
      let '(mcc, realmMNC, normalizedRealm) := r in
      let! mnc := inferNAIMNCFromIMSI imsi mcc realmMNC in
      Ok (mkIdentity prefix imsi mcc mnc normalizedRealm)
  end.
End realm.

(** ** The IMSI in EF_IMSI *)
Definition decimals (s : bytes) : Prop := Forall (fun b => decimal b = true) s.
Lemma decimals_valid s minLen maxLen : decimals s -> minLen <= len s <= maxLen -> validateDecimalDigits s minLen maxLen = Ok tt.
Proof.
  intros Hs Hl. unfold validateDecimalDigits. replace ((len s <? minLen) || (maxLen <? len s)) with false by lia.
  assert (forallb decimal s = true) as ->; [|done]. apply forallb_forall. intros x Hx. eapply Forall_forall in Hs; [exact Hs|]. by apply list_elem_of_In.
Qed.
Lemma decimals_visible s : decimals s -> Forall (fun b => visible b = true) s.
Proof. intros Hs. eapply Forall_impl; [exact Hs|]. cbv beta. unfold decimal, visible. intros b Hb. lia. Qed.
Lemma digit_nibbles lo hi : decimal lo = true -> 0 <= hi <= 15 -> hi <> 10 ->
  let b := Z.lor (lo - 48) (to_u8 (Z.shiftl hi 4)) in
  appendBCDDigit [] (Z.land b 0x0f) = Some [lo] /\ Z.shiftr b 4 = hi /\ b <> 0xff.
Proof.
  intros Hlo Hhi _. assert (Hall : Forall (fun lo => Forall (fun hi => let b := Z.lor (lo - 48) (to_u8 (Z.shiftl hi 4)) in
    appendBCDDigit [] (Z.land b 0x0f) = Some [lo] /\ Z.shiftr b 4 = hi /\ b <> 0xff) (seqZ 0 16)) (seqZ 48 10)).
  { apply Forall_forall. intros l Hl. apply Forall_forall. intros h Hh. apply elem_of_seqZ in Hl, Hh. cbv zeta.
    assert (El : l = 48 \/ l = 49 \/ l = 50 \/ l = 51 \/ l = 52 \/ l = 53 \/ l = 54 \/ l = 55 \/ l = 56 \/ l = 57) by lia.
    assert (Eh : h = 0 \/ h = 1 \/ h = 2 \/ h = 3 \/ h = 4 \/ h = 5 \/ h = 6 \/ h = 7 \/ h = 8 \/ h = 9 \/ h = 10 \/ h = 11 \/ h = 12 \/ h = 13 \/ h = 14 \/ h = 15) by lia.
    repeat destruct El as [-> | El]; try subst l; repeat destruct Eh as [-> | Eh]; try subst h; by vm_compute. }
  rewrite Forall_forall in Hall. unfold decimal in Hlo. specialize (Hall lo ltac:(apply elem_of_seqZ; lia)). rewrite Forall_forall in Hall. apply Hall, elem_of_seqZ. lia.
Qed.
Lemma append_digit out nibble d : appendBCDDigit [] nibble = Some [d] -> appendBCDDigit out nibble = Some (out ++ [d]).
Proof. unfold appendBCDDigit. destruct (9 <? nibble); [done|]. by intros [= ->]. Qed.
Lemma append_decimal out d : decimal d = true -> appendBCDDigit out (d - 48) = Some (out ++ [d]).
Proof.
  unfold decimal. intros Hd. unfold appendBCDDigit. replace (9 <? d - 48) with false by lia. do 3 f_equal. unfold to_u8. rewrite Z.mod_small by lia. lia.
Qed.
Lemma imsi_octets_nonempty ds : ds <> [] -> (len (imsi_octets ds) =? 0) = false.
Proof. destruct ds as [|a [|b ds]]; [done| |]; intros _; cbn [imsi_octets]; len_lia. Qed.
Lemma imsi_loop_spec n ds out : (length ds <= n)%nat -> decimals ds -> imsi_loop (imsi_octets ds) (Nat.even (length ds)) out = Ok (out ++ ds).
Proof.
  revert ds out. induction n as [|n IH]; intros ds out Hn Hds; [destruct ds; [|cbn in Hn; lia]; cbn; by rewrite app_nil_r|].
  destruct ds as [|lo [|hi ds]]; [cbn; by rewrite app_nil_r| |].
  - apply Forall_cons in Hds as [Hlo _]. destruct (digit_nibbles lo 15 Hlo ltac:(lia) ltac:(lia)) as (Hd & Hh & _). cbn [imsi_octets imsi_loop length Nat.even].
    rewrite (append_digit out _ lo Hd), Hh. change (len [] =? 0) with true. cbn [andb negb]. change (15 =? 15) with true. done.
  - apply Forall_cons in Hds as [Hlo Hds]. apply Forall_cons in Hds as [Hhi Hds]. assert (Hr : 0 <= hi - 48 <= 15) by (unfold decimal in Hhi; lia).
    destruct (digit_nibbles lo (hi - 48) Hlo Hr ltac:(unfold decimal in Hhi; lia)) as (Hd & Hh & _). cbn [imsi_octets imsi_loop length].
    rewrite (append_digit out _ lo Hd), Hh. cbv zeta. change (Nat.even (S (S (length ds)))) with (Nat.even (length ds)).
    assert (Hlast : (len (imsi_octets ds) =? 0) && negb (Nat.even (length ds)) = false).
    { destruct ds as [|d ds]; [done|]. by rewrite imsi_octets_nonempty. }
    rewrite Hlast, append_decimal by done. rewrite IH by (done || (cbn in Hn; lia)). by rewrite <- !app_assoc.
Qed.
Lemma imsi_octets_length ds : len (imsi_octets ds) = (len ds + 1) / 2.
Proof.
  enough (H : forall n ds, (length ds <= n)%nat -> len (imsi_octets ds) = (len ds + 1) / 2) by by apply (H (length ds)).
  clear ds. induction n as [|n IH]; intros ds Hn; [destruct ds; [done|cbn in Hn; lia]|]. destruct ds as [|a [|b ds]]; [done|done|]. cbn [imsi_octets]. rewrite !len_cons. rewrite IH by (cbn in Hn; lia).
  replace (1 + (1 + len ds) + 1) with (1 * 2 + (len ds + 1)) by lia. by rewrite Z.div_add_l by lia.
Qed.
Lemma imsi_octets_not_ff ds : decimals ds -> Forall (fun b => b <> 0xff) (imsi_octets ds).
Proof.
  enough (H : forall n ds, (length ds <= n)%nat -> decimals ds -> Forall (fun b => b <> 0xff) (imsi_octets ds)) by by apply (H (length ds)).
  clear ds. induction n as [|n IH]; intros ds Hn Hds; [destruct ds; [constructor|cbn in Hn; lia]|].
  destruct ds as [|a [|b ds]]; cbn [imsi_octets]; repeat apply Forall_cons_2; try apply Forall_nil_2.
  - apply Forall_cons in Hds as [Ha _]. apply (digit_nibbles a 15 Ha); lia.
  - apply Forall_cons in Hds as [Ha Hds]. apply Forall_cons in Hds as [Hb _]. apply (digit_nibbles a (b - 48) Ha); unfold decimal in Hb; lia.
  - apply IH; [cbn in Hn; lia|]. by do 2 apply Forall_cons in Hds as [_ Hds].
Qed.
Lemma trim_ff_keeps pad b l : Forall (fun x => x = 0xff) pad -> b <> 0xff -> trim_ff (pad ++ b :: l) = b :: l.
Proof. intros Hp Hb. induction Hp as [|x pad -> Hp IH]; [cbn [app trim_ff]; by replace (b =? 0xff) with false by lia|exact IH]. Qed.
Lemma trimTrailingFF_keeps l n : l <> [] -> Forall (fun b => b <> 0xff) l -> trimTrailingFF (l ++ replicate n 0xff) = l.
Proof.
  intros Hne Hl. unfold trimTrailingFF. rewrite reverse_app. destruct (reverse l) as [|b r] eqn:E; [by apply (f_equal reverse) in E; rewrite reverse_involutive in E|].
  rewrite trim_ff_keeps; [by rewrite <- E, reverse_involutive|by apply Forall_reverse, Forall_replicate|].
  apply Forall_reverse in Hl. rewrite E in Hl. by apply Forall_cons in Hl as [? _].
Qed.
Lemma trim_nonempty l b : b ∈ l -> b <> 0x00 -> b <> 0xff -> b ∈ trimTLVPadding l.
Proof.
  intros Hin H0 Hff. induction l as [|x l IH]; [done|]. cbn [trimTLVPadding]. destruct (_ || _) eqn:E; [|done]. apply IH. apply elem_of_cons in Hin as [->|?]; [lia|done].
Qed.
Lemma trimEF_nonempty l b : b ∈ l -> b <> 0x00 -> b <> 0xff -> (len (trimEFPadding l) =? 0) = false.
Proof.
  intros Hin H0 Hff. assert (Hb : b ∈ trimEFPadding l) by (unfold trimEFPadding; apply elem_of_reverse, trim_nonempty; [|done|done]; by apply elem_of_reverse, trim_nonempty).
  apply Z.eqb_neq. intros E. apply len_zero in E. rewrite E in Hb. by apply not_elem_of_nil in Hb.
Qed.
Lemma parity (s : bytes) : (len s mod 2 =? 0) = Nat.even (length s).
Proof.
  unfold len. induction (length s) as [n IH] using lt_wf_ind. destruct n as [|[|n]]; [done|done|].
  change (Nat.even (S (S n))) with (Nat.even n). rewrite <- (IH n) by lia. replace (Z.of_nat (S (S n))) with (Z.of_nat n + 1 * 2) by lia. by rewrite Z.mod_add by lia.
Qed.
Lemma first_octet d odd : decimal d = true ->
  let b := Z.lor (to_u8 (Z.shiftl (d - 48) 4)) 0x01 in let b := if odd : bool then Z.lor b 0x08 else b in
  Z.land b 0x07 = 0x01 /\ negb (Z.land b 0x08 =? 0) = odd /\ Z.shiftr b 4 = d - 48 /\ b <> 0xff.
Proof.
  intros Hd. unfold decimal in Hd. assert (El : d = 48 \/ d = 49 \/ d = 50 \/ d = 51 \/ d = 52 \/ d = 53 \/ d = 54 \/ d = 55 \/ d = 56 \/ d = 57) by lia.
  repeat destruct El as [-> | El]; try subst d; destruct odd; by vm_compute.
Qed.
(** The IMSI in EF_IMSI: every IMSI of 5 to 15 digits is encoded, and read back
    from the file whatever number of filler octets lies behind it. *)
Theorem imsi_roundtrip (imsi : bytes) (n : nat) : decimals imsi -> 5 <= len imsi <= 15 ->
  exists raw, EncodeUSIMIMSI imsi = Ok raw /\ DecodeUSIMIMSI (raw ++ replicate n 0xff) = Ok imsi /\ len raw = 2 + len imsi / 2.
Proof.
  intros Hd Hl. unfold EncodeUSIMIMSI. rewrite (TrimSpace_visible imsi) by by apply decimals_visible. rewrite decimals_valid by done. cbn [bind].
  destruct imsi as [|d ds]; [change (len []) with 0 in Hl; lia|]. apply Forall_cons in Hd as [Hd Hds]. set (imsi := d :: ds) in *.
  assert (at_ (E := error) imsi 0 = Ok d) as -> by done. cbn [bind]. set (odd := negb (len imsi mod 2 =? 0)).
  assert (slice_from (E := error) imsi 1 = Ok ds) as -> by (by apply (slice_from_eq imsi [d] ds)). cbn [bind]. set (first := if odd then _ else _).
  destruct (first_octet d odd Hd) as (Hty & Hodd & Hhi & Hff). change (if odd then _ else _) with first in Hty, Hodd, Hhi, Hff. clearbody first.
  assert (Hds0 : ds <> []) by (intros E; subst ds imsi; change (len [d]) with 1 in Hl; lia).
  assert (Hlen : len (imsi_octets ds) = len imsi / 2) by (rewrite imsi_octets_length; subst imsi; by rewrite len_cons, Z.add_comm).
  assert (Hhalf : 2 <= len imsi / 2 <= 7) by (Z.div_mod_to_equations; lia). assert (Hmid : to_u8 (1 + len imsi / 2) = 1 + len imsi / 2) by (unfold to_u8; by rewrite Z.mod_small by lia).
  rewrite Hmid. set (raw := [1 + len imsi / 2; first] ++ imsi_octets ds). exists raw. split; [done|]. split; [|subst raw; rewrite len_app, Hlen; done].
  unfold DecodeUSIMIMSI. rewrite (trimEF_nonempty _ (1 + len imsi / 2)) by (subst raw; try lia; by left).
  rewrite trimTrailingFF_keeps by (done || (subst raw; apply Forall_cons_2; [lia|]; apply Forall_cons_2; [done|by apply imsi_octets_not_ff])). cbv zeta.
  assert (at_ (E := error) raw 0 = Ok (1 + len imsi / 2)) as -> by done. cbn [bind]. replace (1 + len imsi / 2 <=? 0) with false by lia.
  assert (Hraw : len raw = 2 + len imsi / 2) by (subst raw; by rewrite len_app, Hlen). rewrite Hraw. replace (2 + len imsi / 2 - 1 <? 1 + len imsi / 2) with false by lia.
  rewrite (slice_eq raw [1 + len imsi / 2] (first :: imsi_octets ds) []) by (first [by subst raw; rewrite app_nil_r | rewrite len_cons, Hlen; lia | done]). cbn [bind].
  assert (0 <= len (imsi_octets ds)) by apply len_nonneg. replace (len (first :: imsi_octets ds) =? 0) with false by (rewrite len_cons; lia).
  assert (at_ (E := error) (first :: imsi_octets ds) 0 = Ok first) as -> by done. cbn [bind]. rewrite Hty. change (negb (0x01 =? 0x01)) with false. cbv iota. rewrite Hhi.
  rewrite append_decimal by done. cbn [app]. rewrite (slice_from_eq (first :: imsi_octets ds) [first] (imsi_octets ds)) by done. cbn [bind]. rewrite Hodd.
  assert (Hpar : odd = Nat.even (length ds)) by (subst odd; rewrite parity; subst imsi; cbn [length]; rewrite Nat.even_succ; by rewrite <- Nat.negb_even, negb_involutive).
  rewrite Hpar. rewrite (imsi_loop_spec (length ds)) by done. cbn [bind app]. change (d :: ds) with imsi. rewrite parity. subst imsi. cbn [length].
  rewrite Nat.even_succ, <- Nat.negb_even. by destruct (Nat.even (length ds)).
Qed.
Lemma imsi_roundtrip_witness : exists raw, EncodeUSIMIMSI (go_bytes "310260123456789") = Ok raw /\
  DecodeUSIMIMSI (raw ++ replicate 3 0xff) = Ok (go_bytes "310260123456789") /\ len raw = 9.
Proof. apply (imsi_roundtrip (go_bytes "310260123456789") 3); [repeat constructor|split; vm_compute; done]. Defined.

(** ** Names of the network *)
Lemma has_prefix_app p s : strings_HasPrefix (p ++ s) p = true.
Proof. unfold strings_HasPrefix. rewrite take_app_length. by apply bool_decide_eq_true_2. Qed.
Lemma trim_prefix_app p s : strings_TrimPrefix (p ++ s) p = s.
Proof. unfold strings_TrimPrefix. rewrite has_prefix_app. apply drop_app_length. Qed.
Lemma decimals_without s x : decimals s -> decimal x = false -> x ∉ s.
Proof. intros Hs Hx Hin. eapply Forall_forall in Hs; [|exact Hin]. cbn in Hs. congruence. Qed.
(** Visible and no capital letter: white space and case are as they should be. *)
Definition plain (b : Z) : bool := visible b && negb ((65 <=? b) && (b <=? 90)).
Lemma ToLower_plain `{UnicodeCase} s : Forall (fun b => plain b = true) s -> strings_ToLower s = s.
Proof.
  intros Hs. assert (Ha : Forall (fun b => 0 <= b < 0x80) s) by (eapply Forall_impl; [exact Hs|]; cbv beta; unfold plain, visible; intros b Hb; lia).
  unfold strings_ToLower. rewrite runes_of_ascii by done.
  assert (E : lower_case_rune <$> s = s).
  { clear Ha. induction Hs as [|b s Hb Hs IH]; [done|]. rewrite fmap_cons, IH. f_equal. unfold lower_case_rune. unfold plain, visible in Hb. replace (b <? 0x80) with true by lia. by replace ((65 <=? b) && (b <=? 90)) with false by lia. }
  rewrite E. by apply string_of_ascii.
Qed.
Lemma decimals_plain s : decimals s -> Forall (fun b => plain b = true) s.
Proof. intros Hs. eapply Forall_impl; [exact Hs|]. cbv beta. unfold decimal, plain, visible. intros b Hb. lia. Qed.
Lemma plain_visible s : Forall (fun b => plain b = true) s -> Forall (fun b => visible b = true) s.
Proof. intros Hs. eapply Forall_impl; [exact Hs|]. cbv beta. unfold plain. intros b Hb. by apply andb_prop in Hb as [? _]. Qed.

Section names.
Context {U : UnicodeCase}.
Definition three_digits (mnc : bytes) : bytes := if len mnc =? 2 then [48] ++ mnc else mnc.
Lemma realm_plain mcc mnc : decimals mcc -> decimals mnc -> Forall (fun b => plain b = true) (eapAKARealm mcc mnc).
Proof.
  intros Hc Hn. unfold eapAKARealm. fold (three_digits mnc). assert (Hn3 : decimals (three_digits mnc)) by (unfold three_digits; destruct (_ =? _); [by constructor|done]).
  repeat apply Forall_app_2; try (by apply decimals_plain); repeat constructor.
Qed.
Lemma parse_realm mcc mnc : decimals mcc -> decimals mnc -> len mcc = 3 -> 2 <= len mnc <= 3 ->
  parseEAPAKARealm (eapAKARealm mcc mnc) = Ok (mcc, three_digits mnc, eapAKARealm mcc mnc).
Proof.
  intros Hc Hn Hlc Hln. pose proof (realm_plain mcc mnc Hc Hn) as Hp. unfold parseEAPAKARealm. rewrite TrimSpace_visible by by apply plain_visible. rewrite ToLower_plain by done.
  assert (Hn3 : decimals (three_digits mnc) /\ len (three_digits mnc) = 3).
  { unfold three_digits. destruct (Z.eqb_spec (len mnc) 2); split; try done; [by constructor|len_lia|lia]. } destruct Hn3 as [Hn3 Hl3].
  assert (strings_TrimSuffix (eapAKARealm mcc mnc) [46] = eapAKARealm mcc mnc) as ->.
  { unfold strings_TrimSuffix, eapAKARealm. rewrite !app_assoc, reverse_app. change (reverse (go_bytes ".3gppnetwork.org")) with (103 :: reverse (go_bytes ".3gppnetwork.or")).
    unfold strings_HasPrefix. cbn [reverse rev_append rev app length take]. done. }
  cbv zeta. unfold eapAKARealm at 1. fold (three_digits mnc).
  change (go_bytes "wlan.mnc") with (go_bytes "wlan" ++ 46 :: go_bytes "mnc"). change (go_bytes ".mcc") with (46 :: go_bytes "mcc").
  change (go_bytes ".3gppnetwork.org") with (46 :: go_bytes "3gppnetwork" ++ 46 :: go_bytes "org").
  rewrite <- !app_assoc, <- !app_comm_cons. rewrite split_app by by_decide.
  rewrite app_assoc. rewrite (split_app (go_bytes "mnc" ++ three_digits mnc)) by (rewrite elem_of_app; intros [Hi|Hi]; [by revert Hi; by_decide|by apply (decimals_without _ 46) in Hi]).
  rewrite app_assoc. rewrite (split_app (go_bytes "mcc" ++ mcc)) by (rewrite elem_of_app; intros [Hi|Hi]; [by revert Hi; by_decide|by apply (decimals_without _ 46) in Hi]).
  rewrite split_app by by_decide. rewrite split_last by by_decide. rewrite !has_prefix_app, !trim_prefix_app. cbn [negb orb].
  change (negb (bytesEqual (go_bytes "wlan") (go_bytes "wlan"))) with false. change (negb (bytesEqual (go_bytes "3gppnetwork") (go_bytes "3gppnetwork"))) with false.
  change (negb (bytesEqual (go_bytes "org") (go_bytes "org"))) with false. cbn [orb]. rewrite !decimals_valid by (done || lia). done.
Qed.
(** The permanent identity of EAP-AKA and EAP-AKA' that is made of a
    subscriber's IMSI and network codes is parsed to the same subscriber: prefix,
    IMSI, country and network code (of two or three digits, which the realm does
    not tell apart) and realm; but for the network code 00 before a zero, where
    the IMSI does not tell either. *)
Theorem permanent_identity_roundtrip (prefix : Z) (mcc mnc msin : bytes) :
  prefix = EAPAKAPermanentIdentityPrefix \/ prefix = EAPAKAPrimePermanentIdentityPrefix ->
  decimals mcc -> decimals mnc -> decimals msin -> len mcc = 3 -> 2 <= len mnc <= 3 -> 5 <= len (mcc ++ mnc ++ msin) <= 15 ->
  (mnc = [48; 48] -> head msin <> Some 48) ->
  exists identity, formatEAPAKAPermanentIdentity prefix (mcc ++ mnc ++ msin) mcc mnc = Ok identity /\
    ParseEAPAKAPermanentIdentity identity = Ok (mkIdentity prefix (mcc ++ mnc ++ msin) mcc mnc (eapAKARealm mcc mnc)).
Proof.
  intros Hpre Hc Hn Hs Hlc Hln Hl Hamb. set (imsi := mcc ++ mnc ++ msin) in *. assert (Hi : decimals imsi) by (by repeat apply Forall_app_2).
  assert (Hrest : slice_from (E := error) imsi (len mcc) = Ok (mnc ++ msin)) by by apply (slice_from_eq imsi mcc (mnc ++ msin)).
  unfold formatEAPAKAPermanentIdentity, normalizeEAPAKAIdentityParts. rewrite !TrimSpace_visible by by apply decimals_visible. cbv zeta. rewrite decimals_valid by done. cbn [bind].
  replace (len mcc =? 0) with false by lia. replace (len mnc =? 0) with false by lia. cbn [andb bind]. rewrite !decimals_valid by (done || lia). cbn [bind].
  unfold validateIMSIPLMN. rewrite Hrest. subst imsi. rewrite has_prefix_app. cbn [negb bind]. rewrite has_prefix_app. cbn [negb bind].
  set (imsi := mcc ++ mnc ++ msin) in *. eexists. split; [reflexivity|].
  pose proof (realm_plain mcc mnc Hc Hn) as Hrp. set (realm := eapAKARealm mcc mnc) in *.
  assert (Hdec : decimal prefix = true) by (by destruct Hpre as [-> | ->]).
  assert (Hvis : Forall (fun b => visible b = true) ([prefix] ++ imsi ++ [64] ++ realm)).
  { apply Forall_app_2; [constructor; [|constructor]; unfold decimal in Hdec; unfold visible; lia|]. apply Forall_app_2; [by apply decimals_visible|]. apply Forall_app_2; [by constructor|by apply plain_visible]. }
  unfold ParseEAPAKAPermanentIdentity. rewrite TrimSpace_visible by done. cbv zeta. rewrite app_assoc. change ([64] ++ realm) with (64 :: realm).
  rewrite cut_at_app by (apply decimals_without; [by constructor|done]).
  assert (0 < len realm) by (subst realm; unfold eapAKARealm; change (go_bytes "wlan.mnc") with (119 :: go_bytes "lan.mnc"); len_lia).
  assert (Hlu : len ([prefix] ++ imsi) = 1 + len imsi) by len_lia. rewrite Hlu. replace ((1 + len imsi =? 0) || (len realm =? 0)) with false by lia. replace (1 + len imsi <? 2) with false by lia.
  assert (at_ (E := error) ([prefix] ++ imsi) 0 = Ok prefix) as -> by done. cbn [bind].
  assert (negb (prefix =? EAPAKAPermanentIdentityPrefix) && negb (prefix =? EAPAKAPrimePermanentIdentityPrefix) = false) as -> by (by destruct Hpre as [-> | ->]).
  rewrite (slice_from_eq _ [prefix] imsi) by done. cbn [bind]. rewrite decimals_valid by done. cbn [bind]. subst realm. rewrite parse_realm by done. cbn [bind].
  unfold inferNAIMNCFromIMSI. rewrite Hrest. subst imsi. rewrite has_prefix_app. cbn [negb bind]. unfold three_digits. destruct (Z.eqb_spec (len mnc) 2) as [E2|E2].
  - destruct mnc as [|a [|b [|c mnc]]]; try (exfalso; len_lia). cbn [app].
    assert (strings_HasPrefix (a :: b :: msin) [48; a; b] = false) as ->.
    { unfold strings_HasPrefix. apply bool_decide_eq_false_2. cbn [length take]. destruct msin as [|m msin]; [done|]. cbn [take]. intros [= -> -> ->]. by apply Hamb. }
    unfold strings_HasPrefix at 1. cbn [length take]. rewrite bool_decide_eq_true_2 by done. rewrite (slice_from_eq _ [48] [a; b]) by done. cbn [bind].
    change (a :: b :: msin) with ([a; b] ++ msin). by rewrite has_prefix_app.
  - by rewrite has_prefix_app.
Qed.
End names.
(** The identity names the network 000 instead of 00. *)
Example identity_of_network_00 :
  (let! identity := FormatEAPAKAPermanentIdentity (go_bytes "404000123456789") (go_bytes "404") (go_bytes "00") in
   ParseEAPAKAPermanentIdentity (U := {| unicode_ToUpper r := r; unicode_ToLower r := r |}) identity) =
  Ok (mkIdentity 48 (go_bytes "404000123456789") (go_bytes "404") (go_bytes "000") (go_bytes "wlan.mnc000.mcc404.3gppnetwork.org")).
Proof. vm_compute. reflexivity. Qed.
Lemma permanent_identity_roundtrip_witness :
  exists identity, formatEAPAKAPermanentIdentity 54 (go_bytes "310260123456789") (go_bytes "310") (go_bytes "26") = Ok identity /\
    ParseEAPAKAPermanentIdentity (U := {| unicode_ToUpper r := r; unicode_ToLower r := r |}) identity =
    Ok (mkIdentity 54 (go_bytes "310260123456789") (go_bytes "310") (go_bytes "26") (go_bytes "wlan.mnc026.mcc310.3gppnetwork.org")).
Proof.
  apply (permanent_identity_roundtrip (U := {| unicode_ToUpper r := r; unicode_ToLower r := r |}) 54 (go_bytes "310") (go_bytes "26") (go_bytes "0123456789"));
    first [by right | by repeat constructor | by vm_compute | by split; vm_compute].
Defined.
