(* ===== verification/RtpDtmf.v ===== *)
(** * DTMF over RTP and in INFO bodies (runtimehost/voicehost/rtp_dtmf.go, dtmf.go)

    RTP packets and their headers, the telephone events of RFC 4733 (a packet, the
    sequence of packets of one event, reading and rewriting one), the signals, and the
    body of a DTMF INFO request.  An [int] has 64 bits.  A map of payload types is a
    finite map; where the code ranges over it the order is an argument.  The handler
    of an event, which only receives it, is left out. *)
From stdpp Require Import gmap.
From S2P Require Import Prelude GoStrings Utf8 Errors.
#[local] Open Scope string_scope.
#[local] Open Scope list_scope.
#[local] Open Scope Z_scope.

Definition DefaultRTPDTMFPayloadType := 101.
Definition DefaultRTPDTMFClockRate := 8000.
Definition DefaultRTPDTMFVolume := 10.
Definition DefaultRTPDTMFStepMS := 50.
Definition DefaultRTPDTMFEndPackets := 3.
Definition DefaultDTMFDurationMS := 160.
Definition MaxDTMFDurationMS := 5000.

Inductive RTPDTMFDirection := RTPDTMFClientToIMS | RTPDTMFIMSToClient.
Record RTPDTMFPacket := mkDTMFPacket {
  dp_PayloadType : Z;
  dp_Marker : bool;
  dp_SequenceNumber : Z;
  dp_Timestamp : Z;
  dp_SSRC : Z;
  dp_Signal : bytes;
  dp_End : bool;
  dp_Volume : Z;
  dp_DurationSamples : Z;
  dp_ClockRate : Z
}.
Record RTPDTMFSequenceConfig := mkDTMFSequence {
  ds_PayloadType : Z;
  ds_Signal : bytes;
  ds_DurationMS : Z;
  ds_StepMS : Z;
  ds_EndPacketCount : Z;
  ds_Volume : Z;
  ds_SequenceNumber : Z;
  ds_Timestamp : Z;
  ds_SSRC : Z;
  ds_ClockRate : Z
}.
Record RTPDTMFEvent := mkDTMFEvent {
  de_Direction : RTPDTMFDirection;
  de_PayloadType : Z;
  de_EventCode : Z;
  de_Signal : bytes;
  de_End : bool;
  de_Volume : Z;
  de_DurationSamples : Z;
  de_DurationMS : Z;
  de_SequenceNumber : Z;
  de_Timestamp : Z;
  de_SSRC : Z;
  de_Marker : bool;
  de_ClockRate : Z;
  de_Packet : bytes
}.
Record RTPDTMFSummary := mkDTMFSummary { dm_Events : Z; dm_EndEvents : Z }.
Record rtpPacketHeader := mkRTPHeader {
  rh_PayloadType : Z;
  rh_Marker : bool;
  rh_SequenceNumber : Z;
  rh_Timestamp : Z;
  rh_SSRC : Z;
  rh_PayloadOffset : Z
}.

(** ** RTP packets *)
Definition parseRTPPacket (packet : bytes) : result (rtpPacketHeader * bytes) :=
  if len packet <? 12 then Errorf ErrInvalidDTMF else
  let! b0 := at_ packet 0 in
  if negb (Z.shiftr b0 6 =? 2) then Errorf ErrInvalidDTMF else
  let csrcCount := Z.land b0 0x0f in
  let headerLen := 12 + csrcCount * 4 in
  if len packet <? headerLen then Errorf ErrInvalidDTMF else
  let! headerLen :=
    (if negb (Z.land b0 0x10 =? 0) then
       if len packet <? headerLen + 4 then Errorf ErrInvalidDTMF else
       let! extWords := u16_at packet (headerLen + 2) (headerLen + 4) in
       let headerLen := headerLen + (4 + extWords * 4) in
       if len packet <? headerLen then Errorf ErrInvalidDTMF else Ok headerLen
     else Ok headerLen) in
  let end' := len packet in
  let! end' :=
    (if negb (Z.land b0 0x20 =? 0) then
       let! pad := at_ packet (len packet - 1) in
       if (pad =? 0) || (end' - headerLen <? pad) then Errorf ErrInvalidDTMF else Ok (end' - pad)
     else Ok end') in
  let! b1 := at_ packet 1 in
  let! sequence := u16_at packet 2 4 in
  let! timestamp := u32_at packet 4 8 in
  let! ssrc := u32_at packet 8 12 in
  let! payload := slice packet headerLen end' in
  Ok (mkRTPHeader (Z.land b1 0x7f) (negb (Z.land b1 0x80 =? 0)) sequence timestamp ssrc headerLen, payload).

Section dtmf.
Context {U : UnicodeCase}.
(** ** Signals *)
Definition NormalizeDTMFSignal (signal : bytes) : result bytes :=
  let signal := strings_ToUpper (TrimSpace signal) in
  match signal with
  | [ch] =>
      if ((48 <=? ch) && (ch <=? 57)) || ((65 <=? ch) && (ch <=? 68)) || (ch =? 42) || (ch =? 35) then Ok signal else Errorf ErrInvalidDTMF
  | _ => Errorf ErrInvalidDTMF
  end.
Definition NormalizeRTPDTMFSignal (signal : bytes) : result bytes :=
  let signal := strings_ToUpper (TrimSpace signal) in
  if bool_decide (signal = go_bytes "FLASH") then Ok signal else NormalizeDTMFSignal signal.
Definition RTPDTMFEventCode (signal : bytes) : result Z :=
  let! signal := NormalizeRTPDTMFSignal signal in
  if bool_decide (signal = go_bytes "*") then Ok 10
  else if bool_decide (signal = go_bytes "#") then Ok 11
  else if bool_decide (signal = go_bytes "A") then Ok 12
  else if bool_decide (signal = go_bytes "B") then Ok 13
  else if bool_decide (signal = go_bytes "C") then Ok 14
  else if bool_decide (signal = go_bytes "D") then Ok 15
  else if bool_decide (signal = go_bytes "FLASH") then Ok 16
  else match signal with
       | [ch] => if (48 <=? ch) && (ch <=? 57) then Ok (ch - 48) else Errorf ErrInvalidDTMF
       | _ => Errorf ErrInvalidDTMF
       end.
Definition RTPDTMFSignalFromEventCode (code : Z) : bytes :=
  if code <=? 9 then [48 + code]
  else if code =? 10 then go_bytes "*"
  else if code =? 11 then go_bytes "#"
  else if code =? 12 then go_bytes "A"
  else if code =? 13 then go_bytes "B"
  else if code =? 14 then go_bytes "C"
  else if code =? 15 then go_bytes "D"
  else if code =? 16 then go_bytes "FLASH"
  else [].

(** ** One packet *)
Definition BuildRTPDTMFPacket (p : RTPDTMFPacket) : result bytes :=
  let! signal := NormalizeRTPDTMFSignal (dp_Signal p) in
  let! eventCode := RTPDTMFEventCode signal in
  let payloadType := if dp_PayloadType p =? 0 then DefaultRTPDTMFPayloadType else dp_PayloadType p in
  if 127 <? payloadType then Errorf ErrInvalidDTMF else
  let clockRate := if dp_ClockRate p <=? 0 then DefaultRTPDTMFClockRate else dp_ClockRate p in
  let volume := if dp_Volume p =? 0 then DefaultRTPDTMFVolume else dp_Volume p in
  if 63 <? volume then Errorf ErrInvalidDTMF else
  let durationSamples :=
    if dp_DurationSamples p =? 0 then to_u16 (Z.quot (to_i64 (DefaultDTMFDurationMS * clockRate)) 1000) else dp_DurationSamples p in
  Ok ([0x80; (let b := Z.land payloadType 0x7f in if dp_Marker p then Z.lor b 0x80 else b)]
      ++ be_bytes 2 (dp_SequenceNumber p) ++ be_bytes 4 (dp_Timestamp p) ++ be_bytes 4 (dp_SSRC p)
      ++ [eventCode; (let b := Z.land volume 0x3f in if dp_End p then Z.lor b 0x80 else b)]
      ++ be_bytes 2 durationSamples).

(** ** The packets of an event *)
Definition rtpDTMFSamplesForDuration (durationMS clockRate : Z) : result Z :=
  if durationMS <=? 0 then Errorf ErrInvalidDTMF else
  let clockRate := if clockRate <=? 0 then DefaultRTPDTMFClockRate else clockRate in
  let samples := Z.quot (to_i64 (durationMS * clockRate)) 1000 in
  let samples := if samples <=? 0 then 1 else samples in
  if 0xffff <? samples then Errorf ErrInvalidDTMF else Ok samples.
(** The packets with the event still on; [first] when none was made yet. *)
Fixpoint progress_loop (fuel : nat) (cfg : RTPDTMFSequenceConfig) (signal : bytes) (clockRate stepSamples totalSamples : Z)
    (first : bool) (sequence current : Z) : result (list bytes * Z) :=
  match fuel with
  | O => OutOfFuel
  | S fuel =>
      if negb (first || (current <? totalSamples)) then Ok ([], sequence) else
      let! packet := BuildRTPDTMFPacket (mkDTMFPacket (ds_PayloadType cfg) first sequence (ds_Timestamp cfg) (ds_SSRC cfg) signal false (ds_Volume cfg)
                       (to_u16 current) clockRate) in
      let current := to_i64 (current + stepSamples) in
      let! rest := progress_loop fuel cfg signal clockRate stepSamples totalSamples false (to_u16 (sequence + 1))
                     (if totalSamples <? current then totalSamples else current) in
      Ok (packet :: rest.1, rest.2)
  end.
Fixpoint end_loop (n : nat) (cfg : RTPDTMFSequenceConfig) (signal : bytes) (clockRate totalSamples : Z) (first : bool) (sequence : Z) : result (list bytes) :=
  match n with
  | O => Ok []
  | S n =>
      let! packet := BuildRTPDTMFPacket (mkDTMFPacket (ds_PayloadType cfg) first sequence (ds_Timestamp cfg) (ds_SSRC cfg) signal true (ds_Volume cfg)
                       (to_u16 totalSamples) clockRate) in
      let! rest := end_loop n cfg signal clockRate totalSamples false (to_u16 (sequence + 1)) in
      Ok (packet :: rest)
  end.
Definition BuildRTPDTMFSequence (cfg : RTPDTMFSequenceConfig) : result (list bytes) :=
  let! signal := NormalizeRTPDTMFSignal (ds_Signal cfg) in
  let clockRate := if ds_ClockRate cfg <=? 0 then DefaultRTPDTMFClockRate else ds_ClockRate cfg in
  let durationMS := if ds_DurationMS cfg <=? 0 then DefaultDTMFDurationMS else ds_DurationMS cfg in
  if MaxDTMFDurationMS <? durationMS then Errorf ErrInvalidDTMF else
  let stepMS := if ds_StepMS cfg <=? 0 then DefaultRTPDTMFStepMS else ds_StepMS cfg in
  let stepMS := if durationMS <? stepMS then durationMS else stepMS in
  let endPackets := if ds_EndPacketCount cfg <=? 0 then DefaultRTPDTMFEndPackets else ds_EndPacketCount cfg in
  let! totalSamples := rtpDTMFSamplesForDuration durationMS clockRate in
  let! stepSamples := rtpDTMFSamplesForDuration stepMS clockRate in
  let stepSamples := if stepSamples <=? 0 then 1 else stepSamples in
  let current := if totalSamples <? stepSamples then totalSamples else stepSamples in
  let! on := progress_loop (S (S (Z.to_nat totalSamples))) cfg signal clockRate stepSamples totalSamples true (ds_SequenceNumber cfg) current in
  let! off := end_loop (Z.to_nat endPackets) cfg signal clockRate totalSamples (len on.1 =? 0) on.2 in
  Ok (on.1 ++ off).

(** ** Reading and rewriting an event *)
Definition clock_of (clockRate : Z) : Z := if clockRate <=? 0 then DefaultRTPDTMFClockRate else clockRate.
(** [int((uint32(d)*1000 + uint32(rate/2)) / uint32(rate))]; a division by zero panics. *)
Definition duration_ms (durationSamples clockRate : Z) : result Z :=
  if clockRate <=? 0 then Ok 0 else
  if to_u32 clockRate =? 0 then Panic else
  Ok (to_u32 (to_u32 (durationSamples * 1000) + to_u32 (Z.quot clockRate 2)) / to_u32 clockRate).
Definition ParseRTPDTMFEvent (direction : RTPDTMFDirection) (packet : bytes) (payloadTypes : gmap Z Z) : result (option RTPDTMFEvent) :=
  let! hp := parseRTPPacket packet in
  let '(header, payload) := hp in
  match payloadTypes !! rh_PayloadType header with
  | None => Ok None
  | Some clockRate =>
      let clockRate := clock_of clockRate in
      if len payload <? 4 then Errorf ErrInvalidDTMF else
      let! code := at_ payload 0 in
      let signal := RTPDTMFSignalFromEventCode code in
      if len signal =? 0 then Errorf ErrInvalidDTMF else
      let! durationSamples := u16_at payload 2 4 in
      let! durationMS := duration_ms durationSamples clockRate in
      let! b1 := at_ payload 1 in
      Ok (Some (mkDTMFEvent direction (rh_PayloadType header) code signal (negb (Z.land b1 0x80 =? 0)) (Z.land b1 0x3f) durationSamples durationMS
                  (rh_SequenceNumber header) (rh_Timestamp header) (rh_SSRC header) (rh_Marker header) clockRate packet))
  end.
Definition InspectRTPDTMF (direction : RTPDTMFDirection) (packet : bytes) (payloadTypes : gmap Z Z) : result RTPDTMFSummary :=
  if bool_decide (payloadTypes = ∅) then Ok (mkDTMFSummary 0 0) else
  let! event := ParseRTPDTMFEvent direction packet payloadTypes in
  match event with
  | None => Ok (mkDTMFSummary 0 0)
  | Some event => Ok (mkDTMFSummary 1 (if de_End event then 1 else 0))
  end.

(** The smallest payload type of a range over the map that [wanted] accepts. *)
Fixpoint best_loop (wanted : Z -> bool) (order : list (Z * Z)) (best : option (Z * Z)) : option (Z * Z) :=
  match order with
  | [] => best
  | (payload, clock) :: rest =>
      let clock := clock_of clock in
      let better := match best with None => true | Some (bestPayload, _) => payload <? bestPayload end in
      best_loop wanted rest (if wanted clock && better then Some (payload, clock) else best)
  end.
Definition chooseRTPDTMFTargetPayload (sourcePayload sourceClock : Z) (targetPayloadTypes : gmap Z Z) (order order' : list (Z * Z)) : option (Z * Z) :=
  if bool_decide (targetPayloadTypes = ∅) then None else
  match targetPayloadTypes !! sourcePayload with
  | Some targetClock => Some (sourcePayload, clock_of targetClock)
  | None =>
      let sourceClock := clock_of sourceClock in
      match best_loop (fun clock => clock =? sourceClock) order None with
      | Some best => Some best
      | None => best_loop (fun _ => true) order' None
      end
  end.
Definition scaleRTPDTMFDuration (duration sourceClock targetClock : Z) : Z :=
  if (duration =? 0) || (sourceClock <=? 0) || (targetClock <=? 0) || (sourceClock =? targetClock) then duration else
  let scaled := to_u64 (to_u64 (duration * targetClock) + Z.quot sourceClock 2) / sourceClock in
  if scaled =? 0 then 1 else if 0xffff <? scaled then 0xffff else scaled.
(** The packet and whether it was rewritten; an error comes with the packet as it was. *)
Definition RewriteRTPDTMFPayloadType (packet : bytes) (source target : gmap Z Z) (order order' : list (Z * Z)) : result (bytes * bool) :=
  if bool_decide (source = ∅) || bool_decide (target = ∅) then Ok (packet, false) else
  let! hp := parseRTPPacket packet in
  let '(header, payload) := hp in
  match source !! rh_PayloadType header with
  | None => Ok (packet, false)
  | Some sourceClock =>
      let sourceClock := clock_of sourceClock in
      if len payload <? 4 then Errorf ErrInvalidDTMF else
      let! code := at_ payload 0 in
      if len (RTPDTMFSignalFromEventCode code) =? 0 then Errorf ErrInvalidDTMF else
      match chooseRTPDTMFTargetPayload (rh_PayloadType header) sourceClock target order order' with
      | None => Ok (packet, false)
      | Some (targetPayload, targetClock) =>
          let targetClock := clock_of targetClock in
          let! duration := u16_at payload 2 4 in
          let targetDuration := scaleRTPDTMFDuration duration sourceClock targetClock in
          if (rh_PayloadType header =? targetPayload) && (duration =? targetDuration) then Ok (packet, false) else
          let! b1 := at_ packet 1 in
          let out := <[1%nat := Z.lor (Z.land b1 0x80) (Z.land targetPayload 0x7f)]> packet in
          let o := rh_PayloadOffset header in
          let! before := slice out 0 (o + 2) in
          let! after := slice_from out (o + 4) in
          Ok (before ++ be_bytes 2 targetDuration ++ after, true)
      end
  end.
End dtmf.

(** ** A built packet is read back *)
Definition rtp_fields_ok (sequence timestamp ssrc : Z) : Prop := is_u16 sequence /\ is_u32 timestamp /\ is_u32 ssrc.
Definition event_packet (marker : bool) (payloadType sequence timestamp ssrc code : Z) (ended : bool) (volume duration : Z) : bytes :=
  [0x80; if marker then Z.lor payloadType 0x80 else payloadType] ++ be_bytes 2 sequence ++ be_bytes 4 timestamp ++ be_bytes 4 ssrc
  ++ [code; if ended then Z.lor volume 0x80 else volume] ++ be_bytes 2 duration.
Lemma low_bits x k : 0 <= k -> 0 <= x < 2 ^ k -> Z.land x (2 ^ k - 1) = x.
Proof. intros Hk Hx. replace (2 ^ k - 1) with (Z.ones k) by (rewrite Z.ones_equiv; lia). rewrite Z.land_ones by lia. apply Z.mod_small. lia. Qed.
Lemma flagged x k (b : bool) : 0 <= k -> 0 <= x < 2 ^ k ->
  Z.land (if b then Z.lor x (2 ^ k) else x) (2 ^ k - 1) = x /\ negb (Z.land (if b then Z.lor x (2 ^ k) else x) (2 ^ k) =? 0) = b.
Proof.
  intros Hk Hx. rewrite land_pow2_eqb by lia. rewrite negb_involutive. destruct b.
  - split.
    + replace (2 ^ k - 1) with (Z.ones k) by (rewrite Z.ones_equiv; lia). rewrite Z.land_ones by lia. rewrite lor_pow2 by lia.
      replace (x + 2 ^ k) with (x + 1 * 2 ^ k) by lia. rewrite Z.mod_add by lia. apply Z.mod_small. lia.
    + rewrite Z.lor_spec, Z.pow2_bits_true by lia. by rewrite orb_true_r.
  - split; [by apply low_bits|]. apply (testbit_small x k k); lia.
Qed.
Lemma flagged7 x (b : bool) : 0 <= x < 128 ->
  Z.land (if b then Z.lor x 0x80 else x) 0x7f = x /\ negb (Z.land (if b then Z.lor x 0x80 else x) 0x80 =? 0) = b.
Proof. exact (flagged x 7 b ltac:(lia)). Qed.
Lemma parse_event_packet marker payloadType sequence timestamp ssrc code ended volume duration :
  0 <= payloadType < 128 -> rtp_fields_ok sequence timestamp ssrc -> 0 <= volume < 64 -> is_u16 duration ->
  parseRTPPacket (event_packet marker payloadType sequence timestamp ssrc code ended volume duration)
    = Ok (mkRTPHeader payloadType marker sequence timestamp ssrc 12, [code; if ended then Z.lor volume 0x80 else volume] ++ be_bytes 2 duration).
Proof.
  intros Hpt (Hs & Ht & Hr) Hv Hd. unfold in_range in *. destruct (flagged7 payloadType marker Hpt) as [Hf1 Hf2].
  unfold event_packet. set (b1 := if marker then _ else _). set (v1 := if ended then _ else _). unfold parseRTPPacket.
  assert (Hlen : len ([0x80; b1] ++ be_bytes 2 sequence ++ be_bytes 4 timestamp ++ be_bytes 4 ssrc ++ [code; v1] ++ be_bytes 2 duration) = 16) by (by rewrite !len_app, !len_be_bytes).
  rewrite Hlen. change (16 <? 12) with false. cbv iota. change (at_ ([0x80; b1] ++ ?t) 0) with (Ok (E := error) 0x80). cbn [bind].
  change (negb (Z.shiftr 128 6 =? 2)) with false. change (Z.land 128 15) with 0. change (16 <? 12 + 0 * 4) with false. change (negb (Z.land 128 16 =? 0)) with false.
  change (negb (Z.land 128 32 =? 0)) with false. cbv iota zeta. cbn [bind]. change (at_ ([0x80; b1] ++ ?t) 1) with (Ok (E := error) b1). cbn [bind].
  rewrite (u16_at_eq _ [0x80; b1] (be_bytes 4 timestamp ++ be_bytes 4 ssrc ++ [code; v1] ++ be_bytes 2 duration) sequence) by (done || lia). cbn [bind].
  rewrite (u32_at_eq _ ([0x80; b1] ++ be_bytes 2 sequence) (be_bytes 4 ssrc ++ [code; v1] ++ be_bytes 2 duration) timestamp) by (by rewrite <- ?app_assoc, ?len_app || done || lia).
  cbn [bind]. rewrite (u32_at_eq _ ([0x80; b1] ++ be_bytes 2 sequence ++ be_bytes 4 timestamp) ([code; v1] ++ be_bytes 2 duration) ssrc) by (by rewrite <- ?app_assoc, ?len_app || done || lia).
  cbn [bind]. rewrite (slice_eq _ ([0x80; b1] ++ be_bytes 2 sequence ++ be_bytes 4 timestamp ++ be_bytes 4 ssrc) ([code; v1] ++ be_bytes 2 duration) []);
    [|by rewrite app_nil_r, <- !app_assoc|by rewrite !len_app, !len_be_bytes|by rewrite !len_app, !len_be_bytes].
  cbn [bind]. fold b1 in Hf1, Hf2. by rewrite Hf1, Hf2.
Qed.

Lemma to_u16_add x y : to_u16 (to_u16 x + y) = to_u16 (x + y).
Proof. apply Zplus_mod_idemp_l. Qed.

Section correct.
Context {U : UnicodeCase}.
(** ** Signals and their codes *)
Lemma signal_code code : 0 <= code <= 16 ->
  NormalizeRTPDTMFSignal (RTPDTMFSignalFromEventCode code) = Ok (RTPDTMFSignalFromEventCode code) /\ RTPDTMFEventCode (RTPDTMFSignalFromEventCode code) = Ok code.
Proof.
  intros Hc. assert (Hin : code ∈ seqZ 0 17) by (apply elem_of_seqZ; lia). revert Hin. clear Hc. generalize code. apply Forall_forall.
  repeat (apply Forall_cons; split; [vm_compute; done|]). apply Forall_nil_2.
Qed.
Lemma normalized_digit s s' : NormalizeDTMFSignal s = Ok s' -> exists code, 0 <= code <= 15 /\ s' = RTPDTMFSignalFromEventCode code.
Proof.
  unfold NormalizeDTMFSignal. destruct (strings_ToUpper (TrimSpace s)) as [|ch [|? ?]]; [done| |done]. case_match eqn:Hch; [|done]. intros [= <-].
  destruct (Z_le_dec 48 ch) as [H1|H1]; [destruct (Z_le_dec ch 57) as [H2|H2]|].
  - exists (ch - 48). split; [lia|]. unfold RTPDTMFSignalFromEventCode. replace (ch - 48 <=? 9) with true by lia. f_equal. lia.
  - destruct (Z_le_dec 65 ch) as [H3|H3]; [|exfalso; lia]. exists (ch - 53). split; [lia|]. assert (Hc : ch = 65 \/ ch = 66 \/ ch = 67 \/ ch = 68) by lia. by destruct Hc as [-> | [-> | [-> | ->]]].
  - assert (Hc : ch = 42 \/ ch = 35) by lia. destruct Hc as [-> | ->]; [by exists 10|by exists 11].
Qed.
Lemma normalized_signal s s' : NormalizeRTPDTMFSignal s = Ok s' -> exists code, 0 <= code <= 16 /\ s' = RTPDTMFSignalFromEventCode code.
Proof.
  unfold NormalizeRTPDTMFSignal. case_bool_decide as Hf.
  - intros [= <-]. exists 16. split; [lia|done].
  - intros H. destruct (normalized_digit _ _ H) as (code & Hc & ->). exists code. split; [lia|done].
Qed.

(** ** The packets of an event *)
Definition type_of (payloadType : Z) : Z := if payloadType =? 0 then DefaultRTPDTMFPayloadType else payloadType.
Definition volume_of (volume : Z) : Z := if volume =? 0 then DefaultRTPDTMFVolume else volume.
Lemma build_packet code pt marker sequence timestamp ssrc ended volume duration rate :
  0 <= code <= 16 -> 0 <= pt < 128 -> 0 <= volume < 64 -> duration <> 0 ->
  BuildRTPDTMFPacket (mkDTMFPacket pt marker sequence timestamp ssrc (RTPDTMFSignalFromEventCode code) ended volume duration rate)
    = Ok (event_packet marker (type_of pt) sequence timestamp ssrc code ended (volume_of volume) duration).
Proof.
  intros Hc Hpt Hv Hd. destruct (signal_code code Hc) as [H1 H2]. unfold BuildRTPDTMFPacket. cbn [dp_PayloadType dp_Marker dp_SequenceNumber dp_Timestamp dp_SSRC dp_Signal dp_End dp_Volume dp_DurationSamples dp_ClockRate].
  rewrite H1. cbn [bind]. rewrite H2. cbn [bind]. fold (type_of pt) (volume_of volume).
  assert (Ht : 0 <= type_of pt < 128) by (unfold type_of, DefaultRTPDTMFPayloadType; case_match; lia).
  assert (Hw : 0 <= volume_of volume < 64) by (unfold volume_of, DefaultRTPDTMFVolume; case_match; lia).
  replace (127 <? type_of pt) with false by lia. replace (63 <? volume_of volume) with false by lia. replace (duration =? 0) with false by lia. cbv iota zeta.
  change 127 with (2 ^ 7 - 1). change 63 with (2 ^ 6 - 1). by rewrite !low_bits by lia.
Qed.
(** The packets of an event: one for each duration of [on], then for each of [off]
    with the end flag; the [i]-th has the [i]-th sequence number, and the first the
    marker. *)
Definition planned (cfg : RTPDTMFSequenceConfig) (code : Z) (ended : bool) (first : bool) (sequence : Z) (durations : list Z) : list bytes :=
  imap (fun i d => event_packet (first && bool_decide (i = 0%nat)) (type_of (ds_PayloadType cfg)) (to_u16 (sequence + Z.of_nat i)) (ds_Timestamp cfg) (ds_SSRC cfg)
                     code ended (volume_of (ds_Volume cfg)) d) durations.
Definition config_ok (cfg : RTPDTMFSequenceConfig) : Prop :=
  0 <= ds_PayloadType cfg < 128 /\ 0 <= ds_Volume cfg < 64 /\ rtp_fields_ok (ds_SequenceNumber cfg) (ds_Timestamp cfg) (ds_SSRC cfg).
Lemma planned_cons cfg code ended first sequence d ds : is_u16 sequence ->
  planned cfg code ended first sequence (d :: ds)
    = event_packet first (type_of (ds_PayloadType cfg)) sequence (ds_Timestamp cfg) (ds_SSRC cfg) code ended (volume_of (ds_Volume cfg)) d
      :: planned cfg code ended false (to_u16 (sequence + 1)) ds.
Proof.
  intros Hs. unfold planned. rewrite imap_cons. f_equal.
  - rewrite bool_decide_true, andb_true_r by done. f_equal. unfold to_u16. rewrite Z.mod_small; unfold in_range in *; lia.
  - apply imap_ext. intros i d' _. cbv [compose]. rewrite (bool_decide_eq_false_2 (S i = 0%nat)) by lia. rewrite andb_false_r. cbn [andb]. f_equal. rewrite to_u16_add. f_equal. lia.
Qed.
Lemma end_loop_eq code cfg rate total n first sequence : 0 <= code <= 16 -> config_ok cfg -> 0 < total < 2 ^ 16 -> is_u16 sequence ->
  end_loop n cfg (RTPDTMFSignalFromEventCode code) rate total first sequence = Ok (planned cfg code true first sequence (replicate n total)).
Proof.
  intros Hc (Hpt & Hv & _) Ht. revert first sequence. induction n as [|n IH]; intros first sequence Hs; [done|]. cbn [end_loop replicate].
  replace (to_u16 total) with total by (unfold to_u16; rewrite Z.mod_small; lia). rewrite build_packet by (done || lia). cbn [bind].
  rewrite IH by (apply to_u16_range). cbn [bind]. by rewrite planned_cons.
Qed.
(** The durations with the event on: the multiples of the step below the total, and at
    least one. *)
Definition ticks (step total : Z) (from : Z) (n : nat) : list Z := (fun k => Z.min total (step * k)) <$> seqZ from (Z.of_nat n).
Lemma ticks_S step total from n : ticks step total from (S n) = Z.min total (step * from) :: ticks step total (from + 1) n.
Proof. unfold ticks. rewrite seqZ_cons by lia. cbn [fmap list_fmap]. do 3 f_equal; lia. Qed.
Lemma planned_length cfg code ended first sequence ds : len (planned cfg code ended first sequence ds) = len ds.
Proof. unfold planned, len. by rewrite length_imap. Qed.
Lemma progress_loop_eq code cfg rate step total fuel n first sequence from :
  0 <= code <= 16 -> config_ok cfg -> 0 < step -> 0 < total < 2 ^ 16 -> step < 2 ^ 16 -> is_u16 sequence -> 1 <= from ->
  (n < fuel)%nat -> (first = true -> (0 < n)%nat) ->
  (forall k, from + (if first then 1 else 0) <= k -> step * k < total <-> k < from + Z.of_nat n) ->
  progress_loop fuel cfg (RTPDTMFSignalFromEventCode code) rate step total first sequence (Z.min total (step * from))
    = Ok (planned cfg code false first sequence (ticks step total from n), to_u16 (sequence + Z.of_nat n)).
Proof.
  intros Hc (Hpt & Hv & Hfl) Hstep Htotal Hstep16. revert n first sequence from. induction fuel as [|fuel IH]; intros n first sequence from Hs Hfrom Hn Hfirst Hspan; [lia|].
  cbn [progress_loop]. destruct n as [|n].
  - destruct first; [exfalso; pose proof (Hfirst eq_refl); lia|]. assert (Hge : ~ step * from < total) by (rewrite Hspan; lia).
    replace (Z.min total (step * from)) with total by lia. rewrite Z.ltb_irrefl. cbn. rewrite Z.add_0_r. unfold to_u16. rewrite Z.mod_small; [done|]. unfold in_range in *; lia.
  - set (cur := Z.min total (step * from)). assert (Hcur : 0 < cur < 2 ^ 16) by nia.
    assert (Hgo : first || (cur <? total) = true).
    { destruct first; [done|]. cbn. assert (Hlt : step * from < total) by (rewrite Hspan; lia). lia. }
    rewrite Hgo. cbn [negb]. replace (to_u16 cur) with cur by (unfold to_u16; rewrite Z.mod_small; lia). rewrite build_packet by (done || lia). cbn [bind].
    rewrite (to_i64_small (cur + step)) by lia.
    replace (if total <? cur + step then total else cur + step) with (Z.min total (step * (from + 1))) by (unfold cur; rewrite Z.mul_add_distr_l, Z.mul_1_r; destruct (Z.ltb_spec total (Z.min total (step * from) + step)); lia).
    rewrite (IH n false) by (try done; try apply to_u16_range; try lia; intros k Hk; rewrite Hspan; destruct first; lia). cbn [bind fst snd].
    rewrite ticks_S, planned_cons, to_u16_add by done. replace (sequence + 1 + Z.of_nat n) with (sequence + Z.of_nat (S n)) by lia. done.
Qed.
Lemma parsed_event direction marker pt sequence timestamp ssrc code ended volume duration types rate :
  0 <= code <= 16 -> 0 <= pt < 128 -> rtp_fields_ok sequence timestamp ssrc -> 0 <= volume < 64 -> is_u16 duration ->
  types !! pt = Some rate -> 0 < rate < 2 ^ 32 ->
  let packet := event_packet marker pt sequence timestamp ssrc code ended volume duration in
  ParseRTPDTMFEvent direction packet types
    = Ok (Some (mkDTMFEvent direction pt code (RTPDTMFSignalFromEventCode code) ended volume duration ((duration * 1000 + rate / 2) mod 2 ^ 32 / rate)
                  sequence timestamp ssrc marker rate packet)).
Proof.
  intros Hc Hpt Hf Hv Hd Htypes Hrate packet. unfold ParseRTPDTMFEvent, packet. rewrite parse_event_packet by done. cbn [bind rh_PayloadType].
  rewrite Htypes. set (v1 := if ended then _ else _). unfold clock_of. replace (rate <=? 0) with false by lia.
  change (len ([code; v1] ++ be_bytes 2 duration) <? 4) with false. cbv iota. change (at_ ([code; v1] ++ ?t) 0) with (Ok (E := error) code). cbn [bind].
  assert (Hsig : (len (RTPDTMFSignalFromEventCode code) =? 0) = false).
  { unfold RTPDTMFSignalFromEventCode. repeat case_match; try done. lia. }
  rewrite Hsig. rewrite (u16_at_eq _ [code; v1] [] duration); [|by rewrite app_nil_r|done|done|done]. cbn [bind].
  change (at_ ([code; v1] ++ ?t) 1) with (Ok (E := error) v1). unfold duration_ms. replace (rate <=? 0) with false by lia. cbv iota.
  unfold to_u32. rewrite (Z.mod_small rate) by lia. replace (rate =? 0) with false by lia. rewrite (Z.mod_small (duration * 1000)) by (unfold in_range in *; lia).
  rewrite Z.quot_div_nonneg by lia. rewrite (Z.mod_small (rate / 2)) by (pose proof (Z.div_le_upper_bound rate 2 rate); pose proof (Z.div_pos rate 2); lia).
  cbn [bind rh_SequenceNumber rh_Timestamp rh_SSRC rh_Marker]. destruct (flagged7 volume ended) as [Hv1 Hv2]; [lia|]. fold v1 in Hv1, Hv2. rewrite Hv2.
  assert (Hv3 : Z.land v1 0x3f = volume) by (change 0x3f with (Z.land 0x7f 0x3f); rewrite Z.land_assoc, Hv1; change 0x3f with (2 ^ 6 - 1); by apply low_bits).
  by rewrite Hv3.
Qed.
Lemma planned_lookup cfg code ended first sequence ds i packet : planned cfg code ended first sequence ds !! i = Some packet ->
  exists d, ds !! i = Some d /\
    packet = event_packet (first && bool_decide (i = 0%nat)) (type_of (ds_PayloadType cfg)) (to_u16 (sequence + Z.of_nat i)) (ds_Timestamp cfg) (ds_SSRC cfg)
               code ended (volume_of (ds_Volume cfg)) d.
Proof. unfold planned. rewrite list_lookup_imap. intros (d & Hd & ->)%fmap_Some. by exists d. Qed.
Lemma ticks_lookup step total n i d : ticks step total 1 n !! i = Some d -> d = Z.min total (step * (Z.of_nat i + 1)) /\ (i < n)%nat.
Proof. unfold ticks. rewrite list_lookup_fmap. intros (k & Hk & ->)%fmap_Some. apply lookup_seqZ in Hk as [-> Hi]. split; [f_equal; lia|lia]. Qed.
Lemma samples_eq ms rate : 0 < ms <= MaxDTMFDurationMS -> 0 < rate < 2 ^ 32 -> Z.max 1 (ms * rate / 1000) < 2 ^ 16 ->
  rtpDTMFSamplesForDuration ms rate = Ok (Z.max 1 (ms * rate / 1000)).
Proof.
  unfold MaxDTMFDurationMS. intros Hms Hr Hs. unfold rtpDTMFSamplesForDuration. replace (ms <=? 0) with false by lia. replace (rate <=? 0) with false by lia.
  assert (Hp : 0 < ms * rate < 2 ^ 63) by nia. rewrite to_i64_small by lia. rewrite Z.quot_div_nonneg by lia. cbv zeta.
  replace (if ms * rate / 1000 <=? 0 then 1 else ms * rate / 1000) with (Z.max 1 (ms * rate / 1000)) by (case_match; lia).
  by replace (0xffff <? Z.max 1 (ms * rate / 1000)) with false by lia.
Qed.
(** What the configuration asks for, defaults included. *)
Definition asked_ms (cfg : RTPDTMFSequenceConfig) : Z := if ds_DurationMS cfg <=? 0 then DefaultDTMFDurationMS else ds_DurationMS cfg.
Definition asked_step_ms (cfg : RTPDTMFSequenceConfig) : Z := Z.min (asked_ms cfg) (if ds_StepMS cfg <=? 0 then DefaultRTPDTMFStepMS else ds_StepMS cfg).
Definition samples (cfg : RTPDTMFSequenceConfig) (ms : Z) : Z := Z.max 1 (ms * clock_of (ds_ClockRate cfg) / 1000).
Definition asked_ends (cfg : RTPDTMFSequenceConfig) : Z := if ds_EndPacketCount cfg <=? 0 then DefaultRTPDTMFEndPackets else ds_EndPacketCount cfg.
Definition packets_on (cfg : RTPDTMFSequenceConfig) : Z := Z.max 1 ((samples cfg (asked_ms cfg) - 1) / samples cfg (asked_step_ms cfg)).
Lemma sequence_built cfg code : 0 <= code <= 16 -> NormalizeRTPDTMFSignal (ds_Signal cfg) = Ok (RTPDTMFSignalFromEventCode code) -> config_ok cfg ->
  ds_ClockRate cfg < 2 ^ 32 -> asked_ms cfg <= MaxDTMFDurationMS -> samples cfg (asked_ms cfg) < 2 ^ 16 ->
  let total := samples cfg (asked_ms cfg) in
  let on := Z.to_nat (packets_on cfg) in
  BuildRTPDTMFSequence cfg
    = Ok (planned cfg code false true (ds_SequenceNumber cfg) (ticks (samples cfg (asked_step_ms cfg)) total 1 on)
          ++ planned cfg code true false (to_u16 (ds_SequenceNumber cfg + Z.of_nat on)) (replicate (Z.to_nat (asked_ends cfg)) total)).
Proof.
  intros Hc Hn Hcfg Hrate Hmax Hs total on. pose proof Hcfg as (Hpt & Hv & Hseq & _).
  assert (Hclock : 0 < clock_of (ds_ClockRate cfg) < 2 ^ 32) by (unfold clock_of, DefaultRTPDTMFClockRate; case_match; lia).
  assert (Hms : 0 < asked_ms cfg) by (unfold asked_ms, DefaultDTMFDurationMS; case_match; lia).
  assert (Hstep : 0 < asked_step_ms cfg <= asked_ms cfg) by (unfold asked_step_ms, DefaultRTPDTMFStepMS; case_match; lia).
  set (step := samples cfg (asked_step_ms cfg)). assert (Hle : 1 <= step <= total).
  { unfold step, total, samples. assert (asked_step_ms cfg * clock_of (ds_ClockRate cfg) / 1000 <= asked_ms cfg * clock_of (ds_ClockRate cfg) / 1000) by (apply Z.div_le_mono; nia). lia. }
  unfold BuildRTPDTMFSequence. rewrite Hn. cbn [bind]. fold (clock_of (ds_ClockRate cfg)) (asked_ms cfg) (asked_ends cfg).
  replace (MaxDTMFDurationMS <? asked_ms cfg) with false by lia. cbv iota zeta. rewrite samples_eq by (done || lia). cbn [bind]. fold (samples cfg (asked_ms cfg)) total.
  assert (Hmin : forall d s, (if d <? s then d else s) = Z.min d s) by (intros d s; destruct (Z.ltb_spec d s); lia).
  rewrite !Hmin. fold (asked_step_ms cfg). rewrite samples_eq by (fold (samples cfg (asked_step_ms cfg)) step; lia). cbn [bind]. fold (samples cfg (asked_step_ms cfg)) step.
  replace (step <=? 0) with false by lia. cbv iota. rewrite Hmin. replace (Z.min total step) with (Z.min total (step * 1)) by (f_equal; lia).
  assert (Htotal : 0 < total < 2 ^ 16) by (unfold total; lia).
  assert (Hspan : forall k, 1 + 1 <= k -> step * k < total <-> k < 1 + Z.of_nat on).
  { intros k Hk. change on with (Z.to_nat (Z.max 1 ((total - 1) / step))). rewrite Z2Nat.id by lia.
    pose proof (Z.div_mod (total - 1) step ltac:(lia)). pose proof (Z.mod_pos_bound (total - 1) step ltac:(lia)). split; intros; nia. }
  assert (Hon : (0 < on <= Z.to_nat total)%nat).
  { change on with (Z.to_nat (Z.max 1 ((total - 1) / step))). assert ((total - 1) / step <= total) by (apply Z.div_le_upper_bound; nia). lia. }
  rewrite (progress_loop_eq code cfg (clock_of (ds_ClockRate cfg)) step total _ on) by (done || lia).
  cbn [bind fst snd]. rewrite planned_length. replace (len (ticks _ _ _ _)) with (Z.of_nat on) by (unfold ticks, len; rewrite length_fmap, length_seqZ; lia). replace (Z.of_nat on =? 0) with false by lia.
  by rewrite end_loop_eq by (done || lia || apply to_u16_range).
Qed.
(** What a receiver reads of the [i]-th packet. *)
Definition reads_as (cfg : RTPDTMFSequenceConfig) (code : Z) (i : Z) (event : RTPDTMFEvent) : Prop :=
  let total := samples cfg (asked_ms cfg) in
  let on := i <? packets_on cfg in
  de_EventCode event = code /\ de_Signal event = RTPDTMFSignalFromEventCode code /\ de_PayloadType event = type_of (ds_PayloadType cfg)
  /\ de_Marker event = bool_decide (i = 0) /\ de_SequenceNumber event = to_u16 (ds_SequenceNumber cfg + i)
  /\ de_Timestamp event = ds_Timestamp cfg /\ de_SSRC event = ds_SSRC cfg /\ de_Volume event = volume_of (ds_Volume cfg)
  /\ de_End event = negb on /\ de_DurationSamples event = (if on then Z.min total (samples cfg (asked_step_ms cfg) * (i + 1)) else total).
Lemma built_packet_reads cfg code types direction i p : 0 <= code <= 16 -> config_ok cfg -> ds_ClockRate cfg < 2 ^ 32 -> samples cfg (asked_ms cfg) < 2 ^ 16 ->
  types !! type_of (ds_PayloadType cfg) = Some (clock_of (ds_ClockRate cfg)) ->
  (planned cfg code false true (ds_SequenceNumber cfg) (ticks (samples cfg (asked_step_ms cfg)) (samples cfg (asked_ms cfg)) 1 (Z.to_nat (packets_on cfg)))
   ++ planned cfg code true false (to_u16 (ds_SequenceNumber cfg + packets_on cfg)) (replicate (Z.to_nat (asked_ends cfg)) (samples cfg (asked_ms cfg)))) !! i = Some p ->
  exists event, ParseRTPDTMFEvent direction p types = Ok (Some event) /\ reads_as cfg code (Z.of_nat i) event.
Proof.
  intros Hc (Hpt & Hv & Hseq & Hts & Hssrc) Hrate Hs Htypes Hp. set (total := samples cfg (asked_ms cfg)) in *. set (step := samples cfg (asked_step_ms cfg)) in *.
  assert (Htotal : 1 <= total) by (unfold total, samples; lia). assert (Hstep : 1 <= step) by (unfold step, samples; lia).
  assert (Hon1 : 1 <= packets_on cfg) by (unfold packets_on; lia).
  assert (Hclock : 0 < clock_of (ds_ClockRate cfg) < 2 ^ 32) by (unfold clock_of, DefaultRTPDTMFClockRate; case_match; lia).
  assert (Htype : 0 <= type_of (ds_PayloadType cfg) < 128) by (unfold type_of, DefaultRTPDTMFPayloadType; case_match; lia).
  assert (Hvol : 0 <= volume_of (ds_Volume cfg) < 64) by (unfold volume_of, DefaultRTPDTMFVolume; case_match; lia).
  assert (Hl : length (planned cfg code false true (ds_SequenceNumber cfg) (ticks step total 1 (Z.to_nat (packets_on cfg)))) = Z.to_nat (packets_on cfg)).
  { unfold planned, ticks. rewrite length_imap, length_fmap, length_seqZ. lia. }
  apply lookup_app_Some in Hp as [Hp|[Hlen Hp]]; [|rewrite Hl in Hlen, Hp]; apply planned_lookup in Hp as (d & Hd & ->).
  - apply ticks_lookup in Hd as [-> Hi]. eexists. split; [apply parsed_event; try done; [split; [apply to_u16_range|done]|unfold in_range; nia]|].
    unfold reads_as. cbn. fold total step. replace (Z.of_nat i <? packets_on cfg) with true by lia. split_and!; try done. apply bool_decide_ext. lia.
  - apply lookup_replicate in Hd as [-> Hi].
    eexists. split; [apply parsed_event; try done; [split; [apply to_u16_range|done]|unfold in_range; lia]|].
    unfold reads_as. cbn. fold total step. replace (Z.of_nat i <? packets_on cfg) with false by lia. split_and!; try done.
    + by rewrite bool_decide_false by lia.
    + rewrite to_u16_add. f_equal. lia.
Qed.
(** C24: what [BuildRTPDTMFSequence] makes of a valid signal, whose duration fits its
    limits, is read back by [ParseRTPDTMFEvent] packet by packet as one event: the
    signal and its code, the marker on the first packet only, the sequence numbers in
    turn through the wrap, one timestamp and source; the duration grows by the step while
    the event is on, and the packets with the end flag, as many as asked for, all have
    the whole duration. *)
Theorem event_sequence_read_back cfg code types direction :
  0 <= code <= 16 -> NormalizeRTPDTMFSignal (ds_Signal cfg) = Ok (RTPDTMFSignalFromEventCode code) -> config_ok cfg ->
  ds_ClockRate cfg < 2 ^ 32 -> asked_ms cfg <= MaxDTMFDurationMS -> samples cfg (asked_ms cfg) < 2 ^ 16 ->
  types !! type_of (ds_PayloadType cfg) = Some (clock_of (ds_ClockRate cfg)) ->
  exists packets, BuildRTPDTMFSequence cfg = Ok packets /\ len packets = packets_on cfg + asked_ends cfg
    /\ forall i p, packets !! i = Some p -> exists event, ParseRTPDTMFEvent direction p types = Ok (Some event) /\ reads_as cfg code (Z.of_nat i) event.
Proof.
  intros Hc Hn Hcfg Hrate Hmax Hs Htypes. eexists. split; [by apply sequence_built|]. split.
  - assert (1 <= packets_on cfg) by (unfold packets_on; lia). assert (0 < asked_ends cfg) by (unfold asked_ends, DefaultRTPDTMFEndPackets; case_match; lia).
    rewrite len_app, !planned_length. unfold ticks, len. rewrite length_fmap, length_seqZ, length_replicate. lia.
  - intros i p. rewrite Z2Nat.id by (unfold packets_on; lia). by apply built_packet_reads.
Qed.
End correct.

#[local] Instance ascii_case : UnicodeCase := {| unicode_ToUpper r := r; unicode_ToLower r := r |}.
Definition sample_event : RTPDTMFSequenceConfig := mkDTMFSequence 0 (go_bytes " a ") 120 0 2 0 65534 1000 7 0.
Lemma event_sequence_read_back_witness :
  exists packets, BuildRTPDTMFSequence (U := ascii_case) sample_event = Ok packets /\ len packets = 4.
Proof.
  destruct (event_sequence_read_back (U := ascii_case) sample_event 12 {[101 := 8000]} RTPDTMFClientToIMS) as (packets & H1 & H2 & _);
    [lia|vm_compute; reflexivity|unfold config_ok, rtp_fields_ok, in_range; cbn; lia|cbn; lia|by vm_compute|by vm_compute|by vm_compute|].
  exists packets. split; [exact H1|]. rewrite H2. by vm_compute.
Defined.

(** ** Packets that differ only in the flags octet and the payload *)
Definition framed (o e : nat) (p p' : bytes) : Prop := length p' = length p /\ forall i, i <> 1%nat -> (i < o \/ e <= i)%nat -> p' !! i = p !! i.
Lemma framed_slice o e p p' i j : framed o e p p' -> 2 <= i -> j <= Z.of_nat o -> slice (E := error) p' i j = slice p i j.
Proof.
  intros (Hl & Hp) Hi Hj. unfold slice, len. rewrite Hl. case_match; [|done]. f_equal. unfold sub. apply list_eq. intros k.
  destruct (decide (k < Z.to_nat (j - i))%nat) as [Hk|Hk]; [|by rewrite !lookup_take_ge by lia].
  rewrite !lookup_take, !decide_True by done. rewrite !lookup_drop. apply Hp; lia.
Qed.
Lemma framed_at o e p p' i : framed o e p p' -> 0 <= i -> i <> 1 -> i < Z.of_nat o \/ Z.of_nat e <= i -> at_ (E := error) p' i = at_ p i.
Proof. intros (Hl & Hp) Hi Hi1 Hoe. unfold at_. case_match; [done|]. rewrite Hp by lia. done. Qed.
Lemma slice_is l i j s : slice (E := error) l i j = Ok s -> 0 <= i <= j /\ j <= len l /\ s = sub l i j.
Proof. unfold slice. destruct ((0 <=? i) && (i <=? j) && (j <=? len l)) eqn:H; [|done]. intros [= <-]. split_and!; [lia..|done]. Qed.
Lemma u16_is_nonneg l i j v : bytes_ok l -> u16_at (E := error) l i j = Ok v -> j = i + 2 -> is_u16 v.
Proof.
  intros Hl Hv ->. unfold u16_at in Hv. apply bind_ok in Hv as (s & Hs & Hv). apply slice_is in Hs as (Hi & Hj & ->).
  refine (safe_ok _ v is_u16 _ Hv). apply safe_Uint16; [by apply bytes_ok_sub|rewrite sub_len; lia|done].
Qed.
Lemma parsed_frame p h payload : bytes_ok p -> parseRTPPacket p = Ok (h, payload) ->
  let o := rh_PayloadOffset h in
  12 <= o /\ o + len payload <= len p /\ payload = sub p o (o + len payload)
  /\ exists b1, at_ (E := error) p 1 = Ok b1 /\ rh_PayloadType h = Z.land b1 0x7f /\ rh_Marker h = negb (Z.land b1 0x80 =? 0)
  /\ forall p' b1', framed (Z.to_nat o) (Z.to_nat (o + len payload)) p p' -> at_ (E := error) p' 1 = Ok b1' ->
       parseRTPPacket p' = Ok (mkRTPHeader (Z.land b1' 0x7f) (negb (Z.land b1' 0x80 =? 0)) (rh_SequenceNumber h) (rh_Timestamp h) (rh_SSRC h) o, sub p' o (o + len payload)).
Proof.
  intros Hok. unfold parseRTPPacket at 1. case_match eqn:H12; [done|]. intros (b0 & Hb0 & H)%bind_ok. case_match eqn:Hver; [done|]. cbv zeta in H.
  set (first := 12 + Z.land b0 15 * 4) in *. case_match eqn:Hcsrc; [done|].
  apply bind_ok in H as (hl & Hhl & H). apply bind_ok in H as (e & He & H). apply bind_ok in H as (b1 & Hb1 & H).
  apply bind_ok in H as (sequence & Hseq & H). apply bind_ok in H as (timestamp & Hts & H). apply bind_ok in H as (ssrc & Hssrc & H). apply bind_ok in H as (pl & Hpl & H).
  injection H as <- <-. cbn [rh_PayloadOffset rh_PayloadType rh_Marker rh_SequenceNumber rh_Timestamp rh_SSRC].
  apply slice_is in Hpl as (Hhe & Hep & ->). assert (Hl : hl + len (sub p hl e) = e) by (rewrite sub_len; lia).
  assert (Hfirst : 12 <= first) by (unfold first; assert (0 <= Z.land b0 15) by (rewrite Z.land_nonneg; lia); lia).
  assert (Hge : first <= hl).
  { destruct (negb (Z.land b0 16 =? 0)); [|injection Hhl as Hhl; lia]. destruct (len p <? first + 4); [done|]. apply bind_ok in Hhl as (words & Hw & Hhl).
    apply u16_is_nonneg in Hw as Hwr; [|done|lia]. cbv zeta in Hhl. destruct (len p <? first + (4 + words * 4)) eqn:Hover; [done|]. injection Hhl as <-. unfold in_range in Hwr. lia. }
  rewrite Hl. split_and!; [lia|lia|done|]. exists b1. split_and!; [done..|]. intros p' b1' Hf Hb1'. pose proof Hf as [Hlen _].
  assert (Hlen' : len p' = len p) by (unfold len; by rewrite Hlen). unfold parseRTPPacket. rewrite Hlen', H12, (framed_at _ _ _ _ 0 Hf), Hb0 by lia. cbn [bind]. rewrite Hver. cbv iota zeta.
  fold first. rewrite Hcsrc. unfold u16_at, u32_at in *.
  assert (Hhl' : (if negb (Z.land b0 16 =? 0) then
       if len p <? first + 4 then Errorf ErrInvalidDTMF else
       let! extWords := (let! s := slice p' (first + 2) (first + 4) in Uint16 s) in
       if len p <? first + (4 + extWords * 4) then Errorf ErrInvalidDTMF else Ok (first + (4 + extWords * 4))
     else Ok first) = Ok hl).
  { rewrite <- Hhl. destruct (negb (Z.land b0 16 =? 0)); [|done]. destruct (len p <? first + 4); [done|]. rewrite (framed_slice _ _ _ _ (first + 2) (first + 4) Hf); [done|lia|]. 
    apply bind_ok in Hhl as (words & Hw & Hhl). apply u16_is_nonneg in Hw as Hwr; [|done|lia]. cbv zeta in Hhl. destruct (len p <? first + (4 + words * 4)) eqn:Hover; [done|]. injection Hhl as <-. unfold in_range in Hwr. lia. }
  rewrite Hhl'. cbn [bind].
  assert (He' : (if negb (Z.land b0 32 =? 0) then
       let! pad := at_ p' (len p - 1) in
       if (pad =? 0) || (len p - hl <? pad) then Errorf ErrInvalidDTMF else Ok (len p - pad)
     else Ok (len p)) = Ok e).
  { rewrite <- He. destruct (negb (Z.land b0 32 =? 0)); [|done]. apply bind_ok in He as (pad & Hpad & He). destruct ((pad =? 0) || (len p - hl <? pad)) eqn:Hbad; [done|].
    injection He as <-. rewrite (framed_at _ _ _ _ (len p - 1) Hf) by lia. done. }
  rewrite He'. cbn [bind]. rewrite Hb1'. cbn [bind]. rewrite (framed_slice _ _ _ _ 2 4 Hf), Hseq by lia. cbn [bind]. rewrite (framed_slice _ _ _ _ 4 8 Hf), Hts by lia. cbn [bind].
  rewrite (framed_slice _ _ _ _ 8 12 Hf), Hssrc by lia. cbn [bind]. by rewrite slice_Ok by lia.
Qed.

(** ** The payload type an event is rewritten to *)
Lemma best_loop_spec wanted order best :
  match best_loop wanted order best with
  | None => best = None /\ forall p c, (p, c) ∈ order -> wanted (clock_of c) = false
  | Some (p, c) =>
      (best = Some (p, c) \/ exists c0, (p, c0) ∈ order /\ c = clock_of c0 /\ wanted c = true)
      /\ (forall p' c', best = Some (p', c') -> p <= p') /\ (forall p' c', (p', c') ∈ order -> wanted (clock_of c') = true -> p <= p')
  end.
Proof.
  revert best. induction order as [|[q d] order IH]; intros best; cbn [best_loop].
  - destruct best as [[p c]|]; [|split; [done|]; intros p c Hin; by apply not_elem_of_nil in Hin].
    split_and!; [by left|by intros p' c' [= <- <-]|]. intros p' c' Hin. by apply not_elem_of_nil in Hin.
  - set (best' := if _ && _ then _ else _). specialize (IH best'). destruct (best_loop wanted order best') as [[p c]|].
    + destruct IH as (Hfrom & Hbest & Hall). assert (Hq : wanted (clock_of d) = true -> p <= q).
      { intros Hw. unfold best' in Hbest. rewrite Hw in Hbest. destruct best as [[p0 c0]|]; cbn in Hbest; [|by eapply Hbest].
        destruct (Z.ltb_spec q p0); [by eapply Hbest|]. pose proof (Hbest _ _ eq_refl). lia. }
      split_and!.
      * destruct Hfrom as [Hb|(c0 & Hin & Hc)]; [|right; exists c0; rewrite elem_of_cons; tauto]. unfold best' in Hb.
        destruct (wanted (clock_of d)) eqn:Hw; [|by left]. destruct (match best with None => true | Some (bp, _) => q <? bp end); [|by left].
        cbn in Hb. injection Hb as <- <-. right. exists d. rewrite elem_of_cons. tauto.
      * intros p' c' ->. unfold best' in Hbest. destruct (wanted (clock_of d)); cbn in Hbest; [|by eapply Hbest].
        destruct (Z.ltb_spec q p'); [|by eapply Hbest]. pose proof (Hbest _ _ eq_refl). lia.
      * intros p' c' [[= -> ->]|Hin]%elem_of_cons; [done|]. by apply Hall.
    + destruct IH as (Hb & Hall). unfold best' in Hb. destruct (wanted (clock_of d)) eqn:Hw; cbn in Hb; [|split; [done|]; intros p c [[= -> ->]|Hin]%elem_of_cons; [done|by apply (Hall p)]].
      destruct best as [[p0 c0]|]; [|done]. by destruct (q <? p0).
Qed.
Definition chosen (types : gmap Z Z) (source clock pt clock' : Z) : Prop :=
  exists c, types !! pt = Some c /\ clock' = clock_of c /\
    (pt = source
     \/ types !! source = None /\
        ((clock' = clock /\ forall p c', types !! p = Some c' -> clock_of c' = clock -> pt <= p)
         \/ forall p c', types !! p = Some c' -> clock_of c' <> clock /\ pt <= p)).
Lemma choose_spec source clock types order order' : types <> ∅ -> 0 < clock -> order ≡ₚ map_to_list types -> order' ≡ₚ map_to_list types ->
  exists pt clock', chooseRTPDTMFTargetPayload source clock types order order' = Some (pt, clock') /\ chosen types source clock pt clock'.
Proof.
  intros Hne Hclock Ho Ho'. unfold chooseRTPDTMFTargetPayload. rewrite bool_decide_false by done. destruct (types !! source) as [c|] eqn:Hs.
  { exists source, (clock_of c). split; [done|]. exists c. tauto. }
  replace (clock_of clock) with clock by (unfold clock_of; case_match; lia).
  assert (Hin : forall p c, (p, c) ∈ order <-> types !! p = Some c) by (intros p c; by rewrite Ho, elem_of_map_to_list).
  assert (Hin' : forall p c, (p, c) ∈ order' <-> types !! p = Some c) by (intros p c; by rewrite Ho', elem_of_map_to_list).
  pose proof (best_loop_spec (fun c => c =? clock) order None) as H1. destruct (best_loop (fun c => c =? clock) order None) as [[p c]|].
  - destruct H1 as ([|(c0 & H0 & -> & Hw)] & _ & Hall); [done|]. apply Z.eqb_eq in Hw. exists p, (clock_of c0). split; [done|]. apply Hin in H0. exists c0. split_and!; [done..|]. right. split; [done|]. left.
    split; [done|]. intros p' c' H' Hc'. apply (Hall p' c'); [by apply Hin|lia].
  - destruct H1 as (_ & Hnone). pose proof (best_loop_spec (fun _ => true) order' None) as H2. destruct (best_loop (fun _ => true) order' None) as [[p c]|].
    + destruct H2 as ([|(c0 & H0 & -> & _)] & _ & Hall); [done|]. exists p, (clock_of c0). split; [done|]. apply Hin' in H0. exists c0. split_and!; [done..|]. right. split; [done|]. right.
      intros p' c' H'. split; [apply Hin in H'; apply Hnone in H'; lia|]. apply (Hall p' c'); [by apply Hin'|done].
    + exfalso. destruct H2 as (_ & Hall). destruct (map_choose types Hne) as (p & c & Hp). apply Hin' in Hp. by apply Hall in Hp.
Qed.
(** The duration in samples of the other clock, rounded, and kept within 1 and 65535. *)
Definition scaled (duration sourceClock targetClock : Z) : Z :=
  if duration =? 0 then 0 else Z.max 1 (Z.min 65535 ((duration * targetClock + sourceClock / 2) / sourceClock)).
Lemma scale_eq duration s t : is_u16 duration -> 0 < s < 2 ^ 32 -> 0 < t < 2 ^ 32 -> scaleRTPDTMFDuration duration s t = scaled duration s t.
Proof.
  unfold in_range. intros Hd Hs Ht. unfold scaleRTPDTMFDuration, scaled. destruct (Z.eqb_spec duration 0) as [->|Hnz]; [done|].
  replace (s <=? 0) with false by lia. replace (t <=? 0) with false by lia. cbn [orb].
  assert (Hq : 0 <= s / 2 <= s) by (split; [apply Z.div_pos|apply Z.div_le_upper_bound]; lia). destruct (Z.eqb_spec s t) as [->|Hst].
  - replace ((duration * t + t / 2) / t) with duration; [lia|]. rewrite Z.div_add_l by lia. rewrite (Z.div_small (t / 2) t) by (split; [lia|apply Z.div_lt; lia]). lia.
  - rewrite Z.quot_div_nonneg by lia. unfold to_u64. rewrite !Z.mod_small by (rewrite ?Z.mod_small by nia; nia). set (x := (duration * t + s / 2) / s).
    assert (0 <= x) by (apply Z.div_pos; nia). cbv zeta. destruct (Z.eqb_spec x 0); [lia|]. destruct (Z.ltb_spec 0xffff x); lia.
Qed.

(** ** A rewritten event *)
Section rewritten.
Context {U : UnicodeCase}.
Lemma len_four (a b c d : Z) rest : (len (a :: b :: c :: d :: rest) <? 4) = false.
Proof. apply Z.ltb_ge. unfold len. cbn [length]. lia. Qed.
Lemma event_inv direction p types e : ParseRTPDTMFEvent direction p types = Ok (Some e) ->
  exists h p0 p1 p2 p3 rest c d ms, parseRTPPacket p = Ok (h, p0 :: p1 :: p2 :: p3 :: rest) /\ types !! rh_PayloadType h = Some c
    /\ (len (RTPDTMFSignalFromEventCode p0) =? 0) = false /\ duration_ms (d) (clock_of c) = Ok ms /\ u16_at (E := error) [p2; p3] 0 2 = Ok (d)
    /\ e = mkDTMFEvent direction (rh_PayloadType h) p0 (RTPDTMFSignalFromEventCode p0) (negb (Z.land p1 0x80 =? 0)) (Z.land p1 0x3f) (d) ms
             (rh_SequenceNumber h) (rh_Timestamp h) (rh_SSRC h) (rh_Marker h) (clock_of c) p.
Proof.
  unfold ParseRTPDTMFEvent. intros ((h & payload) & Hp & H)%bind_ok. destruct (types !! rh_PayloadType h) as [c|] eqn:Hc; [|done].
  destruct payload as [|p0 [|p1 [|p2 [|p3 rest]]]]; try done. rewrite len_four in H.
  cbv iota zeta in H. change (at_ (p0 :: ?t) 0) with (Ok (E := error) p0) in H. cbn [bind] in H. destruct (len (RTPDTMFSignalFromEventCode p0) =? 0) eqn:Hsig; [done|].
  apply bind_ok in H as (d & Hd & H). apply bind_ok in H as (ms & Hms & H). change (at_ (p0 :: p1 :: ?t) 1) with (Ok (E := error) p1) in H. cbn [bind] in H. injection H as <-.
  exists h, p0, p1, p2, p3, rest, c, d, ms. split_and!; try done. rewrite <- Hd. unfold u16_at, slice.
  pose proof (len_four p0 p1 p2 p3 rest) as Hl. rewrite Z.ltb_ge in Hl. apply Z.leb_le in Hl. rewrite Hl. done.
Qed.
Lemma event_of direction p types h p0 p1 d rest c ms : parseRTPPacket p = Ok (h, p0 :: p1 :: be_bytes 2 d ++ rest) -> types !! rh_PayloadType h = Some c -> is_u16 d ->
  (len (RTPDTMFSignalFromEventCode p0) =? 0) = false -> duration_ms d (clock_of c) = Ok ms ->
  ParseRTPDTMFEvent direction p types = Ok (Some (mkDTMFEvent direction (rh_PayloadType h) p0 (RTPDTMFSignalFromEventCode p0) (negb (Z.land p1 0x80 =? 0)) (Z.land p1 0x3f) d ms
             (rh_SequenceNumber h) (rh_Timestamp h) (rh_SSRC h) (rh_Marker h) (clock_of c) p)).
Proof.
  intros Hp Hc Hd Hsig Hms. unfold ParseRTPDTMFEvent. rewrite Hp. cbn [bind]. rewrite Hc. assert (Hlen : (len (p0 :: p1 :: be_bytes 2 d ++ rest) <? 4) = false) by (apply (len_four p0 p1 _ _ rest)). rewrite Hlen.
  cbv iota zeta. change (at_ (p0 :: ?t) 0) with (Ok (E := error) p0). cbn [bind]. rewrite Hsig.
  rewrite (u16_at_eq _ [p0; p1] rest d) by (done || lia). cbn [bind]. rewrite Hms. by change (at_ (p0 :: p1 :: ?t) 1) with (Ok (E := error) p1).
Qed.
(** The flags octet and the duration of a packet with these parts. *)
Lemma rewritten_octets b0 b1 b1' pre p0 p1 p2 p3 rest post d :
  let p := (b0 :: b1 :: pre) ++ (p0 :: p1 :: p2 :: p3 :: rest) ++ post in
  let o := len (b0 :: b1 :: pre) in
  (let! before := slice (<[1%nat := b1']> p) 0 (o + 2) in let! after := slice_from (<[1%nat := b1']> p) (o + 4) in Ok (E := error) (before ++ be_bytes 2 d ++ after, true))
    = Ok ((b0 :: b1' :: pre) ++ (p0 :: p1 :: be_bytes 2 d ++ rest) ++ post, true).
Proof.
  intros p o. change (<[1%nat := b1']> p) with ((b0 :: b1' :: pre) ++ (p0 :: p1 :: p2 :: p3 :: rest) ++ post).
  rewrite (slice_eq _ [] ((b0 :: b1' :: pre) ++ [p0; p1]) (p2 :: p3 :: rest ++ post)); [|by rewrite <- app_assoc|done|rewrite len_app; done]. cbn [bind].
  rewrite (slice_from_eq _ ((b0 :: b1' :: pre) ++ [p0; p1; p2; p3]) (rest ++ post)); [|by rewrite <- app_assoc|rewrite len_app; done]. cbn [bind]. by rewrite <- !app_assoc.
Qed.
Lemma framed_app (x x' m m' y : bytes) b0 b1 b1' : x = b0 :: b1 :: m -> x' = b0 :: b1' :: m -> forall w w' : bytes, length w' = length w ->
  framed (length x) (length x + length w) (x ++ w ++ y) (x' ++ w' ++ y).
Proof.
  intros -> -> w w' Hw. split; [rewrite !length_app; cbn [length]; lia|]. intros i Hi [Hio|Hio].
  - rewrite !lookup_app_l by (cbn [length] in *; lia). destruct i as [|[|i]]; done.
  - rewrite !app_assoc, !lookup_app_r by (rewrite length_app; cbn [length] in *; lia). rewrite !length_app, Hw. done.
Qed.
Definition clocks_ok (types : gmap Z Z) : Prop := forall p c, types !! p = Some c -> 0 <= p < 128 /\ c < 2 ^ 32.
Lemma clock_of_range c : c < 2 ^ 32 -> 0 < clock_of c < 2 ^ 32.
Proof. unfold clock_of, DefaultRTPDTMFClockRate. case_match; lia. Qed.
Lemma clock_of_idem c : clock_of (clock_of c) = clock_of c.
Proof. unfold clock_of, DefaultRTPDTMFClockRate. repeat case_match; lia. Qed.
Lemma duration_ms_Ok d c : c < 2 ^ 32 -> exists ms, duration_ms d (clock_of c) = Ok ms.
Proof.
  intros Hc. apply clock_of_range in Hc. unfold duration_ms. replace (clock_of c <=? 0) with false by lia. unfold to_u32 at 1. rewrite Z.mod_small by lia.
  replace (clock_of c =? 0) with false by lia. by eexists.
Qed.
Lemma scaled_range d s t : is_u16 d -> is_u16 (scaled d s t).
Proof. unfold scaled, in_range. intros Hd. case_match; lia. Qed.
Lemma be_bytes_u16 p2 p3 d : is_u8 p2 -> is_u8 p3 -> u16_at (E := error) [p2; p3] 0 2 = Ok d -> [p2; p3] = be_bytes 2 d.
Proof.
  intros H2 H3 H. assert (Hd : be_decode [p2; p3] = d) by (change (Ok (E := error) (be_decode [p2; p3]) = Ok d) in H; congruence).
  rewrite <- Hd. symmetry. apply (be_bytes_be_decode [p2; p3]). apply bytes_ok_cons_2; [done|]. by apply bytes_ok_cons_2; [|constructor].
Qed.
Lemma event_parts p h p0 p1 p2 p3 rest : bytes_ok p -> parseRTPPacket p = Ok (h, p0 :: p1 :: p2 :: p3 :: rest) ->
  exists b0 b1 pre post, p = (b0 :: b1 :: pre) ++ (p0 :: p1 :: p2 :: p3 :: rest) ++ post /\ rh_PayloadOffset h = len (b0 :: b1 :: pre)
    /\ rh_PayloadType h = Z.land b1 0x7f /\ rh_Marker h = negb (Z.land b1 0x80 =? 0)
    /\ forall b1' d, parseRTPPacket ((b0 :: b1' :: pre) ++ (p0 :: p1 :: be_bytes 2 d ++ rest) ++ post)
         = Ok (mkRTPHeader (Z.land b1' 0x7f) (negb (Z.land b1' 0x80 =? 0)) (rh_SequenceNumber h) (rh_Timestamp h) (rh_SSRC h) (rh_PayloadOffset h), p0 :: p1 :: be_bytes 2 d ++ rest).
Proof.
  intros Hok Hp. destruct (parsed_frame _ _ _ Hok Hp) as (Ho12 & Hoe & Hsub & b1 & Hb1 & Hpt & Hmk & Hframe). set (o := rh_PayloadOffset h) in *. set (payload := p0 :: p1 :: p2 :: p3 :: rest) in *.
  destruct (slice_app3 p o (o + len payload)) as (x & post & Hsplit & Hx & Hpost); [unfold len; lia|done|]. rewrite <- Hsub in Hsplit.
  destruct x as [|b0 [|b1x pre]]; [unfold len in Hx; cbn in Hx; lia..|]. assert (b1x = b1) as -> by (rewrite Hsplit in Hb1; by injection Hb1).
  exists b0, b1, pre, post. split_and!; [done..|]. intros b1' d. pose proof (framed_app (b0 :: b1 :: pre) (b0 :: b1' :: pre) pre payload post b0 b1 b1' eq_refl eq_refl) as Hf.
  specialize (Hf payload (p0 :: p1 :: be_bytes 2 d ++ rest) eq_refl). rewrite <- Hsplit in Hf. rewrite (Hframe _ b1').
  - do 2 f_equal. assert (Hs : slice (E := error) ((b0 :: b1' :: pre) ++ (p0 :: p1 :: be_bytes 2 d ++ rest) ++ post) o (o + len payload) = Ok (p0 :: p1 :: be_bytes 2 d ++ rest)).
    { apply (slice_eq _ (b0 :: b1' :: pre) _ post); [done|by rewrite <- Hx|done]. }
    apply slice_is in Hs as (_ & _ & Hs). by rewrite <- Hs.
  - replace (Z.to_nat (o + len payload)) with (length (b0 :: b1 :: pre) + length payload)%nat by (unfold len in *; lia).
    replace (Z.to_nat o) with (length (b0 :: b1 :: pre)) by (unfold len in *; lia). exact Hf.
  - done.
Qed.
Lemma flags_octet b1 pt : 0 <= pt < 128 -> let b1' := Z.lor (Z.land b1 0x80) (Z.land pt 0x7f) in
  Z.land b1' 0x7f = pt /\ negb (Z.land b1' 0x80 =? 0) = negb (Z.land b1 0x80 =? 0).
Proof.
  intros Hpt b1'. unfold b1'. rewrite !Z.land_lor_distr_l, <- !Z.land_assoc. change (Z.land 0x80 0x7f) with 0. change (Z.land 0x7f 0x7f) with 0x7f.
  change (Z.land 0x80 0x80) with 0x80. change (Z.land 0x7f 0x80) with 0. rewrite !Z.land_0_r, Z.lor_0_l, Z.lor_0_r. split; [|done].
  change 0x7f with (2 ^ 7 - 1). by apply low_bits.
Qed.
(** [RewriteRTPDTMFPayloadType] carries an event to the other side whatever the order
    in which the code ranges over the map: the packet, of the same length, is read with the payload
    types of the other side as the same event, under the type the choice prescribes (the
    same number if the other side has it, else the least one with the same clock, else the least), with
    the duration scaled to its clock, rounded and kept from 0 and from overflow; the
    marker, sequence number, timestamp, source, code, end flag and volume are the ones
    received. *)
Theorem rewritten_event direction packet source target order order' e :
  bytes_ok packet -> ParseRTPDTMFEvent direction packet source = Ok (Some e) -> target <> ∅ -> clocks_ok target -> de_ClockRate e < 2 ^ 32 ->
  order ≡ₚ map_to_list target -> order' ≡ₚ map_to_list target ->
  exists pt clock out changed ms, chosen target (de_PayloadType e) (de_ClockRate e) pt clock
    /\ RewriteRTPDTMFPayloadType packet source target order order' = Ok (out, changed) /\ len out = len packet /\ (changed = false -> out = packet)
    /\ ParseRTPDTMFEvent direction out target
       = Ok (Some (mkDTMFEvent direction pt (de_EventCode e) (de_Signal e) (de_End e) (de_Volume e) (scaled (de_DurationSamples e) (de_ClockRate e) clock) ms
                     (de_SequenceNumber e) (de_Timestamp e) (de_SSRC e) (de_Marker e) clock out)).
Proof.
  intros Hok He Hne Hclocks Hrate Ho Ho'. apply event_inv in He as (h & p0 & p1 & p2 & p3 & rest & c & d & ms & Hp & Hc & Hsig & Hms & Hd & ->).
  cbn [de_PayloadType de_ClockRate de_EventCode de_Signal de_End de_Volume de_DurationSamples de_SequenceNumber de_Timestamp de_SSRC de_Marker] in *.
  destruct (event_parts _ _ _ _ _ _ _ Hok Hp) as (b0 & b1 & pre & post & Hsplit & Hoff & Hpt & Hmk & Hparse).
  assert (Hbytes : is_u8 p2 /\ is_u8 p3).
  { rewrite Hsplit in Hok. unfold bytes_ok in Hok. rewrite !Forall_app, !Forall_cons in Hok. tauto. }
  destruct Hbytes as [H2 H3]. apply be_bytes_u16 in Hd as Hd'; [|done..].
  assert (Hdr : is_u16 d) by (refine (safe_ok _ d is_u16 _ Hd); apply safe_u16_at; [by repeat apply bytes_ok_cons_2; try constructor; (apply H2 || apply H3)|lia|done|done|done]).
  assert (Hcs : 0 < clock_of c < 2 ^ 32) by (split; [unfold clock_of, DefaultRTPDTMFClockRate; case_match; lia|done]).
  destruct (choose_spec (rh_PayloadType h) (clock_of c) target order order' Hne ltac:(lia) Ho Ho') as (pt & clock & Hchoose & Hchosen).
  pose proof Hchosen as (c1 & Hc1 & -> & _). destruct (Hclocks _ _ Hc1) as [Hpt1 Hc1r]. pose proof (clock_of_range c1 Hc1r) as Hclk.
  set (d' := scaled d (clock_of c) (clock_of c1)). destruct (duration_ms_Ok d' c1 Hc1r) as (ms' & Hms').
  assert (Hrw : RewriteRTPDTMFPayloadType packet source target order order' =
    if (rh_PayloadType h =? pt) && (d =? d') then Ok (packet, false) else
    Ok ((b0 :: Z.lor (Z.land b1 0x80) (Z.land pt 0x7f) :: pre) ++ (p0 :: p1 :: be_bytes 2 d' ++ rest) ++ post, true)).
  { unfold RewriteRTPDTMFPayloadType. rewrite !bool_decide_false by (done || by intros ->). cbn [orb]. rewrite Hp. cbn [bind]. rewrite Hc, len_four. cbv iota zeta.
    change (at_ (p0 :: ?t) 0) with (Ok (E := error) p0). cbn [bind]. rewrite Hsig, Hchoose, clock_of_idem.
    rewrite (u16_at_eq _ [p0; p1] rest d) by (done || by rewrite <- Hd'). cbn [bind]. rewrite scale_eq by done. fold d'. case_match; [done|].
    rewrite Hoff. rewrite Hsplit at 1. change (at_ ((b0 :: b1 :: pre) ++ ?t) 1) with (Ok (E := error) b1). cbn [bind]. rewrite Hsplit. apply rewritten_octets. }
  rewrite Hrw. destruct ((rh_PayloadType h =? pt) && (d =? d')) eqn:Hsame.
  - apply andb_prop in Hsame as [Hpt'%Z.eqb_eq Hdd'%Z.eqb_eq]. exists pt, (clock_of c1), packet, false, ms'. split_and!; try done.
    rewrite <- Hpt'. apply (event_of direction packet target h p0 p1 d' rest c1 ms'); try done; [|by rewrite Hpt'|by apply scaled_range]. rewrite Hp, <- Hdd'. by rewrite <- Hd'.
  - set (out := _ ++ _). exists pt, (clock_of c1), out, true, ms'. split_and!; try done.
    + rewrite Hsplit. unfold out. rewrite !len_app. unfold len. cbn [length]. rewrite length_app, length_be_bytes. cbn [length]. lia.
    + set (b1' := Z.lor _ _) in out. pose proof (Hparse b1' d') as Hp'. fold out in Hp'.
      assert (Hb : Z.land b1' 0x7f = pt /\ negb (Z.land b1' 0x80 =? 0) = rh_Marker h) by (rewrite Hmk; by apply flags_octet). destruct Hb as [Hb1' Hb2']. rewrite Hb1', Hb2' in Hp'.
      eapply event_of in Hp'; [|done|by apply scaled_range|done|done]. exact Hp'.
Qed.
End rewritten.

(** ** Malformed packets *)
Section rejected.
Context {U : UnicodeCase}.
(** A result, or the one error of this file; never a panic. *)
Definition accepts_or_rejects {A} (r : result A) (Q : A -> Prop) : Prop :=
  match r with Ok a => Q a | Err e => e = Sentinel ErrInvalidDTMF | Panic | OutOfFuel => False end.
Lemma rejected {A} (Q : A -> Prop) : accepts_or_rejects (Errorf ErrInvalidDTMF) Q.
Proof. done. Qed.
Lemma rejects_call {A B} (m : result A) (k : A -> result B) P Q :
  accepts_or_rejects m P -> (forall a, P a -> accepts_or_rejects (k a) Q) -> accepts_or_rejects (bind m k) Q.
Proof. destruct m as [a|e| |]; cbn; [auto| |done|done]. intros [= ->] _. done. Qed.
Lemma reads_slice l i j Q : bytes_ok l -> 0 <= i <= j -> j <= len l -> (forall s, s = sub l i j -> len s = j - i -> bytes_ok s -> Q s) ->
  accepts_or_rejects (slice l i j) Q.
Proof. intros Hl Hi Hj HQ. rewrite slice_Ok by done. cbn. apply HQ; [done|by apply sub_len|by apply bytes_ok_sub]. Qed.
Lemma reads_at l i Q : bytes_ok l -> 0 <= i < len l -> (forall b, is_u8 b -> Q b) -> accepts_or_rejects (at_ l i) Q.
Proof.
  intros Hl Hi HQ. unfold at_. replace (i <? 0) with false by lia. destruct (l !! Z.to_nat i) as [b|] eqn:Hb; [apply HQ; by eapply bytes_ok_lookup|].
  apply lookup_ge_None in Hb. unfold len in Hi. lia.
Qed.
Lemma reads_field n l i Q : bytes_ok l -> 0 <= i -> 0 <= n -> i + n <= len l -> (forall v, in_range (256 ^ n) v -> Q v) ->
  accepts_or_rejects (let! s := slice l i (i + n) in BE_Uint n s) Q.
Proof.
  intros Hl Hi Hn Hj HQ. apply (rejects_call _ _ (fun s => len s = n /\ bytes_ok s)); [by apply reads_slice; [done|lia|lia|intros s _ Hs ?; split; [lia|done]]|].
  intros s [Hs Hok]. unfold BE_Uint. apply (rejects_call _ _ (fun s' => len s' = n /\ bytes_ok s')); [by apply reads_slice; [done|lia|lia|intros s' _ Hs' ?; split; [lia|done]]|].
  intros s' [Hs' Hok']. cbn. apply HQ. rewrite <- Hs'. by apply be_decode_range.
Qed.
Lemma parse_rejects p : bytes_ok p -> accepts_or_rejects (parseRTPPacket p) (fun r => bytes_ok r.2).
Proof.
  intros Hok. unfold parseRTPPacket. destruct (len p <? 12) eqn:H12; [done|]. apply (rejects_call _ _ is_u8); [apply reads_at; [done|lia|done]|]. intros b0 Hb0.
  destruct (negb (Z.shiftr b0 6 =? 2)); [done|]. cbv zeta. set (first := 12 + Z.land b0 15 * 4). destruct (len p <? first) eqn:Hfirst; [done|].
  assert (Hge : 12 <= first) by (unfold first; assert (0 <= Z.land b0 15) by (rewrite Z.land_nonneg; lia); lia).
  apply (rejects_call _ _ (fun h => first <= h <= len p)).
  { destruct (negb (Z.land b0 16 =? 0)); [|cbn; lia]. destruct (len p <? first + 4) eqn:H4; [done|].
    apply (rejects_call _ _ is_u16); [replace (first + 4) with ((first + 2) + 2) by lia; apply (reads_field 2); [done|lia..|done]|]. intros words Hw. unfold in_range in Hw.
    destruct (len p <? first + (4 + words * 4)) eqn:Hover; [done|]. cbn [accepts_or_rejects]. lia. }
  intros h Hh. apply (rejects_call _ _ (fun e => h <= e <= len p)).
  { destruct (negb (Z.land b0 32 =? 0)); [|cbn; lia]. apply (rejects_call _ _ is_u8); [apply reads_at; [done|lia|done]|]. intros pad Hpad. unfold in_range in Hpad.
    destruct ((pad =? 0) || (len p - h <? pad)) eqn:Hbad; [done|]. cbn [accepts_or_rejects]. lia. }
  intros e He. apply (rejects_call _ _ is_u8); [apply reads_at; [done|lia|done]|]. intros b1 _.
  apply (rejects_call _ _ is_u16); [apply (reads_field 2); [done|lia..|done]|]. intros sequence _.
  apply (rejects_call _ _ is_u32); [apply (reads_field 4); [done|lia..|done]|]. intros timestamp _.
  apply (rejects_call _ _ is_u32); [apply (reads_field 4); [done|lia..|done]|]. intros ssrc _.
  apply (rejects_call _ _ bytes_ok); [apply reads_slice; [done|lia|lia|done]|]. intros payload Hpayload. done.
Qed.
(** Whatever arrives, [ParseRTPDTMFEvent] answers: a packet of another payload type
    is no event, an event has a known code and a duration in milliseconds, and everything else
    fails with [ErrInvalidDTMF]; nothing reads out of range.  The clocks are those below [2 ^ 32]; at
    [2 ^ 32] the duration divides by zero ([clock_out_of_range]). *)
Theorem malformed_rtp_rejected direction p types : bytes_ok p -> clocks_ok types ->
  match ParseRTPDTMFEvent direction p types with
  | Ok None => exists h payload, parseRTPPacket p = Ok (h, payload) /\ types !! rh_PayloadType h = None
  | Ok (Some e) => 0 <= de_EventCode e <= 16 /\ de_Signal e = RTPDTMFSignalFromEventCode (de_EventCode e) /\ is_u16 (de_DurationSamples e)
      /\ (exists c, types !! de_PayloadType e = Some c /\ de_ClockRate e = clock_of c) /\ de_Packet e = p /\ 0 <= de_DurationMS e < 2 ^ 32
  | Err e => e = Sentinel ErrInvalidDTMF
  | Panic | OutOfFuel => False
  end.
Proof.
  intros Hok Hclocks. unfold ParseRTPDTMFEvent. pose proof (parse_rejects p Hok) as Hp. destruct (parseRTPPacket p) as [[h payload]|e| |] eqn:Hparse; [|cbn in *; congruence|done..].
  cbn [bind]. cbn in Hp. destruct (types !! rh_PayloadType h) as [c|] eqn:Hc; [|by exists h, payload]. destruct (Hclocks _ _ Hc) as [_ Hcr].
  set (Q := fun oe : option RTPDTMFEvent => exists e, oe = Some e /\ 0 <= de_EventCode e <= 16 /\ de_Signal e = RTPDTMFSignalFromEventCode (de_EventCode e) /\ is_u16 (de_DurationSamples e)
      /\ (exists c, types !! de_PayloadType e = Some c /\ de_ClockRate e = clock_of c) /\ de_Packet e = p /\ 0 <= de_DurationMS e < 2 ^ 32).
  enough (H : accepts_or_rejects (if len payload <? 4 then Errorf ErrInvalidDTMF else
      let! code := at_ payload 0 in
      if len (RTPDTMFSignalFromEventCode code) =? 0 then Errorf ErrInvalidDTMF else
      let! durationSamples := u16_at payload 2 4 in
      let! durationMS := duration_ms durationSamples (clock_of c) in
      let! b1 := at_ payload 1 in
      Ok (Some (mkDTMFEvent direction (rh_PayloadType h) code (RTPDTMFSignalFromEventCode code) (negb (Z.land b1 0x80 =? 0)) (Z.land b1 0x3f) durationSamples durationMS
                  (rh_SequenceNumber h) (rh_Timestamp h) (rh_SSRC h) (rh_Marker h) (clock_of c) p))) Q).
  { cbv zeta. match type of H with accepts_or_rejects ?r Q => destruct r as [[e|]|e| |] end; cbn in H; [|destruct H as (e & [=] & _)|done..]. by destruct H as (e' & [= <-] & H). }
  destruct (len payload <? 4) eqn:H4; [done|]. apply (rejects_call _ _ is_u8); [apply reads_at; [done|lia|done]|]. intros code Hcode.
  destruct (len (RTPDTMFSignalFromEventCode code) =? 0) eqn:Hsig; [done|].
  assert (Hknown : 0 <= code <= 16).
  { unfold in_range in Hcode. split; [lia|]. destruct (Z_le_dec code 16); [done|]. exfalso. unfold RTPDTMFSignalFromEventCode in Hsig.
    repeat (case_match; [lia|]). done. }
  apply (rejects_call _ _ is_u16); [apply (reads_field 2); [done|lia..|done]|]. intros d Hd. destruct (duration_ms_Ok d c Hcr) as (ms & Hms).
  assert (Hmsr : 0 <= ms < 2 ^ 32).
  { unfold duration_ms in Hms. pose proof (clock_of_range c Hcr). replace (clock_of c <=? 0) with false in Hms by lia. destruct (to_u32 (clock_of c) =? 0) eqn:Hz; [done|]. injection Hms as <-.
    pose proof (to_u32_range (clock_of c)) as H1. set (x := to_u32 (_ + _)). pose proof (to_u32_range (to_u32 (d * 1000) + to_u32 (Z.quot (clock_of c) 2))) as H2. fold x in H2. unfold in_range in *.
    split; [apply Z.div_pos; lia|]. apply Z.div_lt_upper_bound; nia. }
  rewrite Hms. cbn [bind]. apply (rejects_call _ _ is_u8); [apply reads_at; [done|lia|done]|]. intros b1 _. cbn [accepts_or_rejects]. unfold Q. eexists. split; [done|]. cbn.
  split_and!; try done; try lia. by exists c.
Qed.
End rejected.
(** A clock of [2 ^ 32] in the payload types makes the reading of any event panic. *)
Example clock_out_of_range :
  ParseRTPDTMFEvent RTPDTMFIMSToClient (event_packet false 101 1 2 3 5 false 10 400) {[101 := 4294967296]} = Panic.
Proof. vm_compute. reflexivity. Qed.
Lemma malformed_rtp_rejected_witness :
  exists e, ParseRTPDTMFEvent RTPDTMFIMSToClient [0x80; 101; 0] {[101 := 8000]} = Err e /\ e = Sentinel ErrInvalidDTMF.
Proof.
  exists (Sentinel ErrInvalidDTMF). split; [vm_compute; reflexivity|].
  apply (malformed_rtp_rejected RTPDTMFIMSToClient [0x80; 101; 0] {[101 := 8000]}); [unfold bytes_ok, in_range; by_decide|].
  intros p c [<- <-]%lookup_singleton_Some. lia.
Defined.
Lemma rewritten_event_witness :
  exists pt clock out changed ms, chosen {[96 := 16000; 97 := 8000]} 101 8000 pt clock
    /\ RewriteRTPDTMFPayloadType (event_packet true 101 1 2 3 5 false 10 400) {[101 := 8000]} {[96 := 16000; 97 := 8000]} [(96, 16000); (97, 8000)] [(97, 8000); (96, 16000)] = Ok (out, changed)
    /\ ParseRTPDTMFEvent RTPDTMFClientToIMS out {[96 := 16000; 97 := 8000]}
       = Ok (Some (mkDTMFEvent RTPDTMFClientToIMS pt 5 (go_bytes "5") false 10 (scaled 400 8000 clock) ms 1 2 3 true clock out)).
Proof.
  edestruct (rewritten_event RTPDTMFClientToIMS (event_packet true 101 1 2 3 5 false 10 400) {[101 := 8000]} {[96 := 16000; 97 := 8000]}
    [(96, 16000); (97, 8000)] [(97, 8000); (96, 16000)]) as (pt & clock & out & changed & ms & H1 & H2 & _ & _ & H3).
  - unfold bytes_ok, in_range. by_decide.
  - vm_compute. reflexivity.
  - done.
  - intros p c Hp. destruct (decide (p = 96)) as [->|H96]; [|destruct (decide (p = 97)) as [->|H97]].
    + vm_compute in Hp. injection Hp as <-. lia.
    + vm_compute in Hp. injection Hp as <-. lia.
    + by rewrite lookup_insert_ne, lookup_singleton_ne in Hp by done.
  - vm_compute. reflexivity.
  - by_decide.
  - by_decide.
  - exists pt, clock, out, changed, ms. split_and!; [exact H1|exact H2|exact H3].
Defined.
