(* ===== verification/RtpStats.v ===== *)
(** * Reception statistics of RTP streams (runtimehost/voicehost/rtp_stream_stats.go)

    The tracker that counts, for each source, the packets that came, came twice, came late
    or never came, with the extended sequence numbers and time stamps of RFC 3550, the
    jitter, and the classification of a stream; the report blocks that are built
    from them (rtcp_reports.go).

    A [time.Time] is a count of nanoseconds whose zero value is 0.  The jitter is a binary64
    number of the standard library's [SpecFloat]; what [uint32] makes of a
    number beyond its range is a parameter. *)
From Stdlib Require Import SpecFloat.
From stdpp Require Import gmap sorting.
From S2P Require Import Prelude GoStrings Utf8 Errors RtpDtmf.
#[local] Open Scope string_scope.
#[local] Open Scope list_scope.
#[local] Open Scope Z_scope.

(** ** Numbers and times *)
Definition float64 (n : Z) : spec_float := binary_normalize 53 1024 n 0 false.
Definition float_sub : spec_float -> spec_float -> spec_float := SFsub 53 1024.
Definition float_add : spec_float -> spec_float -> spec_float := SFadd 53 1024.
Definition float_div : spec_float -> spec_float -> spec_float := SFdiv 53 1024.
Class FloatConversion := { u32_beyond : spec_float -> Z }.
Definition u32_of_float `{FloatConversion} (f : spec_float) : Z :=
  match f with
  | S754_zero _ => 0
  | S754_finite s m e =>
      let v := if 0 <=? e then Zpos m * 2 ^ e else Zpos m / 2 ^ (- e) in
      if (v <? 2 ^ 32) && (negb s || (v =? 0)) then v else u32_beyond f
  | _ => u32_beyond f
  end.
Definition IsZero (t : Z) : bool := t =? 0.
Definition Second : Z := 1000000000.
(** [t.Sub(u)] *)
Definition time_Sub (t u : Z) : Z := Z.max (- 2 ^ 63) (Z.min (2 ^ 63 - 1) (t - u)).

(** ** Report blocks (rtcp_reports.go) *)
Record RTPStreamStats := mkStats {
  st_SSRC : Z;
  st_Packets : Z;
  st_DuplicatePackets : Z;
  st_OutOfOrderPackets : Z;
  st_ExpectedPackets : Z;
  st_LostPackets : Z;
  st_FractionLost : Z;
  st_LastSequenceNumber : Z;
  st_SequenceRollovers : Z;
  st_LastTimestamp : Z;
  st_TimestampRollovers : Z;
  st_Jitter : Z;
  st_LastSenderReport : Z;
  st_Delay : Z
}.
(** The block of package rtcp, with its exported fields. *)
Record ReceptionReport := mkReport { rr_SSRC : Z; rr_FractionLost : Z; rr_TotalLost : Z; rr_LastSequenceNumber : Z; rr_Jitter : Z; rr_LastSenderReport : Z; rr_Delay : Z }.
Definition maxRTCPReceiverReportBlocks : nat := 31.
Definition maxRTCPPositiveLostPackets : Z := 0x7fffff.
Definition ntpEpochOffsetSeconds : Z := 2208988800.
Definition rtcpCompactNTPUnitsPerSecond : Z := 65536.
Definition maxRTCPCompactDelay : Z := 2 ^ 32 - 1.
Definition rtcpReportLostPackets (lost : Z) : Z := if maxRTCPPositiveLostPackets <? lost then maxRTCPPositiveLostPackets else to_u32 lost.
Definition rtcpReceptionReportBlock (s : RTPStreamStats) : ReceptionReport :=
  mkReport (st_SSRC s) (st_FractionLost s) (rtcpReportLostPackets (st_LostPackets s)) (st_LastSequenceNumber s) (st_Jitter s) (st_LastSenderReport s) (st_Delay s).
Definition rtcpReceptionReportBlocks (stats : list RTPStreamStats) : list ReceptionReport := rtcpReceptionReportBlock <$> take maxRTCPReceiverReportBlocks stats.
Record ReceiverReport := mkReceiverReport { rx_SSRC : Z; rx_Reports : list ReceptionReport }.
Definition BuildReceiverReport (senderSSRC : Z) (stats : list RTPStreamStats) : ReceiverReport := mkReceiverReport senderSSRC (rtcpReceptionReportBlocks stats).
Record RTCPSenderReportConfig := mkSenderConfig { sc_SSRC : Z; sc_NTPTime : Z; sc_WallClock : Z; sc_RTPTime : Z; sc_PacketCount : Z; sc_OctetCount : Z; sc_ReceptionStats : list RTPStreamStats }.
Record SenderReport := mkSenderReport { sx_SSRC : Z; sx_NTPTime : Z; sx_RTPTime : Z; sx_PacketCount : Z; sx_OctetCount : Z; sx_Reports : list ReceptionReport }.
(** The packets of package rtcp that end a source and describe it: sources and reason; source and items, with their types. *)
Definition BuildGoodbye (sources : list Z) (reason : bytes) : list Z * bytes := (sources, TrimSpace reason).
Record RTCPSourceDescriptionConfig := mkDescriptionConfig { sd_SSRC : Z; sd_CNAME : bytes; sd_Name : bytes; sd_Tool : bytes }.
Inductive SDESType := SDESCNAME | SDESName | SDESTool.
Definition sdes_item (type : SDESType) (text : bytes) : list (SDESType * bytes) := let text := TrimSpace text in if bool_decide (text = []) then [] else [(type, text)].
Definition BuildSourceDescription (cfg : RTCPSourceDescriptionConfig) : list (Z * list (SDESType * bytes)) :=
  [(sd_SSRC cfg, sdes_item SDESCNAME (sd_CNAME cfg) ++ sdes_item SDESName (sd_Name cfg) ++ sdes_item SDESTool (sd_Tool cfg))].
(** [Unix()] and [Nanosecond()] of an instant. *)
Definition unix_epoch : Z := 62135596800.
Definition time_Unix (t : Z) : Z := t / Second - unix_epoch.
Definition time_Nanosecond (t : Z) : Z := t mod Second.
Definition rtcpNTPTime (t : Z) : Z :=
  let seconds := to_i64 (time_Unix t + ntpEpochOffsetSeconds) in
  if seconds <? 0 then 0 else
  let fraction := Z.shiftl (time_Nanosecond t) 32 / Second in
  Z.lor (to_u64 (Z.shiftl seconds 32)) fraction.
Definition BuildSenderReport (cfg : RTCPSenderReportConfig) : SenderReport :=
  let ntpTime := if (sc_NTPTime cfg =? 0) && negb (IsZero (sc_WallClock cfg)) then rtcpNTPTime (sc_WallClock cfg) else sc_NTPTime cfg in
  mkSenderReport (sc_SSRC cfg) ntpTime (sc_RTPTime cfg) (sc_PacketCount cfg) (sc_OctetCount cfg) (rtcpReceptionReportBlocks (sc_ReceptionStats cfg)).
Definition rtcpLastSenderReport (ntpTime : Z) : Z := to_u32 (Z.shiftr ntpTime 16).
Definition rtcpCompactDelay (d : Z) : Z :=
  if d <=? 0 then 0 else
  let seconds := Z.quot d Second in
  let remainder := Z.rem d Second in
  if rtcpCompactNTPUnitsPerSecond <=? seconds then maxRTCPCompactDelay else
  let units := to_u64 (to_u64 (seconds * rtcpCompactNTPUnitsPerSecond) + to_u64 (remainder * rtcpCompactNTPUnitsPerSecond) / Second) in
  if maxRTCPCompactDelay <? units then maxRTCPCompactDelay else to_u32 units.
Definition rtcpCompactDelayDuration (delay : Z) : Z :=
  let seconds := delay / rtcpCompactNTPUnitsPerSecond in
  let fraction := delay mod rtcpCompactNTPUnitsPerSecond in
  to_i64 (to_i64 (seconds * Second) + Z.quot (to_i64 (fraction * Second)) rtcpCompactNTPUnitsPerSecond).

(** ** The state of a stream *)
Record rtpStreamSenderReportState := mkSenderReportState { sp_lastSenderReport : Z; sp_arrival : Z }.
Definition no_sender_report : rtpStreamSenderReportState := mkSenderReportState 0 0.
Record rtpStreamStatsState := mkStream {
  rs_stats : RTPStreamStats;
  rs_baseSeq : Z;
  rs_maxSeq : Z;
  rs_seenSequences : gset Z;
  rs_baseArrival : Z;
  rs_baseTimestamp : Z;
  rs_lastTimestamp : Z;
  rs_lastTransit : Z;
  rs_jitter : spec_float;
  rs_senderReport : rtpStreamSenderReportState
}.
Definition set_stats (t : RTPStreamStats) (s : rtpStreamStatsState) : rtpStreamStatsState :=
  mkStream t (rs_baseSeq s) (rs_maxSeq s) (rs_seenSequences s) (rs_baseArrival s) (rs_baseTimestamp s) (rs_lastTimestamp s) (rs_lastTransit s) (rs_jitter s) (rs_senderReport s).
Definition set_senderReport (r : rtpStreamSenderReportState) (s : rtpStreamStatsState) : rtpStreamStatsState :=
  mkStream (rs_stats s) (rs_baseSeq s) (rs_maxSeq s) (rs_seenSequences s) (rs_baseArrival s) (rs_baseTimestamp s) (rs_lastTimestamp s) (rs_lastTransit s) (rs_jitter s) r.
Definition set_newest (seq timestamp : Z) (s : rtpStreamStatsState) : rtpStreamStatsState :=
  mkStream (rs_stats s) (rs_baseSeq s) seq (rs_seenSequences s) (rs_baseArrival s) (rs_baseTimestamp s) timestamp (rs_lastTransit s) (rs_jitter s) (rs_senderReport s).
Definition set_seen (seen : gset Z) (s : rtpStreamStatsState) : rtpStreamStatsState :=
  mkStream (rs_stats s) (rs_baseSeq s) (rs_maxSeq s) seen (rs_baseArrival s) (rs_baseTimestamp s) (rs_lastTimestamp s) (rs_lastTransit s) (rs_jitter s) (rs_senderReport s).
Definition set_transit (transit : Z) (jitter : spec_float) (s : rtpStreamStatsState) : rtpStreamStatsState :=
  mkStream (rs_stats s) (rs_baseSeq s) (rs_maxSeq s) (rs_seenSequences s) (rs_baseArrival s) (rs_baseTimestamp s) (rs_lastTimestamp s) transit jitter (rs_senderReport s).
Definition count_packet (t : RTPStreamStats) : RTPStreamStats :=
  mkStats (st_SSRC t) (to_u64 (st_Packets t + 1)) (st_DuplicatePackets t) (st_OutOfOrderPackets t) (st_ExpectedPackets t) (st_LostPackets t) (st_FractionLost t) (st_LastSequenceNumber t) (st_SequenceRollovers t) (st_LastTimestamp t) (st_TimestampRollovers t) (st_Jitter t) (st_LastSenderReport t) (st_Delay t).
Definition count_duplicate (t : RTPStreamStats) : RTPStreamStats :=
  mkStats (st_SSRC t) (st_Packets t) (to_u64 (st_DuplicatePackets t + 1)) (st_OutOfOrderPackets t) (st_ExpectedPackets t) (st_LostPackets t) (st_FractionLost t) (st_LastSequenceNumber t) (st_SequenceRollovers t) (st_LastTimestamp t) (st_TimestampRollovers t) (st_Jitter t) (st_LastSenderReport t) (st_Delay t).
Definition count_out_of_order (t : RTPStreamStats) : RTPStreamStats :=
  mkStats (st_SSRC t) (st_Packets t) (st_DuplicatePackets t) (to_u64 (st_OutOfOrderPackets t + 1)) (st_ExpectedPackets t) (st_LostPackets t) (st_FractionLost t) (st_LastSequenceNumber t) (st_SequenceRollovers t) (st_LastTimestamp t) (st_TimestampRollovers t) (st_Jitter t) (st_LastSenderReport t) (st_Delay t).
Definition set_loss (expected lost fraction : Z) (t : RTPStreamStats) : RTPStreamStats :=
  mkStats (st_SSRC t) (st_Packets t) (st_DuplicatePackets t) (st_OutOfOrderPackets t) expected lost fraction (st_LastSequenceNumber t) (st_SequenceRollovers t) (st_LastTimestamp t) (st_TimestampRollovers t) (st_Jitter t) (st_LastSenderReport t) (st_Delay t).
Definition set_rollovers (seqs timestamp times : Z) (t : RTPStreamStats) : RTPStreamStats :=
  mkStats (st_SSRC t) (st_Packets t) (st_DuplicatePackets t) (st_OutOfOrderPackets t) (st_ExpectedPackets t) (st_LostPackets t) (st_FractionLost t) (st_LastSequenceNumber t) seqs timestamp times (st_Jitter t) (st_LastSenderReport t) (st_Delay t).
Definition set_jitter (jitter : Z) (t : RTPStreamStats) : RTPStreamStats :=
  mkStats (st_SSRC t) (st_Packets t) (st_DuplicatePackets t) (st_OutOfOrderPackets t) (st_ExpectedPackets t) (st_LostPackets t) (st_FractionLost t) (st_LastSequenceNumber t) (st_SequenceRollovers t) (st_LastTimestamp t) (st_TimestampRollovers t) jitter (st_LastSenderReport t) (st_Delay t).

Definition newRTPStreamStatsState (header : rtpPacketHeader) (arrival : Z) : rtpStreamStatsState :=
  let seq := rh_SequenceNumber header in
  mkStream (mkStats (rh_SSRC header) 1 0 0 1 0 0 seq 0 (rh_Timestamp header) 0 0 0 0) seq seq {[seq]} arrival (rh_Timestamp header) (rh_Timestamp header) 0 (S754_zero false) no_sender_report.
(** Sequence numbers of 32 bits and time stamps of 64 bits. *)
Definition extendRTPSequence (maxSeq seq : Z) : Z :=
  let cycles := Z.land maxSeq 0xffff0000 in
  let maxLow := to_u16 maxSeq in
  let cycles :=
    if (seq <? maxLow) && (0x8000 <? to_u16 (maxLow - seq)) then to_u32 (cycles + 65536)
    else if (maxLow <? seq) && (0x8000 <? to_u16 (seq - maxLow)) && (65536 <=? cycles) then to_u32 (cycles - 65536)
    else cycles in
  Z.lor cycles seq.
Definition extendRTPTimestamp (reference timestamp : Z) : Z :=
  let cycles := Z.land reference 0xffffffff00000000 in
  let refLow := to_u32 reference in
  let cycles :=
    if (timestamp <? refLow) && (0x80000000 <? to_u32 (refLow - timestamp)) then to_u64 (cycles + 4294967296)
    else if (refLow <? timestamp) && (0x80000000 <? to_u32 (timestamp - refLow)) && (4294967296 <=? cycles) then to_u64 (cycles - 4294967296)
    else cycles in
  Z.lor cycles timestamp.
Definition rtpExtendedTimestampOffset (timestamp base : Z) : Z :=
  if base <=? timestamp then to_i64 (timestamp - base) else to_i64 (- to_i64 (base - timestamp)).
Definition rtpDurationUnits (d clockRate : Z) : Z :=
  let sign := if d <? 0 then - 1 else 1 in
  let d := if d <? 0 then to_i64 (- d) else d in
  let seconds := Z.quot d Second in
  let remainder := Z.rem d Second in
  let units := to_i64 (to_i64 (seconds * clockRate) + Z.quot (to_i64 (remainder * clockRate)) Second) in
  to_i64 (sign * units).

Section stats.
Context {F : FloatConversion}.
Definition updateRolloverStats (s : rtpStreamStatsState) : rtpStreamStatsState :=
  set_stats (set_rollovers (Z.shiftr (rs_maxSeq s) 16) (rs_lastTimestamp s) (to_u32 (Z.shiftr (rs_lastTimestamp s) 32)) (rs_stats s)) s.
Definition updateJitter (s : rtpStreamStatsState) (timestamp arrival clockRate : Z) : rtpStreamStatsState :=
  let arrivalOffset := rtpDurationUnits (time_Sub arrival (rs_baseArrival s)) clockRate in
  let timestampOffset := rtpExtendedTimestampOffset timestamp (rs_baseTimestamp s) in
  let transit := to_i64 (arrivalOffset - timestampOffset) in
  let delta := to_i64 (transit - rs_lastTransit s) in
  let delta := if delta <? 0 then to_i64 (- delta) else delta in
  let jitter := float_add (rs_jitter s) (float_div (float_sub (float64 delta) (rs_jitter s)) (float64 16)) in
  let s := set_transit transit jitter s in
  set_stats (set_jitter (u32_of_float jitter) (rs_stats s)) s.
Definition recalculateLoss (s : rtpStreamStatsState) : rtpStreamStatsState :=
  let expected := to_u64 (to_u32 (rs_maxSeq s - rs_baseSeq s) + 1) in
  let packets := st_Packets (rs_stats s) in
  let lost := if packets <? expected then to_u64 (expected - packets) else 0 in
  let fraction :=
    if (expected =? 0) || (lost =? 0) then 0 else
    let fraction := to_u64 (lost * 256) / expected in
    to_u8 (if 255 <? fraction then 255 else fraction) in
  set_stats (set_loss expected lost fraction (rs_stats s)) s.
Definition observe (s : rtpStreamStatsState) (header : rtpPacketHeader) (arrival clockRate : Z) : rtpStreamStatsState :=
  let seq := extendRTPSequence (rs_maxSeq s) (rh_SequenceNumber header) in
  if bool_decide (seq ∈ rs_seenSequences s) then set_stats (count_duplicate (rs_stats s)) s else
  let s := set_seen ({[seq]} ∪ rs_seenSequences s) s in
  let s := set_stats (count_packet (rs_stats s)) s in
  let s :=
    if rs_maxSeq s <? seq then
      let timestamp := extendRTPTimestamp (rs_lastTimestamp s) (rh_Timestamp header) in
      let s := set_newest seq timestamp s in
      let s := updateRolloverStats s in
      updateJitter s timestamp arrival clockRate
    else set_stats (count_out_of_order (rs_stats s)) s in
  recalculateLoss s.
Definition snapshotAt (s : rtpStreamStatsState) (now : Z) : RTPStreamStats :=
  let t := rs_stats s in
  let report := rs_senderReport s in
  mkStats (st_SSRC t) (st_Packets t) (st_DuplicatePackets t) (st_OutOfOrderPackets t) (st_ExpectedPackets t) (st_LostPackets t) (st_FractionLost t)
    (rs_maxSeq s) (Z.shiftr (rs_maxSeq s) 16) (rs_lastTimestamp s) (to_u32 (Z.shiftr (rs_lastTimestamp s) 32)) (st_Jitter t) (sp_lastSenderReport report)
    (if negb (IsZero now) && negb (IsZero (sp_arrival report)) then rtcpCompactDelay (time_Sub now (sp_arrival report)) else 0).

(** ** The tracker *)
Record RTPStreamStatsTracker := mkTracker { tr_streams : gmap Z rtpStreamStatsState; tr_senderReports : gmap Z rtpStreamSenderReportState }.
Definition NewRTPStreamStatsTracker : RTPStreamStatsTracker := mkTracker ∅ ∅.
Definition ObserveRTPPacket (t : RTPStreamStatsTracker) (packet : bytes) (arrival clockRate : Z) : RTPStreamStatsTracker * result RTPStreamStats :=
  if clockRate <=? 0 then (t, Errorf ErrRTPStreamStats) else
  match parseRTPPacket packet with
  | Ok (header, _) =>
      let ssrc := rh_SSRC header in
      let state :=
        match tr_streams t !! ssrc with
        | None =>
            let state := newRTPStreamStatsState header arrival in
            match tr_senderReports t !! ssrc with Some report => set_senderReport report state | None => state end
        | Some state => observe state header arrival clockRate
        end in
      (mkTracker (<[ssrc := state]> (tr_streams t)) (tr_senderReports t), Ok (snapshotAt state arrival))
  | Err e => (t, Err e)
  | Panic => (t, Panic)
  | OutOfFuel => (t, OutOfFuel)
  end.
(** [clock] is what [time.Now] returns. *)
Definition ObserveRTCPSenderReport (t : RTPStreamStatsTracker) (ssrc ntpTime arrival clock : Z) : RTPStreamStatsTracker * option RTPStreamStats :=
  if ntpTime =? 0 then (t, None) else
  let arrival := if IsZero arrival then clock else arrival in
  let report := mkSenderReportState (rtcpLastSenderReport ntpTime) arrival in
  let reports := <[ssrc := report]> (tr_senderReports t) in
  match tr_streams t !! ssrc with
  | None => (mkTracker (tr_streams t) reports, None)
  | Some state =>
      let state := set_senderReport report state in
      (mkTracker (<[ssrc := state]> (tr_streams t)) reports, Some (snapshotAt state arrival))
  end.
(** What [rtcp.Unmarshal] returns: sender reports, compounds and the rest. *)
Inductive rtcp_Packet :=
  | rtcp_SenderReport (ssrc ntpTime : Z)
  | rtcp_CompoundPacket (packets : list rtcp_Packet)
  | rtcp_Other.
Definition by_SSRC (a b : RTPStreamStats) : Prop := st_SSRC a <= st_SSRC b.
#[global] Instance by_SSRC_dec a b : Decision (by_SSRC a b).
Proof. unfold by_SSRC. apply _. Defined.
(** The keys of the map are the SSRCs, so the order of its range is not seen after the sort. *)
Definition sorted_stats (m : gmap Z RTPStreamStats) : list RTPStreamStats := merge_sort by_SSRC (map_to_list m).*2.
Fixpoint observe_packet (arrival clock : Z) (packet : rtcp_Packet) (acc : RTPStreamStatsTracker * gmap Z RTPStreamStats) : RTPStreamStatsTracker * gmap Z RTPStreamStats :=
  match packet with
  | rtcp_SenderReport ssrc ntpTime =>
      let '(t, stats) := ObserveRTCPSenderReport acc.1 ssrc ntpTime arrival clock in
      (t, match stats with Some stats => <[st_SSRC stats := stats]> acc.2 | None => acc.2 end)
  | rtcp_CompoundPacket packets => fold_left (fun acc p => observe_packet arrival clock p acc) packets acc
  | rtcp_Other => acc
  end.
Definition observeRTCPPackets (t : RTPStreamStatsTracker) (packets : list rtcp_Packet) (arrival clock : Z) : RTPStreamStatsTracker * list RTPStreamStats :=
  let arrival := if IsZero arrival then clock else arrival in
  let '(t, updated) := fold_left (fun acc p => observe_packet arrival clock p acc) packets (t, ∅) in
  (t, sorted_stats updated).
Definition ObserveRTCPPacket (unmarshal : bytes -> result (list rtcp_Packet)) (t : RTPStreamStatsTracker) (packet : bytes) (arrival clock : Z) : RTPStreamStatsTracker * result (list RTPStreamStats) :=
  match unmarshal packet with
  | Ok packets => let '(t, stats) := observeRTCPPackets t packets arrival clock in (t, Ok stats)
  | Err e => (t, Err e)
  | Panic => (t, Panic)
  | OutOfFuel => (t, OutOfFuel)
  end.
Definition StatsAt (t : RTPStreamStatsTracker) (now : Z) : list RTPStreamStats := sorted_stats ((fun s => snapshotAt s now) <$> tr_streams t).
Definition StatsForSSRCAt (t : RTPStreamStatsTracker) (ssrc now : Z) : option RTPStreamStats := (fun s => snapshotAt s now) <$> tr_streams t !! ssrc.
End stats.

(** ** Diagnosis *)
Inductive RTPStreamDiagnosisStatus := RTPStreamDiagnosisStatusUnknown | RTPStreamDiagnosisStatusOK | RTPStreamDiagnosisStatusWarning | RTPStreamDiagnosisStatusCritical.
Inductive RTPStreamDiagnosisReason := RTPStreamDiagnosisReasonNoRTP | RTPStreamDiagnosisReasonPacketLoss | RTPStreamDiagnosisReasonJitter | RTPStreamDiagnosisReasonRTCPKeepalive | RTPStreamDiagnosisReasonRoundTripTime.
Definition Millisecond : Z := 1000000.
Record RTPStreamDiagnosisConfig := mkDiagnosisConfig {
  dc_ClockRate : Z;
  dc_MinExpectedPackets : Z;
  dc_LossWarningFraction : Z;
  dc_LossCriticalFraction : Z;
  dc_JitterWarning : Z;
  dc_JitterCritical : Z;
  dc_RoundTripWarning : Z;
  dc_RoundTripCritical : Z;
  dc_RTCPKeepaliveInterval : Z;
  dc_RTCPKeepaliveGrace : Z;
  dc_RequireRTCP : bool
}.
Record RTPStreamLossDiagnosis := mkLossDiagnosis { ld_Status : RTPStreamDiagnosisStatus; ld_FractionLost : Z; ld_LostPackets : Z; ld_ExpectedPackets : Z }.
Record RTPStreamJitterDiagnosis := mkJitterDiagnosis { jd_Status : RTPStreamDiagnosisStatus; jd_Jitter : Z; jd_Duration : Z }.
Record RTPStreamRTCPKeepaliveDiagnosis := mkKeepaliveDiagnosis { kd_Status : RTPStreamDiagnosisStatus; kd_LastSenderReport : Z; kd_Delay : Z; kd_StaleAfter : Z; kd_Missing : bool }.
Record RTPStreamDiagnosis := mkDiagnosis {
  di_SSRC : Z;
  di_Status : RTPStreamDiagnosisStatus;
  di_Reasons : list RTPStreamDiagnosisReason;
  di_Loss : RTPStreamLossDiagnosis;
  di_Jitter : RTPStreamJitterDiagnosis;
  di_RTCPKeepalive : RTPStreamRTCPKeepaliveDiagnosis
}.
Definition defaultRTPDiagnosisMinExpectedPackets : Z := 20.
Definition defaultRTPDiagnosisLossWarning : Z := 13.
Definition defaultRTPDiagnosisLossCritical : Z := 26.
Definition defaultRTPDiagnosisJitterWarning : Z := 30 * Millisecond.
Definition defaultRTPDiagnosisJitterCritical : Z := 100 * Millisecond.
Definition defaultRTPDiagnosisRoundTripWarning : Z := 300 * Millisecond.
Definition defaultRTPDiagnosisRoundTripCritical : Z := 800 * Millisecond.
Definition or_default (v d : Z) (unset : bool) : Z := if unset then d else v.
Definition normalizeRTPStreamDiagnosisConfig (cfg : RTPStreamDiagnosisConfig) : RTPStreamDiagnosisConfig :=
  let expected := or_default (dc_MinExpectedPackets cfg) defaultRTPDiagnosisMinExpectedPackets (dc_MinExpectedPackets cfg =? 0) in
  let loss_warning := or_default (dc_LossWarningFraction cfg) defaultRTPDiagnosisLossWarning (dc_LossWarningFraction cfg =? 0) in
  let loss_critical := or_default (dc_LossCriticalFraction cfg) defaultRTPDiagnosisLossCritical (dc_LossCriticalFraction cfg =? 0) in
  let loss_critical := if loss_critical <? loss_warning then loss_warning else loss_critical in
  let jitter_warning := or_default (dc_JitterWarning cfg) defaultRTPDiagnosisJitterWarning (dc_JitterWarning cfg <=? 0) in
  let jitter_critical := or_default (dc_JitterCritical cfg) defaultRTPDiagnosisJitterCritical (dc_JitterCritical cfg <=? 0) in
  let jitter_critical := if jitter_critical <? jitter_warning then jitter_warning else jitter_critical in
  let trip_warning := or_default (dc_RoundTripWarning cfg) defaultRTPDiagnosisRoundTripWarning (dc_RoundTripWarning cfg <=? 0) in
  let trip_critical := or_default (dc_RoundTripCritical cfg) defaultRTPDiagnosisRoundTripCritical (dc_RoundTripCritical cfg <=? 0) in
  let trip_critical := if trip_critical <? trip_warning then trip_warning else trip_critical in
  let grace := if (0 <? dc_RTCPKeepaliveInterval cfg) && (dc_RTCPKeepaliveGrace cfg <=? 0) then dc_RTCPKeepaliveInterval cfg else dc_RTCPKeepaliveGrace cfg in
  mkDiagnosisConfig (dc_ClockRate cfg) expected loss_warning loss_critical jitter_warning jitter_critical trip_warning trip_critical (dc_RTCPKeepaliveInterval cfg) grace (dc_RequireRTCP cfg).
Definition rtpTimestampUnitsDuration (units clockRate : Z) : Z :=
  if clockRate <=? 0 then 0 else
  let seconds := units / clockRate in
  let remainder := units mod clockRate in
  to_i64 (to_i64 (to_i64 seconds * Second) + Z.quot (to_i64 (to_i64 remainder * Second)) clockRate).
Definition diagnoseRTPStreamLoss (s : RTPStreamStats) (cfg : RTPStreamDiagnosisConfig) : RTPStreamLossDiagnosis :=
  let status :=
    if (st_Packets s =? 0) || (st_ExpectedPackets s <? dc_MinExpectedPackets cfg) then RTPStreamDiagnosisStatusUnknown
    else if dc_LossCriticalFraction cfg <=? st_FractionLost s then RTPStreamDiagnosisStatusCritical
    else if dc_LossWarningFraction cfg <=? st_FractionLost s then RTPStreamDiagnosisStatusWarning
    else RTPStreamDiagnosisStatusOK in
  mkLossDiagnosis status (st_FractionLost s) (st_LostPackets s) (st_ExpectedPackets s).
Definition diagnoseRTPStreamJitter (s : RTPStreamStats) (cfg : RTPStreamDiagnosisConfig) : RTPStreamJitterDiagnosis :=
  if (st_Packets s <? 2) || (dc_ClockRate cfg <=? 0) then mkJitterDiagnosis RTPStreamDiagnosisStatusUnknown (st_Jitter s) 0 else
  let duration := rtpTimestampUnitsDuration (st_Jitter s) (dc_ClockRate cfg) in
  let status :=
    if dc_JitterCritical cfg <=? duration then RTPStreamDiagnosisStatusCritical
    else if dc_JitterWarning cfg <=? duration then RTPStreamDiagnosisStatusWarning
    else RTPStreamDiagnosisStatusOK in
  mkJitterDiagnosis status (st_Jitter s) duration.
Definition diagnoseRTPStreamRTCPKeepalive (s : RTPStreamStats) (cfg : RTPStreamDiagnosisConfig) : RTPStreamRTCPKeepaliveDiagnosis :=
  let delay := rtcpCompactDelayDuration (st_Delay s) in
  let stale := if 0 <? dc_RTCPKeepaliveInterval cfg then to_i64 (dc_RTCPKeepaliveInterval cfg + dc_RTCPKeepaliveGrace cfg) else 0 in
  if st_LastSenderReport s =? 0 then
    if dc_RequireRTCP cfg && (0 <? st_Packets s) && (dc_MinExpectedPackets cfg <=? st_ExpectedPackets s)
    then mkKeepaliveDiagnosis RTPStreamDiagnosisStatusWarning (st_LastSenderReport s) delay stale true
    else mkKeepaliveDiagnosis RTPStreamDiagnosisStatusUnknown (st_LastSenderReport s) delay stale false
  else
  let status :=
    if stale <=? 0 then if dc_RequireRTCP cfg then RTPStreamDiagnosisStatusOK else RTPStreamDiagnosisStatusUnknown
    else if to_i64 (2 * stale) <=? delay then RTPStreamDiagnosisStatusCritical
    else if stale <? delay then RTPStreamDiagnosisStatusWarning
    else RTPStreamDiagnosisStatusOK in
  mkKeepaliveDiagnosis status (st_LastSenderReport s) delay stale false.
Definition rtpStreamDiagnosisStatusRank (status : RTPStreamDiagnosisStatus) : Z :=
  match status with
  | RTPStreamDiagnosisStatusOK => 1
  | RTPStreamDiagnosisStatusWarning => 2
  | RTPStreamDiagnosisStatusCritical => 3
  | RTPStreamDiagnosisStatusUnknown => 0
  end.
Definition addMetric (d : RTPStreamDiagnosis) (status : RTPStreamDiagnosisStatus) (reason : RTPStreamDiagnosisReason) : RTPStreamDiagnosis :=
  mkDiagnosis (di_SSRC d)
    (if rtpStreamDiagnosisStatusRank (di_Status d) <? rtpStreamDiagnosisStatusRank status then status else di_Status d)
    (if rtpStreamDiagnosisStatusRank RTPStreamDiagnosisStatusWarning <=? rtpStreamDiagnosisStatusRank status then di_Reasons d ++ [reason] else di_Reasons d)
    (di_Loss d) (di_Jitter d) (di_RTCPKeepalive d).
Definition Diagnose (s : RTPStreamStats) (cfg : RTPStreamDiagnosisConfig) : RTPStreamDiagnosis :=
  let cfg := normalizeRTPStreamDiagnosisConfig cfg in
  let d := mkDiagnosis (st_SSRC s) RTPStreamDiagnosisStatusUnknown [] (diagnoseRTPStreamLoss s cfg) (diagnoseRTPStreamJitter s cfg) (diagnoseRTPStreamRTCPKeepalive s cfg) in
  if st_Packets s =? 0 then mkDiagnosis (di_SSRC d) RTPStreamDiagnosisStatusCritical [RTPStreamDiagnosisReasonNoRTP] (di_Loss d) (di_Jitter d) (di_RTCPKeepalive d) else
  let d := addMetric d (ld_Status (di_Loss d)) RTPStreamDiagnosisReasonPacketLoss in
  let d := addMetric d (jd_Status (di_Jitter d)) RTPStreamDiagnosisReasonJitter in
  addMetric d (kd_Status (di_RTCPKeepalive d)) RTPStreamDiagnosisReasonRTCPKeepalive.
Definition DiagnoseRTPStreamStats (stats : list RTPStreamStats) (cfg : RTPStreamDiagnosisConfig) : list RTPStreamDiagnosis := (fun s => Diagnose s cfg) <$> stats.

(** ** Extended numbers *)
Lemma land_shifted x y n : 0 <= n -> Z.land x (Z.shiftl y n) = Z.shiftl (Z.land (Z.shiftr x n) y) n.
Proof.
  intros Hn. apply Z.bits_inj'. intros k Hk. rewrite Z.land_spec, !Z.shiftl_spec by lia. destruct (Z.ltb_spec k n).
  - rewrite !(Z.testbit_neg_r _ (k - n)) by lia. by rewrite andb_false_r.
  - rewrite Z.land_spec, Z.shiftr_spec by lia. by replace (k - n + n) with k by lia.
Qed.
Lemma lor_shifted a x n : 0 <= n -> 0 <= x < 2 ^ n -> Z.lor (a * 2 ^ n) x = a * 2 ^ n + x.
Proof.
  intros Hn Hx. rewrite <- Z.shiftl_mul_pow2 by lia. rewrite Z.add_comm, Z.lor_comm. symmetry. rewrite <- Z.lxor_lor, <- Z.add_nocarry_lxor; try done.
  all: apply Z.bits_inj'; intros k Hk; rewrite Z.land_spec, Z.bits_0; destruct (Z.ltb_spec k n); [rewrite Z.shiftl_spec_low by lia; by rewrite andb_false_r|].
  all: replace (Z.testbit x k) with false; [done|]; symmetry; rewrite <- (Z.mod_small x (2 ^ n)) by lia; by rewrite Z.mod_pow2_bits_high by lia.
Qed.
(** The high part of a number, as the masks cut it. *)
Lemma high_part x n m : 0 <= n -> 0 <= m -> 0 <= x < 2 ^ (n + m) -> Z.land x (Z.shiftl (Z.ones m) n) = x / 2 ^ n * 2 ^ n.
Proof.
  intros Hn Hm Hx. rewrite land_shifted by done. rewrite Z.shiftl_mul_pow2, Z.shiftr_div_pow2, Z.land_ones by lia. rewrite Z.mod_small; [done|].
  rewrite Z.pow_add_r in Hx by lia. split; [apply Z.div_pos; lia|apply Z.div_lt_upper_bound; lia].
Qed.
(** A 16-bit number near the highest one seen stands for one extended number. *)
Lemma extend_sequence top e : 0 <= top < 2 ^ 32 -> 0 <= e < 2 ^ 32 -> Z.abs (e - top) < 32768 -> extendRTPSequence top (e mod 65536) = e.
Proof.
  intros Ht He Hd. unfold extendRTPSequence. change 0xffff0000 with (Z.shiftl (Z.ones 16) 16). rewrite high_part by lia. change (2 ^ 16) with 65536. unfold to_u16. cbv zeta.
  pose proof (Z.div_mod top 65536 ltac:(lia)) as Dt. pose proof (Z.div_mod e 65536 ltac:(lia)) as De. pose proof (Z.mod_pos_bound top 65536 ltac:(lia)). pose proof (Z.mod_pos_bound e 65536 ltac:(lia)).
  set (a := top / 65536) in *. set (b := e / 65536) in *. set (x := top mod 65536) in *. set (y := e mod 65536) in *. clearbody a b x y.
  assert (Hcases : b = a \/ b = a + 1 \/ b = a - 1) by lia. assert (Hb : (0 <= b < 65536) /\ (0 <= a < 65536)) by lia.
  assert (Hlor : Z.lor (b * 65536) y = e) by (change 65536 with (2 ^ 16); rewrite lor_shifted by lia; lia).
  destruct (Z.ltb_spec y x); cbn [andb].
  - rewrite (Z.mod_small (x - y)) by lia. destruct (Z.ltb_spec 0x8000 (x - y)); [|replace (x <? y) with false by lia; cbn [andb]; rewrite <- Hlor; f_equal; lia].
    unfold to_u32. rewrite Z.mod_small by lia. rewrite <- Hlor. f_equal. lia.
  - destruct (Z.ltb_spec x y); cbn [andb]; [|rewrite <- Hlor; f_equal; lia]. rewrite (Z.mod_small (y - x)) by lia. destruct (Z.ltb_spec 0x8000 (y - x)); cbn [andb]; [|rewrite <- Hlor; f_equal; lia].
    destruct (Z.leb_spec 65536 (a * 65536)); [|exfalso; lia]. unfold to_u32. rewrite Z.mod_small by lia. rewrite <- Hlor. f_equal. lia.
Qed.

(** ** The specification: which of a sender's packets have come *)
Record reception := mkReception { rc_highest : Z; rc_received : gset Z; rc_duplicates : Z; rc_late : Z }.
Definition first_of (e : Z) : reception := mkReception e {[e]} 0 0.
Definition receive (r : reception) (e : Z) : reception :=
  if bool_decide (e ∈ rc_received r) then mkReception (rc_highest r) (rc_received r) (rc_duplicates r + 1) (rc_late r) else
  mkReception (Z.max (rc_highest r) e) ({[e]} ∪ rc_received r) (rc_duplicates r) (if rc_highest r <? e then rc_late r else rc_late r + 1).
Definition reception_of (e : Z) (es : list Z) : reception := fold_left receive es (first_of e).
Definition lost_of (base : Z) (r : reception) : Z := Z.max 0 (rc_highest r - base + 1 - Z.of_nat (size (rc_received r))).
(** The numbers stay within half the sequence space of the highest one, and within 32 bits. *)
Fixpoint in_window (top : Z) (es : list Z) : Prop :=
  match es with [] => True | e :: es => 0 <= e < 2 ^ 32 /\ Z.abs (e - top) < 32768 /\ in_window (Z.max top e) es end.
Record counts_describe (base : Z) (r : reception) (t : RTPStreamStats) : Prop := {
  cd_packets : st_Packets t = Z.of_nat (size (rc_received r));
  cd_duplicates : st_DuplicatePackets t = rc_duplicates r;
  cd_late : st_OutOfOrderPackets t = rc_late r;
  cd_expected : st_ExpectedPackets t = rc_highest r - base + 1;
  cd_lost : st_LostPackets t = lost_of base r;
  cd_fraction : st_FractionLost t = Z.min 255 (lost_of base r * 256 / (rc_highest r - base + 1))
}.
Record describes (base : Z) (r : reception) (s : rtpStreamStatsState) : Prop := {
  ds_base : rs_baseSeq s = base;
  ds_highest : rs_maxSeq s = rc_highest r;
  ds_seen : rs_seenSequences s = rc_received r;
  ds_counts : counts_describe base r (rs_stats s)
}.
Definition reception_ok (base n : Z) (r : reception) : Prop :=
  0 <= base <= rc_highest r /\ rc_highest r < 2 ^ 32 /\ 1 <= Z.of_nat (size (rc_received r)) /\ 0 <= rc_duplicates r /\ 0 <= rc_late r /\ Z.of_nat (size (rc_received r)) + rc_duplicates r = n /\ rc_late r <= n /\
  (forall e, e ∈ rc_received r -> e <= rc_highest r).
Lemma receive_ok (base n : Z) (r : reception) (e : Z) : reception_ok base n r -> 0 <= e < 2 ^ 32 -> reception_ok base (n + 1) (receive r e).
Proof.
  intros (H1 & H2 & H3 & H4 & H5 & H6 & H7 & H8) He. unfold receive, reception_ok. case_bool_decide as Hin; cbn [rc_highest rc_received rc_duplicates rc_late]; [split_and!; try done; lia|].
  rewrite size_union by set_solver. rewrite size_singleton. destruct (Z.ltb_spec (rc_highest r) e); split_and!; try lia; intros e' [->%elem_of_singleton|He'%H8]%elem_of_union; lia.
Qed.
Lemma receive_highest (base n : Z) (r : reception) (e : Z) : reception_ok base n r -> rc_highest (receive r e) = Z.max (rc_highest r) e.
Proof. intros (_ & _ & _ & _ & _ & _ & _ & H). unfold receive. case_bool_decide as Hin; [|done]. cbn [rc_highest]. apply H in Hin. lia. Qed.
Section tracking.
Context {F : FloatConversion}.
Lemma describes_new header arrival : 0 <= rh_SequenceNumber header < 65536 -> describes (rh_SequenceNumber header) (first_of (rh_SequenceNumber header)) (newRTPStreamStatsState header arrival).
Proof.
  intros Hs. unfold newRTPStreamStatsState, first_of. split; cbn; try done. unfold lost_of. cbn [rc_highest rc_received].
  split; cbn; rewrite ?size_singleton; try lia; try done; unfold lost_of; cbn [rc_highest rc_received]; rewrite size_singleton; replace (rh_SequenceNumber header - rh_SequenceNumber header + 1 - Z.of_nat 1) with 0 by lia; try done.
Qed.
Lemma loss_described (base : Z) (r : reception) s n : n < 2 ^ 56 -> reception_ok base n r -> rs_baseSeq s = base -> rs_maxSeq s = rc_highest r -> st_Packets (rs_stats s) = Z.of_nat (size (rc_received r)) ->
  let t := rs_stats (recalculateLoss s) in
  st_ExpectedPackets t = rc_highest r - base + 1 /\ st_LostPackets t = lost_of base r /\ st_FractionLost t = Z.min 255 (lost_of base r * 256 / (rc_highest r - base + 1)).
Proof.
  intros Hn (H1 & H2 & H3 & H4 & H5 & H6 & H7 & _) Hb Hm Hp. unfold recalculateLoss. rewrite Hb, Hm, Hp. cbn [rs_stats set_stats set_loss st_ExpectedPackets st_LostPackets st_FractionLost].
  unfold to_u32. rewrite (Z.mod_small (rc_highest r - base)) by lia. unfold to_u64. rewrite (Z.mod_small (rc_highest r - base + 1)) by lia. set (x := rc_highest r - base + 1) in *. set (k := Z.of_nat (size (rc_received r))) in *.
  assert (Hl : (if k <? x then (x - k) mod 18446744073709551616 else 0) = lost_of base r).
  { unfold lost_of. fold x k. destruct (Z.ltb_spec k x); [rewrite Z.mod_small by lia; lia|lia]. }
  rewrite Hl. split_and!; [done|done|]. set (l := lost_of base r) in *. assert (Hlr : 0 <= l < x) by (unfold l, lost_of; fold x k; lia). replace (x =? 0) with false by lia. cbn [orb].
  destruct (Z.eqb_spec l 0) as [->|Hl0]; [rewrite Z.div_0_l by lia; done|]. rewrite (Z.mod_small (l * 256)) by lia. set (f := l * 256 / x). assert (Hf : 0 <= f) by (apply Z.div_pos; lia).
  unfold to_u8. destruct (Z.ltb_spec 255 f); rewrite Z.mod_small; lia.
Qed.
Lemma observe_described (base : Z) (r : reception) s n header arrival clockRate e : n + 1 < 2 ^ 56 -> reception_ok base n r -> describes base r s ->
  rh_SequenceNumber header = e mod 65536 -> 0 <= e < 2 ^ 32 -> Z.abs (e - rc_highest r) < 32768 ->
  describes base (receive r e) (observe s header arrival clockRate).
Proof.
  intros Hn Hr [D1 D2 D3 [C1 C2 C3 C4 C5 C6]] Hseq He Hw. pose proof (receive_ok base n r e Hr He) as Hr'. pose proof Hr as (R1 & R2 & R3 & R4 & R5 & R6 & R7 & _). unfold observe. rewrite Hseq, D2, extend_sequence by lia. rewrite D3.
  unfold receive in *. case_bool_decide as Hin.
  - split; cbn; try done. split; cbn; try done. rewrite C2. unfold to_u64. rewrite Z.mod_small by lia. done.
  - cbv zeta. set (s1 := set_stats _ _). assert (Hmax : (rs_maxSeq s1 <? e) = (rc_highest r <? e)) by (cbn; by rewrite D2).
    match goal with |- describes _ _ (recalculateLoss ?x) => set (s2 := x) end. set (r' := mkReception _ _ _ _) in *.
    assert (Hs2 : rs_baseSeq s2 = base /\ rs_maxSeq s2 = rc_highest r' /\ rs_seenSequences s2 = rc_received r' /\ st_Packets (rs_stats s2) = Z.of_nat (size (rc_received r')) /\ st_DuplicatePackets (rs_stats s2) = rc_duplicates r' /\ st_OutOfOrderPackets (rs_stats s2) = rc_late r').
    { assert (Hsize : to_u64 (st_Packets (rs_stats s) + 1) = Z.of_nat (size ({[e]} ∪ rc_received r))).
      { rewrite size_union by set_solver. rewrite size_singleton, C1. unfold to_u64. rewrite Z.mod_small; lia. }
      unfold s2, r'. rewrite Hmax. destruct (Z.ltb_spec (rc_highest r) e); cbn -[size]; rewrite ?D1, ?D2, ?D3, ?C2, ?C3; split_and!; try done; try lia. unfold to_u64. rewrite Z.mod_small; lia. }
    destruct Hs2 as (S1 & S2 & S3 & S4 & S5 & S6). destruct (loss_described base r' s2 (n + 1) Hn Hr' S1 S2 S4) as (L1 & L2 & L3). split; [done..|]. by split.
Qed.
End tracking.

(** ** The tracker *)
Inductive tracker_event :=
  | RTPArrives (packet : bytes) (arrival clockRate : Z)
  | RTCPArrives (packets : list rtcp_Packet) (arrival clock : Z).
Definition same_counts (s s' : rtpStreamStatsState) : Prop := exists report, s' = set_senderReport report s.
Section tracker.
Context {F : FloatConversion}.
Definition track (t : RTPStreamStatsTracker) (ev : tracker_event) : RTPStreamStatsTracker :=
  match ev with
  | RTPArrives packet arrival clockRate => (ObserveRTPPacket t packet arrival clockRate).1
  | RTCPArrives packets arrival clock => (observeRTCPPackets t packets arrival clock).1
  end.
Definition track_all (evs : list tracker_event) : RTPStreamStatsTracker := fold_left track evs NewRTPStreamStatsTracker.
(** The RTP packets of a source that are accepted. *)
Definition header_of (ssrc : Z) (ev : tracker_event) : option rtpPacketHeader :=
  match ev with
  | RTPArrives packet _ clockRate =>
      match parseRTPPacket packet with Ok (h, _) => if (0 <? clockRate) && (rh_SSRC h =? ssrc) then Some h else None | _ => None end
  | RTCPArrives _ _ _ => None
  end.
Definition headers_of (ssrc : Z) (evs : list tracker_event) : list rtpPacketHeader := omap (header_of ssrc) evs.
Definition kept (o o' : option rtpStreamStatsState) : Prop := match o, o' with Some s, Some s' => same_counts s s' | None, None => True | _, _ => False end.
Lemma kept_refl o : kept o o.
Proof. destruct o as [s|]; [|done]. exists (rs_senderReport s). by destruct s. Qed.
Lemma kept_trans a b c : kept a b -> kept b c -> kept a c.
Proof. destruct a as [s|], b as [s'|], c as [s''|]; try done. intros [r ->] [r' ->]. by exists r'. Qed.
Lemma sender_report_kept t x ssrc ntp arrival clock : kept (tr_streams t !! x) (tr_streams (ObserveRTCPSenderReport t ssrc ntp arrival clock).1 !! x).
Proof.
  unfold ObserveRTCPSenderReport. destruct (ntp =? 0); [apply kept_refl|]. destruct (tr_streams t !! ssrc) as [s|] eqn:E; cbn [fst tr_streams]; [|apply kept_refl].
  destruct (decide (x = ssrc)) as [->|Hne]; [rewrite lookup_insert_eq, E; by eexists|rewrite lookup_insert_ne by done; apply kept_refl].
Qed.
Lemma observe_packet_kept x arrival clock : forall p acc, kept (tr_streams acc.1 !! x) (tr_streams (observe_packet arrival clock p acc).1 !! x).
Proof.
  refine (fix IH p := _). intros acc. destruct p as [ssrc ntp|packets|]; cbn [observe_packet].
  - pose proof (sender_report_kept acc.1 x ssrc ntp arrival clock) as H. by destruct (ObserveRTCPSenderReport acc.1 ssrc ntp arrival clock).
  - revert acc. induction packets as [|p packets IHps]; intros acc; [apply kept_refl|]. cbn [fold_left]. eapply kept_trans; [apply IH|apply IHps].
  - apply kept_refl.
Qed.
Lemma rtcp_kept x t packets arrival clock : kept (tr_streams t !! x) (tr_streams (observeRTCPPackets t packets arrival clock).1 !! x).
Proof.
  unfold observeRTCPPackets. cbv zeta. set (a := if IsZero arrival then clock else arrival). assert (H : forall acc : RTPStreamStatsTracker * gmap Z RTPStreamStats, kept (tr_streams acc.1 !! x) (tr_streams (fold_left (fun acc p => observe_packet a clock p acc) packets acc).1 !! x)).
  { induction packets as [|p packets IH]; intros acc; [apply kept_refl|]. cbn [fold_left]. eapply kept_trans; [apply observe_packet_kept|apply IH]. }
  specialize (H (t, ∅)). by destruct (fold_left _ packets (t, ∅)).
Qed.
Lemma same_counts_describe base r s s' : same_counts s s' -> describes base r s -> describes base r s'.
Proof. intros [report ->] [D1 D2 D3 D4]. by split. Qed.
(** A packet of the source makes one step of its stream; nothing else changes its counts. *)
Lemma track_step t ev x :
  match header_of x ev with
  | Some h => exists arrival clockRate, match tr_streams t !! x with
      | Some s => tr_streams (track t ev) !! x = Some (observe s h arrival clockRate)
      | None => exists s, tr_streams (track t ev) !! x = Some s /\ same_counts (newRTPStreamStatsState h arrival) s
      end
  | None => kept (tr_streams t !! x) (tr_streams (track t ev) !! x)
  end.
Proof.
  destruct ev as [packet arrival clockRate|packets arrival clock]; cbn [header_of track]; [|apply rtcp_kept]. unfold ObserveRTPPacket. destruct (Z.ltb_spec 0 clockRate) as [Hc|Hc].
  2:{ replace (clockRate <=? 0) with true by lia. destruct (parseRTPPacket packet) as [[h p]| | |]; apply kept_refl. }
  replace (clockRate <=? 0) with false by lia. destruct (parseRTPPacket packet) as [[h p]| | |]; try apply kept_refl. cbn [andb fst tr_streams]. destruct (Z.eqb_spec (rh_SSRC h) x) as [<-|Hne].
  - exists arrival, clockRate. destruct (tr_streams t !! rh_SSRC h) as [s|]; [by rewrite lookup_insert_eq|]. eexists. split; [by rewrite lookup_insert_eq|]. destruct (tr_senderReports t !! rh_SSRC h) as [report|]; [by exists report|]. eexists. reflexivity.
  - rewrite lookup_insert_ne by done. apply kept_refl.
Qed.
Lemma track_later evs t x base r s n es : tr_streams t !! x = Some s -> describes base r s -> reception_ok base n r -> n + Z.of_nat (length evs) < 2 ^ 56 ->
  Forall2 (fun h e => rh_SequenceNumber h = e mod 65536) (headers_of x evs) es -> in_window (rc_highest r) es ->
  exists s', tr_streams (fold_left track evs t) !! x = Some s' /\ describes base (fold_left receive es r) s'.
Proof.
  revert t r s n es. induction evs as [|ev evs IH]; intros t r s n es Hs Hd Hr Hn Hes Hw; [apply Forall2_nil_inv_l in Hes as ->; eauto|]. cbn [length] in Hn. cbn [fold_left].
  pose proof (track_step t ev x) as Hstep. change (headers_of x (ev :: evs)) with (match header_of x ev with Some h => h :: headers_of x evs | None => headers_of x evs end) in Hes. destruct (header_of x ev) as [h|].
  - destruct Hstep as (arrival & clockRate & Hstep). rewrite Hs in Hstep. apply Forall2_cons_inv_l in Hes as (e & es' & He & Hes & ->). cbn [in_window] in Hw. destruct Hw as (He32 & Hnear & Hw).
    pose proof (receive_ok base n r e Hr He32) as Hr'. cbn [fold_left]. apply (IH _ (receive r e) (observe s h arrival clockRate) (n + 1)); [done|apply (observe_described base r s n); first [done | lia]|done|lia|done|]. by rewrite (receive_highest base n).
  - rewrite Hs in Hstep. unfold kept in Hstep. destruct (tr_streams (track t ev) !! x) as [s'|] eqn:E; [|done]. apply (IH _ r s' n); [done|by eapply same_counts_describe|done|lia|done|done].
Qed.
Lemma track_first evs t x h hs e es : tr_streams t !! x = None -> headers_of x evs = h :: hs -> Z.of_nat (length evs) < 2 ^ 55 ->
  0 <= rh_SequenceNumber h < 65536 -> rh_SequenceNumber h = e -> Forall2 (fun h e => rh_SequenceNumber h = e mod 65536) hs es -> in_window e es ->
  exists s, tr_streams (fold_left track evs t) !! x = Some s /\ describes e (reception_of e es) s.
Proof.
  revert t. induction evs as [|ev evs IH]; intros t Hs Hh Hn Hseq He Hes Hw; [done|]. cbn [length] in Hn. cbn [fold_left]. pose proof (track_step t ev x) as Hstep.
  change (headers_of x (ev :: evs)) with (match header_of x ev with Some h => h :: headers_of x evs | None => headers_of x evs end) in Hh. destruct (header_of x ev) as [h'|].
  - injection Hh as -> Hh. destruct Hstep as (arrival & clockRate & Hstep). rewrite Hs in Hstep. destruct Hstep as (s & Hs' & Hsame). pose proof (describes_new h arrival Hseq) as Hd. rewrite He in Hd.
    apply (track_later evs _ x e (first_of e) s 1 es Hs'); [by eapply same_counts_describe| |lia|by rewrite Hh|done].
    unfold reception_ok, first_of. cbn [rc_highest rc_received rc_duplicates rc_late]. rewrite size_singleton. split_and!; try lia. intros e' ->%elem_of_singleton. lia.
  - rewrite Hs in Hstep. unfold kept in Hstep. apply (IH (track t ev)); try done; [|lia]. by destruct (tr_streams (track t ev) !! x).
Qed.
Definition packet_ok (ev : tracker_event) : Prop := match ev with RTPArrives packet _ _ => bytes_ok packet | RTCPArrives _ _ _ => True end.
Lemma parsed_sequence packet h payload : bytes_ok packet -> parseRTPPacket packet = Ok (h, payload) -> 0 <= rh_SequenceNumber h < 65536.
Proof.
  intros Hp H. unfold parseRTPPacket in H. destruct (len packet <? 12); [done|]. apply bind_ok in H as (b0 & _ & H). destruct (negb _); [done|]. cbv zeta in H. destruct (_ <? _); [done|].
  apply bind_ok in H as (hl & _ & H). apply bind_ok in H as (e' & _ & H). apply bind_ok in H as (b1 & _ & H). apply bind_ok in H as (sq & Hsq & H). apply bind_ok in H as (ts & _ & H). apply bind_ok in H as (sr & _ & H).
  apply bind_ok in H as (pl & _ & H). injection H as <- _. cbn [rh_SequenceNumber]. by apply u16_is_nonneg in Hsq.
Qed.
Lemma headers_sequence x evs h : Forall packet_ok evs -> h ∈ headers_of x evs -> 0 <= rh_SequenceNumber h < 65536.
Proof.
  intros Hev Hh. unfold headers_of in Hh. apply list_elem_of_omap in Hh as (ev & Hin & Hh). rewrite Forall_forall in Hev. apply Hev in Hin. destruct ev as [packet arrival clockRate|]; [|done]. cbn [header_of] in Hh.
  destruct (parseRTPPacket packet) as [[h' p]| | |] eqn:E; try done. destruct (_ && _); [|done]. injection Hh as ->. by eapply parsed_sequence.
Qed.
Lemma receive_all base n r es : reception_ok base n r -> Forall (fun e => 0 <= e < 2 ^ 32) es -> let r' := fold_left receive es r in
  reception_ok base (n + Z.of_nat (length es)) r' /\ rc_received r' = list_to_set es ∪ rc_received r /\ rc_highest r' = fold_left Z.max es (rc_highest r).
Proof.
  intros Hr Hes. revert n r Hr. induction Hes as [|e es He Hes IH]; intros n r Hr; cbv zeta; cbn [fold_left length list_to_set].
  - split; [by replace (n + Z.of_nat 0) with n by lia|]. split; [set_solver|done].
  - destruct (IH (n + 1) (receive r e)) as (I1 & I2 & I3); [by apply receive_ok|]. split; [by replace (n + Z.of_nat (S (length es))) with (n + 1 + Z.of_nat (length es)) by lia|]. rewrite I2, I3, (receive_highest base n) by done.
    split; [|done]. unfold receive. case_bool_decide; cbn [rc_received]; set_solver.
Qed.
Lemma window_range top es : in_window top es -> Forall (fun e => 0 <= e < 2 ^ 32) es.
Proof. revert top. induction es as [|e es IH]; intros top; [by constructor|]. intros (H1 & _ & H2). constructor; [done|by eapply IH]. Qed.
Lemma first_ok e : 0 <= e < 2 ^ 32 -> reception_ok e 1 (first_of e).
Proof. intros He. unfold reception_ok, first_of. cbn [rc_highest rc_received rc_duplicates rc_late]. rewrite size_singleton. split_and!; try lia. intros e' ->%elem_of_singleton. lia. Qed.

(** C25: what the tracker counts for a source.  Let the accepted packets of a source (those that parse, under a positive clock rate) carry the low 16 bits of the numbers
    [e :: es], of which the first is below 65536, none is below 0 or beyond 32 bits, and each is less than 32768 away from the highest one before it; they may be lost, repeated and reordered, and wrap around
    as often as 32 bits allow.  Then, whatever other packets and reports come between them (fewer than 2^55 in all), its statistics give, of exactly these numbers: how many different ones came, how many
    repetitions, how many below the highest one before them, how many are expected (from the first to the highest), how many of those are lost, the fraction lost since the first packet in
    1/256, at most 255, and the highest number.  (RFC 3550 counts repetitions as received, and reports the fraction since the last report; a packet that overtakes the first one across the wrap-around
    has a number below 0: see [late_before_first].) *)
Theorem reception_counted evs x h hs e es now :
  Forall packet_ok evs -> Z.of_nat (length evs) < 2 ^ 55 -> headers_of x evs = h :: hs ->
  rh_SequenceNumber h = e -> Forall2 (fun h e => rh_SequenceNumber h = e mod 65536) hs es -> in_window e es ->
  exists t, StatsForSSRCAt (track_all evs) x now = Some t /\ counts_describe e (reception_of e es) t /\ st_LastSequenceNumber t = rc_highest (reception_of e es) /\
    rc_received (reception_of e es) = list_to_set (e :: es) /\ rc_highest (reception_of e es) = fold_left Z.max es e /\
    Z.of_nat (size (rc_received (reception_of e es))) + rc_duplicates (reception_of e es) = Z.of_nat (length (e :: es)).
Proof.
  intros Hev Hn Hh He Hes Hw. assert (Hs : 0 <= rh_SequenceNumber h < 65536) by (apply (headers_sequence x evs); [done|rewrite Hh; left]).
  destruct (track_first evs NewRTPStreamStatsTracker x h hs e es) as (s & Es & [D1 D2 D3 D4]); [apply lookup_empty|done|lia|done..|].
  destruct (receive_all e 1 (first_of e) es) as ((_ & _ & _ & _ & _ & R6 & _) & R7 & R8); [apply first_ok; lia|by eapply window_range|]. fold (reception_of e es) in R6, R7, R8.
  exists (snapshotAt s now). split; [unfold StatsForSSRCAt, track_all; by rewrite Es|]. split; [|split; [done|]].
  - destruct D4 as [C1 C2 C3 C4 C5 C6]. by split.
  - split; [rewrite R7; cbn [first_of rc_received list_to_set]; set_solver|]. split; [exact R8|]. rewrite R6. cbn [length]. lia.
Qed.
End tracker.

(** ** A steady stream *)
Section steady.
Context {F : FloatConversion}.
(** The packets that advance the stream come as far apart as their time stamps say. *)
Definition on_pace (s : rtpStreamStatsState) (header : rtpPacketHeader) (arrival clockRate : Z) : Prop :=
  rs_maxSeq s < extendRTPSequence (rs_maxSeq s) (rh_SequenceNumber header) ->
  rtpDurationUnits (time_Sub arrival (rs_baseArrival s)) clockRate = rtpExtendedTimestampOffset (extendRTPTimestamp (rs_lastTimestamp s) (rh_Timestamp header)) (rs_baseTimestamp s).
Definition steady (s : rtpStreamStatsState) : Prop := rs_jitter s = S754_zero false /\ rs_lastTransit s = 0 /\ st_Jitter (rs_stats s) = 0.
(** Such a stream has no jitter. *)
Lemma steady_step s header arrival clockRate : steady s -> on_pace s header arrival clockRate -> steady (observe s header arrival clockRate).
Proof.
  intros (J1 & J2 & J3) Hp. unfold observe. case_bool_decide; [done|]. cbv zeta. unfold steady, recalculateLoss. cbn [rs_jitter rs_lastTransit rs_stats set_stats set_loss st_Jitter].
  match goal with |- context [if ?c then _ else _] => destruct c eqn:E end; [|done]. cbn in E. apply Z.ltb_lt in E. specialize (Hp E). unfold updateJitter, updateRolloverStats. cbn [set_stats set_newest set_seen rs_baseArrival rs_baseTimestamp rs_lastTransit rs_jitter rs_lastTimestamp rs_stats set_transit set_jitter st_Jitter].
  rewrite Hp, J1, J2, Z.sub_diag. split_and!; reflexivity.
Qed.
End steady.

(** ** Reports *)
(** The delay of a report block is within one unit of 1/65536 second of the delay that it stands for. *)
Lemma compact_delay_close d : 0 <= d < 65536 * Second -> d - 15260 < rtcpCompactDelayDuration (rtcpCompactDelay d) <= d.
Proof.
  intros Hd. unfold rtcpCompactDelay. destruct (Z.leb_spec d 0) as [Hz|Hz]; [replace d with 0 by lia; vm_compute; split; congruence|]. unfold Second in *. cbv zeta. rewrite Z.quot_div_nonneg, Z.rem_mod_nonneg by lia.
  pose proof (Z.div_mod d 1000000000 ltac:(lia)) as E. pose proof (Z.mod_pos_bound d 1000000000 ltac:(lia)) as Hr. set (s := d / 1000000000) in *. set (r := d mod 1000000000) in *. clearbody s r. subst d.
  unfold rtcpCompactNTPUnitsPerSecond, maxRTCPCompactDelay. replace (65536 <=? s) with false by lia. unfold to_u64. rewrite (Z.mod_small (s * 65536)), (Z.mod_small (r * 65536)) by lia.
  pose proof (Z.div_mod (r * 65536) 1000000000 ltac:(lia)) as Ef. pose proof (Z.mod_pos_bound (r * 65536) 1000000000 ltac:(lia)) as Hf. set (f := r * 65536 / 1000000000) in *. set (g := (r * 65536) mod 1000000000) in *. clearbody f g.
  rewrite Z.mod_small by lia. replace (2 ^ 32 - 1 <? s * 65536 + f) with false by lia. unfold to_u32. rewrite Z.mod_small by lia. unfold rtcpCompactDelayDuration, rtcpCompactNTPUnitsPerSecond, Second.
  rewrite (Z.add_comm (s * 65536) f), Z.div_add, Z.mod_add, Z.div_small, Z.mod_small by lia. rewrite !Z.add_0_l, (to_i64_small (s * 1000000000)), (to_i64_small (f * 1000000000)) by lia. rewrite Z.quot_div_nonneg by lia.
  pose proof (Z.div_mod (f * 1000000000) 65536 ltac:(lia)) as Eq. pose proof (Z.mod_pos_bound (f * 1000000000) 65536 ltac:(lia)) as Hq. rewrite to_i64_small; lia.
Qed.
(** The worst metric decides, and the reasons are the metrics that are not well. *)
Lemma diagnosis_worst s cfg : st_Packets s <> 0 -> let d := Diagnose s cfg in let rank := rtpStreamDiagnosisStatusRank in
  rank (di_Status d) = Z.max (rank (ld_Status (di_Loss d))) (Z.max (rank (jd_Status (di_Jitter d))) (rank (kd_Status (di_RTCPKeepalive d)))) /\
  di_Reasons d = (if 2 <=? rank (ld_Status (di_Loss d)) then [RTPStreamDiagnosisReasonPacketLoss] else []) ++
    (if 2 <=? rank (jd_Status (di_Jitter d)) then [RTPStreamDiagnosisReasonJitter] else []) ++ (if 2 <=? rank (kd_Status (di_RTCPKeepalive d)) then [RTPStreamDiagnosisReasonRTCPKeepalive] else []).
Proof.
  intros Hs. cbv zeta. unfold Diagnose. replace (st_Packets s =? 0) with false by lia. unfold addMetric. cbn [di_Status di_Loss di_Jitter di_RTCPKeepalive di_Reasons].
  set (l := ld_Status _). set (j := jd_Status _). set (k := kd_Status _). clearbody l j k. by destruct l, j, k.
Qed.

(** ** Witnesses *)
#[local] Instance no_beyond : FloatConversion := {| u32_beyond _ := 0 |}.
Definition sample_packet (seq timestamp ssrc : Z) : bytes := [0x80; 0] ++ be_bytes 2 seq ++ be_bytes 4 timestamp ++ be_bytes 4 ssrc.
Definition arrives (seq ssrc at_ms : Z) : tracker_event := RTPArrives (sample_packet seq (160 * seq) ssrc) (Second + at_ms * Millisecond) 8000.
(** A stream that wraps around, loses 65537, repeats 65535 and gets 65536 late, with another source and a sender report in between. *)
Definition sample_events : list tracker_event :=
  [arrives 65534 7 0; arrives 10 8 5; arrives 65535 7 20; RTCPArrives [rtcp_CompoundPacket [rtcp_SenderReport 7 (2 ^ 40); rtcp_Other]] (2 * Second) 0; arrives 2 7 40; arrives 65535 7 41; arrives 0 7 42; arrives 11 8 50].
Lemma reception_counted_witness : exists t, StatsForSSRCAt (track_all sample_events) 7 0 = Some t /\ st_Packets t = 4 /\ st_DuplicatePackets t = 1 /\ st_OutOfOrderPackets t = 1 /\ st_ExpectedPackets t = 5 /\ st_LostPackets t = 1 /\ st_FractionLost t = 51 /\ st_LastSequenceNumber t = 65538.
Proof.
  destruct (reception_counted sample_events 7 (mkRTPHeader 0 false 65534 (to_u32 (160 * 65534)) 7 12)
    [mkRTPHeader 0 false 65535 (to_u32 (160 * 65535)) 7 12; mkRTPHeader 0 false 2 320 7 12; mkRTPHeader 0 false 65535 (to_u32 (160 * 65535)) 7 12; mkRTPHeader 0 false 0 0 7 12]
    65534 [65535; 65538; 65535; 65536] 0) as (t & H1 & [C1 C2 C3 C4 C5 C6] & H3 & _).
  - repeat constructor; by_decide.
  - vm_compute. reflexivity.
  - vm_compute. reflexivity.
  - reflexivity.
  - repeat constructor.
  - cbn [in_window]. lia.
  - exists t. split; [exact H1|]. rewrite C1, C2, C3, C4, C5, C6, H3. split_and!; vm_compute; reflexivity.
Defined.
(** A packet that overtakes the first one across the wrap-around: its number is taken for one far ahead. *)
Example late_before_first : (fun t => (st_ExpectedPackets t, st_LostPackets t)) <$> StatsForSSRCAt (track_all [arrives 0 7 0; arrives 65535 7 1; arrives 1 7 20]) 7 0 = Some (65538, 65535).
Proof. vm_compute. reflexivity. Qed.
