(* ===== verification/SipTransaction.v ===== *)
(** * SIP transactions (runtimehost/voiceclient/sip_transaction.go)

    The client and server transactions of RFC 3261 as the code has them: a decision for
    one event in one state, the timers, and the schedule of retransmissions.  The two
    machines are specified by the step relations of the standard, and composed over a
    network that loses, repeats and reorders. *)
From stdpp Require Import gmap.
From S2P Require Import Prelude GoStrings Utf8.
#[local] Open Scope string_scope.
#[local] Open Scope list_scope.
#[local] Open Scope Z_scope.

(** ** Timers *)
Definition Millisecond := 1000000.
Definition defaultSIPTimerT1 := 500 * Millisecond.
Definition defaultSIPTimerT2 := 4000 * Millisecond.
Definition defaultSIPTimerT4 := 5000 * Millisecond.
Inductive sipTransactionKind := sipTransactionNonInvite | sipTransactionInvite.
Record SIPTransactionTimerConfig := mkTimerConfig { tc_T1 : Z; tc_T2 : Z; tc_T4 : Z }.
Record SIPTransactionTimerPolicy := mkTimerPolicy {
  tp_Method : bytes;
  tp_Invite : bool;
  tp_T1 : Z;
  tp_T2 : Z;
  tp_T4 : Z;
  tp_TimerA : Z;
  tp_TimerB : Z;
  tp_TimerD : Z;
  tp_TimerE : Z;
  tp_TimerF : Z;
  tp_TimerG : Z;
  tp_TimerH : Z;
  tp_TimerI : Z;
  tp_TimerJ : Z;
  tp_TimerK : Z
}.
Record SIPTransactionRetrySchedule := mkRetrySchedule {
  rs_Method : bytes;
  rs_Invite : bool;
  rs_Intervals : list Z;
  rs_Timeout : Z;
  rs_CleanupWait : Z
}.
Definition is_invite (k : sipTransactionKind) : bool := match k with sipTransactionInvite => true | sipTransactionNonInvite => false end.
Definition sipTransactionKindForMethod (method : bytes) : sipTransactionKind :=
  if equal_fold (TrimSpace method) "INVITE" then sipTransactionInvite else sipTransactionNonInvite.
Definition nextSIPRetransmitInterval (interval maxInterval : Z) : Z :=
  if interval <=? 0 then maxInterval else
  let next := to_i64 (interval * 2) in
  if (0 <? maxInterval) && (maxInterval <? next) then maxInterval else next.
Definition shouldSIPRetransmit (done max : Z) : bool := (max <=? 0) || (done <? max).
Definition isSIPProvisionalResponse (code : Z) : bool := (100 <=? code) && (code <? 200).
Definition isSIPSuccess (code : Z) : bool := (200 <=? code) && (code <? 300).

Section transactions.
Context {U : UnicodeCase}.
Definition SIPTransactionTimerPolicyFor (method : bytes) (cfg : SIPTransactionTimerConfig) : SIPTransactionTimerPolicy :=
  let method := strings_ToUpper (TrimSpace method) in
  let t1 := if tc_T1 cfg <=? 0 then defaultSIPTimerT1 else tc_T1 cfg in
  let t2 := if tc_T2 cfg <=? 0 then defaultSIPTimerT2 else tc_T2 cfg in
  let t2 := if t2 <? t1 then t1 else t2 in
  let t4 := if tc_T4 cfg <=? 0 then defaultSIPTimerT4 else tc_T4 cfg in
  let long := to_i64 (64 * t1) in
  if is_invite (sipTransactionKindForMethod method)
  then mkTimerPolicy method true t1 t2 t4 t1 long long 0 0 t1 long t4 0 0
  else mkTimerPolicy method false t1 t2 t4 0 0 0 t1 long 0 0 0 long t4.
Definition DefaultSIPTransactionTimerPolicy (method : bytes) : SIPTransactionTimerPolicy :=
  SIPTransactionTimerPolicyFor method (mkTimerConfig 0 0 0).
(** The loop of the schedule; [elapsed] is the sum of the intervals so far. *)
Fixpoint intervals_loop (fuel : nat) (timeout t2 elapsed interval : Z) : option (list Z) :=
  match fuel with
  | O => None
  | S fuel =>
      if (0 <? interval) && (to_i64 (elapsed + interval) <? timeout)
      then match intervals_loop fuel timeout t2 (to_i64 (elapsed + interval)) (nextSIPRetransmitInterval interval t2) with
           | Some rest => Some (interval :: rest)
           | None => None
           end
      else Some []
  end.
Definition SIPTransactionRetryScheduleFor (fuel : nat) (method : bytes) (cfg : SIPTransactionTimerConfig) : option SIPTransactionRetrySchedule :=
  let policy := SIPTransactionTimerPolicyFor method cfg in
  let interval := if tp_Invite policy then tp_TimerA policy else tp_TimerE policy in
  let timeout := if tp_Invite policy then tp_TimerB policy else tp_TimerF policy in
  let cleanupWait := if tp_Invite policy then 0 else tp_TimerK policy in
  match intervals_loop fuel timeout (tp_T2 policy) 0 interval with
  | Some intervals => Some (mkRetrySchedule (tp_Method policy) (tp_Invite policy) intervals timeout cleanupWait)
  | None => None
  end.
End transactions.

(** ** Client transactions *)
(** A state and an event are strings; the ones without a constructor of their own are
    [Other]. *)
Inductive SIPClientTransactionState :=
| SIPClientTransactionStateCalling | SIPClientTransactionStateTrying | SIPClientTransactionStateProceeding
| SIPClientTransactionStateCompleted | SIPClientTransactionStateTerminated | SIPClientTransactionStateOther (s : bytes).
Inductive SIPClientTransactionEvent :=
| SIPClientTransactionEventResponse | SIPClientTransactionEventRetransmitTimer | SIPClientTransactionEventTimeoutTimer
| SIPClientTransactionEventCleanupTimer | SIPClientTransactionEventOther (s : bytes).
Inductive SIPClientTransactionAction :=
| SIPClientTransactionActionNone | SIPClientTransactionActionWait | SIPClientTransactionActionRetransmitRequest
| SIPClientTransactionActionDeliverProvisional | SIPClientTransactionActionDeliverFinal | SIPClientTransactionActionTimeout
| SIPClientTransactionActionTerminate.
Definition client_is (a b : SIPClientTransactionState) : bool :=
  match a, b with
  | SIPClientTransactionStateCalling, SIPClientTransactionStateCalling
  | SIPClientTransactionStateTrying, SIPClientTransactionStateTrying
  | SIPClientTransactionStateProceeding, SIPClientTransactionStateProceeding
  | SIPClientTransactionStateCompleted, SIPClientTransactionStateCompleted
  | SIPClientTransactionStateTerminated, SIPClientTransactionStateTerminated => true
  | SIPClientTransactionStateOther s, SIPClientTransactionStateOther t => bool_decide (s = t)
  | _, _ => false
  end.
Record SIPClientTransactionInput := mkClientInput {
  ci_Method : bytes;
  ci_State : SIPClientTransactionState;
  ci_Event : SIPClientTransactionEvent;
  ci_Response : Z; (* the status code, all that the machine reads of the response *)
  ci_ReliableTransport : bool;
  ci_LastRetransmitInterval : Z;
  ci_TimerConfig : SIPTransactionTimerConfig;
  ci_MaxRetransmits : Z;
  ci_CompletedRetransmissions : Z
}.
Record SIPClientTransactionStep := mkClientStep {
  ct_Method : bytes;
  ct_Invite : bool;
  ct_Event : SIPClientTransactionEvent;
  ct_State : SIPClientTransactionState;
  ct_NextState : SIPClientTransactionState;
  ct_Action : SIPClientTransactionAction;
  ct_StatusCode : Z;
  ct_Provisional : bool;
  ct_Final : bool;
  ct_Success : bool;
  ct_Failure : bool;
  ct_DeliverResponse : bool;
  ct_RetransmitRequest : bool;
  ct_SendAck : bool;
  ct_TimedOut : bool;
  ct_Terminated : bool;
  ct_CleanupAfter : Z;
  ct_NextRetransmitInterval : Z;
  ct_TimerName : string
}.
Definition ct_set_NextState (v : SIPClientTransactionState) (s : SIPClientTransactionStep) : SIPClientTransactionStep := mkClientStep (ct_Method s) (ct_Invite s) (ct_Event s) (ct_State s) v (ct_Action s) (ct_StatusCode s) (ct_Provisional s) (ct_Final s) (ct_Success s) (ct_Failure s) (ct_DeliverResponse s) (ct_RetransmitRequest s) (ct_SendAck s) (ct_TimedOut s) (ct_Terminated s) (ct_CleanupAfter s) (ct_NextRetransmitInterval s) (ct_TimerName s).
Definition ct_set_Action (v : SIPClientTransactionAction) (s : SIPClientTransactionStep) : SIPClientTransactionStep := mkClientStep (ct_Method s) (ct_Invite s) (ct_Event s) (ct_State s) (ct_NextState s) v (ct_StatusCode s) (ct_Provisional s) (ct_Final s) (ct_Success s) (ct_Failure s) (ct_DeliverResponse s) (ct_RetransmitRequest s) (ct_SendAck s) (ct_TimedOut s) (ct_Terminated s) (ct_CleanupAfter s) (ct_NextRetransmitInterval s) (ct_TimerName s).
Definition ct_set_DeliverResponse (v : bool) (s : SIPClientTransactionStep) : SIPClientTransactionStep := mkClientStep (ct_Method s) (ct_Invite s) (ct_Event s) (ct_State s) (ct_NextState s) (ct_Action s) (ct_StatusCode s) (ct_Provisional s) (ct_Final s) (ct_Success s) (ct_Failure s) v (ct_RetransmitRequest s) (ct_SendAck s) (ct_TimedOut s) (ct_Terminated s) (ct_CleanupAfter s) (ct_NextRetransmitInterval s) (ct_TimerName s).
Definition ct_set_RetransmitRequest (v : bool) (s : SIPClientTransactionStep) : SIPClientTransactionStep := mkClientStep (ct_Method s) (ct_Invite s) (ct_Event s) (ct_State s) (ct_NextState s) (ct_Action s) (ct_StatusCode s) (ct_Provisional s) (ct_Final s) (ct_Success s) (ct_Failure s) (ct_DeliverResponse s) v (ct_SendAck s) (ct_TimedOut s) (ct_Terminated s) (ct_CleanupAfter s) (ct_NextRetransmitInterval s) (ct_TimerName s).
Definition ct_set_SendAck (v : bool) (s : SIPClientTransactionStep) : SIPClientTransactionStep := mkClientStep (ct_Method s) (ct_Invite s) (ct_Event s) (ct_State s) (ct_NextState s) (ct_Action s) (ct_StatusCode s) (ct_Provisional s) (ct_Final s) (ct_Success s) (ct_Failure s) (ct_DeliverResponse s) (ct_RetransmitRequest s) v (ct_TimedOut s) (ct_Terminated s) (ct_CleanupAfter s) (ct_NextRetransmitInterval s) (ct_TimerName s).
Definition ct_set_TimedOut (v : bool) (s : SIPClientTransactionStep) : SIPClientTransactionStep := mkClientStep (ct_Method s) (ct_Invite s) (ct_Event s) (ct_State s) (ct_NextState s) (ct_Action s) (ct_StatusCode s) (ct_Provisional s) (ct_Final s) (ct_Success s) (ct_Failure s) (ct_DeliverResponse s) (ct_RetransmitRequest s) (ct_SendAck s) v (ct_Terminated s) (ct_CleanupAfter s) (ct_NextRetransmitInterval s) (ct_TimerName s).
Definition ct_set_Terminated (v : bool) (s : SIPClientTransactionStep) : SIPClientTransactionStep := mkClientStep (ct_Method s) (ct_Invite s) (ct_Event s) (ct_State s) (ct_NextState s) (ct_Action s) (ct_StatusCode s) (ct_Provisional s) (ct_Final s) (ct_Success s) (ct_Failure s) (ct_DeliverResponse s) (ct_RetransmitRequest s) (ct_SendAck s) (ct_TimedOut s) v (ct_CleanupAfter s) (ct_NextRetransmitInterval s) (ct_TimerName s).
Definition ct_set_CleanupAfter (v : Z) (s : SIPClientTransactionStep) : SIPClientTransactionStep := mkClientStep (ct_Method s) (ct_Invite s) (ct_Event s) (ct_State s) (ct_NextState s) (ct_Action s) (ct_StatusCode s) (ct_Provisional s) (ct_Final s) (ct_Success s) (ct_Failure s) (ct_DeliverResponse s) (ct_RetransmitRequest s) (ct_SendAck s) (ct_TimedOut s) (ct_Terminated s) v (ct_NextRetransmitInterval s) (ct_TimerName s).
Definition ct_set_NextRetransmitInterval (v : Z) (s : SIPClientTransactionStep) : SIPClientTransactionStep := mkClientStep (ct_Method s) (ct_Invite s) (ct_Event s) (ct_State s) (ct_NextState s) (ct_Action s) (ct_StatusCode s) (ct_Provisional s) (ct_Final s) (ct_Success s) (ct_Failure s) (ct_DeliverResponse s) (ct_RetransmitRequest s) (ct_SendAck s) (ct_TimedOut s) (ct_Terminated s) (ct_CleanupAfter s) v (ct_TimerName s).
Definition ct_set_TimerName (v : string) (s : SIPClientTransactionStep) : SIPClientTransactionStep := mkClientStep (ct_Method s) (ct_Invite s) (ct_Event s) (ct_State s) (ct_NextState s) (ct_Action s) (ct_StatusCode s) (ct_Provisional s) (ct_Final s) (ct_Success s) (ct_Failure s) (ct_DeliverResponse s) (ct_RetransmitRequest s) (ct_SendAck s) (ct_TimedOut s) (ct_Terminated s) (ct_CleanupAfter s) (ct_NextRetransmitInterval s) v.

Definition InitialSIPClientTransactionState (method : bytes) : SIPClientTransactionState :=
  if is_invite (sipTransactionKindForMethod method) then SIPClientTransactionStateCalling else SIPClientTransactionStateTrying.
Definition normalizeSIPClientTransactionState (state : SIPClientTransactionState) (method : bytes) : SIPClientTransactionState :=
  match state with
  | SIPClientTransactionStateCalling => if is_invite (sipTransactionKindForMethod method) then state else InitialSIPClientTransactionState method
  | SIPClientTransactionStateTrying => if negb (is_invite (sipTransactionKindForMethod method)) then state else InitialSIPClientTransactionState method
  | SIPClientTransactionStateProceeding | SIPClientTransactionStateCompleted | SIPClientTransactionStateTerminated => state
  | SIPClientTransactionStateOther _ => InitialSIPClientTransactionState method
  end.
Definition sipClientTransactionRetransmitTimerActive (method : bytes) (state : SIPClientTransactionState) : bool :=
  let state' := normalizeSIPClientTransactionState state method in
  if is_invite (sipTransactionKindForMethod method) then client_is state' SIPClientTransactionStateCalling
  else client_is state' SIPClientTransactionStateTrying || client_is state' SIPClientTransactionStateProceeding.
Definition client_waits (step : SIPClientTransactionStep) : SIPClientTransactionStep := ct_set_Action SIPClientTransactionActionWait step.
Definition completeSIPClientTransaction (step : SIPClientTransactionStep) (reliable : bool) (cleanupAfter : Z) : SIPClientTransactionStep :=
  if reliable || (cleanupAfter <=? 0) then ct_set_Terminated true (ct_set_NextState SIPClientTransactionStateTerminated step)
  else ct_set_CleanupAfter cleanupAfter (ct_set_NextState SIPClientTransactionStateCompleted step).
Definition advanceSIPInviteClientTransactionResponse (step : SIPClientTransactionStep) (reliable : bool) (policy : SIPTransactionTimerPolicy) : SIPClientTransactionStep :=
  let open := client_is (ct_State step) SIPClientTransactionStateCalling || client_is (ct_State step) SIPClientTransactionStateProceeding in
  if ct_Provisional step then
    if open then ct_set_DeliverResponse true (ct_set_Action SIPClientTransactionActionDeliverProvisional (ct_set_NextState SIPClientTransactionStateProceeding step))
    else client_waits step
  else if ct_Success step then
    if open then ct_set_Terminated true (ct_set_DeliverResponse true (ct_set_Action SIPClientTransactionActionDeliverFinal
                   (ct_set_NextState SIPClientTransactionStateTerminated step)))
    else client_waits step
  else if ct_Failure step then
    if client_is (ct_State step) SIPClientTransactionStateCompleted then ct_set_SendAck true (ct_set_Action SIPClientTransactionActionDeliverFinal step)
    else if open then
      completeSIPClientTransaction (ct_set_SendAck true (ct_set_DeliverResponse true (ct_set_Action SIPClientTransactionActionDeliverFinal step))) reliable (tp_TimerD policy)
    else client_waits step
  else client_waits step.
Definition advanceSIPNonInviteClientTransactionResponse (step : SIPClientTransactionStep) (reliable : bool) (policy : SIPTransactionTimerPolicy) : SIPClientTransactionStep :=
  let open := client_is (ct_State step) SIPClientTransactionStateTrying || client_is (ct_State step) SIPClientTransactionStateProceeding in
  if ct_Provisional step then
    if open then ct_set_DeliverResponse true (ct_set_Action SIPClientTransactionActionDeliverProvisional (ct_set_NextState SIPClientTransactionStateProceeding step))
    else client_waits step
  else if ct_Final step then
    if open then completeSIPClientTransaction (ct_set_DeliverResponse true (ct_set_Action SIPClientTransactionActionDeliverFinal step)) reliable (tp_TimerK policy)
    else client_waits step
  else client_waits step.
Definition client_response_info (code : Z) (s : SIPClientTransactionStep) : SIPClientTransactionStep :=
  mkClientStep (ct_Method s) (ct_Invite s) (ct_Event s) (ct_State s) (ct_NextState s) (ct_Action s) code (isSIPProvisionalResponse code) (200 <=? code) (isSIPSuccess code)
    (300 <=? code) (ct_DeliverResponse s) (ct_RetransmitRequest s) (ct_SendAck s) (ct_TimedOut s) (ct_Terminated s) (ct_CleanupAfter s) (ct_NextRetransmitInterval s) (ct_TimerName s).
Definition advanceSIPClientTransactionResponse (step : SIPClientTransactionStep) (code : Z) (reliable : bool) (policy : SIPTransactionTimerPolicy) : SIPClientTransactionStep :=
  let step := client_response_info code step in
  if code =? 0 then client_waits step
  else if ct_Invite step then advanceSIPInviteClientTransactionResponse step reliable policy
  else advanceSIPNonInviteClientTransactionResponse step reliable policy.
Definition advanceSIPClientTransactionRetransmitTimer (step : SIPClientTransactionStep) (reliable : bool) (last max done : Z) (policy : SIPTransactionTimerPolicy) : SIPClientTransactionStep :=
  if reliable then client_waits step else
  let proceeding := client_is (ct_State step) SIPClientTransactionStateProceeding in
  let active := if ct_Invite step then client_is (ct_State step) SIPClientTransactionStateCalling
                else client_is (ct_State step) SIPClientTransactionStateTrying || proceeding in
  if negb active || negb (shouldSIPRetransmit done max) then client_waits step else
  let step := ct_set_TimerName (if ct_Invite step then "A" else "E") step in
  let interval := if last <=? 0 then if ct_Invite step then tp_TimerA policy else tp_TimerE policy else last in
  let interval := if negb (ct_Invite step) && proceeding && (interval <? tp_T2 policy) then tp_T2 policy else interval in
  ct_set_NextRetransmitInterval (nextSIPRetransmitInterval interval (tp_T2 policy))
    (ct_set_RetransmitRequest true (ct_set_Action SIPClientTransactionActionRetransmitRequest step)).
Definition advanceSIPClientTransactionTimeoutTimer (step : SIPClientTransactionStep) : SIPClientTransactionStep :=
  let active := if ct_Invite step then client_is (ct_State step) SIPClientTransactionStateCalling
                else client_is (ct_State step) SIPClientTransactionStateTrying || client_is (ct_State step) SIPClientTransactionStateProceeding in
  if negb active then client_waits step else
  let step := ct_set_TimerName (if ct_Invite step then "B" else "F") step in
  ct_set_Terminated true (ct_set_TimedOut true (ct_set_Action SIPClientTransactionActionTimeout (ct_set_NextState SIPClientTransactionStateTerminated step))).
Definition advanceSIPClientTransactionCleanupTimer (step : SIPClientTransactionStep) : SIPClientTransactionStep :=
  if negb (client_is (ct_State step) SIPClientTransactionStateCompleted) then client_waits step else
  let step := ct_set_TimerName (if ct_Invite step then "D" else "K") step in
  ct_set_Terminated true (ct_set_Action SIPClientTransactionActionTerminate (ct_set_NextState SIPClientTransactionStateTerminated step)).
Definition AdvanceSIPClientTransaction `{UnicodeCase} (input : SIPClientTransactionInput) : SIPClientTransactionStep :=
  let policy := SIPTransactionTimerPolicyFor (ci_Method input) (ci_TimerConfig input) in
  let state := normalizeSIPClientTransactionState (ci_State input) (tp_Method policy) in
  let event := match ci_Event input with SIPClientTransactionEventOther [] => SIPClientTransactionEventResponse | e => e end in
  let step := mkClientStep (tp_Method policy) (tp_Invite policy) event state state SIPClientTransactionActionNone 0 false false false false false false false false false 0 0 "" in
  if client_is state SIPClientTransactionStateTerminated then ct_set_Terminated true step else
  match event with
  | SIPClientTransactionEventResponse => advanceSIPClientTransactionResponse step (ci_Response input) (ci_ReliableTransport input) policy
  | SIPClientTransactionEventRetransmitTimer =>
      advanceSIPClientTransactionRetransmitTimer step (ci_ReliableTransport input) (ci_LastRetransmitInterval input) (ci_MaxRetransmits input) (ci_CompletedRetransmissions input) policy
  | SIPClientTransactionEventTimeoutTimer => advanceSIPClientTransactionTimeoutTimer step
  | SIPClientTransactionEventCleanupTimer => advanceSIPClientTransactionCleanupTimer step
  | SIPClientTransactionEventOther _ => client_waits step
  end.

(** ** Server transactions *)
Inductive SIPServerTransactionState :=
| SIPServerTransactionStateTrying | SIPServerTransactionStateProceeding | SIPServerTransactionStateCompleted
| SIPServerTransactionStateConfirmed | SIPServerTransactionStateTerminated | SIPServerTransactionStateOther (s : bytes).
Inductive SIPServerTransactionEvent :=
| SIPServerTransactionEventRequest | SIPServerTransactionEventResponse | SIPServerTransactionEventACK | SIPServerTransactionEventRetransmitTimer
| SIPServerTransactionEventTimeoutTimer | SIPServerTransactionEventCleanupTimer | SIPServerTransactionEventOther (s : bytes).
Inductive SIPServerTransactionAction :=
| SIPServerTransactionActionNone | SIPServerTransactionActionWait | SIPServerTransactionActionPassRequest | SIPServerTransactionActionSendResponse
| SIPServerTransactionActionRetransmitResponse | SIPServerTransactionActionDeliverACK | SIPServerTransactionActionTimeout | SIPServerTransactionActionTerminate.
Definition server_is (a b : SIPServerTransactionState) : bool :=
  match a, b with
  | SIPServerTransactionStateTrying, SIPServerTransactionStateTrying
  | SIPServerTransactionStateProceeding, SIPServerTransactionStateProceeding
  | SIPServerTransactionStateCompleted, SIPServerTransactionStateCompleted
  | SIPServerTransactionStateConfirmed, SIPServerTransactionStateConfirmed
  | SIPServerTransactionStateTerminated, SIPServerTransactionStateTerminated => true
  | SIPServerTransactionStateOther s, SIPServerTransactionStateOther t => bool_decide (s = t)
  | _, _ => false
  end.
Record SIPServerTransactionInput := mkServerInput {
  si_Method : bytes;
  si_State : SIPServerTransactionState;
  si_Event : SIPServerTransactionEvent;
  si_Response : Z; (* the status code *)
  si_ReliableTransport : bool;
  si_RequestRetransmission : bool;
  si_LastRetransmitInterval : Z;
  si_TimerConfig : SIPTransactionTimerConfig
}.
Record SIPServerTransactionStep := mkServerStep {
  st_Method : bytes;
  st_Invite : bool;
  st_Event : SIPServerTransactionEvent;
  st_State : SIPServerTransactionState;
  st_NextState : SIPServerTransactionState;
  st_Action : SIPServerTransactionAction;
  st_StatusCode : Z;
  st_Provisional : bool;
  st_Final : bool;
  st_Success : bool;
  st_Failure : bool;
  st_PassRequest : bool;
  st_SendResponse : bool;
  st_RetransmitResponse : bool;
  st_DeliverACK : bool;
  st_TimedOut : bool;
  st_Terminated : bool;
  st_CleanupAfter : Z;
  st_TimeoutAfter : Z;
  st_NextRetransmitInterval : Z;
  st_TimerName : string
}.
Definition st_set_NextState (v : SIPServerTransactionState) (s : SIPServerTransactionStep) : SIPServerTransactionStep := mkServerStep (st_Method s) (st_Invite s) (st_Event s) (st_State s) v (st_Action s) (st_StatusCode s) (st_Provisional s) (st_Final s) (st_Success s) (st_Failure s) (st_PassRequest s) (st_SendResponse s) (st_RetransmitResponse s) (st_DeliverACK s) (st_TimedOut s) (st_Terminated s) (st_CleanupAfter s) (st_TimeoutAfter s) (st_NextRetransmitInterval s) (st_TimerName s).
Definition st_set_Action (v : SIPServerTransactionAction) (s : SIPServerTransactionStep) : SIPServerTransactionStep := mkServerStep (st_Method s) (st_Invite s) (st_Event s) (st_State s) (st_NextState s) v (st_StatusCode s) (st_Provisional s) (st_Final s) (st_Success s) (st_Failure s) (st_PassRequest s) (st_SendResponse s) (st_RetransmitResponse s) (st_DeliverACK s) (st_TimedOut s) (st_Terminated s) (st_CleanupAfter s) (st_TimeoutAfter s) (st_NextRetransmitInterval s) (st_TimerName s).
Definition st_set_PassRequest (v : bool) (s : SIPServerTransactionStep) : SIPServerTransactionStep := mkServerStep (st_Method s) (st_Invite s) (st_Event s) (st_State s) (st_NextState s) (st_Action s) (st_StatusCode s) (st_Provisional s) (st_Final s) (st_Success s) (st_Failure s) v (st_SendResponse s) (st_RetransmitResponse s) (st_DeliverACK s) (st_TimedOut s) (st_Terminated s) (st_CleanupAfter s) (st_TimeoutAfter s) (st_NextRetransmitInterval s) (st_TimerName s).
Definition st_set_SendResponse (v : bool) (s : SIPServerTransactionStep) : SIPServerTransactionStep := mkServerStep (st_Method s) (st_Invite s) (st_Event s) (st_State s) (st_NextState s) (st_Action s) (st_StatusCode s) (st_Provisional s) (st_Final s) (st_Success s) (st_Failure s) (st_PassRequest s) v (st_RetransmitResponse s) (st_DeliverACK s) (st_TimedOut s) (st_Terminated s) (st_CleanupAfter s) (st_TimeoutAfter s) (st_NextRetransmitInterval s) (st_TimerName s).
Definition st_set_RetransmitResponse (v : bool) (s : SIPServerTransactionStep) : SIPServerTransactionStep := mkServerStep (st_Method s) (st_Invite s) (st_Event s) (st_State s) (st_NextState s) (st_Action s) (st_StatusCode s) (st_Provisional s) (st_Final s) (st_Success s) (st_Failure s) (st_PassRequest s) (st_SendResponse s) v (st_DeliverACK s) (st_TimedOut s) (st_Terminated s) (st_CleanupAfter s) (st_TimeoutAfter s) (st_NextRetransmitInterval s) (st_TimerName s).
Definition st_set_DeliverACK (v : bool) (s : SIPServerTransactionStep) : SIPServerTransactionStep := mkServerStep (st_Method s) (st_Invite s) (st_Event s) (st_State s) (st_NextState s) (st_Action s) (st_StatusCode s) (st_Provisional s) (st_Final s) (st_Success s) (st_Failure s) (st_PassRequest s) (st_SendResponse s) (st_RetransmitResponse s) v (st_TimedOut s) (st_Terminated s) (st_CleanupAfter s) (st_TimeoutAfter s) (st_NextRetransmitInterval s) (st_TimerName s).
Definition st_set_TimedOut (v : bool) (s : SIPServerTransactionStep) : SIPServerTransactionStep := mkServerStep (st_Method s) (st_Invite s) (st_Event s) (st_State s) (st_NextState s) (st_Action s) (st_StatusCode s) (st_Provisional s) (st_Final s) (st_Success s) (st_Failure s) (st_PassRequest s) (st_SendResponse s) (st_RetransmitResponse s) (st_DeliverACK s) v (st_Terminated s) (st_CleanupAfter s) (st_TimeoutAfter s) (st_NextRetransmitInterval s) (st_TimerName s).
Definition st_set_Terminated (v : bool) (s : SIPServerTransactionStep) : SIPServerTransactionStep := mkServerStep (st_Method s) (st_Invite s) (st_Event s) (st_State s) (st_NextState s) (st_Action s) (st_StatusCode s) (st_Provisional s) (st_Final s) (st_Success s) (st_Failure s) (st_PassRequest s) (st_SendResponse s) (st_RetransmitResponse s) (st_DeliverACK s) (st_TimedOut s) v (st_CleanupAfter s) (st_TimeoutAfter s) (st_NextRetransmitInterval s) (st_TimerName s).
Definition st_set_CleanupAfter (v : Z) (s : SIPServerTransactionStep) : SIPServerTransactionStep := mkServerStep (st_Method s) (st_Invite s) (st_Event s) (st_State s) (st_NextState s) (st_Action s) (st_StatusCode s) (st_Provisional s) (st_Final s) (st_Success s) (st_Failure s) (st_PassRequest s) (st_SendResponse s) (st_RetransmitResponse s) (st_DeliverACK s) (st_TimedOut s) (st_Terminated s) v (st_TimeoutAfter s) (st_NextRetransmitInterval s) (st_TimerName s).
Definition st_set_TimeoutAfter (v : Z) (s : SIPServerTransactionStep) : SIPServerTransactionStep := mkServerStep (st_Method s) (st_Invite s) (st_Event s) (st_State s) (st_NextState s) (st_Action s) (st_StatusCode s) (st_Provisional s) (st_Final s) (st_Success s) (st_Failure s) (st_PassRequest s) (st_SendResponse s) (st_RetransmitResponse s) (st_DeliverACK s) (st_TimedOut s) (st_Terminated s) (st_CleanupAfter s) v (st_NextRetransmitInterval s) (st_TimerName s).
Definition st_set_NextRetransmitInterval (v : Z) (s : SIPServerTransactionStep) : SIPServerTransactionStep := mkServerStep (st_Method s) (st_Invite s) (st_Event s) (st_State s) (st_NextState s) (st_Action s) (st_StatusCode s) (st_Provisional s) (st_Final s) (st_Success s) (st_Failure s) (st_PassRequest s) (st_SendResponse s) (st_RetransmitResponse s) (st_DeliverACK s) (st_TimedOut s) (st_Terminated s) (st_CleanupAfter s) (st_TimeoutAfter s) v (st_TimerName s).
Definition st_set_TimerName (v : string) (s : SIPServerTransactionStep) : SIPServerTransactionStep := mkServerStep (st_Method s) (st_Invite s) (st_Event s) (st_State s) (st_NextState s) (st_Action s) (st_StatusCode s) (st_Provisional s) (st_Final s) (st_Success s) (st_Failure s) (st_PassRequest s) (st_SendResponse s) (st_RetransmitResponse s) (st_DeliverACK s) (st_TimedOut s) (st_Terminated s) (st_CleanupAfter s) (st_TimeoutAfter s) (st_NextRetransmitInterval s) v.

Definition InitialSIPServerTransactionState (method : bytes) : SIPServerTransactionState :=
  if is_invite (sipTransactionKindForMethod method) then SIPServerTransactionStateProceeding else SIPServerTransactionStateTrying.
Definition normalizeSIPServerTransactionState (state : SIPServerTransactionState) (method : bytes) : SIPServerTransactionState :=
  match state with
  | SIPServerTransactionStateTrying => if negb (is_invite (sipTransactionKindForMethod method)) then state else InitialSIPServerTransactionState method
  | SIPServerTransactionStateProceeding | SIPServerTransactionStateCompleted | SIPServerTransactionStateTerminated => state
  | SIPServerTransactionStateConfirmed => if is_invite (sipTransactionKindForMethod method) then state else InitialSIPServerTransactionState method
  | SIPServerTransactionStateOther _ => InitialSIPServerTransactionState method
  end.
Definition server_waits (step : SIPServerTransactionStep) : SIPServerTransactionStep := st_set_Action SIPServerTransactionActionWait step.
Definition applySIPServerTransactionResponseInfo (s : SIPServerTransactionStep) (code : Z) : SIPServerTransactionStep :=
  mkServerStep (st_Method s) (st_Invite s) (st_Event s) (st_State s) (st_NextState s) (st_Action s) code (isSIPProvisionalResponse code) (200 <=? code) (isSIPSuccess code)
    (300 <=? code) (st_PassRequest s) (st_SendResponse s) (st_RetransmitResponse s) (st_DeliverACK s) (st_TimedOut s) (st_Terminated s) (st_CleanupAfter s) (st_TimeoutAfter s)
    (st_NextRetransmitInterval s) (st_TimerName s).
Definition completeSIPInviteServerTransaction (step : SIPServerTransactionStep) (reliable : bool) (policy : SIPTransactionTimerPolicy) : SIPServerTransactionStep :=
  let step := st_set_NextState SIPServerTransactionStateCompleted step in
  let step := if negb reliable && (0 <? tp_TimerG policy) then st_set_TimerName "G" (st_set_NextRetransmitInterval (tp_TimerG policy) step) else step in
  st_set_TimeoutAfter (tp_TimerH policy) step.
Definition server_retransmits (step : SIPServerTransactionStep) : SIPServerTransactionStep :=
  st_set_RetransmitResponse true (st_set_Action SIPServerTransactionActionRetransmitResponse step).
Definition advanceSIPServerTransactionRequest (step : SIPServerTransactionStep) (cached : Z) (retransmission : bool) : SIPServerTransactionStep :=
  let trying := server_is (st_State step) SIPServerTransactionStateTrying in
  let proceeding := server_is (st_State step) SIPServerTransactionStateProceeding in
  let completed := server_is (st_State step) SIPServerTransactionStateCompleted in
  if negb retransmission then
    if trying || proceeding then st_set_PassRequest true (st_set_Action SIPServerTransactionActionPassRequest step) else server_waits step
  else
  let step := applySIPServerTransactionResponseInfo step cached in
  if st_Invite step && proceeding && (0 <? st_StatusCode step) then server_retransmits step
  else if st_Invite step && completed then server_retransmits step
  else if negb (st_Invite step) && (proceeding || completed) && (0 <? st_StatusCode step) then server_retransmits step
  else server_waits step.
Definition advanceSIPInviteServerTransactionResponse (step : SIPServerTransactionStep) (reliable : bool) (policy : SIPTransactionTimerPolicy) : SIPServerTransactionStep :=
  if negb (server_is (st_State step) SIPServerTransactionStateProceeding) then server_waits step else
  let step := st_set_SendResponse true (st_set_Action SIPServerTransactionActionSendResponse step) in
  if st_Provisional step then st_set_NextState SIPServerTransactionStateProceeding step
  else if st_Success step then st_set_Terminated true (st_set_NextState SIPServerTransactionStateTerminated step)
  else if st_Failure step then completeSIPInviteServerTransaction step reliable policy
  else st_set_SendResponse false (server_waits step).
Definition advanceSIPNonInviteServerTransactionResponse (step : SIPServerTransactionStep) (reliable : bool) (policy : SIPTransactionTimerPolicy) : SIPServerTransactionStep :=
  if negb (server_is (st_State step) SIPServerTransactionStateTrying) && negb (server_is (st_State step) SIPServerTransactionStateProceeding) then server_waits step else
  let step := st_set_SendResponse true (st_set_Action SIPServerTransactionActionSendResponse step) in
  if st_Provisional step then st_set_NextState SIPServerTransactionStateProceeding step
  else if negb (st_Final step) then st_set_SendResponse false (server_waits step)
  else if reliable || (tp_TimerJ policy <=? 0) then st_set_Terminated true (st_set_NextState SIPServerTransactionStateTerminated step)
  else st_set_TimerName "J" (st_set_CleanupAfter (tp_TimerJ policy) (st_set_NextState SIPServerTransactionStateCompleted step)).
Definition advanceSIPServerTransactionResponse (step : SIPServerTransactionStep) (code : Z) (reliable : bool) (policy : SIPTransactionTimerPolicy) : SIPServerTransactionStep :=
  let step := applySIPServerTransactionResponseInfo step code in
  if st_StatusCode step =? 0 then server_waits step
  else if st_Invite step then advanceSIPInviteServerTransactionResponse step reliable policy
  else advanceSIPNonInviteServerTransactionResponse step reliable policy.
Definition advanceSIPServerTransactionACK (step : SIPServerTransactionStep) (reliable : bool) (policy : SIPTransactionTimerPolicy) : SIPServerTransactionStep :=
  if negb (st_Invite step) || negb (server_is (st_State step) SIPServerTransactionStateCompleted) then server_waits step else
  let step := st_set_DeliverACK true (st_set_Action SIPServerTransactionActionDeliverACK step) in
  if reliable || (tp_TimerI policy <=? 0) then st_set_Terminated true (st_set_NextState SIPServerTransactionStateTerminated step)
  else st_set_TimerName "I" (st_set_CleanupAfter (tp_TimerI policy) (st_set_NextState SIPServerTransactionStateConfirmed step)).
Definition advanceSIPServerTransactionRetransmitTimer (step : SIPServerTransactionStep) (reliable : bool) (cached last : Z) (policy : SIPTransactionTimerPolicy) : SIPServerTransactionStep :=
  if reliable || negb (st_Invite step) || negb (server_is (st_State step) SIPServerTransactionStateCompleted) then server_waits step else
  let step := applySIPServerTransactionResponseInfo step cached in
  if negb (st_Failure step) then server_waits step else
  let interval := if last <=? 0 then tp_TimerG policy else last in
  st_set_NextRetransmitInterval (nextSIPRetransmitInterval interval (tp_T2 policy)) (st_set_TimerName "G" (server_retransmits step)).
Definition advanceSIPServerTransactionTimeoutTimer (step : SIPServerTransactionStep) : SIPServerTransactionStep :=
  if negb (st_Invite step) || negb (server_is (st_State step) SIPServerTransactionStateCompleted) then server_waits step else
  st_set_Terminated true (st_set_TimedOut true (st_set_TimerName "H" (st_set_Action SIPServerTransactionActionTimeout (st_set_NextState SIPServerTransactionStateTerminated step)))).
Definition advanceSIPServerTransactionCleanupTimer (step : SIPServerTransactionStep) : SIPServerTransactionStep :=
  let ends name := st_set_Terminated true (st_set_Action SIPServerTransactionActionTerminate (st_set_NextState SIPServerTransactionStateTerminated (st_set_TimerName name step))) in
  if st_Invite step && server_is (st_State step) SIPServerTransactionStateConfirmed then ends "I"
  else if negb (st_Invite step) && server_is (st_State step) SIPServerTransactionStateCompleted then ends "J"
  else server_waits step.
Definition AdvanceSIPServerTransaction `{UnicodeCase} (input : SIPServerTransactionInput) : SIPServerTransactionStep :=
  let policy := SIPTransactionTimerPolicyFor (si_Method input) (si_TimerConfig input) in
  let state := normalizeSIPServerTransactionState (si_State input) (tp_Method policy) in
  let event := match si_Event input with SIPServerTransactionEventOther [] => SIPServerTransactionEventRequest | e => e end in
  let step := mkServerStep (tp_Method policy) (tp_Invite policy) event state state SIPServerTransactionActionNone 0 false false false false false false false false false false 0 0 0 "" in
  if server_is state SIPServerTransactionStateTerminated then st_set_Terminated true step else
  match event with
  | SIPServerTransactionEventRequest => advanceSIPServerTransactionRequest step (si_Response input) (si_RequestRetransmission input)
  | SIPServerTransactionEventResponse => advanceSIPServerTransactionResponse step (si_Response input) (si_ReliableTransport input) policy
  | SIPServerTransactionEventACK => advanceSIPServerTransactionACK step (si_ReliableTransport input) policy
  | SIPServerTransactionEventRetransmitTimer =>
      advanceSIPServerTransactionRetransmitTimer step (si_ReliableTransport input) (si_Response input) (si_LastRetransmitInterval input) policy
  | SIPServerTransactionEventTimeoutTimer => advanceSIPServerTransactionTimeoutTimer step
  | SIPServerTransactionEventCleanupTimer => advanceSIPServerTransactionCleanupTimer step
  | SIPServerTransactionEventOther _ => server_waits step
  end.

(** ** The machines of RFC 3261, section 17 *)
Inductive client_input := GotResponse (code : Z) | RetransmitFires | TimeoutFires | CleanupFires.
Inductive client_output := ToUser (code : Z) | AckSent | RequestSent | TimeoutTold.
(** Figures 5 and 6.  [budget]: another retransmission is allowed (the standard has no
    limit but the timeout).  The timers D and K are zero on a reliable transport, where
    nothing is retransmitted. *)
Definition after_final (reliable : bool) : SIPClientTransactionState :=
  if reliable then SIPClientTransactionStateTerminated else SIPClientTransactionStateCompleted.
Inductive rfc_client (reliable budget : bool) : bool -> SIPClientTransactionState -> client_input -> list client_output -> SIPClientTransactionState -> Prop :=
| invite_provisional st code : st = SIPClientTransactionStateCalling \/ st = SIPClientTransactionStateProceeding -> 100 <= code < 200 ->
    rfc_client reliable budget true st (GotResponse code) [ToUser code] SIPClientTransactionStateProceeding
| invite_success st code : st = SIPClientTransactionStateCalling \/ st = SIPClientTransactionStateProceeding -> 200 <= code < 300 ->
    rfc_client reliable budget true st (GotResponse code) [ToUser code] SIPClientTransactionStateTerminated
| invite_failure st code : st = SIPClientTransactionStateCalling \/ st = SIPClientTransactionStateProceeding -> 300 <= code ->
    rfc_client reliable budget true st (GotResponse code) [ToUser code; AckSent] (after_final reliable)
| invite_failure_again code : 300 <= code ->
    rfc_client reliable budget true SIPClientTransactionStateCompleted (GotResponse code) [AckSent] SIPClientTransactionStateCompleted
| invite_A : reliable = false -> budget = true ->
    rfc_client reliable budget true SIPClientTransactionStateCalling RetransmitFires [RequestSent] SIPClientTransactionStateCalling
| invite_B : rfc_client reliable budget true SIPClientTransactionStateCalling TimeoutFires [TimeoutTold] SIPClientTransactionStateTerminated
| invite_D : rfc_client reliable budget true SIPClientTransactionStateCompleted CleanupFires [] SIPClientTransactionStateTerminated
| other_provisional st code : st = SIPClientTransactionStateTrying \/ st = SIPClientTransactionStateProceeding -> 100 <= code < 200 ->
    rfc_client reliable budget false st (GotResponse code) [ToUser code] SIPClientTransactionStateProceeding
| other_final st code : st = SIPClientTransactionStateTrying \/ st = SIPClientTransactionStateProceeding -> 200 <= code ->
    rfc_client reliable budget false st (GotResponse code) [ToUser code] (after_final reliable)
| other_E st : st = SIPClientTransactionStateTrying \/ st = SIPClientTransactionStateProceeding -> reliable = false -> budget = true ->
    rfc_client reliable budget false st RetransmitFires [RequestSent] st
| other_F st : st = SIPClientTransactionStateTrying \/ st = SIPClientTransactionStateProceeding ->
    rfc_client reliable budget false st TimeoutFires [TimeoutTold] SIPClientTransactionStateTerminated
| other_K : rfc_client reliable budget false SIPClientTransactionStateCompleted CleanupFires [] SIPClientTransactionStateTerminated.
Inductive server_input := GotRequest (again : bool) | UserResponds (code : Z) | GotAck | ServerRetransmitFires | ServerTimeoutFires | ServerCleanupFires.
Inductive server_output := RequestToUser | ResponseSent (code : Z) | AckToUser | ServerTimeoutTold.
(** Figures 7 and 8; [cached]: the code of the last response sent, 0 when there is none.  An ACK in Completed has
    no output: the standard makes the transition and nothing else.  In the standard the first request
    makes the transaction; here it is the one that the caller does not mark as a repetition, while there is no final response. *)
Definition after_other_final (reliable : bool) : SIPServerTransactionState :=
  if reliable then SIPServerTransactionStateTerminated else SIPServerTransactionStateCompleted.
Inductive rfc_server (reliable : bool) (cached : Z) : bool -> SIPServerTransactionState -> server_input -> list server_output -> SIPServerTransactionState -> Prop :=
| first_request invite st : st = SIPServerTransactionStateTrying \/ st = SIPServerTransactionStateProceeding ->
    rfc_server reliable cached invite st (GotRequest false) [RequestToUser] st
| invite_request_again st : st = SIPServerTransactionStateProceeding /\ 0 < cached \/ st = SIPServerTransactionStateCompleted ->
    rfc_server reliable cached true st (GotRequest true) [ResponseSent cached] st
| other_request_again st : st = SIPServerTransactionStateProceeding \/ st = SIPServerTransactionStateCompleted -> 0 < cached ->
    rfc_server reliable cached false st (GotRequest true) [ResponseSent cached] st
| invite_responds_provisional code : 100 <= code < 200 ->
    rfc_server reliable cached true SIPServerTransactionStateProceeding (UserResponds code) [ResponseSent code] SIPServerTransactionStateProceeding
| invite_responds_success code : 200 <= code < 300 ->
    rfc_server reliable cached true SIPServerTransactionStateProceeding (UserResponds code) [ResponseSent code] SIPServerTransactionStateTerminated
| invite_responds_failure code : 300 <= code ->
    rfc_server reliable cached true SIPServerTransactionStateProceeding (UserResponds code) [ResponseSent code] SIPServerTransactionStateCompleted
| invite_ack : rfc_server reliable cached true SIPServerTransactionStateCompleted GotAck []
    (if reliable then SIPServerTransactionStateTerminated else SIPServerTransactionStateConfirmed)
| invite_G : reliable = false -> 300 <= cached ->
    rfc_server reliable cached true SIPServerTransactionStateCompleted ServerRetransmitFires [ResponseSent cached] SIPServerTransactionStateCompleted
| invite_H : rfc_server reliable cached true SIPServerTransactionStateCompleted ServerTimeoutFires [ServerTimeoutTold] SIPServerTransactionStateTerminated
| invite_I : rfc_server reliable cached true SIPServerTransactionStateConfirmed ServerCleanupFires [] SIPServerTransactionStateTerminated
| other_responds_provisional st code : st = SIPServerTransactionStateTrying \/ st = SIPServerTransactionStateProceeding -> 100 <= code < 200 ->
    rfc_server reliable cached false st (UserResponds code) [ResponseSent code] SIPServerTransactionStateProceeding
| other_responds_final st code : st = SIPServerTransactionStateTrying \/ st = SIPServerTransactionStateProceeding -> 200 <= code ->
    rfc_server reliable cached false st (UserResponds code) [ResponseSent code] (after_other_final reliable)
| other_J : rfc_server reliable cached false SIPServerTransactionStateCompleted ServerCleanupFires [] SIPServerTransactionStateTerminated.

(** What a step of the code does, and the event it was made for. *)
Definition client_outputs (s : SIPClientTransactionStep) : list client_output :=
  (if ct_DeliverResponse s then [ToUser (ct_StatusCode s)] else []) ++ (if ct_SendAck s then [AckSent] else [])
  ++ (if ct_RetransmitRequest s then [RequestSent] else []) ++ (if ct_TimedOut s then [TimeoutTold] else []).
Definition client_event (input : SIPClientTransactionInput) : option client_input :=
  match ci_Event input with
  | SIPClientTransactionEventResponse | SIPClientTransactionEventOther [] => Some (GotResponse (ci_Response input))
  | SIPClientTransactionEventRetransmitTimer => Some RetransmitFires
  | SIPClientTransactionEventTimeoutTimer => Some TimeoutFires
  | SIPClientTransactionEventCleanupTimer => Some CleanupFires
  | SIPClientTransactionEventOther _ => None
  end.
(** The outputs that the standard has, and all of them: the code also hands an ACK to the user. *)
Definition standard_outputs (cached : Z) (s : SIPServerTransactionStep) : list server_output :=
  (if st_PassRequest s then [RequestToUser] else []) ++ (if st_SendResponse s then [ResponseSent (st_StatusCode s)] else [])
  ++ (if st_RetransmitResponse s then [ResponseSent cached] else []) ++ (if st_TimedOut s then [ServerTimeoutTold] else []).
Definition server_outputs (cached : Z) (s : SIPServerTransactionStep) : list server_output :=
  standard_outputs cached s ++ (if st_DeliverACK s then [AckToUser] else []).
(** The addition of the code to the standard: the user is handed the ACK that takes an INVITE transaction out of Completed. *)
Definition hands_over_ack (invite : bool) (st : SIPServerTransactionState) (ev : option server_input) : bool :=
  match ev with Some GotAck => invite && server_is st SIPServerTransactionStateCompleted | _ => false end.
Definition server_event (input : SIPServerTransactionInput) : option server_input :=
  match si_Event input with
  | SIPServerTransactionEventRequest | SIPServerTransactionEventOther [] => Some (GotRequest (si_RequestRetransmission input))
  | SIPServerTransactionEventResponse => Some (UserResponds (si_Response input))
  | SIPServerTransactionEventACK => Some GotAck
  | SIPServerTransactionEventRetransmitTimer => Some ServerRetransmitFires
  | SIPServerTransactionEventTimeoutTimer => Some ServerTimeoutFires
  | SIPServerTransactionEventCleanupTimer => Some ServerCleanupFires
  | SIPServerTransactionEventOther _ => None
  end.
(** 64 T1 + T2 does not overflow. *)
Definition timers_ok (cfg : SIPTransactionTimerConfig) : Prop := tc_T1 cfg < 2 ^ 56 /\ tc_T2 cfg < 2 ^ 62 /\ tc_T4 cfg < 2 ^ 62.

Section machines.
Context {U : UnicodeCase}.
Lemma policy_ok method cfg : timers_ok cfg -> let p := SIPTransactionTimerPolicyFor method cfg in
  tp_Invite p = is_invite (sipTransactionKindForMethod (tp_Method p)) /\ 0 < tp_T1 p < 2 ^ 56 /\ tp_T1 p <= tp_T2 p < 2 ^ 62 /\ 0 < tp_T4 p
  /\ (if tp_Invite p then tp_TimerA p = tp_T1 p /\ tp_TimerB p = 64 * tp_T1 p /\ tp_TimerD p = 64 * tp_T1 p /\ tp_TimerG p = tp_T1 p /\ tp_TimerH p = 64 * tp_T1 p /\ tp_TimerI p = tp_T4 p
      else tp_TimerE p = tp_T1 p /\ tp_TimerF p = 64 * tp_T1 p /\ tp_TimerJ p = 64 * tp_T1 p /\ tp_TimerK p = tp_T4 p).
Proof.
  intros (H1 & H2 & H4) p. unfold p, SIPTransactionTimerPolicyFor. set (m := strings_ToUpper _).
  set (t1 := if tc_T1 cfg <=? 0 then _ else _). set (t2 := if _ <? t1 then _ else _). set (t4 := if tc_T4 cfg <=? 0 then _ else _).
  assert (Ht1 : 0 < t1 < 2 ^ 56) by (unfold t1, defaultSIPTimerT1, Millisecond; case_match; lia).
  assert (Ht2 : t1 <= t2 < 2 ^ 62) by (unfold t2, defaultSIPTimerT2, Millisecond; repeat case_match; lia).
  assert (Ht4 : 0 < t4) by (unfold t4, defaultSIPTimerT4, Millisecond; case_match; lia).
  rewrite (to_i64_small (64 * t1)) by lia. destruct (is_invite (sipTransactionKindForMethod m)) eqn:Hk; cbn; rewrite ?Hk; split_and!; (done || lia).
Qed.
Lemma provisional_iff code : isSIPProvisionalResponse code = true <-> 100 <= code < 200.
Proof. unfold isSIPProvisionalResponse. lia. Qed.
Lemma success_iff code : isSIPSuccess code = true <-> 200 <= code < 300.
Proof. unfold isSIPSuccess. lia. Qed.
End machines.
(** The code of a response in the classes that the machines tell apart. *)
Lemma code_classes code : (isSIPProvisionalResponse code = true /\ 100 <= code < 200 /\ isSIPSuccess code = false /\ (200 <=? code) = false /\ (300 <=? code) = false /\ (code =? 0) = false)
  \/ (isSIPProvisionalResponse code = false /\ 200 <= code < 300 /\ isSIPSuccess code = true /\ (200 <=? code) = true /\ (300 <=? code) = false /\ (code =? 0) = false)
  \/ (isSIPProvisionalResponse code = false /\ 300 <= code /\ isSIPSuccess code = false /\ (200 <=? code) = true /\ (300 <=? code) = true /\ (code =? 0) = false)
  \/ (isSIPProvisionalResponse code = false /\ code < 100 /\ isSIPSuccess code = false /\ (200 <=? code) = false /\ (300 <=? code) = false).
Proof. unfold isSIPProvisionalResponse, isSIPSuccess. lia. Qed.
Definition client_matches (reliable budget : bool) (ev : option client_input) (step : SIPClientTransactionStep) : Prop :=
  let runs := rfc_client reliable budget (ct_Invite step) (ct_State step) in
  ct_Terminated step = client_is (ct_NextState step) SIPClientTransactionStateTerminated /\
  match ev with
  | None => client_outputs step = [] /\ ct_NextState step = ct_State step
  | Some ev => (forall outs st', runs ev outs st' -> outs = client_outputs step /\ st' = ct_NextState step)
      /\ (runs ev (client_outputs step) (ct_NextState step) \/ client_outputs step = [] /\ ct_NextState step = ct_State step)
  end.
Definition fresh_client (method : bytes) (invite : bool) (ev : SIPClientTransactionEvent) (st : SIPClientTransactionState) : SIPClientTransactionStep :=
  mkClientStep method invite ev st st SIPClientTransactionActionNone 0 false false false false false false false false false 0 0 "".
Ltac by_cases :=
  split; [reflexivity|]; split;
  [intros ? ? Hrun; inversion Hrun; clear Hrun; subst; first [split; reflexivity | exfalso; lia | exfalso; destruct_or!; congruence]
  |first [right; split; reflexivity | left; constructor; solve [reflexivity|left; reflexivity|right; reflexivity|lia]]].
Lemma client_response_matches method (invite : bool) ev st code reliable budget policy : st <> SIPClientTransactionStateTerminated -> (forall s, st <> SIPClientTransactionStateOther s) ->
  (if invite then st <> SIPClientTransactionStateTrying /\ 0 < tp_TimerD policy else st <> SIPClientTransactionStateCalling /\ 0 < tp_TimerK policy) ->
  client_matches reliable budget (Some (GotResponse code)) (advanceSIPClientTransactionResponse (fresh_client method invite ev st) code reliable policy).
Proof.
  intros Ht Ho Hst. unfold advanceSIPClientTransactionResponse, client_response_info, fresh_client. cbn [ct_Invite].
  destruct (code_classes code) as [(-> & Hc & -> & -> & -> & ->)|[(-> & Hc & -> & -> & -> & ->)|[(-> & Hc & -> & -> & -> & ->)|(-> & Hc & -> & -> & ->)]]];
    try destruct (Z.eqb_spec code 0) as [Hz|Hz]; destruct invite; destruct Hst as [Hst Htimer];
    unfold advanceSIPInviteClientTransactionResponse, advanceSIPNonInviteClientTransactionResponse, completeSIPClientTransaction;
    try (replace (tp_TimerD policy <=? 0) with false by lia); try (replace (tp_TimerK policy <=? 0) with false by lia);
    (destruct st; [| | | | |exfalso; eapply Ho; reflexivity]); try (exfalso; congruence); destruct reliable; cbv; by_cases.
Qed.
Ltac by_state st Ho := (destruct st; [| | | | |exfalso; eapply Ho; reflexivity]); try (exfalso; congruence).
Lemma client_timers_match method (invite : bool) ev st reliable last max done policy : st <> SIPClientTransactionStateTerminated -> (forall s, st <> SIPClientTransactionStateOther s) ->
  (if invite then st <> SIPClientTransactionStateTrying else st <> SIPClientTransactionStateCalling) ->
  let budget := shouldSIPRetransmit done max in
  client_matches reliable budget (Some RetransmitFires) (advanceSIPClientTransactionRetransmitTimer (fresh_client method invite ev st) reliable last max done policy)
  /\ client_matches reliable budget (Some TimeoutFires) (advanceSIPClientTransactionTimeoutTimer (fresh_client method invite ev st))
  /\ client_matches reliable budget (Some CleanupFires) (advanceSIPClientTransactionCleanupTimer (fresh_client method invite ev st))
  /\ client_matches reliable budget None (client_waits (fresh_client method invite ev st)).
Proof.
  intros Ht Ho Hst budget. unfold advanceSIPClientTransactionRetransmitTimer. fold budget. generalize budget. intros b. unfold fresh_client.
  destruct invite; by_state st Ho; destruct reliable, b; cbn [negb orb ct_Invite ct_State];
    cbv -[nextSIPRetransmitInterval Z.leb Z.ltb tp_T2 tp_TimerA tp_TimerE]; (split; [by_cases|]); (split; [by_cases|]); (split; [by_cases|split_and!; reflexivity]).
Qed.
Lemma normalized_client st method : let st' := normalizeSIPClientTransactionState st method in
  (forall s, st' <> SIPClientTransactionStateOther s)
  /\ (if is_invite (sipTransactionKindForMethod method) then st' <> SIPClientTransactionStateTrying else st' <> SIPClientTransactionStateCalling).
Proof.
  unfold normalizeSIPClientTransactionState, InitialSIPClientTransactionState. destruct (is_invite (sipTransactionKindForMethod method)); destruct st; cbn; (split; [intros ?; congruence|congruence]).
Qed.
Section refinement.
Context {U : UnicodeCase}.
(** A step of the client is one of the standard. *)
Lemma client_step_matches input : timers_ok (ci_TimerConfig input) ->
  client_matches (ci_ReliableTransport input) (shouldSIPRetransmit (ci_CompletedRetransmissions input) (ci_MaxRetransmits input)) (client_event input)
    (AdvanceSIPClientTransaction input).
Proof.
  intros Hcfg. destruct (policy_ok (ci_Method input) (ci_TimerConfig input) Hcfg) as (Hkind & HT1 & _ & HT4 & Htimers).
  unfold AdvanceSIPClientTransaction. set (policy := SIPTransactionTimerPolicyFor _ _) in *.
  destruct (normalized_client (ci_State input) (tp_Method policy)) as (Ho & Hst). rewrite <- Hkind in Hst. set (st := normalizeSIPClientTransactionState _ _) in *. clearbody st policy.
  set (ev := match ci_Event input with SIPClientTransactionEventOther [] => _ | e => e end). cbv zeta. fold (fresh_client (tp_Method policy) (tp_Invite policy) ev st).
  destruct (client_is st SIPClientTransactionStateTerminated) eqn:Hterm.
  { assert (st = SIPClientTransactionStateTerminated) as -> by by destruct st. unfold fresh_client. destruct (client_event input) as [e|]; [|split_and!; reflexivity].
    split; [reflexivity|]. split; [|right; split; reflexivity]. intros outs st' Hrun. cbv in Hrun. exfalso. destruct (tp_Invite policy); inversion Hrun; subst; destruct_or!; congruence. }
  assert (Ht : st <> SIPClientTransactionStateTerminated) by by intros ->.
  pose proof (fun ev => client_timers_match (tp_Method policy) (tp_Invite policy) ev st (ci_ReliableTransport input) (ci_LastRetransmitInterval input) (ci_MaxRetransmits input)
    (ci_CompletedRetransmissions input) policy Ht Ho Hst) as Htm. cbv zeta in Htm.
  assert (Hresp : client_matches (ci_ReliableTransport input) (shouldSIPRetransmit (ci_CompletedRetransmissions input) (ci_MaxRetransmits input)) (Some (GotResponse (ci_Response input)))
    (advanceSIPClientTransactionResponse (fresh_client (tp_Method policy) (tp_Invite policy) ev st) (ci_Response input) (ci_ReliableTransport input) policy)).
  { apply client_response_matches; [done..|]. destruct (tp_Invite policy); split; try done; lia. }
  unfold client_event. unfold ev in *. destruct (ci_Event input) as [| | | |[|b s]]; try done; apply Htm.
Qed.
(** C33: the client machine is the one of RFC 3261 (figures 5 and 6), except that it sends no request again once the number of retransmissions allowed is used up: for every event, in every state it
    normalises to, it makes the outputs (response to the user, ACK, retransmission,
    timeout) and the transition of the standard, and where the standard has no transition it
    changes nothing; it says that it terminated exactly when it did. *)
Theorem client_refines_rfc3261 input : timers_ok (ci_TimerConfig input) ->
  client_matches (ci_ReliableTransport input) (shouldSIPRetransmit (ci_CompletedRetransmissions input) (ci_MaxRetransmits input)) (client_event input)
    (AdvanceSIPClientTransaction input).
Proof. apply client_step_matches. Qed.
End refinement.

(** ** The server machine *)
Definition server_matches (reliable : bool) (cached : Z) (ev : option server_input) (step : SIPServerTransactionStep) : Prop :=
  let runs := rfc_server reliable cached (st_Invite step) (st_State step) in
  st_Terminated step = server_is (st_NextState step) SIPServerTransactionStateTerminated /\
  st_DeliverACK step = hands_over_ack (st_Invite step) (st_State step) ev /\
  match ev with
  | None => standard_outputs cached step = [] /\ st_NextState step = st_State step
  | Some ev => (forall outs st', runs ev outs st' -> outs = standard_outputs cached step /\ st' = st_NextState step)
      /\ (runs ev (standard_outputs cached step) (st_NextState step) \/ standard_outputs cached step = [] /\ st_NextState step = st_State step)
  end.
Definition fresh_server (method : bytes) (invite : bool) (ev : SIPServerTransactionEvent) (st : SIPServerTransactionState) : SIPServerTransactionStep :=
  mkServerStep method invite ev st st SIPServerTransactionActionNone 0 false false false false false false false false false false 0 0 0 "".
Definition server_state_ok (invite : bool) (st : SIPServerTransactionState) : Prop :=
  st <> SIPServerTransactionStateTerminated /\ (forall s, st <> SIPServerTransactionStateOther s)
  /\ (if invite then st <> SIPServerTransactionStateTrying else st <> SIPServerTransactionStateConfirmed).
Ltac server_by_state st H := destruct H as (? & Ho & ?); (destruct st; [| | | | |exfalso; eapply Ho; reflexivity]); try (exfalso; congruence).
Ltac server_cases :=
  split; [reflexivity|]; split; [reflexivity|]; split;
  [intros ? ? Hrun; inversion Hrun; clear Hrun; subst; first [split; reflexivity | exfalso; lia | exfalso; destruct_or!; first [congruence | lia | naive_solver lia]]
  |first [right; split; reflexivity | left; constructor; solve [reflexivity|left; reflexivity|right; reflexivity|lia|left; split; [reflexivity|lia]]]].
Lemma server_response_matches method (invite : bool) ev st code reliable policy : server_state_ok invite st -> 0 < tp_TimerJ policy \/ invite = true ->
  server_matches reliable code (Some (UserResponds code)) (advanceSIPServerTransactionResponse (fresh_server method invite ev st) code reliable policy).
Proof.
  intros Hst Htimer. unfold advanceSIPServerTransactionResponse, applySIPServerTransactionResponseInfo, fresh_server. cbn [st_Invite st_StatusCode].
  destruct (code_classes code) as [(-> & Hc & -> & -> & -> & ->)|[(-> & Hc & -> & -> & -> & ->)|[(-> & Hc & -> & -> & -> & ->)|(-> & Hc & -> & -> & ->)]]];
    try destruct (Z.eqb_spec code 0) as [Hz|Hz]; destruct invite;
    unfold advanceSIPInviteServerTransactionResponse, advanceSIPNonInviteServerTransactionResponse, completeSIPInviteServerTransaction;
    try (replace (tp_TimerJ policy <=? 0) with false by (destruct Htimer; [lia|congruence]));
    server_by_state st Hst; destruct reliable; try destruct (0 <? tp_TimerG policy); cbv -[tp_TimerG tp_TimerH tp_TimerJ]; server_cases.
Qed.
Lemma server_request_matches method (invite : bool) ev st cached reliable again : server_state_ok invite st ->
  server_matches reliable cached (Some (GotRequest again)) (advanceSIPServerTransactionRequest (fresh_server method invite ev st) cached again).
Proof.
  intros Hst. unfold advanceSIPServerTransactionRequest, applySIPServerTransactionResponseInfo, fresh_server. cbn [st_Invite st_StatusCode st_State].
  destruct again, invite; cbn [negb]; destruct (Z.ltb_spec 0 cached) as [Hc|Hc]; server_by_state st Hst; cbv -[isSIPProvisionalResponse isSIPSuccess Z.leb]; server_cases.
Qed.
Lemma server_timers_match method (invite : bool) ev st reliable cached last policy : server_state_ok invite st -> 0 < tp_TimerI policy \/ invite = false ->
  server_matches reliable cached (Some GotAck) (advanceSIPServerTransactionACK (fresh_server method invite ev st) reliable policy)
  /\ server_matches reliable cached (Some ServerRetransmitFires) (advanceSIPServerTransactionRetransmitTimer (fresh_server method invite ev st) reliable cached last policy)
  /\ server_matches reliable cached (Some ServerTimeoutFires) (advanceSIPServerTransactionTimeoutTimer (fresh_server method invite ev st))
  /\ server_matches reliable cached (Some ServerCleanupFires) (advanceSIPServerTransactionCleanupTimer (fresh_server method invite ev st))
  /\ server_matches reliable cached None (server_waits (fresh_server method invite ev st)).
Proof.
  intros Hst Htimer. unfold advanceSIPServerTransactionACK, advanceSIPServerTransactionRetransmitTimer, applySIPServerTransactionResponseInfo, fresh_server. cbn [st_Invite st_State st_Failure].
  destruct (Z.leb_spec 300 cached) as [Hc|Hc]; destruct invite; try (replace (tp_TimerI policy <=? 0) with false by (destruct Htimer; [lia|congruence]));
    server_by_state st Hst; destruct reliable; cbn [negb orb];
    cbv -[nextSIPRetransmitInterval isSIPProvisionalResponse isSIPSuccess Z.leb Z.ltb tp_T2 tp_TimerG tp_TimerI tp_TimerH];
    (split; [server_cases|]); (split; [server_cases|]); (split; [server_cases|]); (split; [server_cases|split_and!; reflexivity]).
Qed.
Lemma normalized_server st method : let st' := normalizeSIPServerTransactionState st method in
  (forall s, st' <> SIPServerTransactionStateOther s)
  /\ (if is_invite (sipTransactionKindForMethod method) then st' <> SIPServerTransactionStateTrying else st' <> SIPServerTransactionStateConfirmed).
Proof.
  unfold normalizeSIPServerTransactionState, InitialSIPServerTransactionState. destruct (is_invite (sipTransactionKindForMethod method)); destruct st; cbn; (split; [intros ?; congruence|congruence]).
Qed.
Section server_refinement.
Context {U : UnicodeCase}.
(** A step of the server is one of the standard. *)
Lemma server_step_matches input : timers_ok (si_TimerConfig input) ->
  server_matches (si_ReliableTransport input) (si_Response input) (server_event input) (AdvanceSIPServerTransaction input).
Proof.
  intros Hcfg. destruct (policy_ok (si_Method input) (si_TimerConfig input) Hcfg) as (Hkind & HT1 & _ & HT4 & Htimers).
  unfold AdvanceSIPServerTransaction. set (policy := SIPTransactionTimerPolicyFor _ _) in *.
  destruct (normalized_server (si_State input) (tp_Method policy)) as (Ho & Hst). rewrite <- Hkind in Hst. set (st := normalizeSIPServerTransactionState _ _) in *. clearbody st policy.
  set (ev := match si_Event input with SIPServerTransactionEventOther [] => _ | e => e end). cbv zeta. fold (fresh_server (tp_Method policy) (tp_Invite policy) ev st).
  destruct (server_is st SIPServerTransactionStateTerminated) eqn:Hterm.
  { assert (st = SIPServerTransactionStateTerminated) as -> by by destruct st. unfold fresh_server. destruct (server_event input) as [e|]; [|split_and!; reflexivity].
    split; [reflexivity|]. split; [cbn; destruct e; try reflexivity; apply eq_sym, andb_false_r|]. split; [|right; split; reflexivity]. intros outs st' Hrun. cbv in Hrun. exfalso. destruct (tp_Invite policy); inversion Hrun; destruct_or!; naive_solver congruence. }
  assert (Hok : server_state_ok (tp_Invite policy) st) by (split; [by intros ->|done]).
  assert (HI : 0 < tp_TimerI policy \/ tp_Invite policy = false) by (destruct (tp_Invite policy); [left; lia|by right]).
  assert (HJ : 0 < tp_TimerJ policy \/ tp_Invite policy = true) by (destruct (tp_Invite policy); [by right|left; lia]).
  pose proof (fun ev => server_timers_match (tp_Method policy) (tp_Invite policy) ev st (si_ReliableTransport input) (si_Response input) (si_LastRetransmitInterval input) policy Hok HI) as Htm.
  pose proof (fun ev => server_response_matches (tp_Method policy) (tp_Invite policy) ev st (si_Response input) (si_ReliableTransport input) policy Hok HJ) as Hresp.
  pose proof (fun ev => server_request_matches (tp_Method policy) (tp_Invite policy) ev st (si_Response input) (si_ReliableTransport input) (si_RequestRetransmission input) Hok) as Hreq.
  unfold server_event. unfold ev in *. destruct (si_Event input) as [| | | | | |[|b s]]; first [apply Hreq|apply Hresp|apply Htm].
Qed.
(** C34: the server machine is the one of RFC 3261 (figures 7 and 8) with one addition: for every event, in every state it
    normalises to, its outputs other than ACKs to the user (request to the user, response sent or
    sent again, timeout) and its transition are those of the standard, and where the standard has no
    transition it makes no output and stays where it is.  The addition: it hands the user the ACK that takes an INVITE transaction out of
    Completed, for which figure 7 has no action, and no other ACK.  It says that it terminated exactly when it
    did.  (The first request is the one that the caller does not mark as a repetition.) *)
Theorem server_refines_rfc3261 input : timers_ok (si_TimerConfig input) ->
  server_matches (si_ReliableTransport input) (si_Response input) (server_event input) (AdvanceSIPServerTransaction input).
Proof. apply server_step_matches. Qed.
End server_refinement.

(** ** A client and a server over a network that loses, repeats and reorders *)
Section network.
Context {U : UnicodeCase}.
Variables (method : bytes) (cfg : SIPTransactionTimerConfig) (reliable : bool).
Record network := mkNetwork {
  nw_client : SIPClientTransactionState;
  nw_server : option SIPServerTransactionState; (* none before the request has come *)
  nw_cached : Z; (* the last response that the server sent, 0 before *)
  nw_responses : list Z; (* the responses sent so far: each may come any number of times, or never *)
  nw_ack : bool; (* an ACK was sent *)
  nw_client_user : list client_output; (* what the user of the client was told *)
  nw_server_user : list server_output
}.
Inductive network_event :=
| RequestArrives | ResponseArrives (code : Z) | AckArrives | ServerUserResponds (code : Z)
| ClientTimer (ev : SIPClientTransactionEvent) (last max done : Z) | ServerTimer (ev : SIPServerTransactionEvent) (last : Z).
Definition client_tells (o : client_output) : bool := match o with ToUser _ | TimeoutTold => true | AckSent | RequestSent => false end.
Definition server_tells (o : server_output) : bool := match o with RequestToUser | AckToUser | ServerTimeoutTold => true | ResponseSent _ => false end.
Definition codes_sent (outs : list server_output) : list Z := omap (fun o => match o with ResponseSent code => Some code | _ => None end) outs.
Definition client_does (n : network) (ev : SIPClientTransactionEvent) (code last max done : Z) : network :=
  let step := AdvanceSIPClientTransaction (mkClientInput method (nw_client n) ev code reliable last cfg max done) in
  mkNetwork (ct_NextState step) (nw_server n) (nw_cached n) (nw_responses n) (nw_ack n || ct_SendAck step)
    (nw_client_user n ++ List.filter client_tells (client_outputs step)) (nw_server_user n).
Definition server_does (n : network) (st : SIPServerTransactionState) (ev : SIPServerTransactionEvent) (code : Z) (again : bool) (interval : Z) : network :=
  let step := AdvanceSIPServerTransaction (mkServerInput method st ev code reliable again interval cfg) in
  mkNetwork (nw_client n) (Some (st_NextState step)) (default (nw_cached n) (last (codes_sent (server_outputs code step))))
    (nw_responses n ++ codes_sent (server_outputs code step)) (nw_ack n) (nw_client_user n) (nw_server_user n ++ List.filter server_tells (server_outputs code step)).
(** An event that cannot be (a response that was not sent) is none. *)
Definition network_step (n : network) (e : network_event) : option network :=
  match e with
  | RequestArrives =>
      match nw_server n with
      | None => Some (server_does n (InitialSIPServerTransactionState method) SIPServerTransactionEventRequest 0 false 0)
      | Some st => Some (server_does n st SIPServerTransactionEventRequest (nw_cached n) true 0)
      end
  | ResponseArrives code => if bool_decide (code ∈ nw_responses n) then Some (client_does n SIPClientTransactionEventResponse code 0 0 0) else None
  | AckArrives => match nw_server n with Some st => if nw_ack n then Some (server_does n st SIPServerTransactionEventACK (nw_cached n) false 0) else None | None => None end
  | ServerUserResponds code => match nw_server n with Some st => Some (server_does n st SIPServerTransactionEventResponse code false 0) | None => None end
  | ClientTimer ev last max done =>
      match ev with
      | SIPClientTransactionEventRetransmitTimer | SIPClientTransactionEventTimeoutTimer | SIPClientTransactionEventCleanupTimer => Some (client_does n ev 0 last max done)
      | _ => None
      end
  | ServerTimer ev last =>
      match ev, nw_server n with
      | SIPServerTransactionEventRetransmitTimer, Some st | SIPServerTransactionEventTimeoutTimer, Some st | SIPServerTransactionEventCleanupTimer, Some st =>
          Some (server_does n st ev (nw_cached n) false last)
      | _, _ => None
      end
  end.
Fixpoint network_run (n : network) (es : list network_event) : option network :=
  match es with [] => Some n | e :: es => match network_step n e with Some n' => network_run n' es | None => None end end.
Definition network0 : network := mkNetwork (InitialSIPClientTransactionState method) None 0 [] false [] [].
End network.
Section agreement.
Context {U : UnicodeCase}.
Variables (method : bytes) (cfg : SIPTransactionTimerConfig) (reliable : bool).
Definition wire_method : bytes := strings_ToUpper (TrimSpace method).
Definition invites : bool := is_invite (sipTransactionKindForMethod wire_method).
Definition provisional (code : Z) : Prop := 100 <= code < 200.
Definition told (user : list client_output) (last : list client_output) : Prop :=
  exists codes, Forall provisional codes /\ user = (ToUser <$> codes) ++ last /\ (last = [] \/ last = [TimeoutTold] \/ exists f, last = [ToUser f] /\ 200 <= f).
Definition client_inv (st : SIPClientTransactionState) (user : list client_output) (ack : bool) : Prop :=
  (exists last, told user last /\
    match st with
    | SIPClientTransactionStateCompleted => exists f, last = [ToUser f] /\ (invites = true -> 300 <= f)
    | SIPClientTransactionStateTerminated => last <> []
    | _ => last = []
    end) /\ (ack = true -> exists f, ToUser f ∈ user /\ 300 <= f).
Definition one_final (rs : list Z) : Prop := exists f, 200 <= f /\ f ∈ rs /\ Forall (fun r => provisional r \/ r = f) rs.
Definition server_inv (st : SIPServerTransactionState) (cached : Z) (rs : list Z) (user : list server_output) : Prop :=
  (cached = 0 \/ cached ∈ rs) /\
  match st with
  | SIPServerTransactionStateCompleted => one_final rs /\ user = [RequestToUser] /\ 200 <= cached
  | SIPServerTransactionStateConfirmed => one_final rs /\ user = [RequestToUser; AckToUser] /\ invites = true
  | SIPServerTransactionStateTerminated => one_final rs /\ (user = [RequestToUser] \/ user = [RequestToUser; AckToUser] \/ user = [RequestToUser; ServerTimeoutTold])
  | _ => Forall provisional rs /\ user = [RequestToUser]
  end.
Definition client_core (s : SIPClientTransactionStep) : bool * SIPClientTransactionState := (ct_Invite s, ct_State s).
Definition server_core (s : SIPServerTransactionStep) : bool * SIPServerTransactionState := (st_Invite s, st_State s).
Ltac by_branches := cbv zeta; try reflexivity; repeat (case_match; try reflexivity).
Lemma client_advance_core input : client_core (AdvanceSIPClientTransaction input)
  = (tp_Invite (SIPTransactionTimerPolicyFor (ci_Method input) (ci_TimerConfig input)),
     normalizeSIPClientTransactionState (ci_State input) (tp_Method (SIPTransactionTimerPolicyFor (ci_Method input) (ci_TimerConfig input)))).
Proof.
  unfold AdvanceSIPClientTransaction. set (policy := SIPTransactionTimerPolicyFor _ _). set (st := normalizeSIPClientTransactionState _ _). set (ev := match ci_Event input with SIPClientTransactionEventOther [] => _ | e => e end). clearbody policy st ev. cbv zeta.
  fold (fresh_client (tp_Method policy) (tp_Invite policy) ev st). set (fresh := fresh_client _ _ _ _). assert (Hcore : client_core fresh = (tp_Invite policy, st)) by done. rewrite <- Hcore. clearbody fresh. clear Hcore.
  destruct (client_is st _); [reflexivity|]. destruct ev; unfold advanceSIPClientTransactionResponse, advanceSIPInviteClientTransactionResponse, advanceSIPNonInviteClientTransactionResponse,
    completeSIPClientTransaction, advanceSIPClientTransactionRetransmitTimer, advanceSIPClientTransactionTimeoutTimer, advanceSIPClientTransactionCleanupTimer; by_branches.
Qed.
Lemma server_advance_core input : server_core (AdvanceSIPServerTransaction input)
  = (tp_Invite (SIPTransactionTimerPolicyFor (si_Method input) (si_TimerConfig input)),
     normalizeSIPServerTransactionState (si_State input) (tp_Method (SIPTransactionTimerPolicyFor (si_Method input) (si_TimerConfig input)))).
Proof.
  unfold AdvanceSIPServerTransaction. set (policy := SIPTransactionTimerPolicyFor _ _). set (st := normalizeSIPServerTransactionState _ _). set (ev := match si_Event input with SIPServerTransactionEventOther [] => _ | e => e end). clearbody policy st ev. cbv zeta.
  fold (fresh_server (tp_Method policy) (tp_Invite policy) ev st). set (fresh := fresh_server _ _ _ _). assert (Hcore : server_core fresh = (tp_Invite policy, st)) by done. rewrite <- Hcore. clearbody fresh. clear Hcore.
  destruct (server_is st _); [reflexivity|]. destruct ev; unfold advanceSIPServerTransactionRequest, advanceSIPServerTransactionResponse, advanceSIPInviteServerTransactionResponse,
    advanceSIPNonInviteServerTransactionResponse, completeSIPInviteServerTransaction, advanceSIPServerTransactionACK, advanceSIPServerTransactionRetransmitTimer,
    advanceSIPServerTransactionTimeoutTimer, advanceSIPServerTransactionCleanupTimer; by_branches.
Qed.
Lemma wire_policy c : tp_Method (SIPTransactionTimerPolicyFor method c) = wire_method /\ tp_Invite (SIPTransactionTimerPolicyFor method c) = invites.
Proof.
  unfold SIPTransactionTimerPolicyFor, invites. fold wire_method. by destruct (is_invite (sipTransactionKindForMethod wire_method)).
Qed.
Lemma client_step_facts st ev code last max done :
  let step := AdvanceSIPClientTransaction (mkClientInput method st ev code reliable last cfg max done) in
  ct_Invite step = invites /\ ct_State step = normalizeSIPClientTransactionState st wire_method.
Proof.
  intros step. pose proof (client_advance_core (mkClientInput method st ev code reliable last cfg max done)) as H. fold step in H. unfold client_core in H. cbn in H.
  destruct (wire_policy cfg) as [Hm Hi]. rewrite Hm, Hi in H. by injection H.
Qed.
Lemma server_step_facts st ev code again last :
  let step := AdvanceSIPServerTransaction (mkServerInput method st ev code reliable again last cfg) in
  st_Invite step = invites /\ st_State step = normalizeSIPServerTransactionState st wire_method.
Proof.
  intros step. pose proof (server_advance_core (mkServerInput method st ev code reliable again last cfg)) as H. fold step in H. unfold server_core in H. cbn in H.
  destruct (wire_policy cfg) as [Hm Hi]. rewrite Hm, Hi in H. by injection H.
Qed.
Hypothesis Hcfg : timers_ok cfg.
(** One step of the client, whatever it was told before. *)
Lemma client_inv_normal st user ack : client_inv st user ack -> client_inv (normalizeSIPClientTransactionState st wire_method) user ack.
Proof. unfold normalizeSIPClientTransactionState, InitialSIPClientTransactionState. destruct st; try done; by destruct (is_invite _). Qed.
Definition acked (outs : list client_output) : bool := existsb (fun o => match o with AckSent => true | _ => false end) outs.
Lemma inv_provisional st user ack code : client_inv st user ack -> (exists codes, Forall provisional codes /\ user = ToUser <$> codes) -> provisional code ->
  client_inv SIPClientTransactionStateProceeding (user ++ [ToUser code]) ack.
Proof.
  intros [_ Hack] (codes & Hcodes & ->) Hp. split.
  - exists []. split; [|done]. exists (codes ++ [code]). split_and!; [by apply Forall_app_2; [|apply Forall_singleton]|by rewrite fmap_app, app_nil_r|by left].
  - intros Ha. destruct (Hack Ha) as (f & Hf & Hf3). exists f. rewrite elem_of_app. tauto.
Qed.
Lemma inv_last st st' user ack ack' x : client_inv st user ack -> (exists codes, Forall provisional codes /\ user = ToUser <$> codes) ->
  x = TimeoutTold /\ st' = SIPClientTransactionStateTerminated /\ ack' = ack
  \/ (exists f, x = ToUser f /\ 200 <= f /\ (st' = SIPClientTransactionStateTerminated \/ st' = SIPClientTransactionStateCompleted /\ (invites = true -> 300 <= f))
        /\ (ack' = true -> ack = true \/ 300 <= f)) ->
  client_inv st' (user ++ [x]) ack'.
Proof.
  intros [_ Hack] (codes & Hcodes & ->) Hx. split.
  - exists [x]. split.
    + exists codes. split_and!; [done|done|]. destruct Hx as [(-> & _)|(f & -> & Hf & _)]; [right; by left|right; right; by exists f].
    + destruct Hx as [(_ & -> & _)|(f & -> & _ & [-> | [-> Hf]] & _)]; [done..|by exists f].
  - intros Ha. assert (Hcase : ack = true \/ exists f, x = ToUser f /\ 300 <= f).
    { destruct Hx as [(_ & _ & <-)|(f & -> & _ & _ & Hf)]; [by left|]. destruct (Hf Ha) as [H|H]; [by left|right; by exists f]. }
    destruct Hcase as [Ha'|(f & -> & Hf)]; [destruct (Hack Ha') as (f & Hf & Hf3)|]; exists f; rewrite elem_of_app; [tauto|]. split; [right; by apply list_elem_of_singleton|done].
Qed.
Lemma client_rule_keeps budget st ev outs st' user ack : rfc_client reliable budget invites st ev outs st' -> client_inv st user ack ->
  client_inv st' (user ++ List.filter client_tells outs) (ack || acked outs).
Proof.
  intros Hrun Hinv. pose proof Hinv as [(last & (codes & Hcodes & Huser & Hlast) & Hst) Hack].
  assert (Hopen : (st = SIPClientTransactionStateCalling \/ st = SIPClientTransactionStateTrying \/ st = SIPClientTransactionStateProceeding) ->
    exists codes, Forall provisional codes /\ user = ToUser <$> codes).
  { intros Hopen. exists codes. split; [done|]. rewrite Huser. replace last with (@nil client_output) by (destruct Hopen as [-> | [-> | ->]]; done). apply app_nil_r. }
  inversion Hrun; cbn [List.filter client_tells acked existsb orb]; rewrite ?orb_false_r, ?orb_true_r, ?app_nil_r; unfold after_final.
  - eapply inv_provisional; [done|apply Hopen; tauto|done].
  - eapply inv_last; [done|apply Hopen; tauto|]. right. exists code. split_and!; [done|lia|by left|by left].
  - eapply inv_last; [done|apply Hopen; tauto|]. right. exists code. split_and!; [done|lia|destruct reliable; [by left|right; split; [done|lia]]|intros _; right; lia].
  - subst. split; [exists last; split; [by exists codes|done]|]. intros _. destruct Hst as (f & -> & Hf). exists f. split; [|by apply Hf]. rewrite elem_of_app. right. by apply list_elem_of_singleton.
  - by subst.
  - subst. eapply inv_last; [done|apply Hopen; tauto|]. by left.
  - subst. split; [|done]. exists last. split; [by exists codes|]. destruct Hst as (f & -> & _). done.
  - eapply inv_provisional; [done|apply Hopen; tauto|done].
  - eapply inv_last; [done|apply Hopen; tauto|]. right. exists code. split_and!; [done|lia|destruct reliable; [by left|right; split; [done|congruence]]|by left].
  - by subst.
  - eapply inv_last; [done|apply Hopen; tauto|]. by left.
  - subst. split; [|done]. exists last. split; [by exists codes|]. destruct Hst as (f & -> & _). done.
Qed.
Lemma tells_what_came budget invite st ev outs st' c : rfc_client reliable budget invite st ev outs st' -> ToUser c ∈ outs -> ev = GotResponse c.
Proof. destruct 1; rewrite ?elem_of_cons, elem_of_nil; intros Hc; repeat destruct Hc as [Hc|Hc]; try done; by injection Hc as ->. Qed.
Lemma client_step_keeps st ev code last max done user ack :
  let input := mkClientInput method st ev code reliable last cfg max done in let step := AdvanceSIPClientTransaction input in
  client_inv st user ack ->
  client_inv (ct_NextState step) (user ++ List.filter client_tells (client_outputs step)) (ack || ct_SendAck step)
  /\ (forall c, ToUser c ∈ client_outputs step -> client_event input = Some (GotResponse c)).
Proof.
  intros input step Hinv. pose proof (client_step_matches input Hcfg) as (_ & Hstep). fold step in Hstep. destruct (client_step_facts st ev code last max done) as [Hi Hs]. fold input step in Hi, Hs.
  rewrite Hi, Hs in Hstep. apply client_inv_normal in Hinv.
  assert (Hack : ct_SendAck step = acked (client_outputs step)).
  { unfold client_outputs, acked. by destruct (ct_DeliverResponse step), (ct_SendAck step), (ct_RetransmitRequest step), (ct_TimedOut step). }
  rewrite Hack. assert (Hnone : client_outputs step = [] /\ ct_NextState step = normalizeSIPClientTransactionState st wire_method ->
    client_inv (ct_NextState step) (user ++ List.filter client_tells (client_outputs step)) (ack || acked (client_outputs step)) /\
    (forall c, ToUser c ∈ client_outputs step -> client_event input = Some (GotResponse c))).
  { intros [-> ->]. cbn. rewrite app_nil_r, orb_false_r. split; [done|]. intros c Hc. by apply not_elem_of_nil in Hc. }
  destruct (client_event input) as [e|]; [|by apply Hnone]. destruct Hstep as [_ [Hrun|Hno]]; [|by apply Hnone].
  split; [by eapply client_rule_keeps|]. intros c Hc. f_equal. by eapply tells_what_came.
Qed.
(** One step of the server; a request that came before, or another event. *)
Definition cached_after (cached : Z) (outs : list server_output) : Z := default cached (last (codes_sent outs)).
Lemma in_snoc (rs : list Z) code : code ∈ rs ++ [code].
Proof. rewrite elem_of_app, elem_of_cons. tauto. Qed.
Lemma in_snoc_l (rs : list Z) code c : c ∈ rs -> c ∈ rs ++ [code].
Proof. rewrite elem_of_app. tauto. Qed.
Lemma provisional_snoc rs code : Forall provisional rs -> provisional code -> Forall provisional (rs ++ [code]).
Proof. intros. apply Forall_app_2; [done|by apply Forall_singleton]. Qed.
Lemma one_final_more rs code : one_final rs -> code ∈ rs -> one_final (rs ++ [code]).
Proof.
  intros (f & Hf & Hin & Hall) Hc. exists f. split_and!; [done|by apply in_snoc_l|]. apply Forall_app_2; [done|]. apply Forall_singleton. rewrite Forall_forall in Hall. by apply Hall.
Qed.
Lemma one_final_new rs code : Forall provisional rs -> 200 <= code -> one_final (rs ++ [code]).
Proof.
  intros Hrs Hc. exists code. split_and!; [done|apply in_snoc|]. apply Forall_app_2; [|apply Forall_singleton; by right]. eapply Forall_impl; [done|]. intros r Hr. by left.
Qed.
Lemma server_inv_normal st cached rs user : server_inv st cached rs user -> server_inv (normalizeSIPServerTransactionState st wire_method) cached rs user.
Proof.
  unfold normalizeSIPServerTransactionState, InitialSIPServerTransactionState. fold invites. destruct invites eqn:Hi; destruct st; intros H; try exact H.
  destruct H as (_ & _ & _ & H). congruence.
Qed.
Lemma server_rule_keeps resp st ev outs0 st' cached rs user : rfc_server reliable resp invites st ev outs0 st' -> ev <> GotRequest false ->
  (match ev with UserResponds code => True | _ => resp = cached end) -> server_inv st cached rs user ->
  let outs := outs0 ++ (if hands_over_ack invites st (Some ev) then [AckToUser] else []) in
  server_inv st' (cached_after cached outs) (rs ++ codes_sent outs) (user ++ List.filter server_tells outs).
Proof.
  intros Hrun Hev Hresp [Hcached Hst] outs. unfold outs, cached_after, hands_over_ack. inversion Hrun; subst; cbn [server_is app]; rewrite ?app_nil_r;
    try (match goal with H : true = invites |- context [invites && true] => rewrite <- H end); cbn [andb List.filter server_tells codes_sent omap list_omap last default]; rewrite ?app_nil_r; unfold id; try (subst resp); try done.
  - destruct Hcached as [->|Hin]; [exfalso; destruct H0 as [[_ ?]| ->]; [lia|]; destruct Hst as (_ & _ & ?); lia|].
    destruct H0 as [[-> Hpos]| ->].
    + split; [right; apply in_snoc|]. destruct Hst as [Hrs Huser]. split; [|done]. apply provisional_snoc; [done|]. rewrite Forall_forall in Hrs. by apply Hrs.
    + split; [right; apply in_snoc|]. destruct Hst as (Hrs & Huser & Hc). split_and!; [by apply one_final_more|done|done].
  - destruct Hcached as [->|Hin]; [lia|]. split; [right; apply in_snoc|]. destruct H0 as [-> | ->].
    + destruct Hst as [Hrs Huser]. split; [|done]. apply provisional_snoc; [done|]. rewrite Forall_forall in Hrs. by apply Hrs.
    + destruct Hst as (Hrs & Huser & Hc). split_and!; [by apply one_final_more|done|done].
  - split; [right; apply in_snoc|]. destruct Hst as [Hrs Huser]. split; [by apply provisional_snoc|done].
  - split; [right; apply in_snoc|]. destruct Hst as [Hrs Huser]. split; [apply one_final_new; [done|lia]|by left].
  - split; [right; apply in_snoc|]. destruct Hst as [Hrs Huser]. split_and!; [apply one_final_new; [done|lia]|done|lia].
  - destruct Hst as (Hrs & -> & Hc). destruct reliable; (split; [done|]); split_and!; try done. right. by left.
  - destruct Hst as (Hrs & Huser & Hc). destruct Hcached as [->|Hin]; [lia|]. split; [right; apply in_snoc|]. split_and!; [by apply one_final_more|done|done].
  - destruct Hst as (Hrs & -> & Hc). split; [done|]. split; [done|]. right. by right.
  - destruct Hst as (Hrs & -> & _). split; [done|]. split; [done|]. right. by left.
  - split; [right; apply in_snoc|]. assert (Hopen : Forall provisional rs /\ user = [RequestToUser]) by (destruct H0 as [-> | ->]; done). destruct Hopen as [Hrs Huser]. split; [by apply provisional_snoc|done].
  - assert (Hopen : Forall provisional rs /\ user = [RequestToUser]) by (destruct H0 as [-> | ->]; done). destruct Hopen as [Hrs Huser].
    unfold after_other_final. destruct reliable; (split; [right; apply in_snoc|]); split_and!; try done; try lia; try (by apply one_final_new); by left.
  - destruct Hst as (Hrs & -> & _). split; [done|]. split; [done|]. by left.
Qed.
Lemma standard_no_ack cached step : AckToUser ∉ standard_outputs cached step.
Proof. unfold standard_outputs. by destruct (st_PassRequest step), (st_SendResponse step), (st_RetransmitResponse step), (st_TimedOut step); cbn; set_unfold; naive_solver. Qed.
Lemma ack_came cached step ev : st_DeliverACK step = hands_over_ack (st_Invite step) (st_State step) ev -> AckToUser ∈ server_outputs cached step -> ev = Some GotAck.
Proof.
  unfold server_outputs. intros E [H|H]%elem_of_app; [by apply standard_no_ack in H|]. rewrite E in H. unfold hands_over_ack in H. destruct ev as [[]|]; try (by apply not_elem_of_nil in H). done.
Qed.
Definition event_of_server (ev : SIPServerTransactionEvent) (code : Z) (again : bool) : option server_input :=
  server_event (mkServerInput method SIPServerTransactionStateTrying ev code reliable again 0 cfg).
Lemma server_step_keeps st ev code again interval cached rs user :
  let step := AdvanceSIPServerTransaction (mkServerInput method st ev code reliable again interval cfg) in
  event_of_server ev code again <> Some (GotRequest false) ->
  (match event_of_server ev code again with Some (UserResponds _) => True | _ => code = cached end) ->
  server_inv st cached rs user ->
  server_inv (st_NextState step) (cached_after cached (server_outputs code step)) (rs ++ codes_sent (server_outputs code step))
    (user ++ List.filter server_tells (server_outputs code step))
  /\ (AckToUser ∈ server_outputs code step -> event_of_server ev code again = Some GotAck).
Proof.
  intros step Hev Hcode Hinv. pose proof (server_step_matches (mkServerInput method st ev code reliable again interval cfg) Hcfg) as (_ & Hgot & Hstep). fold step in Hstep, Hgot.
  pose proof (ack_came code step _ Hgot) as Hcame.
  change (server_event (mkServerInput method st ev code reliable again interval cfg)) with (event_of_server ev code again) in Hstep.
  destruct (server_step_facts st ev code again interval) as [Hi Hs]. fold step in Hi, Hs. rewrite Hi, Hs in Hstep, Hgot. apply server_inv_normal in Hinv. cbn [si_Response si_ReliableTransport] in Hstep.
  split; [|exact Hcame]. unfold server_outputs. rewrite Hgot.
  change (server_event (mkServerInput method st ev code reliable again interval cfg)) with (event_of_server ev code again).
  set (st0 := normalizeSIPServerTransactionState st wire_method) in *. destruct (event_of_server ev code again) as [e|].
  - destruct Hstep as [Hall Hone]. destruct Hone as [Hrun|[Houts Hnext]]; [apply (server_rule_keeps code st0 e); [done|congruence|by destruct e|done]|].
    assert (Hno : hands_over_ack invites st0 (Some e) = false).
    { destruct e; try done. cbn. destruct invites eqn:Hi'; [|done]. destruct st0 eqn:Hst0; try done. destruct (Hall _ _ (invite_ack _ _)) as [_ Hn]. rewrite Hnext in Hn. by destruct reliable. }
    rewrite Hno, Houts, Hnext. cbn. by rewrite !app_nil_r.
  - destruct Hstep as [-> ->]. cbn. by rewrite !app_nil_r.
Qed.
(** The first request: the initial state passes it to the user. *)
Lemma first_step : let step := AdvanceSIPServerTransaction (mkServerInput method (InitialSIPServerTransactionState method) SIPServerTransactionEventRequest 0 reliable false 0 cfg) in
  server_outputs 0 step = [RequestToUser] /\ (st_NextState step = SIPServerTransactionStateTrying \/ st_NextState step = SIPServerTransactionStateProceeding).
Proof.
  intros step. pose proof (server_step_matches (mkServerInput method (InitialSIPServerTransactionState method) SIPServerTransactionEventRequest 0 reliable false 0 cfg) Hcfg) as (_ & Hstep).
  fold step in Hstep. cbn [server_event si_Event si_RequestRetransmission si_Response] in Hstep. destruct Hstep as (Hgot & Hrun & _).
  destruct (server_step_facts (InitialSIPServerTransactionState method) SIPServerTransactionEventRequest 0 false 0) as [_ Hs]. fold step in Hs.
  assert (Hst : st_State step = SIPServerTransactionStateTrying \/ st_State step = SIPServerTransactionStateProceeding).
  { rewrite Hs. unfold normalizeSIPServerTransactionState, InitialSIPServerTransactionState.
    destruct (is_invite (sipTransactionKindForMethod method)), (is_invite (sipTransactionKindForMethod wire_method)); cbn; tauto. }
  destruct (Hrun _ _ (first_request _ _ _ _ Hst)) as [Ho <-]. unfold server_outputs. rewrite Hgot, <- Ho. done.
Qed.
Definition network_inv (n : network) : Prop :=
  client_inv (nw_client n) (nw_client_user n) (nw_ack n)
  /\ (forall code, ToUser code ∈ nw_client_user n -> code ∈ nw_responses n)
  /\ (AckToUser ∈ nw_server_user n -> nw_ack n = true)
  /\ match nw_server n with
     | None => nw_cached n = 0 /\ nw_responses n = [] /\ nw_server_user n = []
     | Some st => server_inv st (nw_cached n) (nw_responses n) (nw_server_user n)
     end.
Lemma client_does_keeps n ev code last max done : network_inv n ->
  (ev = SIPClientTransactionEventResponse /\ code ∈ nw_responses n \/ ev = SIPClientTransactionEventRetransmitTimer \/ ev = SIPClientTransactionEventTimeoutTimer \/ ev = SIPClientTransactionEventCleanupTimer) ->
  network_inv (client_does method cfg reliable n ev code last max done).
Proof.
  intros (Hclient & Hheard & Hack & Hserver) Hev. destruct (client_step_keeps (nw_client n) ev code last max done (nw_client_user n) (nw_ack n) Hclient) as [Hinv Htold].
  unfold client_does. split_and!; cbn [nw_client nw_server nw_cached nw_responses nw_ack nw_client_user nw_server_user]; [done| |by intros H; rewrite (Hack H)|done].
  intros c [Hc|Hc]%elem_of_app; [by apply Hheard|]. apply list_elem_of_In, filter_In in Hc as [Hc _]. apply list_elem_of_In, Htold in Hc.
  destruct Hev as [[-> Hin]|[-> | [-> | ->]]]; cbn in Hc; [|done..]. by injection Hc as <-.
Qed.
Lemma server_does_keeps n st ev code again interval : network_inv n -> nw_server n = Some st ->
  event_of_server ev code again <> Some (GotRequest false) ->
  (match event_of_server ev code again with Some (UserResponds _) => True | Some GotAck => code = nw_cached n /\ nw_ack n = true | _ => code = nw_cached n end) ->
  network_inv (server_does method cfg reliable n st ev code again interval).
Proof.
  intros (Hclient & Hheard & Hack & Hserver) Hst Hev Hcode. rewrite Hst in Hserver.
  destruct (server_step_keeps st ev code again interval (nw_cached n) (nw_responses n) (nw_server_user n) Hev) as [Hinv Hcame]; [by destruct (event_of_server ev code again) as [[]|]; try apply Hcode|done|].
  unfold server_does. split_and!; cbn [nw_client nw_server nw_cached nw_responses nw_ack nw_client_user nw_server_user]; [done|intros c Hc; rewrite elem_of_app; left; by apply Hheard| |done].
  intros [Hc|Hc]%elem_of_app; [by apply Hack|]. apply list_elem_of_In, filter_In in Hc as [Hc _]. apply list_elem_of_In, Hcame in Hc. rewrite Hc in Hcode. by destruct Hcode.
Qed.
Lemma network_step_keeps n e n' : network_inv n -> network_step method cfg reliable n e = Some n' -> network_inv n'.
Proof.
  intros Hinv. destruct e as [|code| |code|ev last max done|ev interval]; cbn [network_step].
  - destruct (nw_server n) as [st|] eqn:Hst; intros [= <-].
    + apply server_does_keeps; done.
    + destruct Hinv as (Hclient & Hheard & Hack & Hserver). rewrite Hst in Hserver. destruct Hserver as (Hc & Hr & Hu). destruct first_step as [Houts Hnext].
      unfold server_does. rewrite Houts. split_and!; cbn [nw_client nw_server nw_cached nw_responses nw_ack nw_client_user nw_server_user List.filter server_tells codes_sent omap list_omap last default];
        rewrite ?Hr, ?Hu, ?Hc; [done|intros c Hin; by rewrite Hr in Hheard; apply Hheard|by intros Hin%list_elem_of_singleton|].
      split; [by left|]. destruct Hnext as [-> | ->]; done.
  - case_bool_decide; [|done]. intros [= <-]. apply client_does_keeps; [done|]. by left.
  - destruct (nw_server n) as [st|] eqn:Hst; [|done]. destruct (nw_ack n) eqn:Hack; [|done]. intros [= <-]. by apply server_does_keeps.
  - destruct (nw_server n) as [st|] eqn:Hst; [|done]. intros [= <-]. by apply server_does_keeps.
  - destruct ev; try done; intros [= <-]; apply client_does_keeps; tauto.
  - destruct ev; try done; (destruct (nw_server n) as [st|] eqn:Hst; [|done]); intros [= <-]; by apply server_does_keeps.
Qed.
(** C32: one client and one server transaction over a network that loses, repeats and
    reorders, with any timers and any answers of the server's user: the user of the client is told provisional
    responses and then at most one final response or the timeout, all of them sent by
    the server; the server sends one final response and never another; its user gets the
    request once, and then at most an ACK or the timeout; an ACK comes only when the
    user of the client was told a failure. *)
Theorem agreement_over_network es n : network_run method cfg reliable (network0 method) es = Some n ->
  (exists last, told (nw_client_user n) last)
  /\ (forall code, ToUser code ∈ nw_client_user n -> code ∈ nw_responses n)
  /\ (forall f g, f ∈ nw_responses n -> g ∈ nw_responses n -> 200 <= f -> 200 <= g -> f = g)
  /\ nw_server_user n ∈ [[]; [RequestToUser]; [RequestToUser; AckToUser]; [RequestToUser; ServerTimeoutTold]]
  /\ (AckToUser ∈ nw_server_user n -> exists f, ToUser f ∈ nw_client_user n /\ 300 <= f).
Proof.
  intros Hrun. assert (Hinv : network_inv n).
  { assert (H0 : network_inv (network0 method)).
    { refine (conj (conj _ _) (conj _ (conj _ _))); [|done|intros c Hc; by apply not_elem_of_nil in Hc|intros Hc; by apply not_elem_of_nil in Hc|done].
      exists []. split; [exists []; split_and!; [done|done|by left]|]. unfold network0, InitialSIPClientTransactionState. by destruct (is_invite _). }
    revert H0 Hrun. generalize (network0 method). induction es as [|e es IH]; intros n0 H0; cbn [network_run]; [by intros [= <-]|].
    destruct (network_step method cfg reliable n0 e) as [n1|] eqn:Hstep; [|done]. intros Hrun. apply (IH n1); [by eapply network_step_keeps|done]. }
  destruct Hinv as ([(last & Htold & _) Hackd] & Hheard & Hack & Hserver). split_and!; [by exists last|done| | |intros H; by apply Hackd, Hack].
  - intros f g Hf Hg Hf2 Hg2. destruct (nw_server n) as [st|]; [|destruct Hserver as (_ & Hr & _); rewrite Hr in Hf; by apply not_elem_of_nil in Hf].
    destruct Hserver as [_ Hst]. assert (Hcase : Forall provisional (nw_responses n) \/ one_final (nw_responses n)) by (destruct st; tauto).
    destruct Hcase as [Hall|(h & _ & _ & Hall)]; rewrite Forall_forall in Hall; pose proof (Hall f Hf) as H1; pose proof (Hall g Hg) as H2; unfold provisional in *; [lia|].
    destruct H1 as [H1| ->]; [lia|]. destruct H2 as [H2| ->]; [lia|done].
  - rewrite !elem_of_cons. destruct (nw_server n) as [st|]; [|left; apply Hserver]. destruct Hserver as [_ Hst]. destruct st; tauto.
Qed.
End agreement.

(** ** The schedule of retransmissions *)
Lemma next_interval t1 t2 k : 0 < t1 -> t1 <= t2 < 2 ^ 62 -> nextSIPRetransmitInterval (Z.min t2 (t1 * 2 ^ Z.of_nat k)) t2 = Z.min t2 (t1 * 2 ^ Z.of_nat (S k)).
Proof.
  intros H1 H2. replace (2 ^ Z.of_nat (S k)) with (2 * 2 ^ Z.of_nat k) by (rewrite Nat2Z.inj_succ, Z.pow_succ_r; lia). pose proof (Z.pow_pos_nonneg 2 (Z.of_nat k) ltac:(lia) ltac:(lia)) as Hp.
  set (i := Z.min t2 (t1 * 2 ^ Z.of_nat k)). assert (Hi : 0 < i <= t2) by (unfold i; nia). unfold nextSIPRetransmitInterval. replace (i <=? 0) with false by lia. rewrite to_i64_small by lia.
  replace (0 <? t2) with true by lia. cbn [andb]. destruct (Z.ltb_spec t2 (i * 2)); unfold i in *; nia.
Qed.
Definition total (intervals : list Z) : Z := foldr Z.add 0 intervals.
Definition doubling (t1 t2 : Z) (k : nat) : Z := Z.min t2 (t1 * 2 ^ Z.of_nat k).
Lemma doubling_range t1 t2 k : 0 < t1 -> t1 <= t2 -> t1 <= doubling t1 t2 k <= t2.
Proof. intros H1 H2. pose proof (Z.pow_pos_nonneg 2 (Z.of_nat k) ltac:(lia) ltac:(lia)) as Hp. unfold doubling. nia. Qed.
Lemma intervals_loop_eq t1 t2 timeout fuel k elapsed : 0 < t1 -> t1 <= t2 < 2 ^ 62 -> 0 <= elapsed < timeout \/ elapsed = 0 -> 0 <= timeout < 2 ^ 62 -> timeout - elapsed <= Z.of_nat fuel * t1 ->
  exists n, let chosen := doubling t1 t2 <$> seq k n in
    intervals_loop (S fuel) timeout t2 elapsed (doubling t1 t2 k) = Some chosen
    /\ (n <> 0%nat -> elapsed + total chosen < timeout) /\ timeout <= elapsed + total chosen + doubling t1 t2 (k + n).
Proof.
  intros H1 H2. revert k elapsed. induction fuel as [|fuel IH]; intros k elapsed He Ht Hm; pose proof (doubling_range t1 t2 k H1 (proj1 H2)) as Hi; set (i := doubling t1 t2 k) in *.
  - exists 0%nat. cbn [intervals_loop]. rewrite to_i64_small by lia. replace (elapsed + i <? timeout) with false by lia. rewrite andb_false_r, Nat.add_0_r. fold i. split_and!; [done|done|cbn; lia].
  - set (fuel' := S fuel) in *. cbn [intervals_loop]. rewrite to_i64_small by lia. replace (0 <? i) with true by lia. cbn [andb]. destruct (Z.ltb_spec (elapsed + i) timeout) as [Hlt|Hge].
    + unfold i at 2, doubling at 1. rewrite next_interval by lia. fold (doubling t1 t2 (S k)). destruct (IH (S k) (elapsed + i)) as (n & Hn & Hsum & Hend); [lia|lia|nia|].
      rewrite Hn. exists (S n). cbn [seq fmap list_fmap total foldr] in *. fold (total (doubling t1 t2 <$> seq (S k) n)) in *. fold i. split_and!; [done| |].
      * intros _. destruct n as [|n]; [cbn; lia|]. specialize (Hsum ltac:(lia)). lia.
      * replace (k + S n)%nat with (S k + n)%nat by lia. lia.
    + exists 0%nat. rewrite Nat.add_0_r. fold i. split_and!; [done|done|cbn; lia].
Qed.
Section schedule.
Context {U : UnicodeCase}.
(** The schedule of retransmissions ends (65 turns of its loop are enough), and is the one of RFC 3261
    for requests other than INVITE: the intervals double from T1 up to T2, and they are as many as
    fit strictly before the timeout of 64 T1.  (An INVITE is repeated on the same
    intervals; the standard does not bound them by T2, see [invite_schedule].) *)
Theorem retry_schedule_correct method cfg : timers_ok cfg ->
  let p := SIPTransactionTimerPolicyFor method cfg in
  exists n, let chosen := doubling (tp_T1 p) (tp_T2 p) <$> seq 0 n in
    SIPTransactionRetryScheduleFor 65 method cfg
      = Some (mkRetrySchedule (tp_Method p) (tp_Invite p) chosen (64 * tp_T1 p) (if tp_Invite p then 0 else tp_T4 p))
    /\ total chosen < 64 * tp_T1 p <= total chosen + doubling (tp_T1 p) (tp_T2 p) n.
Proof.
  intros Hcfg p. destruct (policy_ok method cfg Hcfg) as (_ & H1 & H2 & H4 & Ht). fold p in H1, H2, H4, Ht.
  destruct (intervals_loop_eq (tp_T1 p) (tp_T2 p) (64 * tp_T1 p) 64 0 0) as (n & Hn & Hsum & Hend); [lia|lia|by right|lia|lia|].
  exists n. split; [|split; [destruct n as [|n]; [cbn; lia|specialize (Hsum ltac:(lia)); lia]|cbn [Nat.add] in Hend; lia]].
  unfold SIPTransactionRetryScheduleFor. fold p. replace (doubling (tp_T1 p) (tp_T2 p) 0) with (tp_T1 p) in Hn by (unfold doubling; rewrite Z.mul_1_r; lia).
  destruct (tp_Invite p) eqn:Hinv; [destruct Ht as (-> & -> & _)|destruct Ht as (-> & -> & _ & ->)]; rewrite Hn; done.
Qed.
End schedule.

#[local] Instance ascii_case : UnicodeCase := {| unicode_ToUpper r := r; unicode_ToLower r := r |}.
Definition default_timers : SIPTransactionTimerConfig := mkTimerConfig 0 0 0.
(** An INVITE with the default timers is sent eleven times; RFC 3261 (17.1.1.2) doubles
    timer A without a bound and sends it seven times. *)
Example invite_schedule : rs_Intervals <$> SIPTransactionRetryScheduleFor 65 (go_bytes "INVITE") default_timers
  = Some (Z.mul Millisecond <$> [500; 1000; 2000; 4000; 4000; 4000; 4000; 4000; 4000; 4000]).
Proof. vm_compute. reflexivity. Qed.
Lemma retry_schedule_correct_witness :
  exists n, let p := SIPTransactionTimerPolicyFor (go_bytes "register") default_timers in
    total (doubling (tp_T1 p) (tp_T2 p) <$> seq 0 n) < 64 * tp_T1 p <= total (doubling (tp_T1 p) (tp_T2 p) <$> seq 0 n) + doubling (tp_T1 p) (tp_T2 p) n.
Proof.
  destruct (retry_schedule_correct (go_bytes "register") default_timers) as (n & _ & H); [unfold timers_ok; cbn; lia|]. exists n. exact H.
Defined.
Definition sample_client_input : SIPClientTransactionInput :=
  mkClientInput (go_bytes "INVITE") SIPClientTransactionStateProceeding SIPClientTransactionEventResponse 486 false 0 default_timers 0 0.
Lemma client_refines_rfc3261_witness : client_matches false true (Some (GotResponse 486)) (AdvanceSIPClientTransaction sample_client_input)
  /\ client_outputs (AdvanceSIPClientTransaction sample_client_input) = [ToUser 486; AckSent].
Proof. split; [apply (client_refines_rfc3261 sample_client_input); unfold timers_ok; cbn; lia|vm_compute; reflexivity]. Defined.
Definition sample_server_input : SIPServerTransactionInput :=
  mkServerInput (go_bytes "INVITE") SIPServerTransactionStateCompleted SIPServerTransactionEventACK 486 false false 0 default_timers.
Lemma server_refines_rfc3261_witness : server_matches false 486 (Some GotAck) (AdvanceSIPServerTransaction sample_server_input)
  /\ st_NextState (AdvanceSIPServerTransaction sample_server_input) = SIPServerTransactionStateConfirmed.
Proof. split; [apply (server_refines_rfc3261 sample_server_input); unfold timers_ok; cbn; lia|vm_compute; reflexivity]. Defined.
(** A call that is refused: the request comes twice, the refusal is repeated, the ACK
    comes at last. *)
Definition sample_call : list network_event :=
  [RequestArrives; ServerUserResponds 180; ResponseArrives 180; RequestArrives; ServerUserResponds 486; ServerTimer SIPServerTransactionEventRetransmitTimer 0;
   ResponseArrives 486; ResponseArrives 180; ResponseArrives 486; ServerUserResponds 200; AckArrives; AckArrives].
Lemma agreement_over_network_witness :
  exists n, network_run (go_bytes "INVITE") default_timers false (network0 (go_bytes "INVITE")) sample_call = Some n
    /\ nw_client_user n = [ToUser 180; ToUser 486] /\ nw_server_user n = [RequestToUser; AckToUser]
    /\ (forall f g, f ∈ nw_responses n -> g ∈ nw_responses n -> 200 <= f -> 200 <= g -> f = g).
Proof.
  eexists. split; [vm_compute; reflexivity|]. split; [reflexivity|]. split; [reflexivity|].
  apply (agreement_over_network (go_bytes "INVITE") default_timers false ltac:(unfold timers_ok; cbn; lia) sample_call). vm_compute. reflexivity.
Defined.
