(* ===== verification/SipMessage.v ===== *)
(** * SIP messages on the wire (runtimehost/voiceclient/wire_transport.go)

    Requests and responses are written, read from a datagram and read from a stream; a
    response is matched with its request.  The headers of a message are a map from names
    to values; where the code ranges over a map, the order is the one of [range_map], any order for
    each range.  A stream is the list of the octets that are still to come. *)
From stdpp Require Import gmap.
From S2P Require Import Prelude GoStrings Utf8 Hex Errors SipTransaction.
#[local] Open Scope string_scope.
#[local] Open Scope list_scope.
#[local] Open Scope Z_scope.

(** ** Text functions of the standard library *)
Definition starts_with (p s : bytes) : bool := bool_decide (take (length p) s = p).
(** [bytes.Index(s, p)]: what is before the first [p], and what is behind it. *)
Fixpoint cut_on (p s : bytes) : option (bytes * bytes) :=
  if starts_with p s then Some ([], drop (length p) s) else
  match s with
  | [] => None
  | b :: rest => match cut_on p rest with Some (before, after) => Some (b :: before, after) | None => None end
  end.
(** [strings.ReplaceAll(s, CR LF, LF)] *)
Fixpoint crlf_to_lf (s : bytes) : bytes :=
  match s with
  | 13 :: ((10 :: _) as rest) => crlf_to_lf rest
  | b :: rest => b :: crlf_to_lf rest
  | [] => []
  end.
(** [strings.Fields] *)
Definition flush (word : bytes) : list bytes := match word with [] => [] | _ => [word] end.
Fixpoint fields_loop (fuel : nat) (s word : bytes) : list bytes :=
  match fuel, s with
  | S fuel, b :: rest =>
      match cut_rune space_runes s with
      | Some s' => flush word ++ fields_loop fuel s' []
      | None => fields_loop fuel rest (word ++ [b])
      end
  | _, _ => flush word
  end.
Definition strings_Fields (s : bytes) : list bytes := fields_loop (length s) s [].
Fixpoint strings_Join (parts : list bytes) (sep : bytes) : bytes :=
  match parts with [] => [] | [p] => p | p :: ps => p ++ sep ++ strings_Join ps sep end.
(** [strconv.Itoa] and [strconv.Atoi] *)
Fixpoint digits_of (fuel : nat) (n : Z) (tail : bytes) : bytes :=
  match fuel with
  | O => tail
  | S fuel => let tail := 48 + n mod 10 :: tail in if n <? 10 then tail else digits_of fuel (n / 10) tail
  end.
Definition Itoa (n : Z) : bytes := if n <? 0 then 45 :: digits_of 20 (- n) [] else digits_of 20 n [].
Definition is_decimal (b : Z) : bool := (48 <=? b) && (b <=? 57).
Definition value_of (digits : bytes) : Z := fold_left (fun n b => n * 10 + (b - 48)) digits 0.
Definition Atoi (s : bytes) : option Z :=
  let '(negative, digits) := match s with 45 :: d => (true, d) | 43 :: d => (false, d) | d => (false, d) end in
  if bool_decide (digits = []) || negb (forallb is_decimal digits) then None else
  let n := if negative then - value_of digits else value_of digits in
  if (- 2 ^ 63 <=? n) && (n <? 2 ^ 63) then Some n else None.

(** The folding of the letters beyond ASCII, and the dates of [time.Parse]: the
    layouts RFC 1123 (with a zone name or an offset), RFC 850 and ANSI C, in
    nanoseconds. *)
Class TextTables := {
  fold_beyond : Z -> Z;
  time_Parse : nat -> bytes -> option Z
}.
Class RangeOrder := {
  range_map : forall {A}, nat -> gmap bytes A -> list (bytes * A);
  range_map_perm : forall {A} site (m : gmap bytes A), range_map site m ≡ₚ map_to_list m
}.
Definition fold_any `{TextTables} (r : Z) : Z := if fold_rune r <? 0x80 then fold_rune r else fold_beyond r.
(** [strings.EqualFold] *)
Definition strings_EqualFold `{TextTables} (s t : bytes) : bool := bool_decide (fold_any <$> runes s = fold_any <$> runes t).

(** ** Headers *)
Abbreviation headers := (gmap bytes (list bytes)).
Record SIPRequestMessage := mkSIPRequest { sq_Method : bytes; sq_URI : bytes; sq_Headers : gmap bytes bytes; sq_Body : bytes }.
Record SIPIncomingRequest := mkSIPIncoming { in_Method : bytes; in_URI : bytes; in_Headers : headers; in_Body : bytes }.
Record SIPResponse := mkSIPResponse { sr_StatusCode : Z; sr_Reason : bytes; sr_Headers : headers; sr_Body : bytes; sr_RetryAfter : Z }.
Definition crlf : bytes := [13; 10].

Section wire.
Context {U : UnicodeCase} {T : TextTables} {R : RangeOrder}.
(** The names that [canonicalHeaderName] has a case for, with what it returns; the others are
    written with a capital after each hyphen. *)
Definition canonical_names : list (bytes * bytes) :=
  (fun p => (go_bytes p.1, go_bytes p.2)) <$>
  [("a", "Accept-Contact"); ("accept-contact", "Accept-Contact"); ("b", "Referred-By"); ("referred-by", "Referred-By"); ("d", "Request-Disposition");
   ("request-disposition", "Request-Disposition"); ("e", "Content-Encoding"); ("content-encoding", "Content-Encoding"); ("i", "Call-ID"); ("call-id", "Call-ID");
   ("j", "Reject-Contact"); ("reject-contact", "Reject-Contact"); ("k", "Supported"); ("supported", "Supported"); ("m", "Contact"); ("contact", "Contact");
   ("o", "Event"); ("event", "Event"); ("r", "Refer-To"); ("refer-to", "Refer-To"); ("s", "Subject"); ("subject", "Subject"); ("u", "Allow-Events");
   ("allow-events", "Allow-Events"); ("subscription-state", "Subscription-State"); ("x", "Session-Expires"); ("session-expires", "Session-Expires");
   ("l", "Content-Length"); ("content-length", "Content-Length"); ("c", "Content-Type"); ("content-type", "Content-Type"); ("min-se", "Min-SE"); ("f", "From");
   ("t", "To"); ("v", "Via"); ("www-authenticate", "WWW-Authenticate"); ("proxy-authenticate", "Proxy-Authenticate"); ("p-associated-uri", "P-Associated-URI");
   ("p-preferred-identity", "P-Preferred-Identity"); ("p-access-network-info", "P-Access-Network-Info"); ("p-visited-network-id", "P-Visited-Network-ID");
   ("service-route", "Service-Route"); ("security-server", "Security-Server"); ("security-client", "Security-Client"); ("security-verify", "Security-Verify")].
Definition capitalised (part : bytes) : bytes := match part with [] => [] | b :: rest => strings_ToUpper [b] ++ strings_ToLower rest end.
Definition canonicalHeaderName (name : bytes) : bytes :=
  match list_find (fun p => p.1 = strings_ToLower (TrimSpace name)) canonical_names with
  | Some (_, (_, canonical)) => canonical
  | None => strings_Join (capitalised <$> strings_Split name 45) [45]
  end.
Definition trimHeaderValues (values : list bytes) : list bytes := List.filter (fun v => negb (bool_decide (v = []))) (TrimSpace <$> values).
Definition rawHeaderValues (site : nat) (h : headers) (name : string) : list bytes :=
  concat ((fun p => if equal_fold p.1 name then trimHeaderValues p.2 else []) <$> range_map site h).
Definition firstTrimmed (items : list bytes) : bytes := match trimHeaderValues items with [] => [] | v :: _ => v end.
Definition firstHeader (site : nat) (h : headers) (name : string) : bytes := firstTrimmed (rawHeaderValues site h name).
Definition firstHeaderValue (site : nat) (h : gmap bytes bytes) (name : string) : bytes :=
  match list_find (fun p => equal_fold p.1 name = true) (range_map site h) with Some (_, (_, v)) => TrimSpace v | None => [] end.
Definition add_header (h : headers) (name value : bytes) : headers := <[name := default [] (h !! name) ++ [value]]> h.

(** ** Reading a message *)
Definition splitSIPMessage (raw : bytes) : result (bytes * bytes) :=
  match cut_on [13; 10; 13; 10] raw with
  | Some parts => Ok parts
  | None => match cut_on [10; 10] raw with Some parts => Ok parts | None => Errorf ErrInvalidSIPMessage end
  end.
Definition folds (line : bytes) : bool := match line with b :: _ => (b =? 32) || (b =? 9) | [] => false end.
(** [out] is kept in reverse. *)
Fixpoint header_lines_loop (raw : list bytes) (out : list bytes) : list bytes :=
  match raw with
  | [] => reverse out
  | line :: raw =>
      if bool_decide (line = []) then header_lines_loop raw out else
      match out with
      | prev :: before => if folds line then header_lines_loop raw ((prev ++ [32] ++ TrimSpace line) :: before) else header_lines_loop raw (TrimSpace line :: out)
      | [] => header_lines_loop raw [TrimSpace line]
      end
  end.
Definition splitHeaderLines (head : bytes) : list bytes := header_lines_loop (strings_Split (crlf_to_lf head) 10) [].
Fixpoint parse_headers_loop (lines : list bytes) (h : headers) : result headers :=
  match lines with
  | [] => Ok h
  | line :: lines =>
      match cut_at line 58 with
      | None => Errorf ErrInvalidSIPMessage
      | Some (name, value) =>
          let name := TrimSpace name in
          let value := TrimSpace value in
          if bool_decide (name = []) then Errorf ErrInvalidSIPMessage else
          parse_headers_loop lines (add_header h (canonicalHeaderName name) value)
      end
  end.
Definition parseSIPHeaders (lines : list bytes) : result headers := parse_headers_loop lines ∅.
Fixpoint length_values (values : list bytes) (length : Z) (seen : bool) : result (Z * bool) :=
  match values with
  | [] => Ok (length, seen)
  | value :: values =>
      match Atoi (TrimSpace value) with
      | None => Errorf ErrInvalidSIPMessage
      | Some n => if n <? 0 then Errorf ErrInvalidSIPMessage else if seen && negb (n =? length) then Errorf ErrInvalidSIPMessage else length_values values n true
      end
  end.
Fixpoint length_headers (h : list (bytes * list bytes)) (length : Z) (seen : bool) : result (Z * bool) :=
  match h with
  | [] => Ok (length, seen)
  | (key, values) :: h =>
      if negb (equal_fold key "Content-Length") && negb (equal_fold key "l") then length_headers h length seen else
      if bool_decide (values = []) then Errorf ErrInvalidSIPMessage else
      let! r := length_values values length seen in
      length_headers h r.1 r.2
  end.
Definition strictContentLength (h : headers) : result (Z * bool) := length_headers (range_map 0 h) 0 false.
Definition sipBodyByContentLength (h : headers) (body : bytes) : result bytes :=
  let! r := strictContentLength h in
  if negb r.2 then Ok body else
  if len body <? r.1 then Errorf ErrInvalidSIPMessage else slice body 0 r.1.
Definition ParseSIPRequest (raw : bytes) : result SIPIncomingRequest :=
  let! hb := splitSIPMessage raw in
  match splitHeaderLines hb.1 with
  | [] => Errorf ErrInvalidSIPMessage
  | first :: lines =>
      match strings_Fields first with
      | [method; uri; version] =>
          if negb (equal_fold version "SIP/2.0") then Errorf ErrInvalidSIPMessage else
          let method := strings_ToUpper (TrimSpace method) in
          let uri := TrimSpace uri in
          if bool_decide (method = []) || bool_decide (uri = []) then Errorf ErrInvalidSIPMessage else
          let! h := parseSIPHeaders lines in
          let! body := sipBodyByContentLength h hb.2 in
          Ok (mkSIPIncoming method uri h body)
      | _ => Errorf ErrInvalidSIPMessage
      end
  end.
(** *** The delay of Retry-After *)
Definition token_ends (b : Z) : bool := (b =? 32) || (b =? 9) || (b =? 59) || (b =? 40) || (b =? 44).
Fixpoint token_of (value : bytes) : bytes := match value with [] => [] | b :: rest => if token_ends b then [] else b :: token_of rest end.
Definition before_octet (value : bytes) (sep : Z) : bytes := match cut_at value sep with Some (before, _) => before | None => value end.
Definition sipRetryAfterDateValue (value : bytes) : bytes := TrimSpace (before_octet (before_octet (TrimSpace value) 59) 40).
(** [time.Sub] keeps the difference within a Duration. *)
Definition sub_instants (t now : Z) : Z := Z.max (- 2 ^ 63) (Z.min (2 ^ 63 - 1) (t - now)).
Fixpoint first_date (layouts : list nat) (candidate : bytes) : option Z :=
  match layouts with [] => None | l :: ls => match time_Parse l candidate with Some t => Some t | None => first_date ls candidate end end.
Definition parseSIPRetryAfterValueAt (value : bytes) (now : Z) : option Z :=
  let value := TrimSpace value in
  if bool_decide (value = []) then None else
  let token := TrimSpace (token_of value) in
  match (if bool_decide (token = []) then None else Atoi token) with
  | Some seconds =>
      if 0 <=? seconds then Some (to_i64 (seconds * 1000000000))
      else (fun t => Z.max 0 (sub_instants t now)) <$> first_date [0; 1; 2; 3]%nat (sipRetryAfterDateValue value)
  | None => (fun t => Z.max 0 (sub_instants t now)) <$> first_date [0; 1; 2; 3]%nat (sipRetryAfterDateValue value)
  end.
Definition sipRetryAfterDelay (h : headers) (now : Z) : Z * bool :=
  fold_left (fun acc value => match parseSIPRetryAfterValueAt value now with None => acc | Some parsed => (Z.max acc.1 parsed, true) end) (rawHeaderValues 0 h "Retry-After") (0, false).
Definition SIPRetryAfterDelay (h : headers) (now : Z) : Z := (sipRetryAfterDelay h now).1.
Definition validSIPStatusCode (code : Z) : bool := (100 <=? code) && (code <=? 699).
Definition validSIPStatusToken (token : bytes) : bool := (len token =? 3) && forallb is_decimal (runes token).
Definition ParseSIPResponse (raw : bytes) (now : Z) : result SIPResponse :=
  let! hb := splitSIPMessage raw in
  match splitHeaderLines hb.1 with
  | [] => Errorf ErrInvalidSIPMessage
  | first :: lines =>
      match cut_at first 32 with
      | None => Errorf ErrInvalidSIPMessage
      | Some (version, rest) =>
          if negb (equal_fold version "SIP/2.0") then Errorf ErrInvalidSIPMessage else
          let '(code, reason) := match cut_at rest 32 with Some (code, reason) => (code, TrimSpace reason) | None => (rest, []) end in
          let statusToken := TrimSpace code in
          if negb (validSIPStatusToken statusToken) then Errorf ErrInvalidSIPMessage else
          let code := default 0 (Atoi statusToken) in
          if negb (validSIPStatusCode code) then Errorf ErrInvalidSIPMessage else
          let! h := parseSIPHeaders lines in
          let! body := sipBodyByContentLength h hb.2 in
          Ok (mkSIPResponse code reason h body (SIPRetryAfterDelay h now))
      end
  end.

(** ** Reading from a stream *)
(** [ReadBytes] up to and with a line feed. *)
Fixpoint read_line (stream : bytes) : option (bytes * bytes) :=
  match stream with
  | [] => None
  | b :: rest => if b =? 10 then Some ([b], rest) else match read_line rest with Some (line, rest) => Some (b :: line, rest) | None => None end
  end.
Definition ends_with (s p : bytes) : bool := strings_HasPrefix (reverse s) (reverse p).
Definition isSIPBlankLine (line : bytes) : bool := bool_decide (TrimSpace line = []).
Fixpoint read_head_loop (fuel : nat) (raw stream : bytes) : result (bytes * bytes) :=
  match fuel with
  | O => OutOfFuel
  | S fuel =>
      match read_line stream with
      | None => Errorf ErrEOF
      | Some (line, rest) =>
          if (len raw =? 0) && isSIPBlankLine line then read_head_loop fuel raw rest else
          let raw := raw ++ line in
          if ends_with raw [13; 10; 13; 10] || ends_with raw [10; 10] then Ok (raw, rest) else read_head_loop fuel raw rest
      end
  end.
(** [make] of more octets than the address space of the runtime panics. *)
Definition maxAlloc := 2 ^ 48.
Definition read_body (n : Z) (stream : bytes) : result (bytes * bytes) :=
  if maxAlloc <? n then Panic else
  if len stream <? n then (if len stream =? 0 then Errorf ErrEOF else Errorf ErrUnexpectedEOF) else
  Ok (sub stream 0 n, drop (Z.to_nat n) stream).
(** The message, and what is left of the stream. *)
Definition readSIPStreamMessage (stream : bytes) : result (bytes * bytes) :=
  let! head := read_head_loop (S (length stream)) [] stream in
  let '(raw, rest) := head in
  let! hb := splitSIPMessage raw in
  match splitHeaderLines hb.1 with
  | [] => Panic
  | _ :: lines =>
      let! parsed := parseSIPHeaders lines in
      let! r := strictContentLength parsed in
      if r.2 && (0 <? r.1) then
        let! body := read_body r.1 rest in
        Ok (raw ++ body.1, body.2)
      else Ok (raw, rest)
  end.
Definition isSIPResponseWire (raw : bytes) : bool := starts_with (go_bytes "SIP/2.0") (trim_left_of [13; 10; 9; 32] raw).

(** ** Writing a message *)
Definition header_line (name value : bytes) : bytes := name ++ [58; 32] ++ value ++ crlf.
Definition request_order : list string :=
  ["Via"; "Route"; "Max-Forwards"; "To"; "From"; "Call-ID"; "CSeq"; "Contact"; "Expires"; "P-Preferred-Identity"; "User-Agent"; "Allow"; "Supported";
   "Require"; "P-Preferred-Service"; "Accept-Contact"; "P-Access-Network-Info"; "P-Visited-Network-ID"; "Security-Client"; "Security-Verify";
   "Authorization"; "Proxy-Authorization"; "Refer-To"; "Referred-By"; "Refer-Sub"; "Request-Disposition"; "Reject-Contact"; "Session-Expires";
   "Min-SE"; "Event"; "Subscription-State"; "Allow-Events"; "Content-Type"; "Accept"].
Definition response_order : list string :=
  ["Via"; "Record-Route"; "Route"; "Max-Forwards"; "To"; "From"; "Call-ID"; "CSeq"; "Contact"; "Expires"; "P-Associated-URI"; "Service-Route";
   "Path"; "P-Preferred-Identity"; "User-Agent"; "Allow"; "Supported"; "Require"; "P-Access-Network-Info"; "P-Visited-Network-ID"; "Security-Client";
   "Security-Verify"; "Authorization"; "Proxy-Authorization"; "WWW-Authenticate"; "Proxy-Authenticate"; "Refer-To"; "Referred-By"; "Refer-Sub";
   "Request-Disposition"; "Reject-Contact"; "Session-Expires"; "Min-SE"; "Event"; "Subscription-State"; "Allow-Events"; "Content-Type"; "Accept"].
Definition blank (value : bytes) : bool := bool_decide (TrimSpace value = []).
(** One range over the headers for each name of the order: what is written, and the lower case of
    the keys written. *)
Definition named_headers (name : string) (h : list (bytes * bytes)) : bytes * list bytes :=
  let found := List.filter (fun p => equal_fold p.1 name && negb (blank p.2)) h in
  (concat ((fun p => header_line (go_bytes name) p.2) <$> found), (fun p => strings_ToLower p.1) <$> found).
Fixpoint ordered_loop (site : nat) (order : list string) (h : gmap bytes bytes) (written : list bytes) : bytes * list bytes :=
  match order with
  | [] => ([], written)
  | name :: order =>
      let '(text, keys) := named_headers name (range_map site h) in
      let '(rest, written) := ordered_loop (S site) order h (keys ++ written) in
      (text ++ rest, written)
  end.
Fixpoint other_loop (h : list (bytes * bytes)) (written : list bytes) (contentLength : bytes) : bytes * bytes :=
  match h with
  | [] => ([], contentLength)
  | (key, value) :: h =>
      if equal_fold key "Content-Length" then other_loop h (strings_ToLower key :: written) (TrimSpace value) else
      if bool_decide (strings_ToLower key ∈ written) || blank value then other_loop h written contentLength else
      let '(text, contentLength) := other_loop h written contentLength in
      (header_line key value ++ text, contentLength)
  end.
Definition length_line (contentLength : bytes) : bytes := if bool_decide (contentLength = []) then [] else header_line (go_bytes "Content-Length") contentLength.
Definition writeOrderedHeaders (h : gmap bytes bytes) : bytes :=
  let '(text, written) := ordered_loop 0 request_order h [] in
  let '(others, contentLength) := other_loop (range_map 100 h) written [] in
  text ++ others ++ length_line contentLength.
(** The address of the connection is what [net.SplitHostPort] makes of it, and [random] the octets of a
    read of the random source; either may fail. *)
Definition localHostPort (address : option (bytes * bytes)) : bytes * Z :=
  match address with
  | None => ([], 0)
  | Some (host, portText) =>
      (if bool_decide (58 ∈ host) && negb (starts_with [91] host) then [91] ++ host ++ [93] else host, default 0 (Atoi portText))
  end.
Definition newBranch (random : option bytes) : bytes :=
  match random with None => go_bytes "z9hG4bKvowifigo" | Some b => go_bytes "z9hG4bK" ++ hex_EncodeToString b end.
Definition buildViaHeader (transport : bytes) (address : option (bytes * bytes)) (random : option bytes) : bytes :=
  let '(host, port) := localHostPort address in
  let host := if bool_decide (host = []) then go_bytes "0.0.0.0" else host in
  let port := if port =? 0 then 5060 else port in
  go_bytes "SIP/2.0/" ++ strings_ToUpper (TrimSpace transport) ++ [32] ++ host ++ [58] ++ Itoa port ++ go_bytes ";branch=" ++ newBranch random ++ go_bytes ";rport".
Definition trimmed_headers (h : list (bytes * bytes)) : gmap bytes bytes :=
  fold_left (fun m p => if blank p.1 then m else <[TrimSpace p.1 := TrimSpace p.2]> m) h ∅.
Definition buildSIPRequestWire (msg : SIPRequestMessage) (transport : bytes) (address : option (bytes * bytes)) (random : option bytes) : result bytes :=
  let method := strings_ToUpper (TrimSpace (sq_Method msg)) in
  if bool_decide (method = []) then Err (ErrText "SIP method is empty") else
  let uri := TrimSpace (sq_URI msg) in
  if bool_decide (uri = []) then Err (ErrText "SIP request URI is empty") else
  let h := trimmed_headers (range_map 200 (sq_Headers msg)) in
  let h := if bool_decide (firstHeaderValue 201 h "Via" = []) then <[go_bytes "Via" := buildViaHeader transport address random]> h else h in
  let h := if bool_decide (firstHeaderValue 202 h "Content-Length" = []) then <[go_bytes "Content-Length" := Itoa (len (sq_Body msg))]> h else h in
  Ok (method ++ [32] ++ uri ++ go_bytes " SIP/2.0" ++ crlf ++ writeOrderedHeaders h ++ crlf ++ sq_Body msg).
Definition copyIncomingHeader (site : nat) (dst src : headers) (name : string) : headers :=
  fold_left (fun m p => if equal_fold p.1 name && negb (bool_decide (p.2 = [])) then <[go_bytes name := default [] (m !! go_bytes name) ++ trimHeaderValues p.2]> m else m)
    (range_map site src) dst.
Definition defaultSIPReason (code : Z) : bytes :=
  go_bytes (if code =? 100 then "Trying" else if code =? 180 then "Ringing" else if code =? 183 then "Session Progress" else if code =? 200 then "OK"
  else if code =? 202 then "Accepted" else if code =? 400 then "Bad Request" else if code =? 480 then "Temporarily Unavailable"
  else if code =? 481 then "Call/Transaction Does Not Exist" else if code =? 486 then "Busy Here" else if code =? 487 then "Request Terminated"
  else if code =? 488 then "Not Acceptable Here" else if code =? 491 then "Request Pending" else if code =? 500 then "Server Internal Error"
  else if code =? 503 then "Service Unavailable" else "Status").
Definition value_lines (name : bytes) (values : list bytes) : bytes :=
  concat ((fun v => header_line name (TrimSpace v)) <$> List.filter (fun v => negb (blank v)) values).
Fixpoint ordered_values_loop (site : nat) (order : list string) (h : headers) (written : list bytes) : bytes * list bytes :=
  match order with
  | [] => ([], written)
  | name :: order =>
      let found := List.filter (fun p => equal_fold p.1 name) (range_map site h) in
      let '(rest, written) := ordered_values_loop (S site) order h (((fun p => strings_ToLower p.1) <$> found) ++ written) in
      (concat ((fun p => value_lines (go_bytes name) p.2) <$> found) ++ rest, written)
  end.
Fixpoint other_values_loop (h : list (bytes * list bytes)) (written : list bytes) (contentLength : list bytes) : bytes * list bytes :=
  match h with
  | [] => ([], contentLength)
  | (key, values) :: h =>
      if equal_fold key "Content-Length" then other_values_loop h (strings_ToLower key :: written) (trimHeaderValues values) else
      if bool_decide (strings_ToLower key ∈ written) then other_values_loop h written contentLength else
      let '(text, contentLength) := other_values_loop h written contentLength in
      ((if blank key then [] else value_lines key values) ++ text, contentLength)
  end.
Definition writeOrderedHeaderValues (h : headers) : bytes :=
  let '(text, written) := ordered_values_loop 0 response_order h [] in
  let '(others, contentLength) := other_values_loop (range_map 100 h) written [] in
  text ++ others ++ value_lines (go_bytes "Content-Length") contentLength.
Definition response_headers (req : headers) (h : gmap bytes bytes) (bodyLength : Z) : headers :=
  let out := fold_left (fun m p => copyIncomingHeader p.1 m req p.2) [(300, "Via"); (301, "To"); (302, "From"); (303, "Call-ID"); (304, "CSeq")]%nat ∅ in
  let out := fold_left (fun m p =>
      let key := TrimSpace p.1 in
      let value := TrimSpace p.2 in
      if bool_decide (key = []) || bool_decide (value = []) || equal_fold key "Content-Length" then m else add_header m (canonicalHeaderName key) value) (range_map 305 h) out in
  <[go_bytes "Content-Length" := [Itoa bodyLength]]> out.
Definition BuildSIPResponseWire (req : SIPIncomingRequest) (statusCode : Z) (reason : bytes) (h : gmap bytes bytes) (body : bytes) : result bytes :=
  if negb (validSIPStatusCode statusCode) then Errorf ErrInvalidSIPMessage else
  let reason := TrimSpace reason in
  let reason := if bool_decide (reason = []) then defaultSIPReason statusCode else reason in
  Ok (go_bytes "SIP/2.0 " ++ Itoa statusCode ++ [32] ++ reason ++ crlf ++ writeOrderedHeaderValues (response_headers (in_Headers req) h (len body)) ++ crlf ++ body).

(** ** Responses and their requests *)
Definition sipResponseHeaderMatchesRequest (resp : headers) (req : gmap bytes bytes) (name : string) : bool :=
  let respValue := firstHeader 400 resp name in
  if bool_decide (respValue = []) then true else
  let reqValue := firstHeaderValue 401 req name in
  negb (bool_decide (reqValue = [])) && bool_decide (TrimSpace respValue = TrimSpace reqValue).
Definition sipCSeqParts (value : bytes) : option (Z * bytes) :=
  match strings_Fields value with
  | number :: method :: _ =>
      match Atoi number with
      | None => None
      | Some seq => if seq <=? 0 then None else let method := strings_ToUpper (TrimSpace method) in if bool_decide (method = []) then None else Some (seq, method)
      end
  | _ => None
  end.
Definition sipResponseCSeqMatchesRequest (resp : SIPResponse) (req : SIPRequestMessage) : bool :=
  let respValue := firstHeader 402 (sr_Headers resp) "CSeq" in
  if bool_decide (respValue = []) then true else
  match sipCSeqParts respValue, sipCSeqParts (firstHeaderValue 403 (sq_Headers req) "CSeq") with
  | Some (respSeq, respMethod), Some (reqSeq, reqMethod) => (respSeq =? reqSeq) && strings_EqualFold respMethod reqMethod
  | _, _ => false
  end.
Fixpoint branch_of (parts : list bytes) : bytes :=
  match parts with
  | [] => []
  | part :: parts =>
      match cut_at (TrimSpace part) 61 with
      | Some (key, value) => if equal_fold (TrimSpace key) "branch" then TrimSpace value else branch_of parts
      | None => branch_of parts
      end
  end.
Definition sipViaBranch (via : bytes) : bytes := branch_of (strings_Split via 59).
Definition sipResponseViaMatchesRequest (resp : SIPResponse) (req : SIPRequestMessage) : bool :=
  let respVia := firstHeader 404 (sr_Headers resp) "Via" in
  if bool_decide (respVia = []) then true else
  let reqVia := firstHeaderValue 405 (sq_Headers req) "Via" in
  if bool_decide (reqVia = []) then false else
  let respBranch := sipViaBranch respVia in
  let reqBranch := sipViaBranch reqVia in
  if negb (bool_decide (respBranch = [])) || negb (bool_decide (reqBranch = []))
  then negb (bool_decide (respBranch = [])) && negb (bool_decide (reqBranch = [])) && bool_decide (respBranch = reqBranch)
  else true.
Definition sipResponseMatchesRequest (resp : SIPResponse) (req : SIPRequestMessage) : bool :=
  sipResponseHeaderMatchesRequest (sr_Headers resp) (sq_Headers req) "Call-ID" && sipResponseCSeqMatchesRequest resp req && sipResponseViaMatchesRequest resp req.
(** The Via header that a request is sent with. *)
Definition ensureSIPRequestVia (msg : SIPRequestMessage) (transport : bytes) (address : option (bytes * bytes)) (random : option bytes) : SIPRequestMessage :=
  let found := list_find (fun p => equal_fold p.1 "Via" = true) (range_map 500 (sq_Headers msg)) in
  let '(viaKey, viaValue) := match found with Some (_, (k, v)) => (k, TrimSpace v) | None => ([], []) end in
  let set k v := mkSIPRequest (sq_Method msg) (sq_URI msg) (<[k := v]> (sq_Headers msg)) (sq_Body msg) in
  if bool_decide (viaValue = []) then set (go_bytes "Via") (buildViaHeader transport address random) else
  if bool_decide (sipViaBranch viaValue = []) then
    set viaKey (reverse (trim_left_of [32; 9; 59] (reverse viaValue)) ++ go_bytes ";branch=" ++ newBranch random)
  else msg.
End wire.

(** *** A delay that does not fit *)
#[local] Instance no_case : UnicodeCase := {| unicode_ToUpper r := r; unicode_ToLower r := r |}.
#[local] Instance no_dates : TextTables := {| fold_beyond r := r; time_Parse _ _ := None |}.
#[local] Instance listed : RangeOrder := {| range_map A _ m := map_to_list m; range_map_perm A _ m := reflexivity _ |}.
Example retry_after_wraps : sipRetryAfterDelay {[ go_bytes "Retry-After" := [go_bytes "9223372036"] ]} 0 = (9223372036000000000, true) /\
  sipRetryAfterDelay {[ go_bytes "Retry-After" := [go_bytes "9223372037"] ]} 0 = (0, true).
Proof. split; vm_compute; reflexivity. Qed.
