(* ===== verification/SipText.v ===== *)
(** * Text of SIP messages

    Lines and the empty line that ends a head, trimming, decimal numbers, letters of
    either case, the canonical names of headers. *)
From stdpp Require Import gmap.
From S2P Require Import Prelude GoStrings Utf8 Hex Errors SipTransaction SipMessage.
#[local] Open Scope string_scope.
#[local] Open Scope list_scope.
#[local] Open Scope Z_scope.

(** ** Lines *)
Definition no_break (s : bytes) : Prop := (10 ∉ s) /\ (13 ∉ s).
(** Text without line breaks, and nothing to trim. *)
Definition text_ok (v : bytes) : Prop := v <> [] /\ TrimSpace v = v /\ no_break v.
Definition name_ok (n : bytes) : Prop := n <> [] /\ Forall (fun b => visible b = true) n /\ (58 ∉ n).
Definition line_ok (l : bytes) : Prop := l <> [] /\ TrimSpace l = l /\ (folds l = false) /\ no_break l.
Definition wire_of (lines : list bytes) (body : bytes) : bytes := strings_Join lines crlf ++ [13; 10; 13; 10] ++ body.

Lemma starts_with_app p s : starts_with p (p ++ s) = true.
Proof. unfold starts_with. rewrite take_app_length. by apply bool_decide_eq_true_2. Qed.
Lemma starts_with_other b p c s : b <> c -> starts_with (b :: p) (c :: s) = false.
Proof. intros H. unfold starts_with. cbn [length take]. apply bool_decide_eq_false_2. by intros [= ->]. Qed.
Lemma cut_on_skip b p l rest : b ∉ l -> cut_on (b :: p) (l ++ rest) = match cut_on (b :: p) rest with Some (x, y) => Some (l ++ x, y) | None => None end.
Proof.
  induction l as [|c l IH]; intros Hb; [cbn [app]; destruct (cut_on (b :: p) rest) as [[x y]|]; done|].
  apply not_elem_of_cons in Hb as [Hc Hb]. cbn [app cut_on]. rewrite starts_with_other by done. rewrite IH by done. by destruct (cut_on (b :: p) rest) as [[x y]|].
Qed.
Lemma cut_on_here p s : cut_on p (p ++ s) = Some ([], s).
Proof. destruct p as [|b p]; cbn [app cut_on]; [by destruct s|]. change (b :: p ++ s) with ((b :: p) ++ s). by rewrite starts_with_app, drop_app_length. Qed.
Lemma join_cons l ls sep : ls <> [] -> strings_Join (l :: ls) sep = l ++ sep ++ strings_Join ls sep.
Proof. by destruct ls. Qed.
Lemma join_head l ls sep : exists t, strings_Join (l :: ls) sep = l ++ t.
Proof. destruct ls as [|l' ls]; [exists []; by rewrite app_nil_r|]. eexists. by rewrite join_cons. Qed.
(** The head of a message ends at the first empty line. *)
Lemma cut_head lines body : Forall line_ok lines -> lines <> [] -> cut_on [13; 10; 13; 10] (wire_of lines body) = Some (strings_Join lines crlf, body).
Proof.
  unfold wire_of. intros Hl Hne. induction Hl as [|l ls Hlok Hls IH]; [done|]. destruct Hlok as (Hl0 & _ & _ & _ & H13).
  destruct ls as [|l' ls].
  - cbn [strings_Join]. rewrite cut_on_skip by done. rewrite cut_on_here. by rewrite app_nil_r.
  - rewrite join_cons by done. rewrite <- !app_assoc, cut_on_skip by done. specialize (IH ltac:(done)).
    assert (Hstep : cut_on [13; 10; 13; 10] (crlf ++ strings_Join (l' :: ls) crlf ++ [13; 10; 13; 10] ++ body) = Some (crlf ++ strings_Join (l' :: ls) crlf, body)).
    { apply Forall_cons in Hls as [(Hl'0 & _ & _ & _ & H13') _]. destruct (join_head l' ls crlf) as [t Ht]. destruct l' as [|c l']; [done|]. apply not_elem_of_cons in H13' as [Hc _].
      rewrite Ht in IH |- *. unfold crlf at 1. cbn [app] in *. set (tail := c :: _ ++ _) in *. cbn [cut_on].
      replace (starts_with [13; 10; 13; 10] (13 :: 10 :: tail)) with false by (unfold tail, starts_with; cbn [length take]; symmetry; apply bool_decide_eq_false_2; by intros [= -> ]).
      rewrite starts_with_other by done. fold (cut_on [13; 10; 13; 10]) in *. cbn [cut_on] in IH. by rewrite IH. }
    by rewrite Hstep.
Qed.

(** ** Line breaks *)
Lemma crlf_to_lf_app l rest : 13 ∉ l -> crlf_to_lf (l ++ rest) = l ++ crlf_to_lf rest.
Proof.
  induction l as [|b l IH]; intros Hb; [done|]. apply not_elem_of_cons in Hb as [Hb Hl]. cbn [app crlf_to_lf]. rewrite <- (IH Hl).
  destruct b as [|p|p]; try done. destruct p as [p|p|]; try done. destruct p as [p|p|]; try done. destruct p as [p|p|]; try done. destruct p as [p|p|]; try done.
Qed.
Lemma crlf_to_lf_none l : 13 ∉ l -> crlf_to_lf l = l.
Proof. intros H. rewrite <- (app_nil_r l) at 1. rewrite crlf_to_lf_app by done. by rewrite app_nil_r. Qed.
Lemma crlf_to_lf_join lines : Forall line_ok lines -> crlf_to_lf (strings_Join lines crlf) = strings_Join lines [10].
Proof.
  induction 1 as [|l ls (_ & _ & _ & _ & Hl) Hls IH]; [done|]. destruct ls as [|l' ls]; [by apply crlf_to_lf_none|].
  rewrite (join_cons l _ crlf), (join_cons l _ [10]), crlf_to_lf_app by done. by rewrite <- IH.
Qed.
Lemma split_join ls sep : ls <> [] -> Forall (fun l => sep ∉ l) ls -> strings_Split (strings_Join ls [sep]) sep = ls.
Proof.
  intros Hne Hls. induction Hls as [|l ls Hl Hls IH]; [done|]. destruct ls as [|l' ls]; [by apply split_last|].
  rewrite join_cons by done. cbn [app]. rewrite split_app by done. by rewrite IH.
Qed.
Lemma join_split s sep : strings_Join (strings_Split s sep) [sep] = s.
Proof.
  induction s as [|b s IH]; [done|]. cbn [strings_Split]. assert (Hne : strings_Split s sep <> []).
  { destruct s as [|c s]; [done|]. cbn [strings_Split]. repeat case_match; done. }
  destruct (Z.eqb_spec b sep) as [->|Hb]; [by rewrite join_cons, IH|]. destruct (strings_Split s sep) as [|p ps] eqn:E; [done|]. rewrite <- IH.
  destruct ps as [|p' ps]; [done|]. by rewrite !join_cons by done.
Qed.
Lemma header_lines_keep lines out : Forall line_ok lines -> header_lines_loop lines out = reverse out ++ lines.
Proof.
  intros Hl. revert out. induction Hl as [|l ls (Hl & Ht & Hf & _) Hls IH]; intros out; [by rewrite app_nil_r|]. cbn [header_lines_loop].
  rewrite bool_decide_eq_false_2 by done. rewrite Hf, Ht. destruct out as [|o out]; rewrite IH; [done|]. rewrite (reverse_cons (o :: out)). by rewrite <- app_assoc.
Qed.
(** The lines of a head are read as they were written. *)
Lemma split_lines lines : Forall line_ok lines -> lines <> [] -> splitHeaderLines (strings_Join lines crlf) = lines.
Proof.
  intros Hl Hne. unfold splitHeaderLines. rewrite crlf_to_lf_join, split_join, header_lines_keep by first [done | eapply Forall_impl; [exact Hl|]; by intros l (_ & _ & _ & ? & _)]. done.
Qed.
Lemma lines_text first lines body : first ++ crlf ++ concat ((fun l => l ++ crlf) <$> lines) ++ crlf ++ body = wire_of (first :: lines) body.
Proof.
  unfold wire_of. revert first. induction lines as [|l ls IH]; intros first; [done|]. rewrite join_cons by done. cbn [fmap list_fmap concat].
  rewrite <- !app_assoc. by rewrite <- IH, <- ?app_assoc.
Qed.

(** ** White space *)
Lemma trimmed_ends v : TrimSpace v = v -> cut_rune space_runes v = None /\ cut_rune (map (@rev Z) space_runes) (rev v) = None.
Proof. intros H. rewrite <- H. apply TrimSpace_ends. Qed.
Lemma ends_trimmed v : cut_rune space_runes v = None -> cut_rune (map (@rev Z) space_runes) (rev v) = None -> TrimSpace v = v.
Proof. intros H1 H2. unfold TrimSpace, TrimLeftSpace, TrimRightSpace. rewrite (trim_left_none _ _ v) by done. rewrite trim_left_none by done. apply rev_involutive. Qed.
Lemma cut_rune_stop rs v b x : Forall (fun r => b ∉ tail r) rs -> v <> [] -> cut_rune rs v = None -> cut_rune rs (v ++ b :: x) = None.
Proof.
  intros Hrs Hv. induction Hrs as [|r rs Hr Hrs IH]; [done|]. cbn [cut_rune]. unfold bytesEqual. case_bool_decide as H; [done|]. intros Hc.
  rewrite bool_decide_eq_false_2; [by apply IH|]. intros E. destruct (decide (length r <= length v)%nat) as [Hle|Hgt].
  - apply H. by rewrite <- E at 2; rewrite take_app_le.
  - rewrite take_app_ge in E by lia. destruct (length r - length v)%nat as [|k] eqn:Ek; [lia|]. apply Hr. rewrite <- E. destruct v as [|c v]; [done|]. cbn [app tail]. apply elem_of_app. right. left.
Qed.
Lemma space_runes_tail : Forall (fun r => 32 ∉ tail r) space_runes /\ Forall (fun r => 32 ∉ tail r) (map (@rev Z) space_runes) /\ Forall (fun r => 59 ∉ tail r) space_runes.
Proof. by_decide. Qed.
(** Trimmed words with a space between them are trimmed. *)
Lemma trim_words u v : u <> [] -> v <> [] -> TrimSpace u = u -> TrimSpace v = v -> TrimSpace (u ++ [32] ++ v) = u ++ [32] ++ v.
Proof.
  intros Hu Hv [Hu1 Hu2]%trimmed_ends [Hv1 Hv2]%trimmed_ends. destruct space_runes_tail as (T1 & T2 & _). apply ends_trimmed; [by apply cut_rune_stop|].
  rewrite !rev_app_distr. cbn [rev app]. rewrite <- app_assoc. apply cut_rune_stop; [done| |done]. intros E. apply Hv. rewrite <- (rev_involutive v). by rewrite E.
Qed.
Lemma trim_space_before v : TrimSpace v = v -> TrimSpace (32 :: v) = v.
Proof.
  intros [H1 H2]%trimmed_ends. unfold TrimSpace, TrimLeftSpace, TrimRightSpace. cbn [length trim_left].
  replace (cut_rune space_runes (32 :: v)) with (Some v) by reflexivity. rewrite (trim_left_none _ _ v) by done. rewrite trim_left_none by done. apply rev_involutive.
Qed.
Lemma visible_no_break s : Forall (fun b => visible b = true) s -> no_break s.
Proof. intros H. rewrite Forall_forall in H. split; intros Hin; by apply H in Hin. Qed.
Lemma no_break_app u v : no_break u -> no_break v -> no_break (u ++ v).
Proof. intros [H1 H2] [H3 H4]. split; rewrite elem_of_app; intros [?|?]; done. Qed.
Lemma token_text s : s <> [] -> Forall (fun b => visible b = true) s -> text_ok s.
Proof. intros Hn Hs. split_and!; [done|by apply TrimSpace_visible|by apply visible_no_break..]. Qed.
Lemma text_words u v : text_ok u -> text_ok v -> text_ok (u ++ [32] ++ v).
Proof.
  intros (Hu & Tu & Bu) (Hv & Tv & Bv). split; [by destruct u|]. split; [by apply trim_words|]. apply no_break_app; [done|]. apply no_break_app; [by_decide|done].
Qed.
Lemma text_line b u : visible b = true -> text_ok (b :: u) -> line_ok (b :: u).
Proof. intros Hb (H1 & H2 & H3). split_and!; try done; try apply H3. cbn. unfold visible in Hb. lia. Qed.

(** ** Numbers *)
Lemma digits_of_value fuel n t : 0 <= n < 10 ^ Z.of_nat fuel ->
  fold_left (fun n b => n * 10 + (b - 48)) (digits_of fuel n t) 0 = fold_left (fun n b => n * 10 + (b - 48)) t n.
Proof.
  revert n t. induction fuel as [|fuel IH]; intros n t Hn; [cbn [digits_of]; f_equal; cbn in Hn; lia|]. cbn [digits_of].
  pose proof (Z.mod_pos_bound n 10 ltac:(lia)). pose proof (Z.div_mod n 10 ltac:(lia)) as E. destruct (Z.ltb_spec n 10) as [Hs|Hs].
  - cbn [fold_left]. f_equal. rewrite Z.mod_small by lia. lia.
  - rewrite IH; [cbn [fold_left]; f_equal; lia|]. rewrite Nat2Z.inj_succ, Z.pow_succ_r in Hn by lia. split; [apply Z.div_pos; lia|apply Z.div_lt_upper_bound; lia].
Qed.
Lemma digits_of_decimal fuel n t : 0 <= n -> forallb is_decimal t = true -> forallb is_decimal (digits_of fuel n t) = true.
Proof.
  revert n t. induction fuel as [|fuel IH]; intros n t Hn Ht; [done|]. cbn [digits_of].
  assert (H : forallb is_decimal (48 + n mod 10 :: t) = true). { cbn [forallb]. rewrite Ht, andb_true_r. unfold is_decimal. pose proof (Z.mod_pos_bound n 10 ltac:(lia)). lia. }
  destruct (n <? 10); [done|]. apply IH; [apply Z.div_pos; lia|done].
Qed.
Lemma digits_of_nonempty fuel n t : t <> [] \/ fuel <> 0%nat -> digits_of fuel n t <> [].
Proof.
  revert n t. induction fuel as [|fuel IH]; intros n t H; [by destruct H|]. cbn [digits_of]. destruct (n <? 10); [done|]. apply IH. by left.
Qed.
Lemma Itoa_decimal n : 0 <= n -> forallb is_decimal (Itoa n) = true /\ Itoa n <> [].
Proof.
  intros Hn. unfold Itoa. replace (n <? 0) with false by lia. split; [by apply digits_of_decimal|]. apply digits_of_nonempty. by right.
Qed.
Lemma decimal_is_visible s : forallb is_decimal s = true -> Forall (fun b => visible b = true) s.
Proof. induction s as [|b s IH]; [done|]. cbn [forallb]. intros [Hb Hs]%andb_prop. constructor; [unfold is_decimal, visible in *; lia|by apply IH]. Qed.
Lemma Itoa_token n : 0 <= n -> Itoa n <> [] /\ Forall (fun b => visible b = true) (Itoa n).
Proof. intros [H1 H2]%Itoa_decimal. split; [done|by apply decimal_is_visible]. Qed.
Lemma Atoi_Itoa n : 0 <= n < 2 ^ 63 -> Atoi (Itoa n) = Some n.
Proof.
  intros Hn. destruct (Itoa_decimal n ltac:(lia)) as [Hd Hne]. assert (Hv : value_of (Itoa n) = n).
  { unfold Itoa, value_of. replace (n <? 0) with false by lia. rewrite digits_of_value; [done|]. change (10 ^ Z.of_nat 20) with 100000000000000000000. lia. }
  unfold Atoi. destruct (Itoa n) as [|b s]; [done|]. assert (Hb : is_decimal b = true) by (cbn [forallb] in Hd; by apply andb_prop in Hd as [? _]).
  assert (Hs : match b with 43 => (false, s) | 45 => (true, s) | _ => (false, b :: s) end = (false, b :: s)).
  { unfold is_decimal in Hb. destruct b as [|p|p]; [done| |done]. do 6 (destruct p as [p|p|]; try reflexivity; cbn in Hb; try done). }
  cbv beta iota zeta. rewrite Hs. rewrite bool_decide_eq_false_2, Hd by done. cbn [negb orb]. rewrite Hv. by replace ((- 2 ^ 63 <=? n) && (n <? 2 ^ 63)) with true by lia.
Qed.

(** ** Letters *)
Abbreviation visibles := (Forall (fun b => visible b = true)).
Definition lower_octet (b : Z) : Z := if (65 <=? b) && (b <=? 90) then b + 32 else b.
Definition upper_octet (b : Z) : Z := if (97 <=? b) && (b <=? 122) then b - 32 else b.
Definition lower (s : bytes) : bytes := lower_octet <$> s.
Lemma visibles_map f s : (forall b, visible b = true -> visible (f b) = true) -> visibles s -> visibles (f <$> s).
Proof. intros Hf Hs. apply Forall_fmap. eapply Forall_impl; [exact Hs|]. intros b. apply Hf. Qed.
Lemma lower_octet_visible b : visible b = true -> visible (lower_octet b) = true.
Proof. unfold visible, lower_octet. case_match; lia. Qed.
Lemma upper_octet_visible b : visible b = true -> visible (upper_octet b) = true.
Proof. unfold visible, upper_octet. case_match; lia. Qed.
Lemma ascii_map (f g : Z -> Z) s : (forall b, 0 <= b < 0x80 -> f b = g b) -> Forall (fun b => 0 <= b < 0x80) s -> f <$> runes s = g <$> s.
Proof. intros Hf Hs. rewrite runes_of_ascii by done. induction Hs as [|b s Hb Hs IH]; [done|]. rewrite !fmap_cons, IH. f_equal. by apply Hf. Qed.
Lemma ToLower_visibles `{UnicodeCase} s : visibles s -> strings_ToLower s = lower s.
Proof.
  intros Hs. unfold strings_ToLower. rewrite (ascii_map _ lower_octet) by (by apply visible_ascii || (unfold lower_case_rune, lower_octet; intros b Hb; by replace (b <? 0x80) with true by lia)).
  apply string_of_ascii, visible_ascii, visibles_map; [apply lower_octet_visible|done].
Qed.
Lemma ToUpper_visibles `{UnicodeCase} s : visibles s -> strings_ToUpper s = upper_octet <$> s.
Proof.
  intros Hs. unfold strings_ToUpper. rewrite (ascii_map _ upper_octet) by (by apply visible_ascii || (unfold upper_rune, upper_octet; intros b Hb; by replace (b <? 0x80) with true by lia)).
  apply string_of_ascii, visible_ascii, visibles_map; [apply upper_octet_visible|done].
Qed.
Definition name_text (name : string) : Prop := visibles (go_bytes name).
Lemma fold_lower b : visible b = true -> fold_rune b = lower_octet b.
Proof. unfold visible, fold_rune, lower_octet. intros Hb. case_match; [done|]. replace (b =? 0x17F) with false by lia. by replace (b =? 0x212A) with false by lia. Qed.
Lemma equal_fold_visibles s name : visibles s -> name_text name -> equal_fold s name = bool_decide (lower s = lower (go_bytes name)).
Proof.
  intros Hs Hn. unfold equal_fold. rewrite runes_of_ascii by by apply visible_ascii. unfold lower.
  assert (Hf : forall s, visibles s -> fold_rune <$> s = lower_octet <$> s).
  { clear. induction 1 as [|b s Hb Hs IH]; [done|]. rewrite !fmap_cons, IH. f_equal. by apply fold_lower. }
  by rewrite !Hf by done.
Qed.
Lemma lower_idem s : lower (lower s) = lower s.
Proof. unfold lower. rewrite <- list_fmap_compose. apply list_fmap_ext. intros _ b _. unfold compose, lower_octet. repeat case_match; lia. Qed.

(** ** Names of headers *)
Definition cap (part : bytes) : bytes := match part with [] => [] | b :: rest => upper_octet b :: lower rest end.
Definition canon (n : bytes) : bytes :=
  match list_find (fun p => p.1 = lower n) canonical_names with
  | Some (_, (_, c)) => c
  | None => strings_Join (cap <$> strings_Split n 45) [45]
  end.
Lemma split_Forall (P : Z -> Prop) s sep : Forall P s -> Forall (Forall P) (strings_Split s sep).
Proof.
  induction 1 as [|b s Hb Hs IH]; [by repeat constructor|]. cbn [strings_Split]. case_match; [by constructor|]. destruct (strings_Split s sep) as [|p ps]; [by repeat constructor|].
  apply Forall_cons in IH as [Hp Hps]. by repeat constructor.
Qed.
Lemma split_not_in s sep : Forall (fun l => sep ∉ l) (strings_Split s sep).
Proof.
  induction s as [|b s IH]; [repeat constructor; apply not_elem_of_nil|]. cbn [strings_Split]. destruct (Z.eqb_spec b sep) as [|Hb]; [constructor; [apply not_elem_of_nil|done]|].
  destruct (strings_Split s sep) as [|p ps]; [repeat constructor; set_solver|]. apply Forall_cons in IH as [Hp Hps]. constructor; [|done]. by apply not_elem_of_cons.
Qed.
Lemma canonical_visibles `{UnicodeCase} n : visibles n -> canonicalHeaderName n = canon n.
Proof.
  intros Hn. unfold canonicalHeaderName, canon. rewrite TrimSpace_visible, ToLower_visibles by done. destruct (list_find _ _) as [[? [? ?]]|]; [done|]. f_equal.
  pose proof (split_Forall _ n 45 Hn) as Hs. induction Hs as [|p ps Hp Hps IH]; [done|]. rewrite !fmap_cons, IH. f_equal.
  destruct p as [|b p]; [done|]. apply Forall_cons in Hp as [Hb Hp]. cbn [capitalised cap]. rewrite ToUpper_visibles, ToLower_visibles by (done || by constructor). done.
Qed.
Lemma lower_split s : strings_Split (lower s) 45 = lower <$> strings_Split s 45.
Proof.
  unfold lower. induction s as [|b s IH]; [done|]. cbn [fmap list_fmap strings_Split]. replace (lower_octet b =? 45) with (b =? 45) by (unfold lower_octet; case_match; lia).
  rewrite IH. destruct (b =? 45); [done|]. by destruct (strings_Split s 45).
Qed.
Lemma lower_join ps : lower (strings_Join ps [45]) = strings_Join (lower <$> ps) [45].
Proof.
  unfold lower. induction ps as [|p ps IH]; [done|]. destruct ps as [|p' ps]; [done|]. rewrite join_cons by done. rewrite !fmap_app. rewrite IH. by rewrite (fmap_cons _ p (p' :: ps)), (join_cons _ _ [45]).
Qed.
Lemma lower_cap p : lower (cap p) = lower p.
Proof.
  destruct p as [|b p]; [done|]. cbn [cap]. unfold lower at 1 3. rewrite !fmap_cons. f_equal; [unfold lower_octet, upper_octet; repeat case_match; lia|]. apply lower_idem.
Qed.
Lemma cap_lower p : cap (lower p) = cap p.
Proof. destruct p as [|b p]; [done|]. cbn [cap lower fmap list_fmap]. f_equal; [unfold lower_octet, upper_octet; repeat case_match; lia|]. apply lower_idem. Qed.
Lemma canon_of_lower n : canon (lower n) = canon n.
Proof.
  unfold canon. rewrite lower_idem. destruct (list_find _ _) as [[? [? ?]]|]; [done|]. f_equal. rewrite lower_split, <- list_fmap_compose. apply list_fmap_ext. intros _ p _. apply cap_lower.
Qed.
Lemma canon_lower n n' : lower n = lower n' -> canon n = canon n'.
Proof. intros H. rewrite <- (canon_of_lower n), <- (canon_of_lower n'). by rewrite H. Qed.
Lemma table_canonical : Forall (fun p => canon p.2 = p.2 /\ name_ok p.2) canonical_names.
Proof. by_decide. Qed.
Lemma canon_idem n : canon (canon n) = canon n.
Proof.
  destruct (list_find (fun p => p.1 = lower n) canonical_names) as [[i [k c]]|] eqn:E.
  - replace (canon n) with c by (unfold canon; by rewrite E). apply list_find_Some in E as (Hi & _). apply list_elem_of_lookup_2 in Hi. pose proof table_canonical as T. rewrite Forall_forall in T. by apply T in Hi as [? _].
  - apply canon_lower. unfold canon. rewrite E. rewrite lower_join, <- list_fmap_compose. rewrite <- (join_split n 45) at 2. rewrite lower_join. f_equal. apply list_fmap_ext. intros _ p _. apply lower_cap.
Qed.
(** A canonical name that is a name in another case is that name's canonical form. *)
Lemma canon_fold n name : visibles (canon n) -> name_text name -> equal_fold (canon n) name = true -> canon n = canon (go_bytes name).
Proof. intros Hv Hn He. rewrite equal_fold_visibles in He by done. apply bool_decide_eq_true in He. rewrite <- canon_idem. by apply canon_lower. Qed.
Lemma canon_name_ok n : name_ok n -> name_ok (canon n).
Proof.
  intros (Hne & Hv & H58). unfold canon. destruct (list_find _ _) as [[i [k c]]|] eqn:E.
  - apply list_find_Some in E as (Hi & _). apply list_elem_of_lookup_2 in Hi. pose proof table_canonical as T. rewrite Forall_forall in T. by apply T in Hi as [_ ?].
  - clear E. assert (Hl : lower (strings_Join (cap <$> strings_Split n 45) [45]) = lower n).
    { rewrite lower_join, <- list_fmap_compose. rewrite <- (join_split n 45) at 2. rewrite lower_join. f_equal. apply list_fmap_ext. intros _ p _. apply lower_cap. }
    set (j := strings_Join _ _) in *. clearbody j. unfold lower in Hl.
    assert (Hall : Forall (fun b => visible b = true /\ b <> 58) j).
    { assert (Hn : Forall (fun b => visible b = true /\ b <> 58) (lower_octet <$> n)).
      { apply Forall_fmap, Forall_forall. intros b Hb. rewrite Forall_forall in Hv. split; [by apply lower_octet_visible, Hv|]. intros E. apply H58. unfold lower_octet in E. case_match; [lia|by subst b]. }
      rewrite <- Hl in Hn. apply Forall_fmap in Hn. eapply Forall_impl; [exact Hn|]. intros b. unfold compose, visible, lower_octet. case_match; lia. }
    split_and!; [intros ->; by destruct n| |].
    + eapply Forall_impl; [exact Hall|]. by intros b [? _].
    + rewrite Forall_forall in Hall. intros Hin. by apply Hall in Hin as [_ ?].
Qed.
