(* ===== verification/SipFields.v ===== *)
(** * Header sections: what is written is read back

    The header fields of a message as a list: the parser gathers them by canonical name; the
    two writers write, in any order of the maps they range over, every header once, and the
    length of the body once. *)
From stdpp Require Import gmap.
From S2P Require Import Prelude GoStrings Utf8 Hex Errors SipTransaction SipMessage SipText.
#[local] Open Scope string_scope.
#[local] Open Scope list_scope.
#[local] Open Scope Z_scope.

(** ** Header fields *)
Definition field_line (f : bytes * bytes) : bytes := f.1 ++ [58; 32] ++ f.2.
Definition field_ok (f : bytes * bytes) : Prop := name_ok f.1 /\ text_ok f.2.
Definition values (c : bytes) (fs : list (bytes * bytes)) : list bytes := omap (fun f => if bool_decide (f.1 = c) then Some f.2 else None) fs.
Definition canonical_field (f : bytes * bytes) : bytes * bytes := (canon f.1, f.2).
Definition gather (fs : list (bytes * bytes)) (h : headers) : headers := fold_left (fun h f => add_header h f.1 f.2) fs h.
Definition some_values (vs : list bytes) : option (list bytes) := match vs with [] => None | _ => Some vs end.
Lemma values_app c fs gs : values c (fs ++ gs) = values c fs ++ values c gs.
Proof. apply omap_app. Qed.
Lemma gather_lookup fs h c : gather fs h !! c = match values c fs with [] => h !! c | vs => Some (default [] (h !! c) ++ vs) end.
Proof.
  revert h. induction fs as [|[n v] fs IH]; intros h; [done|]. cbn [gather fold_left fst snd]. fold (gather fs (add_header h n v)). rewrite IH. unfold add_header.
  change (values c ((n, v) :: fs)) with (match (if bool_decide (n = c) then Some v else None) with Some y => y :: values c fs | None => values c fs end).
  case_bool_decide as H; [subst n|by rewrite lookup_insert_ne by done]. rewrite lookup_insert_eq. destruct (values c fs) as [|w ws]; [done|]. cbn. by rewrite <- app_assoc.
Qed.
Lemma gather_empty fs c : gather fs ∅ !! c = some_values (values c fs).
Proof. rewrite gather_lookup, lookup_empty. by destruct (values c fs). Qed.
Lemma values_none c fs : (forall f, f ∈ fs -> f.1 <> c) -> values c fs = [].
Proof.
  intros H. induction fs as [|f fs IH]; [done|]. change (values c (f :: fs)) with (match (if bool_decide (f.1 = c) then Some f.2 else None) with Some y => y :: values c fs | None => values c fs end).
  rewrite bool_decide_eq_false_2 by (apply H; left). apply IH. intros g Hg. apply H. by right.
Qed.
Lemma field_text f : field_ok f -> text_ok (field_line f) /\ line_ok (field_line f).
Proof.
  intros [(Hn & Hv & H58) Ht]. destruct f as [n v]. cbn [fst snd] in *. unfold field_line. cbn [fst snd].
  assert (H : text_ok ((n ++ [58]) ++ [32] ++ v)). { apply text_words; [|done]. apply token_text; [by destruct n|]. apply Forall_app. split; [done|by repeat constructor]. }
  rewrite <- app_assoc in H. split; [done|]. destruct n as [|b n]; [done|]. apply Forall_cons in Hv as [Hb _]. cbn [app] in *. by apply text_line.
Qed.
Lemma parse_fields `{UnicodeCase} fs h : Forall field_ok fs -> parse_headers_loop (field_line <$> fs) h = Ok (gather (canonical_field <$> fs) h).
Proof.
  intros Hf. revert h. induction Hf as [|[n v] fs [(Hn & Hv & H58) (Hv0 & Ht & _)] Hfs IH]; intros h; [done|]. cbn [fst snd] in *. cbn [fmap list_fmap parse_headers_loop].
  unfold field_line at 1. cbn [fst snd app]. rewrite cut_at_app by done. rewrite TrimSpace_visible, trim_space_before by done. rewrite bool_decide_eq_false_2 by done.
  rewrite canonical_visibles by done. by rewrite IH.
Qed.

(** ** Content-Length *)
Definition cl : bytes := go_bytes "Content-Length".
Definition is_length (k : bytes) : bool := equal_fold k "Content-Length" || equal_fold k "l".
Definition canonical_keys (h : headers) : Prop := forall k vs, h !! k = Some vs -> canon k = k /\ visibles k.
Lemma is_length_canon k : canon k = k -> visibles k -> is_length k = true -> k = cl.
Proof.
  intros Hc Hv Hl. unfold is_length in Hl. apply orb_prop in Hl as [H|H]; rewrite <- Hc; (erewrite canon_fold; [|by rewrite Hc| |by rewrite Hc; exact H]); by_decide.
Qed.
Lemma length_headers_all l n m seen : 0 <= n < 2 ^ 63 ->
  (forall p, p ∈ l -> is_length p.1 = true -> p.2 = [Itoa n]) -> (seen = true -> m = n) -> (seen = true \/ exists p, p ∈ l /\ is_length p.1 = true) ->
  length_headers l m seen = Ok (n, true).
Proof.
  intros Hn. revert m seen. induction l as [|[k vs] l IH]; intros m seen Hall Hs Hex.
  - destruct Hex as [->|(p & Hp & _)]; [by rewrite Hs|by apply not_elem_of_nil in Hp].
  - cbn [length_headers]. assert (Hall' : forall p, p ∈ l -> is_length p.1 = true -> p.2 = [Itoa n]) by (intros p Hp; apply Hall; by right).
    pose proof (Hall (k, vs) ltac:(left)) as Hk. cbn [fst snd] in Hk. rewrite <- negb_orb. fold (is_length k). destruct (is_length k) eqn:El; cbn [negb].
    + rewrite (Hk eq_refl). cbn [length_values]. pose proof (Itoa_token n ltac:(lia)) as [_ Hv]. rewrite TrimSpace_visible, Atoi_Itoa by done. rewrite bool_decide_eq_false_2 by done.
      replace (n <? 0) with false by lia. replace (seen && negb (n =? m)) with false by (destruct seen; [rewrite Hs by done; lia|done]). cbn [bind fst snd]. apply IH; [done|done|by left].
    + apply IH; [done|done|]. destruct Hex as [?|(p & Hp & Hpl)]; [by left|right]. apply elem_of_cons in Hp as [->|Hp]; [cbn in Hpl; congruence|eauto].
Qed.
Lemma length_headers_none l m seen : (forall p, p ∈ l -> is_length p.1 = false) -> length_headers l m seen = Ok (m, seen).
Proof.
  intros Hall. induction l as [|[k vs] l IH]; [done|]. cbn [length_headers]. rewrite <- negb_orb. pose proof (Hall (k, vs) ltac:(left)) as Hk. cbn [fst] in Hk. unfold is_length in Hk. rewrite Hk. apply IH.
  intros p Hp. apply Hall. by right.
Qed.
Lemma strict_length `{RangeOrder} h n : 0 <= n < 2 ^ 63 -> canonical_keys h -> h !! cl = Some [Itoa n] -> strictContentLength h = Ok (n, true).
Proof.
  intros Hn Hk Hcl. unfold strictContentLength. apply length_headers_all; [done| |done|].
  - intros [k vs] Hp Hl. rewrite range_map_perm in Hp. apply elem_of_map_to_list in Hp. destruct (Hk k vs Hp) as [Hc Hv]. cbn [fst snd] in *. apply is_length_canon in Hl as ->; [|done..]. congruence.
  - right. exists (cl, [Itoa n]). split; [|by_decide]. rewrite range_map_perm. by apply elem_of_map_to_list.
Qed.
Lemma body_whole `{RangeOrder} h body : len body < 2 ^ 63 -> canonical_keys h -> h !! cl = Some [Itoa (len body)] -> sipBodyByContentLength h body = Ok body.
Proof.
  intros Hb Hk Hcl. unfold sipBodyByContentLength. rewrite (strict_length h (len body)) by (done || (unfold len in *; lia)). cbn [bind fst snd negb]. rewrite Z.ltb_irrefl.
  by rewrite (slice_eq body [] body []) by (rewrite ?app_nil_r; done).
Qed.
Lemma gather_canonical fs : Forall (fun f => name_ok f.1) fs -> canonical_keys (gather (canonical_field <$> fs) ∅).
Proof.
  intros Hf k vs. rewrite gather_empty. intros Hk. assert (Hin : exists f, f ∈ canonical_field <$> fs /\ f.1 = k).
  { destruct (decide (Exists (fun f => f.1 = k) (canonical_field <$> fs))) as [H|H]; [by apply Exists_exists in H|]. rewrite values_none in Hk; [done|]. intros f Hin E. apply H, Exists_exists. eauto. }
  destruct Hin as (f & Hin & <-). apply list_elem_of_fmap in Hin as (g & -> & Hg). rewrite Forall_forall in Hf. apply Hf in Hg. cbn [canonical_field fst]. split; [apply canon_idem|]. by apply canon_name_ok.
Qed.

(** ** Writing the header fields *)
Section writing.
Context {U : UnicodeCase} {R : RangeOrder} {A : Type} (tv : A -> list bytes).
(** What a name of the order and a range over the headers give, and what the last loop gives. *)
Definition name_fields (name : string) (l : list (bytes * A)) : list (bytes * bytes) :=
  concat ((fun p => (fun v => (go_bytes name, v)) <$> tv p.2) <$> List.filter (fun p => equal_fold p.1 name) l).
Fixpoint order_fields (site : nat) (order : list string) (h : gmap bytes A) : list (bytes * bytes) :=
  match order with [] => [] | name :: order => name_fields name (range_map site h) ++ order_fields (S site) order h end.
Definition other_key (written : list bytes) (p : bytes * A) : bool := negb (equal_fold p.1 "Content-Length") && negb (bool_decide (strings_ToLower p.1 ∈ written)).
Definition other_fields (written : list bytes) (l : list (bytes * A)) : list (bytes * bytes) :=
  concat ((fun p => (fun v => (p.1, v)) <$> tv p.2) <$> List.filter (other_key written) l).
Definition fields_text (fs : list (bytes * bytes)) : bytes := concat ((fun l => l ++ crlf) <$> (field_line <$> fs)).
(** The keys that the ordered part has written. *)
Definition written_keys (order : list string) (h : gmap bytes A) (written : list bytes) : Prop :=
  forall x, x ∈ written <-> exists name k a, name ∈ order /\ h !! k = Some a /\ equal_fold k name = true /\ strings_ToLower k = x.

Definition keys_ok (h : gmap bytes A) : Prop :=
  (forall k a, h !! k = Some a -> name_ok k) /\ (forall k k' a a', h !! k = Some a -> h !! k' = Some a' -> canon k = canon k' -> k = k').
Lemma key_visibles h k a : keys_ok h -> h !! k = Some a -> visibles k.
Proof. intros [Hok _] Hk. by apply Hok in Hk as (_ & ? & _). Qed.
Definition named (c : bytes) (l : list (bytes * A)) : list (bytes * A) := filter (fun p => canon p.1 = c) l.
Lemma named_here h l k a : l ≡ₚ map_to_list h -> keys_ok h -> h !! k = Some a -> named (canon k) l = [(k, a)].
Proof.
  intros Hl [_ Hu] Hk. apply Permutation_singleton_r, NoDup_Permutation; [|apply NoDup_singleton|].
  - apply NoDup_filter. rewrite Hl. apply NoDup_map_to_list.
  - intros [k' a']. unfold named. rewrite list_elem_of_filter, Hl, elem_of_map_to_list, list_elem_of_singleton. cbn [fst]. split; [|by intros [= -> ->]].
    intros [Hc Hk']. assert (k' = k) as -> by by eapply Hu. congruence.
Qed.
Lemma named_nowhere h l c : l ≡ₚ map_to_list h -> (forall k a, h !! k = Some a -> canon k <> c) -> named c l = [].
Proof.
  intros Hl Hc. destruct (named c l) as [|p t] eqn:E; [done|]. assert (Hp : p ∈ named c l) by (rewrite E; left). unfold named in Hp. rewrite list_elem_of_filter, Hl in Hp.
  destruct p as [k a], Hp as [Hk Hp%elem_of_map_to_list]. by destruct (Hc k a Hp).
Qed.
Lemma fold_canon k name : visibles k -> name_text name -> equal_fold k name = true -> canon k = canon (go_bytes name).
Proof. intros Hv Hn He. rewrite equal_fold_visibles in He by done. apply bool_decide_eq_true in He. by apply canon_lower. Qed.
Lemma values_pairs c n (vs : list bytes) : values c (canonical_field <$> ((fun v => (n, v)) <$> vs)) = if bool_decide (canon n = c) then vs else [].
Proof.
  case_bool_decide as H.
  - induction vs as [|v vs IH]; [done|]. unfold values in *. cbn [fmap list_fmap omap list_omap canonical_field fst snd]. rewrite bool_decide_eq_true_2 by done. f_equal. exact IH.
  - apply values_none. intros f Hf. apply list_elem_of_fmap in Hf as (g & -> & Hg). apply list_elem_of_fmap in Hg as (v & -> & _). done.
Qed.
Lemma name_values c name l : name_text name -> (forall p, p ∈ l -> visibles p.1) ->
  values c (canonical_field <$> name_fields name l) = concat ((fun p => if equal_fold p.1 name then tv p.2 else []) <$> named c l).
Proof.
  intros Hn. unfold name_fields, named. induction l as [|[k a] l IH]; intros Hl; [done|]. cbn [List.filter fst]. specialize (IH (fun p Hp => Hl p (list_elem_of_further p (k, a) l Hp))).
  rewrite filter_cons. cbn [fst]. destruct (equal_fold k name) eqn:Ek.
  - cbn [fmap list_fmap concat snd]. rewrite fmap_app, values_app, values_pairs. rewrite <- (fold_canon k name) by (done || apply (Hl (k, a)); left). case_decide as Hc.
    + rewrite bool_decide_eq_true_2 by done. cbn [fmap list_fmap concat fst snd]. rewrite Ek. by rewrite <- IH.
    + rewrite bool_decide_eq_false_2 by done. exact IH.
  - case_decide; [|exact IH]. cbn [fmap list_fmap concat fst snd]. rewrite Ek. exact IH.
Qed.
Lemma other_values c written l : values c (canonical_field <$> other_fields written l) = concat ((fun p => if other_key written p then tv p.2 else []) <$> named c l).
Proof.
  unfold other_fields, named. induction l as [|[k a] l IH]; [done|]. cbn [List.filter]. rewrite filter_cons. cbn [fst]. destruct (other_key written (k, a)) eqn:Ek.
  - cbn [fmap list_fmap concat fst snd]. rewrite fmap_app, values_app, values_pairs. case_decide as Hc.
    + rewrite bool_decide_eq_true_2 by done. cbn [fmap list_fmap concat snd]. rewrite Ek. by rewrite <- IH.
    + rewrite bool_decide_eq_false_2 by done. exact IH.
  - case_decide; [|exact IH]. cbn [fmap list_fmap concat snd]. rewrite Ek. exact IH.
Qed.
Definition in_order (order : list string) (k : bytes) : bool := existsb (equal_fold k) order.
Lemma order_values (c : bytes) (site : nat) (order : list string) (h : gmap bytes A) : Forall name_text order -> NoDup ((fun n => lower (go_bytes n)) <$> order) -> keys_ok h ->
  values c (canonical_field <$> order_fields site order h) = concat ((fun p => if in_order order p.1 then tv p.2 else []) <$> named c (map_to_list h)).
Proof.
  intros Hn Hd Hok. assert (Hvis : forall k a, h !! k = Some a -> visibles k) by (intros k a Hk; by apply (proj1 Hok) in Hk as (_ & ? & _)).
  assert (Hone : forall i, named c (range_map i h) = named c (map_to_list h) /\ (named c (map_to_list h) = [] \/ exists k a, h !! k = Some a /\ named c (map_to_list h) = [(k, a)])).
  { intros i. destruct (decide (Exists (fun p => canon p.1 = c) (map_to_list h))) as [H|H].
    - apply Exists_exists in H as ([k a] & Hk%elem_of_map_to_list & <-). cbn [fst]. rewrite (named_here h _ k a (range_map_perm i h)), (named_here h _ k a) by done. split; [done|right; eauto].
    - assert (Hno : forall k a, h !! k = Some a -> canon k <> c) by (intros k a Hk Hc; apply H, Exists_exists; exists (k, a); split; [by apply elem_of_map_to_list|done]).
      rewrite !(named_nowhere h) by (done || apply range_map_perm). split; [done|by left]. }
  revert site Hd. induction Hn as [|name order Hname Hn IH]; intros site Hd.
  - cbn [order_fields fmap list_fmap]. destruct (Hone 0%nat) as [_ [->|(k & a & _ & ->)]]; done.
  - apply NoDup_cons in Hd as [Hni Hd]. cbn [order_fields]. rewrite fmap_app, values_app, name_values, IH by (try done; intros p Hp; rewrite range_map_perm in Hp; destruct p as [k a]; apply elem_of_map_to_list in Hp; by eapply Hvis).
    destruct (Hone site) as [-> [->|(k & a & Hk & ->)]]; [done|]. cbn [fmap list_fmap concat fst snd in_order existsb]. fold (in_order order k). rewrite !app_nil_r.
    destruct (equal_fold k name) eqn:Ek; [|done]. cbn [orb]. replace (in_order order k) with false; [by rewrite app_nil_r|]. symmetry. apply not_true_iff_false. intros Hx. apply existsb_exists in Hx as (n' & Hn' & He').
    apply list_elem_of_In in Hn'. rewrite Forall_forall in Hn. pose proof (Hvis k a Hk) as Hv. rewrite equal_fold_visibles in Ek, He' by (done || by apply Hn). apply bool_decide_eq_true in Ek, He'.
    apply Hni. rewrite <- Ek, He'. apply list_elem_of_fmap. eauto.
Qed.
(** What is written under a name is what the headers hold under it. *)
Lemma written_values (order : list string) (written : list bytes) (h : gmap bytes A) k a lengths : Forall name_text order -> NoDup ((fun n => lower (go_bytes n)) <$> order) -> keys_ok h ->
  written_keys order h written -> h !! k = Some a -> canon k <> cl ->
  values (canon k) (canonical_field <$> (order_fields 0 order h ++ other_fields written (range_map 100 h) ++ ((fun v => (cl, v)) <$> lengths))) = tv a.
Proof.
  intros Hn Hd Hok Hw Hk Hc. rewrite !fmap_app, !values_app, order_values, other_values, values_pairs by done. rewrite bool_decide_eq_false_2 by done.
  rewrite (named_here h _ k a (range_map_perm 100 h)), (named_here h _ k a) by done. cbn [fmap list_fmap concat fst snd]. rewrite !app_nil_r. pose proof (proj1 Hok k a Hk) as (_ & Hv & _).
  assert (Hl : equal_fold k "Content-Length" = false). { apply not_true_iff_false. intros He. apply Hc. rewrite (fold_canon k "Content-Length") by (done || by_decide). by_decide. }
  unfold other_key. cbn [fst]. rewrite Hl. cbn [negb andb]. destruct (in_order order k) eqn:Eo.
  - apply existsb_exists in Eo as (n & Hn'%list_elem_of_In & He). rewrite bool_decide_eq_true_2; [by rewrite app_nil_r|]. apply Hw. eauto 8.
  - rewrite bool_decide_eq_false_2; [done|]. intros (n & k' & a' & Hno & Hk' & He & Hlow)%Hw. pose proof (proj1 Hok k' a' Hk') as (_ & Hv' & _). rewrite !ToLower_visibles in Hlow by done.
    assert (k' = k) as -> by (eapply (proj2 Hok); [done..|by apply canon_lower]). apply not_true_iff_false in Eo. apply Eo. apply existsb_exists. exists n. split; [by apply list_elem_of_In|done].
Qed.
Lemma unwritten_values (c : bytes) (order : list string) (written : list bytes) (h : gmap bytes A) lengths : Forall name_text order -> NoDup ((fun n => lower (go_bytes n)) <$> order) -> keys_ok h ->
  (forall k a, h !! k = Some a -> canon k <> c) -> c <> cl ->
  values c (canonical_field <$> (order_fields 0 order h ++ other_fields written (range_map 100 h) ++ ((fun v => (cl, v)) <$> lengths))) = [].
Proof.
  intros Hn Hd Hok Hno Hc. rewrite !fmap_app, !values_app, order_values, other_values, values_pairs by done. rewrite bool_decide_eq_false_2 by done.
  by rewrite !(named_nowhere h _ c) by (done || apply range_map_perm).
Qed.
(** Of the length only the last line is written. *)
Lemma length_values_written (order : list string) (written : list bytes) (h : gmap bytes A) a lengths : Forall name_text order -> NoDup ((fun n => lower (go_bytes n)) <$> order) -> keys_ok h ->
  Forall (fun n => canon (go_bytes n) <> cl) order -> h !! cl = Some a ->
  values cl (canonical_field <$> (order_fields 0 order h ++ other_fields written (range_map 100 h) ++ ((fun v => (cl, v)) <$> lengths))) = lengths.
Proof.
  intros Hn Hd Hok Hne Hk. assert (Hcl : canon cl = cl) by by_decide. rewrite !fmap_app, !values_app, order_values, other_values, values_pairs by done. rewrite Hcl. rewrite bool_decide_eq_true_2 by done.
  rewrite <- Hcl at 1 2. rewrite (named_here h _ cl a (range_map_perm 100 h)), (named_here h _ cl a) by done. cbn [fmap list_fmap concat fst snd].
  replace (other_key written (cl, a)) with false by (symmetry; unfold other_key; cbn [fst]; by replace (equal_fold cl "Content-Length") with true by (symmetry; by_decide)).
  replace (in_order order cl) with false; [done|]. symmetry. apply not_true_iff_false. intros (n & Hin & He)%existsb_exists. apply list_elem_of_In in Hin. rewrite Forall_forall in Hne, Hn.
  apply (Hne n Hin). rewrite <- (fold_canon cl n); [done|by_decide|by apply Hn|done].
Qed.
End writing.

(** *** The loops of the writers *)
Lemma fields_text_app fs gs : fields_text (fs ++ gs) = fields_text fs ++ fields_text gs.
Proof. unfold fields_text. by rewrite !fmap_app, concat_app. Qed.
Lemma fields_text_cons n v fs : fields_text ((n, v) :: fs) = header_line n v ++ fields_text fs.
Proof. unfold fields_text, header_line, field_line. cbn [fmap list_fmap concat fst snd]. by rewrite <- !app_assoc. Qed.
Lemma fold_only {A B} (P : A -> bool) (f : A -> B) y l acc : (forall p, p ∈ l -> P p = true -> f p = y) -> (acc = y \/ exists p, p ∈ l /\ P p = true) ->
  fold_left (fun acc p => if P p then f p else acc) l acc = y.
Proof.
  revert acc. induction l as [|p l IH]; intros acc Hall Hex; [destruct Hex as [?|(p & Hp & _)]; [done|by apply not_elem_of_nil in Hp]|]. cbn [fold_left]. apply IH.
  - intros q Hq. apply Hall. by right.
  - pose proof (Hall p ltac:(left)) as Hp. destruct (P p) eqn:E; [left; by apply Hp|]. destruct Hex as [?|(q & Hq & HPq)]; [by left|right]. apply elem_of_cons in Hq as [->|Hq]; [congruence|eauto].
Qed.
Section loops.
Context {U : UnicodeCase} {R : RangeOrder}.
Definition one_value (v : bytes) : list bytes := if blank v then [] else [v].
Definition all_values (vs : list bytes) : list bytes := TrimSpace <$> List.filter (fun v => negb (blank v)) vs.
Lemma value_lines_text name vs : value_lines name vs = fields_text ((fun v => (name, v)) <$> all_values vs).
Proof.
  unfold value_lines, all_values. induction (List.filter _ vs) as [|v l IH]; [done|]. cbn [fmap list_fmap concat]. rewrite fields_text_cons. by rewrite <- IH.
Qed.
Lemma named_text name l : (named_headers name l).1 = fields_text (name_fields one_value name l).
Proof.
  unfold named_headers, name_fields. cbn [fst]. induction l as [|[k v] l IH]; [done|]. cbn [List.filter fst snd]. destruct (equal_fold k name); [|exact IH]. cbn [andb fmap list_fmap concat fst snd].
  unfold one_value at 1. destruct (blank v); cbn [negb fmap list_fmap concat snd app]; [exact IH|]. rewrite fields_text_cons. by rewrite <- IH.
Qed.
Lemma named_values_text name l : concat ((fun p => value_lines (go_bytes name) p.2) <$> List.filter (fun p => equal_fold p.1 name) l) = fields_text (name_fields all_values name l).
Proof.
  unfold name_fields. induction (List.filter _ l) as [|p l' IH]; [done|]. cbn [fmap list_fmap concat]. rewrite fields_text_app, <- value_lines_text. by rewrite <- IH.
Qed.
Lemma found_keys {A} (name : string) (h : gmap bytes A) l x : l ≡ₚ map_to_list h ->
  x ∈ ((fun p => strings_ToLower p.1) <$> List.filter (fun p => equal_fold p.1 name) l) <-> exists k a, h !! k = Some a /\ equal_fold k name = true /\ strings_ToLower k = x.
Proof.
  intros Hl. rewrite list_elem_of_fmap. split.
  - intros ([k a] & -> & Hp). apply list_elem_of_In, filter_In in Hp as [Hp He]. apply list_elem_of_In in Hp. rewrite Hl in Hp. apply elem_of_map_to_list in Hp. eauto 6.
  - intros (k & a & Hk & He & <-). exists (k, a). split; [done|]. apply list_elem_of_In, filter_In. split; [|done]. apply list_elem_of_In. rewrite Hl. by apply elem_of_map_to_list.
Qed.
Lemma found_unblank (name : string) (h : gmap bytes bytes) l : l ≡ₚ map_to_list h -> (forall k v, h !! k = Some v -> blank v = false) ->
  (named_headers name l).2 = (fun p => strings_ToLower p.1) <$> List.filter (fun p => equal_fold p.1 name) l.
Proof.
  intros Hl Hb. unfold named_headers. cbn [snd]. f_equal. assert (Hall : forall p, p ∈ l -> blank p.2 = false) by (intros [k v] Hp; rewrite Hl in Hp; apply elem_of_map_to_list in Hp; by eapply Hb).
  clear Hl. induction l as [|p l IH]; [done|]. cbn [List.filter]. rewrite (Hall p) by left. rewrite andb_true_r, IH by (intros q Hq; apply Hall; by right). done.
Qed.
Lemma first_or_later {A} (Q : string -> bytes -> A -> Prop) name order (P : Prop) :
  ((exists k a, Q name k a) \/ P) \/ (exists n k a, n ∈ order /\ Q n k a) <-> P \/ exists n k a, n ∈ name :: order /\ Q n k a.
Proof.
  split.
  - intros [[(k & a & H)|H]|(n & k & a & Hn & H)]; [right; exists name, k, a; split; [left|done]|by left|right; exists n, k, a; split; [by right|done]].
  - intros [H|(n & k & a & [->|Hn]%elem_of_cons & H)]; [left; by right|left; left; eauto|right; eauto 6].
Qed.
(** The two ordered loops: their text, and the keys they have written. *)
Lemma ordered_loop_text (site : nat) (order : list string) (h : gmap bytes bytes) written : (forall k v, h !! k = Some v -> blank v = false) ->
  (ordered_loop site order h written).1 = fields_text (order_fields one_value site order h) /\
  forall x, x ∈ (ordered_loop site order h written).2 <-> x ∈ written \/ exists name k v, name ∈ order /\ h !! k = Some v /\ equal_fold k name = true /\ strings_ToLower k = x.
Proof.
  intros Hb. revert site written. induction order as [|name order IH]; intros site written.
  - split; [done|]. intros x. cbn [ordered_loop snd]. split; [by left|]. intros [?|(n & _ & _ & Hn & _)]; [done|by apply not_elem_of_nil in Hn].
  - cbn [ordered_loop order_fields]. pose proof (named_text name (range_map site h)) as Ht. pose proof (found_unblank name h _ (range_map_perm site h) Hb) as Hk.
    destruct (named_headers name (range_map site h)) as [text keys]. cbn [fst snd] in Ht, Hk. destruct (IH (S site) (keys ++ written)) as [IH1 IH2]. destruct (ordered_loop (S site) order h (keys ++ written)) as [rest w]. cbn [fst snd] in *.
    split; [by rewrite fields_text_app, Ht, IH1|]. intros x. rewrite IH2, elem_of_app, Hk, (found_keys name h _ x (range_map_perm site h)). apply (first_or_later (fun n k v => h !! k = Some v /\ equal_fold k n = true /\ strings_ToLower k = x)).
Qed.
Lemma ordered_values_loop_text (site : nat) (order : list string) (h : headers) written :
  (ordered_values_loop site order h written).1 = fields_text (order_fields all_values site order h) /\
  forall x, x ∈ (ordered_values_loop site order h written).2 <-> x ∈ written \/ exists name k v, name ∈ order /\ h !! k = Some v /\ equal_fold k name = true /\ strings_ToLower k = x.
Proof.
  revert site written. induction order as [|name order IH]; intros site written.
  - split; [done|]. intros x. cbn [ordered_values_loop snd]. split; [by left|]. intros [?|(n & _ & _ & Hn & _)]; [done|by apply not_elem_of_nil in Hn].
  - cbn [ordered_values_loop order_fields]. cbv zeta. set (keys := _ <$> _). destruct (IH (S site) (keys ++ written)) as [IH1 IH2]. destruct (ordered_values_loop (S site) order h (keys ++ written)) as [rest w]. cbn [fst snd] in *.
    split; [by rewrite fields_text_app, named_values_text, IH1|]. intros x. unfold keys in IH2. rewrite IH2, elem_of_app, (found_keys name h _ x (range_map_perm site h)). apply (first_or_later (fun n k v => h !! k = Some v /\ equal_fold k n = true /\ strings_ToLower k = x)).
Qed.
Definition same_but_length (written written' : list bytes) : Prop :=
  forall k, visibles k -> equal_fold k "Content-Length" = false -> (strings_ToLower k ∈ written' <-> strings_ToLower k ∈ written).
Lemma same_with_length written written' k : visibles k -> equal_fold k "Content-Length" = true -> same_but_length written written' -> same_but_length written (strings_ToLower k :: written').
Proof.
  intros Hv Hk Hs k' Hv' Hk'. rewrite elem_of_cons, (Hs k') by done. split; [|by right]. intros [E|?]; [|done]. exfalso. rewrite !ToLower_visibles in E by done. rewrite equal_fold_visibles in Hk, Hk' by by_decide || done.
  rewrite E in Hk'. congruence.
Qed.
Lemma other_loop_text l written written' length : (forall p, p ∈ l -> visibles p.1) -> same_but_length written written' ->
  other_loop l written' length = (fields_text (other_fields one_value written l), fold_left (fun acc p => if equal_fold p.1 "Content-Length" then TrimSpace p.2 else acc) l length).
Proof.
  revert written' length. induction l as [|[k v] l IH]; intros written' length Hl Hs; [done|]. pose proof (Hl (k, v) ltac:(left)) as Hk. cbn [fst] in Hk. cbn [other_loop fold_left fst snd].
  assert (Hl' : forall p, p ∈ l -> visibles p.1) by (intros p Hp; apply Hl; by right). unfold other_fields in *. cbn [List.filter]. unfold other_key at 1. cbn [fst]. destruct (equal_fold k "Content-Length") eqn:Ek; cbn [negb andb].
  - apply IH; [done|]. by apply same_with_length.
  - rewrite (bool_decide_ext _ _ (Hs k Hk Ek)). destruct (bool_decide (strings_ToLower k ∈ written)); cbn [negb orb]; [by apply IH|]. cbn [fmap list_fmap concat fst snd]. unfold one_value at 1.
    destruct (blank v); [by apply IH|]. rewrite IH by done. cbn [fmap list_fmap app]. by rewrite fields_text_cons.
Qed.
Lemma other_values_loop_text l written written' length : (forall p, p ∈ l -> visibles p.1 /\ blank p.1 = false) -> same_but_length written written' ->
  other_values_loop l written' length = (fields_text (other_fields all_values written l), fold_left (fun acc p => if equal_fold p.1 "Content-Length" then trimHeaderValues p.2 else acc) l length).
Proof.
  revert written' length. induction l as [|[k v] l IH]; intros written' length Hl Hs; [done|]. pose proof (Hl (k, v) ltac:(left)) as [Hk Hb]. cbn [fst] in Hk, Hb. cbn [other_values_loop fold_left fst snd].
  assert (Hl' : forall p, p ∈ l -> visibles p.1 /\ blank p.1 = false) by (intros p Hp; apply Hl; by right). unfold other_fields in *. cbn [List.filter]. unfold other_key at 1. cbn [fst]. destruct (equal_fold k "Content-Length") eqn:Ek; cbn [negb andb].
  - apply IH; [done|]. by apply same_with_length.
  - rewrite (bool_decide_ext _ _ (Hs k Hk Ek)). destruct (bool_decide (strings_ToLower k ∈ written)); cbn [negb]; [by apply IH|]. cbn [fmap list_fmap concat fst snd]. rewrite Hb, IH by done.
    by rewrite fields_text_app, <- value_lines_text.
Qed.

(** ** The header sections *)
(** The headers of a message under their canonical names. *)
Definition wire_values {A} (f : A -> list bytes) (h : gmap bytes A) : headers := list_to_map ((fun p => (canonicalHeaderName p.1, f p.2)) <$> map_to_list h).
Definition wire_headers : gmap bytes bytes -> headers := wire_values (fun v => [v]).
Definition sendable_headers (h : gmap bytes bytes) : Prop := keys_ok h /\ forall k v, h !! k = Some v -> text_ok v.
Lemma text_unblank v : text_ok v -> blank v = false.
Proof. intros (Hv & Ht & _). unfold blank. rewrite Ht. by apply bool_decide_eq_false_2. Qed.
Lemma request_order_ok : Forall name_text request_order /\ NoDup ((fun n => lower (go_bytes n)) <$> request_order) /\ Forall (fun n => canon (go_bytes n) <> cl) request_order /\ Forall (fun n => name_ok (go_bytes n)) request_order.
Proof. by_decide. Qed.
Lemma response_order_ok : Forall name_text response_order /\ NoDup ((fun n => lower (go_bytes n)) <$> response_order) /\ Forall (fun n => canon (go_bytes n) <> cl) response_order /\ Forall (fun n => name_ok (go_bytes n)) response_order.
Proof. by_decide. Qed.
Lemma fields_shape {A} (tv : A -> list bytes) (order : list string) (written : list bytes) (h : gmap bytes A) site lengths :
  Forall (fun n => name_ok (go_bytes n)) order -> keys_ok h -> (forall k a, h !! k = Some a -> Forall text_ok (tv a)) -> Forall text_ok lengths ->
  Forall field_ok (order_fields tv site order h ++ other_fields tv written (range_map 100 h) ++ ((fun v => (cl, v)) <$> lengths)).
Proof.
  intros Hn [Hok _] Hv Hl. assert (Hin : forall i p, p ∈ range_map i h -> name_ok p.1 /\ Forall text_ok (tv p.2)).
  { intros i [k a] Hp. rewrite range_map_perm in Hp. apply elem_of_map_to_list in Hp. split; [by eapply Hok|by eapply Hv]. }
  apply Forall_app. split; [|apply Forall_app; split].
  - revert site. induction Hn as [|name order Hname Hn IH]; intros site; [constructor|]. cbn [order_fields]. apply Forall_app. split; [|apply IH]. unfold name_fields. apply Forall_concat, Forall_fmap, Forall_forall. intros p Hp.
    apply list_elem_of_In, filter_In in Hp as [Hp%list_elem_of_In _]. apply Hin in Hp as [_ Hp]. apply Forall_fmap. eapply Forall_impl; [exact Hp|]. intros v Ht. by split.
  - unfold other_fields. apply Forall_concat, Forall_fmap, Forall_forall. intros p Hp. apply list_elem_of_In, filter_In in Hp as [Hp%list_elem_of_In _]. apply Hin in Hp as [Hk Hp]. apply Forall_fmap. eapply Forall_impl; [exact Hp|]. intros v Ht. by split.
  - apply Forall_fmap. eapply Forall_impl; [exact Hl|]. intros v Ht. split; [by_decide|done].
Qed.
Lemma wire_lookup {A} (f : A -> list bytes) h k v : keys_ok h -> h !! k = Some v -> wire_values f h !! canon k = Some (f v).
Proof.
  intros Hok Hk. unfold wire_values. apply elem_of_list_to_map_1.
  - rewrite <- list_fmap_compose. apply NoDup_fmap_2_strong; [|apply NoDup_map_to_list]. intros [k1 v1] [k2 v2] H1%elem_of_map_to_list H2%elem_of_map_to_list. cbn [compose fst].
    pose proof (proj1 Hok _ _ H1) as (_ & V1 & _). pose proof (proj1 Hok _ _ H2) as (_ & V2 & _). rewrite !canonical_visibles by done. intros E. assert (k1 = k2) as -> by by eapply (proj2 Hok). congruence.
  - apply list_elem_of_fmap. exists (k, v). split; [|by apply elem_of_map_to_list]. cbn [fst snd]. by rewrite canonical_visibles by apply (proj1 Hok _ _ Hk).
Qed.
Lemma wire_lookup_none {A} (f : A -> list bytes) h c : keys_ok h -> (forall k v, h !! k = Some v -> canon k <> c) -> wire_values f h !! c = None.
Proof.
  intros Hok Hc. unfold wire_values. apply not_elem_of_list_to_map_1. rewrite <- list_fmap_compose. intros ([k v] & E & Hk%elem_of_map_to_list)%list_elem_of_fmap. cbn [compose fst] in E.
  rewrite canonical_visibles in E by apply (proj1 Hok _ _ Hk). by eapply Hc.
Qed.
Lemma key_or_none {A} (h : gmap bytes A) c : (exists k a, h !! k = Some a /\ canon k = c) \/ (forall k a, h !! k = Some a -> canon k <> c).
Proof.
  destruct (decide (Exists (fun p => canon p.1 = c) (map_to_list h))) as [H|H]; [left|right].
  - apply Exists_exists in H as ([k a] & Hk%elem_of_map_to_list & E). eauto.
  - intros k a Hk E. apply H, Exists_exists. exists (k, a). split; [by apply elem_of_map_to_list|done].
Qed.
(** The header section of a request is read as its headers under their canonical names. *)
Lemma request_section h n : sendable_headers h -> 0 <= n -> h !! cl = Some (Itoa n) ->
  exists fs, writeOrderedHeaders h = fields_text fs /\ Forall field_ok fs /\ gather (canonical_field <$> fs) ∅ = wire_headers h /\ values cl (canonical_field <$> fs) = [Itoa n].
Proof.
  intros [Hok Hv] Hn Hcl. destruct request_order_ok as (O1 & O2 & O3 & O4). destruct (ordered_loop_text 0 request_order h []) as [Ht Hw]; [intros k v Hk; by eapply text_unblank, Hv|].
  destruct (Itoa_token n Hn) as [T1 T2]. unfold writeOrderedHeaders. destruct (ordered_loop 0 request_order h []) as [text written]. cbn [fst snd] in Ht, Hw.
  assert (Hwk : written_keys request_order h written). { intros x. rewrite Hw. split; [intros [Hx|?]; [by apply not_elem_of_nil in Hx|done]|by right]. }
  rewrite (other_loop_text _ written written); [| |done]. 2:{ intros [k v] Hp. rewrite range_map_perm in Hp. apply elem_of_map_to_list in Hp. by apply (proj1 Hok k v Hp). }
  rewrite (fold_only _ _ (Itoa n)). 2:{ intros [k v] Hp He. rewrite range_map_perm in Hp. apply elem_of_map_to_list in Hp. cbn [fst snd] in *. pose proof (proj1 Hok k v Hp) as (_ & Hvis & _).
    assert (k = cl) as ->. { eapply (proj2 Hok); [done..|]. rewrite (fold_canon k "Content-Length") by (done || by_decide). done. } rewrite Hcl in Hp. injection Hp as <-. by apply TrimSpace_visible. }
  2:{ right. exists (cl, Itoa n). split; [|by_decide]. rewrite range_map_perm. by apply elem_of_map_to_list. }
  exists (order_fields one_value 0 request_order h ++ other_fields one_value written (range_map 100 h) ++ ((fun v => (cl, v)) <$> [Itoa n])).
  assert (Hone : forall k v, h !! k = Some v -> one_value v = [v]) by (intros k v Hk; unfold one_value; by rewrite text_unblank by by eapply Hv).
  split_and!.
  - rewrite !fields_text_app, Ht. f_equal. f_equal. unfold length_line. rewrite bool_decide_eq_false_2 by done. cbn [fmap list_fmap]. rewrite fields_text_cons. by rewrite app_nil_r.
  - apply fields_shape; [done|done| |constructor; [by apply token_text|constructor]]. intros k v Hk. rewrite (Hone k v Hk). constructor; [by eapply Hv|constructor].
  - apply map_eq. intros c. rewrite gather_empty. destruct (decide (c = cl)) as [->|Hc].
    + rewrite (length_values_written one_value _ _ h (Itoa n)) by done. pose proof (wire_lookup (fun v => [v]) h cl (Itoa n) Hok Hcl) as Hwl. replace (canon cl) with cl in Hwl by by_decide. unfold wire_headers. by rewrite Hwl.
    + destruct (key_or_none h c) as [(k & v & Hk & <-)|Hno].
      * rewrite (written_values one_value _ _ h k v), (Hone k v Hk) by done. unfold wire_headers. by rewrite (wire_lookup _ h k v).
      * rewrite unwritten_values by done. unfold wire_headers. by rewrite wire_lookup_none.
  - by apply (length_values_written one_value _ _ h (Itoa n)).
Qed.
Definition writable (h : headers) : Prop := keys_ok h /\ forall k vs, h !! k = Some vs -> vs <> [] /\ Forall text_ok vs.
Lemma all_values_text vs : Forall text_ok vs -> all_values vs = vs /\ trimHeaderValues vs = vs.
Proof.
  unfold all_values, trimHeaderValues. induction 1 as [|v vs Hv Hvs [IH1 IH2]]; [done|]. cbn [List.filter fmap list_fmap]. rewrite text_unblank by done. destruct Hv as (Hv & Ht & _). cbn [negb fmap list_fmap]. rewrite Ht, bool_decide_eq_false_2 by done.
  cbn [negb]. split; f_equal; [by rewrite IH1|by rewrite IH2].
Qed.
(** The header section of a response is read as its headers under their canonical names. *)
Lemma response_section h n : writable h -> 0 <= n -> h !! cl = Some [Itoa n] ->
  exists fs, writeOrderedHeaderValues h = fields_text fs /\ Forall field_ok fs /\ gather (canonical_field <$> fs) ∅ = wire_values id h /\ values cl (canonical_field <$> fs) = [Itoa n].
Proof.
  intros [Hok Ha] Hn Hcl. destruct response_order_ok as (O1 & O2 & O3 & O4). destruct (ordered_values_loop_text 0 response_order h []) as [Ht Hw].
  destruct (Itoa_token n Hn) as [T1 T2]. assert (Hi : all_values [Itoa n] = [Itoa n] /\ trimHeaderValues [Itoa n] = [Itoa n]) by (apply all_values_text; constructor; [by apply token_text|constructor]). destruct Hi as [Hi1 Hi2].
  unfold writeOrderedHeaderValues. destruct (ordered_values_loop 0 response_order h []) as [text written]. cbn [fst snd] in Ht, Hw.
  assert (Hwk : written_keys response_order h written). { intros x. rewrite Hw. split; [intros [Hx|?]; [by apply not_elem_of_nil in Hx|done]|by right]. }
  rewrite (other_values_loop_text _ written written); [| |done]. 2:{ intros [k v] Hp. rewrite range_map_perm in Hp. apply elem_of_map_to_list in Hp. cbn [fst]. destruct (proj1 Hok k v Hp) as (Hk0 & Hkv & _). split; [done|]. by apply text_unblank, token_text. }
  rewrite (fold_only _ _ [Itoa n]). 2:{ intros [k v] Hp He. rewrite range_map_perm in Hp. apply elem_of_map_to_list in Hp. cbn [fst snd] in *. pose proof (proj1 Hok k v Hp) as (_ & Hvis & _).
    assert (k = cl) as ->. { eapply (proj2 Hok); [done..|]. rewrite (fold_canon k "Content-Length") by (done || by_decide). done. } rewrite Hcl in Hp. by injection Hp as <-. }
  2:{ right. exists (cl, [Itoa n]). split; [|by_decide]. rewrite range_map_perm. by apply elem_of_map_to_list. }
  exists (order_fields all_values 0 response_order h ++ other_fields all_values written (range_map 100 h) ++ ((fun v => (cl, v)) <$> [Itoa n])).
  assert (Hall : forall k vs, h !! k = Some vs -> all_values vs = vs) by (intros k vs Hk; by apply all_values_text, (Ha k vs)).
  split_and!.
  - rewrite !fields_text_app, Ht, value_lines_text, Hi1. done.
  - apply fields_shape; [done|done| |constructor; [by apply token_text|constructor]]. intros k vs Hk. rewrite (Hall k vs Hk). by apply (Ha k vs).
  - apply map_eq. intros c. rewrite gather_empty. destruct (decide (c = cl)) as [->|Hc].
    + rewrite (length_values_written all_values _ _ h [Itoa n]) by done. pose proof (wire_lookup id h cl [Itoa n] Hok Hcl) as Hwl. replace (canon cl) with cl in Hwl by by_decide. by rewrite Hwl.
    + destruct (key_or_none h c) as [(k & vs & Hk & <-)|Hno].
      * rewrite (written_values all_values _ _ h k vs), (Hall k vs Hk), (wire_lookup id h k vs) by done. destruct (Ha k vs Hk) as [Hne _]. by destruct vs.
      * rewrite unwritten_values by done. by rewrite wire_lookup_none.
  - by apply (length_values_written all_values _ _ h [Itoa n]).
Qed.
End loops.
