(* ===== verification/SipWire.v ===== *)
(** * SIP messages on the wire: requests, responses and streams

    A request that the client writes is parsed by the server as the same request; its
    answer is parsed by the client, matches the request, and has the code, the
    reason, the headers and the body that the server gave; a stream of messages is cut
    into those messages; no input makes the parsers panic. *)
From stdpp Require Import gmap.
From S2P Require Import Prelude GoStrings Utf8 Hex Errors SipTransaction SipMessage SipText SipFields.
#[local] Open Scope string_scope.
#[local] Open Scope list_scope.
#[local] Open Scope Z_scope.

(** ** Messages *)
Lemma fields_word u rest word k : visibles u -> fields_loop (length u + S k) (u ++ 32 :: rest) word = flush (word ++ u) ++ fields_loop k rest [].
Proof.
  intros Hu. revert word. induction Hu as [|b u Hb Hu IH]; intros word; [cbn; by rewrite app_nil_r|]. cbn [length Nat.add app fields_loop].
  rewrite cut_rune_visible by (done || apply space_runes_invisible). rewrite IH. by rewrite <- app_assoc.
Qed.
Lemma fields_end u word : visibles u -> fields_loop (length u) u word = flush (word ++ u).
Proof.
  intros Hu. revert word. induction Hu as [|b u Hb Hu IH]; intros word; [cbn; by rewrite app_nil_r|]. cbn [length fields_loop].
  rewrite cut_rune_visible by (done || apply space_runes_invisible). rewrite IH. by rewrite <- app_assoc.
Qed.
Definition token (s : bytes) : Prop := s <> [] /\ visibles s.
Lemma flush_token s : token s -> flush s = [s].
Proof. intros [H _]. by destruct s. Qed.
Definition sip2 : bytes := go_bytes "SIP/2.0".
Lemma three_fields a b c : token a -> token b -> token c -> strings_Fields (a ++ [32] ++ b ++ [32] ++ c) = [a; b; c].
Proof.
  intros Ha Hb Hc. unfold strings_Fields. cbn [app]. rewrite length_app. cbn [length]. rewrite fields_word by apply Ha. rewrite length_app. cbn [length]. rewrite fields_word by apply Hb.
  rewrite fields_end by apply Hc. cbn [app]. by rewrite !flush_token.
Qed.
Lemma two_fields a b : token a -> token b -> strings_Fields (a ++ [32] ++ b) = [a; b].
Proof.
  intros Ha Hb. unfold strings_Fields. cbn [app]. rewrite length_app. cbn [length]. rewrite fields_word by apply Ha. rewrite fields_end by apply Hb. cbn [app]. by rewrite !flush_token.
Qed.
Lemma token_ok s : token s -> text_ok s.
Proof. intros [H1 H2]. by apply token_text. Qed.
Lemma token_upper `{UnicodeCase} s : token s -> token (strings_ToUpper s).
Proof. intros [H1 H2]. rewrite ToUpper_visibles by done. split; [by destruct s|]. by apply visibles_map; [apply upper_octet_visible|]. Qed.
(** The lines of a message: a first line, the header fields with the length of the body. *)
Definition message_lines (first : bytes) (fs : list (bytes * bytes)) : list bytes := first :: (field_line <$> fs).
Definition lengthed (fs : list (bytes * bytes)) (body : bytes) : Prop := Forall field_ok fs /\ values cl (canonical_field <$> fs) = [Itoa (len body)].
Lemma fields_lines_ok fs : Forall field_ok fs -> Forall line_ok (field_line <$> fs).
Proof. intros Hf. apply Forall_fmap. eapply Forall_impl; [exact Hf|]. intros f Hok. by apply field_text. Qed.
Lemma message_split first fs body : line_ok first -> Forall field_ok fs ->
  splitSIPMessage (wire_of (message_lines first fs) body) = Ok (strings_Join (message_lines first fs) crlf, body) /\
  splitHeaderLines (strings_Join (message_lines first fs) crlf) = first :: (field_line <$> fs).
Proof.
  intros H1 H2. assert (Hl : Forall line_ok (message_lines first fs)) by (constructor; [done|by apply fields_lines_ok]). unfold splitSIPMessage. rewrite cut_head by done. by rewrite split_lines.
Qed.
Section reading.
Context {U : UnicodeCase} {T : TextTables} {R : RangeOrder}.
Lemma message_fields fs body : lengthed fs body -> len body < 2 ^ 63 ->
  parseSIPHeaders (field_line <$> fs) = Ok (gather (canonical_field <$> fs) ∅) /\
  strictContentLength (gather (canonical_field <$> fs) ∅) = Ok (len body, true) /\
  sipBodyByContentLength (gather (canonical_field <$> fs) ∅) body = Ok body.
Proof.
  intros [Hf Hcl] Hb. assert (Hk : canonical_keys (gather (canonical_field <$> fs) ∅)) by (apply gather_canonical; eapply Forall_impl; [exact Hf|]; by intros f [? _]).
  assert (Hg : gather (canonical_field <$> fs) ∅ !! cl = Some [Itoa (len body)]) by (by rewrite gather_empty, Hcl).
  split_and!; [by apply parse_fields|apply strict_length; [unfold len in *; lia|done..]|by apply body_whole].
Qed.
Lemma request_parsed method uri fs body : token method -> token uri -> lengthed fs body -> len body < 2 ^ 63 ->
  ParseSIPRequest (wire_of (message_lines (method ++ [32] ++ uri ++ [32] ++ sip2) fs) body) =
  Ok (mkSIPIncoming (strings_ToUpper method) uri (gather (canonical_field <$> fs) ∅) body).
Proof.
  intros Hm Hu Hfs Hb. assert (Hs : token sip2) by by_decide. destruct (message_fields fs body Hfs Hb) as (P1 & _ & P3).
  assert (Ht : text_ok (method ++ [32] ++ uri ++ [32] ++ sip2)) by (apply text_words; [by apply token_ok|]; by apply text_words; apply token_ok).
  assert (Hl : line_ok (method ++ [32] ++ uri ++ [32] ++ sip2)). { destruct Hm as [Hm0 Hmv]. destruct method as [|b method]; [done|]. apply Forall_cons in Hmv as [Hb0 _]. by apply text_line. }
  destruct (message_split _ fs body Hl (proj1 Hfs)) as [M1 M2]. unfold ParseSIPRequest. rewrite M1. cbn [bind fst snd]. rewrite M2, three_fields by done.
  replace (equal_fold sip2 "SIP/2.0") with true by (symmetry; by_decide). cbn [negb]. destruct (token_upper method Hm) as [Hn _].
  rewrite (TrimSpace_visible method) by apply Hm. rewrite (TrimSpace_visible uri) by apply Hu. rewrite !bool_decide_eq_false_2 by (done || apply Hu). cbn [orb]. rewrite P1. cbn [bind]. by rewrite P3.
Qed.
Lemma status_digits code : 100 <= code <= 699 -> validSIPStatusToken (Itoa code) = true.
Proof.
  intros Hc. assert (Hall : Forall (fun c => validSIPStatusToken (Itoa c) = true) (seqZ 100 600)) by by_decide. rewrite Forall_forall in Hall. apply Hall. apply elem_of_seqZ. lia.
Qed.
Lemma response_parsed code reason fs body now : 100 <= code <= 699 -> text_ok reason -> lengthed fs body -> len body < 2 ^ 63 ->
  ParseSIPResponse (wire_of (message_lines (sip2 ++ [32] ++ Itoa code ++ [32] ++ reason) fs) body) now =
  Ok (mkSIPResponse code reason (gather (canonical_field <$> fs) ∅) body (SIPRetryAfterDelay (gather (canonical_field <$> fs) ∅) now)).
Proof.
  intros Hc Hr Hfs Hb. destruct (Itoa_token code ltac:(lia)) as [Hi0 Hi]. destruct (message_fields fs body Hfs Hb) as (P1 & _ & P3).
  assert (Ht : text_ok (sip2 ++ [32] ++ Itoa code ++ [32] ++ reason)) by (apply text_words; [by apply token_ok; by_decide|]; by apply text_words; [apply token_text|]).
  assert (Hl : line_ok (sip2 ++ [32] ++ Itoa code ++ [32] ++ reason)) by exact (text_line 83 _ eq_refl Ht).
  destruct (message_split _ fs body Hl (proj1 Hfs)) as [M1 M2]. unfold ParseSIPResponse. rewrite M1. cbn [bind fst snd]. rewrite M2.
  change (sip2 ++ [32] ++ Itoa code ++ [32] ++ reason) with (sip2 ++ 32 :: Itoa code ++ [32] ++ reason). rewrite cut_at_app by by_decide.
  replace (equal_fold sip2 "SIP/2.0") with true by (symmetry; by_decide). cbn [negb app]. rewrite cut_at_app. 2:{ rewrite Forall_forall in Hi. intros H. by apply Hi in H. }
  destruct Hr as (_ & Htr & _). rewrite Htr, (TrimSpace_visible (Itoa code)), status_digits, Atoi_Itoa by (done || lia). cbn [negb default from_option id].
  unfold validSIPStatusCode. replace ((100 <=? code) && (code <=? 699)) with true by lia. cbn [negb]. rewrite P1. cbn [bind]. by rewrite P3.
Qed.
End reading.

(** ** The stream *)
Definition ended (acc : bytes) : Prop := exists a l, acc = a ++ l ++ crlf /\ l <> [] /\ no_break l.
Lemma read_line_crlf l rest : 10 ∉ l -> read_line (l ++ crlf ++ rest) = Some (l ++ crlf, rest).
Proof.
  induction l as [|b l IH]; intros Hl; [done|]. apply not_elem_of_cons in Hl as [Hb Hl]. cbn [app read_line]. replace (b =? 10) with false by lia. by rewrite IH.
Qed.
Lemma not_ended acc : ended acc -> ends_with acc [13; 10; 13; 10] || ends_with acc [10; 10] = false.
Proof.
  intros (a & l & -> & Hl & H10 & _). unfold ends_with, strings_HasPrefix. rewrite !reverse_app. change (reverse crlf) with [10; 13]. change (reverse [13; 10; 13; 10]) with [10; 13; 10; 13]. change (reverse [10; 10]) with [10; 10].
  destruct (reverse l) as [|c t] eqn:E; [apply (f_equal reverse) in E; by rewrite reverse_involutive in E|]. assert (Hc : c <> 10). { intros ->. apply H10. apply elem_of_reverse. rewrite E. left. }
  cbn [app length take]. rewrite !bool_decide_eq_false_2; [done|by intros [=]|by intros [=]].
Qed.
Lemma read_lines fuel acc lines rest : ended acc -> Forall line_ok lines -> (length lines < fuel)%nat ->
  read_head_loop fuel acc (concat ((fun l => l ++ crlf) <$> lines) ++ crlf ++ rest) = Ok (acc ++ concat ((fun l => l ++ crlf) <$> lines) ++ crlf, rest).
Proof.
  intros Ha Hls. revert fuel acc Ha. induction Hls as [|l ls Hl Hls IH]; intros fuel acc Ha Hf.
  all: assert (Hacc : (len acc =? 0) = false) by (destruct Ha as (a & l' & -> & Hl' & _); apply Z.eqb_neq; destruct l'; [done|unfold len; rewrite !length_app; cbn; lia]); destruct fuel as [|fuel]; [cbn in Hf; lia|].
  - cbn [fmap list_fmap concat app read_head_loop]. change (read_line (crlf ++ rest)) with (Some (crlf, rest)). cbv beta iota. rewrite Hacc. cbn [andb]. cbv zeta. destruct Ha as (a & l' & -> & _).
    assert (He : ends_with ((a ++ l' ++ crlf) ++ crlf) [13; 10; 13; 10] = true) by (unfold ends_with, strings_HasPrefix; rewrite !reverse_app; cbn; by apply bool_decide_eq_true_2).
    by rewrite He.
  - destruct Hl as (Hl0 & _ & _ & Hl10 & Hl13). cbn [fmap list_fmap concat read_head_loop]. rewrite <- !app_assoc. rewrite read_line_crlf by done. rewrite Hacc. cbn [andb]. cbv zeta.
    assert (He : ended (acc ++ l ++ crlf)) by (by exists acc, l). rewrite not_ended by done. rewrite IH by (done || cbn in Hf; lia). by rewrite <- !app_assoc.
Qed.
Lemma trim_left_keeps fuel rs s b : Forall (fun r => b ∉ r) rs -> b ∈ s -> b ∈ trim_left fuel rs s.
Proof.
  intros Hrs. revert s. induction fuel as [|fuel IH]; intros s Hb; [done|]. cbn [trim_left]. destruct (cut_rune rs s) as [s'|] eqn:E; [|done].
  apply IH. apply cut_rune_suffix in E as (r & Hr & ->). rewrite Forall_forall in Hrs. apply Hrs in Hr. by apply elem_of_app in Hb as [?|?].
Qed.
Lemma not_blank b s : visible b = true -> b ∈ s -> TrimSpace s <> [].
Proof.
  intros Hb Hin E. assert (Hs : Forall (fun r => b ∉ r) space_runes /\ Forall (fun r => b ∉ r) (map (@rev Z) space_runes)).
  { assert (Hi : Forall (Forall (fun x => visible x = false)) space_runes) by by_decide. split; [|apply Forall_map].
    all: eapply Forall_impl; [exact Hi|]; intros r Hr Hbr; rewrite Forall_forall in Hr; apply list_elem_of_In in Hbr; rewrite <- ?in_rev in Hbr; apply list_elem_of_In, Hr in Hbr; congruence. }
  destruct Hs as [H1 H2]. unfold TrimSpace, TrimRightSpace, TrimLeftSpace in E. set (t := trim_left (length s) space_runes s) in E. assert (Ht : b ∈ t) by by apply trim_left_keeps.
  assert (Hr : b ∈ trim_left (length t) (map (@rev Z) space_runes) (rev t)) by (apply trim_left_keeps; [done|]; by apply list_elem_of_In, in_rev; rewrite rev_involutive; apply list_elem_of_In).
  apply (f_equal (@rev Z)) in E. rewrite rev_involutive in E. rewrite E in Hr. by apply not_elem_of_nil in Hr.
Qed.
(** The head of a message, from its first line to the empty line. *)
Lemma read_head fuel first lines rest : line_ok first -> (exists b, visible b = true /\ b ∈ first) -> Forall line_ok lines -> (length lines + 1 < fuel)%nat ->
  read_head_loop fuel [] (wire_of (first :: lines) rest) = Ok (wire_of (first :: lines) [], rest).
Proof.
  intros (Hf0 & _ & _ & Hf) (b & Hb & Hin) Hls Hfuel. rewrite <- !lines_text. destruct fuel as [|fuel]; [lia|]. cbn [read_head_loop]. rewrite read_line_crlf by apply Hf.
  unfold isSIPBlankLine. rewrite bool_decide_eq_false_2 by (apply (not_blank b); [done|]; apply elem_of_app; by left). rewrite andb_false_r. cbv zeta. cbn [app].
  assert (He : ended (first ++ crlf)) by (by exists [], first). rewrite not_ended, read_lines by (done || lia). by rewrite app_nil_r, <- !app_assoc.
Qed.
Lemma wire_app lines body rest : wire_of lines body ++ rest = wire_of lines (body ++ rest).
Proof. unfold wire_of. by rewrite <- !app_assoc. Qed.
(** Empty lines before a message are skipped. *)
Definition keepalives (k : nat) : bytes := concat (replicate k crlf).
Lemma skip_keepalives k fuel stream : read_head_loop (k + fuel) [] (keepalives k ++ stream) = read_head_loop fuel [] stream.
Proof. unfold keepalives. induction k as [|k IH]; [done|]. cbn [replicate concat Nat.add]. rewrite <- app_assoc. cbn [read_head_loop]. change (read_line (crlf ++ concat (replicate k crlf) ++ stream)) with (Some (crlf, concat (replicate k crlf) ++ stream)). exact IH. Qed.
Lemma keepalives_length k : length (keepalives k) = (k + k)%nat.
Proof. unfold keepalives. induction k as [|k IH]; [done|]. cbn [replicate concat]. rewrite length_app. cbn [length crlf]. lia. Qed.
Lemma stream_read `{UnicodeCase, TextTables, RangeOrder} k first fs body rest :
  line_ok first -> (exists b, visible b = true /\ b ∈ first) -> lengthed fs body -> len body <= maxAlloc ->
  readSIPStreamMessage (keepalives k ++ wire_of (message_lines first fs) body ++ rest) = Ok (wire_of (message_lines first fs) body, rest).
Proof.
  intros Hf Hv Hfs Hb. rewrite wire_app. destruct (message_fields fs body Hfs ltac:(unfold maxAlloc in *; lia)) as (P1 & P2 & _). destruct (message_split first fs [] Hf (proj1 Hfs)) as [M1 M2].
  unfold readSIPStreamMessage, message_lines. rewrite length_app, keepalives_length. replace (S (k + k + length (wire_of (first :: (field_line <$> fs)) (body ++ rest))))%nat with (k + S (k + length (wire_of (first :: (field_line <$> fs)) (body ++ rest))))%nat by lia.
  rewrite skip_keepalives, read_head; [|done|done|by apply fields_lines_ok, Hfs|].
  2:{ rewrite <- lines_text. rewrite !length_app. assert (Hlen : forall ls, (length ls <= length (concat ((fun l => l ++ crlf) <$> ls)))%nat). { clear. induction ls as [|l ls IH]; [done|]. cbn [fmap list_fmap concat length]. rewrite !length_app. cbn [length crlf]. lia. }
      specialize (Hlen (field_line <$> fs)). cbn [length crlf]. lia. }
  cbn [bind]. fold (message_lines first fs). rewrite M1. cbn [bind fst]. rewrite M2, P1. cbn [bind]. rewrite P2. cbn [bind fst snd andb]. destruct (Z.ltb_spec 0 (len body)) as [Hp|Hz].
  - unfold read_body. replace (maxAlloc <? len body) with false by lia. replace (len (body ++ rest) <? len body) with false by (symmetry; apply Z.ltb_ge; unfold len; rewrite length_app; lia). cbn [bind fst snd].
    rewrite wire_app. cbn [app]. unfold sub. rewrite drop_0. replace (Z.to_nat (len body - 0)) with (length body) by (unfold len; lia). rewrite take_app_length. f_equal. f_equal.
    unfold len. by rewrite Nat2Z.id, drop_app_length.
  - destruct body as [|c body]; [done|unfold len in Hz; cbn in Hz; lia].
Qed.

(** ** Requests *)
Section requests.
Context {U : UnicodeCase} {T : TextTables} {R : RangeOrder}.
Definition via : bytes := go_bytes "Via".
(** A message whose parts are words and lines of text.  Each header has one key; the length is left to the writer. *)
Definition sendable (msg : SIPRequestMessage) : Prop :=
  token (sq_Method msg) /\ token (sq_URI msg) /\ sendable_headers (sq_Headers msg) /\ len (sq_Body msg) < 2 ^ 63 /\
  (forall k v, sq_Headers msg !! k = Some v -> canon k <> cl) /\ (forall k v, sq_Headers msg !! k = Some v -> canon k = via -> equal_fold k "Via" = true).
Definition link_ok (transport : bytes) (address : option (bytes * bytes)) (random : option bytes) : Prop :=
  visibles transport /\ match address with Some (host, _) => visibles host | None => True end /\ match random with Some r => bytes_ok r | None => True end.
Lemma visibles_app u v : visibles u -> visibles v -> visibles (u ++ v).
Proof. intros. by apply Forall_app. Qed.
Lemma Atoi_word_range s n : Atoi s = Some n -> - 2 ^ 63 <= n < 2 ^ 63.
Proof. unfold Atoi. destruct (match s with [] => _ | _ => _ end) as [neg ds]. repeat case_match; intros [=]; lia. Qed.
Lemma Itoa_visible n : - 2 ^ 63 <= n -> visibles (Itoa n) /\ Itoa n <> [].
Proof.
  intros Hn. unfold Itoa. destruct (Z.ltb_spec n 0) as [Hneg|Hpos].
  - split; [|done]. constructor; [done|]. apply decimal_is_visible, digits_of_decimal; [lia|done].
  - destruct (Itoa_token n Hpos) as [H1 H2]. unfold Itoa in H1, H2. by replace (n <? 0) with false in * by lia.
Qed.
Lemma newBranch_visible random : match random with Some r => bytes_ok r | None => True end -> visibles (newBranch random).
Proof. intros Hr. destruct random as [r|]; [|by_decide]. apply visibles_app; [by_decide|by apply hex_encode_visible]. Qed.
Lemma via_text transport address random : link_ok transport address random -> text_ok (buildViaHeader transport address random).
Proof.
  intros (Ht & Ha & Hr). unfold buildViaHeader. destruct (localHostPort address) as [host port] eqn:E. cbv zeta.
  assert (Hhp : visibles host /\ - 2 ^ 63 <= port).
  { unfold localHostPort in E. destruct address as [[ho po]|]; injection E as <- <-; [|by split]. split.
    - destruct (_ && _); [|exact Ha]. apply (visibles_app [91]); [by_decide|]. apply visibles_app; [done|by_decide].
    - destruct (Atoi po) as [n|] eqn:En; [by apply Atoi_word_range in En as [? _]|done]. }
  destruct Hhp as [Hh Hp]. set (host' := if bool_decide (host = []) then _ else host). assert (Hh' : visibles host') by (subst host'; destruct (bool_decide (host = [])); [by_decide|done]).
  assert (Hi : visibles (Itoa (if port =? 0 then 5060 else port))) by (apply Itoa_visible; destruct (port =? 0); lia). rewrite (TrimSpace_visible transport) by done.
  assert (Hu : visibles (strings_ToUpper transport)) by (rewrite ToUpper_visibles by done; apply visibles_map; [apply upper_octet_visible|done]).
  rewrite app_assoc. apply text_words; apply token_text; try done.
  - by apply visibles_app; [by_decide|].
  - intros Hx. apply app_nil in Hx as [_ Hx]. done.
  - apply visibles_app; [done|]. apply visibles_app; [by_decide|]. apply visibles_app; [done|]. apply visibles_app; [by_decide|]. apply visibles_app; [by apply newBranch_visible|by_decide].
Qed.
Lemma trimmed_same h l : l ≡ₚ map_to_list h -> sendable_headers h -> trimmed_headers l = h.
Proof.
  intros Hl [Hok Hv]. assert (Hin : forall p, p ∈ l -> name_ok p.1 /\ text_ok p.2).
  { intros [k v] Hp. rewrite Hl in Hp. apply elem_of_map_to_list in Hp. split; [by eapply (proj1 Hok)|by eapply Hv]. }
  assert (Hf : forall l (m : gmap bytes bytes), (forall p, p ∈ l -> name_ok p.1 /\ text_ok p.2) -> fold_left (fun m p => if blank p.1 then m else <[TrimSpace p.1 := TrimSpace p.2]> m) l m = fold_left (fun m (p : bytes * bytes) => <[p.1 := p.2]> m) l m).
  { clear. induction l as [|p l IH]; intros m Hin; [done|]. cbn [fold_left]. destruct (Hin p) as [(H1 & H2 & _) (_ & H3 & _)]; [left|]. rewrite text_unblank by by apply token_text. rewrite TrimSpace_visible, H3 by done. apply IH. intros q Hq. apply Hin. by right. }
  unfold trimmed_headers. rewrite Hf by done. rewrite <- fold_left_rev_right. transitivity (list_to_map (M := gmap bytes bytes) (rev l)).
  - generalize (rev l). intros l'. induction l' as [|[k v] l' IH]; [done|]. cbn [foldr fold_right list_to_map fst snd]. by rewrite IH.
  - transitivity (list_to_map (M := gmap bytes bytes) (map_to_list h)); [|apply list_to_map_to_list]. assert (Hp : rev l ≡ₚ map_to_list h) by (rewrite <- Hl; symmetry; apply Permutation_rev). apply list_to_map_proper; [|done]. rewrite Hp. apply NoDup_fst_map_to_list.
Qed.
Lemma first_value_here site h (name : string) k v : keys_ok h -> name_text name -> h !! k = Some v -> equal_fold k name = true -> firstHeaderValue site h name = TrimSpace v.
Proof.
  intros Hok Hn Hk He. unfold firstHeaderValue. destruct (list_find _ _) as [[i [k' v']]|] eqn:E.
  - apply list_find_Some in E as (Hi & He' & _). apply list_elem_of_lookup_2 in Hi. rewrite range_map_perm in Hi. apply elem_of_map_to_list in Hi. cbn [fst] in He'.
    assert (k' = k) as -> by (eapply (proj2 Hok); [done..|]; rewrite (fold_canon k' name), (fold_canon k name) by (done || by eapply key_visibles); done). congruence.
  - apply list_find_None in E. rewrite Forall_forall in E. exfalso. apply (E (k, v)); [|exact He]. rewrite range_map_perm. by apply elem_of_map_to_list.
Qed.
Lemma first_value_none (site : nat) (h : gmap bytes bytes) (name : string) : (forall k v, h !! k = Some v -> equal_fold k name = false) -> firstHeaderValue site h name = [].
Proof.
  intros Hno. unfold firstHeaderValue. destruct (list_find _ _) as [[i [k v]]|] eqn:E; [|done]. apply list_find_Some in E as (Hi & He & _). apply list_elem_of_lookup_2 in Hi. rewrite range_map_perm in Hi.
  apply elem_of_map_to_list in Hi. cbn [fst] in He. apply Hno in Hi. congruence.
Qed.
Lemma insert_sendable h k v : sendable_headers h -> name_ok k -> text_ok v -> (forall k' v', h !! k' = Some v' -> canon k' = canon k -> k' = k) -> sendable_headers (<[k := v]> h).
Proof.
  intros [[H1 H2] H3] Hk Hv Hu. split; [split|].
  - intros k' v' [[<- _]|[_ Hk']]%lookup_insert_Some; [done|by eapply H1].
  - intros k1 k2 v1 v2 [[<- _]|[_ E1]]%lookup_insert_Some [[<- _]|[_ E2]]%lookup_insert_Some E; [done|symmetry; by eapply Hu|by eapply Hu|by eapply H2].
  - intros k' v' [[_ <-]|[_ Hk']]%lookup_insert_Some; [done|by eapply H3].
Qed.
(** The headers that a request is sent with. *)
Definition with_length (h : gmap bytes bytes) (body : bytes) : gmap bytes bytes := <[cl := Itoa (len body)]> h.
Definition with_via (h : gmap bytes bytes) (transport : bytes) (address : option (bytes * bytes)) (random : option bytes) : gmap bytes bytes :=
  if bool_decide (firstHeaderValue 201 h "Via" = []) then <[via := buildViaHeader transport address random]> h else h.
Lemma with_via_sendable msg transport address random : sendable msg -> link_ok transport address random ->
  sendable_headers (with_via (sq_Headers msg) transport address random) /\ (forall k v, with_via (sq_Headers msg) transport address random !! k = Some v -> canon k <> cl).
Proof.
  intros (_ & _ & Hh & _ & Hcl & Hvia) Hlink. unfold with_via. case_bool_decide as Hv; [|done]. split.
  - apply insert_sendable; [done|by_decide|by apply via_text|]. intros k v Hk Hc. assert (He : equal_fold k "Via" = true) by (apply (Hvia k v); [done|]; rewrite Hc; by_decide).
    exfalso. rewrite (first_value_here 201 _ "Via" k v (proj1 Hh) ltac:(by_decide) Hk He) in Hv. destruct (proj2 Hh k v Hk) as (Hne & Ht & _). congruence.
  - intros k v [[<- _]|[_ Hk]]%lookup_insert_Some; [by_decide|by eapply Hcl].
Qed.
Lemma request_built msg transport address random : sendable msg -> link_ok transport address random ->
  exists fs, buildSIPRequestWire msg transport address random = Ok (wire_of (message_lines (strings_ToUpper (sq_Method msg) ++ [32] ++ sq_URI msg ++ [32] ++ sip2) fs) (sq_Body msg)) /\
    lengthed fs (sq_Body msg) /\ gather (canonical_field <$> fs) ∅ = wire_headers (with_length (with_via (sq_Headers msg) transport address random) (sq_Body msg)).
Proof.
  intros Hs Hlink. destruct (with_via_sendable msg transport address random Hs Hlink) as [Hv Hno]. destruct Hs as (Hm & Hu & Hh & Hb & _ & _). unfold buildSIPRequestWire.
  rewrite (TrimSpace_visible (sq_Method msg)) by apply Hm. destruct (token_upper _ Hm) as [Hm' _]. rewrite bool_decide_eq_false_2 by done. rewrite (TrimSpace_visible (sq_URI msg)) by apply Hu. rewrite bool_decide_eq_false_2 by apply Hu.
  rewrite (trimmed_same (sq_Headers msg)) by (done || apply range_map_perm). cbv zeta. fold via. fold (with_via (sq_Headers msg) transport address random). set (h := with_via _ _ _ _) in *.
  assert (Hlen : forall k v, h !! k = Some v -> equal_fold k "Content-Length" = false).
  { intros k v Hk. apply not_true_iff_false. intros He. apply (Hno k v Hk). rewrite (fold_canon k "Content-Length") by (done || by_decide || by eapply key_visibles; [apply Hv|]). by_decide. }
  rewrite (first_value_none 202 h "Content-Length") by done. rewrite bool_decide_eq_true_2 by done. fold cl. fold (with_length h (sq_Body msg)).
  assert (Hw : sendable_headers (with_length h (sq_Body msg))).
  { apply insert_sendable; [done|by_decide|apply token_text; apply Itoa_token; unfold len; lia|]. intros k v Hk Hc. exfalso. apply (Hno k v Hk). rewrite Hc. by_decide. }
  destruct (request_section _ (len (sq_Body msg)) Hw ltac:(unfold len; lia) (lookup_insert_eq _ _ _)) as (fs & E1 & E2 & E3 & E4). exists fs. rewrite E1. split; [|split; [by split|done]]. f_equal.
  change (go_bytes " SIP/2.0") with ([32] ++ sip2). unfold message_lines. rewrite <- lines_text. unfold fields_text. by rewrite <- !app_assoc.
Qed.
End requests.

(** ** The Via header *)
Lemma trim_left_of_suffix cutset s : exists q, s = q ++ trim_left_of cutset s.
Proof.
  induction s as [|b s [q IH]]; [by exists []|]. cbn [trim_left_of]. case_bool_decide; [|by exists []]. exists (b :: q). cbn [app]. by rewrite <- IH.
Qed.
Lemma text_cut v cutset w : text_ok v -> token (59 :: w) -> text_ok (reverse (trim_left_of cutset (reverse v)) ++ 59 :: w).
Proof.
  intros (Hv & Ht & Hb) [_ Hw]. destruct (trim_left_of_suffix cutset (reverse v)) as [q Hq]. set (t := trim_left_of cutset (reverse v)) in *. apply (f_equal reverse) in Hq. rewrite reverse_involutive, reverse_app in Hq. set (p := reverse t) in *.
  destruct (trimmed_ends v Ht) as [E1 _]. destruct space_runes_invisible as [I1 I2]. destruct space_runes_tail as (_ & _ & T3). split_and!; [by destruct p| |].
  - apply ends_trimmed.
    + destruct p as [|b p]; [by apply cut_rune_visible|]. apply cut_rune_stop; [done|done|]. rewrite Hq in E1. by apply cut_rune_prefix in E1.
    + rewrite rev_app_distr. assert (Hr : visibles (rev (59 :: w))) by by apply Forall_rev. destruct (rev (59 :: w)) as [|b r] eqn:E; [apply (f_equal (@length Z)) in E; by rewrite length_rev in E|].
      cbn [app]. apply cut_rune_visible; [done|]. by apply Forall_cons in Hr as [? _].
  - apply no_break_app; [|by apply visible_no_break]. split; intros H; [apply (proj1 Hb)|apply (proj2 Hb)]; rewrite Hq; apply elem_of_app; by left.
Qed.
Section exchange.
Context {U : UnicodeCase} {T : TextTables} {R : RangeOrder}.
Lemma set_header_sendable msg k v : sendable msg -> name_ok k -> text_ok v -> canon k <> cl -> (canon k = via -> equal_fold k "Via" = true) ->
  (forall k' v', sq_Headers msg !! k' = Some v' -> canon k' = canon k -> k' = k) ->
  sendable (mkSIPRequest (sq_Method msg) (sq_URI msg) (<[k := v]> (sq_Headers msg)) (sq_Body msg)).
Proof.
  intros (H1 & H2 & H3 & H4 & H5 & H6) Hk Hv Hc Hvia Hu. split_and!; cbn [sq_Method sq_URI sq_Headers sq_Body]; [done..|by apply insert_sendable|done| |].
  - intros k' v' [[<- _]|[_ Hk']]%lookup_insert_Some; [done|by eapply H5].
  - intros k' v' [[<- _]|[_ Hk']]%lookup_insert_Some; [done|by eapply H6].
Qed.
(** What is sent has a Via header, and the other headers of the message. *)
Lemma ensure_via msg transport address random : sendable msg -> link_ok transport address random ->
  let msg' := ensureSIPRequestVia msg transport address random in
  sendable msg' /\ (exists k v, sq_Headers msg' !! k = Some v /\ equal_fold k "Via" = true) /\ sq_Method msg' = sq_Method msg /\ sq_URI msg' = sq_URI msg /\ sq_Body msg' = sq_Body msg /\
  (forall k, canon k <> via -> sq_Headers msg' !! k = sq_Headers msg !! k).
Proof.
  intros Hs Hlink. pose proof Hs as (_ & _ & [Hok Htext] & _ & Hcl & Hvia). unfold ensureSIPRequestVia. destruct (list_find _ _) as [[i [k v]]|] eqn:E.
  - apply list_find_Some in E as (Hi & He & _). apply list_elem_of_lookup_2 in Hi. rewrite range_map_perm in Hi. apply elem_of_map_to_list in Hi. cbn [fst] in He.
    pose proof (Htext k v Hi) as Ht. pose proof Ht as (Hv0 & Hv1 & _). cbv zeta. rewrite Hv1, bool_decide_eq_false_2 by done. case_bool_decide as Hb; [|split_and!; eauto].
    set (v' := _ ++ _). assert (Ht' : text_ok v') by (apply text_cut; [done|]; split; [done|]; apply (visibles_app (go_bytes ";branch=")); [by_decide|]; apply newBranch_visible, Hlink).
    assert (Hck : canon k = via) by (rewrite (fold_canon k "Via"); [by_decide|by eapply key_visibles|by_decide|done]). split_and!; cbn [sq_Method sq_URI sq_Headers sq_Body]; try reflexivity.
    + apply set_header_sendable; try done; [by eapply (proj1 Hok)|rewrite Hck; by_decide|]. intros k' w Hk' Hc. by eapply (proj2 Hok).
    + exists k, v'. split; [apply lookup_insert_eq|done].
    + intros k' Hk'. apply lookup_insert_ne. intros <-. done.
  - cbv zeta. rewrite bool_decide_eq_true_2 by done. assert (Hno : forall k v, sq_Headers msg !! k = Some v -> equal_fold k "Via" = false).
    { intros k v Hk. apply not_true_iff_false. intros He. apply list_find_None in E. rewrite Forall_forall in E. apply (E (k, v)); [|exact He]. rewrite range_map_perm. by apply elem_of_map_to_list. }
    assert (Hcv : canon via = via) by by_decide. split_and!; cbn [sq_Method sq_URI sq_Headers sq_Body]; try reflexivity.
    + apply set_header_sendable; [done|by_decide|by apply via_text|by_decide|intros _; by_decide|]. intros k' w Hk' Hc. fold via in Hc. rewrite Hcv in Hc. pose proof (Hvia k' w Hk' Hc). rewrite (Hno k' w Hk') in *. done.
    + eexists via, _. split; [apply lookup_insert_eq|by_decide].
    + intros k' Hk'. apply lookup_insert_ne. intros <-. done.
Qed.

(** ** Responses *)
(** Headers that were read: their keys are canonical. *)
Definition answerable (h : headers) : Prop := forall k vs, h !! k = Some vs -> name_ok k /\ canon k = k /\ vs <> [] /\ Forall text_ok vs.
(** A name that [canonicalHeaderName] only changes the case of. *)
Definition plain_name (name : string) : Prop := name_ok (go_bytes name) /\ lower (canon (go_bytes name)) = lower (go_bytes name).
Definition of_name (name : string) (p : bytes * list bytes) : Prop := equal_fold p.1 name = true.
#[local] Instance of_name_dec name p : Decision (of_name name p).
Proof. unfold of_name. apply _. Defined.
Lemma only_key (i : nat) (m : headers) (name : string) : answerable m -> plain_name name ->
  filter (of_name name) (range_map i m) = match m !! canon (go_bytes name) with Some vs => [(canon (go_bytes name), vs)] | None => [] end.
Proof.
  intros Ha [Hn Hc]. assert (Hkey : forall k vs, (k, vs) ∈ filter (of_name name) (range_map i m) <-> k = canon (go_bytes name) /\ m !! k = Some vs).
  { intros k vs. rewrite list_elem_of_filter, range_map_perm, elem_of_map_to_list. unfold of_name. cbn [fst]. split.
    - intros [He Hk]. destruct (Ha k vs Hk) as ((_ & Hv & _) & Hck & _). split; [|done]. rewrite <- Hck. apply fold_canon; [done|apply Hn|done].
    - intros [-> Hk]. split; [|done]. rewrite equal_fold_visibles by (by apply canon_name_ok || apply Hn). by apply bool_decide_eq_true_2. }
  destruct (m !! canon (go_bytes name)) as [vs|] eqn:E.
  - apply Permutation_singleton_r, NoDup_Permutation; [|apply NoDup_singleton|].
    + apply NoDup_filter. rewrite range_map_perm. apply NoDup_map_to_list.
    + intros [k ws]. rewrite Hkey, list_elem_of_singleton. split; [intros [-> ?]; congruence|]. by intros [= -> ->].
  - destruct (filter _ _) as [|[k vs] t] eqn:Ef; [done|]. destruct (proj1 (Hkey k vs)) as [-> Hk]; [left|congruence].
Qed.
Lemma copy_lookup (i : nat) (dst src : headers) (name : string) : answerable src -> plain_name name ->
  copyIncomingHeader i dst src name = match src !! canon (go_bytes name) with Some vs => <[go_bytes name := default [] (dst !! go_bytes name) ++ vs]> dst | None => dst end.
Proof.
  intros Ha Hn. unfold copyIncomingHeader. assert (Hf : forall l m, (forall p, p ∈ l -> p.2 <> []) ->
    fold_left (fun m p => if equal_fold p.1 name && negb (bool_decide (p.2 = [])) then <[go_bytes name := default [] (m !! go_bytes name) ++ trimHeaderValues p.2]> m else m) l m =
    fold_left (fun (m : headers) p => <[go_bytes name := default [] (m !! go_bytes name) ++ trimHeaderValues p.2]> m) (filter (of_name name) l) m).
  { clear. induction l as [|p l IH]; intros m Hl; [done|]. cbn [fold_left]. rewrite filter_cons. rewrite (bool_decide_eq_false_2 (p.2 = [])) by (apply Hl; left). rewrite andb_true_r.
    assert (Hl' : forall p, p ∈ l -> p.2 <> []) by (intros q Hq; apply Hl; by right). destruct (decide (of_name name p)) as [E|E]; [|apply not_true_is_false in E]; rewrite E; cbn [fold_left]; by apply IH. }
  rewrite Hf; [|intros [k vs] Hp; rewrite range_map_perm in Hp; apply elem_of_map_to_list in Hp; by apply (Ha k vs)]. rewrite only_key by done. destruct (src !! canon (go_bytes name)) as [vs|] eqn:E; [|done]. cbn [fold_left snd].
  by rewrite (proj2 (all_values_text vs (proj2 (proj2 (proj2 (Ha _ vs E)))))).
Qed.
Lemma raw_values (i : nat) (m : headers) (name : string) : answerable m -> plain_name name -> rawHeaderValues i m name = default [] (m !! canon (go_bytes name)).
Proof.
  intros Ha Hn. unfold rawHeaderValues. assert (Hf : forall l : list (bytes * list bytes), concat ((fun p => if equal_fold p.1 name then trimHeaderValues p.2 else []) <$> l) = concat ((fun p => trimHeaderValues p.2) <$> filter (of_name name) l)).
  { clear. induction l as [|p l IH]; [done|]. rewrite filter_cons. cbn [fmap list_fmap concat]. destruct (decide (of_name name p)) as [E|E]; [|apply not_true_is_false in E]; rewrite E; cbn [fmap list_fmap concat]; by rewrite <- IH. }
  rewrite Hf, only_key by done. destruct (m !! canon (go_bytes name)) as [vs|] eqn:E; [|done]. cbn [fmap list_fmap concat snd]. rewrite app_nil_r. by apply all_values_text, (Ha _ vs E).
Qed.
Lemma wire_answerable {A} (f : A -> list bytes) h : keys_ok h -> (forall k a, h !! k = Some a -> f a <> [] /\ Forall text_ok (f a)) -> answerable (wire_values f h).
Proof.
  intros Hok Hv c vs Hc. destruct (key_or_none h c) as [(k & a & Hk & <-)|Hno]; [|by rewrite wire_lookup_none in Hc]. rewrite (wire_lookup f h k a) in Hc by done. injection Hc as <-.
  destruct (Hv k a Hk) as [H1 H2]. split_and!; [by apply canon_name_ok, (proj1 Hok k a)|apply canon_idem|done..].
Qed.
(** The headers of a response before they are written: canonical but for CSeq, whose canonical
    form is Cseq. *)
Definition cseq : bytes := go_bytes "CSeq".
Definition composed (h : headers) : Prop := forall k vs, h !! k = Some vs -> name_ok k /\ (canon k = k \/ k = cseq) /\ k <> canon cseq /\ vs <> [] /\ Forall text_ok vs.
Lemma composed_writable h : composed h -> writable h.
Proof.
  intros Hc. split; [split|].
  - intros k vs Hk. by apply (Hc k vs).
  - intros k k' vs vs' Hk Hk' E. destruct (Hc k vs Hk) as (_ & [E1| ->] & N1 & _), (Hc k' vs' Hk') as (_ & [E2| ->] & N2 & _); congruence.
  - intros k vs Hk. by apply (Hc k vs).
Qed.
Lemma insert_composed m k vs : composed m -> name_ok k -> (canon k = k \/ k = cseq) -> k <> canon cseq -> vs <> [] -> Forall text_ok vs -> composed (<[k := vs]> m).
Proof. intros Ha Hk Hc Hne Hn Hv k' vs' [[<- <-]|[_ Hk']]%lookup_insert_Some; [done|by apply Ha]. Qed.
Lemma default_text m k : composed m -> Forall text_ok (default [] (m !! k)).
Proof. intros Ha. destruct (m !! k) as [vs|] eqn:E; [|constructor]. by apply (Ha k vs). Qed.
Lemma add_composed m k v : composed m -> name_ok k -> canon k = k -> k <> canon cseq -> text_ok v -> composed (add_header m k v).
Proof.
  intros Ha Hk Hc Hne Hv. apply insert_composed; [done|done|by left|done|by destruct (default [] (m !! k))|]. apply Forall_app. split; [by apply default_text|by constructor].
Qed.
Definition starts (m : headers) (c v : bytes) : Prop := exists vs, m !! c = Some (v :: vs).
Definition copied_name (name : string) : Prop := plain_name name /\ (canon (go_bytes name) = go_bytes name \/ go_bytes name = cseq) /\ go_bytes name <> canon cseq.
Lemma copy_composed i dst src name : composed dst -> answerable src -> copied_name name -> composed (copyIncomingHeader i dst src name).
Proof.
  intros Hd Hs (Hn & Hc & Hne). rewrite copy_lookup by done. destruct (src !! canon (go_bytes name)) as [vs|] eqn:E; [|done]. destruct (Hs _ vs E) as (_ & _ & Hvs & Ht).
  apply insert_composed; [done|apply Hn|done|done| |apply Forall_app; split; [by apply default_text|done]]. intros H. by apply app_nil in H as [_ ?].
Qed.
Lemma copy_starts i dst src name c v : answerable src -> plain_name name -> starts dst c v -> starts (copyIncomingHeader i dst src name) c v.
Proof.
  intros Hs Hn [vs Hv]. rewrite copy_lookup by done. destruct (src !! canon (go_bytes name)) as [ws|]; [|by exists vs]. destruct (decide (go_bytes name = c)) as [->|Hne].
  - exists (vs ++ ws). by rewrite lookup_insert_eq, Hv.
  - exists vs. by rewrite lookup_insert_ne.
Qed.
Definition copied : list (nat * string) := [(300, "Via"); (301, "To"); (302, "From"); (303, "Call-ID"); (304, "CSeq")]%nat.
Lemma copied_ok : Forall (fun p => copied_name p.2) copied /\ NoDup ((fun p => go_bytes p.2) <$> copied) /\ Forall (fun p => go_bytes p.2 <> cl) copied.
Proof. by_decide. Qed.
(** The copied headers, and those that are added behind them. *)
Lemma copies_ok src l dst : answerable src -> composed dst -> Forall (fun p => copied_name p.2) l ->
  let out := fold_left (fun m (p : nat * string) => copyIncomingHeader p.1 m src p.2) l dst in
  composed out /\ (forall c v, starts dst c v -> starts out c v) /\ (NoDup ((fun p => go_bytes p.2) <$> l) -> forall p v, p ∈ l -> dst !! go_bytes p.2 = None -> src !! canon (go_bytes p.2) = Some [v] -> starts out (go_bytes p.2) v).
Proof.
  intros Hs Hd Hl. revert dst Hd. induction Hl as [|[i name] l Hn Hl IH]; intros dst Hd; cbv zeta; [split_and!; [done|done|]; intros _ p v Hp; by apply not_elem_of_nil in Hp|].
  cbn [fold_left fst snd] in *. destruct (IH (copyIncomingHeader i dst src name)) as (IH1 & IH2 & IH3); [by apply copy_composed|]. pose proof Hn as (Hp & _ & _). split_and!; [done| |].
  - intros c v Hv. by apply IH2, copy_starts.
  - intros Hnd p v Hin Hnone Hsome. rewrite fmap_cons in Hnd. apply NoDup_cons in Hnd as [Hni Hnd]. apply elem_of_cons in Hin as [->|Hin]; cbn [snd] in *.
    + apply IH2. exists []. rewrite copy_lookup, Hsome, Hnone, lookup_insert_eq by done. done.
    + apply IH3; [done|done| |done]. assert (Hne : go_bytes name <> go_bytes p.2) by (intros E; apply Hni, list_elem_of_fmap; eauto). rewrite copy_lookup by done.
      destruct (src !! canon (go_bytes name)); [by rewrite lookup_insert_ne|done].
Qed.
Definition added_ok (h : gmap bytes bytes) : Prop := forall k v, h !! k = Some v -> name_ok k /\ text_ok v /\ canon k <> canon cseq.
Lemma response_headers_ok src h n : answerable src -> added_ok h -> 0 <= n ->
  let out := response_headers src h n in
  composed out /\ out !! cl = Some [Itoa n] /\ (forall p v, p ∈ copied -> src !! canon (go_bytes p.2) = Some [v] -> starts out (go_bytes p.2) v).
Proof.
  intros Hs Hh Hn. cbv zeta. unfold response_headers. fold copied. destruct copied_ok as (C1 & C2 & C3). assert (He : composed ∅) by (intros k vs; by rewrite lookup_empty).
  destruct (copies_ok src copied ∅ Hs He C1) as (B1 & _ & B3). specialize (B3 C2). cbv zeta in B1, B3. set (base := fold_left _ copied ∅) in *. clearbody base.
  set (f := fun (m : headers) (p : bytes * bytes) => _). set (l := range_map 305 h). assert (Hl : forall p, p ∈ l -> name_ok p.1 /\ text_ok p.2 /\ canon p.1 <> canon cseq) by (intros [k v] Hp; unfold l in Hp; rewrite range_map_perm in Hp; apply elem_of_map_to_list in Hp; by apply Hh).
  assert (Hf : composed (fold_left f l base) /\ forall c v, starts base c v -> starts (fold_left f l base) c v).
  { clear B3. clearbody l. revert base B1. induction l as [|[k v] l IH]; intros base B1; [done|]. cbn [fold_left]. destruct (Hl (k, v)) as (Hk & Hv & Hkc); [left|]. cbn [fst snd] in Hk, Hv, Hkc.
    assert (Hstep : composed (f base (k, v)) /\ forall c w, starts base c w -> starts (f base (k, v)) c w).
    { unfold f. cbn [fst snd]. destruct Hk as (Hk0 & Hkv & Hk58). pose proof Hv as (Hv0 & Hv1 & _). rewrite TrimSpace_visible, Hv1 by done. rewrite !bool_decide_eq_false_2 by done. cbn [orb]. destruct (equal_fold k "Content-Length"); [done|].
      rewrite canonical_visibles by done. split; [apply add_composed; [done|by apply canon_name_ok|apply canon_idem|done|done]|]. intros c w [ws Hws]. unfold add_header. destruct (decide (canon k = c)) as [<-|Hne].
      - exists (ws ++ [v]). by rewrite lookup_insert_eq, Hws.
      - exists ws. by rewrite lookup_insert_ne. }
    destruct (IH (fun p Hp => Hl p (list_elem_of_further _ _ _ Hp)) _ (proj1 Hstep)) as [IH1 IH2]. split; [done|]. intros c w Hw. by apply IH2, Hstep. }
  destruct Hf as [F1 F2]. fold cl. split_and!; [|apply lookup_insert_eq|].
  - apply insert_composed; [done|by_decide|left; by_decide|by_decide|done|]. constructor; [by apply token_text; apply Itoa_token|constructor].
  - intros p v Hp Hv. destruct (F2 _ v (B3 p v Hp (lookup_empty _) Hv)) as [vs Hvs]. exists vs. rewrite Forall_forall in C3. rewrite lookup_insert_ne by by intros E; apply (C3 p Hp). done.
Qed.
End exchange.

(** ** Theorems *)
Section theorems.
Context {U : UnicodeCase} {T : TextTables} {R : RangeOrder}.
Definition reason_of (code : Z) (reason : bytes) : bytes := if blank reason then defaultSIPReason code else reason.
Definition reason_ok (reason : bytes) : Prop := blank reason = true \/ text_ok reason.
Lemma default_reason_text code : text_ok (defaultSIPReason code).
Proof. unfold defaultSIPReason. repeat match goal with |- context [if code =? ?x then _ else _] => destruct (code =? x) end; by_decide. Qed.
Lemma response_built inc code reason h body : answerable (in_Headers inc) -> added_ok h -> 100 <= code <= 699 -> reason_ok reason ->
  exists fs, BuildSIPResponseWire inc code reason h body = Ok (wire_of (message_lines (sip2 ++ [32] ++ Itoa code ++ [32] ++ reason_of code reason) fs) body) /\
    lengthed fs body /\ gather (canonical_field <$> fs) ∅ = wire_values id (response_headers (in_Headers inc) h (len body)) /\ text_ok (reason_of code reason).
Proof.
  intros Hi Hh Hc Hr. destruct (response_headers_ok (in_Headers inc) h (len body) Hi Hh ltac:(unfold len; lia)) as (R1 & R2 & _).
  destruct (response_section _ (len body) (composed_writable _ R1) ltac:(unfold len; lia) R2) as (fs & E1 & E2 & E3 & E4). exists fs. unfold BuildSIPResponseWire, validSIPStatusCode.
  replace ((100 <=? code) && (code <=? 699)) with true by lia. cbn [negb]. cbv zeta. rewrite E1.
  assert (Hreason : (if bool_decide (TrimSpace reason = []) then defaultSIPReason code else TrimSpace reason) = reason_of code reason /\ text_ok (reason_of code reason)).
  { unfold reason_of, reason_ok, blank in *. case_bool_decide as Hb; [split; [done|apply default_reason_text]|]. destruct Hr as [|Ht]; [done|]. split; [|done]. by destruct Ht as (_ & -> & _). }
  rewrite (proj1 Hreason). split; [|split; [by split|split; [done|apply Hreason]]]. f_equal. unfold message_lines. rewrite <- lines_text. change (go_bytes "SIP/2.0 ") with (sip2 ++ [32]). unfold fields_text. by rewrite <- !app_assoc.
Qed.
(** The header fields that a response is matched by. *)
Definition identified (msg : SIPRequestMessage) : Prop :=
  (exists k v, sq_Headers msg !! k = Some v /\ equal_fold k "Call-ID" = true) /\
  (exists k v, sq_Headers msg !! k = Some v /\ equal_fold k "CSeq" = true /\ sipCSeqParts v <> None).
Lemma first_of_starts (i : nat) m (name : string) v : answerable m -> plain_name name -> starts m (canon (go_bytes name)) v -> firstHeader i m name = v.
Proof.
  intros Ha Hn [vs Hv]. unfold firstHeader, firstTrimmed. rewrite raw_values, Hv by done. cbn [default from_option id]. destruct (Ha _ _ Hv) as (_ & _ & _ & Ht). by rewrite (proj2 (all_values_text _ Ht)).
Qed.
Lemma plain_names : plain_name "Call-ID" /\ plain_name "CSeq" /\ plain_name "Via".
Proof. by_decide. Qed.
Lemma names_copied : ((303%nat, "Call-ID") ∈ copied) /\ ((304%nat, "CSeq") ∈ copied) /\ ((300%nat, "Via") ∈ copied).
Proof. by_decide. Qed.
Lemma EqualFold_refl s : strings_EqualFold s s = true.
Proof. unfold strings_EqualFold. by apply bool_decide_eq_true_2. Qed.
(** A response whose first Call-ID, CSeq and Via are those of the request matches it. *)
Lemma same_fields_match resp msg idk id ck c vk v : answerable (sr_Headers resp) -> keys_ok (sq_Headers msg) ->
  sq_Headers msg !! idk = Some id -> equal_fold idk "Call-ID" = true -> text_ok id -> sq_Headers msg !! ck = Some c -> equal_fold ck "CSeq" = true -> text_ok c -> sipCSeqParts c <> None ->
  sq_Headers msg !! vk = Some v -> equal_fold vk "Via" = true -> text_ok v ->
  starts (sr_Headers resp) (canon (go_bytes "Call-ID")) id -> starts (sr_Headers resp) (canon (go_bytes "CSeq")) c -> starts (sr_Headers resp) (canon (go_bytes "Via")) v ->
  sipResponseMatchesRequest resp msg = true.
Proof.
  intros Ha Hok I1 I2 I3 C1 C2 C3 C4 V1 V2 V3 S1 S2 S3. destruct plain_names as (P1 & P2 & P3). unfold sipResponseMatchesRequest, sipResponseHeaderMatchesRequest, sipResponseCSeqMatchesRequest, sipResponseViaMatchesRequest.
  rewrite (first_of_starts 400 _ "Call-ID" id), (first_of_starts 402 _ "CSeq" c), (first_of_starts 404 _ "Via" v) by done.
  rewrite (first_value_here 401 _ "Call-ID" idk id), (first_value_here 403 _ "CSeq" ck c), (first_value_here 405 _ "Via" vk v) by first [done | by_decide].
  rewrite ?TrimSpace_idem. destruct I3 as (I3 & -> & _), C3 as (C3 & -> & _), V3 as (V3 & -> & _). rewrite (bool_decide_eq_false_2 (id = [])), (bool_decide_eq_false_2 (c = [])), (bool_decide_eq_false_2 (v = [])), (bool_decide_eq_true_2 (id = id)) by done. cbn [negb andb].
  destruct (sipCSeqParts c) as [[seq method]|]; [|done]. rewrite Z.eqb_refl, EqualFold_refl. cbn [andb]. rewrite (bool_decide_eq_true_2 (sipViaBranch v = sipViaBranch v)) by done. by destruct (bool_decide (sipViaBranch v = [])).
Qed.

(** C26: a transaction on the wire: what the client builds, the server parses to the same method, URI, headers (under their canonical names) and
    body, for every order in which the maps are ranged over; what the server answers, the client parses to the code, the reason, the headers and the body of the answer,
    and it matches the request. *)
Theorem exchange_on_the_wire msg transport address random random' code reason h body now :
  sendable msg -> identified msg -> link_ok transport address random -> link_ok transport address random' ->
  100 <= code <= 699 -> reason_ok reason -> added_ok h -> len body < 2 ^ 63 ->
  let sent := ensureSIPRequestVia msg transport address random in
  exists w inc w' resp,
    buildSIPRequestWire sent transport address random' = Ok w /\ ParseSIPRequest w = Ok inc /\
    inc = mkSIPIncoming (strings_ToUpper (sq_Method msg)) (sq_URI msg) (wire_headers (with_length (sq_Headers sent) (sq_Body msg))) (sq_Body msg) /\
    BuildSIPResponseWire inc code reason h body = Ok w' /\ ParseSIPResponse w' now = Ok resp /\
    sr_StatusCode resp = code /\ sr_Reason resp = reason_of code reason /\ sr_Body resp = body /\ sr_Headers resp = wire_values id (response_headers (in_Headers inc) h (len body)) /\
    sipResponseMatchesRequest resp sent = true.
Proof.
  intros Hs ((idk & cid & I1 & I2) & ck & c & C1 & C2 & C3) Hl Hl' Hc Hr Hh Hb sent. destruct (ensure_via msg transport address random Hs Hl) as (S1 & (vk & v & V1 & V2) & S2 & S3 & S4 & S5). fold sent in S1, V1, S2, S3, S4, S5.
  destruct (request_built sent transport address random' S1 Hl') as (fs & E1 & E2 & E3). pose proof S1 as (Sm & Su & [Hok Ht] & Sb & Scl & Svia). rewrite S2, S3, S4 in E1. rewrite S4 in E2, E3.
  assert (Hvia : with_via (sq_Headers sent) transport address random' = sq_Headers sent).
  { unfold with_via. rewrite (first_value_here 201 _ "Via" vk v Hok ltac:(by_decide) V1 V2). destruct (Ht vk v V1) as (Hv0 & -> & _). by rewrite bool_decide_eq_false_2. }
  rewrite Hvia in E3. set (hs := with_length (sq_Headers sent) (sq_Body msg)) in *.
  assert (Hhs : sendable_headers hs). { apply insert_sendable; [by split|by_decide|apply token_text; apply Itoa_token; unfold len; lia|]. intros k w Hk Hck. exfalso. apply (Scl k w Hk). rewrite Hck. by_decide. }
  assert (Hw : forall k w, sq_Headers sent !! k = Some w -> canon k <> cl -> wire_headers hs !! canon k = Some [w]).
  { intros k w Hk Hck. unfold wire_headers. apply (wire_lookup (fun v => [v])); [apply Hhs|]. unfold hs, with_length. rewrite lookup_insert_ne; [done|]. intros <-. apply Hck. by_decide. }
  set (inc := mkSIPIncoming (strings_ToUpper (sq_Method msg)) (sq_URI msg) (wire_headers hs) (sq_Body msg)).
  assert (Hi : answerable (in_Headers inc)). { apply wire_answerable; [exact (proj1 Hhs)|]. intros k w Hk. split; [done|]. constructor; [by apply (proj2 Hhs k w)|constructor]. }
  destruct (response_built inc code reason h body Hi Hh Hc Hr) as (gs & B1 & B2 & B3 & B4). destruct (response_headers_ok (in_Headers inc) h (len body) Hi Hh ltac:(unfold len; lia)) as (R1 & R2 & R3).
  rewrite S2 in Sm. rewrite S3 in Su. pose proof (request_parsed _ _ fs (sq_Body msg) (token_upper _ Sm) Su E2 ltac:(by rewrite <- S4)) as P1. rewrite E3 in P1.
  assert (Hup : strings_ToUpper (strings_ToUpper (sq_Method msg)) = strings_ToUpper (sq_Method msg)).
  { destruct Sm as [_ Hv]. rewrite (ToUpper_visibles (sq_Method msg)) by done. rewrite ToUpper_visibles by (apply visibles_map; [apply upper_octet_visible|done]). rewrite <- list_fmap_compose. apply list_fmap_ext. intros _ b _. unfold compose, upper_octet. repeat case_match; lia. }
  rewrite Hup in P1. fold inc in P1. pose proof (response_parsed code (reason_of code reason) gs body now Hc B4 B2 Hb) as P2. rewrite B3 in P2.
  eexists _, inc, _, _. split; [exact E1|]. split; [exact P1|]. split; [done|]. split; [exact B1|]. split; [exact P2|]. cbn [sr_StatusCode sr_Reason sr_Body sr_Headers]. split_and!; try reflexivity.
  destruct (composed_writable _ R1) as [Wk Wv]. assert (Hst : forall i name k w, (i, name) ∈ copied -> sq_Headers sent !! k = Some w -> canon k = canon (go_bytes name) -> canon k <> cl -> starts (wire_values id (response_headers (in_Headers inc) h (len body))) (canon (go_bytes name)) w).
  { intros i name k w Hin Hk Hck Hcl'. destruct (R3 (i, name) w Hin) as [vs Hvs]; [cbn [snd]; rewrite <- Hck; by apply Hw|]. cbn [snd] in Hvs. exists vs. by rewrite (wire_lookup id _ _ _ Wk Hvs). }
  assert (Hkv : forall (name : string) k w, sq_Headers sent !! k = Some w -> name_text name -> equal_fold k name = true -> canon k = canon (go_bytes name)) by (intros name k w Hk Hn He; apply fold_canon; [exact (key_visibles _ k w Hok Hk)|done|done]).
  assert (Hkm : forall (name : string) k w, sq_Headers msg !! k = Some w -> name_text name -> equal_fold k name = true -> canon (go_bytes name) <> via -> sq_Headers sent !! k = Some w).
  { intros name k w Hk Hn He Hne. rewrite S5; [done|]. rewrite (fold_canon k name); [done|exact (key_visibles _ k w (proj1 (proj1 (proj2 (proj2 Hs)))) Hk)|done|done]. }
  apply (Hkm "Call-ID") in I1; [|by_decide|done|by_decide]. apply (Hkm "CSeq") in C1; [|by_decide|done|by_decide]. destruct names_copied as (N1 & N2 & N3).
  pose proof (Hkv "Call-ID" idk cid I1 ltac:(by_decide) I2) as K1. pose proof (Hkv "CSeq" ck c C1 ltac:(by_decide) C2) as K2. pose proof (Hkv "Via" vk v V1 ltac:(by_decide) V2) as K3.
  eapply (same_fields_match _ sent idk cid ck c vk v); cbn [sr_Headers]; try assumption; try (by eapply Ht).
  - by apply wire_answerable.
  - eapply Hst; [exact N1|done..|rewrite K1; by_decide].
  - eapply Hst; [exact N2|done..|rewrite K2; by_decide].
  - eapply Hst; [exact N3|done..|rewrite K3; by_decide].
Qed.

(** *** Streams *)
(** What the code writes to a connection. *)
Inductive written : bytes -> Prop :=
  | written_request msg transport address random w : sendable msg -> link_ok transport address random -> len (sq_Body msg) <= maxAlloc ->
      buildSIPRequestWire msg transport address random = Ok w -> written w
  | written_response inc code reason h body w : answerable (in_Headers inc) -> added_ok h -> reason_ok reason -> len body <= maxAlloc ->
      BuildSIPResponseWire inc code reason h body = Ok w -> written w.
Lemma written_read k w rest : written w -> readSIPStreamMessage (keepalives k ++ w ++ rest) = Ok (w, rest).
Proof.
  intros [msg transport address random w' Hs Hl Hb E|inc code reason h body w' Hi Hh Hr Hb E].
  - destruct (request_built msg transport address random Hs Hl) as (fs & E1 & E2 & _). rewrite E1 in E. injection E as <-. destruct (token_upper (sq_Method msg) (proj1 Hs)) as [Hm Hv].
    assert (Ht : text_ok (strings_ToUpper (sq_Method msg) ++ [32] ++ sq_URI msg ++ [32] ++ sip2)) by (apply text_words; [by apply token_text|]; apply text_words; [apply token_ok, Hs|apply token_ok; by_decide]).
    destruct (strings_ToUpper (sq_Method msg)) as [|b m]; [done|]. apply Forall_cons in Hv as [Hb0 _]. apply stream_read; [by apply text_line|exists b; split; [done|left]|done|done].
  - assert (Hc : 100 <= code <= 699). { unfold BuildSIPResponseWire, validSIPStatusCode in E. destruct ((100 <=? code) && (code <=? 699)) eqn:Ec; [lia|done]. }
    destruct (response_built inc code reason h body Hi Hh Hc Hr) as (fs & E1 & E2 & _ & Ht). rewrite E1 in E. injection E as <-. destruct (Itoa_token code ltac:(lia)) as [T1 T2].
    assert (Htx : text_ok (sip2 ++ [32] ++ Itoa code ++ [32] ++ reason_of code reason)) by (apply text_words; [apply token_ok; by_decide|]; apply text_words; [by apply token_text|done]).
    apply stream_read; [exact (text_line 83 _ eq_refl Htx)|exists 83; split; [done|left]|done|done].
Qed.
(** A reader that calls [readSIPStreamMessage] again and again. *)
Fixpoint read_messages (n : nat) (stream : bytes) : result (list bytes * bytes) :=
  match n with
  | O => Ok ([], stream)
  | S n => let! m := readSIPStreamMessage stream in let! ms := read_messages n m.2 in Ok (m.1 :: ms.1, ms.2)
  end.

(** C27: a stream of written messages, with any number of empty lines before each, is cut into those messages, and nothing of what follows is taken: the
    lengths and the ends of the heads agree on both sides. *)
Theorem stream_cut_into_messages ms rest : Forall (fun m => written m.2) ms ->
  read_messages (length ms) (concat ((fun m => keepalives m.1 ++ m.2) <$> ms) ++ rest) = Ok (ms.*2, rest).
Proof.
  induction 1 as [|[k w] ms Hw Hms IH]; [done|]. cbn [fmap list_fmap concat length read_messages fst snd] in *. rewrite <- !app_assoc. rewrite written_read by done. cbn [bind fst snd]. by rewrite IH.
Qed.

(** *** The reader of a stream on any input *)
Lemma read_line_split stream line rest : read_line stream = Some (line, rest) -> stream = line ++ rest /\ exists l, line = l ++ [10] /\ 10 ∉ l.
Proof.
  revert line rest. induction stream as [|b stream IH]; intros line rest; [done|]. cbn [read_line]. destruct (Z.eqb_spec b 10) as [->|Hb].
  - intros [= <- <-]. split; [done|]. exists []. split; [done|apply not_elem_of_nil].
  - destruct (read_line stream) as [[l r]|]; [|done]. intros [= <- <-]. destruct (IH l r eq_refl) as (-> & l' & -> & Hl'). split; [done|]. exists (b :: l'). split; [done|]. by apply not_elem_of_cons.
Qed.
(** A head starts with a line of text. *)
Definition has_text (raw : bytes) : Prop := exists l t c, raw = l ++ 10 :: t /\ (10 ∉ l) /\ c ∈ l /\ c <> 13.
Lemma not_blank_text l : 10 ∉ l -> isSIPBlankLine (l ++ [10]) = false -> exists c, c ∈ l /\ c <> 13.
Proof.
  intros Hl Hb. destruct (decide (Exists (fun c => c <> 13) l)) as [H|H]; [by apply Exists_exists in H|]. exfalso. assert (Hall : l = replicate (length l) 13).
  { clear Hb Hl. induction l as [|c l IH]; [done|]. cbn [length replicate]. f_equal; [destruct (decide (c = 13)); [done|]; exfalso; by apply H; left|apply IH; intros Hl; apply H; by right]. }
  rewrite Hall in Hb. unfold isSIPBlankLine in Hb. apply bool_decide_eq_false in Hb. apply Hb. clear. generalize (length l) as n. intros n.
  unfold TrimSpace, TrimLeftSpace. assert (E : forall fuel, (S n <= fuel)%nat -> trim_left fuel space_runes (replicate n 13 ++ [10]) = []).
  { induction n as [|n IH]; intros fuel Hf; (destruct fuel as [|fuel]; [lia|]); cbn [replicate app trim_left].
    - by destruct fuel.
    - change (cut_rune space_runes (13 :: replicate n 13 ++ [10])) with (Some (replicate n 13 ++ [10])). apply IH. lia. }
  rewrite E; [done|]. rewrite length_app, length_replicate. cbn. lia.
Qed.
Lemma read_head_loop_returns fuel raw stream : (length stream < fuel)%nat ->
  (exists e, read_head_loop fuel raw stream = Err e) \/ exists head rest, read_head_loop fuel raw stream = Ok (head, rest) /\ (raw = [] \/ has_text raw -> has_text head).
Proof.
  revert raw stream. induction fuel as [|fuel IH]; intros raw stream Hf; [lia|]. cbn [read_head_loop]. destruct (read_line stream) as [[line rest]|] eqn:E; [|left; eauto].
  apply read_line_split in E as (-> & l & -> & Hl). rewrite !length_app in Hf. cbn in Hf. destruct (isSIPBlankLine (l ++ [10])) eqn:Eb.
  - destruct (len raw =? 0) eqn:Er; cbn [andb].
    + apply IH. lia.
    + cbv zeta. destruct (_ || _).
      * right. eexists _, _. split; [done|]. intros [->|(l' & t & c & -> & ? & ? & ?)]; [done|]. exists l', (t ++ l ++ [10]), c. by rewrite <- app_assoc.
      * destruct (IH (raw ++ l ++ [10]) rest ltac:(lia)) as [?|(head & r & E & Hh)]; [by left|right]. eexists _, _. split; [exact E|]. intros [->|(l' & t & c & -> & ? & ? & ?)]; [done|]. apply Hh. right. exists l', (t ++ l ++ [10]), c. by rewrite <- app_assoc.
  - rewrite andb_false_r. cbv zeta. destruct (not_blank_text l Hl Eb) as (c0 & Hc0 & Hne). assert (Htx : raw = [] \/ has_text raw -> has_text (raw ++ l ++ [10])).
    { intros [->|(l' & t & c & -> & ? & ? & ?)]; [by exists l, [], c0|]. exists l', (t ++ l ++ [10]), c. by rewrite <- app_assoc. }
    destruct (_ || _); [right; eauto 6|]. destruct (IH (raw ++ l ++ [10]) rest ltac:(lia)) as [?|(head & r & E & Hh)]; [by left|right]. eexists _, _. split; [exact E|]. auto.
Qed.
Lemma cut_on_split p s a b : cut_on p s = Some (a, b) -> s = a ++ p ++ b.
Proof.
  assert (Hst : forall s, starts_with p s = true -> s = p ++ drop (length p) s). { intros s'. unfold starts_with. intros H%bool_decide_eq_true. rewrite <- H at 1. by rewrite take_drop. }
  revert a b. induction s as [|c s IH]; intros a b; cbn [cut_on]; (destruct (starts_with p _) eqn:E; [intros [= <- <-]; by apply Hst|]); [done|].
  destruct (cut_on p s) as [[x y]|]; [|done]. intros [= <- <-]. by rewrite (IH x y) at 1.
Qed.
Lemma crlf_to_lf_keeps c s : c <> 13 -> c ∈ s -> c ∈ crlf_to_lf s.
Proof.
  intros Hc. induction s as [|b s IH]; [done|]. intros Hin. assert (Hk : crlf_to_lf (b :: s) = crlf_to_lf s /\ b = 13 \/ crlf_to_lf (b :: s) = b :: crlf_to_lf s).
  { destruct (decide (b = 13)) as [->|Hb].
    - destruct s as [|x s]; [by right|]. destruct (decide (x = 10)) as [->|Hx]; [by left|right]. cbn [crlf_to_lf]. destruct x as [|p|p]; try done. do 4 (destruct p as [p|p|]; try done).
    - right. apply (crlf_to_lf_app [b] s). rewrite elem_of_cons. intros [?|?%not_elem_of_nil]; congruence. }
  apply elem_of_cons in Hin as [->|Hin]; destruct Hk as [[-> ->]| ->]; [done|left|by apply IH|right; by apply IH].
Qed.
Lemma split_text c s : c <> 10 -> c ∈ s -> exists l, l ∈ strings_Split s 10 /\ l <> [].
Proof.
  intros Hc. induction s as [|b s IH]; [by intros ?%not_elem_of_nil|]. intros Hin. cbn [strings_Split]. destruct (Z.eqb_spec b 10) as [->|Hb].
  - apply elem_of_cons in Hin as [?|Hin]; [done|]. destruct (IH Hin) as (l & Hl & Hne). exists l. split; [by right|done].
  - destruct (strings_Split s 10) as [|p ps]; [exists [b]; split; [left|done]|exists (b :: p); split; [left|done]].
Qed.
Lemma header_lines_nonempty raw out : out <> [] \/ (exists l, l ∈ raw /\ l <> []) -> header_lines_loop raw out <> [].
Proof.
  revert out. induction raw as [|line raw IH]; intros out H; cbn [header_lines_loop].
  - destruct H as [H|(l & Hl & _)]; [|by apply not_elem_of_nil in Hl]. intros E. apply H. apply (f_equal reverse) in E. by rewrite reverse_involutive in E.
  - case_bool_decide as Hl.
    + apply IH. destruct H as [?|(l & [->|Hin]%elem_of_cons & Hne)]; [by left|done|right; eauto].
    + destruct out as [|prev before]; [|destruct (folds line)]; apply IH; by left.
Qed.
Lemma head_has_lines raw hb : has_text raw -> splitSIPMessage raw = Ok hb -> splitHeaderLines hb.1 <> [].
Proof.
  intros (l & t & c & -> & Hl & Hc & Hne) E. assert (Hin : c ∈ hb.1).
  { assert (Hp : exists p, l ++ 10 :: t = hb.1 ++ p ++ hb.2 /\ (p = [13; 10; 13; 10] \/ p = [10; 10])).
    { unfold splitSIPMessage in E. destruct (cut_on [13; 10; 13; 10] _) as [[a b]|] eqn:E1; [injection E as <-; apply cut_on_split in E1; eauto|].
      destruct (cut_on [10; 10] _) as [[a b]|] eqn:E2; [injection E as <-; apply cut_on_split in E2; eauto|done]. }
    destruct Hp as (p & Hp & Hps). apply app_eq_inv in Hp as [(k & -> & Hk)|(k & -> & _)]; [|apply elem_of_app; by left].
    apply elem_of_app in Hc as [Hc|Hc]; [done|]. exfalso. assert (Hk10 : 10 ∉ k) by (intros H; apply Hl, elem_of_app; by right).
    destruct k as [|x k]; [by apply not_elem_of_nil in Hc|]. destruct Hps as [-> | ->]; cbn [app] in Hk; injection Hk as <- Hk; [|by apply Hk10; left].
    destruct k as [|y k]; [apply elem_of_cons in Hc as [?|?%not_elem_of_nil]; done|]. injection Hk as <- _. apply Hk10. right. left. }
  unfold splitHeaderLines. apply header_lines_nonempty. right. apply (split_text c); [intros ->; done|by apply crlf_to_lf_keeps].
Qed.
Lemma parse_headers_returns lines h : returns (parse_headers_loop lines h).
Proof.
  revert h. induction lines as [|l lines IH]; intros h; [done|]. cbn [parse_headers_loop]. destruct (cut_at l 58) as [[n v]|]; [|done]. cbv zeta. case_bool_decide; [done|apply IH].
Qed.
Lemma length_values_returns vs m seen : 0 <= m -> safe (length_values vs m seen) (fun r => 0 <= r.1).
Proof.
  revert m seen. induction vs as [|v vs IH]; intros m seen Hm; [done|]. cbn [length_values]. destruct (Atoi (TrimSpace v)) as [n|]; [|done]. destruct (Z.ltb_spec n 0); [done|]. destruct (seen && _); [done|by apply IH].
Qed.
Lemma length_headers_returns l m seen : 0 <= m -> safe (length_headers l m seen) (fun r => 0 <= r.1).
Proof.
  revert m seen. induction l as [|[k vs] l IH]; intros m seen Hm; [done|]. cbn [length_headers]. destruct (_ && _); [by apply IH|]. case_bool_decide; [done|].
  pose proof (length_values_returns vs m seen Hm) as Hv. destruct (length_values vs m seen) as [r| | |]; try done. by apply IH.
Qed.
Lemma strict_length_returns h : safe (strictContentLength h) (fun r => 0 <= r.1).
Proof. by apply length_headers_returns. Qed.
Lemma body_returns h body : returns (sipBodyByContentLength h body).
Proof.
  unfold sipBodyByContentLength. pose proof (strict_length_returns h) as Hl. destruct (strictContentLength h) as [[n seen]| | |]; try done. cbn [safe fst] in Hl. cbn [bind fst snd]. destruct seen; [|done]. cbn [negb].
  destruct (Z.ltb_spec (len body) n); [done|]. by rewrite slice_Ok by lia.
Qed.
Lemma split_returns raw : returns (splitSIPMessage raw).
Proof. unfold splitSIPMessage. destruct (cut_on _ raw); [done|]. by destruct (cut_on _ raw). Qed.
(** Whatever a peer sends, the parsers return a message or an error: no index, slice or conversion of theirs panics. *)
Theorem parsers_return raw now : returns (ParseSIPRequest raw) /\ returns (ParseSIPResponse raw now).
Proof.
  pose proof (split_returns raw) as Hs. unfold ParseSIPRequest, ParseSIPResponse. destruct (splitSIPMessage raw) as [hb| | |]; try done. cbn [bind]. destruct (splitHeaderLines hb.1) as [|first lines]; [done|]. split.
  - destruct (strings_Fields first) as [|m [|u [|v [|]]]]; try done. destruct (negb _); [done|]. cbv zeta. destruct (_ || _); [done|]. pose proof (parse_headers_returns lines ∅) as Hp. unfold parseSIPHeaders.
    destruct (parse_headers_loop lines ∅) as [h| | |]; try done. cbn [bind]. pose proof (body_returns h hb.2) as Hb. by destruct (sipBodyByContentLength h hb.2).
  - destruct (cut_at first 32) as [[version rest]|]; [|done]. destruct (negb _); [done|]. destruct (match cut_at rest 32 with Some _ => _ | None => _ end) as [code reason]. cbv zeta. destruct (negb _); [done|]. destruct (negb _); [done|].
    pose proof (parse_headers_returns lines ∅) as Hp. unfold parseSIPHeaders. destruct (parse_headers_loop lines ∅) as [h| | |]; try done. cbn [bind]. pose proof (body_returns h hb.2) as Hb. by destruct (sipBodyByContentLength h hb.2).
Qed.
(** The length that a head declares. *)
Definition declared (head : bytes) : option Z :=
  match splitSIPMessage head with
  | Ok hb =>
      match parseSIPHeaders (tail (splitHeaderLines hb.1)) with
      | Ok h => match strictContentLength h with Ok (n, true) => Some n | _ => None end
      | _ => None
      end
  | _ => None
  end.
(** C28: on any stream, [readSIPStreamMessage] takes a message or returns an error, if no head declares a body beyond what [make] can allocate; the length that
    a peer declares is the only thing that can make it panic. *)
Theorem stream_reader_returns stream :
  (forall head rest n, read_head_loop (S (length stream)) [] stream = Ok (head, rest) -> declared head = Some n -> n <= maxAlloc) ->
  returns (readSIPStreamMessage stream).
Proof.
  intros Hd. unfold readSIPStreamMessage. destruct (read_head_loop_returns (S (length stream)) [] stream ltac:(lia)) as [[e ->]|(head & rest & E & Ht)]; [done|]. rewrite E in Hd |- *. cbn [bind].
  specialize (Hd head rest). unfold declared in Hd. specialize (Ht ltac:(by left)). pose proof (split_returns head) as Hs. destruct (splitSIPMessage head) as [hb| | |] eqn:Es; try done. cbn [bind].
  pose proof (head_has_lines head hb Ht Es) as Hne. destruct (splitHeaderLines hb.1) as [|first lines]; [done|]. cbn [tail] in Hd. pose proof (parse_headers_returns lines ∅) as Hp. unfold parseSIPHeaders in *.
  destruct (parse_headers_loop lines ∅) as [h| | |]; try done. cbn [bind]. pose proof (strict_length_returns h) as Hl. destruct (strictContentLength h) as [[n seen]| | |]; try done. cbn [bind fst snd].
  destruct seen; [|done]. cbn [andb]. destruct (0 <? n); [|done]. specialize (Hd n eq_refl eq_refl). unfold read_body. replace (maxAlloc <? n) with false by lia. destruct (_ <? _); [by destruct (_ =? _)|done].
Qed.
End theorems.

(** ** Witnesses *)
#[local] Instance ascii_case : UnicodeCase := {| unicode_ToUpper r := r; unicode_ToLower r := r |}.
#[local] Instance ascii_tables : TextTables := {| fold_beyond r := r; time_Parse _ _ := None |}.
#[local] Instance key_order : RangeOrder := {| range_map A _ m := map_to_list m; range_map_perm A _ m := reflexivity _ |}.
Definition sample_request : SIPRequestMessage := mkSIPRequest (go_bytes "INVITE") (go_bytes "sip:bob@ims.example")
  (list_to_map [(go_bytes "Call-ID", go_bytes "4711"); (go_bytes "CSeq", go_bytes "1 INVITE"); (go_bytes "From", go_bytes "<sip:alice@ims.example>;tag=1"); (go_bytes "To", go_bytes "<sip:bob@ims.example>")]) (go_bytes "v=0").
Definition sample_link : option (bytes * bytes) := Some (go_bytes "10.0.0.1", go_bytes "5060").
Definition sample_added : gmap bytes bytes := {[ go_bytes "Contact" := go_bytes "<sip:bob@10.0.0.2>" ]}.
Lemma map_forall {A} (P : bytes -> A -> Prop) (h : gmap bytes A) : Forall (fun p => P p.1 p.2) (map_to_list h) -> forall k a, h !! k = Some a -> P k a.
Proof. intros H k a Hk. rewrite Forall_forall in H. apply (H (k, a)). by apply elem_of_map_to_list. Qed.
Lemma sample_sendable : sendable sample_request.
Proof.
  assert (H : Forall (fun p => name_ok p.1 /\ text_ok p.2 /\ canon p.1 <> cl /\ canon p.1 <> via) (map_to_list (sq_Headers sample_request))) by by_decide.
  assert (Hu : NoDup ((fun p => canon p.1) <$> map_to_list (sq_Headers sample_request))) by by_decide. pose proof (map_forall (fun k v => name_ok k /\ text_ok v /\ canon k <> cl /\ canon k <> via) _ H) as Hall.
  split_and!; try by_decide. split; [split|]; [intros k v Hk; by apply (Hall k v)| |intros k v Hk; by apply (Hall k v)]. intros k k' v v' Hk Hk' E. apply elem_of_map_to_list in Hk, Hk'.
  apply list_elem_of_lookup in Hk as [i Hi], Hk' as [j Hj].
  assert (i = j) as <- by (eapply NoDup_lookup; [exact Hu| |]; rewrite list_lookup_fmap; [by rewrite Hi|by rewrite Hj; cbn [fst fmap option_fmap option_map]; rewrite E]). congruence.
Qed.
Lemma sample_link_ok : link_ok (go_bytes "UDP") sample_link (Some [1; 2; 3; 4; 5; 6; 7; 8]).
Proof. by_decide. Qed.
Lemma sample_added_ok : added_ok sample_added.
Proof. unfold added_ok. apply (map_forall (fun k v => name_ok k /\ text_ok v /\ canon k <> canon cseq)). by_decide. Qed.
Lemma sample_identified : identified sample_request.
Proof. split; [exists (go_bytes "Call-ID"), (go_bytes "4711")|exists (go_bytes "CSeq"), (go_bytes "1 INVITE")]; by_decide. Qed.
Definition sample_random : option bytes := Some [1; 2; 3; 4; 5; 6; 7; 8].
Lemma exchange_on_the_wire_witness :
  (sendable sample_request /\ link_ok (go_bytes "UDP") sample_link sample_random /\ reason_ok []) /\
  let sent := ensureSIPRequestVia sample_request (go_bytes "UDP") sample_link sample_random in
  exists w inc w' resp,
    buildSIPRequestWire sent (go_bytes "UDP") sample_link sample_random = Ok w /\ ParseSIPRequest w = Ok inc /\
    inc = mkSIPIncoming (strings_ToUpper (sq_Method sample_request)) (sq_URI sample_request) (wire_headers (with_length (sq_Headers sent) (sq_Body sample_request))) (sq_Body sample_request) /\
    BuildSIPResponseWire inc 200 [] sample_added (go_bytes "v=0") = Ok w' /\ ParseSIPResponse w' 0 = Ok resp /\
    sr_StatusCode resp = 200 /\ sr_Reason resp = reason_of 200 [] /\ sr_Body resp = go_bytes "v=0" /\ sr_Headers resp = wire_values id (response_headers (in_Headers inc) sample_added (len (go_bytes "v=0"))) /\
    sipResponseMatchesRequest resp sent = true.
Proof.
  assert (Hr : reason_ok []) by by left. split; [split_and!; [exact sample_sendable|exact sample_link_ok|done]|].
  apply (exchange_on_the_wire sample_request (go_bytes "UDP") sample_link sample_random sample_random 200 [] sample_added (go_bytes "v=0") 0);
    [exact sample_sendable|exact sample_identified|exact sample_link_ok|exact sample_link_ok|lia|exact Hr|exact sample_added_ok|reflexivity].
Defined.
Definition sample_wire : bytes := match buildSIPRequestWire sample_request (go_bytes "UDP") sample_link sample_random with Ok w => w | _ => [] end.
Definition text_of_lines (lines : list string) (body : bytes) : bytes := concat ((fun l => go_bytes l ++ crlf) <$> lines) ++ crlf ++ body.
Example sample_wire_text : sample_wire = text_of_lines
  ["INVITE sip:bob@ims.example SIP/2.0"; "Via: SIP/2.0/UDP 10.0.0.1:5060;branch=z9hG4bK0102030405060708;rport"; "To: <sip:bob@ims.example>"; "From: <sip:alice@ims.example>;tag=1"; "Call-ID: 4711"; "CSeq: 1 INVITE"; "Content-Length: 3"]
  (go_bytes "v=0").
Proof. vm_compute. reflexivity. Qed.
Lemma sample_written : written sample_wire.
Proof. apply (written_request sample_request (go_bytes "UDP") sample_link sample_random); [exact sample_sendable|exact sample_link_ok|by_decide|]. vm_compute. reflexivity. Qed.
Lemma stream_cut_into_messages_witness : Forall (fun m => written m.2) [(2%nat, sample_wire); (0%nat, sample_wire)] /\
  read_messages 2 ((crlf ++ crlf ++ sample_wire ++ sample_wire) ++ [83]) = Ok ([sample_wire; sample_wire], [83]).
Proof.
  assert (H : Forall (fun m => written m.2) [(2%nat, sample_wire); (0%nat, sample_wire)]) by (repeat constructor; exact sample_written). split; [exact H|].
  pose proof (stream_cut_into_messages [(2%nat, sample_wire); (0%nat, sample_wire)] [83] H) as C.
  replace (crlf ++ crlf ++ sample_wire ++ sample_wire) with (concat ((fun m => keepalives m.1 ++ m.2) <$> [(2%nat, sample_wire); (0%nat, sample_wire)])); [exact C|]. vm_compute. reflexivity.
Defined.
Lemma stream_reader_returns_witness : returns (readSIPStreamMessage (sample_wire ++ [83])).
Proof.
  apply stream_reader_returns. intros head rest n E. vm_compute in E. injection E as <- <-. intros Hn. vm_compute in Hn. injection Hn as <-. vm_compute. discriminate.
Defined.
(** A length beyond what [make] allocates, which [strictContentLength] lets through. *)
Example huge_length : readSIPStreamMessage (text_of_lines ["SIP/2.0 200 OK"; "Content-Length: 9223372036854775807"] []) = Panic.
Proof. vm_compute. reflexivity. Qed.
(** A line break inside a value is written as it is, and what follows is read as a header of its own. *)
Definition broken_value : SIPRequestMessage := mkSIPRequest (go_bytes "MESSAGE") (go_bytes "sip:bob@ims.example") {[ go_bytes "Subject" := go_bytes "hi" ++ crlf ++ go_bytes "Route: <sip:evil.example>" ]} [].
Example broken_value_adds_header : exists w inc, buildSIPRequestWire broken_value (go_bytes "UDP") sample_link sample_random = Ok w /\ ParseSIPRequest w = Ok inc /\
  in_Headers inc !! go_bytes "Route" = Some [go_bytes "<sip:evil.example>"] /\ sq_Headers broken_value !! go_bytes "Route" = None.
Proof. eexists _, _. split; [vm_compute; reflexivity|]. split; [vm_compute; reflexivity|]. split; vm_compute; reflexivity. Qed.
(** A head of LF lines ends for the stream at its empty line, for the parser at a later CR LF CR LF of the body: the message is refused. *)
Definition two_ends : bytes :=
  go_bytes "MESSAGE sip:bob@ims.example SIP/2.0" ++ [10] ++ go_bytes "Content-Length: 14" ++ [10; 10] ++ go_bytes "A: b" ++ crlf ++ crlf ++ go_bytes "012345".
Example ends_disagree : readSIPStreamMessage two_ends = Ok (two_ends, []) /\ ParseSIPRequest two_ends = Errorf ErrInvalidSIPMessage.
Proof. split; vm_compute; reflexivity. Qed.
