(* ===== verification/SipTargets.v ===== *)
(** * Where SIP requests go (runtimehost/voiceclient: sip_resolver.go, wire_transport.go, voiceclient.go)

    Header values and their parameters, the end point that a SIP URI names, the servers it resolves
    to, and the targets that a redirect adds to the list of a client.  DNS is a record of lookups, the
    text forms of addresses are the class [NetText], the numbers of [strconv.ParseFloat] the class
    [FloatText]. *)
From stdpp Require Import gmap.
From Stdlib Require Import Floats.SpecFloat.
From S2P Require Import Prelude GoStrings Utf8 Errors Crypto Mobike SipTransaction SipMessage.
#[local] Open Scope string_scope.
#[local] Open Scope list_scope.
#[local] Open Scope Z_scope.

Class FloatText := { ParseFloat : bytes -> option spec_float }.

(** ** Text functions of the standard library *)
(** [strings.LastIndexByte(s, sep)]: what is before the last [sep], and what is behind it. *)
Fixpoint cut_last (s : bytes) (sep : Z) : option (bytes * bytes) :=
  match s with
  | [] => None
  | b :: rest => match cut_last rest sep with Some (before, after) => Some (b :: before, after) | None => if b =? sep then Some ([], rest) else None end
  end.
Definition SplitHostPort (hostport : bytes) : option (bytes * bytes) :=
  match cut_last hostport 58 with
  | None => None
  | Some (before, port) =>
      if starts_with [91] hostport then
        match cut_at hostport 93 with
        | None => None
        | Some (upto, behind) =>
            if bool_decide (length before = S (length upto)) && bool_decide (91 ∉ drop 1 hostport) && bool_decide (93 ∉ behind)
            then Some (drop 1 upto, port) else None
        end
      else if bool_decide (58 ∈ before) || bool_decide (91 ∈ hostport) || bool_decide (93 ∈ hostport) then None else Some (before, port)
  end.
Definition JoinHostPort (host port : bytes) : bytes :=
  if bool_decide (58 ∈ host) then [91] ++ host ++ [93; 58] ++ port else host ++ [58] ++ port.
Definition brackets : bytes := [91; 93].
(** [strings.Count(s, sep) == 1] for one octet. *)
Definition has_one (s : bytes) (sep : Z) : bool := bool_decide (length (List.filter (Z.eqb sep) s) = 1%nat).

(** ** Header values *)
(** [splitSIPHeaderValues] cuts at commas and [splitSIPHeaderParams] at semicolons, both outside quotes and
    angle brackets. *)
Fixpoint split_outside (sep : Z) (rs : list Z) (cur : bytes) (inQuote escaped : bool) (angleDepth : Z) : list bytes :=
  let part := TrimSpace cur in
  let put out := if bool_decide (part = []) then out else part :: out in
  match rs with
  | [] => put []
  | r :: rs =>
      let cur' := cur ++ encode_rune r in
      if escaped then split_outside sep rs cur' inQuote false angleDepth
      else if (r =? 92) && inQuote then split_outside sep rs cur' inQuote true angleDepth
      else if r =? 34 then split_outside sep rs cur' (negb inQuote) false angleDepth
      else if (r =? 60) && negb inQuote then split_outside sep rs cur' inQuote false (angleDepth + 1)
      else if (r =? 62) && negb inQuote then split_outside sep rs cur' inQuote false (if 0 <? angleDepth then angleDepth - 1 else angleDepth)
      else if (r =? sep) && negb inQuote && (angleDepth =? 0) then put (split_outside sep rs [] inQuote false angleDepth)
      else split_outside sep rs cur' inQuote false angleDepth
  end.
Definition splitSIPHeaderValues (s : bytes) : list bytes := split_outside 44 (runes s) [] false false 0.
Definition splitSIPHeaderParams (s : bytes) : list bytes := split_outside 59 (runes s) [] false false 0.
Definition extractAddressURI (value : bytes) : bytes :=
  let value := TrimSpace value in
  if bool_decide (value = []) then [] else
  let plain := TrimSpace (strings_Trim (match strings_Fields value with f :: _ => f | [] => value end) [60; 62]) in
  match cut_at value 60 with
  | None => plain
  | Some (_, behind) => match cut_at behind 62 with Some (uri, _) => TrimSpace uri | None => plain end
  end.

Section targets.
Context {U : UnicodeCase} {T : TextTables} {R : RangeOrder} {N : NetText} {F : FloatText}.
Definition headerListValues (site : nat) (h : headers) (name : string) : list bytes :=
  concat (splitSIPHeaderValues <$> rawHeaderValues site h name).
Fixpoint param_of (parts : list bytes) (name : bytes) : option bytes :=
  match parts with
  | [] => None
  | part :: parts =>
      match cut_at (TrimSpace part) 61 with
      | Some (key, raw) => if bool_decide (strings_ToLower (TrimSpace key) = name) then Some (strings_Trim (TrimSpace raw) [34]) else param_of parts name
      | None => param_of parts name
      end
  end.
Definition headerParamValue (value name : bytes) : option bytes :=
  let name := strings_ToLower (TrimSpace name) in
  if bool_decide (name = []) then None else param_of (splitSIPHeaderParams value) name.
Definition float_one : spec_float := SFone 53 1024.
Definition sipContactQ (contact : bytes) : spec_float :=
  match headerParamValue contact (go_bytes "q") with
  | None => float_one
  | Some value =>
      match ParseFloat value with
      | None => float_one
      | Some q => if SFltb q (S754_zero false) || SFltb float_one q then float_one else q
      end
  end.
Definition sipContactExpired (contact : bytes) : bool :=
  match headerParamValue contact (go_bytes "expires") with
  | None => false
  | Some value => match Atoi value with Some expires => expires <=? 0 | None => false end
  end.

(** ** The end point of a URI *)
Definition sip_quotes : bytes := [60; 62; 34; 39].
Definition trimSIPURIHeaderTail (value : bytes) : bytes :=
  let value := strings_Trim (TrimSpace value) sip_quotes in
  let value := before_octet value 62 in
  let value := match strings_Fields value with f :: _ => f | [] => value end in
  strings_Trim (TrimSpace value) sip_quotes.
Definition hasSIPURIScheme (value : bytes) : bool :=
  let lower := strings_ToLower (TrimSpace value) in
  strings_HasPrefix lower (go_bytes "sip:") || strings_HasPrefix lower (go_bytes "sips:").
Definition sipSchemeBoundary (value : bytes) (idx : Z) : result bool :=
  if idx <=? 0 then Ok true else
  let! b := at_ value (idx - 1) in
  Ok (bool_decide (b ∈ [60; 34; 39; 32; 9; 13; 10])).
(** The positions are those of the lower-case text. *)
Fixpoint scheme_loop (fuel : nat) (lower value scheme : bytes) (offset best : Z) : result Z :=
  match fuel with
  | O => OutOfFuel
  | S fuel =>
      if len lower <=? offset then Ok best else
      match cut_on scheme (drop (Z.to_nat offset) lower) with
      | None => Ok best
      | Some (before, _) =>
          let idx := len before + offset in
          let! boundary := sipSchemeBoundary value idx in
          if boundary && ((best <? 0) || (idx <? best)) then Ok idx else scheme_loop fuel lower value scheme (idx + 1) best
      end
  end.
Definition sipURISchemeIndex (value : bytes) : result Z :=
  let lower := strings_ToLower value in
  let! best := scheme_loop (S (length lower)) lower value (go_bytes "sips:") 0 (-1) in
  scheme_loop (S (length lower)) lower value (go_bytes "sip:") 0 best.
Definition sipURIFromHeaderPart (value : bytes) : result (bytes * bool) :=
  let with_scheme uri := (uri, hasSIPURIScheme uri) in
  let value := TrimSpace value in
  if bool_decide (value = []) then Ok ([], false) else
  if hasSIPURIScheme value then Ok (trimSIPURIHeaderTail value, true) else
  match cut_at value 60 with
  | Some (_, behind) => Ok (with_scheme (trimSIPURIHeaderTail (before_octet behind 62)))
  | None =>
      let value := strings_Trim (TrimSpace value) [34; 39] in
      if hasSIPURIScheme value then Ok (trimSIPURIHeaderTail value, true) else
      let! idx := sipURISchemeIndex value in
      if 0 <=? idx then
        let! tail := slice_from value idx in
        Ok (trimSIPURIHeaderTail tail, true)
      else match strings_Fields value with [] => Ok ([], false) | f :: _ => Ok (with_scheme (trimSIPURIHeaderTail f)) end
  end.
Fixpoint uri_loop (parts : list bytes) (first : bytes) : result bytes :=
  match parts with
  | [] => Ok first
  | part :: parts =>
      let! r := sipURIFromHeaderPart part in
      let '(uri, sip) := r in
      if bool_decide (uri = []) then uri_loop parts first else
      if sip then Ok uri else uri_loop parts (if bool_decide (first = []) then uri else first)
  end.
Definition extractSIPURIForEndpoint (value : bytes) : result bytes :=
  let value := TrimSpace value in
  if bool_decide (value = []) then Ok [] else
  let parts := splitSIPHeaderValues value in
  uri_loop (if bool_decide (parts = []) then [value] else parts) [].
Record sipURIEndpoint := mkEndpoint { ep_Host : bytes; ep_Port : bytes; ep_Secure : bool; ep_ExplicitPort : bool }.
Definition addr (e : sipURIEndpoint) : bytes := JoinHostPort (strings_Trim (ep_Host e) brackets) (ep_Port e).
(** The host and the port of what is behind the user part. *)
Definition endpoint_host_port (rawHostPort defaultPort : bytes) : result (bytes * bytes * bool) :=
  if starts_with [91] rawHostPort then
    match cut_at rawHostPort 93 with
    | None => Err (ErrText "invalid SIP URI host")
    | Some (upto, behind) =>
        let host := TrimSpace (drop 1 upto) in
        match TrimSpace behind with
        | [] => Ok (host, defaultPort, false)
        | 58 :: port => Ok (host, TrimSpace port, true)
        | _ => Err (ErrText "invalid SIP URI host")
        end
    end
  else match SplitHostPort rawHostPort with
  | Some (h, p) => Ok (strings_Trim h brackets, p, true)
  | None =>
      match net_ParseIP rawHostPort with
      | Some ip => Ok (IP_String ip, defaultPort, false)
      | None =>
          match cut_last rawHostPort 58 with
          | Some ((_ :: _) as before, port) =>
              if has_one rawHostPort 58 then Ok (strings_Trim before [91; 93; 32], TrimSpace port, true) else Ok (strings_Trim rawHostPort [91; 93; 32], defaultPort, false)
          | _ => Ok (strings_Trim rawHostPort [91; 93; 32], defaultPort, false)
          end
      end
  end.
Definition parseSIPURIEndpoint (uri : bytes) : result sipURIEndpoint :=
  let! uri := extractSIPURIForEndpoint (TrimSpace uri) in
  if bool_decide (uri = []) then Err (ErrText "SIP URI is empty") else
  let lower := strings_ToLower uri in
  let! r :=
    (if strings_HasPrefix lower (go_bytes "sip:") then let! rest := slice_from uri 4 in Ok (rest, false)
     else if strings_HasPrefix lower (go_bytes "sips:") then let! rest := slice_from uri 5 in Ok (rest, true)
     else Err (ErrText "unsupported SIP URI")) in
  let '(uri, secure) := r in
  let uri := before_octet uri 63 in
  let uri := match cut_last uri 64 with Some (_, rest) => rest | None => uri end in
  let rawHostPort := TrimSpace (before_octet uri 59) in
  let defaultPort := go_bytes (if secure then "5061" else "5060") in
  let! hp := endpoint_host_port rawHostPort defaultPort in
  let '(host, port, explicitPort) := hp in
  let host := TrimSpace host in
  let port := TrimSpace port in
  if bool_decide (host = []) then Err (ErrText "SIP URI host is empty") else
  Ok (mkEndpoint host (if bool_decide (port = []) then defaultPort else port) secure explicitPort).
Definition sipURIAddr (uri : bytes) : result bytes := let! endpoint := parseSIPURIEndpoint uri in Ok (addr endpoint).

(** ** Networks *)
Definition normalizeSIPNetwork (network : bytes) : bytes := strings_ToLower (TrimSpace network).
Definition network_in (network : bytes) (names : list string) : bool := bool_decide (normalizeSIPNetwork network ∈ go_bytes <$> names).
Definition isSIPUDPNetwork (network : bytes) : bool := network_in network ["udp"; "udp4"; "udp6"].
Definition isSIPTCPNetwork (network : bytes) : bool := network_in network ["tcp"; "tcp4"; "tcp6"].
Definition isSIPTLSNetwork (network : bytes) : bool := network_in network ["tls"; "tls4"; "tls6"].
Definition isSIPStreamNetwork (network : bytes) : bool := isSIPTCPNetwork network || isSIPTLSNetwork network.
Definition transportName (network : bytes) : bytes :=
  go_bytes (if isSIPTLSNetwork network then "TLS" else if isSIPTCPNetwork network then "TCP" else "UDP").
Definition sipNetworkForRequest (network uri : bytes) : result bytes :=
  let network := normalizeSIPNetwork network in
  if negb (bool_decide (network = [])) then Ok network else
  match parseSIPURIEndpoint uri with
  | Ok endpoint => Ok (go_bytes (if ep_Secure endpoint then "tls" else "udp"))
  | Err _ => Ok (go_bytes "udp")
  | Panic => Panic
  | OutOfFuel => OutOfFuel
  end.

(** ** Lists of targets *)
Fixpoint appendSIPTargets (out targets : list bytes) : list bytes :=
  match targets with
  | [] => out
  | target :: targets =>
      let target := TrimSpace target in
      appendSIPTargets (if bool_decide (target = []) || bool_decide (target ∈ out) then out else out ++ [target]) targets
  end.
(** A lookup returns [None] when it fails.  An address of [LookupIPAddr] that is nil is the empty list. *)
Record sip_dns := mkDNS {
  LookupSRV : bytes -> bytes -> bytes -> option (list (bytes * Z));
  LookupIPAddr : bytes -> option (list bytes)
}.
Record NetSIPResolver := mkNetResolver { nr_dns : sip_dns; nr_RequireResolvedIP : bool }.
Definition sipResolverProto (network : bytes) (secure : bool) : bytes :=
  if secure then go_bytes "tcp" else
  let network := strings_ToLower (TrimSpace network) in
  if strings_HasPrefix network (go_bytes "tcp") || strings_HasPrefix network (go_bytes "tls") then go_bytes "tcp" else go_bytes "udp".
Definition resolveSIPHostAddrs (dns : sip_dns) (network host port : bytes) : list bytes :=
  match LookupIPAddr dns (strings_Trim host brackets) with
  | None => []
  | Some addrs =>
      let last := reverse (strings_ToLower (TrimSpace network)) in
      let prefer6 := starts_with [54] last in
      let prefer4 := starts_with [52] last in
      let place acc ip :=
        match ip with
        | [] => acc
        | _ =>
            let target := JoinHostPort (IP_String ip) port in
            let v4 := bool_decide (is_Some (IP_To4 ip)) in
            if prefer4 && v4 || prefer6 && negb v4 then (appendSIPTargets acc.1 [target], acc.2) else (acc.1, appendSIPTargets acc.2 [target])
        end in
      let '(preferred, fallback) := fold_left place addrs ([], []) in
      appendSIPTargets preferred fallback
  end.
Definition srv_targets (r : NetSIPResolver) (network : bytes) (out : list bytes) (record : bytes * Z) : list bytes :=
  let target := strings_TrimSuffix (TrimSpace record.1) [46] in
  if bool_decide (target = []) then out else
  let port := Itoa record.2 in
  match resolveSIPHostAddrs (nr_dns r) network target port with
  | [] => if nr_RequireResolvedIP r then out else appendSIPTargets out [JoinHostPort (strings_Trim target brackets) port]
  | addrs => appendSIPTargets out addrs
  end.
Definition ResolveSIPServers (r : NetSIPResolver) (network uri : bytes) : result (list bytes) :=
  let! endpoint := parseSIPURIEndpoint uri in
  if ep_ExplicitPort endpoint || bool_decide (is_Some (net_ParseIP (strings_Trim (ep_Host endpoint) brackets))) then Ok [addr endpoint] else
  let service := go_bytes (if ep_Secure endpoint then "sips" else "sip") in
  let records := default [] (LookupSRV (nr_dns r) service (sipResolverProto network (ep_Secure endpoint)) (ep_Host endpoint)) in
  let out := fold_left (srv_targets r network) records [] in
  let out := appendSIPTargets out (resolveSIPHostAddrs (nr_dns r) network (ep_Host endpoint) (ep_Port endpoint)) in
  if bool_decide (out = []) then
    if nr_RequireResolvedIP r then Err (ErrText "SIP DNS returned no IP address") else Ok (appendSIPTargets [] [addr endpoint])
  else Ok out.
(** The resolver of a client: none, one that knows candidates, or one that knows a single server. *)
Inductive SIPServerResolver :=
| NoResolver (dns : sip_dns)
| CandidateResolver (resolve : bytes -> bytes -> error + list bytes)
| ServerResolver (resolve : bytes -> bytes -> error + bytes).
Definition resolveSIPServerAddrs (resolver : SIPServerResolver) (network uri : bytes) : result (list bytes) :=
  match resolver with
  | NoResolver dns => ResolveSIPServers (mkNetResolver dns false) network uri
  | CandidateResolver resolve => match resolve network uri with inl e => Err e | inr addrs => Ok (appendSIPTargets [] addrs) end
  | ServerResolver resolve => match resolve network uri with inl e => Err e | inr addr => Ok (appendSIPTargets [] [addr]) end
  end.
Definition sipTargetsForRequest (resolver : SIPServerResolver) (network serverAddr uri : bytes) : result (list bytes) :=
  let target := TrimSpace serverAddr in
  if negb (bool_decide (target = [])) then Ok [target] else
  let! targets := resolveSIPServerAddrs resolver network uri in
  match appendSIPTargets [] targets with [] => Err (ErrText "SIP DNS resolver has no servers") | targets => Ok targets end.

(** ** Redirects *)
Definition maxSIPRedirectTargets := 4.
Definition sipRedirectStatus (code : Z) : bool := (300 <=? code) && (code <? 400).
(** A contact with a target that is already there only raises its q. *)
Fixpoint add_contact (contacts : list (bytes * spec_float)) (target : bytes) (q : spec_float) : list (bytes * spec_float) :=
  match contacts with
  | [] => [(target, q)]
  | c :: contacts => if bool_decide (c.1 = target) then (c.1, if SFltb c.2 q then q else c.2) :: contacts else c :: add_contact contacts target q
  end.
Fixpoint contacts_loop (values : list bytes) (contacts : list (bytes * spec_float)) : result (list (bytes * spec_float)) :=
  match values with
  | [] => Ok contacts
  | contact :: values =>
      if sipContactExpired contact then contacts_loop values contacts else
      let uri := extractAddressURI contact in
      if bool_decide (uri = []) || bool_decide (uri = go_bytes "*") then contacts_loop values contacts else
      match sipURIAddr uri with
      | Ok target => contacts_loop values (add_contact contacts target (sipContactQ contact))
      | Err _ => contacts_loop values contacts
      | Panic => Panic
      | OutOfFuel => OutOfFuel
      end
  end.
(** [sort.SliceStable] by insertion from the right, as the library does for short slices; [sorted] is kept in reverse. *)
Fixpoint insert_contact (c : bytes * spec_float) (sorted : list (bytes * spec_float)) : list (bytes * spec_float) :=
  match sorted with
  | [] => [c]
  | d :: rest => if SFltb d.2 c.2 then d :: insert_contact c rest else c :: sorted
  end.
Definition sort_contacts (contacts : list (bytes * spec_float)) : list (bytes * spec_float) :=
  reverse (fold_left (fun sorted c => insert_contact c sorted) contacts []).
Definition sipRedirectTargets (h : headers) : result (list bytes) :=
  let! contacts := contacts_loop (headerListValues 600 h "Contact") [] in
  Ok (appendSIPTargets [] (sort_contacts contacts).*1).
(** The first redirect that is in the list at another place than the current one. *)
Definition redirect_index (out : list bytes) (currentIndex : nat) (redirect : bytes) : option nat :=
  let redirect := TrimSpace redirect in
  if bool_decide (redirect = []) then None else
  (fun p => p.1) <$> list_find (fun p => p.1 <> currentIndex /\ p.2 = redirect) (imap pair out).
Fixpoint first_redirect (out : list bytes) (currentIndex : nat) (redirects : list bytes) : option nat :=
  match redirects with
  | [] => None
  | redirect :: redirects => match redirect_index out currentIndex redirect with Some idx => Some idx | None => first_redirect out currentIndex redirects end
  end.
Definition sipTargetsWithRedirects (targets : list bytes) (currentIndex : Z) (redirects : list bytes) : list bytes * Z * bool :=
  if bool_decide (redirects = []) then (targets, currentIndex, false) else
  let currentIndex := if currentIndex <? 0 then 0 else currentIndex in
  let currentIndex := if len targets <=? currentIndex then len targets - 1 else currentIndex in
  if currentIndex <? 0 then
    let targets := appendSIPTargets [] redirects in
    (targets, 0, negb (bool_decide (targets = [])))
  else
    let current := Z.to_nat currentIndex in
    let out := appendSIPTargets [] (take (S current) targets) in
    let out := appendSIPTargets out redirects in
    let out := appendSIPTargets out (drop (S current) targets) in
    match first_redirect out current redirects with
    | Some idx => (out, Z.of_nat idx, true)
    | None => (out, currentIndex, false)
    end.
End targets.

(** ** Samples *)
Section samples.
#[local] Instance sample_case : UnicodeCase := {| unicode_ToUpper r := r; unicode_ToLower r := if r =? 0x23A then 0x2C65 else r |}.
#[local] Instance sample_text : TextTables := {| fold_beyond r := r; time_Parse _ _ := None |}.
#[local] Instance sample_order : RangeOrder := {| range_map A _ m := map_to_list m; range_map_perm A _ m := reflexivity _ |}.
#[local] Instance sample_addresses : NetText := {| net_ParseIP _ := None; IP_String ip := ip |}.
#[local] Instance sample_floats : FloatText :=
  {| ParseFloat s := if bool_decide (s = go_bytes "0.5") then Some (S754_finite false 4503599627370496 (-53)) else None |}.
Definition contact_of (values : list bytes) : headers := {[ go_bytes "Contact" := values ]}.
(** The contacts in the order of their q, which is 1 where it is not said; an expired one is left out, one that comes twice keeps its higher q. *)
Example redirect_order :
  sipRedirectTargets (contact_of [go_bytes "<sip:a.b;lr>;q=0.5, <sips:[::1]>"; go_bytes "<sip:e.f>;expires=0"; go_bytes "Bob <sip:u@a.b:5060>;q=0.5;x=y"])
  = Ok [go_bytes "[::1]:5061"; go_bytes "a.b:5060"].
Proof. vm_compute. done. Qed.
(** The position of the scheme is searched in the lower-case text and used in the text itself.  U+023A has two octets, its lower case three: the contact
    of six of them before a scheme is cut out of range, and the client panics. *)
Example redirect_panics : sipRedirectTargets (contact_of [go_bytes "<" ++ concat (replicate 6 [0xC8; 0xBA]) ++ go_bytes "sip:a>"]) = Panic.
Proof. vm_compute. done. Qed.
End samples.
