(* ===== verification/SipFlow.v ===== *)
(** * The SIP client over a flow (runtimehost/voiceclient: wire_flow.go, wire_transport.go)

    A request is sent to a server and sent again while no answer comes; a server that does not
    answer, or that answers with a redirect or a failure, is followed by another one.  The clock
    is a count of nanoseconds; what the network does is the argument of the definitions: the datagrams with
    their times of arrival, the stream and its end, and whether the calls of package net fail. *)
From stdpp Require Import gmap.
From Stdlib Require Import Floats.SpecFloat.
From S2P Require Import Prelude GoStrings Utf8 Errors Mobike SipTransaction SipMessage SipTargets.
#[local] Open Scope string_scope.
#[local] Open Scope list_scope.
#[local] Open Scope Z_scope.

(** ** Errors and recovery *)
(** An error of package net or of a context, as the questions that the code asks of it answer: whether it is
    [context.Canceled] or [DeadlineExceeded], whether its Timeout method says so, whether it is the end of the file,
    a closed connection or one of the four errno values, and whether it has a [net.OpError]. *)
Record net_error := mkNetError { ne_context : bool; ne_timeout : bool; ne_broken : bool; ne_op : bool }.
Inductive flow_error :=
| NetError (e : net_error)
| OtherError (e : error)
| sipFinalResponseTimeoutError (method : bytes) (err : flow_error).
Definition packet_timeout : flow_error := NetError (mkNetError false true false false). (* sipFlowPacketTimeoutError *)
Definition read_timeout : flow_error := NetError (mkNetError false true false true). (* a read after its deadline *)
Definition end_of_file : flow_error := OtherError (Sentinel ErrEOF).
Definition err_flow_closed : flow_error := OtherError (ErrText "SIP flow is closed").
Definition err_no_servers : flow_error := OtherError (ErrText "SIP DNS resolver has no servers").
Fixpoint net_answers (e : flow_error) : net_error :=
  match e with
  | NetError n => n
  | OtherError e => mkNetError (errors_Is e ErrContextCanceled || errors_Is e ErrContextDeadlineExceeded) (errors_Is e ErrContextDeadlineExceeded) (errors_Is e ErrEOF) false
  | sipFinalResponseTimeoutError _ e => net_answers e
  end.
Definition is_final_timeout (e : flow_error) : bool :=
  match e with sipFinalResponseTimeoutError _ _ => true | OtherError e => errors_Is e ErrSIPFinalResponseTimeout | NetError _ => false end.
Definition isSIPTimeout (e : flow_error) : bool := ne_timeout (net_answers e).

Inductive sipFailureKind := sipFailureNone | sipFailureSIPStatus | sipFailureTransport.
Inductive sipRecoveryScope := sipRecoveryRegister | sipRecoveryDialog.
Record sipFailureRecovery := mkRecovery {
  fr_Kind : sipFailureKind;
  fr_StatusCode : Z;
  fr_Err : option flow_error;
  fr_Recoverable : bool;
  fr_TargetFailover : bool
}.
Record sipTransactionFailure := mkFailure {
  tf_Method : bytes;
  tf_Transaction : sipTransactionKind;
  tf_StatusCode : Z;
  tf_TimedOut : bool;
  tf_FinalResponseTimeout : bool;
  tf_RetryAfter : Z;
  tf_RetryAfterPresent : bool
}.
Record SIPRecoveryPlan := mkPlan {
  rp_Method : bytes;
  rp_StatusCode : Z;
  rp_RetryAfter : Z;
  rp_RetryAfterPresent : bool;
  rp_Recoverable : bool;
  rp_TargetFailover : bool;
  rp_RegistrationRefresh : bool;
  rp_RegistrationRequired : bool;
  rp_AuthenticationRefresh : bool;
  rp_TransportFailure : bool;
  rp_TimedOut : bool;
  rp_FinalResponseTimeout : bool
}.
Definition server_error (code : Z) : bool := (500 <=? code) && (code <? 600).
Definition sipRecoverableResponseStatus (scope : sipRecoveryScope) (code : Z) : bool :=
  if bool_decide (code ∈ [408; 430; 500; 502; 503; 504; 580]) then true
  else if code =? 480 then match scope with sipRecoveryRegister => true | sipRecoveryDialog => false end
  else server_error code.
Definition sipResponseFailureRecovery (scope : sipRecoveryScope) (code : Z) : sipFailureRecovery :=
  if negb (sipRecoverableResponseStatus scope code) then mkRecovery sipFailureSIPStatus code None false false
  else mkRecovery sipFailureSIPStatus code None true true.
Definition sipRegisterTargetFailoverStatus (code : Z) : bool := fr_TargetFailover (sipResponseFailureRecovery sipRecoveryRegister code).
Definition sipDialogTargetFailoverStatus (code : Z) : bool := fr_TargetFailover (sipResponseFailureRecovery sipRecoveryDialog code).
Definition sipTransportFailureRecovery (err : option flow_error) : sipFailureRecovery :=
  match err with
  | None => mkRecovery sipFailureTransport 0 None false false
  | Some e =>
      let n := net_answers e in
      if ne_context n then mkRecovery sipFailureTransport 0 err false false
      else if ne_timeout n || ne_broken n then mkRecovery sipFailureTransport 0 err true true
      else if ne_op n then mkRecovery sipFailureTransport 0 err true true
      else mkRecovery sipFailureTransport 0 err false false
  end.
Definition isSIPRetryableTransportError (err : flow_error) : bool := fr_TargetFailover (sipTransportFailureRecovery (Some err)).
Definition sipRetryAfterResponseStatus (code : Z) : bool := (code =? 408) || (code =? 503).

Section recovery.
Context {U : UnicodeCase} {T : TextTables} {R : RangeOrder}.
Definition sipResponseRetryAfterDelay (resp : SIPResponse) (now : Z) : Z * bool :=
  if 0 <? sr_RetryAfter resp then (sr_RetryAfter resp, true) else sipRetryAfterDelay (sr_Headers resp) now.
Definition SIPResponseRetryAfter (resp : SIPResponse) (now : Z) : Z :=
  if 0 <? sr_RetryAfter resp then sr_RetryAfter resp else SIPRetryAfterDelay (sr_Headers resp) now.
Definition sipTransactionFailureFor (method : bytes) (resp : option SIPResponse) (err : option flow_error) (now : Z) : sipTransactionFailure :=
  let method := strings_ToUpper (TrimSpace method) in
  let kind := sipTransactionKindForMethod method in
  let final := match err with Some e => is_final_timeout e | None => false end in
  let timedOut := match err with Some e => is_final_timeout e || isSIPTimeout e | None => false end in
  match resp with
  | None => mkFailure method kind 0 timedOut final 0 false
  | Some resp =>
      if sr_StatusCode resp =? 0 then mkFailure method kind 0 timedOut final 0 false else
      let timedOut := timedOut || (sr_StatusCode resp =? 408) in
      let delay := if sipRetryAfterResponseStatus (sr_StatusCode resp) then sipResponseRetryAfterDelay resp now else (0, false) in
      mkFailure method kind (sr_StatusCode resp) timedOut final delay.1 delay.2
  end.
Definition SIPResponseRecoveryPlan (method : bytes) (resp : SIPResponse) (now : Z) : SIPRecoveryPlan :=
  let method := strings_ToUpper (TrimSpace method) in
  let failure := sipTransactionFailureFor method (Some resp) None now in
  let register := equal_fold method "REGISTER" in
  let code := sr_StatusCode resp in
  let recovery := sipResponseFailureRecovery (if register then sipRecoveryRegister else sipRecoveryDialog) code in
  let authentication := bool_decide (code ∈ [401; 407]) in
  let refresh := (code =? 423) && register in
  let required := (bool_decide (code ∈ [408; 430; 480; 500; 502; 503; 504; 580]) || server_error code) && negb register in
  mkPlan (tf_Method failure) (tf_StatusCode failure) (tf_RetryAfter failure) (tf_RetryAfterPresent failure) (fr_Recoverable recovery) (fr_TargetFailover recovery)
    refresh required authentication false (tf_TimedOut failure) (tf_FinalResponseTimeout failure).
Definition SIPTransportRecoveryPlan (method : bytes) (err : option flow_error) (now : Z) : SIPRecoveryPlan :=
  let method := strings_ToUpper (TrimSpace method) in
  let failure := sipTransactionFailureFor method None err now in
  let recovery := sipTransportFailureRecovery err in
  mkPlan (tf_Method failure) 0 0 false (fr_Recoverable recovery) (fr_TargetFailover recovery) false (fr_Recoverable recovery && negb (equal_fold method "REGISTER")) false
    (bool_decide (is_Some err)) (tf_TimedOut failure) (tf_FinalResponseTimeout failure).
End recovery.

(** ** Contexts, datagrams and the clock *)
Record context := mkContext { cx_done : option Z; cx_err : flow_error }.
Definition ctx_Err (ctx : context) (now : Z) : option flow_error :=
  match cx_done ctx with Some t => if t <=? now then Some (cx_err ctx) else None | None => None end.
(** What a read of the connection will give, and when; a connection whose deadlines can no longer be set breaks. *)
Inductive packet := Arrives (raw : bytes) | Breaks (e : flow_error).
Record wire := mkWire { wi_now : Z; wi_queue : list (Z * packet) }.
Definition datagram_size : nat := Z.to_nat 65535.
Definition read_of (p : packet) : outcome flow_error bytes := match p with Arrives raw => Ok (take datagram_size raw) | Breaks e => Err e end.
Definition conn_Read (deadline : Z) (w : wire) : wire * outcome flow_error bytes :=
  if deadline <=? wi_now w then (w, Err read_timeout) else
  match wi_queue w with
  | (t, p) :: rest => if t <? deadline then (mkWire (Z.max (wi_now w) t) rest, read_of p) else (mkWire deadline (wi_queue w), Err read_timeout)
  | [] => (mkWire deadline [], Err read_timeout)
  end.
(** A [select] takes the case that is ready first; among those that become ready at one instant, [pick] chooses. *)
Inductive select_case := ContextDone | TimerFires | PacketReady.
Definition select_ready (ctx : context) (pick : Z -> nat) (deadline : Z) (w : wire) : Z * select_case :=
  let now := wi_now w in
  let cases := (match cx_done ctx with Some t => [(Z.max now t, ContextDone)] | None => [] end) ++ [(deadline, TimerFires)] ++
               (match wi_queue w with (t, _) :: _ => [(Z.max now t, PacketReady)] | [] => [] end) in
  let first := foldr Z.min deadline cases.*1 in
  let ready := List.filter (fun c => c.1 =? first) cases in
  default (deadline, TimerFires) (ready !! (pick first mod length ready)%nat).
(** [external]: the datagrams come through the channel of the shared socket. *)
Definition readSIPFlowUDPDatagram (ctx : context) (external : bool) (pick : Z -> nat) (deadline : Z) (w : wire) : wire * outcome flow_error bytes :=
  if negb external then conn_Read deadline w else
  if deadline <=? wi_now w then (w, Err packet_timeout) else
  match select_ready ctx pick deadline w, wi_queue w with
  | (t, ContextDone), queue => (mkWire t queue, Err (cx_err ctx))
  | (t, PacketReady), (_, p) :: rest => (mkWire t rest, read_of p)
  | (t, _), queue => (mkWire t queue, Err packet_timeout)
  end.
(** What the drains read they drop, whatever it is. *)
Fixpoint drainSIPUDPFinalResponses (ctx : context) (deadline now : Z) (queue : list (Z * packet)) : wire :=
  if negb (now <? deadline) || bool_decide (is_Some (ctx_Err ctx now)) then mkWire now queue else
  match queue with
  | (t, p) :: rest =>
      if t <? deadline then
        match p with Arrives _ => drainSIPUDPFinalResponses ctx deadline (Z.max now t) rest | Breaks _ => mkWire (Z.max now t) rest end
      else mkWire deadline queue
  | [] => mkWire deadline []
  end.
Fixpoint drainSIPFlowExternalFinalResponses (ctx : context) (pick : Z -> nat) (deadline now : Z) (queue : list (Z * packet)) : wire :=
  match select_ready ctx pick deadline (mkWire now queue), queue with
  | (t, PacketReady), _ :: rest => drainSIPFlowExternalFinalResponses ctx pick deadline t rest
  | (t, _), queue => mkWire t queue
  end.
Definition drain (ctx : context) (external : bool) (pick : Z -> nat) (duration : Z) (w : wire) : wire :=
  if duration <=? 0 then w else
  let deadline := wi_now w + duration in
  if external then drainSIPFlowExternalFinalResponses ctx pick deadline (wi_now w) (wi_queue w)
  else drainSIPUDPFinalResponses ctx deadline (wi_now w) (wi_queue w).

(** ** Timers of a client *)
Definition nextSIPReadDeadline (now deadline interval : Z) : Z :=
  if interval <=? 0 then deadline else
  let next := now + interval in
  if next <? deadline then next else deadline.
Section timers.
Context {U : UnicodeCase}.
Definition sipRetransmitInterval (method : bytes) (timeout configured : Z) : Z :=
  if 0 <? configured then configured else
  let interval := tp_T1 (DefaultSIPTransactionTimerPolicy method) in
  if (0 <? timeout) && (timeout <? interval) then timeout else interval.
Definition sipMaxRetransmitInterval (method : bytes) (timeout configured : Z) : Z :=
  if 0 <? configured then configured else
  let interval := tp_T2 (DefaultSIPTransactionTimerPolicy method) in
  if (0 <? timeout) && (timeout <? interval) then timeout else interval.
Definition sipFlowTransactionTimerConfig (method : bytes) (timeout retransmitInterval maxRetransmitInterval : Z) : SIPTransactionTimerConfig :=
  mkTimerConfig (sipRetransmitInterval method timeout retransmitInterval) (sipMaxRetransmitInterval method timeout maxRetransmitInterval) 0.
End timers.
Definition sipFinalResponseDrainDuration (method : bytes) (configured : Z) : Z :=
  if (configured <=? 0) || equal_fold (TrimSpace method) "INVITE" then 0 else configured.
Definition shouldReportSIPProvisionalResponse (method : bytes) : bool := equal_fold (TrimSpace method) "INVITE".

(** ** Waiting for the response to a datagram *)
(** The handler of provisional responses may remember those before. *)
Abbreviation ProvisionalResponseHandler := (list SIPResponse -> SIPResponse -> option flow_error).
(** What a call of [readUDPResponseLocked] is given, the result of each write included. *)
Record udp_call := mkUDPCall {
  uc_ctx : context;
  uc_external : bool;
  uc_pick : Z -> nat;
  uc_write : nat -> option flow_error;
  uc_msg : SIPRequestMessage;
  uc_onProvisional : option ProvisionalResponseHandler;
  uc_timerConfig : SIPTransactionTimerConfig;
  uc_MaxRetransmits : Z;
  uc_FinalResponseDrain : Z;
  uc_deadline : Z
}.
(** Its variables; [us_sent] holds the instants at which the request was sent again. *)
Record udp_state := mkUDP {
  us_wire : wire;
  us_interval : Z;
  us_sent : list Z;
  us_state : SIPClientTransactionState;
  us_retransmitExhausted : bool;
  us_reported : list SIPResponse
}.
Definition us_retransmits (s : udp_state) : Z := len (us_sent s).
Definition us_with (s : udp_state) (w : wire) (st : SIPClientTransactionState) : udp_state :=
  mkUDP w (us_interval s) (us_sent s) st (us_retransmitExhausted s) (us_reported s).

Section responses.
Context {U : UnicodeCase} {T : TextTables} {R : RangeOrder}.
Definition response_step (c : udp_call) (st : SIPClientTransactionState) (resp : SIPResponse) : SIPClientTransactionStep :=
  AdvanceSIPClientTransaction (mkClientInput (sq_Method (uc_msg c)) st SIPClientTransactionEventResponse (sr_StatusCode resp) false 0 (uc_timerConfig c) 0 0).
Definition timer_step (c : udp_call) (s : udp_state) : SIPClientTransactionStep :=
  AdvanceSIPClientTransaction (mkClientInput (sq_Method (uc_msg c)) (us_state s) SIPClientTransactionEventRetransmitTimer 0 false (us_interval s) (uc_timerConfig c)
    (uc_MaxRetransmits c) (us_retransmits s)).
Definition timer_active (c : udp_call) (st : SIPClientTransactionState) : bool := sipClientTransactionRetransmitTimerActive (sq_Method (uc_msg c)) st.
Fixpoint udp_loop (fuel : nat) (c : udp_call) (s : udp_state) : udp_state * outcome flow_error SIPResponse :=
  match fuel with
  | O => (s, OutOfFuel)
  | S fuel =>
      let now := wi_now (us_wire s) in
      let readInterval := if us_retransmitExhausted s || negb (timer_active c (us_state s)) then uc_deadline c - now else us_interval s in
      let '(w, read) := readSIPFlowUDPDatagram (uc_ctx c) (uc_external c) (uc_pick c) (nextSIPReadDeadline now (uc_deadline c) readInterval) (us_wire s) in
      let s := us_with s w (us_state s) in
      match read with
      | Err err =>
          match ctx_Err (uc_ctx c) (wi_now w) with
          | Some e => (s, Err e)
          | None =>
              if negb (isSIPTimeout err) || negb (wi_now w <? uc_deadline c) then
                (s, Err (if client_is (us_state s) SIPClientTransactionStateProceeding && isSIPTimeout err
                         then sipFinalResponseTimeoutError (sq_Method (uc_msg c)) err else err))
              else
                let step := timer_step c s in
                let s := us_with s w (ct_NextState step) in
                if negb (us_retransmitExhausted s) && ct_RetransmitRequest step then
                  match uc_write c (length (us_sent s)) with
                  | Some writeErr => (s, Err writeErr)
                  | None => udp_loop fuel c (mkUDP w (ct_NextRetransmitInterval step) (us_sent s ++ [wi_now w]) (us_state s) false (us_reported s))
                  end
                else if negb (timer_active c (us_state s)) || negb (shouldSIPRetransmit (us_retransmits s) (uc_MaxRetransmits c))
                then udp_loop fuel c (mkUDP w (us_interval s) (us_sent s) (us_state s) true (us_reported s))
                else (s, Err err)
          end
      | Ok raw =>
          if negb (isSIPResponseWire raw) then udp_loop fuel c s else
          match ParseSIPResponse raw (wi_now w) with
          | Ok resp =>
              if negb (sipResponseMatchesRequest resp (uc_msg c)) then udp_loop fuel c s else
              let step := response_step c (us_state s) resp in
              let s := us_with s w (ct_NextState step) in
              if ct_Final step && ct_DeliverResponse step then
                (us_with s (drain (uc_ctx c) (uc_external c) (uc_pick c) (sipFinalResponseDrainDuration (sq_Method (uc_msg c)) (uc_FinalResponseDrain c)) w) (us_state s), Ok resp)
              else
                match (if ct_Provisional step && ct_DeliverResponse step && shouldReportSIPProvisionalResponse (sq_Method (uc_msg c)) then uc_onProvisional c else None) with
                | None => udp_loop fuel c s
                | Some handler =>
                    match handler (us_reported s) resp with
                    | Some e => (s, Err e)
                    | None => udp_loop fuel c (mkUDP w (us_interval s) (us_sent s) (us_state s) (us_retransmitExhausted s) (us_reported s ++ [resp]))
                    end
                end
          | Err e => (s, Err (OtherError e))
          | Panic => (s, Panic)
          | OutOfFuel => (s, OutOfFuel)
          end
      | Panic => (s, Panic)
      | OutOfFuel => (s, OutOfFuel)
      end
  end.
Definition udp_start (c : udp_call) (w : wire) : udp_state :=
  mkUDP w (tc_T1 (uc_timerConfig c)) [] (InitialSIPClientTransactionState (sq_Method (uc_msg c))) false [].
Definition readUDPResponseLocked (fuel : nat) (c : udp_call) (w : wire) : udp_state * outcome flow_error SIPResponse := udp_loop fuel c (udp_start c w).

(** ** Waiting for the response on a stream *)
(** [ends] is what a read gives behind the last octet of the stream. *)
Definition stream_error (ends : flow_error) (e : error) : flow_error :=
  if bool_decide (e = Sentinel ErrEOF) then ends
  else if bool_decide (e = Sentinel ErrUnexpectedEOF) then (match ends with OtherError (Sentinel ErrEOF) => OtherError e | _ => ends end) else OtherError e.
Fixpoint stream_loop (fuel : nat) (msg : SIPRequestMessage) (onProvisional : option ProvisionalResponseHandler) (ends : flow_error) (now : Z)
    (stream : bytes) (reported : list SIPResponse) (gotResponse : bool) : outcome flow_error SIPResponse * bytes :=
  match fuel with
  | O => (OutOfFuel, stream)
  | S fuel =>
      match readSIPStreamMessage stream with
      | Err e =>
          let err := stream_error ends e in
          (Err (if gotResponse && isSIPTimeout err then sipFinalResponseTimeoutError (sq_Method msg) err else err), [])
      | Ok (raw, stream) =>
          match ParseSIPResponse raw now with
          | Ok resp =>
              if negb (sipResponseMatchesRequest resp msg) then stream_loop fuel msg onProvisional ends now stream reported gotResponse else
              if negb (isSIPProvisionalResponse (sr_StatusCode resp)) then (Ok resp, stream) else
              match (if shouldReportSIPProvisionalResponse (sq_Method msg) then onProvisional else None) with
              | None => stream_loop fuel msg onProvisional ends now stream reported true
              | Some handler =>
                  match handler reported resp with
                  | Some e => (Err e, stream)
                  | None => stream_loop fuel msg onProvisional ends now stream (reported ++ [resp]) true
                  end
              end
          | Err e => (Err (OtherError e), stream)
          | Panic => (Panic, stream)
          | OutOfFuel => (OutOfFuel, stream)
          end
      | Panic => (Panic, stream)
      | OutOfFuel => (OutOfFuel, stream)
      end
  end.
Definition readFinalSIPFlowResponse (fuel : nat) (msg : SIPRequestMessage) (onProvisional : option ProvisionalResponseHandler) (ends : flow_error) (now : Z) (stream : bytes) :
  outcome flow_error SIPResponse * bytes := stream_loop fuel msg onProvisional ends now stream [] false.
End responses.

(** ** The flow: one connection at a time, to one of the targets *)
(** [wf_conn] says whether there is a connection; what comes through it is part of the environment. *)
Record WireSIPFlow := mkFlow {
  wf_Network : bytes;
  wf_ServerAddr : bytes;
  wf_Resolver : SIPServerResolver;
  wf_Timeout : Z;
  wf_RetransmitInterval : Z;
  wf_MaxRetransmitInterval : Z;
  wf_MaxRetransmits : Z;
  wf_FinalResponseDrain : Z;
  wf_conn : bool;
  wf_network : bytes;
  wf_target : bytes;
  wf_targets : list bytes;
  wf_targetIndex : Z;
  wf_closed : bool;
  wf_responseExternal : bool
}.
Definition set_conn (f : WireSIPFlow) (conn : bool) (network target : bytes) : WireSIPFlow :=
  mkFlow (wf_Network f) (wf_ServerAddr f) (wf_Resolver f) (wf_Timeout f) (wf_RetransmitInterval f) (wf_MaxRetransmitInterval f) (wf_MaxRetransmits f)
    (wf_FinalResponseDrain f) conn network target (wf_targets f) (wf_targetIndex f) (wf_closed f) (wf_responseExternal f).
Definition set_targets (f : WireSIPFlow) (targets : list bytes) (index : Z) : WireSIPFlow :=
  mkFlow (wf_Network f) (wf_ServerAddr f) (wf_Resolver f) (wf_Timeout f) (wf_RetransmitInterval f) (wf_MaxRetransmitInterval f) (wf_MaxRetransmits f)
    (wf_FinalResponseDrain f) (wf_conn f) (wf_network f) (wf_target f) targets index (wf_closed f) (wf_responseExternal f).
Definition set_closed (f : WireSIPFlow) : WireSIPFlow :=
  mkFlow (wf_Network f) (wf_ServerAddr f) (wf_Resolver f) (wf_Timeout f) (wf_RetransmitInterval f) (wf_MaxRetransmitInterval f) (wf_MaxRetransmits f)
    (wf_FinalResponseDrain f) (wf_conn f) (wf_network f) (wf_target f) (wf_targets f) (wf_targetIndex f) true (wf_responseExternal f).
Definition closeConnLocked (f : WireSIPFlow) : WireSIPFlow := set_conn f false [] [].
Definition targetCountLocked (f : WireSIPFlow) : Z := if bool_decide (wf_targets f = []) then 1 else len (wf_targets f).
Definition advanceTargetLocked (f : WireSIPFlow) : WireSIPFlow * bool :=
  if len (wf_targets f) <=? 1 then (f, false) else (set_targets f (wf_targets f) ((wf_targetIndex f + 1) mod len (wf_targets f)), true).
(** What happens to one attempt: the instant at which it begins, the results of dialling, of setting the deadline and of the
    writes, the address of the connection, the random octets of a branch, what comes back. *)
Record attempt := mkAttempt {
  at_now : Z;
  at_dial : option flow_error;
  at_SetDeadline : option flow_error;
  at_address : option (bytes * bytes);
  at_random : option bytes;
  at_write : nat -> option flow_error;
  at_datagrams : list (Z * packet);
  at_stream : bytes;
  at_stream_ends : flow_error;
  at_stream_now : Z;
  at_pick : Z -> nat
}.

Section flow.
Context {U : UnicodeCase} {T : TextTables} {R : RangeOrder} {N : NetText} {F : FloatText}.
Definition in_bounds (f : WireSIPFlow) : WireSIPFlow :=
  if (wf_targetIndex f <? 0) || (len (wf_targets f) <=? wf_targetIndex f) then set_targets f (wf_targets f) 0 else f.
Definition ensureTargetsLocked (f : WireSIPFlow) (network uri : bytes) : outcome flow_error WireSIPFlow :=
  let target := TrimSpace (wf_ServerAddr f) in
  if negb (bool_decide (target = [])) then
    Ok (in_bounds (match wf_targets f with first :: _ => if bool_decide (first = target) then f else set_targets f [target] 0 | [] => set_targets f [target] 0 end))
  else if bool_decide (wf_targets f = []) then
    match resolveSIPServerAddrs (wf_Resolver f) network uri with
    | Ok targets => Ok (in_bounds (set_targets f (appendSIPTargets [] targets) 0))
    | Err e => Err (OtherError e)
    | Panic => Panic
    | OutOfFuel => OutOfFuel
    end
  else Ok (in_bounds f).
Definition flow_timeout (f : WireSIPFlow) : Z := if wf_Timeout f <=? 0 then 5000 * Millisecond else wf_Timeout f.
(** The flow after the call, and the network. *)
Definition ensureConnLocked (f : WireSIPFlow) (env : attempt) (uri : bytes) : WireSIPFlow * outcome flow_error bytes :=
  if wf_closed f then (f, Err err_flow_closed) else
  match sipNetworkForRequest (wf_Network f) uri with
  | Ok network =>
      let network := if bool_decide (TrimSpace (wf_Network f) = []) && wf_conn f && negb (bool_decide (TrimSpace (wf_network f) = [])) then wf_network f else network in
      let server := TrimSpace (wf_ServerAddr f) in
      if wf_conn f && bool_decide (wf_network f = network) && (bool_decide (server = []) || bool_decide (wf_target f = server)) then (f, Ok network) else
      match ensureTargetsLocked f network uri with
      | Ok f =>
          match wf_targets f !! Z.to_nat (wf_targetIndex f) with
          | None => (f, if bool_decide (wf_targets f = []) then Err err_no_servers else Panic)
          | Some target =>
              if wf_conn f && bool_decide (wf_network f = network) && bool_decide (wf_target f = target) then (f, Ok network) else
              let f := closeConnLocked f in
              match at_dial env with
              | Some e => (f, Err e)
              | None => (set_conn f true network target, Ok network)
              end
          end
      | Err e => (f, Err e)
      | Panic => (f, Panic)
      | OutOfFuel => (f, OutOfFuel)
      end
  | Err e => (f, Err (OtherError e))
  | Panic => (f, Panic)
  | OutOfFuel => (f, OutOfFuel)
  end.
Definition redirectToResponseTargetsLocked (f : WireSIPFlow) (resp : SIPResponse) : outcome flow_error (WireSIPFlow * bool) :=
  match sipRedirectTargets (sr_Headers resp) with
  | Ok redirects =>
      let '(targets, nextIndex, ok) := sipTargetsWithRedirects (wf_targets f) (wf_targetIndex f) redirects in
      Ok (if ok then (set_targets f targets nextIndex, true) else (f, false))
  | Err e => Err (OtherError e)
  | Panic => Panic
  | OutOfFuel => OutOfFuel
  end.
(** How the body of the loop of [roundTrip] ends: with a response (and whether the context is done by then), with an error that
    may lead to another target, or with one that does not. *)
Inductive attempt_result := Answered (done : bool) (resp : SIPResponse) | Missed (e : flow_error) | Over (r : outcome flow_error SIPResponse).
Definition udp_call_of (f : WireSIPFlow) (ctx : context) (env : attempt) (msg : SIPRequestMessage) (onProvisional : option ProvisionalResponseHandler) : udp_call :=
  let timeout := flow_timeout f in
  mkUDPCall ctx (wf_responseExternal f) (at_pick env) (fun k => at_write env (S k)) msg onProvisional
    (sipFlowTransactionTimerConfig (sq_Method msg) timeout (wf_RetransmitInterval f) (wf_MaxRetransmitInterval f)) (wf_MaxRetransmits f) (wf_FinalResponseDrain f)
    (at_now env + timeout).
Definition missed (ctx : context) (now : Z) (e : flow_error) : attempt_result :=
  match ctx_Err ctx now with Some ce => Over (Err ce) | None => Missed e end.
(** The first three steps, which [WriteRequest] has too: a connection, its deadline, and the request written to it. *)
Definition send_attempt (f : WireSIPFlow) (ctx : context) (env : attempt) (msg : SIPRequestMessage) : WireSIPFlow * (attempt_result + bytes * SIPRequestMessage) :=
  match ensureConnLocked f env (sq_URI msg) with
  | (f, Err e) => (f, inl (missed ctx (at_now env) e))
  | (f, Ok network) =>
      match at_SetDeadline env with
      | Some e => (closeConnLocked f, inl (if bool_decide (is_Some (ctx_Err ctx (at_now env))) then Over (Err e) else Missed e))
      | None =>
          let sent := ensureSIPRequestVia msg (transportName network) (at_address env) (at_random env) in
          match buildSIPRequestWire sent (transportName network) (at_address env) (at_random env) with
          | Ok wire =>
              match at_write env 0%nat with
              | Some e => (closeConnLocked f, inl (missed ctx (at_now env) e))
              | None => (f, inr (network, sent))
              end
          | Err e => (f, inl (Over (Err (OtherError e))))
          | Panic => (f, inl (Over Panic))
          | OutOfFuel => (f, inl (Over OutOfFuel))
          end
      end
  | (f, Panic) => (f, inl (Over Panic))
  | (f, OutOfFuel) => (f, inl (Over OutOfFuel))
  end.
Definition try_target (fuel : nat) (f : WireSIPFlow) (ctx : context) (env : attempt) (msg : SIPRequestMessage) (onProvisional : option ProvisionalResponseHandler) :
  WireSIPFlow * attempt_result :=
  match send_attempt f ctx env msg with
  | (f, inl r) => (f, r)
  | (f, inr (network, sent)) =>
      let '(r, ended) :=
        (if isSIPStreamNetwork network then
           ((readFinalSIPFlowResponse fuel sent onProvisional (at_stream_ends env) (at_stream_now env) (at_stream env)).1, at_stream_now env)
         else let '(s, r) := readUDPResponseLocked fuel (udp_call_of f ctx env sent onProvisional) (mkWire (at_now env) (at_datagrams env)) in (r, wi_now (us_wire s))) in
      match r with
      | Ok resp => (f, Answered (bool_decide (is_Some (ctx_Err ctx ended))) resp)
      | Err e => (closeConnLocked f, missed ctx ended e)
      | Panic => (f, Over Panic)
      | OutOfFuel => (f, Over OutOfFuel)
      end
  end.
(** [shouldRetry]; the context is not done where it is called. *)
Definition shouldRetry (f : WireSIPFlow) (attempts : Z) (e : flow_error) : WireSIPFlow * Z * bool :=
  if is_final_timeout e || negb (isSIPRetryableTransportError e) then (f, attempts, false) else
  let attempts := attempts + 1 in
  if targetCountLocked f <=? attempts then (f, attempts, false) else
  let '(f, ok) := advanceTargetLocked f in (f, attempts, ok).
Definition shouldRetryResponse (f : WireSIPFlow) (done : bool) (retryStatus : Z -> bool) (attempts : Z) (resp : SIPResponse) : WireSIPFlow * Z * bool :=
  if done || negb (retryStatus (sr_StatusCode resp)) then (f, attempts, false) else
  let attempts := attempts + 1 in
  if targetCountLocked f <=? attempts then (f, attempts, false) else
  let '(f, ok) := advanceTargetLocked (closeConnLocked f) in (f, attempts, ok).
Definition shouldRedirectResponse (f : WireSIPFlow) (done : bool) (method : bytes) (redirects : Z) (resp : SIPResponse) : outcome flow_error (WireSIPFlow * Z * bool) :=
  if done || (maxSIPRedirectTargets <=? redirects) || negb (sipRedirectStatus (sr_StatusCode resp)) || equal_fold (TrimSpace method) "INVITE" then Ok (f, redirects, false) else
  match redirectToResponseTargetsLocked f resp with
  | Ok (f, true) => Ok (closeConnLocked f, redirects + 1, true)
  | Ok (f, false) => Ok (f, redirects, false)
  | Err e => Err e
  | Panic => Panic
  | OutOfFuel => OutOfFuel
  end.
(** The loop of [roundTrip]: [k] counts its turns, and the target of each of them is put down. *)
Definition current_target (f : WireSIPFlow) : bytes := default [] (wf_targets f !! Z.to_nat (wf_targetIndex f)).
Fixpoint round_trip_loop (fuel : nat) (ctx : context) (env : nat -> attempt) (msg : SIPRequestMessage) (onProvisional : option ProvisionalResponseHandler)
    (retryStatus : Z -> bool) (k : nat) (f : WireSIPFlow) (attempts redirects : Z) (tried : list bytes) : WireSIPFlow * list bytes * outcome flow_error SIPResponse :=
  match fuel with
  | O => (f, tried, OutOfFuel)
  | S fuel =>
      let '(f, r) := try_target fuel f ctx (env k) msg onProvisional in
      let tried := tried ++ [current_target f] in
      match r with
      | Over r => (f, tried, r)
      | Missed e =>
          let '(f, attempts, retry) := shouldRetry f attempts e in
          if retry then round_trip_loop fuel ctx env msg onProvisional retryStatus (S k) f attempts redirects tried else (f, tried, Err e)
      | Answered done resp =>
          match shouldRedirectResponse f done (sq_Method msg) redirects resp with
          | Ok (f, redirects, true) => round_trip_loop fuel ctx env msg onProvisional retryStatus (S k) f attempts redirects tried
          | Ok (f, redirects, false) =>
              let '(f, attempts, retry) := shouldRetryResponse f done retryStatus attempts resp in
              if retry then round_trip_loop fuel ctx env msg onProvisional retryStatus (S k) f attempts redirects tried else (f, tried, Ok resp)
          | Err e => (f, tried, Err e)
          | Panic => (f, tried, Panic)
          | OutOfFuel => (f, tried, OutOfFuel)
          end
      end
  end.
Definition roundTrip (fuel : nat) (f : WireSIPFlow) (ctx : context) (env : nat -> attempt) (msg : SIPRequestMessage) (onProvisional : option ProvisionalResponseHandler)
    (retryStatus : Z -> bool) : WireSIPFlow * list bytes * outcome flow_error SIPResponse :=
  round_trip_loop fuel ctx env msg onProvisional retryStatus 0 f 0 0 [].
Definition RoundTripRegister (fuel : nat) (f : WireSIPFlow) (ctx : context) (env : nat -> attempt) (uri : bytes) (h : gmap bytes bytes) (body : bytes) :
  WireSIPFlow * list bytes * outcome flow_error SIPResponse :=
  roundTrip fuel f ctx env (mkSIPRequest (go_bytes "REGISTER") uri h body) None sipRegisterTargetFailoverStatus.
Definition RoundTripRequest (fuel : nat) (f : WireSIPFlow) (ctx : context) (env : nat -> attempt) (msg : SIPRequestMessage) :
  WireSIPFlow * list bytes * outcome flow_error SIPResponse := roundTrip fuel f ctx env msg None sipDialogTargetFailoverStatus.
Definition RoundTripInvite (fuel : nat) (f : WireSIPFlow) (ctx : context) (env : nat -> attempt) (msg : SIPRequestMessage) (onProvisional : option ProvisionalResponseHandler) :
  WireSIPFlow * list bytes * outcome flow_error SIPResponse := roundTrip fuel f ctx env msg onProvisional sipDialogTargetFailoverStatus.
Fixpoint write_request_loop (fuel : nat) (ctx : context) (env : nat -> attempt) (msg : SIPRequestMessage) (k : nat) (f : WireSIPFlow) (attempts : Z) :
  WireSIPFlow * outcome flow_error unit :=
  match fuel with
  | O => (f, OutOfFuel)
  | S fuel =>
      match send_attempt f ctx (env k) msg with
      | (f, inr _) => (f, Ok tt)
      | (f, inl (Missed e)) =>
          let '(f, attempts, retry) := shouldRetry f attempts e in
          if retry then write_request_loop fuel ctx env msg (S k) f attempts else (f, Err e)
      | (f, inl (Over (Err e))) => (f, Err e)
      | (f, inl (Over OutOfFuel)) => (f, OutOfFuel)
      | (f, inl _) => (f, Panic)
      end
  end.
Definition WriteRequest (fuel : nat) (f : WireSIPFlow) (ctx : context) (env : nat -> attempt) (msg : SIPRequestMessage) : WireSIPFlow * outcome flow_error unit :=
  write_request_loop fuel ctx env msg 0 f 0.
Definition SendCRLFKeepalive (f : WireSIPFlow) (env : attempt) : WireSIPFlow * outcome flow_error unit :=
  if wf_closed f then (f, Err err_flow_closed) else
  let '(f, connected) :=
    (if wf_conn f then (f, Ok []) else
     let target := TrimSpace (wf_ServerAddr f) in
     let target := if bool_decide (target = []) && (0 <=? wf_targetIndex f) && (wf_targetIndex f <? len (wf_targets f)) then current_target f else target in
     if bool_decide (target = []) then (f, Err (OtherError (ErrText "SIP flow has no connected remote for keepalive")))
     else ensureConnLocked f env (go_bytes "sip:" ++ target)) in
  match connected with
  | Ok _ =>
      match at_SetDeadline env, at_write env 0%nat with
      | Some e, _ => (closeConnLocked f, Err e)
      | None, Some e => (closeConnLocked f, Err e)
      | None, None => (f, Ok tt)
      end
  | Err e => (f, Err e)
  | Panic => (f, Panic)
  | OutOfFuel => (f, OutOfFuel)
  end.
End flow.
Definition Close (f : WireSIPFlow) : WireSIPFlow := closeConnLocked (set_closed f).
Definition Reset (f : WireSIPFlow) : WireSIPFlow * outcome flow_error unit :=
  if wf_closed f then (f, Err err_flow_closed) else (set_targets (closeConnLocked f) [] 0, Ok tt).
Definition ResetToNextTarget (f : WireSIPFlow) : WireSIPFlow * outcome flow_error bool :=
  if wf_closed f then (f, Err err_flow_closed) else
  let f := closeConnLocked f in
  if negb (bool_decide (TrimSpace (wf_ServerAddr f) = [])) then (f, Ok false) else
  if len (wf_targets f) <=? 1 then (set_targets f [] 0, Ok false) else
  let '(g, advanced) := advanceTargetLocked f in
  (g, Ok (advanced && negb (wf_targetIndex g =? wf_targetIndex f))).
