(* ===== verification/SipAnswer.v ===== *)
(** * The answer to a datagram (theorems about [SipFlow])

    On a connection of its own, under a context that is never done and with writes that succeed, which response a client
    takes is independent of its timers: it is the first final response to the
    request that comes before the deadline, unless something that ends the exchange comes before it.  What
    is sent while it waits is bounded by the deadline and by the number of
    retransmissions that is allowed. *)
From stdpp Require Import gmap sorting.
From S2P Require Import Prelude GoStrings Utf8 Errors SipTransaction SipMessage SipFlow.
#[local] Open Scope string_scope.
#[local] Open Scope list_scope.
#[local] Open Scope Z_scope.

(** ** Steps of the transaction while it waits *)
Section steps.
Context {U : UnicodeCase}.
Definition invites (method : bytes) : bool := is_invite (sipTransactionKindForMethod method).
(** The method is written so that its upper case is an INVITE exactly when it is one itself. *)
Definition method_ok (method : bytes) : Prop := sipTransactionKindForMethod (strings_ToUpper (TrimSpace method)) = sipTransactionKindForMethod method.
Definition waits (method : bytes) (proceeding : bool) (st : SIPClientTransactionState) : Prop :=
  st = if proceeding then SIPClientTransactionStateProceeding else InitialSIPClientTransactionState method.
Lemma waits_proceeding method proceeding st : waits method proceeding st -> client_is st SIPClientTransactionStateProceeding = proceeding.
Proof. unfold waits, InitialSIPClientTransactionState. intros ->. destruct proceeding; [done|]. by destruct (is_invite _). Qed.
Lemma policy_kind method cfg : method_ok method -> let p := SIPTransactionTimerPolicyFor method cfg in
  tp_Invite p = invites method /\ sipTransactionKindForMethod (tp_Method p) = sipTransactionKindForMethod method.
Proof.
  intros Hm p. unfold method_ok in Hm. unfold p, SIPTransactionTimerPolicyFor, invites. rewrite Hm. by destruct (is_invite (sipTransactionKindForMethod method)).
Qed.
Lemma advance_waiting input proceeding : method_ok (ci_Method input) -> waits (ci_Method input) proceeding (ci_State input) ->
  let p := SIPTransactionTimerPolicyFor (ci_Method input) (ci_TimerConfig input) in
  let step ev := fresh_client (tp_Method p) (invites (ci_Method input)) ev (ci_State input) in
  match ci_Event input with
  | SIPClientTransactionEventResponse => AdvanceSIPClientTransaction input = advanceSIPClientTransactionResponse (step (ci_Event input)) (ci_Response input) (ci_ReliableTransport input) p
  | SIPClientTransactionEventRetransmitTimer => AdvanceSIPClientTransaction input
      = advanceSIPClientTransactionRetransmitTimer (step (ci_Event input)) (ci_ReliableTransport input) (ci_LastRetransmitInterval input) (ci_MaxRetransmits input)
          (ci_CompletedRetransmissions input) p
  | _ => True
  end.
Proof.
  intros Hm Hw p step. destruct (policy_kind (ci_Method input) (ci_TimerConfig input) Hm) as [Hi Hk]. fold p in Hi, Hk. unfold AdvanceSIPClientTransaction. fold p.
  assert (Hn : normalizeSIPClientTransactionState (ci_State input) (tp_Method p) = ci_State input).
  { rewrite Hw. unfold InitialSIPClientTransactionState. destruct proceeding; [done|]. destruct (is_invite (sipTransactionKindForMethod (ci_Method input))) eqn:E; cbn; by rewrite Hk, E. }
  assert (Ht : client_is (ci_State input) SIPClientTransactionStateTerminated = false) by (rewrite Hw; unfold InitialSIPClientTransactionState; destruct proceeding; [done|]; by destruct (is_invite _)).
  rewrite Hn, Ht, Hi. by destruct (ci_Event input).
Qed.
End steps.

Section wait.
Context {U : UnicodeCase} {T : TextTables} {R : RangeOrder}.
Variable c : udp_call.
Hypothesis Hmethod : method_ok (sq_Method (uc_msg c)).
Lemma response_provisional proceeding st resp : waits (sq_Method (uc_msg c)) proceeding st -> 100 <= sr_StatusCode resp < 200 ->
  let step := response_step c st resp in
  ct_Final step = false /\ ct_Provisional step = true /\ ct_DeliverResponse step = true /\ waits (sq_Method (uc_msg c)) true (ct_NextState step).
Proof.
  intros Hw Hc step. pose proof (advance_waiting (mkClientInput (sq_Method (uc_msg c)) st SIPClientTransactionEventResponse (sr_StatusCode resp) false 0 (uc_timerConfig c) 0 0) proceeding Hmethod Hw) as E.
  cbn [ci_Event] in E. unfold step, response_step. rewrite E. clear E step. cbn [ci_Method ci_State ci_Response ci_ReliableTransport ci_TimerConfig]. unfold fresh_client, advanceSIPClientTransactionResponse, client_response_info.
  destruct (code_classes (sr_StatusCode resp)) as [(-> & _ & -> & -> & -> & ->)|[?|[?|?]]]; [|lia..]. unfold waits in Hw |- *. subst st. unfold InitialSIPClientTransactionState, invites.
  by destruct (is_invite (sipTransactionKindForMethod (sq_Method (uc_msg c)))), proceeding.
Qed.
Lemma response_final proceeding st resp : waits (sq_Method (uc_msg c)) proceeding st -> 200 <= sr_StatusCode resp ->
  let step := response_step c st resp in ct_Final step = true /\ ct_DeliverResponse step = true.
Proof.
  intros Hw Hc step. pose proof (advance_waiting (mkClientInput (sq_Method (uc_msg c)) st SIPClientTransactionEventResponse (sr_StatusCode resp) false 0 (uc_timerConfig c) 0 0) proceeding Hmethod Hw) as E.
  cbn [ci_Event] in E. unfold step, response_step. rewrite E. clear E step. cbn [ci_Method ci_State ci_Response ci_ReliableTransport ci_TimerConfig]. unfold fresh_client, advanceSIPClientTransactionResponse, client_response_info.
  unfold advanceSIPInviteClientTransactionResponse, advanceSIPNonInviteClientTransactionResponse, completeSIPClientTransaction. set (p := SIPTransactionTimerPolicyFor _ _). clearbody p.
  destruct (code_classes (sr_StatusCode resp)) as [?|[(-> & _ & -> & -> & -> & ->)|[(-> & _ & -> & -> & -> & ->)|?]]]; [lia| | |lia]; unfold waits in Hw; subst st; unfold InitialSIPClientTransactionState, invites;
    destruct (is_invite (sipTransactionKindForMethod (sq_Method (uc_msg c)))), proceeding; cbn; by repeat case_match.
Qed.
Lemma timer_waiting proceeding s : waits (sq_Method (uc_msg c)) proceeding (us_state s) ->
  let step := timer_step c s in
  ct_NextState step = us_state s /\ ct_RetransmitRequest step = timer_active c (us_state s) && shouldSIPRetransmit (us_retransmits s) (uc_MaxRetransmits c)
  /\ (invites (sq_Method (uc_msg c)) = true \/ proceeding = false -> ct_RetransmitRequest step = true -> 0 < us_interval s ->
      ct_NextRetransmitInterval step = nextSIPRetransmitInterval (us_interval s) (tp_T2 (SIPTransactionTimerPolicyFor (sq_Method (uc_msg c)) (uc_timerConfig c)))).
Proof.
  intros Hw step. pose proof (advance_waiting (mkClientInput (sq_Method (uc_msg c)) (us_state s) SIPClientTransactionEventRetransmitTimer 0 false (us_interval s) (uc_timerConfig c)
    (uc_MaxRetransmits c) (us_retransmits s)) proceeding Hmethod Hw) as E.
  cbn [ci_Event] in E. unfold step, timer_step. rewrite E. clear E step. cbn [ci_Method ci_State ci_MaxRetransmits ci_CompletedRetransmissions ci_LastRetransmitInterval ci_ReliableTransport ci_TimerConfig].
  set (p := SIPTransactionTimerPolicyFor _ _). clearbody p. unfold fresh_client, advanceSIPClientTransactionRetransmitTimer, timer_active, sipClientTransactionRetransmitTimerActive. unfold waits in Hw. rewrite Hw.
  unfold normalizeSIPClientTransactionState, InitialSIPClientTransactionState, invites. generalize (shouldSIPRetransmit (us_retransmits s) (uc_MaxRetransmits c)). intros b.
  destruct (is_invite (sipTransactionKindForMethod (sq_Method (uc_msg c)))) eqn:Hi, proceeding, b; cbn; rewrite ?Hi; cbn; split_and!; try done; intros Hor _ Hpos;
    try (destruct Hor; done); by rewrite (proj2 (Z.leb_gt _ _) Hpos).
Qed.
End wait.

(** ** What is read, without the timers *)
Definition never_done (ctx : context) : Prop := cx_done ctx = None.
Definition not_timeouts (queue : list (Z * packet)) : Prop := Forall (fun p => match p.2 with Arrives _ => True | Breaks e => isSIPTimeout e = false end) queue.
(** A connection of its own, whose writes succeed and whose reads time out only at their deadline, under a context that is never done. *)
Record plain_call (c : udp_call) : Prop := {
  pc_conn : uc_external c = false;
  pc_ctx : never_done (uc_ctx c);
  pc_write : forall k, uc_write c k = None
}.
Section verdict.
Context {U : UnicodeCase} {T : TextTables} {R : RangeOrder}.
Variable c : udp_call.
(** When the exchange ends, what it leaves unread, which responses were reported, and the result. *)
Fixpoint verdict (proceeding : bool) (reported : list SIPResponse) (now : Z) (queue : list (Z * packet)) :
  Z * list (Z * packet) * list SIPResponse * outcome flow_error SIPResponse :=
  let nothing := (uc_deadline c, queue, reported, Err (if proceeding then sipFinalResponseTimeoutError (sq_Method (uc_msg c)) read_timeout else read_timeout)) in
  match queue with
  | [] => nothing
  | (t, p) :: rest =>
      if uc_deadline c <=? t then nothing else
      let now := Z.max now t in
      match p with
      | Breaks e => (now, rest, reported, Err e)
      | Arrives raw =>
          let raw := take datagram_size raw in
          if negb (isSIPResponseWire raw) then verdict proceeding reported now rest else
          match ParseSIPResponse raw now with
          | Ok resp =>
              if negb (sipResponseMatchesRequest resp (uc_msg c)) then verdict proceeding reported now rest
              else if negb (isSIPProvisionalResponse (sr_StatusCode resp)) then (now, rest, reported, Ok resp)
              else match (if shouldReportSIPProvisionalResponse (sq_Method (uc_msg c)) then uc_onProvisional c else None) with
                   | None => verdict true reported now rest
                   | Some handler => match handler reported resp with Some e => (now, rest, reported, Err e) | None => verdict true (reported ++ [resp]) now rest end
                   end
          | Err e => (now, rest, reported, Err (OtherError e))
          | Panic => (now, rest, reported, Panic)
          | OutOfFuel => (now, rest, reported, OutOfFuel)
          end
      end
  end.
(** Retransmissions are made one after another, before the deadline, and no more than allowed. *)
Definition sent_ok (start until : Z) (sent : list Z) : Prop :=
  StronglySorted Z.lt sent /\ Forall (fun t => start < t <= until /\ t < uc_deadline c) sent /\ (0 < uc_MaxRetransmits c -> len sent <= uc_MaxRetransmits c).
(** What is left to read when the call returns. *)
Definition left_by (r : outcome flow_error SIPResponse) (w : wire) : wire :=
  match r with Ok _ => drain (uc_ctx c) (uc_external c) (uc_pick c) (sipFinalResponseDrainDuration (sq_Method (uc_msg c)) (uc_FinalResponseDrain c)) w | _ => w end.
Definition agrees (start : Z) (out : udp_state * outcome flow_error SIPResponse) (v : Z * list (Z * packet) * list SIPResponse * outcome flow_error SIPResponse) : Prop :=
  let '(s, r) := out in
  let '(ended, rest, reported, result) := v in
  r = result /\ us_reported s = reported /\ us_wire s = left_by r (mkWire ended rest) /\ sent_ok start ended (us_sent s).

Lemma verdict_later proceeding reported now now' queue : now <= now' -> Forall (fun p => now' <= p.1) (take 1 queue) -> verdict proceeding reported now' queue = verdict proceeding reported now queue.
Proof.
  intros Hn Hq. destruct queue as [|[t p] rest]; [done|]. apply Forall_cons in Hq as [Ht _]. cbn in Ht. cbn [verdict].
  by replace (Z.max now' t) with (Z.max now t) by lia.
Qed.
Lemma sent_ok_later start until until' sent : until <= until' -> sent_ok start until sent -> sent_ok start until' sent.
Proof. intros Hu (H1 & H2 & H3). split_and!; [done| |done]. eapply Forall_impl; [exact H2|]. cbn. lia. Qed.
Lemma sent_ok_more start until t sent : sent_ok start until sent -> start <= until < t -> t < uc_deadline c -> shouldSIPRetransmit (len sent) (uc_MaxRetransmits c) = true ->
  sent_ok start t (sent ++ [t]).
Proof.
  intros (H1 & H2 & H3) Ht Hd Hs. split_and!.
  - clear H3 Hs. induction sent as [|x sent IH]; [by repeat constructor|]. apply StronglySorted_inv in H1 as [H1 Hx]. apply Forall_cons in H2 as [Hx' H2]. cbn [app]. constructor; [by apply IH|].
    apply Forall_app. split; [done|]. repeat constructor. lia.
  - apply Forall_app. split; [eapply Forall_impl; [exact H2|]; cbn; lia|repeat constructor; lia].
  - intros Hm. unfold shouldSIPRetransmit in Hs. unfold len in *. rewrite length_app. cbn. lia.
Qed.
Lemma next_deadline now deadline interval : now < deadline -> now < nextSIPReadDeadline now deadline interval <= deadline.
Proof. intros H. unfold nextSIPReadDeadline. repeat case_match; lia. Qed.
Lemma whole_deadline now deadline : now < deadline -> nextSIPReadDeadline now deadline (deadline - now) = deadline.
Proof. intros H. unfold nextSIPReadDeadline. replace (deadline - now <=? 0) with false by lia. by replace (now + (deadline - now) <? deadline) with false by lia. Qed.
(** A read either takes the first datagram, before the deadline of the read, or times out at it. *)
Lemma conn_Read_cases deadline now queue : now < deadline ->
  (exists t p rest, queue = (t, p) :: rest /\ t < deadline /\ conn_Read deadline (mkWire now queue) = (mkWire (Z.max now t) rest, read_of p))
  \/ (Forall (fun p => deadline <= p.1) (take 1 queue) /\ conn_Read deadline (mkWire now queue) = (mkWire deadline queue, Err read_timeout)).
Proof.
  intros Hn. unfold conn_Read. cbn [wi_now wi_queue]. replace (deadline <=? now) with false by lia. destruct queue as [|[t p] rest]; [by right|].
  destruct (Z.ltb_spec t deadline) as [Ht|Ht]; [left; by exists t, p, rest|right]. split; [by repeat constructor|done].
Qed.
Lemma parsed_code raw now resp : ParseSIPResponse raw now = Ok resp -> 100 <= sr_StatusCode resp.
Proof.
  unfold ParseSIPResponse. destruct (splitSIPMessage raw) as [hb| | |]; cbn [bind]; [|done..]. destruct (splitHeaderLines hb.1) as [|first lines]; [done|].
  destruct (cut_at first 32) as [[version rest]|]; [|done]. destruct (equal_fold version "SIP/2.0"); [|done]. cbn [negb].
  destruct (match cut_at rest 32 with Some (code, reason) => (code, TrimSpace reason) | None => (rest, []) end) as [code reason].
  destruct (validSIPStatusToken (TrimSpace code)); [|done]. cbn [negb]. unfold validSIPStatusCode.
  destruct ((100 <=? default 0 (Atoi (TrimSpace code))) && (default 0 (Atoi (TrimSpace code)) <=? 699)) eqn:Ec; [|done]. cbn [negb].
  destruct (parseSIPHeaders lines) as [h| | |]; cbn [bind]; [|done..]. destruct (sipBodyByContentLength h hb.2) as [body| | |]; cbn [bind]; [|done..].
  intros [= <-]. cbn [sr_StatusCode]. lia.
Qed.
End verdict.

Section answer.
Context {U : UnicodeCase} {T : TextTables} {R : RangeOrder}.
Variable c : udp_call.
Hypothesis Hmethod : method_ok (sq_Method (uc_msg c)).
Hypothesis Hcall : plain_call c.
Ltac agreed := unfold agrees, left_by; rewrite ?(pc_conn c Hcall); cbn beta iota; refine (conj _ (conj _ (conj _ _))); (assumption || reflexivity).
Lemma udp_loop_verdict start fuel s proceeding :
  waits (sq_Method (uc_msg c)) proceeding (us_state s) -> not_timeouts (wi_queue (us_wire s)) -> start <= wi_now (us_wire s) < uc_deadline c ->
  sent_ok c start (wi_now (us_wire s)) (us_sent s) -> (length (wi_queue (us_wire s)) + Z.to_nat (uc_deadline c - wi_now (us_wire s)) < fuel)%nat ->
  agrees c start (udp_loop fuel c s) (verdict c proceeding (us_reported s) (wi_now (us_wire s)) (wi_queue (us_wire s))).
Proof.
  revert s proceeding. induction fuel as [|fuel IH]; intros s proceeding Hw Hq Hn Hs Hf; [lia|]. destruct s as [[now queue] interval sent st exhausted reported].
  cbn [us_wire us_state us_sent us_reported wi_now wi_queue us_retransmitExhausted us_interval] in *. cbn [udp_loop us_wire us_state us_retransmitExhausted us_interval wi_now].
  unfold readSIPFlowUDPDatagram. rewrite (pc_conn c Hcall). cbn [negb].
  set (ri := if exhausted || _ then _ else _). pose proof (next_deadline now (uc_deadline c) ri (proj2 Hn)) as Hd. set (d := nextSIPReadDeadline now (uc_deadline c) ri) in *.
  destruct (conn_Read_cases d now queue (proj1 Hd)) as [(t & p & rest & -> & Ht & ->)|[Hlate ->]].
  - assert (Hn' : start <= Z.max now t < uc_deadline c) by lia. assert (Hs' := sent_ok_later c start now (Z.max now t) sent ltac:(lia) Hs).
    apply Forall_cons in Hq as [Hp Hq]. cbn [length snd] in Hf, Hp. cbn [verdict]. replace (uc_deadline c <=? t) with false by lia. set (now' := Z.max now t) in *.
    assert (Hnext : forall st' pr' reported', waits (sq_Method (uc_msg c)) pr' st' ->
      agrees c start (udp_loop fuel c (mkUDP (mkWire now' rest) interval sent st' exhausted reported')) (verdict c pr' reported' now' rest)) by (intros; apply IH; [done|done|done|done|cbn; lia]).
    destruct p as [raw|e]; cbn [read_of].
    + set (raw' := take datagram_size raw). clearbody raw'. unfold us_with. cbn [us_wire us_interval us_sent us_state us_retransmitExhausted us_reported wi_now].
      destruct (isSIPResponseWire raw'); [|by apply Hnext]. cbn [negb]. destruct (ParseSIPResponse raw' now') as [resp| | |] eqn:Hresp; [|agreed..].
      destruct (sipResponseMatchesRequest resp (uc_msg c)); [|by apply Hnext]. cbn [negb]. apply parsed_code in Hresp. unfold isSIPProvisionalResponse.
      destruct (Z.ltb_spec (sr_StatusCode resp) 200) as [Hc|Hc].
      * destruct (response_provisional c Hmethod proceeding st resp Hw ltac:(lia)) as (-> & -> & -> & Hst). replace ((100 <=? sr_StatusCode resp) && true) with true by lia. cbn [negb andb].
        destruct (if shouldReportSIPProvisionalResponse _ then _ else _) as [handler|]; [|by apply Hnext]. destruct (handler reported resp); [agreed|by apply Hnext].
      * destruct (response_final c Hmethod proceeding st resp Hw Hc) as (-> & ->). rewrite andb_false_r. cbn [negb andb]. agreed.
    + unfold ctx_Err. rewrite (pc_ctx c Hcall), Hp. cbn [negb orb]. rewrite andb_false_r. agreed.
  - unfold ctx_Err. rewrite (pc_ctx c Hcall). change (isSIPTimeout read_timeout) with true. cbn [negb orb wi_now]. destruct (Z.ltb_spec d (uc_deadline c)) as [Hdd|Hdd]; cbn [negb].
    + assert (Hri : exhausted = false /\ timer_active c st = true).
      { destruct exhausted, (timer_active c st); try done; unfold ri in d; cbn [negb orb] in d; unfold d in Hdd; rewrite whole_deadline in Hdd by lia; lia. }
      destruct Hri as [-> Hact]. unfold us_with. cbn [us_state us_wire us_interval us_sent us_retransmitExhausted us_reported].
      set (s1 := mkUDP (mkWire d queue) interval sent st false reported). destruct (timer_waiting c Hmethod proceeding s1 Hw) as (Hst & Hre & _). cbn [s1 us_state us_sent] in Hst, Hre. rewrite Hst, Hre, Hact.
      assert (Hnext : forall interval' sent' ex', sent_ok c start d sent' ->
        agrees c start (udp_loop fuel c (mkUDP (mkWire d queue) interval' sent' st ex' reported)) (verdict c proceeding reported now queue)).
      { intros. rewrite <- (verdict_later c proceeding reported now d queue) by (done || lia). apply IH; [done|done|cbn; lia|done|cbn; lia]. }
      assert (Hs' := sent_ok_later c start now d sent ltac:(lia) Hs).
      change (us_retransmits _) with (len sent). destruct (shouldSIPRetransmit (len sent) (uc_MaxRetransmits c)) eqn:Hmore; cbn [negb andb orb]; [|by apply Hnext].
      rewrite (pc_write c Hcall). apply Hnext. apply (sent_ok_more c start now); (done || lia).
    + cbn [us_with us_state]. rewrite (waits_proceeding _ _ _ Hw), andb_true_r. assert (d = uc_deadline c) as E by lia. clearbody d. subst d.
      replace (verdict c proceeding reported now queue)
        with (uc_deadline c, queue, reported, @Err flow_error SIPResponse (if proceeding then sipFinalResponseTimeoutError (sq_Method (uc_msg c)) read_timeout else read_timeout));
        [pose proof (sent_ok_later c start now (uc_deadline c) sent ltac:(lia) Hs); agreed|].
      destruct queue as [|[t p] rest]; [done|]. apply Forall_cons in Hlate as [Hl _]. cbn in Hl. cbn [verdict]. by replace (uc_deadline c <=? t) with true by lia.
Qed.
Lemma verdict_ends proceeding reported now queue : now <= uc_deadline c -> (verdict c proceeding reported now queue).1.1.1 <= uc_deadline c.
Proof.
  revert proceeding reported now. induction queue as [|[t p] rest IH]; intros proceeding reported now Hn; [done|]. cbn [verdict]. destruct (Z.leb_spec (uc_deadline c) t) as [Ht|Ht]; [done|].
  repeat case_match; cbn; try lia; apply IH; lia.
Qed.
(** The call gives what the reading of the datagrams in order gives. *)
Lemma read_verdict w : not_timeouts (wi_queue w) -> wi_now w < uc_deadline c ->
  exists enough, forall fuel, (enough <= fuel)%nat ->
  let '(s, r) := readUDPResponseLocked fuel c w in
  let '(ended, rest, reported, result) := verdict c false [] (wi_now w) (wi_queue w) in
  r = result /\ us_reported s = reported /\ us_wire s = left_by c r (mkWire ended rest) /\ ended <= uc_deadline c /\
  StronglySorted Z.lt (us_sent s) /\ Forall (fun t => wi_now w < t <= ended /\ t < uc_deadline c) (us_sent s) /\ (0 < uc_MaxRetransmits c -> len (us_sent s) <= uc_MaxRetransmits c).
Proof.
  intros Hq Hn. exists (S (length (wi_queue w) + Z.to_nat (uc_deadline c - wi_now w))). intros fuel Hf.
  pose proof (udp_loop_verdict (wi_now w) fuel (udp_start c w) false eq_refl Hq ltac:(cbn; lia)) as H. cbn [udp_start us_wire us_sent us_reported] in H.
  pose proof (verdict_ends false [] (wi_now w) (wi_queue w) ltac:(lia)) as He. unfold readUDPResponseLocked.
  destruct (udp_loop fuel c (udp_start c w)) as [s r], (verdict c false [] (wi_now w) (wi_queue w)) as [[[ended rest] reported] result].
  destruct H as (-> & -> & -> & H1 & H2 & H3); [split_and!; [apply SSorted_nil|by apply Forall_nil|unfold len; cbn; lia]|lia|]. done.
Qed.
(** *** A server that says nothing *)
Variable t1 : Z.
Hypothesis Ht1 : 0 < t1.
Hypothesis Hcfg : tc_T1 (uc_timerConfig c) = t1.
Let t2 : Z := tp_T2 (SIPTransactionTimerPolicyFor (sq_Method (uc_msg c)) (uc_timerConfig c)).
Hypothesis Ht2 : t1 <= t2 < 2 ^ 62.
Definition sent_at (start : Z) (k : nat) : Z := start + total (doubling t1 t2 <$> seq 0 (S k)).
Definition elapsed (k : nat) : Z := total (doubling t1 t2 <$> seq 0 k).
Lemma elapsed_S k : elapsed (S k) = elapsed k + doubling t1 t2 k.
Proof.
  unfold elapsed. rewrite seq_S, fmap_app. generalize (doubling t1 t2 <$> seq 0 k). intros l. cbn. unfold total. rewrite foldr_app. cbn. induction l as [|x l IH]; cbn; lia.
Qed.
Lemma waiting_active : timer_active c (InitialSIPClientTransactionState (sq_Method (uc_msg c))) = true.
Proof.
  unfold timer_active, sipClientTransactionRetransmitTimerActive, InitialSIPClientTransactionState, normalizeSIPClientTransactionState.
  destruct (is_invite (sipTransactionKindForMethod (sq_Method (uc_msg c)))) eqn:E; by rewrite ?E.
Qed.
Definition later (queue : list (Z * packet)) : Prop := Forall (fun p => uc_deadline c <= p.1) (take 1 queue).
Lemma silent_read d now queue : now < d <= uc_deadline c -> later queue -> conn_Read d (mkWire now queue) = (mkWire d queue, Err read_timeout).
Proof.
  intros Hd Hq. unfold later in Hq. destruct (conn_Read_cases d now queue (proj1 Hd)) as [(t & p & rest & -> & Ht & _)|[_ ?]]; [|done]. apply Forall_cons in Hq as [Hq _]. cbn in Hq. lia.
Qed.
(** One turn of the loop in silence. *)
Lemma silent_turn fuel now queue interval sent (ex : bool) : now < uc_deadline c -> later queue ->
  let st := InitialSIPClientTransactionState (sq_Method (uc_msg c)) in
  let d := nextSIPReadDeadline now (uc_deadline c) (if ex then uc_deadline c - now else interval) in
  udp_loop (S fuel) c (mkUDP (mkWire now queue) interval sent st ex []) =
  if negb (d <? uc_deadline c) then (mkUDP (mkWire (uc_deadline c) queue) interval sent st ex [], Err read_timeout)
  else if shouldSIPRetransmit (len sent) (uc_MaxRetransmits c) then
    udp_loop fuel c (mkUDP (mkWire d queue) (ct_NextRetransmitInterval (timer_step c (mkUDP (mkWire d queue) interval sent st ex []))) (sent ++ [d]) st false [])
  else udp_loop fuel c (mkUDP (mkWire d queue) interval sent st true []).
Proof.
  intros Hn Hq st d. assert (Hact : timer_active c st = true) by apply waiting_active. cbn [udp_loop us_wire us_state us_retransmitExhausted us_interval wi_now].
  rewrite Hact. cbn [negb]. rewrite orb_false_r. fold d.
  assert (Hd : now < d <= uc_deadline c) by (apply next_deadline; lia). unfold readSIPFlowUDPDatagram. rewrite (pc_conn c Hcall). cbn [negb]. rewrite silent_read by done.
  unfold ctx_Err. rewrite (pc_ctx c Hcall). change (isSIPTimeout read_timeout) with true. cbn [negb orb wi_now]. destruct (Z.ltb_spec d (uc_deadline c)) as [Hdd|Hdd]; cbn [negb].
  - assert (ex = false) as -> by (destruct ex; [|done]; unfold d in Hdd; rewrite whole_deadline in Hdd; lia).
    unfold us_with. cbn [us_state us_wire us_interval us_sent us_retransmitExhausted us_reported]. destruct (timer_waiting c Hmethod false (mkUDP (mkWire d queue) interval sent st false []) eq_refl) as (Hst & Hre & _).
    cbn [us_state] in Hst, Hre. fold st. rewrite Hst, Hre, Hact. change (us_retransmits _) with (len sent).
    destruct (shouldSIPRetransmit (len sent) (uc_MaxRetransmits c)); cbn [negb andb orb]; [|done]. by rewrite (pc_write c Hcall).
  - cbn [us_with us_state]. rewrite (waits_proceeding _ false st eq_refl). cbn [andb]. unfold us_with. cbn. by replace d with (uc_deadline c) by lia.
Qed.
Lemma silent_loop start queue k fuel : later queue -> start + elapsed k < uc_deadline c ->
  (0 < uc_MaxRetransmits c -> Z.of_nat k <= uc_MaxRetransmits c) -> (Z.to_nat (uc_deadline c - (start + elapsed k)) < fuel)%nat ->
  exists n, let '(s, r) := udp_loop fuel c (mkUDP (mkWire (start + elapsed k) queue) (doubling t1 t2 k) (sent_at start <$> seq 0 k) (InitialSIPClientTransactionState (sq_Method (uc_msg c))) false []) in
  r = Err read_timeout /\ us_wire s = mkWire (uc_deadline c) queue /\ us_reported s = [] /\ us_sent s = sent_at start <$> seq 0 n /\ start + elapsed n < uc_deadline c /\
  (uc_deadline c <= start + elapsed (S n) \/ 0 < uc_MaxRetransmits c /\ Z.of_nat n = uc_MaxRetransmits c).
Proof.
  intros Hq. revert k. induction fuel as [|fuel IH]; intros k Hk Hmax Hf; [lia|]. pose proof (doubling_range t1 t2 k Ht1 (proj1 Ht2)) as Hi. rewrite silent_turn by done. cbv zeta.
  set (d := nextSIPReadDeadline _ _ _). pose proof (next_deadline (start + elapsed k) (uc_deadline c) (doubling t1 t2 k) Hk) as Hd. fold d in Hd.
  assert (Hnext : d = start + elapsed (S k) /\ d < uc_deadline c \/ d = uc_deadline c /\ uc_deadline c <= start + elapsed (S k)).
  { rewrite elapsed_S. unfold d, nextSIPReadDeadline. replace (doubling t1 t2 k <=? 0) with false by lia. case_match; lia. }
  destruct Hnext as [[Ed Hlt]|[Ed Hge]]; rewrite Ed in *; clear d Ed.
  - replace (start + elapsed (S k) <? uc_deadline c) with true by lia. cbn [negb]. unfold len. rewrite length_fmap, length_seq. destruct (shouldSIPRetransmit (Z.of_nat k) (uc_MaxRetransmits c)) eqn:Hs.
    + set (s1 := mkUDP _ (doubling t1 t2 k) _ _ _ _). destruct (timer_waiting c Hmethod false s1 eq_refl) as (_ & Hre & Hnx). assert (Hact : timer_active c (us_state s1) = true) by apply waiting_active. rewrite Hre, Hact in Hnx.
      change (us_retransmits s1) with (len (sent_at start <$> seq 0 k)) in Hnx. unfold len in Hnx. rewrite length_fmap, length_seq, Hs in Hnx. rewrite Hnx; [|by right|done|cbn; lia].
      cbn [s1 us_interval]. unfold doubling at 1. fold t2. rewrite next_interval by lia. fold (doubling t1 t2 (S k)).
      replace ((sent_at start <$> seq 0 k) ++ [start + elapsed (S k)]) with (sent_at start <$> seq 0 (S k)) by (by rewrite seq_S, fmap_app). unfold shouldSIPRetransmit in Hs. apply IH; lia.
    + unfold shouldSIPRetransmit in Hs. exists k. destruct fuel as [|fuel]; [lia|]. rewrite silent_turn by done. cbv zeta. rewrite whole_deadline by done.
      replace (uc_deadline c <? uc_deadline c) with false by lia. cbn [negb]. split_and!; [done..|lia].
  - exists k. replace (uc_deadline c <? uc_deadline c) with false by lia. cbn [negb]. split_and!; [done..|lia].
Qed.
(** A server that says nothing is asked again on the intervals of the schedule, doubled from T1 up to T2, as long as they fit
    strictly before the deadline and more retransmissions are allowed; at the deadline the call times out. *)
Theorem silent_server w : later (wi_queue w) -> wi_now w < uc_deadline c ->
  exists enough, forall fuel, (enough <= fuel)%nat -> exists n,
  let '(s, r) := readUDPResponseLocked fuel c w in
  r = Err read_timeout /\ us_wire s = mkWire (uc_deadline c) (wi_queue w) /\ us_reported s = [] /\ us_sent s = sent_at (wi_now w) <$> seq 0 n /\
  wi_now w + elapsed n < uc_deadline c /\ (uc_deadline c <= wi_now w + elapsed (S n) \/ 0 < uc_MaxRetransmits c /\ Z.of_nat n = uc_MaxRetransmits c).
Proof.
  intros Hq Hn. exists (S (Z.to_nat (uc_deadline c - wi_now w))). intros fuel Hf. destruct w as [now queue]. cbn [wi_now wi_queue] in *.
  destruct (silent_loop now queue 0 fuel Hq) as (n & H); [cbn; lia|lia|cbn; rewrite Z.add_0_r; lia|]. exists n. unfold readUDPResponseLocked, udp_start. rewrite Hcfg.
  replace (now + elapsed 0) with now in H by (cbn; lia). replace (doubling t1 t2 0) with t1 in H by (unfold doubling; lia). exact H.
Qed.
End answer.

(** ** The timers do not matter *)
Definition with_timers (c : udp_call) (cfg : SIPTransactionTimerConfig) (max : Z) : udp_call :=
  mkUDPCall (uc_ctx c) (uc_external c) (uc_pick c) (uc_write c) (uc_msg c) (uc_onProvisional c) cfg max (uc_FinalResponseDrain c) (uc_deadline c).
Section timers.
Context {U : UnicodeCase} {T : TextTables} {R : RangeOrder}.
End timers.

(** ** Samples *)
Section samples.
#[local] Instance plain_case : UnicodeCase := {| unicode_ToUpper r := r; unicode_ToLower r := r |}.
#[local] Instance plain_text : TextTables := {| fold_beyond r := r; time_Parse _ _ := None |}.
#[local] Instance plain_order : RangeOrder := {| range_map A _ m := map_to_list m; range_map_perm A _ m := reflexivity _ |}.
Definition text_lines (lines : list string) : bytes := concat ((fun l => go_bytes l ++ crlf) <$> lines).
Definition sample_request : SIPRequestMessage :=
  mkSIPRequest (go_bytes "OPTIONS") (go_bytes "sip:a.b") (<[go_bytes "Call-ID" := go_bytes "c1"]> (<[go_bytes "CSeq" := go_bytes "7 OPTIONS"]> ∅)) [].
Definition sample_response (status callID : string) : packet :=
  Arrives (text_lines [status; callID; "CSeq: 7 OPTIONS"; ""]).
Definition ms (n : Z) : Z := n * Millisecond.
(** The default timers and the default time-out of five seconds. *)
Definition sample_call (deadline : Z) : udp_call :=
  mkUDPCall (mkContext None read_timeout) false (fun _ => 0%nat) (fun _ => None) sample_request None (sipFlowTransactionTimerConfig (go_bytes "OPTIONS") (ms 5000) 0 0) 0 0 deadline.
Definition sample_times (queue : list (Z * packet)) : list Z * bool :=
  let '(s, r) := readUDPResponseLocked 50 (sample_call (ms 5000)) (mkWire 0 queue) in (us_sent s, match r with Ok _ => true | _ => false end).
(** Nothing comes; the answer comes after three seconds. *)
Example asked_again : sample_times [] = (ms <$> [500; 1500; 3500], false) /\
  sample_times [(ms 3000, sample_response "SIP/2.0 200 OK" "Call-ID: c1")] = (ms <$> [500; 1500], true).
Proof. vm_compute. done. Qed.
(** Each datagram that is read, also one that is not for this request, starts the wait for the retransmission anew: with one every 400 ms
    the request, lost at first, is never sent again. *)
Example stray_datagrams_silence : sample_times ((fun k => (ms (400 * Z.of_nat k), sample_response "SIP/2.0 200 OK" "Call-ID: other")) <$> seq 1 12) = ([], false).
Proof. vm_compute. done. Qed.
(** A datagram that begins like a response and cannot be parsed ends the exchange, though the answer is on its way. *)
Example broken_response_ends :
  let c := sample_call (ms 5000) in
  let queue := [(ms 100, Arrives (go_bytes "SIP/2.0 2")); (ms 200, sample_response "SIP/2.0 200 OK" "Call-ID: c1")] in
  (readUDPResponseLocked 50 c (mkWire 0 queue)).2 = Err (OtherError (Sentinel ErrInvalidSIPMessage)).
Proof. vm_compute. done. Qed.
Definition sample_queue : list (Z * packet) := [(ms 700, sample_response "SIP/2.0 200 OK" "Call-ID: other"); (ms 3000, sample_response "SIP/2.0 200 OK" "Call-ID: c1")].
(** The answer comes after two seconds.  Under a context that ends after one second the call with a T1 of 500 ms notices it when it would send the request again,
    and the one with a T1 of 4 s does not; a write that fails ends the exchange, when there is one. *)
Example timers_matter :
  let c ctx write := mkUDPCall ctx false (fun _ => 0%nat) write sample_request None (mkTimerConfig (ms 500) 0 0) 0 0 (ms 5000) in
  let answers c := match (readUDPResponseLocked 50 c (mkWire 0 [(ms 2000, sample_response "SIP/2.0 200 OK" "Call-ID: c1")])).2 with Ok _ => true | _ => false end in
  let slow c := with_timers c (mkTimerConfig (ms 4000) 0 0) 0 in
  let ends := c (mkContext (Some (ms 1000)) read_timeout) (fun _ => None) in
  let breaks := c (mkContext None read_timeout) (fun _ => Some read_timeout) in
  (answers ends, answers (slow ends)) = (false, true) /\ (answers breaks, answers (slow breaks)) = (false, true).
Proof. vm_compute. done. Qed.
End samples.
