(* ===== verification/SipFailover.v ===== *)
(** * Going from server to server (theorems about [SipTargets] and [SipFlow])

    The list of the targets of a flow has no duplicates and its index stays within it, whatever is called; a
    round trip ends, panics only for the three reasons that are named, and without redirects it tries the targets in a ring, each once, until one of them
    answers for good. *)
From stdpp Require Import gmap.
From S2P Require Import Prelude GoStrings Utf8 Errors Mobike SipTransaction SipMessage SipWire SipTargets SipFlow SipAnswer.
#[local] Open Scope string_scope.
#[local] Open Scope list_scope.
#[local] Open Scope Z_scope.

(** ** Lists of targets *)
Definition good_targets (l : list bytes) : Prop := NoDup l /\ Forall (fun t => t <> [] /\ TrimSpace t = t) l.
Lemma good_nil : good_targets [].
Proof. split; constructor. Qed.
Lemma good_app l m : good_targets (l ++ m) -> good_targets l /\ good_targets m.
Proof. intros [(H1 & _ & H2)%NoDup_app (H3 & H4)%Forall_app]. done. Qed.
(** What is appended is the trimmed text of the new targets. *)
Lemma append_spec out targets : good_targets out ->
  good_targets (appendSIPTargets out targets) /\ (exists more, appendSIPTargets out targets = out ++ more /\ Forall (fun t => t ∈ TrimSpace <$> targets) more)
  /\ (forall t, t ∈ targets -> TrimSpace t <> [] -> TrimSpace t ∈ appendSIPTargets out targets).
Proof.
  revert out. induction targets as [|t targets IH]; intros out Hg; cbn [appendSIPTargets].
  { split_and!; [done|exists []; by rewrite app_nil_r|intros t Ht; by apply elem_of_nil in Ht]. }
  set (out' := if _ || _ then out else _). assert (Ho : good_targets out' /\ exists more, out' = out ++ more /\ Forall (fun u => u = TrimSpace t) more /\ (TrimSpace t <> [] -> TrimSpace t ∈ out')).
  { unfold out'. case_bool_decide as H1; cbn [orb]; [split; [done|exists []; rewrite app_nil_r; split_and!; by try constructor]|]. case_bool_decide as H2; cbn [orb]; [split; [done|exists []; rewrite app_nil_r; split_and!; by try constructor]|].
    split; [|exists [TrimSpace t]; split_and!; [done|by repeat constructor|intros _; apply elem_of_app; right; by apply list_elem_of_singleton]]. destruct Hg as [Hn Hf]. split.
    - apply NoDup_app. split_and!; [done| |apply NoDup_singleton]. intros x Hx ->%list_elem_of_singleton. done.
    - apply Forall_app. split; [done|]. repeat constructor; [done|apply TrimSpace_idem]. }
  destruct Ho as (Hg' & more & E & Hm & Hin). destruct (IH out' Hg') as (H1 & (more' & E' & H2) & H3). split_and!; [done| |].
  - exists (more ++ more'). rewrite E', E, <- app_assoc. split; [done|]. apply Forall_app. split.
    + eapply Forall_impl; [exact Hm|]. cbn. intros u ->. left.
    + eapply Forall_impl; [exact H2|]. cbn. intros u Hu. by right.
  - intros u Hu Hne. apply elem_of_cons in Hu as [->|Hu]; [|by apply H3]. rewrite E'. apply elem_of_app. left. by apply Hin.
Qed.
Lemma append_good out targets : good_targets (out ++ targets) -> appendSIPTargets out targets = out ++ targets.
Proof.
  revert out. induction targets as [|t targets IH]; intros out Hg; [by rewrite app_nil_r|]. cbn [appendSIPTargets].
  destruct Hg as [Hn Hf]. apply Forall_app in Hf as [Hf1 Hf2]. apply Forall_cons in Hf2 as [[Ht1 Ht2] Hf2]. rewrite Ht2. rewrite bool_decide_false by done.
  rewrite bool_decide_false; [|intros Hin; apply NoDup_app in Hn as (_ & Hd & _); apply (Hd t); [done|left]]. cbn [orb].
  rewrite IH; [by rewrite <- app_assoc|]. rewrite <- app_assoc. split; [done|]. apply Forall_app. split; [done|]. by repeat constructor.
Qed.
Lemma first_redirect_spec out current redirects idx : first_redirect out current redirects = Some idx ->
  (idx < length out)%nat /\ idx <> current /\ default [] (out !! idx) ∈ TrimSpace <$> redirects.
Proof.
  induction redirects as [|r redirects IH]; [done|]. cbn [first_redirect]. unfold redirect_index. case_bool_decide as Hr.
  - intros H. destruct (IH H) as (H1 & H2 & H3). split_and!; [done|done|by right].
  - destruct (list_find _ (imap pair out)) as [[i [j t]]|] eqn:E; cbn [fmap option_fmap option_map fst].
    + intros [= <-]. apply list_find_Some in E as (E & [Hj Ht] & _). rewrite list_lookup_imap in E. destruct (out !! i) as [u|] eqn:Eu; [|done]. cbn in E. injection E as <- <-.
      cbn in Hj, Ht |- *. split_and!; [by eapply lookup_lt_Some|done|]. rewrite Ht. left.
    + intros H. destruct (IH H) as (H1 & H2 & H3). split_and!; [done|done|by right].
Qed.
(** The targets of a redirect go behind the current one; those that were there stay, and the next target is
    one of the redirect, at another place than the current. *)
Lemma with_redirects_spec targets index redirects out next : good_targets targets -> 0 <= index -> (targets <> [] -> index < len targets) ->
  sipTargetsWithRedirects targets index redirects = (out, next, true) ->
  good_targets out /\ 0 <= next < len out /\ (targets <> [] -> (exists rest, out = take (S (Z.to_nat index)) targets ++ rest) /\ next <> index) /\
  Forall (fun t => t ∈ out) targets /\ default [] (out !! Z.to_nat next) ∈ TrimSpace <$> redirects.
Proof.
  intros Hg H0 Hi. unfold sipTargetsWithRedirects. case_bool_decide as Hr; [done|]. replace (index <? 0) with false by lia. destruct targets as [|t0 targets'].
  - change (len (@nil bytes)) with 0. replace (0 <=? index) with true by lia. change (0 - 1 <? 0) with true. cbv iota zeta.
    destruct (append_spec [] redirects good_nil) as (H1 & (more & E & Hm) & _). cbn [app] in E. rewrite E in *. case_bool_decide as Hm0; cbn [negb]; [done|]. intros [= <- <-].
    destruct more as [|m more]; [done|]. apply Forall_cons in Hm as [Hm _]. refine (conj H1 (conj _ (conj _ (conj _ Hm)))); [unfold len; cbn; lia|done|constructor].
  - specialize (Hi ltac:(done)). set (targets := t0 :: targets') in *. clearbody targets. clear t0 targets'. replace (len targets <=? index) with false by lia. replace (index <? 0) with false by lia. cbv zeta.
    set (current := Z.to_nat index). rewrite <- (take_drop (S current) targets) in Hg. destruct (good_app _ _ Hg) as [Hg1 _]. rewrite (append_good []) by done. cbn [app].
    destruct (append_spec _ redirects Hg1) as (H1 & (more & E1 & _) & _). destruct (append_spec _ (drop (S current) targets) H1) as (H2 & (more' & E2 & _) & H3).
    destruct (first_redirect _ _ _) as [idx|] eqn:E; [|done]. intros [= <- <-]. apply first_redirect_spec in E as (F1 & F2 & F3). rewrite Nat2Z.id. unfold len. refine (conj H2 (conj _ (conj _ (conj _ F3)))); [split; [lia|exact (inj_lt _ _ F1)]| |].
    + intros _. split; [|lia]. exists (more ++ more'). by rewrite E2, E1, <- app_assoc.
    + rewrite <- (take_drop (S current) targets) at 1. apply Forall_app. split; apply Forall_forall; intros t Ht.
      * rewrite E2, E1. apply elem_of_app. left. apply elem_of_app. by left.
      * apply good_app in Hg as [_ [_ Hg]]. rewrite Forall_forall in Hg. destruct (Hg t Ht) as [Ht1 Ht2]. rewrite <- Ht2. apply H3; [done|by rewrite Ht2].
Qed.

(** ** The invariant of a flow *)
Definition index_ok (targets : list bytes) (index : Z) : Prop := 0 <= index /\ (targets <> [] -> index < len targets).
(** The index stays within the targets; a configured server is the first of them; a connection is to the current one. *)
Record flow_ok (f : WireSIPFlow) : Prop := {
  fo_targets : good_targets (wf_targets f);
  fo_index : index_ok (wf_targets f) (wf_targetIndex f);
  fo_server : wf_targets f = [] \/ TrimSpace (wf_ServerAddr f) = [] \/ head (wf_targets f) = Some (TrimSpace (wf_ServerAddr f));
  fo_conn : wf_conn f = true -> wf_targets f <> [] /\ wf_target f = current_target f;
  fo_closed : wf_closed f = true -> wf_conn f = false
}.
(** What a call may do to the targets: find them when there are none. *)
Definition keeps_targets (f g : WireSIPFlow) : Prop :=
  wf_ServerAddr g = wf_ServerAddr f /\ (wf_targets f <> [] -> wf_targets g = wf_targets f /\ wf_targetIndex g = wf_targetIndex f).
Lemma keeps_refl f : keeps_targets f f.
Proof. split; [done|]. done. Qed.
Lemma keeps_trans f g h : keeps_targets f g -> keeps_targets g h -> keeps_targets f h.
Proof. intros [E1 H1] [E2 H2]. split; [congruence|]. intros Hf. destruct (H1 Hf) as [T1 I1]. destruct H2 as [T2 I2]; [congruence|]. split; congruence. Qed.
Lemma closed_ok f : flow_ok f -> flow_ok (closeConnLocked f) /\ keeps_targets f (closeConnLocked f).
Proof. intros [H1 H2 H3 H4 H5]. split; [by constructor|exact (conj eq_refl (fun _ => conj eq_refl eq_refl))]. Qed.
Lemma in_range targets i : index_ok targets i -> targets <> [] -> (Z.to_nat i < length targets)%nat.
Proof. unfold index_ok, len. intros H Hne. destruct H as [H1 H2]. specialize (H2 Hne). lia. Qed.

Section invariant.
Context {U : UnicodeCase} {T : TextTables} {R : RangeOrder} {N : NetText} {F : FloatText}.
Lemma in_bounds_id f : index_ok (wf_targets f) (wf_targetIndex f) -> wf_targets f <> [] -> in_bounds f = f.
Proof. intros [H1 H2] Hne. unfold in_bounds. specialize (H2 Hne). replace (wf_targetIndex f <? 0) with false by lia. by replace (len (wf_targets f) <=? wf_targetIndex f) with false by lia. Qed.
Lemma in_bounds_zero f targets : in_bounds (set_targets f targets 0) = set_targets f targets 0.
Proof. unfold in_bounds. cbn [wf_targetIndex wf_targets set_targets]. by destruct (_ || _). Qed.
Lemma ensureTargets_ok f network uri f' : flow_ok f -> ensureTargetsLocked f network uri = Ok f' ->
  wf_closed f' = wf_closed f /\ wf_conn f' = wf_conn f /\ wf_target f' = wf_target f /\ keeps_targets f f' /\ good_targets (wf_targets f') /\ index_ok (wf_targets f') (wf_targetIndex f') /\
  (wf_targets f' = [] \/ TrimSpace (wf_ServerAddr f') = [] \/ head (wf_targets f') = Some (TrimSpace (wf_ServerAddr f'))).
Proof.
  intros [H1 H2 H3 H4 H5]. unfold ensureTargetsLocked. set (server := TrimSpace (wf_ServerAddr f)) in *. case_bool_decide as Hs; cbn [negb].
  - case_bool_decide as Ht.
    + destruct (resolveSIPServerAddrs (wf_Resolver f) network uri) as [ts| | |]; [|done..]. intros [= <-]. rewrite in_bounds_zero. destruct (append_spec [] ts good_nil) as (Hg & _).
      cbn [wf_conn wf_target wf_targets wf_targetIndex wf_ServerAddr set_targets]. refine (conj eq_refl (conj eq_refl (conj eq_refl (conj (conj eq_refl _) (conj Hg (conj _ _)))))); [done| |by right; left].
      split; [done|]. unfold len. destruct (appendSIPTargets [] ts); [done|cbn; lia].
    + intros [= <-]. rewrite in_bounds_id by done. by split_and!.
  - destruct (wf_targets f) as [|t ts] eqn:Et.
    + intros [= <-]. rewrite in_bounds_zero. cbn [wf_conn wf_target wf_targets wf_targetIndex wf_ServerAddr set_targets]. fold server.
      refine (conj eq_refl (conj eq_refl (conj eq_refl (conj (conj eq_refl _) (conj _ (conj _ (or_intror (or_intror eq_refl)))))))); [by rewrite Et|split; [apply NoDup_singleton|by repeat constructor; [|apply TrimSpace_idem]]|split; [done|unfold len; cbn; lia]].
    + destruct H3 as [?|[?|H3]]; [done|done|]. cbn [head] in H3. injection H3 as Hh. rewrite bool_decide_true by done. intros [= <-].
      rewrite in_bounds_id by (rewrite Et; done). rewrite Et. split_and!; try done. right; right. cbn. by rewrite Hh.
Qed.
Lemma ensureConn_ok f env uri : flow_ok f ->
  let '(f', r) := ensureConnLocked f env uri in flow_ok f' /\ keeps_targets f f' /\ match r with Ok _ => wf_conn f' = true | Err _ => wf_conn f' = false | _ => True end.
Proof.
  intros Hf. pose proof Hf as [H1 H2 H3 H4 H5]. unfold ensureConnLocked. destruct (wf_closed f) eqn:Ho; [by split_and!; [|apply keeps_refl|apply H5]|].
  assert (Hsame : flow_ok f /\ keeps_targets f f /\ True) by (split_and!; [done|apply keeps_refl|done]).
  assert (Hnet : match sipNetworkForRequest (wf_Network f) uri with Err _ => False | _ => True end).
  { unfold sipNetworkForRequest. destruct (negb _); [done|]. by destruct (parseSIPURIEndpoint uri). }
  destruct (sipNetworkForRequest _ _) as [network| | |]; [|done|exact Hsame..]. clear Hnet. set (network' := if bool_decide _ && _ && _ then _ else _). cbv zeta.
  destruct (wf_conn f && bool_decide (wf_network f = network') && _) eqn:Hc. { split_and!; [done|apply keeps_refl|]. apply andb_prop in Hc as [Hc _]. by apply andb_prop in Hc as [-> _]. }
  destruct (ensureTargetsLocked f network' uri) as [g|e| |] eqn:E; [|split_and!; [done|apply keeps_refl|]|exact Hsame..].
  - destruct (ensureTargets_ok f network' uri g Hf E) as (E0 & E1 & E2 & Hk & Hg & Hi & Hs). destruct (wf_targets g !! Z.to_nat (wf_targetIndex g)) as [target|] eqn:Et.
    + assert (Hne : wf_targets g <> []) by by intros E'; rewrite E' in Et. assert (Hcur : current_target g = target) by (unfold current_target; by rewrite Et).
      destruct (wf_conn g && _ && _) eqn:Hreuse.
      { apply andb_prop in Hreuse as [Hreuse Ht]. apply andb_prop in Hreuse as [Hc' _]. apply bool_decide_eq_true in Ht. split_and!; [|done|done]. constructor; try done; [intros _; split; [done|congruence]|congruence]. }
      destruct (at_dial env); (split_and!; [|exact Hk|done]; constructor; try done; cbn; congruence).
    + assert (Hnil : wf_targets g = []) by (destruct (decide (wf_targets g = [])) as [|Hne]; [done|]; apply lookup_ge_None in Et; pose proof (in_range _ _ Hi Hne); lia).
      assert (Hconn : wf_conn g = false).
      { rewrite E1. destruct (wf_conn f); [|done]. destruct (H4 eq_refl) as [Hne _]. destruct Hk as [_ Hk]. destruct (Hk Hne) as [Hk' _]. congruence. }
      rewrite bool_decide_true by done. split_and!; [|exact Hk|done]. constructor; try done; congruence.
  - destruct (wf_conn f); [|done]. destruct (H4 eq_refl) as [Hne _]. unfold ensureTargetsLocked in E. rewrite (bool_decide_false (wf_targets f = [])) in E by done. by case_bool_decide.
Qed.
Lemma closed_after f g : flow_ok g -> keeps_targets f g -> flow_ok (closeConnLocked g) /\ keeps_targets f (closeConnLocked g).
Proof. intros Hg Hk. destruct (closed_ok g Hg) as [H1 H2]. split; [done|by eapply keeps_trans]. Qed.
Lemma send_attempt_ok f ctx env msg : flow_ok f ->
  let '(f', r) := send_attempt f ctx env msg in (flow_ok f' /\ keeps_targets f f') /\ match r with inr _ => wf_conn f' = true | inl (Answered _ _) => False | inl (Missed _) => wf_conn f' = false | _ => True end.
Proof.
  intros Hf. unfold send_attempt. pose proof (ensureConn_ok f env (sq_URI msg) Hf) as H. destruct (ensureConnLocked f env (sq_URI msg)) as [g r]. destruct H as (Hg & Hk & Hc). pose proof (closed_after f g Hg Hk) as Hclosed.
  unfold missed. destruct r as [network|e| |]; [|by split; [|destruct (ctx_Err _ _)]|done..]. destruct (at_SetDeadline env); [by split; [|destruct (bool_decide _)]|]. cbv zeta.
  destruct (buildSIPRequestWire _ _ _ _); [|done..]. by destruct (at_write env 0%nat); [split; [|destruct (ctx_Err _ _)]|].
Qed.
Lemma try_target_ok fuel f ctx env msg onProvisional : flow_ok f ->
  let '(f', r) := try_target fuel f ctx env msg onProvisional in flow_ok f' /\ keeps_targets f f' /\ match r with Answered _ _ => wf_conn f' = true | Missed _ => wf_conn f' = false | _ => True end.
Proof.
  intros Hf. unfold try_target. pose proof (send_attempt_ok f ctx env msg Hf) as H. destruct (send_attempt f ctx env msg) as [g [r|[network sent]]]; destruct H as ((Hg & Hk) & Hc); [split_and!; try done; by destruct r|].
  destruct (if isSIPStreamNetwork network then _ else _) as [[resp|e| |] ended]; [done| |done..]. destruct (closed_after f g Hg Hk). split_and!; [done|done|]. unfold missed. by destruct (ctx_Err _ _).
Qed.
(** The next target in the ring. *)
Definition next_index (targets : list bytes) (i : Z) : Z := (i + 1) mod len targets.
Lemma advance_ok f f' : flow_ok f -> wf_conn f = false -> advanceTargetLocked f = (f', true) ->
  flow_ok f' /\ wf_conn f' = false /\ wf_ServerAddr f' = wf_ServerAddr f /\ wf_targets f' = wf_targets f /\ wf_targetIndex f' = next_index (wf_targets f) (wf_targetIndex f) /\ 1 < len (wf_targets f).
Proof.
  intros [H1 H2 H3 H4 H5] Hc. unfold advanceTargetLocked. destruct (Z.leb_spec (len (wf_targets f)) 1) as [Hl|Hl]; [done|]. intros [= <-]. pose proof (Z.mod_pos_bound (wf_targetIndex f + 1) (len (wf_targets f)) ltac:(lia)).
  split_and!; [constructor; cbn; [done|split; [lia|intros _; lia]|done|by rewrite Hc|done]|done..].
Qed.
(** A retry of either kind goes to the next target, on a closed connection, and counts. *)
Definition goes_on (f f' : WireSIPFlow) (attempts attempts' : Z) : Prop :=
  flow_ok f' /\ wf_conn f' = false /\ wf_ServerAddr f' = wf_ServerAddr f /\ wf_targets f' = wf_targets f /\ wf_targetIndex f' = next_index (wf_targets f) (wf_targetIndex f) /\
  attempts' = attempts + 1 /\ attempts' < len (wf_targets f) /\ 1 < len (wf_targets f).
Lemma count_targets f : 1 < len (wf_targets f) -> targetCountLocked f = len (wf_targets f).
Proof. unfold targetCountLocked. case_bool_decide as H; [rewrite H; by cbn|done]. Qed.
Lemma shouldRetry_ok f attempts e : flow_ok f -> wf_conn f = false -> 0 <= attempts ->
  let '(f', attempts', retry) := shouldRetry f attempts e in
  if retry then goes_on f f' attempts attempts'
  else f' = f /\ (is_final_timeout e = false -> isSIPRetryableTransportError e = true -> targetCountLocked f <= attempts + 1).
Proof.
  intros Hf Hc Ha. unfold shouldRetry. destruct (is_final_timeout e || negb (isSIPRetryableTransportError e)) eqn:He; [split; [done|intros H1 H2; by rewrite H1, H2 in He]|].
  destruct (Z.leb_spec (targetCountLocked f) (attempts + 1)) as [Hl|Hl]; [done|]. destruct (advanceTargetLocked f) as [g ok] eqn:E. destruct ok.
  - destruct (advance_ok f g Hf Hc E) as (H1 & H2 & H3 & H4 & H5 & H6). rewrite count_targets in Hl by done. by split_and!.
  - unfold advanceTargetLocked in E. destruct (Z.leb_spec (len (wf_targets f)) 1) as [Hl'|Hl']; [|done]. injection E as <-. split; [done|]. intros _ _. unfold targetCountLocked in *. by case_bool_decide; lia.
Qed.
Lemma shouldRetryResponse_ok f done retryStatus attempts resp : flow_ok f -> 0 <= attempts ->
  let '(f', attempts', retry) := shouldRetryResponse f done retryStatus attempts resp in
  if retry then goes_on f f' attempts attempts'
  else (wf_targets f' = wf_targets f /\ flow_ok f') /\ (done = false -> retryStatus (sr_StatusCode resp) = true -> targetCountLocked f <= attempts + 1).
Proof.
  intros Hf Ha. unfold shouldRetryResponse. destruct (done || negb (retryStatus (sr_StatusCode resp))) eqn:He; [split; [done|intros H1 H2; by rewrite H1, H2 in He]|].
  destruct (Z.leb_spec (targetCountLocked f) (attempts + 1)) as [Hl|Hl]; [done|]. destruct (closed_ok f Hf) as [Hf' _]. destruct (advanceTargetLocked (closeConnLocked f)) as [g ok] eqn:E. destruct ok.
  - destruct (advance_ok _ g Hf' eq_refl E) as (H1 & H2 & H3 & H4 & H5 & H6). cbn [closeConnLocked set_conn wf_targets wf_ServerAddr wf_targetIndex] in *. rewrite count_targets in Hl by done. by split_and!.
  - unfold advanceTargetLocked in E. destruct (Z.leb_spec (len (wf_targets (closeConnLocked f))) 1) as [Hl'|Hl']; [|done]. injection E as <-. split; [done|]. intros _ _.
    cbn [closeConnLocked set_conn wf_targets] in Hl'. unfold targetCountLocked in *. by case_bool_decide; lia.
Qed.
(** A redirect puts its targets behind the current one, and goes to one of them. *)
Lemma shouldRedirect_ok f done method redirects resp : flow_ok f -> wf_conn f = true ->
  match shouldRedirectResponse f done method redirects resp with
  | Ok (f', redirects', true) => flow_ok f' /\ wf_conn f' = false /\ wf_ServerAddr f' = wf_ServerAddr f /\ redirects' = redirects + 1 /\ redirects < maxSIPRedirectTargets /\
      (len (wf_targets f) <= len (wf_targets f')) /\ wf_targets f' <> []
  | Ok (f', redirects', false) => f' = f /\ redirects' = redirects
  | _ => True
  end.
Proof.
  intros Hf Hc. unfold shouldRedirectResponse. destruct (done || _ || _ || _) eqn:Hno; [done|]. apply orb_false_elim in Hno as [Hno _]. apply orb_false_elim in Hno as [Hno _]. apply orb_false_elim in Hno as [_ Hno].
  unfold redirectToResponseTargetsLocked. destruct (sipRedirectTargets (sr_Headers resp)) as [redirect| | |]; [|done..].
  destruct (sipTargetsWithRedirects (wf_targets f) (wf_targetIndex f) redirect) as [[out next] ok] eqn:E. destruct ok; [|done]. destruct Hf as [H1 [H2 H2'] H3 H4 H5]. destruct (H4 Hc) as [Hne _].
  destruct (with_redirects_spec _ _ _ _ _ H1 H2 H2' E) as (G1 & G2 & G3 & G4 & _). destruct (G3 Hne) as [[rest Eo] _]. cbn [closeConnLocked set_conn set_targets wf_targets wf_conn wf_ServerAddr].
  assert (Hlen : len (wf_targets f) <= len out).
  { unfold len. apply inj_le. apply submseteq_length, NoDup_submseteq; [by destruct H1|]. intros x Hx. rewrite Forall_forall in G4. by apply G4. }
  assert (Hout : out <> []) by (intros ->; unfold len in G2; cbn in G2; lia). split_and!; try done; [|lia]. constructor; cbn [wf_targets wf_targetIndex wf_ServerAddr wf_conn]; [done|exact (conj (proj1 G2) (fun _ => proj2 G2))| |done|done].
  destruct H3 as [?|[?|H3]]; [done|by right; left|]. right; right. rewrite Eo. by destruct (wf_targets f).
Qed.
End invariant.

(** ** No loop runs out of its fuel *)
Definition fueled {E A} (r : outcome E A) : Prop := match r with OutOfFuel => False | _ => True end.
Lemma fueled_bind {E A B} (r : outcome E A) (k : A -> outcome E B) : fueled r -> (forall a, r = Ok a -> fueled (k a)) -> fueled (bind r k).
Proof. intros Hr Hk. destruct r as [a| | |]; cbn [bind]; try done. by apply Hk. Qed.
Lemma returns_fueled {E A} (r : outcome E A) : returns r -> fueled r.
Proof. by destruct r. Qed.
Lemma slice_fueled {E} (l : bytes) i : fueled (@slice_from E l i).
Proof. unfold slice_from, slice. by repeat case_match. Qed.
Section fuel.
Context {U : UnicodeCase} {T : TextTables} {R : RangeOrder} {N : NetText} {F : FloatText}.
Lemma boundary_fueled value idx : fueled (sipSchemeBoundary value idx).
Proof. unfold sipSchemeBoundary. destruct (idx <=? 0); [done|]. apply fueled_bind; [unfold at_; by repeat case_match|done]. Qed.
Lemma scheme_loop_fueled fuel lower value scheme offset best : 0 <= offset -> (Z.to_nat (len lower - offset) < fuel)%nat -> fueled (scheme_loop fuel lower value scheme offset best).
Proof.
  revert offset. induction fuel as [|fuel IH]; intros offset Ho Hf; [lia|]. cbn [scheme_loop]. destruct (Z.leb_spec (len lower) offset) as [|Hlt]; [done|].
  destruct (cut_on scheme (drop (Z.to_nat offset) lower)) as [[before after]|]; [|done]. apply fueled_bind; [apply boundary_fueled|]. intros b _. destruct (_ && _); [done|].
  apply IH; unfold len in *; lia.
Qed.
Lemma scheme_index_fueled value : fueled (sipURISchemeIndex value).
Proof.
  unfold sipURISchemeIndex. apply fueled_bind; [apply scheme_loop_fueled; unfold len; lia|]. intros best _. apply scheme_loop_fueled; unfold len; lia.
Qed.
Lemma header_part_fueled value : fueled (sipURIFromHeaderPart value).
Proof.
  unfold sipURIFromHeaderPart. case_bool_decide; [done|]. destruct (hasSIPURIScheme _); [done|]. destruct (cut_at _ _) as [[? ?]|]; [done|]. destruct (hasSIPURIScheme _); [done|].
  apply fueled_bind; [apply scheme_index_fueled|]. intros idx _. destruct (0 <=? idx); [apply fueled_bind; [apply slice_fueled|done]|by case_match].
Qed.
Lemma uri_loop_fueled parts first : fueled (uri_loop parts first).
Proof.
  revert first. induction parts as [|part parts IH]; intros first; [done|]. cbn [uri_loop]. apply fueled_bind; [apply header_part_fueled|]. intros [uri sip] _. case_bool_decide; [done|]. destruct sip; [done|]. apply IH.
Qed.
Lemma endpoint_fueled uri : fueled (parseSIPURIEndpoint uri).
Proof.
  unfold parseSIPURIEndpoint. apply fueled_bind; [unfold extractSIPURIForEndpoint; case_bool_decide; [done|apply uri_loop_fueled]|]. intros u _. case_bool_decide; [done|].
  apply fueled_bind; [destruct (strings_HasPrefix _ _); [apply fueled_bind; [apply slice_fueled|done]|]; destruct (strings_HasPrefix _ _); [apply fueled_bind; [apply slice_fueled|done]|done]|].
  intros [rest secure] _. apply fueled_bind; [unfold endpoint_host_port; by repeat case_match|]. intros [[host port] explicit] _. by case_bool_decide.
Qed.
Lemma contacts_fueled values contacts : fueled (contacts_loop values contacts).
Proof.
  revert contacts. induction values as [|v values IH]; intros contacts; [done|]. cbn [contacts_loop]. destruct (sipContactExpired v); [done|]. destruct (_ || _); [done|].
  assert (H : fueled (sipURIAddr (extractAddressURI v))) by (apply fueled_bind; [apply endpoint_fueled|done]). by destruct (sipURIAddr _).
Qed.
Lemma redirects_fueled h : fueled (sipRedirectTargets h).
Proof. unfold sipRedirectTargets. apply fueled_bind; [apply contacts_fueled|done]. Qed.
Lemma network_fueled network uri : fueled (sipNetworkForRequest network uri).
Proof. unfold sipNetworkForRequest. destruct (negb _); [done|]. pose proof (endpoint_fueled uri) as H. by destruct (parseSIPURIEndpoint uri). Qed.
Lemma resolve_fueled resolver network uri : fueled (resolveSIPServerAddrs resolver network uri).
Proof.
  destruct resolver as [dns|f|f]; cbn [resolveSIPServerAddrs]; [|by destruct (f network uri)..]. unfold ResolveSIPServers. apply fueled_bind; [apply endpoint_fueled|]. intros e _.
  destruct (_ || _); [done|]. cbv zeta. case_bool_decide; [|done]. by destruct (nr_RequireResolvedIP _).
Qed.
Lemma ensureTargets_fueled f network uri : fueled (ensureTargetsLocked f network uri).
Proof.
  unfold ensureTargetsLocked. destruct (negb _); [done|]. case_bool_decide; [|done]. pose proof (resolve_fueled (wf_Resolver f) network uri) as Hr. by destruct (resolveSIPServerAddrs _ _ _).
Qed.
Lemma ensureConn_fueled f env uri : fueled (ensureConnLocked f env uri).2.
Proof.
  unfold ensureConnLocked. destruct (wf_closed f); [done|]. pose proof (network_fueled (wf_Network f) uri) as Hn. destruct (sipNetworkForRequest _ _) as [network| | |]; try done. cbv zeta.
  destruct (wf_conn f && _ && _); [done|]. set (network' := if bool_decide _ && _ && _ then _ else _). pose proof (ensureTargets_fueled f network' uri) as Ht.
  destruct (ensureTargetsLocked f network' uri) as [g| | |]; try done. destruct (wf_targets g !! _); [|by case_bool_decide]. destruct (wf_conn g && _ && _); [done|]. by destruct (at_dial env).
Qed.
(** *** A connection panics only when its URI does *)
Lemma network_panics network uri : sipNetworkForRequest network uri = Panic -> parseSIPURIEndpoint uri = Panic.
Proof. unfold sipNetworkForRequest. destruct (negb _); [done|]. by destruct (parseSIPURIEndpoint uri). Qed.
Lemma resolve_panics resolver network uri : resolveSIPServerAddrs resolver network uri = Panic -> parseSIPURIEndpoint uri = Panic.
Proof.
  destruct resolver as [dns|f|f]; cbn [resolveSIPServerAddrs]; [|by destruct (f network uri)..]. unfold ResolveSIPServers. destruct (parseSIPURIEndpoint uri) as [e| | |]; cbn [bind]; try done.
  destruct (_ || _); [done|]. cbv zeta. case_bool_decide; [|done]. by destruct (nr_RequireResolvedIP _).
Qed.
Lemma ensureTargets_panics f network uri : ensureTargetsLocked f network uri = Panic -> parseSIPURIEndpoint uri = Panic.
Proof.
  unfold ensureTargetsLocked. destruct (negb _); [done|]. case_bool_decide; [|done]. pose proof (resolve_panics (wf_Resolver f) network uri) as Hr.
  destruct (resolveSIPServerAddrs _ _ _); try done. intros _. by apply Hr.
Qed.
Lemma ensureConn_panics f env uri : flow_ok f -> (ensureConnLocked f env uri).2 = Panic -> parseSIPURIEndpoint uri = Panic.
Proof.
  intros Hf. unfold ensureConnLocked. destruct (wf_closed f); [done|]. pose proof (network_panics (wf_Network f) uri) as Hn. destruct (sipNetworkForRequest _ _) as [network| | |]; try done; [|intros _; by apply Hn]. cbv zeta.
  destruct (wf_conn f && _ && _); [done|]. set (network' := if bool_decide _ && _ && _ then _ else _). pose proof (ensureTargets_panics f network' uri) as Ht.
  destruct (ensureTargetsLocked f network' uri) as [g| | |] eqn:E; try done; [|intros _; by apply Ht].
  destruct (ensureTargets_ok f network' uri g Hf E) as (_ & _ & _ & _ & _ & Hi & _).
  destruct (wf_targets g !! Z.to_nat (wf_targetIndex g)) as [target|] eqn:Et; [destruct (wf_conn g && _ && _); [done|]; by destruct (at_dial env)|].
  case_bool_decide as Hne; [done|]. apply lookup_ge_None in Et. pose proof (in_range _ _ Hi Hne). lia.
Qed.
End fuel.

(** ** The loops that wait for a response *)
Section waiting.
Context {U : UnicodeCase} {T : TextTables} {R : RangeOrder}.
Ltac by_handler handler :=
  match goal with |- context [match (if ?b then ?h else None) with Some _ => _ | None => _ end] => destruct (if b then h else None) as [handler|] end.
(** A read takes a datagram, or meets the end of the context, or lasts until its deadline. *)
Definition progress (ctx : context) (d : Z) (w w' : wire) : Prop :=
  wi_now w <= wi_now w' /\ (length (wi_queue w') <= length (wi_queue w))%nat /\
  ((length (wi_queue w') < length (wi_queue w))%nat \/ ctx_Err ctx (wi_now w') <> None \/ d <= wi_now w').
Lemma foldr_min d l : foldr Z.min d l <= d /\ Forall (fun x => foldr Z.min d l <= x) l.
Proof.
  induction l as [|x l [IH1 IH2]]; cbn; [split; [lia|constructor]|]. split; [lia|]. constructor; [lia|]. eapply Forall_impl; [exact IH2|]. cbn. lia.
Qed.
Lemma foldr_min_lower d l m : m <= d -> Forall (fun x => m <= x) l -> m <= foldr Z.min d l.
Proof. intros Hd Hl. induction Hl; cbn; lia. Qed.
Lemma select_ready_spec ctx pick d w : wi_now w < d ->
  let '(t, case) := select_ready ctx pick d w in
  wi_now w <= t <= d /\ match case with ContextDone => ctx_Err ctx t <> None | TimerFires => t = d | PacketReady => wi_queue w <> [] end.
Proof.
  intros Hd. unfold select_ready. set (done := match cx_done ctx with Some t => _ | None => [] end). set (queue := match wi_queue w with (t, _) :: _ => _ | [] => [] end).
  set (cases := done ++ [(d, TimerFires)] ++ queue). set (first := foldr Z.min d cases.*1). set (ready := List.filter _ cases). destruct (ready !! _) as [[t case]|] eqn:E; cbn [default]; [|lia].
  apply list_elem_of_lookup_2, list_elem_of_In, filter_In in E as [Hin Ht]. cbn [fst] in Ht. apply Z.eqb_eq in Ht. subst t. apply list_elem_of_In in Hin.
  assert (Hlow : wi_now w <= first).
  { apply foldr_min_lower; [lia|]. unfold cases. rewrite !fmap_app. apply Forall_app. split; [unfold done; destruct (cx_done ctx); repeat constructor; cbn; lia|].
    apply Forall_app. split; [repeat constructor; cbn; lia|]. unfold queue. destruct (wi_queue w) as [|[t p] rest]; repeat constructor; cbn; lia. }
  split; [split; [done|apply foldr_min]|]. apply elem_of_app in Hin as [Hin|[Hin|Hin]%elem_of_app].
  - unfold done in Hin. destruct (cx_done ctx) as [c|] eqn:Ec; [|by apply elem_of_nil in Hin]. apply list_elem_of_singleton in Hin. injection Hin as Hf ->. unfold ctx_Err. rewrite Ec. by replace (c <=? first) with true by lia.
  - apply list_elem_of_singleton in Hin. by injection Hin as Hf ->.
  - unfold queue in Hin. destruct (wi_queue w) as [|[t p] rest]; [by apply elem_of_nil in Hin|]. apply list_elem_of_singleton in Hin. by injection Hin as Hf ->.
Qed.
Lemma read_progress ctx external pick d w : let '(w', r) := readSIPFlowUDPDatagram ctx external pick d w in
  progress ctx d w w' /\ match r with Ok _ => (length (wi_queue w') < length (wi_queue w))%nat | Err _ => True | _ => False end.
Proof.
  unfold readSIPFlowUDPDatagram, progress. destruct w as [now queue]. destruct external; cbn [negb wi_now wi_queue].
  - destruct (Z.leb_spec d now) as [Hd|Hd]; [cbn; split; [split_and!; [lia..|by right; right]|done]|]. pose proof (select_ready_spec ctx pick d (mkWire now queue) Hd) as H.
    destruct (select_ready ctx pick d (mkWire now queue)) as [t case]. cbn [wi_now wi_queue] in H. destruct H as [Ht Hc]. destruct case.
    + cbn. split; [split_and!; [lia..|by right; left]|done].
    + subst t. cbn. split; [split_and!; [lia..|right; right; lia]|done].
    + destruct queue as [|[u p] rest]; [done|]. cbn. split; [split_and!; [lia..|left; lia]|]. destruct p; cbn; [lia|done].
  - unfold conn_Read. cbn [wi_now wi_queue]. destruct (Z.leb_spec d now) as [Hd|Hd]; [cbn; split; [split_and!; [lia..|by right; right]|done]|]. destruct queue as [|[t p] rest].
    + cbn. split; [split_and!; [lia..|right; right; lia]|done].
    + destruct (t <? d); cbn; (split; [split_and!; [lia..|]|]); [left; lia|by destruct p; cbn; [lia|]|right; right; lia|done].
Qed.
Lemma udp_loop_ends fuel c s : (length (wi_queue (us_wire s)) + Z.to_nat (uc_deadline c - wi_now (us_wire s)) < fuel)%nat -> fueled (udp_loop fuel c s).2.
Proof.
  revert s. induction fuel as [|fuel IH]; intros s Hf; [lia|]. cbn [udp_loop]. set (ri := if us_retransmitExhausted s || _ then _ else _). cbv zeta.
  set (d := nextSIPReadDeadline (wi_now (us_wire s)) (uc_deadline c) ri). pose proof (read_progress (uc_ctx c) (uc_external c) (uc_pick c) d (us_wire s)) as Hp.
  assert (Hd : wi_now (us_wire s) < uc_deadline c -> wi_now (us_wire s) < d) by (intros H; apply (next_deadline _ _ ri H)). clearbody d. clear ri.
  destruct (readSIPFlowUDPDatagram _ _ _ _ _) as [w' r]. destruct Hp as [(Hn & Hl & Hor) Hr]. destruct r as [raw|err| |]; try done.
  - destruct (negb (isSIPResponseWire raw)); [apply IH; cbn; lia|]. destruct (parsers_return raw (wi_now w')) as [_ Hparse]. destruct (ParseSIPResponse raw (wi_now w')) as [resp| | |]; try done.
    destruct (negb (sipResponseMatchesRequest _ _)); [apply IH; cbn; lia|]. destruct (ct_Final _ && _); [exact I|].
    by_handler handler; [destruct (handler _ _); [exact I|]|]; apply IH; cbn; lia.
  - destruct (ctx_Err (uc_ctx c) (wi_now w')) eqn:Ec; [done|]. destruct (_ || _) eqn:Hgo; [done|]. apply orb_false_elim in Hgo as [_ Hgo].
    assert (Hm : (length (wi_queue w') + Z.to_nat (uc_deadline c - wi_now w') < length (wi_queue (us_wire s)) + Z.to_nat (uc_deadline c - wi_now (us_wire s)))%nat).
    { destruct Hor as [H|[H|H]]; [lia|done|]. assert (Hnow : wi_now (us_wire s) < uc_deadline c) by lia. specialize (Hd Hnow). lia. }
    destruct (negb _ && _); [destruct (uc_write c _); [done|]; apply IH; cbn; lia|]. destruct (_ || _); [apply IH; cbn; lia|done].
Qed.
Lemma udp_loop_more fuel fuel' c s : (fuel <= fuel')%nat -> fueled (udp_loop fuel c s).2 -> udp_loop fuel' c s = udp_loop fuel c s.
Proof.
  revert fuel' s. induction fuel as [|fuel IH]; intros fuel' s Hf; [done|]. destruct fuel' as [|fuel']; [lia|]. cbn [udp_loop]. cbv zeta.
  destruct (readSIPFlowUDPDatagram _ _ _ _ _) as [w' [raw|err| |]]; try done.
  - destruct (negb (isSIPResponseWire raw)); [apply IH; lia|]. destruct (ParseSIPResponse raw (wi_now w')) as [resp| | |]; try done.
    destruct (negb _); [apply IH; lia|]. destruct (_ && _); [done|]. destruct (if _ && _ then _ else _) as [handler|]; [destruct (handler _ _); [done|]|]; apply IH; lia.
  - destruct (ctx_Err (uc_ctx c) (wi_now w')); [done|]. destruct (_ || _); [done|]. destruct (negb _ && _); [destruct (uc_write c _); [done|]; apply IH; lia|]. destruct (_ || _); [apply IH; lia|done].
Qed.
Lemma head_shorter fuel raw stream head rest : read_head_loop fuel raw stream = Ok (head, rest) -> (length rest < length stream)%nat.
Proof.
  revert raw stream. induction fuel as [|fuel IH]; intros raw stream; [done|]. cbn [read_head_loop]. destruct (read_line stream) as [[line rest']|] eqn:E; [|done].
  apply read_line_split in E as (-> & l & -> & _). rewrite !length_app. cbn. assert (Hr : forall raw', read_head_loop fuel raw' rest' = Ok (head, rest) -> (length rest < length l + 1 + length rest')%nat) by (intros raw' H; apply IH in H; lia).
  destruct (_ && _); [apply Hr|]. cbv zeta. destruct (_ || _); [|apply Hr]. intros [= _ <-]. lia.
Qed.
Lemma head_suffix fuel raw stream head rest : read_head_loop fuel raw stream = Ok (head, rest) -> exists before, stream = before ++ rest.
Proof.
  revert raw stream. induction fuel as [|fuel IH]; intros raw stream; [done|]. cbn [read_head_loop]. destruct (read_line stream) as [[line rest']|] eqn:E; [|done].
  apply read_line_split in E as (-> & _). assert (Hr : forall raw', read_head_loop fuel raw' rest' = Ok (head, rest) -> exists before, line ++ rest' = before ++ rest).
  { intros raw' (before & ->)%IH. exists (line ++ before). by rewrite app_assoc. }
  destruct (_ && _); [apply Hr|]. cbv zeta. destruct (_ || _); [|apply Hr]. intros [= _ <-]. by exists line.
Qed.
(** Somewhere in the stream a head declares a body that is longer than what [make] can allocate. *)
Definition huge_body (stream : bytes) : Prop :=
  exists before behind head rest n, stream = before ++ behind /\ read_head_loop (S (length behind)) [] behind = Ok (head, rest) /\ declared head = Some n /\ maxAlloc < n.
Lemma huge_body_behind before stream : huge_body stream -> huge_body (before ++ stream).
Proof. intros (b & behind & head & rest & n & -> & H). exists (before ++ b), behind, head, rest, n. by rewrite app_assoc. Qed.
Lemma stream_message_panics stream : match readSIPStreamMessage stream with Ok (_, rest) => exists before, stream = before ++ rest | Panic => huge_body stream | _ => True end.
Proof.
  unfold readSIPStreamMessage. destruct (read_head_loop_returns (S (length stream)) [] stream ltac:(lia)) as [[e ->]|(head & rest & E & Ht)]; [done|]. rewrite E. cbn [bind]. specialize (Ht ltac:(by left)).
  pose proof (head_suffix _ _ _ _ _ E) as [before Hb]. pose proof (split_returns head) as Hs. destruct (splitSIPMessage head) as [hb| | |] eqn:Es; try done. cbn [bind].
  pose proof (head_has_lines head hb Ht Es) as Hne. destruct (splitHeaderLines hb.1) as [|first lines] eqn:El; [done|]. pose proof (parse_headers_returns lines ∅) as Hp. change (parse_headers_loop lines ∅) with (parseSIPHeaders lines) in Hp.
  destruct (parseSIPHeaders lines) as [h| | |] eqn:Eh; try done. cbn [bind].
  pose proof (strict_length_returns h) as Hl. destruct (strictContentLength h) as [[n seen]| | |] eqn:En; try done. cbn [bind fst snd]. destruct (seen && _) eqn:Hseen; [|by exists before].
  apply andb_prop in Hseen as [-> Hn]. unfold read_body. destruct (Z.ltb_spec maxAlloc n) as [Hbig|Hsmall].
  - cbn [bind]. exists [], stream, head, rest, n. split_and!; [done|done| |done]. unfold declared. rewrite Es, El. cbn [tail]. by rewrite Eh, En.
  - destruct (len rest <? n); [destruct (len rest =? 0); exact I|]. cbn. exists (before ++ take (Z.to_nat n) rest). by rewrite <- app_assoc, take_drop.
Qed.
Lemma stream_message_shorter stream : match readSIPStreamMessage stream with Ok (raw, rest) => (length rest < length stream)%nat | OutOfFuel => False | _ => True end.
Proof.
  unfold readSIPStreamMessage. destruct (read_head_loop_returns (S (length stream)) [] stream ltac:(lia)) as [[e ->]|(head & rest & E & _)]; [done|]. rewrite E. cbn [bind]. apply head_shorter in E.
  pose proof (split_returns head) as Hs. destruct (splitSIPMessage head) as [hb| | |]; try done. cbn [bind]. destruct (splitHeaderLines hb.1) as [|first lines]; [done|].
  pose proof (parse_headers_returns lines ∅) as Hp. unfold parseSIPHeaders. destruct (parse_headers_loop lines ∅) as [h| | |]; try done. cbn [bind].
  pose proof (strict_length_returns h) as Hl. destruct (strictContentLength h) as [[n seen]| | |]; try done. cbn [bind fst snd]. destruct (seen && _); [|done].
  unfold read_body. destruct (_ <? n); [done|]. destruct (_ <? n); [by destruct (_ =? _)|]. cbn. rewrite length_drop. lia.
Qed.
Lemma stream_loop_ends fuel msg h ends now stream reported got : (length stream < fuel)%nat -> fueled (stream_loop fuel msg h ends now stream reported got).1.
Proof.
  revert stream reported got. induction fuel as [|fuel IH]; intros stream reported got Hf; [lia|]. cbn [stream_loop]. pose proof (stream_message_shorter stream) as Hs.
  destruct (readSIPStreamMessage stream) as [[raw rest]| | |]; try done. destruct (parsers_return raw now) as [_ Hparse]. destruct (ParseSIPResponse raw now) as [resp| | |]; try done.
  destruct (negb _); [apply IH; lia|]. destruct (negb _); [done|]. by_handler handler; [destruct (handler _ _); [done|]|]; apply IH; lia.
Qed.
Lemma stream_loop_panics fuel msg h ends now stream reported got : (stream_loop fuel msg h ends now stream reported got).1 = Panic -> huge_body stream.
Proof.
  revert stream reported got. induction fuel as [|fuel IH]; intros stream reported got; [done|]. cbn [stream_loop]. pose proof (stream_message_panics stream) as Hs.
  destruct (readSIPStreamMessage stream) as [[raw rest]| | |]; try done. destruct Hs as [before ->]. assert (Hr : forall reported' got', (stream_loop fuel msg h ends now rest reported' got').1 = Panic -> huge_body (before ++ rest))
    by (intros reported' got' H; by eapply huge_body_behind, IH).
  destruct (parsers_return raw now) as [_ Hparse]. destruct (ParseSIPResponse raw now) as [resp| | |]; try done.
  destruct (negb _); [apply Hr|]. destruct (negb _); [done|]. by_handler handler; [destruct (handler _ _); [done|]|]; apply Hr.
Qed.
(** Reading datagrams never panics. *)
Definition no_panic {E A} (r : outcome E A) : Prop := match r with Panic => False | _ => True end.
Lemma udp_loop_no_panic fuel c s : no_panic (udp_loop fuel c s).2.
Proof.
  revert s. induction fuel as [|fuel IH]; intros s; [exact I|]. cbn [udp_loop]. cbv zeta. set (d := nextSIPReadDeadline _ _ _). clearbody d. pose proof (read_progress (uc_ctx c) (uc_external c) (uc_pick c) d (us_wire s)) as Hp.
  destruct (readSIPFlowUDPDatagram _ _ _ _ _) as [w' r]. destruct Hp as [_ Hr]. destruct r as [raw|err| |]; try done.
  - destruct (negb (isSIPResponseWire raw)); [apply IH|]. destruct (parsers_return raw (wi_now w')) as [_ Hparse]. destruct (ParseSIPResponse raw (wi_now w')) as [resp| | |]; try done.
    destruct (negb (sipResponseMatchesRequest _ _)); [apply IH|]. destruct (ct_Final _ && _); [exact I|]. by_handler handler; [destruct (handler _ _); [exact I|]|]; apply IH.
  - destruct (ctx_Err (uc_ctx c) (wi_now w')); [exact I|]. destruct (negb (isSIPTimeout err) || _); [exact I|]. destruct (negb _ && _); [destruct (uc_write c _); [exact I|]; apply IH|]. destruct (_ || _); [apply IH|exact I].
Qed.
Lemma stream_loop_more fuel fuel' msg h ends now stream reported got : (fuel <= fuel')%nat -> fueled (stream_loop fuel msg h ends now stream reported got).1 ->
  stream_loop fuel' msg h ends now stream reported got = stream_loop fuel msg h ends now stream reported got.
Proof.
  revert fuel' stream reported got. induction fuel as [|fuel IH]; intros fuel' stream reported got Hf; [done|]. destruct fuel' as [|fuel']; [lia|]. cbn [stream_loop].
  destruct (readSIPStreamMessage stream) as [[raw rest]| | |]; try done. destruct (ParseSIPResponse raw now) as [resp| | |]; try done.
  destruct (negb _); [apply IH; lia|]. destruct (negb _); [done|]. by_handler handler; [destruct (handler _ _); [done|]|]; apply IH; lia.
Qed.
End waiting.

(** ** The ring of targets *)
Definition ring_at (targets : list bytes) (i : Z) (k : nat) : bytes := default [] (targets !! Z.to_nat ((i + Z.of_nat k) mod len targets)).
Definition ring (targets : list bytes) (i : Z) (m : nat) : list bytes := ring_at targets i <$> seq 0 m.
Lemma ring_lookup targets i k : targets <> [] -> targets !! Z.to_nat ((i + Z.of_nat k) mod len targets) = Some (ring_at targets i k).
Proof.
  intros Hne. assert (Hn : 0 < len targets) by (unfold len; destruct targets; [done|cbn; lia]). pose proof (Z.mod_pos_bound (i + Z.of_nat k) (len targets) Hn) as Hb. unfold ring_at.
  set (x := (i + Z.of_nat k) mod len targets) in *. clearbody x. destruct (lookup_lt_is_Some_2 targets (Z.to_nat x)) as [t Ht]; [unfold len in Hb; lia|]. by rewrite Ht.
Qed.
Lemma same_residue n i j k : 0 <= j < n -> 0 <= k < n -> (i + j) mod n = (i + k) mod n -> j = k.
Proof.
  intros Hj Hk H. pose proof (Z.div_mod (i + j) n ltac:(lia)) as E1. pose proof (Z.div_mod (i + k) n ltac:(lia)) as E2. rewrite H in E1.
  set (q1 := (i + j) / n) in *. set (q2 := (i + k) / n) in *. assert (q1 = q2) by nia. nia.
Qed.
Lemma ring_nodup targets i m : NoDup targets -> (m <= length targets)%nat -> NoDup (ring targets i m).
Proof.
  intros Hn Hm. apply NoDup_fmap_2_strong; [|apply NoDup_seq]. intros j k Hj%elem_of_seq Hk%elem_of_seq E. assert (Hne : targets <> []) by (destruct targets; [cbn in *; lia|done]).
  pose proof (ring_lookup targets i j Hne) as Ej. pose proof (ring_lookup targets i k Hne) as Ek. rewrite E in Ej. pose proof (NoDup_lookup _ _ _ _ Hn Ej Ek) as Heq.
  assert (H0 : 0 < len targets) by (unfold len; lia). pose proof (Z.mod_pos_bound (i + Z.of_nat j) (len targets) H0). pose proof (Z.mod_pos_bound (i + Z.of_nat k) (len targets) H0).
  apply Nat2Z.inj, (same_residue (len targets) i); [unfold len; lia..|]. apply Z2Nat.inj; lia.
Qed.
Lemma ring_all targets i : NoDup targets -> ring targets i (length targets) ≡ₚ targets.
Proof.
  intros Hn. apply submseteq_length_Permutation; [|unfold ring; by rewrite length_fmap, length_seq]. apply NoDup_submseteq; [by apply ring_nodup|]. intros x Hx. apply list_elem_of_fmap in Hx as (k & -> & Hk%elem_of_seq).
  apply (list_elem_of_lookup_2 _ (Z.to_nat ((i + Z.of_nat k) mod len targets))). apply ring_lookup. destruct targets; [cbn in *; lia|done].
Qed.
Lemma ring_S targets i m : ring targets i (S m) = ring targets i m ++ [ring_at targets i m].
Proof. unfold ring. by rewrite seq_S, fmap_app. Qed.

(** ** Round trips *)
Section round_trip.
Context {U : UnicodeCase} {T : TextTables} {R : RangeOrder} {N : NetText} {F : FloatText}.
Variables (ctx : context) (env : nat -> attempt) (msg : SIPRequestMessage) (onProvisional : option ProvisionalResponseHandler) (retryStatus : Z -> bool).
Abbreviation try fuel f k := (try_target fuel f ctx (env k) msg onProvisional).
Abbreviation trip := (fun fuel k f attempts redirects tried => round_trip_loop fuel ctx env msg onProvisional retryStatus k f attempts redirects tried).
Definition settled (r : attempt_result) : Prop := match r with Over r => fueled r | _ => True end.
Lemma build_error m transport address random : match buildSIPRequestWire m transport address random with Ok _ => True | Err e => exists text, e = ErrText text | _ => False end.
Proof. unfold buildSIPRequestWire. case_bool_decide; [by eexists|]. case_bool_decide; [by eexists|]. exact I. Qed.
Lemma send_settled f k : match (send_attempt f ctx (env k) msg).2 with inl r => settled r | inr _ => True end.
Proof.
  unfold send_attempt. pose proof (ensureConn_fueled f (env k) (sq_URI msg)) as H. destruct (ensureConnLocked f (env k) (sq_URI msg)) as [g [network|e| |]]; cbn [snd] in *; try done; [|unfold missed; by destruct (ctx_Err _ _)].
  destruct (at_SetDeadline (env k)); [cbn; by destruct (bool_decide _)|]. cbv zeta. pose proof (build_error (ensureSIPRequestVia msg (transportName network) (at_address (env k)) (at_random (env k))) (transportName network) (at_address (env k)) (at_random (env k))) as Hb.
  destruct (buildSIPRequestWire _ _ _ _); try done. destruct (at_write (env k) 0%nat); [cbn; unfold missed; by destruct (ctx_Err _ _)|done].
Qed.
Lemma try_more fuel fuel' f k : (fuel <= fuel')%nat -> settled (try fuel f k).2 -> try fuel' f k = try fuel f k.
Proof.
  intros Hf. unfold try_target. destruct (send_attempt f ctx (env k) msg) as [g [r|[network sent]]]; [done|]. unfold readFinalSIPFlowResponse, readUDPResponseLocked. set (c := udp_call_of _ _ _ _ _). set (w := mkWire _ _).
  destruct (isSIPStreamNetwork network).
  - intros H. rewrite (stream_loop_more fuel fuel'); [done|lia|]. by destruct (stream_loop _ _ _ _ _ _ _ _) as [[| | |] ?].
  - intros H. rewrite (udp_loop_more fuel fuel'); [done|lia|]. by destruct (udp_loop _ _ _) as [? [| | |]].
Qed.
Lemma try_ends f k : exists fuel, settled (try fuel f k).2.
Proof.
  set (fuel := S (length (at_datagrams (env k)) + Z.to_nat (at_now (env k) + flow_timeout (send_attempt f ctx (env k) msg).1 - at_now (env k)) + length (at_stream (env k)))). exists fuel.
  unfold try_target. pose proof (send_settled f k) as Hs. destruct (send_attempt f ctx (env k) msg) as [g [r|[network sent]]]; cbn [fst snd] in *; [done|]. unfold readFinalSIPFlowResponse, readUDPResponseLocked.
  destruct (isSIPStreamNetwork network).
  - pose proof (stream_loop_ends fuel sent onProvisional (at_stream_ends (env k)) (at_stream_now (env k)) (at_stream (env k)) [] false ltac:(lia)) as H.
    destruct (stream_loop _ _ _ _ _ _ _ _) as [[| | |] ?]; cbn in *; try done. unfold missed. by destruct (ctx_Err _ _).
  - set (c := udp_call_of _ _ _ _ _). pose proof (udp_loop_ends fuel c (udp_start c (mkWire (at_now (env k)) (at_datagrams (env k)))) ltac:(cbn; lia)) as H.
    destruct (udp_loop _ _ _) as [s [| | |]]; cbn in *; try done. unfold missed. by destruct (ctx_Err _ _).
Qed.
Lemma redirect_fueled f done redirects resp : fueled (shouldRedirectResponse f done (sq_Method msg) redirects resp).
Proof.
  unfold shouldRedirectResponse. destruct (_ || _); [done|]. unfold redirectToResponseTargetsLocked. pose proof (redirects_fueled (sr_Headers resp)) as H.
  destruct (sipRedirectTargets _) as [l| | |]; try done. destruct (sipTargetsWithRedirects _ _ _) as [[out next] ok]. by destruct ok.
Qed.
Lemma trip_more fuel fuel' k f attempts redirects tried : (fuel <= fuel')%nat -> fueled (trip fuel k f attempts redirects tried).2 ->
  trip fuel' k f attempts redirects tried = trip fuel k f attempts redirects tried.
Proof.
  revert fuel' k f attempts redirects tried. induction fuel as [|fuel IH]; intros fuel' k f attempts redirects tried Hf; [done|]. destruct fuel' as [|fuel']; [lia|]. cbn [round_trip_loop]. intros H.
  assert (E : try fuel' f k = try fuel f k). { apply try_more; [lia|]. destruct (try fuel f k) as [g [| |[]]]; done. } rewrite E. destruct (try fuel f k) as [g [ended resp|e|r]]; [| |done].
  - destruct (shouldRedirectResponse g ended _ redirects resp) as [[[g' rd'] [|]]| | |]; try done; [apply IH; [lia|done]|]. destruct (shouldRetryResponse _ _ _ _ _) as [[g'' a'] [|]]; [apply IH; [lia|done]|done].
  - destruct (shouldRetry g attempts e) as [[g' a'] [|]]; [apply IH; [lia|done]|done].
Qed.
(** With redirects left, targets to be found, or targets to be tried, the loop goes on for finitely many turns. *)
Lemma trip_ends left fresh rest k f attempts redirects tried : flow_ok f -> 0 <= attempts -> (Z.to_nat (maxSIPRedirectTargets - redirects) <= left)%nat ->
  (wf_targets f = [] -> fresh = 1%nat) -> (Z.to_nat (len (wf_targets f) - attempts) <= rest)%nat ->
  exists fuel, fueled (trip fuel k f attempts redirects tried).2.
Proof.
  revert fresh rest k f attempts redirects tried. induction left as [left IHleft] using lt_wf_ind. intros fresh. induction fresh as [fresh IHfresh] using lt_wf_ind. intros rest. induction rest as [rest IHrest] using lt_wf_ind.
  intros k f attempts redirects tried Hf Ha Hl Hfresh Hr. destruct (try_ends f k) as [fuel0 H0]. pose proof (try_target_ok fuel0 f ctx (env k) msg onProvisional Hf) as Hok. destruct (try fuel0 f k) as [g r] eqn:E. destruct Hok as (Hg & Hk & Hc).
  (* a turn that goes on, with what is left after it *)
  assert (Hturn : forall g' attempts' redirects', (exists fuel, fueled (trip fuel (S k) g' attempts' redirects' (tried ++ [current_target g])).2) ->
    exists fuel, (fuel0 <= fuel)%nat /\ fueled (trip fuel (S k) g' attempts' redirects' (tried ++ [current_target g])).2).
  { intros g' a' r' [fuel H]. exists (Nat.max fuel0 fuel). split; [lia|]. rewrite (trip_more fuel); [done|lia|done]. }
  assert (Hstep : forall fuel, (fuel0 <= fuel)%nat -> try fuel f k = (g, r)) by (intros fuel Hfuel; rewrite <- E; apply try_more; [done|by rewrite E]).
  assert (Hretry : forall g0 g' attempts', wf_targets g0 = wf_targets g -> goes_on g0 g' attempts attempts' ->
    exists fuel, fueled (trip fuel (S k) g' attempts' redirects (tried ++ [current_target g])).2).
  { intros g0 g' a' Et (G1 & G2 & G3 & G4 & _ & -> & G7 & G8). rewrite Et in G4, G7, G8. assert (Hne : wf_targets g' <> []) by (rewrite G4; intros E'; rewrite E' in G8; by cbn in G8).
    destruct (decide (wf_targets f = [])) as [Hnil|Hnil].
    - apply (IHfresh 0%nat ltac:(rewrite Hfresh by done; lia) (Z.to_nat (len (wf_targets g') - (attempts + 1)))); [done|lia|done|done|lia].
    - destruct Hk as [_ Hk]. destruct (Hk Hnil) as [Hk1 _]. apply (IHrest (Z.to_nat (len (wf_targets g') - (attempts + 1)))); [rewrite G4, Hk1 in *; lia|done|lia|done|done|lia]. }
  destruct r as [ended resp|e|r].
  - pose proof (shouldRedirect_ok g ended (sq_Method msg) redirects resp Hg Hc) as Hred. pose proof (redirect_fueled g ended redirects resp) as Hfu.
    destruct (shouldRedirectResponse g ended (sq_Method msg) redirects resp) as [[[g' redirects'] [|]]| | |] eqn:Er; try done;
      try (exists (S fuel0); cbn [round_trip_loop]; rewrite Hstep by lia; cbn beta iota; by rewrite Er).
    + destruct Hred as (G1 & _ & _ & -> & G5 & _ & Hne). destruct (Hturn g' attempts (redirects + 1)) as (fuel & Hfuel & H).
      { apply (IHleft (Z.to_nat (maxSIPRedirectTargets - (redirects + 1))) ltac:(unfold maxSIPRedirectTargets in *; lia) 1%nat (Z.to_nat (len (wf_targets g') - attempts))); [done|done|lia|done|lia]. }
      exists (S fuel). cbn [round_trip_loop]. rewrite Hstep by lia. cbn beta iota. by rewrite Er.
    + destruct Hred as [-> ->]. pose proof (shouldRetryResponse_ok g ended retryStatus attempts resp Hg Ha) as Hre. destruct (shouldRetryResponse g ended retryStatus attempts resp) as [[g' a'] [|]] eqn:Ere.
      * destruct (Hturn g' a' redirects (Hretry g g' a' eq_refl Hre)) as (fuel & Hfuel & H). exists (S fuel). cbn [round_trip_loop]. rewrite Hstep by lia. cbn beta iota. rewrite Er. by rewrite Ere.
      * exists (S fuel0). cbn [round_trip_loop]. rewrite Hstep by lia. cbn beta iota. rewrite Er. by rewrite Ere.
  - pose proof (shouldRetry_ok g attempts e Hg Hc Ha) as Hre. destruct (shouldRetry g attempts e) as [[g' a'] [|]] eqn:Ere.
    * destruct (Hturn g' a' redirects (Hretry g g' a' eq_refl Hre)) as (fuel & Hfuel & H). exists (S fuel). cbn [round_trip_loop]. rewrite Hstep by lia. cbn beta iota. by rewrite Ere.
    * exists (S fuel0). cbn [round_trip_loop]. rewrite Hstep by lia. cbn beta iota. by rewrite Ere.
  - exists (S fuel0). cbn [round_trip_loop]. rewrite Hstep by lia. exact H0.
Qed.
(** Each turn but the last counts as an attempt or as a redirect. *)
Lemma trip_bound fuel k f attempts redirects tried : flow_ok f -> 0 <= attempts -> attempts = 0 \/ attempts < len (wf_targets f) -> 0 <= redirects <= maxSIPRedirectTargets ->
  len tried = attempts + redirects ->
  let '(f', tried', r) := trip fuel k f attempts redirects tried in flow_ok f' /\ len tried' <= targetCountLocked f' + maxSIPRedirectTargets.
Proof.
  revert k f attempts redirects tried. induction fuel as [|fuel IH]; intros k f attempts redirects tried Hf Ha Hlt Hr Hl.
  - cbn. split; [done|]. unfold targetCountLocked. case_bool_decide as Hnil; [rewrite Hnil in Hlt; change (len (@nil bytes)) with 0 in Hlt; lia|]. assert (0 <= len (wf_targets f)) by (unfold len; lia). lia.
  - cbn [round_trip_loop]. pose proof (try_target_ok fuel f ctx (env k) msg onProvisional Hf) as Hok. destruct (try fuel f k) as [g r]. destruct Hok as (Hg & [_ Hk] & Hc).
    assert (Hl' : forall t, len (tried ++ [t]) = attempts + redirects + 1) by (intros t; unfold len in *; rewrite length_app; cbn; lia).
    assert (Hcount : attempts + 1 <= targetCountLocked g).
    { unfold targetCountLocked. destruct (decide (wf_targets f = [])) as [Hnil|Hnil].
      - rewrite Hnil in Hlt. change (len (@nil bytes)) with 0 in Hlt. case_bool_decide as Hg0; [lia|]. unfold len. destruct (wf_targets g); [done|]. cbn [length]. lia.
      - destruct (Hk Hnil) as [-> _]. rewrite bool_decide_false by done. assert (0 < len (wf_targets f)) by (unfold len; destruct (wf_targets f); [done|cbn; lia]). lia. }
    assert (Hend : forall t g', wf_targets g' = wf_targets g -> len (tried ++ [t]) <= targetCountLocked g' + maxSIPRedirectTargets).
    { intros t g' E. rewrite Hl'. replace (targetCountLocked g') with (targetCountLocked g) by (unfold targetCountLocked; by rewrite E). lia. }
    assert (Hretry : forall g', goes_on g g' attempts (attempts + 1) -> let '(f', tried', r) := trip fuel (S k) g' (attempts + 1) redirects (tried ++ [current_target g]) in
      flow_ok f' /\ len tried' <= targetCountLocked f' + maxSIPRedirectTargets).
    { intros g' (G1 & _ & _ & G4 & _ & _ & G7 & _). apply IH; [done|lia|rewrite G4; by right|done|rewrite Hl'; lia]. }
    destruct r as [ended resp|e|r].
    + pose proof (shouldRedirect_ok g ended (sq_Method msg) redirects resp Hg Hc) as Hred.
      destruct (shouldRedirectResponse g ended (sq_Method msg) redirects resp) as [[[g' redirects'] [|]]|e'| |]; [| |split; [done|by apply Hend]..].
      * destruct Hred as (G1 & _ & _ & -> & G5 & G6 & _). apply IH; [done|lia| |lia|rewrite Hl'; lia]. destruct Hlt as [?|Hlt]; [by left|right].
        assert (Hnil : wf_targets f <> []) by (intros E; rewrite E in Hlt; change (len (@nil bytes)) with 0 in Hlt; lia). destruct (Hk Hnil) as [E _]. rewrite E in G6. lia.
      * destruct Hred as [-> ->]. pose proof (shouldRetryResponse_ok g ended retryStatus attempts resp Hg Ha) as Hre. destruct (shouldRetryResponse _ _ _ _ _) as [[g' a'] [|]].
        { pose proof Hre as (_ & _ & _ & _ & _ & -> & _). by apply Hretry. }
        destruct Hre as [[E Hg'] _]. split; [done|by apply Hend].
    + pose proof (shouldRetry_ok g attempts e Hg Hc Ha) as Hre. destruct (shouldRetry _ _ _) as [[g' a'] [|]].
      { pose proof Hre as (_ & _ & _ & _ & _ & -> & _). by apply Hretry. }
      destruct Hre as [-> _]. split; [done|by apply Hend].
    + split; [done|by apply Hend].
Qed.
(** *** What can panic *)
(** The URI of the request or the contact of a redirect (the position of the scheme is searched in the lower-case text, which may be longer than the text itself:
    see [redirect_panics] in SipTargets), or a length that is declared on a stream (see [huge_length] in SipWire). *)
Inductive panic_cause : Prop :=
| panics_uri : parseSIPURIEndpoint (sq_URI msg) = Panic -> panic_cause
| panics_length k : huge_body (at_stream (env k)) -> panic_cause
| panics_contact fuel k f g ended resp : flow_ok f -> try fuel f k = (g, Answered ended resp) -> equal_fold (TrimSpace (sq_Method msg)) "INVITE" = false ->
    sipRedirectStatus (sr_StatusCode resp) = true -> sipRedirectTargets (sr_Headers resp) = Panic -> panic_cause.
Lemma send_panics f k : flow_ok f -> match (send_attempt f ctx (env k) msg).2 with inl (Over Panic) => panic_cause | _ => True end.
Proof.
  intros Hf. unfold send_attempt. pose proof (ensureConn_panics f (env k) (sq_URI msg) Hf) as H. destruct (ensureConnLocked f (env k) (sq_URI msg)) as [g [network|e| |]]; cbn [snd] in *; [|unfold missed; by destruct (ctx_Err _ _)|by apply panics_uri, H|exact I].
  destruct (at_SetDeadline (env k)); [cbn; by destruct (bool_decide _)|]. cbv zeta.
  pose proof (build_error (ensureSIPRequestVia msg (transportName network) (at_address (env k)) (at_random (env k))) (transportName network) (at_address (env k)) (at_random (env k))) as Hb.
  destruct (buildSIPRequestWire _ _ _ _); try done. destruct (at_write (env k) 0%nat); [cbn; unfold missed; by destruct (ctx_Err _ _)|done].
Qed.
Lemma try_panics fuel f k : flow_ok f -> match (try fuel f k).2 with Over Panic => panic_cause | _ => True end.
Proof.
  intros Hf. unfold try_target. pose proof (send_panics f k Hf) as Hs. destruct (send_attempt f ctx (env k) msg) as [g [r|[network sent]]]; cbn [snd] in *; [done|]. unfold readFinalSIPFlowResponse, readUDPResponseLocked.
  destruct (isSIPStreamNetwork network).
  - pose proof (stream_loop_panics fuel sent onProvisional (at_stream_ends (env k)) (at_stream_now (env k)) (at_stream (env k)) [] false) as Hp.
    destruct (stream_loop _ _ _ _ _ _ _ _) as [[| | |] ?]; cbn in *; try done; [unfold missed; by destruct (ctx_Err _ _)|]. by apply (panics_length k), Hp.
  - set (c := udp_call_of _ _ _ _ _). set (s := udp_start _ _). pose proof (udp_loop_no_panic fuel c s) as Hp. destruct (udp_loop _ _ _) as [s' [| | |]]; cbn in *; try done. unfold missed. by destruct (ctx_Err _ _).
Qed.
Lemma redirect_panics_on f done redirects resp : shouldRedirectResponse f done (sq_Method msg) redirects resp = Panic ->
  equal_fold (TrimSpace (sq_Method msg)) "INVITE" = false /\ sipRedirectStatus (sr_StatusCode resp) = true /\ sipRedirectTargets (sr_Headers resp) = Panic.
Proof.
  unfold shouldRedirectResponse. destruct (done || _ || _ || _) eqn:Hno; [done|]. apply orb_false_elim in Hno as [Hno ->]. apply orb_false_elim in Hno as [_ Hst]. unfold redirectToResponseTargetsLocked.
  destruct (sipRedirectTargets (sr_Headers resp)) as [l| | |]; [|done| |done]; [by destruct (sipTargetsWithRedirects _ _ _) as [[out next] [|]]|]. intros _. split_and!; [done|by destruct (sipRedirectStatus _)|done].
Qed.
Lemma trip_panics fuel k f attempts redirects tried : flow_ok f -> 0 <= attempts -> (trip fuel k f attempts redirects tried).2 = Panic -> panic_cause.
Proof.
  revert k f attempts redirects tried. induction fuel as [|fuel IH]; intros k f attempts redirects tried Hf Ha; [done|]. cbn [round_trip_loop]. pose proof (try_target_ok fuel f ctx (env k) msg onProvisional Hf) as Hok.
  pose proof (try_panics fuel f k Hf) as Hp. destruct (try fuel f k) as [g r] eqn:E. destruct Hok as (Hg & _ & Hc). destruct r as [ended resp|e|r].
  - pose proof (shouldRedirect_ok g ended (sq_Method msg) redirects resp Hg Hc) as Hred. pose proof (redirect_panics_on g ended redirects resp) as Hpan.
    destruct (shouldRedirectResponse g ended (sq_Method msg) redirects resp) as [[[g' redirects'] [|]]|e'| |]; try done.
    + apply IH; [apply Hred|done].
    + destruct Hred as [-> ->]. pose proof (shouldRetryResponse_ok g ended retryStatus attempts resp Hg Ha) as Hre. destruct (shouldRetryResponse _ _ _ _ _) as [[g' a'] [|]]; [|done].
      destruct Hre as (G1 & _ & _ & _ & _ & -> & _). apply IH; [done|lia].
    + intros _. destruct (Hpan eq_refl) as (H1 & H2 & H3). exact (panics_contact fuel k f g ended resp Hf E H1 H2 H3).
  - pose proof (shouldRetry_ok g attempts e Hg Hc Ha) as Hre. destruct (shouldRetry _ _ _) as [[g' a'] [|]]; [|done]. destruct Hre as (G1 & _ & _ & _ & _ & -> & _). apply IH; [done|lia].
  - cbn [snd]. by intros ->.
Qed.
(** C31: a round trip ends, and panics only for three reasons.  Whatever the servers do - refuse, stay silent, answer with failures, redirect to each other - enough fuel gives a result, the same for all
    larger amounts of fuel: a response or an error, or a panic of the client, and that only if the URI of the request makes [parseSIPURIEndpoint] panic, or
    a head in the stream of some attempt declares a body beyond what [make] can allocate, or a redirect that answers some attempt (of a request other than INVITE) has a contact
    that makes the URI parser panic.  No more servers are tried than there are targets at the end, and four for redirects; and the flow keeps its invariant. *)
Theorem round_trip_returns f : flow_ok f ->
  exists enough, forall fuel, (enough <= fuel)%nat ->
  roundTrip fuel f ctx env msg onProvisional retryStatus = roundTrip enough f ctx env msg onProvisional retryStatus /\
  let '(f', tried, r) := roundTrip fuel f ctx env msg onProvisional retryStatus in
  r <> OutOfFuel /\ (r = Panic -> panic_cause) /\ flow_ok f' /\ len tried <= targetCountLocked f' + maxSIPRedirectTargets.
Proof.
  intros Hf. destruct (trip_ends (Z.to_nat maxSIPRedirectTargets) 1 (Z.to_nat (len (wf_targets f))) 0 f 0 0 [] Hf) as [enough H]; [lia|lia|done|lia|].
  exists enough. intros fuel Hfuel. unfold roundTrip. assert (E := trip_more enough fuel 0 f 0 0 [] Hfuel H). cbn beta in E. split; [exact E|]. cbn beta in H. rewrite E.
  pose proof (trip_bound enough 0 f 0 0 [] Hf ltac:(lia) ltac:(by left) ltac:(unfold maxSIPRedirectTargets; lia) eq_refl) as Hb. pose proof (trip_panics enough 0 f 0 0 [] Hf ltac:(lia)) as Hp. cbn beta in Hb, Hp.
  destruct (round_trip_loop enough _ _ _ _ _ _ _ _ _ _) as [[f' tried] r]. cbn in H, Hp. split; [by destruct r|done].
Qed.
(** *** Without redirects *)
Definition no_redirects : Prop := equal_fold (TrimSpace (sq_Method msg)) "INVITE" = true \/
  forall fuel f k f' ended resp, flow_ok f -> try fuel f k = (f', Answered ended resp) -> sipRedirectStatus (sr_StatusCode resp) = false.
Lemma try_shape fuel f k : never_done ctx -> match (try fuel f k).2 with
  | Answered ended _ => ended = false
  | Over (Ok _) => False
  | Over (Err e) => isSIPRetryableTransportError e = false
  | _ => True
  end.
Proof.
  intros Hctx. assert (Hn : forall now, ctx_Err ctx now = None) by (intros now; unfold ctx_Err; by rewrite Hctx). unfold try_target, send_attempt, missed.
  destruct (ensureConnLocked f (env k) (sq_URI msg)) as [g [network|e'| |]]; [|by rewrite Hn|done..]. rewrite Hn. destruct (at_SetDeadline (env k)); [done|]. cbv zeta.
  pose proof (build_error (ensureSIPRequestVia msg (transportName network) (at_address (env k)) (at_random (env k))) (transportName network) (at_address (env k)) (at_random (env k))) as Hb.
  destruct (buildSIPRequestWire _ _ _ _); [|by destruct Hb as [text ->]|done..].
  destruct (at_write (env k) 0%nat); [done|]. destruct (if isSIPStreamNetwork network then _ else _) as [[resp|e'| |] ended]; cbn; by rewrite ?Hn.
Qed.
(** A result that another target might have bettered. *)
Definition gives_up (r : outcome flow_error SIPResponse) : Prop :=
  match r with Ok resp => retryStatus (sr_StatusCode resp) = true | Err e => is_final_timeout e = false /\ isSIPRetryableTransportError e = true | _ => False end.
Lemma trip_ring fuel k f a i tried : flow_ok f -> wf_targets f <> [] -> never_done ctx -> no_redirects -> (a < length (wf_targets f))%nat ->
  wf_targetIndex f = (i + Z.of_nat a) mod len (wf_targets f) -> tried = ring (wf_targets f) i a ->
  let '(f', tried', r) := trip fuel k f (Z.of_nat a) 0 tried in
  wf_targets f' = wf_targets f /\ exists m, tried' = ring (wf_targets f) i m /\ (m <= length (wf_targets f))%nat /\ (gives_up r -> m = length (wf_targets f)).
Proof.
  revert k f a tried. induction fuel as [|fuel IH]; intros k f a tried Hf Hne Hctx Hno Ha Hi ->.
  - cbn. split; [done|]. exists a. split_and!; [done|lia|done].
  - cbn [round_trip_loop]. pose proof (try_target_ok fuel f ctx (env k) msg onProvisional Hf) as Hok. destruct (try fuel f k) as [g r] eqn:E. destruct Hok as (Hg & [_ Hk] & Hc). destruct (Hk Hne) as [Et Ei].
    pose proof (try_shape fuel f k Hctx) as Hshape. rewrite E in Hshape. cbn [snd] in Hshape.
    assert (Hcur : ring (wf_targets f) i a ++ [current_target g] = ring (wf_targets f) i (S a)) by (rewrite ring_S; unfold current_target, ring_at; by rewrite Et, Ei, Hi). rewrite Hcur.
    assert (Hcount : targetCountLocked g = len (wf_targets f)) by (unfold targetCountLocked; rewrite Et; by rewrite bool_decide_false).
    assert (Hretry : forall g', goes_on g g' (Z.of_nat a) (Z.of_nat a + 1) -> let '(f', tried', r) := trip fuel (S k) g' (Z.of_nat a + 1) 0 (ring (wf_targets f) i (S a)) in
      wf_targets f' = wf_targets f /\ exists m, tried' = ring (wf_targets f) i m /\ (m <= length (wf_targets f))%nat /\ (gives_up r -> m = length (wf_targets f))).
    { intros g' (G1 & G2 & G3 & G4 & G5 & _ & G7 & G8). rewrite Et in G4, G5, G7, G8. replace (Z.of_nat a + 1) with (Z.of_nat (S a)) by lia. specialize (IH (S k) g' (S a) (ring (wf_targets f) i (S a))). rewrite G4 in IH.
      apply IH; [done|done|done|done|unfold len in G7; lia| |done]. rewrite G5. unfold next_index. rewrite Ei, Hi, Zplus_mod_idemp_l. f_equal. lia. }
    assert (Hstop : forall res : outcome flow_error SIPResponse, (gives_up res -> len (wf_targets f) <= Z.of_nat a + 1) -> exists m, ring (wf_targets f) i (S a) = ring (wf_targets f) i m /\ (m <= length (wf_targets f))%nat /\ (gives_up res -> m = length (wf_targets f))).
    { intros res Hres. exists (S a). split_and!; [done|lia|]. intros H. specialize (Hres H). unfold len in Hres. lia. }
    destruct r as [ended resp|e|r].
    + assert (Er : shouldRedirectResponse g ended (sq_Method msg) 0 resp = Ok (g, 0, false)).
      { unfold shouldRedirectResponse. destruct Hno as [->|Hno]; [by rewrite orb_true_r|]. rewrite (Hno fuel f k g ended resp Hf E). by rewrite orb_true_r. }
      rewrite Er. pose proof (shouldRetryResponse_ok g ended retryStatus (Z.of_nat a) resp Hg ltac:(lia)) as Hre. destruct (shouldRetryResponse _ _ _ _ _) as [[g' a'] [|]].
      { pose proof Hre as (_ & _ & _ & _ & _ & -> & _). by apply Hretry. }
      destruct Hre as [[Et' _] Hre]. split; [congruence|]. apply Hstop. rewrite <- Hcount. cbn. intros H. by apply Hre.
    + pose proof (shouldRetry_ok g (Z.of_nat a) e Hg Hc ltac:(lia)) as Hre. destruct (shouldRetry _ _ _) as [[g' a'] [|]].
      { pose proof Hre as (_ & _ & _ & _ & _ & -> & _). by apply Hretry. }
      destruct Hre as [-> Hre]. split; [done|]. apply Hstop. rewrite <- Hcount. cbn. intros [H1 H2]. by apply Hre.
    + split; [done|]. apply Hstop. destruct r as [resp|e| |]; cbn; try done.
      intros [_ H]. congruence.
Qed.
(** C30: failover goes round.  Over a list of targets that is known, without redirects (an INVITE follows none), under a context that is never done, a round trip tries the targets in the order of the list from the
    current one on, over its end to its beginning, none of them twice; it gives up - returns a failure of the transport, or a
    response for which the caller asks for another server - only when it has tried every one. *)
Theorem every_target_tried f : flow_ok f -> wf_targets f <> [] -> never_done ctx -> no_redirects ->
  exists enough, forall fuel, (enough <= fuel)%nat ->
  let '(f', tried, r) := roundTrip fuel f ctx env msg onProvisional retryStatus in
  r <> OutOfFuel /\ wf_targets f' = wf_targets f /\ NoDup tried /\ (exists m, tried = ring (wf_targets f) (wf_targetIndex f) m) /\
  (gives_up r -> tried ≡ₚ wf_targets f).
Proof.
  intros Hf Hne Hctx Hno. destruct (trip_ends (Z.to_nat maxSIPRedirectTargets) 1 (Z.to_nat (len (wf_targets f))) 0 f 0 0 [] Hf) as [enough H]; [lia|lia|done|lia|].
  exists enough. intros fuel Hfuel. unfold roundTrip. pose proof (trip_more enough fuel 0 f 0 0 [] Hfuel H) as E. cbn beta in E, H. rewrite E.
  pose proof (fo_targets f Hf) as [Hnd _]. destruct (fo_index f Hf) as [Hi1 Hi2]. specialize (Hi2 Hne).
  pose proof (trip_ring enough 0 f 0 (wf_targetIndex f) [] Hf Hne Hctx Hno) as Hr. cbn beta in Hr. change (Z.of_nat 0) with 0 in Hr. destruct (round_trip_loop enough _ _ _ _ _ _ _ _ _ _) as [[f' tried] r].
  destruct Hr as (E1 & m & E2 & Hm & Hg); [destruct (wf_targets f); [done|cbn; lia]|rewrite Z.add_0_r; symmetry; by apply Z.mod_small|done|]. cbn in H. split_and!; [by destruct r|done| |by exists m|].
  - rewrite E2. by apply ring_nodup.
  - intros Hr. rewrite E2, (Hg Hr). by apply ring_all.
Qed.
(** *** Every call keeps the invariant *)
Lemma write_loop_ok fuel k f attempts : flow_ok f -> 0 <= attempts -> flow_ok (write_request_loop fuel ctx env msg k f attempts).1.
Proof.
  revert k f attempts. induction fuel as [|fuel IH]; intros k f attempts Hf Ha; [done|]. cbn [write_request_loop]. pose proof (send_attempt_ok f ctx (env k) msg Hf) as H.
  destruct (send_attempt f ctx (env k) msg) as [g [r|sent]]; destruct H as [[Hg _] Hc]; [|done]. destruct r as [|e|[| | |]]; try done.
  pose proof (shouldRetry_ok g attempts e Hg Hc Ha) as Hre. destruct (shouldRetry _ _ _) as [[g' a'] [|]]; [|by destruct Hre as [-> _]].
  destruct Hre as (G1 & _ & _ & _ & _ & -> & _). apply IH; [done|lia].
Qed.
Lemma keepalive_ok f k : flow_ok f -> flow_ok (SendCRLFKeepalive f (env k)).1.
Proof.
  intros Hf. unfold SendCRLFKeepalive. destruct (wf_closed f); [done|]. set (start := if wf_conn f then _ else _).
  assert (Hs : flow_ok start.1).
  { unfold start. destruct (wf_conn f); [done|]. cbv zeta. case_bool_decide; [done|]. match goal with |- flow_ok (ensureConnLocked f _ ?u).1 => pose proof (ensureConn_ok f (env k) u Hf) as H' end.
    destruct (ensureConnLocked _ _ _). by destruct H'. }
  destruct start as [g [u|e| |]]; cbn [fst] in *; try done. destruct (at_SetDeadline (env k)); [exact (proj1 (closed_ok g Hs))|]. destruct (at_write (env k) 0%nat); [exact (proj1 (closed_ok g Hs))|done].
Qed.
Theorem calls_keep_invariant fuel f k : flow_ok f ->
  flow_ok (roundTrip fuel f ctx env msg onProvisional retryStatus).1.1 /\ flow_ok (WriteRequest fuel f ctx env msg).1 /\ flow_ok (SendCRLFKeepalive f (env k)).1 /\
  flow_ok (Close f) /\ flow_ok (Reset f).1 /\ flow_ok (ResetToNextTarget f).1.
Proof.
  intros Hf. pose proof Hf as [H1 H2 H3 H4 H5]. refine (conj _ (conj _ (conj _ (conj _ (conj _ _))))).
  - pose proof (trip_bound fuel 0 f 0 0 [] Hf ltac:(lia) ltac:(by left) ltac:(unfold maxSIPRedirectTargets; lia) eq_refl) as H. cbn beta in H. unfold roundTrip. destruct (round_trip_loop _ _ _ _ _ _ _ _ _ _ _) as [[f' tried] r]. exact (proj1 H).
  - by apply write_loop_ok.
  - by apply keepalive_ok.
  - by constructor.
  - unfold Reset. destruct (wf_closed f); [done|]. constructor; cbn; try done; [apply good_nil|by left].
  - unfold ResetToNextTarget. destruct (wf_closed f); [done|]. destruct (closed_ok f Hf) as [Hc _]. cbv zeta. destruct (negb _); [done|]. destruct (_ <=? 1).
    + constructor; cbn; try done; [apply good_nil|by left].
    + destruct (advanceTargetLocked (closeConnLocked f)) as [g ok] eqn:E. destruct ok; [by apply (advance_ok _ _ Hc eq_refl) in E as (? & _)|].
      unfold advanceTargetLocked in E. destruct (_ <=? 1); by injection E as <-.
Qed.
End round_trip.

(** ** Samples *)
Section samples.
#[local] Instance plain_case : UnicodeCase := {| unicode_ToUpper r := r; unicode_ToLower r := r |}.
#[local] Instance plain_text : TextTables := {| fold_beyond r := r; time_Parse _ _ := None |}.
#[local] Instance plain_order : RangeOrder := {| range_map A _ m := map_to_list m; range_map_perm A _ m := reflexivity _ |}.
#[local] Instance plain_addresses : NetText := {| net_ParseIP _ := None; IP_String ip := ip |}.
#[local] Instance plain_floats : FloatText := {| ParseFloat _ := None |}.
Definition two_servers : WireSIPFlow :=
  mkFlow (go_bytes "udp") [] (CandidateResolver (fun _ _ => inr [])) 0 0 0 0 0 false [] [] [go_bytes "a:5060"; go_bytes "b:5060"] 1 false false.
Definition refused : flow_error := NetError (mkNetError false false true true).
Definition sample_context : context := mkContext None read_timeout.
Definition sample_invite : SIPRequestMessage := mkSIPRequest (go_bytes "INVITE") (go_bytes "sip:x@a") ∅ [].
Definition refusing (k : nat) : attempt := mkAttempt 0 (Some refused) None None None (fun _ => None) [] [] end_of_file 0 (fun _ => 0%nat).
Example both_refuse : (roundTrip 9 two_servers sample_context refusing sample_invite None sipDialogTargetFailoverStatus).1.2 = [go_bytes "b:5060"; go_bytes "a:5060"]
  /\ (roundTrip 9 two_servers sample_context refusing sample_invite None sipDialogTargetFailoverStatus).2 = Err refused.
Proof. vm_compute. done. Qed.
Lemma two_servers_ok : flow_ok two_servers.
Proof.
  constructor; [split; [by_decide|repeat constructor; by_decide]|split; [by_decide|intros _; by_decide]|by right; left|done|done].
Qed.
(** The servers refuse, and the URI is a plain one: the round trip returns an error. *)
Lemma round_trip_returns_witness : flow_ok two_servers /\ exists enough, forall fuel, (enough <= fuel)%nat ->
  let '(f', tried, r) := roundTrip fuel two_servers sample_context refusing sample_invite None sipDialogTargetFailoverStatus in
  r <> OutOfFuel /\ r <> Panic /\ flow_ok f' /\ len tried <= targetCountLocked f' + maxSIPRedirectTargets.
Proof.
  split; [apply two_servers_ok|]. destruct (round_trip_returns sample_context refusing sample_invite None sipDialogTargetFailoverStatus two_servers two_servers_ok) as (enough & H).
  exists enough. intros fuel Hf. specialize (H fuel Hf) as [_ Hr]. revert Hr. destruct (roundTrip fuel _ _ _ _ _ _) as [[f' tried] r]. intros (H1 & H2 & H3 & H4). split_and!; try done.
  intros [H5|k (before & behind & head & rest & n & E & Hh & _)|? ? ? ? ? ? _ _ Hm _ _]%H2; [by vm_compute in H5| |by vm_compute in Hm].
  cbn in E. symmetry in E. apply app_nil in E as [_ ->]. by vm_compute in Hh.
Defined.
Lemma every_target_tried_witness : flow_ok two_servers /\ exists enough, forall fuel, (enough <= fuel)%nat ->
  let '(f', tried, r) := roundTrip fuel two_servers sample_context refusing sample_invite None sipDialogTargetFailoverStatus in
  r <> OutOfFuel /\ NoDup tried /\ (gives_up sipDialogTargetFailoverStatus r -> tried ≡ₚ [go_bytes "a:5060"; go_bytes "b:5060"]).
Proof.
  split; [apply two_servers_ok|]. destruct (every_target_tried sample_context refusing sample_invite None sipDialogTargetFailoverStatus two_servers two_servers_ok) as (enough & H); [done|done|left; by vm_compute|].
  exists enough. intros fuel Hf. specialize (H fuel Hf). destruct (roundTrip _ _ _ _ _ _ _) as [[f' tried] r]. destruct H as (H1 & _ & H2 & _ & H3). split_and!; done.
Defined.
End samples.
